(* ===== verification/_CoqProject ===== *)
-Q . S2P
Prelude.v
GoLib.v
ServiceId.v
SignalId.v
MediaId.v
RangeTree.v
SignalFmt.v
MatrixFmt.v
Crypto.v
Attachments.v
AttachmentStream.v
Provisioning.v
Storage.v
ChatSettings.v
RecipientStore.v
StorageSync.v
ChatBridge.v
Groups.v
GroupCache.v
GroupChanges.v
GroupUpdate.v
GroupSamples.v
Sending.v
Requests.v
SenderKeys.v
GroupSend.v
SenderKeySafety.v
SendSamples.v
WsMessages.v
WsLoops.v
WsSafety.v
WsCallers.v
WsLiveness.v
RingRTC.v
CallMedia.v
ReceiveLoops.v
Contacts.v
ReceivingDecrypt.v
Receiving.v
ReceiveSafety.v
ReceiveSamples.v
CallBridge.v
CallSafety.v
CallCandidates.v
CallSamples.v
PreKeys.v
Linking.v
ConvertSignal.v
GroupView.v
ChatEvents.v
ConvertMatrix.v
MatrixEvents.v
