(* ===== verification/Prelude.v ===== *)
(** * mautrix-signal: a verification library

    mautrix-signal bridges Signal to Matrix.  [pkg/signalmeow] is the Signal
    client (sending and receiving, groups, attachments, the storage service,
    the SQL stores), [pkg/libsignalgo] binds it to the C library libsignal,
    [pkg/msgconv] converts messages, [pkg/signalid] holds the identifiers both
    sides use, and [pkg/connector] plugs the client into the bridge framework.
    This library models the parts of them that carry logic of their own and
    proves what makes them correct.

    ** How the code is modelled

    A Go function is a Rocq function.  [outcome] has the three ways a call can
    end: a value, an error, a panic (index out of range, nil pointer,
    conversion of a short slice to an array).  Code that changes state passes
    it on: the monad [stateE], with [let*], over the record of the component
    ([SendState], [GroupClient], the recipient store, ...).  Integers are [Z]
    with their wrap-around written out ([wrap], [uint32], [uint64], [int64]),
    bytes are [byte], arrays of fixed size are [fixed n].  Pointers that are
    shared and written through are references into a heap ([GroupCache]).
    Loops are structural or take fuel; the fuel of the retrying operations is
    the retry limit of the code, so running out of it is the code giving up.

    Where goroutines share state and their order matters (the websocket, a
    call) the component is a machine: a record of the shared state with the
    position of every goroutine, a partial function [step] from a label (which
    goroutine runs, and what the network or a library answers) to the next
    state, and [reach] for the states of all interleavings.  Invariants are
    proved by induction on [reach].  A step ends where the goroutine takes a
    lock, uses a channel or calls a library.

    Code that is not in the repository is a class: its operations are the
    class, its documented behaviour a second class of laws ([CryptoLib] and
    [CryptoLaws], [ZkGroup] and [ZkGroupLaws], [UUIDLib], [CurveLib],
    [SignalProtocol], [MessageCodec], [StorageAPI], ...).  The server is such a
    parameter everywhere ([StorageAPI], [GroupNetwork], [MessageNetwork]) and
    answers whatever it likes.  Theorems about the code only assume the laws
    they need; every one with hypotheses has a run on concrete instances
    ([SampleStorage], [SampleCurve], [SampleGroups], [SampleSends]) that shows
    they can hold.

    ** The files

    - [Prelude]: this file: outcomes, the state monad with its rules ([sframe],
      [swp]: what an operation does to the state, which errors it has, what its
      results satisfy), bytes, fixed arrays, machine integers, tactics.
    - [GoLib]: the parts of the Go standard library in use: varints, decimal
      numbers, base64, strings, UTF-8 and UTF-16.
    - [ServiceId], [SignalId], [MediaId]: service and group identifiers
      ([libsignalgo/serviceid.go], [types/identifer.go]), user, portal and
      message identifiers ([signalid/ids.go]), direct media identifiers
      ([signalid/media.go]).  Parsing reads back what was written; foreign
      input is refused without a panic where it is.
    - [RangeTree], [SignalFmt]: [msgconv/signalfmt]: the tree of body ranges
      refines interval nesting, and [Parse] renders text, mentions and styles.
    - [MatrixFmt]: [msgconv/matrixfmt]: a document without the empty elements,
      empty links and list numbers that [safe] excludes does not make the
      conversion panic, and splitting keeps text and ranges.
    - [Crypto], [Attachments], [AttachmentStream], [Provisioning]: AES-CBC, CTR
      and GCM as driven by hand ([profile.go], [storagewrite.go]),
      attachments in memory, in files and as streams ([attachments.go],
      [attachments_stream.go], [backup.go]), provisioning and device names
      ([provisioning_cipher.go], [devicename.go]).  What was encrypted is
      decrypted; data that does not authenticate is not delivered.
    - [Storage], [StorageSync]: the storage service ([storageservice.go],
      [storagewrite.go]): a write that is reported as done is one that the
      server accepted on the version it was built from; whatever is written is
      what other devices see; retries are bounded.
    - [ChatSettings], [ChatBridge]: chat settings in storage records
      ([chatsettings.go], [types/chatsettings.go]) and between Signal and
      Matrix ([connector/chatsettings.go], [handlechatsettings.go]): changes do
      what they say and do not echo.
    - [RecipientStore]: the recipient table ([store/recipient_store.go]): the
      unique constraints are kept and rows merge; what an update stores and what
      it returns are stated for every updater that keeps the identifiers, also
      one that fails or does not report its change.
    - [Groups], [GroupCache], [GroupChanges], [GroupUpdate], [GroupSamples]:
      groups ([groups.go], [groupcache.go]): decrypting a change gives back what
      was encrypted, the cached groups follow the server's changes and are
      never stale, updates end after a bounded number of attempts and keep the
      invariant of the cache.
    - [Sending], [Requests]: sending to users ([sending.go], [keys.go],
      [store/session_store.go]) and what a send may request.
    - [SenderKeys], [GroupSend], [SenderKeySafety], [SendSamples]: sending to
      groups with sender keys ([senderkey.go], [store/sender_key_store.go]) and
      retry requests ([retry.go]): every member is accounted for, except by typing
      notices; in every run
      of the client a sender key is only used while all who have it are members,
      and only towards users who were sent it.

    - [WsMessages]: requests and responses of the websocket, the connect loop
      as a function of what the dials and sessions do
      ([web/signalwebsocket.go], [web/web.go]): it refines a stated policy of
      reconnecting and backing off.
    - [WsLoops], [WsSafety], [WsCallers], [WsLiveness]: the websocket as a
      machine: connect loop, reader, writer, pinger, handler of incoming
      requests, any number of callers.  Nothing panics, a caller only gets the
      response to its own request, a caller whose request was registered before
      the connection was cleaned up can always go on; two ways to hang are shown.
    - [Contacts], [ReceivingDecrypt], [Receiving], [ReceiveLoops]: contact lists
      ([contact.go]), decryption of envelopes ([receiving_decrypt.go],
      [store/identity_store.go]), handling of their content ([receiving.go],
      [store/event_buffer.go]), the buffer cleanup and connection status loops.
    - [ReceiveSafety], [ReceiveSamples]: over all runs of the receiving side a
      message that the bridge refuses is neither acknowledged nor deleted until
      a later delivery of it is not refused, and it is not handled twice; events
      carry the sender that was authenticated, blocked senders are not bridged,
      the stored state stays well formed.  A way to lose a message is shown.
    - [RingRTC], [CallMedia]: call signalling and media legs ([ringrtc]): what
      is encoded is decoded, and both ends of a call agree on keys and streams.
    - [CallBridge], [CallSafety], [CallCandidates], [CallSamples]: bridged calls
      as a machine ([connector/callbridging.go]): one call at a time, ended
      once and always ended, no candidate lost or used twice.
    - [PreKeys], [Linking]: the own prekeys ([keys.go], [store/prekey_store.go])
      and device linking ([provisioning.go], [store/container.go]): what is
      uploaded is what is stored, keys are not replaced, and a linked device
      agrees with its server.
    - [ConvertSignal], [ConvertMatrix]: messages in both directions
      ([msgconv/from-signal.go], [story.go], [album.go], [from-matrix.go],
      [urlpreview.go], [imagepack.go]): votes and timers converge, view-once
      media is protected, and a plain text arrives as it was written.  Uploads and
      downloads are an interface there ([Transfer]), which [Attachments]
      implements.
    - [GroupView]: groups as rooms ([connector/groupinfo.go]): the room that
      follows the changes of a group shows the group.
    - [ChatEvents]: Signal events of the bridge ([connector/handlesignal.go],
      [pins.go]): messages and stories convert (the inputs on which the code
      panics are named), edits are of the sender's own messages, group changes
      come in order, receipts reach their rooms.
    - [MatrixEvents]: Matrix events of the bridge
      ([connector/handlematrix.go]): changes of members come back as they were
      made, authors are told what was read, deletions, votes and blocks are
      understood by the other devices.

    ** Bounds

    The fuel of [modify_loop] is the retry limit of [modifyStorage], of
    [update_attempts] the five retries of [UpdateGroup], of [sendContent] its
    four tries and of [sendToGroupWithSenderKey] its three attempts.
    [Read], [chunk_loop] and [fetch_chunks] recurse on the data that is left.
    [consume_loop] and [contact_loop] have the length of their input as fuel,
    and every round consumes a byte.  Request identifiers of the websocket are
    64-bit integers; matching responses assumes that fewer than 2^64 are used.
    The theorems on sender keys assume that the UUIDs drawn during the run
    differ: a bound [B] on the number of draws, and distinctness below it.

    ** Not modelled

    SQL, HTTP and gRPC (transport), generated protobuf code, and libsignal, ICE
    and SRTP themselves; logging.  Outside the two machines operations run one
    after another and locks are left out: where an operation releases a lock and
    goes on, or starts a goroutine (the background tasks of receiving), the
    parts are separate steps between which others run.  Go iterates maps in any
    order, the model in the order of the finite map; where the order is visible
    the theorems do not depend on it.  Database reads and writes do not fail.
    The bridge framework is what it is given: events that are queued, rows of
    its message table, a room state; the client is answers to recorded calls in
    [MatrixEvents].  Left out, because they pass data on between the network,
    the database and the framework without logic of their own: contact
    discovery, usernames, profile downloads, push registration, the backup
    store and its conversion, sticker pack imports, login steps, capabilities
    and configuration ([connector/client.go], [chatinfo.go], [backfill.go]). *)
From Stdlib Require Export ZArith Lia.
From Stdlib Require Export Strings.Byte.
From stdpp Require Export base tactics list gmap sets strings.

#[global] Set Default Goal Selector "!".

Declare Scope signal_scope.
Delimit Scope signal_scope with sig.
Global Open Scope signal_scope.
Global Open Scope Z_scope.

(** [lia] also sees division and remainder by constants. *)
Ltac Zify.zify_post_hook ::= Z.to_euclidean_division_equations.

(** ** Outcomes of Go calls

    A call of a Go function that returns [(T, error)] ends in a value
    ([Ok]), a non-nil error ([Err]) or a run-time panic ([Panic]); a pure
    function that may panic uses the same type with an empty error type. *)
Inductive outcome (E A : Type) : Type :=
| Ok (a : A)
| Err (e : E)
| Panic.
Arguments Ok {E A} a.
Arguments Err {E A} e.
Arguments Panic {E A}.

Definition obind {E A B : Type} (m : outcome E A) (f : A -> outcome E B) : outcome E B :=
  match m with
  | Ok a => f a
  | Err e => Err e
  | Panic => Panic
  end.

Notation "'let!' x ':=' m 'in' k" := (obind m (fun x => k))
  (at level 10, x pattern, m at level 100, k at level 200) : signal_scope.

Definition outmap {E A B : Type} (f : A -> B) (m : outcome E A) : outcome E B :=
  obind m (fun a => Ok (f a)).

(** [fmt.Errorf("...: %w", err)] around a call: the error is replaced. *)
Definition wrap_err {E F A : Type} (w : E -> F) (m : outcome E A) : outcome F A :=
  match m with
  | Ok a => Ok a
  | Err e => Err (w e)
  | Panic => Panic
  end.

Definition of_option {E A : Type} (e : E) (o : option A) : outcome E A :=
  match o with Some a => Ok a | None => Err e end.

Definition is_ok {E A : Type} (m : outcome E A) : bool :=
  match m with Ok _ => true | _ => false end.

Definition is_panic {E A : Type} (m : outcome E A) : bool :=
  match m with Panic => true | _ => false end.

Lemma obind_Ok_inv {E A B : Type} (m : outcome E A) (f : A -> outcome E B) b :
  obind m f = Ok b -> exists a, m = Ok a /\ f a = Ok b.
Proof. destruct m; simpl; intros H; try discriminate. eauto. Qed.

Lemma Ok_inj {E A : Type} (a b : A) : Ok (E := E) a = Ok b -> a = b.
Proof. congruence. Qed.

Lemma outmap_Ok_inv {E A B : Type} (f : A -> B) (m : outcome E A) b :
  outmap f m = Ok b -> exists a, m = Ok a /\ b = f a.
Proof. unfold outmap. destruct m; simpl; intros H; try discriminate. injection H as <-. eauto. Qed.

Lemma obind_assoc {E A B C : Type} (m : outcome E A) (f : A -> outcome E B) (g : B -> outcome E C) :
  obind (obind m f) g = obind m (fun a => obind (f a) g).
Proof. by destruct m. Qed.

Lemma obind_no_panic {E A B : Type} (m : outcome E A) (f : A -> outcome E B) :
  is_panic m = false -> (forall a, m = Ok a -> is_panic (f a) = false) ->
  is_panic (obind m f) = false.
Proof. destruct m; simpl; auto. Qed.

(** Iterating a fallible step over a slice, left to right. *)
Fixpoint ofoldl {E A B : Type} (f : B -> A -> outcome E B) (b : B) (l : list A) : outcome E B :=
  match l with
  | [] => Ok b
  | a :: l' => let! b' := f b a in ofoldl f b' l'
  end.

Lemma ofoldl_app {E A B : Type} (f : B -> A -> outcome E B) l1 l2 : forall b,
  ofoldl f b (l1 ++ l2) = let! b' := ofoldl f b l1 in ofoldl f b' l2.
Proof.
  induction l1 as [|a l1 IH]; intros b; simpl; [done|].
  rewrite obind_assoc. destruct (f b a); simpl; auto.
Qed.

Lemma ofoldl_pure {E A B : Type} (f : B -> A -> B) (l : list A) : forall b,
  ofoldl (E := E) (fun b a => Ok (f b a)) b l = Ok (fold_left f l b).
Proof. induction l as [|a l IH]; intros b; simpl; auto. Qed.

Lemma ofoldl_invariant {E A B : Type} (P : B -> Prop) (f : B -> A -> outcome E B) (l : list A) :
  (forall b a b', P b -> f b a = Ok b' -> P b') ->
  forall b b', P b -> ofoldl f b l = Ok b' -> P b'.
Proof.
  intros Hstep. induction l as [|a l IH]; simpl; intros b b' Hb H; [congruence|].
  apply obind_Ok_inv in H as (b1 & H1 & H2). eauto.
Qed.

Section MapM.
Context {E A B : Type} (f : A -> outcome E B).

Fixpoint omapM (l : list A) : outcome E (list B) :=
  match l with
  | [] => Ok []
  | a :: l' => let! b := f a in let! bs := omapM l' in Ok (b :: bs)
  end.

Lemma omapM_Ok (l : list A) bs : omapM l = Ok bs <-> Forall2 (fun a b => f a = Ok b) l bs.
Proof.
  revert bs. induction l as [|a l IH]; intros bs; simpl; split; intros H.
  - injection H as <-. constructor.
  - by inversion H.
  - apply obind_Ok_inv in H as (b & Hb & H). apply obind_Ok_inv in H as (bs' & Hbs & H).
    injection H as <-. constructor; [done|]. by apply IH.
  - inversion H as [|? b ? bs' Hb Hbs]; subst. apply IH in Hbs. by rewrite Hb, Hbs.
Qed.
End MapM.

(** Loops that append a result for some elements ([continue] is [None]). *)
Fixpoint ofor {E A B : Type} (f : A -> outcome E (option B)) (l : list A) : outcome E (list B) :=
  match l with
  | [] => Ok []
  | a :: l' => let! o := f a in let! bs := ofor f l' in Ok (match o with Some b => b :: bs | None => bs end)
  end.

Lemma ofor_map {E A B C : Type} (f : A -> outcome E (option B)) (g : C -> A) (h : C -> B) l :
  (forall c, c ∈ l -> f (g c) = Ok (Some (h c))) -> ofor f (map g l) = Ok (map h l).
Proof.
  induction l as [|c l IH]; intros H; [done|]. cbn [map ofor]. rewrite H by left. cbn [obind].
  rewrite IH; [done|]. intros c' Hc'. apply H. by right.
Qed.

(** ** State with errors
    Code that changes state before it fails: the state is kept. *)
Definition stateE (S E A : Type) : Type := S -> S * outcome E A.

Definition slift {S E A : Type} (m : outcome E A) : stateE S E A := fun s => (s, m).
Definition sret {S E A : Type} (a : A) : stateE S E A := slift (Ok a).
Definition sbind {S E A B : Type} (m : stateE S E A) (k : A -> stateE S E B) : stateE S E B := fun s =>
  match m s with
  | (s', Ok a) => k a s'
  | (s', Err e) => (s', Err e)
  | (s', Panic) => (s', Panic)
  end.
Notation "'let*' x ':=' m 'in' k" := (sbind m (fun x => k))
  (at level 10, x pattern, m at level 100, k at level 200) : signal_scope.
Definition smodify {S E : Type} (f : S -> S) : stateE S E unit := fun s => (f s, Ok tt).

Fixpoint sfor {S E A B : Type} (f : A -> stateE S E (option B)) (l : list A) : stateE S E (list B) :=
  match l with
  | [] => sret []
  | a :: l' => let* o := f a in let* bs := sfor f l' in sret (match o with Some b => b :: bs | None => bs end)
  end.

Lemma sbind_eq {S E A B : Type} (m : stateE S E A) (k : A -> stateE S E B) s s1 r : m s = (s1, r) ->
  sbind m k s = match r with Ok a => k a s1 | Err e => (s1, Err e) | Panic => (s1, Panic) end.
Proof. unfold sbind. intros ->. by destruct r. Qed.

Lemma sbind_ext {S E A B : Type} (m : stateE S E A) (k1 k2 : A -> stateE S E B) s :
  (forall a s1, k1 a s1 = k2 a s1) -> sbind m k1 s = sbind m k2 s.
Proof. intros H. unfold sbind. by destruct (m s) as [s1 []]. Qed.

Lemma sbind_Ok {S E A B : Type} (m : stateE S E A) (k : A -> stateE S E B) s s' b :
  sbind m k s = (s', Ok b) <-> exists s1 a, m s = (s1, Ok a) /\ k a s1 = (s', Ok b).
Proof.
  unfold sbind. destruct (m s) as [s1 [a| |]]; split.
  - eauto.
  - intros (? & ? & [= <- <-] & ?). done.
  - done.
  - intros (? & ? & [=] & _).
  - done.
  - intros (? & ? & [=] & _).
Qed.

Lemma slift_Ok {S E A : Type} (m : outcome E A) (s s' : S) a : slift m s = (s', Ok a) -> s' = s /\ m = Ok a.
Proof. by intros [= -> ->]. Qed.

(** [m] succeeds from every state, with a result that satisfies [P]. *)
Definition sok {S E A : Type} (m : stateE S E A) (P : A -> Prop) : Prop := forall s, exists s' a, m s = (s', Ok a) /\ P a.

Lemma sok_ret {S E A : Type} (a : A) (P : A -> Prop) : P a -> sok (S := S) (E := E) (sret a) P.
Proof. intros H s. exists s, a. done. Qed.

Lemma sok_lift {S E A : Type} (m : outcome E A) a (P : A -> Prop) : m = Ok a -> P a -> sok (S := S) (slift m) P.
Proof. intros -> H s. exists s, a. done. Qed.

Lemma sok_bind {S E A B : Type} (m : stateE S E A) (k : A -> stateE S E B) P Q :
  sok m P -> (forall a, P a -> sok (k a) Q) -> sok (sbind m k) Q.
Proof.
  intros Hm Hk s. destruct (Hm s) as (s1 & a & E1 & Ha). destruct (Hk a Ha s1) as (s2 & b & E2 & Hb).
  exists s2, b. split; [|done]. unfold sbind. by rewrite E1, E2.
Qed.

Lemma sok_for {S E A B : Type} (f : A -> stateE S E (option B)) (Rel : A -> B -> Prop) l :
  (forall a, a ∈ l -> sok (f a) (fun o => exists b, o = Some b /\ Rel a b)) -> sok (sfor f l) (Forall2 Rel l).
Proof.
  induction l as [|a l IH]; intros H; [by apply sok_ret|]. cbn [sfor].
  eapply sok_bind; [apply H; left|]. intros o (b & -> & Hb). eapply sok_bind; [apply IH; intros a' Ha'; apply H; by right|].
  intros bs Hbs. apply sok_ret. by constructor.
Qed.

Lemma ofor_Forall2 {E A B C : Type} (Rel : C -> A -> Prop) (dec : A -> outcome E (option B)) (g : C -> B) cs l :
  Forall2 Rel cs l -> (forall c a, Rel c a -> dec a = Ok (Some (g c))) -> ofor dec l = Ok (map g cs).
Proof.
  intros H Hd. induction H as [|c a cs l Hr _ IH]; [done|]. cbn [ofor map]. rewrite (Hd _ _ Hr). cbn [obind]. by rewrite IH.
Qed.

Lemma sok_for_Forall2 {S E A B C : Type} (Rel : C -> A -> Prop) (dec : A -> stateE S E (option B)) (g : C -> B) cs l :
  Forall2 Rel cs l -> (forall c a, Rel c a -> sok (dec a) (fun o => o = Some (g c))) -> sok (sfor dec l) (fun bs => bs = map g cs).
Proof.
  intros H Hd. induction H as [|c a cs l Hr _ IH]; [by apply sok_ret|]. cbn [sfor map].
  eapply sok_bind; [by apply Hd|]. intros ? ->. eapply sok_bind; [exact IH|]. intros ? ->. by apply sok_ret.
Qed.

(** Every error of a computation satisfies [P]. *)
Definition oerr {E A : Type} (P : E -> Prop) (m : outcome E A) : Prop := match m with Err e => P e | _ => True end.

Section Errors.
Context {E : Type} (P : E -> Prop).

Lemma oerr_bind {A B} (m : outcome E A) (k : A -> outcome E B) : oerr P m -> (forall a, oerr P (k a)) -> oerr P (obind m k).
Proof. intros Hm Hk. destruct m; [apply Hk|done..]. Qed.
Lemma oerr_of_option {A} e (o : option A) : P e -> oerr P (of_option e o).
Proof. intros H. by destruct o. Qed.
Lemma oerr_outmap {A B} (f : A -> B) (m : outcome E A) : oerr P m -> oerr P (outmap f m).
Proof. by destruct m. Qed.
Lemma oerr_for {A B} (f : A -> outcome E (option B)) l : (forall a, oerr P (f a)) -> oerr P (ofor f l).
Proof. intros H. induction l as [|a l IH]; [done|]. apply oerr_bind; [done|]. intros o. by apply oerr_bind. Qed.
End Errors.

(** [m] moves the state along [Rel] and every error of it satisfies [P]. *)
Definition sframe {S E A : Type} (Rel : S -> S -> Prop) (P : E -> Prop) (m : stateE S E A) : Prop :=
  forall s, Rel s (m s).1 /\ oerr P (m s).2.

Section Frames.
Context {S E : Type} (Rel : S -> S -> Prop) (P : E -> Prop) `{!PreOrder Rel}.

Lemma sframe_lift {A} (m : outcome E A) : oerr P m -> sframe Rel P (slift m).
Proof. intros H s. split; [reflexivity|done]. Qed.
Lemma sframe_ret {A} (a : A) : sframe Rel P (sret a).
Proof. by apply sframe_lift. Qed.
Lemma sframe_bind {A B} (m : stateE S E A) (k : A -> stateE S E B) :
  sframe Rel P m -> (forall a, sframe Rel P (k a)) -> sframe Rel P (sbind m k).
Proof.
  intros Hm Hk s. unfold sbind. destruct (Hm s) as [H1 H2]. destruct (m s) as [s1 [a|e|]]; cbn in *; [|done..].
  destruct (Hk a s1) as [H3 H4]. split; [by transitivity s1|done].
Qed.
Lemma sframe_for {A B} (f : A -> stateE S E (option B)) l : (forall a, sframe Rel P (f a)) -> sframe Rel P (sfor f l).
Proof.
  intros H. induction l as [|a l IH]; [apply sframe_ret|]. apply sframe_bind; [done|]. intros o. apply sframe_bind; [done|].
  intros bs. apply sframe_ret.
Qed.
Lemma sframe_modify (f : S -> S) : (forall s, Rel s (f s)) -> sframe (E := E) Rel P (smodify f).
Proof. intros H s. by split. Qed.

(** ... and every result of it satisfies [Q]. *)
Definition swp {A} (Q : A -> Prop) (m : stateE S E A) : Prop :=
  forall s, Rel s (m s).1 /\ match (m s).2 with Ok a => Q a | Err e => P e | Panic => True end.

Lemma swp_ret {A} (Q : A -> Prop) a : Q a -> swp Q (sret a).
Proof. intros H s. by split. Qed.
Lemma swp_bind {A B} (Q : A -> Prop) (Q' : B -> Prop) (m : stateE S E A) (k : A -> stateE S E B) :
  swp Q m -> (forall a, Q a -> swp Q' (k a)) -> swp Q' (sbind m k).
Proof.
  intros Hm Hk s. unfold sbind. destruct (Hm s) as [H1 H2]. destruct (m s) as [s1 [a|e|]]; cbn in *; [|done..].
  destruct (Hk a H2 s1) as [H3 H4]. split; [by transitivity s1|done].
Qed.
Lemma swp_frame {A} (m : stateE S E A) : sframe Rel P m <-> swp (fun _ => True) m.
Proof. split; intros H s; destruct (H s) as [H1 H2]; (split; [done|]); by destruct (m s).2. Qed.
Lemma swp_impl {A} (Q Q' : A -> Prop) (m : stateE S E A) : (forall a, Q a -> Q' a) -> swp Q m -> swp Q' m.
Proof. intros Hi H s. destruct (H s) as [H1 H2]. split; [done|]. destruct (m s).2; [by apply Hi|done..]. Qed.
End Frames.

(** ** Tactics *)

(** Take apart a successful chain of binds. *)
Ltac inv_ok :=
  repeat match goal with
  | H : obind _ _ = Ok _ |- _ =>
      let a := fresh "a" in let H1 := fresh "Hok" in
      apply obind_Ok_inv in H as (a & H1 & H)
  | H : Ok _ = Ok _ |- _ => injection H as H; subst
  | H : Err _ = Ok _ |- _ => discriminate H
  | H : Panic = Ok _ |- _ => discriminate H
  end.

Ltac case_bool H :=
  match goal with
  | |- context [if ?b then _ else _] => destruct b eqn:H
  end.

(** Case analysis on the first match or conditional of a hypothesis. *)
Ltac split_match_in H :=
  match type of H with
  | context [match ?x with _ => _ end] =>
      lazymatch x with
      | context [match _ with _ => _ end] => fail
      | _ => destruct x eqn:?
      end
  end.

(** Every leaf of a match tree in a hypothesis. *)
Ltac split_matches_in H := repeat (split_match_in H; try discriminate H).

(** ** Bytes *)

Abbreviation bytes := (list byte).

Definition b2z (b : byte) : Z := Z.of_N (Byte.to_N b).

(** [byte(z)]: conversion of an integer to a byte keeps the low 8 bits. *)
Definition z2b (z : Z) : byte :=
  match Byte.of_N (Z.to_N (z mod 256)) with Some b => b | None => x00 end.

Lemma b2z_range b : 0 <= b2z b < 256.
Proof. unfold b2z. pose proof (Byte.to_N_bounded b). lia. Qed.

Lemma b2z_z2b z : b2z (z2b z) = z mod 256.
Proof.
  unfold b2z, z2b. pose proof (Z.mod_pos_bound z 256 ltac:(lia)) as Hb.
  destruct (Byte.of_N _) as [b|] eqn:E.
  - apply Byte.to_of_N in E. rewrite E. lia.
  - apply Byte.of_N_None_iff in E. lia.
Qed.

Lemma z2b_b2z b : z2b (b2z b) = b.
Proof.
  unfold z2b, b2z. rewrite Z.mod_small by apply b2z_range.
  rewrite N2Z.id. by rewrite Byte.of_to_N.
Qed.

Lemma b2z_inj b1 b2 : b2z b1 = b2z b2 -> b1 = b2.
Proof. intros H. by rewrite <- (z2b_b2z b1), H, z2b_b2z. Qed.

Lemma b2z_z2b_small z : 0 <= z < 256 -> b2z (z2b z) = z.
Proof. intros. rewrite b2z_z2b. by apply Z.mod_small. Qed.

#[global] Instance byte_eq_dec : EqDecision byte := Byte.byte_eq_dec.
#[global] Program Instance byte_countable : Countable byte :=
  inj_countable' (fun b => Byte.to_N b) (fun n => default x00 (Byte.of_N n)) _.
Next Obligation. intros b. simpl. by rewrite Byte.of_to_N. Qed.

(** Go string literals: a Go string is a sequence of bytes. *)
Definition str (s : string) : bytes := String.list_byte_of_string s.

(** Equality of byte slices and strings, as a test. *)
Definition beqb (x y : bytes) : bool := bool_decide (x = y).

Lemma beqb_eq x y : beqb x y = true <-> x = y.
Proof. unfold beqb. apply bool_decide_eq_true. Qed.

Lemma beqb_refl x : beqb x x = true.
Proof. by apply beqb_eq. Qed.

Lemma beqb_neq x y : beqb x y = false <-> x <> y.
Proof. unfold beqb. apply bool_decide_eq_false. Qed.

(** ** Fixed-size byte arrays ([[n]byte]) *)
Record fixed (n : nat) : Type := mk_fixed {
  fixed_bytes : bytes;
  fixed_len : Nat.eqb (length fixed_bytes) n = true
}.
Arguments fixed_bytes {n} _.
Arguments mk_fixed {n} _ _.

Lemma fixed_length {n} (a : fixed n) : length (fixed_bytes a) = n.
Proof. apply Nat.eqb_eq, fixed_len. Qed.

Lemma fixed_eq {n} (a b : fixed n) : fixed_bytes a = fixed_bytes b -> a = b.
Proof.
  destruct a as [x Hx], b as [y Hy]; simpl. intros ->. f_equal.
  apply (Eqdep_dec.UIP_dec Bool.bool_dec).
Qed.

#[global] Instance fixed_eq_dec n : EqDecision (fixed n).
Proof.
  intros a b. destruct (decide (fixed_bytes a = fixed_bytes b)) as [H|H].
  - left. by apply fixed_eq.
  - right. intros ->. done.
Defined.

(** Conversion of a slice of exactly [n] bytes to an array. *)
Definition to_fixed (n : nat) (l : bytes) : option (fixed n) :=
  match Nat.eqb (length l) n as b return Nat.eqb (length l) n = b -> option (fixed n) with
  | true => fun H => Some (mk_fixed l H)
  | false => fun _ => None
  end eq_refl.

Arguments to_fixed : simpl never.

Lemma to_fixed_Some n l a : to_fixed n l = Some a <-> fixed_bytes a = l.
Proof.
  unfold to_fixed. split.
  - intros H. revert H. generalize (@eq_refl bool (Nat.eqb (length l) n)).
    generalize (Nat.eqb (length l) n) at 2 3. intros [] e H; [|done].
    by injection H as <-.
  - intros <-. generalize (@eq_refl bool (Nat.eqb (length (fixed_bytes a)) n)).
    generalize (Nat.eqb (length (fixed_bytes a)) n) at 2 3.
    intros [] e.
    + f_equal. by apply fixed_eq.
    + rewrite (fixed_len _ a) in e. done.
Qed.

Lemma to_fixed_bytes n (a : fixed n) : to_fixed n (fixed_bytes a) = Some a.
Proof. by apply to_fixed_Some. Qed.

Lemma to_fixed_None n l : to_fixed n l = None <-> length l <> n.
Proof.
  split.
  - intros H Hl. assert (Hb : Nat.eqb (length l) n = true) by by apply Nat.eqb_eq.
    pose proof (to_fixed_bytes n (mk_fixed l Hb)) as H2. simpl in H2. congruence.
  - intros Hl. destruct (to_fixed n l) as [a|] eqn:E; [|done].
    apply to_fixed_Some in E. subst. by rewrite fixed_length in Hl.
Qed.

(** A slice converted to an array type: too short a slice panics, a longer
    one is cut. *)
Definition to_array {E} (n : nat) (b : bytes) : outcome E (fixed n) :=
  match to_fixed n (take n b) with Some f => Ok f | None => Panic end.

Lemma to_array_ok {E} n b (f : fixed n) : to_fixed n b = Some f -> to_array (E := E) n b = Ok f.
Proof.
  intros H%to_fixed_Some. subst b. unfold to_array. rewrite take_ge; [by rewrite to_fixed_bytes|]. by rewrite fixed_length.
Qed.

Lemma to_fixed_is_Some n l : length l = n -> exists a, to_fixed n l = Some a /\ fixed_bytes a = l.
Proof.
  intros Hl. destruct (to_fixed n l) as [a|] eqn:E.
  - exists a. split; [done|]. by apply to_fixed_Some.
  - by apply to_fixed_None in E.
Qed.

#[global] Program Instance fixed_countable n : Countable (fixed n) :=
  inj_countable fixed_bytes (to_fixed n) _.
Next Obligation. intros n a. apply to_fixed_bytes. Qed.

Definition fixed_zero (n : nat) : fixed n :=
  mk_fixed (repeat x00 n) (proj2 (Nat.eqb_eq _ _) (repeat_length x00 n)).

(** ** Machine-width integers *)

Definition wrap (w : Z) (z : Z) : Z := z mod 2 ^ w.
Definition in_width (w : Z) (z : Z) : Prop := 0 <= z < 2 ^ w.
Abbreviation uint32 := (wrap 32).
Abbreviation uint64 := (wrap 64).

(** Two's complement reading of the low [w] bits. *)
Definition swrap (w : Z) (z : Z) : Z := (z + 2 ^ (w - 1)) mod 2 ^ w - 2 ^ (w - 1).

Lemma wrap_small w z : in_width w z -> wrap w z = z.
Proof. unfold wrap, in_width. intros. by apply Z.mod_small. Qed.

Lemma wrap_range w z : 0 <= w -> in_width w (wrap w z).
Proof. intros. apply Z.mod_pos_bound, Z.pow_pos_nonneg; lia. Qed.

Lemma swrap_small w z : 0 < w -> - 2 ^ (w - 1) <= z < 2 ^ (w - 1) -> swrap w z = z.
Proof.
  intros Hw Hz. unfold swrap. rewrite Z.mod_small; [lia|].
  replace (2 ^ w) with (2 * 2 ^ (w - 1)); [lia|].
  rewrite <- Z.pow_succ_r by lia. f_equal. lia.
Qed.

Lemma swrap_wrap w z : 0 < w -> swrap w (wrap w z) = swrap w z.
Proof.
  intros Hw. unfold swrap, wrap. rewrite Zplus_mod_idemp_l. done.
Qed.

(** Disjoint bit ranges add. *)
Lemma lor_shiftl_add a b s : 0 <= s -> 0 <= a < 2 ^ s -> Z.lor a (Z.shiftl b s) = a + b * 2 ^ s.
Proof.
  intros Hs Ha. rewrite <- Z.shiftl_mul_pow2 by lia.
  assert (Hland : Z.land a (Z.shiftl b s) = 0).
  { apply Z.bits_inj'. intros n Hn. rewrite Z.land_spec, Z.bits_0.
    destruct (Z.ltb_spec n s).
    - rewrite Z.shiftl_spec_low by lia. by rewrite andb_false_r.
    - destruct (Z.eq_dec a 0) as [->|]; [by rewrite Z.bits_0|].
      rewrite (Z.bits_above_log2 a n), andb_false_l; [done|lia|].
      apply Z.log2_lt_pow2; [lia|]. eapply Z.lt_le_trans; [apply Ha|].
      apply Z.pow_le_mono_r; lia. }
  rewrite Z.add_nocarry_lxor by done. by rewrite Z.lxor_lor.
Qed.

(** ** Lists *)

Lemma drop_app_length' {A} (l1 l2 : list A) n : n = length l1 -> drop n (l1 ++ l2) = l2.
Proof. intros ->. apply drop_app_length. Qed.

Lemma take_app_length' {A} (l1 l2 : list A) n : n = length l1 -> take n (l1 ++ l2) = l1.
Proof. intros ->. apply take_app_length. Qed.

(** A three-way cut of a list. *)
Lemma cut3 {A} (l : list A) i j : (i <= j)%nat ->
  l = take i l ++ take (j - i) (drop i l) ++ drop j l.
Proof.
  intros Hij. rewrite <- (take_drop i l) at 1. f_equal.
  rewrite <- (take_drop (j - i) (drop i l)) at 1. f_equal.
  rewrite drop_drop. by replace (i + (j - i))%nat with j by lia.
Qed.

Create HintDb signal.
#[export] Hint Resolve b2z_range beqb_refl fixed_length to_fixed_bytes wrap_range : signal.
Create Rewrite HintDb signal.
#[export] Hint Rewrite @to_fixed_bytes @fixed_length z2b_b2z beqb_refl : signal.
