(* ===== verification/GoLib.v ===== *)
(** The parts of the Go standard library that the modelled packages call:
    [encoding/binary] (varints, big endian), [strconv] and [fmt] for decimal
    numbers, [strings], [encoding/base64], and the conversions between
    UTF-8 strings, runes and UTF-16 ([unicode/utf8], [unicode/utf16]). *)
From S2P Require Import Prelude.

(** ** [io]: errors of readers *)
Inductive read_error := EOF | UnexpectedEOF | Overflow.

#[global] Instance read_error_eq_dec : EqDecision read_error.
Proof. solve_decision. Defined.

(** [io.ReadFull(r, buf)] on an in-memory reader: [n] bytes and the rest. *)
Definition read_full (n : nat) (r : bytes) : outcome read_error (bytes * bytes) :=
  if (n <=? length r)%nat then Ok (take n r, drop n r)
  else match r with [] => Err EOF | _ => Err UnexpectedEOF end.

Lemma read_full_app l rest n : n = length l -> read_full n (l ++ rest) = Ok (l, rest).
Proof.
  intros ->. unfold read_full. rewrite length_app.
  replace (length l <=? length l + length rest)%nat with true by (symmetry; apply Nat.leb_le; lia).
  by rewrite take_app_length, drop_app_length.
Qed.

Lemma read_full_Ok n r l rest : read_full n r = Ok (l, rest) -> r = l ++ rest /\ length l = n.
Proof.
  unfold read_full. destruct (Nat.leb_spec n (length r)) as [H|H]; [|by destruct r].
  intros [= <- <-]. rewrite take_drop, length_take. split; [done|lia].
Qed.

(** ** [encoding/binary]: unsigned varints *)
Module Uvarint.

Definition MaxVarintLen64 : nat := 10.

Fixpoint put (fuel : nat) (x : Z) : bytes :=
  match fuel with
  | O => []
  | S n =>
      if 128 <=? x then z2b (Z.lor (x mod 256) 128) :: put n (Z.shiftr x 7)
      else [z2b x]
  end.

(** [binary.AppendUvarint(nil, x)] for a [uint64]: ten rounds write every
    64-bit value. *)
Definition append_uvarint (x : Z) : bytes := put MaxVarintLen64 x.

Fixpoint read_loop (fuel : nat) (x s : Z) (r : bytes) : outcome read_error (Z * bytes) :=
  match fuel with
  | O => Err Overflow
  | S n =>
      match r with
      | [] => Err (if (fuel <? MaxVarintLen64)%nat then UnexpectedEOF else EOF)
      | b :: r' =>
          if b2z b <? 128 then
            if (fuel =? 1)%nat && (1 <? b2z b) then Err Overflow
            else Ok (Z.lor x (uint64 (Z.shiftl (b2z b) s)), r')
          else read_loop n (Z.lor x (uint64 (Z.shiftl (Z.land (b2z b) 127) s))) (s + 7) r'
      end
  end.

(** [binary.ReadUvarint]. *)
Definition read_uvarint (r : bytes) : outcome read_error (Z * bytes) :=
  read_loop MaxVarintLen64 0 0 r.

Lemma low7 x : 0 <= x -> Z.lor (x mod 256) 128 = 128 + x mod 128.
Proof.
  intros Hx. assert (Hm : 0 <= x mod 256 < 256) by (apply Z.mod_pos_bound; lia).
  assert (Hx128 : x mod 128 = (x mod 256) mod 128).
  { replace 256 with (128 * 2) by lia. rewrite Z.rem_mul_r by lia.
    rewrite Z.mul_comm, Z.mod_add by lia. by rewrite Z.mod_mod by lia. }
  rewrite Hx128. generalize (x mod 256), Hm. clear.
  intros m Hm.
  assert (Hcase : m < 128 \/ 128 <= m) by lia. destruct Hcase as [H|H].
  - rewrite (Z.mod_small m 128) by lia.
    change 128 with (Z.shiftl 1 7) at 1. rewrite lor_shiftl_add by lia. lia.
  - replace (m mod 128) with (m - 128) by lia.
    replace m with ((m - 128) + 1 * 2 ^ 7) at 1 by lia.
    rewrite <- (lor_shiftl_add (m - 128) 1 7) by lia.
    rewrite <- Z.lor_assoc. change (Z.lor (Z.shiftl 1 7) 128) with (Z.shiftl 1 7).
    rewrite lor_shiftl_add by lia. lia.
Qed.

Lemma put_length_pos fuel x : fuel <> O -> (1 <= length (put fuel x))%nat.
Proof. destruct fuel; [done|]. simpl. destruct (128 <=? x); simpl; lia. Qed.

Lemma read_loop_put fuel : forall x s v rest,
  (fuel <= 10)%nat -> s = 7 * (10 - Z.of_nat fuel) ->
  0 <= x < 2 ^ s -> 0 <= v -> v * 2 ^ s < 2 ^ 64 -> (fuel <> O) ->
  read_loop fuel x s (put fuel v ++ rest) = Ok (x + v * 2 ^ s, rest).
Proof.
  induction fuel as [|n IH]; intros x s v rest Hf Hs Hx Hv Hb Hn; [done|].
  assert (Hs0 : 0 <= s) by lia.
  assert (Hp : 0 < 2 ^ s) by (apply Z.pow_pos_nonneg; lia).
  cbn [put]. destruct (Z.leb_spec 128 v) as [H|H].
  - cbn [app read_loop]. rewrite low7 by lia.
    assert (Hm : 0 <= v mod 128 < 128) by (apply Z.mod_pos_bound; lia).
    rewrite b2z_z2b_small by lia.
    replace (128 + v mod 128 <? 128) with false by (symmetry; apply Z.ltb_ge; lia).
    replace (Z.land (128 + v mod 128) 127) with (v mod 128); cycle 1.
    { change 127 with (Z.ones 7). rewrite Z.land_ones by lia. change (2 ^ 7) with 128. lia. }
    assert (Hvd : v = 128 * (v / 128) + v mod 128) by (apply Z.div_mod; lia).
    assert (Hd : 0 <= v / 128) by (apply Z.div_pos; lia).
    rewrite wrap_small; cycle 1.
    { rewrite Z.shiftl_mul_pow2 by lia. unfold in_width. nia. }
    rewrite lor_shiftl_add by lia.
    assert (Hn0 : n <> O).
    { intros ->. subst s. change (7 * (10 - Z.of_nat 1)) with 63 in *.
      change (2 ^ 64) with (2 * 2 ^ 63) in Hb. nia. }
    rewrite Z.shiftr_div_pow2 by lia. change (2 ^ 7) with 128.
    assert (Hp7 : 2 ^ (s + 7) = 128 * 2 ^ s) by (rewrite Z.pow_add_r by lia; lia).
    rewrite IH; [|lia|lia|rewrite Hp7; nia|lia|rewrite Hp7; nia|done].
    f_equal. f_equal. rewrite Hp7. nia.
  - cbn [app read_loop]. rewrite b2z_z2b_small by lia.
    replace (v <? 128) with true by (symmetry; apply Z.ltb_lt; lia).
    replace ((S n =? 1)%nat && (1 <? v)) with false; cycle 1.
    { symmetry. destruct (Nat.eqb_spec (S n) 1) as [E|E]; [|done]. simpl.
      apply Z.ltb_ge. assert (n = O) as -> by lia. subst s.
      change (7 * (10 - Z.of_nat 1)) with 63 in *.
      change (2 ^ 64) with (2 * 2 ^ 63) in Hb. nia. }
    rewrite wrap_small; cycle 1.
    { rewrite Z.shiftl_mul_pow2 by lia. unfold in_width. nia. }
    by rewrite lor_shiftl_add by lia.
Qed.

Lemma read_append v rest : in_width 64 v ->
  read_uvarint (append_uvarint v ++ rest) = Ok (v, rest).
Proof.
  intros Hv. unfold read_uvarint, append_uvarint, MaxVarintLen64.
  unfold in_width in Hv.
  rewrite read_loop_put; [do 2 f_equal; lia|lia|done|done|lia|lia|done].
Qed.

Lemma read_loop_range fuel : forall x s r v rest,
  0 <= x < 2 ^ 64 -> 0 <= s -> read_loop fuel x s r = Ok (v, rest) -> in_width 64 v.
Proof.
  assert (Hor : forall x y, 0 <= x < 2 ^ 64 -> 0 <= Z.lor x (uint64 y) < 2 ^ 64).
  { intros x y Hx. pose proof (wrap_range 64 y ltac:(lia)) as Hy. unfold in_width in Hy.
    assert (H0 : 0 <= Z.lor x (uint64 y)) by (apply Z.lor_nonneg; lia).
    split; [done|]. destruct (Z.eq_dec (Z.lor x (uint64 y)) 0) as [->|]; [lia|].
    apply Z.log2_lt_pow2; [lia|]. rewrite Z.log2_lor by lia.
    apply Z.max_lub_lt.
    - destruct (Z.eq_dec x 0) as [->|]; [simpl; lia|]. apply Z.log2_lt_pow2; lia.
    - destruct (Z.eq_dec (uint64 y) 0) as [->|]; [simpl; lia|]. apply Z.log2_lt_pow2; lia. }
  induction fuel as [|n IH]; intros x s r v rest Hx Hs H; simpl in H; [done|].
  destruct r as [|b r]; [done|].
  destruct (b2z b <? 128).
  - destruct (_ && _); [done|]. injection H as <- <-. by apply Hor.
  - eapply IH; [|..|exact H]; [by apply Hor|lia].
Qed.

Lemma read_uvarint_range r v rest : read_uvarint r = Ok (v, rest) -> in_width 64 v.
Proof. apply read_loop_range; lia. Qed.

Lemma read_loop_suffix fuel : forall r x s v rest, read_loop fuel x s r = Ok (v, rest) ->
  exists l, r = l ++ rest /\ (1 <= length l)%nat.
Proof.
  induction fuel as [|n IH]; intros r x s v rest H; simpl in H; [done|].
  destruct r as [|b r]; [done|]. destruct (b2z b <? 128).
  - destruct (_ && _); [done|]. injection H as _ <-. exists [b]. split; [done|simpl; lia].
  - apply IH in H as (l & -> & Hl). exists (b :: l). split; [done|simpl; lia].
Qed.

(** A successful read consumes at least one byte. *)
Lemma read_uvarint_suffix r v rest : read_uvarint r = Ok (v, rest) ->
  exists l, r = l ++ rest /\ (1 <= length l)%nat.
Proof. apply read_loop_suffix. Qed.

Lemma read_loop_no_panic fuel : forall r x s, is_panic (read_loop fuel x s r) = false.
Proof.
  induction fuel as [|n IH]; intros r x s; simpl; [done|].
  destruct r as [|b r]; [done|]. destruct (b2z b <? 128); [|done].
  by destruct (_ && _).
Qed.

Lemma read_uvarint_no_panic r : is_panic (read_uvarint r) = false.
Proof. apply read_loop_no_panic. Qed.

End Uvarint.

(** ** [encoding/binary]: big endian *)
Module BigEndian.

Definition put_uint32 (x : Z) : bytes :=
  [z2b (Z.shiftr x 24); z2b (Z.shiftr x 16); z2b (Z.shiftr x 8); z2b x].

Definition uint32_of (b3 b2 b1 b0 : byte) : Z :=
  Z.lor (b2z b0) (Z.lor (Z.shiftl (b2z b1) 8)
    (Z.lor (Z.shiftl (b2z b2) 16) (Z.shiftl (b2z b3) 24))).

(** [binary.BigEndian.Uint32]: panics when fewer than four bytes are left. *)
Definition get_uint32 (b : bytes) : option Z :=
  match b with
  | b3 :: b2 :: b1 :: b0 :: _ => Some (uint32_of b3 b2 b1 b0)
  | _ => None
  end.

Lemma uint32_of_sum b3 b2 b1 b0 :
  uint32_of b3 b2 b1 b0 = b2z b0 + b2z b1 * 2 ^ 8 + b2z b2 * 2 ^ 16 + b2z b3 * 2 ^ 24.
Proof.
  unfold uint32_of. pose proof (b2z_range b0). pose proof (b2z_range b1).
  pose proof (b2z_range b2).
  assert (E1 : Z.shiftl (b2z b3) 24 = Z.shiftl (Z.shiftl (b2z b3) 8) 16)
    by (rewrite Z.shiftl_shiftl by lia; done).
  assert (E2 : Z.lor (Z.shiftl (b2z b2) 16) (Z.shiftl (b2z b3) 24) =
    Z.shiftl (b2z b2 + b2z b3 * 2 ^ 8) 16).
  { rewrite E1, <- Z.shiftl_lor. by rewrite lor_shiftl_add by lia. }
  rewrite E2.
  assert (E3 : Z.lor (Z.shiftl (b2z b1) 8) (Z.shiftl (b2z b2 + b2z b3 * 2 ^ 8) 16) =
    Z.shiftl (b2z b1 + (b2z b2 + b2z b3 * 2 ^ 8) * 2 ^ 8) 8).
  { replace (Z.shiftl (b2z b2 + b2z b3 * 2 ^ 8) 16)
      with (Z.shiftl (Z.shiftl (b2z b2 + b2z b3 * 2 ^ 8) 8) 8)
      by (rewrite Z.shiftl_shiftl by lia; done).
    rewrite <- Z.shiftl_lor. by rewrite lor_shiftl_add by lia. }
  rewrite E3. rewrite lor_shiftl_add by lia. lia.
Qed.

Lemma get_put_uint32 x rest : in_width 32 x -> get_uint32 (put_uint32 x ++ rest) = Some x.
Proof.
  intros Hx. unfold in_width in Hx. simpl. f_equal. rewrite uint32_of_sum, !b2z_z2b.
  rewrite !Z.shiftr_div_pow2 by lia.
  change (2 ^ 24) with 16777216. change (2 ^ 16) with 65536. change (2 ^ 8) with 256.
  change (2 ^ 32) with 4294967296 in Hx. lia.
Qed.

End BigEndian.

(** ** [strconv] and [fmt]: decimal numbers *)
Module Decimal.

Definition digit (d : Z) : byte := z2b (48 + d).

Fixpoint digits (fuel : nat) (x : Z) : bytes :=
  match fuel with
  | O => []
  | S n => if x <? 10 then [digit x] else digits n (x / 10) ++ [digit (x mod 10)]
  end.

(** [strconv.FormatUint(x, 10)] and [%d] of a [uint64]: twenty digits are
    enough below 2^64. *)
Definition format_uint (x : Z) : bytes := digits 20 x.

(** [strconv.Itoa] and [%d] of an [int]. *)
Definition itoa (x : Z) : bytes :=
  if x <? 0 then str "-" ++ format_uint (- x) else format_uint x.

Inductive num_error := ErrSyntax | ErrRange.

Definition digit_val (b : byte) : option Z :=
  if (48 <=? b2z b) && (b2z b <=? 57) then Some (b2z b - 48) else None.

Fixpoint parse_digits (n : Z) (s : bytes) : outcome num_error Z :=
  match s with
  | [] => Ok n
  | b :: s' =>
      match digit_val b with
      | None => Err ErrSyntax
      | Some d => if 2 ^ 64 <=? n * 10 + d then Err ErrRange else parse_digits (n * 10 + d) s'
      end
  end.

(** [strconv.ParseUint(s, 10, 64)]. *)
Definition parse_uint (s : bytes) : outcome num_error Z :=
  match s with [] => Err ErrSyntax | _ => parse_digits 0 s end.

(** The value [strconv.Atoi] returns, whatever its error: 0 on a syntax
    error, the nearest [int64] when out of range. *)
Definition atoi_value (s : bytes) : Z :=
  let '(neg, body) :=
    match s with
    | b :: s' => if bool_decide (b = x2d) then (true, s')
                 else if bool_decide (b = x2b) then (false, s') else (false, s)
    | [] => (false, s)
    end in
  match parse_uint body with
  | Ok un =>
      if neg then (if 2 ^ 63 <? un then - 2 ^ 63 else - un)
      else (if 2 ^ 63 <=? un then 2 ^ 63 - 1 else un)
  | Err ErrRange => if neg then - 2 ^ 63 else 2 ^ 63 - 1
  | _ => 0
  end.

Lemma digit_val_digit d : 0 <= d < 10 -> digit_val (digit d) = Some d.
Proof.
  intros H. unfold digit_val, digit. rewrite b2z_z2b_small by lia.
  replace (48 <=? 48 + d) with true by lia. replace (48 + d <=? 57) with true by lia.
  simpl. f_equal. lia.
Qed.

Lemma parse_digits_app s1 : forall n s2,
  parse_digits n (s1 ++ s2) = let! m := parse_digits n s1 in parse_digits m s2.
Proof.
  induction s1 as [|b s1 IH]; intros n s2; simpl; [done|].
  destruct (digit_val b); [|done]. by destruct (_ <=? _).
Qed.

Lemma parse_digits_digits fuel : forall x, 0 <= x < 10 ^ Z.of_nat fuel -> x < 2 ^ 64 ->
  fuel <> O -> parse_digits 0 (digits fuel x) = Ok x.
Proof.
  induction fuel as [|n IH]; intros x Hx Hw Hf; [done|]. cbn [digits].
  destruct (Z.ltb_spec x 10) as [H|H].
  - cbn [parse_digits]. rewrite digit_val_digit by lia. replace (0 * 10 + x) with x by lia.
    by replace (2 ^ 64 <=? x) with false by lia.
  - rewrite parse_digits_app.
    rewrite Nat2Z.inj_succ, Z.pow_succ_r in Hx by lia.
    assert (Hn : n <> O) by (intros ->; simpl in Hx; lia).
    rewrite IH; [|split; [apply Z.div_pos; lia|apply Z.div_lt_upper_bound; lia]|lia|done].
    cbn [obind parse_digits]. rewrite digit_val_digit by (apply Z.mod_pos_bound; lia).
    replace (x / 10 * 10 + x mod 10) with x by lia.
    by replace (2 ^ 64 <=? x) with false by lia.
Qed.

Lemma digits_nonempty fuel x : fuel <> O -> digits fuel x <> [].
Proof. destruct fuel; [done|]. simpl. destruct (x <? 10); [done|]. by destruct (digits _ _). Qed.

Lemma parse_format_uint x : in_width 64 x -> parse_uint (format_uint x) = Ok x.
Proof.
  intros Hx. unfold in_width in Hx. unfold parse_uint, format_uint.
  pose proof (digits_nonempty 20 x ltac:(done)).
  pose proof (parse_digits_digits 20 x) as Hp.
  destruct (digits 20 x); [done|]. apply Hp; [|lia|done]. split; [lia|].
  eapply Z.lt_le_trans; [apply Hx|]. by vm_compute.
Qed.

Lemma digits_no_byte c fuel : digit_val c = None -> forall x, 0 <= x -> c ∉ digits fuel x.
Proof.
  intros Hc. induction fuel as [|n IH]; intros x Hx; simpl; [set_solver|].
  assert (Hd : forall d, 0 <= d < 10 -> c <> digit d).
  { intros d Hd ->. by rewrite digit_val_digit in Hc. }
  destruct (Z.ltb_spec x 10).
  - rewrite list_elem_of_singleton. apply Hd. lia.
  - rewrite elem_of_app, list_elem_of_singleton. intros [H1|H1].
    + revert H1. apply IH. apply Z.div_pos; lia.
    + revert H1. apply Hd. apply Z.mod_pos_bound; lia.
Qed.

Lemma parse_uint_range s x : parse_uint s = Ok x -> in_width 64 x.
Proof.
  assert (H : forall s n, 0 <= n < 2 ^ 64 -> parse_digits n s = Ok x -> in_width 64 x).
  { clear. induction s as [|b s IH]; intros n Hn H; simpl in H; [injection H as <-; done|].
    unfold digit_val in H.
    destruct ((48 <=? b2z b) && (b2z b <=? 57)) eqn:E; [|done].
    destruct (Z.leb_spec (2 ^ 64) (n * 10 + (b2z b - 48))); [done|].
    eapply IH; [|exact H]. lia. }
  unfold parse_uint. destruct s; [done|]. apply H. lia.
Qed.

End Decimal.

(** ** [strings] *)
Module Strings.

Fixpoint has_prefix (p s : bytes) : bool :=
  match p, s with
  | [], _ => true
  | _, [] => false
  | a :: p', b :: s' => bool_decide (a = b) && has_prefix p' s'
  end.

Definition trim_prefix (p s : bytes) : bytes :=
  if has_prefix p s then drop (length p) s else s.

(** [strings.Split(s, sep)] for a one-byte separator. *)
Fixpoint split (sep : byte) (s : bytes) : list bytes :=
  match s with
  | [] => [[]]
  | b :: s' =>
      if bool_decide (b = sep) then [] :: split sep s'
      else match split sep s' with
           | p :: ps => (b :: p) :: ps
           | [] => [[b]]
           end
  end.

(** [strings.Replace(s, old, new, 1)] for a non-empty [old]. *)
Fixpoint replace1 (old new s : bytes) : bytes :=
  if has_prefix old s then new ++ drop (length old) s
  else match s with [] => [] | b :: s' => b :: replace1 old new s' end.

(** [strings.Replace(s, c, "", -1)] for a one-byte [c]. *)
Definition remove_byte (c : byte) (s : bytes) : bytes := filter (fun b => b <> c) s.

Definition contains_byte (c : byte) (s : bytes) : bool := bool_decide (c ∈ s).

(** [strings.ToUpper] restricted to ASCII letters. *)
Definition to_upper_byte (b : byte) : byte :=
  if (97 <=? b2z b) && (b2z b <=? 122) then z2b (b2z b - 32) else b.
Definition to_upper (s : bytes) : bytes := map to_upper_byte s.

(** [strings.Repeat]: panics for a negative count. *)
Definition repeat_str (s : bytes) (n : Z) : option bytes :=
  if n <? 0 then None else Some (concat (repeat s (Z.to_nat n))).

Lemma has_prefix_app p s : has_prefix p (p ++ s) = true.
Proof. induction p as [|a p IH]; simpl; [done|]. by rewrite bool_decide_true, IH by done. Qed.

Lemma has_prefix_true p s : has_prefix p s = true -> s = p ++ drop (length p) s.
Proof.
  revert s. induction p as [|a p IH]; intros s; simpl; [done|]. destruct s as [|b s]; [done|].
  intros H. apply andb_true_iff in H as [H1 H2]. apply bool_decide_eq_true in H1 as ->.
  simpl. f_equal. by apply IH.
Qed.

Lemma split_no_sep sep s : sep ∉ s -> split sep s = [s].
Proof.
  induction s as [|b s IH]; simpl; [done|]. intros H.
  rewrite bool_decide_false by set_solver. rewrite IH by set_solver. done.
Qed.

Lemma split_app sep s1 s2 : sep ∉ s1 -> split sep (s1 ++ sep :: s2) = s1 :: split sep s2.
Proof.
  induction s1 as [|b s1 IH]; simpl; intros H.
  - by rewrite bool_decide_true.
  - rewrite bool_decide_false by set_solver. rewrite IH by set_solver. done.
Qed.

End Strings.

(** ** [encoding/base64], [StdEncoding] *)
Module Base64.

Definition alphabet : bytes :=
  str "ABCDEFGHIJKLMNOPQRSTUVWXYZabcdefghijklmnopqrstuvwxyz0123456789+/".
Definition pad : byte := x3d.

Definition enc (v : Z) : byte := nth (Z.to_nat v) alphabet x00.

Definition dec (b : byte) : option Z :=
  let z := b2z b in
  if (65 <=? z) && (z <=? 90) then Some (z - 65)
  else if (97 <=? z) && (z <=? 122) then Some (z - 71)
  else if (48 <=? z) && (z <=? 57) then Some (z + 4)
  else if z =? 43 then Some 62
  else if z =? 47 then Some 63
  else None.

(** [EncodeToString]. *)
Fixpoint encode (l : bytes) : bytes :=
  match l with
  | [] => []
  | [a] => [enc (b2z a / 4); enc (b2z a mod 4 * 16); pad; pad]
  | [a; b] => [enc (b2z a / 4); enc (b2z a mod 4 * 16 + b2z b / 16); enc (b2z b mod 16 * 4); pad]
  | a :: b :: c :: l' =>
      enc (b2z a / 4) :: enc (b2z a mod 4 * 16 + b2z b / 16) ::
      enc (b2z b mod 16 * 4 + b2z c / 64) :: enc (b2z c mod 64) :: encode l'
  end.

Fixpoint decode_quads (s : bytes) : option bytes :=
  match s with
  | [] => Some []
  | c0 :: c1 :: c2 :: c3 :: s' =>
      v0 ← dec c0; v1 ← dec c1;
      if bool_decide (c2 = pad) then
        if bool_decide (c3 = pad) && bool_decide (s' = []) then Some [z2b (v0 * 4 + v1 / 16)]
        else None
      else
        v2 ← dec c2;
        if bool_decide (c3 = pad) then
          if bool_decide (s' = []) then Some [z2b (v0 * 4 + v1 / 16); z2b (v1 mod 16 * 16 + v2 / 4)]
          else None
        else
          v3 ← dec c3; rest ← decode_quads s';
          Some (z2b (v0 * 4 + v1 / 16) :: z2b (v1 mod 16 * 16 + v2 / 4) ::
                z2b (v2 mod 4 * 64 + v3) :: rest)
  | _ => None
  end.

(** [DecodeString]: line breaks are skipped, padding is required. *)
Definition decode (s : bytes) : option bytes :=
  decode_quads (filter (fun b => b <> x0a /\ b <> x0d) s).

Lemma enc_spec v : 0 <= v < 64 ->
  dec (enc v) = Some v /\ enc v <> pad /\ enc v <> x0a /\ enc v <> x0d.
Proof.
  intros Hv.
  assert (Hall : forallb (fun n => bool_decide (dec (enc (Z.of_nat n)) = Some (Z.of_nat n) /\
    enc (Z.of_nat n) <> pad /\ enc (Z.of_nat n) <> x0a /\ enc (Z.of_nat n) <> x0d)) (seq 0 64) = true)
    by by vm_compute.
  rewrite forallb_forall in Hall. specialize (Hall (Z.to_nat v)).
  rewrite in_seq, bool_decide_eq_true in Hall. rewrite Z2Nat.id in Hall by lia.
  apply Hall. lia.
Qed.

Lemma three_ind (P : bytes -> Prop) :
  P [] -> (forall a, P [a]) -> (forall a b, P [a; b]) ->
  (forall a b c l, P l -> P (a :: b :: c :: l)) -> forall l, P l.
Proof.
  intros H0 H1 H2 H3 l. remember (length l) as n eqn:Hn.
  revert l Hn. induction n as [n IH] using lt_wf_ind; intros l ->.
  destruct l as [|a [|b [|c l]]]; auto. apply H3. eapply IH; [|done]. simpl. lia.
Qed.

Ltac solve_enc :=
  repeat match goal with
  | b : byte |- _ => lazymatch goal with
      | H : 0 <= b2z b < 256 |- _ => fail
      | _ => pose proof (b2z_range b)
      end
  end; lia.

Lemma encode_no_break l : Forall (fun b => b <> x0a /\ b <> x0d) (encode l).
Proof.
  induction l as [|a|a b|a b c l IH] using three_ind; cbn [encode];
    repeat (apply Forall_cons; split; [first [by split | apply enc_spec; solve_enc]|]); auto.
Qed.

Lemma decode_quads_encode l : decode_quads (encode l) = Some l.
Proof.
  assert (Hb : forall z b, z = b2z b -> z2b z = b) by (intros z b ->; apply z2b_b2z).
  induction l as [|a|a b|a b c l IH] using three_ind; cbn [encode decode_quads]; [done|..].
  1-3: repeat match goal with
    | |- context [dec (enc ?v)] => rewrite (proj1 (enc_spec v ltac:(solve_enc))); simpl mbind
    | |- context [bool_decide (enc ?v = pad)] =>
        rewrite (bool_decide_false (enc v = pad)) by (apply enc_spec; solve_enc)
    | |- context [bool_decide (pad = pad)] => rewrite (bool_decide_true (pad = pad)) by done
    end.
  - simpl. do 2 f_equal. apply Hb. solve_enc.
  - simpl. f_equal. f_equal; [apply Hb; solve_enc|]. f_equal. apply Hb; solve_enc.
  - rewrite IH. simpl. do 2 f_equal; [apply Hb; solve_enc|].
    f_equal; [apply Hb; solve_enc|]. f_equal. apply Hb; solve_enc.
Qed.

Lemma filter_all {A} (P : A -> Prop) `{!forall x, Decision (P x)} (l : list A) :
  Forall P l -> filter P l = l.
Proof.
  induction 1 as [|x l Hx Hl IH]; [done|]. rewrite filter_cons_True by done. by rewrite IH.
Qed.

Lemma decode_encode l : decode (encode l) = Some l.
Proof. unfold decode. rewrite filter_all by apply encode_no_break. apply decode_quads_encode. Qed.

Lemma encode_inj l1 l2 : encode l1 = encode l2 -> l1 = l2.
Proof. intros H. apply (f_equal decode) in H. rewrite !decode_encode in H. congruence. Qed.

Lemma encode_length l : length (encode l) = (4 * ((length l + 2) / 3))%nat.
Proof.
  induction l as [|a|a b|a b c l IH] using three_ind; cbn [encode length]; [done..|].
  rewrite IH. replace (S (S (S (length l))) + 2)%nat with (length l + 2 + 1 * 3)%nat by lia.
  rewrite Nat.div_add by lia. lia.
Qed.

End Base64.

(** ** Runes, UTF-8 and UTF-16 *)
Module Unicode.

Definition RuneError : Z := 65533.

(** Unicode scalar values: what a valid rune is. *)
Definition is_scalar (r : Z) : bool :=
  ((0 <=? r) && (r <? 55296)) || ((57344 <=? r) && (r <? 1114112)).

Definition encode_rune (r : Z) : bytes :=
  if negb (is_scalar r) then [xef; xbf; xbd]
  else if r <? 128 then [z2b r]
  else if r <? 2048 then [z2b (192 + r / 64); z2b (128 + r mod 64)]
  else if r <? 65536 then
    [z2b (224 + r / 4096); z2b (128 + r / 64 mod 64); z2b (128 + r mod 64)]
  else [z2b (240 + r / 262144); z2b (128 + r / 4096 mod 64); z2b (128 + r / 64 mod 64); z2b (128 + r mod 64)].

(** [string(runes)]. *)
Definition string_of_runes (rs : list Z) : bytes := concat (map encode_rune rs).

Definition cont (lo hi : Z) (b : byte) : bool := (lo <=? b2z b) && (b2z b <=? hi).

(** The number of continuation bytes announced by a leading byte, and the
    range of the first of them. *)
Definition lead (z : Z) : option (nat * Z * Z) :=
  if (194 <=? z) && (z <=? 223) then Some (1%nat, 128, 191)
  else if z =? 224 then Some (2%nat, 160, 191)
  else if z =? 237 then Some (2%nat, 128, 159)
  else if (225 <=? z) && (z <=? 239) then Some (2%nat, 128, 191)
  else if z =? 240 then Some (3%nat, 144, 191)
  else if (241 <=? z) && (z <=? 243) then Some (3%nat, 128, 191)
  else if z =? 244 then Some (3%nat, 128, 143)
  else None.

(** [[]rune(s)]: every invalid byte becomes one [RuneError]. *)
Fixpoint runes (s : bytes) : list Z :=
  match s with
  | [] => []
  | b0 :: s1 =>
      let z0 := b2z b0 in
      if z0 <? 128 then z0 :: runes s1
      else match lead z0, s1 with
      | Some (1%nat, lo, hi), b1 :: s2 =>
          if cont lo hi b1 then ((z0 - 192) * 64 + (b2z b1 - 128)) :: runes s2
          else RuneError :: runes s1
      | Some (2%nat, lo, hi), b1 :: b2 :: s3 =>
          if cont lo hi b1 && cont 128 191 b2
          then ((z0 - 224) * 4096 + (b2z b1 - 128) * 64 + (b2z b2 - 128)) :: runes s3
          else RuneError :: runes s1
      | Some (3%nat, lo, hi), b1 :: b2 :: b3 :: s4 =>
          if cont lo hi b1 && cont 128 191 b2 && cont 128 191 b3
          then ((z0 - 240) * 262144 + (b2z b1 - 128) * 4096 + (b2z b2 - 128) * 64 + (b2z b3 - 128)) :: runes s4
          else RuneError :: runes s1
      | _, _ => RuneError :: runes s1
      end
  end.

Definition utf16_encode_rune (r : Z) : list Z :=
  if ((0 <=? r) && (r <? 55296)) || ((57344 <=? r) && (r <? 65536)) then [r]
  else if (65536 <=? r) && (r <=? 1114111) then
    [55296 + (r - 65536) / 1024 mod 1024; 56320 + (r - 65536) mod 1024]
  else [RuneError].

(** [utf16.Encode]. *)
Definition utf16_encode (rs : list Z) : list Z := concat (map utf16_encode_rune rs).

Definition is_hi (u : Z) : bool := (55296 <=? u) && (u <? 56320).
Definition is_lo (u : Z) : bool := (56320 <=? u) && (u <? 57344).

(** [utf16.Decode]: a surrogate that is not part of a pair becomes [RuneError]. *)
Fixpoint utf16_decode (us : list Z) : list Z :=
  match us with
  | [] => []
  | u :: us1 =>
      if is_hi u then
        match us1 with
        | v :: us2 =>
            if is_lo v then ((u - 55296) * 1024 + (v - 56320) + 65536) :: utf16_decode us2
            else RuneError :: utf16_decode us1
        | [] => RuneError :: utf16_decode us1
        end
      else if is_lo u then RuneError :: utf16_decode us1
      else u :: utf16_decode us1
  end.

Lemma utf16_decode_rune r us : is_scalar r = true ->
  utf16_decode (utf16_encode_rune r ++ us) = r :: utf16_decode us.
Proof.
  unfold is_scalar, utf16_encode_rune. intros Hr.
  destruct (((0 <=? r) && (r <? 55296)) || ((57344 <=? r) && (r <? 65536))) eqn:E.
  - simpl. unfold is_hi, is_lo.
    replace ((55296 <=? r) && (r <? 56320)) with false by lia.
    by replace ((56320 <=? r) && (r <? 57344)) with false by lia.
  - replace ((65536 <=? r) && (r <=? 1114111)) with true by lia.
    cbn [app utf16_decode]. unfold is_hi, is_lo.
    set (h := 55296 + (r - 65536) / 1024 mod 1024). set (l := 56320 + (r - 65536) mod 1024).
    replace ((55296 <=? h) && (h <? 56320)) with true by lia.
    replace ((56320 <=? l) && (l <? 57344)) with true by lia.
    f_equal. lia.
Qed.

Lemma utf16_roundtrip rs : Forall (fun r => is_scalar r = true) rs ->
  utf16_decode (utf16_encode rs) = rs.
Proof.
  induction 1 as [|r rs Hr Hrs IH]; [done|]. unfold utf16_encode in *. cbn [map concat].
  by rewrite utf16_decode_rune, IH.
Qed.

Ltac cont_true := unfold cont; rewrite ?b2z_z2b_small by lia; lia.

Lemma runes_encode_rune r s : is_scalar r = true -> runes (encode_rune r ++ s) = r :: runes s.
Proof.
  intros Hr. unfold encode_rune. rewrite Hr. cbn [negb]. unfold is_scalar in Hr.
  destruct (Z.ltb_spec r 128) as [H|H].
  { cbn [app runes]. rewrite b2z_z2b_small by lia. by replace (r <? 128) with true by lia. }
  destruct (Z.ltb_spec r 2048) as [H1|H1].
  { cbn [app runes]. rewrite (b2z_z2b_small (192 + r / 64)) by lia.
    replace (192 + r / 64 <? 128) with false by lia. unfold lead.
    replace ((194 <=? 192 + r / 64) && (192 + r / 64 <=? 223)) with true by lia.
    replace (cont 128 191 (z2b (128 + r mod 64))) with true by cont_true.
    f_equal. rewrite b2z_z2b_small by lia. lia. }
  destruct (Z.ltb_spec r 65536) as [H2|H2].
  { cbn [app runes]. rewrite (b2z_z2b_small (224 + r / 4096)) by lia.
    replace (224 + r / 4096 <? 128) with false by lia. unfold lead.
    replace ((194 <=? 224 + r / 4096) && (224 + r / 4096 <=? 223)) with false by lia.
    destruct (Z.eqb_spec (224 + r / 4096) 224); [|destruct (Z.eqb_spec (224 + r / 4096) 237)];
      [..|replace ((225 <=? 224 + r / 4096) && (224 + r / 4096 <=? 239)) with true by lia];
      (rewrite (proj2 (andb_true_iff _ _)) by (split; cont_true));
      (f_equal; rewrite !b2z_z2b_small by lia; lia). }
  cbn [app runes]. rewrite (b2z_z2b_small (240 + r / 262144)) by lia.
  set (h := r / 262144). assert (Hh : 0 <= h <= 4) by (unfold h; lia).
  replace (240 + h <? 128) with false by lia. unfold lead.
  replace ((194 <=? 240 + h) && (240 + h <=? 223)) with false by lia.
  replace (240 + h =? 224) with false by lia. replace (240 + h =? 237) with false by lia.
  replace ((225 <=? 240 + h) && (240 + h <=? 239)) with false by lia.
  destruct (Z.eqb_spec (240 + h) 240); [|destruct (Z.leb_spec (240 + h) 243);
    [replace (241 <=? 240 + h) with true by lia
    |replace (241 <=? 240 + h) with true by lia; replace (240 + h =? 244) with true by lia]];
    cbn [andb];
    (rewrite (proj2 (andb_true_iff _ _)) by
      (split; [apply andb_true_iff; split|]; unfold h in *; cont_true));
    (f_equal; unfold h in *; rewrite !b2z_z2b_small by lia; lia).
Qed.

Lemma utf8_roundtrip rs : Forall (fun r => is_scalar r = true) rs ->
  runes (string_of_runes rs) = rs.
Proof.
  induction 1 as [|r rs Hr Hrs IH]; [done|]. unfold string_of_runes in *. cbn [map concat].
  by rewrite runes_encode_rune, IH.
Qed.

(** Valid UTF-8 strings: the encodings of scalar values. *)
Definition valid_utf8 (s : bytes) : Prop :=
  exists rs, Forall (fun r => is_scalar r = true) rs /\ s = string_of_runes rs.

Lemma runes_scalar s : valid_utf8 s -> Forall (fun r => is_scalar r = true) (runes s).
Proof. intros (rs & Hrs & ->). by rewrite utf8_roundtrip. Qed.

Lemma string_of_runes_runes s : valid_utf8 s -> string_of_runes (runes s) = s.
Proof. intros (rs & Hrs & ->). by rewrite utf8_roundtrip. Qed.

End Unicode.

(** [unicode.IsSpace], and [strings.TrimSpace] of valid UTF-8. *)
Definition unicode_space (r : Z) : bool :=
  (9 <=? r) && (r <=? 13) || (r =? 32) || (r =? 133) || (r =? 160) || (r =? 5760) ||
  (8192 <=? r) && (r <=? 8202) || (r =? 8232) || (r =? 8233) || (r =? 8239) || (r =? 8287) || (r =? 12288).

Fixpoint drop_spaces (rs : list Z) : list Z :=
  match rs with
  | r :: rs' => if unicode_space r then drop_spaces rs' else rs
  | [] => []
  end.

Definition TrimSpace_str (s : bytes) : bytes :=
  Unicode.string_of_runes (reverse (drop_spaces (reverse (drop_spaces (Unicode.runes s))))).
