(* ===== verification/ServiceId.v ===== *)
(** Service identifiers: [pkg/libsignalgo/serviceid.go], the identifier
    parsers of [pkg/signalmeow/misc.go] and [pkg/signalmeow/username.go], and
    the group identifiers of [pkg/signalmeow/types/identifer.go].

    UUID text conversion is done by a third-party package
    (github.com/google/uuid); it is the parameter [UUIDLib], and [UUIDLaws]
    states what its documentation promises. *)
From S2P Require Import Prelude GoLib.

(** ** UUIDs *)

Abbreviation UUID := (fixed 16).
Definition uuid_Nil : UUID := mk_fixed (n := 16) (repeat x00 16) eq_refl.

Class UUIDLib : Type := {
  uuid_parse : bytes -> option UUID;
  uuid_string : UUID -> bytes
}.

Definition uuid_char (b : byte) : bool :=
  ((48 <=? b2z b) && (b2z b <=? 57)) || ((97 <=? b2z b) && (b2z b <=? 102)) || (b2z b =? 45).

(** [String] prints the 36-character lower-case form and [Parse] reads it back. *)
Class UUIDLaws (U : UUIDLib) : Prop := {
  uuid_parse_string u : uuid_parse (uuid_string u) = Some u;
  uuid_string_length u : length (uuid_string u) = 36%nat;
  uuid_string_chars u : Forall (fun b => uuid_char b = true) (uuid_string u)
}.

(** ** [ServiceID] *)

Definition ServiceIDTypeACI : byte := x00.
Definition ServiceIDTypePNI : byte := x01.

(** [ServiceIDType] is a byte: a value outside the two constants can be read
    from a 17-byte form. *)
Record ServiceID : Type := mkServiceID { sid_Type : byte; sid_UUID : UUID }.

#[global] Instance ServiceID_eq_dec : EqDecision ServiceID.
Proof. solve_decision. Defined.

#[global] Program Instance ServiceID_countable : Countable ServiceID :=
  inj_countable' (fun s => (sid_Type s, sid_UUID s)) (fun p => mkServiceID p.1 p.2) _.
Next Obligation. by intros []. Qed.

Definition EmptyServiceID : ServiceID := mkServiceID x00 uuid_Nil.
Definition NewPNIServiceID (u : UUID) : ServiceID := mkServiceID ServiceIDTypePNI u.
Definition NewACIServiceID (u : UUID) : ServiceID := mkServiceID ServiceIDTypeACI u.

Definition valid_type (t : byte) : bool :=
  bool_decide (t = ServiceIDTypeACI) || bool_decide (t = ServiceIDTypePNI).

(** [ServiceIDType.String] as [fmt] prints it: [fmt] recovers the panic of
    the default case and prints it in place. *)
Definition ServiceIDType_fmt (t : byte) : bytes :=
  if bool_decide (t = ServiceIDTypeACI) then str "ACI"
  else if bool_decide (t = ServiceIDTypePNI) then str "PNI"
  else str "%!s(PANIC=String method: invalid ServiceIDType: " ++ Decimal.itoa (b2z t) ++ str ")".

(** [ServiceIDType.String] called directly. *)
Definition ServiceIDType_String (t : byte) : outcome Empty_set bytes :=
  if bool_decide (t = ServiceIDTypeACI) then Ok (str "ACI")
  else if bool_decide (t = ServiceIDTypePNI) then Ok (str "PNI")
  else Panic.

Definition ToACIAndPNI (s : ServiceID) : UUID * UUID :=
  if bool_decide (sid_Type s = ServiceIDTypeACI) then (sid_UUID s, uuid_Nil) else (uuid_Nil, sid_UUID s).

Definition IsEmpty (s : ServiceID) : bool := bool_decide (sid_UUID s = uuid_Nil).

Definition ServiceID_Bytes (s : ServiceID) : bytes :=
  if bool_decide (sid_Type s = ServiceIDTypeACI) then fixed_bytes (sid_UUID s)
  else sid_Type s :: fixed_bytes (sid_UUID s).

Definition ServiceIDUUIDLength : nat := 16.
Definition ServiceIDFixedBytesLength : nat := 17.

Definition FixedBytes (s : ServiceID) : bytes := sid_Type s :: fixed_bytes (sid_UUID s).

Definition ServiceIDFromCFixedBytes (b : fixed 17) : option ServiceID :=
  match fixed_bytes b with
  | t :: rest => mkServiceID t <$> to_fixed 16 rest
  | [] => None
  end.

Inductive id_error :=
| InvalidUUIDString
| UUIDParse
| InvalidByteLength (n : nat)
| ErrEmptyUUIDInput
| InvalidGroupIDEncoding
| InvalidGroupIDLength
| ExpectedACI
| ExpectedTwoParts
| BadTimestamp (e : Decimal.num_error).

Definition ServiceIDFromBytes (b : bytes) : outcome id_error ServiceID :=
  if (length b =? ServiceIDUUIDLength)%nat then
    outmap NewACIServiceID (of_option (InvalidByteLength (length b)) (to_fixed 16 b))
  else if (length b =? ServiceIDFixedBytesLength)%nat then
    match b with
    | t :: rest => outmap (mkServiceID t) (of_option (InvalidByteLength (length b)) (to_fixed 16 rest))
    | [] => Panic
    end
  else Err (InvalidByteLength (length b)).

Section WithUUID.
Context `{U : UUIDLib}.

Definition ServiceID_String (s : ServiceID) : bytes :=
  if bool_decide (sid_Type s = ServiceIDTypeACI) then uuid_string (sid_UUID s)
  else ServiceIDType_fmt (sid_Type s) ++ str ":" ++ uuid_string (sid_UUID s).

(** [strings.ToUpper(val[:4]) == "PNI:"]: a non-ASCII rune inside the four
    bytes leaves fewer than four runes, so only the ASCII mapping matters. *)
Definition ServiceIDFromString (val : bytes) : outcome id_error ServiceID :=
  if (length val <? 36)%nat then Err InvalidUUIDString
  else if beqb (Strings.to_upper (take 4 val)) (str "PNI:") then
    outmap NewPNIServiceID (of_option UUIDParse (uuid_parse (drop 4 val)))
  else outmap NewACIServiceID (of_option UUIDParse (uuid_parse val)).

Definition MarshalText (s : ServiceID) : bytes := ServiceID_String s.

(** [UnmarshalText]: the receiver keeps its value when parsing fails. *)
Definition UnmarshalText (s : ServiceID) (text : bytes) : ServiceID * option id_error :=
  match ServiceIDFromString text with
  | Ok parsed => (parsed, None)
  | Err e => (s, Some e)
  | Panic => (s, None)
  end.

(** [misc.go]; a [nil] slice is [None]. *)
Definition ParseStringOrBinaryServiceID (s : bytes) (b : option bytes) : outcome id_error ServiceID :=
  if negb (beqb s []) then ServiceIDFromString s
  else match b with
  | Some b => ServiceIDFromBytes b
  | None => Err ErrEmptyUUIDInput
  end.

Definition ParseStringOrBinaryUUID (s : bytes) (b : option bytes) : outcome id_error UUID :=
  if negb (beqb s []) then of_option UUIDParse (uuid_parse s)
  else match b with
  | Some b =>
      if negb (length b =? 16)%nat then Err (InvalidByteLength (length b))
      else of_option (InvalidByteLength (length b)) (to_fixed 16 b)
  | None => Err ErrEmptyUUIDInput
  end.

End WithUUID.

(** [username.go]: service identifiers of the gRPC API. *)
Inductive IdentityType := IDENTITY_TYPE_UNSPECIFIED | IDENTITY_TYPE_ACI | IDENTITY_TYPE_PNI.
Record GRPCServiceIdentifier := { grpc_type : IdentityType; grpc_uuid : bytes }.

Definition ParseGRPCServiceID (s : option GRPCServiceIdentifier) : ServiceID :=
  match s with
  | None => EmptyServiceID
  | Some s =>
      match to_fixed 16 (grpc_uuid s) with
      | None => EmptyServiceID
      | Some u =>
          match grpc_type s with
          | IDENTITY_TYPE_ACI => NewACIServiceID u
          | IDENTITY_TYPE_PNI => NewPNIServiceID u
          | _ => EmptyServiceID
          end
      end
  end.

(** ** Group identifiers *)

(** [BytesToGroupIdentifier], with [GroupIdentifier.String] of a nil pointer. *)
Definition BytesToGroupIdentifier (raw : option (fixed 32)) : bytes :=
  match raw with None => [] | Some r => Base64.encode (fixed_bytes r) end.

Definition GroupIdentifier_Bytes (gid : bytes) : outcome id_error (fixed 32) :=
  match Base64.decode gid with
  | None => Err InvalidGroupIDEncoding
  | Some decoded => of_option InvalidGroupIDLength (to_fixed 32 decoded)
  end.

(** ** Properties *)

Lemma valid_type_cases s : valid_type (sid_Type s) = true ->
  s = NewACIServiceID (sid_UUID s) \/ s = NewPNIServiceID (sid_UUID s).
Proof.
  unfold valid_type. intros H. apply orb_true_iff in H as [H|H];
    apply bool_decide_eq_true in H; destruct s; simpl in *; subst; auto.
Qed.

Lemma uuid_char_not b : uuid_char b = false ->
  forall s : bytes, Forall (fun b => uuid_char b = true) s -> b ∉ s.
Proof. intros Hb s Hs Hin. rewrite Forall_forall in Hs. specialize (Hs _ Hin). congruence. Qed.

Section Properties.
Context `{U : UUIDLib} `{UL : !UUIDLaws U}.

(** The lower-case hexadecimal form never looks like a [PNI:] identifier. *)
Lemma uuid_string_not_pni u : beqb (Strings.to_upper (take 4 (uuid_string u))) (str "PNI:") = false.
Proof.
  apply beqb_neq. intros H. pose proof (uuid_string_length u) as Hl.
  pose proof (uuid_string_chars u) as Hc.
  destruct (uuid_string u) as [|a s]; [done|]. apply Forall_inv in Hc.
  destruct s as [|? [|? [|? ?]]]; [done..|]. simpl in H. injection H as Ha _ _ _.
  revert Ha Hc. clear. destruct a; vm_compute; congruence.
Qed.

Lemma FromString_uuid u : ServiceIDFromString (uuid_string u) = Ok (NewACIServiceID u).
Proof.
  unfold ServiceIDFromString. rewrite uuid_string_length, uuid_string_not_pni.
  by rewrite uuid_parse_string.
Qed.

Lemma FromString_pni u : ServiceIDFromString (str "PNI:" ++ uuid_string u) = Ok (NewPNIServiceID u).
Proof.
  unfold ServiceIDFromString. rewrite length_app, uuid_string_length.
  change (length (str "PNI:")) with 4%nat. change (4 + 36 <? 36)%nat with false. cbn iota.
  change (take 4 (str "PNI:" ++ uuid_string u)) with (str "PNI:").
  change (drop 4 (str "PNI:" ++ uuid_string u)) with (uuid_string u).
  change (beqb (Strings.to_upper (str "PNI:")) (str "PNI:")) with true.
  by rewrite uuid_parse_string.
Qed.

Lemma FromString_String s : valid_type (sid_Type s) = true ->
  ServiceIDFromString (ServiceID_String s) = Ok s.
Proof.
  intros [->| ->]%valid_type_cases.
  - apply FromString_uuid.
  - apply FromString_pni.
Qed.

Lemma String_length s : valid_type (sid_Type s) = true ->
  length (ServiceID_String s) = 36%nat \/ length (ServiceID_String s) = 40%nat.
Proof.
  intros [->| ->]%valid_type_cases.
  - left. apply uuid_string_length.
  - right. unfold ServiceID_String. simpl. by rewrite uuid_string_length.
Qed.

(** The text of an ID of an unknown type is longer than every other ID. *)
Lemma invalid_String_length s : valid_type (sid_Type s) = false -> (44 < length (ServiceID_String s))%nat.
Proof.
  unfold valid_type, ServiceID_String, ServiceIDType_fmt. intros [H1 H2]%orb_false_iff. rewrite H1, H2.
  rewrite !length_app, uuid_string_length.
  change (length (str "%!s(PANIC=String method: invalid ServiceIDType: ")) with 48%nat. lia.
Qed.

Lemma String_inj s s' : valid_type (sid_Type s) = true -> ServiceID_String s = ServiceID_String s' -> s = s'.
Proof.
  intros Hv E. destruct (valid_type (sid_Type s')) eqn:Hv'.
  - apply FromString_String in Hv, Hv'. rewrite E in Hv. congruence.
  - apply invalid_String_length in Hv'. destruct (String_length s Hv) as [Hl|Hl]; rewrite <- E, Hl in Hv'; lia.
Qed.

Lemma String_not_group s : length (ServiceID_String s) <> 44%nat.
Proof.
  destruct (valid_type (sid_Type s)) eqn:Hv.
  - destruct (String_length s Hv) as [-> | ->]; done.
  - apply invalid_String_length in Hv. lia.
Qed.

Lemma ServiceIDFromString_no_panic v : is_panic (ServiceIDFromString v) = false.
Proof.
  unfold ServiceIDFromString. destruct (_ <? _)%nat; [done|].
  destruct (beqb _ _); by destruct (uuid_parse _).
Qed.

End Properties.

Lemma FromBytes_Bytes s : ServiceIDFromBytes (ServiceID_Bytes s) = Ok s.
Proof.
  unfold ServiceIDFromBytes, ServiceID_Bytes. destruct s as [t u]; simpl.
  destruct (bool_decide (t = ServiceIDTypeACI)) eqn:E.
  - apply bool_decide_eq_true in E as ->. rewrite fixed_length. simpl. by rewrite to_fixed_bytes.
  - cbn [length]. rewrite fixed_length. simpl. by rewrite to_fixed_bytes.
Qed.

Lemma FromCFixedBytes_FixedBytes s b : fixed_bytes b = FixedBytes s ->
  ServiceIDFromCFixedBytes b = Some s.
Proof.
  intros H. unfold ServiceIDFromCFixedBytes. rewrite H. destruct s. simpl.
  by rewrite to_fixed_bytes.
Qed.

Lemma ServiceIDFromBytes_no_panic b : is_panic (ServiceIDFromBytes b) = false.
Proof.
  unfold ServiceIDFromBytes. destruct (_ =? _)%nat; [by destruct (to_fixed _ _)|].
  destruct (Nat.eqb_spec (length b) ServiceIDFixedBytesLength) as [E|E]; [|done].
  destruct b; [done|]. by destruct (to_fixed _ _).
Qed.

Lemma GroupIdentifier_roundtrip r :
  GroupIdentifier_Bytes (BytesToGroupIdentifier (Some r)) = Ok r.
Proof.
  unfold GroupIdentifier_Bytes, BytesToGroupIdentifier.
  by rewrite Base64.decode_encode, to_fixed_bytes.
Qed.

(** The portal code recognises groups by the length of this form. *)
Lemma GroupIdentifier_length r : length (BytesToGroupIdentifier (Some r)) = 44%nat.
Proof. unfold BytesToGroupIdentifier. by rewrite Base64.encode_length, fixed_length. Qed.

(** ** A concrete UUID library

    The canonical 36-character form only; it satisfies [UUIDLaws], so the
    properties that assume them are not vacuous. *)
Module CanonicalUUID.

Definition hexdigit (d : Z) : byte := if d <? 10 then z2b (48 + d) else z2b (87 + d).

Definition hexval (b : byte) : option Z :=
  let z := b2z b in
  if (48 <=? z) && (z <=? 57) then Some (z - 48)
  else if (97 <=? z) && (z <=? 102) then Some (z - 87)
  else if (65 <=? z) && (z <=? 70) then Some (z - 55)
  else None.

Definition hex_byte (b : byte) : bytes := [hexdigit (b2z b / 16); hexdigit (b2z b mod 16)].

Definition dash_after (i : nat) : bool :=
  (i =? 3)%nat || (i =? 5)%nat || (i =? 7)%nat || (i =? 9)%nat.

Fixpoint print (i : nat) (l : bytes) : bytes :=
  match l with
  | [] => []
  | b :: l' => hex_byte b ++ (if dash_after i then [x2d] else []) ++ print (S i) l'
  end.

Fixpoint parse (fuel i : nat) (s : bytes) : option bytes :=
  match fuel with
  | O => match s with [] => Some [] | _ => None end
  | S n =>
      match s with
      | h :: l :: s' =>
          vh ← hexval h; vl ← hexval l;
          s'' ← (if dash_after i then
                   match s' with d :: r => if bool_decide (d = x2d) then Some r else None | [] => None end
                 else Some s');
          rest ← parse n (S i) s''; Some (z2b (vh * 16 + vl) :: rest)
      | _ => None
      end
  end.

#[export] Instance canonical_uuid : UUIDLib := {
  uuid_parse s := parse 16 0 s ≫= to_fixed 16;
  uuid_string u := print 0 (fixed_bytes u)
}.

Lemma hexval_hexdigit d : 0 <= d < 16 -> hexval (hexdigit d) = Some d.
Proof.
  intros Hd. unfold hexdigit. destruct (Z.ltb_spec d 10); unfold hexval;
    rewrite b2z_z2b_small by lia.
  - replace ((48 <=? 48 + d) && (48 + d <=? 57)) with true by lia. f_equal. lia.
  - replace ((48 <=? 87 + d) && (87 + d <=? 57)) with false by lia.
    replace ((97 <=? 87 + d) && (87 + d <=? 102)) with true by lia. f_equal. lia.
Qed.

Lemma parse_print l : forall i, parse (length l) i (print i l) = Some l.
Proof.
  induction l as [|b l IH]; intros i; [done|]. cbn [length print hex_byte app parse].
  pose proof (b2z_range b). rewrite !hexval_hexdigit by lia. cbn [mbind option_bind].
  replace (z2b (b2z b / 16 * 16 + b2z b mod 16)) with b
    by (rewrite <- (z2b_b2z b) at 1; f_equal; lia).
  destruct (dash_after i); cbn [app].
  - rewrite bool_decide_true by done. cbn. by rewrite IH.
  - cbn. by rewrite IH.
Qed.

Lemma print_chars l : forall i, Forall (fun b => uuid_char b = true) (print i l).
Proof.
  assert (Hd : forall d, 0 <= d < 16 -> uuid_char (hexdigit d) = true).
  { intros d Hd. unfold hexdigit, uuid_char. destruct (Z.ltb_spec d 10); rewrite b2z_z2b_small; lia. }
  induction l as [|b l IH]; intros i; cbn [print hex_byte app]; [done|].
  pose proof (b2z_range b).
  repeat (apply Forall_cons; split; [apply Hd; lia|]). apply Forall_app. split; [|done].
  destruct (dash_after i); [by apply Forall_singleton|done].
Qed.

#[export] Instance canonical_uuid_laws : UUIDLaws canonical_uuid.
Proof.
  split; intros u; cbn [uuid_parse uuid_string canonical_uuid].
  - pose proof (parse_print (fixed_bytes u) 0) as Hp. rewrite fixed_length in Hp.
    rewrite Hp. apply to_fixed_bytes.
  - destruct u as [l Hl]; cbn [fixed_bytes]. apply Nat.eqb_eq in Hl.
    do 16 (destruct l as [|? l]; [done|]). by destruct l.
  - apply print_chars.
Qed.

End CanonicalUUID.
