(* ===== verification/SignalId.v ===== *)
(** Identifiers shared with the Matrix side: [pkg/signalid/ids.go] and the
    portal keys and event senders of [pkg/connector/id.go].

    A [networkid.UserID], [PortalID], [MessageID] or [PartID] is a Go string. *)
From S2P Require Import Prelude GoLib ServiceId.

Section Ids.
Context `{U : UUIDLib}.

Definition pniUserIDPrefix : bytes := str "pni_".
Definition pniServiceIDPrefix : bytes := str "PNI:".

Definition ParseUserIDAsServiceID (userID : bytes) : outcome id_error ServiceID :=
  ServiceIDFromString
    (if Strings.has_prefix pniUserIDPrefix userID
     then pniServiceIDPrefix ++ drop (length pniUserIDPrefix) userID else userID).

Definition ParseUserID (userID : bytes) : outcome id_error UUID :=
  let! serviceID := ParseUserIDAsServiceID userID in
  if negb (bool_decide (sid_Type serviceID = ServiceIDTypeACI)) then Err ExpectedACI
  else Ok (sid_UUID serviceID).

Definition ParseUserLoginID (userLoginID : bytes) : outcome id_error UUID :=
  of_option UUIDParse (uuid_parse userLoginID).

Definition toServiceID (r : outcome id_error UUID) : outcome id_error ServiceID :=
  outmap NewACIServiceID r.

(** [bridgev2.GhostOrUserLogin]: an interface implemented by two types. *)
Inductive GhostOrUserLogin := AUserLogin (id : bytes) | AGhost (id : bytes).

Definition ParseGhostOrUserLoginID (g : GhostOrUserLogin) : outcome id_error ServiceID :=
  match g with
  | AUserLogin id => toServiceID (ParseUserLoginID id)
  | AGhost id => ParseUserIDAsServiceID id
  end.

(** Both results: the service ID of a direct chat or the group ID. *)
Definition ParsePortalID (portalID : bytes) : outcome id_error (ServiceID * bytes) :=
  if (length portalID =? 44)%nat then Ok (EmptyServiceID, portalID)
  else outmap (fun s => (s, [])) (ServiceIDFromString portalID).

Definition ParseMessageID (messageID : bytes) : outcome id_error (UUID * Z) :=
  match Strings.split x7c messageID with
  | [p0; p1] =>
      let! sender := of_option UUIDParse (uuid_parse p0) in
      let! timestamp := wrap_err BadTimestamp (Decimal.parse_uint p1) in
      Ok (sender, timestamp)
  | _ => Err ExpectedTwoParts
  end.

Definition MakeGroupPortalID (groupID : bytes) : bytes := groupID.
Definition MakeDMPortalID (serviceID : ServiceID) : bytes := ServiceID_String serviceID.
Definition MakeMessageID (sender : UUID) (timestamp : Z) : bytes :=
  uuid_string sender ++ str "|" ++ Decimal.format_uint timestamp.
Definition MakeUserID (user : UUID) : bytes := uuid_string user.

Definition MakeUserIDFromServiceID (user : ServiceID) : outcome Empty_set bytes :=
  if bool_decide (sid_Type user = ServiceIDTypeACI) then Ok (MakeUserID (sid_UUID user))
  else if bool_decide (sid_Type user = ServiceIDTypePNI)
  then Ok (pniUserIDPrefix ++ uuid_string (sid_UUID user))
  else Panic.

Definition MakeUserLoginID (user : UUID) : bytes := uuid_string user.

Definition MakeMessagePartID (index : Z) : bytes :=
  if index =? 0 then [] else Decimal.itoa index.

(** ** [connector/id.go] *)

Record PortalKey := { pk_ID : bytes; pk_Receiver : bytes }.
Record EventSender := { es_IsFromMe : bool; es_SenderLogin : bytes; es_Sender : bytes }.

(** The parts of [SignalClient] these methods read. *)
Record ClientIDs := { ci_SplitPortals : bool; ci_UserLoginID : bytes; ci_ACI : UUID }.

Definition makePortalKey (s : ClientIDs) (chatID : bytes) : PortalKey :=
  {| pk_ID := chatID;
     pk_Receiver := if ci_SplitPortals s || negb (length chatID =? 44)%nat
                    then ci_UserLoginID s else [] |}.

Definition makeDMPortalKey (s : ClientIDs) (serviceID : ServiceID) : PortalKey :=
  {| pk_ID := MakeDMPortalID serviceID; pk_Receiver := ci_UserLoginID s |}.

Definition makeEventSender (s : ClientIDs) (sender : UUID) : EventSender :=
  {| es_IsFromMe := bool_decide (sender = ci_ACI s);
     es_SenderLogin := MakeUserLoginID sender;
     es_Sender := MakeUserID sender |}.

Definition makePNIEventSender (sender : UUID) : outcome Empty_set EventSender :=
  outmap (fun id => {| es_IsFromMe := false; es_SenderLogin := []; es_Sender := id |})
       (MakeUserIDFromServiceID (NewPNIServiceID sender)).

Definition makeEventSenderFromServiceID (s : ClientIDs) (serviceID : ServiceID) : outcome Empty_set EventSender :=
  if bool_decide (sid_Type serviceID = ServiceIDTypeACI) then Ok (makeEventSender s (sid_UUID serviceID))
  else if bool_decide (sid_Type serviceID = ServiceIDTypePNI) then makePNIEventSender (sid_UUID serviceID)
  else Panic.

End Ids.

(** ** Lemmas *)
Section Lemmas.
Context `{U : UUIDLib} `{UL : !UUIDLaws U}.

Lemma uuid_no_byte b u : uuid_char b = false -> b ∉ uuid_string u.
Proof. intros Hb. apply uuid_char_not; [done|]. apply uuid_string_chars. Qed.

Lemma uuid_not_pni_prefix u : Strings.has_prefix pniUserIDPrefix (uuid_string u) = false.
Proof.
  apply not_true_is_false. intros H. apply Strings.has_prefix_true in H.
  apply (uuid_no_byte x70 u); [done|]. rewrite H. set_solver.
Qed.

Lemma ParseUserIDAsServiceID_aci u :
  ParseUserIDAsServiceID (uuid_string u) = Ok (NewACIServiceID u).
Proof. unfold ParseUserIDAsServiceID. rewrite uuid_not_pni_prefix. apply FromString_uuid. Qed.

Lemma ParseUserIDAsServiceID_pni u :
  ParseUserIDAsServiceID (pniUserIDPrefix ++ uuid_string u) = Ok (NewPNIServiceID u).
Proof.
  unfold ParseUserIDAsServiceID. rewrite Strings.has_prefix_app.
  rewrite drop_app_length. apply FromString_pni.
Qed.

Lemma user_id_roundtrip s id : MakeUserIDFromServiceID s = Ok id ->
  ParseUserIDAsServiceID id = Ok s.
Proof.
  unfold MakeUserIDFromServiceID. destruct s as [t u]; simpl.
  destruct (bool_decide (t = ServiceIDTypeACI)) eqn:E1.
  { apply bool_decide_eq_true in E1 as ->. intros [= <-]. apply ParseUserIDAsServiceID_aci. }
  destruct (bool_decide (t = ServiceIDTypePNI)) eqn:E2; [|done].
  apply bool_decide_eq_true in E2 as ->. intros [= <-]. apply ParseUserIDAsServiceID_pni.
Qed.

Lemma message_id_parts sender ts : 0 <= ts ->
  Strings.split x7c (MakeMessageID sender ts) = [uuid_string sender; Decimal.format_uint ts].
Proof.
  intros Hts. unfold MakeMessageID. simpl app.
  rewrite Strings.split_app by by apply uuid_no_byte.
  rewrite Strings.split_no_sep; [done|]. by apply Decimal.digits_no_byte.
Qed.

Lemma dm_portal_length s : valid_type (sid_Type s) = true -> length (MakeDMPortalID s) <> 44%nat.
Proof. intros [H|H]%String_length; unfold MakeDMPortalID; rewrite H; done. Qed.

Lemma itoa_parse i : 0 <= i < 2 ^ 63 -> Decimal.parse_uint (Decimal.itoa i) = Ok i.
Proof.
  intros Hi. unfold Decimal.itoa. replace (i <? 0) with false by lia.
  apply Decimal.parse_format_uint. unfold in_width. lia.
Qed.

End Lemmas.

(** ** Properties *)
Section Claims.
Context `{U : UUIDLib} `{UL : !UUIDLaws U}.

(** [ServiceIDFromString] inverts [ServiceID.String], so a service ID
    survives the text form used in the database and in portal IDs, and
    [ServiceIDFromBytes] inverts [ServiceID.Bytes] for every type byte. *)
Theorem service_id_roundtrip s (H : valid_type (sid_Type s) = true) :
  ServiceIDFromString (ServiceID_String s) = Ok s /\ ServiceIDFromBytes (ServiceID_Bytes s) = Ok s.
Proof. split; [by apply FromString_String|apply FromBytes_Bytes]. Qed.

(** the ghost user ID of a service ID parses back to it; [ParseUserID]
    returns the UUID of an ACI and refuses the user ID of a PNI. *)
Theorem user_id_correct s id (H : MakeUserIDFromServiceID s = Ok id) :
  ParseUserIDAsServiceID id = Ok s /\
  ParseUserID id = (if bool_decide (sid_Type s = ServiceIDTypeACI) then Ok (sid_UUID s) else Err ExpectedACI).
Proof.
  apply user_id_roundtrip in H. split; [done|]. unfold ParseUserID. rewrite H. simpl.
  by destruct (bool_decide _).
Qed.

(** [ParseMessageID] inverts [MakeMessageID] for every sender and every
    [uint64] timestamp. *)
Theorem message_id_roundtrip sender ts (H : in_width 64 ts) :
  ParseMessageID (MakeMessageID sender ts) = Ok (sender, ts).
Proof.
  unfold ParseMessageID. rewrite message_id_parts by apply H. rewrite uuid_parse_string. simpl.
  by rewrite Decimal.parse_format_uint.
Qed.

(** Portal IDs are unambiguous: the portal ID of a direct chat parses to
    its service ID and never to a group, the portal ID of a group parses to
    the group, the two never coincide, and only direct chats get a receiver
    when portals are not split. *)
Theorem portal_id_correct c s g (H : valid_type (sid_Type s) = true) :
  let dm := MakeDMPortalID s in
  let gid := BytesToGroupIdentifier (Some g) in
  ParsePortalID dm = Ok (s, []) /\
  ParsePortalID (MakeGroupPortalID gid) = Ok (EmptyServiceID, gid) /\
  dm <> MakeGroupPortalID gid /\
  makePortalKey c dm = makeDMPortalKey c s /\
  pk_Receiver (makePortalKey c gid) = (if ci_SplitPortals c then ci_UserLoginID c else []).
Proof.
  intros dm gid. pose proof (dm_portal_length s H) as Hne.
  pose proof (GroupIdentifier_length g : length gid = 44%nat) as Hg.
  assert (Hb : (length dm =? 44)%nat = false) by by apply Nat.eqb_neq.
  split_and!.
  - unfold ParsePortalID. rewrite Hb. unfold dm, MakeDMPortalID. by rewrite FromString_String.
  - unfold ParsePortalID, MakeGroupPortalID. by rewrite Hg.
  - intros E. apply Hne. fold dm. rewrite E. exact Hg.
  - unfold makePortalKey, makeDMPortalKey. rewrite Hb. by rewrite orb_true_r.
  - unfold makePortalKey. simpl. rewrite Hg. by rewrite orb_false_r.
Qed.

End Claims.

(** Message part IDs are distinct for distinct part indexes. *)
Theorem part_id_injective i j (Hi : 0 <= i < 2 ^ 63) (Hj : 0 <= j < 2 ^ 63)
  (H : MakeMessagePartID i = MakeMessagePartID j) : i = j.
Proof.
  assert (Hne : forall k, 0 <= k < 2 ^ 63 -> Decimal.itoa k <> []).
  { intros k Hk E. pose proof (itoa_parse k Hk) as Hp. by rewrite E in Hp. }
  unfold MakeMessagePartID in H.
  destruct (Z.eqb_spec i 0), (Z.eqb_spec j 0); [congruence|..].
  - by apply Hne in Hj.
  - by apply Hne in Hi.
  - pose proof (itoa_parse i Hi) as E1. rewrite H, itoa_parse in E1 by done. congruence.
Qed.

(** ** Witnesses *)
Import CanonicalUUID.

Definition sample_uuid : UUID :=
  mk_fixed (n := 16) (str "0123456789abcdef") eq_refl.

Lemma service_id_roundtrip_witness :
  ServiceIDFromString (ServiceID_String (NewPNIServiceID sample_uuid)) = Ok (NewPNIServiceID sample_uuid) /\
  ServiceIDFromBytes (ServiceID_Bytes (NewPNIServiceID sample_uuid)) = Ok (NewPNIServiceID sample_uuid).
Proof. apply (service_id_roundtrip (NewPNIServiceID sample_uuid)). reflexivity. Defined.

Lemma user_id_correct_witness :
  ParseUserIDAsServiceID (str "pni_30313233-3435-3637-3839-616263646566") = Ok (NewPNIServiceID sample_uuid) /\
  ParseUserID (str "pni_30313233-3435-3637-3839-616263646566") = Err ExpectedACI.
Proof. apply (user_id_correct (NewPNIServiceID sample_uuid)). vm_compute. reflexivity. Defined.

Lemma message_id_roundtrip_witness :
  MakeMessageID sample_uuid 1700000000123 = str "30313233-3435-3637-3839-616263646566|1700000000123" /\
  ParseMessageID (MakeMessageID sample_uuid 1700000000123) = Ok (sample_uuid, 1700000000123).
Proof.
  split; [vm_compute; reflexivity|].
  apply (message_id_roundtrip sample_uuid 1700000000123). unfold in_width. lia.
Defined.

Lemma portal_id_correct_witness :
  ParsePortalID (MakeDMPortalID (NewACIServiceID sample_uuid)) = Ok (NewACIServiceID sample_uuid, []).
Proof.
  apply (portal_id_correct {| ci_SplitPortals := false; ci_UserLoginID := []; ci_ACI := sample_uuid |}
           (NewACIServiceID sample_uuid) (fixed_zero 32)). reflexivity.
Defined.

Lemma part_id_injective_witness : MakeMessagePartID 12 = str "12" /\ 12 = 12.
Proof. split; [reflexivity|]. apply (part_id_injective 12 12); [lia|lia|reflexivity]. Defined.
