(* ===== verification/MediaId.v ===== *)
(** Direct media identifiers: [pkg/signalid/media.go].

    Each kind of media is written as a type byte followed by fixed arrays,
    varints and length-prefixed byte slices. *)
From S2P Require Import Prelude GoLib ServiceId.

Definition directMediaTypeAttachment : byte := x00.
Definition directMediaTypeGroupAvatar : byte := x01.
Definition directMediaTypeProfileAvatar : byte := x02.
Definition directMediaTypePlaintextDigestAttachment : byte := x03.
Definition directMediaTypeSticker : byte := x04.

Record DirectMediaAttachment := mkAttachment {
  CDNID : Z;  CDNKey : bytes;  CDNNumber : Z;  Key : bytes;
  PlaintextDigest : bool;  Digest : bytes;  Size : Z
}.
Record DirectMediaGroupAvatar := mkGroupAvatar {
  ga_UserID : UUID;  ga_GroupID : fixed 32;  GroupAvatarPath : bytes
}.
Record DirectMediaProfileAvatar := mkProfileAvatar {
  pa_UserID : UUID;  pa_ContactID : UUID;  ProfileAvatarPath : bytes
}.
Record DirectMediaSticker := mkSticker { PackID : bytes;  PackKey : bytes;  StickerID : Z }.

(** The implementations of the interface [DirectMediaInfo]. *)
Inductive DirectMediaInfo :=
| InfoAttachment (a : DirectMediaAttachment)
| InfoGroupAvatar (a : DirectMediaGroupAvatar)
| InfoProfileAvatar (a : DirectMediaProfileAvatar)
| InfoSticker (a : DirectMediaSticker).

Inductive media_error :=
| EmptyMediaID
| ReadFailed (e : read_error)
| SliceTooLarge (length : Z) (max : nat)
| InvalidPackIDLength
| InvalidPackKeyLength
| InvalidStickerLength (n : nat)
| InvalidMediaType (t : byte).

(** ** Writing *)

Definition writeUvarint (i : Z) : bytes := Uvarint.append_uvarint i.
Definition writeByteSlice (b : bytes) : bytes := writeUvarint (Z.of_nat (length b)) ++ b.

(** Writes to a [bytes.Buffer] never fail, so the error returns are unreachable. *)
Definition Attachment_AsMediaID (m : DirectMediaAttachment) : bytes :=
  let attType := if PlaintextDigest m then directMediaTypePlaintextDigestAttachment
                 else directMediaTypeAttachment in
  [attType] ++ writeUvarint (CDNID m) ++ writeByteSlice (CDNKey m) ++
  writeUvarint (CDNNumber m) ++ writeByteSlice (Key m) ++ writeByteSlice (Digest m) ++
  writeUvarint (Size m).

Definition GroupAvatar_AsMediaID (m : DirectMediaGroupAvatar) : bytes :=
  [directMediaTypeGroupAvatar] ++ fixed_bytes (ga_UserID m) ++ fixed_bytes (ga_GroupID m) ++
  writeByteSlice (GroupAvatarPath m).

Definition ProfileAvatar_AsMediaID (m : DirectMediaProfileAvatar) : bytes :=
  [directMediaTypeProfileAvatar] ++ fixed_bytes (pa_UserID m) ++ fixed_bytes (pa_ContactID m) ++
  writeByteSlice (ProfileAvatarPath m).

Definition packIDLen : nat := 16.
Definition packKeyLen : nat := 32.
Definition directMediaStickerLen : nat := 1 + packIDLen + packKeyLen + 4.

Definition Sticker_AsMediaID (m : DirectMediaSticker) : outcome media_error bytes :=
  if negb (length (PackID m) =? packIDLen)%nat then Err InvalidPackIDLength
  else if negb (length (PackKey m) =? packKeyLen)%nat then Err InvalidPackKeyLength
  else Ok (directMediaTypeSticker :: PackID m ++ PackKey m ++ BigEndian.put_uint32 (StickerID m)).

Definition AsMediaID (i : DirectMediaInfo) : outcome media_error bytes :=
  match i with
  | InfoAttachment a => Ok (Attachment_AsMediaID a)
  | InfoGroupAvatar a => Ok (GroupAvatar_AsMediaID a)
  | InfoProfileAvatar a => Ok (ProfileAvatar_AsMediaID a)
  | InfoSticker a => Sticker_AsMediaID a
  end.

(** ** Reading *)

Definition readUvarint (r : bytes) : outcome media_error (Z * bytes) :=
  wrap_err ReadFailed (Uvarint.read_uvarint r).

(** The bound is checked after the conversion [int(length)], and [make]
    panics for a length that is negative as an [int]. *)
Definition readByteSlice (r : bytes) (maxLength : nat) : outcome media_error (bytes * bytes) :=
  let! (len, r1) := readUvarint r in
  if Z.of_nat maxLength <? swrap 64 len then Err (SliceTooLarge len maxLength)
  else if len =? 0 then Ok ([], r1)
  else if swrap 64 len <? 0 then Panic
  else wrap_err ReadFailed (read_full (Z.to_nat len) r1).

(** [binary.Read] into a fixed-size array. *)
Definition readFixed (n : nat) (r : bytes) : outcome media_error (fixed n * bytes) :=
  let! (l, r1) := wrap_err ReadFailed (read_full n r) in
  match to_fixed n l with Some a => Ok (a, r1) | None => Panic end.

Definition parseAttachment (plaintextDigest : bool) (buf : bytes) (mediaIDLen : nat)
  : outcome media_error DirectMediaInfo :=
  let! (cdnID, r1) := readUvarint buf in
  let! (cdnKey, r2) := readByteSlice r1 mediaIDLen in
  let! (cdnNumber, r3) := readUvarint r2 in
  let! (key, r4) := readByteSlice r3 mediaIDLen in
  let! (digest, r5) := readByteSlice r4 mediaIDLen in
  let! (size, _) := readUvarint r5 in
  Ok (InfoAttachment (mkAttachment cdnID cdnKey (uint32 cdnNumber) key plaintextDigest digest (uint32 size))).

Definition parseGroupAvatar (buf : bytes) (mediaIDLen : nat) : outcome media_error DirectMediaInfo :=
  let! (userID, r1) := readFixed 16 buf in
  let! (groupID, r2) := readFixed 32 r1 in
  let! (path, _) := readByteSlice r2 mediaIDLen in
  Ok (InfoGroupAvatar (mkGroupAvatar userID groupID path)).

Definition parseProfileAvatar (buf : bytes) (mediaIDLen : nat) : outcome media_error DirectMediaInfo :=
  let! (userID, r1) := readFixed 16 buf in
  let! (contactID, r2) := readFixed 16 r1 in
  let! (path, _) := readByteSlice r2 mediaIDLen in
  Ok (InfoProfileAvatar (mkProfileAvatar userID contactID path)).

Definition parseSticker (mediaID : bytes) : outcome media_error DirectMediaInfo :=
  if negb (length mediaID =? directMediaStickerLen)%nat then Err (InvalidStickerLength (length mediaID))
  else
    match BigEndian.get_uint32 (drop (1 + packIDLen + packKeyLen) mediaID) with
    | Some id => Ok (InfoSticker (mkSticker (take packIDLen (drop 1 mediaID))
                                            (take packKeyLen (drop (1 + packIDLen) mediaID)) id))
    | None => Panic
    end.

Definition ParseDirectMediaInfo (mediaID : bytes) : outcome media_error DirectMediaInfo :=
  match mediaID with
  | [] => Err EmptyMediaID
  | mediaType :: buf =>
      if bool_decide (mediaType = directMediaTypeAttachment)
         || bool_decide (mediaType = directMediaTypePlaintextDigestAttachment)
      then parseAttachment (bool_decide (mediaType = directMediaTypePlaintextDigestAttachment))
             buf (length mediaID)
      else if bool_decide (mediaType = directMediaTypeGroupAvatar)
      then parseGroupAvatar buf (length mediaID)
      else if bool_decide (mediaType = directMediaTypeProfileAvatar)
      then parseProfileAvatar buf (length mediaID)
      else if bool_decide (mediaType = directMediaTypeSticker) then parseSticker mediaID
      else Err (InvalidMediaType mediaType)
  end.

(** ** Lemmas *)

Lemma readUvarint_write v rest : in_width 64 v -> readUvarint (writeUvarint v ++ rest) = Ok (v, rest).
Proof. intros H. unfold readUvarint, writeUvarint. by rewrite Uvarint.read_append. Qed.

Lemma readByteSlice_write b rest max : (length b <= max)%nat -> Z.of_nat max < 2 ^ 63 ->
  readByteSlice (writeByteSlice b ++ rest) max = Ok (b, rest).
Proof.
  intros Hb Hm. unfold readByteSlice, writeByteSlice. rewrite <- app_assoc.
  rewrite readUvarint_write by (unfold in_width; lia). cbn [obind].
  rewrite swrap_small by (change (64 - 1) with 63; lia).
  replace (Z.of_nat max <? Z.of_nat (length b)) with false by lia.
  destruct (Z.eqb_spec (Z.of_nat (length b)) 0) as [E|E].
  - by destruct b.
  - replace (Z.of_nat (length b) <? 0) with false by lia.
    rewrite Nat2Z.id. by rewrite read_full_app.
Qed.

Lemma readFixed_write n (a : fixed n) rest : readFixed n (fixed_bytes a ++ rest) = Ok (a, rest).
Proof.
  unfold readFixed. rewrite read_full_app by by rewrite fixed_length. simpl. by rewrite to_fixed_bytes.
Qed.

(** Values that fit the widths of the struct fields; slices have an [int] length. *)
Definition info_wf (i : DirectMediaInfo) : Prop :=
  match i with
  | InfoAttachment a => in_width 64 (CDNID a) /\ in_width 32 (CDNNumber a) /\ in_width 32 (Size a)
  | InfoSticker a => in_width 32 (StickerID a)
  | _ => True
  end.

Lemma uint32_in_64 v : in_width 32 v -> in_width 64 v.
Proof. unfold in_width. lia. Qed.

(** Every length-prefixed field of a media ID is shorter than the ID. *)
Ltac slice_bound := rewrite ?length_app, ?length_cons; unfold writeByteSlice; rewrite ?length_app; lia.

Lemma parse_attachment_roundtrip a : info_wf (InfoAttachment a) ->
  Z.of_nat (length (Attachment_AsMediaID a)) < 2 ^ 63 ->
  ParseDirectMediaInfo (Attachment_AsMediaID a) = Ok (InfoAttachment a).
Proof.
  intros (H1 & H2 & H3) Hlen. pose proof (wrap_small 32 _ H2) as W2. pose proof (wrap_small 32 _ H3) as W3.
  apply uint32_in_64 in H2, H3.
  assert (Hp : forall b, Attachment_AsMediaID a = b :: drop 1 (Attachment_AsMediaID a) ->
    parseAttachment (PlaintextDigest a) (drop 1 (Attachment_AsMediaID a)) (length (Attachment_AsMediaID a))
    = Ok (InfoAttachment a)).
  { intros b _. revert Hlen. generalize (eq_refl (length (Attachment_AsMediaID a))).
    generalize (length (Attachment_AsMediaID a)) at 2 3 4. intros max Hmax Hlen.
    unfold Attachment_AsMediaID in *. cbn [app drop]. unfold parseAttachment.
    cbn [app] in Hmax. rewrite length_cons in Hmax.
    repeat (rewrite length_app in Hmax || (unfold writeByteSlice in Hmax; rewrite length_app in Hmax)).
    rewrite drop_0.
    rewrite readUvarint_write by done. cbn [obind].
    rewrite readByteSlice_write by lia. cbn [obind].
    rewrite readUvarint_write by done. cbn [obind].
    rewrite readByteSlice_write by lia. cbn [obind].
    rewrite readByteSlice_write by lia. cbn [obind].
    rewrite <- (app_nil_r (writeUvarint (Size a))).
    rewrite readUvarint_write by done. cbn [obind].
    rewrite W2, W3. by destruct a. }
  revert Hp. unfold ParseDirectMediaInfo, Attachment_AsMediaID.
  destruct (PlaintextDigest a); cbn [app drop]; rewrite ?drop_0; intros Hp;
    rewrite ?bool_decide_true, ?bool_decide_false by done; simpl orb; cbn iota; by eapply Hp.
Qed.

Lemma parse_group_avatar_roundtrip a :
  Z.of_nat (length (GroupAvatar_AsMediaID a)) < 2 ^ 63 ->
  ParseDirectMediaInfo (GroupAvatar_AsMediaID a) = Ok (InfoGroupAvatar a).
Proof.
  unfold ParseDirectMediaInfo, GroupAvatar_AsMediaID. cbn [app]. intros Hlen.
  rewrite !(bool_decide_false (directMediaTypeGroupAvatar = _)) by done.
  rewrite (bool_decide_true (directMediaTypeGroupAvatar = _)) by done. cbn [orb].
  unfold parseGroupAvatar. rewrite readFixed_write. cbn [obind]. rewrite readFixed_write. cbn [obind].
  rewrite <- (app_nil_r (writeByteSlice (GroupAvatarPath a))) at 1.
  rewrite readByteSlice_write; [|slice_bound|exact Hlen]. by destruct a.
Qed.

Lemma parse_profile_avatar_roundtrip a :
  Z.of_nat (length (ProfileAvatar_AsMediaID a)) < 2 ^ 63 ->
  ParseDirectMediaInfo (ProfileAvatar_AsMediaID a) = Ok (InfoProfileAvatar a).
Proof.
  unfold ParseDirectMediaInfo, ProfileAvatar_AsMediaID. cbn [app]. intros Hlen.
  rewrite !(bool_decide_false (directMediaTypeProfileAvatar = _)) by done.
  rewrite (bool_decide_true (directMediaTypeProfileAvatar = _)) by done. cbn [orb].
  unfold parseProfileAvatar. rewrite readFixed_write. cbn [obind]. rewrite readFixed_write. cbn [obind].
  rewrite <- (app_nil_r (writeByteSlice (ProfileAvatarPath a))) at 1.
  rewrite readByteSlice_write; [|slice_bound|exact Hlen]. by destruct a.
Qed.

Lemma parse_sticker_roundtrip a id : in_width 32 (StickerID a) ->
  Sticker_AsMediaID a = Ok id -> ParseDirectMediaInfo id = Ok (InfoSticker a).
Proof.
  intros Hw. unfold Sticker_AsMediaID.
  destruct (Nat.eqb_spec (length (PackID a)) packIDLen) as [H1|]; [|done].
  destruct (Nat.eqb_spec (length (PackKey a)) packKeyLen) as [H2|]; [|done].
  intros [= <-]. unfold ParseDirectMediaInfo.
  rewrite !(bool_decide_false (directMediaTypeSticker = _)) by done.
  rewrite (bool_decide_true (directMediaTypeSticker = _)) by done. cbn [orb].
  unfold parseSticker.
  set (L := directMediaTypeSticker :: PackID a ++ PackKey a ++ BigEndian.put_uint32 (StickerID a)).
  assert (HL : length L = directMediaStickerLen)
    by (unfold L; rewrite length_cons, !length_app, H1, H2; done).
  assert (Hg : BigEndian.get_uint32 (drop (1 + packIDLen + packKeyLen) L) = Some (StickerID a)).
  { unfold L. rewrite <- drop_drop, <- drop_drop, skipn_cons, drop_0.
    rewrite !drop_app_length' by by rewrite ?H1, ?H2.
    rewrite <- (app_nil_r (BigEndian.put_uint32 _)). by apply BigEndian.get_put_uint32. }
  rewrite HL, Nat.eqb_refl, Hg. cbn [negb]. unfold L.
  rewrite <- drop_drop, !skipn_cons, !drop_0, (drop_app_length' (PackID a)) by by rewrite H1.
  rewrite !take_app_length' by by rewrite ?H1, ?H2. by destruct a.
Qed.

(** ** Properties *)

(** [ParseDirectMediaInfo] inverts [AsMediaID]: every media reference
    whose fields fit their widths is recovered from its media ID. *)
Theorem media_id_roundtrip i id (Hwf : info_wf i) (Hid : AsMediaID i = Ok id)
  (Hlen : Z.of_nat (length id) < 2 ^ 63) : ParseDirectMediaInfo id = Ok i.
Proof.
  destruct i as [a|a|a|a]; simpl in Hid.
  - injection Hid as <-. by apply parse_attachment_roundtrip.
  - injection Hid as <-. by apply parse_group_avatar_roundtrip.
  - injection Hid as <-. by apply parse_profile_avatar_roundtrip.
  - by apply parse_sticker_roundtrip.
Qed.

(** Bound of [readByteSlice]: a slice that is returned is never longer
    than the given maximum, but the check is made on [int(length)], so a
    length of 2^63 or more passes it and the allocation panics. *)
Theorem readByteSlice_bound r max len r1 (Hr : readUvarint r = Ok (len, r1)) (Hmax : Z.of_nat max < 2 ^ 63) :
  (forall b r2, readByteSlice r max = Ok (b, r2) -> (length b <= max)%nat) /\
  (2 ^ 63 <= len -> readByteSlice r max = Panic).
Proof.
  assert (Hw : in_width 64 len).
  { unfold readUvarint, wrap_err in Hr. destruct (Uvarint.read_uvarint r) as [[? ?]| |] eqn:E; try done.
    injection Hr as -> ->. by apply Uvarint.read_uvarint_range in E. }
  unfold in_width in Hw. unfold readByteSlice. rewrite Hr. cbn [obind]. split.
  - intros b r2 H. destruct (Z.ltb_spec (Z.of_nat max) (swrap 64 len)); [done|].
    destruct (Z.eqb_spec len 0); [injection H as <- <-; simpl; lia|].
    destruct (Z.ltb_spec (swrap 64 len) 0) as [|Hpos]; [done|].
    destruct (read_full (Z.to_nat len) r1) as [[? ?]| |] eqn:E; try done. injection H as -> ->.
    apply read_full_Ok in E as [_ ->].
    assert (swrap 64 len = len) by (unfold swrap in *; change (64 - 1) with 63 in *; lia). lia.
  - intros Hbig. unfold swrap. change (64 - 1) with 63.
    replace (Z.of_nat max <? (len + 2 ^ 63) mod 2 ^ 64 - 2 ^ 63) with false by lia.
    replace (len =? 0) with false by lia.
    by replace ((len + 2 ^ 63) mod 2 ^ 64 - 2 ^ 63 <? 0) with true by lia.
Qed.

Lemma readByteSlice_bound_witness :
  readByteSlice (writeUvarint (2 ^ 63) ++ str "x") 12 = Panic.
Proof.
  apply (readByteSlice_bound (writeUvarint (2 ^ 63) ++ str "x") 12 (2 ^ 63) (str "x"));
    [vm_compute; reflexivity|lia|lia].
Defined.

Definition sample_attachment : DirectMediaInfo :=
  InfoAttachment (mkAttachment 300 (str "key") 3 (str "abcd") true (str "digest") 70000).

Lemma media_id_roundtrip_witness :
  exists id, AsMediaID sample_attachment = Ok id /\ ParseDirectMediaInfo id = Ok sample_attachment.
Proof.
  eexists. split; [vm_compute; reflexivity|].
  apply (media_id_roundtrip sample_attachment); [|vm_compute; reflexivity|simpl; lia].
  simpl. unfold in_width. lia.
Defined.
