(* ===== verification/RangeTree.v ===== *)
(** Formatting ranges and the linked range tree: [pkg/msgconv/signalfmt/tree.go]
    and the range values of [tags.go].

    A Signal message carries a flat list of possibly overlapping ranges over
    its UTF-16 code units.  [LinkedRangeTree.Add] turns the sorted list into
    a tree that nests: the specification is [covering], the list of values
    whose range contains a position. *)
From S2P Require Import Prelude GoLib ServiceId.

(** ** Values ([tags.go]) *)

Record UserInfo := mkUserInfo { ui_MXID : bytes; ui_Name : bytes }.

#[global] Instance UserInfo_eq_dec : EqDecision UserInfo.
Proof. solve_decision. Defined.

(** [Style] is an [int]; the constants name the first six values. *)
Definition StyleNone : Z := 0.
Definition StyleBold : Z := 1.
Definition StyleItalic : Z := 2.
Definition StyleSpoiler : Z := 3.
Definition StyleStrikethrough : Z := 4.
Definition StyleMonospace : Z := 5.

(** The implementations of the interface [BodyRangeValue]. *)
Inductive BodyRangeValue :=
| Mention (info : UserInfo) (u : UUID)
| Style (s : Z).

#[global] Instance BodyRangeValue_eq_dec : EqDecision BodyRangeValue.
Proof. solve_decision. Defined.

(** The [signalpb.BodyRange] associated value. *)
Inductive AssociatedValue :=
| BodyRange_Style (s : Z)
| BodyRange_MentionAci (s : bytes)
| BodyRange_MentionAciBinary (b : bytes)
| BodyRange_None.

Definition Value_Proto (v : BodyRangeValue) : AssociatedValue :=
  match v with
  | Mention _ u => BodyRange_MentionAciBinary (fixed_bytes u)
  | Style s => BodyRange_Style s
  end.

Definition Style_String (s : Z) : bytes :=
  if s =? StyleNone then str "StyleNone"
  else if s =? StyleBold then str "StyleBold"
  else if s =? StyleItalic then str "StyleItalic"
  else if s =? StyleSpoiler then str "StyleSpoiler"
  else if s =? StyleStrikethrough then str "StyleStrikethrough"
  else if s =? StyleMonospace then str "StyleMonospace"
  else str "Style(" ++ Decimal.itoa s ++ str ")".

(** ** Ranges ([tree.go]) *)

(** A nil interface value is [None]. *)
Record BodyRange := mkRange { Start : Z; Length : Z; Value : option BodyRangeValue }.

Definition End_ (b : BodyRange) : Z := Start b + Length b.

Definition Offset (b : BodyRange) (offset : Z) : BodyRange :=
  mkRange (Start b + offset) (Length b) (Value b).

Definition TruncateStart (b : BodyRange) (startAt : Z) : BodyRange :=
  if Start b <? startAt then mkRange startAt (Length b - (startAt - Start b)) (Value b) else b.

Definition TruncateEnd (b : BodyRange) (maxEnd : Z) : BodyRange :=
  if maxEnd <? End_ b then mkRange (Start b) (maxEnd - Start b) (Value b) else b.

(** [BodyRangeList.Less] on two elements. *)
Definition range_Less (a b : BodyRange) : bool :=
  (Start a <? Start b) || (Length b <? Length a).

(** A [signalpb.BodyRange]; a missing optional field is [None]. *)
Record ProtoRange := mkProto { p_Start : option Z; p_Length : option Z; p_Value : AssociatedValue }.

(** [BodyRange.Proto]: the conversions to [uint32] wrap, and a nil value
    panics. *)
Definition BodyRange_Proto (b : BodyRange) : outcome Empty_set ProtoRange :=
  match Value b with
  | Some v => Ok (mkProto (Some (uint32 (Start b))) (Some (uint32 (Length b))) (Value_Proto v))
  | None => Panic
  end.

(** ** The tree

    [Leaf] stands for a nil pointer and for a tree without node: [Format]
    treats both alike, and [ptrAdd] allocates before it adds. *)
Inductive LinkedRangeTree :=
| Leaf
| Tree (Node : BodyRange) (Sibling Child : LinkedRangeTree).

Fixpoint Add (lrt : LinkedRangeTree) (r : BodyRange) : LinkedRangeTree :=
  match lrt with
  | Leaf => Tree r Leaf Leaf
  | Tree node sibling child =>
      let lrtEnd := End_ node in
      if lrtEnd <=? Start r then Tree node (Add sibling (Offset r (- lrtEnd))) child
      else
        let sibling' :=
          if lrtEnd <? End_ r then Add sibling (Offset (TruncateStart r lrtEnd) (- lrtEnd))
          else sibling in
        Tree node sibling' (Add child (Offset (TruncateEnd r lrtEnd) (- Start node)))
  end.

Definition AddAll (rs : list BodyRange) : LinkedRangeTree := fold_left Add rs Leaf.

(** ** Specification *)

Definition contains (r : BodyRange) (i : Z) : bool := (Start r <=? i) && (i <? End_ r).

(** The values of the ranges that contain position [i], in list order. *)
Definition covering (rs : list BodyRange) (i : Z) : list (option BodyRangeValue) :=
  Value <$> filter (fun r => contains r i = true) rs.

(** The values on the path to position [i], outermost first. *)
Fixpoint stack_at (t : LinkedRangeTree) (i : Z) : list (option BodyRangeValue) :=
  match t with
  | Leaf => []
  | Tree n sibling child =>
      if i <? Start n then []
      else if i <? End_ n then Value n :: stack_at child (i - Start n)
      else stack_at sibling (i - End_ n)
  end.

(** [fits t len]: every node lies inside the text it is applied to. *)
Fixpoint fits (t : LinkedRangeTree) (len : Z) : Prop :=
  match t with
  | Leaf => True
  | Tree n sibling child =>
      0 <= Start n /\ 0 <= Length n /\ End_ n <= len /\
      fits child (Length n) /\ fits sibling (len - End_ n)
  end.

(** [below t p]: no node that a range starting at [p] meets starts after it. *)
Fixpoint below (t : LinkedRangeTree) (p : Z) : Prop :=
  match t with
  | Leaf => True
  | Tree n sibling child =>
      Start n <= p /\ (p < End_ n -> below child (p - Start n)) /\
      below sibling (Z.max 0 (p - End_ n))
  end.

(** Ranges in the order [Add] relies on, and inside a text of length [len]. *)
Fixpoint starts_sorted (p : Z) (rs : list BodyRange) : Prop :=
  match rs with
  | [] => True
  | r :: rs' => p <= Start r /\ starts_sorted (Start r) rs'
  end.

Definition range_in (len : Z) (r : BodyRange) : Prop := 0 <= Start r /\ 0 <= Length r /\ End_ r <= len.

(** ** Lemmas *)

Ltac range_simpl :=
  unfold contains, Offset, TruncateStart, TruncateEnd in *; unfold End_ in *; simpl in *.

Lemma below_mono t : forall p q, p <= q -> below t p -> below t q.
Proof.
  induction t as [|n s IHs c IHc]; simpl; [done|]. intros p q Hpq (H1 & H2 & H3).
  split_and!; [lia|intros Hq; apply (IHc (p - Start n)); [lia|apply H2; lia]|].
  eapply IHs; [|exact H3]. lia.
Qed.

Lemma Add_below t : forall r, 0 <= Length r -> below t (Start r) -> below (Add t r) (Start r).
Proof.
  induction t as [|n s IHs c IHc]; intros r Hl; simpl; [intros _; split_and!; [lia|done..]|].
  intros (H1 & H2 & H3). destruct (Z.leb_spec (End_ n) (Start r)) as [He|He]; simpl.
  - split_and!; [lia|lia|].
    specialize (IHs (Offset r (- End_ n))). range_simpl.
    replace (Z.max 0 (Start r - (Start n + Length n))) with (Start r + - (Start n + Length n)) in * by lia.
    by apply IHs.
  - split_and!; [lia| |].
    + intros _. specialize (IHc (Offset (TruncateEnd r (End_ n)) (- Start n))).
      specialize (H2 He). range_simpl.
      destruct (Z.ltb_spec (Start n + Length n) (Start r + Length r)); simpl in *;
        replace (Start r - Start n) with (Start r + - Start n) in * by lia; apply IHc; auto; lia.
    + replace (Z.max 0 (Start r - End_ n)) with 0 in * by lia.
      destruct (Z.ltb_spec (End_ n) (End_ r)); [|done].
      specialize (IHs (Offset (TruncateStart r (End_ n)) (- End_ n))). range_simpl.
      destruct (Z.ltb_spec (Start r) (Start n + Length n)); [|lia]. simpl in *.
      replace (Start n + Length n + - (Start n + Length n)) with 0 in * by lia.
      apply IHs; [lia|done].
Qed.

(** One insertion adds its value exactly at the positions it contains. *)
Lemma Add_stack t : forall r i, 0 <= Length r -> below t (Start r) ->
  stack_at (Add t r) i = stack_at t i ++ (if contains r i then [Value r] else []).
Proof.
  induction t as [|n s IHs c IHc]; intros r i Hl Hb.
  { simpl. range_simpl. destruct (Z.ltb_spec i (Start r)), (Z.leb_spec (Start r) i); try lia; simpl; [done|].
    by destruct (Z.ltb_spec i (Start r + Length r)). }
  destruct Hb as (H1 & H2 & H3). simpl.
  destruct (Z.leb_spec (End_ n) (Start r)) as [He|He]; simpl.
  - destruct (Z.ltb_spec i (Start n)).
    { assert (contains r i = false) as -> by (range_simpl; lia). done. }
    destruct (Z.ltb_spec i (End_ n)).
    { assert (contains r i = false) as -> by (range_simpl; lia). by rewrite app_nil_r. }
    rewrite IHs; [|by range_simpl|].
    + f_equal. replace (contains (Offset r (- End_ n)) (i - End_ n)) with (contains r i)
        by (range_simpl; lia). done.
    + range_simpl. by replace (Z.max 0 (Start r - (Start n + Length n)))
        with (Start r + - (Start n + Length n)) in H3 by lia.
  - destruct (Z.ltb_spec i (Start n)).
    { assert (contains r i = false) as -> by (range_simpl; lia). done. }
    destruct (Z.ltb_spec i (End_ n)) as [Hi|Hi].
    + rewrite <- app_comm_cons. f_equal. rewrite IHc.
      * f_equal. replace (contains (Offset (TruncateEnd r (End_ n)) (- Start n)) (i - Start n))
          with (contains r i); [|range_simpl; destruct (Z.ltb_spec (Start n + Length n) (Start r + Length r)); simpl; lia].
        range_simpl. by destruct (Z.ltb_spec (Start n + Length n) (Start r + Length r)).
      * range_simpl. destruct (Z.ltb_spec (Start n + Length n) (Start r + Length r)); simpl; lia.
      * range_simpl. specialize (H2 He). destruct (Z.ltb_spec (Start n + Length n) (Start r + Length r)); simpl;
          by replace (Start r + - Start n) with (Start r - Start n) by lia.
    + destruct (Z.ltb_spec (End_ n) (End_ r)) as [Hr|Hr].
      * replace (Z.max 0 (Start r - End_ n)) with 0 in H3 by lia.
        assert (Ht : Offset (TruncateStart r (End_ n)) (- End_ n)
          = mkRange 0 (End_ r - End_ n) (Value r)).
        { range_simpl. destruct (Z.ltb_spec (Start r) (Start n + Length n)); [|lia]. simpl. f_equal; lia. }
        rewrite Ht, IHs; [|range_simpl; lia|done]. f_equal.
        replace (contains (mkRange 0 (End_ r - End_ n) (Value r)) (i - End_ n)) with (contains r i)
          by (range_simpl; lia). done.
      * assert (contains r i = false) as -> by (range_simpl; lia). by rewrite app_nil_r.
Qed.

Lemma Add_fits t : forall r len, range_in len r -> below t (Start r) -> fits t len -> fits (Add t r) len.
Proof.
  unfold range_in. induction t as [|n s IHs c IHc]; intros r len (Hs & Hl & He); [simpl; lia|].
  simpl. intros (H1 & H2 & H3) (F1 & F2 & F3 & F4 & F5).
  destruct (Z.leb_spec (End_ n) (Start r)) as [Hn|Hn]; simpl.
  - split_and!; [done..|]. apply IHs; [range_simpl; lia| |done].
    range_simpl. by replace (Z.max 0 (Start r - (Start n + Length n)))
      with (Start r + - (Start n + Length n)) in H3 by lia.
  - split_and!; [done..| |].
    + apply IHc; [range_simpl; destruct (Z.ltb_spec (Start n + Length n) (Start r + Length r)); simpl; lia| |done].
      range_simpl. specialize (H2 Hn). destruct (Z.ltb_spec (Start n + Length n) (Start r + Length r)); simpl;
        by replace (Start r + - Start n) with (Start r - Start n) by lia.
    + destruct (Z.ltb_spec (End_ n) (End_ r)); [|done].
      replace (Z.max 0 (Start r - End_ n)) with 0 in H3 by lia.
      apply IHs; [| |done]; range_simpl;
        destruct (Z.ltb_spec (Start r) (Start n + Length n)); simpl; try lia.
      by replace (Start n + Length n + - (Start n + Length n)) with 0 by lia.
Qed.

(** Insertion of a sorted list, from any tree the list is sorted after. *)
Lemma AddAll_from rs : forall t p len, starts_sorted p rs -> Forall (range_in len) rs ->
  below t p -> fits t len ->
  fits (fold_left Add rs t) len /\
  forall i, stack_at (fold_left Add rs t) i = stack_at t i ++ covering rs i.
Proof.
  induction rs as [|r rs IH]; intros t p len Hs Hin Hb Hf.
  { simpl. split; [done|]. intros i. by rewrite app_nil_r. }
  destruct Hs as [Hp Hs]. apply Forall_cons in Hin as [Hr Hin].
  pose proof Hr as (_ & Hl & _). pose proof (below_mono t p (Start r) Hp Hb) as Hb'.
  destruct (IH (Add t r) (Start r) len Hs Hin) as [H1 H2];
    [by apply Add_below|by apply Add_fits|].
  cbn [fold_left]. split; [done|]. intros i. rewrite H2, Add_stack by done. rewrite <- app_assoc.
  f_equal. unfold covering. rewrite filter_cons.
  case_decide as E; [by rewrite E|]. by destruct (contains r i).
Qed.

Lemma AddAll_spec rs len : starts_sorted 0 rs -> Forall (range_in len) rs ->
  fits (AddAll rs) len /\ forall i, stack_at (AddAll rs) i = covering rs i.
Proof. intros Hs Hin. by apply (AddAll_from rs Leaf 0 len). Qed.

(** ** Properties *)

(** Functional correctness of [LinkedRangeTree.Add]: after adding ranges
    sorted by start that lie inside a text of length [len], the values on
    the path to a position of the tree are exactly the values of the ranges
    that contain it, in the order they were added, and every node of the
    tree lies inside the text it is applied to. *)
Theorem range_tree_correct rs len (Hs : starts_sorted 0 rs) (Hin : Forall (range_in len) rs) :
  fits (AddAll rs) len /\ forall i, stack_at (AddAll rs) i = covering rs i.
Proof. by apply AddAll_spec. Qed.

Definition sample_ranges : list BodyRange :=
  [mkRange 0 5 (Some (Style StyleBold)); mkRange 3 6 (Some (Style StyleItalic));
   mkRange 4 5 (Some (Style StyleStrikethrough)); mkRange 7 5 (Some (Style StyleMonospace))].

Lemma range_tree_correct_witness :
  stack_at (AddAll sample_ranges) 4 =
  [Some (Style StyleBold); Some (Style StyleItalic); Some (Style StyleStrikethrough)].
Proof.
  apply (range_tree_correct sample_ranges 13).
  - simpl. lia.
  - unfold sample_ranges, range_in, End_.
    do 4 (apply Forall_cons_2; [simpl; lia|]). apply Forall_nil_2.
Defined.
