(* ===== verification/SignalFmt.v ===== *)
(** Signal formatting to Matrix HTML: [pkg/msgconv/signalfmt/html.go] and
    [convert.go].

    Code that is not part of the repository is a parameter ([FmtEnv]):
    mautrix-go's [event.TextToHTML] and [UserID.URI().MatrixToURL()], and the
    sort of [slices.SortFunc], which is only promised to sort ([FmtLaws]). *)
From Stdlib Require Import Sorting.Sorted Sorting.Permutation.
From stdpp Require Import sorting.
From S2P Require Import Prelude GoLib ServiceId RangeTree.

(** ** HTML of one value ([html.go]) *)

(** The five replacements of [html.EscapeString]. *)
Definition escape_byte (b : byte) : bytes :=
  if bool_decide (b = x26) then str "&amp;"
  else if bool_decide (b = x27) then str "&#39;"
  else if bool_decide (b = x3c) then str "&lt;"
  else if bool_decide (b = x3e) then str "&gt;"
  else if bool_decide (b = x22) then str "&#34;"
  else [b].
Definition EscapeString (s : bytes) : bytes := concat (map escape_byte s).

(** A [signalpb.BodyRange] whose start and length are present. *)
Record PRange := mkPRange { pr_Start : Z; pr_Length : Z; pr_Value : AssociatedValue }.

Class FmtEnv : Type := {
  event_TextToHTML : bytes -> bytes;
  MatrixToURL : bytes -> bytes;
  sort_func : (PRange -> PRange -> Z) -> list PRange -> list PRange
}.

(** The comparison passed to [slices.SortFunc]. *)
Definition cmp_ranges (a b : PRange) : Z :=
  if pr_Start a =? pr_Start b then
    if pr_Length a =? pr_Length b then 0
    else if pr_Length a <? pr_Length b then 1 else -1
  else if pr_Start a <? pr_Start b then -1 else 1.

(** [slices.SortFunc] permutes its argument into ascending order; it is not
    promised to be stable. *)
Class FmtLaws (E : FmtEnv) : Prop := {
  sort_permutation l : Permutation (sort_func cmp_ranges l) l;
  sort_sorted l : Sorted (fun a b => cmp_ranges a b <= 0) (sort_func cmp_ranges l)
}.

Abbreviation UTF16String := (list Z).
Definition NewUTF16String (s : bytes) : UTF16String := Unicode.utf16_encode (Unicode.runes s).
Definition UTF16_String (u : UTF16String) : bytes := Unicode.string_of_runes (Unicode.utf16_decode u).

(** The object replacement character U+FFFC in UTF-8. *)
Definition object_replacement : bytes := [xef; xbf; xbc].

Section Format.
Context `{E : FmtEnv}.

Definition Mention_Format (info : UserInfo) (message : bytes) : bytes :=
  str "<a href=" ++ [x22] ++ MatrixToURL (ui_MXID info) ++ [x22] ++ str ">" ++
  Strings.replace1 object_replacement (ui_Name info) message ++ str "</a>".

Definition Style_Format (s : Z) (message : bytes) : bytes :=
  if s =? StyleBold then str "<strong>" ++ message ++ str "</strong>"
  else if s =? StyleItalic then str "<em>" ++ message ++ str "</em>"
  else if s =? StyleSpoiler then str "<span data-mx-spoiler>" ++ message ++ str "</span>"
  else if s =? StyleStrikethrough then str "<del>" ++ message ++ str "</del>"
  else if s =? StyleMonospace then
    if Strings.contains_byte x0a message
    then str "<pre><code>" ++ message ++ str "</code></pre>"
    else str "<code>" ++ message ++ str "</code>"
  else message.

Definition Value_Format (v : BodyRangeValue) (message : bytes) : bytes :=
  match v with
  | Mention info _ => Mention_Format info message
  | Style s => Style_Format s message
  end.

(** [formatContext.TextToHTML]. *)
Definition TextToHTML (isInCodeblock : bool) (text : bytes) : bytes :=
  if isInCodeblock then EscapeString text else event_TextToHTML text.

Definition is_monospace (v : option BodyRangeValue) : bool :=
  bool_decide (v = Some (Style StyleMonospace)).

(** [LinkedRangeTree.Format].  Slicing outside the text is a panic, and so is
    the method call on a nil value. *)
Fixpoint lrt_Format (lrt : LinkedRangeTree) (message : UTF16String) (code : bool)
  : outcome Empty_set bytes :=
  match lrt with
  | Leaf => Ok (TextToHTML code (UTF16_String message))
  | Tree node sibling child =>
      if (0 <=? Start node) && (Start node <=? End_ node) && (End_ node <=? Z.of_nat (length message)) then
        let headStr := TextToHTML code (UTF16_String (take (Z.to_nat (Start node)) message)) in
        let inner := take (Z.to_nat (Length node)) (drop (Z.to_nat (Start node)) message) in
        let tail := drop (Z.to_nat (End_ node)) message in
        let ourCtx := if is_monospace (Value node) then true else code in
        let! childMessage := lrt_Format child inner ourCtx in
        let! formattedChildMessage :=
          match Value node with Some v => Ok (Value_Format v childMessage) | None => Panic end in
        let! siblingMessage := lrt_Format sibling tail code in
        Ok (headStr ++ formattedChildMessage ++ siblingMessage)
      else Panic
  end.

End Format.

(** ** Conversion of a message ([convert.go]) *)

Record MessageContent := mkContent {
  mc_Body : bytes;
  mc_FormattedBody : bytes;
  mc_IsHTML : bool;
  mc_Mentions : gset bytes
}.

Record parse_state := mkParseState {
  ps_lrt : LinkedRangeTree;
  ps_mentions : gset bytes;
  ps_body : bytes
}.

Section Parse.
Context `{E : FmtEnv} `{U : UUIDLib}.
Variable GetUserInfo : UUID -> UserInfo.

(** The switch over the associated value: the value of the range and the
    mentioned user, or [None] when the loop continues with the next range. *)
Definition range_value (v : AssociatedValue) : option (option BodyRangeValue * UUID) :=
  match v with
  | BodyRange_Style s => Some (Some (Style s), uuid_Nil)
  | BodyRange_MentionAci s => (fun u => (None, u)) <$> uuid_parse s
  | BodyRange_MentionAciBinary b => (fun u => (None, u)) <$> to_fixed 16 b
  | BodyRange_None => None
  end.

(** One round of the loop over the ranges. *)
Definition parse_range (maxLength : Z) (st : parse_state) (r : PRange) : parse_state :=
  let br := TruncateEnd (mkRange (pr_Start r) (pr_Length r) None) maxLength in
  if maxLength <=? Start br then st
  else
    match range_value (pr_Value r) with
    | None => st
    | Some (value, mentionACI) =>
        if negb (bool_decide (mentionACI = uuid_Nil)) then
          let userInfo := GetUserInfo mentionACI in
          if beqb (ui_MXID userInfo) [] then st
          else
            mkParseState
              (Add (ps_lrt st) (mkRange (Start br) (Length br) (Some (Mention userInfo mentionACI))))
              ({[ui_MXID userInfo]} ∪ ps_mentions st)
              (Strings.replace1 object_replacement (ui_Name userInfo) (ps_body st))
        else mkParseState (Add (ps_lrt st) (mkRange (Start br) (Length br) value))
               (ps_mentions st) (ps_body st)
    end.

(** Dereferencing the optional fields: every range is dereferenced by the
    sort or by the loop, so one missing field panics. *)
Definition deref (r : ProtoRange) : outcome Empty_set PRange :=
  match p_Start r, p_Length r with
  | Some s, Some l => Ok (mkPRange s l (p_Value r))
  | _, _ => Panic
  end.

Definition Parse (message : bytes) (ranges : list ProtoRange) : outcome Empty_set MessageContent :=
  match ranges with
  | [] => Ok (mkContent message [] false ∅)
  | _ =>
      let! rs := omapM deref ranges in
      let utf16Message := NewUTF16String message in
      let maxLength := Z.of_nat (length utf16Message) in
      let st := fold_left (parse_range maxLength) (sort_func cmp_ranges rs)
                  (mkParseState Leaf ∅ message) in
      let! html := lrt_Format (ps_lrt st) utf16Message false in
      Ok (mkContent (ps_body st) html true (ps_mentions st))
  end.

End Parse.

(** ** Specification of the generated HTML

    A document is text and formatted parts in sequence; [print] writes it
    and [flat] lists its code units with the values around each of them,
    outermost first, and whether it is escaped as code. *)
Inductive doc :=
| DNil
| DText (code : bool) (us : UTF16String) (rest : doc)
| DWrap (v : BodyRangeValue) (inner rest : doc).

Fixpoint print `{FmtEnv} (d : doc) : bytes :=
  match d with
  | DNil => []
  | DText code us rest => TextToHTML code (UTF16_String us) ++ print rest
  | DWrap v inner rest => Value_Format v (print inner) ++ print rest
  end.

Fixpoint flat (stack : list BodyRangeValue) (d : doc) : list (Z * (list BodyRangeValue * bool)) :=
  match d with
  | DNil => []
  | DText code us rest => map (fun u => (u, (stack, code))) us ++ flat stack rest
  | DWrap v inner rest => flat (stack ++ [v]) inner ++ flat stack rest
  end.

(** Code units paired with a function of their position. *)
Fixpoint annot {X : Type} (f : Z -> X) (i : Z) (us : UTF16String) : list (Z * X) :=
  match us with
  | [] => []
  | u :: us' => (u, f i) :: annot f (i + 1) us'
  end.

Definition values (l : list (option BodyRangeValue)) : list BodyRangeValue := omap id l.

(** What a position covered by the values [l] looks like. *)
Definition look (l : list (option BodyRangeValue)) : list BodyRangeValue * bool :=
  (values l, existsb is_monospace l).

(** The range a proto range stands for, when it is not skipped. *)
Definition effective `{UUIDLib} (GetUserInfo : UUID -> UserInfo) (maxLength : Z) (r : PRange) : option BodyRange :=
  if maxLength <=? pr_Start r then None
  else
    let len := Z.min (pr_Length r) (maxLength - pr_Start r) in
    match range_value (pr_Value r) with
    | None => None
    | Some (Some v, _) => Some (mkRange (pr_Start r) len (Some v))
    | Some (None, u) =>
        let info := GetUserInfo u in
        if beqb (ui_MXID info) [] then None else Some (mkRange (pr_Start r) len (Some (Mention info u)))
    end.

(** A mention of the nil UUID: it parses, but the code takes it for "no mention". *)
Definition nil_mention `{UUIDLib} (r : PRange) : Prop := range_value (pr_Value r) = Some (None, uuid_Nil).

(** ** Lemmas on annotations *)

Lemma annot_app {X} (f : Z -> X) us1 us2 : forall i,
  annot f i (us1 ++ us2) = annot f i us1 ++ annot f (i + Z.of_nat (length us1)) us2.
Proof.
  induction us1 as [|u us1 IH]; intros i; cbn [annot app length].
  - by rewrite Z.add_0_r.
  - rewrite IH. by replace (i + Z.of_nat (S (length us1))) with (i + 1 + Z.of_nat (length us1)) by lia.
Qed.

Lemma annot_ext {X} (f g : Z -> X) us : forall i,
  (forall j, i <= j < i + Z.of_nat (length us) -> f j = g j) -> annot f i us = annot g i us.
Proof.
  induction us as [|u us IH]; intros i H; simpl; [done|]. f_equal.
  - f_equal. apply H. simpl. lia.
  - apply IH. intros j Hj. apply H. simpl. lia.
Qed.

Lemma annot_shift {X} (f : Z -> X) k us : forall i,
  annot f (i + k) us = annot (fun j => f (j + k)) i us.
Proof.
  induction us as [|u us IH]; intros i; simpl; [done|]. f_equal.
  rewrite <- IH. f_equal. lia.
Qed.

Lemma annot_const {X} (x : X) us : forall i, annot (fun _ => x) i us = map (fun u => (u, x)) us.
Proof. induction us as [|u us IH]; intros i; simpl; [done|]. by rewrite IH. Qed.

(** ** The tree is printed as specified *)

Fixpoint valued (t : LinkedRangeTree) : Prop :=
  match t with
  | Leaf => True
  | Tree n sibling child => is_Some (Value n) /\ valued sibling /\ valued child
  end.

Lemma Add_valued t : forall r, is_Some (Value r) -> valued t -> valued (Add t r).
Proof.
  assert (Hv : forall r o, Value (Offset r o) = Value r) by done.
  assert (Hs : forall r o, Value (TruncateStart r o) = Value r)
    by (intros r o; unfold TruncateStart; by destruct (_ <? _)).
  assert (He : forall r o, Value (TruncateEnd r o) = Value r)
    by (intros r o; unfold TruncateEnd; by destruct (_ <? _)).
  induction t as [|n s IHs c IHc]; intros r Hr; simpl; [done|]. intros (H1 & H2 & H3).
  destruct (_ <=? _); simpl.
  - split_and!; auto.
  - split_and!; auto; [destruct (_ <? _); auto; apply IHs; by rewrite ?Hv, ?Hs
                      |apply IHc; by rewrite ?Hv, ?He].
Qed.

Lemma AddAll_valued rs : forall t, Forall (fun r => is_Some (Value r)) rs -> valued t ->
  valued (fold_left Add rs t).
Proof.
  induction rs as [|r rs IH]; intros t Hrs Ht; simpl; [done|].
  apply Forall_cons in Hrs as [Hr Hrs]. apply IH; [done|]. by apply Add_valued.
Qed.

(** The text of a node, cut as [Format] cuts it. *)
Fixpoint build (t : LinkedRangeTree) (us : UTF16String) (code : bool) : doc :=
  match t with
  | Leaf => DText code us DNil
  | Tree n sibling child =>
      DText code (take (Z.to_nat (Start n)) us)
        (match Value n with
         | Some v =>
             DWrap v (build child (take (Z.to_nat (Length n)) (drop (Z.to_nat (Start n)) us))
                        (if is_monospace (Value n) then true else code))
               (build sibling (drop (Z.to_nat (End_ n)) us) code)
         | None => DNil
         end)
  end.

Lemma fits_bounds n s c (us : UTF16String) : fits (Tree n s c) (Z.of_nat (length us)) ->
  (0 <=? Start n) && (Start n <=? End_ n) && (End_ n <=? Z.of_nat (length us)) = true.
Proof. simpl. unfold End_. intros (H1 & H2 & H3 & _). lia. Qed.

Lemma Format_build `{FmtEnv} t : forall us code, fits t (Z.of_nat (length us)) -> valued t ->
  lrt_Format t us code = Ok (print (build t us code)).
Proof.
  induction t as [|n s IHs c IHc]; intros us code Hf Hv.
  { simpl. by rewrite app_nil_r. }
  cbn [lrt_Format]. rewrite (fits_bounds n s c us Hf).
  destruct Hf as (F1 & F2 & F3 & F4 & F5), Hv as ([v Ev] & V1 & V2).
  unfold End_ in *. rewrite IHc; [|rewrite length_take, length_drop|done].
  2: { by replace (Z.of_nat (Z.to_nat (Length n) `min` (length us - Z.to_nat (Start n))))
         with (Length n) by lia. }
  cbn [obind]. rewrite Ev. cbn [obind].
  rewrite IHs; [|rewrite length_drop|done].
  2: { by replace (Z.of_nat (length us - Z.to_nat (Start n + Length n)))
         with (Z.of_nat (length us) - (Start n + Length n)) by lia. }
  cbn [obind build print]. rewrite Ev. by cbn [print].
Qed.

Lemma flat_build t : forall us code st, fits t (Z.of_nat (length us)) -> valued t ->
  flat st (build t us code) =
  annot (fun i => (st ++ values (stack_at t i), code || existsb is_monospace (stack_at t i))) 0 us.
Proof.
  induction t as [|n s IHs c IHc]; intros us code st Hf Hv.
  { simpl. rewrite app_nil_r. rewrite <- (annot_const _ us 0). apply annot_ext. intros j _.
    by rewrite app_nil_r, orb_false_r. }
  destruct Hf as (F1 & F2 & F3 & F4 & F5), Hv as ([v Ev] & V1 & V2). unfold End_ in *.
  pose proof (cut3 us (Z.to_nat (Start n)) (Z.to_nat (Start n + Length n)) ltac:(lia)) as Hcut.
  replace (Z.to_nat (Start n + Length n) - Z.to_nat (Start n))%nat with (Z.to_nat (Length n)) in Hcut by lia.
  cbn [build flat]. rewrite Ev. cbn [flat].
  set (hd := take (Z.to_nat (Start n)) us) in *.
  set (inn := take (Z.to_nat (Length n)) (drop (Z.to_nat (Start n)) us)) in *.
  set (tl := drop (Z.to_nat (End_ n)) us). unfold End_ in tl.
  change (drop (Z.to_nat (Start n + Length n)) us) with tl in Hcut.
  assert (Hhd : Z.of_nat (length hd) = Start n) by (unfold hd; rewrite length_take; lia).
  assert (Hin : Z.of_nat (length inn) = Length n)
    by (unfold inn; rewrite length_take, length_drop; lia).
  assert (Htl : Z.of_nat (length tl) = Z.of_nat (length us) - (Start n + Length n))
    by (unfold tl; rewrite length_drop; lia).
  rewrite IHc by (rewrite ?Hin; done). rewrite IHs by (rewrite ?Htl; done).
  rewrite Hcut, !annot_app, Hhd, Hin, Z.add_0_l. apply (f_equal2 app); [|apply (f_equal2 app)].
  - rewrite <- (annot_const _ hd 0). apply annot_ext. intros j Hj. cbn [stack_at].
    replace (j <? Start n) with true by lia. simpl. by rewrite app_nil_r, orb_false_r.
  - rewrite <- (Z.add_0_l (Start n)). rewrite annot_shift. apply annot_ext. intros j Hj.
    cbn [stack_at]. unfold End_.
    replace (j + Start n <? Start n) with false by lia.
    replace (j + Start n <? Start n + Length n) with true by lia.
    replace (j + Start n - Start n) with j by lia. unfold values. rewrite Ev. cbn [omap list_omap id existsb].
    rewrite <- app_assoc. f_equal. destruct (is_monospace (Some v)), code; done.
  - rewrite <- (Z.add_0_l (Start n + Length n)). rewrite annot_shift. apply annot_ext. intros j Hj.
    cbn [stack_at]. unfold End_.
    replace (j + (Start n + Length n) <? Start n) with false by lia.
    replace (j + (Start n + Length n) <? Start n + Length n) with false by lia.
    by replace (j + (Start n + Length n) - (Start n + Length n)) with j by lia.
Qed.

(** ** The loop over the ranges *)
Section ParseLemmas.
Context `{E : FmtEnv} `{U : UUIDLib}.
Variable GetUserInfo : UUID -> UserInfo.

Lemma parse_range_lrt maxLength st r : 0 <= pr_Length r -> ~ nil_mention r ->
  ps_lrt (parse_range GetUserInfo maxLength st r) =
  match effective GetUserInfo maxLength r with Some br => Add (ps_lrt st) br | None => ps_lrt st end.
Proof.
  intros Hl Hn. unfold parse_range, effective.
  assert (Hbr : TruncateEnd (mkRange (pr_Start r) (pr_Length r) None) maxLength =
    mkRange (pr_Start r) (Z.min (pr_Length r) (maxLength - pr_Start r)) None).
  { unfold TruncateEnd, End_. simpl. destruct (Z.ltb_spec maxLength (pr_Start r + pr_Length r)); f_equal; lia. }
  rewrite Hbr. cbn [Start Length]. destruct (_ <=? _); [done|].
  unfold nil_mention in Hn. destruct (pr_Value r) as [s|s|b|]; simpl in *; [done|..|done].
  - destruct (uuid_parse s) as [u|]; simpl in *; [|done].
    destruct (bool_decide (u = uuid_Nil)) eqn:Eu.
    + apply bool_decide_eq_true in Eu as ->. done.
    + simpl. by destruct (beqb _ _).
  - destruct (to_fixed 16 b) as [u|]; simpl in *; [|done].
    destruct (bool_decide (u = uuid_Nil)) eqn:Eu.
    + apply bool_decide_eq_true in Eu as ->. done.
    + simpl. by destruct (beqb _ _).
Qed.

Lemma parse_ranges_lrt maxLength rs : forall st,
  Forall (fun r => 0 <= pr_Length r /\ ~ nil_mention r) rs ->
  ps_lrt (fold_left (parse_range GetUserInfo maxLength) rs st) =
  fold_left Add (omap (effective GetUserInfo maxLength) rs) (ps_lrt st).
Proof.
  induction rs as [|r rs IH]; intros st Hrs; [done|]. apply Forall_cons in Hrs as [[Hl Hn] Hrs].
  cbn [fold_left omap list_omap]. rewrite IH, parse_range_lrt by done.
  by destruct (effective _ _ _).
Qed.

Lemma effective_start maxLength r br : effective GetUserInfo maxLength r = Some br ->
  Start br = pr_Start r /\ is_Some (Value br) /\
  (0 <= pr_Start r -> 0 <= pr_Length r -> range_in maxLength br).
Proof.
  unfold effective. destruct (Z.leb_spec maxLength (pr_Start r)); [done|].
  intros Hbr. assert (H1 : exists v, br = mkRange (pr_Start r) (Z.min (pr_Length r) (maxLength - pr_Start r)) (Some v)).
  { split_matches_in Hbr; injection Hbr as <-; eauto. }
  destruct H1 as [v ->]. simpl. split_and!; [done|eauto|].
  intros. unfold range_in, End_. simpl. lia.
Qed.

Lemma cmp_start a b : cmp_ranges a b <= 0 -> pr_Start a <= pr_Start b.
Proof.
  unfold cmp_ranges. destruct (Z.eqb_spec (pr_Start a) (pr_Start b)); [lia|].
  destruct (Z.ltb_spec (pr_Start a) (pr_Start b)); lia.
Qed.

Lemma effective_sorted maxLength rs : forall p,
  Sorted (fun a b => cmp_ranges a b <= 0) rs ->
  (forall r, head rs = Some r -> p <= pr_Start r) ->
  starts_sorted p (omap (effective GetUserInfo maxLength) rs).
Proof.
  induction rs as [|r rs IH]; intros p Hs Hp; [done|].
  apply Sorted_inv in Hs as [Hs Hhd].
  assert (Hnext : forall r', head rs = Some r' -> pr_Start r <= pr_Start r').
  { destruct rs as [|r2 rs]; intros r' Hr'; [done|]. injection Hr' as <-.
    apply HdRel_inv in Hhd. by apply cmp_start. }
  specialize (Hp r eq_refl). cbn [omap list_omap].
  destruct (effective GetUserInfo maxLength r) as [br|] eqn:Ebr.
  - apply effective_start in Ebr as (Hst & _ & _). simpl. rewrite Hst. split; [done|]. by apply IH.
  - apply IH; [done|]. intros r' Hr'. specialize (Hnext r' Hr'). lia.
Qed.

Lemma omapM_deref_length ranges : forall rs, omapM deref ranges = Ok rs -> length rs = length ranges.
Proof.
  induction ranges as [|r l IH]; intros rs H; simpl in H; inv_ok; [done|]. simpl. f_equal. by apply IH.
Qed.

(** Ranges as they come off the wire: present and [uint32]. *)
Definition wire_ranges (ranges : list ProtoRange) (rs : list PRange) : Prop :=
  omapM deref ranges = Ok rs /\
  Forall (fun r => in_width 32 (pr_Start r) /\ in_width 32 (pr_Length r)) rs.

Context `{L : !FmtLaws E}.

Lemma sorted_ranges_ok (Q : PRange -> Prop) rs : Forall Q rs -> Forall Q (sort_func cmp_ranges rs).
Proof. intros H. by rewrite sort_permutation. Qed.

Lemma Parse_spec message ranges rs : wire_ranges ranges rs -> ranges <> [] ->
  Forall (fun r => ~ nil_mention r) rs ->
  let units := NewUTF16String message in
  let brs := omap (effective GetUserInfo (Z.of_nat (length units))) (sort_func cmp_ranges rs) in
  exists content d,
    Parse GetUserInfo message ranges = Ok content /\ mc_IsHTML content = true /\
    mc_FormattedBody content = print d /\
    flat [] d = annot (fun i => look (covering brs i)) 0 units.
Proof.
  intros [Hd Hw] Hne Hn units brs.
  set (srt := sort_func cmp_ranges rs) in *.
  assert (Hall : Forall (fun r => 0 <= pr_Start r /\ 0 <= pr_Length r /\ ~ nil_mention r) srt).
  { apply sorted_ranges_ok. rewrite Forall_forall in Hw, Hn |- *. intros r Hr.
    specialize (Hw r Hr). specialize (Hn r Hr). unfold in_width in Hw. split_and!; try lia. done. }
  assert (Hsorted : starts_sorted 0 brs).
  { apply effective_sorted; [apply sort_sorted|]. intros r Hr.
    rewrite Forall_forall in Hall. apply (Hall r). by apply list.head_Some_elem_of in Hr. }
  assert (Hin : Forall (range_in (Z.of_nat (length units))) brs /\ Forall (fun r => is_Some (Value r)) brs).
  { rewrite Forall_forall in Hall. split; apply Forall_forall; intros br Hbr;
      apply list_elem_of_omap in Hbr as (r & Hr & Ebr); specialize (Hall r Hr);
      apply effective_start in Ebr as (_ & Hv & Hri); [apply Hri; lia|done]. }
  destruct Hin as [Hin Hval].
  destruct (AddAll_spec brs _ Hsorted Hin) as [Hfits Hstack].
  pose proof (AddAll_valued brs Leaf Hval I) as Hvald. fold (AddAll brs) in Hvald.
  set (st := fold_left (parse_range GetUserInfo (Z.of_nat (length units))) srt (mkParseState Leaf ∅ message)).
  assert (Hlrt : ps_lrt st = AddAll brs).
  { unfold st. rewrite parse_ranges_lrt; [done|]. eapply Forall_impl; [exact Hall|]. simpl. tauto. }
  exists (mkContent (ps_body st) (print (build (AddAll brs) units false)) true (ps_mentions st)),
    (build (AddAll brs) units false).
  split_and!; [|done|done|].
  - unfold Parse. destruct ranges as [|r0 ranges]; [done|]. rewrite Hd. cbn [obind].
    fold units. fold srt. fold st. rewrite Hlrt. by rewrite Format_build.
  - rewrite flat_build by done. apply annot_ext. intros j _. by rewrite Hstack.
Qed.

End ParseLemmas.

(** The Matrix users mentioned by a list of ranges. *)
Definition mentioned (brs : list BodyRange) : gset bytes :=
  list_to_set (omap (fun br => match Value br with Some (Mention info _) => Some (ui_MXID info) | _ => None end) brs).

Lemma mentioned_app l1 l2 : mentioned (l1 ++ l2) = mentioned l1 ∪ mentioned l2.
Proof. unfold mentioned. by rewrite omap_app, list_to_set_app_L. Qed.

Section MoreLemmas.
Context `{E : FmtEnv} `{U : UUIDLib}.
Variable GetUserInfo : UUID -> UserInfo.

Lemma parse_range_mentions maxLength st r : ~ nil_mention r ->
  ps_mentions (parse_range GetUserInfo maxLength st r) =
  mentioned (option_list (effective GetUserInfo maxLength r)) ∪ ps_mentions st.
Proof.
  intros Hn. unfold parse_range, effective.
  assert (HS : Start (TruncateEnd (mkRange (pr_Start r) (pr_Length r) None) maxLength) = pr_Start r)
    by (unfold TruncateEnd; by destruct (_ <? _)).
  rewrite HS. destruct (_ <=? _); [set_solver|].
  unfold nil_mention in Hn. destruct (pr_Value r) as [s|s|b|]; simpl in *; [set_solver| | |set_solver].
  - destruct (uuid_parse s) as [u|]; simpl in *; [|set_solver].
    rewrite bool_decide_false by congruence. simpl.
    destruct (beqb _ _); unfold mentioned; simpl; set_solver.
  - destruct (to_fixed 16 b) as [u|]; simpl in *; [|set_solver].
    rewrite bool_decide_false by congruence. simpl.
    destruct (beqb _ _); unfold mentioned; simpl; set_solver.
Qed.

Lemma parse_ranges_mentions maxLength rs : forall st, Forall (fun r => ~ nil_mention r) rs ->
  ps_mentions (fold_left (parse_range GetUserInfo maxLength) rs st) =
  mentioned (omap (effective GetUserInfo maxLength) rs) ∪ ps_mentions st.
Proof.
  induction rs as [|r rs IH]; intros st Hrs; [set_solver|]. apply Forall_cons in Hrs as [Hn Hrs].
  cbn [fold_left omap list_omap]. rewrite IH, parse_range_mentions by done.
  rewrite (assoc_L (∪)), (comm_L (∪) (mentioned (omap _ rs))), <- mentioned_app.
  by destruct (effective _ _ r).
Qed.

Lemma units_string message : Unicode.valid_utf8 message -> UTF16_String (NewUTF16String message) = message.
Proof.
  intros Hv. unfold UTF16_String, NewUTF16String.
  rewrite Unicode.utf16_roundtrip by by apply Unicode.runes_scalar.
  by apply Unicode.string_of_runes_runes.
Qed.

Lemma deref_missing ranges r : r ∈ ranges -> p_Start r = None \/ p_Length r = None ->
  omapM deref ranges = Panic.
Proof.
  intros Hin Hnone. induction ranges as [|r' l IH]; [set_solver|]. simpl.
  apply elem_of_cons in Hin as [->|Hin].
  - unfold deref. destruct Hnone as [-> | ->]; [done|]. by destruct (p_Start r').
  - destruct (deref r') as [a|[]|]; simpl; [|done]. by rewrite IH.
Qed.

End MoreLemmas.

Section ParseClaims.
Context `{E : FmtEnv} `{U : UUIDLib} `{L : !FmtLaws E}.
Variable GetUserInfo : UUID -> UserInfo.

(** C39: correctness of the conversion of Signal formatting.  For ranges as
    they come off the wire, in any order, with no mention of the nil UUID,
    [Parse] returns without a panic; the formatted body is a document whose
    text is the message, code unit by code unit, in which every code unit is
    wrapped by exactly the values of the accepted ranges that contain it,
    in sorted order, and is escaped as code exactly when one of them is
    monospace. *)
Theorem Parse_correct message ranges rs (Hw : wire_ranges ranges rs) (Hne : ranges <> [])
  (Hn : Forall (fun r => ~ nil_mention r) rs) :
  let units := NewUTF16String message in
  let brs := omap (effective GetUserInfo (Z.of_nat (length units))) (sort_func cmp_ranges rs) in
  exists content d,
    Parse GetUserInfo message ranges = Ok content /\ mc_IsHTML content = true /\
    mc_FormattedBody content = print d /\
    flat [] d = annot (fun i => look (covering brs i)) 0 units.
Proof. by apply Parse_spec. Qed.

(** The users listed in the Matrix mentions are exactly the Matrix IDs
    of the accepted mention ranges. *)
Theorem Parse_mentions_correct message ranges rs content (Hw : wire_ranges ranges rs)
  (Hn : Forall (fun r => ~ nil_mention r) rs) (Hp : Parse GetUserInfo message ranges = Ok content) :
  mc_Mentions content =
  mentioned (omap (effective GetUserInfo (Z.of_nat (length (NewUTF16String message)))) (sort_func cmp_ranges rs)).
Proof.
  destruct Hw as [Hd _]. unfold Parse in Hp. destruct ranges as [|r0 ranges].
  { injection Hp as <-. simpl in Hd. injection Hd as <-.
    assert (sort_func cmp_ranges [] = []) as -> by (apply Permutation_nil; symmetry; apply sort_permutation).
    done. }
  rewrite Hd in Hp. cbn [obind] in Hp. inv_ok. simpl.
  rewrite parse_ranges_mentions by by apply sorted_ranges_ok. set_solver.
Qed.

(** The panics of [Parse]: a range without start or length panics, and
    so does a lone mention of the nil UUID inside the text, since the loop
    adds a range without a value for it. *)
Theorem Parse_panics message ranges s l (Hs : 0 <= s < Z.of_nat (length (NewUTF16String message))) (Hl : 0 <= l) :
  (forall r, r ∈ ranges -> p_Start r = None \/ p_Length r = None -> Parse GetUserInfo message ranges = Panic) /\
  Parse GetUserInfo message [mkProto (Some s) (Some l) (BodyRange_MentionAciBinary (repeat x00 16))] = Panic.
Proof.
  split.
  - intros r Hin Hnone. unfold Parse. rewrite (deref_missing _ r) by done. by destruct ranges; [set_solver|].
  - unfold Parse. cbn [omapM deref p_Start p_Length p_Value obind].
    set (r := mkPRange s l (BodyRange_MentionAciBinary (repeat x00 16))).
    assert (sort_func cmp_ranges [r] = [r]) as ->.
    { apply Permutation_length_1_inv. symmetry. apply sort_permutation. }
    cbn [fold_left]. set (st := parse_range _ _ _ _).
    assert (Hst : exists len, ps_lrt st = Tree (mkRange s len None) Leaf Leaf /\ 0 <= len /\
                    s + len <= Z.of_nat (length (NewUTF16String message))).
    { unfold st, parse_range, TruncateEnd, End_. cbn [pr_Start pr_Length pr_Value r Start Length].
      destruct (Z.ltb_spec (Z.of_nat (length (NewUTF16String message))) (s + l)); cbn [Start Length];
        replace (Z.of_nat (length (NewUTF16String message)) <=? s) with false by lia;
        cbn [range_value]; change (to_fixed 16 (repeat x00 16)) with (Some uuid_Nil); cbn; eexists;
        (split; [reflexivity|lia]). }
    destruct Hst as (len & -> & Hlen & Hle). cbn [lrt_Format Start Length Value]. unfold End_. cbn [Start Length].
    replace ((0 <=? s) && (s <=? s + len) && (s + len <=? Z.of_nat (length (NewUTF16String message)))) with true by lia.
    done.
Qed.

(** text without styling keeps its content: with no ranges the body is
    passed through as plain text, and when every range lies outside a valid
    UTF-8 message the formatted body is the HTML of the message itself. *)
Theorem Parse_plain message ranges rs (Hv : Unicode.valid_utf8 message) (Hw : wire_ranges ranges rs)
  (Hout : Forall (fun r => Z.of_nat (length (NewUTF16String message)) <= pr_Start r) rs) :
  Parse GetUserInfo message ranges =
  Ok (match ranges with
      | [] => mkContent message [] false ∅
      | _ => mkContent message (event_TextToHTML message) true ∅
      end).
Proof.
  destruct Hw as [Hd _]. unfold Parse. destruct ranges as [|r0 ranges]; [done|]. rewrite Hd. cbn [obind].
  set (st0 := mkParseState Leaf ∅ message).
  assert (Hst : fold_left (parse_range GetUserInfo (Z.of_nat (length (NewUTF16String message))))
                  (sort_func cmp_ranges rs) st0 = st0).
  { pose proof (sorted_ranges_ok _ rs Hout) as Hs. induction Hs as [|r l Hr Hl IH]; [done|].
    cbn [fold_left]. unfold parse_range at 2.
    assert (HS : Start (TruncateEnd (mkRange (pr_Start r) (pr_Length r) None)
      (Z.of_nat (length (NewUTF16String message)))) = pr_Start r) by (unfold TruncateEnd; by destruct (_ <? _)).
    rewrite HS. replace (_ <=? pr_Start r) with true by lia. done. }
  rewrite Hst. cbn. by rewrite units_string.
Qed.

End ParseClaims.

(** ** A concrete environment, the repository's test cases and witnesses *)
#[local] Instance cmp_le_dec (cmp : PRange -> PRange -> Z) : RelDecision (fun a b => cmp a b <= 0).
Proof. intros a b. apply Z_le_dec. Defined.

#[export] Instance sample_env : FmtEnv := {
  event_TextToHTML := EscapeString;
  MatrixToURL mxid := str "https://matrix.to/#/" ++ mxid;
  sort_func cmp l := merge_sort (fun a b => cmp a b <= 0) l
}.

#[export] Instance sample_env_laws : FmtLaws sample_env.
Proof.
  split; intros l; simpl; [apply merge_sort_Permutation|].
  apply Sorted_merge_sort. intros a b. unfold cmp_ranges.
  destruct (Z.eqb_spec (pr_Start a) (pr_Start b)), (Z.eqb_spec (pr_Start b) (pr_Start a)); try lia.
  - destruct (Z.eqb_spec (pr_Length a) (pr_Length b)); [lia|].
    destruct (Z.ltb_spec (pr_Length a) (pr_Length b)); [|lia].
    destruct (Z.eqb_spec (pr_Length b) (pr_Length a)); [lia|].
    destruct (Z.ltb_spec (pr_Length b) (pr_Length a)); lia.
  - destruct (Z.ltb_spec (pr_Start a) (pr_Start b)), (Z.ltb_spec (pr_Start b) (pr_Start a)); lia.
Qed.

Import CanonicalUUID.

Definition sample_user (u : UUID) : UserInfo := mkUserInfo (str "@test:example.com") (str "Matrix User").
Definition style_range (s l v : Z) : ProtoRange := mkProto (Some s) (Some l) (BodyRange_Style v).
Definition test_ranges : list ProtoRange :=
  [style_range 12 1 StyleBold; style_range 0 5 StyleBold; style_range 4 5 StyleStrikethrough;
   style_range 7 5 StyleMonospace; style_range 4 4 StyleSpoiler; style_range 3 6 StyleItalic].

(** The expected HTML of the test "basic style with sorting" of
    [convert_test.go]. *)
Example Parse_test_sorting :
  outmap mc_FormattedBody (Parse sample_user (str "Hello, World!") test_ranges) =
  Ok (str "<strong>Hel<em>l<del><span data-mx-spoiler>o</span></del></em></strong><em><del><span data-mx-spoiler>, <code>W</code></span><code>o</code></del></em><code>rld</code><strong>!</strong>").
Proof. vm_compute. reflexivity. Qed.

Definition test_pranges : list PRange :=
  [mkPRange 0 5 (BodyRange_Style StyleBold); mkPRange 3 6 (BodyRange_Style StyleItalic)].
Definition test_protos : list ProtoRange := [style_range 0 5 StyleBold; style_range 3 6 StyleItalic].

Lemma test_wire : wire_ranges test_protos test_pranges.
Proof. split; [reflexivity|]. unfold in_width. repeat (apply Forall_cons_2; [simpl; lia|]). apply Forall_nil_2. Qed.

Lemma test_no_nil : Forall (fun r => ~ nil_mention r) test_pranges.
Proof. unfold nil_mention. repeat (apply Forall_cons_2; [done|]). apply Forall_nil_2. Qed.

Lemma Parse_correct_witness :
  exists content, Parse sample_user (str "Hello, World!") test_protos = Ok content /\ mc_IsHTML content = true.
Proof.
  destruct (Parse_correct sample_user (str "Hello, World!") test_protos test_pranges test_wire
              ltac:(discriminate) test_no_nil) as (c & d & H1 & H2 & _).
  exists c. split; [exact H1|exact H2].
Defined.

Lemma Parse_mentions_correct_witness :
  exists content, Parse sample_user (str "Hello, World!") test_protos = Ok content /\ mc_Mentions content = ∅.
Proof.
  eexists. split; [vm_compute; reflexivity|].
  rewrite (Parse_mentions_correct sample_user (str "Hello, World!") test_protos test_pranges _ test_wire test_no_nil);
    [|vm_compute; reflexivity]. vm_compute. reflexivity.
Defined.

Lemma Parse_panics_witness :
  Parse sample_user (str "x") [mkProto (Some 0) (Some 1) (BodyRange_MentionAciBinary (repeat x00 16))] = Panic.
Proof. apply (Parse_panics sample_user (str "x") [] 0 1); [vm_compute; split; congruence|lia]. Defined.

Lemma Parse_plain_witness :
  Parse sample_user (str "Hi") [style_range 2 1 StyleBold] =
  Ok (mkContent (str "Hi") (event_TextToHTML (str "Hi")) true ∅).
Proof.
  apply (Parse_plain sample_user (str "Hi") [style_range 2 1 StyleBold] [mkPRange 2 1 (BodyRange_Style StyleBold)]).
  - exists [72; 105]. split; [repeat (apply Forall_cons_2; [done|]); apply Forall_nil_2|reflexivity].
  - split; [reflexivity|]. unfold in_width. apply Forall_cons_2; [simpl; lia|apply Forall_nil_2].
  - apply Forall_cons_2; [vm_compute; congruence|apply Forall_nil_2].
Defined.
