(* ===== verification/MatrixFmt.v ===== *)
(** Matrix HTML to Signal formatting: [pkg/msgconv/matrixfmt/html.go] and
    [convert.go].

    The HTML parser (golang.org/x/net/html), the matrix.to URL parser of
    mautrix-go and the user lookup are parameters ([HTMLEnv]); the parsed
    document is the inductive type [node].  Pointers to [EntityString] are
    options: the methods are called on nil pointers, and a field access
    through one is a panic. *)
From S2P Require Import Prelude GoLib ServiceId RangeTree SignalFmt.

(** ** [EntityString] *)

Record EntityString := mkES { es_String : UTF16String; es_Entities : list BodyRange }.

Abbreviation esptr := (option EntityString).

Definition es_len (es : EntityString) : Z := Z.of_nat (length (es_String es)).

Definition NewEntityString (val : bytes) : EntityString := mkES (NewUTF16String val) [].

(** The closure [doSplit] of [Split]. *)
Definition doSplit (es : EntityString) (prevSplit i : Z) : EntityString :=
  mkES (take (Z.to_nat (i - prevSplit)) (drop (Z.to_nat prevSplit) (es_String es)))
    (omap (fun entity =>
       if ((End_ entity <=? i) || (prevSplit <? End_ entity)) &&
          ((prevSplit <=? Start entity) || (Start entity <? i)) then
         let entity' := Offset (TruncateEnd (TruncateStart entity prevSplit) i) (- prevSplit) in
         if 0 <? Length entity' then Some entity' else None
       else None) (es_Entities es)).

(** The loop over the code units: the parts so far and the last split. *)
Fixpoint split_loop (es : EntityString) (at_ : Z) (rest : UTF16String) (i prevSplit : Z)
  : list EntityString * Z :=
  match rest with
  | [] => ([], prevSplit)
  | chr :: rest' =>
      if chr =? at_ then
        let '(out, last) := split_loop es at_ rest' (i + 1) (i + 1) in
        (doSplit es prevSplit i :: out, last)
      else split_loop es at_ rest' (i + 1) prevSplit
  end.

Definition Split (p : esptr) (at_ : Z) : outcome Empty_set (list EntityString) :=
  if 127 <? at_ then Panic
  else match p with
  | None => Ok []
  | Some es =>
      let '(output, prevSplit) := split_loop es at_ (es_String es) 0 0 in
      if prevSplit =? 0 then Ok [es]
      else if negb (prevSplit =? es_len es) then Ok (output ++ [doSplit es prevSplit (es_len es)])
      else Ok output
  end.

Definition is_space (u : Z) : bool :=
  (u =? 9) || (u =? 10) || (u =? 11) || (u =? 12) || (u =? 13) || (u =? 32) || (u =? 133) || (u =? 160).

Fixpoint count_space (us : UTF16String) : nat :=
  match us with
  | [] => 0
  | u :: us' => if is_space u then S (count_space us') else 0
  end.

Definition TrimSpace (p : esptr) : esptr :=
  match p with
  | None => None
  | Some es =>
      let cutStart := count_space (es_String es) in
      let cutEnd := (length (es_String es) - count_space (reverse (drop cutStart (es_String es))))%nat in
      if (cutEnd =? cutStart)%nat then Some (NewEntityString [])
      else if (cutStart =? 0)%nat && (cutEnd =? length (es_String es))%nat then Some es
      else
        Some (mkES (take (cutEnd - cutStart) (drop cutStart (es_String es)))
               (filter (fun ent => 0 < Length ent)
                  (map (fun ent => TruncateEnd (Offset ent (- Z.of_nat cutStart)) (Z.of_nat cutEnd))
                     (es_Entities es))))
  end.

Definition shift_entities (k : Z) (l : list BodyRange) : list BodyRange :=
  map (fun entity => mkRange (Start entity + k) (Length entity) (Value entity)) l.

(** The second loop of [JoinEntityString]. *)
Definition join_step (withUTF16 : UTF16String) (acc s : EntityString) : EntityString :=
  match es_String s with
  | [] => acc
  | _ => mkES (es_String acc ++ es_String s ++ withUTF16)
           (es_Entities acc ++ shift_entities (es_len acc) (es_Entities s))
  end.

(** The first loop reads the fields of every pointer, so a nil one panics
    before the second loop could skip it. *)
Definition JoinEntityString (with_ : bytes) (strings : list esptr) : outcome Empty_set EntityString :=
  let! ss := omapM (fun p => match p with Some s => Ok s | None => Panic end) strings in
  Ok (fold_left (join_step (NewUTF16String with_)) ss (mkES [] [])).

Definition es_Format (p : esptr) (value : BodyRangeValue) : esptr :=
  match p with
  | None => None
  | Some es => Some (mkES (es_String es) (mkRange 0 (es_len es) (Some value) :: es_Entities es))
  end.

Definition Append (p other : esptr) : esptr :=
  match p, other with
  | None, _ => other
  | _, None => p
  | Some es, Some o =>
      Some (mkES (es_String es ++ es_String o)
              (es_Entities es ++ shift_entities (es_len es) (es_Entities o)))
  end.

Definition AppendString (p : esptr) (other : bytes) : esptr :=
  match p with
  | None => Some (NewEntityString other)
  | Some es =>
      match other with
      | [] => p
      | _ => Some (mkES (es_String es ++ NewUTF16String other) (es_Entities es))
      end
  end.

(** ** The document *)

(** An [html.Node] with its children in order. *)
Inductive node :=
| TextNode (data : bytes)
| ElementNode (data : bytes) (attrs : list (bytes * bytes)) (children : list node)
| DocumentNode (children : list node)
| OtherNode (children : list node).

Class HTMLEnv : Type := {
  html_Parse : bytes -> node;
  (** the user ID of a matrix: URI or matrix.to URL that names a user *)
  ParseMatrixUser : bytes -> option bytes;
  GetUUIDFromMXID : bytes -> UUID;
  (** [int(math.Floor(math.Log10(float64(num))) + 1)] *)
  log10_digits : Z -> Z
}.

Record Context := mkCtx {
  AllowedMentions : option (list bytes);
  TagStack : list bytes;
  PreserveWhitespace : bool
}.

Definition NewContext : Context := mkCtx None [] false.
Definition WithTag (ctx : Context) (tag : bytes) : Context :=
  mkCtx (AllowedMentions ctx) (TagStack ctx ++ [tag]) (PreserveWhitespace ctx).
Definition WithWhitespace (ctx : Context) : Context :=
  mkCtx (AllowedMentions ctx) (TagStack ctx) true.

Fixpoint maybeGetAttribute (attrs : list (bytes * bytes)) (attribute : bytes) : option bytes :=
  match attrs with
  | [] => None
  | (k, v) :: attrs' => if beqb k attribute then Some v else maybeGetAttribute attrs' attribute
  end.

Definition getAttribute (attrs : list (bytes * bytes)) (attribute : bytes) : bytes :=
  default [] (maybeGetAttribute attrs attribute).

Definition tag_in (tags : list string) (tag : bytes) : bool := existsb (fun t => beqb tag (str t)) tags.

Definition BlockTags : list string :=
  ["p"; "h1"; "h2"; "h3"; "h4"; "h5"; "h6"; "ol"; "ul"; "pre"; "blockquote"; "div"; "hr"; "table"]%string.
Definition isBlockTag (tag : bytes) : bool := tag_in BlockTags tag.

Definition int64 (z : Z) : Z := swrap 64 z.

(** A string with the tag it came from. *)
Abbreviation TaggedString := (esptr * bytes)%type.

Section Convert.
Context `{H : HTMLEnv}.

(** [Digits]: [None] when the recursion has not ended within [fuel] calls. *)
Fixpoint Digits (fuel : nat) (num : Z) : option Z :=
  match fuel with
  | O => None
  | S n =>
      if num =? 0 then Some 1
      else if num <? 0 then (fun d => d + 1) <$> Digits n (int64 (- num))
      else Some (log10_digits num)
  end.

(** Two calls are enough for every [int] whose negation is positive; a
    recursion that does not end exhausts the stack. *)
Definition digits_or_crash (num : Z) : outcome Empty_set Z :=
  match Digits 2 num with Some d => Ok d | None => Panic end.

Definition spaces (n : Z) : outcome Empty_set bytes :=
  match Strings.repeat_str [x20] n with Some s => Ok s | None => Panic end.

(** Loop of [listToString] over the items. *)
Fixpoint list_items (ordered : bool) (indentLength : Z) (indent : bytes)
  (items : list TaggedString) (counter : Z) : outcome Empty_set (list esptr) :=
  match items with
  | [] => Ok []
  | (child, tag) :: items' =>
      if negb (beqb tag (str "li")) then list_items ordered indentLength indent items' counter
      else
        let! prefix :=
          if ordered then
            let! d := digits_or_crash counter in
            let! pad := spaces (Z.max 0 (int64 (indentLength - d))) in
            Ok (Decimal.itoa counter ++ str ". " ++ pad)
          else Ok (str "* ") in
        let es := Append (Some (NewEntityString prefix)) child in
        let! parts := Split es 10 in
        let parts' :=
          match parts with
          | [] => []
          | p :: ps => Some p :: map (fun part => Append (Some (NewEntityString indent)) (Some part)) ps
          end in
        let! rest := list_items ordered indentLength indent items' (int64 (counter + 1)) in
        Ok (parts' ++ rest)
  end.

Definition listToString (ordered : bool) (attrs : list (bytes * bytes)) (taggedChildren : list TaggedString)
  : outcome Empty_set EntityString :=
  let start := getAttribute attrs (str "start") in
  let counter := if ordered then match start with [] => 1 | _ => Decimal.atoi_value start end else 1 in
  let! indentLength :=
    if ordered then digits_or_crash (int64 (int64 (counter - 1) + Z.of_nat (length taggedChildren)))
    else Ok 0 in
  let! indent := spaces (int64 (indentLength + 2)) in
  let! children := list_items ordered indentLength indent taggedChildren counter in
  JoinEntityString [x0a] children.

(** The loop and the final trim of [nodeToTagAwareString]. *)
Definition tag_aware_step (output : esptr) (s : TaggedString) : esptr :=
  let tstr := if isBlockTag s.2
              then AppendString (Append (Some (NewEntityString [x0a])) s.1) [x0a]
              else s.1 in
  match output with None => tstr | Some _ => Append output tstr end.

Definition tagAware (strs : list TaggedString) : esptr := TrimSpace (fold_left tag_aware_step strs None).

Definition basicFormat (tag : bytes) (s : esptr) : esptr :=
  if tag_in ["b"; "strong"]%string tag then es_Format s (Style StyleBold)
  else if tag_in ["i"; "em"]%string tag then es_Format s (Style StyleItalic)
  else if tag_in ["s"; "del"; "strike"]%string tag then es_Format s (Style StyleStrikethrough)
  else if tag_in ["u"; "ins"]%string tag then s
  else if tag_in ["tt"; "code"]%string tag then es_Format s (Style StyleMonospace)
  else s.

Definition spanFormat (tag : bytes) (attrs : list (bytes * bytes)) (s : esptr) : esptr :=
  if beqb tag (str "span") then
    match maybeGetAttribute attrs (str "data-mx-spoiler") with
    | Some _ => es_Format s (Style StyleSpoiler)
    | None => s
    end
  else s.

(** [int(node.Data[1] - '0')] of a header tag: the subtraction is on bytes. *)
Definition header_level (tag : bytes) : Z :=
  match tag with _ :: d :: _ => (b2z d - 48) mod 256 | _ => 0 end.

Definition headerFormat (tag : bytes) (inner : EntityString) : esptr :=
  es_Format (Append (Some (NewEntityString (repeat x23 (Z.to_nat (header_level tag)) ++ [x20]))) (Some inner))
    (Style StyleBold).

Definition blockquoteFormat (s : esptr) : outcome Empty_set EntityString :=
  let! childrenArr := Split (TrimSpace s) 10 in
  JoinEntityString [x0a] (map (fun child => Append (Some (NewEntityString (str "> "))) (Some child)) childrenArr).

(** [str.String.String()] through a pointer. *)
Definition es_text (s : esptr) : outcome Empty_set bytes :=
  match s with Some es => Ok (UTF16_String (es_String es)) | None => Panic end.

Definition linkFormat (attrs : list (bytes * bytes)) (ctx : Context) (s : esptr) : outcome Empty_set esptr :=
  match getAttribute attrs (str "href") with
  | [] => Ok s
  | href =>
      match ParseMatrixUser href with
      | Some mxid =>
          if match AllowedMentions ctx with Some l => negb (bool_decide (mxid ∈ l)) | None => false end
          then Ok s
          else
            let u := GetUUIDFromMXID mxid in
            if bool_decide (u = uuid_Nil) then Ok s
            else
              let! name := es_text s in
              Ok (es_Format (Some (NewEntityString object_replacement)) (Mention (mkUserInfo mxid name) u))
      | None =>
          let! text := es_text s in
          if beqb text href then Ok s
          else Ok (AppendString s (str " (" ++ href ++ str ")"))
      end
  end.

Definition preFormat (language : bytes) (preStr : EntityString) : esptr :=
  AppendString (Append (Some (NewEntityString (str "```" ++ language ++ [x0a]))) (Some preStr))
    ([x0a] ++ str "```").

Definition pre_language (attrs : list (bytes * bytes)) : bytes :=
  let class := getAttribute attrs (str "class") in
  if Strings.has_prefix (str "language-") class then drop (length (str "language-")) class else [].

(** [singleNodeToString], with [tagToString] and the functions per tag it
    dispatches to.  The conversion of a list of siblings is [omapM] of this
    function. *)
Fixpoint singleNodeToString (n : node) (ctx : Context) : outcome Empty_set TaggedString :=
  match n with
  | TextNode data =>
      Ok (Some (NewEntityString (if PreserveWhitespace ctx then data else Strings.remove_byte x0a data)), str "text")
  | ElementNode tag attrs children =>
      let ctx' := WithTag ctx tag in
      let tagged := omapM (fun c => singleNodeToString c ctx') children in
      let aware := outmap tagAware tagged in
      let! s :=
        if beqb tag (str "blockquote") then
          let! s := aware in outmap Some (blockquoteFormat s)
        else if tag_in ["ol"; "ul"]%string tag then
          let! items := tagged in outmap Some (listToString (beqb tag (str "ol")) attrs items)
        else if tag_in ["h1"; "h2"; "h3"; "h4"; "h5"; "h6"]%string tag then
          let! strs := tagged in
          let! inner := JoinEntityString [] (map fst strs) in
          Ok (headerFormat tag inner)
        else if beqb tag (str "br") then Ok (Some (NewEntityString [x0a]))
        else if tag_in ["b"; "strong"; "i"; "em"; "s"; "strike"; "del"; "u"; "ins"; "tt"; "code"]%string tag then
          outmap (basicFormat tag) aware
        else if tag_in ["span"; "font"]%string tag then outmap (spanFormat tag attrs) aware
        else if beqb tag (str "a") then let! s := aware in linkFormat attrs ctx' s
        else if beqb tag (str "p") then aware
        else if beqb tag (str "hr") then Ok (Some (NewEntityString (str "---")))
        else if beqb tag (str "pre") then
          match children with
          | ElementNode ctag cattrs grandchildren :: _ =>
              if beqb ctag (str "code") then
                let! strs := omapM (fun c => singleNodeToString c (WithWhitespace ctx')) grandchildren in
                let! inner := JoinEntityString [] (map fst strs) in
                Ok (preFormat (pre_language cattrs) inner)
              else
                let! strs := omapM (fun c => singleNodeToString c (WithWhitespace ctx')) children in
                let! inner := JoinEntityString [] (map fst strs) in
                Ok (preFormat [] inner)
          | _ =>
              let! strs := omapM (fun c => singleNodeToString c (WithWhitespace ctx')) children in
              let! inner := JoinEntityString [] (map fst strs) in
              Ok (preFormat [] inner)
          end
        else aware in
      Ok (s, tag)
  | DocumentNode children =>
      let! strs := omapM (fun c => singleNodeToString c ctx) children in
      Ok (tagAware strs, str "html")
  | OtherNode _ => Ok (Some (mkES [] []), str "unknown")
  end.

Definition nodeToTaggedStrings (nodes : list node) (ctx : Context) : outcome Empty_set (list TaggedString) :=
  omapM (fun n => singleNodeToString n ctx) nodes.

Definition nodeToTagAwareString (nodes : list node) (ctx : Context) : outcome Empty_set esptr :=
  outmap tagAware (nodeToTaggedStrings nodes ctx).

Definition nodeToString (nodes : list node) (ctx : Context) : outcome Empty_set EntityString :=
  let! strs := nodeToTaggedStrings nodes ctx in JoinEntityString [] (map fst strs).

Definition HTMLParser_Parse (htmlData : bytes) (ctx : Context) : outcome Empty_set esptr :=
  nodeToTagAwareString [html_Parse htmlData] ctx.

(** ** [convert.go] *)

Record MatrixContent := mkMC { m_IsHTML : bool; m_Body : bytes; m_FormattedBody : bytes; m_Mentions : option (list bytes) }.

Definition matrixfmt_Parse (content : MatrixContent) : outcome Empty_set (bytes * list ProtoRange) :=
  if negb (m_IsHTML content) then Ok (m_Body content, [])
  else
    let parseCtx := mkCtx (m_Mentions content) [] false in
    let! parsed := HTMLParser_Parse (m_FormattedBody content) parseCtx in
    match parsed with
    | None => Ok ([], [])
    | Some es =>
        let! bodyRanges := omapM BodyRange_Proto (es_Entities es) in
        Ok (UTF16_String (es_String es), bodyRanges)
    end.

End Convert.

(** ** Entity strings: bounds and styles

    [covering] of [RangeTree] gives the styles of a position. *)

Definition es_wf (es : EntityString) : Prop := Forall (range_in (es_len es)) (es_Entities es).
Definition styles (es : EntityString) (i : Z) : list (option BodyRangeValue) := covering (es_Entities es) i.

(** [es] is the text of [src] from position [o] on, with the same styles. *)
Definition same_styles (src : EntityString) (o : Z) (es : EntityString) : Prop :=
  forall j, 0 <= j < es_len es -> styles es j = styles src (o + j).

Lemma covering_app l1 l2 i : covering (l1 ++ l2) i = covering l1 i ++ covering l2 i.
Proof. unfold covering. by rewrite filter_app, fmap_app. Qed.

Lemma covering_cons r l i : covering (r :: l) i = (if contains r i then [Value r] else []) ++ covering l i.
Proof.
  unfold covering. rewrite filter_cons. case_decide as E; [by rewrite E|]. by destruct (contains r i).
Qed.

Lemma covering_shift k l i : covering (shift_entities k l) i = covering l (i - k).
Proof.
  induction l as [|r l IH]; [done|]. cbn [shift_entities map]. rewrite !covering_cons. f_equal; [|exact IH].
  replace (contains (mkRange (Start r + k) (Length r) (Value r)) i) with (contains r (i - k))
    by (unfold contains, End_; simpl; lia). done.
Qed.

Lemma covering_outside len l i : Forall (range_in len) l -> i < 0 \/ len <= i -> covering l i = [].
Proof.
  induction 1 as [|r l Hr Hl IH]; intros Hi; [done|]. rewrite covering_cons, IH by done.
  unfold range_in, End_ in Hr.
  replace (contains r i) with false by (unfold contains, End_; lia). done.
Qed.

Lemma shift_in k len l : 0 <= k -> Forall (range_in len) l -> Forall (range_in (k + len)) (shift_entities k l).
Proof.
  intros Hk Hl. unfold shift_entities. apply Forall_fmap. eapply Forall_impl; [exact Hl|].
  unfold range_in, End_. simpl. intros r Hr. lia.
Qed.

Lemma range_in_mono l1 l2 l : l1 <= l2 -> Forall (range_in l1) l -> Forall (range_in l2) l.
Proof. intros Hle Hl. eapply Forall_impl; [exact Hl|]. unfold range_in. intros r Hr. lia. Qed.

Lemma es_len_app a b e : es_len (mkES (a ++ b) e) = Z.of_nat (length a) + Z.of_nat (length b).
Proof. unfold es_len. simpl. rewrite length_app. lia. Qed.

Lemma es_len_nonneg es : 0 <= es_len es.
Proof. unfold es_len. lia. Qed.

(** Concatenation keeps the bounds and the styles of both sides. *)
Lemma append_spec a b : es_wf a -> es_wf b ->
  let r := mkES (es_String a ++ es_String b) (es_Entities a ++ shift_entities (es_len a) (es_Entities b)) in
  es_wf r /\ forall i, styles r i = if i <? es_len a then styles a i else styles b (i - es_len a).
Proof.
  intros Ha Hb r. unfold es_wf, styles in *. unfold r. cbn [es_Entities]. rewrite es_len_app.
  fold (es_len a) (es_len b). pose proof (es_len_nonneg a). pose proof (es_len_nonneg b). split.
  - apply Forall_app. split; [eapply range_in_mono; [|exact Ha]; lia|by apply shift_in].
  - intros i. rewrite covering_app, covering_shift. destruct (Z.ltb_spec i (es_len a)).
    + rewrite (covering_outside _ (es_Entities b) _ Hb) by lia. by rewrite app_nil_r.
    + rewrite (covering_outside _ (es_Entities a) _ Ha) by lia. done.
Qed.

Lemma new_wf val : es_wf (NewEntityString val).
Proof. by apply Forall_nil_2. Qed.

Lemma format_spec es v : es_wf es ->
  let r := mkES (es_String es) (mkRange 0 (es_len es) (Some v) :: es_Entities es) in
  es_wf r /\ forall i, 0 <= i < es_len es -> styles r i = Some v :: styles es i.
Proof.
  intros Hes r. split.
  - apply Forall_cons. split; [|exact Hes]. unfold range_in, End_, r, es_len. simpl. lia.
  - intros i Hi. unfold styles, r. cbn [es_Entities]. rewrite covering_cons.
    replace (contains (mkRange 0 (es_len es) (Some v)) i) with true; [done|].
    unfold contains, End_. simpl. lia.
Qed.

Lemma join_step_wf w acc s : es_wf acc -> es_wf s -> es_wf (join_step w acc s).
Proof.
  intros Ha Hs. unfold join_step. destruct (es_String s) as [|u us] eqn:E; [done|]. rewrite <- E.
  pose proof (append_spec acc s Ha Hs) as [Hw _]. unfold es_wf in *. cbn [es_Entities] in *.
  eapply range_in_mono; [|exact Hw]. rewrite app_assoc, !es_len_app, length_app. lia.
Qed.

Lemma join_wf w ss : forall acc, es_wf acc -> Forall es_wf ss -> es_wf (fold_left (join_step w) ss acc).
Proof.
  induction ss as [|s ss IH]; intros acc Ha Hss; [done|]. apply Forall_cons in Hss as [Hs Hss].
  cbn [fold_left]. apply IH; [by apply join_step_wf|done].
Qed.

(** ** Splitting *)

Lemma doSplit_entity (prev i : Z) r : prev <= i ->
  ((End_ r <=? i) || (prev <? End_ r)) && ((prev <=? Start r) || (Start r <? i)) = true.
Proof. intros. lia. Qed.

Lemma doSplit_spec es prev i : 0 <= prev <= i -> i <= es_len es ->
  es_len (doSplit es prev i) = i - prev /\ es_wf (doSplit es prev i) /\
  same_styles es prev (doSplit es prev i).
Proof.
  intros Hp Hi.
  assert (Hlen : es_len (doSplit es prev i) = i - prev).
  { unfold es_len, doSplit in *. simpl. rewrite length_take, length_drop. lia. }
  split_and!; [done| |].
  - unfold es_wf. rewrite Hlen. apply Forall_forall. intros r Hr.
    unfold doSplit in Hr. cbn [es_Entities] in Hr. apply list_elem_of_omap in Hr as (r0 & _ & Hr).
    rewrite doSplit_entity in Hr by lia.
    destruct (0 <? Length _) eqn:E; [|done]. injection Hr as <-. revert E.
    unfold range_in, Offset, TruncateEnd, TruncateStart, End_.
    destruct (Z.ltb_spec (Start r0) prev); simpl;
      match goal with |- context [if i <? ?x then _ else _] => destruct (Z.ltb_spec i x) end; simpl; lia.
  - unfold same_styles. rewrite Hlen. intros j Hj. unfold styles, doSplit. cbn [es_Entities].
    induction (es_Entities es) as [|r l IH]; [done|]. cbn [omap list_omap].
    rewrite doSplit_entity by lia. rewrite covering_cons.
    set (r' := Offset (TruncateEnd (TruncateStart r prev) i) (- prev)).
    assert (Hv : Value r' = Value r).
    { unfold r', Offset, TruncateEnd, TruncateStart, End_.
      destruct (Start r <? prev); simpl; by match goal with |- context [if ?b then _ else _] => destruct b end. }
    assert (Hc : contains r (prev + j) = (0 <? Length r') && contains r' j).
    { unfold contains, r', Offset, TruncateEnd, TruncateStart, End_.
      destruct (Z.ltb_spec (Start r) prev); simpl;
        match goal with |- context [if i <? ?x then _ else _] => destruct (Z.ltb_spec i x) end; simpl; lia. }
    rewrite Hc. destruct (0 <? Length r') eqn:E.
    + rewrite covering_cons, Hv, andb_true_l. f_equal. exact IH.
    + rewrite andb_false_l. exact IH.
Qed.

(** [parts] are the pieces of [es] between separators from [o] on: each has
    its text and styles, no separator inside and one right after it, and
    nothing of [es] is left over. *)
Fixpoint laid (es : EntityString) (at_ o : Z) (parts : list EntityString) : Prop :=
  match parts with
  | [] => es_len es <= o
  | p :: ps =>
      es_String p = take (length (es_String p)) (drop (Z.to_nat o) (es_String es)) /\
      at_ ∉ es_String p /\ es_wf p /\ same_styles es o p /\
      (o + es_len p = es_len es \/ es_String es !! Z.to_nat (o + es_len p) = Some at_) /\
      laid es at_ (o + es_len p + 1) ps
  end.

Lemma doSplit_text es prev i : 0 <= prev <= i -> i <= es_len es ->
  es_String (doSplit es prev i) =
  take (length (es_String (doSplit es prev i))) (drop (Z.to_nat prev) (es_String es)).
Proof.
  intros Hp Hi. pose proof (doSplit_spec es prev i Hp Hi) as [Hlen _]. unfold es_len in Hlen.
  replace (length (es_String (doSplit es prev i))) with (Z.to_nat (i - prev)) by lia. done.
Qed.

Lemma split_loop_spec es at_ rest : forall i prev out last,
  0 <= prev <= i -> drop (Z.to_nat i) (es_String es) = rest -> i + Z.of_nat (length rest) = es_len es ->
  at_ ∉ take (Z.to_nat (i - prev)) (drop (Z.to_nat prev) (es_String es)) ->
  split_loop es at_ rest i prev = (out, last) ->
  prev <= last /\ (out = [] -> last = prev) /\ (prev < last -> 0 < last) /\ last <= es_len es /\
  at_ ∉ drop (Z.to_nat last) (es_String es) /\
  (forall tl, laid es at_ last tl -> laid es at_ prev (out ++ tl)).
Proof.
  induction rest as [|chr rest IH]; intros i prev out last Hp Hrest Hlen Hno Hs; simpl in Hs.
  { injection Hs as <- <-. simpl in Hlen. split_and!; try lia; [|done].
    replace (drop (Z.to_nat prev) (es_String es)) with (take (Z.to_nat (i - prev)) (drop (Z.to_nat prev) (es_String es))); [done|].
    rewrite take_ge; [done|]. rewrite length_drop. unfold es_len in Hlen. lia. }
  assert (Hrest' : drop (Z.to_nat (i + 1)) (es_String es) = rest).
  { replace (Z.to_nat (i + 1)) with (S (Z.to_nat i)) by lia.
    rewrite <- Nat.add_1_r, <- drop_drop, Hrest. done. }
  assert (Hchr : es_String es !! Z.to_nat i = Some chr).
  { rewrite <- (Nat.add_0_r (Z.to_nat i)), <- lookup_drop, Hrest. done. }
  cbn [length] in Hlen. destruct (Z.eqb_spec chr at_) as [->|Hne].
  - destruct (split_loop es at_ rest (i + 1) (i + 1)) as [out' last'] eqn:El. injection Hs as <- <-.
    apply IH in El as (I1 & I2 & I3 & I4 & I5 & I6); [|lia|done|lia|].
    2: { replace (i + 1 - (i + 1)) with 0 by lia. simpl. set_solver. }
    split_and!; [lia|done|lia|done|done|].
    intros tl Htl. cbn [app laid].
    destruct (doSplit_spec es prev i Hp ltac:(lia)) as (D1 & D2 & D3).
    split_and!; [apply doSplit_text; lia|exact Hno|done|done| |].
    + right. rewrite D1. by replace (prev + (i - prev)) with i by lia.
    + rewrite D1. replace (prev + (i - prev) + 1) with (i + 1) by lia. by apply I6.
  - apply IH in Hs as (I1 & I2 & I3 & I4 & I5 & I6); [by split_and!|lia|done|lia|].
    replace (Z.to_nat (i + 1 - prev)) with (S (Z.to_nat (i - prev))) by lia.
    rewrite (take_S_r _ _ chr); [set_solver|].
    rewrite lookup_drop. by replace (Z.to_nat prev + Z.to_nat (i - prev))%nat with (Z.to_nat i) by lia.
Qed.

Lemma Split_spec es at_ : at_ <= 127 -> es_wf es ->
  exists parts, Split (Some es) at_ = Ok parts /\ parts <> [] /\ laid es at_ 0 parts.
Proof.
  intros Hat Hwf. unfold Split. replace (127 <? at_) with false by lia.
  destruct (split_loop es at_ (es_String es) 0 0) as [out last] eqn:El.
  apply split_loop_spec in El as (I1 & I2 & I3 & I4 & I5 & I6); [|lia|done|done|simpl; set_solver].
  destruct (Z.eqb_spec last 0) as [->|Hlast].
  - exists [es]. split_and!; [done|done|]. cbn [laid].
    split_and!; [by rewrite take_ge|exact I5|done| |by left|lia].
    intros j _. done.
  - destruct (Z.eqb_spec last (es_len es)) as [->|Hne]; cbn [negb].
    + exists out. split_and!; [done|intros ->; lia|]. rewrite <- (app_nil_r out). apply I6. simpl. lia.
    + eexists. split_and!; [done|by destruct out|]. apply I6. cbn [laid].
      destruct (doSplit_spec es last (es_len es) ltac:(lia) ltac:(lia)) as (D1 & D2 & D3).
      split_and!; [apply doSplit_text; lia| |done|done|left; lia|rewrite D1; lia].
      unfold doSplit. cbn [es_String]. intros Hin. apply I5. by apply elem_of_take in Hin as (k & Hk & _); apply list_elem_of_lookup_2 in Hk.
Qed.

(** ** Trimming *)

Definition spacep (u : Z) : Prop := is_space u = true.

Lemma count_space_le us : (count_space us <= length us)%nat.
Proof. induction us as [|u us IH]; simpl; [done|]. destruct (is_space u); lia. Qed.

Lemma count_space_take us : Forall spacep (take (count_space us) us).
Proof.
  induction us as [|u us IH]; simpl; [constructor|].
  destruct (is_space u) eqn:E; [constructor; done|constructor].
Qed.

Lemma count_space_head us u : head (drop (count_space us) us) = Some u -> is_space u = false.
Proof.
  induction us as [|v us IH]; simpl; [done|]. destruct (is_space v) eqn:E; [done|].
  simpl. congruence.
Qed.

(** The text splits into leading blanks, a middle that neither starts nor
    ends with a blank, and trailing blanks. *)
Lemma trim_cut (s : UTF16String) : let a := count_space s in
  let e := (length s - count_space (reverse (drop a s)))%nat in
  let mid := take (e - a) (drop a s) in
  exists pre post, s = pre ++ mid ++ post /\ length pre = a /\ (a <= e <= length s)%nat /\
    Forall spacep pre /\ Forall spacep post /\
    (forall u, head mid = Some u -> is_space u = false) /\
    (forall u, last mid = Some u -> is_space u = false) /\
    (e = a -> Forall spacep s).
Proof.
  intros a e mid. set (d := drop a s). set (c := count_space (reverse d)).
  pose proof (count_space_le s) as Ha. pose proof (count_space_le (reverse d)) as Hc.
  rewrite length_reverse in Hc. fold c in Hc.
  assert (Hd : length d = (length s - a)%nat) by (unfold d; by rewrite length_drop).
  set (m := reverse (drop c (reverse d))). set (post := reverse (take c (reverse d))).
  assert (Hdm : d = m ++ post).
  { unfold m, post. rewrite <- reverse_app, take_drop. by rewrite reverse_involutive. }
  assert (Hmid : mid = m).
  { unfold mid. fold d. rewrite Hdm at 1. apply take_app_length'.
    unfold m. rewrite length_reverse, length_drop, length_reverse. unfold e. fold d c. fold a in Ha. lia. }
  assert (Hhead : forall u, head d = Some u -> is_space u = false) by apply count_space_head.
  assert (Hm0 : e = a -> length m = 0%nat).
  { unfold m, e. fold d c. rewrite length_reverse, length_drop, length_reverse. fold a in Ha. lia. }
  exists (take a s), post. split_and!.
  - rewrite Hmid, <- Hdm. unfold d. by rewrite take_drop.
  - rewrite length_take. unfold a in *. lia.
  - unfold e. fold d c. fold a in Ha. lia.
  - unfold e. lia.
  - apply count_space_take.
  - unfold post. apply Forall_reverse. apply count_space_take.
  - intros u Hu. apply Hhead. rewrite Hmid in Hu. rewrite Hdm. by destruct m.
  - intros u Hu. rewrite Hmid in Hu. unfold m in Hu. rewrite last_reverse in Hu.
    by apply count_space_head in Hu.
  - intros He. rewrite <- (take_drop a s). apply Forall_app. split; [apply count_space_take|].
    fold d. specialize (Hm0 He). destruct m as [|? ?]; [|done]. rewrite Hdm. simpl.
    unfold post. apply Forall_reverse, count_space_take.
Qed.

Lemma TrimSpace_spec es r : TrimSpace (Some es) = Some r ->
  exists pre post, es_String es = pre ++ es_String r ++ post /\
    Forall spacep pre /\ Forall spacep post /\
    (forall u, head (es_String r) = Some u -> is_space u = false) /\
    (forall u, last (es_String r) = Some u -> is_space u = false) /\
    same_styles es (Z.of_nat (length pre)) r.
Proof.
  cbn [TrimSpace]. destruct (trim_cut (es_String es)) as (pre & post & E1 & E2 & E3 & E4 & E5 & E6 & E7 & E8).
  set (a := count_space (es_String es)) in *.
  set (e := (length (es_String es) - count_space (reverse (drop a (es_String es))))%nat) in *.
  destruct (Nat.eqb_spec e a) as [He|He]; [intros [= <-]|destruct (_ && _) eqn:Ec; intros [= <-]].
  - exists (es_String es), []. simpl. rewrite app_nil_r. split_and!; try done; [by apply E8|].
    intros j Hj. unfold es_len in Hj. simpl in Hj. lia.
  - apply andb_true_iff in Ec as [Ec1 Ec2]. apply Nat.eqb_eq in Ec1, Ec2.
    rewrite Ec1, Ec2 in *. rewrite Nat.sub_0_r, drop_0, take_ge in E6, E7 by lia.
    exists [], []. simpl. rewrite app_nil_r. split_and!; done.
  - exists pre, post. cbn [es_String]. split_and!; [done..|]. rewrite E2.
    assert (Hm : length (take (e - a) (drop a (es_String es))) = (e - a)%nat)
      by (rewrite length_take, length_drop; lia).
    intros j Hj. unfold es_len in Hj. cbn [es_String] in Hj. rewrite Hm in Hj.
    unfold styles. cbn [es_Entities]. induction (es_Entities es) as [|x l IH]; [done|].
    cbn [map]. rewrite filter_cons. rewrite (covering_cons x).
    set (x' := TruncateEnd (Offset x (- Z.of_nat a)) (Z.of_nat e)).
    assert (Hv : Value x' = Value x) by (unfold x', TruncateEnd; by destruct (_ <? _)).
    assert (Hc : contains x (Z.of_nat a + j) = (0 <? Length x') && contains x' j).
    { unfold x', contains, TruncateEnd, Offset, End_. simpl.
      destruct (Z.ltb_spec (Z.of_nat e) (Start x + - Z.of_nat a + Length x)); simpl; lia. }
    rewrite Hc. case_decide as Hl.
    + rewrite covering_cons, Hv. replace (0 <? Length x') with true by lia. rewrite andb_true_l. by rewrite IH.
    + replace (0 <? Length x') with false by lia. exact IH.
Qed.

(** ** Conversion of documents without panics *)

(** What [math.Log10] promises of positive [int]s. *)
Class HTMLLaws (H : HTMLEnv) : Prop := {
  log10_digits_range num : 0 < num < 2 ^ 63 -> 1 <= log10_digits num <= 20
}.

Definition node_tag (n : node) : bytes :=
  match n with
  | TextNode _ => str "text"
  | ElementNode tag _ _ => tag
  | DocumentNode _ => str "html"
  | OtherNode _ => str "unknown"
  end.

(** Which nodes convert to a non-nil string. *)
Fixpoint nonnil (n : node) : bool :=
  match n with
  | TextNode _ | OtherNode _ => true
  | DocumentNode kids => existsb (fun k => isBlockTag (node_tag k) || nonnil k) kids
  | ElementNode tag _ kids =>
      let inner := existsb (fun k => isBlockTag (node_tag k) || nonnil k) kids in
      if beqb tag (str "blockquote") then true
      else if tag_in ["ol"; "ul"]%string tag then true
      else if tag_in ["h1"; "h2"; "h3"; "h4"; "h5"; "h6"]%string tag then true
      else if beqb tag (str "br") then true
      else if tag_in ["b"; "strong"; "i"; "em"; "s"; "strike"; "del"; "u"; "ins"; "tt"; "code"]%string tag then inner
      else if tag_in ["span"; "font"]%string tag then inner
      else if beqb tag (str "a") then inner
      else if beqb tag (str "p") then inner
      else if beqb tag (str "hr") then true
      else if beqb tag (str "pre") then true
      else inner
  end.

Definition inner_nonnil (kids : list node) : bool :=
  existsb (fun k => isBlockTag (node_tag k) || nonnil k) kids.

(** The [start] attribute of an ordered list stays inside the [int] range. *)
Definition start_ok (attrs : list (bytes * bytes)) (items : nat) : bool :=
  let start := getAttribute attrs (str "start") in
  let counter := match start with [] => 1 | _ => Decimal.atoi_value start end in
  (- 2 ^ 63 + 2 <=? counter) && (counter + Z.of_nat items <? 2 ^ 63).

(** Documents without the constructs that panic: empty elements inside
    headers and preformatted blocks, links around nothing, and ordered lists
    that count from the smallest [int]. *)
Fixpoint safe (n : node) : bool :=
  match n with
  | TextNode _ | OtherNode _ => true
  | DocumentNode kids => forallb safe kids
  | ElementNode tag attrs kids =>
      forallb safe kids &&
      (if beqb tag (str "blockquote") then true
       else if tag_in ["ol"; "ul"]%string tag then negb (beqb tag (str "ol")) || start_ok attrs (length kids)
       else if tag_in ["h1"; "h2"; "h3"; "h4"; "h5"; "h6"]%string tag then forallb nonnil kids
       else if beqb tag (str "br") then true
       else if tag_in ["b"; "strong"; "i"; "em"; "s"; "strike"; "del"; "u"; "ins"; "tt"; "code"]%string tag then true
       else if tag_in ["span"; "font"]%string tag then true
       else if beqb tag (str "a") then beqb (getAttribute attrs (str "href")) [] || inner_nonnil kids
       else if beqb tag (str "p") then true
       else if beqb tag (str "hr") then true
       else if beqb tag (str "pre") then
         match kids with
         | ElementNode ctag _ gkids :: _ =>
             if beqb ctag (str "code") then forallb nonnil gkids else forallb nonnil kids
         | _ => forallb nonnil kids
         end
       else true)
  end.

Definition issome {A} (o : option A) : bool := match o with Some _ => true | None => false end.

(** Induction on nodes, with the hypothesis for children and grandchildren. *)
Lemma node_ind2 (P : node -> Prop) :
  (forall data, P (TextNode data)) ->
  (forall tag attrs kids, Forall P kids ->
    Forall (fun k => match k with ElementNode _ _ gk => Forall P gk | _ => True end) kids ->
    P (ElementNode tag attrs kids)) ->
  (forall kids, Forall P kids -> P (DocumentNode kids)) ->
  (forall kids, P (OtherNode kids)) -> forall n, P n.
Proof.
  intros HT HE HD HO.
  assert (Hn : forall n, P n /\ match n with ElementNode _ _ gk => Forall P gk | _ => True end).
  { fix IH 1. intros [data|tag attrs kids|kids|kids].
    - split; [apply HT|exact I].
    - assert (Hk : Forall (fun n => P n /\ match n with ElementNode _ _ gk => Forall P gk | _ => True end) kids).
      { induction kids as [|k kids IHk]; constructor; [apply IH|exact IHk]. }
      assert (H1 : Forall P kids) by (eapply Forall_impl; [exact Hk|]; simpl; tauto).
      split; [|exact H1]. apply HE; [exact H1|]. eapply Forall_impl; [exact Hk|]. simpl. tauto.
    - split; [|exact I]. apply HD.
      induction kids as [|k kids IHk]; constructor; [apply IH|exact IHk].
    - split; [apply HO|exact I]. }
  intros n. apply Hn.
Qed.

Lemma join_ok w l : forallb issome l = true -> exists es, JoinEntityString w l = Ok es.
Proof.
  intros Hl. unfold JoinEntityString.
  assert (Hm : exists ss, omapM (fun p : esptr => match p with Some s => Ok s | None => Panic end : outcome Empty_set _) l = Ok ss).
  { induction l as [|[s|] l IH]; simpl in *; [eauto| |done]. destruct (IH Hl) as [ss ->]. simpl. eauto. }
  destruct Hm as [ss ->]. simpl. eauto.
Qed.

Lemma TrimSpace_issome p : issome (TrimSpace p) = issome p.
Proof.
  destruct p as [es|]; [|done]. cbn [TrimSpace]. destruct (_ =? _)%nat; [done|]. by destruct (_ && _).
Qed.

Lemma Append_issome p q : issome (Append p q) = issome p || issome q.
Proof. by destruct p, q. Qed.

Lemma AppendString_issome p q : issome (AppendString p q) = true.
Proof. destruct p; [|done]. by destruct q. Qed.

Lemma Format_issome p v : issome (es_Format p v) = issome p.
Proof. by destruct p. Qed.

Lemma tagAware_issome strs :
  issome (tagAware strs) = existsb (fun s => isBlockTag s.2 || issome s.1) strs.
Proof.
  unfold tagAware. rewrite TrimSpace_issome.
  assert (Hg : forall o, issome (fold_left tag_aware_step strs o) =
    issome o || existsb (fun s => isBlockTag s.2 || issome s.1) strs); [|by rewrite Hg].
  induction strs as [|s strs IH]; intros o; simpl; [by rewrite orb_false_r|].
  rewrite IH, orb_assoc. f_equal. unfold tag_aware_step.
  destruct o as [e|], (isBlockTag s.2); cbn match; rewrite ?Append_issome, ?AppendString_issome; done.
Qed.

Lemma basicFormat_issome tag s : issome (basicFormat tag s) = issome s.
Proof. unfold basicFormat. repeat (destruct (tag_in _ _); [by rewrite ?Format_issome|]). done. Qed.

Lemma spanFormat_issome tag attrs s : issome (spanFormat tag attrs s) = issome s.
Proof.
  unfold spanFormat. destruct (beqb _ _); [|done].
  destruct (maybeGetAttribute _ _); [by rewrite Format_issome|done].
Qed.

Lemma blockquote_ok s : exists es, blockquoteFormat s = Ok es.
Proof.
  unfold blockquoteFormat.
  assert (Hs : exists parts, Split (TrimSpace s) 10 = Ok parts).
  { unfold Split. change (127 <? 10) with false. cbn iota. destruct (TrimSpace s) as [es|]; [|eauto].
    destruct (split_loop _ _ _ _ _). destruct (_ =? 0); [eauto|]. destruct (negb _); eauto. }
  destruct Hs as [parts ->]. cbn [obind]. apply join_ok. by induction parts.
Qed.

Section NoPanic.
Context `{H : HTMLEnv} `{L : !HTMLLaws H}.

Lemma digits_ok num : - 2 ^ 63 < num < 2 ^ 63 -> exists d, digits_or_crash num = Ok d /\ 1 <= d <= 21.
Proof.
  intros Hn. unfold digits_or_crash. cbn [Digits].
  destruct (Z.eqb_spec num 0); [eexists; split; [done|lia]|].
  destruct (Z.ltb_spec num 0).
  - unfold int64. rewrite swrap_small by (change (64 - 1) with 63; lia).
    replace (- num =? 0) with false by lia. replace (- num <? 0) with false by lia.
    cbn. eexists. split; [done|]. pose proof (log10_digits_range (- num) ltac:(lia)). lia.
  - eexists. split; [done|]. pose proof (log10_digits_range num ltac:(lia)). lia.
Qed.

Lemma spaces_ok n : 0 <= n -> exists s, spaces n = Ok s.
Proof.
  intros Hn. unfold spaces, Strings.repeat_str. replace (n <? 0) with false by lia. eauto.
Qed.

Lemma list_items_ok ordered il indent items : forall counter,
  (ordered = true -> - 2 ^ 63 < counter /\ counter + Z.of_nat (length items) < 2 ^ 63) ->
  exists l, list_items ordered il indent items counter = Ok l /\ forallb issome l = true.
Proof.
  induction items as [|[child tag] items IH]; intros counter Hc; [eauto|]. cbn [list_items].
  cbn [length] in Hc. destruct (negb _).
  { apply IH. intros Ho. specialize (Hc Ho). lia. }
  assert (Hp : exists prefix, (if ordered then
      let! d := digits_or_crash counter in
      let! pad := spaces (Z.max 0 (int64 (il - d))) in
      Ok (Decimal.itoa counter ++ str ". " ++ pad) else Ok (str "* ") : outcome Empty_set bytes) = Ok prefix).
  { destruct ordered; [|eauto]. specialize (Hc eq_refl).
    destruct (digits_ok counter ltac:(lia)) as (d & -> & Hd). cbn [obind].
    destruct (spaces_ok (Z.max 0 (int64 (il - d))) ltac:(lia)) as [pad ->]. cbn. eauto. }
  destruct Hp as [prefix ->]. cbn [obind].
  assert (Hs : exists parts, Split (Append (Some (NewEntityString prefix)) child) 10 = Ok parts).
  { unfold Split. change (127 <? 10) with false. cbn iota. destruct (Append _ _) as [es|]; [|eauto].
    destruct (split_loop _ _ _ _ _). destruct (_ =? 0); [eauto|]. destruct (negb _); eauto. }
  destruct Hs as [parts ->]. cbn [obind].
  destruct (IH (int64 (counter + 1))) as (rest & -> & Hrest).
  { intros Ho. specialize (Hc Ho). unfold int64. rewrite swrap_small by (change (64 - 1) with 63; lia). lia. }
  cbn [obind]. eexists. split; [done|]. rewrite forallb_app, Hrest, andb_true_r.
  destruct parts as [|p ps]; [done|]. simpl. induction ps as [|q qs IHq]; [done|]. simpl. by rewrite IHq.
Qed.

Lemma listToString_ok ordered attrs items :
  (ordered = true -> start_ok attrs (length items) = true) ->
  exists es, listToString ordered attrs items = Ok es.
Proof.
  intros Hs. unfold listToString. unfold start_ok in Hs. revert Hs.
  generalize (match getAttribute attrs (str "start") with [] => 1 | _ => Decimal.atoi_value (getAttribute attrs (str "start")) end).
  intros counter Hs'. cbv zeta.
  assert (Hs : ordered = true -> - 2 ^ 63 + 2 <= counter /\ counter + Z.of_nat (length items) < 2 ^ 63).
  { intros Ho. specialize (Hs' Ho). apply andb_true_iff in Hs' as [?%Z.leb_le ?%Z.ltb_lt]. done. }
  clear Hs'.
  assert (Hi : exists il, (if ordered then digits_or_crash (int64 (int64 ((if ordered then counter else 1) - 1) + Z.of_nat (length items))) else Ok 0)
    = Ok il /\ 0 <= il <= 21).
  { destruct ordered; [|eexists; split; [done|lia]]. specialize (Hs eq_refl).
    unfold int64. rewrite (swrap_small 64 (counter - 1)) by (change (64 - 1) with 63; lia).
    rewrite swrap_small by (change (64 - 1) with 63; lia).
    destruct (digits_ok (counter - 1 + Z.of_nat (length items)) ltac:(lia)) as (d & -> & Hd).
    exists d. split; [done|lia]. }
  destruct Hi as (il & -> & Hil). cbn [obind].
  assert (int64 (il + 2) = il + 2) as -> by (unfold int64; apply swrap_small; change (64 - 1) with 63; lia).
  destruct (spaces_ok (il + 2) ltac:(lia)) as [indent ->]. cbn [obind].
  destruct (list_items_ok ordered il indent items (if ordered then counter else 1)) as (l & -> & Hl).
  { intros ->. specialize (Hs eq_refl). lia. }
  cbn [obind]. by apply join_ok.
Qed.

Lemma linkFormat_ok attrs ctx s :
  beqb (getAttribute attrs (str "href")) [] || issome s = true ->
  exists r, linkFormat attrs ctx s = Ok r /\ issome r = issome s.
Proof.
  intros Hs. unfold linkFormat. destruct (getAttribute attrs (str "href")) as [|h t]; [eauto|].
  change (beqb (h :: t) []) with false in Hs. destruct s as [es|]; [|done].
  destruct (ParseMatrixUser (h :: t)) as [mxid|].
  - destruct (match AllowedMentions ctx with Some _ => _ | None => _ end); [eauto|].
    destruct (bool_decide _); [eauto|]. cbn. eauto.
  - cbn [es_text obind]. destruct (beqb _ _); [eauto|]. eexists. split; [done|]. apply AppendString_issome.
Qed.

Definition converts (n : node) : Prop := forall ctx, safe n = true ->
  exists s, singleNodeToString n ctx = Ok (s, node_tag n) /\ issome s = nonnil n.

Lemma convert_kids kids ctx : Forall converts kids -> forallb safe kids = true ->
  exists strs, omapM (fun c => singleNodeToString c ctx) kids = Ok strs /\
    map snd strs = map node_tag kids /\ map (fun s => issome s.1) strs = map nonnil kids.
Proof.
  induction 1 as [|k kids Hk Hkids IH]; intros Hs; [eexists; split_and!; done|].
  apply andb_true_iff in Hs as [Hs1 Hs2]. destruct (Hk ctx Hs1) as (s & E1 & E2).
  destruct (IH Hs2) as (strs & E3 & E4 & E5). exists ((s, node_tag k) :: strs).
  simpl. rewrite E1, E3. simpl. split_and!; [done|by rewrite E4|by rewrite E2, E5].
Qed.

Lemma aware_nonnil strs kids : map snd strs = map node_tag kids ->
  map (fun s : TaggedString => issome s.1) strs = map nonnil kids ->
  issome (tagAware strs) = inner_nonnil kids.
Proof.
  rewrite tagAware_issome. unfold inner_nonnil. revert kids.
  induction strs as [|s strs IH]; intros [|k kids] H1 H2; try done. simpl in *.
  injection H1 as E1 H1. injection H2 as E2 H2. by rewrite E1, E2, (IH kids H1 H2).
Qed.

Lemma join_kids strs kids : map (fun s : TaggedString => issome s.1) strs = map nonnil kids ->
  forallb nonnil kids = true -> exists es, JoinEntityString [] (map fst strs) = Ok es.
Proof.
  intros H1 H2. apply join_ok. revert kids H1 H2.
  induction strs as [|s strs IH]; intros [|k kids] H1 H2; try done. simpl in *.
  injection H1 as E1 H1. rewrite E1. apply andb_true_iff in H2 as [-> H2]. simpl. eauto.
Qed.

Lemma converts_all n : converts n.
Proof.
  induction n as [data|tag attrs kids IH IHg|kids IH|kids] using node_ind2; intros ctx Hs.
  - eexists. split; [done|]. done.
  - cbn [safe] in Hs. apply andb_true_iff in Hs as [Hk Hx].
    cbn [singleNodeToString nonnil node_tag]. fold (inner_nonnil kids).
    destruct (convert_kids kids (WithTag ctx tag) IH Hk) as (strs & E1 & E2 & E3). rewrite E1. clear E1.
    pose proof (aware_nonnil strs kids E2 E3) as Ha. cbn [outmap obind].
    assert (Hlen : length strs = length kids) by (rewrite <- (length_map snd strs), E2; apply length_map).
    destruct (beqb tag (str "blockquote")).
    { destruct (blockquote_ok (tagAware strs)) as [es ->]. cbn. eexists. split; [done|]. done. }
    destruct (tag_in ["ol"; "ul"]%string tag).
    { destruct (listToString_ok (beqb tag (str "ol")) attrs strs) as [es ->].
      - intros Ho. rewrite Ho in Hx. simpl in Hx. by rewrite Hlen.
      - cbn. eexists. split; [done|]. done. }
    destruct (tag_in ["h1"; _; _; _; _; _]%string tag).
    { destruct (join_kids strs kids E3 Hx) as [es ->]. cbn. eexists. split; [done|]. done. }
    destruct (beqb tag (str "br")); [cbn; eauto|].
    destruct (tag_in ["b"; _; _; _; _; _; _; _; _; _; _]%string tag).
    { cbn. eexists. split; [done|]. by rewrite basicFormat_issome. }
    destruct (tag_in ["span"; _]%string tag).
    { cbn. eexists. split; [done|]. by rewrite spanFormat_issome. }
    destruct (beqb tag (str "a")).
    { destruct (linkFormat_ok attrs (WithTag ctx tag) (tagAware strs)) as (r & -> & Hr); [by rewrite Ha|].
      cbn. eexists. split; [done|]. by rewrite Hr. }
    destruct (beqb tag (str "p")); [cbn; eauto|].
    destruct (beqb tag (str "hr")); [cbn; eauto|].
    destruct (beqb tag (str "pre")); [|cbn; eauto].
    assert (Hws : forall lang ks, Forall converts ks -> forallb safe ks = true -> forallb nonnil ks = true ->
      exists s, (let! s := (let! strs := omapM (fun c => singleNodeToString c (WithWhitespace (WithTag ctx tag))) ks in
                 let! inner := JoinEntityString [] (map fst strs) in Ok (preFormat lang inner)) in Ok (s, tag))
        = Ok (s, tag) /\ issome s = true).
    { intros lang ks K1 K2 K3. destruct (convert_kids ks (WithWhitespace (WithTag ctx tag)) K1 K2) as (ss & -> & _ & F3).
      cbn [obind]. destruct (join_kids ss ks F3 K3) as [es ->]. cbn [obind]. eexists. split; [done|].
      apply AppendString_issome. }
    destruct kids as [|[data|ctag cattrs gkids|gkids|gkids] kids']; try by apply Hws.
    destruct (beqb ctag (str "code")); [|by apply Hws].
    apply Hws; [by apply Forall_inv in IHg| |done].
    simpl in Hk. by apply andb_true_iff in Hk as [[Hk _]%andb_true_iff _].
  - cbn [singleNodeToString nonnil node_tag]. destruct (convert_kids kids ctx IH Hs) as (strs & -> & E2 & E3).
    cbn. eexists. split; [done|]. by apply aware_nonnil.
  - eexists. split; [done|]. done.
Qed.

End NoPanic.

(** ** Every entity of a converted document has a value *)

Definition es_valued (es : EntityString) : Prop := Forall (fun r => is_Some (Value r)) (es_Entities es).
Definition pv (p : esptr) : Prop := match p with Some es => es_valued es | None => True end.

Lemma valued_same (f : BodyRange -> BodyRange) l : (forall r, Value (f r) = Value r) ->
  Forall (fun r => is_Some (Value r)) l -> Forall (fun r => is_Some (Value r)) (map f l).
Proof. intros Hf Hl. apply Forall_fmap. eapply Forall_impl; [exact Hl|]. simpl. intros r. by rewrite Hf. Qed.

Lemma TruncateEnd_value r e : Value (TruncateEnd r e) = Value r.
Proof. unfold TruncateEnd. by destruct (_ <? _). Qed.

Lemma TruncateStart_value r e : Value (TruncateStart r e) = Value r.
Proof. unfold TruncateStart. by destruct (_ <? _). Qed.

Lemma new_pv v : pv (Some (NewEntityString v)).
Proof. apply Forall_nil_2. Qed.

Lemma append_pv p q : pv p -> pv q -> pv (Append p q).
Proof.
  destruct p as [a|], q as [b|]; simpl; try done. unfold es_valued. simpl. intros Ha Hb.
  apply Forall_app. split; [done|]. by apply valued_same.
Qed.

Lemma append_string_pv p v : pv p -> pv (AppendString p v).
Proof. destruct p as [a|]; simpl; [|intros _; apply new_pv]. by destruct v. Qed.

Lemma format_pv p v : pv p -> pv (es_Format p v).
Proof. destruct p as [a|]; simpl; [|done]. intros Ha. apply Forall_cons. split; [eauto|exact Ha]. Qed.

Lemma trim_pv p : pv p -> pv (TrimSpace p).
Proof.
  destruct p as [a|]; [|done]. intros Ha. cbn [TrimSpace].
  destruct (_ =? _)%nat; [apply new_pv|]. destruct (_ && _); [done|]. unfold pv, es_valued. simpl.
  assert (Hm : Forall (fun r => is_Some (Value r)) (map (fun ent => TruncateEnd (Offset ent
    (- Z.of_nat (count_space (es_String a)))) (Z.of_nat (length (es_String a) -
      count_space (reverse (drop (count_space (es_String a)) (es_String a)))))) (es_Entities a))).
  { apply valued_same; [|exact Ha]. intros r. by rewrite TruncateEnd_value. }
  rewrite Forall_forall in Hm |- *. intros r Hr. apply Hm. by apply list_elem_of_filter in Hr as [_ Hr].
Qed.

Lemma doSplit_pv es prev i : es_valued es -> es_valued (doSplit es prev i).
Proof.
  intros Hes. unfold es_valued, doSplit. cbn [es_Entities]. apply Forall_forall. intros r Hr.
  apply list_elem_of_omap in Hr as (r0 & Hr0 & Hr). unfold es_valued in Hes. rewrite Forall_forall in Hes.
  specialize (Hes r0 Hr0). split_matches_in Hr. injection Hr as <-. cbn [Offset Value].
  by rewrite TruncateEnd_value, TruncateStart_value.
Qed.

Lemma split_loop_pv es at_ rest : forall i prev out last, es_valued es ->
  split_loop es at_ rest i prev = (out, last) -> Forall es_valued out.
Proof.
  induction rest as [|c rest IH]; intros i prev out last Hes Hs; simpl in Hs.
  { injection Hs as <- _. constructor. }
  destruct (c =? at_); [|by eapply IH].
  destruct (split_loop es at_ rest (i + 1) (i + 1)) as [out' last'] eqn:E. injection Hs as <- <-.
  constructor; [by apply doSplit_pv|]. by eapply IH.
Qed.

Lemma Split_pv p at_ parts : pv p -> Split p at_ = Ok parts -> Forall es_valued parts.
Proof.
  unfold Split. intros Hp. destruct (127 <? at_); [done|]. destruct p as [es|]; [|by intros [= <-]].
  destruct (split_loop _ _ _ _ _) as [out last] eqn:E. apply split_loop_pv in E; [|done].
  destruct (last =? 0); [intros [= <-]; by constructor|].
  destruct (negb _); intros [= <-]; [|done]. apply Forall_app. split; [done|].
  constructor; [by apply doSplit_pv|constructor].
Qed.

Lemma join_pv w l es : Forall pv l -> JoinEntityString w l = Ok es -> es_valued es.
Proof.
  intros Hl H. unfold JoinEntityString in H. apply obind_Ok_inv in H as (ss & Hss & H). injection H as <-.
  assert (Hv : Forall es_valued ss).
  { apply omapM_Ok in Hss. induction Hss as [|p s l ss Hps Hss IH]; [constructor|].
    apply Forall_cons in Hl as [Hp Hl]. destruct p; [|done]. injection Hps as ->. constructor; auto. }
  clear Hss Hl.
  assert (Hg : forall acc, es_valued acc -> es_valued (fold_left (join_step (NewUTF16String w)) ss acc)).
  { induction Hv as [|s ss Hs _ IH]; intros acc Hacc; [done|]. cbn [fold_left]. apply IH.
    unfold join_step. destruct (es_String s) eqn:E; [done|]. unfold es_valued. cbn [es_Entities].
    apply Forall_app. split; [done|]. by apply valued_same. }
  apply Hg. constructor.
Qed.

Section Valued.
Context `{H : HTMLEnv}.

Lemma tagAware_pv strs : Forall (fun s : TaggedString => pv s.1) strs -> pv (tagAware strs).
Proof.
  intros Hs. unfold tagAware. apply trim_pv.
  assert (Hg : forall o, pv o -> pv (fold_left tag_aware_step strs o)); [|by apply Hg].
  induction Hs as [|s strs Hs _ IH]; intros o Ho; [done|]. cbn [fold_left]. apply IH.
  assert (Ht : pv (if isBlockTag s.2 then AppendString (Append (Some (NewEntityString [x0a])) s.1) [x0a] else s.1)).
  { destruct (isBlockTag s.2); [|done]. apply append_string_pv, append_pv; [apply new_pv|done]. }
  unfold tag_aware_step. destruct o; [by apply append_pv|done].
Qed.

Lemma list_items_pv ordered il indent items : forall counter l,
  Forall (fun s : TaggedString => pv s.1) items ->
  list_items ordered il indent items counter = Ok l -> Forall pv l.
Proof.
  induction items as [|[child tag] items IH]; intros counter l Hi Hl; cbn [list_items] in Hl; inv_ok; [constructor|].
  apply Forall_cons in Hi as [Hc Hi]. destruct (negb _); [by eapply IH|]. inv_ok.
  apply Split_pv in Hok0; [|apply append_pv; [apply new_pv|done]].
  apply Forall_app. split; [|by eapply IH].
  destruct Hok0 as [|p ps Hp Hps]; [constructor|]. constructor; [done|].
  apply Forall_fmap. eapply Forall_impl; [exact Hps|]. intros q Hq. apply (append_pv (Some (NewEntityString indent)) (Some q)); [apply new_pv|done].
Qed.

Lemma listToString_pv ordered start strs es : Forall (fun s : TaggedString => pv s.1) strs ->
  listToString ordered start strs = Ok es -> es_valued es.
Proof.
  intros Hs Hl. unfold listToString in Hl.
  apply obind_Ok_inv in Hl as (n & _ & Hl). apply obind_Ok_inv in Hl as (indent & _ & Hl).
  apply obind_Ok_inv in Hl as (children & Hc & Hl). eapply join_pv, Hl. by eapply list_items_pv.
Qed.

Lemma blockquote_pv s es : pv s -> blockquoteFormat s = Ok es -> es_valued es.
Proof.
  intros Hs Hb. unfold blockquoteFormat in Hb. inv_ok. apply Split_pv in Hok; [|by apply trim_pv].
  eapply join_pv; [|exact Hb]. apply Forall_fmap. eapply Forall_impl; [exact Hok|].
  intros q Hq. apply (append_pv (Some (NewEntityString (str "> "))) (Some q)); [apply new_pv|done].
Qed.

Lemma basic_pv tag s : pv s -> pv (basicFormat tag s).
Proof. intros Hs. unfold basicFormat. repeat (destruct (tag_in _ _); [by auto using format_pv|]). done. Qed.

Lemma span_pv tag attrs s : pv s -> pv (spanFormat tag attrs s).
Proof.
  intros Hs. unfold spanFormat. destruct (beqb _ _); [|done].
  destruct (maybeGetAttribute _ _); [by apply format_pv|done].
Qed.

Lemma link_pv attrs ctx s r : pv s -> linkFormat attrs ctx s = Ok r -> pv r.
Proof.
  intros Hs. unfold linkFormat. destruct (getAttribute attrs (str "href")) as [|h t]; [by intros [= <-]|].
  destruct (ParseMatrixUser _).
  - destruct (match AllowedMentions ctx with Some _ => _ | None => _ end); [by intros [= <-]|].
    destruct (bool_decide _); [by intros [= <-]|]. intros Hr. inv_ok. apply (format_pv (Some (NewEntityString object_replacement))), new_pv.
  - intros Hr. apply obind_Ok_inv in Hr as (text & _ & Hr).
    destruct (beqb _ _); injection Hr as <-; [done|]. by apply append_string_pv.
Qed.

Definition pv_node (n : node) : Prop := forall ctx s t, singleNodeToString n ctx = Ok (s, t) -> pv s.

Lemma pv_kids kids ctx strs : Forall pv_node kids ->
  omapM (fun c => singleNodeToString c ctx) kids = Ok strs -> Forall (fun s : TaggedString => pv s.1) strs.
Proof.
  intros Hk Hm. apply omapM_Ok in Hm. induction Hm as [|k [s t] kids strs Hs Hss IH]; [constructor|].
  apply Forall_cons in Hk as [Hk Hks]. constructor; [by eapply Hk|auto].
Qed.

Lemma join_tagged_pv strs es : Forall (fun s : TaggedString => pv s.1) strs ->
  JoinEntityString [] (map fst strs) = Ok es -> pv (Some es).
Proof. intros Hs Hj. eapply join_pv; [|exact Hj]. by apply Forall_fmap. Qed.

Lemma pre_pv lang kids ctx s : Forall pv_node kids ->
  (let! strs := omapM (fun c => singleNodeToString c ctx) kids in
   let! inner := JoinEntityString [] (map fst strs) in Ok (preFormat lang inner)) = Ok s -> pv s.
Proof.
  intros Hk Hs. inv_ok. apply append_string_pv, append_pv; [apply new_pv|].
  eapply join_tagged_pv; [|exact Hok0]. by eapply pv_kids.
Qed.

Lemma pv_all n : pv_node n.
Proof.
  induction n as [data|tag attrs kids IH IHg|kids IH|kids] using node_ind2; intros ctx s t Hs.
  - injection Hs as <- _. apply new_pv.
  - cbn [singleNodeToString] in Hs. apply obind_Ok_inv in Hs as (s' & Hs & E). injection E as -> _.
    assert (Hk : forall strs, omapM (fun c => singleNodeToString c (WithTag ctx tag)) kids = Ok strs ->
      Forall (fun s : TaggedString => pv s.1) strs) by (intros strs; by apply pv_kids).
    revert Hs Hk. generalize (omapM (fun c => singleNodeToString c (WithTag ctx tag)) kids). intros tagged Hs Hk.
    assert (Ha : forall o, outmap tagAware tagged = Ok o -> pv o).
    { intros o Ho. unfold outmap in Ho. inv_ok. apply tagAware_pv. by apply Hk. }
    destruct (beqb tag (str "blockquote")).
    { apply obind_Ok_inv in Hs as (o & Ho & Hs). apply outmap_Ok_inv in Hs as (es & Hs & ->).
      eapply (blockquote_pv o es); [by apply Ha|exact Hs]. }
    destruct (tag_in ["ol"; _]%string tag).
    { apply obind_Ok_inv in Hs as (strs & Ho & Hs). apply outmap_Ok_inv in Hs as (es & Hs & ->).
      eapply (listToString_pv _ _ strs es); [by apply Hk|exact Hs]. }
    destruct (tag_in ["h1"; _; _; _; _; _]%string tag).
    { apply obind_Ok_inv in Hs as (strs & Ho & Hs). apply obind_Ok_inv in Hs as (es & Hj & Hs).
      injection Hs as <-. apply format_pv, append_pv; [apply new_pv|]. eapply join_tagged_pv; [|exact Hj]. by apply Hk. }
    destruct (beqb tag (str "br")); [injection Hs as <-; apply new_pv|].
    destruct (tag_in ["b"; _; _; _; _; _; _; _; _; _; _]%string tag).
    { apply outmap_Ok_inv in Hs as (o & Hs & ->). apply basic_pv. by apply Ha. }
    destruct (tag_in ["span"; _]%string tag).
    { apply outmap_Ok_inv in Hs as (o & Hs & ->). apply span_pv. by apply Ha. }
    destruct (beqb tag (str "a")).
    { apply obind_Ok_inv in Hs as (o & Ho & Hs). eapply link_pv; [|exact Hs]. by apply Ha. }
    destruct (beqb tag (str "p")); [by apply Ha|].
    destruct (beqb tag (str "hr")); [injection Hs as <-; apply new_pv|].
    destruct (beqb tag (str "pre")); [|by apply Ha].
    destruct kids as [|[data|ctag cattrs gkids|gkids|gkids] kids']; try by eapply pre_pv.
    destruct (beqb ctag (str "code")); [|by eapply pre_pv].
    apply pre_pv in Hs; [done|]. by apply Forall_inv in IHg.
  - cbn [singleNodeToString] in Hs. apply obind_Ok_inv in Hs as (strs & Hok & Hs). injection Hs as <- _.
    apply tagAware_pv. by eapply pv_kids.
  - injection Hs as <- _. apply Forall_nil_2.
Qed.

Lemma protos_ok l : Forall (fun r => is_Some (Value r)) l -> exists ps, omapM BodyRange_Proto l = Ok ps.
Proof.
  induction 1 as [|r l [v Hv] Hl [ps IH]]; [eauto|]. simpl. unfold BodyRange_Proto at 1. rewrite Hv. simpl.
  rewrite IH. simpl. eauto.
Qed.

Context `{L : !HTMLLaws H}.

Lemma matrixfmt_Parse_ok content : safe (html_Parse (m_FormattedBody content)) = true ->
  exists body ranges, matrixfmt_Parse content = Ok (body, ranges).
Proof.
  intros Hs. unfold matrixfmt_Parse. destruct (negb _); [eauto|].
  unfold HTMLParser_Parse, nodeToTagAwareString, nodeToTaggedStrings, outmap.
  destruct (converts_all (html_Parse (m_FormattedBody content)) (mkCtx (m_Mentions content) [] false) Hs)
    as (s & E & _).
  cbn [omapM]. rewrite E. cbn [obind].
  pose proof (tagAware_pv [(s, node_tag (html_Parse (m_FormattedBody content)))]) as Hp.
  destruct (tagAware _) as [es|]; [|eauto].
  destruct (protos_ok (es_Entities es)) as [ps ->]; [|cbn; eauto].
  apply Hp. constructor; [|constructor]. by eapply pv_all.
Qed.

End Valued.

(** ** Properties *)

(** Concatenation and formatting of entity strings: [Append] keeps every
    range inside the text and every code unit keeps its styles, and [Format]
    adds its value, outermost, to every code unit. *)
Theorem entity_append_format a b v (Ha : es_wf a) (Hb : es_wf b) :
  (exists r, Append (Some a) (Some b) = Some r /\ es_String r = es_String a ++ es_String b /\ es_wf r /\
    forall i, styles r i = if i <? es_len a then styles a i else styles b (i - es_len a)) /\
  (exists r, es_Format (Some a) v = Some r /\ es_String r = es_String a /\ es_wf r /\
    forall i, 0 <= i < es_len a -> styles r i = Some v :: styles a i).
Proof.
  split; eexists; (split; [reflexivity|]); (split; [reflexivity|]).
  - by apply append_spec.
  - by apply format_spec.
Qed.

(** [Split] at an ASCII character cuts the text exactly at its
    occurrences: the parts follow each other in the text, none contains the
    separator, nothing is left over (an empty last part is dropped), and
    every part has its ranges inside its own text and the styles of the
    original. *)
Theorem entity_split es at_ (Hat : at_ <= 127) (Hes : es_wf es) :
  exists parts, Split (Some es) at_ = Ok parts /\ parts <> [] /\ laid es at_ 0 parts.
Proof. by apply Split_spec. Qed.

(** [TrimSpace] removes exactly the leading and trailing blanks, and
    every code unit that is kept keeps its styles. *)
Theorem entity_trim es r (Hr : TrimSpace (Some es) = Some r) :
  exists pre post, es_String es = pre ++ es_String r ++ post /\
    Forall spacep pre /\ Forall spacep post /\
    (forall u, head (es_String r) = Some u -> is_space u = false) /\
    (forall u, last (es_String r) = Some u -> is_space u = false) /\
    same_styles es (Z.of_nat (length pre)) r.
Proof. by apply TrimSpace_spec. Qed.

(** [TrimSpace] does not keep ranges inside the text: it truncates at the
    old end of the text instead of the new one, so trimming a blank on both
    sides of a well-formed string leaves a range that ends after the text. *)
Theorem entity_trim_overflows :
  let es := mkES [10; 35; 32; 97; 32; 10] [mkRange 1 4 (Some (Style StyleBold))] in
  es_wf es /\ TrimSpace (Some es) = Some (mkES [35; 32; 97] [mkRange 0 4 (Some (Style StyleBold))]) /\
  ~ es_wf (mkES [35; 32; 97] [mkRange 0 4 (Some (Style StyleBold))]).
Proof.
  split_and!; [|reflexivity|].
  - constructor; [|constructor]. unfold range_in, End_, es_len. simpl. lia.
  - intros Hw. apply Forall_inv in Hw. unfold range_in, End_, es_len in Hw. simpl in Hw. lia.
Qed.

Section DocumentClaims.
Context `{H : HTMLEnv}.

(** Conversion of Matrix HTML returns for every document without the
    constructs listed in [safe]: no nil pointer is dereferenced, no range
    lacks a value, and the recursion of [Digits] ends. *)
Theorem matrixfmt_no_panic `{!HTMLLaws H} content (Hs : safe (html_Parse (m_FormattedBody content)) = true) :
  exists body ranges, matrixfmt_Parse content = Ok (body, ranges).
Proof. by apply matrixfmt_Parse_ok. Qed.

(** Documents that crash the converter: an empty element inside a header
    (the nil string is dereferenced by [JoinEntityString]), a link to a web
    page around nothing, and an ordered list that starts at the smallest
    [int], for which [Digits] recurses forever. *)
Theorem matrixfmt_crashes ctx href (Hne : href <> []) (Hweb : ParseMatrixUser href = None) :
  singleNodeToString (ElementNode (str "h1") [] [ElementNode (str "b") [] []]) ctx = Panic /\
  singleNodeToString (ElementNode (str "a") [(str "href", href)] []) ctx = Panic /\
  (forall item, singleNodeToString
     (ElementNode (str "ol") [(str "start", str "-9223372036854775808")]
        [ElementNode (str "li") [] [TextNode item]]) ctx = Panic) /\
  (forall fuel, Digits fuel (- 2 ^ 63) = None).
Proof.
  assert (Hd : forall fuel, Digits fuel (- 2 ^ 63) = None).
  { induction fuel as [|n IH]; [done|]. cbn [Digits]. change (int64 (- - 2 ^ 63)) with (- 2 ^ 63). by rewrite IH. }
  split_and!; [reflexivity| |reflexivity|exact Hd].
  transitivity (obind (linkFormat [(str "href", href)] ctx None) (fun s => Ok (s, str "a"))); [reflexivity|].
  unfold linkFormat. change (getAttribute _ _) with href. destruct href as [|h t]; [done|]. by rewrite Hweb.
Qed.

End DocumentClaims.

(** ** Witnesses *)
#[local] Instance sample_html : HTMLEnv := {
  html_Parse s := DocumentNode [ElementNode (str "p") [] [TextNode s]];
  ParseMatrixUser _ := None;
  GetUUIDFromMXID _ := uuid_Nil;
  log10_digits num := Z.log2 num / 4 + 1
}.

#[local] Instance sample_html_laws : HTMLLaws sample_html.
Proof.
  split. intros num Hn. simpl. pose proof (Z.log2_nonneg num).
  assert (Z.log2 num < 63) by (apply Z.log2_lt_pow2; lia). lia.
Qed.

Definition sample_es : EntityString := mkES [72; 10; 105] [mkRange 0 3 (Some (Style StyleBold))].

Lemma sample_es_wf : es_wf sample_es.
Proof. constructor; [|constructor]. unfold range_in, End_, es_len. simpl. lia. Qed.

Lemma entity_append_format_witness :
  exists r, Append (Some sample_es) (Some sample_es) = Some r /\ styles r 4 = [Some (Style StyleBold)].
Proof.
  destruct (entity_append_format sample_es sample_es (Style StyleItalic) sample_es_wf sample_es_wf)
    as [(r & E & _ & _ & Hs) _].
  exists r. split; [exact E|]. rewrite Hs. reflexivity.
Defined.

Lemma entity_split_witness :
  exists parts, Split (Some sample_es) 10 = Ok parts /\ laid sample_es 10 0 parts.
Proof.
  destruct (entity_split sample_es 10 ltac:(lia) sample_es_wf) as (parts & E & _ & Hl).
  exists parts. split; [exact E|exact Hl].
Defined.

Lemma entity_trim_witness :
  exists r, TrimSpace (Some (mkES [32; 97] [])) = Some r /\ es_String r = [97] /\
    forall u, head (es_String r) = Some u -> is_space u = false.
Proof.
  exists (mkES [97] []). split; [reflexivity|]. split; [reflexivity|].
  destruct (entity_trim (mkES [32; 97] []) (mkES [97] []) eq_refl) as (pre & post & _ & _ & _ & Hh & _).
  exact Hh.
Defined.

Lemma matrixfmt_no_panic_witness :
  exists body ranges, matrixfmt_Parse (mkMC true [] (str "hello") None) = Ok (body, ranges).
Proof. apply (matrixfmt_no_panic (mkMC true [] (str "hello") None)). reflexivity. Defined.

Lemma matrixfmt_crashes_witness :
  singleNodeToString (ElementNode (str "a") [(str "href", str "https://example.com")] []) NewContext = Panic.
Proof. apply (matrixfmt_crashes NewContext (str "https://example.com")); [discriminate|reflexivity]. Defined.
