(* ===== verification/Crypto.v ===== *)
(** Symmetric cryptography as the bridge uses it.

    The primitives of [crypto/...] and [x/crypto/hkdf] are a typeclass,
    [CryptoLib], with their documented contracts in [CryptoLaws]: a block
    cipher whose two directions are inverse, an authenticated cipher that
    opens exactly what it sealed, hashes of fixed size.  The modes of
    operation the code drives by hand, CBC (whose state survives from one
    call of [CryptBlocks] to the next) and CTR, are defined here over the
    block cipher.  On top of them the file models the helpers of
    [pkg/signalmeow/profile.go], [encryptStorageBlob] of [storagewrite.go]
    and [UnpadPKCS7] of [provisioning_cipher.go]. *)
From Stdlib Require Import ZifyNat.
From S2P Require Import Prelude GoLib.

Class CryptoLib : Type := {
  sha256 : bytes -> bytes;
  hmac_sha256 : bytes -> bytes -> bytes;
  (** secret, salt, info, number of bytes read *)
  hkdf_sha256 : bytes -> bytes -> bytes -> nat -> bytes;
  (** one block of AES under a key of a valid size *)
  aes_encrypt : bytes -> bytes -> bytes;
  aes_decrypt : bytes -> bytes -> bytes;
  (** AES-GCM with a 16-byte tag and no additional data: key, nonce, data *)
  gcm_seal : bytes -> bytes -> bytes -> bytes;
  gcm_open : bytes -> bytes -> bytes -> option bytes
}.

Definition aes_BlockSize : nat := 16.

(** Key sizes accepted by [aes.NewCipher]. *)
Definition aes_key_ok (key : bytes) : bool :=
  (length key =? 16)%nat || (length key =? 24)%nat || (length key =? 32)%nat.

Class CryptoLaws (C : CryptoLib) : Prop := {
  sha256_length m : length (sha256 m) = 32%nat;
  hmac_length k m : length (hmac_sha256 k m) = 32%nat;
  hkdf_length s salt info n : length (hkdf_sha256 s salt info n) = n;
  aes_encrypt_length k b : aes_key_ok k = true -> length b = 16%nat -> length (aes_encrypt k b) = 16%nat;
  aes_decrypt_length k b : aes_key_ok k = true -> length b = 16%nat -> length (aes_decrypt k b) = 16%nat;
  aes_decrypt_encrypt k b : aes_key_ok k = true -> length b = 16%nat -> aes_decrypt k (aes_encrypt k b) = b;
  gcm_seal_length k n p : length (gcm_seal k n p) = (length p + 16)%nat;
  gcm_open_seal k n p : aes_key_ok k = true -> length n = 12%nat -> gcm_open k n (gcm_seal k n p) = Some p;
  gcm_open_auth k n c p : gcm_open k n c = Some p -> c = gcm_seal k n p
}.

(** [go.mau.fi/util/random]: the [i]-th draw of the run, of the given length. *)
Class Random : Type := { random_Bytes : nat -> nat -> bytes }.
Class RandomLaws (R : Random) : Prop := { random_length i n : length (random_Bytes i n) = n }.

Inductive crypto_error :=
| KeySizeError
| OpenFailed
| InvalidEncryptedLength
| PlaintextTooLong
| EmptyData
| InvalidPadding.

(** ** Exclusive or *)

Definition xor_byte (a b : byte) : byte := z2b (Z.lxor (b2z a) (b2z b)).
Definition xor_bytes (a b : bytes) : bytes := zip_with xor_byte a b.

Lemma lxor_byte_range a b : 0 <= Z.lxor (b2z a) (b2z b) < 256.
Proof.
  pose proof (b2z_range a) as Ha. pose proof (b2z_range b) as Hb.
  assert (H0 : 0 <= Z.lxor (b2z a) (b2z b)) by (apply Z.lxor_nonneg; lia).
  split; [done|]. destruct (Z.eq_dec (Z.lxor (b2z a) (b2z b)) 0) as [->|Hn]; [lia|].
  change 256 with (2 ^ 8). apply Z.log2_lt_pow2; [lia|].
  eapply Z.le_lt_trans; [apply Z.log2_lxor; lia|].
  apply Z.max_lub_lt; (eapply Z.le_lt_trans; [apply Z.log2_le_mono with (b := 255); lia|done]).
Qed.

Lemma xor_byte_involutive a b : xor_byte (xor_byte a b) b = a.
Proof.
  unfold xor_byte. rewrite (b2z_z2b_small (Z.lxor (b2z a) (b2z b))) by apply lxor_byte_range.
  by rewrite Z.lxor_assoc, Z.lxor_nilpotent, Z.lxor_0_r, z2b_b2z.
Qed.

Lemma xor_bytes_length a b : length a = length b -> length (xor_bytes a b) = length a.
Proof. intros H. unfold xor_bytes. rewrite length_zip_with. lia. Qed.

Lemma xor_bytes_involutive a : forall b, (length a <= length b)%nat -> xor_bytes (xor_bytes a b) b = a.
Proof.
  induction a as [|x a IH]; intros [|y b] Hl; simpl in *; try done; [lia|].
  unfold xor_bytes in *. simpl. rewrite xor_byte_involutive, IH by lia. done.
Qed.

(** ** Blocks *)

Fixpoint blocks (n : nat) (l : bytes) : list bytes :=
  match n with
  | O => []
  | S n => take 16 l :: blocks n (drop 16 l)
  end.

Definition block_list (bs : list bytes) : Prop := Forall (fun b => length b = 16%nat) bs.

Lemma blocks_wf n : forall l, length l = (16 * n)%nat -> block_list (blocks n l).
Proof.
  induction n as [|n IH]; intros l Hl; simpl; constructor.
  - rewrite length_take. lia.
  - apply IH. rewrite length_drop. lia.
Qed.

Lemma concat_blocks n : forall l, length l = (16 * n)%nat -> concat (blocks n l) = l.
Proof.
  induction n as [|n IH]; intros l Hl; cbn [blocks concat]; [destruct l; [done|simpl in Hl; lia]|].
  rewrite IH by (rewrite length_drop; lia). apply take_drop.
Qed.

Lemma blocks_concat bs : block_list bs -> blocks (length bs) (concat bs) = bs.
Proof.
  induction 1 as [|b bs Hb Hbs IH]; [done|]. cbn [concat length blocks].
  rewrite take_app_length', drop_app_length' by done. by rewrite IH.
Qed.

Lemma concat_length bs : block_list bs -> length (concat bs) = (16 * length bs)%nat.
Proof. induction 1 as [|b bs Hb Hbs IH]; [done|]. cbn [concat length]. rewrite length_app. lia. Qed.

Lemma blocks_app n1 n2 : forall l1 l2, length l1 = (16 * n1)%nat ->
  blocks (n1 + n2) (l1 ++ l2) = blocks n1 l1 ++ blocks n2 l2.
Proof.
  induction n1 as [|n1 IH]; intros l1 l2 Hl; cbn [blocks Nat.add app].
  - destruct l1; [done|simpl in Hl; lia].
  - rewrite take_app_le, drop_app_le by lia. rewrite IH by (rewrite length_drop; lia). done.
Qed.

Section Modes.
Context `{C : CryptoLib}.

(** ** CBC

    [cipher.NewCBCDecrypter(block, iv)] is an object that remembers the last
    ciphertext block; [CryptBlocks] panics unless its input is whole blocks. *)
Fixpoint cbc_encrypt (key prev : bytes) (bs : list bytes) : list bytes :=
  match bs with
  | [] => []
  | b :: bs' => let c := aes_encrypt key (xor_bytes b prev) in c :: cbc_encrypt key c bs'
  end.

Fixpoint cbc_decrypt (key prev : bytes) (bs : list bytes) : list bytes :=
  match bs with
  | [] => []
  | c :: bs' => xor_bytes (aes_decrypt key c) prev :: cbc_decrypt key c bs'
  end.

Definition cbc_next (prev : bytes) (cs : list bytes) : bytes := default prev (last cs).

Definition CryptBlocks_encrypt {E} (key iv src : bytes) : outcome E bytes :=
  if negb (length src mod 16 =? 0)%nat then Panic
  else Ok (concat (cbc_encrypt key iv (blocks (length src / 16) src))).

(** The decrypted data and the new state of the decrypter. *)
Definition CryptBlocks_decrypt {E} (key iv src : bytes) : outcome E (bytes * bytes) :=
  if negb (length src mod 16 =? 0)%nat then Panic
  else
    let cs := blocks (length src / 16) src in
    Ok (concat (cbc_decrypt key iv cs), cbc_next iv cs).

Lemma cbc_decrypt_app key cs1 : forall prev cs2,
  cbc_decrypt key prev (cs1 ++ cs2) = cbc_decrypt key prev cs1 ++ cbc_decrypt key (cbc_next prev cs1) cs2.
Proof.
  induction cs1 as [|c cs1 IH]; intros prev cs2; simpl; [done|]. f_equal. rewrite IH. f_equal.
  unfold cbc_next. by destruct cs1 as [|c' cs1 _] using rev_ind; [|rewrite app_comm_cons, !last_snoc].
Qed.

Lemma cbc_decrypt_count key cs : forall prev, length (cbc_decrypt key prev cs) = length cs.
Proof. induction cs as [|c cs IH]; intros prev; simpl; auto. Qed.

Lemma mod16 (n : nat) : (n mod 16 =? 0)%nat = true -> (n = 16 * (n / 16))%nat.
Proof. intros H. apply Nat.eqb_eq in H. lia. Qed.

(** The result of decrypting whole blocks piecewise. *)
Lemma CryptBlocks_app {E} key iv s1 s2 p1 iv1 : CryptBlocks_decrypt (E := E) key iv s1 = Ok (p1, iv1) ->
  CryptBlocks_decrypt (E := E) key iv (s1 ++ s2) =
  let! r := CryptBlocks_decrypt key iv1 s2 in Ok (p1 ++ r.1, r.2).
Proof.
  unfold CryptBlocks_decrypt. intros H.
  destruct (length s1 mod 16 =? 0)%nat eqn:E1; cbn [negb] in H; [|done]. apply Ok_inj, pair_equal_spec in H as [<- <-].
  rewrite length_app. pose proof (mod16 _ E1) as H1.
  replace ((length s1 + length s2) mod 16)%nat with (length s2 mod 16)%nat by lia.
  destruct (length s2 mod 16 =? 0)%nat; cbn [negb obind fst snd]; [|done].
  replace ((length s1 + length s2) / 16)%nat with (length s1 / 16 + length s2 / 16)%nat by lia.
  rewrite blocks_app by done. rewrite cbc_decrypt_app, concat_app. f_equal. f_equal.
  unfold cbc_next. rewrite last_app. by destruct (last (blocks (length s2 / 16) s2)).
Qed.

Context `{L : !CryptoLaws C}.

Lemma cbc_encrypt_wf key bs : aes_key_ok key = true -> forall prev, length prev = 16%nat -> block_list bs ->
  block_list (cbc_encrypt key prev bs) /\ length (cbc_encrypt key prev bs) = length bs.
Proof.
  intros Hk. induction bs as [|b bs IH]; intros prev Hp Hbs; simpl; [split; [constructor|done]|].
  apply Forall_cons in Hbs as [Hb Hbs].
  assert (Hc : length (aes_encrypt key (xor_bytes b prev)) = 16%nat)
    by (apply aes_encrypt_length; [done|rewrite xor_bytes_length; lia]).
  destruct (IH _ Hc Hbs) as [Hw Hn]. split; [by constructor|lia].
Qed.

Lemma cbc_decrypt_encrypt key bs : aes_key_ok key = true -> forall prev, length prev = 16%nat -> block_list bs ->
  cbc_decrypt key prev (cbc_encrypt key prev bs) = bs.
Proof.
  intros Hk. induction bs as [|b bs IH]; intros prev Hp Hbs; simpl; [done|].
  apply Forall_cons in Hbs as [Hb Hbs].
  rewrite aes_decrypt_encrypt by (done || rewrite xor_bytes_length; lia).
  rewrite xor_bytes_involutive by lia. f_equal. apply IH; [|done].
  apply aes_encrypt_length; [done|rewrite xor_bytes_length; lia].
Qed.

Lemma cbc_decrypt_wf key cs : aes_key_ok key = true -> forall prev, length prev = 16%nat -> block_list cs ->
  block_list (cbc_decrypt key prev cs).
Proof.
  intros Hk. induction cs as [|c cs IH]; intros prev Hp Hcs; simpl; [constructor|].
  apply Forall_cons in Hcs as [Hc Hcs]. constructor; [|by apply IH].
  rewrite xor_bytes_length; rewrite aes_decrypt_length; by rewrite ?Hp.
Qed.

Lemma CryptBlocks_decrypt_length {E} key iv src p iv' : aes_key_ok key = true -> length iv = 16%nat ->
  CryptBlocks_decrypt (E := E) key iv src = Ok (p, iv') -> length p = length src /\ length iv' = 16%nat.
Proof.
  intros Hk Hiv H. unfold CryptBlocks_decrypt in H.
  destruct (length src mod 16 =? 0)%nat eqn:E1; cbn [negb] in H; [|done]. apply Ok_inj, pair_equal_spec in H as [<- <-].
  pose proof (mod16 _ E1) as H1. pose proof (blocks_wf _ _ H1) as Hb.
  split.
  - rewrite concat_length by by apply cbc_decrypt_wf. rewrite cbc_decrypt_count.
    rewrite <- (concat_length _ Hb). by rewrite concat_blocks.
  - unfold cbc_next. destruct (last _) eqn:El; [|done]. apply last_Some_elem_of in El.
    by eapply Forall_forall in Hb.
Qed.

(** Decryption undoes encryption on whole blocks. *)
Lemma CryptBlocks_roundtrip {E F} key iv src c : aes_key_ok key = true -> length iv = 16%nat ->
  CryptBlocks_encrypt (E := E) key iv src = Ok c ->
  length c = length src /\ exists iv', CryptBlocks_decrypt (E := F) key iv c = Ok (src, iv').
Proof.
  intros Hk Hiv H. unfold CryptBlocks_encrypt in H.
  destruct (length src mod 16 =? 0)%nat eqn:E1; cbn [negb] in H; [|done]. apply Ok_inj in H as <-.
  pose proof (mod16 _ E1) as H1. pose proof (blocks_wf _ _ H1) as Hb.
  destruct (cbc_encrypt_wf key _ Hk iv Hiv Hb) as [Hw Hn].
  pose proof (concat_length _ Hw) as Hl. pose proof (concat_length _ Hb) as Hl2.
  rewrite concat_blocks in Hl2 by done. rewrite Hn in Hl.
  split; [lia|]. eexists. unfold CryptBlocks_decrypt.
  rewrite Hl, <- Hl2, E1. cbn [negb].
  replace (length src / 16)%nat with (length (cbc_encrypt key iv (blocks (length src / 16) src))) at 1
    by (rewrite Hn; lia).
  rewrite blocks_concat by done. rewrite cbc_decrypt_encrypt, concat_blocks by done. reflexivity.
Qed.

End Modes.

(** ** CTR *)
Section Stream.
Context `{C : CryptoLib}.

(** Big-endian reading and writing of a block. *)
Definition be_value (l : bytes) : Z := fold_left (fun acc b => acc * 256 + b2z b) l 0.

Fixpoint be_bytes (n : nat) (z : Z) : bytes :=
  match n with
  | O => []
  | S n => be_bytes n (z / 256) ++ [z2b z]
  end.

(** [n] blocks of the key stream that starts at counter [iv]. *)
Fixpoint ctr_stream (key : bytes) (ctr : Z) (n : nat) : bytes :=
  match n with
  | O => []
  | S n => aes_encrypt key (be_bytes 16 (ctr mod 2 ^ 128)) ++ ctr_stream key (ctr + 1) n
  end.

(** [XORKeyStream] of a fresh [cipher.NewCTR(block, iv)]. *)
Definition ctr_xor (key iv src : bytes) : bytes :=
  xor_bytes src (ctr_stream key (be_value iv) (length src / 16 + 1)).

Lemma be_bytes_length n : forall z, length (be_bytes n z) = n.
Proof. induction n as [|n IH]; intros z; simpl; [done|]. rewrite length_app, IH. simpl. lia. Qed.

Context `{L : !CryptoLaws C}.

Lemma ctr_stream_length key n : aes_key_ok key = true -> forall ctr, length (ctr_stream key ctr n) = (16 * n)%nat.
Proof.
  intros Hk. induction n as [|n IH]; intros ctr; cbn [ctr_stream]; [done|].
  rewrite length_app, IH, aes_encrypt_length by (done || apply be_bytes_length). lia.
Qed.

Lemma ctr_xor_length key iv src : aes_key_ok key = true -> length (ctr_xor key iv src) = length src.
Proof.
  intros Hk. unfold ctr_xor, xor_bytes. rewrite length_zip_with, ctr_stream_length by done. lia.
Qed.

Lemma ctr_xor_involutive key iv src : aes_key_ok key = true ->
  ctr_xor key iv (ctr_xor key iv src) = src.
Proof.
  intros Hk. unfold ctr_xor at 1. rewrite ctr_xor_length by done. unfold ctr_xor.
  apply xor_bytes_involutive. rewrite ctr_stream_length by done. lia.
Qed.

End Stream.

(** ** Profile fields and storage blobs *)

Definition NONCE_LENGTH : nat := 12.
Definition TAG_LENGTH_BYTES : nat := 16.

Section Gcm.
Context `{C : CryptoLib}.

(** The nonce size is checked by [Seal] and [Open], which panic. *)
Definition AesgcmDecrypt (key nonce data mac : bytes) : outcome crypto_error bytes :=
  if negb (aes_key_ok key) then Err KeySizeError
  else if negb (length nonce =? 12)%nat then Panic
  else of_option OpenFailed (gcm_open key nonce (data ++ mac)).

Definition AesgcmEncrypt (key nonce plaintext : bytes) : outcome crypto_error bytes :=
  if negb (aes_key_ok key) then Err KeySizeError
  else if negb (length nonce =? 12)%nat then Panic
  else Ok (gcm_seal key nonce plaintext).

Definition decryptBytes (key encryptedText : bytes) : outcome crypto_error bytes :=
  if (length encryptedText <? NONCE_LENGTH + 16 + 1)%nat then Err InvalidEncryptedLength
  else
    let nonce := take NONCE_LENGTH encryptedText in
    let ciphertext := drop NONCE_LENGTH encryptedText in
    AesgcmDecrypt key nonce ciphertext [].

(** [bytes.TrimRight(data, "\x00")] *)
Fixpoint trim_right_nul (data : bytes) : bytes :=
  match data with
  | [] => []
  | b :: rest =>
      match trim_right_nul rest with
      | [] => if bool_decide (b = x00) then [] else [b]
      | rest' => b :: rest'
      end
  end.

Definition decryptString (key encryptedText : bytes) : outcome crypto_error bytes :=
  outmap trim_right_nul (decryptBytes key encryptedText).

Context `{R : Random}.

(** The functions that draw random bytes take the number of draws made so
    far and return the new number with their result. *)
Definition encryptStorageBlob (draw : nat) (key plaintext : bytes) : outcome crypto_error (bytes * nat) :=
  let nonce := random_Bytes draw NONCE_LENGTH in
  let! ciphertext := AesgcmEncrypt key nonce plaintext in
  Ok (nonce ++ ciphertext, S draw).

Definition encryptString (draw : nat) (key plaintext : bytes) (paddedLength : nat)
  : outcome crypto_error (bytes * nat) :=
  if (paddedLength <? length plaintext)%nat then Err PlaintextTooLong
  else
    let padded := plaintext ++ repeat x00 (paddedLength - length plaintext) in
    let nonce := random_Bytes draw NONCE_LENGTH in
    let! ciphertext := AesgcmEncrypt key nonce padded in
    Ok (nonce ++ ciphertext, S draw).

Lemma trim_right_nul_pad p n : last p <> Some x00 -> trim_right_nul (p ++ repeat x00 n) = p.
Proof.
  assert (Hz : trim_right_nul (repeat x00 n) = []) by (induction n as [|n IH]; simpl; [done|by rewrite IH]).
  induction p as [|b p IH]; intros Hl; simpl; [done|].
  destruct p as [|c p].
  - simpl. rewrite Hz. rewrite bool_decide_false; [done|]. by intros ->.
  - by rewrite IH.
Qed.

Context `{L : !CryptoLaws C, RL : !RandomLaws R}.

(** A sealed blob with its nonce in front opens again, unless it is empty. *)
Lemma decryptBytes_seal key nonce p : aes_key_ok key = true -> length nonce = 12%nat -> p <> [] ->
  decryptBytes key (nonce ++ gcm_seal key nonce p) = Ok p.
Proof.
  intros Hk Hn Hp. unfold decryptBytes, NONCE_LENGTH. rewrite length_app, gcm_seal_length, Hn.
  destruct (Nat.ltb_spec (12 + (length p + 16)) (12 + 16 + 1)) as [Hlt|_]; [destruct p; [done|simpl in Hlt; lia]|].
  rewrite take_app_length', drop_app_length' by done. unfold AesgcmDecrypt.
  rewrite Hk, Hn. cbn [negb Nat.eqb]. by rewrite app_nil_r, gcm_open_seal.
Qed.

Lemma AesgcmEncrypt_ok key nonce p : aes_key_ok key = true -> length nonce = 12%nat ->
  AesgcmEncrypt key nonce p = Ok (gcm_seal key nonce p).
Proof. intros Hk Hn. unfold AesgcmEncrypt. by rewrite Hk, Hn. Qed.

Lemma encryptStorageBlob_ok draw key p : aes_key_ok key = true -> p <> [] ->
  exists c, encryptStorageBlob draw key p = Ok (c, S draw) /\ decryptBytes key c = Ok p.
Proof.
  intros Hk Hp. pose proof (random_length draw NONCE_LENGTH) as Hn. unfold encryptStorageBlob.
  rewrite AesgcmEncrypt_ok by done. eexists. split; [reflexivity|]. by apply decryptBytes_seal.
Qed.

(** an encrypted profile field decrypts to the text that was encrypted:
    [encryptString] pads with NUL bytes to the given length, [decryptString]
    removes them; text longer than the padded length is refused. *)
Theorem profile_string_roundtrip draw key plaintext paddedLength
  (Hk : aes_key_ok key = true) (Hl : last plaintext <> Some x00) (Hp : (0 < paddedLength)%nat) :
  if (paddedLength <? length plaintext)%nat
  then (encryptString draw key plaintext paddedLength = Err PlaintextTooLong)
  else exists c, encryptString draw key plaintext paddedLength = Ok (c, S draw) /\
    length c = (NONCE_LENGTH + paddedLength + TAG_LENGTH_BYTES)%nat /\
    decryptString key c = Ok plaintext.
Proof.
  unfold encryptString. destruct (Nat.ltb_spec paddedLength (length plaintext)) as [|Hle]; [done|].
  pose proof (random_length draw NONCE_LENGTH) as Hn. rewrite AesgcmEncrypt_ok by done.
  eexists. split; [reflexivity|]. split.
  - rewrite length_app, gcm_seal_length, length_app, repeat_length, Hn. unfold TAG_LENGTH_BYTES. lia.
  - unfold decryptString. rewrite decryptBytes_seal; [|done|done|].
    + simpl. by rewrite trim_right_nul_pad.
    + intros E%(f_equal length). rewrite length_app, repeat_length in E. simpl in E. lia.
Qed.

End Gcm.

(** ** PKCS#7 *)

(** The loop of [UnpadPKCS7]: the last [n] bytes all equal [v]. *)
Fixpoint pad_bytes_ok (rev_data : bytes) (n : nat) (v : byte) {struct n} : bool :=
  match n, rev_data with
  | O, _ => true
  | S n, b :: rest => bool_decide (b = v) && pad_bytes_ok rest n v
  | S _, [] => false
  end.

Definition UnpadPKCS7 (data : bytes) : outcome crypto_error bytes :=
  match last data with
  | None => Err EmptyData
  | Some b =>
      let paddingLen := Z.to_nat (b2z b) in
      if (paddingLen =? 0)%nat || (length data <? paddingLen)%nat then Err InvalidPadding
      else if negb (pad_bytes_ok (reverse data) paddingLen b) then Err InvalidPadding
      else Ok (take (length data - paddingLen) data)
  end.

(** PKCS#7 padding to a multiple of [n] bytes. *)
Definition pkcs7_pad (n : nat) (data : bytes) : bytes :=
  let k := (n - length data mod n)%nat in data ++ repeat (z2b (Z.of_nat k)) k.

Lemma pad_bytes_ok_true n v : forall l, pad_bytes_ok l n v = true <-> exists rest, l = repeat v n ++ rest.
Proof.
  induction n as [|n IH]; intros l; simpl; [split; [by exists l|intros _; done]|].
  destruct l as [|b l]; [split; [done|intros (rest & E); discriminate E]|].
  rewrite andb_true_iff, bool_decide_eq_true, IH. split.
  - intros [-> (rest & ->)]. by exists rest.
  - intros (rest & E). injection E as -> ->. eauto.
Qed.

Lemma reverse_repeat {A} (x : A) n : reverse (repeat x n) = repeat x n.
Proof.
  induction n as [|n IH]; [done|]. simpl. rewrite reverse_cons, IH.
  clear IH. induction n as [|n IH]; [done|]. simpl. by rewrite IH.
Qed.

Lemma last_repeat {A} (x : A) n p : (0 < n)%nat -> last (p ++ repeat x n) = Some x.
Proof.
  intros Hn. destruct n as [|n]; [lia|]. replace (S n) with (n + 1)%nat by lia.
  rewrite repeat_app. simpl. by rewrite app_assoc, last_snoc.
Qed.

(** [UnpadPKCS7] accepts exactly the data that ends in a valid padding. *)
Lemma UnpadPKCS7_spec data p : UnpadPKCS7 data = Ok p <->
  exists k, (1 <= k <= 255)%nat /\ data = p ++ repeat (z2b (Z.of_nat k)) k.
Proof.
  unfold UnpadPKCS7. split.
  - destruct (last data) as [b|] eqn:Hl; [|done]. pose proof (b2z_range b) as Hb.
    destruct (_ || _) eqn:E1; [done|]. apply orb_false_iff in E1 as [E1 E2].
    destruct (pad_bytes_ok _ _ _) eqn:E3; cbn [negb]; [|done]. intros H. apply Ok_inj in H as <-.
    apply pad_bytes_ok_true in E3 as (rest & E3).
    apply (f_equal reverse) in E3. rewrite reverse_involutive, reverse_app, reverse_repeat in E3.
    apply Nat.eqb_neq in E1. exists (Z.to_nat (b2z b)). split; [lia|].
    rewrite Z2Nat.id, z2b_b2z by lia. rewrite E3 at 1. f_equal.
    rewrite E3 at 2. rewrite take_app_length'; [done|].
    rewrite E3, length_app, repeat_length. lia.
  - intros (k & Hk & ->). rewrite last_repeat by lia.
    rewrite b2z_z2b_small by lia. rewrite Nat2Z.id.
    rewrite length_app, repeat_length.
    replace ((k =? 0)%nat || (length p + k <? k)%nat) with false
      by (symmetry; apply orb_false_iff; split; [apply Nat.eqb_neq|apply Nat.ltb_ge]; lia).
    rewrite reverse_app, reverse_repeat.
    replace (pad_bytes_ok _ _ _) with true by (symmetry; apply pad_bytes_ok_true; eauto).
    cbn [negb]. f_equal. apply take_app_length'. lia.
Qed.

Lemma pkcs7_pad_length n data : (0 < n)%nat -> (length (pkcs7_pad n data) mod n = 0)%nat.
Proof.
  intros Hn. unfold pkcs7_pad. rewrite length_app, repeat_length.
  pose proof (Nat.mod_upper_bound (length data) n). pose proof (Nat.div_mod_eq (length data) n).
  replace (length data + (n - length data mod n))%nat with ((length data / n + 1) * n)%nat by nia.
  apply Nat.Div0.mod_mul.
Qed.

Lemma UnpadPKCS7_pad n data : (0 < n <= 255)%nat -> UnpadPKCS7 (pkcs7_pad n data) = Ok data.
Proof.
  intros Hn. apply UnpadPKCS7_spec. pose proof (Nat.mod_upper_bound (length data) n ltac:(lia)).
  exists (n - length data mod n)%nat. split; [lia|done].
Qed.

(** ** A concrete instance

    A cipher with no secrecy that satisfies the laws, to evaluate the
    definitions on concrete inputs. *)
Module SampleCrypto.

Definition fit (n : nat) (l : bytes) : bytes := take n (l ++ repeat x00 n).

Definition tag : bytes := repeat x2a 16.

#[export] Instance sample_crypto : CryptoLib := {
  sha256 m := fit 32 m;
  hmac_sha256 k m := fit 32 (m ++ k);
  hkdf_sha256 s salt info n := fit n (s ++ salt ++ info);
  aes_encrypt k b := reverse b;
  aes_decrypt k b := reverse b;
  gcm_seal k n p := reverse p ++ tag;
  gcm_open k n c :=
    let m := (length c - 16)%nat in
    if (16 <=? length c)%nat && beqb (drop m c) tag then Some (reverse (take m c)) else None
}.

Lemma fit_length n l : length (fit n l) = n.
Proof. unfold fit. rewrite length_take, length_app, repeat_length. lia. Qed.

#[export] Instance sample_crypto_laws : CryptoLaws sample_crypto.
Proof.
  split; intros; cbn [sha256 hmac_sha256 hkdf_sha256 aes_encrypt aes_decrypt gcm_seal gcm_open sample_crypto] in *.
  - apply fit_length.
  - apply fit_length.
  - apply fit_length.
  - by rewrite length_reverse.
  - by rewrite length_reverse.
  - by rewrite reverse_involutive.
  - by rewrite length_app, length_reverse.
  - rewrite length_app, length_reverse. change (length tag) with 16%nat.
    rewrite (proj2 (Nat.leb_le 16 (length p + 16))) by lia.
    rewrite drop_app_length' by (rewrite length_reverse; lia). rewrite beqb_refl. cbn [andb].
    rewrite take_app_length' by (rewrite length_reverse; lia). by rewrite reverse_involutive.
  - destruct (_ && _) eqn:E; [|done]. apply andb_true_iff in E as [E1 E2].
    apply beqb_eq in E2. simplify_eq. rewrite reverse_involutive, <- E2. by rewrite take_drop.
Qed.

#[export] Instance sample_random : Random := { random_Bytes i n := repeat (z2b (Z.of_nat i)) n }.
#[export] Instance sample_random_laws : RandomLaws sample_random.
Proof. split. intros i n. apply repeat_length. Qed.

End SampleCrypto.

Section ProfileWitness.
Import SampleCrypto.

Lemma profile_string_roundtrip_witness :
  exists c, encryptString 0 (repeat x07 32) (str "Alice") 53 = Ok (c, 1%nat) /\
    length c = 81%nat /\ decryptString (repeat x07 32) c = Ok (str "Alice").
Proof.
  apply (profile_string_roundtrip 0 (repeat x07 32) (str "Alice") 53); [reflexivity|discriminate|lia].
Defined.

End ProfileWitness.
