(* ===== verification/Attachments.v ===== *)
(** Attachments: [pkg/signalmeow/attachments.go] and [attachments_stream.go].

    An attachment is padded, encrypted with AES-CBC under a fresh 64-byte key
    (32 bytes of cipher key, 32 bytes of MAC key) and uploaded with its
    initialization vector in front and its MAC behind.  It is decrypted in
    memory, in place in a file, or as a stream; the three ways are modelled
    over the same CBC mode and compared. *)
From Stdlib Require Import ZifyNat.
From S2P Require Import Prelude GoLib Crypto.

Definition MACLength : nat := 32.
Definition IVLength : nat := 16.

(** [go.mau.fi/util/pkcs7]. *)
Class Pkcs7Lib : Type := {
  pkcs7_Pad : bytes -> nat -> bytes;
  pkcs7_Unpad : bytes -> option bytes
}.
Class Pkcs7Laws (P : Pkcs7Lib) : Prop := {
  pkcs7_Pad_spec d n : (0 < n <= 255)%nat -> pkcs7_Pad d n = pkcs7_pad n d;
  pkcs7_Unpad_Pad d n : (0 < n <= 255)%nat -> pkcs7_Unpad (pkcs7_Pad d n) = Some d
}.

Inductive attachment_error :=
| CipherError (e : crypto_error)
| InvalidKeyLength (n : nat)
| ErrInvalidMACForAttachment
| ErrInvalidDigestForAttachment
| ErrAttachmentNotFound
| PlaintextHashMismatch
| CiphertextTooShort
| NotWholeBlocks
| UnpadFailed
| DecryptedTooShort
| ReadMACFailed
| ReadIVFailed
| PadTooLarge (b : byte)
| UnexpectedStatus (code : Z)
| DownloadFailed
| BodyReadFailed
| FormRequestFailed
| UploadFailed.

Definition getAttachmentPath (id : Z) (key : bytes) : bytes :=
  if negb (id =? 0) then str "/attachments/" ++ Decimal.format_uint id
  else str "/attachments/" ++ key.

Section Attachments.
Context `{C : CryptoLib} `{R : Random} `{P : Pkcs7Lib}.

Definition verifyMAC (key body mac : bytes) : bool := beqb (hmac_sha256 key body) mac.
Definition appendMAC (key body : bytes) : bytes := body ++ hmac_sha256 key body.

Definition aesDecrypt (key ciphertext : bytes) : outcome attachment_error bytes :=
  if negb (aes_key_ok key) then Err (CipherError KeySizeError)
  else if (length ciphertext <? IVLength)%nat then Err CiphertextTooShort
  else if negb (length ciphertext mod aes_BlockSize =? 0)%nat then Err NotWholeBlocks
  else
    let iv := take IVLength ciphertext in
    let! r := CryptBlocks_decrypt key iv (drop IVLength ciphertext) in
    of_option UnpadFailed (pkcs7_Unpad r.1).

Definition aesEncrypt (draw : nat) (key plaintext : bytes) : outcome attachment_error (bytes * nat) :=
  if negb (aes_key_ok key) then Err (CipherError KeySizeError)
  else
    let padded := pkcs7_Pad plaintext aes_BlockSize in
    let iv := random_Bytes draw 16 in
    let! c := CryptBlocks_encrypt key iv padded in
    Ok (iv ++ c, S draw).

(** [body[:l]] with a negative [l] panics. *)
Definition macAndAESDecrypt (body key : bytes) : outcome attachment_error bytes :=
  if negb (length key =? 64)%nat then Err (InvalidKeyLength (length key))
  else if (length body <? MACLength)%nat then Panic
  else
    let l := (length body - MACLength)%nat in
    if negb (verifyMAC (drop MACLength key) (take l body) (drop l body)) then Err ErrInvalidMACForAttachment
    else aesDecrypt (take MACLength key) (take l body).

(** [keys[:32]] and [keys[32:]] of the 64 bytes drawn by the caller. *)
Definition macAndAESEncrypt (draw : nat) (keys plaintext : bytes) : outcome attachment_error (bytes * nat) :=
  if (length keys <? 32)%nat then Panic
  else
    let! r := aesEncrypt draw (take 32 keys) plaintext in
    Ok (appendMAC (drop 32 keys) r.1, r.2).

Definition decryptAttachment (body key digest : bytes) (plaintextDigest : bool) (size : Z)
  : outcome attachment_error bytes :=
  if negb plaintextDigest && negb (beqb (sha256 body) digest) then Err ErrInvalidDigestForAttachment
  else
    let! decrypted := macAndAESDecrypt body key in
    if Z.of_nat (length decrypted) <? size then Err DecryptedTooShort
    else
      let decrypted := take (Z.to_nat size) decrypted in
      if plaintextDigest && negb (beqb (sha256 decrypted) digest) then Err PlaintextHashMismatch
      else Ok decrypted.

(** ** Decryption in a file

    The file is its content; regular files are read up to the size of the
    buffer.  Reading goes on at the file position while the plaintext is
    written back from the start. *)
Definition read_at (file : bytes) (pos n : nat) : bytes := take n (drop pos file).

Definition WriteAt (file data : bytes) (off : nat) : bytes :=
  take off file ++ data ++ drop (off + length data) file.

(** The loop of [aesDecryptFile]: [left] bytes of the limited reader remain. *)
Fixpoint decrypt_file_loop (fuel : nat) (key iv file : bytes) (pos left offset : nat) (pad : byte)
  : outcome attachment_error (bytes * byte) :=
  match fuel with
  | O => Ok (file, pad)
  | S fuel =>
      let buf := read_at file pos (min 4096 left) in
      let n := length buf in
      if (n =? 0)%nat then Ok (file, pad)
      else
        let! r := CryptBlocks_decrypt key iv buf in
        decrypt_file_loop fuel key r.2 (WriteAt file r.1 offset) (pos + n) (left - n) (offset + n)
          (default x00 (last r.1))
  end.

(** The new content of the file and the claimed size of the plaintext. *)
Definition aesDecryptFile (key file : bytes) (downloadedSize : nat) : outcome attachment_error (bytes * Z) :=
  if negb (aes_key_ok key) then Err (CipherError KeySizeError)
  else if negb (downloadedSize mod aes_BlockSize =? 0)%nat then Err NotWholeBlocks
  else
    let iv := read_at file 0 (min IVLength downloadedSize) in
    if negb (length iv =? IVLength)%nat then Err ReadIVFailed
    else
      let! r := decrypt_file_loop (S downloadedSize) key iv file IVLength (downloadedSize - IVLength) 0 x00 in
      if Z.of_nat aes_BlockSize <? b2z r.2 then Err (PadTooLarge r.2)
      else Ok (r.1, Z.of_nat downloadedSize - b2z r.2).

(** [file.Truncate(size)] also extends a shorter file with zeros. *)
Definition Truncate (file : bytes) (size : nat) : bytes := take size (file ++ repeat x00 size).

Definition decryptAttachmentFile (file : bytes) (downloadedSize : nat) (key digest : bytes)
  (plaintextDigest : bool) (size : Z) : outcome attachment_error bytes :=
  if negb plaintextDigest && negb (beqb (sha256 file) digest) then Err ErrInvalidDigestForAttachment
  else if (downloadedSize <? MACLength)%nat then Err ReadMACFailed
  else
    let mac := read_at file (downloadedSize - MACLength) MACLength in
    if negb (length mac =? MACLength)%nat then Err ReadMACFailed
    else if (length key <? MACLength)%nat then Panic
    else if negb (beqb (hmac_sha256 (drop MACLength key) (take (downloadedSize - MACLength) file)) mac)
    then Err ErrInvalidMACForAttachment
    else
      let! r := aesDecryptFile (take MACLength key) file (downloadedSize - MACLength) in
      if r.2 <? size then Err DecryptedTooShort
      else
        let file := Truncate r.1 (Z.to_nat size) in
        if plaintextDigest && negb (beqb (sha256 file) digest) then Err PlaintextHashMismatch
        else Ok file.

(** ** Upload and download *)

(** [extend], for a slice of capacity [cap]. *)
Definition extend (data : bytes) (cap paddedLen : nat) : bytes :=
  if (paddedLen <=? cap)%nat
  then take paddedLen data ++ repeat x00 (paddedLen - length data)
  else take paddedLen data ++ drop (length (take paddedLen data)) (repeat x00 paddedLen).

Record AttachmentPointer := mkPointer {
  ap_CdnId : Z;
  ap_CdnKey : bytes;
  ap_Key : bytes;
  ap_Digest : option bytes;
  ap_Size : Z;
  ap_CdnNumber : Z
}.

Record attachmentV4UploadAttributes := mkUploadAttributes {
  ua_Cdn : Z;
  ua_Key : bytes;
  ua_Headers : gmap bytes bytes;
  ua_SignedUploadLocation : bytes
}.

Record HTTPReq := mkHTTPReq {
  rq_Method : bytes;
  rq_URL : bytes;
  rq_Headers : gmap bytes bytes;
  rq_Body : option bytes
}.
Record HTTPResp := mkHTTPResp { rs_Status : Z; rs_Location : bytes }.

(** The network: the answer to a request may depend on every request sent
    before it.  [None] is a failed request. *)
Variable respond : list HTTPReq -> HTTPReq -> option HTTPResp.
Variable upload_form : list HTTPReq -> option attachmentV4UploadAttributes.
(** [int(math.Max(541, math.Floor(math.Pow(1.05, math.Ceil(math.Log(n)/math.Log(1.05))))))] *)
Variable padded_length : nat -> nat.

Definition send (hist : list HTTPReq) (r : HTTPReq) : list HTTPReq * option HTTPResp := (hist ++ [r], respond hist r).

Definition accepted (r : HTTPResp) : bool := negb ((rs_Status r <? 200) || (300 <=? rs_Status r)).

Definition uploadAttachmentLegacy (hist : list HTTPReq) (attrs : attachmentV4UploadAttributes)
  (encryptedWithMAC : bytes) : list HTTPReq * bool :=
  let '(hist, resp) := send hist
    (mkHTTPReq (str "POST") (ua_SignedUploadLocation attrs) (ua_Headers attrs) None) in
  match resp with
  | None => (hist, false)
  | Some resp =>
      if negb (accepted resp) then (hist, false)
      else
        let '(hist, resp) := send hist
          (mkHTTPReq (str "PUT") (rs_Location resp) ∅ (Some encryptedWithMAC)) in
        match resp with
        | None => (hist, false)
        | Some resp => (hist, accepted resp)
        end
  end.

Definition uploadAttachmentTUS (hist : list HTTPReq) (attrs : attachmentV4UploadAttributes)
  (encryptedWithMAC : bytes) : list HTTPReq * bool :=
  let headers :=
    <[str "Upload-Metadata" := str "filename " ++ Base64.encode (ua_Key attrs)]>
    (<[str "Upload-Length" := Decimal.format_uint (Z.of_nat (length encryptedWithMAC))]>
    (<[str "Tus-Resumable" := str "1.0.0"]> (ua_Headers attrs))) in
  let '(hist, resp) := send hist
    (mkHTTPReq (str "POST") (ua_SignedUploadLocation attrs) headers (Some encryptedWithMAC)) in
  match resp with
  | None => (hist, false)
  | Some resp => (hist, accepted resp)
  end.

Definition UploadAttachment (hist : list HTTPReq) (draw : nat) (body : bytes) (cap : nat)
  : list HTTPReq * outcome attachment_error (AttachmentPointer * nat) :=
  let keys := random_Bytes draw 64 in
  let plaintextLength := uint32 (Z.of_nat (length body)) in
  let paddedLen := padded_length (length body) in
  if (paddedLen <? length body)%nat then (hist, Panic)
  else
    match macAndAESEncrypt (S draw) keys (extend body cap paddedLen) with
    | Panic => (hist, Panic)
    | Err e => (hist, Err e)
    | Ok (encryptedWithMAC, draw) =>
        match upload_form hist with
        | None => (hist, Err FormRequestFailed)
        | Some attrs =>
            let '(hist, ok) :=
              if ua_Cdn attrs =? 3 then uploadAttachmentTUS hist attrs encryptedWithMAC
              else uploadAttachmentLegacy hist attrs encryptedWithMAC in
            if negb ok then (hist, Err UploadFailed)
            else (hist, Ok (mkPointer 0 (ua_Key attrs) keys (Some (sha256 encryptedWithMAC))
                              plaintextLength (ua_Cdn attrs), draw))
        end
    end.

(** The response of the CDN: status, Content-Length (-1 when unknown), body. *)
Record CDNResponse := mkCDN { cdn_Status : Z; cdn_ContentLength : Z; cdn_Body : bytes }.

(** [into_file] selects decryption in a file; the result is then the content
    of the file (whose pre-allocation is left out). *)
Definition DownloadAttachment (get : bytes -> Z -> option CDNResponse) (cdnID : Z) (cdnKey : bytes)
  (cdnNumber : Z) (key digest : bytes) (plaintextDigest : bool) (size : Z) (into_file : bool)
  : outcome attachment_error bytes :=
  match get (getAttachmentPath cdnID cdnKey) cdnNumber with
  | None => Err DownloadFailed
  | Some resp =>
      if 400 <? cdn_Status resp then
        if cdn_Status resp =? 404 then Err ErrAttachmentNotFound
        else Err (UnexpectedStatus (cdn_Status resp))
      else if into_file then
        decryptAttachmentFile (cdn_Body resp) (length (cdn_Body resp)) key digest plaintextDigest size
      else if 0 <? cdn_ContentLength resp then
        if Z.of_nat (length (cdn_Body resp)) <? cdn_ContentLength resp then Err BodyReadFailed
        else decryptAttachment (take (Z.to_nat (cdn_ContentLength resp)) (cdn_Body resp)) key digest plaintextDigest size
      else if Z.max size (32 * 1024) * 2 <? Z.of_nat (length (cdn_Body resp)) then Err BodyReadFailed
      else decryptAttachment (cdn_Body resp) key digest plaintextDigest size
  end.

Definition DownloadAttachmentWithPointer (get : bytes -> Z -> option CDNResponse) (a : AttachmentPointer)
  (plaintextHash : option bytes) (into_file : bool) : outcome attachment_error bytes :=
  let '(digest, plaintextDigest) :=
    match ap_Digest a, plaintextHash with
    | None, Some h => (h, true)
    | Some d, _ => (d, false)
    | None, None => ([], false)
    end in
  DownloadAttachment get (ap_CdnId a) (ap_CdnKey a) (ap_CdnNumber a) (ap_Key a) digest
    plaintextDigest (ap_Size a) into_file.

End Attachments.

(** ** Files *)

Lemma read_at_length file pos n : (pos + n <= length file)%nat -> length (read_at file pos n) = n.
Proof. intros H. unfold read_at. rewrite length_take, length_drop. lia. Qed.

Lemma read_at_split file pos n m : (n <= m)%nat ->
  read_at file pos m = read_at file pos n ++ read_at file (pos + n) (m - n).
Proof.
  intros H. unfold read_at. rewrite <- drop_drop, take_take_drop. f_equal. lia.
Qed.

Lemma WriteAt_length file data off : (off + length data <= length file)%nat ->
  length (WriteAt file data off) = length file.
Proof. intros H. unfold WriteAt. rewrite !length_app, length_take, length_drop. lia. Qed.

Lemma WriteAt_drop file data off k : (off + length data <= k)%nat -> (k <= length file)%nat ->
  drop k (WriteAt file data off) = drop k file.
Proof.
  intros H Hk. unfold WriteAt. rewrite app_assoc, drop_app_ge by (rewrite length_app, length_take; lia).
  rewrite drop_drop, length_app, length_take. f_equal. lia.
Qed.

Lemma WriteAt_take file data off : (off <= length file)%nat ->
  take (off + length data) (WriteAt file data off) = take off file ++ data.
Proof.
  intros H. unfold WriteAt. rewrite app_assoc. apply take_app_length'. rewrite length_app, length_take. lia.
Qed.

Lemma WriteAt_app file d1 d2 off : (off + length d1 + length d2 <= length file)%nat ->
  WriteAt (WriteAt file d1 off) d2 (off + length d1) = WriteAt file (d1 ++ d2) off.
Proof.
  intros H. unfold WriteAt at 1. rewrite WriteAt_drop, WriteAt_take by lia.
  unfold WriteAt. rewrite length_app, <- !app_assoc, Nat.add_assoc. done.
Qed.

Lemma WriteAt_nil file off : WriteAt file [] off = file.
Proof. unfold WriteAt. simpl. rewrite Nat.add_0_r. apply take_drop. Qed.

Section Properties.
Context `{C : CryptoLib} `{R : Random} `{P : Pkcs7Lib}.
Context `{CL : !CryptoLaws C} `{RL : !RandomLaws R} `{PL : !Pkcs7Laws P}.

Lemma last_default {A} (d : A) l1 l2 : default (default d (last l1)) (last l2) = default d (last (l1 ++ l2)).
Proof. rewrite last_app. by destruct (last l2). Qed.

(** The loop decrypts the rest of the limited reader in place, however it is
    cut into buffers. *)
Lemma decrypt_file_loop_spec key fuel : aes_key_ok key = true ->
  forall iv file pos left offset pad, (left < fuel)%nat -> length iv = 16%nat ->
  (left mod 16 = 0)%nat -> (offset <= pos)%nat -> (pos + left <= length file)%nat ->
  exists plain iv', CryptBlocks_decrypt (E := attachment_error) key iv (read_at file pos left) = Ok (plain, iv') /\
    length plain = left /\
    decrypt_file_loop fuel key iv file pos left offset pad =
      Ok (WriteAt file plain offset, default pad (last plain)).
Proof.
  intros Hk. induction fuel as [|fuel IH]; intros iv file pos left offset pad Hf Hiv Hl Ho Hp; [lia|].
  cbn [decrypt_file_loop]. rewrite read_at_length by lia.
  destruct (Nat.eqb_spec (min 4096 left) 0) as [E0|E0].
  { assert (left = 0)%nat as -> by lia. exists [], iv. unfold read_at. simpl. by rewrite WriteAt_nil. }
  set (n := min 4096 left) in *.
  assert (Hn : (n mod 16 = 0)%nat) by (unfold n; lia).
  assert (Hc : exists p1 iv1, CryptBlocks_decrypt (E := attachment_error) key iv (read_at file pos n) = Ok (p1, iv1)).
  { unfold CryptBlocks_decrypt. rewrite read_at_length, Hn by lia. simpl. eauto. }
  destruct Hc as (p1 & iv1 & E1). rewrite E1. cbn [obind fst snd].
  destruct (CryptBlocks_decrypt_length _ _ _ _ _ Hk Hiv E1) as [Hp1 Hiv1].
  rewrite read_at_length in Hp1 by lia.
  destruct (IH iv1 (WriteAt file p1 offset) (pos + n)%nat (left - n)%nat (offset + n)%nat (default x00 (last p1)))
    as (p2 & iv2 & E2 & Hp2 & Hloop); [lia|done|lia|lia|rewrite WriteAt_length; lia|].
  exists (p1 ++ p2), iv2. rewrite Hloop.
  assert (Hr : read_at (WriteAt file p1 offset) (pos + n) (left - n) = read_at file (pos + n) (left - n)).
  { unfold read_at. rewrite WriteAt_drop by lia. done. }
  rewrite Hr in E2. split_and!.
  - replace (read_at file pos left) with (read_at file pos n ++ read_at file (pos + n) (left - n)).
    + rewrite (CryptBlocks_app _ _ _ _ _ _ E1), E2. done.
    + by rewrite (read_at_split file pos n left) by lia.
  - rewrite length_app. lia.
  - rewrite <- Hp1, WriteAt_app by lia. f_equal. f_equal.
    assert (Hne : p1 <> []) by (intros ->; simpl in Hp1; lia).
    rewrite last_app. destruct (last p2); [done|].
    destruct (last p1) eqn:El; [done|]. by apply last_None in El.
Qed.

(** The shape of what [macAndAESEncrypt] produces: vector, blocks, MAC. *)
Lemma macAndAESEncrypt_shape draw keys p : length keys = 64%nat ->
  exists iv c, macAndAESEncrypt draw keys p = Ok ((iv ++ c) ++ hmac_sha256 (drop 32 keys) (iv ++ c), S draw) /\
    length iv = 16%nat /\ length c = length (pkcs7_pad 16 p) /\
    exists iv', CryptBlocks_decrypt (E := attachment_error) (take 32 keys) iv c = Ok (pkcs7_pad 16 p, iv').
Proof.
  intros Hk. pose proof (random_length draw 16) as Hiv.
  assert (Hok : aes_key_ok (take 32 keys) = true).
  { unfold aes_key_ok. rewrite length_take, Hk. done. }
  unfold macAndAESEncrypt, aesEncrypt. rewrite Hk, Hok. cbn [Nat.ltb Nat.leb negb].
  unfold aes_BlockSize. rewrite pkcs7_Pad_spec by lia.
  destruct (CryptBlocks_encrypt (E := attachment_error) (take 32 keys) (random_Bytes draw 16) (pkcs7_pad 16 p))
    as [c|e|] eqn:Ec.
  - exists (random_Bytes draw 16), c. destruct (CryptBlocks_roundtrip (F := attachment_error) _ _ _ _ Hok Hiv Ec) as [Hl Hd].
    split; [reflexivity|]. done.
  - unfold CryptBlocks_encrypt in Ec. by destruct (negb _).
  - unfold CryptBlocks_encrypt in Ec. rewrite pkcs7_pad_length in Ec by lia. discriminate Ec.
Qed.

Lemma take_body (x m : bytes) : length m = 32%nat ->
  take (length (x ++ m) - 32) (x ++ m) = x /\ drop (length (x ++ m) - 32) (x ++ m) = m.
Proof.
  intros Hm. rewrite length_app, Hm. replace (length x + 32 - 32)%nat with (length x) by lia.
  by rewrite take_app_length, drop_app_length.
Qed.

Lemma macAndAESDecrypt_encrypt draw keys p : length keys = 64%nat ->
  exists body, macAndAESEncrypt draw keys p = Ok (body, S draw) /\ macAndAESDecrypt body keys = Ok p.
Proof.
  intros Hk. destruct (macAndAESEncrypt_shape draw keys p Hk) as (iv & c & -> & Hiv & Hc & iv' & Hd).
  eexists. split; [reflexivity|]. unfold macAndAESDecrypt. rewrite Hk. cbn [Nat.eqb negb]. unfold MACLength.
  pose proof (hmac_length (drop 32 keys) (iv ++ c)) as Hm.
  rewrite (proj2 (Nat.ltb_ge _ 32)) by (rewrite length_app; lia).
  destruct (take_body (iv ++ c) _ Hm) as [-> ->].
  unfold verifyMAC. rewrite beqb_refl. cbn [negb]. unfold aesDecrypt, aes_BlockSize, IVLength.
  replace (aes_key_ok (take 32 keys)) with true by (unfold aes_key_ok; by rewrite length_take, Hk).
  rewrite (proj2 (Nat.ltb_ge _ 16)) by (rewrite length_app; lia).
  rewrite length_app, Hiv, Hc.
  pose proof (pkcs7_pad_length 16 p ltac:(lia)) as Hp16.
  replace ((16 + length (pkcs7_pad 16 p)) mod 16 =? 0)%nat with true by (symmetry; apply Nat.eqb_eq; lia).
  cbn [negb]. rewrite take_app_length', drop_app_length' by done. rewrite Hd. cbn [obind fst].
  rewrite <- (pkcs7_Pad_spec p 16), pkcs7_Unpad_Pad by lia. done.
Qed.

(** What the file contains after decryption in place: the padded plaintext
    followed by the end of the ciphertext; and the size that is claimed. *)
Lemma aesDecryptFile_encrypt key iv c p iv' mac : aes_key_ok key = true -> length iv = 16%nat ->
  length c = length (pkcs7_pad 16 p) ->
  CryptBlocks_decrypt (E := attachment_error) key iv c = Ok (pkcs7_pad 16 p, iv') ->
  exists junk, length junk = (16 + length mac)%nat /\
    aesDecryptFile key ((iv ++ c) ++ mac) (length (iv ++ c)) =
      Ok (pkcs7_pad 16 p ++ junk, Z.of_nat (16 + length p)).
Proof.
  intros Hk Hiv Hc Hd. unfold aesDecryptFile, aes_BlockSize, IVLength.
  pose proof (pkcs7_pad_length 16 p ltac:(lia)) as Hp16. rewrite Hk, length_app, Hiv, Hc. cbn [negb].
  replace ((16 + length (pkcs7_pad 16 p)) mod 16 =? 0)%nat with true by (symmetry; apply Nat.eqb_eq; lia).
  cbn [negb]. replace (min 16 (16 + length (pkcs7_pad 16 p))) with 16%nat by lia.
  assert (Hr0 : read_at ((iv ++ c) ++ mac) 0 16 = iv).
  { unfold read_at. cbn [drop]. rewrite <- app_assoc. by apply take_app_length'. }
  rewrite Hr0, Hiv. cbn [Nat.eqb negb].
  replace (16 + length (pkcs7_pad 16 p) - 16)%nat with (length (pkcs7_pad 16 p)) by lia.
  destruct (decrypt_file_loop_spec key (S (16 + length (pkcs7_pad 16 p))) Hk iv ((iv ++ c) ++ mac) 16
    (length (pkcs7_pad 16 p)) 0 x00) as (plain & iv2 & E & Hl & ->); [lia|done|done|lia|rewrite !length_app; lia|].
  assert (Hr : read_at ((iv ++ c) ++ mac) 16 (length (pkcs7_pad 16 p)) = c).
  { unfold read_at. rewrite <- app_assoc, drop_app_length' by done. by apply take_app_length'. }
  rewrite Hr, Hd in E. apply Ok_inj, pair_equal_spec in E as [<- _]. cbn [obind fst snd].
  exists (drop (length (pkcs7_pad 16 p)) ((iv ++ c) ++ mac)). split.
  { rewrite length_drop, !length_app. lia. }
  unfold WriteAt. cbn [take app Nat.add].
  set (k := (16 - length p mod 16)%nat). assert (Hkr : (1 <= k <= 16)%nat) by (unfold k; lia).
  assert (Hpad : pkcs7_pad 16 p = p ++ repeat (z2b (Z.of_nat k)) k) by done. rewrite Hpad, last_repeat by lia.
  cbn [from_option id]. rewrite b2z_z2b_small by lia.
  replace (Z.of_nat 16 <? Z.of_nat k) with false by (symmetry; apply Z.ltb_ge; lia).
  f_equal. f_equal. rewrite length_app, repeat_length. lia.
Qed.

Lemma decryptAttachmentFile_encrypt draw keys p digest pd size : length keys = 64%nat -> 0 <= size ->
  exists body junk, macAndAESEncrypt draw keys p = Ok (body, S draw) /\ length junk = 48%nat /\
    decryptAttachmentFile body (length body) keys digest pd size =
      if negb pd && negb (beqb (sha256 body) digest) then Err ErrInvalidDigestForAttachment
      else if Z.of_nat (16 + length p) <? size then Err DecryptedTooShort
      else
        let file := take (Z.to_nat size) (pkcs7_pad 16 p ++ junk) in
        if pd && negb (beqb (sha256 file) digest) then Err PlaintextHashMismatch else Ok file.
Proof.
  intros Hk Hs. destruct (macAndAESEncrypt_shape draw keys p Hk) as (iv & c & -> & Hiv & Hc & iv' & Hd).
  pose proof (hmac_length (drop 32 keys) (iv ++ c)) as Hm.
  assert (Hok : aes_key_ok (take 32 keys) = true) by (unfold aes_key_ok; by rewrite length_take, Hk).
  destruct (aesDecryptFile_encrypt _ _ _ _ _ (hmac_sha256 (drop 32 keys) (iv ++ c)) Hok Hiv Hc Hd) as (junk & Hj & Ef).
  eexists _, junk. split; [reflexivity|]. split; [lia|].
  unfold decryptAttachmentFile, MACLength. destruct (_ && _); [done|].
  rewrite (proj2 (Nat.ltb_ge _ 32)) by (rewrite length_app; lia).
  destruct (take_body (iv ++ c) _ Hm) as [-> Hdm]. unfold read_at. rewrite Hdm.
  rewrite take_ge by lia. rewrite Hm, Hk. cbn [Nat.eqb Nat.ltb Nat.leb negb]. rewrite beqb_refl. cbn [negb].
  replace (length ((iv ++ c) ++ hmac_sha256 (drop 32 keys) (iv ++ c)) - 32)%nat with (length (iv ++ c))
    by (rewrite (length_app (iv ++ c)); lia).
  rewrite Ef. cbn [obind fst snd]. destruct (Z.ltb_spec (Z.of_nat (16 + length p)) size) as [|Hsz]; [done|].
  replace (Truncate (pkcs7_pad 16 p ++ junk) (Z.to_nat size)) with (take (Z.to_nat size) (pkcs7_pad 16 p ++ junk));
    [done|].
  unfold Truncate. rewrite (take_app_le (pkcs7_pad 16 p ++ junk)); [done|]. rewrite length_app, Hj, Hm.
  unfold pkcs7_pad. rewrite length_app. lia.
Qed.

Lemma extend_eq data cap n : (length data <= n)%nat ->
  extend data cap n = data ++ repeat x00 (n - length data).
Proof.
  intros H. unfold extend. rewrite take_ge by done. destruct (_ <=? _)%nat; [done|]. f_equal.
  replace n with (length data + (n - length data))%nat at 1 by lia.
  rewrite repeat_app. apply drop_app_length'. by rewrite repeat_length.
Qed.

Lemma upload_legacy_body respond hist attrs data hist' :
  uploadAttachmentLegacy respond hist attrs data = (hist', true) ->
  exists r, last hist' = Some r /\ rq_Body r = Some data.
Proof.
  unfold uploadAttachmentLegacy, send. cbv zeta beta iota. destruct (respond _ _) as [resp|]; [|done].
  destruct (negb _); [done|]. destruct (respond _ _) as [resp2|]; [|done].
  intros [= <- _]. eexists. by rewrite last_snoc.
Qed.

Lemma upload_tus_body respond hist attrs data hist' :
  uploadAttachmentTUS respond hist attrs data = (hist', true) ->
  exists r, last hist' = Some r /\ rq_Body r = Some data.
Proof.
  unfold uploadAttachmentTUS, send. cbv zeta beta iota. destruct (respond _ _) as [resp|]; [|done].
  intros [= <- _]. eexists. by rewrite last_snoc.
Qed.

(** Decryption in memory of an honest body, for either kind of digest. *)
Lemma decryptAttachment_encrypt draw keys p digest pd size : length keys = 64%nat ->
  exists body, macAndAESEncrypt draw keys p = Ok (body, S draw) /\
    decryptAttachment body keys digest pd size =
      if negb pd && negb (beqb (sha256 body) digest) then Err ErrInvalidDigestForAttachment
      else if Z.of_nat (length p) <? size then Err DecryptedTooShort
      else if pd && negb (beqb (sha256 (take (Z.to_nat size) p)) digest) then Err PlaintextHashMismatch
      else Ok (take (Z.to_nat size) p).
Proof.
  intros Hk. destruct (macAndAESDecrypt_encrypt draw keys p Hk) as (body & E & D).
  exists body. split; [done|]. unfold decryptAttachment. destruct (_ && _); [done|]. by rewrite D.
Qed.

(** Both ways of decrypting agree up to the size of the plaintext. *)
Lemma attachment_decrypts draw keys p digest pd size
  (Hk : length keys = 64%nat) (Hs : 0 <= size <= Z.of_nat (length p)) :
  exists body, macAndAESEncrypt draw keys p = Ok (body, S draw) /\
    decryptAttachment body keys digest pd size =
      (if negb pd && negb (beqb (sha256 body) digest) then Err ErrInvalidDigestForAttachment
       else if pd && negb (beqb (sha256 (take (Z.to_nat size) p)) digest) then Err PlaintextHashMismatch
       else Ok (take (Z.to_nat size) p)) /\
    decryptAttachmentFile body (length body) keys digest pd size = decryptAttachment body keys digest pd size.
Proof.
  destruct (decryptAttachment_encrypt draw keys p digest pd size Hk) as (body & E & D).
  destruct (decryptAttachmentFile_encrypt draw keys p digest pd size Hk ltac:(lia)) as (body' & junk & E' & _ & F).
  rewrite E in E'. apply Ok_inj, pair_equal_spec in E' as [<- _].
  exists body. split; [done|]. rewrite F, D.
  replace (Z.of_nat (length p) <? size) with false by (symmetry; apply Z.ltb_ge; lia).
  replace (Z.of_nat (16 + length p) <? size) with false by (symmetry; apply Z.ltb_ge; lia).
  split; [done|]. cbv zeta. unfold pkcs7_pad.
  by rewrite <- app_assoc, take_app_le by lia.
Qed.

(** An encrypted attachment decrypts to its plaintext, in memory and in
    place in a file alike: for every length up to the plaintext's, both
    return that prefix of the plaintext when the digest (of the ciphertext,
    or of the plaintext) matches, and both report a wrong digest.  In the
    file the data is read and overwritten in 4096-byte steps. *)
Theorem attachment_roundtrip draw keys p digest pd size
  (Hk : length keys = 64%nat) (Hs : 0 <= size <= Z.of_nat (length p)) :
  exists body, macAndAESEncrypt draw keys p = Ok (body, S draw) /\
    decryptAttachment body keys digest pd size =
      (if negb pd && negb (beqb (sha256 body) digest) then Err ErrInvalidDigestForAttachment
       else if pd && negb (beqb (sha256 (take (Z.to_nat size) p)) digest) then Err PlaintextHashMismatch
       else Ok (take (Z.to_nat size) p)) /\
    decryptAttachmentFile body (length body) keys digest pd size = decryptAttachment body keys digest pd size.
Proof. by apply attachment_decrypts. Qed.

(** Decryption in a file takes the 16 bytes of the initialization vector
    for plaintext: a pointer that claims up to 16 bytes more than the
    attachment has is refused in memory but accepted in a file, whose
    content then has bytes after the plaintext that are not part of it. *)
Theorem attachment_file_oversize draw keys p size
  (Hk : length keys = 64%nat) (Hs : Z.of_nat (length p) < size <= Z.of_nat (length p) + 16) :
  exists body extra, macAndAESEncrypt draw keys p = Ok (body, S draw) /\
    decryptAttachment body keys (sha256 body) false size = Err DecryptedTooShort /\
    decryptAttachmentFile body (length body) keys (sha256 body) false size = Ok (p ++ extra) /\
    Z.of_nat (length extra) = size - Z.of_nat (length p).
Proof.
  destruct (macAndAESDecrypt_encrypt draw keys p Hk) as (body & E & _).
  destruct (decryptAttachment_encrypt draw keys p (sha256 body) false size Hk) as (body1 & E1 & D).
  destruct (decryptAttachmentFile_encrypt draw keys p (sha256 body) false size Hk ltac:(lia)) as (body2 & junk & E2 & Hj & F).
  rewrite E in E1, E2. apply Ok_inj, pair_equal_spec in E1 as [<- _]. apply Ok_inj, pair_equal_spec in E2 as [<- _].
  set (k := (16 - length p mod 16)%nat). set (tail := repeat (z2b (Z.of_nat k)) k ++ junk).
  exists body, (take (Z.to_nat size - length p) tail). split; [done|].
  rewrite D, F, beqb_refl. cbn [negb andb].
  replace (Z.of_nat (length p) <? size) with true by (symmetry; apply Z.ltb_lt; lia).
  replace (Z.of_nat (16 + length p) <? size) with false by (symmetry; apply Z.ltb_ge; lia).
  split; [done|]. split.
  - f_equal. unfold pkcs7_pad. fold k. rewrite <- app_assoc. fold tail.
    rewrite take_app. f_equal. apply take_ge. lia.
  - rewrite length_take. unfold tail. rewrite length_app. lia.
Qed.

(** An attachment that was uploaded is what the pointer downloads: when
    [UploadAttachment] returns a pointer, the last request it sent carried
    the encrypted attachment, and if the CDN serves those bytes for the
    pointer, downloading it gives the original body, in memory and in a
    file, without the padding that was added. *)
Theorem upload_download respond upload_form padded_length hist draw body cap hist' ptr draw'
  (Hlen : in_width 32 (Z.of_nat (length body)))
  (Hup : UploadAttachment respond upload_form padded_length hist draw body cap = (hist', Ok (ptr, draw'))) :
  exists r data, last hist' = Some r /\ rq_Body r = Some data /\
    forall get into_file plaintextHash,
      get (getAttachmentPath 0 (ap_CdnKey ptr)) (ap_CdnNumber ptr) =
        Some (mkCDN 200 (Z.of_nat (length data)) data) ->
      DownloadAttachmentWithPointer get ptr plaintextHash into_file = Ok body.
Proof.
  unfold UploadAttachment in Hup. cbv zeta in Hup.
  destruct (Nat.ltb_spec (padded_length (length body)) (length body)) as [|Hpl]; [done|].
  rewrite extend_eq in Hup by done. set (p := body ++ _) in Hup.
  pose proof (random_length draw 64) as Hk.
  destruct (attachment_decrypts (S draw) (random_Bytes draw 64) p [] false 0 Hk ltac:(lia)) as (data & E & _).
  rewrite E in Hup. destruct (upload_form hist) as [attrs|]; [|done].
  destruct (if ua_Cdn attrs =? 3 then _ else _) as [h ok] eqn:Eu.
  destruct ok; cbn [negb] in Hup; [|done]. injection Hup as -> <- <-.
  assert (Hr : exists r, last hist' = Some r /\ rq_Body r = Some data)
    by (destruct (ua_Cdn attrs =? 3); eauto using upload_tus_body, upload_legacy_body).
  destruct Hr as (r & Hl & Hb). exists r, data. split; [done|]. split; [done|].
  intros get into_file ph Hg. cbn [ap_CdnKey ap_CdnNumber] in Hg.
  unfold DownloadAttachmentWithPointer, DownloadAttachment. cbn [ap_Digest ap_CdnId ap_CdnKey ap_CdnNumber ap_Key ap_Size].
  rewrite Hg. cbn [cdn_Status cdn_Body cdn_ContentLength]. change (400 <? 200) with false. cbv iota.
  assert (Hsz : 0 <= Z.of_nat (length body) <= Z.of_nat (length p)) by (unfold p; rewrite length_app; lia).
  rewrite wrap_small by done.
  destruct (attachment_decrypts (S draw) (random_Bytes draw 64) p (sha256 data) false _ Hk Hsz) as (data' & E' & D & F).
  rewrite E in E'. apply Ok_inj, pair_equal_spec in E' as [<- _]. rewrite beqb_refl in D. cbn [negb andb] in D.
  unfold p in D. rewrite Nat2Z.id, take_app_length in D. fold p in D.
  destruct into_file; [by rewrite F|].
  destruct (Z.ltb_spec 0 (Z.of_nat (length data))) as [|E0].
  - rewrite Z.ltb_irrefl, Nat2Z.id, take_ge by lia. done.
  - destruct (Z.ltb_spec (Z.max (Z.of_nat (length body)) (32 * 1024) * 2) (Z.of_nat (length data))); [lia|done].
Qed.

(** When decryption in memory panics: exactly when the body is shorter
    than a MAC although the key has the right size and the digest check is
    passed (it compares with a digest the sender of the pointer chose, or is
    skipped for plaintext digests). *)
Theorem attachment_panics_iff body key digest pd size :
  decryptAttachment body key digest pd size = Panic <->
  (length key = 64 /\ length body < 32)%nat /\ (pd = true \/ sha256 body = digest).
Proof.
  unfold decryptAttachment, macAndAESDecrypt, MACLength. split.
  - destruct (negb pd && negb (beqb (sha256 body) digest)) eqn:E; [done|].
    destruct (Nat.eqb_spec (length key) 64) as [Hk|]; cbn [negb]; [|done].
    destruct (Nat.ltb_spec (length body) 32) as [Hb|Hb].
    + intros _. split; [done|]. destruct pd; [by left|right]. cbn [negb andb] in E.
      apply negb_false_iff, beqb_eq in E. done.
    + destruct (negb (verifyMAC _ _ _)); [done|]. intros H. exfalso. revert H.
      unfold aesDecrypt, CryptBlocks_decrypt, aes_BlockSize, IVLength.
      destruct (negb (aes_key_ok _)); [done|].
      destruct (Nat.ltb_spec (length (take (length body - 32) body)) 16) as [|Hge]; [done|].
      destruct (_ mod 16 =? 0)%nat eqn:Em; cbn [negb]; [|done]. apply Nat.eqb_eq in Em.
      rewrite length_drop.
      replace ((length (take (length body - 32) body) - 16) mod 16 =? 0)%nat with true
        by (symmetry; apply Nat.eqb_eq; lia).
      cbn [negb obind fst]. destruct (pkcs7_Unpad _); cbn [of_option obind]; [|done].
      destruct (_ <? _); [done|]. destruct (pd && _); intros H; discriminate H.
  - intros [[Hk Hb] Hd].
    replace (negb pd && negb (beqb (sha256 body) digest)) with false
      by (destruct Hd as [-> | ->]; [done|rewrite beqb_refl, andb_false_r; done]).
    rewrite Hk. cbn [Nat.eqb negb]. by rewrite (proj2 (Nat.ltb_lt _ _)).
Qed.

End Properties.

(** ** Witnesses *)
Module SamplePkcs7.
#[export] Instance sample_pkcs7 : Pkcs7Lib := {
  pkcs7_Pad d n := pkcs7_pad n d;
  pkcs7_Unpad d := match UnpadPKCS7 d with Ok p => Some p | _ => None end
}.
#[export] Instance sample_pkcs7_laws : Pkcs7Laws sample_pkcs7.
Proof.
  split; intros d n Hn; cbn [pkcs7_Pad pkcs7_Unpad sample_pkcs7]; [done|]. by rewrite UnpadPKCS7_pad.
Qed.
End SamplePkcs7.

Section Witnesses.
Import SampleCrypto SamplePkcs7.

Lemma attachment_roundtrip_witness :
  exists body, macAndAESEncrypt 0 (repeat x07 64) (str "hello") = Ok (body, 1%nat) /\
    decryptAttachmentFile body (length body) (repeat x07 64) (fit 32 (str "hello")) true 5 =
      decryptAttachment body (repeat x07 64) (fit 32 (str "hello")) true 5.
Proof.
  destruct (attachment_roundtrip 0 (repeat x07 64) (str "hello") (fit 32 (str "hello")) true 5 eq_refl ltac:(done))
    as (body & E & _ & F). exists body. split; [exact E|exact F].
Defined.

Lemma attachment_file_oversize_witness :
  exists body extra, macAndAESEncrypt 0 (repeat x07 64) (str "hello") = Ok (body, 1%nat) /\
    decryptAttachmentFile body (length body) (repeat x07 64) (sha256 body) false 20 = Ok (str "hello" ++ extra).
Proof.
  destruct (attachment_file_oversize 0 (repeat x07 64) (str "hello") 20 eq_refl ltac:(done))
    as (body & extra & E & _ & F & _). exists body, extra. split; [exact E|exact F].
Defined.

Definition sample_attrs : attachmentV4UploadAttributes := mkUploadAttributes 3 (str "key") ∅ (str "https://cdn3.signal.org").
Definition sample_respond (hist : list HTTPReq) (r : HTTPReq) : option HTTPResp := Some (mkHTTPResp 201 []).

Lemma upload_download_witness :
  exists hist' ptr draw r data,
    UploadAttachment sample_respond (fun _ => Some sample_attrs) (fun _ => 16%nat) [] 0 (str "hello") 5 = (hist', Ok (ptr, draw)) /\
    last hist' = Some r /\ rq_Body r = Some data /\
    DownloadAttachmentWithPointer (fun _ _ => Some (mkCDN 200 (Z.of_nat (length data)) data)) ptr None true = Ok (str "hello").
Proof.
  assert (Hok : is_ok (UploadAttachment sample_respond (fun _ => Some sample_attrs) (fun _ => 16%nat) [] 0 (str "hello") 5).2 = true)
    by (vm_compute; reflexivity).
  destruct (UploadAttachment sample_respond (fun _ => Some sample_attrs) (fun _ => 16%nat) [] 0 (str "hello") 5)
    as [hist' [[ptr draw]| |]] eqn:E; [|discriminate Hok|discriminate Hok].
  destruct (upload_download sample_respond (fun _ => Some sample_attrs) (fun _ => 16%nat) [] 0 (str "hello") 5
    hist' ptr draw ltac:(done) E) as (r & data & Hl & Hb & Hd).
  exists hist', ptr, draw, r, data.
  split; [reflexivity|]. split; [exact Hl|]. split; [exact Hb|]. apply Hd. reflexivity.
Defined.

End Witnesses.
