(* ===== verification/AttachmentStream.v ===== *)
(** Streaming decryption of transfer archives:
    [pkg/signalmeow/attachments_stream.go] and the part of [backup.go] that
    consumes the stream.

    [decryptingReader] is an object that is read with buffers of the caller's
    choice; it keeps the CBC state, the running MAC and the number of
    ciphertext bytes left.  [splitChunksStream] cuts the decompressed stream
    into length-prefixed messages, and [archiveChunkProcessor] stores them. *)
From Stdlib Require Import ZifyNat.
From S2P Require Import Prelude GoLib Crypto Attachments.

Inductive stream_error :=
| StreamEOF
| BufferTooSmall
| FailedToReadIV (e : read_error)
| ShortRead (e : read_error)
| FailedToUnpad (e : crypto_error)
| FailedToReadMAC (e : read_error)
| HmacMismatch
| UnexpectedRemaining (n : Z)
| TotalSizeUnknown
| FailedToHash
| FailedToReadHash (e : read_error).

Record decryptingReader := mkReader {
  dr_input : bytes;
  dr_cipher : option bytes;
  dr_hashed : bytes;
  dr_aesKey : fixed 32;
  dr_macKey : fixed 32;
  dr_remainingSize : Z
}.

Section Stream.
Context `{C : CryptoLib}.

(** [verifyMACStream] of an input that is not a file, or a file of known size. *)
Definition verifyMACStream (hmacKey : fixed 32) (input : bytes) (totalSize : Z) (file_size : option Z)
  : outcome stream_error bool :=
  let! totalSize :=
    if totalSize <=? 0 then of_option TotalSizeUnknown file_size else Ok totalSize in
  let n := totalSize - Z.of_nat MACLength in
  (** [io.CopyN] copies nothing for a negative count *)
  let n := Z.to_nat n in
  if (length input <? n)%nat then Err FailedToHash
  else
    let actualHash := hmac_sha256 (fixed_bytes hmacKey) (take n input) in
    let! r := wrap_err FailedToReadHash (read_full MACLength (drop n input)) in
    Ok (beqb r.1 actualHash).

Definition aesDecryptStream (aesKey macKey : fixed 32) (input : bytes) (totalSize : Z) : decryptingReader :=
  mkReader input None [] aesKey macKey (totalSize - Z.of_nat MACLength - Z.of_nat IVLength).

(** The first call reads the initialization vector. *)
Definition start_cipher (dr : decryptingReader) : outcome stream_error (bytes * decryptingReader) :=
  match dr_cipher dr with
  | Some iv => Ok (iv, dr)
  | None =>
      let! r := wrap_err FailedToReadIV (read_full IVLength (dr_input dr)) in
      Ok (r.1, mkReader r.2 (Some r.1) (dr_hashed dr ++ r.1) (dr_aesKey dr) (dr_macKey dr) (dr_remainingSize dr))
  end.

(** The end of the stream: the padding is removed and the MAC checked. *)
Definition finish_stream (dr : decryptingReader) (p : bytes) : outcome stream_error (bytes * decryptingReader) :=
  let! p := wrap_err FailedToUnpad (UnpadPKCS7 p) in
  let! r := wrap_err FailedToReadMAC (read_full MACLength (dr_input dr)) in
  let actualMAC := hmac_sha256 (fixed_bytes (dr_macKey dr)) (dr_hashed dr) in
  if negb (beqb r.1 actualMAC) then Err HmacMismatch
  else Ok (p, mkReader r.2 (dr_cipher dr) (dr_hashed dr) (dr_aesKey dr) (dr_macKey dr) (dr_remainingSize dr)).

(** [Read] into a buffer of [plen] bytes: the bytes it leaves there and the
    new state of the reader. *)
Definition Read (dr : decryptingReader) (plen : nat) : outcome stream_error (bytes * decryptingReader) :=
  if dr_remainingSize dr =? 0 then Err StreamEOF
  else if (plen <? aes_BlockSize)%nat then Err BufferTooSmall
  else
    let! s := start_cipher dr in
    let '(iv, dr) := s in
    let maxLen := Z.of_nat (plen - plen mod aes_BlockSize) in
    let maxLen := if dr_remainingSize dr <? maxLen then dr_remainingSize dr else maxLen in
    if maxLen <? 0 then Panic
    else
      let! r := wrap_err ShortRead (read_full (Z.to_nat maxLen) (dr_input dr)) in
      let '(p, input) := r in
      let! d := CryptBlocks_decrypt (fixed_bytes (dr_aesKey dr)) iv p in
      let dr := mkReader input (Some d.2) (dr_hashed dr ++ p) (dr_aesKey dr) (dr_macKey dr)
                  (dr_remainingSize dr - maxLen) in
      if dr_remainingSize dr =? 0 then finish_stream dr d.1 else Ok (d.1, dr).

Definition Close (dr : decryptingReader) : outcome stream_error unit :=
  if negb (dr_remainingSize dr =? 0) then Err (UnexpectedRemaining (dr_remainingSize dr)) else Ok tt.

(** A consumer that calls [Read] with buffers of the given sizes until the
    end of the stream, and then [Close]. *)
Fixpoint drain (dr : decryptingReader) (sizes : list nat) (acc : bytes) : outcome stream_error bytes :=
  match sizes with
  | [] => let! _ := Close dr in Ok acc
  | plen :: sizes =>
      match Read dr plen with
      | Ok (p, dr) => drain dr sizes (acc ++ p)
      | Err StreamEOF => let! _ := Close dr in Ok acc
      | Err e => Err e
      | Panic => Panic
      end
  end.

End Stream.

(** ** Length-prefixed chunks *)

(** The largest allocation of the runtime on 64-bit systems. *)
Definition maxAlloc : Z := 2 ^ 48.

Inductive chunk_error (E : Type) :=
| FailedToReadChunkLength (e : read_error)
| FailedToReadChunk (e : read_error)
| CallbackError (e : E).
Arguments FailedToReadChunkLength {E} e.
Arguments FailedToReadChunk {E} e.
Arguments CallbackError {E} e.

Section Chunks.
Context {S E : Type} (callback : S -> bytes -> outcome E S).

Fixpoint chunk_loop (fuel : nat) (input : bytes) (s : S) : outcome (chunk_error E) S :=
  match fuel with
  | O => Ok s
  | Datatypes.S fuel =>
      match Uvarint.read_uvarint input with
      | Err EOF => Ok s
      | Err e => Err (FailedToReadChunkLength e)
      | Panic => Panic
      | Ok (msgLen, input) =>
          if msgLen =? 0 then chunk_loop fuel input s
          else if maxAlloc <? msgLen then Panic
          else
            let! r := wrap_err FailedToReadChunk (read_full (Z.to_nat msgLen) input) in
            let! s := wrap_err CallbackError (callback s r.1) in
            chunk_loop fuel r.2 s
      end
  end.

(** Every round of the loop consumes at least the length prefix. *)
Definition splitChunksStream (input : bytes) (s : S) : outcome (chunk_error E) S :=
  chunk_loop (length input + 1) input s.

End Chunks.

(** ** Backup frames

    Protobuf messages of [backuppb] are what their decoders, parameters here,
    return; the message itself is opaque except for the fields that decide
    what is stored.  A cancelled context is left out. *)
Record BackupInfo := mkBackupInfo { bi_Version : Z; bi_MediaRootBackupKey : bytes }.

Inductive Frame_Item :=
| Frame_Recipient (has_destination : bool) (raw : bytes)
| Frame_Chat (raw : bytes)
| Frame_ChatItem (supported : bool) (raw : bytes)
| Frame_Other.

Inductive backup_item := BackupRecipient (raw : bytes) | BackupChat (raw : bytes) | BackupChatItem (raw : bytes).

Inductive backup_error :=
| UnmarshalInfoFailed
| UnsupportedVersion (v : Z)
| MediaRootBackupKeyMismatch
| UnmarshalFrameFailed
| StoreFailed.

Definition BackupVersion : Z := 1.

Section Backup.
Context {Store : Type} (add : Store -> backup_item -> option Store).
Context (unmarshal_info : bytes -> option BackupInfo) (unmarshal_frame : bytes -> option Frame_Item).
Context (MediaRootBackupKey : bytes).

Record archiveChunkProcessor := mkACP { acp_info : option BackupInfo; acp_store : Store }.

(** What a frame asks to store, if anything. *)
Definition frame_item (f : Frame_Item) : option backup_item :=
  match f with
  | Frame_Recipient false _ => None
  | Frame_Recipient true raw => Some (BackupRecipient raw)
  | Frame_Chat raw => Some (BackupChat raw)
  | Frame_ChatItem false _ => None
  | Frame_ChatItem true raw => Some (BackupChatItem raw)
  | Frame_Other => None
  end.

Definition processFrame (acp : archiveChunkProcessor) (f : Frame_Item) : outcome backup_error archiveChunkProcessor :=
  match frame_item f with
  | None => Ok acp
  | Some it =>
      match add (acp_store acp) it with
      | None => Err StoreFailed
      | Some st => Ok (mkACP (acp_info acp) st)
      end
  end.

Definition processChunk (acp : archiveChunkProcessor) (buf : bytes) : outcome backup_error archiveChunkProcessor :=
  match acp_info acp with
  | None =>
      match unmarshal_info buf with
      | None => Err UnmarshalInfoFailed
      | Some info =>
          if negb (bi_Version info =? BackupVersion) then Err (UnsupportedVersion (bi_Version info))
          else if negb (beqb (bi_MediaRootBackupKey info) MediaRootBackupKey) then Err MediaRootBackupKeyMismatch
          else Ok (mkACP (Some info) (acp_store acp))
      end
  | Some _ =>
      match unmarshal_frame buf with
      | None => Err UnmarshalFrameFailed
      | Some f => processFrame acp f
      end
  end.

End Backup.
Arguments mkACP {Store} _ _.

(** ** The reader decrypts what the one-shot routine decrypts *)
Section ReaderProofs.
Context `{C : CryptoLib} `{CL : !CryptoLaws C}.

Lemma key32_ok (k : fixed 32) : aes_key_ok (fixed_bytes k) = true.
Proof. unfold aes_key_ok. by rewrite fixed_length. Qed.

(** A reader in the middle of the stream: [c] is the ciphertext left, [q] the
    plaintext left, [t] the size of the padding at its end. *)
Definition mid (dr : decryptingReader) (c q : bytes) (t : nat) : Prop :=
  exists iv iv' mac rest,
    dr_cipher dr = Some iv /\ length iv = 16%nat /\
    dr_input dr = c ++ mac ++ rest /\ length mac = 32%nat /\
    mac = hmac_sha256 (fixed_bytes (dr_macKey dr)) (dr_hashed dr ++ c) /\
    dr_remainingSize dr = Z.of_nat (length c) /\ c <> [] /\ (length c mod 16 = 0)%nat /\
    (1 <= t <= 16)%nat /\
    CryptBlocks_decrypt (E := stream_error) (fixed_bytes (dr_aesKey dr)) iv c =
      Ok (q ++ repeat (z2b (Z.of_nat t)) t, iv').

Lemma Read_mid dr c q t plen : mid dr c q t -> (16 <= plen)%nat ->
  (exists dr', Read dr plen = Ok (q, dr') /\ dr_remainingSize dr' = 0) \/
  (exists p1 c' q' dr', Read dr plen = Ok (p1, dr') /\ q = p1 ++ q' /\ mid dr' c' q' t /\
     (length c' + 16 <= length c)%nat).
Proof.
  intros (iv & iv' & mac & rest & Hc & Hiv & Hin & Hml & Hmac & Hrem & Hne & Hmod & Ht & Hd) Hp.
  unfold Read, start_cipher. rewrite Hc. unfold aes_BlockSize. cbn [obind]. rewrite Hrem, Hin.
  assert (Hpos : (16 <= length c)%nat) by (destruct c; [done|simpl length in *; lia]).
  rewrite (proj2 (Z.eqb_neq _ 0)) by lia. rewrite (proj2 (Nat.ltb_ge plen 16)) by lia. cbv zeta.
  set (n := min (plen - plen mod 16) (length c)).
  replace (if Z.of_nat (length c) <? Z.of_nat (plen - plen mod 16) then Z.of_nat (length c)
           else Z.of_nat (plen - plen mod 16)) with (Z.of_nat n)
    by (unfold n; destruct (Z.ltb_spec (Z.of_nat (length c)) (Z.of_nat (plen - plen mod 16))); lia).
  rewrite (proj2 (Z.ltb_ge (Z.of_nat n) 0)) by lia. rewrite Nat2Z.id.
  assert (Hn : (n mod 16 = 0 /\ 16 <= n <= length c)%nat) by (unfold n; lia).
  replace (c ++ mac ++ rest) with (take n c ++ drop n c ++ mac ++ rest) by (by rewrite app_assoc, take_drop).
  rewrite read_full_app by (rewrite length_take; lia).
  cbn [wrap_err obind fst snd].
  assert (H1 : exists p1 iv1, CryptBlocks_decrypt (E := stream_error) (fixed_bytes (dr_aesKey dr)) iv (take n c) = Ok (p1, iv1)).
  { unfold CryptBlocks_decrypt. rewrite length_take. replace (n `min` length c)%nat with n by lia.
    destruct Hn as [-> _]. simpl. eauto. }
  destruct H1 as (p1 & iv1 & E1). rewrite E1. cbn [obind fst snd dr_remainingSize].
  destruct (CryptBlocks_decrypt_length _ _ _ _ _ (key32_ok _) Hiv E1) as [Hp1 Hiv1].
  rewrite length_take in Hp1. pose proof (CryptBlocks_app _ _ _ (drop n c) _ _ E1) as Happ.
  rewrite take_drop, Hd in Happ.
  destruct (CryptBlocks_decrypt (E := stream_error) (fixed_bytes (dr_aesKey dr)) iv1 (drop n c)) as [[p2 iv2]| |] eqn:E2;
    cbn [obind fst snd] in Happ; [|done|done].
  apply Ok_inj, pair_equal_spec in Happ as [Hq <-].
  destruct (CryptBlocks_decrypt_length _ _ _ _ _ (key32_ok _) Hiv1 E2) as [Hp2 _]. rewrite length_drop in Hp2.
  destruct (Z.eqb_spec (Z.of_nat (length c) - Z.of_nat n) 0) as [E0|E0].
  - left. assert (n = length c) as -> by lia. destruct p2; [|simpl in Hp2; lia]. rewrite app_nil_r in Hq.
    rewrite drop_all, take_ge by lia. unfold finish_stream. cbn [dr_input dr_macKey dr_hashed dr_cipher dr_aesKey].
    assert (Hu : UnpadPKCS7 p1 = Ok q) by (apply UnpadPKCS7_spec; exists t; split; [lia|done]).
    rewrite Hu. cbn [wrap_err obind app]. unfold MACLength. rewrite read_full_app by done.
    cbn [wrap_err obind fst snd]. rewrite <- Hmac, beqb_refl. cbn [negb]. eexists. split; [reflexivity|].
    cbn [dr_remainingSize]. lia.
  - right. set (rt := repeat (z2b (Z.of_nat t)) t) in *.
    assert (Hrt : length rt = t) by apply repeat_length.
    assert (Hlen : (length q + t = length p1 + length p2)%nat)
      by (apply (f_equal length) in Hq; rewrite !length_app in Hq; lia).
    exists p1, (drop n c), (drop (length p1) q). eexists. split; [reflexivity|].
    assert (Hq1 : q = p1 ++ drop (length p1) q).
    { rewrite <- (take_drop (length p1) q) at 1. f_equal. apply (f_equal (take (length p1))) in Hq.
      rewrite take_app_length, take_app_le in Hq by lia. done. }
    split; [done|]. split; [|rewrite length_drop; lia].
    exists iv1, iv', mac, rest. cbn [dr_cipher dr_input dr_macKey dr_hashed dr_aesKey dr_remainingSize].
    rewrite length_drop, <- app_assoc, take_drop. split_and!; try done; try lia.
    + intros Hnil%(f_equal length). rewrite length_drop in Hnil. simpl in Hnil. lia.
    + rewrite E2. f_equal. f_equal. fold rt. rewrite Hq1, <- app_assoc in Hq. by apply app_inv_head in Hq.
Qed.

Lemma drain_done dr sizes acc : dr_remainingSize dr = 0 -> drain dr sizes acc = Ok acc.
Proof. intros H. destruct sizes; simpl; unfold Read, Close; by rewrite H. Qed.

Lemma drain_mid sizes : forall dr c q t acc, mid dr c q t -> Forall (fun n => (16 <= n)%nat) sizes ->
  (length c <= 16 * length sizes)%nat -> drain dr sizes acc = Ok (acc ++ q).
Proof.
  induction sizes as [|plen sizes IH]; intros dr c q t acc Hm Hs Hl.
  - destruct Hm as (? & ? & ? & ? & _ & _ & _ & _ & _ & _ & Hne & _). destruct c; [done|simpl in Hl; lia].
  - apply Forall_cons in Hs as [Hp Hs]. cbn [drain].
    destruct (Read_mid dr c q t plen Hm Hp) as [(dr' & -> & Hr)|(p1 & c' & q' & dr' & -> & -> & Hm' & Hl')].
    + by apply drain_done.
    + cbn [length] in Hl. rewrite (IH dr' c' q' t); [by rewrite app_assoc|done|done|lia].
Qed.

(** A reader that has not been read from yet. *)
Definition fresh (dr : decryptingReader) : Prop := dr_cipher dr = None /\ dr_hashed dr = [].

Lemma Read_fresh dr iv rest plen : fresh dr -> dr_input dr = iv ++ rest -> length iv = 16%nat ->
  Read dr plen = Read (mkReader rest (Some iv) iv (dr_aesKey dr) (dr_macKey dr) (dr_remainingSize dr)) plen.
Proof.
  intros [Hc Hh] Hin Hiv. unfold Read. cbn [dr_remainingSize]. destruct (_ =? _); [done|].
  destruct (plen <? aes_BlockSize)%nat; [done|]. unfold start_cipher. cbn [dr_cipher].
  rewrite Hc, Hin, Hh, read_full_app by done. done.
Qed.

Lemma drain_fresh dr iv rest sizes acc : fresh dr -> dr_input dr = iv ++ rest -> length iv = 16%nat ->
  dr_remainingSize dr <> 0 ->
  drain dr sizes acc =
    drain (mkReader rest (Some iv) iv (dr_aesKey dr) (dr_macKey dr) (dr_remainingSize dr)) sizes acc.
Proof.
  intros Hf Hin Hiv Hr. destruct sizes as [|plen sizes]; [done|]. cbn [drain].
  rewrite (Read_fresh dr iv rest plen Hf Hin Hiv).
  destruct (Read _ plen) as [[p dr']|[]|] eqn:E; try done.
Qed.

(** What a successful [Read] says about the input it consumed. *)
Lemma Read_Ok_input dr iv plen p dr' : dr_cipher dr = Some iv -> Read dr plen = Ok (p, dr') ->
  0 <= dr_remainingSize dr' /\
  dr_macKey dr' = dr_macKey dr /\ (exists iv', dr_cipher dr' = Some iv') /\
  exists c, dr_hashed dr' = dr_hashed dr ++ c /\ dr_remainingSize dr = Z.of_nat (length c) + dr_remainingSize dr' /\
    if dr_remainingSize dr' =? 0
    then exists mac, dr_input dr = c ++ mac ++ dr_input dr' /\ length mac = 32%nat /\
           mac = hmac_sha256 (fixed_bytes (dr_macKey dr)) (dr_hashed dr')
    else dr_input dr = c ++ dr_input dr'.
Proof.
  intros Hc H. unfold Read, start_cipher in H. rewrite Hc in H. cbn [obind] in H.
  destruct (dr_remainingSize dr =? 0); [done|]. destruct (_ <? _)%nat; [done|].
  set (m := if dr_remainingSize dr <? _ then _ else _) in H.
  assert (Hm : m <= dr_remainingSize dr) by (unfold m; destruct (Z.ltb_spec (dr_remainingSize dr)
    (Z.of_nat (plen - plen mod aes_BlockSize))); lia).
  destruct (Z.ltb_spec m 0) as [|Hm0]; [done|].
  destruct (read_full _ _) as [[c input]| |] eqn:Er; cbn [wrap_err obind] in H; [|done|done].
  apply read_full_Ok in Er as [Hin Hlc].
  destruct (CryptBlocks_decrypt _ _ _) as [d| |]; cbn [obind] in H; [|done|done].
  cbn [dr_remainingSize] in H. destruct (Z.eqb_spec (dr_remainingSize dr - m) 0) as [E0|E0].
  - unfold finish_stream in H. cbn [dr_input dr_macKey dr_hashed dr_cipher dr_aesKey] in H.
    destruct (UnpadPKCS7 _); cbn [wrap_err obind] in H; [|done|done].
    destruct (read_full _ _) as [[mac input']| |] eqn:Em; cbn [wrap_err obind fst snd] in H; [|done|done].
    apply read_full_Ok in Em as [-> Hlm]. destruct (beqb _ _) eqn:Eb; cbn [negb] in H; [|done].
    apply beqb_eq in Eb. apply Ok_inj, pair_equal_spec in H as [_ <-].
    cbn [dr_remainingSize dr_macKey dr_cipher dr_hashed dr_input]. rewrite E0.
    split_and!; [lia|done|eauto|]. exists c. split_and!; [done|lia|]. simpl. exists mac. done.
  - apply Ok_inj, pair_equal_spec in H as [_ <-].
    cbn [dr_remainingSize dr_macKey dr_cipher dr_hashed dr_input].
    split_and!; [lia|done|eauto|]. exists c. split_and!; [done|lia|].
    by rewrite (proj2 (Z.eqb_neq _ 0)).
Qed.

Lemma drain_authentic sizes : forall dr iv acc out, dr_cipher dr = Some iv -> 0 < dr_remainingSize dr ->
  drain dr sizes acc = Ok out ->
  exists c mac rest, dr_input dr = c ++ mac ++ rest /\ dr_remainingSize dr = Z.of_nat (length c) /\
    length mac = 32%nat /\ mac = hmac_sha256 (fixed_bytes (dr_macKey dr)) (dr_hashed dr ++ c).
Proof.
  assert (Hclose : forall (dr : decryptingReader) (acc out : bytes), 0 < dr_remainingSize dr ->
    (let! _ := Close dr in Ok acc) = Ok out -> False).
  { intros dr acc out Hp H. unfold Close in H. rewrite (proj2 (Z.eqb_neq _ 0)) in H by lia. done. }
  induction sizes as [|plen sizes IH]; intros dr iv acc out Hc Hp H; cbn [drain] in H.
  - by apply Hclose in H.
  - destruct (Read dr plen) as [[p dr']|e|] eqn:Er; [|destruct e; try done; by apply Hclose in H|done].
    apply (Read_Ok_input dr iv) in Er as (Hr0 & Hmk & (iv' & Hc') & c & Hh & Hrem & Hin); [|done].
    destruct (Z.eqb_spec (dr_remainingSize dr') 0) as [E0|E0].
    + destruct Hin as (mac & Hin & Hlm & Hmac). exists c, mac, (dr_input dr'). rewrite <- Hh.
      split_and!; [done|lia|done|done].
    + destruct (IH dr' iv' _ _ Hc' ltac:(lia) H) as (c' & mac & rest & Hin' & Hrem' & Hlm & Hmac).
      exists (c ++ c'), mac, rest. rewrite Hin, Hin', <- app_assoc. split_and!; [done| |done|].
      * rewrite length_app. lia.
      * by rewrite Hmac, Hmk, Hh, <- app_assoc.
Qed.

Context `{R : Random} `{P : Pkcs7Lib} `{RL : !RandomLaws R} `{PL : !Pkcs7Laws P}.

(** Reading an encrypted archive through [decryptingReader] gives its
    plaintext, whatever the sizes of the buffers (at least one block each)
    and whatever follows it in the input, and its MAC verifies. *)
Theorem stream_roundtrip draw (ak mk : fixed 32) p body draw' rest sizes
  (Henc : macAndAESEncrypt draw (fixed_bytes ak ++ fixed_bytes mk) p = Ok (body, draw'))
  (Hs : Forall (fun n => (16 <= n)%nat) sizes) (Hl : (length body <= 16 * length sizes)%nat) :
  drain (aesDecryptStream ak mk (body ++ rest) (Z.of_nat (length body))) sizes [] = Ok p /\
  verifyMACStream mk (body ++ rest) (Z.of_nat (length body)) None = Ok true.
Proof.
  assert (Hk : length (fixed_bytes ak ++ fixed_bytes mk) = 64%nat) by (by rewrite length_app, !fixed_length).
  destruct (macAndAESEncrypt_shape draw _ p Hk) as (iv & c & E & Hiv & Hc & iv' & Hd).
  rewrite E in Henc. apply Ok_inj, pair_equal_spec in Henc as [<- _].
  rewrite take_app_length' in Hd by (by rewrite fixed_length).
  rewrite drop_app_length' in * by (by rewrite fixed_length).
  pose proof (hmac_length (fixed_bytes mk) (iv ++ c)) as Hm.
  pose proof (pkcs7_pad_length 16 p ltac:(lia)) as Hp16.
  set (mac := hmac_sha256 (fixed_bytes mk) (iv ++ c)) in *.
  assert (Hlb : length ((iv ++ c) ++ mac) = (48 + length c)%nat) by (rewrite !length_app; lia).
  assert (Hcne : (16 <= length c)%nat).
  { rewrite Hc in *. unfold pkcs7_pad in *. rewrite length_app, repeat_length in *. lia. }
  split.
  - unfold aesDecryptStream. rewrite Hlb.
    erewrite (drain_fresh _ iv (c ++ mac ++ rest)); [|done| |done|cbn [dr_remainingSize]; unfold MACLength, IVLength; lia].
    2: { cbn [dr_input]. by rewrite <- !app_assoc. }
    apply (drain_mid sizes _ c p (16 - length p mod 16)); [|done|lia].
    exists iv, iv', mac, rest. cbn [dr_cipher dr_input dr_macKey dr_hashed dr_aesKey dr_remainingSize].
    unfold MACLength, IVLength. split_and!; try done; try lia.
    + intros ->. simpl in Hcne. lia.
    + revert Hd. unfold CryptBlocks_decrypt. destruct (negb _); [done|]. intros H. apply Ok_inj in H. by rewrite H.
  - unfold verifyMACStream, MACLength. rewrite Hlb. rewrite (proj2 (Z.leb_gt _ 0)) by lia. cbn [obind].
    replace (Z.to_nat (Z.of_nat (48 + length c) - Z.of_nat 32)) with (length (iv ++ c)) by (rewrite length_app; lia).
    rewrite <- !app_assoc, (app_assoc iv c). rewrite (proj2 (Nat.ltb_ge _ _)) by (rewrite !length_app; lia).
    rewrite take_app_length, drop_app_length, read_full_app by done. cbn [wrap_err obind fst].
    fold mac. by rewrite beqb_refl.
Qed.

(** The end of the stream is only reported for authentic data: if a
    consumer reads to the end without an error, the input begins with a
    vector and the announced number of ciphertext bytes, followed by their
    MAC under the given key. *)
Theorem stream_authentic ak mk input totalSize sizes out
  (Hsz : 48 < totalSize) (Hd : drain (aesDecryptStream ak mk input totalSize) sizes [] = Ok out) :
  exists iv c mac rest, input = iv ++ c ++ mac ++ rest /\ length iv = 16%nat /\
    Z.of_nat (length (iv ++ c ++ mac)) = totalSize /\
    mac = hmac_sha256 (fixed_bytes mk) (iv ++ c).
Proof.
  unfold aesDecryptStream, MACLength, IVLength in Hd.
  destruct (decide (16 <= length input)%nat) as [Hi|Hi].
  - rewrite <- (take_drop 16 input) in Hd.
    erewrite (drain_fresh _ (take 16 input) (drop 16 input)) in Hd;
      [|done|done|rewrite length_take; lia|cbn [dr_remainingSize]; lia].
    apply (drain_authentic sizes _ (take 16 input)) in Hd as (c & mac & rest & Hin & Hrem & Hlm & Hmac);
      [|done|cbn [dr_remainingSize]; lia].
    cbn [dr_input dr_remainingSize dr_macKey dr_hashed] in *.
    exists (take 16 input), c, mac, rest. rewrite <- Hin, take_drop. split_and!; [done|rewrite length_take; lia| |done].
    rewrite !length_app, length_take. lia.
  - exfalso. destruct sizes as [|plen sizes]; cbn [drain] in Hd.
    + unfold Close in Hd. cbn [dr_remainingSize] in Hd. by rewrite (proj2 (Z.eqb_neq _ 0)) in Hd by lia.
    + unfold Read in Hd. cbn [dr_remainingSize] in Hd. rewrite (proj2 (Z.eqb_neq _ 0)) in Hd by lia.
      destruct (_ <? _)%nat; [done|]. unfold start_cipher, read_full, IVLength in Hd. cbn [dr_cipher dr_input] in Hd.
      rewrite (proj2 (Nat.leb_gt _ _)) in Hd by lia. by destruct input.
Qed.

(** The reader trusts the announced size: when it is below the 48 bytes
    of vector and MAC, or leaves a partial block, reading panics (a negative
    slice bound, or [CryptBlocks] on a partial block) instead of failing. *)
Theorem stream_size_panics ak mk input totalSize plen (Hp : (16 <= plen)%nat) :
  (totalSize < 48 -> (16 <= length input)%nat -> Read (aesDecryptStream ak mk input totalSize) plen = Panic) /\
  (48 < totalSize < 64 -> totalSize - 32 <= Z.of_nat (length input) ->
     Read (aesDecryptStream ak mk input totalSize) plen = Panic).
Proof.
  assert (Hg : (16 <= length input)%nat -> totalSize - 48 <> 0 -> totalSize - 48 < 16 ->
    totalSize - 32 <= Z.of_nat (length input) -> Read (aesDecryptStream ak mk input totalSize) plen = Panic).
  { intros Hi Hn0 Hlt Hin. unfold aesDecryptStream, MACLength, IVLength.
    rewrite (Read_fresh _ (take 16 input) (drop 16 input)); [|done|by cbn [dr_input]; rewrite take_drop|rewrite length_take; lia].
    unfold Read, start_cipher, aes_BlockSize. cbn [dr_cipher dr_remainingSize dr_input obind].
    rewrite (proj2 (Z.eqb_neq _ 0)) by lia. rewrite (proj2 (Nat.ltb_ge plen 16)) by lia.
    rewrite (proj2 (Z.ltb_lt (totalSize - Z.of_nat 32 - Z.of_nat 16) _)) by lia.
    destruct (Z.ltb_spec (totalSize - Z.of_nat 32 - Z.of_nat 16) 0) as [|Hge]; [done|].
    set (n := Z.to_nat (totalSize - Z.of_nat 32 - Z.of_nat 16)).
    unfold read_full. rewrite length_drop, (proj2 (Nat.leb_le n _)) by lia. cbn [wrap_err obind fst snd].
    unfold CryptBlocks_decrypt. rewrite length_take, length_drop.
    replace ((n `min` (length input - 16)) mod 16 =? 0)%nat with false by (symmetry; apply Nat.eqb_neq; lia).
    done. }
  split; intros H1 H2; apply Hg; lia.
Qed.

End ReaderProofs.

(** ** Chunks *)
Section ChunkProofs.
Context {S E : Type} (callback : S -> bytes -> outcome E S).

Lemma chunk_loop_fuel f1 : forall f2 input s, (length input < f1)%nat -> (length input < f2)%nat ->
  chunk_loop callback f1 input s = chunk_loop callback f2 input s.
Proof.
  induction f1 as [|f1 IH]; intros f2 input s H1 H2; [lia|]. destruct f2 as [|f2]; [lia|]. cbn [chunk_loop].
  destruct (Uvarint.read_uvarint input) as [[n rest]|[]|] eqn:Er; try done.
  apply Uvarint.read_uvarint_suffix in Er as (l & -> & Hl). rewrite length_app in *.
  destruct (n =? 0); [apply IH; lia|]. destruct (maxAlloc <? n); [done|].
  destruct (read_full _ rest) as [[c rest']|e|] eqn:Ef; cbn [wrap_err obind fst snd]; try done.
  apply read_full_Ok in Ef as [-> Hc]. rewrite length_app in *.
  destruct (callback s c); cbn [wrap_err obind]; try done. apply IH; lia.
Qed.

(** A chunk with its length in front. *)
Definition enc_chunk (c : bytes) : bytes := Uvarint.append_uvarint (Z.of_nat (length c)) ++ c.

Lemma chunk_loop_chunks chunks : Forall (fun c => Z.of_nat (length c) <= maxAlloc) chunks ->
  forall fuel s, (length chunks < fuel)%nat ->
  chunk_loop callback fuel (concat (map enc_chunk chunks)) s =
    wrap_err CallbackError (ofoldl callback s (filter (fun c => c <> []) chunks)).
Proof.
  induction 1 as [|c chunks Hc Hcs IH]; intros fuel s Hf; (destruct fuel as [|fuel]; [simpl in Hf; lia|]).
  - done.
  - cbn [map concat chunk_loop]. unfold enc_chunk at 1. rewrite <- app_assoc.
    unfold maxAlloc in Hc. rewrite Uvarint.read_append by (unfold in_width; lia).
    destruct (Z.eqb_spec (Z.of_nat (length c)) 0) as [E0|E0].
    + destruct c; [|simpl in E0; lia]. cbn [length] in Hf.
      rewrite filter_cons_False by auto. apply IH. lia.
    + unfold maxAlloc. rewrite (proj2 (Z.ltb_ge _ _)) by lia. rewrite Nat2Z.id, read_full_app by done.
      cbn [wrap_err obind fst snd]. rewrite filter_cons_True by (by destruct c). cbn [ofoldl].
      destruct (callback s c); cbn [wrap_err obind]; try done. apply IH. cbn [length] in Hf. lia.
Qed.

Lemma append_uvarint_pos x : (1 <= length (Uvarint.append_uvarint x))%nat.
Proof. by apply Uvarint.put_length_pos. Qed.

Lemma concat_chunks_length chunks : (length chunks <= length (concat (map enc_chunk chunks)))%nat.
Proof.
  induction chunks as [|c chunks IH]; cbn [map concat length]; [lia|].
  unfold enc_chunk at 1. rewrite !length_app. pose proof (append_uvarint_pos (Z.of_nat (length c))). lia.
Qed.

(** [splitChunksStream] hands the callback exactly the non-empty chunks
    of a stream of length-prefixed chunks, in order, and stops at the first
    error of the callback; and its loop ends on every input: more rounds than
    the input has bytes never change the result. *)
Theorem split_chunks_correct chunks s input fuel
  (Hc : Forall (fun c => Z.of_nat (length c) <= maxAlloc) chunks) (Hf : (length input < fuel)%nat) :
  splitChunksStream callback (concat (map enc_chunk chunks)) s =
    wrap_err CallbackError (ofoldl callback s (filter (fun c => c <> []) chunks)) /\
  chunk_loop callback fuel input s = splitChunksStream callback input s.
Proof.
  split.
  - apply chunk_loop_chunks; [done|]. pose proof (concat_chunks_length chunks). lia.
  - apply chunk_loop_fuel; lia.
Qed.

End ChunkProofs.

Section BackupProofs.
Context {Store : Type} (add : Store -> backup_item -> option Store).
Context (unmarshal_info : bytes -> option BackupInfo) (unmarshal_frame : bytes -> option Frame_Item).
Context (key : bytes).

Fixpoint add_all (st : Store) (items : list backup_item) : option Store :=
  match items with
  | [] => Some st
  | it :: items => st' ← add st it; add_all st' items
  end.

Lemma frames_stored bufs frames info : Forall2 (fun b f => unmarshal_frame b = Some f) bufs frames -> forall st,
  ofoldl (processChunk add unmarshal_info unmarshal_frame key) (mkACP (Some info) st) bufs =
  match add_all st (omap frame_item frames) with
  | Some st' => Ok (mkACP (Some info) st')
  | None => Err StoreFailed
  end.
Proof.
  induction 1 as [|b f bufs frames Hb Hbs IH]; intros st; [done|].
  cbn [ofoldl]. unfold processChunk at 1. cbn [acp_info]. rewrite Hb. unfold processFrame.
  cbn [omap list_omap]. destruct (frame_item f) as [it|]; cbn [obind]; [|apply IH].
  cbn [acp_store add_all acp_info]. destruct (add st it) as [st'|]; cbn [obind mbind option_bind]; [apply IH|done].
Qed.

(** importing a transfer archive: nothing is stored unless the first
    chunk is a backup header of the supported version with the account's
    media key; after it, exactly the recipients with a destination, the
    chats and the supported chat items are stored, in the order of the
    archive. *)
Theorem backup_import header info bufs frames st
  (Hi : unmarshal_info header = Some info) (Hf : Forall2 (fun b f => unmarshal_frame b = Some f) bufs frames) :
  ofoldl (processChunk add unmarshal_info unmarshal_frame key) (mkACP None st) (header :: bufs) =
    if negb (bi_Version info =? BackupVersion) then Err (UnsupportedVersion (bi_Version info))
    else if negb (beqb (bi_MediaRootBackupKey info) key) then Err MediaRootBackupKeyMismatch
    else match add_all st (omap frame_item frames) with
         | Some st' => Ok (mkACP (Some info) st')
         | None => Err StoreFailed
         end.
Proof.
  cbn [ofoldl]. unfold processChunk at 1. cbn [acp_info acp_store]. rewrite Hi.
  destruct (negb _); [done|]. destruct (negb _); [done|]. cbn [obind]. by apply frames_stored.
Qed.

End BackupProofs.

(** ** Witnesses *)
Section Witnesses.
Import SampleCrypto SamplePkcs7.

Definition sample_key : fixed 32 := mk_fixed (n := 32) (repeat x07 32) eq_refl.

Definition sample_body : bytes :=
  match macAndAESEncrypt 0 (fixed_bytes sample_key ++ fixed_bytes sample_key) (str "transfer archive") with
  | Ok r => r.1
  | _ => []
  end.

Lemma stream_roundtrip_witness :
  drain (aesDecryptStream sample_key sample_key (sample_body ++ [x00]) (Z.of_nat (length sample_body)))
    [16; 20; 16; 16; 16]%nat [] = Ok (str "transfer archive").
Proof.
  apply (stream_roundtrip 0 sample_key sample_key (str "transfer archive") sample_body 1 [x00] [16; 20; 16; 16; 16]%nat).
  - vm_compute. reflexivity.
  - repeat (constructor; [lia|]). constructor.
  - vm_compute. lia.
Defined.

Lemma stream_authentic_witness :
  exists iv c mac rest, sample_body ++ [x00] = iv ++ c ++ mac ++ rest /\ length iv = 16%nat /\
    Z.of_nat (length (iv ++ c ++ mac)) = 80 /\ mac = hmac_sha256 (fixed_bytes sample_key) (iv ++ c).
Proof.
  apply (stream_authentic sample_key sample_key (sample_body ++ [x00]) 80 [32; 32]%nat (str "transfer archive")).
  - lia.
  - vm_compute. reflexivity.
Defined.

Lemma stream_size_panics_witness :
  Read (aesDecryptStream sample_key sample_key (repeat x00 48) 40) 4096 = Panic.
Proof.
  destruct (stream_size_panics sample_key sample_key (repeat x00 48) 40 4096 ltac:(vm_compute; lia)) as [H _].
  apply H; [lia|vm_compute; lia].
Defined.

Lemma split_chunks_correct_witness :
  splitChunksStream (fun s c => Ok (s ++ [c])) (concat (map enc_chunk [str "a"; []; str "bc"])) [] =
    Ok (E := chunk_error Empty_set) [str "a"; str "bc"].
Proof.
  destruct (split_chunks_correct (E := Empty_set) (fun s c => Ok (s ++ [c])) [str "a"; []; str "bc"] [] [] 1
    ltac:(repeat (constructor; [vm_compute; discriminate|]); constructor) ltac:(simpl; lia)) as [H _].
  rewrite H. reflexivity.
Defined.

Lemma backup_import_witness :
  ofoldl (processChunk (fun st it => Some (st ++ [it])) (fun _ => Some (mkBackupInfo 1 [x01]))
      (fun b => Some (Frame_Chat b)) [x01]) (mkACP None []) [str "header"; str "chat"] =
    Ok (mkACP (Some (mkBackupInfo 1 [x01])) [BackupChat (str "chat")]).
Proof.
  rewrite (backup_import (fun st it => Some (st ++ [it])) (fun _ => Some (mkBackupInfo 1 [x01]))
    (fun b => Some (Frame_Chat b)) [x01] (str "header") (mkBackupInfo 1 [x01]) [str "chat"] [Frame_Chat (str "chat")]).
  - reflexivity.
  - reflexivity.
  - constructor; [reflexivity|constructor].
Defined.

End Witnesses.
