(* ===== verification/Provisioning.v ===== *)
(** Linking of the device: the decryption of the provisioning message
    ([pkg/signalmeow/provisioning_cipher.go]) and the encrypted device name
    ([pkg/signalmeow/devicename.go]).

    Curve25519 keys and their agreement come from libsignal and are the class
    [CurveLib]; the protobuf codecs of the two messages are parameters. *)
From Stdlib Require Import ZifyNat.
From S2P Require Import Prelude GoLib Crypto.

Class CurveLib : Type := {
  PrivateKey : Type;
  PublicKey : Type;
  GetPublicKey : PrivateKey -> PublicKey;
  Agree : PrivateKey -> PublicKey -> bytes;
  Serialize : PublicKey -> bytes;
  DeserializePublicKey : bytes -> option PublicKey;
  (** the [i]-th key generated in the run *)
  GeneratePrivateKey : nat -> PrivateKey
}.
Class CurveLaws (K : CurveLib) : Prop := {
  Agree_comm a b : Agree a (GetPublicKey b) = Agree b (GetPublicKey a);
  Deserialize_Serialize k : DeserializePublicKey (Serialize k) = Some k
}.

Inductive provisioning_error :=
| UnableToDeserializeKey
| NoBody
| BodyTooShort (n : nat)
| InvalidVersion (v : byte)
| InvalidMAC
| UnableToUnpad (e : crypto_error)
| UnableToUnmarshal.

Definition SUPPORTED_VERSION : byte := x01.
Definition CIPHER_KEY_SIZE : nat := 32.
Definition MAC_SIZE : nat := 32.
Definition VERSION_OFFSET : nat := 0.
Definition VERSION_LENGTH : nat := 1.
Definition IV_OFFSET : nat := VERSION_OFFSET + VERSION_LENGTH.
Definition IV_LENGTH : nat := 16.
Definition CIPHERTEXT_OFFSET : nat := IV_OFFSET + IV_LENGTH.

Record ProvisionEnvelope := mkEnvelope { pe_PublicKey : bytes; pe_Body : option bytes }.

(** [b[i:j]] *)
Definition slice (b : bytes) (i j : nat) : bytes := take (j - i) (drop i b).

Section Provisioning.
Context `{C : CryptoLib} `{K : CurveLib} {Msg : Type} (Unmarshal : bytes -> option Msg).

Definition provisioning_info : bytes := str "TextSecure Provisioning Message".

(** [keyPair] is nil until [GetPublicKey] was called. *)
Definition ProvisioningCipher_Decrypt (keyPair : option PrivateKey) (env : ProvisionEnvelope)
  : outcome provisioning_error Msg :=
  match DeserializePublicKey (pe_PublicKey env), pe_Body env with
  | None, _ => Err UnableToDeserializeKey
  | Some _, None => Err NoBody
  | Some masterEphemeral, Some body =>
      if (length body <? CIPHERTEXT_OFFSET + CIPHER_KEY_SIZE + MAC_SIZE)%nat then Err (BodyTooShort (length body))
      else
        let version := default x00 (head body) in
        if negb (bool_decide (version = SUPPORTED_VERSION)) then Err (InvalidVersion version)
        else
          let bodyLen := length body in
          let iv := slice body IV_OFFSET (IV_OFFSET + IV_LENGTH) in
          let mac := slice body (bodyLen - MAC_SIZE) bodyLen in
          let cipherText := slice body CIPHERTEXT_OFFSET (bodyLen - CIPHER_KEY_SIZE) in
          let ivAndCipherText := slice body 0 (bodyLen - CIPHER_KEY_SIZE) in
          match keyPair with
          | None => Panic
          | Some priv =>
              let agreement := Agree priv masterEphemeral in
              let sharedSecrets := hkdf_sha256 agreement [] provisioning_info 64 in
              let parts1 := take 32 sharedSecrets in
              let parts2 := drop 32 sharedSecrets in
              let ourMac := hmac_sha256 parts2 ivAndCipherText in
              if negb (beqb ourMac mac) then Err InvalidMAC
              else
                let! r := CryptBlocks_decrypt parts1 iv cipherText in
                let! decrypted := wrap_err UnableToUnpad (UnpadPKCS7 r.1) in
                of_option UnableToUnmarshal (Unmarshal decrypted)
          end
  end.

(** What the primary device sends for a message, from the layout the offsets
    above describe. *)
Definition seal_provisioning (priv : PrivateKey) (recipient : PublicKey) (iv plaintext : bytes)
  : outcome provisioning_error ProvisionEnvelope :=
  let s := hkdf_sha256 (Agree priv recipient) [] provisioning_info 64 in
  let! c := CryptBlocks_encrypt (take 32 s) iv (pkcs7_pad 16 plaintext) in
  let m := [SUPPORTED_VERSION] ++ iv ++ c in
  Ok (mkEnvelope (Serialize (GetPublicKey priv)) (Some (m ++ hmac_sha256 (drop 32 s) m))).

End Provisioning.

(** ** Device names *)

Record DeviceName := mkDeviceName { EphemeralPublic : bytes; SyntheticIv : bytes; Ciphertext : bytes }.

Inductive device_name_error :=
| UnmarshalNameFailed
| EphemeralKeyFailed
| MarshalNameFailed
| MismatchingSyntheticIV.

Section DeviceName.
Context `{C : CryptoLib} `{K : CurveLib}.
Context (Marshal : DeviceName -> option bytes) (Unmarshal : bytes -> option DeviceName).

Definition hmacSHA256 (key input : bytes) : bytes := hmac_sha256 key input.

(** A key of the wrong size makes [aes.NewCipher] return nil, and [NewCTR] panics. *)
Definition aes256CTR (key iv source : bytes) : outcome device_name_error bytes :=
  if negb (aes_key_ok key) then Panic else Ok (ctr_xor key iv source).

Definition EncryptDeviceName (draw : nat) (name : bytes) (identityKey : PublicKey)
  : outcome device_name_error bytes :=
  let ephemeralPrivKey := GeneratePrivateKey draw in
  let ephemeralPubKeyBytes := Serialize (GetPublicKey ephemeralPrivKey) in
  let masterSecret := Agree ephemeralPrivKey identityKey in
  let key1 := hmacSHA256 masterSecret (str "auth") in
  let syntheticIV := take 16 (hmacSHA256 key1 name) in
  let key2 := hmacSHA256 masterSecret (str "cipher") in
  let cipherKey := hmacSHA256 key2 syntheticIV in
  let! nameBytes := aes256CTR cipherKey (repeat x00 16) name in
  of_option MarshalNameFailed (Marshal (mkDeviceName ephemeralPubKeyBytes syntheticIV nameBytes)).

Definition DecryptDeviceName (wrappedData : bytes) (identityKey : PrivateKey)
  : outcome device_name_error bytes :=
  let! name := of_option UnmarshalNameFailed (Unmarshal wrappedData) in
  let! ephemeralPubKey := of_option EphemeralKeyFailed (DeserializePublicKey (EphemeralPublic name)) in
  let masterSecret := Agree identityKey ephemeralPubKey in
  let key2 := hmacSHA256 masterSecret (str "cipher") in
  let cipherKey := hmacSHA256 key2 (SyntheticIv name) in
  let! decryptedName := aes256CTR cipherKey (repeat x00 16) (Ciphertext name) in
  let key1 := hmacSHA256 masterSecret (str "auth") in
  let syntheticIV := take 16 (hmacSHA256 key1 decryptedName) in
  if negb (beqb key1 (hmacSHA256 (SyntheticIv name) syntheticIV)) then Err MismatchingSyntheticIV
  else Ok decryptedName.

End DeviceName.

(** ** Properties *)
Section Proofs.
Context `{C : CryptoLib} `{K : CurveLib} `{CL : !CryptoLaws C} `{KL : !CurveLaws K}.

Lemma slice_app3 a b c : slice (a ++ b ++ c) (length a) (length a + length b) = b.
Proof.
  unfold slice. rewrite drop_app_length. replace (length a + length b - length a)%nat with (length b) by lia.
  apply take_app_length.
Qed.

Section Message.
Context {Msg : Type} (Unmarshal : bytes -> option Msg).

(** A provisioning message sealed for this device decrypts: whatever the
    primary device's key, vector and message, [Decrypt] returns the decoded
    message (the message must be at least 16 bytes long, because the length
    check asks for two blocks of ciphertext). *)
Theorem provisioning_roundtrip priv mine iv plaintext msg
  (Hiv : length iv = 16%nat) (Hp : (16 <= length plaintext)%nat) (Hm : Unmarshal plaintext = Some msg) :
  exists env, seal_provisioning priv (GetPublicKey mine) iv plaintext = Ok env /\
    ProvisioningCipher_Decrypt Unmarshal (Some mine) env = Ok msg.
Proof.
  unfold seal_provisioning. rewrite (Agree_comm priv mine).
  set (s := hkdf_sha256 (Agree mine (GetPublicKey priv)) [] provisioning_info 64).
  assert (Hs : length s = 64%nat) by apply hkdf_length.
  assert (Hk : aes_key_ok (take 32 s) = true) by (unfold aes_key_ok; by rewrite length_take, Hs).
  pose proof (pkcs7_pad_length 16 plaintext ltac:(lia)) as Hp16.
  destruct (CryptBlocks_encrypt (E := provisioning_error) (take 32 s) iv (pkcs7_pad 16 plaintext)) as [c|e|] eqn:Ec;
    [|unfold CryptBlocks_encrypt in Ec; by rewrite Hp16 in Ec|unfold CryptBlocks_encrypt in Ec; by rewrite Hp16 in Ec].
  destruct (CryptBlocks_roundtrip (F := provisioning_error) _ _ _ _ Hk Hiv Ec) as [Hl (iv' & Hd)].
  assert (Hlc : (32 <= length c)%nat)
    by (rewrite Hl; unfold pkcs7_pad in *; rewrite length_app, repeat_length in *; lia).
  eexists. split; [reflexivity|]. unfold ProvisioningCipher_Decrypt. cbn [pe_PublicKey pe_Body].
  rewrite Deserialize_Serialize. fold s.
  set (mac := hmac_sha256 (drop 32 s) ([SUPPORTED_VERSION] ++ iv ++ c)).
  assert (Hmac : length mac = 32%nat) by apply hmac_length.
  assert (Hbl : length (([SUPPORTED_VERSION] ++ iv ++ c) ++ mac) = (49 + length c)%nat)
    by (rewrite !length_app; simpl length; lia).
  rewrite Hbl. unfold CIPHERTEXT_OFFSET, CIPHER_KEY_SIZE, MAC_SIZE, IV_OFFSET, IV_LENGTH, VERSION_OFFSET, VERSION_LENGTH.
  rewrite (proj2 (Nat.ltb_ge _ _)) by lia.
  change (default x00 (head (([SUPPORTED_VERSION] ++ iv ++ c) ++ mac))) with SUPPORTED_VERSION.
  rewrite bool_decide_true by done. cbn [negb]. cbv zeta.
  replace (slice (([SUPPORTED_VERSION] ++ iv ++ c) ++ mac) 0 (49 + length c - 32)) with ([SUPPORTED_VERSION] ++ iv ++ c).
  2: { unfold slice. rewrite drop_0, Nat.sub_0_r, take_app_length'; [done|]. rewrite !length_app. simpl length. lia. }
  replace (slice (([SUPPORTED_VERSION] ++ iv ++ c) ++ mac) (49 + length c - 32) (49 + length c)) with mac.
  2: { unfold slice. rewrite drop_app_length' by (rewrite !length_app; simpl length; lia). rewrite take_ge; [done|lia]. }
  fold mac. rewrite beqb_refl. cbn [negb].
  replace (slice (([SUPPORTED_VERSION] ++ iv ++ c) ++ mac) (0 + 1) (0 + 1 + 16)) with iv.
  2: { rewrite <- !app_assoc, <- Hiv. symmetry. apply (slice_app3 [SUPPORTED_VERSION] iv (c ++ mac)). }
  replace (slice (([SUPPORTED_VERSION] ++ iv ++ c) ++ mac) (0 + 1 + 16) (49 + length c - 32)) with c.
  2: { pose proof (slice_app3 ([SUPPORTED_VERSION] ++ iv) c mac) as Hs3. rewrite <- !app_assoc in Hs3.
       rewrite <- !app_assoc. rewrite <- Hs3 at 1. f_equal; rewrite length_app; simpl length; lia. }
  rewrite Hd. cbn [obind fst]. rewrite UnpadPKCS7_pad by lia. cbn [wrap_err obind]. by rewrite Hm.
Qed.

(** a provisioning message is only accepted when its MAC is right: if
    [Decrypt] returns a message, the body has the supported version and ends
    in the MAC of everything before it under the key agreed with the sender's
    ephemeral key, and the message decodes the unpadded CBC plaintext. *)
Theorem provisioning_authentic keyPair env msg
  (Hd : ProvisioningCipher_Decrypt Unmarshal keyPair env = Ok msg) :
  exists priv pub body m mac, keyPair = Some priv /\ DeserializePublicKey (pe_PublicKey env) = Some pub /\
    pe_Body env = Some body /\ body = m ++ mac /\ head m = Some SUPPORTED_VERSION /\ length mac = 32%nat /\
    mac = hmac_sha256 (drop 32 (hkdf_sha256 (Agree priv pub) [] provisioning_info 64)) m.
Proof.
  unfold ProvisioningCipher_Decrypt in Hd. destruct (DeserializePublicKey _) as [pub|]; [|done].
  destruct (pe_Body env) as [body|]; [|done]. cbv zeta in Hd.
  unfold CIPHERTEXT_OFFSET, CIPHER_KEY_SIZE, MAC_SIZE, IV_OFFSET, IV_LENGTH, VERSION_OFFSET, VERSION_LENGTH in Hd.
  destruct (Nat.ltb_spec (length body) (0 + 1 + 16 + 32 + 32)) as [|Hl]; [done|].
  destruct (bool_decide (default x00 (head body) = SUPPORTED_VERSION)) eqn:Ev; cbn [negb] in Hd; [|done].
  destruct keyPair as [priv|]; [|done]. destruct (beqb _ _) eqn:Em; cbn [negb] in Hd; [|done].
  apply beqb_eq in Em. apply bool_decide_eq_true in Ev. unfold slice in Em. rewrite Nat.sub_0_r in Em. cbn [drop] in Em.
  rewrite (take_ge (drop (length body - 32) body)) in Em by (rewrite length_drop; lia).
  exists priv, pub, body, (take (length body - 32) body), (drop (length body - 32) body).
  rewrite take_drop. split_and!; try done.
  - destruct body as [|b body]; [done|]. cbn [length] in *. replace (S (length body) - 32)%nat with (S (length body - 32)) by lia.
    simpl in *. congruence.
  - rewrite length_drop. lia.
Qed.

End Message.

Context (Marshal : DeviceName -> option bytes) (Unmarshal : bytes -> option DeviceName).
Hypothesis Unmarshal_Marshal : forall n b, Marshal n = Some b -> Unmarshal b = Some n.

(** [DecryptDeviceName] recovers the name [EncryptDeviceName] encrypted
    but then compares the wrong values: it accepts only if the authentication
    key happens to equal the MAC of the synthetic vector under itself, so a
    name encrypted by this very code is refused. *)
Theorem device_name_check draw name identity wrapped
  (He : EncryptDeviceName Marshal draw name (GetPublicKey identity) = Ok wrapped) :
  let key1 := hmacSHA256 (Agree identity (GetPublicKey (GeneratePrivateKey draw))) (str "auth") in
  let iv := take 16 (hmacSHA256 key1 name) in
  DecryptDeviceName Unmarshal wrapped identity =
    if beqb key1 (hmacSHA256 iv iv) then Ok name else Err MismatchingSyntheticIV.
Proof.
  intros key1 iv. unfold EncryptDeviceName in He. cbv zeta in He. rewrite (Agree_comm (GeneratePrivateKey draw) identity) in He.
  fold key1 in He. fold iv in He. inv_ok. unfold aes256CTR in Hok.
  set (cipherKey := hmacSHA256 _ iv) in Hok. destruct (aes_key_ok cipherKey) eqn:Ek; cbn [negb] in Hok; [|done].
  apply Ok_inj in Hok as <-. destruct (Marshal _) as [b|] eqn:Em; cbn [of_option] in He; [|done].
  apply Ok_inj in He as <-. apply Unmarshal_Marshal in Em. unfold DecryptDeviceName. rewrite Em.
  cbn [of_option obind EphemeralPublic SyntheticIv Ciphertext]. rewrite Deserialize_Serialize. cbn [of_option obind].
  fold cipherKey. unfold aes256CTR. rewrite Ek. cbn [negb obind]. rewrite ctr_xor_involutive by done.
  fold key1. fold iv. by destruct (beqb _ _).
Qed.

End Proofs.

(** ** Witnesses *)
Module SampleCurve.
Import SampleCrypto.

Lemma xor_byte_comm a b : xor_byte a b = xor_byte b a.
Proof. unfold xor_byte. by rewrite Z.lxor_comm. Qed.

Lemma xor_bytes_comm a : forall b, xor_bytes a b = xor_bytes b a.
Proof.
  unfold xor_bytes. induction a as [|x a IH]; intros [|y b]; simpl; [done..|]. by rewrite xor_byte_comm, IH.
Qed.

#[export] Instance sample_curve : CurveLib := {
  PrivateKey := bytes;
  PublicKey := bytes;
  GetPublicKey k := k;
  Agree := xor_bytes;
  Serialize k := k;
  DeserializePublicKey := Some;
  GeneratePrivateKey i := repeat (z2b (Z.of_nat i)) 32
}.
#[export] Instance sample_curve_laws : CurveLaws sample_curve.
Proof. split; simpl; [apply xor_bytes_comm|done]. Qed.

Definition marshal (n : DeviceName) : option bytes :=
  if (length (EphemeralPublic n) =? 32)%nat && (length (SyntheticIv n) =? 16)%nat
  then Some (EphemeralPublic n ++ SyntheticIv n ++ Ciphertext n) else None.
Definition unmarshal (b : bytes) : option DeviceName :=
  Some (mkDeviceName (take 32 b) (take 16 (drop 32 b)) (drop 48 b)).

Lemma unmarshal_marshal n b : marshal n = Some b -> unmarshal b = Some n.
Proof.
  unfold marshal, unmarshal. destruct n as [e s c]. cbn [EphemeralPublic SyntheticIv Ciphertext].
  destruct (_ && _) eqn:E; [|done]. apply andb_true_iff in E as [He%Nat.eqb_eq Hs%Nat.eqb_eq]. intros [= <-].
  rewrite (take_app_length' e), (drop_app_length' e), (take_app_length' s) by done.
  rewrite app_assoc, drop_app_length'; [done|]. rewrite length_app. lia.
Qed.

Definition primary : PrivateKey (CurveLib := sample_curve) := repeat x05 32.
Definition device : PrivateKey (CurveLib := sample_curve) := repeat x09 32.

Lemma provisioning_roundtrip_witness :
  exists env, seal_provisioning primary (GetPublicKey device) (repeat x01 16) (str "provision message") = Ok env /\
    ProvisioningCipher_Decrypt Some (Some device) env = Ok (str "provision message").
Proof.
  apply (provisioning_roundtrip Some primary device (repeat x01 16) (str "provision message")).
  - reflexivity.
  - vm_compute. lia.
  - reflexivity.
Defined.

Definition sample_env : ProvisionEnvelope :=
  match seal_provisioning primary (GetPublicKey device) (repeat x01 16) (str "provision message") with
  | Ok env => env
  | _ => mkEnvelope [] None
  end.

Lemma provisioning_authentic_witness :
  exists m mac, pe_Body sample_env = Some (m ++ mac) /\ head m = Some SUPPORTED_VERSION.
Proof.
  destruct (provisioning_authentic Some (Some device) sample_env (str "provision message"))
    as (priv & pub & body & m & mac & _ & _ & Hb & Hm & Hh & _).
  - vm_compute. reflexivity.
  - exists m, mac. split; [rewrite Hb, Hm; reflexivity|exact Hh].
Defined.

Lemma device_name_check_witness :
  exists wrapped, EncryptDeviceName marshal 1 (str "bridge") (GetPublicKey device) = Ok wrapped /\
    DecryptDeviceName unmarshal wrapped device = Err MismatchingSyntheticIV.
Proof.
  assert (Hok : is_ok (EncryptDeviceName marshal 1 (str "bridge") (GetPublicKey device)) = true) by (vm_compute; reflexivity).
  destruct (EncryptDeviceName marshal 1 (str "bridge") (GetPublicKey device)) as [wrapped| |] eqn:E;
    [|discriminate Hok|discriminate Hok].
  exists wrapped. split; [reflexivity|].
  rewrite (device_name_check marshal unmarshal unmarshal_marshal 1 (str "bridge") device wrapped E).
  vm_compute. reflexivity.
Defined.

End SampleCurve.
