(* ===== verification/Storage.v ===== *)
(** The Signal storage service: [pkg/signalmeow/storageservice.go] (reading)
    and the generic part of [storagewrite.go] (writing).

    The service keeps encrypted records under random identifiers, and a
    versioned, encrypted manifest that lists them.  [buildStorageWrite] turns
    edits of records into one write operation; [modifyStorage] is the
    optimistic read-modify-write loop around it.  The HTTP client is the class
    [StorageAPI], what a server promises is [StorageServer], and the theorem
    about the loop is proved against that interface. *)
From Stdlib Require Import ZifyNat.
From S2P Require Import Prelude GoLib ServiceId Crypto.

(** ** Messages of [StorageService.proto]

    Each message keeps the fields the code reads or writes; [..._rest] stands
    for all others, including unknown ones, which [proto.Clone] keeps. *)
Record ContactRecord_Name := mkContactName { cn_Given : bytes; cn_Family : bytes }.

Record ContactRecord := mkContact {
  c_Aci : bytes;  c_E164 : bytes;  c_Pni : bytes;
  c_ProfileKey : bytes;
  c_GivenName : bytes;  c_FamilyName : bytes;
  c_Blocked : bool;  c_Whitelisted : bool;
  c_Archived : bool;  c_MarkedUnread : bool;  c_MutedUntilTimestamp : Z;
  c_SystemGivenName : bytes;  c_SystemFamilyName : bytes;
  c_Nickname : option ContactRecord_Name;
  c_AciBinary : option bytes;  c_PniBinary : option bytes;
  c_rest : bytes
}.

Record GroupV2Record := mkGroupV2 {
  g_MasterKey : bytes;
  g_Archived : bool;  g_MarkedUnread : bool;  g_MutedUntilTimestamp : Z;
  g_rest : bytes
}.

Record PinnedContact := mkPinnedContact {
  pc_ServiceId : bytes;  pc_E164 : bytes;  pc_ServiceIdBinary : bytes;  pc_rest : bytes
}.
Inductive PinIdentifier :=
| Pin_Contact (c : PinnedContact)
| Pin_LegacyGroupId (raw : bytes)
| Pin_GroupMasterKey (raw : bytes)
| Pin_ReleaseNotes
| Pin_nil.
Record PinnedConversation := mkPin { pin_Identifier : PinIdentifier; pin_rest : bytes }.

Record AccountRecord := mkAccount {
  a_ProfileKey : bytes;  a_PinnedConversations : list PinnedConversation;  a_rest : bytes
}.

Inductive StorageRecord_Record :=
| StorageRecord_Contact (c : ContactRecord)
| StorageRecord_GroupV1 (raw : bytes)
| StorageRecord_GroupV2 (g : GroupV2Record)
| StorageRecord_Account (a : AccountRecord)
| StorageRecord_StoryDistributionList (raw : bytes)
| StorageRecord_Other (raw : bytes)
| StorageRecord_nil.
Record StorageRecord := mkRecord { sr_Record : StorageRecord_Record; sr_rest : bytes }.

Definition Identifier_CONTACT : Z := 1.
Definition Identifier_GROUPV2 : Z := 3.
Definition Identifier_ACCOUNT : Z := 4.

Record Identifier := mkIdentifier { id_Raw : bytes; id_Type : Z; id_rest : bytes }.
Record ManifestRecord := mkManifest {
  m_Version : Z;
  m_SourceDevice : Z;
  m_Identifiers : list Identifier;
  m_RecordIkm : option bytes;
  m_rest : bytes
}.
Record StorageManifest := mkStorageManifest { sm_Version : Z; sm_Value : bytes }.
Record StorageItem := mkItem { si_Key : bytes; si_Value : bytes }.
Record WriteOperation := mkWriteOp {
  wo_Manifest : StorageManifest;  wo_InsertItem : list StorageItem;
  wo_DeleteKey : list bytes;  wo_ClearAll : bool
}.

Record DecryptedStorageRecord := mkDecrypted {
  d_ItemType : Z;  d_StorageID : bytes;  d_StorageRecord : StorageRecord
}.
Record storageEdit := mkEdit { OldID : bytes; edit_Record : StorageRecord }.
Record storageSnapshot := mkSnapshot { snap_Manifest : ManifestRecord; snap_Records : list DecryptedStorageRecord }.
Record builtStorageWrite := mkBuilt { Op : WriteOperation; NewRecords : list DecryptedStorageRecord }.

(** [proto.Marshal] and [proto.Unmarshal] of the two encrypted messages. *)
Class StorageProto : Type := {
  marshal_record : StorageRecord -> option bytes;
  unmarshal_record : bytes -> option StorageRecord;
  marshal_manifest : ManifestRecord -> option bytes;
  unmarshal_manifest : bytes -> option ManifestRecord
}.
(** Decoding undoes encoding (an empty byte string is not written, so it comes
    back as nil); a record that has a variant and a manifest that has a
    version are not empty messages; a manifest has no strings, so encoding it
    cannot fail. *)
Class StorageProtoLaws (P : StorageProto) : Prop := {
  unmarshal_marshal_record r b : marshal_record r = Some b -> unmarshal_record b = Some r;
  marshal_record_nonempty r b : marshal_record r = Some b -> sr_Record r <> StorageRecord_nil -> b <> [];
  marshal_manifest_total m : is_Some (marshal_manifest m);
  unmarshal_marshal_manifest m b : m_RecordIkm m <> Some [] -> marshal_manifest m = Some b -> unmarshal_manifest b = Some m;
  marshal_manifest_nonempty m b : marshal_manifest m = Some b -> m_Version m <> 0 -> b <> []
}.

Inductive storage_error :=
| ErrNoStorageRecord
| ErrTooManyPinnedChats
| ErrStorageConflict
| ErrNoStorageMasterKey
| errStorageNothingToDo
| MarshalFailed
| EditedTwice (id : bytes)
| InvalidStorageID (id : bytes)
| NotInManifest (id : bytes)
| NoManifest
| EncryptFailed (e : crypto_error)
| DecryptFailed (e : crypto_error)
| UnmarshalFailed
| NotAnAccountRecord
| NoGroupMasterKey
| GroupKeyLookupFailed
| StoreError
| ApiError (msg : bytes).

Section Keys.
Context `{C : CryptoLib}.

Definition deriveStorageServiceKey (masterKey : bytes) : bytes :=
  hmac_sha256 masterKey (str "Storage Service Encryption").

Definition deriveStorageManifestKey (storageKey : bytes) (version : Z) : bytes :=
  hmac_sha256 storageKey (str "Manifest_" ++ Decimal.format_uint version).

Definition storageServiceItemKeyInfoPrefix : bytes := str "20240801_SIGNAL_STORAGE_SERVICE_ITEM_".
Definition storageServiceItemKeyLen : nat := 32.

Definition deriveStorageItemKey (storageKey : bytes) (recordIKM : option bytes) (rawItemID b64ItemID : bytes) : bytes :=
  match recordIKM with
  | None => hmac_sha256 storageKey (str "Item_" ++ b64ItemID)
  | Some ikm => hkdf_sha256 ikm [] (storageServiceItemKeyInfoPrefix ++ rawItemID) storageServiceItemKeyLen
  end.

Context `{P : StorageProto}.

Definition decryptStorageManifest (storageKey : bytes) (m : StorageManifest) : outcome storage_error ManifestRecord :=
  let! b := wrap_err DecryptFailed (decryptBytes (deriveStorageManifestKey storageKey (sm_Version m)) (sm_Value m)) in
  of_option UnmarshalFailed (unmarshal_manifest b).

Definition decryptStorageItem (storageKey : bytes) (recordIKM : option bytes) (item : StorageItem)
  : outcome storage_error StorageRecord :=
  let base64Key := Base64.encode (si_Key item) in
  let itemKey := deriveStorageItemKey storageKey recordIKM (si_Key item) base64Key in
  let! b := wrap_err DecryptFailed (decryptBytes itemKey (si_Value item)) in
  of_option UnmarshalFailed (unmarshal_record b).

Context `{R : Random}.

Definition encryptStorageRecord (draw : nat) (storageKey : bytes) (recordIKM : option bytes) (id : bytes)
  (record : StorageRecord) : outcome storage_error (bytes * nat) :=
  let! plaintext := of_option MarshalFailed (marshal_record record) in
  let itemKey := deriveStorageItemKey storageKey recordIKM id (Base64.encode id) in
  wrap_err EncryptFailed (encryptStorageBlob draw itemKey plaintext).

Definition encryptStorageManifest (draw : nat) (storageKey : bytes) (manifest : ManifestRecord)
  : outcome storage_error (StorageManifest * nat) :=
  let! plaintext := of_option MarshalFailed (marshal_manifest manifest) in
  let! r := wrap_err EncryptFailed
    (encryptStorageBlob draw (deriveStorageManifestKey storageKey (m_Version manifest)) plaintext) in
  Ok (mkStorageManifest (m_Version manifest) r.1, r.2).

(** ** Building a write *)

Definition storageItemIDLength : nat := 16.
Definition maxStorageWriteRetries : nat := 5.

(** The inner loop of [buildStorageWrite]: the first identifier equal to
    [oldRaw] gets the new ID; its type is returned. *)
Fixpoint replace_ident (oldRaw newID : bytes) (ids : list Identifier) : option (list Identifier * Z) :=
  match ids with
  | [] => None
  | i :: ids' =>
      if negb (beqb (id_Raw i) oldRaw) then
        '(l, t) ← replace_ident oldRaw newID ids'; Some (i :: l, t)
      else Some (mkIdentifier newID (id_Type i) (id_rest i) :: ids', id_Type i)
  end.

Record build_state := mkBuildState {
  bs_ids : list Identifier;
  bs_insert : list StorageItem;
  bs_delete : list bytes;
  bs_records : list DecryptedStorageRecord;
  bs_replaced : gset bytes;
  bs_draw : nat
}.

Definition build_edit (storageKey : bytes) (recordIKM : option bytes) (st : build_state) (edit : storageEdit)
  : outcome storage_error build_state :=
  if bool_decide (OldID edit ∈ bs_replaced st) then Err (EditedTwice (OldID edit))
  else
    let! oldRaw := of_option (InvalidStorageID (OldID edit)) (Base64.decode (OldID edit)) in
    let newID := random_Bytes (bs_draw st) storageItemIDLength in
    match replace_ident oldRaw newID (bs_ids st) with
    | None => Err (NotInManifest (OldID edit))
    | Some (ids, typ) =>
        let! enc := encryptStorageRecord (S (bs_draw st)) storageKey recordIKM newID (edit_Record edit) in
        Ok (mkBuildState ids
              (bs_insert st ++ [mkItem newID enc.1])
              (bs_delete st ++ [oldRaw])
              (bs_records st ++ [mkDecrypted typ (Base64.encode newID) (edit_Record edit)])
              ({[OldID edit]} ∪ bs_replaced st) enc.2)
    end.

Definition buildStorageWrite (draw : nat) (storageKey : bytes) (manifest : ManifestRecord) (sourceDevice : Z)
  (edits : list storageEdit) : outcome storage_error (builtStorageWrite * nat) :=
  match edits with
  | [] => Err errStorageNothingToDo
  | _ =>
      let! st := ofoldl (build_edit storageKey (m_RecordIkm manifest))
                   (mkBuildState (m_Identifiers manifest) [] [] [] ∅ draw) edits in
      let newManifest := mkManifest (uint64 (m_Version manifest + 1)) sourceDevice (bs_ids st)
                           (m_RecordIkm manifest) (m_rest manifest) in
      let! em := encryptStorageManifest (bs_draw st) storageKey newManifest in
      Ok (mkBuilt (mkWriteOp em.1 (bs_insert st) (bs_delete st) false) (bs_records st), em.2)
  end.

End Keys.

(** ** The interface [storageAPI] and the loop over it *)
Class StorageAPI (W : Type) : Type := {
  fetchManifest : W -> W * outcome storage_error (option ManifestRecord);
  fetchRecords : W -> option bytes -> gmap bytes Z -> W * outcome storage_error (list DecryptedStorageRecord);
  writeStorage : W -> WriteOperation -> W * outcome storage_error bool
}.

(** The identifiers of the wanted types, by base64 ID. *)
Definition wanted_ids (wanted : list Z) (ids : list Identifier) : gmap bytes Z :=
  fold_left (fun m i => fold_left (fun m typ =>
    if id_Type i =? typ then <[Base64.encode (id_Raw i) := typ]> m else m) wanted m) ids ∅.

Section Modify.
Context `{C : CryptoLib} `{P : StorageProto} `{R : Random} {W : Type} `{A : StorageAPI W}.
Context (storageKey : bytes) (sourceDevice : Z) (wanted : list Z).
Context (mutate : storageSnapshot -> outcome storage_error (list storageEdit)).

(** One round: [inl] is the result of [modifyStorage], [inr] a version
    conflict, after which the loop starts over. *)
Definition modify_attempt (w : W) (draw : nat)
  : W * (outcome storage_error (option builtStorageWrite) + nat) :=
  match fetchManifest w with
  | (w, Err e) => (w, inl (Err e))
  | (w, Panic) => (w, inl Panic)
  | (w, Ok None) => (w, inl (Err NoManifest))
  | (w, Ok (Some manifest)) =>
      match fetchRecords w (m_RecordIkm manifest) (wanted_ids wanted (m_Identifiers manifest)) with
      | (w, Err e) => (w, inl (Err e))
      | (w, Panic) => (w, inl Panic)
      | (w, Ok records) =>
          match mutate (mkSnapshot manifest records) with
          | Err e => (w, inl (Err e))
          | Panic => (w, inl Panic)
          | Ok [] => (w, inl (Ok None))
          | Ok edits =>
              match buildStorageWrite draw storageKey manifest sourceDevice edits with
              | Err e => (w, inl (Err e))
              | Panic => (w, inl Panic)
              | Ok (built, draw) =>
                  match writeStorage w (Op built) with
                  | (w, Err e) => (w, inl (Err e))
                  | (w, Panic) => (w, inl Panic)
                  | (w, Ok false) => (w, inl (Ok (Some built)))
                  | (w, Ok true) => (w, inr draw)
                  end
              end
          end
      end
  end.

Fixpoint modify_loop (attempts : nat) (w : W) (draw : nat) : W * outcome storage_error (option builtStorageWrite) :=
  match attempts with
  | O => (w, Err ErrStorageConflict)
  | S attempts =>
      match modify_attempt w draw with
      | (w, inl res) => (w, res)
      | (w, inr draw) => modify_loop attempts w draw
      end
  end.

Definition modifyStorage (w : W) (draw : nat) : W * outcome storage_error (option builtStorageWrite) :=
  modify_loop maxStorageWriteRetries w draw.

End Modify.

(** ** Reading *)

Definition MaxReadStorageRecords : nat := 2500.

Definition manifestRecordToMap (manifest : list Identifier) : gmap bytes Z :=
  fold_left (fun m i => <[Base64.encode (id_Raw i) := id_Type i]> m) manifest ∅.

Record StorageUpdate := mkUpdate {
  su_Version : Z;
  su_NewRecords : list DecryptedStorageRecord;
  su_NoChatSettingsEvent : bool;
  su_RemovedRecords : list bytes;
  su_MissingRecords : gset bytes
}.

Section Fetch.
Context `{C : CryptoLib} `{P : StorageProto}.
(** [fetchStorageItemsChunk]: the request for one chunk of keys. *)
Context (fetch_chunk : list bytes -> outcome storage_error (list StorageItem)).

(** The chunking loop: [fuel] bounds the number of chunks. *)
Fixpoint fetch_chunks (fuel : nat) (recordKeys : list bytes) : outcome storage_error (list StorageItem) :=
  match fuel, recordKeys with
  | _, [] => Ok []
  | O, _ => Ok []
  | S fuel, _ =>
      let! items := fetch_chunk (take MaxReadStorageRecords recordKeys) in
      let! rest := fetch_chunks fuel (drop MaxReadStorageRecords recordKeys) in
      Ok (items ++ rest)
  end.

(** The decryption loop, over the map of records still expected. *)
Definition accept_item (storageKey : bytes) (recordIKM : option bytes)
  (st : list DecryptedStorageRecord * gmap bytes Z) (item : StorageItem)
  : list DecryptedStorageRecord * gmap bytes Z :=
  let '(records, input) := st in
  let base64Key := Base64.encode (si_Key item) in
  match input !! base64Key with
  | None => st
  | Some itemType =>
      match decryptStorageItem storageKey recordIKM item with
      | Ok r => (records ++ [mkDecrypted itemType base64Key r], delete base64Key input)
      | _ => st
      end
  end.

(** [order] is the order in which the range loop visits the map. *)
Definition fetchStorageRecords (order : list bytes) (storageKey : bytes) (recordIKM : option bytes)
  (inputRecords : gmap bytes Z) : outcome storage_error (list DecryptedStorageRecord * gset bytes) :=
  let! recordKeys := omapM (fun key => of_option (InvalidStorageID key) (Base64.decode key)) order in
  let! items := fetch_chunks (length recordKeys) recordKeys in
  let '(records, missing) := fold_left (accept_item storageKey recordIKM) items ([], inputRecords) in
  Ok (records, dom missing).

(** [slices.Sort] and [slices.Compact] of the existing keys: the loop body
    depends only on which keys occur, so it runs over the distinct ones. *)
Definition removed_key (newKeys : gmap bytes Z) (key : bytes) : bool := bool_decide (newKeys !! key = None).

(** [order] visits the keys that are left after the existing ones are taken out. *)
Definition FetchStorage (fetch_manifest : Z -> outcome storage_error (option ManifestRecord))
  (order : gmap bytes Z -> list bytes) (masterKey : bytes) (currentVersion : Z) (existingKeys : list bytes)
  : outcome storage_error (option StorageUpdate) :=
  let storageKey := deriveStorageServiceKey masterKey in
  let! manifest := fetch_manifest currentVersion in
  match manifest with
  | None => Ok None
  | Some manifest =>
      let all := manifestRecordToMap (m_Identifiers manifest) in
      let existing := remove_dups existingKeys in
      let removedKeys := filter (fun k => removed_key all k = true) existing in
      let newKeys := fold_left (fun m k => delete k m) existing all in
      let! r := fetchStorageRecords (order newKeys) storageKey (m_RecordIkm manifest) newKeys in
      Ok (Some (mkUpdate (m_Version manifest) r.1 false removedKeys r.2))
  end.

End Fetch.

(** ** Encryption round trips *)
Section CryptoProofs.
Context `{C : CryptoLib} `{P : StorageProto} `{R : Random}.
Context `{CL : !CryptoLaws C} `{PL : !StorageProtoLaws P} `{RL : !RandomLaws R}.

Lemma key_ok_32 (k : bytes) : length k = 32%nat -> aes_key_ok k = true.
Proof. intros H. unfold aes_key_ok. by rewrite H. Qed.

Lemma item_key_ok sk ikm raw b64 : aes_key_ok (deriveStorageItemKey sk ikm raw b64) = true.
Proof. apply key_ok_32. unfold deriveStorageItemKey. destruct ikm; [apply hkdf_length|apply hmac_length]. Qed.

Lemma manifest_key_ok sk v : aes_key_ok (deriveStorageManifestKey sk v) = true.
Proof. apply key_ok_32, hmac_length. Qed.

Lemma encryptStorageRecord_ok draw sk ikm id r b : marshal_record r = Some b -> sr_Record r <> StorageRecord_nil ->
  exists v, encryptStorageRecord draw sk ikm id r = Ok (v, S draw) /\ decryptStorageItem sk ikm (mkItem id v) = Ok r.
Proof.
  intros Hm Hn. unfold encryptStorageRecord. rewrite Hm. cbn [of_option obind].
  destruct (encryptStorageBlob_ok draw _ b (item_key_ok sk ikm id (Base64.encode id)) (marshal_record_nonempty _ _ Hm Hn))
    as (v & -> & Hd). exists v. split; [done|]. unfold decryptStorageItem. cbn [si_Key si_Value]. rewrite Hd.
  cbn [wrap_err obind]. by rewrite (unmarshal_marshal_record _ _ Hm).
Qed.

Lemma encryptStorageManifest_ok draw sk m : m_RecordIkm m <> Some [] -> m_Version m <> 0 ->
  exists sm, encryptStorageManifest draw sk m = Ok (sm, S draw) /\ sm_Version sm = m_Version m /\
    decryptStorageManifest sk sm = Ok m.
Proof.
  intros Hi Hv. unfold encryptStorageManifest. destruct (marshal_manifest_total m) as [b Hb]. rewrite Hb. cbn [of_option obind].
  destruct (encryptStorageBlob_ok draw _ b (manifest_key_ok sk (m_Version m)) (marshal_manifest_nonempty _ _ Hb Hv))
    as (v & -> & Hd). cbn [wrap_err obind fst snd]. eexists. split; [reflexivity|]. split; [done|].
  unfold decryptStorageManifest. cbn [sm_Version sm_Value]. rewrite Hd. cbn [wrap_err obind].
  by rewrite (unmarshal_marshal_manifest _ _ Hi Hb).
Qed.

End CryptoProofs.

(** ** What a write does to the manifest *)

(** The identifiers with the edited ones swapped for their new IDs. *)
Definition swap_ident (M : gmap bytes bytes) (i : Identifier) : Identifier :=
  match M !! id_Raw i with
  | Some n => mkIdentifier n (id_Type i) (id_rest i)
  | None => i
  end.
Definition swap_idents (M : gmap bytes bytes) (ids : list Identifier) : list Identifier := map (swap_ident M) ids.

Definition raws (ids : list Identifier) : list bytes := map id_Raw ids.

Lemma swap_insert_other M old new ids : old ∉ raws ids -> swap_idents (<[old := new]> M) ids = swap_idents M ids.
Proof.
  intros Ho. apply map_ext_in. intros i Hi. unfold swap_ident. rewrite lookup_insert_ne; [done|].
  intros ->. apply Ho. unfold raws. apply list_elem_of_In, in_map. done.
Qed.

(** Replacing one identifier of an already swapped list. *)
Lemma replace_ident_swap M old new ids : NoDup (raws ids) -> old ∈ raws ids -> M !! old = None ->
  (forall k v, M !! k = Some v -> v <> old) ->
  exists t, replace_ident old new (swap_idents M ids) = Some (swap_idents (<[old := new]> M) ids, t) /\
    exists i, i ∈ ids /\ id_Raw i = old /\ id_Type i = t.
Proof.
  intros Hnd Hin Hold Hval. induction ids as [|i ids IH]; [by apply elem_of_nil in Hin|].
  unfold raws in Hnd, Hin. cbn [map] in Hnd, Hin. apply NoDup_cons in Hnd as [Hni Hnd].
  cbn [swap_idents map replace_ident]. fold (swap_idents M ids). fold (swap_idents (<[old:=new]> M) ids).
  destruct (decide (id_Raw i = old)) as [E|E].
  - exists (id_Type i). subst old. split; [|exists i; split_and!; [left|done|done]].
    assert (Hs : swap_ident M i = i) by (unfold swap_ident; by rewrite Hold).
    rewrite Hs, beqb_refl. cbn [negb]. unfold swap_ident at 1. rewrite lookup_insert_eq.
    by rewrite swap_insert_other.
  - assert (Hin' : old ∈ raws ids) by (apply elem_of_cons in Hin as [->|Hin]; done).
    destruct (IH Hnd Hin') as (t & Hr & j & Hj & Hjr & Hjt). exists t. split.
    + assert (Hsi : id_Raw (swap_ident M i) <> old).
      { unfold swap_ident. destruct (M !! id_Raw i) eqn:El; [|done]. cbn [id_Raw]. by eapply Hval. }
      rewrite (proj2 (beqb_neq _ _) Hsi). cbn [negb]. rewrite Hr. cbn [mbind option_bind].
      unfold swap_ident at 2. by rewrite lookup_insert_ne by done.
    + exists j. split_and!; [by right|done|done].
Qed.

Section BuildProofs.
Context `{C : CryptoLib} `{P : StorageProto} `{R : Random}.
Context `{CL : !CryptoLaws C} `{PL : !StorageProtoLaws P} `{RL : !RandomLaws R}.

(** The IDs drawn for [n] edits: each edit draws an ID and a nonce. *)
Fixpoint new_ids (draw n : nat) : list bytes :=
  match n with
  | O => []
  | S n => random_Bytes draw storageItemIDLength :: new_ids (draw + 2) n
  end.

Lemma new_ids_length n : forall draw, length (new_ids draw n) = n.
Proof. induction n as [|n IH]; intros draw; simpl; auto. Qed.

(** An edit whose record can be encoded. *)
Definition encodable (e : storageEdit) : Prop :=
  is_Some (marshal_record (edit_Record e)) /\ sr_Record (edit_Record e) <> StorageRecord_nil.

Definition names (e : storageEdit) (raw : bytes) : Prop := OldID e = Base64.encode raw.

Lemma build_edit_ok sk ikm ids M st e old : bs_ids st = swap_idents M ids -> NoDup (raws ids) -> old ∈ raws ids ->
  M !! old = None -> (forall k v, M !! k = Some v -> v ∉ raws ids) ->
  names e old -> OldID e ∉ bs_replaced st -> encodable e ->
  exists t v, decryptStorageItem sk ikm (mkItem (random_Bytes (bs_draw st) storageItemIDLength) v) = Ok (edit_Record e) /\
    (exists i, i ∈ ids /\ id_Raw i = old /\ id_Type i = t) /\
    build_edit sk ikm st e = Ok (mkBuildState
      (swap_idents (<[old := random_Bytes (bs_draw st) storageItemIDLength]> M) ids)
      (bs_insert st ++ [mkItem (random_Bytes (bs_draw st) storageItemIDLength) v])
      (bs_delete st ++ [old])
      (bs_records st ++ [mkDecrypted t (Base64.encode (random_Bytes (bs_draw st) storageItemIDLength)) (edit_Record e)])
      ({[OldID e]} ∪ bs_replaced st) (bs_draw st + 2)).
Proof.
  intros Hids Hnd Hin HM Hval Hn Hrep [[b Hb] Hnil]. unfold build_edit.
  rewrite bool_decide_false by done. unfold names in Hn. rewrite !Hn, Base64.decode_encode.
  cbn [of_option obind]. set (n := random_Bytes (bs_draw st) storageItemIDLength).
  destruct (replace_ident_swap M old n ids Hnd Hin HM) as (t & Hr & Hi).
  { intros k v Hk ->. by eapply Hval. }
  rewrite Hids, Hr. destruct (encryptStorageRecord_ok (S (bs_draw st)) sk ikm n (edit_Record e) b Hb Hnil) as (v & -> & Hd).
  exists t, v. split_and!; [done|done|]. cbn [obind fst snd].
  by replace (bs_draw st + 2)%nat with (S (S (bs_draw st))) by lia.
Qed.

Lemma build_fold sk ikm ids edits : NoDup (raws ids) -> forall olds M st,
  Forall2 names edits olds -> Forall encodable edits ->
  bs_ids st = swap_idents M ids -> NoDup olds -> Forall (fun o => o ∈ raws ids) olds ->
  Forall (fun o => M !! o = None) olds -> Forall (fun e => OldID e ∉ bs_replaced st) edits ->
  (forall k v, M !! k = Some v -> v ∉ raws ids) ->
  (forall k, random_Bytes k storageItemIDLength ∉ raws ids) ->
  let news := new_ids (bs_draw st) (length edits) in
  exists st' items recs, ofoldl (build_edit sk ikm) st edits = Ok st' /\
    bs_ids st' = swap_idents (list_to_map (zip olds news) ∪ M) ids /\
    bs_insert st' = bs_insert st ++ items /\ map si_Key items = news /\
    Forall2 (fun e it => decryptStorageItem sk ikm it = Ok (edit_Record e)) edits items /\
    bs_delete st' = bs_delete st ++ olds /\
    bs_records st' = bs_records st ++ recs /\ map d_StorageID recs = map Base64.encode news /\
    map d_StorageRecord recs = map edit_Record edits.
Proof.
  intros Hnd. induction edits as [|e edits IH]; intros olds M st Hno Henc Hids Hndo Hin HM Hrep Hval Hfresh news.
  - inversion Hno; subst. exists st, [], []. cbn. rewrite !app_nil_r. split_and!; try done.
    + by rewrite map_empty_union.
  - inversion Hno as [|? old ? olds' Hn Hno']; subst. apply Forall_cons in Henc as [He Henc].
    apply NoDup_cons in Hndo as [Hold Hndo]. apply Forall_cons in Hin as [Hi Hin].
    apply Forall_cons in HM as [HMo HM]. apply Forall_cons in Hrep as [Hr Hrep].
    destruct (build_edit_ok sk ikm ids M st e old Hids Hnd Hi HMo Hval Hn Hr He) as (t & v & Hd & _ & Hb).
    set (n := random_Bytes (bs_draw st) storageItemIDLength) in *.
    set (st1 := mkBuildState _ _ _ _ _ _) in Hb.
    destruct (IH olds' (<[old := n]> M) st1 Hno' Henc eq_refl Hndo Hin) as (st' & items & recs & Hf & H1 & H2 & H3 & H4 & H5 & H6 & H7 & H8).
    + apply Forall_forall. intros o Ho. rewrite lookup_insert_ne by (by intros ->).
      by eapply Forall_forall in HM.
    + cbn [st1 bs_replaced]. apply Forall_forall. intros e' He'. rewrite not_elem_of_union, not_elem_of_singleton.
      eapply Forall_forall in Hrep; [|done]. split; [|done]. intros E. apply Hold.
      apply list_elem_of_lookup in He' as [k Hk]. eapply Forall2_lookup_l in Hno' as (o' & Ho' & Hno'); [|done].
      unfold names in *. rewrite Hno', Hn in E. apply Base64.encode_inj in E. subst.
      by eapply list_elem_of_lookup_2.
    + intros k x. rewrite lookup_insert_Some. intros [[_ <-]|[_ Hk]]; [apply Hfresh|by eapply Hval].
    + done.
    + exists st', (mkItem n v :: items), (mkDecrypted t (Base64.encode n) (edit_Record e) :: recs).
      cbn [ofoldl]. rewrite Hb. cbn [obind]. cbn [st1 bs_insert bs_delete bs_records bs_draw] in *.
      subst news. cbn [length new_ids zip zip_with list_to_map foldr map]. fold n.
      split_and!; try done.
      * rewrite H1. f_equal. cbn [fst snd]. rewrite <- insert_union_r; [by rewrite insert_union_l|].
        apply not_elem_of_list_to_map_1. intros Hel. apply Hold.
        apply list_elem_of_fmap in Hel as ([o' n'] & -> & Hz). by apply elem_of_zip_l in Hz.
      * rewrite H2, <- app_assoc. done.
      * cbn [si_Key]. by rewrite H3.
      * constructor; [done|done].
      * rewrite H5, <- app_assoc. done.
      * rewrite H6, <- app_assoc. done.
      * cbn [d_StorageID]. by rewrite H7.
      * cbn [d_StorageRecord]. by rewrite H8.
Qed.

(** C3: a storage write replaces exactly the edited records: for edits of
    distinct records of the manifest, [buildStorageWrite] returns an
    operation that deletes their IDs and inserts as many items under fresh
    IDs, each of which the reading side decrypts to the edited record; its
    manifest decrypts to the old one with the version raised by one, this
    device as the source, and those identifiers swapped in place.  Everything
    else, unknown fields included, is kept. *)
Theorem storage_write_correct draw sk manifest device edits olds
  (Hne : edits <> []) (Hno : Forall2 names edits olds) (Henc : Forall encodable edits)
  (Hndo : NoDup olds) (Hin : Forall (fun o => o ∈ raws (m_Identifiers manifest)) olds)
  (Hnd : NoDup (raws (m_Identifiers manifest)))
  (Hfresh : forall k, random_Bytes k storageItemIDLength ∉ raws (m_Identifiers manifest))
  (Hikm : m_RecordIkm manifest <> Some []) (Hv : 0 <= m_Version manifest < 2 ^ 64 - 1) :
  let news := new_ids draw (length edits) in
  exists built draw', buildStorageWrite draw sk manifest device edits = Ok (built, draw') /\
    wo_DeleteKey (Op built) = olds /\ map si_Key (wo_InsertItem (Op built)) = news /\ wo_ClearAll (Op built) = false /\
    Forall2 (fun e it => decryptStorageItem sk (m_RecordIkm manifest) it = Ok (edit_Record e))
      edits (wo_InsertItem (Op built)) /\
    decryptStorageManifest sk (wo_Manifest (Op built)) = Ok (mkManifest (m_Version manifest + 1) device
      (swap_idents (list_to_map (zip olds news)) (m_Identifiers manifest)) (m_RecordIkm manifest) (m_rest manifest)) /\
    sm_Version (wo_Manifest (Op built)) = m_Version manifest + 1 /\
    map d_StorageID (NewRecords built) = map Base64.encode news /\
    map d_StorageRecord (NewRecords built) = map edit_Record edits.
Proof.
  intros news.
  destruct (build_fold sk (m_RecordIkm manifest) (m_Identifiers manifest) edits Hnd olds ∅
    (mkBuildState (m_Identifiers manifest) [] [] [] ∅ draw)) as (st & items & recs & Hf & H1 & H2 & H3 & H4 & H5 & H6 & H7 & H8);
    try done.
  - cbn [bs_ids]. unfold swap_idents. rewrite (map_ext _ id); [by rewrite map_id|].
    intros i. unfold swap_ident. by rewrite lookup_empty.
  - by apply Forall_true.
  - apply Forall_true. intros e. set_solver.
  - rewrite map_union_empty in H1. cbn [bs_draw bs_insert bs_delete bs_records app] in *.
    assert (Hw : uint64 (m_Version manifest + 1) = m_Version manifest + 1) by (apply wrap_small; unfold in_width; lia).
    destruct (encryptStorageManifest_ok (bs_draw st) sk (mkManifest (uint64 (m_Version manifest + 1)) device (bs_ids st)
      (m_RecordIkm manifest) (m_rest manifest)) Hikm) as (sm & Hsm & Hver & Hdec); [cbn [m_Version]; lia|].
    cbn [m_Version] in Hver.
    eexists (mkBuilt (mkWriteOp sm (bs_insert st) (bs_delete st) false) (bs_records st)), _.
    unfold buildStorageWrite. destruct edits as [|e edits]; [done|]. rewrite Hf. cbn [obind]. rewrite Hsm.
    cbn [obind fst snd]. split; [reflexivity|]. cbn [Op NewRecords wo_DeleteKey wo_InsertItem wo_ClearAll wo_Manifest].
    rewrite Hdec, H1, H2, H5, H6, Hver, Hw. split_and!; done.
Qed.

End BuildProofs.

(** ** What a server promises

    [current] is the manifest the server holds, [later] the order in which
    the states of the world (other devices write too) follow each other.
    Versions only grow and name a manifest uniquely; a fetched manifest was
    current at some moment of the call; an accepted write was checked against
    the version it replaces. *)
Class StorageServer `{C : CryptoLib} `{P : StorageProto} {W : Type} (A : StorageAPI W) (storageKey : bytes) : Type := {
  current : W -> ManifestRecord;
  later : W -> W -> Prop;
  later_trans w1 w2 w3 : later w1 w2 -> later w2 w3 -> later w1 w3;
  later_version w w' : later w w' -> m_Version (current w) <= m_Version (current w') /\
    (m_Version (current w) = m_Version (current w') -> current w = current w');
  version_range w : 0 <= m_Version (current w) < 2 ^ 64 - 1;
  fetch_manifest_server w w' r : fetchManifest w = (w', r) -> later w w' /\
    forall m, r = Ok (Some m) -> exists w1, later w w1 /\ later w1 w' /\ current w1 = m;
  fetch_records_server w k ids w' r : fetchRecords w k ids = (w', r) -> later w w';
  write_server w op w' r : writeStorage w op = (w', r) -> later w w' /\
    (r = Ok false -> exists w1 w2, later w w1 /\ later w1 w2 /\ later w2 w' /\
      sm_Version (wo_Manifest op) = m_Version (current w1) + 1 /\
      decryptStorageManifest storageKey (wo_Manifest op) = Ok (current w2))
}.

(** An API that also records the write operations it sends. *)
#[export] Instance logged {W : Type} (A : StorageAPI W) : StorageAPI (W * list WriteOperation) := {
  fetchManifest w := let '(w', r) := fetchManifest w.1 in ((w', w.2), r);
  fetchRecords w k ids := let '(w', r) := fetchRecords w.1 k ids in ((w', w.2), r);
  writeStorage w op := let '(w', r) := writeStorage w.1 op in ((w', w.2 ++ [op]), r)
}.

Section ModifyProofs.
Context `{C : CryptoLib} `{P : StorageProto} `{R : Random} {W : Type} {A : StorageAPI W}.
Context (sk : bytes) (device : Z) (wanted : list Z).
Context (mutate : storageSnapshot -> outcome storage_error (list storageEdit)).

Lemma build_version draw m edits built draw' :
  buildStorageWrite draw sk m device edits = Ok (built, draw') ->
  sm_Version (wo_Manifest (Op built)) = uint64 (m_Version m + 1).
Proof.
  unfold buildStorageWrite. destruct edits as [|e edits]; [done|]. intros H.
  apply obind_Ok_inv in H as (st & _ & H). apply obind_Ok_inv in H as (em & He & H).
  apply Ok_inj, pair_equal_spec in H as [<- _]. cbn [Op wo_Manifest].
  unfold encryptStorageManifest in He. apply obind_Ok_inv in He as (pt & _ & He). apply obind_Ok_inv in He as (c & _ & He).
  apply Ok_inj in He as <-. done.
Qed.

Lemma build_records draw m edits built draw' :
  buildStorageWrite draw sk m device edits = Ok (built, draw') ->
  map d_StorageRecord (NewRecords built) = map edit_Record edits.
Proof.
  unfold buildStorageWrite. destruct edits as [|e edits]; [done|]. intros H.
  apply obind_Ok_inv in H as (st & Hst & H). apply obind_Ok_inv in H as (em & _ & H).
  apply Ok_inj, pair_equal_spec in H as [<- _]. cbn [NewRecords]. revert Hst. generalize (e :: edits). clear.
  intros edits. set (st0 := mkBuildState _ _ _ _ _ _). replace (map edit_Record edits) with
    (map d_StorageRecord (bs_records st0) ++ map edit_Record edits) by done.
  clearbody st0. revert st0. induction edits as [|e edits IH]; intros st0 H; cbn [ofoldl] in H.
  - apply Ok_inj in H as ->. cbn [map]. by rewrite app_nil_r.
  - apply obind_Ok_inv in H as (st1 & H1 & H2). apply IH in H2 as ->. unfold build_edit in H1.
    destruct (bool_decide _); [done|]. apply obind_Ok_inv in H1 as (raw & _ & H1).
    destruct (replace_ident _ _ _) as [[ids typ]|]; [|done]. apply obind_Ok_inv in H1 as (enc & _ & H1).
    apply Ok_inj in H1 as <-. cbn [bs_records map]. rewrite map_app, <- app_assoc. done.
Qed.

(** What was written came out of one run of [mutate]. *)
Lemma modify_written w draw w' built : modifyStorage sk device wanted mutate w draw = (w', Ok (Some built)) ->
  exists snap edits, mutate snap = Ok edits /\ edits <> [] /\
    map d_StorageRecord (NewRecords built) = map edit_Record edits.
Proof.
  unfold modifyStorage. generalize maxStorageWriteRetries. intros n. revert w draw.
  induction n as [|n IH]; intros w draw H; cbn [modify_loop] in H; [done|].
  destruct (modify_attempt sk device wanted mutate w draw) as [w1 [res|draw1]] eqn:E; [|by eapply IH].
  apply pair_equal_spec in H as [-> ->]. unfold modify_attempt in E.
  destruct (fetchManifest w) as [w2 [[m|]| |]]; try done.
  destruct (fetchRecords w2 _ _) as [w3 [records| |]]; try done.
  destruct (mutate (mkSnapshot m records)) as [[|e edits]| |] eqn:Em; try done.
  destruct (buildStorageWrite draw sk m device (e :: edits)) as [[b d]| |] eqn:Eb; try done.
  destruct (writeStorage w3 (Op b)) as [w4 [[]| |]]; try done.
  injection E as -> ->. eexists _, _. split; [exact Em|]. split; [done|]. by eapply build_records.
Qed.

Section Server.
Context {Srv : StorageServer A sk}.

Lemma attempt_server w draw w' r : modify_attempt sk device wanted mutate w draw = (w', r) ->
  later w w' /\ forall built, r = inl (Ok (Some built)) ->
  exists w1 w2 records edits d', later w w1 /\ later w1 w2 /\ later w2 w' /\
    mutate (mkSnapshot (current w1) records) = Ok edits /\ edits <> [] /\
    buildStorageWrite draw sk (current w1) device edits = Ok (built, d') /\
    decryptStorageManifest sk (wo_Manifest (Op built)) = Ok (current w2).
Proof.
  unfold modify_attempt. destruct (fetchManifest w) as [wf rf] eqn:Ef.
  apply fetch_manifest_server in Ef as [Hwf Hfm].
  destruct rf as [[m|]| |]; [|intros [= <- <-]; split; [done|intros; done]..].
  destruct (Hfm m eq_refl) as (wm & Hw1 & Hw2 & Hm).
  destruct (fetchRecords wf _ _) as [wr rr] eqn:Er. apply fetch_records_server in Er.
  assert (Hwr : later w wr) by (by apply (later_trans w wf wr)).
  destruct rr as [records| |]; [|intros [= <- <-]; split; [done|intros; done]..].
  destruct (mutate _) as [edits| |] eqn:Em; [|intros [= <- <-]; split; [done|intros; done]..].
  destruct edits as [|e edits]; [intros [= <- <-]; split; [done|intros; done]|].
  destruct (buildStorageWrite _ _ _ _ _) as [[built d']| |] eqn:Eb; [|intros [= <- <-]; split; [done|intros; done]..].
  destruct (writeStorage wr (Op built)) as [ww rw] eqn:Ew. apply write_server in Ew as [Hww Hok].
  assert (Hall : later w ww) by (by apply (later_trans w wr ww)).
  destruct rw as [[]| |]; [intros [= <- <-]; split; [done|intros; done]| |intros [= <- <-]; split; [done|intros; done]..].
  intros [= <- <-]. split; [done|]. intros built0 [= <-].
  destruct (Hok eq_refl) as (w1 & w2 & H1 & H2 & H3 & Hv & Hd).
  pose proof (build_version _ _ _ _ _ Eb) as Hbv.
  assert (Hwm1 : later wm w1) by (eauto using later_trans).
  pose proof (version_range wm) as Hr. rewrite Hm in Hr.
  rewrite wrap_small in Hbv by (unfold in_width; lia).
  destruct (later_version _ _ Hwm1) as [_ Heq]. rewrite Hm in Heq. specialize (Heq ltac:(lia)).
  exists w1, w2, records, (e :: edits), d'. rewrite <- Heq. split_and!; try done. by apply (later_trans w wr w1).
Qed.

Lemma loop_server n : forall w draw w' built,
  modify_loop sk device wanted mutate n w draw = (w', Ok (Some built)) ->
  exists w1 w2 records edits d d', later w w1 /\ later w1 w2 /\ later w2 w' /\
    mutate (mkSnapshot (current w1) records) = Ok edits /\ edits <> [] /\
    buildStorageWrite d sk (current w1) device edits = Ok (built, d') /\
    decryptStorageManifest sk (wo_Manifest (Op built)) = Ok (current w2).
Proof.
  induction n as [|n IH]; intros w draw w' built H; cbn [modify_loop] in H; [done|].
  destruct (modify_attempt _ _ _ _ w draw) as [wa [res|d]] eqn:Ea; apply attempt_server in Ea as [Hwa Ha].
  - injection H as -> ->. destruct (Ha built eq_refl) as (w1 & w2 & recs & edits & d' & Hx). exists w1, w2, recs, edits, draw, d'. done.
  - destruct (IH _ _ _ _ H) as (w1 & w2 & recs & edits & d0 & d' & H1 & Hx). exists w1, w2, recs, edits, d0, d'.
    split; [by apply (later_trans w wa w1)|done].
Qed.

(** C1: no update is lost: against any server that checks versions, when
    [modifyStorage] reports success, the accepted write replaced the very
    manifest the edits were computed from.  There is a moment during the call
    at which that manifest was current and a following one at which the
    built manifest was, with nothing written in between, whatever other
    devices did before and after. *)
Theorem modify_no_lost_update w draw w' built
  (H : modifyStorage sk device wanted mutate w draw = (w', Ok (Some built))) :
  exists w1 w2 records edits d d', later w w1 /\ later w1 w2 /\ later w2 w' /\
    mutate (mkSnapshot (current w1) records) = Ok edits /\ edits <> [] /\
    buildStorageWrite d sk (current w1) device edits = Ok (built, d') /\
    decryptStorageManifest sk (wo_Manifest (Op built)) = Ok (current w2) /\
    m_Version (current w1) + 1 = sm_Version (wo_Manifest (Op built)).
Proof.
  destruct (loop_server _ _ _ _ _ H) as (w1 & w2 & recs & edits & d & d' & H1 & H2 & H3 & H4 & H5 & H6 & H7).
  exists w1, w2, recs, edits, d, d'. split_and!; try done.
  rewrite (build_version _ _ _ _ _ H6). symmetry. apply wrap_small. pose proof (version_range w1). unfold in_width. lia.
Qed.

End Server.

(** The writes of one round. *)
Lemma attempt_log (w : W * list WriteOperation) draw w' r :
  modify_attempt sk device wanted mutate w draw = (w', r) ->
  exists ops, w'.2 = w.2 ++ ops /\ (length ops <= 1)%nat /\
    (forall built, r = inl (Ok (Some built)) -> ops = [Op built]) /\
    (r = inl (Ok None) -> ops = []) /\ (forall d, r = inr d -> length ops = 1%nat).
Proof.
  unfold modify_attempt. destruct w as [w log]. cbn [fetchManifest fetchRecords writeStorage logged fst snd].
  assert (Hnil : forall (w0 : W) r0, (w', r) = ((w0, log), r0) -> (forall built, r0 <> inl (Ok (Some built))) -> (forall d, r0 <> inr d) ->
    exists ops, w'.2 = log ++ ops /\ (length ops <= 1)%nat /\ (forall built, r = inl (Ok (Some built)) -> ops = [Op built]) /\
      (r = inl (Ok None) -> ops = []) /\ (forall d, r = inr d -> length ops = 1%nat)).
  { intros w0 r0 [= -> ->] H1 H2. exists []. cbn [snd]. rewrite app_nil_r. split_and!; try done; [simpl; lia| |].
    - intros built ->. by destruct (H1 built). - intros d ->. by destruct (H2 d). }
  destruct (fetchManifest w) as [wf [[m|]| |]]; cbn [fst snd]; try (intros E; symmetry in E; by eapply Hnil in E).
  destruct (fetchRecords wf _ _) as [wr [records| |]]; cbn [fst snd]; try (intros E; symmetry in E; by eapply Hnil in E).
  destruct (mutate _) as [[|e edits]| |]; try (intros E; symmetry in E; by eapply Hnil in E).
  destruct (buildStorageWrite _ _ _ _ _) as [[built d']| |]; cbn [fst snd]; try (intros E; symmetry in E; by eapply Hnil in E).
  destruct (writeStorage wr (Op built)) as [ww [[]| |]]; cbn [fst snd]; intros [= <- <-]; exists [Op built]; cbn [snd length];
    split_and!; try done; try lia; try (intros b [= <-]); done.
Qed.

(** The loop writes at most five times, nothing at all when there is
    nothing to change in the first round, and the operation it reports is the
    last one it sent; if every round ends in a conflict it gives up after
    exactly five writes. *)
Theorem modify_bounded w draw w' log res
  (H : modifyStorage (A := logged A) sk device wanted mutate (w, []) draw = ((w', log), res)) :
  (length log <= 5)%nat /\
  (forall built, res = Ok (Some built) -> last log = Some (Op built)) /\
  ((forall w d, exists w' d', modify_attempt (A := logged A) sk device wanted mutate w d = (w', inr d')) ->
     res = Err ErrStorageConflict /\ length log = 5%nat).
Proof.
  assert (Hg : forall n w log0 draw w' log res, modify_loop (A := logged A) sk device wanted mutate n (w, log0) draw = ((w', log), res) ->
    (length log <= length log0 + n)%nat /\ (forall built, res = Ok (Some built) -> last log = Some (Op built)) /\
    ((forall w d, exists w' d', modify_attempt (A := logged A) sk device wanted mutate w d = (w', inr d')) ->
     res = Err ErrStorageConflict /\ (length log = length log0 + n)%nat)).
  { clear. induction n as [|n IH]; intros w log0 draw w' log res H; cbn [modify_loop] in H.
    - injection H as -> -> <-. split_and!; [lia|done|]. intros _. split; [done|lia].
    - destruct (modify_attempt _ _ _ _ (w, log0) draw) as [[wa la] [r|d]] eqn:Ea;
        pose proof (attempt_log _ _ _ _ Ea) as (ops & Hops & Hle & Hb & _ & Hc); cbn [snd] in Hops; subst la.
      + injection H as -> <- ->. rewrite length_app. split_and!; [lia| |].
        * intros built ->. rewrite (Hb built eq_refl). apply last_snoc.
        * intros Hall. destruct (Hall (w, log0) draw) as (w2 & d2 & E2). rewrite E2 in Ea. done.
      + apply IH in H as (H1 & H2 & H3). rewrite length_app in *. rewrite (Hc d eq_refl) in *. split_and!; [lia|done|].
        intros Hall. destruct (H3 Hall) as [-> Hl]. split; [done|lia]. }
  destruct (Hg _ _ _ _ _ _ _ H) as (H1 & H2 & H3). split_and!; [done|done|done].
Qed.

End ModifyProofs.

(** ** Reading: what is fetched and what is missing *)
Section FetchProofs.
Context `{C : CryptoLib} `{P : StorageProto} (sk : bytes) (ikm : option bytes).

(** [records] have been accepted out of [input] and [rem] are still expected. *)
Definition partitioned (input : gmap bytes Z) (items : list StorageItem)
  (st : list DecryptedStorageRecord * gmap bytes Z) : Prop :=
  let '(records, rem) := st in
  NoDup (map d_StorageID records) /\
  Forall (fun r => input !! d_StorageID r = Some (d_ItemType r) /\ rem !! d_StorageID r = None /\
    exists it, it ∈ items /\ d_StorageID r = Base64.encode (si_Key it) /\
      decryptStorageItem sk ikm it = Ok (d_StorageRecord r)) records /\
  (forall k, rem !! k = if bool_decide (k ∈ map d_StorageID records) then None else input !! k).

Lemma accept_item_partitioned input items st it : it ∈ items -> partitioned input items st ->
  partitioned input items (accept_item sk ikm st it).
Proof.
  intros Hit. destruct st as [records rem]. intros (Hnd & Hall & Hrem). unfold accept_item.
  set (k := Base64.encode (si_Key it)). destruct (rem !! k) as [t|] eqn:Ek; [|done].
  destruct (decryptStorageItem sk ikm it) as [r| |] eqn:Ed; [|done..].
  assert (Hk : k ∉ map d_StorageID records /\ input !! k = Some t).
  { rewrite Hrem in Ek. case_bool_decide; done. }
  destruct Hk as [Hk Hin]. unfold partitioned. rewrite map_app. cbn [map d_StorageID]. split_and!.
  - apply NoDup_app. split_and!; [done| |apply NoDup_singleton].
    intros x Hx ->%list_elem_of_singleton. done.
  - apply Forall_app. split.
    + eapply Forall_impl; [exact Hall|]. intros r' (H1 & H2 & H3). split_and!; [done| |done].
      rewrite lookup_delete_None. by right.
    + constructor; [|constructor]. cbn [d_StorageID d_ItemType d_StorageRecord]. split_and!; [done|apply lookup_delete_eq|].
      exists it. done.
  - intros k'. destruct (decide (k' = k)) as [->|Hne].
    + rewrite lookup_delete_eq, bool_decide_true; [done|]. apply elem_of_app. right. by apply list_elem_of_singleton.
    + rewrite lookup_delete_ne, Hrem by done.
      rewrite (bool_decide_ext (k' ∈ map d_StorageID records) (k' ∈ map d_StorageID records ++ [k])); [done|].
      rewrite elem_of_app, list_elem_of_singleton. naive_solver.
Qed.

Lemma accept_items_partitioned input all items : forall st, Forall (fun it => it ∈ all) items ->
  partitioned input all st -> partitioned input all (fold_left (accept_item sk ikm) items st).
Proof.
  induction items as [|it items IH]; intros st Hall Hst; [done|]. apply Forall_cons in Hall as [Hit Hall].
  cbn [fold_left]. apply IH; [done|]. by apply accept_item_partitioned.
Qed.

(** what [fetchStorageRecords] returns: every record was asked for, has
    the type the manifest gave it and is the decryption of an item the server
    sent under its ID; no ID occurs twice; and the missing keys are exactly
    the requested ones without a record. *)
Theorem fetch_records_partition fetch_chunk order input records missing
  (H : fetchStorageRecords fetch_chunk order sk ikm input = Ok (records, missing)) :
  NoDup (map d_StorageID records) /\
  Forall (fun r => input !! d_StorageID r = Some (d_ItemType r) /\
    exists it, d_StorageID r = Base64.encode (si_Key it) /\ decryptStorageItem sk ikm it = Ok (d_StorageRecord r)) records /\
  missing = dom input ∖ list_to_set (map d_StorageID records).
Proof.
  unfold fetchStorageRecords in H. apply obind_Ok_inv in H as (keys & _ & H). apply obind_Ok_inv in H as (items & _ & H).
  pose proof (accept_items_partitioned input items items ([], input)) as Hp.
  destruct (fold_left _ _ _) as [recs rem]. apply Ok_inj, pair_equal_spec in H as [<- <-].
  destruct Hp as (Hnd & Hall & Hrem).
  - by apply Forall_forall.
  - split_and!; [constructor|constructor|]. intros k. by rewrite bool_decide_false by apply not_elem_of_nil.
  - split_and!; [done| |].
    + eapply Forall_impl; [exact Hall|]. intros r (H1 & _ & it & _ & H2). split; [done|]. exists it. done.
    + apply set_eq. intros k. rewrite elem_of_difference, !elem_of_dom, elem_of_list_to_set, Hrem.
      case_bool_decide as Hk.
      * split; [intros [x Hx]; done|]. intros [_ Hn]. done.
      * split; [done|]. intros [Hx _]. done.
Qed.

(** An expected item that decrypts is taken off the map, and stays off. *)
Lemma accept_item_shrinks st it k : st.2 !! k = None -> (accept_item sk ikm st it).2 !! k = None.
Proof.
  destruct st as [records rem]. unfold accept_item. cbn [snd]. intros H.
  destruct (rem !! Base64.encode (si_Key it)); [|done]. destruct (decryptStorageItem sk ikm it); [|done..].
  cbn [snd]. apply lookup_delete_None. by right.
Qed.

Lemma accept_items_shrink l k : forall st, st.2 !! k = None -> (fold_left (accept_item sk ikm) l st).2 !! k = None.
Proof. induction l as [|x l IH]; intros st H; [done|]. cbn [fold_left]. by apply IH, accept_item_shrinks. Qed.

Lemma accept_items_take items it r : forall st, it ∈ items -> decryptStorageItem sk ikm it = Ok r ->
  (fold_left (accept_item sk ikm) items st).2 !! Base64.encode (si_Key it) = None.
Proof.
  induction items as [|x items IH]; intros st Hit Hd; [by apply elem_of_nil in Hit|].
  cbn [fold_left]. apply elem_of_cons in Hit as [<-|Hit]; [|by apply IH].
  apply accept_items_shrink. destruct st as [records rem]. unfold accept_item.
  destruct (rem !! Base64.encode (si_Key it)) eqn:E; [|done]. rewrite Hd. apply lookup_delete_eq.
Qed.

(** The chunk loop asks for every key, in chunks of the allowed size. *)
Lemma fetch_chunks_complete fetch_chunk (good : bytes -> list StorageItem -> Prop)
  (Hmono : forall k l1 l2, good k l1 \/ good k l2 -> good k (l1 ++ l2))
  (Hserve : forall ks, (length ks <= MaxReadStorageRecords)%nat ->
    exists items, fetch_chunk ks = Ok items /\ forall k, k ∈ ks -> good k items) :
  forall fuel keys, (length keys <= fuel)%nat ->
    exists items, fetch_chunks fetch_chunk fuel keys = Ok items /\ forall k, k ∈ keys -> good k items.
Proof.
  induction fuel as [|fuel IH]; intros [|key keys] Hl; cbn [length] in Hl; try lia;
    try (exists []; split; [done|intros k Hk; by apply elem_of_nil in Hk]).
  cbn [fetch_chunks].
  destruct (Hserve (take MaxReadStorageRecords (key :: keys))) as (i1 & -> & H1); [rewrite length_take; lia|].
  destruct (IH (drop MaxReadStorageRecords (key :: keys))) as (i2 & H2 & H2').
  { rewrite length_drop. unfold MaxReadStorageRecords. cbn [length]. lia. }
  cbn [obind]. rewrite H2. cbn [obind]. exists (i1 ++ i2). split; [done|]. intros k Hk. apply Hmono.
  rewrite <- (take_drop MaxReadStorageRecords (key :: keys)) in Hk. apply elem_of_app in Hk as [Hk|Hk]; eauto.
Qed.

Lemma decode_keys order : (forall k, k ∈ order -> exists raw, k = Base64.encode raw) ->
  exists raws, omapM (fun key => of_option (InvalidStorageID key) (Base64.decode key)) order = Ok raws /\
    forall k, k ∈ order -> exists raw, raw ∈ raws /\ k = Base64.encode raw.
Proof.
  induction order as [|k order IH]; intros Hkeys.
  - exists []. split; [done|]. intros k Hk. by apply elem_of_nil in Hk.
  - destruct IH as (raws & H1 & H2); [intros k' Hk'; apply Hkeys; by right|].
    destruct (Hkeys k) as [raw ->]; [left|]. exists (raw :: raws). simpl. rewrite Base64.decode_encode. cbn [of_option obind].
    rewrite H1. split; [done|]. intros k Hk. apply elem_of_cons in Hk as [->|Hk]; [exists raw; split; [left|done]|].
    destruct (H2 k Hk) as (raw' & Hr & ->). exists raw'. split; [by right|done].
Qed.

(** Nothing is lost on the way: when the server answers every request of
    at most 2500 keys with an item that decrypts for each key, then
    [fetchStorageRecords] succeeds with no missing keys and a record of the
    right type for every requested ID, however many chunks that takes. *)
Theorem fetch_records_complete fetch_chunk order input
  (Hserve : forall ks, (length ks <= MaxReadStorageRecords)%nat -> exists items, fetch_chunk ks = Ok items /\
    forall k, k ∈ ks -> exists it r, it ∈ items /\ si_Key it = k /\ decryptStorageItem sk ikm it = Ok r)
  (Horder : forall k, k ∈ order <-> is_Some (input !! k))
  (Hkeys : forall k, k ∈ order -> exists raw, k = Base64.encode raw) :
  exists records, fetchStorageRecords fetch_chunk order sk ikm input = Ok (records, ∅) /\
    forall k t, input !! k = Some t -> exists r, r ∈ records /\ d_StorageID r = k /\ d_ItemType r = t.
Proof.
  destruct (decode_keys order Hkeys) as (raws & Hr & Hraws). unfold fetchStorageRecords. rewrite Hr. cbn [obind].
  destruct (fetch_chunks_complete fetch_chunk (fun k items => exists it r, it ∈ items /\ si_Key it = k /\
    decryptStorageItem sk ikm it = Ok r)) with (fuel := length raws) (keys := raws) as (items & -> & Hitems); [|done|done|].
  { intros k l1 l2 [(it & r & Hi & Hk)|(it & r & Hi & Hk)]; exists it, r; (split; [apply elem_of_app; eauto|done]). }
  cbn [obind]. pose proof (accept_items_partitioned input items items ([], input)) as Hp.
  assert (Hnone : forall k, (fold_left (accept_item sk ikm) items ([], input)).2 !! k = None).
  { intros k. destruct (decide (k ∈ order)) as [Hk|Hk].
    - destruct (Hraws k Hk) as (raw & Hin & ->). destruct (Hitems raw Hin) as (it & r & Hi & <- & Hd).
      by eapply accept_items_take.
    - apply accept_items_shrink. cbn [snd]. apply eq_None_not_Some. by rewrite <- Horder. }
  destruct (fold_left (accept_item sk ikm) items ([], input)) as [recs rem] eqn:E. cbn [snd] in Hnone.
  destruct Hp as (_ & Hall & Hrem).
  { by apply Forall_forall. }
  { split_and!; [constructor|constructor|]. intros k. by rewrite bool_decide_false by apply not_elem_of_nil. }
  exists recs. split.
  - do 2 f_equal. assert (rem = ∅) as -> by (apply map_eq; intros k; by rewrite Hnone, lookup_empty). apply dom_empty_L.
  - intros k t Hk. specialize (Hrem k). rewrite Hnone, Hk in Hrem. case_bool_decide as Hin; [|done].
    apply list_elem_of_fmap in Hin as (r & -> & Hr'). exists r. split; [done|]. split; [done|].
    rewrite Forall_forall in Hall. destruct (Hall r Hr') as [Ht _]. congruence.
Qed.

End FetchProofs.

(** ** Witnesses

    Manifests are written through their countable encoding; records other
    than the sample one are refused by the encoder. *)
#[global] Instance identifier_eq_dec : EqDecision Identifier.
Proof. solve_decision. Defined.
#[global] Program Instance identifier_countable : Countable Identifier :=
  inj_countable' (fun i => (id_Raw i, id_Type i, id_rest i)) (fun '(a, b, c) => mkIdentifier a b c) _.
Next Obligation. by intros []. Qed.
#[global] Instance manifest_eq_dec : EqDecision ManifestRecord.
Proof. solve_decision. Defined.
#[global] Program Instance manifest_countable : Countable ManifestRecord :=
  inj_countable' (fun m => (m_Version m, m_SourceDevice m, m_Identifiers m, m_RecordIkm m, m_rest m))
    (fun '(a, b, c, d, e) => mkManifest a b c d e) _.
Next Obligation. by intros []. Qed.

Module SampleStorage.
Import SampleCrypto.

Fixpoint pos_bytes (p : positive) : bytes :=
  match p with xH => [] | xO p => x00 :: pos_bytes p | xI p => x01 :: pos_bytes p end.
Fixpoint bytes_pos (l : bytes) : positive :=
  match l with [] => xH | b :: l => if bool_decide (b = x00) then xO (bytes_pos l) else xI (bytes_pos l) end.

Lemma bytes_pos_bytes p : bytes_pos (pos_bytes p) = p.
Proof. induction p as [p IH|p IH|]; simpl; by rewrite ?IH. Qed.

Definition sample_record : StorageRecord := mkRecord (StorageRecord_GroupV2 (mkGroupV2 (repeat x03 32) true false 0 [])) [].
(** The records of that group without a mute, told apart by one byte. *)
Definition sample_group (archived unread : bool) : StorageRecord :=
  mkRecord (StorageRecord_GroupV2 (mkGroupV2 (repeat x03 32) archived unread 0 [])) [].
Definition sample_byte (r : StorageRecord) : option byte :=
  match r with
  | mkRecord (StorageRecord_GroupV2 (mkGroupV2 k a u 0 [])) [] =>
      if beqb k (repeat x03 32)
      then Some (match a, u with true, false => x01 | true, true => x02 | false, false => x03 | false, true => x04 end)
      else None
  | _ => None
  end.

#[export] Instance sample_proto : StorageProto := {
  marshal_record r := (fun b => [b]) <$> sample_byte r;
  unmarshal_record b :=
    match b with
    | [x01] => Some (sample_group true false) | [x02] => Some (sample_group true true)
    | [x03] => Some (sample_group false false) | [x04] => Some (sample_group false true)
    | _ => None
    end;
  marshal_manifest m := Some (x2a :: pos_bytes (encode m));
  unmarshal_manifest b := match b with [] => None | _ :: b => decode (bytes_pos b) end
}.

#[export] Instance sample_proto_laws : StorageProtoLaws sample_proto.
Proof.
  split; cbn [marshal_record unmarshal_record marshal_manifest unmarshal_manifest sample_proto].
  - intros r b H. unfold sample_byte in H. destruct r as [[| |[k a u t gr]| | | |] rr]; try done.
    destruct t, gr, rr; try done. destruct (beqb k (repeat x03 32)) eqn:E; [|done]. apply beqb_eq in E as ->.
    by destruct a, u; injection H as <-.
  - intros r b H _. destruct (sample_byte r); [|done]. by injection H as <-.
  - eauto.
  - intros m b _ [= <-]. rewrite bytes_pos_bytes. apply decode_encode.
  - intros m b [= <-] _. done.
Qed.

Definition sample_manifest : ManifestRecord :=
  mkManifest 41 1 [mkIdentifier (str "contact-one-0001") 1 []; mkIdentifier (str "group-one--0003") 3 []] (Some [x09]) (str "unknown").

Lemma storage_write_correct_witness :
  exists built draw', buildStorageWrite 0 (repeat x07 32) sample_manifest 3
      [mkEdit (Base64.encode (str "group-one--0003")) sample_record] = Ok (built, draw') /\
    wo_DeleteKey (Op built) = [str "group-one--0003"] /\ sm_Version (wo_Manifest (Op built)) = 42.
Proof.
  destruct (storage_write_correct 0 (repeat x07 32) sample_manifest 3
    [mkEdit (Base64.encode (str "group-one--0003")) sample_record] [str "group-one--0003"])
    as (built & draw' & H1 & H2 & _ & _ & _ & _ & H3 & _).
  - discriminate.
  - constructor; [reflexivity|constructor].
  - constructor; [|constructor]. split; [eexists; reflexivity|discriminate].
  - apply NoDup_singleton.
  - constructor; [|constructor]. cbn. right. left.
  - cbn. apply (bool_decide_unpack _). reflexivity.
  - intros k Hk. cbn in Hk. apply elem_of_cons in Hk as [Hk|Hk].
    + apply (f_equal (take 2)) in Hk. cbn in Hk. congruence.
    + apply list_elem_of_singleton in Hk. apply (f_equal length) in Hk. discriminate Hk.
  - discriminate.
  - cbn. lia.
  - exists built, draw'. split; [exact H1|]. split; [exact H2|exact H3].
Defined.

(** A server in memory with one manifest, no other device writing. *)
Definition clamp (m : ManifestRecord) : ManifestRecord :=
  mkManifest (Z.max 0 (Z.min (m_Version m) (2 ^ 64 - 2))) (m_SourceDevice m) (m_Identifiers m) (m_RecordIkm m) (m_rest m).

#[export] Instance memory_api : StorageAPI ManifestRecord := {
  fetchManifest w := (w, Ok (Some (clamp w)));
  fetchRecords w ikm ids :=
    (w, Ok [mkDecrypted 3 (Base64.encode (str "group-one--0003")) sample_record]);
  writeStorage w op :=
    match decryptStorageManifest (repeat x07 32) (wo_Manifest op) with
    | Ok m => if (sm_Version (wo_Manifest op) =? m_Version (clamp w) + 1) && (m_Version m =? sm_Version (wo_Manifest op))
                 && (m_Version m <? 2 ^ 64 - 1)
              then (m, Ok false) else (w, Ok true)
    | _ => (w, Err UnmarshalFailed)
    end
}.

#[export] Instance memory_server : StorageServer memory_api (repeat x07 32).
Proof.
  refine {| current := clamp;
            later w w' := m_Version (clamp w) < m_Version (clamp w') \/ clamp w = clamp w' |}.
  - intros w1 w2 w3 [H1|H1] [H2|H2].
    + left. lia.
    + left. by rewrite <- H2.
    + left. by rewrite H1.
    + right. by rewrite H1.
  - intros w w' [H|H]; [split; lia|]. rewrite H. split; [lia|done].
  - intros w. cbn [clamp m_Version]. lia.
  - intros w w' r [= <- <-]. split; [by right|]. intros m [= <-]. exists w. split_and!; [by right|by right|done].
  - intros w k ids w' r [= <- _]. by right.
  - intros w op w' r H. cbn [writeStorage memory_api] in H.
    destruct (decryptStorageManifest _ _) as [m| |] eqn:Ed; [|injection H as <- <-; split; [by right|done]..].
    destruct (_ && _) eqn:Ec; injection H as <- <-; [|split; [by right|done]].
    apply andb_true_iff in Ec as [Ec E3]. apply andb_true_iff in Ec as [E1 E2].
    apply Z.eqb_eq in E1. apply Z.eqb_eq in E2. apply Z.ltb_lt in E3.
    assert (Hr : 0 <= m_Version (clamp w)) by (cbn [clamp m_Version]; lia).
    assert (Hm : clamp m = m).
    { destruct m as [v ? ? ? ?]. unfold clamp. cbn [m_Version] in *. f_equal. lia. }
    assert (Hl : m_Version (clamp w) < m_Version (clamp m) \/ clamp w = clamp m) by (left; rewrite Hm; lia).
    split; [done|]. intros _. exists w, m. split_and!; [by right|done|by right|done|by rewrite Hm].
Defined.

Definition sample_mutate (s : storageSnapshot) : outcome storage_error (list storageEdit) :=
  Ok (map (fun r => mkEdit (d_StorageID r) (d_StorageRecord r)) (snap_Records s)).

Lemma modify_no_lost_update_witness :
  exists w' built w1 w2, modifyStorage (R := sample_random) (repeat x07 32) 3 [3] sample_mutate sample_manifest 0 = (w', Ok (Some built)) /\
    later (StorageServer := memory_server) sample_manifest w1 /\ later (StorageServer := memory_server) w1 w2 /\
    decryptStorageManifest (repeat x07 32) (wo_Manifest (Op built)) = Ok (current (StorageServer := memory_server) w2).
Proof.
  assert (Hok : match (modifyStorage (R := sample_random) (repeat x07 32) 3 [3] sample_mutate sample_manifest 0).2 with Ok (Some _) => true | _ => false end = true)
    by (vm_compute; reflexivity).
  destruct (modifyStorage (R := sample_random) (repeat x07 32) 3 [3] sample_mutate sample_manifest 0) as [w' [[built|]| |]] eqn:E;
    [|discriminate Hok|discriminate Hok|discriminate Hok].
  destruct (modify_no_lost_update (Srv := memory_server) (repeat x07 32) 3 [3] sample_mutate sample_manifest 0 w' built E)
    as (w1 & w2 & recs & edits & d & d' & H1 & H2 & H3 & H4 & H5 & H6 & H7 & H8).
  exists w', built, w1, w2. split; [reflexivity|]. split; [exact H1|]. split; [exact H2|exact H7].
Defined.

Lemma modify_bounded_witness :
  exists w' log res, modifyStorage (R := sample_random) (A := logged memory_api) (repeat x07 32) 3 [3] sample_mutate (sample_manifest, []) 0 =
    ((w', log), res) /\ (length log <= 5)%nat.
Proof.
  destruct (modifyStorage (R := sample_random) (A := logged memory_api) (repeat x07 32) 3 [3] sample_mutate (sample_manifest, []) 0)
    as [[w' log] res] eqn:E.
  exists w', log, res. split; [reflexivity|].
  exact (proj1 (modify_bounded (repeat x07 32) 3 [3] sample_mutate sample_manifest 0 w' log res E)).
Defined.

Lemma fetch_records_partition_witness :
  exists records missing, fetchStorageRecords (fun _ => Ok []) [Base64.encode [x01]] [] None {[Base64.encode [x01] := 1]} = Ok (records, missing) /\
    missing = {[Base64.encode [x01]]} ∖ list_to_set (map d_StorageID records).
Proof.
  destruct (fetchStorageRecords (fun _ => Ok []) [Base64.encode [x01]] [] None {[Base64.encode [x01] := 1]}) as [[records missing]| |] eqn:E;
    [|discriminate E|discriminate E].
  exists records, missing. split; [reflexivity|].
  destruct (fetch_records_partition [] None (fun _ => Ok []) [Base64.encode [x01]] {[Base64.encode [x01] := 1]} records missing E) as (_ & _ & H).
  rewrite H, dom_singleton_L. reflexivity.
Defined.

(** A server that has a record under every ID. *)
Lemma fetch_records_complete_witness :
  exists records, fetchStorageRecords
    (fun ks => Ok (map (fun k => mkItem k (match encryptStorageRecord 0 [x07] None k sample_record with Ok v => v.1 | _ => [] end)) ks))
    [Base64.encode [x01]] [x07] None {[Base64.encode [x01] := 3]} = Ok (records, ∅).
Proof.
  destruct (fetch_records_complete [x07] None
    (fun ks => Ok (map (fun k => mkItem k (match encryptStorageRecord 0 [x07] None k sample_record with Ok v => v.1 | _ => [] end)) ks))
    [Base64.encode [x01]] {[Base64.encode [x01] := 3]}) as (records & H & _).
  - intros ks _. eexists. split; [reflexivity|]. intros k Hk. eexists (mkItem k _), sample_record.
    split; [apply list_elem_of_fmap; exists k; split; [reflexivity|done]|]. split; [done|].
    destruct (encryptStorageRecord_ok 0 [x07] None k sample_record [x01]) as (v & -> & Hd); [reflexivity|discriminate|]. exact Hd.
  - intros k. rewrite list_elem_of_singleton, lookup_singleton_is_Some. done.
  - intros k ->%list_elem_of_singleton. by eexists.
  - exists records. exact H.
Defined.

End SampleStorage.
