(* ===== verification/ChatSettings.v ===== *)
(** Chat settings kept in the storage service: [pkg/signalmeow/chatsettings.go],
    [types/chatsettings.go], the chat part of [storagewrite.go] and
    [processStorageInTxn] of [storageservice.go].

    Mute, archive and unread flags live in the contact or group record of a
    chat, pins in a list of the account record.  A settings change becomes
    edits of at most two records; incoming records update the client's view
    of the settings. *)
From Stdlib Require Import ZifyNat.
From S2P Require Import Prelude GoLib ServiceId Crypto Storage.

(** ** Group master keys ([groups.go]) *)

(** libsignal's derivation of a group identifier from its master key. *)
Class GroupLib : Type := { derive_group_identifier : fixed 32 -> option (fixed 32) }.

Definition GroupMasterKeyLength : nat := 32.

Inductive group_key_error := errInvalidMasterKeyLength | GroupIdentifierFailed.

Definition masterKeyToBytes {E} (groupMasterKey : bytes) : outcome E (fixed 32) :=
  match Base64.decode groupMasterKey with
  | None => Panic
  | Some b => to_array 32 b
  end.

Definition masterKeyFromBytes (masterKey : fixed 32) : bytes := Base64.encode (fixed_bytes masterKey).

Lemma masterKey_roundtrip {E} k : masterKeyToBytes (E := E) (masterKeyFromBytes k) = Ok k.
Proof. unfold masterKeyToBytes, masterKeyFromBytes. rewrite Base64.decode_encode. apply to_array_ok, to_fixed_bytes. Qed.

Section GroupIds.
Context `{G : GroupLib}.

Definition groupIdentifierFromMasterKey (masterKey : bytes) : outcome group_key_error bytes :=
  let! k := masterKeyToBytes masterKey in
  let! gid := of_option GroupIdentifierFailed (derive_group_identifier k) in
  Ok (BytesToGroupIdentifier (Some gid)).

Definition groupIDFromMasterKeyBytes (masterKey : bytes) : outcome group_key_error bytes :=
  match to_fixed GroupMasterKeyLength masterKey with
  | None => Err errInvalidMasterKeyLength
  | Some k => groupIdentifierFromMasterKey (masterKeyFromBytes k)
  end.

Lemma groupID_no_panic k : is_panic (groupIDFromMasterKeyBytes k) = false.
Proof.
  unfold groupIDFromMasterKeyBytes, groupIdentifierFromMasterKey. destruct (to_fixed _ _); [|done].
  rewrite masterKey_roundtrip. cbn [obind]. by destruct (derive_group_identifier _).
Qed.

(** [groupID, err := ...; err == nil && groupID == want] *)
Definition is_group (masterKey want : bytes) : bool :=
  match groupIDFromMasterKeyBytes masterKey with Ok g => beqb g want | _ => false end.
End GroupIds.

(** ** Settings *)

Record ChatSettings := mkSettings {
  MutedUntil : Z;  Archived : bool;  MarkedUnread : bool;  Pinned : bool
}.
#[global] Instance chat_settings_eq_dec : EqDecision ChatSettings.
Proof. solve_decision. Defined.

Definition MuteForeverProto : Z := 2 ^ 63 - 1.
Definition maxSafeDateMillis : Z := 8640000000000000.

Definition MutedForever (cs : ChatSettings) : bool := maxSafeDateMillis <=? MutedUntil cs.

(** Times are nanoseconds since the epoch. *)
Definition UnixMilli (ms : Z) : Z := ms * 1000000.

(** The zero time is [None]. *)
Definition MuteExpiry (cs : ChatSettings) (now : Z) : option Z * bool :=
  if (MutedUntil cs =? 0) || MutedForever cs then (None, MutedForever cs)
  else
    let until := UnixMilli (swrap 64 (MutedUntil cs)) in
    (Some until, now <? until).

Section Settings.
Context `{U : UUIDLib} `{G : GroupLib}.

Definition contactChatID (aci pni : UUID) : bytes :=
  if negb (bool_decide (aci = uuid_Nil)) then ServiceID_String (NewACIServiceID aci)
  else if negb (bool_decide (pni = uuid_Nil)) then ServiceID_String (NewPNIServiceID pni)
  else [].

Definition contactRecordSettings (c : ContactRecord) : ChatSettings :=
  mkSettings (c_MutedUntilTimestamp c) (c_Archived c) (c_MarkedUnread c) false.

Definition groupRecordSettings (g : GroupV2Record) : ChatSettings :=
  mkSettings (g_MutedUntilTimestamp g) (g_Archived g) (g_MarkedUnread g) false.

Definition pinnedContactServiceID (contact : PinnedContact) : option ServiceID :=
  let from_string :=
    if negb (beqb (pc_ServiceId contact) []) then
      match ServiceIDFromString (pc_ServiceId contact) with
      | Ok sid => if negb (IsEmpty sid) then Some sid else None
      | _ => None
      end
    else None in
  if (0 <? length (pc_ServiceIdBinary contact))%nat then
    match ServiceIDFromBytes (pc_ServiceIdBinary contact) with
    | Ok sid => if negb (IsEmpty sid) then Some sid else from_string
    | _ => from_string
    end
  else from_string.

Definition pinnedChatIDs (account : AccountRecord) : gset bytes :=
  fold_left (fun pinned pin =>
    match pin_Identifier pin with
    | Pin_Contact c =>
        match pinnedContactServiceID c with Some sid => {[ServiceID_String sid]} ∪ pinned | None => pinned end
    | Pin_GroupMasterKey k =>
        match groupIDFromMasterKeyBytes k with Ok g => {[g]} ∪ pinned | _ => pinned end
    | _ => pinned
    end) (a_PinnedConversations account) ∅.

(** ** Changes *)

Record ChatRef := mkChatRef { cr_ServiceID : ServiceID; cr_GroupID : bytes; cr_GroupMasterKey : option bytes }.

Record ChatSettingsChange := mkChange {
  ch_MutedUntil : option Z;  ch_Archived : option bool;  ch_MarkedUnread : option bool;  ch_Pinned : option bool
}.

Definition isSome {A} (o : option A) : bool := match o with Some _ => true | None => false end.

Definition needsChatRecord (c : ChatSettingsChange) : bool :=
  isSome (ch_MutedUntil c) || isSome (ch_Archived c) || isSome (ch_MarkedUnread c).

Definition is_group_chat (chat : ChatRef) : bool := negb (beqb (cr_GroupID chat) []).

Definition wantedRecordTypes (c : ChatSettingsChange) (chat : ChatRef) : list Z :=
  (if needsChatRecord c || (isSome (ch_Pinned c) && negb (is_group_chat chat)) then
     if is_group_chat chat then [Identifier_GROUPV2] else [Identifier_CONTACT]
   else []) ++
  (if isSome (ch_Pinned c) then [Identifier_ACCOUNT] else []).

(** [aci, _ := ParseStringOrBinaryUUID(...)]: with an error the UUID is nil. *)
Definition uuid_or_nil (s : bytes) (b : option bytes) : UUID :=
  match ParseStringOrBinaryUUID s b with Ok u => u | _ => uuid_Nil end.

Definition contact_aci (c : ContactRecord) : UUID := uuid_or_nil (c_Aci c) (c_AciBinary c).
Definition contact_pni (c : ContactRecord) : UUID := uuid_or_nil (c_Pni c) (c_PniBinary c).

Definition recordMatchesChat (record : StorageRecord) (chat : ChatRef) : bool :=
  match sr_Record record with
  | StorageRecord_Contact c =>
      if is_group_chat chat || IsEmpty (cr_ServiceID chat) then false
      else if bool_decide (sid_Type (cr_ServiceID chat) = ServiceIDTypeACI)
      then bool_decide (contact_aci c = sid_UUID (cr_ServiceID chat))
      else bool_decide (contact_pni c = sid_UUID (cr_ServiceID chat))
  | StorageRecord_GroupV2 g =>
      if negb (is_group_chat chat) then false else is_group (g_MasterKey g) (cr_GroupID chat)
  | _ => false
  end.

Definition findChatRecord (snap : storageSnapshot) (chat : ChatRef) : option DecryptedStorageRecord :=
  List.find (fun rec => recordMatchesChat (d_StorageRecord rec) chat) (snap_Records snap).

Definition is_account (r : StorageRecord) : bool :=
  match sr_Record r with StorageRecord_Account _ => true | _ => false end.

Definition findAccountRecord (snap : storageSnapshot) : option DecryptedStorageRecord :=
  List.find (fun rec => is_account (d_StorageRecord rec)) (snap_Records snap).

(** One field of [applyChatFields]: the new value and whether it differs. *)
Definition set_field {A} `{EqDecision A} (change : option A) (old : A) : A * bool :=
  match change with
  | Some v => if bool_decide (old = v) then (old, false) else (v, true)
  | None => (old, false)
  end.

Definition applyChatFields (record : StorageRecord) (change : ChatSettingsChange) : option StorageRecord * bool :=
  match sr_Record record with
  | StorageRecord_Contact c =>
      let '(m, cm) := set_field (ch_MutedUntil change) (c_MutedUntilTimestamp c) in
      let '(a, ca) := set_field (ch_Archived change) (c_Archived c) in
      let '(u, cu) := set_field (ch_MarkedUnread change) (c_MarkedUnread c) in
      (Some (mkRecord (StorageRecord_Contact (mkContact (c_Aci c) (c_E164 c) (c_Pni c) (c_ProfileKey c)
         (c_GivenName c) (c_FamilyName c) (c_Blocked c) (c_Whitelisted c) a u m
         (c_SystemGivenName c) (c_SystemFamilyName c) (c_Nickname c) (c_AciBinary c) (c_PniBinary c) (c_rest c)))
         (sr_rest record)), cm || ca || cu)
  | StorageRecord_GroupV2 g =>
      let '(m, cm) := set_field (ch_MutedUntil change) (g_MutedUntilTimestamp g) in
      let '(a, ca) := set_field (ch_Archived change) (g_Archived g) in
      let '(u, cu) := set_field (ch_MarkedUnread change) (g_MarkedUnread g) in
      (Some (mkRecord (StorageRecord_GroupV2 (mkGroupV2 (g_MasterKey g) a u m (g_rest g))) (sr_rest record)),
       cm || ca || cu)
  | _ => (None, false)
  end.

Definition pinMatchesChat (pin : PinnedConversation) (chat : ChatRef) : bool :=
  match pin_Identifier pin with
  | Pin_Contact c =>
      match pinnedContactServiceID c with
      | Some sid => negb (is_group_chat chat) && bool_decide (sid = cr_ServiceID chat)
      | None => false
      end
  | Pin_GroupMasterKey k => if negb (is_group_chat chat) then false else is_group k (cr_GroupID chat)
  | _ => false
  end.

(** A pin that uses only the binary service ID. *)
Definition binary_pin (pin : PinnedConversation) : bool :=
  match pin_Identifier pin with
  | Pin_Contact c => beqb (pc_ServiceId c) [] && (0 <? length (pc_ServiceIdBinary c))%nat
  | _ => false
  end.

Definition newPinEntry (chat : ChatRef) (contactRecord : option ContactRecord) (existing : list PinnedConversation)
  : outcome storage_error PinnedConversation :=
  if is_group_chat chat then
    let mk := default [] (cr_GroupMasterKey chat) in
    if negb (length mk =? GroupMasterKeyLength)%nat then Err NoGroupMasterKey
    else Ok (mkPin (Pin_GroupMasterKey mk) [])
  else
    let binary :=
      match contactRecord with
      | Some c => beqb (c_Aci c) [] && (0 <? length (default [] (c_AciBinary c)))%nat
      | None => false
      end || existsb binary_pin existing in
    let e164 := match contactRecord with Some c => c_E164 c | None => [] end in
    Ok (mkPin (Pin_Contact
      (if binary then mkPinnedContact [] e164 (ServiceID_Bytes (cr_ServiceID chat)) []
       else mkPinnedContact (ServiceID_String (cr_ServiceID chat)) e164 [] [])) []).

Definition MaxPinnedChats : nat := 4.

Definition applyPinChange (record : StorageRecord) (chat : ChatRef) (pinned : bool) (contactRecord : option ContactRecord)
  : outcome storage_error (StorageRecord * bool) :=
  match sr_Record record with
  | StorageRecord_Account account =>
      let pins := a_PinnedConversations account in
      let isPinned := existsb (fun pin => pinMatchesChat pin chat) pins in
      let kept := if pinned then pins else filter (fun pin => pinMatchesChat pin chat = false) pins in
      let with_pins l := mkRecord (StorageRecord_Account (mkAccount (a_ProfileKey account) l (a_rest account))) (sr_rest record) in
      if Bool.eqb isPinned pinned then Ok (record, false)
      else if pinned then
        if (MaxPinnedChats <=? length kept)%nat then Err ErrTooManyPinnedChats
        else
          let! entry := newPinEntry chat contactRecord pins in
          Ok (with_pins (kept ++ [entry]), true)
      else Ok (with_pins kept, true)
  | _ => Err NotAnAccountRecord
  end.

Definition get_contact (r : StorageRecord) : option ContactRecord :=
  match sr_Record r with StorageRecord_Contact c => Some c | _ => None end.

Definition applyChatSettingsChange (snap : storageSnapshot) (chat : ChatRef) (change : ChatSettingsChange)
  : outcome storage_error (list storageEdit) :=
  let chatRecord := findChatRecord snap chat in
  let! edits1 :=
    if needsChatRecord change then
      match chatRecord with
      | None => Err ErrNoStorageRecord
      | Some rec =>
          match applyChatFields (d_StorageRecord rec) change with
          | (Some updated, true) => Ok [mkEdit (d_StorageID rec) updated]
          | _ => Ok []
          end
      end
    else Ok [] in
  match ch_Pinned change with
  | None => Ok edits1
  | Some pinned =>
      match findAccountRecord snap with
      | None => Err ErrNoStorageRecord
      | Some account =>
          let contactRecord := match chatRecord with Some rec => get_contact (d_StorageRecord rec) | None => None end in
          let! r := applyPinChange (d_StorageRecord account) chat pinned contactRecord in
          if r.2 then Ok (edits1 ++ [mkEdit (d_StorageID account) r.1]) else Ok edits1
      end
  end.

End Settings.

(** ** Applying edits to a snapshot *)

Definition edit_record (edits : list storageEdit) (rec : DecryptedStorageRecord) : DecryptedStorageRecord :=
  match List.find (fun e => beqb (OldID e) (d_StorageID rec)) edits with
  | Some e => mkDecrypted (d_ItemType rec) (d_StorageID rec) (edit_Record e)
  | None => rec
  end.
Definition edited (snap : storageSnapshot) (edits : list storageEdit) : storageSnapshot :=
  mkSnapshot (snap_Manifest snap) (map (edit_record edits) (snap_Records snap)).

(** The settings a chat or group record holds. *)
Definition record_settings (r : StorageRecord) : option ChatSettings :=
  match sr_Record r with
  | StorageRecord_Contact c => Some (contactRecordSettings c)
  | StorageRecord_GroupV2 g => Some (groupRecordSettings g)
  | _ => None
  end.

(** What a change asks for, field by field. *)
Definition changed_settings (change : ChatSettingsChange) (s : ChatSettings) : ChatSettings :=
  mkSettings (default (MutedUntil s) (ch_MutedUntil change)) (default (Archived s) (ch_Archived change))
    (default (MarkedUnread s) (ch_MarkedUnread change)) (Pinned s).

Section Proofs.
Context `{U : UUIDLib} `{G : GroupLib} `{UL : !UUIDLaws U}.

Lemma set_field_fst {A} `{EqDecision A} ch (old : A) : (set_field ch old).1 = default old ch.
Proof. unfold set_field. destruct ch as [v|]; [|done]. by case_bool_decide. Qed.

Lemma set_field_again {A} `{EqDecision A} ch (old : A) : set_field ch (default old ch) = (default old ch, false).
Proof. unfold set_field. destruct ch as [v|]; [|done]. by rewrite bool_decide_true. Qed.

Lemma set_field_unchanged {A} `{EqDecision A} ch (old : A) : (set_field ch old).2 = false -> default old ch = old.
Proof. unfold set_field. destruct ch as [v|]; [|done]. by case_bool_decide. Qed.

(** What [applyChatFields] does to a record: the requested settings, the same
    chat, and nothing to do a second time. *)
Lemma applyChatFields_spec r change r' b : applyChatFields r change = (Some r', b) ->
  record_settings r' = changed_settings change <$> record_settings r /\ is_Some (record_settings r) /\
  (forall chat, recordMatchesChat r' chat = recordMatchesChat r chat) /\
  is_account r' = false /\ is_account r = false /\ applyChatFields r' change = (Some r', false) /\ (b = false -> r' = r).
Proof.
  unfold applyChatFields. destruct r as [[c| |g| | | |] rest]; cbn [sr_Record]; try done.
  - pose proof (set_field_fst (ch_MutedUntil change) (c_MutedUntilTimestamp c)) as H1.
    pose proof (set_field_fst (ch_Archived change) (c_Archived c)) as H2.
    pose proof (set_field_fst (ch_MarkedUnread change) (c_MarkedUnread c)) as H3.
    pose proof (set_field_unchanged (ch_MutedUntil change) (c_MutedUntilTimestamp c)) as U1.
    pose proof (set_field_unchanged (ch_Archived change) (c_Archived c)) as U2.
    pose proof (set_field_unchanged (ch_MarkedUnread change) (c_MarkedUnread c)) as U3.
    destruct (set_field _ _) as [m cm], (set_field _ _) as [a ca], (set_field _ _) as [u cu].
    cbn [fst snd] in *. subst m a u. intros [= <- <-]. cbn [sr_Record sr_rest]. split_and!; try done.
    + cbn. by rewrite !set_field_again.
    + intros [[->%U1 ->%U2]%orb_false_iff ->%U3]%orb_false_iff. by destruct c.
  - pose proof (set_field_fst (ch_MutedUntil change) (g_MutedUntilTimestamp g)) as H1.
    pose proof (set_field_fst (ch_Archived change) (g_Archived g)) as H2.
    pose proof (set_field_fst (ch_MarkedUnread change) (g_MarkedUnread g)) as H3.
    pose proof (set_field_unchanged (ch_MutedUntil change) (g_MutedUntilTimestamp g)) as U1.
    pose proof (set_field_unchanged (ch_Archived change) (g_Archived g)) as U2.
    pose proof (set_field_unchanged (ch_MarkedUnread change) (g_MarkedUnread g)) as U3.
    destruct (set_field _ _) as [m cm], (set_field _ _) as [a ca], (set_field _ _) as [u cu].
    cbn [fst snd] in *. subst m a u. intros [= <- <-]. cbn [sr_Record sr_rest]. split_and!; try done.
    + cbn. by rewrite !set_field_again.
    + intros [[->%U1 ->%U2]%orb_false_iff ->%U3]%orb_false_iff. by destruct g.
Qed.

(** A chat reference that [newPinEntry] can pin. *)
Definition pinnable (chat : ChatRef) : Prop :=
  if is_group_chat chat then is_group (default [] (cr_GroupMasterKey chat)) (cr_GroupID chat) = true
  else valid_type (sid_Type (cr_ServiceID chat)) = true /\ IsEmpty (cr_ServiceID chat) = false.

Lemma pinned_contact_string s e : valid_type (sid_Type s) = true -> IsEmpty s = false ->
  pinnedContactServiceID (mkPinnedContact (ServiceID_String s) e [] []) = Some s.
Proof.
  intros Hv He. unfold pinnedContactServiceID. cbn [pc_ServiceIdBinary pc_ServiceId length Nat.ltb Nat.leb].
  pose proof (String_length s Hv) as Hl. destruct (beqb (ServiceID_String s) []) eqn:E.
  { apply beqb_eq in E. rewrite E in Hl. simpl in Hl. lia. }
  cbn [negb]. by rewrite FromString_String, He.
Qed.

Lemma pinned_contact_binary s e : IsEmpty s = false ->
  pinnedContactServiceID (mkPinnedContact [] e (ServiceID_Bytes s) []) = Some s.
Proof.
  intros He. unfold pinnedContactServiceID. cbn [pc_ServiceIdBinary pc_ServiceId].
  assert (Hl : (0 <? length (ServiceID_Bytes s))%nat = true).
  { pose proof (FromBytes_Bytes s) as H. destruct (ServiceID_Bytes s); [done|]. done. }
  by rewrite Hl, FromBytes_Bytes, He.
Qed.

(** A new pin is a pin of the chat. *)
Lemma newPinEntry_matches chat c existing entry : pinnable chat ->
  newPinEntry chat c existing = Ok entry -> pinMatchesChat entry chat = true.
Proof.
  unfold pinnable, newPinEntry, pinMatchesChat. destruct (is_group_chat chat) eqn:Eg.
  - intros Hp. destruct (negb _); [done|]. intros H. apply Ok_inj in H as <-. done.
  - intros [Hv He] H. apply Ok_inj in H as <-. cbn [pin_Identifier negb andb].
    destruct (_ || _); [rewrite pinned_contact_binary by done|rewrite pinned_contact_string by done];
      by rewrite bool_decide_true.
Qed.

(** The pinned chats of an account record. *)
Definition record_pins (r : StorageRecord) : list PinnedConversation :=
  match sr_Record r with StorageRecord_Account a => a_PinnedConversations a | _ => [] end.

Lemma existsb_filter_false {A} (p : A -> bool) l : existsb p (filter (fun x => p x = false) l) = false.
Proof.
  induction l as [|x l IH]; [done|]. destruct (p x) eqn:E.
  - by rewrite filter_cons_False by (by rewrite E).
  - rewrite filter_cons_True by done. cbn [existsb]. by rewrite E, IH.
Qed.

Lemma applyPinChange_spec r chat pinned c r' b : applyPinChange r chat pinned c = Ok (r', b) ->
  (pinned = true -> pinnable chat) ->
  is_account r = true /\ is_account r' = true /\ (b = false -> r' = r) /\
  existsb (fun p => pinMatchesChat p chat) (record_pins r') = pinned /\
  filter (fun p => pinMatchesChat p chat = false) (record_pins r') =
    filter (fun p => pinMatchesChat p chat = false) (record_pins r) /\
  (length (record_pins r') <= max (length (record_pins r)) MaxPinnedChats)%nat.
Proof.
  unfold applyPinChange. destruct r as [[| | |a| | |] rest]; cbn [sr_Record]; try done. cbv zeta.
  destruct (Bool.eqb_spec (existsb (fun pin => pinMatchesChat pin chat) (a_PinnedConversations a)) pinned) as [E|E].
  { intros H _. apply Ok_inj, pair_equal_spec in H as [<- <-]. unfold record_pins. cbn [sr_Record].
    split_and!; try done. lia. }
  destruct pinned.
  - destruct (Nat.leb_spec MaxPinnedChats (length (a_PinnedConversations a))) as [|Hl]; [done|].
    destruct (newPinEntry _ _ _) as [entry| |] eqn:En; cbn [obind]; [|done..].
    intros H Hp. apply Ok_inj, pair_equal_spec in H as [<- <-]. unfold record_pins. cbn [sr_Record a_PinnedConversations].
    apply newPinEntry_matches in En; [|by apply Hp].
    split_and!; try done.
    + rewrite existsb_app. cbn [existsb]. rewrite En. by rewrite orb_true_r.
    + rewrite filter_app. rewrite filter_cons_False by (by rewrite En). by rewrite filter_nil, app_nil_r.
    + rewrite length_app. cbn [length]. lia.
  - intros H _. apply Ok_inj, pair_equal_spec in H as [<- <-]. unfold record_pins. cbn [sr_Record a_PinnedConversations].
    split_and!; try done.
    + apply existsb_filter_false.
    + rewrite list_filter_filter. f_equal. apply list_filter_iff. naive_solver.
    + pose proof (length_filter (fun p => pinMatchesChat p chat = false) (a_PinnedConversations a)). lia.
Qed.

Lemma applyPinChange_again r chat pinned c r' b c' : applyPinChange r chat pinned c = Ok (r', b) ->
  (pinned = true -> pinnable chat) -> applyPinChange r' chat pinned c' = Ok (r', false).
Proof.
  intros H Hp. destruct (applyPinChange_spec _ _ _ _ _ _ H Hp) as (_ & Ha & _ & He & _).
  unfold applyPinChange. unfold is_account in Ha. unfold record_pins in He.
  destruct r' as [[| | |a| | |] rest]; cbn [sr_Record] in *; try done. cbv zeta. rewrite He. by rewrite eqb_reflx.
Qed.

(** The pinned chat IDs are those of the pins that name a chat. *)
Definition pin_chat_id (pin : PinnedConversation) : option bytes :=
  match pin_Identifier pin with
  | Pin_Contact c => ServiceID_String <$> pinnedContactServiceID c
  | Pin_GroupMasterKey k => match groupIDFromMasterKeyBytes k with Ok g => Some g | _ => None end
  | _ => None
  end.

Lemma elem_of_pinnedChatIDs account x :
  x ∈ pinnedChatIDs account <-> exists pin, pin ∈ a_PinnedConversations account /\ pin_chat_id pin = Some x.
Proof.
  unfold pinnedChatIDs. enough (H : forall l s, x ∈ fold_left (fun pinned pin =>
    match pin_Identifier pin with
    | Pin_Contact c => match pinnedContactServiceID c with Some sid => {[ServiceID_String sid]} ∪ pinned | None => pinned end
    | Pin_GroupMasterKey k => match groupIDFromMasterKeyBytes k with Ok g => {[g]} ∪ pinned | _ => pinned end
    | _ => pinned
    end) l s <-> x ∈ s \/ exists pin, pin ∈ l /\ pin_chat_id pin = Some x) by (rewrite H; set_solver).
  induction l as [|pin l IH]; intros s; cbn [fold_left]; [set_solver|]. rewrite IH.
  assert (Hpin : forall s' : gset bytes, (x ∈ s' <-> x ∈ s \/ pin_chat_id pin = Some x) ->
    (x ∈ s' \/ (exists pin, pin ∈ l /\ pin_chat_id pin = Some x) <->
     x ∈ s \/ (exists p, p ∈ pin :: l /\ pin_chat_id p = Some x))).
  { intros s' ->. setoid_rewrite elem_of_cons. naive_solver. }
  apply Hpin. unfold pin_chat_id. destruct (pin_Identifier pin) as [c| |k| |]; [|naive_solver| |naive_solver..].
  - destruct (pinnedContactServiceID c) as [sid|]; cbn [fmap option_fmap option_map]; [set_solver|naive_solver].
  - destruct (groupIDFromMasterKeyBytes k); [set_solver|naive_solver..].
Qed.

(** The ID under which the client files a chat's settings. *)
Definition chat_id (chat : ChatRef) : bytes :=
  if is_group_chat chat then cr_GroupID chat else ServiceID_String (cr_ServiceID chat).

(** A group, or a chat with a known type of service ID. *)
Definition proper_chat (chat : ChatRef) : Prop :=
  if is_group_chat chat then length (cr_GroupID chat) = 44%nat else valid_type (sid_Type (cr_ServiceID chat)) = true.

Lemma groupID_length k g : groupIDFromMasterKeyBytes k = Ok g -> length g = 44%nat.
Proof.
  unfold groupIDFromMasterKeyBytes, groupIdentifierFromMasterKey. destruct (to_fixed _ _) as [f|]; [|done].
  rewrite masterKey_roundtrip. cbn [obind]. destruct (derive_group_identifier _); [|done]. cbn [of_option obind].
  intros H. apply Ok_inj in H as <-. apply GroupIdentifier_length.
Qed.

Lemma pin_chat_id_matches pin chat : proper_chat chat ->
  pin_chat_id pin = Some (chat_id chat) <-> pinMatchesChat pin chat = true.
Proof.
  unfold proper_chat, chat_id, pin_chat_id, pinMatchesChat, is_group. destruct (is_group_chat chat) eqn:Eg; intros Hc;
    destruct (pin_Identifier pin) as [c| |k| |]; cbn [negb andb]; try (by split).
  - destruct (pinnedContactServiceID c) as [sid|]; [|by split]. cbn. split; [|done].
    intros [= E]. exfalso. apply (String_not_group sid). by rewrite E.
  - destruct (groupIDFromMasterKeyBytes k); [|by split..]. rewrite beqb_eq. naive_solver.
  - destruct (pinnedContactServiceID c) as [sid|]; [|by split]. cbn. rewrite bool_decide_eq_true. split; [|by intros ->].
    intros [= E]. symmetry in E. symmetry. by apply String_inj.
  - destruct (groupIDFromMasterKeyBytes k) as [g| |] eqn:Ek; [|by split..]. split; [|done].
    intros [= E]. apply groupID_length in Ek. rewrite E in Ek. by apply String_not_group in Ek.
Qed.

Lemma pinned_iff account chat : proper_chat chat ->
  chat_id chat ∈ pinnedChatIDs account <->
  existsb (fun pin => pinMatchesChat pin chat) (a_PinnedConversations account) = true.
Proof.
  intros Hc. rewrite elem_of_pinnedChatIDs, existsb_exists. setoid_rewrite pin_chat_id_matches; [|done].
  setoid_rewrite list_elem_of_In. done.
Qed.

Lemma find_map {A B} (p : B -> bool) (q : A -> bool) (f : A -> B) l :
  (forall x, x ∈ l -> p (f x) = q x) -> List.find p (map f l) = f <$> List.find q l.
Proof.
  induction l as [|x l IH]; intros H; [done|]. cbn [map List.find]. rewrite (H x) by left.
  destruct (q x); [done|]. apply IH. intros y Hy. apply H. by right.
Qed.

Lemma find_elem {A} (p : A -> bool) l x : List.find p l = Some x -> x ∈ l /\ p x = true.
Proof. intros H. apply find_some in H as [H1 H2]. split; [by apply list_elem_of_In|done]. Qed.

Lemma matching_not_account r chat : recordMatchesChat r chat = true -> is_account r = false.
Proof. unfold recordMatchesChat, is_account. by destruct (sr_Record r). Qed.

Section Change.
Context (snap : storageSnapshot) (chat : ChatRef) (change : ChatSettingsChange).
(** The shape of the edits: the chat record with new fields, then the account
    record with new pins, each only if it changes. *)
Definition chat_edit (rec : DecryptedStorageRecord) (edits : list storageEdit) : Prop :=
  exists r' b, applyChatFields (d_StorageRecord rec) change = (Some r', b) /\
    edits = if b then [mkEdit (d_StorageID rec) r'] else [].

Definition account_edit (acc : DecryptedStorageRecord) (pinned : bool) (edits : list storageEdit) : Prop :=
  exists c r' b, applyPinChange (d_StorageRecord acc) chat pinned c = Ok (r', b) /\
    edits = if b then [mkEdit (d_StorageID acc) r'] else [].

Lemma change_inv edits : applyChatSettingsChange snap chat change = Ok edits ->
  exists e1 e2, edits = e1 ++ e2 /\
    (if needsChatRecord change then exists rec, findChatRecord snap chat = Some rec /\ chat_edit rec e1 else e1 = []) /\
    match ch_Pinned change with
    | Some p => exists acc, findAccountRecord snap = Some acc /\ account_edit acc p e2
    | None => e2 = []
    end.
Proof.
  unfold applyChatSettingsChange. intros H. apply obind_Ok_inv in H as (e1 & H1 & H2). exists e1.
  assert (Hc : if needsChatRecord change then exists rec, findChatRecord snap chat = Some rec /\ chat_edit rec e1 else e1 = []).
  { destruct (needsChatRecord change); [|by apply Ok_inj in H1].
    destruct (findChatRecord snap chat) as [rec|] eqn:Ef; [|done]. exists rec. split; [done|].
    apply find_elem in Ef as [_ Hm].
    destruct (applyChatFields (d_StorageRecord rec) change) as [[r'|] b] eqn:Ea.
    - exists r', b. split; [done|]. destruct b; by apply Ok_inj in H1.
    - exfalso. unfold applyChatFields in Ea. unfold recordMatchesChat in Hm.
      destruct (sr_Record (d_StorageRecord rec)); try done;
        destruct (set_field _ _), (set_field _ _), (set_field _ _); done. }
  destruct (ch_Pinned change) as [p|].
  - destruct (findAccountRecord snap) as [acc|]; [|done]. apply obind_Ok_inv in H2 as ([r' b] & Hp & H2).
    exists (if b then [mkEdit (d_StorageID acc) r'] else []). cbn [fst snd] in H2.
    split; [destruct b; apply Ok_inj in H2; by rewrite <- H2, ?app_nil_r|]. split; [done|].
    exists acc. split; [done|]. eexists _, r', b. split; [exact Hp|done].
  - exists []. rewrite app_nil_r. apply Ok_inj in H2 as ->. done.
Qed.

Hypothesis Hids : NoDup (map d_StorageID (snap_Records snap)).
Hypothesis Hpin : ch_Pinned change = Some true -> pinnable chat.

Lemma same_id a b : a ∈ snap_Records snap -> b ∈ snap_Records snap -> d_StorageID a = d_StorageID b -> a = b.
Proof.
  intros Ha Hb E. apply list_elem_of_lookup in Ha as [i Hi]. apply list_elem_of_lookup in Hb as [j Hj].
  assert (i = j) as ->; [|congruence]. eapply NoDup_lookup; [exact Hids| |].
  - by rewrite list_lookup_fmap, Hi.
  - rewrite list_lookup_fmap, Hj. cbn. by rewrite E.
Qed.

(** Every record keeps its chat and its kind when the edits are applied. *)
Lemma edit_record_kind edits rec : applyChatSettingsChange snap chat change = Ok edits -> rec ∈ snap_Records snap ->
  recordMatchesChat (d_StorageRecord (edit_record edits rec)) chat = recordMatchesChat (d_StorageRecord rec) chat /\
  is_account (d_StorageRecord (edit_record edits rec)) = is_account (d_StorageRecord rec).
Proof.
  intros H Hrec. unfold edit_record. destruct (List.find _ edits) as [e|] eqn:Ef; [|done].
  apply find_elem in Ef as [He Hid]. apply beqb_eq in Hid. cbn [d_StorageRecord].
  apply change_inv in H as (e1 & e2 & -> & H1 & H2). apply elem_of_app in He as [He|He].
  - destruct (needsChatRecord change); [|subst; by apply elem_of_nil in He].
    destruct H1 as (r0 & Hf & r' & b & Ha & ->). destruct b; [|by apply elem_of_nil in He].
    apply list_elem_of_singleton in He as ->. cbn [OldID edit_Record] in *.
    apply find_elem in Hf as [Hin _]. rewrite <- (same_id r0 rec) by done.
    destruct (applyChatFields_spec _ _ _ _ Ha) as (_ & _ & Hm & E1 & E2 & _). split; [apply Hm|congruence].
  - destruct (ch_Pinned change) as [p|] eqn:Ep; [|subst; by apply elem_of_nil in He].
    destruct H2 as (acc & Hf & c & r' & b & Ha & ->). destruct b; [|by apply elem_of_nil in He].
    apply list_elem_of_singleton in He as ->. cbn [OldID edit_Record] in *.
    apply find_elem in Hf as [Hin _]. rewrite <- (same_id acc rec) by done.
    destruct (applyPinChange_spec _ _ _ _ _ _ Ha) as (E1 & E2 & _); [by intros ->; apply Hpin|].
    split; [|congruence]. unfold recordMatchesChat, is_account in *.
    destruct (sr_Record r'); try done. by destruct (sr_Record (d_StorageRecord acc)).
Qed.

Lemma find_edited edits : applyChatSettingsChange snap chat change = Ok edits ->
  findChatRecord (edited snap edits) chat = edit_record edits <$> findChatRecord snap chat /\
  findAccountRecord (edited snap edits) = edit_record edits <$> findAccountRecord snap.
Proof.
  intros H. unfold findChatRecord, findAccountRecord, edited. cbn [snap_Records].
  split; apply find_map; intros rec Hrec; by apply edit_record_kind.
Qed.

(** An edit is what its record becomes. *)
Lemma edited_chat_record edits rec : applyChatSettingsChange snap chat change = Ok edits ->
  findChatRecord snap chat = Some rec -> needsChatRecord change = true ->
  exists r' b, applyChatFields (d_StorageRecord rec) change = (Some r', b) /\
    d_StorageRecord (edit_record edits rec) = r'.
Proof.
  intros H Hf Hn. destruct (change_inv _ H) as (e1 & e2 & -> & H1 & H2). rewrite Hn in H1.
  destruct H1 as (rec' & Hf' & r' & b & Ha & ->). rewrite Hf in Hf'. injection Hf' as <-.
  exists r', b. split; [done|]. unfold edit_record. destruct b.
  - cbn [app List.find OldID]. by rewrite beqb_refl.
  - cbn [app]. destruct (applyChatFields_spec _ _ _ _ Ha) as (_ & _ & _ & _ & Hacc & _ & Hr).
    rewrite (Hr eq_refl). destruct (List.find _ e2) as [e|] eqn:Ef; [|done]. exfalso.
    apply find_elem in Ef as [He Hid]. destruct (ch_Pinned change); [|subst; by apply elem_of_nil in He].
    destruct H2 as (acc & Hfa & c & r2 & b2 & Hp & ->). destruct b2; [|by apply elem_of_nil in He].
    apply list_elem_of_singleton in He as ->. apply beqb_eq in Hid. cbn [OldID] in Hid.
    apply find_elem in Hfa as [Hin Hacc']. apply find_elem in Hf as [Hin' _].
    rewrite (same_id acc rec) in Hacc' by done. congruence.
Qed.

Lemma edited_account_record edits acc p : applyChatSettingsChange snap chat change = Ok edits ->
  findAccountRecord snap = Some acc -> ch_Pinned change = Some p ->
  exists c r' b, applyPinChange (d_StorageRecord acc) chat p c = Ok (r', b) /\
    d_StorageRecord (edit_record edits acc) = r'.
Proof.
  intros H Hf Hp. destruct (change_inv _ H) as (e1 & e2 & -> & H1 & H2). rewrite Hp in H2.
  destruct H2 as (acc' & Hf' & c & r' & b & Ha & ->). rewrite Hf in Hf'. injection Hf' as <-.
  exists c, r', b. split; [done|].
  destruct (applyPinChange_spec _ _ _ _ _ _ Ha) as (Hacc & _ & Hr & _); [by intros ->; apply Hpin|].
  assert (Hne : forall e, e ∈ e1 -> OldID e <> d_StorageID acc).
  { intros e He Hid. destruct (needsChatRecord change); [|subst; by apply elem_of_nil in He].
    destruct H1 as (rec & Hfr & r2 & b2 & Hc & ->). destruct b2; [|by apply elem_of_nil in He].
    apply list_elem_of_singleton in He as ->. cbn [OldID] in Hid.
    apply find_elem in Hf as [Hin _]. apply find_elem in Hfr as [Hin' Hm].
    rewrite (same_id rec acc) in Hm by done. apply matching_not_account in Hm. congruence. }
  unfold edit_record. destruct (List.find _ _) as [e|] eqn:Ef.
  - apply find_elem in Ef as [He Hid]. apply beqb_eq in Hid. apply elem_of_app in He as [He|He]; [by apply Hne in He|].
    destruct b; [|by apply elem_of_nil in He]. by apply list_elem_of_singleton in He as ->.
  - destruct b; [|by rewrite Hr]. eapply find_none in Ef; [|apply in_or_app; right; left; reflexivity].
    cbn [OldID] in Ef. by rewrite beqb_refl in Ef.
Qed.

End Change.

(** C4: a settings change does what it says and nothing twice: when
    [applyChatSettingsChange] returns edits, then in the edited snapshot the
    chat's record has exactly the requested mute, archive and unread values
    and the others unchanged, the account's pins contain the chat exactly if
    that was requested, with all other pins kept in order and the limit of
    four respected, and applying the same change again yields no edits. *)
Theorem settings_change_correct snap chat change edits
  (Hids : NoDup (map d_StorageID (snap_Records snap)))
  (Hpin : ch_Pinned change = Some true -> pinnable chat)
  (H : applyChatSettingsChange snap chat change = Ok edits) :
  applyChatSettingsChange (edited snap edits) chat change = Ok [] /\
  (needsChatRecord change = true -> exists rec rec', findChatRecord snap chat = Some rec /\
     findChatRecord (edited snap edits) chat = Some rec' /\ d_StorageID rec' = d_StorageID rec /\
     record_settings (d_StorageRecord rec') = changed_settings change <$> record_settings (d_StorageRecord rec)) /\
  (forall p, ch_Pinned change = Some p -> exists acc acc', findAccountRecord snap = Some acc /\
     findAccountRecord (edited snap edits) = Some acc' /\
     existsb (fun pin => pinMatchesChat pin chat) (record_pins (d_StorageRecord acc')) = p /\
     filter (fun pin => pinMatchesChat pin chat = false) (record_pins (d_StorageRecord acc')) =
       filter (fun pin => pinMatchesChat pin chat = false) (record_pins (d_StorageRecord acc)) /\
     (length (record_pins (d_StorageRecord acc')) <= max (length (record_pins (d_StorageRecord acc))) MaxPinnedChats)%nat).
Proof.
  pose proof (find_edited snap chat change Hids Hpin edits H) as [Fc Fa].
  pose proof H as H0. apply change_inv in H0 as (e1 & e2 & He & H1 & H2).
  assert (Hid : forall rec, d_StorageID (edit_record edits rec) = d_StorageID rec)
    by (intros rec; unfold edit_record; by destruct (List.find _ _)).
  split_and!.
  - unfold applyChatSettingsChange. rewrite Fc, Fa.
    assert (Hchat : (if needsChatRecord change then
      match edit_record edits <$> findChatRecord snap chat with
      | None => Err ErrNoStorageRecord
      | Some rec => match applyChatFields (d_StorageRecord rec) change with
                    | (Some updated, true) => Ok [mkEdit (d_StorageID rec) updated] | _ => Ok [] end
      end else Ok []) = Ok (E := storage_error) []).
    { destruct (needsChatRecord change) eqn:En; [|done]. destruct H1 as (rec & Hf & _). rewrite Hf. cbn [fmap option_fmap option_map].
      destruct (edited_chat_record snap chat change Hids Hpin edits rec H Hf En) as (r' & b & Ha & ->).
      apply applyChatFields_spec in Ha as (_ & _ & _ & _ & _ & -> & _). done. }
    rewrite Hchat. cbn [obind]. destruct (ch_Pinned change) as [p|] eqn:Ep; [|done].
    destruct H2 as (acc & Hf & _). rewrite Hf. cbn [fmap option_fmap option_map].
    destruct (edited_account_record snap chat change Hids (fun E => Hpin (eq_trans (eq_sym Ep) E)) edits acc p H Hf Ep) as (c & r' & b & Ha & ->).
    by rewrite (applyPinChange_again _ _ _ _ _ _ _ Ha) by (intros ->; by apply Hpin).
  - intros En. rewrite En in H1. destruct H1 as (rec & Hf & _). exists rec, (edit_record edits rec).
    rewrite Fc, Hf. split_and!; [done|done|done|].
    destruct (edited_chat_record snap chat change Hids Hpin edits rec H Hf En) as (r' & b & Ha & ->).
    by apply applyChatFields_spec in Ha as (-> & _).
  - intros p Ep. rewrite Ep in H2. destruct H2 as (acc & Hf & _). exists acc, (edit_record edits acc).
    rewrite Fa, Hf. split; [done|]. split; [done|].
    destruct (edited_account_record snap chat change Hids Hpin edits acc p H Hf Ep) as (c & r' & b & Ha & ->).
    apply applyPinChange_spec in Ha as (_ & _ & _ & Hx); [|intros ->; by apply Hpin]. done.
Qed.

End Proofs.

(** A group chat with its record and an account with one other pin. *)
Module SampleSettings.
Import CanonicalUUID.
#[local] Instance sample_groups : GroupLib := { derive_group_identifier k := Some k }.

Definition sample_key : fixed 32 := mk_fixed (n := 32) (repeat x03 32) eq_refl.
Definition sample_chat : ChatRef :=
  mkChatRef EmptyServiceID (Base64.encode (repeat x03 32)) (Some (repeat x03 32)).
Definition sample_snapshot : storageSnapshot :=
  mkSnapshot (mkManifest 1 1 [] None [])
    [mkDecrypted Identifier_GROUPV2 [x01] (mkRecord (StorageRecord_GroupV2 (mkGroupV2 (repeat x03 32) true false 0 [])) []);
     mkDecrypted Identifier_ACCOUNT [x02]
       (mkRecord (StorageRecord_Account (mkAccount [] [mkPin (Pin_GroupMasterKey (repeat x04 32)) []] [])) [])].
Definition sample_change : ChatSettingsChange := mkChange (Some MuteForeverProto) (Some false) None (Some true).

Lemma settings_change_correct_witness : exists edits,
  applyChatSettingsChange sample_snapshot sample_chat sample_change = Ok edits /\ length edits = 2%nat /\
  applyChatSettingsChange (edited sample_snapshot edits) sample_chat sample_change = Ok [].
Proof.
  destruct (applyChatSettingsChange sample_snapshot sample_chat sample_change) as [edits| |] eqn:E.
  - exists edits. split; [done|]. split; [vm_compute in E; by injection E as <-|].
    apply (settings_change_correct sample_snapshot sample_chat sample_change edits).
    + apply (bool_decide_unpack _). reflexivity.
    + intros _. by vm_compute.
    + done.
  - by vm_compute in E.
  - by vm_compute in E.
Defined.
End SampleSettings.
