(* ===== verification/RecipientStore.v ===== *)
(** The recipient table: [pkg/signalmeow/store/recipient_store.go].

    A recipient is known by an ACI, a PNI or both.  The table has at most one
    row per ACI and per PNI (the unique constraints of the schema);
    [LoadAndUpdateRecipient] finds the rows of a pair of IDs, merges them if
    there are two, runs an updater and stores the result.  The block list is
    cached in memory. *)
From S2P Require Import Prelude GoLib ServiceId.

(** [types/contact.go]; the avatar image and the profile credential are not
    columns of the table and are left out. *)
Record Profile := mkProfile {
  p_Name : bytes;  p_About : bytes;  p_AboutEmoji : bytes;  p_AvatarPath : bytes;
  p_Key : fixed 32;  p_FetchedAt : option Z
}.
#[global] Instance profile_eq_dec : EqDecision Profile.
Proof. solve_decision. Defined.

Record Recipient := mkRecipient {
  r_ACI : UUID;  r_PNI : UUID;  r_E164 : bytes;
  r_ContactName : bytes;  r_AvatarHash : bytes;  r_Nickname : bytes;
  r_Profile : Profile;
  r_NeedsPNISignature : bool;  r_Blocked : bool;  r_Whitelisted : option bool
}.
#[global] Instance recipient_eq_dec : EqDecision Recipient.
Proof. solve_decision. Defined.

Definition Profile_Equals (p other : Profile) : bool :=
  beqb (p_Name p) (p_Name other) && beqb (p_About p) (p_About other) && beqb (p_AboutEmoji p) (p_AboutEmoji other) &&
  beqb (p_AvatarPath p) (p_AvatarPath other) && bool_decide (p_Key p = p_Key other).

(** The nil receiver is [None]. *)
Definition ProbablyMessageRequest (r : option Recipient) : bool :=
  match r with
  | None => false
  | Some r => r_NeedsPNISignature r || match r_Whitelisted r with Some w => negb w | None => false end
  end.

Definition empty_profile : Profile := mkProfile [] [] [] [] (fixed_zero 32) None.
Definition new_recipient (aci pni : UUID) : Recipient := mkRecipient aci pni [] [] [] [] empty_profile false false None.

Definition set_ACI (u : UUID) (r : Recipient) : Recipient :=
  mkRecipient u (r_PNI r) (r_E164 r) (r_ContactName r) (r_AvatarHash r) (r_Nickname r) (r_Profile r)
    (r_NeedsPNISignature r) (r_Blocked r) (r_Whitelisted r).
Definition set_PNI (u : UUID) (r : Recipient) : Recipient :=
  mkRecipient (r_ACI r) u (r_E164 r) (r_ContactName r) (r_AvatarHash r) (r_Nickname r) (r_Profile r)
    (r_NeedsPNISignature r) (r_Blocked r) (r_Whitelisted r).
(** The columns of a row without ACI that an upsert by PNI sets. *)
Definition set_contact (e164 name hash : bytes) (r : Recipient) : Recipient :=
  mkRecipient (r_ACI r) (r_PNI r) e164 name hash (r_Nickname r) (r_Profile r)
    (r_NeedsPNISignature r) (r_Blocked r) (r_Whitelisted r).

Inductive recipient_error := NoIDs | TooManyRows | UniqueViolation | UpdaterFailed.

(** ** The table *)

Record RecipientStore := mkStore { rows : list Recipient; blockCache : gmap UUID bool }.

Definition non_nil (u : UUID) : Prop := u <> uuid_Nil.
#[global] Instance non_nil_dec u : Decision (non_nil u).
Proof. unfold non_nil. apply _. Defined.

Definition unique_by (f : Recipient -> UUID) (l : list Recipient) : Prop := NoDup (filter non_nil (map f l)).

(** The unique constraints; NULL (a nil UUID) never conflicts. *)
Definition consistent (l : list Recipient) : Prop := unique_by r_ACI l /\ unique_by r_PNI l.
#[global] Instance consistent_dec l : Decision (consistent l).
Proof. unfold consistent, unique_by. apply _. Defined.

Definition has_ACI (u : UUID) (r : Recipient) : Prop := r_ACI r = u /\ u <> uuid_Nil.
Definition has_PNI (u : UUID) (r : Recipient) : Prop := r_PNI r = u /\ u <> uuid_Nil.
#[global] Instance has_ACI_dec u r : Decision (has_ACI u r).
Proof. unfold has_ACI. apply _. Defined.
#[global] Instance has_PNI_dec u r : Decision (has_PNI u r).
Proof. unfold has_PNI. apply _. Defined.

Definition LoadRecipientByACI (st : RecipientStore) (aci : UUID) : option Recipient :=
  head (filter (has_ACI aci) (rows st)).
Definition LoadRecipientByPNI (st : RecipientStore) (pni : UUID) : option Recipient :=
  head (filter (has_PNI pni) (rows st)).
(** [getRecipientByACIOrPNIQuery]; the order of the rows is the table's. *)
Definition load_both (st : RecipientStore) (aci pni : UUID) : list Recipient :=
  filter (fun r => has_ACI aci r \/ has_PNI pni r) (rows st).

Definition DeleteRecipientByPNI (l : list Recipient) (pni : UUID) : list Recipient :=
  filter (fun r => ~ has_PNI pni r) l.

(** [INSERT ... ON CONFLICT (key) DO UPDATE] without the other constraint. *)
Definition upsert (same : Recipient -> Prop) `{forall r, Decision (same r)} (update : Recipient -> Recipient)
  (inserted : Recipient) (l : list Recipient) : list Recipient :=
  if decide (Exists same l) then map (fun r => if decide (same r) then update r else r) l
  else l ++ [inserted].

Definition checked (l : list Recipient) : outcome recipient_error (list Recipient) :=
  if decide (consistent l) then Ok l else Err UniqueViolation.

(** The new rows, and the new entry of the block cache, which is set even
    when the statement fails. *)
Definition StoreRecipient (l : list Recipient) (cache : gmap UUID bool) (r : Recipient)
  : outcome recipient_error (list Recipient) * gmap UUID bool :=
  if negb (bool_decide (r_ACI r = uuid_Nil)) then
    (checked (upsert (has_ACI (r_ACI r)) (fun _ => r) r l), <[r_ACI r := r_Blocked r]> cache)
  else if negb (bool_decide (r_PNI r = uuid_Nil)) then
    (checked (upsert (has_PNI (r_PNI r)) (set_contact (r_E164 r) (r_ContactName r) (r_AvatarHash r))
       (set_contact (r_E164 r) (r_ContactName r) (r_AvatarHash r) (new_recipient uuid_Nil (r_PNI r))) l), cache)
  else (Err NoIDs, cache).

(** A [RecipientUpdaterFunc]: [None] is an error. *)
Definition updater_func : Type := Recipient -> option (Recipient * bool).

Definition merged (first second : Recipient) : Recipient :=
  let '(first, second) := if bool_decide (r_ACI first = uuid_Nil) then (second, first) else (first, second) in
  let first := set_PNI (r_PNI second) first in
  let e164 := if negb (beqb (r_E164 second) []) then r_E164 second else r_E164 first in
  let name := if beqb (r_ContactName first) [] then r_ContactName second else r_ContactName first in
  let hash := if beqb (r_AvatarHash first) [] then r_AvatarHash second else r_AvatarHash first in
  set_contact e164 name hash first.

(** Result: the rows, the cache, the recipient and what the updater reported. *)
Definition mergeRecipients (st : RecipientStore) (first second : Recipient) (updater : updater_func)
  : outcome recipient_error (list Recipient * (Recipient * bool)) * gmap UUID bool :=
  match updater (merged first second) with
  | None => (Err UpdaterFailed, blockCache st)
  | Some (first, changed) =>
      let l := DeleteRecipientByPNI (rows st) (r_PNI first) in
      let '(res, cache) := StoreRecipient l (blockCache st) first in
      (let! l := res in Ok (l, (first, changed)), cache)
  end.

(** The branch for at most one row. *)
Definition update_single (st : RecipientStore) (aci pni : UUID) (entry : option Recipient) (updater : updater_func)
  : outcome recipient_error (list Recipient * (Recipient * bool)) * gmap UUID bool :=
  match updater (default (new_recipient aci pni) entry) with
  | None => (Err UpdaterFailed, blockCache st)
  | Some (r, updated) =>
      let l := if negb (bool_decide (r_PNI r = uuid_Nil)) && bool_decide (r_ACI r = uuid_Nil) && negb (bool_decide (aci = uuid_Nil))
               then DeleteRecipientByPNI (rows st) (r_PNI r) else rows st in
      let add_pni := bool_decide (r_PNI r = uuid_Nil) && negb (bool_decide (pni = uuid_Nil)) in
      let r := if add_pni then set_PNI pni r else r in
      let add_aci := bool_decide (r_ACI r = uuid_Nil) && negb (bool_decide (aci = uuid_Nil)) in
      let r := if add_aci then set_ACI aci r else r in
      if updated || add_pni || add_aci || match entry with None => true | Some _ => false end then
        let '(res, cache) := StoreRecipient l (blockCache st) r in
        (let! l := res in Ok (l, (r, updated)), cache)
      else (Ok (l, (r, updated)), blockCache st)
  end.

Definition LoadAndUpdateRecipient (st : RecipientStore) (aci pni : UUID) (updater : updater_func)
  : RecipientStore * outcome recipient_error (Recipient * bool) :=
  if bool_decide (aci = uuid_Nil) && bool_decide (pni = uuid_Nil) then (st, Err NoIDs)
  else
    let entries :=
      if negb (bool_decide (aci = uuid_Nil)) && negb (bool_decide (pni = uuid_Nil)) then load_both st aci pni
      else if negb (bool_decide (aci = uuid_Nil)) then option_list (LoadRecipientByACI st aci)
      else option_list (LoadRecipientByPNI st pni) in
    let '(res, cache) :=
      match entries with
      | [] => update_single st aci pni None updater
      | [e] => update_single st aci pni (Some e) updater
      | [e1; e2] => mergeRecipients st e1 e2 updater
      | _ => (Err TooManyRows, blockCache st)
      end in
    match res with
    | Ok (l, (r, changed)) =>
        let cache := if negb (bool_decide (r_ACI r = uuid_Nil)) then <[r_ACI r := r_Blocked r]> cache else cache in
        (mkStore l cache, Ok (r, changed))
    | Err e => (mkStore (rows st) cache, Err e)
    | Panic => (mkStore (rows st) cache, Panic)
    end.

Definition IsBlocked (st : RecipientStore) (aci : UUID) : RecipientStore * outcome recipient_error bool :=
  match blockCache st !! aci with
  | Some v => (st, Ok v)
  | None =>
      let '(st, res) := LoadAndUpdateRecipient st aci uuid_Nil (fun r => Some (r, false)) in
      (st, outmap (fun r => r_Blocked r.1) res)
  end.

Definition set_E164 (e164 : bytes) (r : Recipient) : Recipient :=
  set_contact e164 (r_ContactName r) (r_AvatarHash r) r.

Definition UpdateRecipientE164 (st : RecipientStore) (aci pni : UUID) (e164 : bytes) :=
  LoadAndUpdateRecipient st aci pni (fun r =>
    if negb (beqb (r_E164 r) e164) then Some (set_E164 e164 r, true) else Some (r, false)).

(** ** Lists with unique keys *)

Lemma filter_single {A} (P : A -> Prop) `{forall x, Decision (P x)} l e : filter P l = [e] ->
  exists l1 l2, l = l1 ++ e :: l2 /\ P e /\ Forall (fun x => ~ P x) l1 /\ Forall (fun x => ~ P x) l2.
Proof.
  induction l as [|x l IH]; intros Hf; [done|]. destruct (decide (P x)) as [Hx|Hx].
  - rewrite filter_cons_True in Hf by done. injection Hf as -> Hf. exists [], l. split_and!; [done|done|constructor|].
    apply Forall_forall. intros y Hy Py. assert (y ∈ filter P l) as Hin by (by apply list_elem_of_filter).
    rewrite Hf in Hin. by apply elem_of_nil in Hin.
  - rewrite filter_cons_False in Hf by done. destruct (IH Hf) as (l1 & l2 & -> & H1 & H2 & H3).
    exists (x :: l1), l2. split_and!; try done. by constructor.
Qed.

Lemma filter_two {A} (P : A -> Prop) `{forall x, Decision (P x)} l e1 e2 : filter P l = [e1; e2] ->
  exists l1 l2 l3, l = l1 ++ e1 :: l2 ++ e2 :: l3 /\ P e1 /\ P e2 /\
    Forall (fun x => ~ P x) l1 /\ Forall (fun x => ~ P x) l2 /\ Forall (fun x => ~ P x) l3.
Proof.
  induction l as [|x l IH]; intros Hf; [done|]. destruct (decide (P x)) as [Hx|Hx].
  - rewrite filter_cons_True in Hf by done. injection Hf as -> Hf.
    destruct (filter_single P l e2 Hf) as (l2 & l3 & -> & H1 & H2 & H3). exists [], l2, l3. split_and!; try done.
  - rewrite filter_cons_False in Hf by done. destruct (IH Hf) as (l1 & l2 & l3 & -> & Hx1).
    exists (x :: l1), l2, l3. split_and!; try constructor; naive_solver.
Qed.

Lemma filter_none {A} (P : A -> Prop) `{forall x, Decision (P x)} l : Forall (fun x => ~ P x) l -> filter P l = [].
Proof. induction 1 as [|x l Hx Hl IH]; [done|]. by rewrite filter_cons_False. Qed.

Lemma filter_keep {A} (P : A -> Prop) `{forall x, Decision (P x)} l : Forall P l -> filter P l = l.
Proof. induction 1 as [|x l Hx Hl IH]; [done|]. by rewrite filter_cons_True, IH. Qed.

(** A row that shares no ID with the given ones. *)
Definition fresh_row (r : Recipient) (l : list Recipient) : Prop :=
  Forall (fun x => ~ has_ACI (r_ACI r) x /\ ~ has_PNI (r_PNI r) x) l.

Lemma unique_by_mid f r l1 l2 : unique_by f (l1 ++ r :: l2) <->
  unique_by f (l1 ++ l2) /\ (non_nil (f r) -> Forall (fun x => f x <> f r) (l1 ++ l2)).
Proof.
  unfold unique_by. rewrite !map_app, !filter_app. cbn [map].
  assert (Hin : forall l, f r ∉ filter non_nil (map f l) <-> (non_nil (f r) -> Forall (fun x => f x <> f r) l)).
  { intros l. rewrite list_elem_of_filter. split.
    - intros Hn Hr. apply Forall_forall. intros x Hx E. apply Hn. split; [done|]. rewrite <- E.
      apply list_elem_of_In, in_map. by apply list_elem_of_In.
    - intros Hf [Hr Hx]. apply list_elem_of_In, in_map_iff in Hx as (x & E & Hx). apply list_elem_of_In in Hx.
      eapply Forall_forall in Hf; [|done|done]. done. }
  destruct (decide (non_nil (f r))) as [Hr|Hr].
  - rewrite filter_cons_True by done. rewrite <- Permutation_middle, NoDup_cons, elem_of_app, Forall_app.
    pose proof (Hin l1). pose proof (Hin l2). naive_solver.
  - rewrite filter_cons_False by done. naive_solver.
Qed.

Lemma consistent_mid r l1 l2 : consistent (l1 ++ r :: l2) <-> consistent (l1 ++ l2) /\ fresh_row r (l1 ++ l2).
Proof.
  unfold consistent, fresh_row. rewrite !unique_by_mid. unfold has_ACI, has_PNI, non_nil. rewrite !Forall_forall.
  split; [intros [[H1 H2] [H3 H4]]|intros [[H1 H2] H3]]; split_and!; try done.
  - intros x Hx. split; intros [E Hn]; [by eapply H2|by eapply H4].
  - intros Hn x Hx E. by destruct (H3 x Hx) as [Hf _], Hf.
  - intros Hn x Hx E. by destruct (H3 x Hx) as [_ Hf], Hf.
Qed.

Lemma upsert_replace same `{forall r, Decision (same r)} update ins e l1 l2 :
  same e -> Forall (fun x => ~ same x) l1 -> Forall (fun x => ~ same x) l2 ->
  upsert same update ins (l1 ++ e :: l2) = l1 ++ update e :: l2.
Proof.
  intros He H1 H2. unfold upsert. rewrite decide_True by (apply Exists_app; right; by left).
  assert (Hid : forall l, Forall (fun x => ~ same x) l -> map (fun r => if decide (same r) then update r else r) l = l).
  { induction 1 as [|x l Hx Hl IH]; [done|]. cbn [map]. by rewrite decide_False, IH. }
  rewrite map_app. cbn [map]. by rewrite !Hid, decide_True.
Qed.

Lemma upsert_insert same `{forall r, Decision (same r)} update ins l :
  Forall (fun x => ~ same x) l -> upsert same update ins l = l ++ [ins].
Proof.
  intros Hl. unfold upsert. rewrite decide_False; [done|]. rewrite Exists_exists. intros (x & Hx & Hs).
  by eapply Forall_forall in Hl.
Qed.

(** Storing a row with an ACI in place of another one, or at the end. *)
Lemma Store_ACI_replace r e l1 l2 cache : r_ACI r <> uuid_Nil -> r_ACI e = r_ACI r ->
  consistent (l1 ++ l2) -> fresh_row r (l1 ++ l2) ->
  StoreRecipient (l1 ++ e :: l2) cache r = (Ok (l1 ++ r :: l2), <[r_ACI r := r_Blocked r]> cache).
Proof.
  intros Hr He Hc Hf. unfold StoreRecipient. rewrite bool_decide_false by done. cbn [negb].
  pose proof Hf as Hf'. apply Forall_app in Hf' as [H1 H2].
  rewrite upsert_replace; [| |eapply Forall_impl; [exact H1|naive_solver]|eapply Forall_impl; [exact H2|naive_solver]].
  - unfold checked. rewrite decide_True; [done|]. by apply consistent_mid.
  - unfold has_ACI. split; [done|]. done.
Qed.

Lemma Store_ACI_insert r l cache : r_ACI r <> uuid_Nil -> consistent l -> fresh_row r l ->
  StoreRecipient l cache r = (Ok (l ++ [r]), <[r_ACI r := r_Blocked r]> cache).
Proof.
  intros Hr Hc Hf. unfold StoreRecipient. rewrite bool_decide_false by done. cbn [negb].
  rewrite upsert_insert by (eapply Forall_impl; [exact Hf|naive_solver]).
  unfold checked. rewrite decide_True; [done|]. apply consistent_mid. by rewrite !app_nil_r.
Qed.

Lemma fresh_row_same r r' l : r_ACI r' = r_ACI r -> r_PNI r' = r_PNI r -> fresh_row r l -> fresh_row r' l.
Proof. unfold fresh_row. by intros -> ->. Qed.

(** ** Updating a recipient *)

(** Updaters keep the IDs; they may fail, and need not report a change. *)
Definition keeps_ids (updater : updater_func) : Prop := forall r r' b, updater r = Some (r', b) ->
  r_ACI r' = r_ACI r /\ r_PNI r' = r_PNI r.

Section Update.
Context (aci pni : UUID).

Definition matches (r : Recipient) : Prop := has_ACI aci r \/ has_PNI pni r.
#[local] Instance matches_dec r : Decision (matches r).
Proof. unfold matches. apply _. Defined.

(** No other account owns the PNI: a row with the PNI has no ACI, or the given one. *)
Definition owner_ok (l : list Recipient) : Prop :=
  Forall (fun r => has_PNI pni r -> r_ACI r = uuid_Nil \/ aci = uuid_Nil \/ r_ACI r = aci) l.

(** [r] is the recipient of the IDs in the new table [l'], whose other rows
    are those of [l].  A row without ACI only stores the contact columns. *)
Definition updated (l l' : list Recipient) (r : Recipient) : Prop :=
  consistent l' /\ (aci <> uuid_Nil -> r_ACI r = aci) /\
  (exists row, row ∈ l' /\ r_ACI row = r_ACI r /\ r_PNI row = r_PNI r /\ (r_ACI r <> uuid_Nil -> row = r) /\
     r_E164 row = r_E164 r /\ r_ContactName row = r_ContactName r /\ r_AvatarHash row = r_AvatarHash r) /\
  (forall row, ~ matches row -> (row ∈ l <-> row ∈ l')).

(** What an updater is run on, given the rows of the IDs: a new recipient, the
    row, or both rows as one. *)
Definition base_of (entries : list Recipient) : Recipient :=
  match entries with [] => new_recipient aci pni | [e] => e | e1 :: e2 :: _ => merged e1 e2 end.
(** A missing ID of the result is filled in. *)
Definition with_ids (r : Recipient) : Recipient :=
  let r := if bool_decide (r_PNI r = uuid_Nil) && negb (bool_decide (pni = uuid_Nil)) then set_PNI pni r else r in
  if bool_decide (r_ACI r = uuid_Nil) && negb (bool_decide (aci = uuid_Nil)) then set_ACI aci r else r.
(** The result is written unless there was one row, an ID was not added to it,
    and the updater did not report a change. *)
Definition written (entries : list Recipient) (r : Recipient) (changed : bool) : bool :=
  match entries with
  | [e] => changed || (bool_decide (r_PNI r = uuid_Nil) && negb (bool_decide (pni = uuid_Nil)))
                   || (bool_decide (r_ACI r = uuid_Nil) && negb (bool_decide (aci = uuid_Nil)))
  | _ => true
  end.

Lemma with_ids_full r : (r_ACI r = uuid_Nil -> aci = uuid_Nil) -> (r_PNI r = uuid_Nil -> pni = uuid_Nil) -> with_ids r = r.
Proof.
  intros Ha Hp. unfold with_ids. destruct (bool_decide (r_PNI r = uuid_Nil) && _) eqn:E1.
  { apply andb_true_iff in E1 as [H1%bool_decide_eq_true H2%negb_true_iff%bool_decide_eq_false]. by destruct H2; apply Hp. }
  destruct (bool_decide (r_ACI r = uuid_Nil) && _) eqn:E2; [|done].
  apply andb_true_iff in E2 as [H1%bool_decide_eq_true H2%negb_true_iff%bool_decide_eq_false]. by destruct H2; apply Ha.
Qed.

Lemma updated_row l l' r : consistent l' -> (aci <> uuid_Nil -> r_ACI r = aci) -> r ∈ l' ->
  (forall row, ~ matches row -> (row ∈ l <-> row ∈ l')) -> updated l l' r.
Proof. intros H1 H2 H3 H4. split_and!; [done|done| |done]. exists r. done. Qed.

Lemma fresh_unmatched r l : (r_ACI r = uuid_Nil \/ r_ACI r = aci) -> (r_PNI r = uuid_Nil \/ r_PNI r = pni) ->
  Forall (fun x => ~ matches x) l -> fresh_row r l.
Proof.
  intros Ha Hp Hl. eapply Forall_impl; [exact Hl|]. unfold matches, has_ACI, has_PNI. intros x Hx.
  destruct Ha as [-> | ->], Hp as [-> | ->]; naive_solver.
Qed.

Lemma no_match_insert r l row : matches r -> ~ matches row -> (row ∈ l <-> row ∈ l ++ [r]).
Proof. intros Hr Hn. rewrite elem_of_app, list_elem_of_singleton. naive_solver. Qed.

Lemma no_match_replace e r l1 l2 row : matches e -> matches r -> ~ matches row ->
  (row ∈ l1 ++ e :: l2 <-> row ∈ l1 ++ r :: l2).
Proof. intros He Hr Hn. rewrite !elem_of_app, !elem_of_cons. naive_solver. Qed.

Variable st : RecipientStore.
Variable updater : updater_func.
Hypothesis Hc : consistent (rows st).
Hypothesis Hids : aci <> uuid_Nil \/ pni <> uuid_Nil.
Hypothesis Hup : keeps_ids updater.
Hypothesis Hown : owner_ok (rows st).

(** The table without any row of the IDs. *)
Lemma update_none r b : Forall (fun x => ~ matches x) (rows st) -> updater (new_recipient aci pni) = Some (r, b) ->
  exists l cache, update_single st aci pni None updater = (Ok (l, (with_ids r, b)), cache) /\ updated (rows st) l (with_ids r).
Proof.
  intros Hn Hu. unfold update_single. cbn [default from_option].
  destruct (Hup _ _ _ Hu) as [Ha Hp]. rewrite Hu. cbn [r_ACI r_PNI new_recipient] in Ha, Hp. rewrite (with_ids_full r) by congruence.
  rewrite Ha, Hp.
  assert (Hd : negb (bool_decide (pni = uuid_Nil)) && bool_decide (aci = uuid_Nil) && negb (bool_decide (aci = uuid_Nil)) = false)
    by (by destruct (bool_decide (aci = uuid_Nil)), (bool_decide (pni = uuid_Nil))).
  rewrite Hd. clear Hd.
  assert (Hd : bool_decide (pni = uuid_Nil) && negb (bool_decide (pni = uuid_Nil)) = false) by (by destruct (bool_decide _)).
  rewrite Hd, Ha. clear Hd.
  assert (Hd : bool_decide (aci = uuid_Nil) && negb (bool_decide (aci = uuid_Nil)) = false) by (by destruct (bool_decide _)).
  rewrite Hd, !orb_true_r. clear Hd.
  destruct (decide (aci = uuid_Nil)) as [Ez|Ez].
  - destruct Hids as [|Hpn]; [done|]. unfold StoreRecipient. rewrite Ha, Hp, Ez, bool_decide_true by done. cbn [negb].
    rewrite (bool_decide_false (pni = uuid_Nil)) by done. cbn [negb].
    set (row := set_contact (r_E164 r) (r_ContactName r) (r_AvatarHash r) (new_recipient uuid_Nil pni)).
    rewrite upsert_insert by (eapply Forall_impl; [exact Hn|unfold matches; naive_solver]).
    assert (Hf : fresh_row row (rows st)) by (apply fresh_unmatched; [by left|by right|done]).
    unfold checked. rewrite decide_True by (apply consistent_mid; by rewrite !app_nil_r). cbn [obind].
    eexists _, _. split; [reflexivity|]. split_and!.
    + apply consistent_mid. by rewrite !app_nil_r.
    + done.
    + exists row. split; [apply elem_of_app; right; by left|]. cbn. rewrite Ha, Ez. split_and!; try done; by rewrite Hp.
    + intros row' Hm. apply no_match_insert; [|done]. right. done.
  - rewrite Store_ACI_insert; [|by rewrite Ha|done|].
    + cbn [obind]. eexists _, _. split; [reflexivity|]. apply updated_row.
      * apply consistent_mid. rewrite !app_nil_r. split; [done|]. apply fresh_unmatched; [by right|by right|done].
      * done.
      * apply elem_of_app. right. by left.
      * intros row Hm. apply no_match_insert; [by left|done].
    + apply fresh_unmatched; [by right|by right|done].
Qed.

Section One.
Context (e : Recipient) (l1 l2 : list Recipient).
Hypothesis Hrows : rows st = l1 ++ e :: l2.
Hypothesis He : matches e.
Hypothesis H1 : Forall (fun x => ~ matches x) l1.
Hypothesis H2 : Forall (fun x => ~ matches x) l2.

Lemma others_unmatched : Forall (fun x => ~ matches x) (l1 ++ l2).
Proof. by apply Forall_app. Qed.

Lemma others_fresh : consistent (l1 ++ l2) /\ fresh_row e (l1 ++ l2).
Proof. apply consistent_mid. by rewrite <- Hrows. Qed.

Lemma updated_replaced r : matches r -> (aci <> uuid_Nil -> r_ACI r = aci) -> fresh_row r (l1 ++ l2) ->
  updated (rows st) (l1 ++ r :: l2) r.
Proof.
  intros Hm Ha Hf. apply updated_row; [|done| |].
  - apply consistent_mid. split; [apply others_fresh|done].
  - apply elem_of_app. right. by left.
  - intros row Hn. rewrite Hrows. by apply no_match_replace.
Qed.

(** The row has the ACI. *)
Lemma update_one_aci r0 b : has_ACI aci e -> updater e = Some (r0, b) ->
  exists l cache, update_single st aci pni (Some e) updater = (Ok (l, (with_ids r0, b)), cache) /\
    if written [e] r0 b then updated (rows st) l (with_ids r0) else l = rows st /\ with_ids r0 = r0.
Proof.
  intros [Ea Ha] Hu. unfold update_single, written, with_ids. cbn [default from_option].
  destruct (Hup _ _ _ Hu) as [Er Ep]. unfold id. rewrite Hu. rewrite Er, Ea.
  rewrite (bool_decide_false (aci = uuid_Nil)) by done. cbn [negb]. rewrite andb_false_r. cbn [andb].
  set (add_pni := bool_decide (r_PNI r0 = uuid_Nil) && negb (bool_decide (pni = uuid_Nil))).
  set (r := if add_pni then set_PNI pni r0 else r0).
  assert (Hra : r_ACI r = aci) by (unfold r; destruct add_pni; cbn; congruence).
  rewrite Hra, (bool_decide_false (aci = uuid_Nil)) by done. cbn [andb]. rewrite !orb_false_r.
  destruct others_fresh as [Hcon Hfe].
  assert (Hf : fresh_row r (l1 ++ l2)).
  { unfold r. destruct add_pni.
    - apply fresh_unmatched; [right; cbn; congruence|by right|apply others_unmatched].
    - by apply (fresh_row_same e). }
  assert (Hm : matches r) by (left; split; done).
  destruct (b || add_pni) eqn:Es.
  - rewrite Hrows, (Store_ACI_replace r e) by (done || congruence). cbn [obind].
    eexists _, _. split; [reflexivity|]. rewrite <- Hrows. by apply updated_replaced.
  - apply orb_false_iff in Es as [-> Es]. unfold r. rewrite Es. eexists _, _. split; [reflexivity|done].
Qed.

(** The row is found by its PNI only. *)
Lemma update_one_pni r0 b : ~ has_ACI aci e -> has_PNI pni e -> updater e = Some (r0, b) ->
  exists l cache, update_single st aci pni (Some e) updater = (Ok (l, (with_ids r0, b)), cache) /\
    if written [e] r0 b then updated (rows st) l (with_ids r0) else l = rows st /\ with_ids r0 = r0.
Proof.
  intros Hna [Epe Hpn] Hu. unfold update_single, written, with_ids. cbn [default from_option].
  destruct (Hup _ _ _ Hu) as [Er Ep]. unfold id. rewrite Hu.
  assert (Hp0 : r_PNI r0 = pni) by congruence. rewrite Hp0, (bool_decide_false (pni = uuid_Nil)) by done.
  cbn [negb andb]. destruct others_fresh as [Hcon Hfe].
  assert (Hf0 : fresh_row r0 (l1 ++ l2)) by (by apply (fresh_row_same e)).
  assert (Hm0 : matches r0) by (right; done).
  destruct (decide (aci = uuid_Nil)) as [Ez|Ez].
  - rewrite (bool_decide_true (aci = uuid_Nil)) by done. cbn [negb]. rewrite !andb_false_r, !orb_false_r.
    destruct b.
    + destruct (decide (r_ACI r0 = uuid_Nil)) as [E0|E0].
      * unfold StoreRecipient. rewrite (bool_decide_true (r_ACI r0 = uuid_Nil)) by done. cbn [negb].
        rewrite Hp0, (bool_decide_false (pni = uuid_Nil)) by done. cbn [negb].
        set (up := set_contact (r_E164 r0) (r_ContactName r0) (r_AvatarHash r0)).
        rewrite Hrows, upsert_replace; [|done|eapply Forall_impl; [exact H1|unfold matches; naive_solver]|eapply Forall_impl; [exact H2|unfold matches; naive_solver]].
        assert (Hfu : fresh_row (up e) (l1 ++ l2)) by (by apply (fresh_row_same e)).
        unfold checked. rewrite decide_True by (by apply consistent_mid). cbn [obind].
        eexists _, _. split; [reflexivity|]. split_and!.
        -- by apply consistent_mid.
        -- done.
        -- exists (up e). split; [apply elem_of_app; right; by left|]. cbn. split_and!; try done.
        -- intros row Hn. apply no_match_replace; [done| |done]. right. done.
      * rewrite Hrows, (Store_ACI_replace r0 e) by (done || congruence). cbn [obind].
        eexists _, _. split; [reflexivity|]. rewrite <- Hrows. apply updated_replaced; done.
    + eexists _, _. split; [reflexivity|done].
  - assert (E0 : r_ACI r0 = uuid_Nil).
    { rewrite Er. unfold owner_ok in Hown. rewrite Hrows in Hown. apply Forall_app in Hown as [_ Hown'].
      apply Forall_cons in Hown' as [Ho _]. destruct (Ho (conj Epe Hpn)) as [|[|Eq]]; [done|done|].
      exfalso. apply Hna. split; done. }
    rewrite E0, (bool_decide_false (aci = uuid_Nil)), (bool_decide_true (uuid_Nil = uuid_Nil)) by done. cbn [negb andb].
    rewrite orb_true_r. cbn [orb].
    assert (Hdel : DeleteRecipientByPNI (rows st) pni = l1 ++ l2).
    { unfold DeleteRecipientByPNI. rewrite Hrows, filter_app, filter_cons_False by (intros Hx; apply Hx; split; done).
      rewrite !filter_keep; [done|eapply Forall_impl; [exact H2|unfold matches; naive_solver]|
        eapply Forall_impl; [exact H1|unfold matches; naive_solver]]. }
    rewrite Hdel.
    assert (Hf : fresh_row (set_ACI aci r0) (l1 ++ l2))
      by (apply fresh_unmatched; [by right|by right|apply others_unmatched]).
    rewrite Store_ACI_insert by done. cbn [obind]. eexists _, _. split; [reflexivity|].
    apply updated_row.
    + apply consistent_mid. by rewrite !app_nil_r.
    + done.
    + apply elem_of_app. right. by left.
    + intros row Hn. rewrite Hrows, elem_of_app, elem_of_cons, !elem_of_app, list_elem_of_singleton.
      assert (matches (set_ACI aci r0)) by (left; split; done). naive_solver.
Qed.

End One.

(** Two rows: one with the ACI, and one with the PNI and no ACI. *)
Lemma update_two e1 e2 l1 l2 l3 r b : rows st = l1 ++ e1 :: l2 ++ e2 :: l3 -> matches e1 -> matches e2 ->
  Forall (fun x => ~ matches x) l1 -> Forall (fun x => ~ matches x) l2 -> Forall (fun x => ~ matches x) l3 ->
  updater (merged e1 e2) = Some (r, b) ->
  exists l cache, mergeRecipients st e1 e2 updater = (Ok (l, (with_ids r, b)), cache) /\ updated (rows st) l (with_ids r).
Proof.
  intros Hrows M1 M2 U1 U2 U3 Hupd.
  assert (Hu : Forall (fun x => ~ matches x) (l1 ++ l2 ++ l3)) by (rewrite !Forall_app; done).
  pose proof Hc as Hc1. rewrite Hrows in Hc1. apply consistent_mid in Hc1 as [Hc2 Hf1].
  rewrite app_assoc in Hc2. apply consistent_mid in Hc2 as [Hc3 Hf2]. rewrite <- app_assoc in Hc3.
  assert (Hf12 : ~ has_ACI (r_ACI e1) e2 /\ ~ has_PNI (r_PNI e1) e2).
  { unfold fresh_row in Hf1. rewrite !Forall_app, Forall_cons in Hf1. naive_solver. }
  assert (Ho : forall e, e ∈ rows st -> has_PNI pni e -> ~ has_ACI aci e -> aci <> uuid_Nil -> r_ACI e = uuid_Nil).
  { intros e He Hp Hna Hz. eapply Forall_forall in Hown; [|done]. destruct (Hown Hp) as [|[|]]; [done|done|].
    exfalso. apply Hna. by split. }
  assert (Hin1 : e1 ∈ rows st) by (rewrite Hrows; apply elem_of_app; right; by left).
  assert (Hin2 : e2 ∈ rows st) by (rewrite Hrows, app_comm_cons, app_assoc; apply elem_of_app; right; by left).
  assert (Hkeep : forall l, Forall (fun x => ~ matches x) l -> filter (fun r => ~ has_PNI pni r) l = l)
    by (intros l Hl; apply filter_keep; eapply Forall_impl; [exact Hl|unfold matches; naive_solver]).
  assert (Hgo : forall A B la lb, has_ACI aci A -> has_PNI pni B -> r_ACI B = uuid_Nil ->
    (exists x, merged e1 e2 = x /\ r_ACI x = aci /\ r_PNI x = pni) ->
    Forall (fun x => ~ matches x) (la ++ lb) -> consistent (la ++ lb) -> ~ has_PNI pni A ->
    filter (fun r => ~ has_PNI pni r) (rows st) = la ++ A :: lb ->
    (forall row, ~ matches row -> (row ∈ rows st <-> row ∈ la ++ lb)) ->
    exists l cache, mergeRecipients st e1 e2 updater = (Ok (l, (with_ids r, b)), cache) /\ updated (rows st) l (with_ids r)).
  { intros A B la lb [EA HA] HB HBn (x & Hx & Hxa & Hxp) Hlu Hcl HAp Hfil Hrow. unfold mergeRecipients. rewrite Hupd.
    destruct (Hup _ _ _ Hupd) as [Hra Hrp]. rewrite Hx in Hra, Hrp. rewrite (with_ids_full r) by congruence. rewrite Hrp, Hxp. unfold DeleteRecipientByPNI. rewrite Hfil.
    assert (Hf : fresh_row r (la ++ lb)) by (apply fresh_unmatched; [right; congruence|right; congruence|done]).
    rewrite Store_ACI_replace by (done || congruence). cbn [obind]. eexists _, _. split; [reflexivity|].
    assert (matches r) by (left; split; [congruence|done]).
    apply updated_row; [by apply consistent_mid|congruence|apply elem_of_app; right; by left|].
    intros row Hn. rewrite (Hrow row Hn), !elem_of_app, elem_of_cons. naive_solver. }
  assert (Hmem : forall row, ~ matches row -> (row ∈ rows st <-> row ∈ l1 ++ l2 ++ l3)).
  { intros row Hn. rewrite Hrows, !elem_of_app, !elem_of_cons, !elem_of_app, elem_of_cons. naive_solver. }
  destruct (decide (has_ACI aci e1)) as [A1|A1].
  - assert (A2 : ~ has_ACI aci e2) by (destruct A1 as [<- _]; apply Hf12).
    assert (P2 : has_PNI pni e2) by (destruct M2; done).
    assert (P1 : ~ has_PNI pni e1).
    { intros [E1 Hn]. apply (proj2 Hf12). rewrite E1. done. }
    assert (N2 : r_ACI e2 = uuid_Nil) by (apply Ho; try done; apply A1).
    apply (Hgo e1 e2 l1 (l2 ++ l3)); try done.
    + exists (merged e1 e2). split; [done|]. unfold merged. destruct A1 as [EA HA].
      rewrite bool_decide_false by congruence. cbn. split; [done|]. apply P2.
    + rewrite Hrows, filter_app, filter_cons_True, filter_app, filter_cons_False by (done || naive_solver).
      by rewrite !Hkeep.
  - assert (P1 : has_PNI pni e1) by (destruct M1; done).
    assert (P2 : ~ has_PNI pni e2) by (destruct P1 as [<- _]; apply Hf12).
    assert (A2 : has_ACI aci e2) by (destruct M2; done).
    assert (N1 : r_ACI e1 = uuid_Nil) by (apply Ho; try done; apply A2).
    apply (Hgo e2 e1 (l1 ++ l2) l3); try done.
    + exists (merged e1 e2). split; [done|]. unfold merged. destruct A2 as [EA HA].
      rewrite bool_decide_true by done. cbn. split; [done|]. apply P1.
    + by rewrite <- app_assoc.
    + by rewrite <- app_assoc.
    + rewrite Hrows, filter_app, filter_cons_False, filter_app, filter_cons_True by (done || naive_solver).
      by rewrite !Hkeep, <- app_assoc.
    + intros row Hn. rewrite <- app_assoc. by apply Hmem.
Qed.

End Update.

(** At most one row has a given ID. *)
Lemma unique_filter f u l : unique_by f l -> u <> uuid_Nil ->
  (length (filter (fun r => f r = u /\ u <> uuid_Nil) l) <= 1)%nat.
Proof.
  intros Hun Hu. induction l as [|x l IH]; [simpl; lia|].
  apply (unique_by_mid f x [] l) in Hun as [Hun Hx]. cbn [app] in *.
  destruct (decide (f x = u)) as [E|E].
  - rewrite filter_cons_True by done. rewrite filter_none; [done|].
    eapply Forall_impl; [apply Hx; unfold non_nil; congruence|]. intros y Hy [Ey _]. congruence.
  - rewrite filter_cons_False by naive_solver. by apply IH.
Qed.

Lemma filter_or_length {A} (P Q : A -> Prop) `{forall x, Decision (P x)} `{forall x, Decision (Q x)} l :
  (length (filter (fun x => P x \/ Q x) l) <= length (filter P l) + length (filter Q l))%nat.
Proof.
  induction l as [|x l IH]; [done|]. rewrite !filter_cons.
  repeat case_decide; cbn [length]; try lia; naive_solver lia.
Qed.

(** The rows [LoadAndUpdateRecipient] looks at are those that match. *)
Definition entries (st : RecipientStore) (aci pni : UUID) : list Recipient :=
  if negb (bool_decide (aci = uuid_Nil)) && negb (bool_decide (pni = uuid_Nil)) then load_both st aci pni
  else if negb (bool_decide (aci = uuid_Nil)) then option_list (LoadRecipientByACI st aci)
  else option_list (LoadRecipientByPNI st pni).

Lemma option_list_head {A} (l : list A) : (length l <= 1)%nat -> option_list (head l) = l.
Proof. destruct l as [|x [|y l]]; simpl; [done|done|lia]. Qed.

#[local] Existing Instance matches_dec.

Lemma entries_eq st aci pni : consistent (rows st) -> (aci <> uuid_Nil \/ pni <> uuid_Nil) ->
  entries st aci pni = filter (matches aci pni) (rows st) /\ (length (entries st aci pni) <= 2)%nat.
Proof.
  intros [Ha Hp] Hids. unfold entries, load_both, LoadRecipientByACI, LoadRecipientByPNI.
  assert (La : aci <> uuid_Nil -> (length (filter (has_ACI aci) (rows st)) <= 1)%nat) by (intros; by apply (unique_filter r_ACI)).
  assert (Lp : pni <> uuid_Nil -> (length (filter (has_PNI pni) (rows st)) <= 1)%nat) by (intros; by apply (unique_filter r_PNI)).
  destruct (decide (aci = uuid_Nil)) as [Ea|Ea].
  - rewrite (bool_decide_true (aci = uuid_Nil)) by done. cbn [negb andb]. destruct Hids as [|Hn]; [done|].
    rewrite option_list_head by auto. split; [|specialize (Lp Hn); lia].
    apply list_filter_iff. intros r. unfold matches, has_ACI. naive_solver.
  - rewrite (bool_decide_false (aci = uuid_Nil)) by done. cbn [negb andb].
    destruct (decide (pni = uuid_Nil)) as [Ep|Ep].
    + rewrite (bool_decide_true (pni = uuid_Nil)) by done. cbn [negb].
      rewrite option_list_head by auto. split; [|specialize (La Ea); lia].
      apply list_filter_iff. intros r. unfold matches, has_PNI. naive_solver.
    + rewrite (bool_decide_false (pni = uuid_Nil)) by done. cbn [negb]. split; [done|].
      pose proof (filter_or_length (has_ACI aci) (has_PNI pni) (rows st)). specialize (La Ea). specialize (Lp Ep). lia.
Qed.

Lemma update_entries st aci pni updater : aci <> uuid_Nil \/ pni <> uuid_Nil ->
  LoadAndUpdateRecipient st aci pni updater =
    let '(res, cache) := match entries st aci pni with
                         | [] => update_single st aci pni None updater
                         | [e] => update_single st aci pni (Some e) updater
                         | [e1; e2] => mergeRecipients st e1 e2 updater
                         | _ => (Err TooManyRows, blockCache st)
                         end in
    match res with
    | Ok (l, (r, changed)) => (mkStore l (if negb (bool_decide (r_ACI r = uuid_Nil)) then <[r_ACI r := r_Blocked r]> cache else cache), Ok (r, changed))
    | Err e => (mkStore (rows st) cache, Err e)
    | Panic => (mkStore (rows st) cache, Panic)
    end.
Proof.
  intros Hids. unfold LoadAndUpdateRecipient.
  replace (bool_decide (aci = uuid_Nil) && bool_decide (pni = uuid_Nil)) with false; [done|].
  symmetry; apply andb_false_iff; rewrite !bool_decide_eq_false; done.
Qed.

(** The outcome of an update on the rows of the IDs. *)
Definition update_result (st : RecipientStore) (aci pni : UUID) (updater : updater_func) : Prop :=
  let found := entries st aci pni in
  let base := base_of aci pni found in
  match updater base with
  | None => exists st', LoadAndUpdateRecipient st aci pni updater = (st', Err UpdaterFailed) /\ rows st' = rows st
  | Some (r', changed) =>
      let r := with_ids aci pni r' in
      exists st', LoadAndUpdateRecipient st aci pni updater = (st', Ok (r, changed)) /\ consistent (rows st') /\
        (if written aci pni found r' changed then updated aci pni (rows st) (rows st') r else rows st' = rows st /\ r = r') /\
        (r_ACI r <> uuid_Nil -> blockCache st' !! r_ACI r = Some (r_Blocked r))
  end.


(** C40: when the PNI is still recorded for another account, the wrong
    recipient is updated: if a row of the table has the PNI and another ACI, no
    row has the given ACI, and the updater keeps the IDs, then
    [LoadAndUpdateRecipient] for the new owner runs the updater on the other
    account's row and returns the result; it is stored in place of that row if
    the updater reports a change, all other rows are left alone, and no row for
    the given ACI exists afterwards. *)
Theorem recipient_wrong_owner st e l1 l2 aci pni updater r' b
  (Hc : consistent (rows st)) (Hr : rows st = l1 ++ e :: l2)
  (Ha : aci <> uuid_Nil) (Hp : pni <> uuid_Nil) (Hep : r_PNI e = pni) (Hea : r_ACI e <> uuid_Nil)
  (Hnone : Forall (fun r => r_ACI r <> aci) (rows st))
  (Hup : keeps_ids updater) (Hu : updater e = Some (r', b)) :
  exists st', LoadAndUpdateRecipient st aci pni updater = (st', Ok (r', b)) /\ r_ACI r' = r_ACI e /\
    rows st' = (if b then l1 ++ r' :: l2 else rows st) /\ Forall (fun r => r_ACI r <> aci) (rows st').
Proof.
  destruct (Hup _ _ _ Hu) as [Hra Hrp].
  assert (Hf : consistent (l1 ++ l2) /\ fresh_row e (l1 ++ l2)) by (apply consistent_mid; by rewrite <- Hr).
  assert (Hone : entries st aci pni = [e]).
  { destruct (entries_eq st aci pni Hc (or_introl Ha)) as [-> _]. rewrite Hr.
    assert (Hn : Forall (fun x => ~ matches aci pni x) (l1 ++ l2)).
    { rewrite Hr in Hnone. apply Forall_app in Hnone as [N1 [_ N2]%Forall_cons]. apply Forall_forall. intros x Hx [[Hxa _]|[Hxp _]].
      - apply elem_of_app in Hx as [Hx|Hx]; [eapply Forall_forall in N1|eapply Forall_forall in N2]; done.
      - destruct Hf as [_ Hf]. eapply Forall_forall in Hf; [|done]. apply Hf. rewrite Hep. by split. }
    apply Forall_app in Hn as [N1 N2]. rewrite filter_app, filter_cons_True by (right; by split). by rewrite !filter_none. }
  rewrite update_entries, Hone by auto. unfold update_single. cbn [default from_option]. unfold id. rewrite Hu, Hrp, Hep.
  rewrite (bool_decide_false (pni = uuid_Nil)) by done. cbn [negb andb]. rewrite Hra, (bool_decide_false (r_ACI e = uuid_Nil)) by done. cbn [andb]. rewrite !orb_false_r.
  destruct b.
  - rewrite Hr, (Store_ACI_replace r' e) by (done || congruence || apply Hf || (eapply fresh_row_same; [..|apply Hf]; congruence)). cbn [obind].
    eexists. split; [reflexivity|]. cbn [rows]. split_and!; [done|done|]. rewrite Hr in Hnone.
    apply Forall_app in Hnone as [N1 [N2 N3]%Forall_cons]. apply Forall_app. split; [done|]. constructor; [congruence|done].
  - eexists. split; [reflexivity|]. cbn [rows]. done.
Qed.

(** ** Witnesses *)
Definition uuid_of (b : byte) : UUID := mk_fixed (n := 16) (repeat b 16) eq_refl.


Lemma recipient_wrong_owner_witness :
  let other := new_recipient (uuid_of x03) (uuid_of x02) in
  exists st', LoadAndUpdateRecipient (mkStore [new_recipient (uuid_of x04) uuid_Nil; other] ∅) (uuid_of x01) (uuid_of x02)
      (fun r => Some (set_E164 (str "+123") r, true)) = (st', Ok (set_E164 (str "+123") other, true)) /\
    rows st' = [new_recipient (uuid_of x04) uuid_Nil; set_E164 (str "+123") other].
Proof.
  intros other.
  destruct (recipient_wrong_owner (mkStore [new_recipient (uuid_of x04) uuid_Nil; other] ∅) other [new_recipient (uuid_of x04) uuid_Nil] []
    (uuid_of x01) (uuid_of x02) (fun r => Some (set_E164 (str "+123") r, true)) (set_E164 (str "+123") other) true) as (st' & H & _ & Hr & _).
  - apply (bool_decide_unpack _). vm_compute. reflexivity.
  - reflexivity.
  - discriminate.
  - discriminate.
  - reflexivity.
  - discriminate.
  - repeat (constructor; [discriminate|]). constructor.
  - intros r r' b [= <- <-]. done.
  - reflexivity.
  - exists st'. split; [exact H|exact Hr].
Defined.
