(* ===== verification/StorageSync.v ===== *)
(** Storage sync: [processStorageInTxn] and [StorageSync] of
    [pkg/signalmeow/storageservice.go], [UpdateChatSettings] of
    [storagewrite.go], and the client's view of chat settings
    ([chatsettings.go]).

    The database part of the world (recipients, group keys) is rolled back
    when a transaction fails; the maps of the client are not. *)
From Stdlib Require Import ZifyNat.
From S2P Require Import Prelude GoLib ServiceId Crypto Storage ChatSettings RecipientStore.

(** [strings.TrimSpace(fmt.Sprintf("%s %s", given, family))] *)
Definition full_name (given family : bytes) : bytes := TrimSpace_str (given ++ str " " ++ family).

Inductive client_event :=
| ContactListEvent (contacts : list Recipient)
| ChatSettingsEvent (chats : gmap bytes ChatSettings)
| StorageManifestChangedSent.

(** [w_account] is [Store.AccountRecord] in memory, [w_deviceRow] the account
    record of the device row in the database. *)
Record World := mkWorld {
  w_recipients : RecipientStore;
  w_groupKeys : gmap bytes bytes;
  w_account : option AccountRecord;
  w_deviceRow : option AccountRecord;
  w_chatSettings : gmap bytes ChatSettings;
  w_chatPinned : gset bytes;
  w_events : list client_event
}.

Section Sync.
Context `{U : UUIDLib} `{G : GroupLib}.
(** The account's own ACI. *)
Context (ownACI : UUID).

Definition recordChatSettings (chatID : bytes) (settings : ChatSettings) (w : World) : World :=
  mkWorld (w_recipients w) (w_groupKeys w) (w_account w) (w_deviceRow w) (<[chatID := settings]> (w_chatSettings w)) (w_chatPinned w) (w_events w).
Definition recordPinnedChats (pinned : gset bytes) (w : World) : World :=
  mkWorld (w_recipients w) (w_groupKeys w) (w_account w) (w_deviceRow w) (w_chatSettings w) pinned (w_events w).
Definition set_recipients (st : RecipientStore) (w : World) : World :=
  mkWorld st (w_groupKeys w) (w_account w) (w_deviceRow w) (w_chatSettings w) (w_chatPinned w) (w_events w).
Definition set_groupKeys (m : gmap bytes bytes) (w : World) : World :=
  mkWorld (w_recipients w) m (w_account w) (w_deviceRow w) (w_chatSettings w) (w_chatPinned w) (w_events w).
Definition set_account (a : AccountRecord) (w : World) : World :=
  mkWorld (w_recipients w) (w_groupKeys w) (Some a) (w_deviceRow w) (w_chatSettings w) (w_chatPinned w) (w_events w).
(** [PutDevice] saves the device as it is in memory. *)
Definition PutDevice (w : World) : World :=
  mkWorld (w_recipients w) (w_groupKeys w) (w_account w) (w_account w) (w_chatSettings w) (w_chatPinned w) (w_events w).
Definition set_deviceRow (a : option AccountRecord) (w : World) : World :=
  mkWorld (w_recipients w) (w_groupKeys w) (w_account w) a (w_chatSettings w) (w_chatPinned w) (w_events w).
Definition add_event (e : client_event) (w : World) : World :=
  mkWorld (w_recipients w) (w_groupKeys w) (w_account w) (w_deviceRow w) (w_chatSettings w) (w_chatPinned w) (w_events w ++ [e]).

Definition zero_settings : ChatSettings := mkSettings 0 false false false.
Definition with_pinned (p : bool) (s : ChatSettings) : ChatSettings :=
  mkSettings (MutedUntil s) (Archived s) (MarkedUnread s) p.

(** [Client.ChatSettings]. *)
Definition ChatSettings_of (w : World) (chatID : bytes) : ChatSettings * bool :=
  let pinned := bool_decide (chatID ∈ w_chatPinned w) in
  (with_pinned pinned (default zero_settings (w_chatSettings w !! chatID)),
   isSome (w_chatSettings w !! chatID) || pinned).

(** The entries of the event, by chat; the event lists them sorted by ID. *)
Definition chatSettingsEvent (w : World) : client_event :=
  ChatSettingsEvent (set_to_map (fun id => (id, (ChatSettings_of w id).1)) (dom (w_chatSettings w) ∪ w_chatPinned w)).

(** The updater of a contact record; [changed] is threaded through. *)
Definition contact_updater (contact : ContactRecord) : updater_func := fun r =>
  let '(key, changed) :=
    match to_fixed 32 (c_ProfileKey contact) with
    | Some k => (k, negb (bool_decide (p_Key (r_Profile r) = k)))
    | None => (p_Key (r_Profile r), false)
    end in
  let '(name, changed) :=
    if beqb (p_Name (r_Profile r)) [] && (negb (beqb (c_GivenName contact) []) || negb (beqb (c_FamilyName contact) []))
    then (full_name (c_GivenName contact) (c_FamilyName contact), true) else (p_Name (r_Profile r), changed) in
  let '(contactName, changed) :=
    if negb (beqb (c_SystemGivenName contact) []) || negb (beqb (c_SystemFamilyName contact) [])
    then (full_name (c_SystemGivenName contact) (c_SystemFamilyName contact), true) else (r_ContactName r, changed) in
  let newNickname := match c_Nickname contact with Some n => full_name (cn_Given n) (cn_Family n) | None => [] end in
  let changed := changed || negb (beqb (r_Nickname r) newNickname) in
  let '(e164, changed) :=
    if negb (beqb (c_E164 contact) []) then (c_E164 contact, changed || negb (beqb (r_E164 r) (c_E164 contact)))
    else (r_E164 r, changed) in
  let changed := changed || negb (Bool.eqb (c_Blocked contact) (r_Blocked r)) in
  let '(whitelisted, changed) :=
    if negb (default false (r_Whitelisted r)) then (Some (c_Whitelisted contact), true) else (r_Whitelisted r, changed) in
  let p := r_Profile r in
  Some (mkRecipient (r_ACI r) (r_PNI r) e164 contactName (r_AvatarHash r) newNickname
          (mkProfile name (p_About p) (p_AboutEmoji p) (p_AvatarPath p) key (p_FetchedAt p))
          (r_NeedsPNISignature r) (c_Blocked contact) whitelisted, changed).

(** [StoreMasterKey] of [groups.go]. *)
Definition StoreMasterKey (w : World) (groupMasterKey : bytes) : World * outcome group_key_error bytes :=
  match groupIdentifierFromMasterKey groupMasterKey with
  | Ok gid => (set_groupKeys (<[gid := groupMasterKey]> (w_groupKeys w)) w, Ok gid)
  | Err e => (w, Err e)
  | Panic => (w, Panic)
  end.

(** [storeProfileKeyQuery]: an upsert of one column. *)
Definition set_profile_key (k : fixed 32) (r : Recipient) : Recipient :=
  let p := r_Profile r in
  mkRecipient (r_ACI r) (r_PNI r) (r_E164 r) (r_ContactName r) (r_AvatarHash r) (r_Nickname r)
    (mkProfile (p_Name p) (p_About p) (p_AboutEmoji p) (p_AvatarPath p) k (p_FetchedAt p))
    (r_NeedsPNISignature r) (r_Blocked r) (r_Whitelisted r).

Definition StoreProfileKey (st : RecipientStore) (aci : UUID) (k : fixed 32) : RecipientStore :=
  mkStore (upsert (has_ACI aci) (set_profile_key k) (set_profile_key k (new_recipient aci uuid_Nil)) (rows st)) (blockCache st).

Record process_state := mkProcess { ps_world : World; ps_changed : list Recipient; ps_seen : bool }.

Definition process_contact (st : process_state) (contact : ContactRecord) : process_state * outcome storage_error unit :=
  let aci := contact_aci contact in
  let pni := contact_pni contact in
  if bool_decide (aci = uuid_Nil) && bool_decide (pni = uuid_Nil) then (st, Ok tt)
  else
    let chatID := contactChatID aci pni in
    let '(w, seen) :=
      if negb (beqb chatID []) then (recordChatSettings chatID (contactRecordSettings contact) (ps_world st), true)
      else (ps_world st, ps_seen st) in
    match LoadAndUpdateRecipient (w_recipients w) aci pni (contact_updater contact) with
    | (rs, Ok (r, changed)) =>
        (mkProcess (set_recipients rs w) (if changed then ps_changed st ++ [r] else ps_changed st) seen, Ok tt)
    | (rs, Err _) => (mkProcess (set_recipients rs w) (ps_changed st) seen, Err StoreError)
    | (rs, Panic) => (mkProcess (set_recipients rs w) (ps_changed st) seen, Panic)
    end.

Definition process_group (st : process_state) (group : GroupV2Record) : process_state * outcome storage_error unit :=
  match to_fixed GroupMasterKeyLength (g_MasterKey group) with
  | None => (st, Ok tt)
  | Some masterKey =>
      match StoreMasterKey (ps_world st) (masterKeyFromBytes masterKey) with
      | (w, Ok groupID) =>
          (mkProcess (recordChatSettings groupID (groupRecordSettings group) w) (ps_changed st) true, Ok tt)
      | (w, Err _) => (mkProcess w (ps_changed st) (ps_seen st), Err StoreError)
      | (w, Panic) => (mkProcess w (ps_changed st) (ps_seen st), Panic)
      end
  end.

Definition process_account (st : process_state) (account : AccountRecord) : process_state * outcome storage_error unit :=
  let w := recordPinnedChats (pinnedChatIDs account) (set_account account (ps_world st)) in
  let w := match to_fixed 32 (a_ProfileKey account) with
           | Some k => set_recipients (StoreProfileKey (w_recipients w) ownACI k) w
           | None => w
           end in
  (mkProcess (PutDevice w) (ps_changed st) true, Ok tt).

Definition process_record (st : process_state) (record : DecryptedStorageRecord) : process_state * outcome storage_error unit :=
  match sr_Record (d_StorageRecord record) with
  | StorageRecord_Contact c => process_contact st c
  | StorageRecord_GroupV2 g => process_group st g
  | StorageRecord_Account a => process_account st a
  | _ => (st, Ok tt)
  end.

Fixpoint process_records (st : process_state) (records : list DecryptedStorageRecord)
  : process_state * outcome storage_error unit :=
  match records with
  | [] => (st, Ok tt)
  | r :: records =>
      match process_record st r with
      | (st, Ok _) => process_records st records
      | (st, Err e) => (st, Err e)
      | (st, Panic) => (st, Panic)
      end
  end.

(** The events are sent by goroutines; they are recorded in order. *)
Definition processStorageInTxn (w : World) (update : StorageUpdate) : World * outcome storage_error unit :=
  match process_records (mkProcess w [] false) (su_NewRecords update) with
  | (st, Ok _) =>
      let w := ps_world st in
      let w := match ps_changed st with [] => w | changed => add_event (ContactListEvent changed) w end in
      let w := if ps_seen st && negb (su_NoChatSettingsEvent update) then add_event (chatSettingsEvent w) w else w in
      (w, Ok tt)
  | (st, Err e) => (ps_world st, Err e)
  | (st, Panic) => (ps_world st, Panic)
  end.

(** [DoContactTxn]: the tables are restored on an error, the block cache and
    the client's maps are not. *)
Definition DoContactTxn (f : World -> World * outcome storage_error unit) (w : World) : World * outcome storage_error unit :=
  match f w with
  | (w', Ok u) => (w', Ok u)
  | (w', r) => (set_deviceRow (w_deviceRow w) (set_groupKeys (w_groupKeys w) (set_recipients (mkStore (rows (w_recipients w)) (blockCache (w_recipients w'))) w')), r)
  end.

(** ** The sync
    A manifest that is already up to date gives no update, and
    [processStorageInTxn] dereferences it.  Failures are logged. *)
Context `{C : CryptoLib} `{P : StorageProto}.

Definition StorageSync (fetch_manifest : Z -> outcome storage_error (option ManifestRecord))
  (fetch_chunk : list bytes -> outcome storage_error (list StorageItem)) (order : gmap bytes Z -> list bytes)
  (masterKey : bytes) (w : World) : World * outcome storage_error unit :=
  match FetchStorage fetch_chunk fetch_manifest order masterKey 0 [] with
  | Err _ => (w, Ok tt)
  | Panic => (w, Panic)
  | Ok None => (w, Panic)
  | Ok (Some update) =>
      match DoContactTxn (fun w => processStorageInTxn w update) w with
      | (w, Panic) => (w, Panic)
      | (w, _) => (w, Ok tt)
      end
  end.

(** ** Writing settings *)
Context `{R : Random} {A : Type} `{API : StorageAPI A}.

(** Pinning a group needs its master key, which callers leave to the database. *)
Definition with_master_key (w : World) (chat : ChatRef) (change : ChatSettingsChange) : outcome storage_error ChatRef :=
  if default false (ch_Pinned change) && is_group_chat chat && negb (isSome (cr_GroupMasterKey chat)) then
    let! mk := masterKeyToBytes (default [] (w_groupKeys w !! cr_GroupID chat)) in
    Ok (mkChatRef (cr_ServiceID chat) (cr_GroupID chat) (Some (fixed_bytes mk)))
  else Ok chat.

Definition UpdateChatSettings (masterKey : bytes) (deviceID : Z) (a : A) (draw : nat) (w : World) (chat : ChatRef)
  (change : ChatSettingsChange) : A * World * outcome storage_error unit :=
  if (length masterKey =? 0)%nat then (a, w, Err ErrNoStorageMasterKey)
  else
    match with_master_key w chat change with
    | Err e => (a, w, Err e)
    | Panic => (a, w, Panic)
    | Ok chat =>
        match modifyStorage (deriveStorageServiceKey masterKey) (uint32 deviceID) (wantedRecordTypes change chat)
                (fun snap => applyChatSettingsChange snap chat change) a draw with
        | (a, Err e) => (a, w, Err e)
        | (a, Panic) => (a, w, Panic)
        | (a, Ok None) => (a, w, Ok tt)
        | (a, Ok (Some built)) =>
            match DoContactTxn (fun w => processStorageInTxn w
                    (mkUpdate (sm_Version (wo_Manifest (Op built))) (NewRecords built) true [] ∅)) w with
            | (w, Panic) => (a, w, Panic)
            | (w, _) => (a, add_event StorageManifestChangedSent w, Ok tt)
            end
        end
    end.

End Sync.

(** ** What a sync leaves in the client's view *)
Section Proofs.
Context `{U : UUIDLib} `{G : GroupLib} `{UL : !UUIDLaws U} (ownACI : UUID).

(** The chat and settings a record stands for. *)
Definition record_entry (r : StorageRecord) : option (bytes * ChatSettings) :=
  match sr_Record r with
  | StorageRecord_Contact c =>
      if bool_decide (contact_aci c = uuid_Nil) && bool_decide (contact_pni c = uuid_Nil) then None
      else Some (contactChatID (contact_aci c) (contact_pni c), contactRecordSettings c)
  | StorageRecord_GroupV2 g =>
      match groupIDFromMasterKeyBytes (g_MasterKey g) with
      | Ok gid => Some (gid, groupRecordSettings g)
      | _ => None
      end
  | _ => None
  end.

Definition record_pinned (r : StorageRecord) : option (gset bytes) :=
  match sr_Record r with StorageRecord_Account a => Some (pinnedChatIDs a) | _ => None end.

Definition settings_after (m : gmap bytes ChatSettings) (records : list DecryptedStorageRecord) : gmap bytes ChatSettings :=
  fold_left (fun m e => <[e.1 := e.2]> m) (omap (fun r => record_entry (d_StorageRecord r)) records) m.
Definition pinned_after (p : gset bytes) (records : list DecryptedStorageRecord) : gset bytes :=
  default p (last (omap (fun r => record_pinned (d_StorageRecord r)) records)).

(** A record that tells something about chat settings. *)
Definition settings_record (r : DecryptedStorageRecord) : bool :=
  isSome (record_entry (d_StorageRecord r)) || isSome (record_pinned (d_StorageRecord r)).

Lemma contactChatID_nonempty aci pni : bool_decide (aci = uuid_Nil) && bool_decide (pni = uuid_Nil) = false ->
  contactChatID aci pni <> [].
Proof.
  unfold contactChatID. intros H E.
  assert (Hs : forall s, valid_type (sid_Type s) = true -> ServiceID_String s <> []).
  { intros s Hv Es. pose proof (String_length s Hv) as Hl. rewrite Es in Hl. simpl in Hl. lia. }
  destruct (bool_decide (aci = uuid_Nil)); cbn [negb] in E; [|by apply Hs in E].
  destruct (bool_decide (pni = uuid_Nil)); cbn [negb] in E; [done|by apply Hs in E].
Qed.

Lemma process_record_settings st r st' : process_record ownACI st r = (st', Ok tt) ->
  w_chatSettings (ps_world st') = settings_after (w_chatSettings (ps_world st)) [r] /\
  w_chatPinned (ps_world st') = pinned_after (w_chatPinned (ps_world st)) [r] /\
  w_events (ps_world st') = w_events (ps_world st) /\
  ps_seen st' = ps_seen st || settings_record r.
Proof.
  unfold process_record, settings_after, pinned_after, settings_record, record_entry, record_pinned. cbn [omap list_omap].
  destruct (sr_Record (d_StorageRecord r)) as [c| |g|a| | |];
    try (intros H; injection H as <-; cbn; by rewrite orb_false_r).
  - unfold process_contact. destruct (_ && _) eqn:En; [intros H; injection H as <-; cbn; by rewrite orb_false_r|].
    pose proof (contactChatID_nonempty _ _ En) as Hne. apply beqb_neq in Hne. rewrite Hne. cbn [negb].
    destruct (LoadAndUpdateRecipient _ _ _ _) as [rs [[rc ch]| |]]; intros H; [|discriminate H..].
    injection H as <-. cbn. by rewrite orb_true_r.
  - unfold process_group, groupIDFromMasterKeyBytes, StoreMasterKey.
    destruct (to_fixed GroupMasterKeyLength (g_MasterKey g)) as [k|];
      [|intros H; injection H as <-; cbn; by rewrite orb_false_r].
    destruct (groupIdentifierFromMasterKey _) as [gid| |]; intros H; [|discriminate H..].
    injection H as <-. cbn. by rewrite orb_true_r.
  - unfold process_account. intros H. injection H as <-. cbn. destruct (to_fixed 32 _); cbn; by rewrite orb_true_r.
Qed.

Lemma settings_after_app m l1 l2 : settings_after m (l1 ++ l2) = settings_after (settings_after m l1) l2.
Proof. unfold settings_after. by rewrite omap_app, fold_left_app. Qed.

Lemma pinned_after_app p l1 l2 : pinned_after p (l1 ++ l2) = pinned_after (pinned_after p l1) l2.
Proof. unfold pinned_after. rewrite omap_app, last_app. by destruct (last (omap _ l2)). Qed.

Lemma process_records_settings records : forall st st', process_records ownACI st records = (st', Ok tt) ->
  w_chatSettings (ps_world st') = settings_after (w_chatSettings (ps_world st)) records /\
  w_chatPinned (ps_world st') = pinned_after (w_chatPinned (ps_world st)) records /\
  w_events (ps_world st') = w_events (ps_world st) /\
  ps_seen st' = ps_seen st || existsb settings_record records.
Proof.
  induction records as [|r records IH]; intros st st' H; cbn [process_records] in H.
  - injection H as <-. by rewrite orb_false_r.
  - destruct (process_record ownACI st r) as [st1 [[]| |]] eqn:E1; [|discriminate H..].
    apply process_record_settings in E1 as (H1 & H2 & H3 & H4). apply IH in H as (I1 & I2 & I3 & I4).
    change (r :: records) with ([r] ++ records). rewrite settings_after_app, pinned_after_app, <- H1, <- H2.
    split_and!; [done|done|congruence|]. rewrite I4, H4. cbn [app existsb]. by rewrite orb_assoc.
Qed.

Lemma process_view w update w' : processStorageInTxn ownACI w update = (w', Ok tt) ->
  w_chatSettings w' = settings_after (w_chatSettings w) (su_NewRecords update) /\
  w_chatPinned w' = pinned_after (w_chatPinned w) (su_NewRecords update).
Proof.
  unfold processStorageInTxn. destruct (process_records _ _ _) as [st [[]| |]] eqn:E; intros H; [|discriminate H..].
  apply process_records_settings in E as (H1 & H2 & _ & _). injection H as <-. cbn [ps_world] in H1, H2.
  rewrite <- H1, <- H2. destruct (ps_changed st), (_ && _); done.
Qed.

(** What the edits of a settings change are: the chat's record with the
    requested settings and the account record with the requested pin. *)
Definition chat_edits (chat : ChatRef) (change : ChatSettingsChange) (edits : list storageEdit) : Prop :=
  edits = [] \/ exists id r s, edits = [mkEdit id r] /\ recordMatchesChat r chat = true /\
    record_settings r = Some s /\ changed_settings change s = s.
Definition pin_edits (chat : ChatRef) (change : ChatSettingsChange) (edits : list storageEdit) : Prop :=
  edits = [] \/ exists id acc rest p, edits = [mkEdit id (mkRecord (StorageRecord_Account acc) rest)] /\
    ch_Pinned change = Some p /\ existsb (fun pin => pinMatchesChat pin chat) (a_PinnedConversations acc) = p.

Lemma edits_shape snap chat change edits : applyChatSettingsChange snap chat change = Ok edits ->
  (ch_Pinned change = Some true -> pinnable chat) ->
  exists e1 e2, edits = e1 ++ e2 /\ chat_edits chat change e1 /\ pin_edits chat change e2.
Proof.
  intros H Hpin. apply change_inv in H as (e1 & e2 & -> & H1 & H2). exists e1, e2. split; [done|]. split.
  - destruct (needsChatRecord change); [|by left]. destruct H1 as (rec & Hf & r' & b & Ha & ->).
    destruct b; [|by left]. right. apply find_elem in Hf as [_ Hm].
    destruct (applyChatFields_spec _ _ _ _ Ha) as (Hs & [s0 Hs0] & Hc & _).
    exists (d_StorageID rec), r', (changed_settings change s0). rewrite Hs, Hs0, Hc. split_and!; [done|done|done|].
    unfold changed_settings. cbn. by destruct (ch_MutedUntil change), (ch_Archived change), (ch_MarkedUnread change).
  - destruct (ch_Pinned change) as [p|] eqn:Ep; [|by left]. destruct H2 as (acc & Hf & c & r' & b & Ha & ->).
    destruct b; [|by left]. right.
    destruct (applyPinChange_spec _ _ _ _ _ _ Ha) as (_ & Hacc & _ & He & _); [by intros ->; apply Hpin|].
    unfold is_account, record_pins in *. destruct r' as [[| | |a| | |] rest]; try done.
    exists (d_StorageID acc), a, rest, p. done.
Qed.

Lemma matching_entry r chat s : recordMatchesChat r chat = true -> record_settings r = Some s ->
  (is_group_chat chat = false -> sid_Type (cr_ServiceID chat) = ServiceIDTypeACI) ->
  record_entry r = Some (chat_id chat, s).
Proof.
  unfold recordMatchesChat, record_settings, record_entry, chat_id, is_group.
  destruct (sr_Record r) as [c| |g| | | |]; try done.
  - destruct (is_group_chat chat); [done|]. cbn [orb]. destruct (IsEmpty (cr_ServiceID chat)) eqn:Ee; [done|].
    intros H [= <-] Ht. specialize (Ht eq_refl). rewrite Ht, bool_decide_true, bool_decide_eq_true in H by done.
    unfold IsEmpty in Ee. rewrite <- H in Ee. unfold contactChatID. rewrite Ee. cbn [andb negb]. do 2 f_equal.
    unfold NewACIServiceID. destruct (cr_ServiceID chat) as [ty u]. cbn in *. by subst.
  - destruct (is_group_chat chat); [|done]. cbn [negb]. destruct (groupIDFromMasterKeyBytes _) as [gid| |]; [|done..].
    intros ->%beqb_eq [= <-] _. done.
Qed.

Lemma omap_map {B D E} (f : D -> option E) (g : B -> D) (l : list B) : omap f (map g l) = omap (fun x => f (g x)) l.
Proof. induction l as [|x l IH]; [done|]. cbn. rewrite <- IH. done. Qed.

Lemma view_after_edits chat change e1 e2 records m pins :
  map d_StorageRecord records = map edit_Record (e1 ++ e2) ->
  chat_edits chat change e1 -> pin_edits chat change e2 -> proper_chat chat ->
  (is_group_chat chat = false -> sid_Type (cr_ServiceID chat) = ServiceIDTypeACI) ->
  (e1 <> [] -> exists s, settings_after m records !! chat_id chat = Some s /\ changed_settings change s = s) /\
  (e2 <> [] -> ch_Pinned change = Some (bool_decide (chat_id chat ∈ pinned_after pins records))).
Proof.
  intros Hr H1 H2 Hc Ht.
  assert (Hs : settings_after m records = fold_left (fun m e => <[e.1 := e.2]> m) (omap record_entry (map edit_Record (e1 ++ e2))) m)
    by (by rewrite <- Hr, omap_map).
  assert (Hp : pinned_after pins records = default pins (last (omap record_pinned (map edit_Record (e1 ++ e2)))))
    by (by rewrite <- Hr, omap_map).
  rewrite Hs, Hp, map_app, !omap_app. clear Hs Hp Hr. split.
  - intros Hne. destruct H1 as [->|(id & r & s & -> & Hm & Hrs & Hch)]; [done|]. exists s. split; [|done].
    cbn [map edit_Record omap list_omap]. rewrite (matching_entry _ _ _ Hm Hrs Ht).
    destruct H2 as [->|(id2 & acc & rest & p & -> & _)]; cbn; by rewrite lookup_insert_eq.
  - intros Hne. destruct H2 as [->|(id2 & acc & rest & p & -> & -> & He)]; [done|]. rewrite last_app. cbn. f_equal.
    rewrite <- He. apply eq_bool_prop_intro. rewrite !Is_true_true, bool_decide_eq_true. symmetry. by apply pinned_iff.
Qed.

(** processing a storage update leaves the settings of the last record
    of each chat and the pins of the last account record in the client, keeps
    all other chats, and announces the new settings exactly once, unless the
    update is the bridge's own write or says nothing about settings. *)
Theorem sync_settings_correct w update w' (H : processStorageInTxn ownACI w update = (w', Ok tt)) :
  w_chatSettings w' = settings_after (w_chatSettings w) (su_NewRecords update) /\
  w_chatPinned w' = pinned_after (w_chatPinned w) (su_NewRecords update) /\
  exists contacts, w_events w' = w_events w ++ contacts ++
    (if existsb settings_record (su_NewRecords update) && negb (su_NoChatSettingsEvent update)
     then [chatSettingsEvent w'] else []) /\
    Forall (fun e => exists l, e = ContactListEvent l) contacts.
Proof.
  unfold processStorageInTxn in H. destruct (process_records _ _ _) as [st [[]| |]] eqn:E; [|discriminate H..].
  apply process_records_settings in E as (H1 & H2 & H3 & H4). cbn [ps_world ps_seen orb] in *.
  rewrite H4 in H. set (seen := existsb _ _ && _) in *. injection H as <-.
  set (w1 := match ps_changed st with [] => ps_world st | _ => _ end).
  assert (Hw1 : w_chatSettings w1 = w_chatSettings (ps_world st) /\ w_chatPinned w1 = w_chatPinned (ps_world st) /\
    exists contacts, w_events w1 = w_events w ++ contacts /\ Forall (fun e => exists l, e = ContactListEvent l) contacts).
  { unfold w1. destruct (ps_changed st) as [|c l]; cbn; split_and!; try done.
    - exists []. rewrite app_nil_r. split; [done|constructor].
    - exists [ContactListEvent (c :: l)]. rewrite H3. split; [done|]. constructor; [eauto|constructor]. }
  destruct Hw1 as (Hs & Hp & contacts & He & Hc). destruct seen.
  - cbn [add_event w_chatSettings w_chatPinned w_events]. rewrite Hs, Hp, H1, H2. split_and!; [done|done|].
    exists contacts. split; [|done]. rewrite He, <- app_assoc. done.
  - rewrite Hs, Hp, H1, H2. split_and!; [done|done|]. exists contacts. by rewrite app_nil_r.
Qed.

Context `{C : CryptoLib} `{P : StorageProto} `{R : Random} {A : Type} `{API : StorageAPI A}.

Lemma with_key_same w chat change chat' : with_master_key w chat change = Ok chat' ->
  cr_ServiceID chat' = cr_ServiceID chat /\ cr_GroupID chat' = cr_GroupID chat.
Proof.
  unfold with_master_key. destruct (_ && _); [|by intros [= <-]]. intros (mk & _ & [= <-])%obind_Ok_inv. done.
Qed.

(** C5: a settings change that was written is what the client then reports:
    for a chat with an ACI, or for a group whose master key, if the group is to
    be pinned, is given or in the database and is the one of the group: when
    the storage write succeeds and its records are processed,
    [UpdateChatSettings] succeeds, and if the write touched the chat's record,
    [Client.ChatSettings] of the chat has the requested mute, archive and
    unread values; if it touched the account record, the chat is reported as
    pinned exactly if that was requested. *)
Theorem settings_written_seen masterKey deviceID (a a' : A) draw w w1 chat chat' change built
  (Hmk : masterKey <> []) (Hkey : with_master_key w chat change = Ok chat')
  (Hm : modifyStorage (deriveStorageServiceKey masterKey) (uint32 deviceID) (wantedRecordTypes change chat')
    (fun snap => applyChatSettingsChange snap chat' change) a draw = (a', Ok (Some built)))
  (Hd : processStorageInTxn ownACI w (mkUpdate (sm_Version (wo_Manifest (Op built))) (NewRecords built) true [] ∅) = (w1, Ok tt))
  (Hc : proper_chat chat) (Ht : is_group_chat chat = false -> sid_Type (cr_ServiceID chat) = ServiceIDTypeACI)
  (Hpin : ch_Pinned change = Some true -> pinnable chat') :
  exists w', UpdateChatSettings ownACI masterKey deviceID a draw w chat change = (a', w', Ok tt) /\
    let view := (ChatSettings_of w' (chat_id chat)).1 in
    exists e1 e2, map d_StorageRecord (NewRecords built) = map edit_Record (e1 ++ e2) /\
      chat_edits chat' change e1 /\ pin_edits chat' change e2 /\ e1 ++ e2 <> [] /\
      (e1 <> [] -> changed_settings change view = view) /\
      (e2 <> [] -> ch_Pinned change = Some (Pinned view)).
Proof.
  exists (add_event StorageManifestChangedSent w1). split.
  { unfold UpdateChatSettings. destruct masterKey as [|b mk]; [done|]. cbn [length Nat.eqb]. rewrite Hkey, Hm.
    unfold DoContactTxn. by rewrite Hd. }
  destruct (with_key_same _ _ _ _ Hkey) as [Hs Hg].
  assert (Hgc : is_group_chat chat = is_group_chat chat') by (unfold is_group_chat; by rewrite Hg).
  assert (Hid : chat_id chat = chat_id chat') by (unfold chat_id; by rewrite Hgc, Hg, Hs).
  intros view. destruct (modify_written _ _ _ _ _ _ _ _ Hm) as (snap & edits & He & Hne & Hr).
  destruct (edits_shape _ _ _ _ He Hpin) as (e1 & e2 & -> & H1 & H2). exists e1, e2.
  unfold proper_chat in Hc. rewrite Hgc, ?Hg, <- ?Hs in Hc. rewrite Hgc, <- Hs in Ht.
  destruct (process_view _ _ _ Hd) as [V1 V2]. cbn [su_NewRecords] in V1, V2.
  destruct (view_after_edits chat' change e1 e2 (NewRecords built) (w_chatSettings w) (w_chatPinned w) Hr H1 H2) as [Hv1 Hv2];
    [unfold proper_chat; by rewrite ?Hg|done|].
  split_and!; try done; unfold view; rewrite Hid.
  - intros Hn. destruct (Hv1 Hn) as (s & Hs1 & Hch). unfold ChatSettings_of. cbn [fst add_event w_chatSettings w_chatPinned].
    rewrite V1, Hs1. cbn [default from_option id]. unfold with_pinned, changed_settings in *. destruct s. cbn in *.
    injection Hch as H3 H4 H5. by rewrite H3, H4, H5.
  - intros Hn. rewrite (Hv2 Hn). unfold ChatSettings_of. cbn [fst add_event w_chatPinned with_pinned Pinned]. by rewrite V2.
Qed.

(** Pinning a group whose master key is not in the database panics: the
    missing key is read as an empty string, which is converted to a 32-byte
    array without a check. *)
Theorem pin_unknown_group_panics masterKey deviceID (a : A) draw w chat change
  (Hmk : masterKey <> []) (Hp : ch_Pinned change = Some true) (Hg : cr_GroupID chat <> [])
  (Hk : cr_GroupMasterKey chat = None) (Hdb : w_groupKeys w !! cr_GroupID chat = None) :
  UpdateChatSettings ownACI masterKey deviceID a draw w chat change = (a, w, Panic).
Proof.
  unfold UpdateChatSettings, with_master_key. destruct masterKey; [done|]. cbn [length Nat.eqb]. rewrite Hp, Hk, Hdb.
  unfold is_group_chat. apply beqb_neq in Hg. rewrite Hg. reflexivity.
Qed.

End Proofs.

(** ** Witnesses *)
Section Witnesses.
Import CanonicalUUID SampleCrypto SampleStorage.

#[local] Instance sample_groups : GroupLib := { derive_group_identifier k := Some k }.

Definition empty_world : World := mkWorld (mkStore [] ∅) ∅ None None ∅ ∅ [].

Lemma sync_settings_correct_witness :
  exists w', processStorageInTxn uuid_Nil empty_world (mkUpdate 1 [mkDecrypted 3 [] sample_record] false [] ∅) = (w', Ok tt) /\
    w_chatSettings w' = settings_after ∅ [mkDecrypted 3 [] sample_record].
Proof.
  destruct (processStorageInTxn uuid_Nil empty_world (mkUpdate 1 [mkDecrypted 3 [] sample_record] false [] ∅))
    as [w' [[]| |]] eqn:E; [|discriminate E|discriminate E].
  exists w'. split; [reflexivity|].
  exact (proj1 (sync_settings_correct uuid_Nil empty_world (mkUpdate 1 [mkDecrypted 3 [] sample_record] false [] ∅) w' E)).
Defined.

(** A server that has the records of the group and of the account and accepts
    every write; the key of the group is in the database. *)
Definition account_record (pins : list PinnedConversation) : StorageRecord := mkRecord (StorageRecord_Account (mkAccount [] pins [])) [].
Definition group_pin : PinnedConversation := mkPin (Pin_GroupMasterKey (repeat x03 32)) [].
#[local] Instance pin_proto : StorageProto := {
  marshal_record r := match sr_Record r with StorageRecord_Account _ => Some [x05] | _ => marshal_record (StorageProto := sample_proto) r end;
  unmarshal_record b := if bool_decide (b = [x05]) then Some (account_record [group_pin]) else unmarshal_record (StorageProto := sample_proto) b;
  marshal_manifest := marshal_manifest (StorageProto := sample_proto);
  unmarshal_manifest := unmarshal_manifest (StorageProto := sample_proto)
}.
#[local] Instance accepting_api : StorageAPI ManifestRecord := {
  fetchManifest m := (m, Ok (Some m));
  fetchRecords m _ _ := (m, Ok [mkDecrypted 3 (Base64.encode (str "group-one--0003")) sample_record;
                                mkDecrypted 4 (Base64.encode (str "account-one-004")) (account_record [])]);
  writeStorage m _ := (m, Ok false)
}.
Definition pin_manifest : ManifestRecord :=
  mkManifest 41 1 [mkIdentifier (str "group-one--0003") 3 []; mkIdentifier (str "account-one-004") 4 []] (Some [x09]) [].
Definition group_key : fixed 32 := mk_fixed (n := 32) (repeat x03 32) eq_refl.
Definition group_chat : ChatRef := mkChatRef EmptyServiceID (Base64.encode (repeat x03 32)) None.
Definition keyed_chat : ChatRef := mkChatRef EmptyServiceID (Base64.encode (repeat x03 32)) (Some (repeat x03 32)).
Definition group_world : World := mkWorld (mkStore [] ∅) {[cr_GroupID group_chat := masterKeyFromBytes group_key]} None None ∅ ∅ [].
Definition unarchive_pin : ChatSettingsChange := mkChange None (Some false) (Some true) (Some true).

Lemma settings_written_seen_witness :
  exists a' w', UpdateChatSettings (R := sample_random) uuid_Nil [x01] 2 pin_manifest 0 group_world group_chat unarchive_pin = (a', w', Ok tt).
Proof.
  destruct (modifyStorage (R := sample_random) (deriveStorageServiceKey [x01]) (uint32 2) (wantedRecordTypes unarchive_pin keyed_chat)
    (fun snap => applyChatSettingsChange snap keyed_chat unarchive_pin) pin_manifest 0) as [a' [[built|]| |]] eqn:Em;
    [|vm_compute in Em; discriminate Em..].
  set (update := mkUpdate (sm_Version (wo_Manifest (Op built))) (NewRecords built) true [] ∅).
  assert (Hp : (processStorageInTxn uuid_Nil group_world update).2 = Ok tt)
    by (unfold update; vm_compute in Em; injection Em as _ <-; vm_compute; reflexivity).
  destruct (processStorageInTxn uuid_Nil group_world update) as [w1 [[]| |]] eqn:Ed; [|discriminate Hp..].
  destruct (settings_written_seen uuid_Nil [x01] 2 pin_manifest a' 0 group_world w1 group_chat keyed_chat unarchive_pin built) as (w' & H & _);
    [discriminate|vm_compute; reflexivity|exact Em|exact Ed|reflexivity|discriminate|intros _; vm_compute; reflexivity|].
  exists a', w'. exact H.
Defined.

Lemma pin_unknown_group_panics_witness :
  UpdateChatSettings uuid_Nil [x01] 2 sample_manifest 0 empty_world
    (mkChatRef EmptyServiceID (str "group") None) (mkChange None None None (Some true)) = (sample_manifest, empty_world, Panic).
Proof.
  apply (pin_unknown_group_panics uuid_Nil [x01] 2 sample_manifest 0 empty_world
    (mkChatRef EmptyServiceID (str "group") None) (mkChange None None None (Some true)));
    [discriminate|reflexivity|discriminate|reflexivity|reflexivity].
Defined.

End Witnesses.
