(* ===== verification/ChatBridge.v ===== *)
(** Chat settings between Signal and Matrix: [pkg/connector/chatsettings.go]
    and [pkg/connector/handlechatsettings.go].

    Signal's mute, pin and archive states are shown on Matrix as a mute time
    and one room tag; the unread flag is an event of its own.  The settings
    that were last bridged are kept in the portal's metadata, so that only
    differences are sent.  In the other direction, Matrix mutes, tags and
    unread flags become a [ChatSettingsChange]. *)
From Stdlib Require Import ZifyNat.
From S2P Require Import Prelude GoLib ServiceId SignalId Crypto Storage ChatSettings RecipientStore StorageSync.

(** The two special times of the Matrix library: [event.MutedForever] and
    [bridgev2.Unmuted].  Times are nanoseconds since the epoch. *)
Class MuteTimes : Type := { time_MutedForever : Z;  time_Unmuted : Z }.

(** [Time.UnixMilli] *)
Definition time_UnixMilli (t : Z) : Z := t / 1000000.

Record chatSettingsTags := mkTags { tags_Pinned : bytes;  tags_Archive : bytes }.

(** [bridgev2.UserLocalPortalInfo]: [None] leaves a value alone, the empty tag
    removes the tag. *)
Record UserLocalPortalInfo := mkLocal { ul_MutedUntil : option Z;  ul_Tag : option bytes }.

Record chatSettingsPlan := mkPlan { UserLocal : option UserLocalPortalInfo;  MarkUnread : option bool }.

(** A portal: the metadata is of another type in [OtherMetadata]. *)
Record PortalMetadata := mkPortalMetadata {
  Revision : Z;  ExpirationTimerVersion : Z;  LastSync : Z;  Settings : option ChatSettings
}.
Inductive portal_meta := SignalMetadata (m : PortalMetadata) | OtherMetadata.
Record Portal := mkPortal { portal_ID : bytes;  portal_MXID : bytes;  portal_Metadata : portal_meta }.

Definition set_Settings (s : ChatSettings) (m : PortalMetadata) : PortalMetadata :=
  mkPortalMetadata (Revision m) (ExpirationTimerVersion m) (LastSync m) (Some s).

(** An [ExtraUpdater]: the new metadata and whether to save the portal. *)
Definition ExtraUpdater : Type := portal_meta -> outcome False (portal_meta * bool).

Record ChatInfo := mkChatInfo { ci_UserLocal : option UserLocalPortalInfo;  ci_ExtraUpdates : list ExtraUpdater }.

Inductive remote_event :=
| ChatInfoChange (key : PortalKey) (info : ChatInfo)
| MarkUnreadEvent (key : PortalKey) (unread : bool).

Section Plan.
Context `{M : MuteTimes}.

Definition tagFor (t : chatSettingsTags) (cs : ChatSettings) : bytes :=
  if Pinned cs && negb (beqb (tags_Pinned t) []) then tags_Pinned t
  else if Archived cs && negb (beqb (tags_Archive t) []) then tags_Archive t
  else [].

Definition effectiveMute (cs : ChatSettings) (now : Z) : Z :=
  if MutedForever cs then 2 ^ 64 - 1
  else if negb (MuteExpiry cs now).2 then 0
  else MutedUntil cs.

Definition muteTime (cs : ChatSettings) (now : Z) : Z :=
  if MutedForever cs then time_MutedForever
  else match MuteExpiry cs now with
       | (Some until, true) => until
       | _ => time_Unmuted
       end.

Definition plan_isEmpty (p : chatSettingsPlan) : bool :=
  match UserLocal p, MarkUnread p with None, None => true | _, _ => false end.

(** [plan.UserLocal = local] unless both fields are nil. *)
Definition some_local (mute : option Z) (tag : option bytes) : option UserLocalPortalInfo :=
  match mute, tag with None, None => None | _, _ => Some (mkLocal mute tag) end.

Definition planChatSettings (prev : option ChatSettings) (cur : ChatSettings) (tags : chatSettingsTags) (now : Z)
  : chatSettingsPlan :=
  let old := default zero_settings prev in
  let mute := if negb (effectiveMute old now =? effectiveMute cur now) then Some (muteTime cur now) else None in
  let tag := if negb (beqb (tagFor tags old) (tagFor tags cur)) then Some (tagFor tags cur) else None in
  mkPlan (some_local mute tag)
    (if negb (Bool.eqb (MarkedUnread old) (MarkedUnread cur)) then Some (MarkedUnread cur) else None).

Definition initialUserLocal (cur : ChatSettings) (tags : chatSettingsTags) (now : Z) : option UserLocalPortalInfo :=
  let mute := if negb (effectiveMute cur now =? 0) then Some (muteTime cur now) else None in
  let tag := if negb (beqb (tagFor tags cur) []) then Some (tagFor tags cur) else None in
  some_local mute tag.

(** The cast of the metadata panics for another type. *)
Definition settingsMetaUpdater (settings : ChatSettings) : ExtraUpdater := fun meta =>
  match meta with
  | OtherMetadata => Panic
  | SignalMetadata m =>
      if bool_decide (Settings m = Some settings) then Ok (meta, false)
      else Ok (SignalMetadata (set_Settings settings m), true)
  end.

(** The updater of [addChatSettings], which keeps the unread flag. *)
Definition keepUnreadUpdater (settings : ChatSettings) : ExtraUpdater := fun meta =>
  match meta with
  | OtherMetadata => Panic
  | SignalMetadata m =>
      let unread := match Settings m with Some s => MarkedUnread s | None => false end in
      settingsMetaUpdater (mkSettings (MutedUntil settings) (Archived settings) unread (Pinned settings)) meta
  end.

Definition addChatSettings (w : World) (tags : chatSettingsTags) (now : Z) (info : ChatInfo) (chatID : bytes) : ChatInfo :=
  let '(settings, ok) := ChatSettings_of w chatID in
  if negb ok then info
  else
    mkChatInfo (match ci_UserLocal info with Some l => Some l | None => initialUserLocal settings tags now end)
      (ci_ExtraUpdates info ++ [keepUnreadUpdater settings]).

(** ** From Signal to Matrix
    [get_portal] is the bridge's lookup ([None] is an error); [queue] says
    whether the bridge accepted an event.  The result is the queued events. *)
Definition bridgeChatSettings (ids : ClientIDs) (tags : chatSettingsTags) (now : Z)
  (get_portal : PortalKey -> option (option Portal)) (queue : remote_event -> bool) (entry : bytes * ChatSettings)
  : list remote_event :=
  let key := makePortalKey ids entry.1 in
  match get_portal key with
  | Some (Some portal) =>
      if beqb (portal_MXID portal) [] then []
      else match portal_Metadata portal with
      | OtherMetadata => []
      | SignalMetadata meta =>
          let plan := planChatSettings (Settings meta) entry.2 tags now in
          if plan_isEmpty plan then []
          else
            let change := ChatInfoChange key (mkChatInfo (UserLocal plan) [settingsMetaUpdater entry.2]) in
            if negb (queue change) then [change]
            else match MarkUnread plan with
                 | Some unread => [change; MarkUnreadEvent key unread]
                 | None => [change]
                 end
      end
  | _ => []
  end.

Definition handleSignalChatSettings (ids : ClientIDs) (tags : chatSettingsTags) (now : Z)
  (get_portal : PortalKey -> option (option Portal)) (queue : remote_event -> bool) (chats : list (bytes * ChatSettings))
  : list remote_event :=
  concat (map (bridgeChatSettings ids tags now get_portal queue) chats).

(** ** From Matrix to Signal *)

Definition muteToStorage (mutedUntil now : Z) : Z :=
  if mutedUntil =? time_MutedForever then MuteForeverProto
  else if now <? mutedUntil then uint64 (time_UnixMilli mutedUntil)
  else 0.

(** The tags of a room; [None] is a nil content. *)
Definition has_tag (content : option (gset bytes)) (tag : bytes) : bool :=
  match content with Some tags => bool_decide (tag ∈ tags) | None => false end.

Definition tagsToSettingsChange (tags : chatSettingsTags) (prev cur : option (gset bytes)) : option ChatSettingsChange :=
  let P := tags_Pinned tags in
  let A := tags_Archive tags in
  let pinned :=
    if negb (beqb P []) && negb (Bool.eqb (has_tag prev P) (has_tag cur P)) then Some (has_tag cur P) else None in
  let archived :=
    if negb (beqb A []) && negb (beqb A P) && negb (Bool.eqb (has_tag prev A) (has_tag cur A))
    then Some (has_tag cur A) else None in
  let '(pinned, archived) :=
    if default false pinned && negb (beqb A []) then (pinned, Some false)
    else if default false archived && negb (beqb P []) then (Some false, archived)
    else (pinned, archived) in
  match pinned, archived with
  | None, None => None
  | _, _ => Some (mkChange None archived None pinned)
  end.

End Plan.

Inductive update_error :=
| BadPortalID (e : id_error)
| TooManyPinned (e : storage_error)
| UpdateFailed (e : storage_error).

Section Update.
Context `{U : UUIDLib} `{G : GroupLib} `{M : MuteTimes} (ownACI : UUID).
Context `{C : CryptoLib} `{P : StorageProto} `{R : Random} {A : Type} `{API : StorageAPI A}.
(** The storage master key and device of the client. *)
Context (masterKey : bytes) (deviceID : Z).

Definition chatRefForPortal (portal : Portal) : outcome update_error (ChatRef * bytes) :=
  let! id := wrap_err BadPortalID (ParsePortalID (portal_ID portal)) in
  let '(userID, groupID) := id in
  if negb (beqb groupID []) then Ok (mkChatRef EmptyServiceID groupID None, groupID)
  else Ok (mkChatRef userID [] None, ServiceID_String userID).

(** The metadata after a successful write: a portal whose settings differ is
    also saved, and a failure to save is logged. *)
Definition remember_settings (w : World) (chatID : bytes) (portal : Portal) : Portal :=
  let '(settings, ok) := ChatSettings_of w chatID in
  match portal_Metadata portal with
  | SignalMetadata m =>
      if ok && negb (bool_decide (Settings m = Some settings))
      then mkPortal (portal_ID portal) (portal_MXID portal) (SignalMetadata (set_Settings settings m))
      else portal
  | OtherMetadata => portal
  end.

Definition updateChatSettings (a : A) (draw : nat) (w : World) (portal : Portal) (change : ChatSettingsChange)
  : A * World * Portal * outcome update_error unit :=
  match chatRefForPortal portal with
  | Err e => (a, w, portal, Err e)
  | Panic => (a, w, portal, Panic)
  | Ok (chat, chatID) =>
      match UpdateChatSettings ownACI masterKey deviceID a draw w chat change with
      | (a, w, Err ErrTooManyPinnedChats) => (a, w, portal, Err (TooManyPinned ErrTooManyPinnedChats))
      | (a, w, Err e) => (a, w, portal, Err (UpdateFailed e))
      | (a, w, Panic) => (a, w, portal, Panic)
      | (a, w, Ok _) => (a, w, remember_settings w chatID portal, Ok tt)
      end
  end.

Definition HandleMute (a : A) (draw : nat) (w : World) (portal : Portal) (mutedUntilTime now : Z) :=
  updateChatSettings a draw w portal (mkChange (Some (muteToStorage mutedUntilTime now)) None None None).

Definition HandleMarkedUnread (a : A) (draw : nat) (w : World) (portal : Portal) (unread : bool) :=
  updateChatSettings a draw w portal (mkChange None None (Some unread) None).

Definition HandleRoomTag (tags : chatSettingsTags) (a : A) (draw : nat) (w : World) (portal : Portal)
  (prev cur : option (gset bytes)) : A * World * Portal * outcome update_error unit :=
  match tagsToSettingsChange tags prev cur with
  | None => (a, w, portal, Ok tt)
  | Some change => updateChatSettings a draw w portal change
  end.

End Update.

(** ** What a room shows
    The mute, tag and unread flag of a chat's settings at a moment, and a
    plan read as an edit of what is shown: absent parts stay. *)
Record shown := mkShown { shown_mute : Z;  shown_tag : bytes;  shown_unread : bool }.

Section PlanProofs.
Context `{M : MuteTimes}.

Definition shown_of (tags : chatSettingsTags) (now : Z) (cs : ChatSettings) : shown :=
  mkShown (muteTime cs now) (tagFor tags cs) (MarkedUnread cs).

Definition apply_local (l : option UserLocalPortalInfo) (v : shown) : shown :=
  match l with
  | Some l => mkShown (default (shown_mute v) (ul_MutedUntil l)) (default (shown_tag v) (ul_Tag l)) (shown_unread v)
  | None => v
  end.
Definition apply_plan (p : chatSettingsPlan) (v : shown) : shown :=
  let v := apply_local (UserLocal p) v in
  mkShown (shown_mute v) (shown_tag v) (default (shown_unread v) (MarkUnread p)).

(** The normalised mute determines the mute time. *)
Lemma effectiveMute_muteTime c1 c2 now : effectiveMute c1 now = effectiveMute c2 now -> muteTime c1 now = muteTime c2 now.
Proof.
  unfold effectiveMute, muteTime, MuteExpiry, MutedForever, maxSafeDateMillis.
  destruct (Z.leb_spec 8640000000000000 (MutedUntil c1)), (Z.leb_spec 8640000000000000 (MutedUntil c2)); try done;
    destruct (Z.eqb_spec (MutedUntil c1) 0), (Z.eqb_spec (MutedUntil c2) 0); cbn [orb negb fst snd];
    repeat case_match; simplify_eq/=; try done; try lia; rewrite ?negb_false_iff, ?negb_true_iff in *; try congruence; lia.
Qed.

Lemma apply_some_local mute tag v :
  apply_local (some_local mute tag) v = mkShown (default (shown_mute v) mute) (default (shown_tag v) tag) (shown_unread v).
Proof. destruct mute, tag, v; done. Qed.

Lemma plan_shown prev cur tags now :
  apply_plan (planChatSettings prev cur tags now) (shown_of tags now (default zero_settings prev)) = shown_of tags now cur.
Proof.
  unfold apply_plan, planChatSettings. cbn [UserLocal MarkUnread]. rewrite apply_some_local.
  set (old := default zero_settings prev). unfold shown_of. cbn [shown_mute shown_tag shown_unread]. f_equal.
  - destruct (Z.eqb_spec (effectiveMute old now) (effectiveMute cur now)) as [E|]; [|done]. by apply effectiveMute_muteTime.
  - destruct (beqb (tagFor tags old) (tagFor tags cur)) eqn:E; [|done]. by apply beqb_eq in E.
  - destruct (Bool.eqb_spec (MarkedUnread old) (MarkedUnread cur)) as [E|]; [done|done].
Qed.

Lemma plan_same cs tags now : plan_isEmpty (planChatSettings (Some cs) cs tags now) = true.
Proof.
  unfold planChatSettings. cbn [default from_option id]. rewrite Z.eqb_refl, beqb_refl, eqb_reflx. done.
Qed.

(** A plan brings what the room shows from the last bridged settings to
    the current ones, and contains only differences: it is empty exactly if
    the normalised mute, the tag and the unread flag are all the same, which
    holds whenever the settings have not changed. *)
Theorem plan_correct prev cur tags now :
  let plan := planChatSettings prev cur tags now in
  let old := default zero_settings prev in
  apply_plan plan (shown_of tags now old) = shown_of tags now cur /\
  (plan_isEmpty plan = true <-> effectiveMute old now = effectiveMute cur now /\
     tagFor tags old = tagFor tags cur /\ MarkedUnread old = MarkedUnread cur) /\
  plan_isEmpty (planChatSettings (Some cur) cur tags now) = true.
Proof.
  intros plan old. split_and!; [apply plan_shown| |apply plan_same].
  unfold plan, planChatSettings, plan_isEmpty. cbn [UserLocal MarkUnread]. fold old.
  destruct (Z.eqb_spec (effectiveMute old now) (effectiveMute cur now)) as [E1|E1];
    destruct (beqb (tagFor tags old) (tagFor tags cur)) eqn:E2; rewrite ?beqb_eq, ?beqb_neq in E2;
    destruct (Bool.eqb_spec (MarkedUnread old) (MarkedUnread cur)) as [E3|E3]; cbn; naive_solver.
Qed.

(** ** Mutes both ways *)

Definition with_mute (m : Z) : ChatSettings := mkSettings m false false false.

Lemma active_mute cs now : 0 < MutedUntil cs < maxSafeDateMillis -> now < UnixMilli (MutedUntil cs) ->
  MuteExpiry cs now = (Some (UnixMilli (MutedUntil cs)), true) /\
  effectiveMute cs now = MutedUntil cs /\ muteTime cs now = UnixMilli (MutedUntil cs).
Proof.
  intros Hm Hn. unfold effectiveMute, muteTime, MuteExpiry, MutedForever. unfold maxSafeDateMillis in *.
  rewrite (proj2 (Z.leb_gt _ _)) by lia. rewrite (proj2 (Z.eqb_neq (MutedUntil cs) 0)) by lia. cbn [orb].
  rewrite swrap_small by lia. by rewrite (proj2 (Z.ltb_lt _ _) Hn).
Qed.

Lemma mute_cases cs now : 0 <= MutedUntil cs ->
  (effectiveMute cs now = 2 ^ 64 - 1 /\ muteTime cs now = time_MutedForever) \/
  (0 < MutedUntil cs < maxSafeDateMillis /\ now < UnixMilli (MutedUntil cs)) \/
  (effectiveMute cs now = 0 /\ muteTime cs now = time_Unmuted).
Proof.
  intros Hm. unfold effectiveMute, muteTime, MuteExpiry, MutedForever.
  destruct (Z.leb_spec maxSafeDateMillis (MutedUntil cs)) as [Hf|Hf]; [by left|]. rewrite orb_false_r. right.
  destruct (Z.eqb_spec (MutedUntil cs) 0) as [Hz|Hz]; [by right|]. cbn [snd].
  rewrite swrap_small by (unfold maxSafeDateMillis in *; lia).
  destruct (Z.ltb_spec now (UnixMilli (MutedUntil cs))); [left; lia|by right].
Qed.

(** Mutes survive both directions: bridging a Signal mute to a Matrix
    time and back gives the same effective mute, and a Matrix mute of whole
    milliseconds that ends in the future (before Signal's largest date) or
    never comes back as the same time; one that has ended comes back as
    unmuted. *)
Theorem mute_roundtrip cs now t
  (Hcs : 0 <= MutedUntil cs < 2 ^ 64) (Hnow : 0 <= now)
  (Hun : time_Unmuted <= now) (Hne : time_Unmuted <> time_MutedForever)
  (Hms : (MuteExpiry cs now).1 <> Some time_MutedForever)
  (Ht : now < t -> t <> time_MutedForever -> t mod 1000000 = 0 /\ time_UnixMilli t < maxSafeDateMillis) :
  effectiveMute (with_mute (muteToStorage (muteTime cs now) now)) now = effectiveMute cs now /\
  muteTime (with_mute (muteToStorage t now)) now =
    (if decide (t = time_MutedForever) then time_MutedForever else if decide (now < t) then t else time_Unmuted).
Proof.
  split.
  - destruct (mute_cases cs now) as [[He Hm]|[[Hu Hl]|[He Hm]]]; [lia| | |].
    + rewrite Hm, He. unfold muteToStorage. by rewrite Z.eqb_refl.
    + destruct (active_mute cs now Hu Hl) as (Hx & He & Hm). rewrite Hm, He. unfold muteToStorage. rewrite Hx in Hms.
      rewrite (proj2 (Z.eqb_neq (UnixMilli (MutedUntil cs)) time_MutedForever)) by (cbn in Hms; congruence).
      rewrite (proj2 (Z.ltb_lt _ _) Hl). unfold time_UnixMilli, UnixMilli. rewrite Z.div_mul by done.
      rewrite wrap_small by (unfold in_width; lia). by apply (active_mute (with_mute (MutedUntil cs)) now).
    + rewrite Hm, He. unfold muteToStorage. by rewrite (proj2 (Z.eqb_neq _ _) Hne), (proj2 (Z.ltb_ge _ _) Hun).
  - unfold muteToStorage. destruct (Z.eqb_spec t time_MutedForever) as [->|Hf]; [by rewrite decide_True|].
    rewrite decide_False by done. destruct (Z.ltb_spec now t) as [Hl|Hl]; [|by rewrite decide_False by lia].
    rewrite decide_True by done. destruct (Ht Hl Hf) as [Hmod Hmax]. unfold time_UnixMilli in *.
    pose proof (Z.div_mod t 1000000 ltac:(done)) as Hd.
    rewrite wrap_small by (unfold in_width; unfold maxSafeDateMillis in *; lia).
    destruct (active_mute (with_mute (t / 1000000)) now) as (_ & _ & ->);
      unfold UnixMilli; cbn [with_mute MutedUntil]; lia.
Qed.

(** ** Tags *)

(** All four fields of a change. *)
Definition apply_change (change : ChatSettingsChange) (s : ChatSettings) : ChatSettings :=
  with_pinned (default (Pinned s) (ch_Pinned change)) (changed_settings change s).

(** with distinct tags for pinned and archived chats, a change of room
    tags asks for something exactly if one of the two was added or removed,
    never touches the mute or the unread flag, and the settings it leads to
    are shown with the tag that was added, pinning before archiving; a
    removed tag clears its flag. *)
Theorem tags_change_correct tags prev cur
  (HP : tags_Pinned tags <> []) (HA : tags_Archive tags <> []) (Hne : tags_Archive tags <> tags_Pinned tags) :
  let had := has_tag prev in
  let has := has_tag cur in
  let P := tags_Pinned tags in
  let A := tags_Archive tags in
  (tagsToSettingsChange tags prev cur = None <-> had P = has P /\ had A = has A) /\
  forall change, tagsToSettingsChange tags prev cur = Some change ->
    ch_MutedUntil change = None /\ ch_MarkedUnread change = None /\
    forall s, let s' := apply_change change s in
      (had P = false -> has P = true -> tagFor tags s' = P) /\
      (had A = false -> has A = true -> (had P = false -> has P = false) -> tagFor tags s' = A) /\
      (had P = true -> has P = false -> Pinned s' = false) /\
      (had A = true -> has A = false -> Archived s' = false).
Proof.
  cbv zeta. unfold tagsToSettingsChange, tagFor. apply beqb_neq in HP, HA, Hne. rewrite HP, HA, Hne. cbn [negb andb].
  set (hp := has_tag prev (tags_Pinned tags)). set (hc := has_tag cur (tags_Pinned tags)).
  set (ap := has_tag prev (tags_Archive tags)). set (ac := has_tag cur (tags_Archive tags)).
  clearbody hp hc ap ac. split.
  - destruct hp, hc, ap, ac; cbn; naive_solver.
  - intros change H. destruct hp, hc, ap, ac; cbn in H; simplify_eq; cbn; split_and!; try done; intros s; split_and!; try done;
      intros; exfalso; naive_solver.
Qed.

(** ** Rooms that are created later *)

(** The metadata after the updaters have run one after the other. *)
Definition run_updates (us : list ExtraUpdater) (meta : portal_meta) : outcome False portal_meta :=
  ofoldl (fun meta (u : ExtraUpdater) => let! r := u meta in Ok r.1) meta us.

(** the settings of a chat that gets its room later are not lost: the
    chat info made by [addChatSettings] shows the mute and the tag, leaving
    defaults alone, and after it has been applied, the next sync (at any
    time, with unchanged settings) sends nothing but the unread flag, and
    that only if it is not what was last sent. *)
Theorem created_room_settings w tags now chatID cs m
  (Hcs : ChatSettings_of w chatID = (cs, true)) :
  let info := addChatSettings w tags now (mkChatInfo None []) chatID in
  let sent := match Settings m with Some s => MarkedUnread s | None => false end in
  apply_local (ci_UserLocal info) (shown_of tags now zero_settings) =
    mkShown (muteTime cs now) (tagFor tags cs) false /\
  exists m', run_updates (ci_ExtraUpdates info) (SignalMetadata m) = Ok (SignalMetadata m') /\
    forall later, planChatSettings (Settings m') cs tags later =
      mkPlan None (if Bool.eqb sent (MarkedUnread cs) then None else Some (MarkedUnread cs)).
Proof.
  unfold addChatSettings. rewrite Hcs. cbn [negb ci_UserLocal ci_ExtraUpdates app]. cbv zeta. split.
  - unfold initialUserLocal. rewrite apply_some_local. unfold shown_of. cbn [shown_mute shown_tag shown_unread]. f_equal.
    + destruct (Z.eqb_spec (effectiveMute cs now) 0) as [E|]; [|done]. by apply effectiveMute_muteTime.
    + destruct (beqb (tagFor tags cs) []) eqn:E; [|done]. by apply beqb_eq in E.
  - set (sent := match Settings m with Some s => MarkedUnread s | None => false end).
    set (stored := mkSettings (MutedUntil cs) (Archived cs) sent (Pinned cs)).
    assert (Hrun : exists m', run_updates [keepUnreadUpdater cs] (SignalMetadata m) = Ok (SignalMetadata m') /\ Settings m' = Some stored).
    { unfold run_updates, keepUnreadUpdater. cbn [ofoldl]. fold sent. fold stored. unfold settingsMetaUpdater.
      case_bool_decide as Hb; cbn; eexists; (split; [reflexivity|done]). }
    destruct Hrun as (m' & Hr & Hs). exists m'. split; [done|]. intros later. rewrite Hs. unfold planChatSettings.
    cbn [default from_option id].
    change (effectiveMute stored later) with (effectiveMute cs later). change (tagFor tags stored) with (tagFor tags cs).
    rewrite Z.eqb_refl, beqb_refl. cbn [negb some_local stored MarkedUnread]. by destruct (Bool.eqb sent (MarkedUnread cs)).
Qed.

End PlanProofs.

Section NoEcho.
Context `{U : UUIDLib} `{G : GroupLib} `{M : MuteTimes} (ownACI : UUID).
Context `{C : CryptoLib} `{P : StorageProto} `{R : Random} {A : Type} `{API : StorageAPI A}.

Lemma event_entry w chats id s : chatSettingsEvent w = ChatSettingsEvent chats -> chats !! id = Some s ->
  ChatSettings_of w id = (s, true).
Proof.
  intros [= <-] H. apply lookup_set_to_map in H; [|done]. destruct H as (id' & Hid & [= -> <-]).
  unfold ChatSettings_of. f_equal. apply elem_of_union in Hid as [Hid|Hid].
  - apply elem_of_dom in Hid as [x ->]. done.
  - rewrite (bool_decide_true _ Hid). apply orb_true_r.
Qed.

Lemma remembered w chatID portal m s : ChatSettings_of w chatID = (s, true) -> portal_Metadata portal = SignalMetadata m ->
  exists m', portal_Metadata (remember_settings w chatID portal) = SignalMetadata m' /\ Settings m' = Some s.
Proof.
  intros Hs Hm. unfold remember_settings. rewrite Hs, Hm. cbn [andb].
  case_bool_decide as Hb; cbn [negb]; [exists m; done|]. eexists. split; [reflexivity|done].
Qed.

(** C7: a change made on Matrix is not bridged back: after a successful
    [updateChatSettings], the entry for that chat in the next settings event
    (with the client's settings as they are then) leads to no Matrix event,
    whatever the time and the configured tags. *)
Theorem no_echo masterKey deviceID (a a' : A) draw w w' portal portal' change m
  (H : updateChatSettings ownACI masterKey deviceID a draw w portal change = (a', w', portal', Ok tt))
  (Hm : portal_Metadata portal = SignalMetadata m) :
  exists chat chatID, chatRefForPortal portal = Ok (chat, chatID) /\
    forall chats s ids tags now get_portal queue,
      chatSettingsEvent w' = ChatSettingsEvent chats -> chats !! chatID = Some s ->
      get_portal (makePortalKey ids chatID) = Some (Some portal') ->
      bridgeChatSettings ids tags now get_portal queue (chatID, s) = [].
Proof.
  unfold updateChatSettings in H. destruct (chatRefForPortal portal) as [[chat chatID]| |]; [|discriminate H..].
  exists chat, chatID. split; [done|].
  destruct (UpdateChatSettings ownACI masterKey deviceID a draw w chat change) as [[a1 w1] [[]|e|]]; [|by destruct e|discriminate H].
  injection H as <- <- <-. intros chats s ids tags now get_portal queue He Hs Hg.
  pose proof (event_entry _ _ _ _ He Hs) as Hcs. destruct (remembered w1 chatID portal m s Hcs Hm) as (m' & Hm' & Hs').
  unfold bridgeChatSettings. cbn [fst snd]. rewrite Hg. destruct (beqb _ _); [done|].
  rewrite Hm', Hs', plan_same. done.
Qed.

End NoEcho.

(** ** Witnesses *)
Section Witnesses.
Import CanonicalUUID SampleCrypto SampleStorage.

#[local] Instance sample_times : MuteTimes := { time_MutedForever := 253402300799999999999; time_Unmuted := 0 }.
#[local] Existing Instances sample_groups accepting_api.

Definition sample_tags : chatSettingsTags := mkTags (str "m.favourite") (str "m.lowpriority").

Lemma mute_roundtrip_witness :
  muteTime (with_mute (muteToStorage 5000000 1000000)) 1000000 = 5000000 /\
  effectiveMute (with_mute (muteToStorage (muteTime (with_mute 7) 1000000) 1000000)) 1000000 = 7.
Proof.
  destruct (mute_roundtrip (with_mute 7) 1000000 5000000) as [H1 H2];
    [split; [discriminate|reflexivity]|discriminate|discriminate|discriminate|discriminate|intros _ _; split; reflexivity|].
  split; [exact H2|exact H1].
Defined.

Lemma tags_change_correct_witness :
  exists change, tagsToSettingsChange sample_tags (Some {[str "m.lowpriority"]}) (Some {[str "m.favourite"]}) = Some change /\
    forall s, tagFor sample_tags (apply_change change s) = str "m.favourite".
Proof.
  destruct (tagsToSettingsChange sample_tags (Some {[str "m.lowpriority"]}) (Some {[str "m.favourite"]})) as [change|] eqn:E;
    [|vm_compute in E; discriminate E].
  destruct (tags_change_correct sample_tags (Some {[str "m.lowpriority"]}) (Some {[str "m.favourite"]})) as [_ H];
    [discriminate|discriminate|discriminate|].
  exists change. split; [reflexivity|]. intros s. destruct (H change E) as (_ & _ & Hs). apply (Hs s); vm_compute; reflexivity.
Defined.

Definition sample_world : World :=
  recordChatSettings (str "chat") (mkSettings MuteForeverProto true true false) empty_world.

Lemma created_room_settings_witness :
  exists m', run_updates (ci_ExtraUpdates (addChatSettings sample_world sample_tags 0 (mkChatInfo None []) (str "chat")))
      (SignalMetadata (mkPortalMetadata 0 0 0 None)) = Ok (SignalMetadata m') /\
    planChatSettings (Settings m') (mkSettings MuteForeverProto true true false) sample_tags 1 = mkPlan None (Some true).
Proof.
  destruct (created_room_settings sample_world sample_tags 0 (str "chat") (mkSettings MuteForeverProto true true false)
    (mkPortalMetadata 0 0 0 None)) as (_ & m' & H1 & H2); [vm_compute; reflexivity|].
  exists m'. split; [exact H1|exact (H2 1)].
Defined.

Definition sample_portal : Portal :=
  mkPortal (Base64.encode (repeat x03 32)) (str "!room") (SignalMetadata (mkPortalMetadata 0 0 0 None)).

Definition unarchive : ChatSettingsChange := mkChange None (Some false) (Some true) None.

Lemma no_echo_witness :
  exists a' w' portal', updateChatSettings (R := sample_random) uuid_Nil [x01] 2 sample_manifest 0 empty_world sample_portal unarchive =
      (a', w', portal', Ok tt) /\
    exists chat chatID, chatRefForPortal sample_portal = Ok (chat, chatID).
Proof.
  assert (Hok : is_ok (updateChatSettings (R := sample_random) uuid_Nil [x01] 2 sample_manifest 0 empty_world sample_portal unarchive).2 = true)
    by (vm_compute; reflexivity).
  destruct (updateChatSettings (R := sample_random) uuid_Nil [x01] 2 sample_manifest 0 empty_world sample_portal unarchive)
    as [[[a' w'] portal'] [[]| |]] eqn:E; [|discriminate Hok|discriminate Hok].
  exists a', w', portal'. split; [reflexivity|].
  destruct (no_echo uuid_Nil [x01] 2 sample_manifest a' 0 empty_world w' sample_portal portal' unarchive
    (mkPortalMetadata 0 0 0 None) E eq_refl) as (chat & chatID & H & _).
  exists chat, chatID. exact H.
Defined.

End Witnesses.
