(* ===== verification/Groups.v ===== *)
(** Groups: the data of [pkg/signalmeow/groups.go] and the decryption of a
    group ([decryptGroup] and its helpers).

    A group lives on the server with every member, title and description
    encrypted under parameters derived from the group's master key.  The
    cryptography is libsignal's and a parameter here ([ZkGroup]); the
    protobuf encoding of the encrypted attributes is [GroupProto].  Slices of
    message pointers are lists of messages: protobuf decoding never yields a
    nil element; a nil sub-message is [None]. *)
From S2P Require Import Prelude GoLib ServiceId Crypto Storage ChatSettings RecipientStore StorageSync.

(** ** libsignal and protobuf *)

Definition UUIDCiphertextLength : nat := 65.
Definition ProfileKeyCiphertextLength : nat := 65.

Inductive GroupAttributeBlob :=
| Blob_Title (s : bytes)
| Blob_Avatar (b : bytes)
| Blob_DisappearingMessagesDuration (d : Z)
| Blob_DescriptionText (s : bytes)
| Blob_nil.

Class ZkGroup : Type := {
  zk_params : Type;
  zk_credential : Type;
  (** [DeriveGroupSecretParamsFromMasterKey] *)
  zk_derive : fixed 32 -> option zk_params;
  DecryptServiceID : zk_params -> fixed 65 -> option ServiceID;
  EncryptServiceID : zk_params -> ServiceID -> option (fixed 65);
  DecryptProfileKey : zk_params -> fixed 65 -> UUID -> option (fixed 32);
  DecryptBlobWithPadding : zk_params -> bytes -> option bytes;
  (** the first argument is the randomness that is drawn *)
  EncryptBlobWithPadding : nat -> zk_params -> bytes -> option bytes;
  presentation_CheckValidContents : bytes -> bool;
  presentation_UUIDCiphertext : bytes -> option (fixed 65);
  presentation_ProfileKeyCiphertext : bytes -> option (fixed 65);
  CreatePresentation : nat -> zk_params -> zk_credential -> option bytes;
  GetPublicParams : zk_params -> option bytes;
  (** [ServerPublicParamsVerifySignature] *)
  VerifySignature : bytes -> fixed 64 -> bool
}.

Class GroupProto : Type := {
  marshal_blob : GroupAttributeBlob -> option bytes;
  unmarshal_blob : bytes -> option GroupAttributeBlob
}.

(** The runes [unicode.IsGraphic] accepts, a table of the Unicode standard. *)
Class GraphicRunes : Type := { is_graphic : Z -> bool }.

(** ** Groups and their members *)

Definition GroupMember_UNKNOWN : Z := 0.
Definition GroupMember_DEFAULT : Z := 1.
Definition GroupMember_ADMINISTRATOR : Z := 2.

Definition AccessControl_UNKNOWN : Z := 0.
Definition AccessControl_ANY : Z := 1.
Definition AccessControl_MEMBER : Z := 2.
Definition AccessControl_ADMINISTRATOR : Z := 3.
Definition AccessControl_UNSATISFIABLE : Z := 4.

Record GroupMember := mkMember { gm_ACI : UUID; gm_Role : Z; gm_ProfileKey : fixed 32; gm_JoinedAtRevision : Z }.

Record GroupAccessControl := mkAccess { ac_Members : Z; ac_AddFromInviteLink : Z; ac_Attributes : Z }.

Record PendingMember := mkPending { pm_ServiceID : ServiceID; pm_Role : Z; pm_AddedByUserID : UUID; pm_Timestamp : Z }.
Record RequestingMember := mkRequesting { rm_ACI : UUID; rm_ProfileKey : fixed 32; rm_Timestamp : Z }.
Record BannedMember := mkBanned { bm_ServiceID : ServiceID; bm_Timestamp : Z }.

Record Group := mkGroup {
  grp_MasterKey : bytes;
  grp_Identifier : bytes;
  grp_Title : bytes;
  grp_AvatarPath : bytes;
  grp_Members : list GroupMember;
  grp_Description : bytes;
  grp_AnnouncementsOnly : bool;
  grp_Revision : Z;
  grp_DisappearingMessagesDuration : Z;
  grp_AccessControl : option GroupAccessControl;
  grp_PendingMembers : list PendingMember;
  grp_RequestingMembers : list RequestingMember;
  grp_BannedMembers : list BannedMember;
  grp_InviteLinkPassword : option bytes
}.

Definition UserServiceID (gm : GroupMember) : ServiceID := NewACIServiceID (gm_ACI gm).

Definition getMemberServiceIDs (group : Group) : list ServiceID :=
  map (fun from => NewACIServiceID (gm_ACI from)) (grp_Members group).

(** ** The messages *)

Record pb_Member := mkPbMember {
  mb_UserId : bytes; mb_Role : Z; mb_ProfileKey : bytes; mb_Presentation : bytes; mb_JoinedAtVersion : Z
}.
Record pb_MemberPendingProfileKey := mkPbPending {
  mp_Member : option pb_Member; mp_AddedByUserId : bytes; mp_Timestamp : Z
}.
Record pb_MemberPendingAdminApproval := mkPbRequesting {
  mr_UserId : bytes; mr_ProfileKey : bytes; mr_Presentation : bytes; mr_Timestamp : Z
}.
Record pb_MemberBanned := mkPbBanned { mbn_UserId : bytes; mbn_Timestamp : Z }.
Record pb_AccessControl := mkPbAccess { pa_Attributes : Z; pa_Members : Z; pa_AddFromInviteLink : Z }.
Record pb_Group := mkPbGroup {
  pg_PublicKey : bytes;
  pg_Title : bytes;
  pg_AvatarUrl : bytes;
  pg_DisappearingMessagesTimer : bytes;
  pg_AccessControl : option pb_AccessControl;
  pg_Version : Z;
  pg_Members : list pb_Member;
  pg_MembersPendingProfileKey : list pb_MemberPendingProfileKey;
  pg_MembersPendingAdminApproval : list pb_MemberPendingAdminApproval;
  pg_InviteLinkPassword : bytes;
  pg_Description : bytes;
  pg_AnnouncementsOnly : bool;
  pg_MembersBanned : list pb_MemberBanned
}.

Inductive group_error :=
| DeriveParamsFailed
| GroupIDFailed (e : group_key_error)
| BlobDecryptFailed
| BlobUnmarshalFailed
| BlobMarshalFailed
| BlobEncryptFailed
| InvalidPresentation
| MissingProfileKeyAndPresentation
| DecryptServiceIDFailed
| DecryptProfileKeyFailed
| WrongServiceIDKind
| InvalidUserIDLength (n : nat)
| EncryptServiceIDFailed
| CreatePresentationFailed
| ProfileCredentialFailed
| InvalidMasterKeySize (n : nat)
| UnmarshalGroupChangeFailed
| SignatureFailed
| ReceiveEndorsementsFailed
| GetExpirationFailed
| NoInviteLinkPassword
| BadInviteLinkPassword
| ErrGroupMasterKeyNotFound
| NoGroupChange
| NoCredentialsForToday
| RespError (name : bytes)
| SendRequestFailed
| ReadBodyFailed
| UnmarshalFailed
| MarshalFailed
| BadStatus (status : Z)
| MismatchingPNI
| AuthCredentialFailed
| PublicParamsFailed
| MissingAuthCredentialSalt
| BadGroupIdentifier
| NoResponseBody
| TooManyAttempts.

(** ** Invite links *)
Definition inviteLinkPasswordToBytes (p : bytes) : option bytes := Base64.decode p.
Definition InviteLinkPasswordFromBytes (p : bytes) : bytes := Base64.encode p.

Section Decrypt.
Context `{G : GroupLib} `{ZK : ZkGroup} `{BP : GroupProto} `{GR : GraphicRunes}.

(** [proto.Marshal] of the invite link message. *)
Definition GetInviteLink (marshal_link : fixed 32 -> bytes -> bytes) (url_encode : bytes -> bytes) (group : Group)
  : outcome group_error bytes :=
  match grp_InviteLinkPassword group with
  | None => Err NoInviteLinkPassword
  | Some password =>
      let! masterKeyBytes := masterKeyToBytes (grp_MasterKey group) in
      let! inviteLinkPasswordBytes := of_option BadInviteLinkPassword (inviteLinkPasswordToBytes password) in
      Ok (str "https://signal.group/#" ++ url_encode (marshal_link masterKeyBytes inviteLinkPasswordBytes))
  end.

Definition decryptGroupPropertyIntoBlob (params : zk_params) (encryptedProperty : bytes) : outcome group_error GroupAttributeBlob :=
  let! decryptedProperty := of_option BlobDecryptFailed (DecryptBlobWithPadding params encryptedProperty) in
  of_option BlobUnmarshalFailed (unmarshal_blob decryptedProperty).

Definition encryptBlobIntoGroupProperty (draw : nat) (params : zk_params) (blob : GroupAttributeBlob) : outcome group_error bytes :=
  let! decryptedProperty := of_option BlobMarshalFailed (marshal_blob blob) in
  of_option BlobEncryptFailed (EncryptBlobWithPadding draw params decryptedProperty).

Definition GetTitle (b : GroupAttributeBlob) : bytes := match b with Blob_Title s => s | _ => [] end.
Definition GetDescriptionText (b : GroupAttributeBlob) : bytes := match b with Blob_DescriptionText s => s | _ => [] end.
Definition GetDisappearingMessagesDuration (b : GroupAttributeBlob) : Z :=
  match b with Blob_DisappearingMessagesDuration d => d | _ => 0 end.
Definition GetAvatar (b : GroupAttributeBlob) : bytes := match b with Blob_Avatar s => s | _ => [] end.

(** [cleanupStringMapping] returns -1 for a rune to drop. *)
Definition cleanupStringMapping (r : Z) : Z := if is_graphic r then r else -1.

Definition cleanupStringProperty (property : bytes) : bytes :=
  TrimSpace_str (Unicode.string_of_runes (filter (fun r => 0 <= r) (map cleanupStringMapping (Unicode.runes property)))).

Definition decryptGroupAvatar (encryptedAvatar groupMasterKey : bytes) : outcome group_error bytes :=
  let! k := masterKeyToBytes groupMasterKey in
  let! params := of_option DeriveParamsFailed (zk_derive k) in
  let! avatarBlob := decryptGroupPropertyIntoBlob params encryptedAvatar in
  Ok (GetAvatar avatarBlob).

Definition decryptPKeyAndIDorPresentation (userID profileKeyBytes presentationBytes : bytes) (params : zk_params)
  : outcome group_error (UUID * fixed 32) :=
  let! cts :=
    match to_fixed 65 userID, to_fixed 65 profileKeyBytes with
    | Some u, Some p => Ok (u, p)
    | _, _ =>
        if (0 <? length presentationBytes)%nat then
          if negb (presentation_CheckValidContents presentationBytes) then Err InvalidPresentation
          else
            let! u := of_option InvalidPresentation (presentation_UUIDCiphertext presentationBytes) in
            let! p := of_option InvalidPresentation (presentation_ProfileKeyCiphertext presentationBytes) in
            Ok (u, p)
        else Err MissingProfileKeyAndPresentation
    end in
  let! serviceID := of_option DecryptServiceIDFailed (DecryptServiceID params cts.1) in
  let! profileKey := of_option DecryptProfileKeyFailed (DecryptProfileKey params cts.2 (sid_UUID serviceID)) in
  if bool_decide (sid_Type serviceID = ServiceIDTypePNI) then Err WrongServiceIDKind
  else Ok (sid_UUID serviceID, profileKey).

(** The member is a pointer: its fields are read without a nil check. *)
Definition decryptMember (member : option pb_Member) (params : zk_params) : outcome group_error GroupMember :=
  match member with
  | None => Panic
  | Some m =>
      let! r := decryptPKeyAndIDorPresentation (mb_UserId m) (mb_ProfileKey m) (mb_Presentation m) params in
      Ok (mkMember r.1 (mb_Role m) r.2 (mb_JoinedAtVersion m))
  end.

Definition decryptPendingMember (pendingMember : option pb_MemberPendingProfileKey) (params : zk_params)
  : outcome group_error PendingMember :=
  match pendingMember with
  | None => Panic
  | Some p =>
      match mp_Member p with
      | None => Panic
      | Some m =>
          let! encryptedUserID := of_option (InvalidUserIDLength (length (mb_UserId m))) (to_fixed 65 (mb_UserId m)) in
          let! userID := of_option DecryptServiceIDFailed (DecryptServiceID params encryptedUserID) in
          let! encryptedAddedBy := of_option (InvalidUserIDLength (length (mp_AddedByUserId p))) (to_fixed 65 (mp_AddedByUserId p)) in
          let! addedBy := of_option DecryptServiceIDFailed (DecryptServiceID params encryptedAddedBy) in
          Ok (mkPending userID (mb_Role m) (sid_UUID addedBy) (mp_Timestamp p))
      end
  end.

Definition decryptRequestingMember (requestingMember : option pb_MemberPendingAdminApproval) (params : zk_params)
  : outcome group_error RequestingMember :=
  match requestingMember with
  | None => Panic
  | Some m =>
      let! r := decryptPKeyAndIDorPresentation (mr_UserId m) (mr_ProfileKey m) (mr_Presentation m) params in
      Ok (mkRequesting r.1 r.2 (mr_Timestamp m))
  end.

(** [libsignalgo.UUIDCiphertext] of an ID of the right length, decrypted;
    an ID of another length is skipped. *)
Definition decrypt_id {A} (params : zk_params) (userID : bytes) (k : ServiceID -> outcome group_error (option A))
  : outcome group_error (option A) :=
  match to_fixed 65 userID with
  | None => Ok None
  | Some ct => let! serviceID := of_option DecryptServiceIDFailed (DecryptServiceID params ct) in k serviceID
  end.

(** The loop body for banned members. *)
Definition decrypt_banned (params : zk_params) (b : pb_MemberBanned) : outcome group_error (option BannedMember) :=
  decrypt_id params (mbn_UserId b) (fun serviceID => Ok (Some (mkBanned serviceID (mbn_Timestamp b)))).

(** A pending member that does not decrypt is skipped. *)
Definition decrypt_pending (params : zk_params) (p : option pb_MemberPendingProfileKey)
  : outcome group_error (option PendingMember) :=
  match decryptPendingMember p params with
  | Ok m => Ok (Some m)
  | Err _ => Ok None
  | Panic => Panic
  end.

Definition decryptGroup (encryptedGroup : pb_Group) (groupMasterKey : bytes) : outcome group_error Group :=
  let! k := masterKeyToBytes groupMasterKey in
  let! params := of_option DeriveParamsFailed (zk_derive k) in
  let! gid := wrap_err GroupIDFailed (groupIdentifierFromMasterKey groupMasterKey) in
  let! titleBlob := decryptGroupPropertyIntoBlob params (pg_Title encryptedGroup) in
  let description :=
    match decryptGroupPropertyIntoBlob params (pg_Description encryptedGroup) with
    | Ok blob => cleanupStringProperty (GetDescriptionText blob)
    | _ => []
    end in
  let! duration :=
    if (0 <? length (pg_DisappearingMessagesTimer encryptedGroup))%nat then
      let! timerBlob := decryptGroupPropertyIntoBlob params (pg_DisappearingMessagesTimer encryptedGroup) in
      Ok (GetDisappearingMessagesDuration timerBlob)
    else Ok 0 in
  let! members := ofor (fun m => outmap Some (decryptMember (Some m) params)) (pg_Members encryptedGroup) in
  let! pending := ofor (fun p => decrypt_pending params (Some p)) (pg_MembersPendingProfileKey encryptedGroup) in
  let! requesting := ofor (fun r => outmap Some (decryptRequestingMember (Some r) params))
                       (pg_MembersPendingAdminApproval encryptedGroup) in
  let! banned := ofor (decrypt_banned params) (pg_MembersBanned encryptedGroup) in
  Ok (mkGroup groupMasterKey gid (cleanupStringProperty (GetTitle titleBlob)) (pg_AvatarUrl encryptedGroup)
        members description false (pg_Version encryptedGroup) duration
        (match pg_AccessControl encryptedGroup with
         | Some a => Some (mkAccess (pa_Members a) (pa_AddFromInviteLink a) (pa_Attributes a))
         | None => None
         end)
        pending requesting banned
        (if (0 <? length (pg_InviteLinkPassword encryptedGroup))%nat
         then Some (InviteLinkPasswordFromBytes (pg_InviteLinkPassword encryptedGroup)) else None)).

End Decrypt.
