(* ===== verification/GroupCache.v ===== *)
(** The group cache: [pkg/signalmeow/groupcache.go] and
    [ReceiveWithServiceIDs] of [pkg/libsignalgo/groupsendendorsement.go].

    Groups are kept by identifier, together with the endorsements that allow
    sending to them.  The cache hands out pointers to its groups and updates
    them in place, so a group is a reference into a heap of group objects. *)
From S2P Require Import Prelude GoLib ServiceId Crypto Storage ChatSettings RecipientStore StorageSync Groups.

Record AddMember := mkAddMember { am_Member : GroupMember; am_JoinFromInviteLink : bool }.
Record ProfileKeyMember := mkKeyMember { km_ACI : UUID; km_ProfileKey : fixed 32 }.
Record PromotePendingPniAciMember := mkPniAci { pp_ACI : UUID; pp_ProfileKey : fixed 32; pp_PNI : UUID }.
Record RoleMember := mkRoleMember { ro_ACI : UUID; ro_Role : Z }.

(** [PromotePendingMember] has the fields of [ProfileKeyMember]. *)
Record GroupChange := mkGroupChange {
  gch_MasterKey : bytes;
  gch_SourceServiceID : ServiceID;
  gch_Revision : Z;
  gch_AddMembers : list AddMember;
  gch_DeleteMembers : list UUID;
  gch_ModifyMemberRoles : list RoleMember;
  gch_ModifyMemberProfileKeys : list ProfileKeyMember;
  gch_AddPendingMembers : list PendingMember;
  gch_DeletePendingMembers : list ServiceID;
  gch_PromotePendingMembers : list ProfileKeyMember;
  gch_ModifyTitle : option bytes;
  gch_ModifyAvatar : option bytes;
  gch_ModifyDisappearingMessagesDuration : option Z;
  gch_ModifyAttributesAccess : option Z;
  gch_ModifyMemberAccess : option Z;
  gch_ModifyAddFromInviteLinkAccess : option Z;
  gch_AddRequestingMembers : list RequestingMember;
  gch_DeleteRequestingMembers : list UUID;
  gch_PromoteRequestingMembers : list RoleMember;
  gch_ModifyDescription : option bytes;
  gch_ModifyAnnouncementsOnly : option bool;
  gch_AddBannedMembers : list BannedMember;
  gch_DeleteBannedMembers : list ServiceID;
  gch_PromotePendingPniAciMembers : list PromotePendingPniAciMember;
  gch_ModifyInviteLinkPassword : option bytes
}.

(** ** Applying a change to a group *)

Definition set_Members (l : list GroupMember) (g : Group) : Group :=
  mkGroup (grp_MasterKey g) (grp_Identifier g) (grp_Title g) (grp_AvatarPath g) l (grp_Description g)
    (grp_AnnouncementsOnly g) (grp_Revision g) (grp_DisappearingMessagesDuration g) (grp_AccessControl g)
    (grp_PendingMembers g) (grp_RequestingMembers g) (grp_BannedMembers g) (grp_InviteLinkPassword g).
Definition set_PendingMembers (l : list PendingMember) (g : Group) : Group :=
  mkGroup (grp_MasterKey g) (grp_Identifier g) (grp_Title g) (grp_AvatarPath g) (grp_Members g) (grp_Description g)
    (grp_AnnouncementsOnly g) (grp_Revision g) (grp_DisappearingMessagesDuration g) (grp_AccessControl g)
    l (grp_RequestingMembers g) (grp_BannedMembers g) (grp_InviteLinkPassword g).
Definition set_RequestingMembers (l : list RequestingMember) (g : Group) : Group :=
  mkGroup (grp_MasterKey g) (grp_Identifier g) (grp_Title g) (grp_AvatarPath g) (grp_Members g) (grp_Description g)
    (grp_AnnouncementsOnly g) (grp_Revision g) (grp_DisappearingMessagesDuration g) (grp_AccessControl g)
    (grp_PendingMembers g) l (grp_BannedMembers g) (grp_InviteLinkPassword g).
Definition set_BannedMembers (l : list BannedMember) (g : Group) : Group :=
  mkGroup (grp_MasterKey g) (grp_Identifier g) (grp_Title g) (grp_AvatarPath g) (grp_Members g) (grp_Description g)
    (grp_AnnouncementsOnly g) (grp_Revision g) (grp_DisappearingMessagesDuration g) (grp_AccessControl g)
    (grp_PendingMembers g) (grp_RequestingMembers g) l (grp_InviteLinkPassword g).

(** [slices.DeleteFunc] *)
Definition DeleteFunc {A} (l : list A) (del : A -> bool) : list A := List.filter (fun x => negb (del x)) l.

(** [findMemberOrEmpty(aci)] assigned to: the first such member changes; the
    empty member that is returned otherwise is dropped. *)
Fixpoint update_member (aci : UUID) (f : GroupMember -> GroupMember) (l : list GroupMember) : list GroupMember :=
  match l with
  | [] => []
  | m :: l => if bool_decide (gm_ACI m = aci) then f m :: l else m :: update_member aci f l
  end.

Definition is_aci (s : ServiceID) (u : UUID) : bool :=
  bool_decide (sid_Type s = ServiceIDTypeACI) && bool_decide (sid_UUID s = u).
Definition is_pni (s : ServiceID) (u : UUID) : bool :=
  bool_decide (sid_Type s = ServiceIDTypePNI) && bool_decide (sid_UUID s = u).

Definition promote_pending (revision : Z) (g : Group) (promo : ProfileKeyMember) : Group :=
  set_Members (grp_Members g ++ [mkMember (km_ACI promo) GroupMember_DEFAULT (km_ProfileKey promo) revision])
    (set_PendingMembers (DeleteFunc (grp_PendingMembers g) (fun p => is_aci (pm_ServiceID p) (km_ACI promo))) g).

Definition promote_pni_aci (revision : Z) (g : Group) (promo : PromotePendingPniAciMember) : Group :=
  set_Members (grp_Members g ++ [mkMember (pp_ACI promo) GroupMember_DEFAULT (pp_ProfileKey promo) revision])
    (set_PendingMembers (DeleteFunc (grp_PendingMembers g) (fun p =>
       is_pni (pm_ServiceID p) (pp_PNI promo) || is_aci (pm_ServiceID p) (pp_ACI promo))) g).

Definition apply_pending (change : GroupChange) (g : Group) : Group :=
  let g := set_PendingMembers (grp_PendingMembers g ++ gch_AddPendingMembers change) g in
  let g := fold_left (promote_pending (gch_Revision change)) (gch_PromotePendingMembers change) g in
  let g := fold_left (promote_pni_aci (gch_Revision change)) (gch_PromotePendingPniAciMembers change) g in
  set_PendingMembers (DeleteFunc (grp_PendingMembers g) (fun p =>
    existsb (fun s => bool_decide (pm_ServiceID p = s)) (gch_DeletePendingMembers change))) g.

(** The profile key of the last request of that user, all of which go. *)
Definition request_key (aci : UUID) (l : list RequestingMember) : fixed 32 :=
  fold_left (fun k r => if bool_decide (rm_ACI r = aci) then rm_ProfileKey r else k) l (fixed_zero 32).

Definition promote_requesting (revision : Z) (g : Group) (promo : RoleMember) : Group :=
  set_Members (grp_Members g ++ [mkMember (ro_ACI promo) (ro_Role promo) (request_key (ro_ACI promo) (grp_RequestingMembers g)) revision])
    (set_RequestingMembers (DeleteFunc (grp_RequestingMembers g) (fun r => bool_decide (rm_ACI r = ro_ACI promo))) g).

Definition apply_requesting (change : GroupChange) (g : Group) : Group :=
  let g := set_RequestingMembers (grp_RequestingMembers g ++ gch_AddRequestingMembers change) g in
  let g := fold_left (promote_requesting (gch_Revision change)) (gch_PromoteRequestingMembers change) g in
  set_RequestingMembers (DeleteFunc (grp_RequestingMembers g) (fun r =>
    existsb (fun u => bool_decide (rm_ACI r = u)) (gch_DeleteRequestingMembers change))) g.

Definition set_Role (r : Z) (m : GroupMember) : GroupMember := mkMember (gm_ACI m) r (gm_ProfileKey m) (gm_JoinedAtRevision m).
Definition set_ProfileKey (k : fixed 32) (m : GroupMember) : GroupMember := mkMember (gm_ACI m) (gm_Role m) k (gm_JoinedAtRevision m).

Definition apply_members (change : GroupChange) (g : Group) : Group :=
  let l := grp_Members g ++ map am_Member (gch_AddMembers change) in
  let l := fold_left (fun l rm => update_member (ro_ACI rm) (set_Role (ro_Role rm)) l) (gch_ModifyMemberRoles change) l in
  let l := fold_left (fun l pk => update_member (km_ACI pk) (set_ProfileKey (km_ProfileKey pk)) l) (gch_ModifyMemberProfileKeys change) l in
  set_Members (DeleteFunc l (fun m => existsb (fun u => bool_decide (u = gm_ACI m)) (gch_DeleteMembers change))) g.

Definition apply_banned (change : GroupChange) (g : Group) : Group :=
  set_BannedMembers (DeleteFunc (grp_BannedMembers g ++ gch_AddBannedMembers change) (fun b =>
    existsb (fun s => bool_decide (bm_ServiceID b = s)) (gch_DeleteBannedMembers change))) g.

(** The access control is a pointer: assigning to a field of a nil one panics. *)
Definition apply_access {E} (change : GroupChange) (ac : option GroupAccessControl) : outcome E (option GroupAccessControl) :=
  match ac, gch_ModifyAttributesAccess change, gch_ModifyMemberAccess change, gch_ModifyAddFromInviteLinkAccess change with
  | None, None, None, None => Ok None
  | None, _, _, _ => Panic
  | Some a, attributes, members, link =>
      Ok (Some (mkAccess (default (ac_Members a) members) (default (ac_AddFromInviteLink a) link) (default (ac_Attributes a) attributes)))
  end.

Definition apply_attributes {E} (change : GroupChange) (g : Group) : outcome E Group :=
  let! ac := apply_access change (grp_AccessControl g) in
  Ok (mkGroup (grp_MasterKey g) (grp_Identifier g)
        (default (grp_Title g) (gch_ModifyTitle change)) (default (grp_AvatarPath g) (gch_ModifyAvatar change))
        (grp_Members g) (default (grp_Description g) (gch_ModifyDescription change))
        (default (grp_AnnouncementsOnly g) (gch_ModifyAnnouncementsOnly change)) (gch_Revision change)
        (default (grp_DisappearingMessagesDuration g) (gch_ModifyDisappearingMessagesDuration change)) ac
        (grp_PendingMembers g) (grp_RequestingMembers g) (grp_BannedMembers g)
        (match gch_ModifyInviteLinkPassword change with Some p => Some p | None => grp_InviteLinkPassword g end)).

Definition apply_change {E} (change : GroupChange) (g : Group) : outcome E Group :=
  apply_attributes change (apply_banned change (apply_members change (apply_requesting change (apply_pending change g)))).

(** ** Endorsements *)

Class Endorsements `{ZK : ZkGroup} : Type := {
  (** [signal_group_send_endorsements_response_receive_and_combine_with_service_ids]
      on the members' fixed bytes, the local user, the time and the parameters *)
  ffi_receive : bytes -> bytes -> ServiceID -> Z -> zk_params -> option (list bytes);
  GroupSendEndorsementCombine : list bytes -> option bytes;
  (** in seconds *)
  GetExpiration : bytes -> option Z;
  ToFullToken : bytes -> zk_params -> Z -> option bytes
}.

Record GroupCredential := mkCredential { gcr_Credential : bytes; RedemptionTime : Z }.
Record GroupCredentials := mkCredentials { Credentials : list GroupCredential; gcr_PNI : UUID }.

Section Cache.
Context `{G : GroupLib} `{EN : Endorsements}.

Record SendEndorsementCache := mkEndorsement {
  se_SendEndorsement : bytes;
  se_MemberEndorsements : gmap ServiceID bytes;
  se_Expiration : Z;
  se_SecretParams : zk_params
}.

Definition GetTokenWith (sec : SendEndorsementCache) (altToken : bytes) : option bytes :=
  ToFullToken altToken (se_SecretParams sec) (se_Expiration sec).
Definition GetToken (sec : SendEndorsementCache) : option bytes := GetTokenWith sec (se_SendEndorsement sec).

(** Times are in seconds. *)
Record cachedGroup := mkCached { cg_Group : nat; cg_Endorsement : SendEndorsementCache; FetchedAt : Z; UpdatedAt : Z }.

Record GroupCache := mkCache {
  gc_serviceID : ServiceID;
  gc_credentials : option GroupCredentials;
  gc_heap : gmap nat Group;
  gc_next : nat;
  gc_data : gmap bytes cachedGroup;
  gc_activeCalls : gmap bytes bytes
}.

Definition NewGroupCache (serviceID : ServiceID) : GroupCache := mkCache serviceID None ∅ 0 ∅ ∅.

Definition set_data (d : gmap bytes cachedGroup) (gc : GroupCache) : GroupCache :=
  mkCache (gc_serviceID gc) (gc_credentials gc) (gc_heap gc) (gc_next gc) d (gc_activeCalls gc).
Definition set_heap (h : gmap nat Group) (gc : GroupCache) : GroupCache :=
  mkCache (gc_serviceID gc) (gc_credentials gc) h (gc_next gc) (gc_data gc) (gc_activeCalls gc).
Definition set_calls (m : gmap bytes bytes) (gc : GroupCache) : GroupCache :=
  mkCache (gc_serviceID gc) (gc_credentials gc) (gc_heap gc) (gc_next gc) (gc_data gc) m.
Definition set_credentials (c : option GroupCredentials) (gc : GroupCache) : GroupCache :=
  mkCache (gc_serviceID gc) c (gc_heap gc) (gc_next gc) (gc_data gc) (gc_activeCalls gc).

(** A new group object. *)
Definition new_group (g : Group) (gc : GroupCache) : nat * GroupCache :=
  (gc_next gc, mkCache (gc_serviceID gc) (gc_credentials gc) (<[gc_next gc := g]> (gc_heap gc)) (S (gc_next gc)) (gc_data gc) (gc_activeCalls gc)).

(** *** Credentials *)
Definition secondsPerDay : Z := 86400.
(** [time.Now().Truncate(24 * time.Hour).Unix()] *)
Definition today_of (now : Z) : Z := now / secondsPerDay * secondsPerDay.

Definition getCachedCredentials (creds : option GroupCredentials) (today : Z) : option GroupCredential :=
  match creds with
  | None => None
  | Some c => List.find (fun cred => RedemptionTime cred =? today) (Credentials c)
  end.

(** [meanwhile] is what other goroutines do to the credentials between the
    read lock and the write lock. *)
Definition GetCredentials (now : Z) (fetch : Z -> outcome group_error GroupCredentials)
  (meanwhile : option GroupCredentials -> option GroupCredentials) (gc : GroupCache)
  : GroupCache * outcome group_error GroupCredential :=
  let today := today_of now in
  match getCachedCredentials (gc_credentials gc) today with
  | Some cred => (gc, Ok cred)
  | None =>
      let gc := set_credentials (meanwhile (gc_credentials gc)) gc in
      match getCachedCredentials (gc_credentials gc) today with
      | Some cred => (gc, Ok cred)
      | None =>
          match fetch today with
          | Err e => (gc, Err e)
          | Panic => (gc, Panic)
          | Ok creds =>
              (set_credentials (Some creds) gc,
               of_option NoCredentialsForToday (getCachedCredentials (Some creds) today))
          end
      end
  end.

(** *** Calls *)
Definition UpdateActiveCall (id callID : bytes) (gc : GroupCache) : GroupCache * bool :=
  if bool_decide (gc_activeCalls gc !! id = Some callID) then (set_calls (delete id (gc_activeCalls gc)) gc, false)
  else (set_calls (<[id := callID]> (gc_activeCalls gc)) gc, true).

(** *** Groups *)
Definition cache_Get (id : bytes) (now : Z) (gc : GroupCache) : option (nat * SendEndorsementCache) :=
  match gc_data gc !! id with
  | Some c => if se_Expiration (cg_Endorsement c) - now <? 5 * 60 then None else Some (cg_Group c, cg_Endorsement c)
  | None => None
  end.

Definition cache_Delete (id : bytes) (gc : GroupCache) : GroupCache := set_data (delete id (gc_data gc)) gc.

(** A nil response has no bytes. *)
Definition ReceiveWithServiceIDs (gser : bytes) (groupMembers : list ServiceID) (localUser : ServiceID) (now : Z) (params : zk_params)
  : outcome group_error (bytes * gmap ServiceID bytes) :=
  let concatenatedMembers := concat (map FixedBytes groupMembers) in
  let! endorsements := of_option ReceiveEndorsementsFailed (ffi_receive gser concatenatedMembers localUser now params) in
  let memberEndorsements :=
    fold_left (fun m p => if (0 <? length p.2)%nat then <[p.1 := p.2]> m else m) (zip groupMembers endorsements) ∅ in
  let nonEmpty := List.filter (fun e => (0 <? length e)%nat) endorsements in
  let! combined := of_option ReceiveEndorsementsFailed (GroupSendEndorsementCombine nonEmpty) in
  Ok (combined, memberEndorsements).

Definition revision_of (gc : GroupCache) (c : cachedGroup) : Z :=
  match gc_heap gc !! cg_Group c with Some g => grp_Revision g | None => 0 end.

(** [Put] of the group object [data]. *)
Definition cache_Put (data : nat) (endorsementResponse : bytes) (now : Z) (gc : GroupCache)
  : GroupCache * outcome group_error unit :=
  match gc_heap gc !! data with
  | None => (gc, Panic)
  | Some g =>
      let result : outcome group_error (zk_params * Z * (bytes * gmap ServiceID bytes)) :=
        let! k := masterKeyToBytes (grp_MasterKey g) in
        let! gsp := of_option DeriveParamsFailed (zk_derive k) in
        let! expiration := of_option GetExpirationFailed (GetExpiration endorsementResponse) in
        let! e := ReceiveWithServiceIDs endorsementResponse (getMemberServiceIDs g) (gc_serviceID gc) now gsp in
        Ok (gsp, expiration, e) in
      match result with
      | Err e => (gc, Err e)
      | Panic => (gc, Panic)
      | Ok (gsp, expiration, (endorsement, memberEndorsements)) =>
          let newer := match gc_data gc !! grp_Identifier g with
                       | Some cached => grp_Revision g <? revision_of gc cached
                       | None => false
                       end in
          if newer then (gc, Ok tt)
          else (set_data (<[grp_Identifier g :=
                  mkCached data (mkEndorsement endorsement memberEndorsements expiration gsp) now now]> (gc_data gc)) gc, Ok tt)
      end
  end.

(** [ApplyUpdate]; a failure after the group object was changed also evicts it. *)
Definition ApplyUpdate (change : GroupChange) (endorsementResponse : bytes) (now : Z) (gc : GroupCache)
  : GroupCache * outcome group_error unit :=
  let keys : outcome group_error (bytes * zk_params) :=
    let! mkBytes := masterKeyToBytes (gch_MasterKey change) in
    let! rawGroupID := of_option (GroupIDFailed GroupIdentifierFailed) (derive_group_identifier mkBytes) in
    let! gsp := of_option DeriveParamsFailed (zk_derive mkBytes) in
    Ok (BytesToGroupIdentifier (Some rawGroupID), gsp) in
  match keys with
  | Err e => (gc, Err e)
  | Panic => (gc, Panic)
  | Ok (id, gsp) =>
      match gc_data gc !! id with
      | None => (gc, Ok tt)
      | Some cached =>
          if gch_Revision change <=? revision_of gc cached then (gc, Ok tt)
          else if revision_of gc cached <? uint32 (gch_Revision change - 1) then (cache_Delete id gc, Ok tt)
          else
            match gc_heap gc !! cg_Group cached with
            | None => (gc, Panic)
            | Some g =>
                match apply_change change g with
                | Err e => (gc, Err e)
                | Panic => (gc, Panic)
                | Ok g' =>
                    let gc := set_heap (<[cg_Group cached := g']> (gc_heap gc)) gc in
                    match ReceiveWithServiceIDs endorsementResponse (getMemberServiceIDs g') (gc_serviceID gc) now gsp with
                    | Err e => (cache_Delete id gc, Err e)
                    | Panic => (gc, Panic)
                    | Ok (endorsement, memberEndorsements) =>
                        match GetExpiration endorsementResponse with
                        | None => (cache_Delete id gc, Err GetExpirationFailed)
                        | Some expiration =>
                            (set_data (<[id := mkCached (cg_Group cached)
                               (mkEndorsement endorsement memberEndorsements expiration gsp) (FetchedAt cached) now]> (gc_data gc)) gc, Ok tt)
                        end
                    end
                end
            end
      end
  end.

End Cache.

(** ** What a change means
    The members as a map from ACI to role and profile key, the other lists as
    sets of identifiers. *)

Definition roster (l : list GroupMember) : gmap UUID (Z * fixed 32) :=
  list_to_map (map (fun m => (gm_ACI m, (gm_Role m, gm_ProfileKey m))) l).
Definition pending_ids (g : Group) : gset ServiceID := list_to_set (map pm_ServiceID (grp_PendingMembers g)).
Definition requesting_ids (g : Group) : gset UUID := list_to_set (map rm_ACI (grp_RequestingMembers g)).
Definition banned_ids (g : Group) : gset ServiceID := list_to_set (map bm_ServiceID (grp_BannedMembers g)).

(** The members that join by a change, promoted requests with the key of the request. *)
Definition joined (change : GroupChange) (requests : list RequestingMember) : list GroupMember :=
  map (fun p => mkMember (km_ACI p) GroupMember_DEFAULT (km_ProfileKey p) (gch_Revision change)) (gch_PromotePendingMembers change) ++
  map (fun p => mkMember (pp_ACI p) GroupMember_DEFAULT (pp_ProfileKey p) (gch_Revision change)) (gch_PromotePendingPniAciMembers change) ++
  map (fun p => mkMember (ro_ACI p) (ro_Role p) (request_key (ro_ACI p) requests) (gch_Revision change)) (gch_PromoteRequestingMembers change) ++
  map am_Member (gch_AddMembers change).

(** The new roster: joining members, then roles, then keys, then removals. *)
Definition changed_roster (change : GroupChange) (requests : list RequestingMember) (R : gmap UUID (Z * fixed 32))
  : gmap UUID (Z * fixed 32) :=
  let R := R ∪ roster (joined change requests) in
  let R := fold_left (fun R rm => alter (fun v => (ro_Role rm, v.2)) (ro_ACI rm) R) (gch_ModifyMemberRoles change) R in
  let R := fold_left (fun R pk => alter (fun v => (v.1, km_ProfileKey pk)) (km_ACI pk) R) (gch_ModifyMemberProfileKeys change) R in
  filter (fun kv => kv.1 ∉ gch_DeleteMembers change) R.

(** The service IDs a change promotes from the pending list. *)
Definition promoted_ids (change : GroupChange) : gset ServiceID :=
  list_to_set (map (fun p => NewACIServiceID (km_ACI p)) (gch_PromotePendingMembers change) ++
    map (fun p => NewACIServiceID (pp_ACI p)) (gch_PromotePendingPniAciMembers change) ++
    map (fun p => NewPNIServiceID (pp_PNI p)) (gch_PromotePendingPniAciMembers change)).

Section ChangeProofs.

Lemma elem_of_DeleteFunc {A} (l : list A) del x : x ∈ DeleteFunc l del <-> x ∈ l /\ del x = false.
Proof. unfold DeleteFunc. rewrite !list_elem_of_In, filter_In, negb_true_iff. done. Qed.

(** Deleting by identifier, as sets of identifiers. *)
Lemma ids_DeleteFunc {A I} `{Countable I} (f : A -> I) l ds :
  list_to_set (C := gset I) (map f (DeleteFunc l (fun x => existsb (fun s => bool_decide (f x = s)) ds))) =
  list_to_set (map f l) ∖ list_to_set ds.
Proof.
  apply set_eq. intros s. rewrite elem_of_difference, !elem_of_list_to_set, !list_elem_of_fmap. setoid_rewrite elem_of_DeleteFunc.
  setoid_rewrite <- not_true_iff_false. setoid_rewrite existsb_exists. setoid_rewrite bool_decide_eq_true.
  setoid_rewrite <- list_elem_of_In. naive_solver.
Qed.

Lemma is_aci_true s u : is_aci s u = true <-> s = NewACIServiceID u.
Proof.
  unfold is_aci. rewrite andb_true_iff, !bool_decide_eq_true. destruct s as [t v]. unfold NewACIServiceID. cbn. split.
  - by intros [-> ->].
  - by intros [= -> ->].
Qed.
Lemma is_pni_true s u : is_pni s u = true <-> s = NewPNIServiceID u.
Proof.
  unfold is_pni. rewrite andb_true_iff, !bool_decide_eq_true. destruct s as [t v]. unfold NewPNIServiceID. cbn. split.
  - by intros [-> ->].
  - by intros [= -> ->].
Qed.

(** *** The three kinds of promotion *)
Lemma promote_pending_fold rev ps : forall g,
  let g' := fold_left (promote_pending rev) ps g in
  grp_Members g' = grp_Members g ++ map (fun p => mkMember (km_ACI p) GroupMember_DEFAULT (km_ProfileKey p) rev) ps /\
  pending_ids g' = pending_ids g ∖ list_to_set (map (fun p => NewACIServiceID (km_ACI p)) ps) /\
  grp_RequestingMembers g' = grp_RequestingMembers g.
Proof.
  induction ps as [|p ps IH]; intros g; cbn [fold_left map list_to_set].
  - rewrite app_nil_r. split_and!; [done|set_solver|done].
  - destruct (IH (promote_pending rev g p)) as (-> & -> & ->). split_and!.
    + cbn. by rewrite <- app_assoc.
    + assert (H : pending_ids (promote_pending rev g p) = pending_ids g ∖ {[NewACIServiceID (km_ACI p)]}); [|rewrite H; set_solver].
      apply set_eq. intros s. unfold pending_ids. cbn. rewrite elem_of_difference, !elem_of_list_to_set, !list_elem_of_fmap, elem_of_singleton.
      setoid_rewrite elem_of_DeleteFunc. setoid_rewrite <- not_true_iff_false. setoid_rewrite is_aci_true. naive_solver.
    + done.
Qed.

Lemma promote_pni_aci_fold rev ps : forall g,
  let g' := fold_left (promote_pni_aci rev) ps g in
  grp_Members g' = grp_Members g ++ map (fun p => mkMember (pp_ACI p) GroupMember_DEFAULT (pp_ProfileKey p) rev) ps /\
  pending_ids g' = pending_ids g ∖ list_to_set (map (fun p => NewACIServiceID (pp_ACI p)) ps ++ map (fun p => NewPNIServiceID (pp_PNI p)) ps) /\
  grp_RequestingMembers g' = grp_RequestingMembers g.
Proof.
  induction ps as [|p ps IH]; intros g; cbn [fold_left map list_to_set app].
  - rewrite app_nil_r. split_and!; [done|set_solver|done].
  - destruct (IH (promote_pni_aci rev g p)) as (-> & -> & ->). split_and!.
    + cbn. by rewrite <- app_assoc.
    + assert (H : pending_ids (promote_pni_aci rev g p) = pending_ids g ∖ {[NewACIServiceID (pp_ACI p); NewPNIServiceID (pp_PNI p)]});
        [|rewrite H; rewrite !list_to_set_app_L; cbn [list_to_set]; set_solver].
      apply set_eq. intros s. unfold pending_ids. cbn. rewrite elem_of_difference, !elem_of_list_to_set, !list_elem_of_fmap, elem_of_union, !elem_of_singleton.
      setoid_rewrite elem_of_DeleteFunc. setoid_rewrite <- not_true_iff_false. setoid_rewrite orb_true_iff.
      setoid_rewrite is_aci_true. setoid_rewrite is_pni_true. naive_solver.
    + done.
Qed.

Lemma request_key_delete aci aci' l : aci <> aci' ->
  request_key aci (DeleteFunc l (fun r => bool_decide (rm_ACI r = aci'))) = request_key aci l.
Proof.
  intros Hne. unfold request_key, DeleteFunc. generalize (fixed_zero 32). induction l as [|r l IH]; intros k; [done|].
  cbn [List.filter fold_left]. case_bool_decide as Hr; cbn [negb fold_left].
  - rewrite IH. by rewrite bool_decide_false by congruence.
  - apply IH.
Qed.

Lemma promote_requesting_fold rev ps : NoDup (map ro_ACI ps) -> forall g,
  let g' := fold_left (promote_requesting rev) ps g in
  grp_Members g' = grp_Members g ++
    map (fun p => mkMember (ro_ACI p) (ro_Role p) (request_key (ro_ACI p) (grp_RequestingMembers g)) rev) ps /\
  requesting_ids g' = requesting_ids g ∖ list_to_set (map ro_ACI ps) /\
  grp_PendingMembers g' = grp_PendingMembers g.
Proof.
  induction ps as [|p ps IH]; intros Hnd g; cbn [fold_left map list_to_set].
  - rewrite app_nil_r. split_and!; [done|set_solver|done].
  - apply NoDup_cons in Hnd as [Hp Hnd]. destruct (IH Hnd (promote_requesting rev g p)) as (-> & -> & ->). split_and!.
    + cbn. rewrite <- app_assoc. cbn [app]. do 2 f_equal. apply map_ext_in. intros q Hq. f_equal.
      apply request_key_delete. intros E. apply Hp. rewrite <- E. apply list_elem_of_In in Hq. by apply list_elem_of_fmap_2.
    + assert (H : requesting_ids (promote_requesting rev g p) = requesting_ids g ∖ {[ro_ACI p]}); [|rewrite H; set_solver].
      apply set_eq. intros u. unfold requesting_ids. cbn. rewrite elem_of_difference, !elem_of_list_to_set, !list_elem_of_fmap, elem_of_singleton.
      setoid_rewrite elem_of_DeleteFunc. setoid_rewrite bool_decide_eq_false. naive_solver.
    + done.
Qed.

(** *** The roster under list operations *)
Lemma roster_app l1 l2 : roster (l1 ++ l2) = roster l1 ∪ roster l2.
Proof. unfold roster. by rewrite map_app, list_to_map_app. Qed.

Lemma roster_update aci f h l : (forall m, gm_ACI (f m) = gm_ACI m) ->
  (forall m, (gm_Role (f m), gm_ProfileKey (f m)) = h (gm_Role m, gm_ProfileKey m)) ->
  roster (update_member aci f l) = alter h aci (roster l).
Proof.
  intros Ha Hf. induction l as [|m l IH].
  - cbn. apply map_eq. intros k. destruct (decide (k = aci)) as [->|]; rewrite ?lookup_alter_eq, ?lookup_alter_ne by done; done.
  - cbn [update_member]. case_bool_decide as E; unfold roster in *; cbn [map]; rewrite !list_to_map_cons.
    + rewrite Ha, Hf, E. cbn [fst snd]. apply map_eq. intros k. destruct (decide (k = aci)) as [->|].
      * by rewrite lookup_alter_eq, !lookup_insert_eq.
      * by rewrite lookup_alter_ne, !lookup_insert_ne by done.
    + rewrite IH. by rewrite alter_insert_ne by done.
Qed.

Lemma roster_delete (us : list UUID) l :
  roster (DeleteFunc l (fun m => existsb (fun u => bool_decide (u = gm_ACI m)) us)) = filter (fun kv => kv.1 ∉ us) (roster l).
Proof.
  assert (Hex : forall m, existsb (fun u => bool_decide (u = gm_ACI m)) us = bool_decide (gm_ACI m ∈ us)).
  { intros m. apply eq_bool_prop_intro. rewrite !Is_true_true, bool_decide_eq_true, existsb_exists.
    setoid_rewrite bool_decide_eq_true. setoid_rewrite <- list_elem_of_In. naive_solver. }
  induction l as [|m l IH]; [done|]. unfold DeleteFunc in *. cbn [List.filter]. rewrite Hex.
  unfold roster in *. cbn [map]. rewrite list_to_map_cons. case_bool_decide as E; cbn [negb].
  - rewrite IH, map_filter_insert_False; [|cbn; intros H; by apply H]. apply map_eq. intros k. apply option_eq. intros v.
    rewrite !map_lookup_filter_Some, lookup_delete_Some. cbn. naive_solver.
  - cbn [map]. rewrite list_to_map_cons, IH, map_filter_insert_True by done. done.
Qed.

Lemma roster_fold_update {B} (key : B -> UUID) (f : B -> GroupMember -> GroupMember) (h : B -> Z * fixed 32 -> Z * fixed 32) bs :
  (forall b m, gm_ACI (f b m) = gm_ACI m) ->
  (forall b m, (gm_Role (f b m), gm_ProfileKey (f b m)) = h b (gm_Role m, gm_ProfileKey m)) ->
  forall l, roster (fold_left (fun l b => update_member (key b) (f b) l) bs l) =
    fold_left (fun R b => alter (h b) (key b) R) bs (roster l).
Proof.
  intros Ha Hf. induction bs as [|b bs IH]; intros l; [done|]. cbn [fold_left]. rewrite IH. f_equal. apply roster_update; auto.
Qed.

Lemma update_member_acis aci f l : (forall m, gm_ACI (f m) = gm_ACI m) -> map gm_ACI (update_member aci f l) = map gm_ACI l.
Proof. intros Ha. induction l as [|m l IH]; [done|]. cbn [update_member]. case_bool_decide; cbn [map]; [by rewrite Ha|by rewrite IH]. Qed.

Lemma fold_update_acis {B} (key : B -> UUID) (f : B -> GroupMember -> GroupMember) bs : (forall b m, gm_ACI (f b m) = gm_ACI m) ->
  forall l, map gm_ACI (fold_left (fun l b => update_member (key b) (f b) l) bs l) = map gm_ACI l.
Proof. intros Ha. induction bs as [|b bs IH]; intros l; [done|]. cbn [fold_left]. rewrite IH. by apply update_member_acis. Qed.

Lemma NoDup_DeleteFunc {A B} (f : A -> B) l del : NoDup (map f l) -> NoDup (map f (DeleteFunc l del)).
Proof.
  unfold DeleteFunc. induction l as [|x l IH]; [done|]. cbn [map List.filter]. intros [Hx Hnd]%NoDup_cons.
  destruct (del x); cbn [negb]; [by apply IH|]. cbn [map]. apply NoDup_cons. split; [|by apply IH].
  intros H. apply Hx. apply list_elem_of_fmap in H as (y & -> & Hy). apply elem_of_DeleteFunc in Hy as [Hy _]. by apply list_elem_of_fmap_2.
Qed.

(** The member list after [apply_pending] and [apply_requesting]. *)
Lemma apply_joined change g : NoDup (map ro_ACI (gch_PromoteRequestingMembers change)) ->
  let g' := apply_requesting change (apply_pending change g) in
  let requests := grp_RequestingMembers g ++ gch_AddRequestingMembers change in
  grp_Members g' ++ map am_Member (gch_AddMembers change) = grp_Members g ++ joined change requests /\
  pending_ids g' = ((pending_ids g ∪ list_to_set (map pm_ServiceID (gch_AddPendingMembers change))) ∖ promoted_ids change)
    ∖ list_to_set (gch_DeletePendingMembers change) /\
  requesting_ids g' = ((requesting_ids g ∪ list_to_set (map rm_ACI (gch_AddRequestingMembers change)))
    ∖ list_to_set (map ro_ACI (gch_PromoteRequestingMembers change))) ∖ list_to_set (gch_DeleteRequestingMembers change).
Proof.
  intros Hnd. unfold apply_requesting, apply_pending, joined, promoted_ids. cbv zeta.
  set (g1 := set_PendingMembers (grp_PendingMembers g ++ gch_AddPendingMembers change) g).
  destruct (promote_pending_fold (gch_Revision change) (gch_PromotePendingMembers change) g1) as (M1 & P1 & R1).
  set (g2 := fold_left (promote_pending _) _ g1) in *.
  destruct (promote_pni_aci_fold (gch_Revision change) (gch_PromotePendingPniAciMembers change) g2) as (M2 & P2 & R2).
  set (g3 := fold_left (promote_pni_aci _) _ g2) in *.
  set (g4 := set_PendingMembers (DeleteFunc _ _) g3).
  set (g5 := set_RequestingMembers (grp_RequestingMembers g4 ++ gch_AddRequestingMembers change) g4).
  destruct (promote_requesting_fold (gch_Revision change) (gch_PromoteRequestingMembers change) Hnd g5) as (M3 & R3 & P3).
  set (g6 := fold_left (promote_requesting _) _ g5) in *. split_and!.
  - cbn [grp_Members set_RequestingMembers]. rewrite M3. cbn [g5 g4 grp_Members grp_RequestingMembers set_RequestingMembers set_PendingMembers].
    rewrite M2, M1, R2, R1. cbn [g1 grp_Members grp_RequestingMembers set_PendingMembers]. by rewrite <- !app_assoc.
  - assert (E : pending_ids g6 = pending_ids g4) by (unfold pending_ids; by rewrite P3).
    change (pending_ids (set_RequestingMembers _ g6)) with (pending_ids g6). rewrite E.
    assert (H4 : pending_ids g4 = pending_ids g3 ∖ list_to_set (gch_DeletePendingMembers change))
      by apply (ids_DeleteFunc pm_ServiceID).
    assert (H1 : pending_ids g1 = pending_ids g ∪ list_to_set (map pm_ServiceID (gch_AddPendingMembers change)))
      by (unfold pending_ids; cbn [g1 grp_PendingMembers set_PendingMembers]; by rewrite map_app, list_to_set_app_L).
    rewrite H4, P2, P1, H1. rewrite !list_to_set_app_L. set_solver.
  - transitivity (requesting_ids g6 ∖ list_to_set (gch_DeleteRequestingMembers change)); [apply (ids_DeleteFunc rm_ACI)|].
    rewrite R3. do 2 f_equal. unfold requesting_ids. cbn [g5 g4 grp_RequestingMembers set_RequestingMembers set_PendingMembers].
    rewrite R2, R1, map_app, list_to_set_app_L. done.
Qed.

(** The fields the lists' changes leave alone. *)
Definition same_frame (a b : Group) : Prop :=
  grp_MasterKey a = grp_MasterKey b /\ grp_Identifier a = grp_Identifier b /\ grp_Title a = grp_Title b /\
  grp_Description a = grp_Description b /\ grp_AnnouncementsOnly a = grp_AnnouncementsOnly b /\ grp_BannedMembers a = grp_BannedMembers b.

#[local] Instance same_frame_preorder : PreOrder same_frame.
Proof. unfold same_frame. split; [done|]. intros x y z. naive_solver congruence. Qed.

Lemma fold_same_frame {B} (f : Group -> B -> Group) l : (forall x b, same_frame (f x b) x) -> forall x, same_frame (fold_left f l x) x.
Proof. intros Hs. induction l as [|b l IH]; intros x; [done|]. cbn [fold_left]. by transitivity (f x b). Qed.

Lemma apply_joined_frame change g : same_frame (apply_requesting change (apply_pending change g)) g.
Proof.
  unfold apply_requesting, apply_pending. cbv zeta.
  etransitivity; [by unfold same_frame, set_RequestingMembers|]. etransitivity; [by apply fold_same_frame|].
  etransitivity; [by unfold same_frame, set_RequestingMembers|]. etransitivity; [by unfold same_frame, set_PendingMembers|].
  etransitivity; [by apply fold_same_frame|]. etransitivity; [by apply fold_same_frame|]. by unfold same_frame, set_PendingMembers.
Qed.

(** The lists of a group after a change. *)
Lemma apply_change_lists change g g' : apply_change (E := group_error) change g = Ok g' ->
  NoDup (map ro_ACI (gch_PromoteRequestingMembers change)) ->
  let requests := grp_RequestingMembers g ++ gch_AddRequestingMembers change in
  roster (grp_Members g') = changed_roster change requests (roster (grp_Members g)) /\
  pending_ids g' = ((pending_ids g ∪ list_to_set (map pm_ServiceID (gch_AddPendingMembers change))) ∖ promoted_ids change)
    ∖ list_to_set (gch_DeletePendingMembers change) /\
  requesting_ids g' = ((requesting_ids g ∪ list_to_set (map rm_ACI (gch_AddRequestingMembers change)))
    ∖ list_to_set (map ro_ACI (gch_PromoteRequestingMembers change))) ∖ list_to_set (gch_DeleteRequestingMembers change) /\
  banned_ids g' = (banned_ids g ∪ list_to_set (map bm_ServiceID (gch_AddBannedMembers change)))
    ∖ list_to_set (gch_DeleteBannedMembers change).
Proof.
  intros H Hreq requests. destruct (apply_joined change g Hreq) as (Hm & Hp & Hr).
  unfold apply_change, apply_attributes in H. apply obind_Ok_inv in H as (ac & _ & H). apply Ok_inj in H as <-.
  set (g1 := apply_requesting change (apply_pending change g)) in *.
  destruct (apply_joined_frame change g) as (_ & _ & _ & _ & _ & F6). fold g1 in F6.
  cbn [grp_Members apply_banned set_BannedMembers apply_members set_Members]. rewrite Hm. split_and!.
  - unfold changed_roster. rewrite roster_delete.
    rewrite (roster_fold_update km_ACI (fun pk => set_ProfileKey (km_ProfileKey pk)) (fun pk v => (v.1, km_ProfileKey pk))) by done.
    rewrite (roster_fold_update ro_ACI (fun rm => set_Role (ro_Role rm)) (fun rm v => (ro_Role rm, v.2))) by done.
    by rewrite roster_app.
  - rewrite <- Hp. done.
  - rewrite <- Hr. done.
  - unfold banned_ids. rewrite <- F6, <- list_to_set_app_L, <- map_app. apply (ids_DeleteFunc bm_ServiceID).
Qed.

(** Applying a group change to a cached group does to its lists what the
    change means: the roster (ACI to role and profile key) gains the promoted
    and added members, gets the new roles and keys and loses the deleted
    members; the pending, requesting and banned sets gain the added and lose
    the promoted and deleted entries; the attributes that are set are
    replaced, the identity of the group stays, and no member is listed twice
    when no joining member was one already. *)
Theorem apply_change_correct change g g'
  (H : apply_change (E := group_error) change g = Ok g')
  (Hreq : NoDup (map ro_ACI (gch_PromoteRequestingMembers change))) :
  let requests := grp_RequestingMembers g ++ gch_AddRequestingMembers change in
  roster (grp_Members g') = changed_roster change requests (roster (grp_Members g)) /\
  (NoDup (map gm_ACI (grp_Members g ++ joined change requests)) -> NoDup (map gm_ACI (grp_Members g'))) /\
  pending_ids g' = ((pending_ids g ∪ list_to_set (map pm_ServiceID (gch_AddPendingMembers change))) ∖ promoted_ids change)
    ∖ list_to_set (gch_DeletePendingMembers change) /\
  requesting_ids g' = ((requesting_ids g ∪ list_to_set (map rm_ACI (gch_AddRequestingMembers change)))
    ∖ list_to_set (map ro_ACI (gch_PromoteRequestingMembers change))) ∖ list_to_set (gch_DeleteRequestingMembers change) /\
  banned_ids g' = (banned_ids g ∪ list_to_set (map bm_ServiceID (gch_AddBannedMembers change)))
    ∖ list_to_set (gch_DeleteBannedMembers change) /\
  grp_Title g' = default (grp_Title g) (gch_ModifyTitle change) /\
  grp_Description g' = default (grp_Description g) (gch_ModifyDescription change) /\
  grp_AnnouncementsOnly g' = default (grp_AnnouncementsOnly g) (gch_ModifyAnnouncementsOnly change) /\
  grp_Revision g' = gch_Revision change /\
  grp_MasterKey g' = grp_MasterKey g /\ grp_Identifier g' = grp_Identifier g.
Proof.
  intros requests. destruct (apply_change_lists change g g' H Hreq) as (Lm & Lp & Lr & Lb). destruct (apply_joined change g Hreq) as (Hm & _ & _).
  unfold apply_change, apply_attributes in H. apply obind_Ok_inv in H as (ac & _ & H). apply Ok_inj in H as <-.
  set (g1 := apply_requesting change (apply_pending change g)) in *.
  destruct (apply_joined_frame change g) as (F1 & F2 & F3 & F4 & F5 & _). fold g1 in F1, F2, F3, F4, F5.
  split; [exact Lm|]. cbn [grp_Members grp_Title grp_Description grp_AnnouncementsOnly grp_Revision grp_MasterKey
    grp_Identifier apply_banned set_BannedMembers apply_members set_Members]. rewrite Hm. split_and!; try done; try congruence.
  intros Hnd. apply NoDup_DeleteFunc. rewrite (fold_update_acis km_ACI (fun pk => set_ProfileKey (km_ProfileKey pk))) by done.
  by rewrite (fold_update_acis ro_ACI (fun rm => set_Role (ro_Role rm))).
Qed.

End ChangeProofs.

(** ** Invariant of the cache *)
Section CacheProofs.
Context `{G : GroupLib} `{EN : Endorsements}.

(** [id] is the identifier of the master key [mk]. *)
Definition key_of_group (mk id : bytes) : Prop :=
  exists k gid, masterKeyToBytes (E := group_error) mk = Ok k /\ derive_group_identifier k = Some gid /\ id = BytesToGroupIdentifier (Some gid).

Definition identified (g : Group) : Prop := key_of_group (grp_MasterKey g) (grp_Identifier g).

Definition entry_ok (gc : GroupCache) (id : bytes) (c : cachedGroup) : Prop :=
  exists g, gc_heap gc !! cg_Group c = Some g /\ grp_Identifier g = id /\ identified g.

Definition cache_ok (gc : GroupCache) : Prop :=
  (forall id c, gc_data gc !! id = Some c -> entry_ok gc id c) /\
  (forall r g, gc_heap gc !! r = Some g -> (r < gc_next gc)%nat).

Lemma cache_ok_same gc gc' : gc_data gc' = gc_data gc -> gc_heap gc' = gc_heap gc -> gc_next gc' = gc_next gc -> cache_ok gc -> cache_ok gc'.
Proof. unfold cache_ok, entry_ok. intros -> -> ->. done. Qed.

Lemma cache_ok_delete id gc : cache_ok gc -> cache_ok (cache_Delete id gc).
Proof.
  intros [H1 H2]. split; [|done]. intros id' c H. cbn in H. apply lookup_delete_Some in H as [_ H]. by apply H1.
Qed.

Lemma cache_ok_new g r gc gc1 : new_group g gc = (r, gc1) -> cache_ok gc ->
  cache_ok gc1 /\ gc_heap gc1 !! r = Some g /\ gc_data gc1 = gc_data gc.
Proof.
  unfold new_group. intros [= <- <-] [H1 H2]. cbn. split_and!; [|apply lookup_insert_eq|done]. split.
  - intros id c H. destruct (H1 id c H) as (g' & Hg & Hr). exists g'. split; [|done]. cbn. rewrite lookup_insert_ne; [done|].
    intros E. apply H2 in Hg. lia.
  - intros r g' H. cbn in *. apply lookup_insert_Some in H as [[<- _]|[_ H]]; [lia|]. apply H2 in H. lia.
Qed.

Lemma cache_ok_set id c gc : entry_ok gc id c -> cache_ok gc -> cache_ok (set_data (<[id := c]> (gc_data gc)) gc).
Proof.
  intros He [H1 H2]. split; [|done]. intros id' c' H. cbn in H. apply lookup_insert_Some in H as [[<- <-]|[_ H]]; [done|]. by apply H1.
Qed.

(** Updating a group object in place keeps the cache in order as long as the
    object keeps its identity. *)
Lemma cache_ok_update r g g' gc : gc_heap gc !! r = Some g -> grp_Identifier g' = grp_Identifier g -> grp_MasterKey g' = grp_MasterKey g ->
  cache_ok gc -> cache_ok (set_heap (<[r := g']> (gc_heap gc)) gc).
Proof.
  intros Hr Hi Hk [H1 H2]. split.
  - intros id c H. destruct (H1 id c H) as (g0 & Hg & Hid & Hident). unfold entry_ok. cbn. destruct (decide (cg_Group c = r)) as [Er|Hne].
    + rewrite Er in Hg |- *. rewrite Hr in Hg. injection Hg as <-. exists g'. rewrite lookup_insert_eq. unfold identified in *. by rewrite Hi, Hk.
    + exists g0. by rewrite lookup_insert_ne.
  - intros r' x H. cbn in *. apply lookup_insert_Some in H as [[<- _]|[_ H]]; [by eapply H2|by eapply H2].
Qed.

Lemma apply_change_identity change g g' : apply_change (E := group_error) change g = Ok g' ->
  grp_Identifier g' = grp_Identifier g /\ grp_MasterKey g' = grp_MasterKey g /\ grp_Revision g' = gch_Revision change.
Proof.
  unfold apply_change, apply_attributes. intros H. apply obind_Ok_inv in H as (ac & _ & H). apply Ok_inj in H as <-.
  destruct (apply_joined_frame change g) as (F1 & F2 & _). cbn. done.
Qed.

(** The outcomes of [ApplyUpdate] for the entry it is about. *)
Lemma ApplyUpdate_cases change resp now gc gc' res : ApplyUpdate change resp now gc = (gc', res) -> res <> Panic ->
  gc' = gc /\ (forall id c, key_of_group (gch_MasterKey change) id -> gc_data gc !! id = Some c -> res = Ok tt -> gch_Revision change <= revision_of gc c) \/
  exists id, key_of_group (gch_MasterKey change) id /\
    (gc' = cache_Delete id gc \/
     exists cached g g', gc_data gc !! id = Some cached /\ gc_heap gc !! cg_Group cached = Some g /\ apply_change (E := group_error) change g = Ok g' /\
       let gc1 := set_heap (<[cg_Group cached := g']> (gc_heap gc)) gc in
       gc' = cache_Delete id gc1 \/ exists e, gc' = set_data (<[id := mkCached (cg_Group cached) e (FetchedAt cached) now]> (gc_data gc)) gc1).
Proof.
  unfold ApplyUpdate. intros H Hres.
  destruct (masterKeyToBytes (gch_MasterKey change)) as [k| |] eqn:Ek; cbn [obind] in H; [|injection H as <- <-; left; split; [done|]; done|injection H as <- <-; done].
  destruct (derive_group_identifier k) as [gid|] eqn:Eg; cbn [obind of_option] in H; [|injection H as <- <-; left; split; done].
  destruct (zk_derive k) as [gsp|]; cbn [obind of_option] in H; [|injection H as <- <-; left; split; done].
  set (id := BytesToGroupIdentifier (Some gid)) in *.
  assert (Hid : key_of_group (gch_MasterKey change) id) by (exists k, gid; done).
  assert (Huniq : forall id', key_of_group (gch_MasterKey change) id' -> id' = id)
    by (intros id' (k' & gid' & E1 & E2 & ->); unfold id; congruence).
  destruct (gc_data gc !! id) as [cached|] eqn:Ec.
  2: { injection H as <- <-. left. split; [done|]. intros id' c Hk Hc _. rewrite (Huniq _ Hk), Ec in Hc. done. }
  destruct (Z.leb_spec (gch_Revision change) (revision_of gc cached)).
  { injection H as <- <-. left. split; [done|]. intros id' c Hk Hc _. rewrite (Huniq _ Hk), Ec in Hc. by injection Hc as <-. }
  right. exists id. split; [done|].
  destruct (_ <? _); [injection H as <- <-; by left|].
  destruct (gc_heap gc !! cg_Group cached) as [g|] eqn:Eh; [|injection H as <- <-; done].
  destruct (apply_change change g) as [g'| |] eqn:Ea; [| |injection H as <- <-; done].
  2: { exfalso. unfold apply_change, apply_attributes, apply_access in Ea. by repeat case_match. }
  right. exists cached, g, g'. split_and!; [done..|]. cbv zeta.
  destruct (ReceiveWithServiceIDs _ _ _ _ _) as [[en me]| |]; [|injection H as <- <-; by left|injection H as <- <-; done].
  destruct (GetExpiration resp); injection H as <- <-; [right; eexists; reflexivity|by left].
Qed.

Lemma ApplyUpdate_ok change resp now gc gc' res : ApplyUpdate change resp now gc = (gc', res) -> res <> Panic -> cache_ok gc -> cache_ok gc'.
Proof.
  intros H Hres Hok. destruct (ApplyUpdate_cases _ _ _ _ _ _ H Hres) as [[-> _]|(id & Hid & [->|(cached & g & g' & Hc & Hh & Ha & Hcase)])];
    [done|by apply cache_ok_delete|].
  destruct (apply_change_identity _ _ _ Ha) as (Hi & Hk & _).
  pose proof (cache_ok_update _ _ _ _ Hh Hi Hk Hok) as Hok1. destruct Hcase as [->|(e & ->)]; [by apply cache_ok_delete|].
  apply (cache_ok_set id (mkCached (cg_Group cached) e (FetchedAt cached) now) _) in Hok1; [done|].
  exists g'. cbn. rewrite lookup_insert_eq. destruct Hok as [H1 _]. destruct (H1 id cached Hc) as (g0 & Hg0 & Hid0 & Hident).
  rewrite Hh in Hg0. injection Hg0 as <-. unfold identified in *. rewrite Hi, Hk. done.
Qed.

Lemma cache_Put_ok r g resp now gc gc' res : cache_Put r resp now gc = (gc', res) -> gc_heap gc !! r = Some g -> identified g ->
  cache_ok gc -> cache_ok gc'.
Proof.
  unfold cache_Put. intros H Hr Hg Hok. rewrite Hr in H. destruct (obind _ _) as [[[gsp ex] [en me]]| |]; [|by injection H as <- _..].
  destruct (match gc_data gc !! grp_Identifier g with Some _ => _ | None => _ end); injection H as <- _; [done|].
  apply cache_ok_set; [|done]. by exists g.
Qed.

(** No two entries share a group object. *)
Lemma cache_ok_distinct gc : cache_ok gc ->
  forall id1 id2 c1 c2, gc_data gc !! id1 = Some c1 -> gc_data gc !! id2 = Some c2 -> cg_Group c1 = cg_Group c2 -> id1 = id2.
Proof.
  intros [Hok _] id1 id2 c1 c2 H1 H2 E.
  destruct (Hok _ _ H1) as (g1 & Hg1 & <- & _), (Hok _ _ H2) as (g2 & Hg2 & <- & _). rewrite E in Hg1. congruence.
Qed.

(** The cache is never stale after a change: once [ApplyUpdate] has
    returned without an error, an entry that is left for the changed group
    has at least the revision of the change; whatever it returned, all other
    entries and their groups are as before. *)
Theorem update_never_stale gc change resp now gc' res
  (Hok : cache_ok gc) (H : ApplyUpdate change resp now gc = (gc', res)) (Hres : res <> Panic) :
  (res = Ok tt -> forall id c', key_of_group (gch_MasterKey change) id -> gc_data gc' !! id = Some c' ->
    gch_Revision change <= revision_of gc' c') /\
  (forall id c, ~ key_of_group (gch_MasterKey change) id -> gc_data gc !! id = Some c ->
    gc_data gc' !! id = Some c /\ gc_heap gc' !! cg_Group c = gc_heap gc !! cg_Group c).
Proof.
  assert (Huniq : forall id1 id2, key_of_group (gch_MasterKey change) id1 -> key_of_group (gch_MasterKey change) id2 -> id1 = id2)
    by (intros id1 id2 (k1 & g1 & E1 & E2 & ->) (k2 & g2 & E3 & E4 & ->); congruence).
  destruct (ApplyUpdate_cases _ _ _ _ _ _ H Hres) as [[-> Hst]|(id & Hid & Hcase)].
  { split; [|done]. intros Hr id c' Hk Hc. by eapply Hst. }
  assert (Hother : forall id', ~ key_of_group (gch_MasterKey change) id' -> id' <> id) by (intros id' Hn ->; done).
  destruct Hcase as [->|(cached & g & g' & Hc & Hh & Ha & Hcase)].
  { split; [|intros id' c Hn Hc; split; [|done]; cbn; rewrite lookup_delete_ne; [done|intros <-; done]].
    intros _ id' c' Hk Hc. rewrite (Huniq _ _ Hk Hid) in Hc. cbn in Hc. by rewrite lookup_delete_eq in Hc. }
  destruct (apply_change_identity _ _ _ Ha) as (_ & _ & Hrev).
  assert (Hheap : forall id' c, ~ key_of_group (gch_MasterKey change) id' -> gc_data gc !! id' = Some c -> cg_Group cached <> cg_Group c).
  { intros id' c Hn Hc' E. destruct Hok as [Hok _]. destruct (Hok _ _ Hc) as (g1 & Hg1 & E1 & _), (Hok _ _ Hc') as (g2 & Hg2 & E2 & _).
    apply Hn. rewrite <- E2. rewrite E in Hg1. rewrite Hg1 in Hg2. injection Hg2 as <-. by rewrite E1. }
  destruct Hcase as [->|(e & ->)]; (split; [intros _ id' c' Hk Hc'; rewrite (Huniq _ _ Hk Hid) in Hc'; cbn in Hc'|
    intros id' c Hn Hc'; cbn; split; [|by rewrite lookup_insert_ne by (by eapply Hheap)]]).
  - by rewrite lookup_delete_eq in Hc'.
  - rewrite lookup_delete_ne; [done|intros <-; done].
  - rewrite lookup_insert_eq in Hc'. injection Hc' as <-. unfold revision_of. cbn. rewrite lookup_insert_eq. lia.
  - rewrite lookup_insert_ne; [done|intros <-; done].
Qed.

End CacheProofs.
