(* ===== verification/GroupChanges.v ===== *)
(** Changes of groups: decryption of incoming group changes, encryption of
    outgoing ones ([pkg/signalmeow/groups.go]).

    The client's state is the recipient table, the stored master keys, the
    group cache, the requests and updates it has sent, and the network, which
    answers requests. *)
From S2P Require Import Prelude GoLib ServiceId Crypto Storage ChatSettings RecipientStore StorageSync Groups GroupCache.

(** ** Messages *)

Record pb_ProfileKeyAction := mkKeyAction { pka_UserId : bytes; pka_ProfileKey : bytes; pka_Presentation : bytes }.

Record pb_Actions := mkActions {
  act_SourceUserId : bytes;
  act_Version : Z;
  act_AddMembers : list (option pb_Member * bool);
  act_DeleteMembers : list bytes;
  act_ModifyMemberRoles : list (bytes * Z);
  act_ModifyMemberProfileKeys : list pb_ProfileKeyAction;
  act_AddMembersPendingProfileKey : list (option pb_MemberPendingProfileKey);
  act_DeleteMembersPendingProfileKey : list bytes;
  act_PromoteMembersPendingProfileKey : list pb_ProfileKeyAction;
  act_ModifyTitle : option bytes;
  act_ModifyAvatar : option bytes;
  act_ModifyDisappearingMessageTimer : option bytes;
  act_ModifyAttributesAccess : option Z;
  act_ModifyMemberAccess : option Z;
  act_ModifyAddFromInviteLinkAccess : option Z;
  act_AddMembersPendingAdminApproval : list (option pb_MemberPendingAdminApproval);
  act_DeleteMembersPendingAdminApproval : list bytes;
  act_PromoteMembersPendingAdminApproval : list (bytes * Z);
  act_ModifyInviteLinkPassword : option bytes;
  act_ModifyDescription : option bytes;
  act_ModifyAnnouncementsOnly : option bool;
  act_AddMembersBanned : list (option pb_MemberBanned);
  act_DeleteMembersBanned : list bytes;
  (** with the encrypted PNI *)
  act_PromoteMembersPendingPniAciProfileKey : list (pb_ProfileKeyAction * bytes)
}.

(** A signed change: the serialised actions and the server's signature. *)
Record pb_GroupChange := mkPbGroupChange { pgc_Actions : bytes; pgc_ServerSignature : bytes }.

(** [GroupResponse] and [GroupChangeResponse]: the message and the endorsements. *)
Record pb_GroupResponse := mkGroupResponse { pgr_Group : option pb_Group; pgr_Endorsements : bytes }.
Record pb_GroupChangeResponse := mkGroupChangeResponse { pcr_GroupChange : option pb_GroupChange; pcr_Endorsements : bytes }.

Class GroupWire : Type := {
  marshal_actions : pb_Actions -> option bytes;
  unmarshal_actions : bytes -> option pb_Actions;
  marshal_group_change : option pb_GroupChange -> option bytes;
  unmarshal_group_change : bytes -> option pb_GroupChange;
  unmarshal_group_response : bytes -> option pb_GroupResponse;
  unmarshal_change_response : bytes -> option pb_GroupChangeResponse;
  marshal_group : pb_Group -> option bytes
}.

(** ** The client *)

(** A response: status, and a body that may be nil ([None]) or fail to be
    read ([Some None]). *)
Record http_response := mkResponse { resp_Status : Z; resp_Body : option (option bytes) }.
Record web_request := mkWebRequest { wr_Method : bytes; wr_Path : bytes; wr_Username : bytes; wr_Password : bytes; wr_Body : bytes }.

Record GroupContextV2 := mkGroupContext { gctx_MasterKey : bytes; gctx_Revision : Z; gctx_GroupChange : option bytes }.
(** A call of [sendToGroup] with a data message that holds the context. *)
Record sent_update := mkSent { sent_Recipients : list ServiceID; sent_Context : GroupContextV2; sent_Timestamp : Z; sent_GroupID : fixed 32 }.
Record sendCacheKey := mkSendKey { sck_recipient : ServiceID; sck_groupID : bytes; sck_timestamp : Z }.

Section Client.
Context `{G : GroupLib} `{EN : Endorsements} `{BP : GroupProto} `{GR : GraphicRunes} `{GW : GroupWire} `{R : Random}.
Context {W : Type}.

Record GroupClient := mkClient {
  cl_recipients : RecipientStore;
  cl_groupKeys : gmap bytes bytes;
  cl_cache : GroupCache;
  (** the HTTP requests so far *)
  cl_requests : list web_request;
  cl_sent : list sent_update;
  (** what was pushed to the ring buffer of sent messages, oldest first *)
  cl_sendCache : list (sendCacheKey * GroupContextV2);
  cl_draw : nat;
  cl_net : W
}.

Definition client (A : Type) : Type := stateE GroupClient group_error A.

Definition set_cache (c : GroupCache) (s : GroupClient) : GroupClient :=
  mkClient (cl_recipients s) (cl_groupKeys s) c (cl_requests s) (cl_sent s) (cl_sendCache s) (cl_draw s) (cl_net s).

Definition get_cache : client GroupCache := fun s => (s, Ok (cl_cache s)).
(** Run an operation of the cache. *)
Definition on_cache {A} (f : GroupCache -> GroupCache * outcome group_error A) : client A := fun s =>
  let '(c, r) := f (cl_cache s) in (set_cache c s, r).

Definition store_profile_key (aci : UUID) (k : fixed 32) : client unit :=
  smodify (fun s => mkClient (StoreProfileKey (cl_recipients s) aci k) (cl_groupKeys s) (cl_cache s) (cl_requests s) (cl_sent s) (cl_sendCache s) (cl_draw s) (cl_net s)).

(** [GenerateRandomness] and [random.Bytes] take the next draw. *)
Definition next_draw : client nat := fun s =>
  (mkClient (cl_recipients s) (cl_groupKeys s) (cl_cache s) (cl_requests s) (cl_sent s) (cl_sendCache s) (S (cl_draw s)) (cl_net s), Ok (cl_draw s)).

(** ** Decrypting a change *)

Definition decrypt_aci (params : zk_params) (userID : bytes) : outcome group_error (option UUID) :=
  decrypt_id params userID (fun s => if bool_decide (sid_Type s = ServiceIDTypeACI) then Ok (Some (sid_UUID s)) else Err WrongServiceIDKind).

Definition decrypt_role (params : zk_params) (a : bytes * Z) : outcome group_error (option RoleMember) :=
  decrypt_id params a.1 (fun s =>
    if bool_decide (sid_Type s = ServiceIDTypeACI) then Ok (Some (mkRoleMember (sid_UUID s) a.2)) else Err WrongServiceIDKind).

(** Promotions of requests do not check the kind of the ID. *)
Definition decrypt_promoted_request (params : zk_params) (a : bytes * Z) : outcome group_error (option RoleMember) :=
  decrypt_id params a.1 (fun s => Ok (Some (mkRoleMember (sid_UUID s) a.2))).

Definition decrypt_add_member (params : zk_params) (a : option pb_Member * bool) : client (option AddMember) :=
  let* m := slift (decryptMember a.1 params) in
  let* _ := store_profile_key (gm_ACI m) (gm_ProfileKey m) in
  sret (Some (mkAddMember m a.2)).

Definition decrypt_profile_key_action (params : zk_params) (a : pb_ProfileKeyAction) : client (option ProfileKeyMember) :=
  let* r := slift (decryptPKeyAndIDorPresentation (pka_UserId a) (pka_ProfileKey a) (pka_Presentation a) params) in
  let* _ := store_profile_key r.1 r.2 in
  sret (Some (mkKeyMember r.1 r.2)).

Definition decrypt_pni_aci (params : zk_params) (a : pb_ProfileKeyAction * bytes) : client (option PromotePendingPniAciMember) :=
  match to_fixed 65 a.2 with
  | None => sret None
  | Some ct =>
      let* r := slift (decryptPKeyAndIDorPresentation (pka_UserId a.1) (pka_ProfileKey a.1) (pka_Presentation a.1) params) in
      let* pni := slift (of_option DecryptServiceIDFailed (DecryptServiceID params ct)) in
      if negb (bool_decide (sid_Type pni = ServiceIDTypePNI)) then slift (Err WrongServiceIDKind)
      else
        let* _ := store_profile_key r.1 r.2 in
        sret (Some (mkPniAci r.1 r.2 (sid_UUID pni)))
  end.

Definition decrypt_add_requesting (params : zk_params) (a : option pb_MemberPendingAdminApproval) : client (option RequestingMember) :=
  let* m := slift (decryptRequestingMember a params) in
  let* _ := store_profile_key (rm_ACI m) (rm_ProfileKey m) in
  sret (Some m).

Definition decrypt_add_banned (params : zk_params) (a : option pb_MemberBanned) : outcome group_error (option BannedMember) :=
  match a with None => Ok None | Some b => decrypt_banned params b end.

(** An optional property blob, decrypted. *)
Definition decrypt_property {A} (params : zk_params) (get : GroupAttributeBlob -> A) (p : option bytes) : outcome group_error (option A) :=
  match p with
  | None => Ok None
  | Some enc => let! blob := decryptGroupPropertyIntoBlob params enc in Ok (Some (get blob))
  end.

(** The actions, in the order in which the code goes through them. *)
Definition decrypt_actions (groupMasterKey : bytes) (params : zk_params) (acts : pb_Actions) : client GroupChange :=
  let* sourceCt := slift (of_option (InvalidUserIDLength (length (act_SourceUserId acts))) (to_fixed 65 (act_SourceUserId acts))) in
  let* source := slift (of_option DecryptServiceIDFailed (DecryptServiceID params sourceCt)) in
  let* title := slift (decrypt_property params (fun b => cleanupStringProperty (GetTitle b)) (act_ModifyTitle acts)) in
  let description := match decrypt_property params (fun b => cleanupStringProperty (GetDescriptionText b)) (act_ModifyDescription acts) with
                     | Ok d => d | _ => None end in
  let* addMembers := sfor (decrypt_add_member params) (act_AddMembers acts) in
  let* deleteMembers := slift (ofor (decrypt_aci params) (act_DeleteMembers acts)) in
  let* roles := slift (ofor (decrypt_role params) (act_ModifyMemberRoles acts)) in
  let* keys := sfor (decrypt_profile_key_action params) (act_ModifyMemberProfileKeys acts) in
  let* addPending := slift (ofor (decrypt_pending params) (act_AddMembersPendingProfileKey acts)) in
  let* deletePending := slift (ofor (fun id => decrypt_id params id (fun s => Ok (Some s))) (act_DeleteMembersPendingProfileKey acts)) in
  let* promotePending := sfor (decrypt_profile_key_action params) (act_PromoteMembersPendingProfileKey acts) in
  let* pniAci := sfor (decrypt_pni_aci params) (act_PromoteMembersPendingPniAciProfileKey acts) in
  let* addRequesting := sfor (decrypt_add_requesting params) (act_AddMembersPendingAdminApproval acts) in
  let* deleteRequesting := slift (ofor (fun id => decrypt_id params id (fun s => Ok (Some (sid_UUID s)))) (act_DeleteMembersPendingAdminApproval acts)) in
  let* promoteRequesting := slift (ofor (decrypt_promoted_request params) (act_PromoteMembersPendingAdminApproval acts)) in
  let* addBanned := slift (ofor (decrypt_add_banned params) (act_AddMembersBanned acts)) in
  let* deleteBanned := slift (ofor (fun id => decrypt_id params id (fun s => Ok (Some s))) (act_DeleteMembersBanned acts)) in
  let* duration := slift (match act_ModifyDisappearingMessageTimer acts with
                          | Some timer => if (0 <? length timer)%nat
                                          then decrypt_property params GetDisappearingMessagesDuration (Some timer) else Ok None
                          | None => Ok None end) in
  sret (mkGroupChange groupMasterKey source (act_Version acts) addMembers deleteMembers roles keys addPending deletePending promotePending
    title (act_ModifyAvatar acts) duration (act_ModifyAttributesAccess acts) (act_ModifyMemberAccess acts)
    (act_ModifyAddFromInviteLinkAccess acts) addRequesting deleteRequesting promoteRequesting description
    (act_ModifyAnnouncementsOnly acts) addBanned deleteBanned pniAci
    (match act_ModifyInviteLinkPassword acts with Some p => Some (InviteLinkPasswordFromBytes p) | None => None end)).

(** The deferred eviction: the identifier of the master key, if it has one. *)
Definition evict_group (groupMasterKey : bytes) (s : GroupClient) : GroupClient :=
  match masterKeyToBytes (E := group_error) groupMasterKey with
  | Ok k => match derive_group_identifier k with
            | Some gid => set_cache (cache_Delete (BytesToGroupIdentifier (Some gid)) (cl_cache s)) s
            | None => s
            end
  | _ => s
  end.

(** The body up to [success = true]. *)
Definition decrypt_change_body (encryptedGroupChange : pb_GroupChange) (groupMasterKey : bytes) (verifySignature : bool) : client GroupChange :=
  let* _ := slift (if verifySignature then
                     let! sig := to_array 64 (pgc_ServerSignature encryptedGroupChange) in
                     if VerifySignature (pgc_Actions encryptedGroupChange) sig then Ok tt else Err SignatureFailed
                   else Ok tt) in
  let* acts := slift (of_option UnmarshalGroupChangeFailed (unmarshal_actions (pgc_Actions encryptedGroupChange))) in
  let* k := slift (masterKeyToBytes groupMasterKey) in
  let* params := slift (of_option DeriveParamsFailed (zk_derive k)) in
  decrypt_actions groupMasterKey params acts.

(** A failed change evicts the group (the deferred function itself panics on a
    key that is not one); a decrypted one is applied to the cache, without
    endorsements (an error of that is only logged). *)
Definition decryptGroupChange (now : Z) (encryptedGroupChange : pb_GroupChange) (groupMasterKey : bytes) (verifySignature : bool)
  : client GroupChange := fun s =>
  match decrypt_change_body encryptedGroupChange groupMasterKey verifySignature s with
  | (s, Ok change) =>
      match ApplyUpdate change [] now (cl_cache s) with
      | (c, Panic) => (set_cache c s, Panic)
      | (c, _) => (set_cache c s, Ok change)
      end
  | (s, r) => (evict_group groupMasterKey s, let! _ := masterKeyToBytes groupMasterKey in r)
  end.

Definition DecryptGroupChange (now : Z) (groupContext : GroupContextV2) : client GroupChange :=
  match to_fixed GroupMasterKeyLength (gctx_MasterKey groupContext) with
  | None => slift (Err (InvalidMasterKeySize (length (gctx_MasterKey groupContext))))
  | Some masterKeyBytes =>
      let* enc := slift (of_option UnmarshalGroupChangeFailed (unmarshal_group_change (default [] (gctx_GroupChange groupContext)))) in
      decryptGroupChange now enc (masterKeyFromBytes masterKeyBytes) true
  end.

(** A page of the group's history. *)
Record pb_GroupChangeState := mkPbChangeState { pcs_GroupState : option pb_Group; pcs_GroupChange : option pb_GroupChange }.

Definition decryptGroupChanges (now : Z) (changes : list pb_GroupChangeState) (groupMasterKey : bytes)
  : client (list (option Group * GroupChange)) :=
  sfor (fun st =>
    let* group := slift (match pcs_GroupState st with
                         | Some g => outmap Some (decryptGroup g groupMasterKey)
                         | None => Ok None end) in
    match pcs_GroupChange st with
    | None => slift (Err NoGroupChange)
    | Some enc => let* change := decryptGroupChange now enc groupMasterKey false in sret (Some (group, change))
    end) changes.

End Client.

(** ** Encrypting a change *)
Section Encrypt.
Context `{G : GroupLib} `{EN : Endorsements} `{BP : GroupProto} `{GR : GraphicRunes} `{GW : GroupWire} `{R : Random}.
Context {W : Type}.
(** [FetchExpiringProfileKeyCredentialById], and the account's own ACI. *)
Context (fetch_credential : UUID -> option zk_credential) (ownACI : UUID).
#[local] Abbreviation client := (client (W := W)).

Definition encrypt_id (params : zk_params) (s : ServiceID) : client bytes :=
  let* ct := slift (of_option EncryptServiceIDFailed (EncryptServiceID params s)) in
  sret (fixed_bytes ct).

Definition encryptPendingMember (pendingMember : PendingMember) (params : zk_params) : client pb_MemberPendingProfileKey :=
  let* encryptedUserID := encrypt_id params (pm_ServiceID pendingMember) in
  let* encryptedAddedBy := encrypt_id params (NewACIServiceID (pm_AddedByUserID pendingMember)) in
  sret (mkPbPending (Some (mkPbMember encryptedUserID (pm_Role pendingMember) [] [] 0)) encryptedAddedBy 0).

Definition encrypt_property (params : zk_params) (blob : option GroupAttributeBlob) : client (option bytes) :=
  match blob with
  | None => sret None
  | Some b => let* draw := next_draw in let* enc := slift (encryptBlobIntoGroupProperty draw params b) in sret (Some enc)
  end.

Definition create_presentation (params : zk_params) (cred : zk_credential) : client bytes :=
  let* draw := next_draw in
  slift (of_option CreatePresentationFailed (CreatePresentation draw params cred)).

(** A member, or a pending member when there is no credential.  The callers
    only log the error, so an error is neither. *)
Definition encryptMember (member : GroupMember) (params : zk_params) : client (option pb_Member * option pb_MemberPendingProfileKey) := fun s =>
  match fetch_credential (gm_ACI member) with
  | None =>
      match encryptPendingMember (mkPending (UserServiceID member) (gm_Role member) ownACI 0) params s with
      | (s, Ok p) => (s, Ok (None, Some p))
      | (s, Err _) => (s, Ok (None, None))
      | (s, Panic) => (s, Panic)
      end
  | Some cred =>
      match create_presentation params cred s with
      | (s, Ok presentation) => (s, Ok (Some (mkPbMember [] (gm_Role member) [] presentation 0), None))
      | (s, Err _) => (s, Ok (None, None))
      | (s, Panic) => (s, Panic)
      end
  end.

(** The two lists a loop over members appends to. *)
Definition split_members {A} (l : list (A * (option pb_Member * option pb_MemberPendingProfileKey)))
  : list (A * pb_Member) * list (option pb_MemberPendingProfileKey) :=
  (omap (fun x => match x.2.1 with Some m => Some (x.1, m) | None => None end) l,
   omap (fun x => match x.2.1 with Some _ => None | None => Some x.2.2 end) l).

(** The presentation of a user's profile key credential. *)
Definition encrypt_presentation (params : zk_params) (aci : UUID) : client bytes :=
  let* cred := slift (of_option ProfileCredentialFailed (fetch_credential aci)) in
  create_presentation params cred.

Definition smap {A B} (f : A -> client B) (l : list A) : client (list B) := sfor (fun a => let* b := f a in sret (Some b)) l.

(** The encryption part of [EncryptAndSignGroupChange].  Changes of profile
    keys and PNI promotions are not sent. *)
Definition encrypt_actions (params : zk_params) (change : GroupChange) : client pb_Actions :=
  let* title := encrypt_property params (Blob_Title <$> gch_ModifyTitle change) in
  let* description := encrypt_property params (Blob_DescriptionText <$> gch_ModifyDescription change) in
  let* members := smap (fun a => let* e := encryptMember (am_Member a) params in sret (am_JoinFromInviteLink a, e)) (gch_AddMembers change) in
  let '(added, addedPending) := split_members members in
  let* deleteMembers := smap (fun u => encrypt_id params (NewACIServiceID u)) (gch_DeleteMembers change) in
  let* roles := smap (fun rm => let* id := encrypt_id params (NewACIServiceID (ro_ACI rm)) in sret (id, ro_Role rm)) (gch_ModifyMemberRoles change) in
  let* pending := smap (fun p => let* e := encryptPendingMember p params in sret (Some e)) (gch_AddPendingMembers change) in
  let* deletePending := smap (encrypt_id params) (gch_DeletePendingMembers change) in
  let* promote := smap (fun p => let* e := encrypt_presentation params (km_ACI p) in sret (mkKeyAction [] [] e)) (gch_PromotePendingMembers change) in
  let* requesting := smap (fun r => let* e := encrypt_presentation params (rm_ACI r) in sret (Some (mkPbRequesting [] [] e 0))) (gch_AddRequestingMembers change) in
  let* deleteRequesting := smap (fun u => encrypt_id params (NewACIServiceID u)) (gch_DeleteRequestingMembers change) in
  let* promoteRequesting := smap (fun rm => let* id := encrypt_id params (NewACIServiceID (ro_ACI rm)) in sret (id, ro_Role rm)) (gch_PromoteRequestingMembers change) in
  let* banned := smap (fun b => let* id := encrypt_id params (bm_ServiceID b) in sret (Some (mkPbBanned id (bm_Timestamp b)))) (gch_AddBannedMembers change) in
  let* deleteBanned := smap (encrypt_id params) (gch_DeleteBannedMembers change) in
  let* timer := encrypt_property params (Blob_DisappearingMessagesDuration <$> gch_ModifyDisappearingMessagesDuration change) in
  sret (mkActions [] (gch_Revision change)
    (map (fun a => (Some a.2, a.1)) added) deleteMembers roles [] (addedPending ++ pending) deletePending promote
    title (gch_ModifyAvatar change) timer (gch_ModifyAttributesAccess change) (gch_ModifyMemberAccess change)
    (gch_ModifyAddFromInviteLinkAccess change) requesting deleteRequesting promoteRequesting
    (match gch_ModifyInviteLinkPassword change with Some p => Some (default [] (inviteLinkPasswordToBytes p)) | None => None end)
    description (gch_ModifyAnnouncementsOnly change) banned deleteBanned []).

(** [PrepareGroupCreation]: the master key, and the group with key and
    identifier filled in. *)
Definition PrepareGroupCreation (g : Group) : client (fixed 32 * Group) :=
  let* kg :=
    if beqb (grp_MasterKey g) [] then
      let* draw := next_draw in
      let* k := slift (to_array 32 (random_Bytes draw 32)) in
      sret (k, masterKeyFromBytes k)
    else let* k := slift (masterKeyToBytes (grp_MasterKey g)) in sret (k, grp_MasterKey g) in
  let* id := if beqb (grp_Identifier g) [] then slift (wrap_err GroupIDFailed (groupIdentifierFromMasterKey kg.2)) else sret (grp_Identifier g) in
  sret (kg.1, mkGroup kg.2 id (grp_Title g) (grp_AvatarPath g) (grp_Members g) (grp_Description g) (grp_AnnouncementsOnly g)
    (grp_Revision g) (grp_DisappearingMessagesDuration g) (grp_AccessControl g) (grp_PendingMembers g) (grp_RequestingMembers g)
    (grp_BannedMembers g) (grp_InviteLinkPassword g)).

(** A nil pending member is encoded as an empty message. *)
Definition EncryptGroup (g : Group) (params : zk_params) : client pb_Group :=
  let* title := encrypt_property params (Some (Blob_Title (grp_Title g))) in
  let* groupPublicParams := slift (of_option PublicParamsFailed (GetPublicParams params)) in
  let* description := encrypt_property params (if beqb (grp_Description g) [] then None else Some (Blob_DescriptionText (grp_Description g))) in
  let* password :=
    match grp_AccessControl g with
    | Some a => if negb (ac_AddFromInviteLink a =? AccessControl_UNSATISFIABLE)
                then let* draw := next_draw in sret (random_Bytes draw 16) else sret []
    | None => sret []
    end in
  let* members := smap (fun m => let* e := encryptMember m params in sret (tt, e)) (grp_Members g) in
  let '(added, addedPending) := split_members members in
  let* pending := smap (fun p => encryptPendingMember p params) (grp_PendingMembers g) in
  sret (mkPbGroup groupPublicParams (default [] title) (grp_AvatarPath g) []
    (match grp_AccessControl g with Some a => Some (mkPbAccess (ac_Attributes a) (ac_Members a) (ac_AddFromInviteLink a)) | None => None end)
    0 (map snd added) (map (default (mkPbPending None [] 0)) addedPending ++ pending) [] password (default [] description) (grp_AnnouncementsOnly g) []).

End Encrypt.

(** ** What other members receive
    What libsignal and protobuf promise: decryption inverts encryption, and a
    presentation reveals the user and profile key of its credential. *)
Class ZkGroupLaws (ZK : ZkGroup) : Type := {
  cred_aci : zk_credential -> UUID;
  cred_key : zk_credential -> fixed 32;
  service_id_law p s : valid_type (sid_Type s) = true ->
    exists ct, EncryptServiceID p s = Some ct /\ DecryptServiceID p ct = Some s;
  blob_law d p b : exists c, EncryptBlobWithPadding d p b = Some c /\ c <> [] /\ DecryptBlobWithPadding p c = Some b;
  presentation_law d p cred : exists pr u k, CreatePresentation d p cred = Some pr /\ pr <> [] /\
    presentation_CheckValidContents pr = true /\ presentation_UUIDCiphertext pr = Some u /\ presentation_ProfileKeyCiphertext pr = Some k /\
    DecryptServiceID p u = Some (NewACIServiceID (cred_aci cred)) /\ DecryptProfileKey p k (cred_aci cred) = Some (cred_key cred)
}.

(** Encoding fails only for strings that are not UTF-8; durations are [uint32]. *)
Definition blob_text (b : GroupAttributeBlob) : Prop :=
  match b with
  | Blob_Title s | Blob_DescriptionText s => Unicode.valid_utf8 s
  | Blob_DisappearingMessagesDuration d => 0 <= d < 2 ^ 32
  | _ => True
  end.
Class GroupProtoLaws (BP : GroupProto) : Prop := {
  blob_roundtrip b : blob_text b -> exists bs, marshal_blob b = Some bs /\ unmarshal_blob bs = Some b
}.

Section RoundTrip.
Context `{G : GroupLib} `{EN : Endorsements} `{BP : GroupProto} `{GR : GraphicRunes} `{GW : GroupWire} `{R : Random}.
Context {ZL : ZkGroupLaws ZK} {PL : GroupProtoLaws BP} {W : Type}.
Context (fetch_credential : UUID -> option zk_credential) (ownACI : UUID).
Hypothesis Hfetch : forall u c, fetch_credential u = Some c -> cred_aci c = u.
Context (params : zk_params).
#[local] Abbreviation client := (client (W := W)).

Definition has_cred (a : AddMember) : bool := isSome (fetch_credential (gm_ACI (am_Member a))).
Definition key_for (u : UUID) : fixed 32 := match fetch_credential u with Some c => cred_key c | None => fixed_zero 32 end.

(** What the members' devices make of a change that [source] sent: strings
    are cleaned up, members without a credential are invited, profile keys
    are those of the credentials, and the server fills in timestamps.  Changes
    of profile keys and promotions of phone number identities are not sent. *)
Definition received (change : GroupChange) (source : ServiceID) : GroupChange :=
  mkGroupChange (gch_MasterKey change) source (gch_Revision change)
    (map (fun a => mkAddMember (mkMember (gm_ACI (am_Member a)) (gm_Role (am_Member a)) (key_for (gm_ACI (am_Member a))) 0) (am_JoinFromInviteLink a))
       (List.filter has_cred (gch_AddMembers change)))
    (gch_DeleteMembers change) (gch_ModifyMemberRoles change) []
    (map (fun a => mkPending (UserServiceID (am_Member a)) (gm_Role (am_Member a)) ownACI 0)
       (List.filter (fun a => negb (has_cred a)) (gch_AddMembers change)) ++
     map (fun p => mkPending (pm_ServiceID p) (pm_Role p) (pm_AddedByUserID p) 0) (gch_AddPendingMembers change))
    (gch_DeletePendingMembers change)
    (map (fun p => mkKeyMember (km_ACI p) (key_for (km_ACI p))) (gch_PromotePendingMembers change))
    (cleanupStringProperty <$> gch_ModifyTitle change) (gch_ModifyAvatar change) (gch_ModifyDisappearingMessagesDuration change)
    (gch_ModifyAttributesAccess change) (gch_ModifyMemberAccess change) (gch_ModifyAddFromInviteLinkAccess change)
    (map (fun r => mkRequesting (rm_ACI r) (key_for (rm_ACI r)) 0) (gch_AddRequestingMembers change))
    (gch_DeleteRequestingMembers change) (gch_PromoteRequestingMembers change)
    (cleanupStringProperty <$> gch_ModifyDescription change) (gch_ModifyAnnouncementsOnly change)
    (gch_AddBannedMembers change) (gch_DeleteBannedMembers change) [] (gch_ModifyInviteLinkPassword change).

Definition with_source (ct : fixed 65) (a : pb_Actions) : pb_Actions :=
  mkActions (fixed_bytes ct) (act_Version a) (act_AddMembers a) (act_DeleteMembers a) (act_ModifyMemberRoles a) (act_ModifyMemberProfileKeys a)
    (act_AddMembersPendingProfileKey a) (act_DeleteMembersPendingProfileKey a) (act_PromoteMembersPendingProfileKey a) (act_ModifyTitle a)
    (act_ModifyAvatar a) (act_ModifyDisappearingMessageTimer a) (act_ModifyAttributesAccess a) (act_ModifyMemberAccess a)
    (act_ModifyAddFromInviteLinkAccess a) (act_AddMembersPendingAdminApproval a) (act_DeleteMembersPendingAdminApproval a)
    (act_PromoteMembersPendingAdminApproval a) (act_ModifyInviteLinkPassword a) (act_ModifyDescription a) (act_ModifyAnnouncementsOnly a)
    (act_AddMembersBanned a) (act_DeleteMembersBanned a) (act_PromoteMembersPendingPniAciProfileKey a).

(** An encrypted ID that decrypts to [s]. *)
Definition id_of (s : ServiceID) (b : bytes) : Prop := exists ct, b = fixed_bytes ct /\ DecryptServiceID params ct = Some s.

Lemma encrypt_id_ok s : valid_type (sid_Type s) = true -> sok (encrypt_id (W := W) params s) (id_of s).
Proof.
  intros Hv. destruct (service_id_law params s Hv) as (ct & He & Hd). unfold encrypt_id.
  eapply sok_bind; [apply (sok_lift _ ct (fun x => x = ct)); [by rewrite He|done]|]. intros ? ->. apply sok_ret. by exists ct.
Qed.

Lemma decrypt_id_ok {A} s b (k : ServiceID -> outcome group_error (option A)) : id_of s b -> decrypt_id params b k = k s.
Proof. intros (ct & -> & Hd). unfold decrypt_id. by rewrite to_fixed_bytes, Hd. Qed.

(** A presentation of the credential of [u]. *)
Definition presents (u : UUID) (pr : bytes) : Prop :=
  pr <> [] /\ decryptPKeyAndIDorPresentation [] [] pr params = Ok (u, key_for u).

Lemma create_presentation_ok u c : fetch_credential u = Some c -> sok (create_presentation (W := W) params c) (presents u).
Proof.
  intros Hc. pose proof (Hfetch _ _ Hc) as Hu. intros s. unfold create_presentation, next_draw, sbind.
  destruct (presentation_law (cl_draw s) params c) as (pr & uc & kc & H1 & H2 & H3 & H4 & H5 & H6 & H7).
  eexists _, pr. unfold slift. rewrite H1. split; [reflexivity|]. split; [done|].
  unfold decryptPKeyAndIDorPresentation. change (to_fixed 65 []) with (@None (fixed 65)). cbv iota.
  replace (0 <? length pr)%nat with true by (destruct pr; done). rewrite H3, H4, H5. cbn [negb of_option obind fst snd].
  rewrite H6. cbn [of_option obind sid_UUID NewACIServiceID]. rewrite H7. cbn [of_option obind]. unfold key_for. rewrite Hc.
  rewrite bool_decide_false by done. by rewrite Hu.
Qed.

Lemma encrypt_presentation_ok u : is_Some (fetch_credential u) -> sok (encrypt_presentation (W := W) fetch_credential params u) (presents u).
Proof.
  intros [c Hc]. unfold encrypt_presentation. eapply sok_bind; [apply (sok_lift _ c (fun x => x = c)); [by rewrite Hc|done]|].
  intros ? ->. by apply create_presentation_ok.
Qed.

Definition pending_of (p : PendingMember) (e : pb_MemberPendingProfileKey) : Prop :=
  decrypt_pending params (Some e) = Ok (Some (mkPending (pm_ServiceID p) (pm_Role p) (pm_AddedByUserID p) 0)).

Lemma encryptPendingMember_ok p : valid_type (sid_Type (pm_ServiceID p)) = true -> sok (encryptPendingMember (W := W) p params) (pending_of p).
Proof.
  intros Hv. unfold encryptPendingMember. eapply sok_bind; [by apply encrypt_id_ok|]. intros b1 (c1 & -> & H1).
  eapply sok_bind; [by apply encrypt_id_ok|]. intros b2 (c2 & -> & H2). apply sok_ret.
  unfold pending_of, decrypt_pending, decryptPendingMember. cbn [mp_Member mb_UserId mp_AddedByUserId].
  rewrite !to_fixed_bytes. cbn [of_option obind]. rewrite H1, H2. done.
Qed.

Lemma encrypt_property_ok {A} (get : GroupAttributeBlob -> A) blob : (forall b, blob = Some b -> blob_text b) ->
  sok (encrypt_property (W := W) params blob) (fun o => decrypt_property params get o = Ok (get <$> blob) /\ o <> Some []).
Proof.
  intros Ht. unfold encrypt_property. destruct blob as [b|]; [|by apply sok_ret].
  destruct (blob_roundtrip b (Ht b eq_refl)) as (bs & Hm & Hu). intros s. unfold sbind, next_draw, slift, encryptBlobIntoGroupProperty.
  destruct (blob_law (cl_draw s) params bs) as (c & He & Hne & Hd). rewrite Hm. cbn [of_option obind]. rewrite He. cbn [of_option].
  eexists _, (Some c). split; [reflexivity|]. unfold decrypt_property, decryptGroupPropertyIntoBlob. rewrite Hd. cbn [of_option obind].
  rewrite Hu. split; [done|congruence].
Qed.

(** A member that was encrypted as itself, or as an invitation. *)
Definition member_of (a : AddMember) (x : bool * (option pb_Member * option pb_MemberPendingProfileKey)) : Prop :=
  x.1 = am_JoinFromInviteLink a /\
  if has_cred a then exists pr, x.2 = (Some (mkPbMember [] (gm_Role (am_Member a)) [] pr 0), None) /\ presents (gm_ACI (am_Member a)) pr
  else exists p, x.2 = (None, Some p) /\ pending_of (mkPending (UserServiceID (am_Member a)) (gm_Role (am_Member a)) ownACI 0) p.

Lemma encryptMember_ok a :
  sok (let* e := encryptMember (W := W) fetch_credential ownACI (am_Member a) params in sret (am_JoinFromInviteLink a, e)) (member_of a).
Proof.
  eapply sok_bind.
  - instantiate (1 := fun e => member_of a (am_JoinFromInviteLink a, e)). intros s. unfold encryptMember, member_of, has_cred.
    destruct (fetch_credential (gm_ACI (am_Member a))) as [c|] eqn:Ec; cbn [isSome fst snd].
    + destruct (create_presentation_ok _ _ Ec s) as (s' & pr & -> & Hp). eexists _, _. split; [reflexivity|]. split; [done|]. by exists pr.
    + destruct (encryptPendingMember_ok (mkPending (UserServiceID (am_Member a)) (gm_Role (am_Member a)) ownACI 0) eq_refl s) as (s' & p & -> & Hp).
      eexists _, _. split; [reflexivity|]. split; [done|]. by exists p.
  - intros e He. by apply sok_ret.
Qed.

Lemma split_members_ok adds l : Forall2 member_of adds l ->
  Forall2 (fun a x => x.1 = Some (mkPbMember [] (gm_Role (am_Member a)) [] (mb_Presentation (default (mkPbMember [] 0 [] [] 0) x.1)) 0) /\
      x.2 = am_JoinFromInviteLink a /\ presents (gm_ACI (am_Member a)) (mb_Presentation (default (mkPbMember [] 0 [] [] 0) x.1)))
    (List.filter has_cred adds) (map (fun x => (Some x.2, x.1)) (split_members l).1) /\
  Forall2 (fun a x => exists p, x = Some p /\ pending_of (mkPending (UserServiceID (am_Member a)) (gm_Role (am_Member a)) ownACI 0) p)
    (List.filter (fun a => negb (has_cred a)) adds) (split_members l).2.
Proof.
  unfold split_members. cbn [fst snd]. induction 1 as [|a [j e] adds l [Hj Hm] _ [IH1 IH2]]; [done|]. cbn [List.filter omap list_omap].
  cbn [fst snd] in *. destruct (has_cred a); cbn [negb].
  - destruct Hm as (pr & -> & Hp). cbn [fst snd map]. split; [|exact IH2]. constructor; [|exact IH1]. cbn. done.
  - destruct Hm as (p & -> & Hp). cbn [fst snd map]. split; [exact IH1|]. constructor; [by exists p|exact IH2].
Qed.

Lemma smap_ok {A B} (f : A -> client B) (Rel : A -> B -> Prop) l : (forall a, a ∈ l -> sok (f a) (Rel a)) -> sok (smap (W := W) f l) (Forall2 Rel l).
Proof.
  intros H. apply sok_for. intros a Ha. eapply sok_bind; [by apply H|]. intros b Hb. apply sok_ret. by exists b.
Qed.

(** A change the client can send: IDs of a known kind, text that is UTF-8,
    members to be promoted or to request whose credential is available, and an
    invite link password in canonical base64. *)
Definition sendable (change : GroupChange) : Prop :=
  Forall (fun p => valid_type (sid_Type (pm_ServiceID p)) = true) (gch_AddPendingMembers change) /\
  Forall (fun s => valid_type (sid_Type s) = true) (gch_DeletePendingMembers change) /\
  Forall (fun b => valid_type (sid_Type (bm_ServiceID b)) = true) (gch_AddBannedMembers change) /\
  Forall (fun s => valid_type (sid_Type s) = true) (gch_DeleteBannedMembers change) /\
  Forall (fun p => is_Some (fetch_credential (km_ACI p))) (gch_PromotePendingMembers change) /\
  Forall (fun r => is_Some (fetch_credential (rm_ACI r))) (gch_AddRequestingMembers change) /\
  (forall t, gch_ModifyTitle change = Some t -> Unicode.valid_utf8 t) /\
  (forall t, gch_ModifyDescription change = Some t -> Unicode.valid_utf8 t) /\
  (forall d, gch_ModifyDisappearingMessagesDuration change = Some d -> 0 <= d < 2 ^ 32) /\
  (forall p, gch_ModifyInviteLinkPassword change = Some p -> exists raw, p = Base64.encode raw).

(** The actions are an encryption of the change. *)
Record encrypts (change : GroupChange) (acts : pb_Actions) : Prop := mkEncrypts {
  en_version : act_Version acts = gch_Revision change;
  en_added : exists l, Forall2 member_of (gch_AddMembers change) l /\
    act_AddMembers acts = map (fun x => (Some x.2, x.1)) (split_members l).1 /\
    exists l2, act_AddMembersPendingProfileKey acts = (split_members l).2 ++ l2 /\
      Forall2 (fun p e => exists e', e = Some e' /\ pending_of p e') (gch_AddPendingMembers change) l2;
  en_deleted : Forall2 (fun u => id_of (NewACIServiceID u)) (gch_DeleteMembers change) (act_DeleteMembers acts);
  en_roles : Forall2 (fun rm x => id_of (NewACIServiceID (ro_ACI rm)) x.1 /\ x.2 = ro_Role rm) (gch_ModifyMemberRoles change) (act_ModifyMemberRoles acts);
  en_keys : act_ModifyMemberProfileKeys acts = [];
  en_deletedPending : Forall2 id_of (gch_DeletePendingMembers change) (act_DeleteMembersPendingProfileKey acts);
  en_promoted : Forall2 (fun p a => exists pr, a = mkKeyAction [] [] pr /\ presents (km_ACI p) pr)
    (gch_PromotePendingMembers change) (act_PromoteMembersPendingProfileKey acts);
  en_pniAci : act_PromoteMembersPendingPniAciProfileKey acts = [];
  en_requesting : Forall2 (fun r a => exists pr, a = Some (mkPbRequesting [] [] pr 0) /\ presents (rm_ACI r) pr)
    (gch_AddRequestingMembers change) (act_AddMembersPendingAdminApproval acts);
  en_deletedRequesting : Forall2 (fun u => id_of (NewACIServiceID u)) (gch_DeleteRequestingMembers change) (act_DeleteMembersPendingAdminApproval acts);
  en_promotedRequesting : Forall2 (fun rm x => id_of (NewACIServiceID (ro_ACI rm)) x.1 /\ x.2 = ro_Role rm)
    (gch_PromoteRequestingMembers change) (act_PromoteMembersPendingAdminApproval acts);
  en_banned : Forall2 (fun b x => exists id, x = Some (mkPbBanned id (bm_Timestamp b)) /\ id_of (bm_ServiceID b) id)
    (gch_AddBannedMembers change) (act_AddMembersBanned acts);
  en_deletedBanned : Forall2 id_of (gch_DeleteBannedMembers change) (act_DeleteMembersBanned acts);
  en_title : decrypt_property params (fun b => cleanupStringProperty (GetTitle b)) (act_ModifyTitle acts)
    = Ok (cleanupStringProperty <$> gch_ModifyTitle change);
  en_description : decrypt_property params (fun b => cleanupStringProperty (GetDescriptionText b)) (act_ModifyDescription acts)
    = Ok (cleanupStringProperty <$> gch_ModifyDescription change);
  en_timer : decrypt_property params GetDisappearingMessagesDuration (act_ModifyDisappearingMessageTimer acts)
    = Ok (gch_ModifyDisappearingMessagesDuration change) /\ act_ModifyDisappearingMessageTimer acts <> Some [];
  en_plain : act_ModifyAvatar acts = gch_ModifyAvatar change /\ act_ModifyAttributesAccess acts = gch_ModifyAttributesAccess change /\
    act_ModifyMemberAccess acts = gch_ModifyMemberAccess change /\
    act_ModifyAddFromInviteLinkAccess acts = gch_ModifyAddFromInviteLinkAccess change /\
    act_ModifyAnnouncementsOnly acts = gch_ModifyAnnouncementsOnly change;
  en_password : (InviteLinkPasswordFromBytes <$> act_ModifyInviteLinkPassword acts) = gch_ModifyInviteLinkPassword change
}.

Lemma encrypt_ids_ok {A} (id : A -> ServiceID) (l : list A) : Forall (fun a => valid_type (sid_Type (id a)) = true) l ->
  sok (smap (W := W) (fun a => encrypt_id params (id a)) l) (Forall2 (fun a => id_of (id a)) l).
Proof. intros H. apply smap_ok. intros a Ha. apply encrypt_id_ok. rewrite Forall_forall in H. by apply H. Qed.

Lemma encrypt_roles_ok l :
  sok (smap (W := W) (fun rm => let* id := encrypt_id params (NewACIServiceID (ro_ACI rm)) in sret (id, ro_Role rm)) l)
    (Forall2 (fun rm x => id_of (NewACIServiceID (ro_ACI rm)) x.1 /\ x.2 = ro_Role rm) l).
Proof. apply smap_ok. intros rm _. eapply sok_bind; [by apply encrypt_id_ok|]. intros b Hb. by apply sok_ret. Qed.

Lemma encrypt_actions_ok change : sendable change -> sok (encrypt_actions (W := W) fetch_credential ownACI params change) (encrypts change).
Proof.
  intros (V1 & V2 & V3 & V4 & C1 & C2 & T1 & T2 & D & P). unfold encrypt_actions.
  rewrite Forall_forall in C1. rewrite Forall_forall in C2. rewrite Forall_forall in V1. rewrite Forall_forall in V3.
  eapply sok_bind; [apply (encrypt_property_ok (fun b => cleanupStringProperty (GetTitle b))); intros b; destruct (gch_ModifyTitle change); [intros [= <-]; cbn; auto|done]|]. intros title [Ht _].
  eapply sok_bind; [apply (encrypt_property_ok (fun b => cleanupStringProperty (GetDescriptionText b))); intros b; destruct (gch_ModifyDescription change); [intros [= <-]; cbn; auto|done]|]. intros descr [Hd _].
  eapply sok_bind; [apply (smap_ok _ member_of); intros a _; apply encryptMember_ok|]. intros members Hmem.
  destruct (split_members members) as [added addedPending] eqn:Es.
  eapply sok_bind; [apply (encrypt_ids_ok NewACIServiceID); by apply Forall_forall|]. intros del Hdel.
  eapply sok_bind; [apply encrypt_roles_ok|]. intros roles Hroles.
  eapply sok_bind; [apply (smap_ok _ (fun p e => exists e', e = Some e' /\ pending_of p e')); intros p Hp; eapply sok_bind;
    [apply encryptPendingMember_ok; by apply V1|intros e He; apply sok_ret; by exists e]|]. intros pending Hpend.
  eapply sok_bind; [by apply (encrypt_ids_ok id)|]. intros delPending HdelP.
  eapply sok_bind; [apply (smap_ok _ (fun p a => exists pr, a = mkKeyAction [] [] pr /\ presents (km_ACI p) pr)); intros p Hp; eapply sok_bind;
    [apply encrypt_presentation_ok; by apply C1|intros e He; apply sok_ret; by exists e]|]. intros promote Hprom.
  eapply sok_bind; [apply (smap_ok _ (fun r a => exists pr, a = Some (mkPbRequesting [] [] pr 0) /\ presents (rm_ACI r) pr)); intros p Hp; eapply sok_bind;
    [apply encrypt_presentation_ok; by apply C2|intros e He; apply sok_ret; by exists e]|]. intros requesting Hreq.
  eapply sok_bind; [apply (encrypt_ids_ok NewACIServiceID); by apply Forall_forall|]. intros delReq HdelR.
  eapply sok_bind; [apply encrypt_roles_ok|]. intros promReq HpromR.
  eapply sok_bind; [apply (smap_ok _ (fun b x => exists id, x = Some (mkPbBanned id (bm_Timestamp b)) /\ id_of (bm_ServiceID b) id)); intros b Hb; eapply sok_bind;
    [apply encrypt_id_ok; by apply V3|intros e He; apply sok_ret; by exists e]|]. intros banned Hban.
  eapply sok_bind; [by apply (encrypt_ids_ok id)|]. intros delBan HdelB.
  eapply sok_bind; [apply (encrypt_property_ok GetDisappearingMessagesDuration); intros b; destruct (gch_ModifyDisappearingMessagesDuration change); [intros [= <-]; cbn; auto|done]|]. intros timer [Htimer Hne].
  apply sok_ret. split; try done.
  - exists members. rewrite Es. split_and!; [done..|]. by exists pending.
  - cbn. rewrite Ht. by destruct (gch_ModifyTitle change).
  - cbn. rewrite Hd. by destruct (gch_ModifyDescription change).
  - cbn. split; [|done]. rewrite Htimer. by destruct (gch_ModifyDisappearingMessagesDuration change).
  - cbn. destruct (gch_ModifyInviteLinkPassword change) as [p|]; [|done]. destruct (P p eq_refl) as (raw & ->). cbn.
    unfold inviteLinkPasswordToBytes, InviteLinkPasswordFromBytes. by rewrite Base64.decode_encode.
Qed.

Lemma decrypt_roles_ok l acts (f : bytes * Z -> outcome group_error (option RoleMember)) :
  Forall2 (fun rm x => id_of (NewACIServiceID (ro_ACI rm)) x.1 /\ x.2 = ro_Role rm) l acts ->
  (forall x s, id_of s x.1 -> sid_Type s = ServiceIDTypeACI -> f x = Ok (Some (mkRoleMember (sid_UUID s) x.2))) ->
  ofor f acts = Ok l.
Proof.
  intros H Hf. rewrite (ofor_Forall2 _ _ id _ _ H).
  - by rewrite map_id.
  - intros rm x [Hi Hr]. rewrite (Hf _ _ Hi) by done. rewrite Hr. by destruct rm.
Qed.

Lemma decrypt_ids_ok {A B} (id : A -> ServiceID) (g : A -> B) l acts (k : ServiceID -> outcome group_error (option B)) :
  Forall2 (fun a => id_of (id a)) l acts -> (forall a, k (id a) = Ok (Some (g a))) ->
  ofor (fun b => decrypt_id params b k) acts = Ok (map g l).
Proof. intros H Hk. apply (ofor_Forall2 _ _ g _ _ H). intros a b Hb. by rewrite (decrypt_id_ok _ _ _ Hb). Qed.

Lemma ofor_app {A B} (f : A -> outcome group_error (option B)) l1 l2 r1 r2 :
  ofor f l1 = Ok r1 -> ofor f l2 = Ok r2 -> ofor f (l1 ++ l2) = Ok (r1 ++ r2).
Proof.
  revert r1. induction l1 as [|a l1 IH]; intros r1 H1 H2; [by apply Ok_inj in H1 as <-|]. cbn [ofor app] in *.
  apply obind_Ok_inv in H1 as (o & E1 & H1). apply obind_Ok_inv in H1 as (bs & E2 & H1). apply Ok_inj in H1 as <-.
  rewrite E1. cbn [obind]. rewrite (IH _ E2 H2). cbn [obind]. by destruct o.
Qed.

Lemma decrypt_added_ok change acts : encrypts change acts ->
  sok (sfor (decrypt_add_member (W := W) params) (act_AddMembers acts)) (fun l => l =
    map (fun a => mkAddMember (mkMember (gm_ACI (am_Member a)) (gm_Role (am_Member a)) (key_for (gm_ACI (am_Member a))) 0) (am_JoinFromInviteLink a))
      (List.filter has_cred (gch_AddMembers change))) /\
  ofor (decrypt_pending params) (act_AddMembersPendingProfileKey acts) = Ok
    (map (fun a => mkPending (UserServiceID (am_Member a)) (gm_Role (am_Member a)) ownACI 0)
       (List.filter (fun a => negb (has_cred a)) (gch_AddMembers change)) ++
     map (fun p => mkPending (pm_ServiceID p) (pm_Role p) (pm_AddedByUserID p) 0) (gch_AddPendingMembers change)).
Proof.
  intros He. destruct (en_added _ _ He) as (l & Hm & -> & l2 & -> & H2). destruct (split_members_ok _ _ Hm) as [Ha Hp]. split.
  - eapply sok_for_Forall2; [exact Ha|]. intros a [x j] (E & Ej & Hpr). cbn [fst snd] in *. subst j. rewrite E. destruct Hpr as [_ Hpr].
    unfold decrypt_add_member. cbn [fst snd].
    eapply sok_bind; [eapply sok_lift; [unfold decryptMember; cbn; by rewrite Hpr|by apply (eq_refl (mkMember _ _ _ _))]|].
    intros ? <-. intros s. eexists _, _. split; reflexivity.
  - apply ofor_app; eapply ofor_Forall2; [exact Hp| |exact H2|]; intros a x (p & -> & Hd); exact Hd.
Qed.

Lemma decrypt_promoted_ok l acts :
  Forall2 (fun p a => exists pr, a = mkKeyAction [] [] pr /\ presents (km_ACI p) pr) l acts ->
  sok (sfor (decrypt_profile_key_action (W := W) params) acts) (fun r => r = map (fun p => mkKeyMember (km_ACI p) (key_for (km_ACI p))) l).
Proof.
  intros H. eapply sok_for_Forall2; [exact H|]. intros p a (pr & -> & _ & Hp). unfold decrypt_profile_key_action. cbn.
  rewrite Hp. intros s. eexists _, _. split; reflexivity.
Qed.

Lemma decrypt_requested_ok l acts :
  Forall2 (fun r a => exists pr, a = Some (mkPbRequesting [] [] pr 0) /\ presents (rm_ACI r) pr) l acts ->
  sok (sfor (decrypt_add_requesting (W := W) params) acts) (fun r => r = map (fun p => mkRequesting (rm_ACI p) (key_for (rm_ACI p)) 0) l).
Proof.
  intros H. eapply sok_for_Forall2; [exact H|]. intros p a (pr & -> & _ & Hp). unfold decrypt_add_requesting, decryptRequestingMember. cbn.
  rewrite Hp. intros s. eexists _, _. split; reflexivity.
Qed.

Lemma decrypt_actions_ok change acts source ct : encrypts change acts -> DecryptServiceID params ct = Some source ->
  sok (decrypt_actions (W := W) (gch_MasterKey change) params (with_source ct acts)) (fun c => c = received change source).
Proof.
  intros He Hs. destruct (decrypt_added_ok _ _ He) as [Hadd Hpend].
  destruct He as [E1 _ E3 E4 E5 E6 E7 E8 E9 E10 E11 E12 E13 E14 E15 [E16 E17] (Q1 & Q2 & Q3 & Q4 & Q5) E18].
  unfold decrypt_actions, with_source, decrypt_aci. cbn [act_SourceUserId act_Version act_AddMembers act_DeleteMembers act_ModifyMemberRoles act_ModifyMemberProfileKeys
    act_AddMembersPendingProfileKey act_DeleteMembersPendingProfileKey act_PromoteMembersPendingProfileKey act_ModifyTitle
    act_ModifyAvatar act_ModifyDisappearingMessageTimer act_ModifyAttributesAccess act_ModifyMemberAccess
    act_ModifyAddFromInviteLinkAccess act_AddMembersPendingAdminApproval act_DeleteMembersPendingAdminApproval
    act_PromoteMembersPendingAdminApproval act_ModifyInviteLinkPassword act_ModifyDescription act_ModifyAnnouncementsOnly
    act_AddMembersBanned act_DeleteMembersBanned act_PromoteMembersPendingPniAciProfileKey].
  rewrite to_fixed_bytes, E14, E15, E5, E8, Hpend, E1, Q1, Q2, Q3, Q4, Q5.
  rewrite (decrypt_roles_ok _ _ (decrypt_role params) E4) by (intros x s Hi Ht; unfold decrypt_role; rewrite (decrypt_id_ok _ _ _ Hi); by rewrite bool_decide_true).
  rewrite (decrypt_roles_ok _ _ (decrypt_promoted_request params) E11) by (intros x s Hi _; unfold decrypt_promoted_request; by rewrite (decrypt_id_ok _ _ _ Hi)).
  rewrite (decrypt_ids_ok NewACIServiceID id _ _ _ E3) by done.
  rewrite (decrypt_ids_ok NewACIServiceID id _ _ _ E10) by done.
  rewrite (decrypt_ids_ok id id _ _ _ E6) by done. rewrite (decrypt_ids_ok id id _ _ _ E13) by done.
  rewrite (ofor_Forall2 _ (decrypt_add_banned params) id _ _ E12)
    by (intros [b t] x (i & -> & Hi); cbn; unfold decrypt_banned; by rewrite (decrypt_id_ok _ _ _ Hi)).
  rewrite !map_id. unfold received.
  replace (match act_ModifyDisappearingMessageTimer acts with Some timer => _ | None => Ok None end)
    with (Ok (E := group_error) (gch_ModifyDisappearingMessagesDuration change))
    by (rewrite <- E16; destruct (act_ModifyDisappearingMessageTimer acts) as [[|]|]; done).
  replace (match act_ModifyInviteLinkPassword acts with Some p => Some (InviteLinkPasswordFromBytes p) | None => None end)
    with (gch_ModifyInviteLinkPassword change) by (rewrite <- E18; by destruct (act_ModifyInviteLinkPassword acts)).
  eapply sok_bind; [by eapply sok_lift; [reflexivity|apply eq_refl]|]. intros ? <-. rewrite Hs.
  repeat (eapply sok_bind; [first [by eapply sok_lift; [reflexivity|apply eq_refl] | exact Hadd | by apply decrypt_promoted_ok
    | by apply decrypt_requested_ok | by eapply sok_ret; apply eq_refl]|]; first [intros ? <- | intros ? ->]).
  by apply sok_ret.
Qed.

(** C38: what a client sends is what the members receive: a sendable change is
    encrypted without an error, and a member who decrypts the actions, with
    the source the server put in, gets the same change: members without a
    profile key credential are invited instead of added, title and description
    are cleaned up, profile keys are those of the credentials; changes of
    profile keys and promotions of phone number identities are not sent. *)
Theorem change_roundtrip change source ct (Hsend : sendable change) (Hsource : DecryptServiceID params ct = Some source) :
  sok (encrypt_actions (W := W) fetch_credential ownACI params change) (fun acts =>
    sok (decrypt_actions (W := W) (gch_MasterKey change) params (with_source ct acts)) (fun c => c = received change source)).
Proof.
  intros s. destruct (encrypt_actions_ok change Hsend s) as (s' & acts & He & Hacts). exists s', acts. split; [done|].
  by apply decrypt_actions_ok.
Qed.

End RoundTrip.
