(* ===== verification/GroupUpdate.v ===== *)
(** Fetching, updating and creating groups: the client operations of
    [pkg/signalmeow/groups.go] that talk to the storage service, conflict
    resolution, and [SendGroupUpdate] of [sending.go].

    The network, libsignal's authorisation credentials and JSON are
    parameters.  A group that was fetched is an object of the cache's heap, so
    that [UpdateGroup] sees the in-place update [ApplyUpdate] makes.  One
    operation runs at one time [now] (in seconds). *)
From S2P Require Import Prelude GoLib ServiceId Crypto Storage ChatSettings RecipientStore StorageSync Groups GroupCache GroupChanges.

(** ** Conflict resolution *)
Module Conflict.

(** A slice: its backing array from the slice's start, and its length. *)
Record slice (A : Type) := mkSlice { sl_array : list A; sl_len : nat }.
Arguments mkSlice {A}. Arguments sl_array {A}. Arguments sl_len {A}.
Definition of_list {A} (l : list A) : slice A := mkSlice l (length l).
Definition contents {A} (s : slice A) : list A := take (sl_len s) (sl_array s).

(** [append(s[:i], s[i+1:]...)]: the array is shifted in place; [s[i+1:]] is
    out of range when [i] is not below the length. *)
Definition remove_at {A} (i : nat) (s : slice A) : outcome group_error (slice A) :=
  if (i <? sl_len s)%nat
  then Ok (mkSlice (take i (sl_array s) ++ drop (S i) (contents s) ++ drop (Nat.pred (sl_len s)) (sl_array s)) (Nat.pred (sl_len s)))
  else Panic.

(** The iterations [i], [i+1], ... of [for i, x := range s { if del(x) { s = append(s[:i], s[i+1:]...) } }]:
    [n] are left; the range is over the slice as it was, elements are read
    from the array as it is. *)
Fixpoint range_remove {A} (del : A -> bool) (n i : nat) (s : slice A) : outcome group_error (slice A) :=
  match n with
  | O => Ok s
  | S n =>
      match sl_array s !! i with
      | None => Panic
      | Some x => let! s := (if del x then remove_at i s else Ok s) in range_remove del n (S i) s
      end
  end.

Definition filter_slice {A} (del : A -> bool) (l : list A) : outcome group_error (list A) :=
  outmap contents (range_remove del (length l) 0 (of_list l)).

(** [for i, x := range xs { if del(x) { s = append(s[:i], s[i+1:]...) } }] on another slice. *)
Fixpoint remove_where {A B} (del : B -> bool) (i : nat) (xs : list B) (s : slice A) : outcome group_error (slice A) :=
  match xs with
  | [] => Ok s
  | x :: xs => let! s := (if del x then remove_at i s else Ok s) in remove_where del (S i) xs s
  end.

Definition isEmpty (groupChange : GroupChange) : bool :=
  bool_decide (gch_AddMembers groupChange = []) && bool_decide (gch_DeleteMembers groupChange = []) &&
  bool_decide (gch_ModifyMemberRoles groupChange = []) && bool_decide (gch_ModifyMemberProfileKeys groupChange = []) &&
  bool_decide (gch_AddPendingMembers groupChange = []) && bool_decide (gch_PromotePendingMembers groupChange = []) &&
  negb (isSome (gch_ModifyTitle groupChange)) && negb (isSome (gch_ModifyAvatar groupChange)) &&
  negb (isSome (gch_ModifyDisappearingMessagesDuration groupChange)) && negb (isSome (gch_ModifyAttributesAccess groupChange)) &&
  negb (isSome (gch_ModifyMemberAccess groupChange)) && negb (isSome (gch_ModifyAddFromInviteLinkAccess groupChange)) &&
  bool_decide (gch_AddRequestingMembers groupChange = []) && bool_decide (gch_DeleteRequestingMembers groupChange = []) &&
  bool_decide (gch_PromoteRequestingMembers groupChange = []) && negb (isSome (gch_ModifyDescription groupChange)) &&
  negb (isSome (gch_ModifyAnnouncementsOnly groupChange)) && bool_decide (gch_AddBannedMembers groupChange = []).

(** [*p]: a nil pointer panics. *)
Definition deref {A} (p : option A) : outcome group_error A := match p with Some a => Ok a | None => Panic end.

(** A pointer to a value the group already has is set to nil. *)
Definition clear_if {A} (b : bool) (p : option A) : option A := if b then None else p.

Definition resolveConflict (groupChange : GroupChange) (group : Group) : outcome group_error GroupChange :=
  let! title := deref (gch_ModifyTitle groupChange) in
  let! description := deref (gch_ModifyDescription groupChange) in
  let! avatar := deref (gch_ModifyAvatar groupChange) in
  let! duration := deref (gch_ModifyDisappearingMessagesDuration groupChange) in
  let! attributes := deref (gch_ModifyAttributesAccess groupChange) in
  let! access := deref (grp_AccessControl group) in
  let! memberAccess := deref (gch_ModifyMemberAccess groupChange) in
  let! linkAccess := deref (gch_ModifyAddFromInviteLinkAccess groupChange) in
  let! announcements := deref (gch_ModifyAnnouncementsOnly groupChange) in
  let members : gmap UUID Z := fold_left (fun m g => <[gm_ACI g := gm_Role g]> m) (grp_Members group) ∅ in
  let pendingMembers : gset ServiceID := list_to_set (map pm_ServiceID (grp_PendingMembers group)) in
  let requestingMembers : gset UUID := list_to_set (map rm_ACI (grp_RequestingMembers group)) in
  let! addMembers := filter_slice (fun m => isSome (members !! gm_ACI (am_Member m))) (gch_AddMembers groupChange) in
  let! promotePending := filter_slice (fun p => isSome (members !! km_ACI p)) (gch_PromotePendingMembers groupChange) in
  let! promoteRequesting := outmap contents (remove_where (fun p => isSome (members !! km_ACI p)) 0 promotePending
                              (of_list (gch_PromoteRequestingMembers groupChange))) in
  let! addPending := filter_slice (fun p => bool_decide (pm_ServiceID p ∈ pendingMembers)) (gch_AddPendingMembers groupChange) in
  let! addRequesting := filter_slice (fun r => bool_decide (rm_ACI r ∈ requestingMembers)) (gch_AddRequestingMembers groupChange) in
  let! deletePending := filter_slice (fun s => negb (bool_decide (s ∈ pendingMembers))) (gch_DeletePendingMembers groupChange) in
  let! deleteRequesting := filter_slice (fun u => negb (bool_decide (u ∈ requestingMembers))) (gch_DeleteRequestingMembers groupChange) in
  let! deleteMembers := filter_slice (fun u => negb (isSome (members !! u))) (gch_DeleteMembers groupChange) in
  let! roles := filter_slice (fun rm => default GroupMember_UNKNOWN (members !! ro_ACI rm) =? ro_Role rm) (gch_ModifyMemberRoles groupChange) in
  Ok (mkGroupChange (gch_MasterKey groupChange) (gch_SourceServiceID groupChange) (gch_Revision groupChange)
        addMembers deleteMembers roles (gch_ModifyMemberProfileKeys groupChange) addPending deletePending promotePending
        (clear_if (beqb title (grp_Title group)) (Some title))
        (clear_if (beqb avatar (grp_AvatarPath group)) (Some avatar))
        (clear_if (duration =? grp_DisappearingMessagesDuration group) (Some duration))
        (clear_if ((attributes =? ac_Attributes access) || (memberAccess =? ac_Members access)) (Some attributes))
        (Some memberAccess)
        (clear_if (linkAccess =? ac_AddFromInviteLink access) (Some linkAccess))
        addRequesting deleteRequesting promoteRequesting
        (clear_if (beqb description (grp_Description group)) (Some description))
        (clear_if (Bool.eqb announcements (grp_AnnouncementsOnly group)) (Some announcements))
        (gch_AddBannedMembers groupChange) (gch_DeleteBannedMembers groupChange) (gch_PromotePendingPniAciMembers groupChange)
        (gch_ModifyInviteLinkPassword groupChange)).

(** *** What the loops do *)

Lemma range_remove_none {A} (del : A -> bool) n i (s : slice A) : sl_len s = length (sl_array s) -> (i + n <= length (sl_array s))%nat ->
  Forall (fun x => del x = false) (take n (drop i (sl_array s))) -> range_remove del n i s = Ok s.
Proof.
  revert i. induction n as [|n IH]; intros i Hl Hi Hf; [done|]. cbn [range_remove].
  destruct (lookup_lt_is_Some_2 (sl_array s) i ltac:(lia)) as [x Hx]. rewrite Hx.
  rewrite (drop_S _ _ _ Hx) in Hf. apply Forall_cons_1 in Hf as [-> Hf]. cbn [obind]. apply IH; [done|lia|done].
Qed.

(** Nothing to remove: the slice stays. *)
Lemma filter_slice_none {A} (del : A -> bool) l : Forall (fun x => del x = false) l -> filter_slice del l = Ok l.
Proof.
  intros H. unfold filter_slice. rewrite range_remove_none; [cbn; f_equal; apply firstn_all|done|cbn; lia|].
  cbn. rewrite drop_0. by apply Forall_take.
Qed.

(** Two elements to remove at the end of a slice: the loop runs over the end
    of the shortened slice and panics. *)
Lemma filter_slice_two_panics {A} (del : A -> bool) l x y : Forall (fun x => del x = false) l -> del x = true -> del y = true ->
  filter_slice del (l ++ [x; y]) = Panic.
Proof.
  intros Hl Hx Hy. unfold filter_slice, of_list.
  enough (H : forall i pre rest, pre ++ rest = l -> length pre = i ->
    range_remove del (length rest + 2) i (mkSlice (l ++ [x; y]) (length (l ++ [x; y]))) = Panic).
  { rewrite length_app. cbn [length]. specialize (H 0%nat [] l eq_refl eq_refl). rewrite length_app in H. cbn [length] in H. by rewrite H. }
  intros i pre rest E Hi. revert i pre E Hi. induction rest as [|r rest IH]; intros i pre E Hi.
  - rewrite app_nil_r in E. subst pre. cbn [length Nat.add range_remove sl_array]. rewrite lookup_app_r by lia. rewrite <- Hi, Nat.sub_diag. cbn [lookup list_lookup].
    rewrite Hx. unfold remove_at, contents. cbn [sl_len sl_array]. rewrite length_app. cbn [length].
    replace (_ <? _)%nat with true by (symmetry; apply Nat.ltb_lt; lia). cbn [obind sl_array].
    rewrite take_app_length. rewrite take_ge by (rewrite length_app; cbn; lia). rewrite (drop_app_ge l [x; y]) by lia.
    replace (S (length l) - length l)%nat with 1%nat by lia. cbn [drop].
    replace (Nat.pred (length l + 2)) with (S (length l)) by lia.
    rewrite lookup_app_r by lia. replace (S (length l) - length l)%nat with 1%nat by lia.
    rewrite (drop_app_ge l [x; y]) by lia. replace (S (length l) - length l)%nat with 1%nat by lia. cbn [drop app lookup list_lookup].
    rewrite Hy. cbn [sl_len]. by rewrite Nat.ltb_irrefl.
  - cbn [length Nat.add range_remove sl_array]. subst l. rewrite <- app_assoc, lookup_app_r by lia.
    replace (i - length pre)%nat with 0%nat by lia. cbn [app lookup list_lookup]. apply Forall_app in Hl as [Hp Hr].
    apply Forall_cons_1 in Hr as [-> Hr]. cbn [obind]. rewrite <- (IH (S i) (pre ++ [r])); [by rewrite <- !app_assoc|by rewrite <- app_assoc|rewrite length_app; cbn; lia].
Qed.

(** A change that leaves any of the eight attributes alone panics. *)
Lemma resolveConflict_panics change group :
  gch_ModifyTitle change = None \/ gch_ModifyDescription change = None \/ gch_ModifyAvatar change = None \/
  gch_ModifyDisappearingMessagesDuration change = None \/ gch_ModifyAttributesAccess change = None \/ gch_ModifyMemberAccess change = None \/
  gch_ModifyAddFromInviteLinkAccess change = None \/ gch_ModifyAnnouncementsOnly change = None ->
  resolveConflict change group = Panic.
Proof.
  intros H. unfold resolveConflict.
  destruct (gch_ModifyTitle change); [|done]. destruct (gch_ModifyDescription change); [|done]. destruct (gch_ModifyAvatar change); [|done].
  destruct (gch_ModifyDisappearingMessagesDuration change); [|done]. destruct (gch_ModifyAttributesAccess change); [|done].
  destruct (grp_AccessControl group); [|done]. destruct (gch_ModifyMemberAccess change); [|done].
  destruct (gch_ModifyAddFromInviteLinkAccess change); [|done]. destruct (gch_ModifyAnnouncementsOnly change); [|done].
  exfalso. by repeat destruct H as [H|H].
Qed.

End Conflict.

(** ** Requests *)

Class AuthLib `{ZK : ZkGroup} : Type := {
  auth_response : Type;
  auth_credential : Type;
  (** [json.Unmarshal] into [GroupCredentials] *)
  unmarshal_credentials : bytes -> option GroupCredentials;
  NewAuthCredentialWithPniResponse : bytes -> option auth_response;
  ReceiveAuthCredentialZKC : UUID -> bytes -> Z -> auth_response -> option auth_credential;
  ReceiveAuthCredentialWithPni : UUID -> UUID -> Z -> auth_response -> option auth_credential;
  (** the first argument is the randomness that is drawn *)
  CreateAuthCredentialWithPniPresentation : nat -> zk_params -> auth_credential -> option bytes
}.

Class GroupNetwork (W : Type) : Type := {
  (** [web.SendHTTPRequest] to the storage host *)
  SendHTTPRequest : web_request -> W -> W * option http_response;
  (** a GET request on the authenticated websocket: status and body *)
  AuthedWS_Get : bytes -> W -> W * option (Z * bytes);
  (** [proto.Unmarshal] of [GroupChanges] *)
  unmarshal_group_changes : bytes -> option (list pb_GroupChangeState)
}.

(** What the client knows of the account. *)
Record Account := mkAccount { acc_ACI : UUID; acc_PNI : UUID; acc_AuthCredentialSalt : option bytes }.

Definition hex_EncodeToString (b : bytes) : bytes := concat (map CanonicalUUID.hex_byte b).

Definition NoContentError : group_error := RespError (str "NoContentError").
Definition GroupPatchNotAcceptedError : group_error := RespError (str "GroupPatchNotAcceptedError").
Definition ConflictError : group_error := RespError (str "ConflictError").
Definition AuthorizationFailedError : group_error := RespError (str "AuthorizationFailedError").
Definition NotFoundError : group_error := RespError (str "NotFoundError").
Definition ContactManifestMismatchError : group_error := RespError (str "ContactManifestMismatchError").
Definition RateLimitError : group_error := RespError (str "RateLimitError").
Definition DeprecatedVersionError : group_error := RespError (str "DeprecatedVersionError").
Definition GroupExistsError : group_error := RespError (str "GroupExistsError").

(** [errors.Is] of an error value. *)
Definition is_resp_error (e e' : group_error) : bool :=
  match e, e' with RespError a, RespError b => beqb a b | _, _ => false end.

Definition MethodGet : bytes := str "GET".
Definition MethodPut : bytes := str "PUT".
Definition MethodPatch : bytes := str "PATCH".

Section Requests.
Context `{G : GroupLib} `{EN : Endorsements} `{BP : GroupProto} `{GR : GraphicRunes} `{GW : GroupWire} `{R : Random}.
Context `{AL : !AuthLib} {W : Type} `{NW : GroupNetwork W}.
Context (account : Account) (fetch_credential : UUID -> option zk_credential) (now : Z).
#[local] Abbreviation client := (client (W := W)).
#[local] Abbreviation GroupClient := (GroupClient (W := W)).

Definition set_net (w : W) (s : GroupClient) : GroupClient :=
  mkClient (cl_recipients s) (cl_groupKeys s) (cl_cache s) (cl_requests s) (cl_sent s) (cl_sendCache s) (cl_draw s) w.

Definition send_http (req : web_request) : client http_response := fun s =>
  let '(w, r) := SendHTTPRequest req (cl_net s) in
  (mkClient (cl_recipients s) (cl_groupKeys s) (cl_cache s) (cl_requests s ++ [req]) (cl_sent s) (cl_sendCache s) (cl_draw s) w,
   of_option SendRequestFailed r).

(** [io.ReadAll(resp.Body)] *)
Definition read_body (resp : http_response) : outcome group_error bytes :=
  match resp_Body resp with
  | None => Panic
  | Some b => of_option ReadBodyFailed b
  end.

Definition MasterKeyFromGroupIdentifier (gid : bytes) : client (option bytes) := fun s => (s, Ok (cl_groupKeys s !! gid)).
Definition GroupStore_StoreMasterKey (gid key : bytes) : client unit :=
  smodify (fun s => mkClient (cl_recipients s) (<[gid := key]> (cl_groupKeys s)) (cl_cache s) (cl_requests s) (cl_sent s) (cl_sendCache s) (cl_draw s) (cl_net s)).

(** An empty key is no key. *)
Definition known_master_key (gid : bytes) : client bytes :=
  let* key := MasterKeyFromGroupIdentifier gid in
  match key with
  | Some (b :: k) => sret (b :: k)
  | _ => slift (Err ErrGroupMasterKeyNotFound)
  end.

Definition fetchNewGroupCreds (today : Z) (w : W) : W * outcome group_error GroupCredentials :=
  let path := str "/v1/certificate/auth/group?redemptionStartSeconds=" ++ Decimal.itoa today ++
    str "&redemptionEndSeconds=" ++ Decimal.itoa (today + 7 * secondsPerDay) ++ str "&v101=true&zkcCredential=true" in
  match AuthedWS_Get path w with
  | (w, None) => (w, Err SendRequestFailed)
  | (w, Some (status, body)) =>
      (w, if negb (status =? 200) then Err (BadStatus status)
          else
            let! creds := of_option UnmarshalFailed (unmarshal_credentials body) in
            if negb (bool_decide (gcr_PNI creds = acc_PNI account)) then Err MismatchingPNI else Ok creds)
  end.

(** [GetCredentials] with [fetchNewGroupCreds]: the network is only used when
    no credential for today is cached. *)
Definition get_credentials : client GroupCredential := fun s =>
  match getCachedCredentials (gc_credentials (cl_cache s)) (today_of now) with
  | Some cred => (s, Ok cred)
  | None =>
      let '(w, r) := fetchNewGroupCreds (today_of now) (cl_net s) in
      on_cache (GetCredentials now (fun _ => r) id) (set_net w s)
  end.

Definition GetAuthorizationForToday (masterKey : fixed 32) : client (bytes * bytes) :=
  let* todayCred := get_credentials in
  let redemptionTime := uint64 (RedemptionTime todayCred) in
  let* authCredentialResponse := slift (of_option AuthCredentialFailed (NewAuthCredentialWithPniResponse (gcr_Credential todayCred))) in
  let* authCredential := slift (
    if bool_decide (acc_PNI account = uuid_Nil) then
      match acc_AuthCredentialSalt account with
      | None => Err MissingAuthCredentialSalt
      | Some salt => of_option AuthCredentialFailed (ReceiveAuthCredentialZKC (acc_ACI account) salt redemptionTime authCredentialResponse)
      end
    else of_option AuthCredentialFailed (ReceiveAuthCredentialWithPni (acc_ACI account) (acc_PNI account) redemptionTime authCredentialResponse)) in
  let* params := slift (of_option DeriveParamsFailed (zk_derive masterKey)) in
  let* draw := next_draw in
  let* presentation := slift (of_option AuthCredentialFailed (CreateAuthCredentialWithPniPresentation draw params authCredential)) in
  let* publicParams := slift (of_option PublicParamsFailed (GetPublicParams params)) in
  sret (hex_EncodeToString publicParams, hex_EncodeToString presentation).

(** *** Fetching a group *)

(** A nil group panics once the keys are derived. *)
Definition decrypt_group_ptr (encryptedGroup : option pb_Group) (groupMasterKey : bytes) : outcome group_error Group :=
  match encryptedGroup with
  | Some g => decryptGroup g groupMasterKey
  | None =>
      let! k := masterKeyToBytes groupMasterKey in
      let! _ := of_option DeriveParamsFailed (zk_derive k) in
      let! _ := wrap_err GroupIDFailed (groupIdentifierFromMasterKey groupMasterKey) in
      Panic
  end.

(** Put the group object in the cache; an error is logged. *)
Definition put_group (group : nat) (endorsements : bytes) : client unit := fun s =>
  match cache_Put group endorsements now (cl_cache s) with
  | (c, Panic) => (set_cache c s, Panic)
  | (c, _) => (set_cache c s, Ok tt)
  end.

Definition alloc_group (g : Group) : client nat := fun s =>
  let '(r, c) := new_group g (cl_cache s) in (set_cache c s, Ok r).

Definition parseGroupResponse (response : http_response) (masterKey : bytes) : client nat :=
  let* groupBytes := slift (read_body response) in
  let* groupResponse := slift (of_option UnmarshalFailed (unmarshal_group_response groupBytes)) in
  let* group := slift (decrypt_group_ptr (pgr_Group groupResponse) masterKey) in
  let* r := alloc_group group in
  let* _ := put_group r (pgr_Endorsements groupResponse) in
  let* _ := sfor (fun m => let* _ := store_profile_key (gm_ACI m) (gm_ProfileKey m) in sret (Some tt)) (grp_Members group) in
  let* _ := sfor (fun m => let* _ := store_profile_key (rm_ACI m) (rm_ProfileKey m) in sret (Some tt)) (grp_RequestingMembers group) in
  sret r.

Definition fetchGroupWithMasterKey (groupMasterKey : bytes) : client nat :=
  let* masterKeyBytes := slift (masterKeyToBytes groupMasterKey) in
  let* auth := GetAuthorizationForToday masterKeyBytes in
  let* response := send_http (mkWebRequest MethodGet (str "/v2/groups") auth.1 auth.2 []) in
  if negb (resp_Status response =? 200) then slift (Err (BadStatus (resp_Status response)))
  else parseGroupResponse response groupMasterKey.

Definition fetchGroupByID (gid : bytes) : client nat :=
  let* groupMasterKey := known_master_key gid in
  fetchGroupWithMasterKey groupMasterKey.

Definition group_revision (c : GroupCache) (r : nat) : Z := match gc_heap c !! r with Some g => grp_Revision g | None => 0 end.

Definition RetrieveGroupByID (gid : bytes) (revision : Z) : client (nat * option SendEndorsementCache) :=
  let* cache := get_cache in
  let fetch :=
    let* group := fetchGroupByID gid in
    let* cache := get_cache in
    match cache_Get gid now cache with
    | None => sret (group, None)
    | Some (cached, endorsement) => sret (cached, Some endorsement)
    end in
  match cache_Get gid now cache with
  | Some (cached, endorsement) => if revision <=? group_revision cache cached then sret (cached, Some endorsement) else fetch
  | None => fetch
  end.

(** [web.SendHTTPRequest] to the CDN, with the account's own credentials. *)
Definition DownloadGroupAvatar (credentials : bytes * bytes) (avatarPath groupMasterKey : bytes) : client bytes :=
  let* resp := send_http (mkWebRequest MethodGet avatarPath credentials.1 credentials.2 []) in
  if (resp_Status resp <? 200) || (300 <=? resp_Status resp) then slift (Err (BadStatus (resp_Status resp)))
  else
    let* encryptedAvatar := slift (read_body resp) in
    slift (decryptGroupAvatar encryptedAvatar groupMasterKey).

(** *** Sending a change *)

Definition patchGroup (groupChange : pb_Actions) (groupMasterKey : bytes) (groupLinkPassword : option bytes) : client pb_GroupChangeResponse :=
  let* k := slift (masterKeyToBytes groupMasterKey) in
  let* auth := GetAuthorizationForToday k in
  let path := match groupLinkPassword with
              | None => str "/v2/groups/"
              | Some p => str "/v2/groups/?inviteLinkPassword=" ++ Base64.encode p
              end in
  let* requestBody := slift (of_option MarshalFailed (marshal_actions groupChange)) in
  let* resp := send_http (mkWebRequest MethodPatch path auth.1 auth.2 requestBody) in
  let status := resp_Status resp in
  if status =? 204 then slift (Err NoContentError)
  else if status =? 400 then slift (Err GroupPatchNotAcceptedError)
  else if status =? 403 then slift (Err AuthorizationFailedError)
  else if status =? 404 then slift (Err NotFoundError)
  else if status =? 409 then slift (Err (if isSome (resp_Body resp) then ContactManifestMismatchError else ConflictError))
  else if status =? 429 then slift (Err RateLimitError)
  else if status =? 499 then slift (Err DeprecatedVersionError)
  else
    match resp_Body resp with
    | None => slift (Err NoResponseBody)
    | Some b =>
        let* body := slift (of_option ReadBodyFailed b) in
        slift (of_option UnmarshalFailed (unmarshal_change_response body))
    end.

Definition EncryptAndSignGroupChange (change : GroupChange) : client pb_GroupChangeResponse :=
  let* masterKeyBytes := slift (masterKeyToBytes (gch_MasterKey change)) in
  let* params := slift (of_option DeriveParamsFailed (zk_derive masterKeyBytes)) in
  let* actions := encrypt_actions fetch_credential (acc_ACI account) params change in
  patchGroup actions (gch_MasterKey change) None.

Definition GenerateInviteLinkPassword (draw : nat) : bytes := InviteLinkPasswordFromBytes (random_Bytes draw 16).

Definition set_Revision (r : Z) (c : GroupChange) : GroupChange :=
  mkGroupChange (gch_MasterKey c) (gch_SourceServiceID c) r (gch_AddMembers c) (gch_DeleteMembers c) (gch_ModifyMemberRoles c)
    (gch_ModifyMemberProfileKeys c) (gch_AddPendingMembers c) (gch_DeletePendingMembers c) (gch_PromotePendingMembers c)
    (gch_ModifyTitle c) (gch_ModifyAvatar c) (gch_ModifyDisappearingMessagesDuration c) (gch_ModifyAttributesAccess c)
    (gch_ModifyMemberAccess c) (gch_ModifyAddFromInviteLinkAccess c) (gch_AddRequestingMembers c) (gch_DeleteRequestingMembers c)
    (gch_PromoteRequestingMembers c) (gch_ModifyDescription c) (gch_ModifyAnnouncementsOnly c) (gch_AddBannedMembers c)
    (gch_DeleteBannedMembers c) (gch_PromotePendingPniAciMembers c) (gch_ModifyInviteLinkPassword c).
Definition set_change_key (k : bytes) (password : option bytes) (c : GroupChange) : GroupChange :=
  mkGroupChange k (gch_SourceServiceID c) (gch_Revision c) (gch_AddMembers c) (gch_DeleteMembers c) (gch_ModifyMemberRoles c)
    (gch_ModifyMemberProfileKeys c) (gch_AddPendingMembers c) (gch_DeletePendingMembers c) (gch_PromotePendingMembers c)
    (gch_ModifyTitle c) (gch_ModifyAvatar c) (gch_ModifyDisappearingMessagesDuration c) (gch_ModifyAttributesAccess c)
    (gch_ModifyMemberAccess c) (gch_ModifyAddFromInviteLinkAccess c) (gch_AddRequestingMembers c) (gch_DeleteRequestingMembers c)
    (gch_PromoteRequestingMembers c) (gch_ModifyDescription c) (gch_ModifyAnnouncementsOnly c) (gch_AddBannedMembers c)
    (gch_DeleteBannedMembers c) (gch_PromotePendingPniAciMembers c) password.

Definition get_group (r : nat) : client Group := fun s =>
  (s, match gc_heap (cl_cache s) !! r with Some g => Ok g | None => Panic end).

(** [currentMessageTimestamp()] *)
Context (timestamp : Z).

Definition update_recipients (group : Group) (groupChange : option GroupChange) : list ServiceID :=
  map UserServiceID (grp_Members group) ++ map pm_ServiceID (grp_PendingMembers group) ++
  match groupChange with
  | Some c => map pm_ServiceID (gch_AddPendingMembers c) ++ map (fun m => UserServiceID (am_Member m)) (gch_AddMembers c)
  | None => []
  end.

(** Up to the call of [sendToGroup]: the message is noted in the send cache
    for every recipient. *)
Definition SendGroupUpdate (group : nat) (groupContext : GroupContextV2) (groupChange : option GroupChange) : client unit :=
  let* g := get_group group in
  let* gidBytes := slift (wrap_err (fun _ => BadGroupIdentifier) (GroupIdentifier_Bytes (grp_Identifier g))) in
  let recipients := update_recipients g groupChange in
  smodify (fun s => mkClient (cl_recipients s) (cl_groupKeys s) (cl_cache s) (cl_requests s)
    (cl_sent s ++ [mkSent recipients groupContext timestamp gidBytes])
    (cl_sendCache s ++ map (fun r => (mkSendKey r (grp_Identifier g) timestamp, groupContext)) recipients) (cl_draw s) (cl_net s)).

Definition groupMetadataForDataMessage (group : Group) : outcome group_error GroupContextV2 :=
  let! masterKey := masterKeyToBytes (grp_MasterKey group) in
  Ok (mkGroupContext (fixed_bytes masterKey) (grp_Revision group) None).

(** The loop of [UpdateGroup]: [retries] is [5 - attempt].  [resolve] is
    [resolveConflict]. *)
Fixpoint update_attempts (resolve : GroupChange -> Group -> outcome group_error GroupChange) (retries : nat) (gid : bytes)
  (refetchedAddMemberCredentials : bool) (group : nat) (groupChange : GroupChange)
  : client (nat * GroupChange * pb_GroupChangeResponse) := fun s =>
  match EncryptAndSignGroupChange groupChange s with
  | (s, Ok signedGroupChange) => (s, Ok (group, groupChange, signedGroupChange))
  | (s, Panic) => (s, Panic)
  | (s, Err e) =>
      match retries with
      | O => (s, Err TooManyAttempts)
      | S retries =>
          if is_resp_error e GroupPatchNotAcceptedError then
            if (0 <? length (gch_AddMembers groupChange))%nat && negb refetchedAddMemberCredentials
            then update_attempts resolve retries gid true group groupChange s
            else (s, Err e)
          else if is_resp_error e ConflictError then
            (let* _ := smodify (fun s => set_cache (cache_Delete gid (cl_cache s)) s) in
             let* retrieved := RetrieveGroupByID gid 0 in
             let* g := get_group retrieved.1 in
             let* groupChange := slift (resolve groupChange g) in
             update_attempts resolve retries gid refetchedAddMemberCredentials retrieved.1
               (set_Revision (uint32 (grp_Revision g + 1)) groupChange)) s
          else (s, Err e)
      end
  end.

(** A password is only drawn when the change already has one. *)
Definition change_password (group : Group) (groupChange : GroupChange) : client (option bytes) :=
  if negb (isSome (grp_InviteLinkPassword group)) && isSome (gch_ModifyAddFromInviteLinkAccess groupChange)
     && isSome (gch_ModifyInviteLinkPassword groupChange)
  then let* draw := next_draw in sret (Some (GenerateInviteLinkPassword draw))
  else sret (gch_ModifyInviteLinkPassword groupChange).

(** Errors of [ApplyUpdate] and [SendGroupUpdate] are logged. *)
Definition logged (m : client unit) : client unit := fun s =>
  match m s with (s, Panic) => (s, Panic) | (s, _) => (s, Ok tt) end.

(** The part of [UpdateGroup] after the loop. *)
Definition finish_update (masterKeyBytes : fixed 32) (r : nat * GroupChange * pb_GroupChangeResponse) : client Z :=
  let '(group, groupChange, signedGroupChange) := r in
  let* _ := logged (on_cache (ApplyUpdate groupChange (pcr_Endorsements signedGroupChange) now)) in
  let* groupChangeBytes := slift (of_option MarshalFailed (marshal_group_change (pcr_GroupChange signedGroupChange))) in
  let groupContext := mkGroupContext (fixed_bytes masterKeyBytes) (gch_Revision groupChange) (Some groupChangeBytes) in
  let* _ := logged (SendGroupUpdate group groupContext (Some groupChange)) in
  sret (gch_Revision groupChange).

Definition UpdateGroup_with (resolve : GroupChange -> Group -> outcome group_error GroupChange) (groupChange : GroupChange) (gid : bytes) : client Z :=
  let* groupMasterKey := known_master_key gid in
  let* masterKeyBytes := slift (masterKeyToBytes groupMasterKey) in
  let* retrieved := RetrieveGroupByID gid 0 in
  let* g := get_group retrieved.1 in
  let* password := change_password g groupChange in
  let groupChange := set_Revision (uint32 (grp_Revision g + 1)) (set_change_key groupMasterKey password groupChange) in
  let* r := update_attempts resolve 5 gid false retrieved.1 groupChange in
  finish_update masterKeyBytes r.

Definition UpdateGroup := UpdateGroup_with Conflict.resolveConflict.

(** *** Creating a group *)

Definition createGroupOnServer (decryptedGroup : Group) : client nat :=
  let* prepared := PrepareGroupCreation decryptedGroup in
  let '(masterKeyBytes, decryptedGroup) := prepared in
  let* _ := GroupStore_StoreMasterKey (grp_Identifier decryptedGroup) (grp_MasterKey decryptedGroup) in
  let* params := slift (of_option DeriveParamsFailed (zk_derive masterKeyBytes)) in
  let* encryptedGroup := EncryptGroup fetch_credential (acc_ACI account) decryptedGroup params in
  let* auth := GetAuthorizationForToday masterKeyBytes in
  let* requestBody := slift (of_option MarshalFailed (marshal_group encryptedGroup)) in
  let* resp := send_http (mkWebRequest MethodPut (str "/v2/groups/") auth.1 auth.2 requestBody) in
  let status := resp_Status resp in
  if status =? 204 then slift (Err NoContentError)
  else if status =? 403 then slift (Err AuthorizationFailedError)
  else if status =? 404 then slift (Err NotFoundError)
  else if status =? 409 then slift (Err GroupExistsError)
  else if status =? 429 then slift (Err RateLimitError)
  else if status =? 499 then slift (Err DeprecatedVersionError)
  else if status =? 400 then slift (Err (BadStatus status))
  else parseGroupResponse resp (grp_MasterKey decryptedGroup).

Definition CreateGroup (decryptedGroup : Group) : client nat :=
  let* group := createGroupOnServer decryptedGroup in
  let* g := get_group group in
  let* masterKeyBytes := slift (masterKeyToBytes (grp_MasterKey g)) in
  let* _ := SendGroupUpdate group (mkGroupContext (fixed_bytes masterKeyBytes) (grp_Revision g) None) None in
  sret group.

(** *** History *)

Definition GetGroupHistoryPage (gid : bytes) (fromRevision : Z) (includeFirstState : bool) : client (list (option Group * GroupChange)) :=
  let* groupMasterKey := known_master_key gid in
  let* masterKeyBytes := slift (masterKeyToBytes groupMasterKey) in
  let* auth := GetAuthorizationForToday masterKeyBytes in
  let path := str "/v2/groups/logs/" ++ Decimal.itoa fromRevision ++ str "?maxSupportedChangeEpoch=5&includeFirstState=" ++
    (if includeFirstState then str "true" else str "false") ++ str "&includeLastState=false" in
  let* response := send_http (mkWebRequest MethodGet path auth.1 auth.2 []) in
  if negb (resp_Status response =? 200) then slift (Err (BadStatus (resp_Status response)))
  else
    let* groupChangesBytes := slift (read_body response) in
    let* encryptedGroupChanges := slift (of_option UnmarshalFailed (unmarshal_group_changes groupChangesBytes)) in
    decryptGroupChanges now encryptedGroupChanges groupMasterKey.

End Requests.

(** ** What an update does *)
Section UpdateProofs.
Context `{G : GroupLib} `{EN : Endorsements} `{BP : GroupProto} `{GR : GraphicRunes} `{GW : GroupWire} `{R : Random}.
Context `{AL : !AuthLib} {W : Type} `{NW : GroupNetwork W}.
Context (account : Account) (fetch_credential : UUID -> option zk_credential) (now timestamp : Z).
(** [net/http]: the body of a response is always non-nil. *)
Hypothesis Hbody : forall req w w' resp, SendHTTPRequest req w = (w', Some resp) -> is_Some (resp_Body resp).
#[local] Abbreviation client := (client (W := W)).
#[local] Abbreviation GroupClient := (GroupClient (W := W)).

Definition patches (s : GroupClient) : nat := length (List.filter (fun r => beqb (wr_Method r) MethodPatch) (cl_requests s)).

(** No change was patched and none was sent. *)
Definition calm (s s' : GroupClient) : Prop := patches s' = patches s /\ cl_sent s' = cl_sent s.

#[local] Instance calm_preorder : PreOrder calm.
Proof. split; [done|]. intros s1 s2 s3 [H1 H2] [H3 H4]. split; congruence. Qed.

(** Errors that end the loop of [UpdateGroup] at once or are retried once. *)
Definition final_error (e : group_error) : Prop := is_resp_error e ConflictError = false /\ e <> TooManyAttempts.

#[local] Abbreviation quiet := (sframe calm final_error).

Lemma quiet_draw : quiet next_draw.
Proof. intros s. done. Qed.
Lemma quiet_cache {A} (f : GroupCache -> GroupCache * outcome group_error A) : (forall c, oerr final_error (f c).2) -> quiet (on_cache f).
Proof. intros H s. unfold on_cache. specialize (H (cl_cache s)). by destruct (f (cl_cache s)). Qed.
Lemma quiet_get_cache : quiet get_cache.
Proof. done. Qed.
Lemma quiet_store_key aci k : quiet (store_profile_key aci k).
Proof. done. Qed.
Lemma quiet_get_group r : quiet (get_group r).
Proof. intros s. split; [done|]. cbn. by destruct (_ !! r). Qed.
Lemma quiet_send req : wr_Method req <> MethodPatch -> quiet (send_http req).
Proof.
  intros Hm s. unfold send_http. destruct (SendHTTPRequest req (cl_net s)) as [w r]. split; [|by apply oerr_of_option].
  split; [|done]. unfold patches. cbn. rewrite List.filter_app. cbn. unfold beqb. rewrite bool_decide_false by done. by rewrite app_nil_r.
Qed.

Lemma master_key_errors P k : oerr (E := group_error) P (masterKeyToBytes k).
Proof. unfold masterKeyToBytes, to_array. repeat case_match; done. Qed.

(** One step of the analysis of an operation. *)
Ltac quiet_step :=
  match goal with
  | |- final_error _ => done
  | |- sframe _ _ (sbind _ _) => apply (sframe_bind calm final_error); [|intros]
  | |- sframe _ _ (sret _) => apply (sframe_ret calm final_error)
  | |- sframe _ _ (slift _) => apply (sframe_lift calm final_error)
  | |- sframe _ _ (sfor _ _) => apply (sframe_for calm final_error); intros
  | |- sframe _ _ (smap _ _) => apply (sframe_for calm final_error); intros
  | |- sframe _ _ (smodify _) => apply sframe_modify; intros
  | |- sframe _ _ next_draw => apply quiet_draw
  | |- sframe _ _ get_cache => apply quiet_get_cache
  | |- sframe _ _ (store_profile_key _ _) => apply quiet_store_key
  | |- sframe _ _ (get_group _) => apply quiet_get_group
  | |- sframe _ _ (send_http _) => apply quiet_send; discriminate
  | |- oerr _ (obind _ _) => apply oerr_bind; [|intros]
  | |- oerr _ (masterKeyToBytes _) => apply master_key_errors
  | |- oerr _ (of_option _ _) => apply oerr_of_option
  | |- oerr _ (outmap _ _) => apply oerr_outmap
  | |- oerr _ (ofor _ _) => apply oerr_for; intros
  | |- oerr _ (wrap_err _ _) => unfold wrap_err
  | |- oerr _ (Ok _) => exact I
  | |- oerr _ Panic => exact I
  | |- oerr _ (Err _) => cbn; done
  | |- context [match ?x with _ => _ end] => lazymatch x with context [match _ with _ => _ end] => fail | _ => destruct x end
  end.
Ltac quiet := repeat (cbv zeta; quiet_step).

Lemma pkey_errors u k p params : oerr final_error (decryptPKeyAndIDorPresentation u k p params).
Proof. unfold decryptPKeyAndIDorPresentation. quiet. Qed.
Lemma decryptMember_errors m params : oerr final_error (decryptMember m params).
Proof. unfold decryptMember. quiet. apply pkey_errors. Qed.
Lemma decryptRequesting_errors m params : oerr final_error (decryptRequestingMember m params).
Proof. unfold decryptRequestingMember. quiet. apply pkey_errors. Qed.
Lemma property_errors params b : oerr final_error (decryptGroupPropertyIntoBlob params b).
Proof. unfold decryptGroupPropertyIntoBlob. quiet. Qed.
Lemma decryptGroup_errors g k : oerr final_error (decryptGroup g k).
Proof.
  unfold decryptGroup. quiet; try apply property_errors; try apply decryptMember_errors; try apply decryptRequesting_errors.
  all: unfold decrypt_pending, decrypt_banned, decrypt_id; quiet.
Qed.

Lemma quiet_auth k : quiet (GetAuthorizationForToday account now k).
Proof.
  unfold GetAuthorizationForToday. quiet. unfold get_credentials. intros s.
  destruct (getCachedCredentials _ _) eqn:E; [done|]. unfold fetchNewGroupCreds. destruct (AuthedWS_Get _ _) as [w r].
  assert (Hc : forall f, oerr final_error (f (today_of now)) -> quiet (on_cache (GetCredentials now f id))).
  { intros f Hf. apply quiet_cache. intros c. unfold GetCredentials. cbv zeta. destruct (getCachedCredentials _ _); [done|].
    destruct (getCachedCredentials _ _); [done|]. destruct (f _); [by apply oerr_of_option|done..]. }
  destruct r as [[status body]|]; [|by apply (Hc (fun _ => Err SendRequestFailed) ltac:(done) (set_net w s))].
  refine (Hc (fun _ => _) _ (set_net w s)). quiet.
Qed.

Lemma quiet_parse response k : quiet (parseGroupResponse now response k).
Proof.
  unfold parseGroupResponse, decrypt_group_ptr, read_body. quiet; try apply decryptGroup_errors.
  - intros s. unfold alloc_group. by destruct (new_group _ _).
  - intros s. unfold put_group. destruct (cache_Put _ _ _ _) as [c [| |]]; done.
Qed.

Lemma quiet_key gid : quiet (known_master_key gid).
Proof. unfold known_master_key. quiet. done. Qed.

Lemma quiet_retrieve gid revision : quiet (RetrieveGroupByID account now gid revision).
Proof.
  unfold RetrieveGroupByID, fetchGroupByID, fetchGroupWithMasterKey.
  quiet; first [apply quiet_key | apply quiet_auth | apply quiet_parse].
Qed.

Lemma quiet_encrypt_member m params : quiet (encryptMember (W := W) fetch_credential (acc_ACI account) m params).
Proof.
  assert (Hc : forall c, quiet (create_presentation (W := W) params c)) by (intros c; unfold create_presentation; quiet).
  assert (Hp : forall p, quiet (encryptPendingMember (W := W) p params)) by (intros p; unfold encryptPendingMember, encrypt_id; quiet).
  intros s. unfold encryptMember. destruct (fetch_credential _) as [c|].
  - destruct (Hc c s) as [H _]. destruct (create_presentation _ _ _) as [s' [| |]]; done.
  - destruct (Hp (mkPending (UserServiceID m) (gm_Role m) (acc_ACI account) 0) s) as [H _].
    destruct (encryptPendingMember _ _ _) as [s' [| |]]; done.
Qed.

Lemma quiet_encrypt params change : quiet (encrypt_actions (W := W) fetch_credential (acc_ACI account) params change).
Proof.
  unfold encrypt_actions, encrypt_property, encryptBlobIntoGroupProperty, encrypt_id, encryptPendingMember, encrypt_presentation,
    create_presentation, encrypt_id. quiet; apply quiet_encrypt_member.
Qed.

(** At most one change was patched, none was sent. *)
Definition once (s s' : GroupClient) : Prop := (patches s' <= S (patches s))%nat /\ cl_sent s' = cl_sent s.
#[local] Abbreviation one_patch := (sframe once final_error).

Lemma one_patch_bind {A B} (m : client A) (k : A -> client B) : quiet m -> (forall a, one_patch (k a)) -> one_patch (sbind m k).
Proof.
  intros Hm Hk s. unfold sbind. destruct (Hm s) as [[H1 H2] H3]. destruct (m s) as [s1 [a|e|]]; cbn in *.
  - destruct (Hk a s1) as [[H4 H5] H6]. split; [|done]. split; [|congruence]. by rewrite <- H1.
  - split; [|done]. split; [lia|done].
  - split; [|done]. split; [lia|done].
Qed.

Lemma send_body req s s' resp : send_http req s = (s', Ok resp) -> is_Some (resp_Body resp).
Proof.
  unfold send_http. destruct (SendHTTPRequest req (cl_net s)) as [w [r|]] eqn:E; intros H; [|done].
  apply pair_equal_spec in H as [_ H]. apply Ok_inj in H as <-. by eapply Hbody.
Qed.

(** A patch never fails with [ConflictError]. *)
Lemma patch_once actions k p : one_patch (patchGroup account now actions k p).
Proof.
  unfold patchGroup. apply one_patch_bind; [quiet|]. intros kb. apply one_patch_bind; [apply quiet_auth|]. intros auth. cbv zeta.
  apply one_patch_bind; [quiet|]. intros body s.
  match goal with |- context [sbind (send_http ?q) _] => destruct (send_http q s) as [s1 r] eqn:E1 end. rewrite (sbind_eq _ _ _ _ _ E1).
  assert (H1 : once s s1).
  { unfold send_http in E1. destruct (SendHTTPRequest _ _) as [w r']. injection E1 as <- _. split; [|done]. unfold patches. cbn [cl_requests].
    rewrite List.filter_app, length_app. cbn [List.filter]. destruct (beqb _ _); cbn [length]; lia. }
  destruct r as [resp| |]; cbn [fst snd]; [|split; [done|]|done].
  - destruct (send_body _ _ _ _ E1) as [b Hb]. rewrite Hb. cbn [isSome].
    repeat match goal with |- context [if ?c then _ else _] => destruct c; [split; done|] end.
    destruct b as [bs|]; cbn; [|split; done]. destruct (unmarshal_change_response bs); split; done.
  - unfold send_http in E1. destruct (SendHTTPRequest _ _) as [w [r'|]]; [done|]. by injection E1 as _ <-.
Qed.

Lemma sign_once change : one_patch (EncryptAndSignGroupChange account fetch_credential now change).
Proof.
  unfold EncryptAndSignGroupChange. apply one_patch_bind; [quiet|]. intros k. apply one_patch_bind; [quiet|]. intros params.
  apply one_patch_bind; [apply quiet_encrypt|]. intros acts. apply patch_once.
Qed.

(** The loop without conflicts: one more attempt when members are added. *)
Definition two_attempts (group : nat) (change : GroupChange) : client (nat * GroupChange * pb_GroupChangeResponse) := fun s =>
  match EncryptAndSignGroupChange account fetch_credential now change s with
  | (s, Err e) =>
      if is_resp_error e GroupPatchNotAcceptedError && (0 <? length (gch_AddMembers change))%nat
      then let '(s, r) := EncryptAndSignGroupChange account fetch_credential now change s in (s, outmap (fun x => (group, change, x)) r)
      else (s, Err e)
  | (s, r) => (s, outmap (fun x => (group, change, x)) r)
  end.

Lemma attempts_two resolve n gid group change s :
  update_attempts account fetch_credential now resolve (S (S n)) gid false group change s = two_attempts group change s.
Proof.
  unfold two_attempts. cbn [update_attempts]. pose proof (sign_once change s) as [_ H1].
  destruct (EncryptAndSignGroupChange account fetch_credential now change s) as [s1 [r|e|]]; [done| |done].
  destruct H1 as [H1 _]. cbn [snd] in H1. rewrite H1. destruct (is_resp_error e GroupPatchNotAcceptedError); [|done]. cbn [andb negb].
  destruct (_ <? _)%nat; [|done]. cbn [andb]. pose proof (sign_once change s1) as [_ H2].
  destruct (EncryptAndSignGroupChange account fetch_credential now change s1) as [s2 [r|e2|]]; [done| |done].
  destruct H2 as [H2 _]. cbn [snd] in H2. rewrite H2. cbn [negb andb]. destruct (is_resp_error e2 GroupPatchNotAcceptedError); reflexivity.
Qed.

Lemma two_attempts_frame group change s : let '(s', r) := two_attempts group change s in
  (patches s' <= S (S (patches s)))%nat /\ cl_sent s' = cl_sent s /\ oerr final_error r /\
  forall g c x, r = Ok (g, c, x) -> g = group /\ c = change.
Proof.
  unfold two_attempts. pose proof (sign_once change s) as [[H1 H2] H3].
  destruct (EncryptAndSignGroupChange account fetch_credential now change s) as [s1 [r|e|]]; cbn [fst snd outmap] in *;
    [split_and!; [lia|done..|]; by intros ? ? ? [= <- <- _]| |split_and!; [lia|done..]].
  destruct (_ && _); [|split_and!; [lia|done..]]. pose proof (sign_once change s1) as [[H4 H5] H6].
  destruct (EncryptAndSignGroupChange account fetch_credential now change s1) as [s2 [r|e2|]]; cbn [fst snd outmap] in *;
    (split_and!; [lia|congruence|done|]); [by intros ? ? ? [= <- <- _]|done..].
Qed.

(** Whom an update is for: the members of the group object as it is then, its
    pending members, and once more those the change adds. *)
Definition told_of (g : Group) (change : GroupChange) : list ServiceID :=
  map UserServiceID (grp_Members g) ++ map pm_ServiceID (grp_PendingMembers g)
  ++ map pm_ServiceID (gch_AddPendingMembers change) ++ map (fun m => UserServiceID (am_Member m)) (gch_AddMembers change).
(** Exactly what is sent: one message to the group; nothing when the identifier
    of the group object is not one. *)
Definition sent_for (s s' : GroupClient) (k : fixed 32) (group : nat) (change : GroupChange) (rev : Z) : Prop :=
  exists g, gc_heap (cl_cache s') !! group = Some g /\
    match GroupIdentifier_Bytes (grp_Identifier g) with
    | Ok id => exists b, cl_sent s' = cl_sent s ++ [mkSent (told_of g change) (mkGroupContext (fixed_bytes k) rev (Some b)) timestamp id]
    | _ => cl_sent s' = cl_sent s
    end.

(** Sending, with its error logged. *)
Lemma send_update_logged group ctx change s : let '(s', r) := logged (SendGroupUpdate (W := W) timestamp group ctx (Some change)) s in
  patches s' = patches s /\ cl_cache s' = cl_cache s /\ oerr final_error r /\
  match r with
  | Ok _ => exists g, gc_heap (cl_cache s) !! group = Some g /\
      match GroupIdentifier_Bytes (grp_Identifier g) with
      | Ok id => cl_sent s' = cl_sent s ++ [mkSent (update_recipients g (Some change)) ctx timestamp id]
      | _ => cl_sent s' = cl_sent s
      end
  | _ => cl_sent s' = cl_sent s
  end.
Proof.
  unfold logged, SendGroupUpdate, get_group, sbind, slift, wrap_err. destruct (gc_heap (cl_cache s) !! group) as [g|] eqn:Eg; [|done].
  destruct (GroupIdentifier_Bytes (grp_Identifier g)) as [id|e|] eqn:Ei; cbn [smodify]; [| |done].
  all: split_and!; try done; exists g; by rewrite Ei.
Qed.

Lemma finish_update_ok k group change signed s : let '(s', r) := finish_update now timestamp k (group, change, signed) s in
  patches s' = patches s /\ oerr final_error r /\
  match r with
  | Ok rev => rev = gch_Revision change /\ sent_for s s' k group change rev
  | _ => cl_sent s' = cl_sent s
  end.
Proof.
  unfold finish_update. destruct (logged (on_cache (ApplyUpdate change (pcr_Endorsements signed) now)) s) as [s1 r1] eqn:E1.
  assert (H1 : patches s1 = patches s /\ cl_sent s1 = cl_sent s /\ oerr final_error r1).
  { unfold logged, on_cache in E1. destruct (ApplyUpdate _ _ _ _) as [c [u|e|]]; injection E1 as <- <-; done. }
  rewrite (sbind_eq _ _ _ _ _ E1). destruct H1 as (P1 & C1 & _). destruct r1 as [u|e|]; [|unfold logged in E1; by destruct (on_cache _ _) as [? []]|done].
  destruct (marshal_group_change _) as [b|]; [|done]. cbn [of_option]. rewrite (sbind_eq (slift (Ok b)) _ s1 s1 (Ok b) eq_refl). cbv zeta.
  pose proof (send_update_logged group (mkGroupContext (fixed_bytes k) (gch_Revision change) (Some b)) change s1) as H2.
  destruct (logged (SendGroupUpdate _ _ _ _) s1) as [s2 r2] eqn:E2. rewrite (sbind_eq _ _ _ _ _ E2).
  destruct H2 as (P2 & C2 & H2 & H3). destruct r2 as [?|e|]; [|split_and!; [congruence|done|congruence]..].
  cbn. split_and!; [congruence|done..|]. unfold sent_for. destruct H3 as (g & Hg & H3). exists g. rewrite C2, <- C1. split; [done|].
  destruct (GroupIdentifier_Bytes _); [by exists b|done..].
Qed.

(** At most two patches, no error of the retry loop, and nothing is sent
    unless the operation succeeds. *)
Definition updating (s : GroupClient) (x : GroupClient * outcome group_error Z) : Prop :=
  (patches x.1 <= S (S (patches s)))%nat /\ oerr final_error x.2 /\ match x.2 with Ok _ => True | _ => cl_sent x.1 = cl_sent s end.

Lemma updating_bind {A} (m : client A) (k : A -> client Z) s : quiet m -> (forall a s, updating s (k a s)) -> updating s (sbind m k s).
Proof.
  intros Hm Hk. unfold sbind. destruct (Hm s) as [[H1 H2] H3]. destruct (m s) as [s1 [a|e|]]; cbn [fst snd] in *.
  - destruct (Hk a s1) as (H4 & H5 & H6). split_and!; [by rewrite <- H1|done|]. destruct (k a s1) as [s2 []]; cbn in *; congruence.
  - split_and!; [cbn; lia|done..].
  - split_and!; [cbn; lia|done..].
Qed.

Lemma updating_loop k group change s :
  updating s ((let* r := two_attempts group change in finish_update now timestamp k r) s).
Proof.
  pose proof (two_attempts_frame group change s) as H1. destruct (two_attempts group change s) as [s1 r1] eqn:E1.
  rewrite (sbind_eq _ _ _ _ _ E1). destruct H1 as (P1 & C1 & F1 & _). destruct r1 as [[[g c] x]|e|]; [|done..].
  pose proof (finish_update_ok k g c x s1) as H2. destruct (finish_update _ _ _ _ s1) as [s2 r2]. destruct H2 as (P2 & F2 & H2).
  split_and!; [cbn; by rewrite P2|done|]. cbn [snd fst]. destruct r2; [done|congruence..].
Qed.

(** [UpdateGroup] with the loop as it runs. *)
Lemma UpdateGroup_two resolve change gid s :
  UpdateGroup_with account fetch_credential now timestamp resolve change gid s =
  (let* groupMasterKey := known_master_key gid in
   let* masterKeyBytes := slift (masterKeyToBytes groupMasterKey) in
   let* retrieved := RetrieveGroupByID account now gid 0 in
   let* g := get_group retrieved.1 in
   let* password := change_password g change in
   let* r := two_attempts retrieved.1 (set_Revision (uint32 (grp_Revision g + 1)) (set_change_key groupMasterKey password change)) in
   finish_update now timestamp masterKeyBytes r) s.
Proof.
  unfold UpdateGroup_with. do 5 (apply sbind_ext; intros ? ?). cbv zeta. unfold sbind at 1 2. by rewrite attempts_two.
Qed.

Lemma quiet_password g change : quiet (change_password (W := W) g change).
Proof. unfold change_password. quiet. Qed.

Lemma update_group_ok change gid s s' rev :
  UpdateGroup_with account fetch_credential now timestamp Conflict.resolveConflict change gid s = (s', Ok rev) ->
  exists key k s1 group g, cl_groupKeys s !! gid = Some key /\ masterKeyToBytes (E := group_error) key = Ok k /\
    RetrieveGroupByID account now gid 0 s = (s1, Ok group) /\ gc_heap (cl_cache s1) !! group.1 = Some g /\
    rev = uint32 (grp_Revision g + 1) /\ sent_for s s' k group.1 change rev.
Proof.
  rewrite UpdateGroup_two. intros H. apply sbind_Ok in H as (s0 & key & H0 & H). apply sbind_Ok in H as (s0' & k & Hk & H).
  injection Hk as <- Hk. apply sbind_Ok in H as (s1 & group & H1 & H). apply sbind_Ok in H as (s2 & g & H2 & H).
  apply sbind_Ok in H as (s3 & pw & H3 & H). apply sbind_Ok in H as (s4 & [[gr c] x] & H4 & H).
  assert (Hs0 : s0 = s /\ cl_groupKeys s !! gid = Some key).
  { unfold known_master_key, MasterKeyFromGroupIdentifier, sbind in H0. destruct (cl_groupKeys s !! gid) as [[|b l]|]; [done| |done].
    apply pair_equal_spec in H0 as [-> H0]. by apply Ok_inj in H0 as <-. }
  destruct Hs0 as [-> Hkey].
  assert (Hg : s2 = s1 /\ gc_heap (cl_cache s1) !! group.1 = Some g).
  { unfold get_group in H2. destruct (gc_heap _ !! _) as [g0|]; [|done]. apply pair_equal_spec in H2 as [-> H2].
    by apply Ok_inj in H2 as <-. }
  destruct Hg as [-> Hg]. pose proof (quiet_retrieve gid 0 s) as [[_ C1] _]. rewrite H1 in C1. cbn [fst] in C1.
  pose proof (quiet_password g change s1) as [[_ C3] _]. rewrite H3 in C3. cbn [fst] in C3.
  match type of H4 with two_attempts ?a ?b _ = _ => pose proof (two_attempts_frame a b s3) as H5 end.
  rewrite H4 in H5. destruct H5 as (_ & C4 & _ & H5). destruct (H5 _ _ _ eq_refl) as [-> ->].
  match type of H with finish_update _ _ _ (?a, ?b, ?c) _ = _ => pose proof (finish_update_ok k a b c s4) as H6 end.
  rewrite H in H6. destruct H6 as (_ & _ & -> & H6). exists key, k, s1, group, g. split_and!; try done.
  unfold sent_for in *. by rewrite <- C1, <- C3, <- C4.
Qed.

(** C29: a group update with a server that answers every request: whatever the
    answers are, the retry loop ends after at most two PATCH requests, never
    gives up for too many attempts and never gets to resolving a conflict (any
    other conflict resolution gives the same run); a group without a master
    key changes nothing; nothing is sent unless the update succeeded, and then
    the returned revision is the next one of the group that was retrieved, and
    [sendToGroup] is called once with that revision, provided that the
    identifier of the group object is one (else nothing is sent).  Its list of
    recipients has the members and the pending members of the group object as it
    is after the change was applied to it, followed by those the change adds: an
    added user who is by then a member is on the list, and is sent the update,
    twice. *)
Theorem update_group_correct change gid s :
  let x := UpdateGroup account fetch_credential now timestamp change gid s in
  (forall resolve, UpdateGroup_with account fetch_credential now timestamp resolve change gid s = x) /\
  (patches x.1 <= patches s + 2)%nat /\ x.2 <> Err TooManyAttempts /\ x.2 <> Err ConflictError /\
  (cl_groupKeys s !! gid = None -> x = (s, Err ErrGroupMasterKeyNotFound)) /\
  match x.2 with
  | Ok rev => exists key k s1 group g, cl_groupKeys s !! gid = Some key /\ masterKeyToBytes (E := group_error) key = Ok k /\
      RetrieveGroupByID account now gid 0 s = (s1, Ok group) /\ gc_heap (cl_cache s1) !! group.1 = Some g /\
      rev = uint32 (grp_Revision g + 1) /\ sent_for s x.1 k group.1 change rev
  | _ => cl_sent x.1 = cl_sent s
  end.
Proof.
  intros x. unfold UpdateGroup in x.
  assert (Hup : updating s x).
  { unfold x. rewrite UpdateGroup_two. apply updating_bind; [apply quiet_key|]. intros key s1.
    apply updating_bind; [apply (sframe_lift calm final_error), master_key_errors|]. intros k s2.
    apply updating_bind; [apply quiet_retrieve|]. intros group s3. apply updating_bind; [apply quiet_get_group|]. intros g s4.
    apply updating_bind; [apply quiet_password|]. intros pw s5. apply updating_loop. }
  destruct Hup as (P1 & F1 & S1). split_and!.
  - intros resolve. unfold x. by rewrite !UpdateGroup_two.
  - lia.
  - destruct x.2; [done| |done]. intros [= ->]. by destruct F1.
  - destruct x.2; [done| |done]. intros [= ->]. by destruct F1.
  - intros Hn. unfold x. rewrite UpdateGroup_two. unfold known_master_key, MasterKeyFromGroupIdentifier, sbind. by rewrite Hn.
  - destruct x as [s' r] eqn:Ex. cbn [fst snd] in *. destruct r as [rev|e|]; [|done..].
    by apply update_group_ok.
Qed.

End UpdateProofs.

(** ** The cache under the client's operations *)
Section CacheInvariant.
Context `{G : GroupLib} `{EN : Endorsements} `{BP : GroupProto} `{GR : GraphicRunes} `{GW : GroupWire} `{R : Random}.
Context `{AL : !AuthLib} {W : Type} `{NW : GroupNetwork W}.
Context (account : Account) (fetch_credential : UUID -> option zk_credential).
#[local] Abbreviation client := (client (W := W)).
#[local] Abbreviation GroupClient := (GroupClient (W := W)).

(** The identifier of a decrypted group belongs to its master key. *)
Lemma decryptGroup_identified g k group : decryptGroup g k = Ok group -> identified group.
Proof.
  unfold decryptGroup. intros H. apply obind_Ok_inv in H as (kb & Hk & H). apply obind_Ok_inv in H as (params & _ & H).
  apply obind_Ok_inv in H as (gid & Hg & H). apply obind_Ok_inv in H as (t & _ & H). cbv zeta in H.
  apply obind_Ok_inv in H as (d & _ & H). apply obind_Ok_inv in H as (m & _ & H). apply obind_Ok_inv in H as (p & _ & H).
  apply obind_Ok_inv in H as (r & _ & H). apply obind_Ok_inv in H as (b & _ & H). apply Ok_inj in H as <-.
  unfold identified, key_of_group. cbn. unfold groupIdentifierFromMasterKey in Hg. unfold wrap_err in Hg.
  destruct (masterKeyToBytes (E := group_key_error) k) as [kb'| |] eqn:Ek'; cbn in Hg; [|done..].
  destruct (derive_group_identifier kb') as [gid'|] eqn:Ed; cbn in Hg; [|done]. apply Ok_inj in Hg as <-.
  exists kb', gid'. split_and!; [|done..]. unfold masterKeyToBytes, to_array in *. by repeat case_match; simplify_eq.
Qed.

Definition keeps (s s' : GroupClient) : Prop := cache_ok (cl_cache s) -> cache_ok (cl_cache s').
#[local] Instance keeps_preorder : PreOrder keeps.
Proof. split; [intros s H; exact H|]. intros s1 s2 s3 H1 H2 H. by apply H2, H1. Qed.
#[local] Abbreviation safe := (sframe keeps (fun _ : group_error => True)).

Lemma any_error {A} (m : outcome group_error A) : oerr (fun _ => True) m.
Proof. by destruct m. Qed.

(** An operation that leaves the cache alone. *)
Lemma safe_same {A} (m : client A) : (forall s, cl_cache (m s).1 = cl_cache s) -> safe m.
Proof. intros H s. split; [|apply any_error]. intros Hc. by rewrite H. Qed.

Lemma ReceiveWithServiceIDs_no_panic r l u t p : ReceiveWithServiceIDs r l u t p <> Panic.
Proof. unfold ReceiveWithServiceIDs. cbv zeta. destruct (ffi_receive _ _ _ _ _); [|done]. cbn. by destruct (GroupSendEndorsementCombine _). Qed.

Lemma ApplyUpdate_panic change resp now gc gc' : ApplyUpdate change resp now gc = (gc', Panic) -> gc' = gc.
Proof.
  unfold ApplyUpdate. intros H. destruct (obind _ _) as [[id gsp]|e|]; [|by injection H..].
  destruct (gc_data gc !! id) as [cached|]; [|by injection H]. destruct (_ <=? _); [by injection H|]. destruct (_ <? _); [by injection H|].
  destruct (gc_heap gc !! cg_Group cached); [|by injection H]. destruct (apply_change change _); [|by injection H..].
  destruct (ReceiveWithServiceIDs _ _ _ _ _) as [[]| |] eqn:E; [|by injection H|by apply ReceiveWithServiceIDs_no_panic in E].
  by destruct (GetExpiration resp).
Qed.

Lemma safe_apply change resp now : safe (on_cache (ApplyUpdate change resp now)).
Proof.
  intros s. split; [|apply any_error]. intros Hok. unfold on_cache. destruct (ApplyUpdate _ _ _ _) as [c r] eqn:E. cbn.
  destruct r as [u|e|]; [by eapply ApplyUpdate_ok..|]. by rewrite (ApplyUpdate_panic _ _ _ _ _ E).
Qed.

Ltac safe_step :=
  match goal with
  | |- oerr (fun _ => True) _ => apply any_error
  | |- sframe _ _ (sbind _ _) => apply (sframe_bind keeps _); [|intros]
  | |- sframe _ _ (sret _) => apply (sframe_ret keeps _)
  | |- sframe _ _ (slift _) => apply (sframe_lift keeps _)
  | |- sframe _ _ (sfor _ _) => apply (sframe_for keeps _); intros
  | |- sframe _ _ (smap _ _) => apply (sframe_for keeps _); intros
  | |- sframe _ _ (smodify _) => apply safe_same; intros; reflexivity
  | |- sframe _ _ next_draw => apply safe_same; reflexivity
  | |- sframe _ _ get_cache => apply safe_same; reflexivity
  | |- sframe _ _ (store_profile_key _ _) => apply safe_same; reflexivity
  | |- sframe _ _ (get_group _) => apply safe_same; reflexivity
  | |- sframe _ _ (MasterKeyFromGroupIdentifier _) => apply safe_same; reflexivity
  | |- sframe _ _ (on_cache (ApplyUpdate _ _ _)) => apply safe_apply
  | |- context [match ?x with _ => _ end] => lazymatch x with context [match _ with _ => _ end] => fail | _ => destruct x end
  end.
Ltac safe := repeat (cbv zeta; safe_step).

Lemma safe_send req : safe (send_http (W := W) req).
Proof. apply safe_same. intros s. unfold send_http. by destruct (SendHTTPRequest _ _). Qed.

Lemma safe_auth now k : safe (GetAuthorizationForToday account now k).
Proof.
  unfold GetAuthorizationForToday. safe. intros s. split; [|apply any_error]. unfold get_credentials.
  destruct (getCachedCredentials _ _) eqn:E; [by intros H|]. destruct (fetchNewGroupCreds _ _ _) as [w r]. unfold on_cache, set_net. cbn [cl_cache].
  destruct (GetCredentials _ _ _ _) as [c x] eqn:Ec. intros Hok. cbn. apply (f_equal fst) in Ec. cbn in Ec. subst c.
  eapply cache_ok_same; [..|exact Hok]; unfold GetCredentials; cbv zeta; rewrite E; cbn [set_credentials gc_credentials id];
    destruct (getCachedCredentials _ _); try done; by destruct r.
Qed.

Lemma safe_key gid : safe (known_master_key (W := W) gid).
Proof. unfold known_master_key. safe. Qed.

Lemma safe_parse now response k : safe (parseGroupResponse (W := W) now response k).
Proof.
  unfold parseGroupResponse. apply (sframe_bind keeps _); [safe|]. intros b. apply (sframe_bind keeps _); [safe|]. intros resp s.
  destruct (decrypt_group_ptr (pgr_Group resp) k) as [group| |] eqn:Eg; [|split; [by intros H|done]..].
  rewrite (sbind_eq (slift (Ok group)) _ s s (Ok group) eq_refl).
  destruct (new_group group (cl_cache s)) as [r c] eqn:En.
  rewrite (sbind_eq (alloc_group group) _ s (set_cache c s) (Ok r)) by (unfold alloc_group; by rewrite En).
  assert (Hput : cache_ok (cl_cache s) -> cache_ok (cl_cache (put_group now r (pgr_Endorsements resp) (set_cache c s)).1)).
  { intros Hok. destruct (cache_ok_new _ _ _ _ En Hok) as (Hok1 & Hr & _).
    assert (Hid : identified group).
    { unfold decrypt_group_ptr in Eg. destruct (pgr_Group resp) as [g|]; [by eapply decryptGroup_identified|].
      apply obind_Ok_inv in Eg as (? & _ & Eg). apply obind_Ok_inv in Eg as (? & _ & Eg). by apply obind_Ok_inv in Eg as (? & _ & Eg). }
    unfold put_group. cbn [set_cache cl_cache]. destruct (cache_Put _ _ _ _) as [c' res] eqn:Ep.
    pose proof (cache_Put_ok _ _ _ _ _ _ _ Ep Hr Hid Hok1). by destruct res. }
  destruct (put_group now r (pgr_Endorsements resp) (set_cache c s)) as [s1 x] eqn:E1. rewrite (sbind_eq _ _ _ _ _ E1). cbn [fst] in Hput.
  destruct x as [u|e|]; [|split; [exact Hput|done]..].
  match goal with |- context [sbind ?m ?f s1] => assert (Hs : safe (sbind m f)) by safe; destruct (Hs s1) as [H1 H2] end.
  split; [|apply any_error]. intros Hok. by apply H1, Hput.
Qed.

Lemma safe_retrieve now gid revision : safe (RetrieveGroupByID account now gid revision).
Proof.
  unfold RetrieveGroupByID, fetchGroupByID, fetchGroupWithMasterKey. safe; first [apply safe_key|apply safe_auth|apply safe_send|apply safe_parse].
Qed.

Lemma safe_encrypt_member m params : safe (encryptMember (W := W) fetch_credential (acc_ACI account) m params).
Proof.
  intros s. split; [|apply any_error]. unfold encryptMember. destruct (fetch_credential _) as [c|].
  - assert (Hc : safe (create_presentation (W := W) params c)) by (unfold create_presentation; safe).
    destruct (Hc s) as [H _]. by destruct (create_presentation _ _ _) as [s' []].
  - assert (Hp : forall p, safe (encryptPendingMember (W := W) p params)) by (intros p; unfold encryptPendingMember, encrypt_id; safe).
    destruct (Hp (mkPending (UserServiceID m) (gm_Role m) (acc_ACI account) 0) s) as [H _].
    by destruct (encryptPendingMember _ _ _) as [s' []].
Qed.

Lemma safe_sign now change : safe (EncryptAndSignGroupChange account fetch_credential now change).
Proof.
  unfold EncryptAndSignGroupChange, encrypt_actions, encrypt_property, encrypt_id, encryptPendingMember, encrypt_presentation,
    create_presentation, encrypt_id, patchGroup.
  safe; first [apply safe_encrypt_member|apply safe_auth|apply safe_send].
Qed.

Lemma safe_delete gid : safe (smodify (fun s => set_cache (cache_Delete gid (cl_cache s)) s)).
Proof. intros s. split; [|done]. intros Hok. by apply cache_ok_delete. Qed.

Lemma safe_attempts now resolve n gid b group change : safe (update_attempts account fetch_credential now resolve n gid b group change).
Proof.
  revert b group change. induction n as [|n IH]; intros b group change s; cbn [update_attempts]; destruct (safe_sign now change s) as [H1 _];
    destruct (EncryptAndSignGroupChange account fetch_credential now change s) as [s1 [r|e|]]; cbn [fst] in H1; try (split; [exact H1|done]).
  destruct (is_resp_error e GroupPatchNotAcceptedError).
  - destruct (_ && _); [|split; [exact H1|apply any_error]]. destruct (IH true group change s1) as [H2 H3]. split; [by transitivity s1|done].
  - destruct (is_resp_error e ConflictError); [|split; [exact H1|apply any_error]].
    match goal with |- context [sbind ?m ?f s1] => assert (Hs : safe (sbind m f)) end.
    { apply (sframe_bind keeps _); [apply safe_delete|]. intros _. apply (sframe_bind keeps _); [apply safe_retrieve|]. intros g.
      safe. apply IH. }
    destruct (Hs s1) as [H2 H3]. split; [by transitivity s1|done].
Qed.

Lemma safe_logged (m : client unit) : safe m -> safe (logged m).
Proof. intros H s. unfold logged. destruct (H s) as [H1 _]. by destruct (m s) as [s1 []]. Qed.

Lemma safe_send_update ts group ctx change : safe (SendGroupUpdate (W := W) ts group ctx change).
Proof. unfold SendGroupUpdate. safe. Qed.

Lemma safe_update now ts change gid : safe (UpdateGroup account fetch_credential now ts change gid).
Proof.
  unfold UpdateGroup, UpdateGroup_with, change_password, finish_update.
  safe; first [apply safe_key|apply safe_retrieve|apply safe_attempts|apply safe_logged, safe_send_update|apply safe_logged, safe_apply].
Qed.

Lemma safe_create now ts g : safe (CreateGroup account fetch_credential now ts g).
Proof.
  unfold CreateGroup, createGroupOnServer, PrepareGroupCreation, EncryptGroup, encrypt_property, encryptPendingMember, encrypt_id, GroupStore_StoreMasterKey.
  safe; first [apply safe_encrypt_member|apply safe_auth|apply safe_send|apply safe_parse|apply safe_send_update].
Qed.

Lemma safe_change_body enc k v : safe (decrypt_change_body (W := W) enc k v).
Proof.
  unfold decrypt_change_body, decrypt_actions, decrypt_add_member, decrypt_profile_key_action, decrypt_pni_aci, decrypt_add_requesting. safe.
Qed.

Lemma safe_decrypt_change now enc k v : safe (decryptGroupChange (W := W) now enc k v).
Proof.
  intros s. split; [|apply any_error]. unfold decryptGroupChange. destruct (safe_change_body enc k v s) as [H1 _].
  assert (Hev : forall s1, keeps s1 (evict_group k s1)).
  { intros s1 Hok. unfold evict_group. destruct (masterKeyToBytes k) as [kb| |]; [|done..]. destruct (derive_group_identifier kb); [|done].
    by apply cache_ok_delete. }
  destruct (decrypt_change_body enc k v s) as [s1 [change|e|]]; cbn [fst] in *; [|by transitivity s1..].
  transitivity s1; [done|]. destruct (safe_apply change [] now s1) as [H2 _]. unfold on_cache in H2.
  by destruct (ApplyUpdate change [] now (cl_cache s1)) as [c []].
Qed.

Lemma safe_change now ctx : safe (DecryptGroupChange (W := W) now ctx).
Proof. unfold DecryptGroupChange. safe. apply safe_decrypt_change. Qed.

Lemma safe_history now gid from first : safe (GetGroupHistoryPage account now gid from first).
Proof.
  unfold GetGroupHistoryPage, decryptGroupChanges. safe; first [apply safe_key|apply safe_auth|apply safe_send|apply safe_decrypt_change].
Qed.

(** The client's operations on groups, and calls noted in the cache. *)
Inductive client_step : GroupClient -> GroupClient -> Prop :=
| client_retrieve now gid revision s : client_step s (RetrieveGroupByID account now gid revision s).1
| client_change now ctx s : client_step s (DecryptGroupChange now ctx s).1
| client_update now ts change gid s : client_step s (UpdateGroup account fetch_credential now ts change gid s).1
| client_create now ts g s : client_step s (CreateGroup account fetch_credential now ts g s).1
| client_history now gid from first s : client_step s (GetGroupHistoryPage account now gid from first s).1
| client_call id callID s : client_step s (set_cache (UpdateActiveCall id callID (cl_cache s)).1 s).

(** C37: an invariant of the client: after any sequence of retrieving,
    updating and creating groups, incoming changes and history pages, whatever
    the server answered and whether or not an operation failed, each entry of
    the group cache points to a group object whose identifier is the entry's
    key and belongs to the group's master key, and no two entries share an
    object, so that the in-place update of a group never changes another. *)
Theorem client_cache_invariant s s' (Hempty : exists sid, cl_cache s = NewGroupCache sid) (H : rtc client_step s s') :
  cache_ok (cl_cache s') /\
  forall id1 id2 c1 c2, gc_data (cl_cache s') !! id1 = Some c1 -> gc_data (cl_cache s') !! id2 = Some c2 ->
    cg_Group c1 = cg_Group c2 -> id1 = id2.
Proof.
  assert (H0 : cache_ok (cl_cache s)).
  { destruct Hempty as [sid ->]. split; intros ? ? Hx; cbn in Hx; by rewrite lookup_empty in Hx. }
  assert (Hok : cache_ok (cl_cache s')).
  { clear Hempty. induction H as [|s1 s2 s3 Hstep _ IH]; [done|]. apply IH.
    destruct Hstep; first [by apply safe_retrieve|by apply safe_change|by apply safe_update|by apply safe_create|by apply safe_history|idtac].
    eapply cache_ok_same; [..|exact H0]; cbn; unfold UpdateActiveCall; by case_bool_decide. }
  split; [done|]. by apply cache_ok_distinct.
Qed.

End CacheInvariant.
