(* ===== verification/GroupSamples.v ===== *)
(** Concrete instances of the parameters of the group files, and runs of the
    group operations on them.

    The toy cryptography puts the plain text into the ciphertext; it satisfies
    [ZkGroupLaws] and [GroupProtoLaws], so what is proved from them is about
    something. *)
From S2P Require Import Prelude GoLib ServiceId Crypto Storage ChatSettings RecipientStore StorageSync Groups GroupCache GroupChanges GroupUpdate.

Module SampleGroups.

(** ** Toy cryptography *)

Definition clear_id (s : ServiceID) : bytes := FixedBytes s ++ repeat x00 48.
Definition open_id (b : bytes) : option ServiceID :=
  match b with
  | t :: rest => mkServiceID t <$> to_fixed 16 (take 16 rest)
  | [] => None
  end.
Definition clear_key (k : fixed 32) : bytes := fixed_bytes k ++ repeat x00 33.

#[export] Instance toy_lib : GroupLib := { derive_group_identifier k := Some k }.

#[export] Instance toy_zk : ZkGroup := {|
  zk_params := unit;
  zk_credential := UUID * fixed 32;
  zk_derive _ := Some tt;
  DecryptServiceID _ ct := open_id (fixed_bytes ct);
  EncryptServiceID _ s := to_fixed 65 (clear_id s);
  DecryptProfileKey _ ct _ := to_fixed 32 (take 32 (fixed_bytes ct));
  DecryptBlobWithPadding _ b := match b with _ :: b => Some b | [] => None end;
  EncryptBlobWithPadding _ _ b := Some (x01 :: b);
  presentation_CheckValidContents pr := (length pr =? 130)%nat;
  presentation_UUIDCiphertext pr := to_fixed 65 (take 65 pr);
  presentation_ProfileKeyCiphertext pr := to_fixed 65 (drop 65 pr);
  CreatePresentation _ _ c := Some (clear_id (NewACIServiceID c.1) ++ clear_key c.2);
  GetPublicParams _ := Some [];
  VerifySignature _ _ := true
|}.

Fixpoint pos_bits (p : positive) : bytes :=
  match p with xH => [] | xO p => x00 :: pos_bits p | xI p => x01 :: pos_bits p end.
Fixpoint bits_pos (b : bytes) : positive :=
  match b with [] => xH | x00 :: b => xO (bits_pos b) | _ :: b => xI (bits_pos b) end.
Definition z_bytes (z : Z) : bytes := match z with Z0 => [x00] | Zpos p => x01 :: pos_bits p | Zneg p => x02 :: pos_bits p end.
Definition bytes_z (b : bytes) : Z := match b with x01 :: b => Zpos (bits_pos b) | x02 :: b => Zneg (bits_pos b) | _ => 0 end.

Lemma bits_pos_bits p : bits_pos (pos_bits p) = p.
Proof. induction p as [p IH|p IH|]; cbn; [by rewrite IH..|done]. Qed.
Lemma bytes_z_bytes z : bytes_z (z_bytes z) = z.
Proof. destruct z; cbn; by rewrite ?bits_pos_bits. Qed.

#[export] Instance toy_proto : GroupProto := {
  marshal_blob b := Some match b with
    | Blob_Title s => x0a :: s
    | Blob_Avatar s => x12 :: s
    | Blob_DisappearingMessagesDuration d => x18 :: z_bytes d
    | Blob_DescriptionText s => x22 :: s
    | Blob_nil => []
    end;
  unmarshal_blob b := match b with
    | x0a :: s => Some (Blob_Title s)
    | x12 :: s => Some (Blob_Avatar s)
    | x18 :: s => Some (Blob_DisappearingMessagesDuration (bytes_z s))
    | x22 :: s => Some (Blob_DescriptionText s)
    | [] => Some Blob_nil
    | _ => None
    end
}.
#[export] Instance toy_graphic : GraphicRunes := { is_graphic _ := true }.
#[export] Instance toy_random : Random := { random_Bytes _ n := repeat x07 n }.

Lemma clear_id_length s : length (clear_id s) = 65%nat.
Proof. unfold clear_id, FixedBytes. rewrite length_app, repeat_length. cbn [length]. by rewrite fixed_length. Qed.
Lemma clear_key_length k : length (clear_key k) = 65%nat.
Proof. unfold clear_key. by rewrite length_app, repeat_length, fixed_length. Qed.

Lemma open_clear s : open_id (clear_id s) = Some s.
Proof.
  unfold open_id, clear_id, FixedBytes. cbn [app]. rewrite take_app_le by (by rewrite fixed_length).
  rewrite take_ge by (by rewrite fixed_length). rewrite to_fixed_bytes. by destruct s.
Qed.

#[export] Program Instance toy_zk_laws : ZkGroupLaws toy_zk := { cred_aci c := c.1; cred_key c := c.2 }.
Next Obligation.
  intros p s _. cbn [EncryptServiceID DecryptServiceID toy_zk]. destruct (to_fixed_is_Some 65 _ (clear_id_length s)) as (f & Hf & Hb). exists f. rewrite Hf, Hb. split; [done|apply open_clear].
Qed.
Next Obligation. intros d p b. exists (x01 :: b). by split_and!. Qed.
Next Obligation.
  intros d p [u k]. cbn [fst snd].
  destruct (to_fixed_is_Some 65 _ (clear_id_length (NewACIServiceID u))) as (f & Hf & Hb).
  destruct (to_fixed_is_Some 65 _ (clear_key_length k)) as (f' & Hf' & Hb').
  eexists _, f, f'. cbn [CreatePresentation presentation_CheckValidContents presentation_UUIDCiphertext presentation_ProfileKeyCiphertext
    DecryptServiceID DecryptProfileKey toy_zk fst snd]. split_and!.
  - done.
  - done.
  - rewrite length_app, clear_id_length, clear_key_length. done.
  - rewrite take_app_le, take_ge; rewrite ?clear_id_length; done.
  - rewrite drop_app_ge, clear_id_length; [|by rewrite clear_id_length]. done.
  - rewrite Hb. apply open_clear.
  - rewrite Hb'. unfold clear_key. rewrite take_app_le, take_ge; rewrite ?fixed_length; [|done..]. by rewrite to_fixed_bytes.
Qed.

#[export] Instance toy_proto_laws : GroupProtoLaws toy_proto.
Proof.
  split. intros b _. eexists. split; [reflexivity|]. destruct b; cbn; [done..| |done|done]. by rewrite bytes_z_bytes.
Qed.

(** ** A toy server *)

Definition alice : UUID := mk_fixed (n := 16) (repeat x0a 16) eq_refl.
Definition bob : UUID := mk_fixed (n := 16) (repeat x0b 16) eq_refl.
Definition carol : UUID := mk_fixed (n := 16) (repeat x0c 16) eq_refl.
Definition key_a : fixed 32 := mk_fixed (n := 32) (repeat x41 32) eq_refl.
Definition key_b : fixed 32 := mk_fixed (n := 32) (repeat x42 32) eq_refl.
Definition group_key : bytes := masterKeyFromBytes key_a.
Definition group_id : bytes := BytesToGroupIdentifier (Some key_a).

(** The credentials of Alice and Bob are known, Carol's is not. *)
Definition toy_credential (u : UUID) : option (UUID * fixed 32) :=
  if bool_decide (u = alice) then Some (alice, key_a) else if bool_decide (u = bob) then Some (bob, key_b) else None.

Definition presented (u : UUID) (k : fixed 32) : bytes := clear_id (NewACIServiceID u) ++ clear_key k.
Definition server_group : pb_Group :=
  mkPbGroup [] (x01 :: x0a :: str "Team") [] [] (Some (mkPbAccess 2 2 4)) 7 [mkPbMember [] 2 [] (presented alice key_a) 0] [] [] [] [] false [].

#[export] Instance toy_wire : GroupWire := {
  marshal_actions _ := Some [];
  unmarshal_actions _ := None;
  marshal_group_change _ := Some [];
  unmarshal_group_change _ := None;
  unmarshal_group_response _ := Some (mkGroupResponse (Some server_group) []);
  unmarshal_change_response _ := Some (mkGroupChangeResponse None []);
  marshal_group _ := Some []
}.
#[export] Instance toy_endorsements : Endorsements := {
  ffi_receive _ _ _ _ _ := Some [];
  GroupSendEndorsementCombine _ := Some [];
  GetExpiration _ := Some 1000000;
  ToFullToken b _ _ := Some b
}.
#[export] Instance toy_auth : AuthLib := {|
  auth_response := unit;
  auth_credential := unit;
  unmarshal_credentials _ := Some (mkCredentials [mkCredential [] 0] bob);
  NewAuthCredentialWithPniResponse _ := Some tt;
  ReceiveAuthCredentialZKC _ _ _ _ := Some tt;
  ReceiveAuthCredentialWithPni _ _ _ _ := Some tt;
  CreateAuthCredentialWithPniPresentation _ _ _ := Some []
|}.
(** The server refuses the first patch: the network counts requests. *)
#[export] Instance toy_network : GroupNetwork nat := {
  SendHTTPRequest req n := (S n, Some (mkResponse (if (n =? 1)%nat then 400 else 200) (Some (Some []))));
  AuthedWS_Get _ n := (n, Some (200, []));
  unmarshal_group_changes _ := Some []
}.

Definition toy_account : Account := mkAccount alice bob None.
Definition toy_client : GroupClient (W := nat) :=
  mkClient (mkStore [] ∅) {[ group_id := group_key ]} (NewGroupCache (NewACIServiceID alice)) [] [] [] 0%nat 0%nat.

(** Add Bob and Carol, rename the group, promote Bob's request. *)
Definition member_of_role (u : UUID) (r : Z) : AddMember := mkAddMember (mkMember u r (fixed_zero 32) 0) false.
Definition toy_change : GroupChange :=
  mkGroupChange group_key EmptyServiceID 8 [member_of_role bob 1; member_of_role carol 1] [] [mkRoleMember alice 2] [] [] []
    [] (Some (str "New")) None (Some 3600) None None None [] [] [] None (Some true) [mkBanned (NewACIServiceID carol) 5] [] [] None.

Lemma change_roundtrip_witness :
  sok (S := GroupClient (W := nat)) (encrypt_actions toy_credential alice tt toy_change) (fun acts =>
    sok (S := GroupClient (W := nat)) (decrypt_actions (gch_MasterKey toy_change) tt (with_source (mk_fixed (n := 65) (clear_id (NewACIServiceID alice)) eq_refl) acts))
      (fun c => c = received toy_credential alice toy_change (NewACIServiceID alice))).
Proof.
  apply change_roundtrip.
  - intros u c H. unfold toy_credential in H. case_bool_decide; [by injection H as <-|]. case_bool_decide; [by injection H as <-|done].
  - unfold sendable, toy_change. cbn. split_and!; try done.
    + constructor; [done|constructor].
    + intros t [= <-]. exists [78; 101; 119]. split; [by repeat constructor|by vm_compute].
    + intros d [= <-]. lia.
  - apply open_clear.
Defined.

(** Alice's group with a request of Bob. *)
Definition toy_group : Group :=
  mkGroup group_key group_id (str "Team") [] [mkMember alice 2 key_a 0] [] false 7 0 (Some (mkAccess 2 4 2))
    [mkPending (NewACIServiceID carol) 1 alice 0] [mkRequesting bob key_b 0] [] None.
Definition accept_bob : GroupChange :=
  mkGroupChange group_key EmptyServiceID 8 [] [] [mkRoleMember alice 1] [] [] [NewACIServiceID carol] [] None None None None None None
    [] [] [mkRoleMember bob 1] None None [] [] [] None.

Lemma apply_change_correct_witness : exists g', apply_change (E := group_error) accept_bob toy_group = Ok g' /\
  roster (grp_Members g') = changed_roster accept_bob (grp_RequestingMembers toy_group ++ []) (roster (grp_Members toy_group)) /\
  map gm_ACI (grp_Members g') = [alice; bob].
Proof.
  destruct (apply_change (E := group_error) accept_bob toy_group) as [g'| |] eqn:E; [|discriminate E..].
  exists g'. split; [reflexivity|]. split.
  - refine (proj1 (apply_change_correct accept_bob toy_group g' E _)). apply NoDup_singleton.
  - by injection E as <-.
Defined.

(** The cache with that group. *)
Definition toy_cache : GroupCache := (cache_Put 0 [] 0 (new_group toy_group (NewGroupCache (NewACIServiceID alice))).2).1.

Lemma update_never_stale_witness : exists gc', ApplyUpdate accept_bob [] 0 toy_cache = (gc', Ok tt) /\
  is_Some (gc_data gc' !! group_id) /\ forall c', gc_data gc' !! group_id = Some c' -> 8 <= revision_of gc' c'.
Proof.
  assert (Hid : key_of_group group_key group_id) by (exists key_a, key_a; done).
  assert (Hok : cache_ok toy_cache).
  { apply (cache_Put_ok 0 toy_group [] 0 (new_group toy_group (NewGroupCache (NewACIServiceID alice))).2 toy_cache (Ok tt)); [reflexivity..|exact Hid|].
    refine (proj1 (cache_ok_new toy_group 0 (NewGroupCache (NewACIServiceID alice)) _ eq_refl _)).
    split; intros ? ? Hx; cbn in Hx; by rewrite lookup_empty in Hx. }
  destruct (ApplyUpdate accept_bob [] 0 toy_cache) as [gc' r] eqn:E.
  assert (Hr : r = Ok tt) by (apply (f_equal snd) in E; cbn [snd] in E; rewrite <- E; vm_compute; reflexivity). subst r.
  exists gc'. split; [reflexivity|]. split.
  - apply (f_equal (fun x => bool_decide (is_Some (gc_data x.1 !! group_id)))) in E. cbn [fst] in E.
    apply (bool_decide_unpack _). rewrite <- E. vm_compute. exact I.
  - intros c' Hc. exact (proj1 (update_never_stale toy_cache accept_bob [] 0 gc' (Ok tt) Hok E ltac:(discriminate)) eq_refl group_id c' Hid Hc).
Defined.

Lemma toy_body req w w' resp : SendHTTPRequest (W := nat) req w = (w', Some resp) -> is_Some (resp_Body resp).
Proof. intros [= _ <-]. by eexists. Qed.

Lemma update_group_correct_witness :
  let x := UpdateGroup toy_account toy_credential 0 1000 toy_change group_id toy_client in
  x.2 = Ok 8 /\ patches x.1 = 2%nat /\ length (cl_sent x.1) = 1%nat /\
  (patches x.1 <= patches toy_client + 2)%nat /\ x.2 <> Err TooManyAttempts.
Proof.
  intros x. split_and!; [vm_compute; reflexivity..| |].
  - exact (proj1 (proj2 (update_group_correct toy_account toy_credential 0 1000 toy_body toy_change group_id toy_client))).
  - exact (proj1 (proj2 (proj2 (update_group_correct toy_account toy_credential 0 1000 toy_body toy_change group_id toy_client)))).
Defined.

Lemma client_cache_invariant_witness :
  let s := (UpdateGroup toy_account toy_credential 0 1000 toy_change group_id toy_client).1 in
  is_Some (gc_data (cl_cache s) !! group_id) /\ cache_ok (cl_cache s).
Proof.
  intros s. split; [apply (bool_decide_unpack _); vm_compute; exact I|].
  refine (proj1 (client_cache_invariant (ZK := toy_zk) toy_account toy_credential toy_client s _ _)); [by eexists|].
  eapply rtc_l; [apply (client_update (ZK := toy_zk) toy_account toy_credential 0 1000 toy_change group_id toy_client)|apply rtc_refl].
Defined.

End SampleGroups.
