(* ===== verification/Sending.v ===== *)
(** Sending messages: padding, sessions and prekeys, [sendContent] with its
    retries, sync copies and [SendMessage] ([pkg/signalmeow/sending.go],
    [keys.go], [store/session_store.go]).

    The Signal protocol (sessions, sealed sender, sender keys) is libsignal's
    and a parameter, as are JSON, protobuf and the two websockets.  Reads and
    writes of the database do not fail.  The requests that go out are kept in
    a log. *)
From Stdlib Require Import ZifyNat.
From S2P Require Import Prelude GoLib ServiceId Crypto Storage ChatSettings RecipientStore StorageSync Groups GroupCache GroupChanges.

Inductive send_error :=
| ErrUnregisteredUser
| ErrDevicesChanged
| ErrRateLimited
| SessionNotFound
| OtherError (what : bytes).

Definition err {A} (what : string) : outcome send_error A := Err (OtherError (str what)).

(** ** Padding *)

Definition padBlock (block : bytes) (pos : nat) : outcome send_error bytes :=
  if (length block <=? pos)%nat then err "Padding error"
  else Ok (take pos block ++ [x80] ++ repeat x00 (length block - S pos)).

Definition addPadding (version : Z) (contents : bytes) : outcome send_error bytes :=
  if version <? 2 then err "Unknown version"
  else if version =? 2 then Ok contents
  else
    let messageLengthWithTerminator := (length contents + 1)%nat in
    let messagePartCount := (messageLengthWithTerminator / 160 + (if messageLengthWithTerminator mod 160 =? 0 then 0 else 1))%nat in
    let messageLengthWithPadding := (messagePartCount * 160)%nat in
    padBlock (contents ++ repeat x00 (messageLengthWithPadding - length contents)) (length contents).

(** The loop of [stripPadding], from the end: the list is reversed. *)
Fixpoint strip_reversed (rev_contents : bytes) : outcome send_error bytes :=
  match rev_contents with
  | [] => err "invalid ISO7816 padding"
  | b :: r => if bool_decide (b = x80) then Ok (List.rev r)
              else if negb (bool_decide (b = x00)) then err "invalid ISO7816 padding" else strip_reversed r
  end.
Definition stripPadding (contents : bytes) : outcome send_error bytes := strip_reversed (List.rev contents).

Lemma strip_zeros n r : strip_reversed (repeat x00 n ++ x80 :: r) = Ok (List.rev r).
Proof. induction n as [|n IH]; cbn [repeat app strip_reversed]; [by rewrite bool_decide_true|]. rewrite bool_decide_false by done. by rewrite bool_decide_true. Qed.

Lemma addPadding_shape m : exists n, addPadding 3 m = Ok (m ++ x80 :: repeat x00 n) /\ ((length m + 1 + n) mod 160 = 0)%nat /\ (n < 160)%nat.
Proof.
  unfold addPadding, padBlock. cbn [Z.ltb Z.eqb Z.compare Pos.compare Pos.compare_cont Pos.eqb].
  set (k := (_ * 160)%nat). assert (Hk : (length m + 1 <= k < length m + 161)%nat /\ (k mod 160 = 0)%nat).
  { unfold k. destruct (Nat.eqb_spec ((length m + 1) mod 160) 0); split; try apply Nat.Div0.mod_mul; lia. }
  exists (k - S (length m))%nat. rewrite length_app, repeat_length. clearbody k.
  destruct (Nat.leb_spec (length m + (k - length m)) (length m)) as [Hle|_]; [lia|]. rewrite take_app_le, take_ge by lia. replace (length m + (k - length m) - S (length m))%nat with (k - S (length m))%nat by lia.
  split_and!; [done| |lia]. replace (length m + 1 + (k - S (length m)))%nat with k by lia. lia.
Qed.

(** Whatever was padded for sending is recovered by the receiving side, and
    the padded length is a multiple of 160 bytes. *)
Lemma padding_roundtrip m : exists p, addPadding 3 m = Ok p /\ stripPadding p = Ok m /\ (length p mod 160 = 0)%nat.
Proof.
  destruct (addPadding_shape m) as (n & Hp & Hl & _). eexists. split; [exact Hp|]. split.
  - unfold stripPadding. rewrite rev_app_distr. cbn [List.rev]. rewrite <- app_assoc. cbn [app].
    replace (List.rev (repeat x00 n)) with (repeat x00 n) by (symmetry; apply rev_repeat).
    by rewrite strip_zeros, rev_involutive.
  - rewrite length_app. cbn [length]. rewrite repeat_length. by replace (length m + S n)%nat with (length m + 1 + n)%nat by lia.
Qed.

(** ** Content *)

Record DataMessage := mkData {
  dm_Timestamp : option Z;
  dm_ProfileKey : option bytes;
  dm_GroupV2 : option GroupContextV2;
  dm_IsViewOnce : bool;
  dm_Flags : Z;
  dm_Attachments : list bytes;
  (** the other fields, encoded *)
  dm_rest : bytes
}.
Record EditMessage := mkEdit { em_TargetSentTimestamp : Z; em_DataMessage : option DataMessage }.
Record TypingMessage := mkTyping { ty_Timestamp : option Z; ty_Started : bool; ty_GroupId : option bytes }.
Record ReceiptMessage := mkReceipt { rc_Type : Z; rc_Timestamp : list Z }.
Definition ReceiptMessage_DELIVERY : Z := 0.
Definition ReceiptMessage_READ : Z := 1.
Definition ReceiptMessage_VIEWED : Z := 2.
Definition DataMessage_PROFILE_KEY_UPDATE : Z := 4.

(** A service ID is given as a string, which this client does not use when it
    sends, or in its binary form. *)
Record UnidentifiedDeliveryStatus := mkStatus {
  us_DestinationServiceId : bytes; us_Destination : option bytes; us_Unidentified : bool; us_PniIdentityKey : option bytes
}.
Record SyncSent := mkSyncSent {
  sent_Message : option DataMessage;
  sent_EditMessage : option EditMessage;
  (** encoded *)
  sent_StoryMessage : option bytes;
  sent_MessageTimestamp : option Z;
  sent_DestinationServiceId : bytes;
  sent_Destination : option bytes;
  sent_DestinationE164 : option bytes;
  sent_UnidentifiedStatus : list UnidentifiedDeliveryStatus;
  sent_ExpirationStart : Z
}.
Inductive sync_content :=
| Sync_Sent (s : SyncSent)
| Sync_Request (type : Z)
| Sync_ViewOnceOpen (sender : bytes) (timestamp : Z)
| Sync_Read (read : list (Z * bytes))
| Sync_other (b : bytes).
Record SyncMessage := mkSync { sy_Content : sync_content; sy_Padding : bytes }.

Inductive message :=
| Content_DataMessage (m : DataMessage)
| Content_EditMessage (m : EditMessage)
| Content_TypingMessage (m : TypingMessage)
| Content_ReceiptMessage (m : ReceiptMessage)
| Content_SyncMessage (m : SyncMessage)
| Content_NullMessage (padding : bytes)
| Content_CallMessage (b : bytes)
| Content_StoryMessage (b : bytes)
| Content_DecryptionErrorMessage (b : bytes)
| Content_nil.

(** A sender key distribution message: the key it distributes, and its bytes. *)
Record skdm := mkSkdm { skdm_key : nat; skdm_bytes : bytes }.
Record Content := mkContent { ct_Content : message; ct_SKDM : option skdm; ct_PniSignature : option (bytes * bytes) }.

Definition WrapDataMessage (dm : DataMessage) : Content := mkContent (Content_DataMessage dm) None None.
Definition WrapEditMessage (dm : EditMessage) : Content := mkContent (Content_EditMessage dm) None None.
Definition DeliveredReceiptMessageForTimestamps (timestamps : list Z) : Content :=
  mkContent (Content_ReceiptMessage (mkReceipt ReceiptMessage_DELIVERY timestamps)) None None.
Definition ReadReceptMessageForTimestamps (timestamps : list Z) : Content :=
  mkContent (Content_ReceiptMessage (mkReceipt ReceiptMessage_READ timestamps)) None None.
Definition TypingMessage_of (now : Z) (isTyping : bool) : Content :=
  mkContent (Content_TypingMessage (mkTyping (Some now) isTyping None)) None None.

Definition isSyncMessageUrgent (content : SyncMessage) : bool :=
  match sy_Content content with Sync_Request _ | Sync_Sent _ => true | _ => false end.

Definition isUrgent (rawContent : Content) : bool :=
  match ct_Content rawContent with
  | Content_SyncMessage m => isSyncMessageUrgent m
  | Content_DataMessage _ | Content_EditMessage _ | Content_CallMessage _ | Content_StoryMessage _ => true
  | _ => false
  end.

Definition ContentHintDefault : Z := 0.
Definition ContentHintResendable : Z := 1.
Definition ContentHintImplicit : Z := 2.
Definition getContentHint (rawContent : Content) : Z :=
  match ct_Content rawContent with
  | Content_DataMessage _ | Content_EditMessage _ => ContentHintResendable
  | Content_TypingMessage _ | Content_ReceiptMessage _ => ContentHintImplicit
  | _ => ContentHintDefault
  end.

Definition Envelope_UNKNOWN : Z := 0.
Definition Envelope_DOUBLE_RATCHET : Z := 1.
Definition Envelope_PREKEY_MESSAGE : Z := 3.
Definition Envelope_UNIDENTIFIED_SENDER : Z := 6.
Definition Envelope_PLAINTEXT_CONTENT : Z := 8.
Definition ctmTypeToEnvelopeType (ctmType : Z) : Z :=
  if ctmType =? 2 then Envelope_DOUBLE_RATCHET
  else if ctmType =? 3 then Envelope_PREKEY_MESSAGE
  else if ctmType =? 8 then Envelope_PLAINTEXT_CONTENT
  else Envelope_UNKNOWN.

(** ** Results *)
Record SuccessfulSendResult := mkSuccess {
  su_Recipient : ServiceID; su_RecipientE164 : option bytes; su_Unidentified : bool; su_PNIIdentityKey : option bytes
}.
Record FailedSendResult := mkFailed { fa_Recipient : ServiceID; fa_Error : send_error }.
Record GroupMessageSendResult := mkGroupResult { SuccessfullySentTo : list SuccessfulSendResult; FailedToSendTo : list FailedSendResult }.
Definition SendMessageResult : Type := SuccessfulSendResult * bool + FailedSendResult.

(** A permanent failure is only reported if everyone failed permanently. *)
Definition FailureError (r : GroupMessageSendResult) : option send_error :=
  match List.find (fun f => match fa_Error f with ErrUnregisteredUser => false | _ => true end) (FailedToSendTo r) with
  | Some f => Some (fa_Error f)
  | None => fa_Error <$> last (FailedToSendTo r)
  end.

(** ** libsignal, encodings, network *)

Record prekeyDetail := mkPrekey { pk_KeyID : Z; pk_PublicKey : bytes; pk_Signature : bytes }.
Record prekeyDevice := mkPrekeyDevice {
  pd_DeviceID : Z; pd_RegistrationID : Z; pd_SignedPreKey : prekeyDetail; pd_PreKey : option prekeyDetail; pd_PQPreKey : option prekeyDetail
}.
Record prekeyResponse := mkPrekeys { pr_IdentityKey : bytes; pr_Devices : list prekeyDevice }.

Class SignalProtocol : Type := {
  session_record : Type;
  HasCurrentState : session_record -> option bool;
  GetRemoteRegistrationID : session_record -> option Z;
  ArchiveCurrentState : session_record -> option session_record;
  identity_key : Type;
  public_key : Type;
  CurrentRatchetKeyMatches : session_record -> public_key -> option bool;
  kyber_key : Type;
  prekey_bundle : Type;
  (** an error, nil or a key *)
  DeserializeIdentityKey : bytes -> option (option identity_key);
  DeserializePublicKey : bytes -> option public_key;
  DeserializeKyberPublicKey : bytes -> option kyber_key;
  NewPreKeyBundle : Z -> Z -> Z -> option public_key -> Z -> public_key -> bytes -> Z -> option kyber_key -> bytes -> identity_key -> option prekey_bundle;
  (** the session with a device, before and after *)
  ProcessPreKeyBundle : prekey_bundle -> ServiceID -> Z -> option session_record -> option session_record;
  newAddress_ok : bytes -> Z -> bool;
  ciphertext : Type;
  Encrypt : bytes -> ServiceID -> Z -> option session_record -> outcome send_error (ciphertext * session_record);
  MessageType : ciphertext -> Z;
  ctm_Serialize : ciphertext -> option bytes;
  sender_certificate : Type;
  cert_GetExpiration : sender_certificate -> option Z;
  DeserializeSenderCertificate : bytes -> option sender_certificate;
  usmc : Type;
  NewUnidentifiedSenderMessageContent : ciphertext -> sender_certificate -> Z -> option (fixed 32) -> option usmc;
  SealedSenderEncrypt : usmc -> ServiceID -> Z -> option bytes;
  DeriveAccessKey : fixed 32 -> option (fixed 16);
  (** signature of the account's ACI identity by its PNI identity *)
  SignAlternateIdentity : option bytes;
  (** decryption error messages: made for a message that could not be
      decrypted, and read; the ratchet key may be missing *)
  decryption_error : Type;
  DecryptionErrorMessageForOriginalMessage : bytes -> Z -> Z -> Z -> option decryption_error;
  dem_Serialize : decryption_error -> option bytes;
  PlaintextContentFromDecryptionErrorMessage : decryption_error -> option ciphertext;
  dem_GetDeviceID : decryption_error -> option Z;
  dem_GetTimestamp : decryption_error -> option Z;
  dem_GetRatchetKey : decryption_error -> option (option public_key);
  (** sender keys: a new one from a draw, its distribution message, encryption *)
  sender_chain : Type;
  new_chain : nat -> option sender_chain;
  skdm_Serialize : sender_chain -> option bytes;
  GroupEncrypt : bytes -> sender_chain -> outcome send_error (ciphertext * sender_chain);
  (** the error of encrypting without a sender key *)
  NoSenderKeyState : send_error;
  SealedSenderMultiRecipientEncrypt : usmc -> list (ServiceID * Z * session_record) -> outcome send_error bytes
}.

Record ws_response := mkWS { ws_Status : Z; ws_Body : bytes; ws_Headers : list bytes }.

Record MyMessage := mkMyMessage { mm_Type : Z; mm_DestinationDeviceID : Z; mm_DestinationRegistrationID : Z; mm_Content : bytes }.
Record MyMessages := mkMyMessages { mms_Timestamp : Z; mms_Online : bool; mms_Urgent : bool; mms_Messages : list MyMessage }.
Record SingleRecipient409410Response := mk409 { MissingDevices : list Z; ExtraDevices : list Z; StaleDevices : list Z }.

Class MessageNetwork (W : Type) : Type := {
  (** [SendRequest] on the authenticated or the other websocket *)
  SendRequest : bool -> bytes -> bytes -> bytes -> list (bytes * bytes) -> W -> W * option ws_response
}.

Class MessageCodec : Type := {
  marshal_content : Content -> option bytes;
  json_messages : MyMessages -> option bytes;
  json_prekeys : bytes -> option prekeyResponse;
  json_certificate : bytes -> option bytes;
  json_409410 : bytes -> option SingleRecipient409410Response;
  json_multi_409410 : bytes -> option (list (ServiceID * SingleRecipient409410Response));
  (** [UUIDs404] of a multi-recipient response *)
  json_multi_200 : bytes -> option (list ServiceID);
  json_object : bytes -> bool;
  (** [rand.IntN] and [uuid.New] by draw *)
  rand_IntN : nat -> nat -> nat;
  uuid_New : nat -> UUID
}.

Section Sending.
Context `{U : UUIDLib} `{SP : SignalProtocol} `{MC : MessageCodec} `{R : Random} {W : Type} `{NW : MessageNetwork W}.

(** ** State *)

Record sender_key := mkSenderKey { sk_id : nat; sk_chain : sender_chain }.
Record SenderKeyInfo := mkSenderKeyInfo { ski_DistributionID : UUID; ski_SharedWith : gmap ServiceID (list Z); ski_CreatedAt : Z }.

(** Message requests: to one recipient, with the devices, the sender key that
    is distributed and the response status; and to the given devices with a
    sender key, for a group message to the given users. *)
Inductive send_event :=
| Ev_Message (authed : bool) (recipient : ServiceID) (devices : list Z) (key : option nat) (status : option Z)
| Ev_Multi (key : nat) (targets : list (ServiceID * Z)) (members : list ServiceID) (status : Z).

Record SendState := mkSend {
  ss_recipients : RecipientStore;
  ss_unregistered : gset UUID;
  ss_sessions : gmap (ServiceID * Z) session_record;
  ss_certs : option sender_certificate * option sender_certificate;
  (** the account's own sender keys, by distribution ID *)
  ss_senderKeys : gmap UUID sender_key;
  ss_infos : gmap bytes SenderKeyInfo;
  ss_sendCache : list (sendCacheKey * Content);
  ss_LastContactRequestTime : Z;
  ss_draw : nat;
  ss_log : list send_event;
  ss_net : W
}.

Definition sender (A : Type) : Type := stateE SendState send_error A.

Definition gets {A} (f : SendState -> A) : sender A := fun s => (s, Ok (f s)).
Definition set_recipients (x : RecipientStore) (s : SendState) : SendState :=
  mkSend x (ss_unregistered s) (ss_sessions s) (ss_certs s) (ss_senderKeys s) (ss_infos s) (ss_sendCache s) (ss_LastContactRequestTime s) (ss_draw s) (ss_log s) (ss_net s).
Definition set_unregistered (x : gset UUID) (s : SendState) : SendState :=
  mkSend (ss_recipients s) x (ss_sessions s) (ss_certs s) (ss_senderKeys s) (ss_infos s) (ss_sendCache s) (ss_LastContactRequestTime s) (ss_draw s) (ss_log s) (ss_net s).
Definition set_sessions (x : gmap (ServiceID * Z) session_record) (s : SendState) : SendState :=
  mkSend (ss_recipients s) (ss_unregistered s) x (ss_certs s) (ss_senderKeys s) (ss_infos s) (ss_sendCache s) (ss_LastContactRequestTime s) (ss_draw s) (ss_log s) (ss_net s).
Definition set_certs x (s : SendState) : SendState :=
  mkSend (ss_recipients s) (ss_unregistered s) (ss_sessions s) x (ss_senderKeys s) (ss_infos s) (ss_sendCache s) (ss_LastContactRequestTime s) (ss_draw s) (ss_log s) (ss_net s).
Definition set_senderKeys x (s : SendState) : SendState :=
  mkSend (ss_recipients s) (ss_unregistered s) (ss_sessions s) (ss_certs s) x (ss_infos s) (ss_sendCache s) (ss_LastContactRequestTime s) (ss_draw s) (ss_log s) (ss_net s).
Definition set_infos x (s : SendState) : SendState :=
  mkSend (ss_recipients s) (ss_unregistered s) (ss_sessions s) (ss_certs s) (ss_senderKeys s) x (ss_sendCache s) (ss_LastContactRequestTime s) (ss_draw s) (ss_log s) (ss_net s).
Definition set_sendCache x (s : SendState) : SendState :=
  mkSend (ss_recipients s) (ss_unregistered s) (ss_sessions s) (ss_certs s) (ss_senderKeys s) (ss_infos s) x (ss_LastContactRequestTime s) (ss_draw s) (ss_log s) (ss_net s).
Definition set_contactRequest x (s : SendState) : SendState :=
  mkSend (ss_recipients s) (ss_unregistered s) (ss_sessions s) (ss_certs s) (ss_senderKeys s) (ss_infos s) (ss_sendCache s) x (ss_draw s) (ss_log s) (ss_net s).
Definition set_sdraw x (s : SendState) : SendState :=
  mkSend (ss_recipients s) (ss_unregistered s) (ss_sessions s) (ss_certs s) (ss_senderKeys s) (ss_infos s) (ss_sendCache s) (ss_LastContactRequestTime s) x (ss_log s) (ss_net s).
Definition set_log x (s : SendState) : SendState :=
  mkSend (ss_recipients s) (ss_unregistered s) (ss_sessions s) (ss_certs s) (ss_senderKeys s) (ss_infos s) (ss_sendCache s) (ss_LastContactRequestTime s) (ss_draw s) x (ss_net s).
Definition set_snet x (s : SendState) : SendState :=
  mkSend (ss_recipients s) (ss_unregistered s) (ss_sessions s) (ss_certs s) (ss_senderKeys s) (ss_infos s) (ss_sendCache s) (ss_LastContactRequestTime s) (ss_draw s) (ss_log s) x.

Definition log_event (e : send_event) : sender unit := smodify (fun s => set_log (ss_log s ++ [e]) s).
Definition draw_next : sender nat := fun s => (set_sdraw (S (ss_draw s)) s, Ok (ss_draw s)).

Definition send_request (authed : bool) (method path body : bytes) (headers : list (bytes * bytes)) : sender ws_response := fun s =>
  let '(w, r) := SendRequest authed method path body headers (ss_net s) in
  (set_snet w s, of_option (OtherError (str "send request failed")) r).

(** The device the client runs as; [AccountRecord] holds whether the phone
    number is shared with everybody and the two privacy settings. *)
Record SendDevice := mkDevice {
  dev_ACI : UUID; dev_PNI : UUID; dev_DeviceID : Z; dev_AccountRecord : option (bool * bool * bool)
}.
Context (dev : SendDevice) (now : Z).

Definition ACIServiceID : ServiceID := NewACIServiceID (dev_ACI dev).

(** ** Stores *)

Definition Address (s : ServiceID) (deviceID : Z) : outcome send_error (ServiceID * Z) :=
  if IsEmpty s then err "cannot create address from empty ServiceID"
  else if newAddress_ok (ServiceID_String s) deviceID then Ok (s, deviceID) else err "address".

Definition own_address : outcome send_error (ServiceID * Z) := Address ACIServiceID (dev_DeviceID dev).

(** The rows of a user, in the order of the table; records without a current
    state are skipped. *)
Definition AllSessionsForServiceID (theirID : ServiceID) : sender (list (Z * session_record)) := fun s =>
  (s, ofor (fun p : ServiceID * Z * session_record =>
         let! hasState := of_option (OtherError (str "session state")) (HasCurrentState p.2) in
         Ok (if hasState : bool then Some (p.1.2, p.2) else None))
       (filter (fun p => p.1.1 = theirID) (map_to_list (ss_sessions s)))).

Definition RemoveSession (address : ServiceID * Z) : sender unit := smodify (fun s => set_sessions (delete address (ss_sessions s)) s).
Definition StoreSession (address : ServiceID * Z) (record : session_record) : sender unit :=
  smodify (fun s => set_sessions (<[address := record]> (ss_sessions s)) s).
Definition RemoveAllSessionsForServiceID (theirID : ServiceID) : sender unit :=
  smodify (fun s => set_sessions (filter (fun p => p.1.1 <> theirID) (ss_sessions s)) s).

Definition IsUnregistered (s : SendState) (serviceID : ServiceID) : bool :=
  bool_decide (sid_Type serviceID = ServiceIDTypeACI) && bool_decide (sid_UUID serviceID ∈ ss_unregistered s).
Definition MarkUnregistered (serviceID : ServiceID) (unregistered : bool) : sender unit :=
  smodify (fun s =>
    if bool_decide (sid_Type serviceID = ServiceIDTypeACI) then
      set_unregistered (if unregistered then {[sid_UUID serviceID]} ∪ ss_unregistered s else ss_unregistered s ∖ {[sid_UUID serviceID]}) s
    else s).

(** An empty key is stored as NULL. *)
Definition LoadProfileKey (aci : UUID) : sender (option (fixed 32)) := gets (fun s =>
  match LoadRecipientByACI (ss_recipients s) aci with
  | Some r => if bool_decide (p_Key (r_Profile r) = fixed_zero 32) then None else Some (p_Key (r_Profile r))
  | None => None
  end).
Definition ProfileKeyForSignalID := LoadProfileKey.

(** ** Prekeys *)

Definition addBase64PaddingAndDecode (data : bytes) : option bytes :=
  let padding := (length data mod 4)%nat in
  Base64.decode (if (0 <? padding)%nat then data ++ repeat x3d (4 - padding) else data).

Definition decode64 (data : bytes) : outcome send_error bytes := of_option (OtherError (str "base64")) (addBase64PaddingAndDecode data).

Definition device_bundle (identityKey : identity_key) (d : prekeyDevice) : outcome send_error prekey_bundle :=
  let bad {A} (o : option A) := of_option (OtherError (str "prekey")) o in
  let! publicKey := match pd_PreKey d with
                    | Some k => let! raw := decode64 (pk_PublicKey k) in let! p := bad (DeserializePublicKey raw) in Ok (Some p)
                    | None => Ok None
                    end in
  let! rawSigned := decode64 (pk_PublicKey (pd_SignedPreKey d)) in
  let! signedPublicKey := bad (DeserializePublicKey rawSigned) in
  let! kyber := match pd_PQPreKey d with
                | Some k =>
                    let! raw := decode64 (pk_PublicKey k) in
                    let! p := bad (DeserializeKyberPublicKey raw) in
                    let! sig := decode64 (pk_Signature k) in
                    Ok (Some p, sig)
                | None => Ok (None, [])
                end in
  let! rawSignature := decode64 (pk_Signature (pd_SignedPreKey d)) in
  bad (NewPreKeyBundle (uint32 (pd_RegistrationID d)) (uint32 (pd_DeviceID d))
    (match pd_PreKey d with Some k => uint32 (pk_KeyID k) | None => 0 end) publicKey
    (uint32 (pk_KeyID (pd_SignedPreKey d))) signedPublicKey rawSignature
    (match pd_PQPreKey d with Some k => uint32 (pk_KeyID k) | None => 0 end) kyber.1 kyber.2 identityKey).

Definition process_device (theirServiceID : ServiceID) (identityKey : identity_key) (d : prekeyDevice) : sender (option unit) :=
  let* bundle := slift (device_bundle identityKey d) in
  let* address := slift (Address theirServiceID (pd_DeviceID d)) in
  let* old := gets (fun s => ss_sessions s !! address) in
  let* record := slift (of_option (OtherError (str "processing prekey bundle")) (ProcessPreKeyBundle bundle address.1 address.2 old)) in
  let* _ := StoreSession address record in
  sret (Some tt).

(** A negative device ID stands for all devices. *)
Definition FetchAndProcessPreKey (theirServiceID : ServiceID) (specificDeviceID : Z) : sender unit :=
  let* unregistered := gets (fun s => IsUnregistered s theirServiceID) in
  if unregistered then slift (Err ErrUnregisteredUser)
  else
    let* _ := slift own_address in
    let deviceIDPath := if 0 <=? specificDeviceID then str "/" ++ Decimal.itoa specificDeviceID else str "/*" in
    let path := str "/v2/keys/" ++ ServiceID_String theirServiceID ++ deviceIDPath ++ str "?pq=true" in
    let* resp := send_request true (str "GET") path [] [] in
    if ws_Status resp =? 404 then
      let* _ := MarkUnregistered theirServiceID true in
      slift (Err ErrUnregisteredUser)
    else if (ws_Status resp <? 200) || (300 <=? ws_Status resp) then slift (err "unexpected response status")
    else
      let* respData := slift (of_option (OtherError (str "json")) (json_prekeys (ws_Body resp))) in
      let* rawIdentityKey := slift (decode64 (pr_IdentityKey respData)) in
      let* identityKey := slift (of_option (OtherError (str "identity key")) (mjoin (DeserializeIdentityKey rawIdentityKey))) in
      let* _ := sfor (process_device theirServiceID identityKey) (pr_Devices respData) in
      sret tt.

(** ** Certificates *)

Definition set_cert (e164 : bool) (c : option sender_certificate) : sender unit :=
  smodify (fun s => set_certs (if e164 then (c, (ss_certs s).2) else ((ss_certs s).1, c)) s).

(** Times are in milliseconds. *)
Definition senderCertificate (e164 : bool) : sender sender_certificate :=
  let* cached := gets (fun s => if e164 then (ss_certs s).1 else (ss_certs s).2) in
  let fetch :=
    let path := str "/v1/certificate/delivery" ++ (if e164 then [] else str "?includeE164=false") in
    let* resp := send_request true (str "GET") path [] [] in
    if (ws_Status resp <? 200) || (300 <=? ws_Status resp) then slift (err "unexpected response status")
    else
      let* raw := slift (of_option (OtherError (str "json")) (json_certificate (ws_Body resp))) in
      let cert := DeserializeSenderCertificate raw in
      let* _ := set_cert e164 cert in
      slift (of_option (OtherError (str "certificate")) cert) in
  match cached with
  | Some c =>
      match cert_GetExpiration c with
      | None => fetch
      | Some expiry => if expiry - now <? 86400000 then let* _ := set_cert e164 None in fetch else sret c
      end
  | None => fetch
  end.

(** ** Building messages *)

(** The error of an operation as a value. *)
Definition try {A} (m : sender A) : sender (send_error + A) := fun s =>
  match m s with
  | (s, Ok a) => (s, Ok (inr a))
  | (s, Err e) => (s, Ok (inl e))
  | (s, Panic) => (s, Panic)
  end.

Definition buildMessageToSend (recipientAddress : ServiceID * Z) (paddedMessage : bytes) (contentHint : Z)
  (ciphertextMessage : option ciphertext) (groupID : option (fixed 32)) (includeE164 sealedSender : bool) : sender (Z * bytes) :=
  let* ctm :=
    match ciphertextMessage with
    | Some c => sret c
    | None =>
        let* session := gets (fun s => ss_sessions s !! recipientAddress) in
        let* r := slift (Encrypt paddedMessage recipientAddress.1 recipientAddress.2 session) in
        let* _ := StoreSession recipientAddress r.2 in
        sret r.1
    end in
  if negb sealedSender then
    let* payload := slift (of_option (OtherError (str "serialize")) (ctm_Serialize ctm)) in
    sret (ctmTypeToEnvelopeType (MessageType ctm), payload)
  else
    let* cert := senderCertificate includeE164 in
    let* u := slift (of_option (OtherError (str "usmc")) (NewUnidentifiedSenderMessageContent ctm cert contentHint groupID)) in
    let* payload := slift (of_option (OtherError (str "seal")) (SealedSenderEncrypt u recipientAddress.1 recipientAddress.2)) in
    sret (Envelope_UNIDENTIFIED_SENDER, payload).

Definition shares_number : bool := match dev_AccountRecord dev with Some (n, _, _) => n | None => false end.

(** The message to one device; none to the device it is sent from. *)
Definition build_for_device (recipient : ServiceID) (content : Content) (unauthenticated : bool) (groupID : option (fixed 32))
  (ctmOverride : option ciphertext) (tuple : Z * session_record) : sender (option MyMessage) :=
  if bool_decide (recipient = ACIServiceID) && (tuple.1 =? dev_DeviceID dev) then sret None
  else
    let* serialized := slift (of_option (OtherError (str "marshal")) (marshal_content content)) in
    let* padded := slift (addPadding 3 serialized) in
    let includeE164 := negb (isSome groupID) && shares_number in
    let* m := buildMessageToSend (recipient, tuple.1) padded (getContentHint content) ctmOverride groupID includeE164 unauthenticated in
    let* registrationID := slift (of_option (OtherError (str "registration ID")) (GetRemoteRegistrationID tuple.2)) in
    sret (Some (mkMyMessage m.1 tuple.1 registrationID (Base64.encode m.2))).

Definition buildMessagesToSend (recipient : ServiceID) (content : Content) (unauthenticated : bool) (groupID : option (fixed 32))
  (ctmOverride : option ciphertext) (forceResync : bool) : sender (list MyMessage) :=
  let* sessions := AllSessionsForServiceID recipient in
  let* sessions :=
    if (length sessions =? 0)%nat || forceResync then
      let* _ := FetchAndProcessPreKey recipient (-1) in
      AllSessionsForServiceID recipient
    else sret sessions in
  if (length sessions =? 0)%nat then slift (err "no sessions found for recipient")
  else
    let* _ := slift own_address in
    sfor (build_for_device recipient content unauthenticated groupID ctmOverride) sessions.

(** ** Changed devices *)

Definition handle_stale (recipient : ServiceID) (staleDevice : Z) : sender (option unit) :=
  let* address := slift (Address recipient staleDevice) in
  let* _ := RemoveSession address in
  let* _ := FetchAndProcessPreKey recipient staleDevice in
  sret (Some tt).
Definition handle_missing (recipient : ServiceID) (missingDevice : Z) : sender (option unit) :=
  let* _ := FetchAndProcessPreKey recipient missingDevice in
  sret (Some tt).
Definition handle_extra (recipient : ServiceID) (extraDevice : Z) : sender (option unit) :=
  let* address := slift (Address recipient extraDevice) in
  let* _ := RemoveSession address in
  sret (Some tt).

Definition handle409410 (recipient : ServiceID) (body : SingleRecipient409410Response) : sender unit :=
  let* _ := sfor (handle_stale recipient) (StaleDevices body) in
  let* _ := sfor (handle_missing recipient) (MissingDevices body) in
  let* _ := sfor (handle_extra recipient) (ExtraDevices body) in
  sret tt.

Definition handleSingleRecipient409410Response (recipient : ServiceID) (response : ws_response) : sender unit :=
  let* body := slift (of_option (OtherError (str "json")) (json_409410 (ws_Body response))) in
  handle409410 recipient body.

Definition handleMultiRecipient409410Response (response : ws_response) : sender unit :=
  let* body := slift (of_option (OtherError (str "json")) (json_multi_409410 (ws_Body response))) in
  let* _ := sfor (fun p : ServiceID * SingleRecipient409410Response => let* _ := handle409410 p.1 p.2 in sret (Some tt)) body in
  sret tt.

(** Always an error; a header without a colon panics. *)
Definition handle428 (response : ws_response) : outcome send_error unit :=
  if negb (json_object (ws_Body response)) then err "json"
  else if forallb (fun h => (2 <=? length (Strings.split x3a h))%nat) (ws_Headers response) then Err ErrRateLimited
  else Panic.

(** ** Sending to one recipient *)

Definition with_profile_key (k : option bytes) (m : DataMessage) : DataMessage :=
  mkData (dm_Timestamp m) k (dm_GroupV2 m) (dm_IsViewOnce m) (dm_Flags m) (dm_Attachments m) (dm_rest m).

(** The account's profile key is put into the message object. *)
Definition add_profile_key (content : Content) : sender Content :=
  match ct_Content content with
  | Content_DataMessage m =>
      match dm_ProfileKey m with
      | Some _ => sret content
      | None =>
          let* k := ProfileKeyForSignalID (dev_ACI dev) in
          sret (mkContent (Content_DataMessage (with_profile_key (fixed_bytes <$> k) m)) (ct_SKDM content) (ct_PniSignature content))
      end
  | _ => sret content
  end.

Definition is_own_aci (s : ServiceID) : bool := bool_decide (sid_Type s = ServiceIDTypeACI) && bool_decide (sid_UUID s = dev_ACI dev).
Definition is_pni_type (s : ServiceID) : bool := bool_decide (sid_Type s = ServiceIDTypePNI).

(** The access key for sealed sender, if it is to be used and can be. *)
Definition access_key (recipient : ServiceID) (useUnidentifiedSender : bool) : sender (option (fixed 16)) :=
  if useUnidentifiedSender && negb (is_own_aci recipient) && negb (is_pni_type recipient) then
    let* profileKey := ProfileKeyForSignalID (sid_UUID recipient) in
    sret (match profileKey with Some k => DeriveAccessKey k | None => None end)
  else sret None.

Definition retryable (status : Z) : bool := existsb (Z.eqb status) [409; 410; 428; 500; 503].

Definition content_headers (accessKey : option (fixed 16)) : list (bytes * bytes) :=
  (str "Content-Type", str "application/json") ::
  match accessKey with Some k => [(str "Unidentified-Access-Key", Base64.encode (fixed_bytes k))] | None => [] end.

(** [tries] is [4 - retryCount].  The result holds the content object, to which
    the profile key was added. *)
Fixpoint sendContent (tries : nat) (recipient : ServiceID) (messageTimestamp : Z) (content : Content) (useUnidentifiedSender : bool)
  (groupID : option (fixed 32)) (ctmOverride : option ciphertext) : sender (Content * (send_error + bool)) :=
  let* content := add_profile_key content in
  match tries with
  | O => sret (content, inl (OtherError (str "too many retries")))
  | S tries =>
      if is_pni_type recipient && bool_decide (sid_UUID recipient = dev_PNI dev) then sret (content, inl (OtherError (str "own PNI")))
      else
        let* accessKey := access_key recipient useUnidentifiedSender in
        let sealed := isSome accessKey in
        if negb sealed && isSome (ct_SKDM content) then sret (content, inl (OtherError (str "skdm without sealed sender")))
        else
          let* built := try (buildMessagesToSend recipient content sealed groupID ctmOverride false) in
          let* built := match built with
                        | inl SessionNotFound => try (buildMessagesToSend recipient content sealed groupID ctmOverride true)
                        | _ => sret built
                        end in
          match built with
          | inl e => sret (content, inl e)
          | inr messages =>
              match json_messages (mkMyMessages messageTimestamp false (isUrgent content) messages) with
              | None => sret (content, inl (OtherError (str "json")))
              | Some body =>
                  let path := str "/v1/messages/" ++ ServiceID_String recipient in
                  let* r := try (send_request (negb sealed) (str "PUT") path body (content_headers accessKey)) in
                  let* _ := log_event (Ev_Message (negb sealed) recipient (map mm_DestinationDeviceID messages) (skdm_key <$> ct_SKDM content)
                              (match r with inr resp => Some (ws_Status resp) | inl _ => None end)) in
                  match r with
                  | inl e => sret (content, inl e)
                  | inr response =>
                      let status := ws_Status response in
                      if retryable status then
                        let changed := (status =? 409) || (status =? 410) in
                        let* handled := if changed then try (handleSingleRecipient409410Response recipient response)
                                        else if status =? 428 then try (slift (handle428 response)) else sret (inr tt) in
                        if changed && isSome (ct_SKDM content) then
                          sret (content, inl (match handled with inl e => e | inr _ => ErrDevicesChanged end))
                        else
                          match handled with
                          | inl e => sret (content, inl e)
                          | inr _ => sendContent tries recipient messageTimestamp content sealed groupID ctmOverride
                          end
                      else if (status =? 401) && sealed then
                        if isSome (ct_SKDM content) then sret (content, inl (OtherError (str "unauthorized")))
                        else sendContent tries recipient messageTimestamp content false groupID ctmOverride
                      else if status =? 404 then
                        let* _ := RemoveAllSessionsForServiceID recipient in
                        let* _ := MarkUnregistered recipient true in
                        sret (content, inl ErrUnregisteredUser)
                      else if (status =? 413) || (status =? 429) then sret (content, inl ErrRateLimited)
                      else if negb (status =? 200) then sret (content, inl (OtherError (str "unexpected status code")))
                      else sret (content, inr sealed)
                  end
              end
          end
  end.

(** [retryCount = 0] *)
Definition send_content := sendContent 4.

(** ** Sync copies *)

Definition WrapSyncMessage (content : sync_content) : sender Content :=
  let* d1 := draw_next in
  let* d2 := draw_next in
  sret (mkContent (Content_SyncMessage (mkSync content (random_Bytes d2 (rand_IntN d1 511 + 1)))) None None).

Definition drop_attachments (m : DataMessage) : DataMessage :=
  mkData (dm_Timestamp m) (dm_ProfileKey m) (dm_GroupV2 m) (dm_IsViewOnce m) (dm_Flags m) [] (dm_rest m).

Definition syncSentMessage (sent : SyncSent) : sender Content :=
  let m := match sent_Message sent with
           | Some m => Some (if dm_IsViewOnce m then drop_attachments m else m)
           | None => None
           end in
  WrapSyncMessage (Sync_Sent (mkSyncSent m (sent_EditMessage sent) (sent_StoryMessage sent) (sent_MessageTimestamp sent) (sent_DestinationServiceId sent) (sent_Destination sent)
    (sent_DestinationE164 sent) (sent_UnidentifiedStatus sent) (sent_ExpirationStart sent))).

Definition group_statuses (results : list SuccessfulSendResult) : list UnidentifiedDeliveryStatus :=
  map (fun r => mkStatus [] (Some (ServiceID_Bytes (su_Recipient r))) (su_Unidentified r) None) results.
Definition solo_status (r : SuccessfulSendResult) : UnidentifiedDeliveryStatus :=
  mkStatus [] (Some (ServiceID_Bytes (su_Recipient r))) (su_Unidentified r) (su_PNIIdentityKey r).

Definition syncMessageFromGroupDataMessage (dataMessage : DataMessage) (results : list SuccessfulSendResult) : sender Content :=
  syncSentMessage (mkSyncSent (Some dataMessage) None None (dm_Timestamp dataMessage) [] None None (group_statuses results) now).
Definition edit_timestamp (e : EditMessage) : option Z := match em_DataMessage e with Some m => dm_Timestamp m | None => None end.
(** [GetDataMessage().Timestamp] of a nil message panics. *)
Definition syncMessageFromGroupEditMessage (editMessage : EditMessage) (results : list SuccessfulSendResult) : sender Content :=
  if isSome (em_DataMessage editMessage)
  then syncSentMessage (mkSyncSent None (Some editMessage) None (edit_timestamp editMessage) [] None None (group_statuses results) now)
  else slift Panic.
Definition syncMessageFromSoloDataMessage (dataMessage : DataMessage) (result : SuccessfulSendResult) : sender Content :=
  syncSentMessage (mkSyncSent (Some dataMessage) None None (dm_Timestamp dataMessage) [] (Some (ServiceID_Bytes (su_Recipient result)))
    (su_RecipientE164 result) [solo_status result] now).
Definition syncMessageFromSoloEditMessage (editMessage : EditMessage) (result : SuccessfulSendResult) : sender Content :=
  if isSome (em_DataMessage editMessage)
  then syncSentMessage (mkSyncSent None (Some editMessage) None (edit_timestamp editMessage) [] (Some (ServiceID_Bytes (su_Recipient result)))
         (su_RecipientE164 result) [solo_status result] now)
  else slift Panic.

Definition syncMessageFromReadReceiptMessage (receiptMessage : ReceiptMessage) (messageSender : ServiceID) : sender (option Content) :=
  if negb (bool_decide (sid_Type messageSender = ServiceIDTypeACI)) then sret None
  else
    match rc_Type receiptMessage =? ReceiptMessage_VIEWED, rc_Timestamp receiptMessage with
    | true, [ts] => let* c := WrapSyncMessage (Sync_ViewOnceOpen (fixed_bytes (sid_UUID messageSender)) ts) in sret (Some c)
    | _, timestamps =>
        if negb (rc_Type receiptMessage =? ReceiptMessage_READ) then sret None
        else let* c := WrapSyncMessage (Sync_Read (map (fun ts => (ts, uuid_string (sid_UUID messageSender))) timestamps)) in sret (Some c)
    end.

Definition sendGroupSyncCopy (rawContent : Content) (messageTimestamp : Z) (result : GroupMessageSendResult) (groupID : option (fixed 32))
  : sender unit :=
  let* syncContent :=
    match ct_Content rawContent with
    | Content_DataMessage m => let* c := syncMessageFromGroupDataMessage m (SuccessfullySentTo result) in sret (Some c)
    | Content_EditMessage m => let* c := syncMessageFromGroupEditMessage m (SuccessfullySentTo result) in sret (Some c)
    | _ => sret None
    end in
  match syncContent with
  | Some c => let* _ := send_content ACIServiceID messageTimestamp c true groupID None in sret tt
  | None => sret tt
  end.

Definition sendSyncCopy (rawContent : Content) (messageTS : Z) (result : SuccessfulSendResult) : sender bool :=
  let* syncContent :=
    match ct_Content rawContent with
    | Content_DataMessage m => let* c := syncMessageFromSoloDataMessage m result in sret (Some c)
    | Content_EditMessage m => let* c := syncMessageFromSoloEditMessage m result in sret (Some c)
    | Content_ReceiptMessage m => syncMessageFromReadReceiptMessage m (su_Recipient result)
    | Content_SyncMessage _ => sret (Some rawContent)
    | _ => sret None
    end in
  match syncContent with
  | Some c =>
      let* r := send_content ACIServiceID messageTS c true None None in
      sret (match r.2 with inr _ => true | inl _ => false end)
  | None => sret false
  end.

(** ** Sending to a group, one by one *)

Definition is_typing (content : Content) : bool := match ct_Content content with Content_TypingMessage _ => true | _ => false end.

Fixpoint send_each (recipients : list ServiceID) (content : Content) (messageTimestamp : Z) (result : GroupMessageSendResult)
  (groupID : option (fixed 32)) : sender (Content * GroupMessageSendResult) :=
  match recipients with
  | [] => sret (content, result)
  | recipient :: recipients =>
      if is_own_aci recipient then send_each recipients content messageTimestamp result groupID
      else
        let* r := send_content recipient messageTimestamp content true groupID None in
        let result := match r.2 with
                      | inl e => mkGroupResult (SuccessfullySentTo result) (FailedToSendTo result ++ [mkFailed recipient e])
                      | inr unidentified => mkGroupResult (SuccessfullySentTo result ++ [mkSuccess recipient None unidentified None]) (FailedToSendTo result)
                      end in
        send_each recipients r.1 messageTimestamp result groupID
  end.

Definition sendToGroup (recipients : list ServiceID) (content : Content) (messageTimestamp : Z) (result : option GroupMessageSendResult)
  (groupID : option (fixed 32)) : sender GroupMessageSendResult :=
  let result := default (mkGroupResult [] []) result in
  if is_typing content then sret result
  else
    let* r := send_each recipients content messageTimestamp result groupID in
    let '(content, result) := r in
    let* _ := sendGroupSyncCopy content messageTimestamp result groupID in
    match SuccessfullySentTo result, FailedToSendTo result with
    | [], [] => sret result
    | [], _ => slift (match FailureError result with Some e => Err e | None => err "failed to send to any group members" end)
    | _, _ => sret result
    end.

(** ** Sending to a user *)

Definition message_timestamp (content : Content) : outcome send_error Z :=
  match ct_Content content with
  | Content_DataMessage m => match dm_Timestamp m with Some t => Ok t | None => Panic end
  | Content_EditMessage m => match edit_timestamp m with Some t => Ok t | None => Panic end
  | Content_TypingMessage m => match ty_Timestamp m with Some t => Ok t | None => Panic end
  | Content_SyncMessage _ | Content_NullMessage _ | Content_ReceiptMessage _ | Content_DecryptionErrorMessage _ | Content_CallMessage _ => Ok now
  | Content_StoryMessage _ => Ok 0
  | Content_nil => if negb (isSome (ct_SKDM content)) && negb (isSome (ct_PniSignature content)) then Panic else Ok now
  end.

Definition is_receipt_of (types : list Z) (content : Content) : bool :=
  match ct_Content content with Content_ReceiptMessage m => existsb (Z.eqb (rc_Type m)) types | _ => false end.
Definition is_receipt (content : Content) : bool := match ct_Content content with Content_ReceiptMessage _ => true | _ => false end.
Definition content_flags (content : Content) : Z := match ct_Content content with Content_DataMessage m => dm_Flags m | _ => 0 end.

Definition set_flags (needsSignature : bool) (whitelisted : option bool) (r : Recipient) : Recipient :=
  mkRecipient (r_ACI r) (r_PNI r) (r_E164 r) (r_ContactName r) (r_AvatarHash r) (r_Nickname r) (r_Profile r) needsSignature (r_Blocked r) whitelisted.

(** The updater of [SendMessage]: the recipient, whether it changed, and
    whether the signature is added to the message. *)
Definition pni_updater (recipientID : ServiceID) (content : Content) (r : Recipient) : option (Recipient * bool * option bytes) :=
  let r := if content_flags content =? DataMessage_PROFILE_KEY_UPDATE then set_flags (r_NeedsPNISignature r) (Some true) r else r in
  let needs := bool_decide (sid_Type recipientID = ServiceIDTypeACI) && r_NeedsPNISignature r && negb (bool_decide (dev_PNI dev = uuid_Nil)) in
  if needs && negb (is_typing content || is_receipt content) && negb (isSome (ct_PniSignature content)) then
    match SignAlternateIdentity with
    | None => None
    | Some sig => Some (set_flags false (r_Whitelisted r) r, true, Some sig)
    end
  else if needs && isSome (ct_PniSignature content) then Some (set_flags false (r_Whitelisted r) r, true, None)
  else Some (r, false, None).

(** The stored recipient, and the content with the signature.  The updater
    runs once, on the row that is found, merged or made. *)
Definition update_recipient (recipientID : ServiceID) (content : Content) : sender (option Recipient * Content) := fun s =>
  let st := ss_recipients s in
  let '(aci, pni) := if bool_decide (sid_Type recipientID = ServiceIDTypeACI) then (sid_UUID recipientID, uuid_Nil)
                     else if is_pni_type recipientID then (uuid_Nil, sid_UUID recipientID) else (uuid_Nil, uuid_Nil) in
  let signature := match LoadAndUpdateRecipient st aci pni (fun r => Some (r, false)) with
                   | (_, Ok (r, _)) => match pni_updater recipientID content r with Some (_, _, sig) => sig | None => None end
                   | _ => None
                   end in
  let content := match signature with
                 | Some sig => mkContent (ct_Content content) (ct_SKDM content) (Some (fixed_bytes (dev_PNI dev), sig))
                 | None => content
                 end in
  match LoadAndUpdateRecipient st aci pni (fun r => match pni_updater recipientID content r with Some (r, c, _) => Some (r, c) | None => None end) with
  | (st, Ok (r, _)) => (set_recipients st s, Ok (Some r, content))
  | (st, Err _) => (set_recipients st s, Ok (None, content))
  | (st, Panic) => (set_recipients st s, Panic)
  end.

Definition typing_disabled : bool := match dev_AccountRecord dev with Some (_, t, _) => negb t | None => false end.
Definition receipts_disabled : bool := match dev_AccountRecord dev with Some (_, _, r) => negb r | None => false end.

(** [IdentityKeyStore.GetIdentityKey], serialized. *)
Context (GetIdentityKey : ServiceID -> option bytes).

Definition SendMessage (recipientID : ServiceID) (content : Content) : sender SendMessageResult :=
  let* messageTimestamp := slift (message_timestamp content) in
  let isTypingOrReceipt := is_typing content || is_receipt content in
  let* r := update_recipient recipientID content in
  let '(recipientData, content) := r in
  let readOrViewed := is_receipt_of [ReceiptMessage_READ; ReceiptMessage_VIEWED] content in
  let res := mkSuccess recipientID None false None in
  if ProbablyMessageRequest recipientData && isTypingOrReceipt then
    let* _ := if readOrViewed then sendSyncCopy content messageTimestamp res else sret false in
    sret (inl (res, true))
  else if is_typing content && typing_disabled then sret (inl (res, true))
  else if readOrViewed && receipts_disabled then
    let* _ := sendSyncCopy content messageTimestamp res in
    sret (inl (res, true))
  else if bool_decide (recipientID = ACIServiceID) && negb (is_receipt_of [ReceiptMessage_DELIVERY] content) then
    let* ok := sendSyncCopy content messageTimestamp res in
    sret (inl (res, ok))
  else
    let* _ := smodify (fun s => set_sendCache (ss_sendCache s ++ [(mkSendKey recipientID [] messageTimestamp, content)]) s) in
    let* sent := send_content recipientID messageTimestamp content true None None in
    match sent with
    | (_, inl e) => sret (inr (mkFailed recipientID e))
    | (content, inr unidentified) =>
        let result :=
          if is_pni_type recipientID then
            mkSuccess recipientID (match recipientData with Some r => if beqb (r_E164 r) [] then None else Some (r_E164 r) | None => None end)
              unidentified (GetIdentityKey recipientID)
          else mkSuccess recipientID None unidentified None in
        let* _ := sendSyncCopy content messageTimestamp result in
        sret (inl (result, true))
    end.

(** *** Requests to the account's other devices *)

Definition SendContactSyncRequest : sender unit :=
  let* lastTime := gets ss_LastContactRequestTime in
  if now - lastTime <? 60000 then sret tt
  else
    let* _ := smodify (set_contactRequest now) in
    let* c := WrapSyncMessage (Sync_Request 1) in
    let* r := send_content ACIServiceID now c false None None in
    match r.2 with inl e => slift (Err e) | inr _ => sret tt end.

Definition SendStorageMasterKeyRequest : sender unit :=
  let* c := WrapSyncMessage (Sync_Request 5) in
  let* r := send_content ACIServiceID now c false None None in
  match r.2 with inl e => slift (Err e) | inr _ => sret tt end.

End Sending.
