(* ===== verification/Requests.v ===== *)
(** The requests a send makes.

    Nothing below [sendContent] touches the sender keys; [sendContent] makes at
    most four requests, all to the recipient; a send to a group accounts for
    every recipient ([pkg/signalmeow/sending.go]). *)
From Stdlib Require Import ZifyNat.
From S2P Require Import Prelude GoLib ServiceId Crypto Storage ChatSettings RecipientStore StorageSync Groups GroupCache GroupChanges Sending.

Create HintDb sends.

Section Requests.
Context `{U : UUIDLib} `{SP : SignalProtocol} `{MC : MessageCodec} `{R : Random} {W : Type} `{NW : MessageNetwork W}.
Context (dev : SendDevice) (now : Z).
#[local] Abbreviation sender := (sender (W := W)).
#[local] Abbreviation SendState := (SendState (W := W)).

(** ** Operations that only touch sessions, certificates and recipients *)

Definition silent (s s' : SendState) : Prop :=
  ss_senderKeys s' = ss_senderKeys s /\ ss_infos s' = ss_infos s /\ ss_draw s' = ss_draw s /\ ss_log s' = ss_log s.

#[export] Instance silent_preorder : PreOrder silent.
Proof. split; [by intros s|]. intros s1 s2 s3 (E1 & E2 & E3 & E4) (F1 & F2 & F3 & F4). split_and!; congruence. Qed.

#[local] Abbreviation still := (sframe silent (fun _ => True)).
(** ... and do not fail *)
#[local] Abbreviation sure := (sframe silent (fun _ => False)).

Lemma still_same {A} (m : sender A) : (forall s, silent s (m s).1) -> still m.
Proof. intros H s. split; [apply H|]. by destruct (m s).2. Qed.
Lemma sure_still {A} (m : sender A) : sure m -> still m.
Proof. intros H s. destruct (H s). split; [done|]. by destruct (m s).2. Qed.
Lemma sure_gets {A} (f : SendState -> A) : sure (gets f).
Proof. intros s. by split. Qed.
Lemma sure_try {A} (m : sender A) : still m -> sure (try m).
Proof. intros H s. unfold try. destruct (H s) as [H1 _]. by destruct (m s) as [s1 []]. Qed.
Lemma still_request authed method path body headers : still (send_request authed method path body headers).
Proof. apply still_same. intros s. unfold send_request. by destruct (SendRequest _ _ _ _ _ _). Qed.
Lemma any_outcome {A} (m : outcome send_error A) : oerr (fun _ => True) m.
Proof. by destruct m. Qed.

Lemma sure_StoreSession a r : sure (StoreSession a r). Proof. intros s. by split. Qed.
Lemma sure_RemoveSession a : sure (RemoveSession a). Proof. intros s. by split. Qed.
Lemma sure_RemoveAll t : sure (RemoveAllSessionsForServiceID t). Proof. intros s. by split. Qed.
Lemma sure_MarkUnregistered t b : sure (MarkUnregistered t b).
Proof. intros s. split; [|done]. cbn. by case_bool_decide. Qed.
Lemma sure_set_cert b c : sure (set_cert b c). Proof. intros s. by split. Qed.
Lemma still_AllSessions t : still (AllSessionsForServiceID t). Proof. by apply still_same. Qed.

End Requests.

#[export] Hint Resolve still_request any_outcome still_AllSessions : sends.
#[export] Hint Resolve sure_gets sure_StoreSession sure_RemoveSession sure_RemoveAll sure_MarkUnregistered sure_set_cert : sends.

(** One step of the analysis of an operation. *)
Ltac send_step :=
  match goal with
  | |- sframe ?Rel ?P (sbind _ _) => apply (sframe_bind Rel P); [|intros]
  | |- sframe ?Rel ?P (sret _) => apply (sframe_ret Rel P)
  | |- sframe ?Rel ?P (slift _) => apply (sframe_lift Rel P)
  | |- sframe ?Rel ?P (sfor _ _) => apply (sframe_for Rel P); intros
  | |- sframe _ (fun _ => False) (try _) => apply sure_try
  | |- sframe _ (fun _ => True) (try _) => apply sure_still, sure_try
  | |- sframe _ _ _ => solve [eauto with sends]
  | |- sframe _ (fun _ => True) _ => apply sure_still; solve [eauto with sends]
  | |- oerr (fun _ => True) _ => apply any_outcome
  | |- context [match ?x with _ => _ end] => lazymatch x with context [match _ with _ => _ end] => fail | _ => destruct x end
  end.
Ltac send_walk := repeat (cbv zeta; send_step).

Section Silent.
Context `{U : UUIDLib} `{SP : SignalProtocol} `{MC : MessageCodec} `{R : Random} {W : Type} `{NW : MessageNetwork W}.
Context (dev : SendDevice) (now : Z).
#[local] Abbreviation sender := (sender (W := W)).
#[local] Abbreviation still := (sframe (silent (W := W)) (fun _ => True)).
#[local] Abbreviation sure := (sframe (silent (W := W)) (fun _ => False)).

Lemma sure_profile_key c : sure (add_profile_key dev c).
Proof. unfold add_profile_key, ProfileKeyForSignalID, LoadProfileKey. send_walk. Qed.
Lemma sure_access_key t b : sure (access_key dev t b).
Proof. unfold access_key, ProfileKeyForSignalID, LoadProfileKey. send_walk. Qed.
Lemma still_fetch t d : still (FetchAndProcessPreKey dev t d).
Proof. unfold FetchAndProcessPreKey, process_device. send_walk. Qed.
Lemma still_certificate b : still (senderCertificate now b).
Proof. unfold senderCertificate. send_walk. Qed.
Lemma still_build t c b g o f : still (buildMessagesToSend dev now t c b g o f).
Proof.
  pose proof still_fetch. pose proof still_certificate.
  unfold buildMessagesToSend, build_for_device, buildMessageToSend. send_walk.
Qed.
Lemma still_handle t b : still (handle409410 dev t b).
Proof. pose proof still_fetch. unfold handle409410, handle_stale, handle_missing, handle_extra. send_walk. Qed.
Lemma still_single t r : still (handleSingleRecipient409410Response dev t r).
Proof. pose proof still_handle. unfold handleSingleRecipient409410Response. send_walk. Qed.
Lemma still_multi r : still (handleMultiRecipient409410Response dev r).
Proof. pose proof still_handle. unfold handleMultiRecipient409410Response. send_walk. Qed.

End Silent.
#[export] Hint Resolve sure_profile_key sure_access_key still_fetch still_certificate still_build still_handle still_single still_multi : sends.

(** ** Sending to one recipient *)

Definition accepted (e : send_event) : bool :=
  match e with Ev_Message _ _ _ _ (Some st) => st =? 200 | Ev_Multi _ _ _ st => st =? 200 | _ => false end.

Section Content.
Context `{U : UUIDLib} `{SP : SignalProtocol} `{MC : MessageCodec} `{R : Random} {W : Type} `{NW : MessageNetwork W}.
Context (dev : SendDevice) (now : Z).
#[local] Abbreviation sender := (sender (W := W)).
#[local] Abbreviation SendState := (SendState (W := W)).
#[local] Abbreviation still := (sframe (silent (W := W)) (fun _ => True)).
#[local] Abbreviation sure := (sframe (silent (W := W)) (fun _ => False)).

(** A request to the recipient: a sender key goes out sealed, messages to the
    account itself and to phone numbers do not, nothing goes to the account's
    own PNI or to the device it is sent from. *)
Definition request_ok (recipient : ServiceID) (key : option nat) (e : send_event) : Prop :=
  match e with
  | Ev_Message authed r devices k _ =>
      r = recipient /\ k = key /\ (isSome key = true -> authed = false) /\
      (is_own_aci dev r || is_pni_type r = true -> authed = true) /\
      (r = ACIServiceID dev -> dev_DeviceID dev ∉ devices) /\
      r <> mkServiceID ServiceIDTypePNI (dev_PNI dev)
  | Ev_Multi _ _ _ _ => False
  end.

(** The log grows by [l], the sender keys stay. *)
Definition logs (l : list send_event) (s s' : SendState) : Prop :=
  ss_senderKeys s' = ss_senderKeys s /\ ss_infos s' = ss_infos s /\ ss_draw s' = ss_draw s /\ ss_log s' = ss_log s ++ l.

Lemma logs_silent l s1 s2 s3 : silent s1 s2 -> logs l s2 s3 -> logs l s1 s3.
Proof. intros (E1 & E2 & E3 & E4) (F1 & F2 & F3 & F4). split_and!; congruence. Qed.
Lemma silent_logs s s' : silent s s' -> logs [] s s'.
Proof. intros (E1 & E2 & E3 & E4). split_and!; [done..|]. by rewrite app_nil_r. Qed.
Lemma logs_app l1 l2 s1 s2 s3 : logs l1 s1 s2 -> logs l2 s2 s3 -> logs (l1 ++ l2) s1 s3.
Proof. intros (E1 & E2 & E3 & E4) (F1 & F2 & F3 & F4). split_and!; try congruence. by rewrite F4, E4, app_assoc. Qed.

(** What the requests say about the result: success is the acceptance of the
    last one, and only that one is accepted. *)
Definition result_ok (recipient : ServiceID) (content : Content) (l : list send_event) (r : outcome send_error (Content * (send_error + bool))) : Prop :=
  match r with
  | Ok (c, inr b) => ct_SKDM c = ct_SKDM content /\
      exists l' devices, l = l' ++ [Ev_Message (negb b) recipient devices (skdm_key <$> ct_SKDM content) (Some 200)] /\
                         Forall (fun e => accepted e = false) l'
  | Ok (c, inl _) => ct_SKDM c = ct_SKDM content /\ Forall (fun e => accepted e = false) l
  | Err _ => False
  | Panic => Forall (fun e => accepted e = false) l
  end.

Definition sends (n : nat) (recipient : ServiceID) (content : Content) (m : sender (Content * (send_error + bool))) : Prop :=
  forall s s' r, m s = (s', r) -> exists l, logs l s s' /\ (length l <= n)%nat /\
    Forall (request_ok recipient (skdm_key <$> ct_SKDM content)) l /\ result_ok recipient content l r.

Lemma sends_bind {A} n t c (m : sender A) k : sure m -> (forall s s1 a, m s = (s1, Ok a) -> sends n t c (k a)) -> sends n t c (sbind m k).
Proof.
  intros Hm Hk s s' r. destruct (m s) as [s1 a] eqn:E. destruct (Hm s) as [H1 H2]. rewrite E in H1, H2. cbn in H1, H2.
  rewrite (sbind_eq _ _ _ _ _ E). destruct a as [a|e|]; [|done|].
  - intros H. destruct (Hk _ _ _ E _ _ _ H) as (l & Hl & Hrest). exists l. split; [by eapply logs_silent|done].
  - intros [= <- <-]. exists []. split_and!; [by apply silent_logs|cbn; lia|apply Forall_nil_2..].
Qed.

Lemma sends_fail n t c c' e : ct_SKDM c' = ct_SKDM c -> sends n t c (sret (c', inl e)).
Proof. intros Hc s s' r [= <- <-]. exists []. split_and!; [apply silent_logs; reflexivity|cbn; lia|done..]. Qed.

Lemma sends_log n t c e k : request_ok t (skdm_key <$> ct_SKDM c) e -> accepted e = false -> sends n t c k ->
  sends (S n) t c (let* _ := log_event e in k).
Proof.
  intros He Ha Hk s s' r H. rewrite (sbind_eq (log_event e) _ s _ (Ok tt) eq_refl) in H. cbn match in H.
  destruct (Hk _ _ _ H) as (l & Hl & Hn & Hf & Hr). exists (e :: l). split_and!.
  - apply (logs_app [e] l _ (set_log (ss_log s ++ [e]) s)); [|done]. by split_and!.
  - cbn. lia.
  - by constructor.
  - destruct r as [[c' [x|b]]|x|]; cbn in Hr |- *; [|destruct Hr as (Hc & l' & d & -> & Hf'); split; [done|]; exists (e :: l'), d; split; [done|by constructor]|done|by constructor].
    destruct Hr. split; [done|by constructor].
Qed.

Lemma sends_log_ok n t c c' devices sealed : request_ok t (skdm_key <$> ct_SKDM c) (Ev_Message (negb sealed) t devices (skdm_key <$> ct_SKDM c) (Some 200)) ->
  ct_SKDM c' = ct_SKDM c ->
  sends (S n) t c (let* _ := log_event (Ev_Message (negb sealed) t devices (skdm_key <$> ct_SKDM c) (Some 200)) in sret (c', inr sealed)).
Proof.
  intros He Hc s s' r [= <- <-]. eexists [_]. split_and!; [by split_and!|cbn; lia|by constructor|]. split; [done|]. exists [], devices. split; [done|apply Forall_nil_2].
Qed.

Lemma sends_mono n n' t c m : (n <= n')%nat -> sends n t c m -> sends n' t c m.
Proof. intros Hn Hs s s' r H. destruct (Hs _ _ _ H) as (l & ? & ? & ? & ?). exists l. split_and!; [done|lia|done..]. Qed.

Lemma sends_same n t c c' m : ct_SKDM c' = ct_SKDM c -> sends n t c' m -> sends n t c m.
Proof.
  intros Hc Hs s s' r H. destruct (Hs _ _ _ H) as (l & H1 & H2 & H3 & H4). exists l. rewrite Hc in H3. split_and!; [done..|].
  by destruct r as [[? []]| |]; cbn in *; rewrite ?Hc in H4.
Qed.

Lemma add_profile_key_SKDM c s s1 c' : add_profile_key (W := W) dev c s = (s1, Ok c') -> ct_SKDM c' = ct_SKDM c.
Proof.
  unfold add_profile_key. destruct (ct_Content c); [|by intros [= <- <-]..]. destruct (dm_ProfileKey m); [by intros [= <- <-]|].
  by intros [= <- <-].
Qed.

Lemma access_key_sealed t b s s1 k : access_key (W := W) dev t b s = (s1, Ok k) -> isSome k = true -> is_own_aci dev t || is_pni_type t = false.
Proof. unfold access_key. destruct (is_own_aci dev t), (is_pni_type t), b; cbn; intros [= <- <-]; done. Qed.

(** No message for the device it is sent from. *)
Lemma build_not_own t c b g o f s s1 messages : buildMessagesToSend (W := W) dev now t c b g o f s = (s1, Ok messages) ->
  t = ACIServiceID dev -> dev_DeviceID dev ∉ map mm_DestinationDeviceID messages.
Proof.
  intros H ->. unfold buildMessagesToSend in H. apply sbind_Ok in H as (s2 & sessions & _ & H). apply sbind_Ok in H as (s3 & sessions' & _ & H).
  destruct (_ =? 0)%nat; [done|]. apply sbind_Ok in H as (s4 & _ & _ & H). clear sessions s2 s3 s. revert s1 s4 messages H.
  induction sessions' as [|[d rec] l IH]; intros s1 s messages; cbn [sfor].
  - intros [= <- <-]. apply not_elem_of_nil.
  - intros H. apply sbind_Ok in H as (s2 & o' & Ho & H). apply sbind_Ok in H as (s3 & ms & Hms & H). specialize (IH _ _ _ Hms).
    injection H as <- <-. destruct o' as [m|]; [|done]. cbn [map]. apply not_elem_of_cons. split; [|done].
    unfold build_for_device in Ho. rewrite bool_decide_true in Ho by done. cbn [fst andb] in Ho.
    destruct (Z.eqb_spec d (dev_DeviceID dev)) as [|Hd]; [done|].
    repeat (apply sbind_Ok in Ho as (? & ? & _ & Ho)). injection Ho as <- <-. cbn. congruence.
Qed.

Lemma try_Ok {A} (m : sender A) s s1 x : try m s = (s1, Ok x) -> match x with inr a => m s = (s1, Ok a) | inl e => m s = (s1, Err e) end.
Proof. unfold try. destruct (m s) as [? []]; by intros [= <- <-]. Qed.

(** What is built is not for the device it is sent from, with or without a
    second try. *)
Lemma built_not_own t c b g o s s1 s2 s3 built messages :
  try (buildMessagesToSend dev now t c b g o false) s = (s1, Ok built) ->
  match built with inl SessionNotFound => try (buildMessagesToSend dev now t c b g o true) | _ => sret built end s2 = (s3, Ok (inr messages)) ->
  t = ACIServiceID dev -> dev_DeviceID dev ∉ map mm_DestinationDeviceID messages.
Proof.
  intros H1 H2. destruct built as [e|m].
  - destruct e; try discriminate H2. apply try_Ok in H2. exact (build_not_own _ _ _ _ _ _ _ _ _ H2).
  - injection H2 as _ ->. apply try_Ok in H1. exact (build_not_own _ _ _ _ _ _ _ _ _ H1).
Qed.

Lemma retry_not_accepted authed t d k status : retryable status = true -> accepted (Ev_Message authed t d k (Some status)) = false.
Proof. cbn. intros H. destruct (Z.eqb_spec status 200); [by subst|done]. Qed.

Lemma sendContent_sends tries t ts c b g o : sends tries t c (sendContent dev now tries t ts c b g o).
Proof.
  revert c b. induction tries as [|tries IH]; intros c b; cbn [sendContent]; (apply sends_bind; [auto with sends|]);
    intros _s _s1 c1 Hc1; apply add_profile_key_SKDM in Hc1; [by apply sends_fail|].
  apply (sends_same _ _ _ _ _ Hc1). clear c Hc1 _s _s1.
  destruct (is_pni_type t && _) eqn:Epni; [by apply sends_fail|]. apply sends_bind; [auto with sends|]. intros _s _s1 ak Hak.
  destruct (negb (isSome ak) && _) eqn:Eskdm; [by apply sends_fail|].
  apply sends_bind; [apply sure_try; auto with sends|]. intros s2 s3 built Hb.
  apply sends_bind; [send_walk|]. intros s4 s5 built' Hb'. destruct built' as [e|messages]; [by apply sends_fail|].
  assert (Hr : forall st, request_ok t (skdm_key <$> ct_SKDM c1)
            (Ev_Message (negb (isSome ak)) t (map mm_DestinationDeviceID messages) (skdm_key <$> ct_SKDM c1) st)).
  { intros st. cbn. split_and!; [done|done| | | |].
    - destruct (ct_SKDM c1), ak; by intros.
    - destruct ak; [|done]. by rewrite (access_key_sealed _ _ _ _ _ Hak eq_refl).
    - by eapply built_not_own.
    - intros ->. unfold is_pni_type in Epni. cbn in Epni. by rewrite !bool_decide_true in Epni. }
  destruct (json_messages _) as [body|]; [|by apply sends_fail].
  apply sends_bind; [apply sure_try; auto with sends|]. intros s6 s7 resp _. destruct resp as [e|resp].
  { apply sends_log; [apply Hr|done|]. by apply sends_fail. }
  destruct (retryable (ws_Status resp)) eqn:Eret.
  { apply sends_log; [apply Hr|by apply retry_not_accepted|].
    apply sends_bind; [send_walk; apply sure_try; send_walk|]. intros _ _ handled _.
    destruct (((ws_Status resp =? 409) || (ws_Status resp =? 410)) && _); [by apply sends_fail|]. destruct handled; [by apply sends_fail|]. apply IH. }
  destruct (Z.eqb_spec (ws_Status resp) 200) as [E200|E200].
  { rewrite E200. apply sends_log_ok; [|done]. rewrite <- E200. apply Hr. }
  apply sends_log; [apply Hr|by apply Z.eqb_neq|].
  destruct ((ws_Status resp =? 401) && _); [destruct (isSome (ct_SKDM c1)); [by apply sends_fail|apply IH]|].
  destruct (_ =? 404); [|destruct ((ws_Status resp =? 413) || _); by apply sends_fail].
  apply sends_bind; [auto with sends|]. intros _ _ _ _. apply sends_bind; [auto with sends|]. intros _ _ _ _. by apply sends_fail.
Qed.

End Content.

(** ** Sending to a group, one by one *)

(** An accepted request for the user. *)
Definition reaches (u : ServiceID) (e : send_event) : Prop :=
  accepted e = true /\ match e with Ev_Message _ r _ _ _ => r = u | Ev_Multi _ targets _ _ => u ∈ map fst targets end.
Definition reached (l : list send_event) (u : ServiceID) : Prop := Exists (reaches u) l.

Definition sent_to (r : GroupMessageSendResult) : list ServiceID := map su_Recipient (SuccessfullySentTo r).
Definition failed_to (r : GroupMessageSendResult) : list ServiceID := map fa_Recipient (FailedToSendTo r).
(** Everybody a result mentions. *)
Definition accounted (r : GroupMessageSendResult) : list ServiceID := sent_to r ++ failed_to r.

(** A request that carries no sender key. *)
Definition keyless (e : send_event) : Prop := match e with Ev_Message _ _ _ k _ => k = None | Ev_Multi _ _ _ _ => False end.

Section Group.
Context `{U : UUIDLib} `{SP : SignalProtocol} `{MC : MessageCodec} `{R : Random} {W : Type} `{NW : MessageNetwork W}.
Context (dev : SendDevice) (now : Z).
#[local] Abbreviation sender := (sender (W := W)).
#[local] Abbreviation SendState := (SendState (W := W)).

Lemma is_own_aci_spec u : is_own_aci dev u = bool_decide (u = ACIServiceID dev).
Proof.
  unfold is_own_aci, ACIServiceID, NewACIServiceID. destruct u as [t u]; cbn. rewrite <- bool_decide_and. apply bool_decide_ext.
  split; [by intros [-> ->]|by intros [= -> ->]].
Qed.

(** The log grows by [l]; draws may be made. *)
Definition grows (l : list send_event) (s s' : SendState) : Prop :=
  ss_senderKeys s' = ss_senderKeys s /\ ss_infos s' = ss_infos s /\ (ss_draw s <= ss_draw s')%nat /\ ss_log s' = ss_log s ++ l.

Lemma logs_grows l s s' : logs l s s' -> grows l s s'.
Proof. intros (E1 & E2 & E3 & E4). split_and!; [done..|lia|done]. Qed.
Lemma grows_app l1 l2 s1 s2 s3 : grows l1 s1 s2 -> grows l2 s2 s3 -> grows (l1 ++ l2) s1 s3.
Proof. intros (E1 & E2 & E3 & E4) (F1 & F2 & F3 & F4). split_and!; [congruence..|lia|]. by rewrite F4, E4, app_assoc. Qed.
Lemma grows_nil s : grows [] s s.
Proof. split_and!; [done..|by rewrite app_nil_r]. Qed.

(** Without a sender key in the content, what is sent has none. *)
Lemma content_keyless t ts c b g o s s' r : ct_SKDM c = None -> send_content dev now t ts c b g o s = (s', r) ->
  exists l, grows l s s' /\ Forall keyless l /\
    match r with
    | Ok (c', x) => ct_SKDM c' = None /\ match x with inr _ => reached l t | inl _ => True end
    | Err _ => False
    | Panic => True
    end.
Proof.
  intros Hc H. destruct (sendContent_sends dev now 4 t ts c b g o _ _ _ H) as (l & Hl & _ & Hf & Hr). exists l. split_and!.
  - by apply logs_grows.
  - eapply Forall_impl; [exact Hf|]. rewrite Hc. intros [| ]; cbn; [|done]. tauto.
  - destruct r as [[c' [e|x]]| |]; cbn in Hr; [|destruct Hr as (Hr & l' & d & -> & _)|done..]; rewrite Hc in *; [by destruct Hr|].
    split; [done|]. apply Exists_app. right. by apply Exists_cons_hd.
Qed.

Lemma send_each_spec g ts l c res s s' r : ct_SKDM c = None -> send_each dev now l c ts res g s = (s', r) ->
  exists log, grows log s s' /\ Forall keyless log /\
    match r with
    | Ok (c', res') => ct_SKDM c' = None /\ accounted res' ≡ₚ accounted res ++ filter (fun u => u <> ACIServiceID dev) l /\
                       (forall u, u ∈ sent_to res' -> u ∈ sent_to res \/ reached log u)
    | Err _ => False
    | Panic => True
    end.
Proof.
  revert c res s. induction l as [|u l IH]; intros c res s Hc; cbn [send_each].
  - intros [= <- <-]. exists []. split_and!; [apply grows_nil|done|done|by rewrite app_nil_r|by left].
  - rewrite is_own_aci_spec, filter_cons. case_bool_decide as Hu; [by rewrite decide_False by tauto; apply IH|]. rewrite decide_True by done.
    destruct (send_content dev now u ts c true g None s) as [s1 x] eqn:E. rewrite (sbind_eq _ _ _ _ _ E).
    destruct (content_keyless _ _ _ _ _ _ _ _ _ Hc E) as (l1 & Hg1 & Hk1 & Hx). destruct x as [[c1 x]|e|]; [|done|].
    2: { intros [= <- <-]. by exists l1. }
    destruct Hx as [Hc1 Hx]. intros H. cbn [fst snd] in H. destruct (IH _ _ _ Hc1 H) as (l2 & Hg2 & Hk2 & Hr). exists (l1 ++ l2).
    split_and!; [by eapply grows_app|by apply Forall_app|]. destruct r as [[c' res']| |]; [|done..]. destruct Hr as (Hc' & Hp & Hs).
    split_and!; [done| |].
    + rewrite Hp. unfold accounted, sent_to, failed_to. destruct x; cbn; rewrite ?map_app; cbn; solve_Permutation.
    + intros v Hv. destruct (Hs _ Hv) as [Hin|]; [|right; by apply Exists_app; right]. destruct x as [e|b]; [by left|].
      unfold sent_to in Hin. cbn in Hin. rewrite map_app in Hin. cbn in Hin. apply elem_of_app in Hin as [Hin|Hin]; [by left|].
      apply list_elem_of_singleton in Hin as ->. right. apply Exists_app. by left.
Qed.

(** Operations that only make requests without a sender key, and draws. *)
Definition tells (s s' : SendState) : Prop := exists l, grows l s s' /\ Forall keyless l.
#[export] Instance tells_preorder : PreOrder tells.
Proof.
  split.
  - intros s. exists []. split; [apply grows_nil|done].
  - intros s1 s2 s3 (l1 & H1 & F1) (l2 & H2 & F2). exists (l1 ++ l2). split; [by eapply grows_app|by apply Forall_app].
Qed.
#[local] Abbreviation told := (sframe (E := send_error) tells (fun _ => False)).

Lemma told_draw : told draw_next.
Proof. intros s. split; [|done]. exists []. split; [|done]. split_and!; [done|done|cbn; lia|cbn; by rewrite app_nil_r]. Qed.
Lemma told_content t ts c b g o : ct_SKDM c = None -> told (send_content dev now t ts c b g o).
Proof.
  intros Hc s. destruct (send_content _ _ _ _ _ _ _ _ s) as [s' r] eqn:E.
  destruct (content_keyless _ _ _ _ _ _ _ _ _ Hc E) as (l & Hg & Hk & Hr). split; [by exists l|]. by destruct r.
Qed.

#[local] Abbreviation told_wp := (swp (E := send_error) tells (fun _ => False)).
(** Content made for the account's other devices has no sender key. *)
Definition plain (c : option Content) : Prop := match c with Some c => ct_SKDM c = None | None => True end.
Lemma wp_sync x : told_wp (fun c => ct_SKDM c = None) (WrapSyncMessage x).
Proof.
  intros s. split; [|done]. exists []. split; [|done]. split_and!; [done|done|cbn; lia|cbn; by rewrite app_nil_r].
Qed.
Lemma wp_some m : told_wp (fun c => ct_SKDM c = None) m -> told_wp plain (let* c := m in sret (Some c)).
Proof. intros H. eapply swp_bind; [apply _|exact H|]. intros c Hc. apply (swp_ret tells (fun _ => False)). exact Hc. Qed.
Lemma wp_sent x : told_wp (fun c => ct_SKDM c = None) (syncSentMessage x).
Proof. apply wp_sync. Qed.
Lemma wp_panic {A} (Q : A -> Prop) : told_wp Q (slift Panic).
Proof. intros s. split; [reflexivity|done]. Qed.
Lemma told_copy ts g m : told_wp plain m ->
  told (let* c := m in match c with Some c => let* _ := send_content dev now (ACIServiceID dev) ts c true g None in sret tt | None => sret tt end).
Proof.
  intros H. apply swp_frame. eapply swp_bind; [apply _|exact H|]. intros [c|] Hc; apply swp_frame; [|apply (sframe_ret tells (fun _ => False))].
  apply (sframe_bind tells (fun _ => False)); [by apply told_content|]. intros _. apply (sframe_ret tells (fun _ => False)).
Qed.

(** The copy for the account's other devices is made, or the operation panics. *)
Lemma told_sync c ts res g : told (sendGroupSyncCopy dev now c ts res g).
Proof.
  apply told_copy. destruct (ct_Content c); try by apply (swp_ret tells (fun _ => False)).
  - apply wp_some, wp_sent.
  - apply wp_some. unfold syncMessageFromGroupEditMessage. destruct (isSome _); [apply wp_sent|apply wp_panic].
Qed.

Lemma sendToGroup_spec l c ts res0 g s s' r : ct_SKDM c = None -> sendToGroup dev now l c ts res0 g s = (s', r) ->
  let res := default (mkGroupResult [] []) res0 in
  exists log, grows log s s' /\ Forall keyless log /\
    match r with
    | Ok res' => accounted res' ≡ₚ accounted res ++ (if is_typing c then [] else filter (fun u => u <> ACIServiceID dev) l) /\
                 (forall u, u ∈ sent_to res' -> u ∈ sent_to res \/ reached log u)
    | _ => True
    end.
Proof.
  intros Hc H res. unfold sendToGroup in H. fold res in H. destruct (is_typing c).
  { injection H as <- <-. exists []. split_and!; [apply grows_nil|done|by rewrite app_nil_r|by left]. }
  destruct (send_each dev now l c ts res g s) as [s1 x] eqn:E. rewrite (sbind_eq _ _ _ _ _ E) in H.
  destruct (send_each_spec _ _ _ _ _ _ _ _ Hc E) as (l1 & Hg1 & Hk1 & Hx). destruct x as [[c1 res1]|e|]; [|done|].
  2: { injection H as <- <-. by exists l1. }
  destruct Hx as (_ & Hp & Hs). destruct (sendGroupSyncCopy dev now c1 ts res1 g s1) as [s2 x] eqn:E2. rewrite (sbind_eq _ _ _ _ _ E2) in H.
  destruct (told_sync c1 ts res1 g s1) as [(l2 & Hg2 & Hk2) He]. rewrite E2 in Hg2, He. cbn in Hg2, He.
  assert (Hend : forall q : outcome send_error GroupMessageSendResult, s2 = s' -> q = r -> (forall res', q = Ok res' -> res' = res1) -> exists log, grows log s s' /\ Forall keyless log /\
    match r with Ok res' => accounted res' ≡ₚ accounted res ++ filter (fun u => u <> ACIServiceID dev) l /\
                 (forall u, u ∈ sent_to res' -> u ∈ sent_to res \/ reached log u) | _ => True end).
  { intros q -> <- Hq. exists (l1 ++ l2). split_and!; [by eapply grows_app|by apply Forall_app|]. destruct q as [res'| |]; [|done..].
    rewrite (Hq _ eq_refl). split; [done|]. intros u Hu. destruct (Hs u Hu); [by left|]. right. apply Exists_app. by left. }
  destruct x as [_u|e|]; [|done|injection H as H1 H2; by apply (Hend _ H1 H2)].
  destruct (SuccessfullySentTo res1) eqn:Es, (FailedToSendTo res1) eqn:Ef; injection H as H1 H2; apply (Hend _ H1 H2);
    try (by intros ? [= ->]). by destruct (FailureError res1).
Qed.
End Group.

Section Claims.
Context `{U : UUIDLib} `{SP : SignalProtocol} `{MC : MessageCodec} `{R : Random} {W : Type} `{NW : MessageNetwork W}.

(** C28: One call of [sendContent] makes at most four message requests, retries
    included, and no error escapes it.  All of them go to the recipient; a
    message that carries a sender key is only sent sealed; messages to the
    account itself or to a phone number identity are never sealed; the sending
    device is never addressed and the account's own PNI never written to.
    Success is reported exactly when the last request was accepted, with the
    way it was sent, and no request after or before it was accepted; the sender
    keys are left alone. *)
Theorem send_content_requests (dev : SendDevice) (now : Z) recipient messageTimestamp content sealed groupID ctm (s : SendState (W := W)) :
  let '(s', r) := send_content dev now recipient messageTimestamp content sealed groupID ctm s in
  exists l, logs l s s' /\ (length l <= 4)%nat /\ Forall (request_ok dev recipient (skdm_key <$> ct_SKDM content)) l /\
    result_ok recipient content l r.
Proof.
  destruct (send_content _ _ _ _ _ _ _ _ s) as [s' r] eqn:E. by apply (sendContent_sends dev now 4) in E.
Qed.

End Claims.
