(* ===== verification/SenderKeys.v ===== *)
(** Group messages with sender keys ([pkg/signalmeow/senderkey.go],
    [SendGroupMessage] of [sending.go]) and answers to retry requests
    ([retry.go]).

    A group message is encrypted once with the group's sender key, after the
    key was distributed to every user that does not have it yet; when a user
    or device is gone the key is replaced.  Go iterates maps in any order; here
    it is the order of the finite map. *)
From Stdlib Require Import ZifyNat.
From S2P Require Import Prelude GoLib ServiceId Crypto Storage ChatSettings RecipientStore StorageSync Groups GroupCache GroupChanges GroupUpdate Sending.

Section SenderKeys.
Context `{U : UUIDLib} `{SP : SignalProtocol} `{MC : MessageCodec} `{R : Random} {W : Type} `{NW : MessageNetwork W}.
Context `{EN : Endorsements}.
Context (dev : SendDevice) (now : Z).
#[local] Abbreviation sender := (sender (W := W)).
#[local] Abbreviation SendState := (SendState (W := W)).

(** In milliseconds. *)
Definition SenderKeyMaxAge : Z := 14 * 24 * 3600 * 1000.

(** ** The sender key store *)

Definition GetSenderKeyInfo (groupID : bytes) : sender (option SenderKeyInfo) := gets (fun s => ss_infos s !! groupID).
Definition PutSenderKeyInfo (groupID : bytes) (info : SenderKeyInfo) : sender unit := smodify (fun s => set_infos (<[groupID := info]> (ss_infos s)) s).
Definition DeleteSenderKeyInfo (groupID : bytes) : sender unit := smodify (fun s => set_infos (delete groupID (ss_infos s)) s).
(** of the account's own key *)
Definition DeleteSenderKey (distributionID : UUID) : sender unit :=
  smodify (fun s => set_senderKeys (delete distributionID (ss_senderKeys s)) s).
Definition store_sender_key (distributionID : UUID) (k : sender_key) : sender unit :=
  smodify (fun s => set_senderKeys (<[distributionID := k]> (ss_senderKeys s)) s).

(** libsignal loads the key of the distribution ID from the store; if there is
    none it makes one and stores it. *)
Definition NewSenderKeyDistributionMessage (distributionID : UUID) : sender sender_key :=
  let* key := gets (fun s => ss_senderKeys s !! distributionID) in
  match key with
  | Some k => sret k
  | None =>
      let* draw := draw_next in
      let* chain := slift (of_option (OtherError (str "sender key")) (new_chain draw)) in
      let* _ := store_sender_key distributionID (mkSenderKey draw chain) in
      sret (mkSenderKey draw chain)
  end.

Definition distribution_message (distributionID : UUID) : sender skdm :=
  let* k := NewSenderKeyDistributionMessage distributionID in
  let* b := slift (of_option (OtherError (str "serialize skdm")) (skdm_Serialize (sk_chain k))) in
  sret (mkSkdm (sk_id k) b).

Definition ResetSenderKey (groupID : bytes) : sender UUID :=
  let* info := GetSenderKeyInfo groupID in
  match info with
  | None => sret uuid_Nil
  | Some info =>
      let* _ := slift (own_address dev) in
      let* _ := DeleteSenderKey (ski_DistributionID info) in
      let* _ := DeleteSenderKeyInfo groupID in
      sret (ski_DistributionID info)
  end.

(** ** Recipients *)

Record senderKeySendMeta := mkMeta { sm_DeviceIDs : list Z; sm_AccessKey : fixed 16 }.

Definition member_endorsements (sec : option SendEndorsementCache) : gmap ServiceID bytes :=
  match sec with Some e => se_MemberEndorsements e | None => ∅ end.

(** Where a recipient goes: nowhere (the account itself), to the users the
    key is used for, to the fallback, or to the failures. *)
Inductive placement :=
| Place_self
| Place_senderKey (meta : senderKeySendMeta) (sessions : list (Z * session_record))
| Place_fallback
| Place_failed (e : send_error).

Definition place_recipient (sec : option SendEndorsementCache) (recipient : ServiceID) : sender placement :=
  if bool_decide (recipient = ACIServiceID dev) then sret Place_self
  else if negb (bool_decide (sid_Type recipient = ServiceIDTypeACI)) || negb (isSome (member_endorsements sec !! recipient)) then sret Place_fallback
  else
    let* profileKey := LoadProfileKey (sid_UUID recipient) in
    match mbind DeriveAccessKey profileKey with
    | None => sret Place_fallback
    | Some accessKey =>
        let* found := try (AllSessionsForServiceID recipient) in
        let use sessions :=
          match sessions with
          | inr (t :: l) => Place_senderKey (mkMeta (map fst (t :: l)) accessKey) (t :: l)
          | _ => Place_fallback
          end in
        match found with
        | inr [] =>
            let* fetched := try (FetchAndProcessPreKey dev recipient (-1)) in
            match fetched with
            | inl ErrUnregisteredUser => sret (Place_failed ErrUnregisteredUser)
            | inl _ => sret Place_fallback
            | inr _ => let* found := try (AllSessionsForServiceID recipient) in sret (use found)
            end
        | _ => sret (use found)
        end
    end.

Record placed := mkPlaced {
  pl_devices : gmap ServiceID senderKeySendMeta;
  pl_senderKey : list (ServiceID * Z * session_record);
  pl_fallback : list ServiceID;
  pl_failed : list FailedSendResult
}.

Definition add_placement (recipient : ServiceID) (p : placement) (l : placed) : placed :=
  match p with
  | Place_self => l
  | Place_senderKey meta sessions =>
      mkPlaced (<[recipient := meta]> (pl_devices l)) (pl_senderKey l ++ map (fun t => (recipient, t.1, t.2)) sessions) (pl_fallback l) (pl_failed l)
  | Place_fallback => mkPlaced (pl_devices l) (pl_senderKey l) (pl_fallback l ++ [recipient]) (pl_failed l)
  | Place_failed e => mkPlaced (pl_devices l) (pl_senderKey l) (pl_fallback l) (pl_failed l ++ [mkFailed recipient e])
  end.

Fixpoint getDevicesIDs (sec : option SendEndorsementCache) (recipients : list ServiceID) (l : placed) : sender placed :=
  match recipients with
  | [] => sret l
  | recipient :: recipients => let* p := place_recipient sec recipient in getDevicesIDs sec recipients (add_placement recipient p l)
  end.

Definition xor_keys (a b : fixed 16) : fixed 16 :=
  match to_fixed 16 (zip_with (fun x y => z2b (Z.lxor (b2z x) (b2z y))) (fixed_bytes a) (fixed_bytes b)) with Some k => k | None => a end.
Definition AccessKey_Xor (a b : option (fixed 16)) : option (fixed 16) :=
  match a, b with None, b => b | a, None => a | Some a, Some b => Some (xor_keys a b) end.

Definition devices_without (a b : list Z) : list Z := filter (fun d => d ∉ b) a.

(** The combined access key, the users who need the key, and the devices that
    are gone: of users who left and of users who stayed. *)
Definition diffRecipients (prevDevices : gmap ServiceID (list Z)) (newDevices : gmap ServiceID senderKeySendMeta)
  : option (fixed 16) * list ServiceID * gmap ServiceID (list Z) :=
  (fold_left (fun xak p => AccessKey_Xor xak (Some (sm_AccessKey p.2))) (map_to_list newDevices) None,
   omap (fun p : ServiceID * senderKeySendMeta =>
     match prevDevices !! p.1 with
     | None => Some p.1
     | Some prev => if bool_decide (devices_without prev (sm_DeviceIDs p.2) = []) && negb (bool_decide (devices_without (sm_DeviceIDs p.2) prev = []))
                    then Some p.1 else None
     end) (map_to_list newDevices),
   map_imap (fun sid prev =>
     match newDevices !! sid with
     | None => Some prev
     | Some m => let removed := devices_without prev (sm_DeviceIDs m) in if bool_decide (removed = []) then None else Some removed
     end) prevDevices).

(** ** Distributing the key *)

Record group_send := mkGroupSend {
  gs_info : SenderKeyInfo;
  gs_devices : gmap ServiceID senderKeySendMeta;
  gs_senderKey : list (ServiceID * Z * session_record);
  gs_fallback : list ServiceID;
  gs_needsRetry : bool
}.

Definition set_SharedWith (m : gmap ServiceID (list Z)) (i : SenderKeyInfo) : SenderKeyInfo := mkSenderKeyInfo (ski_DistributionID i) m (ski_CreatedAt i).

Definition after_skdm (recipient : ServiceID) (r : send_error + bool) (g : group_send) : group_send :=
  match r with
  | inl ErrDevicesChanged | inl ErrUnregisteredUser => mkGroupSend (gs_info g) (gs_devices g) (gs_senderKey g) (gs_fallback g) true
  | inl _ => mkGroupSend (gs_info g) (delete recipient (gs_devices g)) (filter (fun t => t.1.1 <> recipient) (gs_senderKey g))
               (gs_fallback g ++ [recipient]) (gs_needsRetry g)
  | inr _ => mkGroupSend (set_SharedWith (<[recipient := match gs_devices g !! recipient with Some m => sm_DeviceIDs m | None => [] end]> (ski_SharedWith (gs_info g))) (gs_info g))
               (gs_devices g) (gs_senderKey g) (gs_fallback g) (gs_needsRetry g)
  end.

Fixpoint send_skdm (recipients : list ServiceID) (m : skdm) (messageTimestamp : Z) (groupID : fixed 32) (g : group_send) : sender group_send :=
  match recipients with
  | [] => sret g
  | recipient :: recipients =>
      let* r := send_content dev now recipient messageTimestamp (mkContent Content_nil (Some m) None) true (Some groupID) None in
      send_skdm recipients m messageTimestamp groupID (after_skdm recipient r.2 g)
  end.

(** The key to use: a new one when there is none or it is too old. *)
Definition current_info (groupIDStr : bytes) : sender SenderKeyInfo :=
  let fresh := let* draw := draw_next in sret (mkSenderKeyInfo (uuid_New draw) ∅ now) in
  let* ski := GetSenderKeyInfo groupIDStr in
  match ski with
  | None => fresh
  | Some i => if SenderKeyMaxAge <? now - ski_CreatedAt i then let* _ := DeleteSenderKey (ski_DistributionID i) in fresh else sret i
  end.

(** A key that a removed device has is dropped. *)
Definition reset_removed (ski : SenderKeyInfo) (added : list ServiceID) (removed : gmap ServiceID (list Z)) (devices : gmap ServiceID senderKeySendMeta)
  : sender (SenderKeyInfo * list ServiceID) :=
  if bool_decide (removed = ∅) then sret (ski, added)
  else
    let* _ := DeleteSenderKey (ski_DistributionID ski) in
    sret (set_SharedWith ∅ ski, map fst (map_to_list devices)).

Definition distribute (ski : SenderKeyInfo) (added : list ServiceID) (l : placed) (groupIDStr : bytes) (messageTimestamp : Z) (groupID : fixed 32)
  : sender group_send :=
  let g := mkGroupSend ski (pl_devices l) (pl_senderKey l) (pl_fallback l) false in
  match added with
  | [] => sret g
  | _ =>
      let* m := distribution_message (ski_DistributionID ski) in
      let* g := send_skdm added m messageTimestamp groupID g in
      let* _ := PutSenderKeyInfo groupIDStr (gs_info g) in
      sret g
  end.

(** ** Encryption *)

(** The key that was used and the message. *)
Definition encryptWithSenderKey (groupID : fixed 32) (distributionID : UUID) (senderKeyRecipients : list (ServiceID * Z * session_record))
  (content : Content) : sender (nat * bytes) :=
  let* plaintext := slift (of_option (OtherError (str "marshal")) (marshal_content content)) in
  let* plaintext := slift (addPadding 3 plaintext) in
  let* key := gets (fun s => ss_senderKeys s !! distributionID) in
  let* key := slift (of_option NoSenderKeyState key) in
  let* c := slift (GroupEncrypt plaintext (sk_chain key)) in
  let* _ := store_sender_key distributionID (mkSenderKey (sk_id key) c.2) in
  let* cert := senderCertificate now false in
  let* u := slift (of_option (OtherError (str "usmc")) (NewUnidentifiedSenderMessageContent c.1 cert (getContentHint content) (Some groupID))) in
  let* b := slift (SealedSenderMultiRecipientEncrypt u senderKeyRecipients) in
  sret (sk_id key, b).

Definition send_token (sec : option SendEndorsementCache) (devices : gmap ServiceID senderKeySendMeta) (xak : option (fixed 16))
  : outcome send_error (bytes * bytes) :=
  let with_xak := match xak with Some k => Ok (str "Unidentified-Access-Key", Base64.encode (fixed_bytes k)) | None => Panic end in
  match sec with
  | Some e =>
      if beqb (se_SendEndorsement e) [] then with_xak
      else
        let! wanted := ofor (fun p : ServiceID * senderKeySendMeta =>
                         let! x := of_option (OtherError (str "missing group send endorsement")) (se_MemberEndorsements e !! p.1) in Ok (Some x))
                       (map_to_list devices) in
        let! combined := of_option (OtherError (str "combine endorsements")) (GroupSendEndorsementCombine wanted) in
        let! token := of_option (OtherError (str "full token")) (GetTokenWith e combined) in
        Ok (str "Group-Send-Token", Base64.encode token)
  | None => with_xak
  end.

(** ** The group send *)

(** A user of a successful response: gone, or reached. *)
Definition settle (uuids404 : list ServiceID) (result : GroupMessageSendResult) (serviceID : ServiceID) : sender GroupMessageSendResult :=
  if bool_decide (serviceID ∈ uuids404) then
    let* _ := RemoveAllSessionsForServiceID serviceID in
    let* _ := MarkUnregistered serviceID true in
    sret (mkGroupResult (SuccessfullySentTo result) (FailedToSendTo result ++ [mkFailed serviceID ErrUnregisteredUser]))
  else sret (mkGroupResult (SuccessfullySentTo result ++ [mkSuccess serviceID None true None]) (FailedToSendTo result)).

Fixpoint settle_all (uuids404 : list ServiceID) (result : GroupMessageSendResult) (l : list ServiceID) : sender GroupMessageSendResult :=
  match l with
  | [] => sret result
  | sid :: l => let* result := settle uuids404 result sid in settle_all uuids404 result l
  end.

Definition multi_path (messageTimestamp : Z) (content : Content) : bytes :=
  str "/v1/messages/multi_recipient?ts=" ++ Decimal.itoa messageTimestamp ++ str "&urgent=" ++
  (if isUrgent content then str "true" else str "false") ++ str "&online=false".

(** The response to the request for many users; [again] is the next attempt. *)
Definition multi_response (again : sender GroupMessageSendResult) (groupID : fixed 32) (allRecipients : list ServiceID) (content : Content)
  (messageTimestamp : Z) (l : placed) (g : group_send) (status : Z) (body : bytes) : sender GroupMessageSendResult :=
  if status =? 200 then
    let* uuids404 := slift (of_option (OtherError (str "json")) (json_multi_200 body)) in
    let* result := settle_all uuids404 (mkGroupResult [] (pl_failed l)) (map fst (map_to_list (gs_devices g))) in
    sendToGroup dev now (gs_fallback g) content messageTimestamp (Some result) (Some groupID)
  else if (status =? 401) || (status =? 404) then
    sendToGroup dev now allRecipients content messageTimestamp None (Some groupID)
  else if (status =? 409) || (status =? 410) then
    let* _ := handleMultiRecipient409410Response dev (mkWS status body []) in
    again
  else if (status =? 413) || (status =? 428) || (status =? 429) then slift (Err ErrRateLimited)
  else slift (err "unexpected status code in multi-recipient send").

(** [tries] is [3 - retries]. *)
Fixpoint sendToGroupWithSenderKey (tries : nat) (groupID : fixed 32) (allRecipients : list ServiceID) (sec : option SendEndorsementCache)
  (content : Content) (messageTimestamp : Z) : sender GroupMessageSendResult :=
  match tries with
  | O => sendToGroup dev now allRecipients content messageTimestamp None (Some groupID)
  | S tries =>
      let groupIDStr := BytesToGroupIdentifier (Some groupID) in
      let again := sendToGroupWithSenderKey tries groupID allRecipients sec content messageTimestamp in
      let* _ := slift (own_address dev) in
      let* _ := smodify (fun s => if (tries =? 2)%nat
                  then set_sendCache (ss_sendCache s ++ map (fun r => (mkSendKey r groupIDStr messageTimestamp, content)) allRecipients) s else s) in
      let* l := getDevicesIDs sec allRecipients (mkPlaced ∅ [] [] []) in
      if (length (pl_senderKey l) =? 0)%nat then
        sendToGroup dev now allRecipients content messageTimestamp (Some (mkGroupResult [] (pl_failed l))) (Some groupID)
      else
        let* ski := current_info groupIDStr in
        let '(xak, added, removed) := diffRecipients (ski_SharedWith ski) (pl_devices l) in
        let* r := reset_removed ski added removed (pl_devices l) in
        let* g := distribute r.1 r.2 l groupIDStr messageTimestamp groupID in
        if gs_needsRetry g then again
        else
          let* enc := try (encryptWithSenderKey groupID (ski_DistributionID (gs_info g)) (gs_senderKey g) content) in
          match enc with
          | inl SessionNotFound => let* _ := DeleteSenderKeyInfo groupIDStr in again
          | inl e => slift (Err e)
          | inr (key, ssCiphertext) =>
              let* token := slift (send_token sec (gs_devices g) xak) in
              let* resp := try (send_request false (str "PUT") (multi_path messageTimestamp content) ssCiphertext
                             [(str "Content-Type", str "application/vnd.signal-messenger.mrm"); token]) in
              let status := match resp with inr resp => ws_Status resp | inl _ => 0 end in
              let body := match resp with inr resp => ws_Body resp | inl _ => [] end in
              let* _ := log_event (Ev_Multi key (map fst (gs_senderKey g)) allRecipients status) in
              multi_response again groupID allRecipients content messageTimestamp l g status body
          end
  end.

Definition with_group (ctx : GroupContextV2) (m : DataMessage) : DataMessage :=
  mkData (dm_Timestamp m) (dm_ProfileKey m) (Some ctx) (dm_IsViewOnce m) (dm_Flags m) (dm_Attachments m) (dm_rest m).

(** The timestamp of a group message and the message with the group in it.
    An edit without a message panics. *)
Definition address_to_group (group : Group) (content : Content) : outcome send_error (Z * Content) :=
  let metadata := wrap_err (fun _ => OtherError (str "group metadata")) (groupMetadataForDataMessage group) in
  let wrap c := mkContent c (ct_SKDM content) (ct_PniSignature content) in
  match ct_Content content with
  | Content_DataMessage m => let! ctx := metadata in Ok (default 0 (dm_Timestamp m), wrap (Content_DataMessage (with_group ctx m)))
  | Content_EditMessage e =>
      let! m := match em_DataMessage e with Some m => Ok m | None => Panic end in
      let! ctx := metadata in
      Ok (default 0 (dm_Timestamp m), wrap (Content_EditMessage (mkEdit (em_TargetSentTimestamp e) (Some (with_group ctx m)))))
  | Content_TypingMessage t =>
      let! gid := wrap_err (fun _ => OtherError (str "group ID")) (GroupIdentifier_Bytes (grp_Identifier group)) in
      Ok (default 0 (ty_Timestamp t), wrap (Content_TypingMessage (mkTyping (ty_Timestamp t) (ty_Started t) (Some (fixed_bytes gid)))))
  | _ => Ok (0, content)
  end.

(** With the group and the endorsement that [RetrieveGroupByID] returned. *)
Definition SendGroupMessage (gid : bytes) (group : Group) (endorsement : option SendEndorsementCache) (content : Content)
  : sender GroupMessageSendResult :=
  let* a := slift (address_to_group group content) in
  let* gidBytes := slift (wrap_err (fun _ => OtherError (str "group ID")) (GroupIdentifier_Bytes gid)) in
  sendToGroupWithSenderKey 3 gidBytes (map UserServiceID (grp_Members group)) endorsement a.2 a.1.

(** ** Retry requests *)

(** The fields that retries use; an address is a name and a device ID. *)
Record DecryptionResult := mkDecryption {
  dr_SenderAddress : bytes * Z; dr_GroupID : option (fixed 32); dr_Ciphertext : bytes; dr_CiphertextType : Z
}.

Definition NameServiceID (address : bytes * Z) : outcome send_error ServiceID :=
  wrap_err (fun _ => OtherError (str "sender name")) (ServiceIDFromString address.1).

Definition fails {A} (what : string) (o : option A) : outcome send_error A := of_option (OtherError (str what)) o.

Definition sendRetryRequest (result : DecryptionResult) (originalTS : Z) : sender unit :=
  let* serviceID := slift (NameServiceID (dr_SenderAddress result)) in
  let* dem := slift (fails "decryption error message"
                (DecryptionErrorMessageForOriginalMessage (dr_Ciphertext result) (dr_CiphertextType result) originalTS (dr_SenderAddress result).2)) in
  let* demBytes := slift (fails "serialize" (dem_Serialize dem)) in
  let* ctm := slift (fails "plaintext content" (PlaintextContentFromDecryptionErrorMessage dem)) in
  let* r := send_content dev now serviceID now (mkContent (Content_DecryptionErrorMessage demBytes) None None) true (dr_GroupID result) (Some ctm) in
  match r.2 with inl e => slift (Err e) | inr _ => sret tt end.

(** [int64] of a [uint64] *)
Definition int64 (x : Z) : Z := if x <? 2 ^ 63 then x else x - 2 ^ 64.

(** In milliseconds. *)
Definition RetryRespondMaxAge : Z := 30 * 24 * 3600 * 1000.

(** The ring buffer of sent messages: what is found among all that were
    pushed. *)
Context (sendCache_Get : list (sendCacheKey * Content) -> sendCacheKey -> option Content).

(** The session is archived if it is still the one the message was sent in. *)
Definition archive_session (address : ServiceID * Z) (dem : decryption_error) : sender bool :=
  let* ratchetKey := slift (fails "ratchet key" (dem_GetRatchetKey dem)) in
  let* session := gets (fun s => ss_sessions s !! address) in
  match ratchetKey, session with
  | Some ratchetKey, Some session =>
      let* matches := slift (fails "ratchet key match" (CurrentRatchetKeyMatches session ratchetKey)) in
      if matches : bool then
        let* session := slift (fails "archive" (ArchiveCurrentState session)) in
        let* _ := StoreSession address session in
        sret true
      else sret false
  | _, _ => sret false
  end.

(** The sender key is sent again to a device it was shared with. *)
Definition retry_skdm (groupID : bytes) (serviceID : ServiceID) (deviceID : Z) : sender (option skdm) :=
  if beqb groupID [] then sret None
  else
    let* ski := GetSenderKeyInfo groupID in
    let* _ := slift (own_address dev) in
    match ski with
    | None => sret None
    | Some ski =>
        if bool_decide (deviceID ∈ default [] (ski_SharedWith ski !! serviceID)) then
          let* m := distribution_message (ski_DistributionID ski) in sret (Some m)
        else sret None
    end.

Definition handleRetryRequest (result : DecryptionResult) (dem : decryption_error) : sender unit :=
  let* destDeviceID := slift (fails "device ID" (dem_GetDeviceID dem)) in
  if negb (destDeviceID =? dev_DeviceID dev) then sret tt
  else
    let* serviceID := slift (NameServiceID (dr_SenderAddress result)) in
    let deviceID := (dr_SenderAddress result).2 in
    let* ts := slift (fails "timestamp" (dem_GetTimestamp dem)) in
    let* didArchiveSession := archive_session (serviceID, deviceID) dem in
    let groupID := BytesToGroupIdentifier (dr_GroupID result) in
    let* m := retry_skdm groupID serviceID deviceID in
    let* cached := gets (fun s => if now - int64 ts <? RetryRespondMaxAge then sendCache_Get (ss_sendCache s) (mkSendKey serviceID groupID ts) else None) in
    match cached, m with
    | None, None =>
        if didArchiveSession then
          let* d1 := draw_next in
          let* d2 := draw_next in
          let padding := random_Bytes d2 (rand_IntN d1 511 + 1) in
          let* r := send_content dev now serviceID now (mkContent (Content_NullMessage padding) None None) true (dr_GroupID result) None in
          match r.2 with inl e => slift (Err e) | inr _ => sret tt end
        else sret tt
    | _, _ =>
        let retryContent := match cached with Some c => mkContent (ct_Content c) m (ct_PniSignature c) | None => mkContent Content_nil m None end in
        let* r := send_content dev now serviceID (if isSome cached then ts else now) retryContent true (dr_GroupID result) None in
        match r.2 with inl e => slift (Err e) | inr _ => sret tt end
    end.

End SenderKeys.
