(* ===== verification/GroupSend.v ===== *)
(** A group send accounts for every recipient
    ([sendToGroupWithSenderKey], [pkg/signalmeow/senderkey.go]). *)
From Stdlib Require Import ZifyNat.
From S2P Require Import Prelude GoLib ServiceId Crypto Storage ChatSettings RecipientStore StorageSync Groups GroupCache GroupChanges GroupUpdate Sending Requests SenderKeys.

Lemma elem_of_keys {A} (m : gmap ServiceID A) u : u ∈ map fst (map_to_list m) <-> u ∈ dom m.
Proof.
  rewrite list_elem_of_fmap, elem_of_dom. split.
  - intros ([v a] & -> & Hin). apply elem_of_map_to_list in Hin. by exists a.
  - intros [a Ha]. exists (u, a). split; [done|by apply elem_of_map_to_list].
Qed.

Section GroupSend.
Context `{U : UUIDLib} `{SP : SignalProtocol} `{MC : MessageCodec} `{R : Random} {W : Type} `{NW : MessageNetwork W}.
Context `{EN : Endorsements}.
Context (dev : SendDevice) (now : Z).
#[local] Abbreviation sender := (sender (W := W)).
#[local] Abbreviation SendState := (SendState (W := W)).
#[local] Abbreviation sure := (sframe (silent (W := W)) (fun _ => False)).
#[local] Abbreviation sure_wp := (swp (E := send_error) (silent (W := W)) (fun _ => False)).

(** ** Recipients *)

(** The users of a list of sessions. *)
Definition users (l : list (ServiceID * Z * session_record)) : list ServiceID := map (fun t => t.1.1) l.

(** Every recipient but the account itself is in one of the places. *)
Definition placed_ok (recipients : list ServiceID) (p : placed) : Prop :=
  (forall u, u ∈ recipients /\ u <> ACIServiceID dev <-> u ∈ dom (pl_devices p) \/ u ∈ pl_fallback p \/ u ∈ map fa_Recipient (pl_failed p)) /\
  (forall u, u ∈ users (pl_senderKey p) <-> u ∈ dom (pl_devices p)).

Definition placement_ok (u : ServiceID) (p : placement) : Prop :=
  match p with
  | Place_self => u = ACIServiceID dev
  | Place_senderKey _ sessions => u <> ACIServiceID dev /\ sessions <> []
  | _ => u <> ACIServiceID dev
  end.

Lemma place_recipient_ok sec u : sure_wp (placement_ok u) (place_recipient (W := W) dev sec u).
Proof.
  unfold place_recipient. case_bool_decide; [by apply (swp_ret silent (fun _ => False))|].
  assert (Hb : forall (A : Type) (m : sender A) k, sure m -> (forall a, sure_wp (placement_ok u) (k a)) ->
            sure_wp (placement_ok u) (sbind m k)).
  { intros A m k Hm Hk. eapply swp_bind; [apply _|by apply swp_frame|]. intros a _. apply Hk. }
  assert (Hr : forall p, placement_ok u p -> sure_wp (placement_ok u) (sret (S := SendState) p)).
  { intros p Hp. by apply (swp_ret silent (fun _ => False)). }
  destruct (_ || _); [by apply Hr|]. apply Hb; [unfold LoadProfileKey; auto with sends|]. intros pk.
  destruct (mbind _ _); [|by apply Hr]. apply Hb; [apply sure_try; auto with sends|]. intros [e|[|t l]]; [by apply Hr| |by apply Hr].
  apply Hb; [apply sure_try; auto with sends|]. intros [e|_]; [by destruct e; apply Hr|].
  apply Hb; [apply sure_try; auto with sends|]. intros [e|[|t l]]; by apply Hr.
Qed.

Lemma add_placement_ok done u p l : placement_ok u p -> placed_ok done l -> placed_ok (done ++ [u]) (add_placement u p l).
Proof.
  intros Hp [H1 H2]. destruct p as [|m ss| |e]; cbn in Hp |- *.
  - split; [|done]. intros v. rewrite <- H1, elem_of_app, list_elem_of_singleton. naive_solver.
  - destruct Hp as [Hp Hs]. split; cbn; intros v; rewrite dom_insert, elem_of_union, elem_of_singleton.
    + rewrite elem_of_app, list_elem_of_singleton. specialize (H1 v). naive_solver.
    + unfold users. rewrite map_app, elem_of_app, map_map. specialize (H2 v). unfold users in H2. rewrite H2. cbn.
      assert (v ∈ map (fun _ => u) ss <-> v = u) as ->; [|tauto]. rewrite list_elem_of_fmap. split; [by intros (? & -> & _)|].
      intros ->. destruct ss as [|x ss]; [done|]. exists x. split; [done|by left].
  - split; [|done]. cbn. intros v. rewrite !elem_of_app, !list_elem_of_singleton. specialize (H1 v). naive_solver.
  - split; [|done]. cbn. intros v. rewrite map_app, !elem_of_app, !list_elem_of_singleton. cbn. rewrite list_elem_of_singleton. specialize (H1 v). naive_solver.
Qed.

Lemma getDevicesIDs_ok sec recipients done l : placed_ok done l ->
  sure_wp (placed_ok (done ++ recipients)) (getDevicesIDs (W := W) dev sec recipients l).
Proof.
  revert done l. induction recipients as [|u recipients IH]; intros done l Hl; cbn [getDevicesIDs].
  - rewrite app_nil_r. by apply (swp_ret silent (fun _ => False)).
  - eapply swp_bind; [apply _|apply place_recipient_ok|]. intros p Hp. replace (done ++ u :: recipients) with ((done ++ [u]) ++ recipients) by (by rewrite <- app_assoc).
    apply IH. by apply add_placement_ok.
Qed.

Lemma placed_nil : placed_ok [] (mkPlaced ∅ [] [] []).
Proof. split; intros u; cbn; [|by rewrite dom_empty, elem_of_empty, elem_of_nil]. rewrite dom_empty. set_solver. Qed.

(** ** Who needs the key *)

Lemma diffRecipients_ok prev new xak added removed : diffRecipients prev new = (xak, added, removed) ->
  (forall u, u ∈ added -> u ∈ dom new) /\ (forall u, u ∈ dom new -> u ∈ dom prev \/ u ∈ added) /\ (removed = ∅ -> dom prev ⊆ dom new).
Proof.
  intros [= _ <- <-]. split_and!.
  - intros u Hu. apply list_elem_of_omap in Hu as ([v m] & Hin & Hu). apply elem_of_map_to_list in Hin. apply elem_of_dom. exists m.
    cbn in Hu. destruct (prev !! v); [destruct (_ && _)|]; by simplify_eq.
  - intros u [m Hm]%elem_of_dom. destruct (prev !! u) as [d|] eqn:E; [left; by eapply elem_of_dom_2|]. right.
    apply list_elem_of_omap. exists (u, m). split; [by apply elem_of_map_to_list|]. cbn. by rewrite E.
  - intros H u [d Hd]%elem_of_dom. destruct (new !! u) as [m|] eqn:E; [by eapply elem_of_dom_2|].
    apply (f_equal (fun x => x !! u)) in H. rewrite map_lookup_imap, Hd, lookup_empty in H. cbn in H. by rewrite E in H.
Qed.

(** ** Distributing the key *)

(** While the key goes to [rest]: who is written to, who has the key, and that
    the users of the key and of the fallback are those of [all]. *)
Definition group_ok (members all rest : list ServiceID) (g : group_send) : Prop :=
  (forall u, u ∈ users (gs_senderKey g) <-> u ∈ dom (gs_devices g)) /\
  (forall u, u ∈ dom (gs_devices g) -> u ∈ dom (ski_SharedWith (gs_info g)) \/ u ∈ rest \/ gs_needsRetry g = true) /\
  (forall u, u ∈ dom (ski_SharedWith (gs_info g)) -> u ∈ members) /\
  (forall u, u ∈ all <-> u ∈ dom (gs_devices g) \/ u ∈ gs_fallback g).

Lemma after_skdm_ok members all u rest r g : u ∈ members -> u ∈ all -> group_ok members all (u :: rest) g ->
  group_ok members all rest (after_skdm u r g).
Proof.
  intros Hu Ha (H1 & H2 & H3 & H4).
  assert (Hretry : group_ok members all rest (mkGroupSend (gs_info g) (gs_devices g) (gs_senderKey g) (gs_fallback g) true)).
  { split_and!; cbn; [done| |done|done]. intros v Hv. by right; right. }
  assert (Hfall : group_ok members all rest (mkGroupSend (gs_info g) (delete u (gs_devices g)) (filter (fun t => t.1.1 <> u) (gs_senderKey g))
               (gs_fallback g ++ [u]) (gs_needsRetry g))).
  { split_and!; cbn; [|intros v; rewrite dom_delete; set_solver|done|].
    - intros v. rewrite dom_delete, elem_of_difference, elem_of_singleton, <- H1. unfold users. rewrite !list_elem_of_fmap. split.
      + intros (x & -> & [Hx Hin]%list_elem_of_filter). split; [by exists x|done].
      + intros [(x & -> & Hin) Hv]. exists x. split; [done|]. by apply list_elem_of_filter.
    - intros v. rewrite H4, dom_delete, elem_of_app, list_elem_of_singleton, elem_of_difference, elem_of_singleton.
      destruct (decide (v = u)) as [->|]; [|tauto]. specialize (H4 u). tauto. }
  destruct r as [[]|b]; cbn [after_skdm]; try done. split_and!; cbn; [done| | |done].
  - intros v Hv. rewrite dom_insert, elem_of_union, elem_of_singleton. destruct (H2 v Hv) as [|[Hr|]]; [tauto| |tauto].
    apply elem_of_cons in Hr as [->|]; tauto.
  - intros v. rewrite dom_insert, elem_of_union, elem_of_singleton. intros [->|]; [done|by apply H3].
Qed.

Lemma after_skdm_dist u r g : ski_DistributionID (gs_info (after_skdm u r g)) = ski_DistributionID (gs_info g).
Proof. by destruct r as [[]|]. Qed.

(** ** Logs only grow *)

Definition log_grows (s s' : SendState) : Prop := exists l, ss_log s' = ss_log s ++ l.
#[export] Instance log_grows_preorder : PreOrder log_grows.
Proof.
  split; [intros s; exists []; by rewrite app_nil_r|]. intros s1 s2 s3 [l1 E1] [l2 E2]. exists (l1 ++ l2). by rewrite E2, E1, app_assoc.
Qed.
#[local] Abbreviation log_wp := (swp (E := send_error) log_grows (fun _ => True)).

Lemma log_same {A} (m : sender A) : (forall s, ss_log (m s).1 = ss_log s) -> sframe log_grows (fun _ => True) m.
Proof. intros H s. split; [exists []; by rewrite app_nil_r|]. by destruct (m s).2. Qed.
Lemma log_still {A} Q P (m : sender A) : swp silent P Q m -> log_wp Q m.
Proof.
  intros H s. destruct (H s) as [(_ & _ & _ & H1) H2]. split; [exists []; by rewrite app_nil_r|]. by destruct (m s).2.
Qed.
Lemma log_content t ts c b g o : sframe log_grows (fun _ => True) (send_content (W := W) dev now t ts c b g o).
Proof.
  intros s. destruct (send_content _ _ _ _ _ _ _ _ s) as [s' r] eqn:E.
  destruct (sendContent_sends dev now 4 _ _ _ _ _ _ _ _ _ E) as (l & (_ & _ & _ & Hl) & _). split; [by exists l|]. by destruct r.
Qed.

Lemma send_skdm_ok members all m ts gid l g : (forall u, u ∈ l -> u ∈ members /\ u ∈ all) -> group_ok members all l g ->
  log_wp (fun g' => group_ok members all [] g' /\ ski_DistributionID (gs_info g') = ski_DistributionID (gs_info g)) (send_skdm dev now l m ts gid g).
Proof.
  revert g. induction l as [|u l IH]; intros g Hl Hg; cbn [send_skdm]; [by apply (swp_ret log_grows (fun _ => True))|].
  eapply swp_bind; [apply _|apply swp_frame, log_content|]. intros r _. destruct (Hl u ltac:(by left)) as [Hu1 Hu2].
  eapply swp_impl; [|apply IH; [intros v Hv; apply Hl; by right|by apply after_skdm_ok]]. intros g'. cbn beta. by rewrite after_skdm_dist.
Qed.

(** ** Settling a successful response *)

Lemma settle_all_ok uuids res l : sure_wp (fun res' => accounted res' ≡ₚ accounted res ++ l /\ forall u, u ∈ sent_to res' -> u ∈ sent_to res \/ u ∈ l)
  (settle_all (W := W) uuids res l).
Proof.
  revert res. induction l as [|u l IH]; intros res; cbn [settle_all].
  { apply (swp_ret silent (fun _ => False)). rewrite app_nil_r. split; [done|by left]. }
  apply (swp_bind silent (fun _ => False) (fun res' => accounted res' ≡ₚ accounted res ++ [u] /\ forall v, v ∈ sent_to res' -> v ∈ sent_to res \/ v = u)).
  - unfold settle. case_bool_decide.
    + eapply swp_bind; [apply _|apply swp_frame, sure_RemoveAll|]. intros _ _. eapply swp_bind; [apply _|apply swp_frame, sure_MarkUnregistered|].
      intros _ _. apply (swp_ret silent (fun _ => False)). unfold accounted, sent_to, failed_to. cbn. rewrite map_app. cbn. split; [solve_Permutation|by left].
    + apply (swp_ret silent (fun _ => False)). unfold accounted, sent_to, failed_to. cbn. rewrite map_app. cbn. split; [solve_Permutation|].
      intros v. rewrite elem_of_app, list_elem_of_singleton. tauto.
  - intros res1 [Hp Hs]. eapply swp_impl; [|apply IH]. intros res2 [Hp2 Hs2]. split; [rewrite Hp2, Hp; solve_Permutation|].
    intros v Hv. rewrite elem_of_cons. destruct (Hs2 v Hv) as [Hv1|]; [|tauto]. destruct (Hs v Hv1); tauto.
Qed.

(** ** The steps of a group send *)

(** Who needs the key after a possible reset. *)
Definition shares_ok (ski : SenderKeyInfo) (added : list ServiceID) (devices : gmap ServiceID senderKeySendMeta) : Prop :=
  (forall u, u ∈ added -> u ∈ dom devices) /\
  (forall u, u ∈ dom devices -> u ∈ dom (ski_SharedWith ski) \/ u ∈ added) /\
  (forall u, u ∈ dom (ski_SharedWith ski) -> u ∈ dom devices).

Lemma reset_ok ski devices xak added removed : diffRecipients (ski_SharedWith ski) devices = (xak, added, removed) ->
  log_wp (fun r => shares_ok r.1 r.2 devices /\ ski_DistributionID r.1 = ski_DistributionID ski) (reset_removed ski added removed devices).
Proof.
  intros Hd. destruct (diffRecipients_ok _ _ _ _ _ Hd) as (H1 & H2 & H3). unfold reset_removed. case_bool_decide as Hr.
  - apply (swp_ret log_grows (fun _ => True)). split; [|done]. split_and!; [done|done|]. apply H3, Hr.
  - eapply swp_bind; [apply _|apply swp_frame, log_same; done|]. intros _ _. apply (swp_ret log_grows (fun _ => True)).
    split; [|done]. split_and!; cbn; intros u; rewrite ?elem_of_keys, ?dom_empty; [done|tauto|set_solver].
Qed.

(** The users of the key and of the fallback. *)
Definition addressees (l : placed) : list ServiceID := elements (dom (pl_devices l)) ++ pl_fallback l.
Lemma elem_of_addressees u l : u ∈ addressees l <-> u ∈ dom (pl_devices l) \/ u ∈ pl_fallback l.
Proof. unfold addressees. by rewrite elem_of_app, elem_of_elements. Qed.

Lemma group_ok_start members ski added l : (forall u, u ∈ dom (pl_devices l) -> u ∈ members) -> (forall u, u ∈ users (pl_senderKey l) <-> u ∈ dom (pl_devices l)) ->
  shares_ok ski added (pl_devices l) ->
  group_ok members (addressees l) added (mkGroupSend ski (pl_devices l) (pl_senderKey l) (pl_fallback l) false).
Proof.
  intros Hm Hs (H1 & H2 & H3). split_and!; cbn; [done| | |intros u; apply elem_of_addressees].
  - intros u Hu. destruct (H2 u Hu); tauto.
  - intros u Hu. by apply Hm, H3.
Qed.

Lemma distribute_ok members ski added l gidStr ts gid : (forall u, u ∈ dom (pl_devices l) -> u ∈ members) ->
  (forall u, u ∈ users (pl_senderKey l) <-> u ∈ dom (pl_devices l)) -> shares_ok ski added (pl_devices l) ->
  log_wp (fun g => group_ok members (addressees l) [] g /\ ski_DistributionID (gs_info g) = ski_DistributionID ski) (distribute dev now ski added l gidStr ts gid).
Proof.
  intros Hm Hs Hsh. pose proof (group_ok_start _ _ _ _ Hm Hs Hsh) as Hg. unfold distribute.
  destruct added as [|a0 rest] eqn:Ea; [by apply (swp_ret log_grows (fun _ => True))|]. rewrite <- Ea in *.
  eapply swp_bind; [apply _|apply swp_frame, log_same|].
  { intros s. unfold distribution_message, NewSenderKeyDistributionMessage. cbn. unfold sbind. cbn. destruct (_ !! _); cbn; [by destruct (skdm_Serialize _)|].
    destruct (new_chain _); cbn; [by destruct (skdm_Serialize _)|done]. }
  intros m _. eapply swp_bind; [apply _|apply (send_skdm_ok members (addressees l)); [|exact Hg]|].
  - intros u Hu. apply Hsh in Hu. split; [by apply Hm|apply elem_of_addressees; by left].
  - intros g [Hg' Hd]. eapply swp_bind; [apply _|apply swp_frame, log_same; done|]. intros _ _. by apply (swp_ret log_grows (fun _ => True)).
Qed.

Lemma log_current gidStr : sframe log_grows (fun _ => True) (current_info (W := W) now gidStr).
Proof.
  apply log_same. intros s. unfold current_info, GetSenderKeyInfo, sbind. cbn. destruct (_ !! _); cbn; [|done]. by destruct (_ <? _).
Qed.

Lemma log_encrypt gid dist l c : sframe log_grows (fun _ => True) (encryptWithSenderKey (W := W) now gid dist l c).
Proof.
  unfold encryptWithSenderKey. repeat match goal with
  | |- sframe log_grows _ (senderCertificate _ _) => apply swp_frame, (log_still _ (fun _ => True)), swp_frame, still_certificate
  | |- sframe log_grows _ (sbind _ _) => apply (sframe_bind log_grows (fun _ => True)); [|intros]
  | |- sframe log_grows _ _ => apply log_same; intros ?; reflexivity
  end.
Qed.

(** ** Accounting *)

(** A typing notice is not sent to members one by one, so that not all of them
    are in its result. *)
Definition whole (c : Content) : bool := negb (is_typing c).
(** A result mentions only recipients other than the account itself, and all
    of them if it is [whole]; whoever is reported as reached was sent an accepted
    request. *)
Definition delivers (whole : bool) (all : list ServiceID) (s s' : SendState) (res : GroupMessageSendResult) : Prop :=
  exists l, ss_log s' = ss_log s ++ l /\
    (forall u, u ∈ accounted res -> u ∈ all /\ u <> ACIServiceID dev) /\
    (whole = true -> forall u, u ∈ all -> u <> ACIServiceID dev -> u ∈ accounted res) /\
    (forall u, u ∈ sent_to res -> reached l u).

Lemma delivers_after w all s s1 s' res : log_grows s s1 -> delivers w all s1 s' res -> delivers w all s s' res.
Proof.
  intros [l1 E1] (l & E & Ha & Hw & Hr). exists (l1 ++ l). split_and!; [by rewrite E, E1, app_assoc|done|done|].
  intros u Hu. apply Exists_app. right. by apply Hr.
Qed.

Lemma delivers_bind {A} Q (m : sender A) k w all s s' res : log_wp Q m -> sbind m k s = (s', Ok res) ->
  (forall a s1, Q a -> k a s1 = (s', Ok res) -> delivers w all s1 s' res) -> delivers w all s s' res.
Proof.
  intros Hm H Hk. apply sbind_Ok in H as (s1 & a & E & H). destruct (Hm s) as [H1 H2]. rewrite E in H1, H2.
  eapply delivers_after; [exact H1|]. by apply (Hk a s1).
Qed.

(** Everybody is written to one by one, after some were found to be gone. *)
Lemma delivers_fallback all c ts res0 g s s' res : ct_SKDM c = None ->
  (forall r, res0 = Some r -> sent_to r = [] /\ forall u, u ∈ failed_to r -> u ∈ all /\ u <> ACIServiceID dev) ->
  sendToGroup dev now all c ts res0 g s = (s', Ok res) -> delivers (whole c) all s s' res.
Proof.
  intros Hc H0 H. apply sendToGroup_spec in H as (l & (_ & _ & _ & Hl) & _ & Hp & Hs); [|done]. exists l. split; [done|].
  assert (Hd : sent_to (default (mkGroupResult [] []) res0) = [] /\ forall u, u ∈ failed_to (default (mkGroupResult [] []) res0) -> u ∈ all /\ u <> ACIServiceID dev).
  { destruct res0 as [r|]; [by apply H0|]. split; [done|]. intros u Hu. by apply not_elem_of_nil in Hu. }
  destruct Hd as [Hd1 Hd2]. unfold whole. split_and!.
  - intros u. rewrite Hp. unfold accounted. specialize (Hd2 u). destruct (is_typing c); rewrite Hd1, !elem_of_app, ?list_elem_of_filter, !elem_of_nil; tauto.
  - intros Hw u Hu Hown. rewrite Hp. destruct (is_typing c); [done|]. rewrite elem_of_app, list_elem_of_filter. by right.
  - intros u Hu. destruct (Hs u Hu) as [Hu'|]; [|done]. rewrite Hd1 in Hu'. by apply not_elem_of_nil in Hu'.
Qed.

(** The response to the request for many users was 200. *)
Lemma delivers_multi all c ts l g gid key uuids members s s1 s2 s' result res : ct_SKDM c = None ->
  placed_ok all l -> group_ok all (addressees l) [] g ->
  ss_log s1 = ss_log s ++ [Ev_Multi key (map fst (gs_senderKey g)) members 200] ->
  settle_all uuids (mkGroupResult [] (pl_failed l)) (map fst (map_to_list (gs_devices g))) s1 = (s2, Ok result) ->
  sendToGroup dev now (gs_fallback g) c ts (Some result) gid s2 = (s', Ok res) -> delivers (whole c) all s s' res.
Proof.
  intros Hc [Hp _] (Hg1 & _ & _ & Hg4) E1 E2 E3.
  destruct (settle_all_ok uuids (mkGroupResult [] (pl_failed l)) (map fst (map_to_list (gs_devices g))) s1) as [(_ & _ & _ & Hl2) Hq].
  rewrite E2 in Hl2, Hq. cbn in Hl2, Hq. destruct Hq as [Hq1 Hq2].
  apply sendToGroup_spec in E3 as (l3 & (_ & _ & _ & Hl3) & _ & Hp3 & Hs3); [|done]. cbn in Hp3, Hs3. unfold whole.
  eexists. split_and!.
  - by rewrite Hl3, Hl2, E1, <- app_assoc.
  - intros u. rewrite Hp3, Hq1. specialize (Hg4 u). rewrite elem_of_addressees in Hg4. specialize (Hp u).
    destruct (is_typing c); rewrite !elem_of_app, elem_of_keys, ?list_elem_of_filter, ?elem_of_nil; tauto.
  - intros Hw u Hu Hown. rewrite Hp3, Hq1. specialize (Hg4 u). rewrite elem_of_addressees in Hg4. specialize (Hp u).
    destruct (is_typing c); [done|]. rewrite !elem_of_app, elem_of_keys, list_elem_of_filter. tauto.
  - intros u Hu. destruct (Hs3 u Hu) as [Hu2|Hu3]; [|by apply Exists_app; right]. destruct (Hq2 u Hu2) as [Hu'|Hu']; [by apply not_elem_of_nil in Hu'|].
    apply Exists_app. left. apply Exists_cons_hd. split; [done|]. cbn. rewrite elem_of_keys, <- Hg1 in Hu'. unfold users in Hu'. rewrite map_map. exact Hu'.
Qed.

Lemma log_lift {A} (m : outcome send_error A) : log_wp (fun _ => True) (slift m).
Proof. by apply swp_frame, log_same. Qed.
Lemma log_try {A} (m : sender A) : sframe log_grows (fun _ => True) m -> log_wp (fun _ => True) (try m).
Proof. intros H s. destruct (H s) as [H1 _]. unfold try. by destruct (m s) as [s1 []]. Qed.

Lemma delivers_response again gid all c ts l g key status body s s1 s' res : ct_SKDM c = None ->
  placed_ok all l -> group_ok all (addressees l) [] g ->
  (forall s s' res, again s = (s', Ok res) -> delivers (whole c) all s s' res) ->
  ss_log s1 = ss_log s ++ [Ev_Multi key (map fst (gs_senderKey g)) all status] ->
  multi_response dev now again gid all c ts l g status body s1 = (s', Ok res) -> delivers (whole c) all s s' res.
Proof.
  intros Hc Hl Hg Hagain E1 H. assert (Hgrow : log_grows s s1) by (by eexists). unfold multi_response in H. destruct (Z.eqb_spec status 200) as [->|_].
  - apply sbind_Ok in H as (s2 & uuids & E2 & H). apply sbind_Ok in H as (s3 & result & E3 & H). injection E2 as -> _.
    by eapply (delivers_multi _ _ _ _ _ _ _ uuids all).
  - eapply delivers_after; [exact Hgrow|]. destruct (_ || _); [eapply delivers_fallback; [done| |exact H]; done|]. destruct (_ || _).
    + eapply delivers_bind in H; [exact H|eapply log_still, swp_frame, still_multi|]. intros _ s2 _. apply Hagain.
    + by destruct (_ || _).
Qed.

Lemma group_send_accounts_from tries gid all sec c ts s s' res : ct_SKDM c = None ->
  sendToGroupWithSenderKey dev now tries gid all sec c ts s = (s', Ok res) -> delivers (whole c) all s s' res.
Proof.
  intros Hc. revert s s' res. induction tries as [|tries IH]; intros s s' res; cbn [sendToGroupWithSenderKey].
  { by apply delivers_fallback. }
  intros H. eapply delivers_bind in H; [exact H|apply log_lift|]. intros _ s1 _ H1.
  eapply delivers_bind in H1; [exact H1|apply swp_frame, log_same|].
  { intros x. cbn. by destruct (_ =? _)%nat. }
  intros _ s2 _ H2. eapply delivers_bind in H2; [exact H2|eapply log_still, (getDevicesIDs_ok _ _ []), placed_nil|]. intros l s3 Hl H3. cbn [app] in Hl.
  destruct (_ =? 0)%nat.
  { eapply delivers_fallback; [done| |exact H3]. intros r [= <-]. split; [done|]. intros u Hu. apply Hl. by right; right. }
  eapply delivers_bind in H3; [exact H3|apply swp_frame, log_current|]. intros ski s4 _ H4.
  destruct (diffRecipients _ _) as [[xak added] removed] eqn:Ed.
  eapply delivers_bind in H4; [exact H4|by apply (reset_ok _ _ _ _ _ Ed)|]. intros [ski' added'] s5 [Hsh _] H5.
  eapply delivers_bind in H5; [exact H5|apply (distribute_ok all); [|apply Hl|exact Hsh]|].
  { intros u Hu. apply Hl. by left. }
  intros g s6 [Hg _] H6. destruct (gs_needsRetry g); [by apply IH|].
  eapply delivers_bind in H6; [exact H6|apply log_try, log_encrypt|]. intros enc s7 _ H7.
  destruct enc as [e|[key ct]].
  { destruct e; try discriminate H7. eapply delivers_bind in H7; [exact H7|by apply swp_frame, log_same|]. intros _ s8 _. apply IH. }
  eapply delivers_bind in H7; [exact H7|apply log_lift|]. intros token s8 _ H8.
  eapply delivers_bind in H8; [exact H8|apply log_try, swp_frame, (log_still _ (fun _ => True)), swp_frame, still_request|]. intros resp s9 _ H9.
  cbv zeta in H9. apply sbind_Ok in H9 as (s10 & _u & E1 & H9).
  eapply (delivers_response (sendToGroupWithSenderKey dev now tries gid all sec c ts)); [done|done|exact Hg|apply IH| |exact H9]. by injection E1 as <- _.
Qed.

Lemma address_to_group_same group c a : address_to_group group c = Ok a -> ct_SKDM a.2 = ct_SKDM c /\ is_typing a.2 = is_typing c.
Proof.
  unfold address_to_group, is_typing. destruct (ct_Content c) eqn:E; intros H; inv_ok; cbn; rewrite ?E; done.
Qed.

(** C26: When sending a message to a group returns a result, nobody but members
    other than the account itself is in it, as reached or as failed, and unless
    the message is a typing notice every such member is; and whoever is reported
    as reached was sent a request during the call that the server accepted: a
    message to that user alone, or the message for the whole group with that user
    among its recipients.  (A typing notice goes only to those who can be written
    to with the sender key, and skips the others silently.  The content itself
    does not distribute a sender key, which no caller asks for.) *)
Theorem group_send_accounts gid group endorsement c s s' res : ct_SKDM c = None ->
  SendGroupMessage dev now gid group endorsement c s = (s', Ok res) ->
  delivers (whole c) (map UserServiceID (grp_Members group)) s s' res.
Proof.
  intros Hc H. unfold SendGroupMessage in H. apply sbind_Ok in H as (s1 & a & Ha & H). apply sbind_Ok in H as (s2 & g & Hg & H).
  injection Ha as -> Ha. injection Hg as -> _. apply address_to_group_same in Ha as [Ha1 Ha2].
  unfold whole. rewrite <- Ha2. eapply group_send_accounts_from; [|exact H]; congruence.
Qed.
End GroupSend.
