(* ===== verification/SenderKeySafety.v ===== *)
(** Who can read group messages.

    The sender key of a group is only used while every user it was given to is
    among the recipients, and only towards users it was given to
    ([pkg/signalmeow/senderkey.go], [retry.go]).  The server's answers, the
    membership of the group, lost sessions and changed devices are arbitrary. *)
From Stdlib Require Import ZifyNat.
From S2P Require Import Prelude GoLib ServiceId Crypto Storage ChatSettings RecipientStore StorageSync Groups GroupCache GroupChanges GroupUpdate Sending Requests SenderKeys GroupSend.

(** A user the key was given to: a message that carries it was accepted. *)
Definition gives (k : nat) (u : ServiceID) (e : send_event) : Prop :=
  match e with Ev_Message _ r _ (Some k') (Some st) => k' = k /\ r = u /\ st = 200 | _ => False end.
Definition holder (log : list send_event) (k : nat) (u : ServiceID) : Prop := Exists (gives k u) log.

(** A message to a group only uses a key all whose holders are members ... *)
Definition use_safe (before : list send_event) (e : send_event) : Prop :=
  match e with Ev_Multi k _ members _ => forall u, holder before k u -> u ∈ members | _ => True end.
(** ... and goes only to its holders. *)
Definition use_shared (before : list send_event) (e : send_event) : Prop :=
  match e with Ev_Multi k targets _ _ => forall t, t ∈ targets -> holder before k t.1 | _ => True end.
Definition each_use (P : list send_event -> send_event -> Prop) (log : list send_event) : Prop :=
  forall before e after, log = before ++ e :: after -> P before e.

Lemma each_use_nil P : each_use P [].
Proof. intros before e after H. by destruct before. Qed.
Lemma each_use_snoc P log e : each_use P log -> P log e -> each_use P (log ++ [e]).
Proof.
  intros H He before x after Hl. destruct (app_eq_app _ _ _ _ Hl) as [l [[E1 E2]|[E1 E2]]].
  - destruct l as [|y l]; cbn in E2; [injection E2 as -> _; by rewrite app_nil_r in E1; subst|].
    injection E2 as -> ->. by eapply H.
  - destruct l as [|y l]; cbn in E2; [injection E2 as -> _; rewrite app_nil_r in E1; by subst|]. injection E2 as -> E2. by destruct l.
Qed.
Lemma each_use_app P log l : each_use P log -> Forall (fun e => forall before, P before e) l -> each_use P (log ++ l).
Proof.
  intros H Hf. revert log H. induction Hf as [|e l He _ IH]; intros log H; [by rewrite app_nil_r|].
  rewrite cons_middle, app_assoc. apply IH. by apply each_use_snoc.
Qed.

Section Safety.
Context `{U : UUIDLib} `{SP : SignalProtocol} `{MC : MessageCodec} `{R : Random} {W : Type} `{NW : MessageNetwork W}.
Context `{EN : Endorsements}.
Context (dev : SendDevice).
#[local] Abbreviation sender := (sender (W := W)).
#[local] Abbreviation SendState := (SendState (W := W)).

(** ** The invariant *)

Definition known (s : SendState) (dist : UUID) : Prop := exists d, (d < ss_draw s)%nat /\ dist = uuid_New d.

(** Whoever has the current key of an entry is recorded in it. *)
Definition recorded (s : SendState) (i : SenderKeyInfo) : Prop :=
  forall k u, ss_senderKeys s !! ski_DistributionID i = Some k -> holder (ss_log s) (sk_id k) u -> u ∈ dom (ski_SharedWith i).
(** Whoever is recorded has the current key. *)
Definition shared (s : SendState) (i : SenderKeyInfo) : Prop :=
  exists k, ss_senderKeys s !! ski_DistributionID i = Some k /\ forall u, u ∈ dom (ski_SharedWith i) -> holder (ss_log s) (sk_id k) u.

Record key_inv (s : SendState) : Prop := mkInv {
  ki_infos : forall gid i, ss_infos s !! gid = Some i -> known s (ski_DistributionID i);
  ki_keys : forall dist k, ss_senderKeys s !! dist = Some k -> known s dist /\ (sk_id k < ss_draw s)%nat;
  ki_dists : forall g1 g2 i1 i2, ss_infos s !! g1 = Some i1 -> ss_infos s !! g2 = Some i2 -> ski_DistributionID i1 = ski_DistributionID i2 -> g1 = g2;
  ki_ids : forall d1 d2 k1 k2, ss_senderKeys s !! d1 = Some k1 -> ss_senderKeys s !! d2 = Some k2 -> sk_id k1 = sk_id k2 -> d1 = d2;
  ki_recorded : forall gid i, ss_infos s !! gid = Some i -> recorded s i;
  ki_old : forall k u, holder (ss_log s) k u -> (k < ss_draw s)%nat;
  ki_safe : each_use use_safe (ss_log s)
}.

(** The entries of all groups but [gid] are shared. *)
Definition shared_but (gid : bytes) (s : SendState) : Prop := forall g i, g <> gid -> ss_infos s !! g = Some i -> shared s i.
Definition share_inv (s : SendState) : Prop :=
  (forall gid i, ss_infos s !! gid = Some i -> shared s i) /\ each_use use_shared (ss_log s).

(** Keys can be made and serialized. *)
Definition reliable : Prop := (forall d, isSome (new_chain d) = true) /\ (forall c, isSome (skdm_Serialize c) = true).
Definition full_inv (s : SendState) : Prop := key_inv s /\ (reliable -> share_inv s).

(** The state with the entry a send works on. *)
Definition with_info (gid : bytes) (i : SenderKeyInfo) (s : SendState) : SendState := set_infos (<[gid := i]> (ss_infos s)) s.

(** ** Requests without sender keys *)

Lemma keyless_holder l k u : Forall keyless l -> ~ holder l k u.
Proof. intros H Hh. unfold holder in Hh. induction H as [|e l He _ IH]; inv Hh; [|by apply IH]. destruct e; cbn in *; [|done]. by subst. Qed.
Lemma holder_keyless log l k u : Forall keyless l -> holder (log ++ l) k u <-> holder log k u.
Proof. intros H. unfold holder. rewrite Exists_app. pose proof (keyless_holder l k u H). unfold holder in *. tauto. Qed.

Lemma tells_inv s s' : tells s s' -> key_inv s -> key_inv s'.
Proof.
  intros (l & (E1 & E2 & E3 & E4) & Hl) [H1 H2 H3 H4 H5 H6 H7].
  assert (Hk : forall d, known s d -> known s' d) by (intros d (x & ? & ->); exists x; split; [lia|done]).
  split; rewrite ?E1, ?E2, ?E4.
  - intros g i Hi. by apply Hk, (H1 g).
  - intros d k Hd. destruct (H2 d k Hd). split; [by apply Hk|lia].
  - done.
  - done.
  - intros g i Hi k u. rewrite E1, E4, holder_keyless by done. by apply (H5 g).
  - intros k u. rewrite holder_keyless by done. intros Hh. apply H6 in Hh. lia.
  - apply each_use_app; [done|]. eapply Forall_impl; [exact Hl|]. by intros [].
Qed.

Lemma tells_shared s s' i : tells s s' -> shared s i -> shared s' i.
Proof.
  intros (l & (E1 & E2 & E3 & E4) & Hl) (k & Hk & Hs). exists k. rewrite E1, E4. split; [done|]. intros u Hu. apply holder_keyless; [done|]. by apply Hs.
Qed.
Lemma tells_uses (s s' : SendState) : tells s s' -> each_use use_shared (ss_log s) -> each_use use_shared (ss_log s').
Proof.
  intros (l & (E1 & E2 & E3 & E4) & Hl) H. rewrite E4. apply each_use_app; [done|]. eapply Forall_impl; [exact Hl|]. by intros [].
Qed.
Lemma tells_full s s' : tells s s' -> full_inv s -> full_inv s'.
Proof.
  intros Ht [H1 H2]. split; [by eapply tells_inv|]. intros Hr. destruct (H2 Hr) as [H3 H4]. split; [|by eapply tells_uses].
  intros g i Hi. assert (Hi' : ss_infos s !! g = Some i) by (by destruct Ht as (l & (_ & <- & _) & _)). eapply tells_shared; [exact Ht|by eapply H3].
Qed.
Lemma tells_with gid i s s' : tells s s' -> tells (with_info gid i s) (with_info gid i s').
Proof. intros (l & (E1 & E2 & E3 & E4) & Hl). exists l. split; [|done]. split_and!; cbn; congruence. Qed.

(** ** Changes of keys and entries *)

Definition del_key (d : UUID) (s : SendState) : SendState := set_senderKeys (delete d (ss_senderKeys s)) s.
Definition put_key (d : UUID) (k : sender_key) (s : SendState) : SendState := set_senderKeys (<[d := k]> (ss_senderKeys s)) s.

Lemma known_mono s s' d : (ss_draw s <= ss_draw s')%nat -> known s d -> known s' d.
Proof. intros H (x & ? & ->). exists x. split; [lia|done]. Qed.

Lemma del_key_inv d s : key_inv s -> key_inv (del_key d s).
Proof.
  intros [H1 H2 H3 H4 H5 H6 H7]. split; cbn; [done| |done| |intros g i Hi k u; cbn|done..].
  - intros d' k [_ Hk]%lookup_delete_Some. by apply H2.
  - intros d1 d2 k1 k2 [_ Hk1]%lookup_delete_Some [_ Hk2]%lookup_delete_Some. by apply H4.
  - intros [_ Hk]%lookup_delete_Some. by apply (H5 g).
Qed.
Lemma del_key_shared d s i : ski_DistributionID i <> d -> shared s i -> shared (del_key d s) i.
Proof. intros Hd (k & Hk & Hs). exists k. cbn. by rewrite lookup_delete_ne. Qed.

(** A new key has the next number: nobody has it. *)
Lemma new_key_inv d c s : known s d -> ss_senderKeys s !! d = None -> key_inv s ->
  key_inv (put_key d (mkSenderKey (ss_draw s) c) (set_sdraw (S (ss_draw s)) s)).
Proof.
  intros Hd Hn [H1 H2 H3 H4 H5 H6 H7].
  assert (Hm : forall d', known s d' -> known (set_sdraw (S (ss_draw s)) s) d') by (intros d'; apply known_mono; cbn; lia).
  split; cbn; [intros g i Hi; by apply Hm, (H1 g)| |done| |intros g i Hi k u; cbn|intros k u Hk; apply H6 in Hk; lia|done].
  - intros d' k Hk. apply lookup_insert_Some in Hk as [[-> <-]|[_ Hk]]; [split; [by apply Hm|cbn; lia]|].
    destruct (H2 _ _ Hk). split; [by apply Hm|lia].
  - intros d1 d2 k1 k2 Hk1 Hk2. apply lookup_insert_Some in Hk1 as [[<- <-]|[_ Hk1]]; apply lookup_insert_Some in Hk2 as [[<- <-]|[_ Hk2]]; cbn; [done| | |by apply H4].
    + apply H2 in Hk2 as [_ ?]. lia.
    + apply H2 in Hk1 as [_ ?]. lia.
  - intros Hk Hh. apply lookup_insert_Some in Hk as [[_ <-]|[_ Hk]]; [apply H6 in Hh; cbn in Hh; lia|]. by eapply (H5 g).
Qed.
Lemma new_key_shared d k s n i : ss_senderKeys s !! d = None -> shared s i -> shared (put_key d k (set_sdraw n s)) i.
Proof. intros Hn (k' & Hk & Hs). exists k'. cbn. rewrite lookup_insert_ne by (intros ->; congruence). done. Qed.

(** Using a key changes its chain only. *)
Lemma use_key_inv d k c s : ss_senderKeys s !! d = Some k -> key_inv s -> key_inv (put_key d (mkSenderKey (sk_id k) c) s).
Proof.
  intros Hd [H1 H2 H3 H4 H5 H6 H7].
  assert (Hl : forall d' k', <[d := mkSenderKey (sk_id k) c]> (ss_senderKeys s) !! d' = Some k' -> exists k0, ss_senderKeys s !! d' = Some k0 /\ sk_id k0 = sk_id k').
  { intros d' k' Hk. apply lookup_insert_Some in Hk as [[<- <-]|[_ Hk]]; by eexists. }
  split; cbn; [done| |done| |intros g i Hi k' u; cbn|done..].
  - intros d' k' (k0 & Hk & <-)%Hl. by apply H2.
  - intros d1 d2 k1 k2 (k3 & Hk3 & <-)%Hl (k4 & Hk4 & <-)%Hl. by apply H4.
  - intros (k0 & Hk & <-)%Hl. by apply (H5 g).
Qed.
Lemma use_key_shared d k c s i : ss_senderKeys s !! d = Some k -> shared s i -> shared (put_key d (mkSenderKey (sk_id k) c) s) i.
Proof.
  intros Hd (k' & Hk & Hs). cbn. destruct (decide (ski_DistributionID i = d)) as [E|].
  - exists (mkSenderKey (sk_id k) c). cbn. rewrite E, lookup_insert_eq. split; [done|]. cbn. intros u Hu. rewrite E in Hk. apply Hs in Hu. by simplify_eq.
  - exists k'. cbn. by rewrite lookup_insert_ne.
Qed.

Lemma del_info_inv gid s : key_inv s -> key_inv (set_infos (delete gid (ss_infos s)) s).
Proof.
  intros [H1 H2 H3 H4 H5 H6 H7]. split; cbn; [|done| |done| |done..].
  - intros g i [_ Hi]%lookup_delete_Some. by apply (H1 g).
  - intros g1 g2 i1 i2 [_ Hi1]%lookup_delete_Some [_ Hi2]%lookup_delete_Some. by apply H3.
  - intros g i [_ Hi]%lookup_delete_Some. by apply (H5 g).
Qed.
Lemma del_info_full gid s : full_inv s -> full_inv (set_infos (delete gid (ss_infos s)) s).
Proof.
  intros [H1 H2]. split; [by apply del_info_inv|]. intros Hr. destruct (H2 Hr) as [H3 H4]. split; [|done]. cbn.
  intros g i [_ Hi]%lookup_delete_Some. by apply (H3 g).
Qed.

(** The log of a message to the group. *)
Lemma multi_inv k targets members st s : key_inv s -> (forall u, holder (ss_log s) k u -> u ∈ members) ->
  key_inv (set_log (ss_log s ++ [Ev_Multi k targets members st]) s).
Proof.
  intros [H1 H2 H3 H4 H5 H6 H7] Hm.
  assert (Hh : forall k' u, holder (ss_log s ++ [Ev_Multi k targets members st]) k' u <-> holder (ss_log s) k' u).
  { intros k' u. unfold holder. rewrite Exists_app, Exists_cons, Exists_nil. cbn. tauto. }
  split; cbn; [done|done|done|done|intros g i Hi k' u; cbn; rewrite Hh; by apply (H5 g)|intros k' u; rewrite Hh; by apply H6|].
  by apply each_use_snoc.
Qed.
Lemma multi_shared k targets members st s i : shared s i -> shared (set_log (ss_log s ++ [Ev_Multi k targets members st]) s) i.
Proof. intros (k' & Hk & Hs). exists k'. split; [done|]. cbn. intros u Hu. apply Exists_app. left. by apply Hs. Qed.

(** ** The key goes to a user *)

Lemma holder_logs u k l k' v : Forall (request_ok dev u (Some k)) l -> holder l k' v -> k' = k /\ v = u /\ Exists (fun e => accepted e = true) l.
Proof.
  intros Hf Hh. unfold holder in Hh. induction Hf as [|e l He _ IH]; inv Hh as [? ? Hg|? ? Hg]; [|destruct (IH Hg) as (? & ? & ?); split_and!; [done|done|by right]].
  destruct e; cbn in *; [|done]. destruct He as (-> & -> & _). destruct status; [|done]. destruct Hg as (<- & <- & ->). split_and!; [done|done|by left].
Qed.

Lemma skdm_inv gid i i' key u l s s' : ss_senderKeys s !! ski_DistributionID i = Some key -> ski_DistributionID i' = ski_DistributionID i ->
  dom (ski_SharedWith i) ⊆ dom (ski_SharedWith i') -> (Exists (fun e => accepted e = true) l -> u ∈ dom (ski_SharedWith i')) ->
  logs l s s' -> Forall (request_ok dev u (Some (sk_id key))) l -> key_inv (with_info gid i s) -> key_inv (with_info gid i' s').
Proof.
  intros Hkey Hd Hsub Hu (E1 & E2 & E3 & E4) Hl [H1 H2 H3 H4 H5 H6 H7]. cbn in *.
  assert (Hi0 : <[gid:=i]> (ss_infos s) !! gid = Some i) by apply lookup_insert_eq.
  assert (Hi : forall g j, <[gid:=i']> (ss_infos s) !! g = Some j -> exists j0, <[gid:=i]> (ss_infos s) !! g = Some j0 /\ ski_DistributionID j = ski_DistributionID j0 /\
               (g = gid /\ j = i' \/ g <> gid /\ j = j0)).
  { intros g j Hj. apply lookup_insert_Some in Hj as [[<- <-]|[Hg Hj]]; [exists i; by split_and!; [|..|left]|].
    exists j. rewrite lookup_insert_ne by done. split_and!; [done..|by right]. }
  split; cbn; rewrite ?E1, ?E2, ?E4.
  - intros g j (j0 & Hj0 & -> & _)%Hi. eapply known_mono; [|by eapply H1]. cbn. lia.
  - intros d k Hk. destruct (H2 d k Hk). split; [|lia]. eapply known_mono; [|done]. cbn. lia.
  - intros g1 g2 j1 j2 (j3 & Hj3 & -> & _)%Hi (j4 & Hj4 & -> & _)%Hi. by apply H3.
  - done.
  - intros g j (j0 & Hj0 & Hdj & Hcase)%Hi k v. cbn. rewrite E1, E4. intros Hk Hh. rewrite Hdj in Hk. unfold holder in Hh. rewrite Exists_app in Hh.
    destruct Hh as [Hh|Hh]; [pose proof (H5 _ _ Hj0 _ _ Hk Hh) as Hv; destruct Hcase as [[-> ->]|[_ ->]]; [|done]; rewrite Hi0 in Hj0; injection Hj0 as <-; by apply Hsub|].
    destruct (holder_logs _ _ _ _ _ Hl Hh) as (Hk1 & -> & Hacc). pose proof (H4 _ _ _ _ Hk Hkey Hk1) as Hdd. pose proof (H3 _ _ _ _ Hj0 Hi0 Hdd) as ->.
    destruct Hcase as [[_ ->]|[? _]]; [by apply Hu|done].
  - intros k v Hh. unfold holder in Hh. rewrite Exists_app in Hh. rewrite E3. destruct Hh as [Hh|Hh]; [by eapply H6|].
    destruct (holder_logs _ _ _ _ _ Hl Hh) as (-> & _). apply H2 in Hkey as [_ ?]. done.
  - apply each_use_app; [done|]. eapply Forall_impl; [exact Hl|]. by intros [].
Qed.

Lemma skdm_shared gid i i' key u l s s' : ss_senderKeys s !! ski_DistributionID i = Some key -> ski_DistributionID i' = ski_DistributionID i ->
  (forall v, v ∈ dom (ski_SharedWith i') -> v ∈ dom (ski_SharedWith i) \/ holder l (sk_id key) v) ->
  logs l s s' -> Forall (request_ok dev u (Some (sk_id key))) l -> share_inv (with_info gid i s) -> share_inv (with_info gid i' s').
Proof.
  intros Hkey Hd Hsub (E1 & E2 & E3 & E4) Hl [H1 H2]. split.
  - intros g j Hj. cbn in Hj. rewrite E2 in Hj. apply lookup_insert_Some in Hj as [[<- <-]|[Hg Hj]].
    + destruct (H1 gid i) as (k & Hk & Hs); [apply lookup_insert_eq|]. cbn in Hk, Hs. rewrite Hkey in Hk. injection Hk as <-.
      exists key. cbn. rewrite E1, E4, Hd. split; [done|]. intros v Hv. apply Exists_app. destruct (Hsub v Hv); [left; by apply Hs|by right].
    + destruct (H1 g j) as (k & Hk & Hs); [cbn; by rewrite lookup_insert_ne|]. exists k. cbn in *. rewrite E1, E4. split; [done|].
      intros v Hv. apply Exists_app. left. by apply Hs.
  - cbn. rewrite E4. apply each_use_app; [done|]. eapply Forall_impl; [exact Hl|]. by intros [].
Qed.

(** One recipient of the key. *)
Lemma after_skdm_inv gid now key m u ts b g s s' r :
  ss_senderKeys s !! ski_DistributionID (gs_info g) = Some key -> skdm_key m = sk_id key ->
  send_content dev now u ts (mkContent Content_nil (Some m) None) true b None s = (s', r) ->
  full_inv (with_info gid (gs_info g) s) ->
  (ss_draw s' = ss_draw s /\ ss_senderKeys s' = ss_senderKeys s) /\
  match r with Ok r => full_inv (with_info gid (gs_info (after_skdm u r.2 g)) s') | Err _ => False | Panic => True end.
Proof.
  intros Hkey Hm E [Hinv Hsh]. destruct (sendContent_sends dev now 4 _ _ _ _ _ _ _ _ _ E) as (l & Hl & _ & Hf & Hr). cbn in Hf. rewrite Hm in Hf.
  split; [by destruct Hl as (? & _ & ? & _)|]. destruct r as [[c' x]|e|]; [|done..]. cbn [snd].
  assert (Hsame : forall g', gs_info g' = gs_info g -> Forall (fun e => accepted e = false) l -> full_inv (with_info gid (gs_info g') s')).
  { intros g' -> Hn. split; [|intros Hrel; specialize (Hsh Hrel)].
    - eapply (skdm_inv gid (gs_info g)); try done. intros (e & He & Ha)%Exists_exists. rewrite Forall_forall in Hn. by rewrite (Hn e He) in Ha.
    - eapply (skdm_shared gid (gs_info g)); try done. by left. }
  destruct x as [e|y]; [destruct Hr as [_ Hr]; by destruct e; apply Hsame|]. destruct Hr as (_ & l' & d & -> & _). cbn in Hf.
  split; [|intros Hrel; specialize (Hsh Hrel)].
  - eapply (skdm_inv gid (gs_info g)); try done; cbn; rewrite dom_insert; [set_solver|]. intros _. set_solver.
  - eapply (skdm_shared gid (gs_info g)); try done. cbn. intros v. rewrite dom_insert, elem_of_union, elem_of_singleton.
    intros [->|]; [right|by left]. apply Exists_app. right. apply Exists_cons_hd. cbn. by rewrite Hm.
Qed.

Lemma fresh_inv gid B now s : (forall i j, (i < B)%nat -> (j < B)%nat -> uuid_New i = uuid_New j -> i = j) -> (ss_draw s < B)%nat ->
  key_inv s -> key_inv (with_info gid (mkSenderKeyInfo (uuid_New (ss_draw s)) ∅ now) (set_sdraw (S (ss_draw s)) s)).
Proof.
  intros HB Hs Hinv. assert (Hinv' : key_inv (set_sdraw (S (ss_draw s)) s)).
  { eapply tells_inv; [|exact Hinv]. exists []. split; [|done]. split_and!; cbn; [done|done|lia|by rewrite app_nil_r]. }
  assert (Hne : ~ known s (uuid_New (ss_draw s))). { intros (d & Hd & E). apply HB in E; lia. }
  assert (Hk : forall g i, ss_infos s !! g = Some i -> ski_DistributionID i <> uuid_New (ss_draw s)).
  { intros g i Hi E. apply Hne. rewrite <- E. by eapply (ki_infos s). }
  destruct Hinv' as [H1 H2 H3 H4 H5 H6 H7]. split; [| |  |exact H4| |exact H6|exact H7]; cbn.
  - intros g i Hi. apply lookup_insert_Some in Hi as [[<- <-]|[_ Hi]]; [exists (ss_draw s); cbn; split; [lia|done]|by apply (H1 g)].
  - exact H2.
  - intros g1 g2 i1 i2 Hi1 Hi2. apply lookup_insert_Some in Hi1 as [[<- <-]|[? Hi1]]; apply lookup_insert_Some in Hi2 as [[<- <-]|[? Hi2]]; cbn; [done| | |by apply H3].
    + intros E. by destruct (Hk _ _ Hi2).
    + intros E. by destruct (Hk _ _ Hi1).
  - intros g i Hi. apply lookup_insert_Some in Hi as [[<- <-]|[_ Hi]]; [|by apply (H5 g)]. intros k u Hku. cbn in Hku. destruct Hne. by apply (ki_keys s Hinv _ k).
Qed.

(** ** Reasoning about operations *)

(** The first [B] random UUIDs differ. *)
Context (B : nat) (uuids_differ : forall i j, (i < B)%nat -> (j < B)%nat -> uuid_New i = uuid_New j -> i = j).

(** The draws go on; from a state in [P], while they are below [B], a result
    satisfies [Q] and an error leaves the invariant. *)
Definition triple {A} (P : SendState -> Prop) (m : sender A) (Q : A -> SendState -> Prop) : Prop :=
  (forall s, (ss_draw s <= ss_draw (m s).1)%nat) /\
  forall s s' r, P s -> m s = (s', r) -> (ss_draw s' <= B)%nat ->
    match r with Ok a => Q a s' | Err _ => full_inv s' | Panic => True end.

Lemma triple_bind {A C} P Q Q' (m : sender A) (k : A -> sender C) : triple P m Q -> (forall a, triple (Q a) (k a) Q') -> triple P (sbind m k) Q'.
Proof.
  intros [Hm1 Hm2] Hk. split.
  - intros s. specialize (Hm1 s). unfold sbind. destruct (m s) as [s1 [a|e|]]; cbn in *; [|done..]. destruct (Hk a) as [H _]. specialize (H s1). lia.
  - intros s s' r Hs. destruct (m s) as [s1 x] eqn:E. rewrite (sbind_eq _ _ _ _ _ E). destruct x as [a|e|]; [|intros [= <- <-] Hb; exact (Hm2 _ _ _ Hs E Hb)..].
    destruct (Hk a) as [Hk1 Hk2]. intros H Hb. specialize (Hk1 s1). rewrite H in Hk1. cbn in Hk1. eapply Hk2; [|exact H|done].
    apply (Hm2 _ _ _ Hs E). lia.
Qed.
Lemma triple_lift {A} P Q (o : outcome send_error A) :
  (forall s, P s -> match o with Ok a => Q a s | Err _ => full_inv s | Panic => True end) -> triple P (slift o) Q.
Proof. intros H. split; [done|]. intros s s' r Hs [= <- <-] _. by apply H. Qed.
Lemma triple_ret {A} (P : SendState -> Prop) Q (a : A) : (forall s, P s -> Q a s) -> triple P (sret a) Q.
Proof. intros H. by apply triple_lift. Qed.
Lemma triple_gets {A} (P : SendState -> Prop) Q (f : SendState -> A) : (forall s, P s -> Q (f s) s) -> triple P (gets f) Q.
Proof. intros H. split; [done|]. intros s s' r Hs [= <- <-] _. by apply H. Qed.
Lemma triple_modify (P : SendState -> Prop) (Q : unit -> SendState -> Prop) f : (forall s, ss_draw (f s) = ss_draw s) -> (forall s, P s -> Q tt (f s)) -> triple P (smodify f) Q.
Proof. intros Hf H. split; [intros s; cbn; by rewrite Hf|]. intros s s' r Hs [= <- <-] _. by apply H. Qed.
Lemma triple_weaken {A} (P P' : SendState -> Prop) (Q Q' : A -> SendState -> Prop) m :
  (forall s, P' s -> P s) -> (forall a s, Q a s -> Q' a s) -> triple P m Q -> triple P' m Q'.
Proof.
  intros HP HQ [H1 H2]. split; [done|]. intros s s' r Hs E Hb. specialize (H2 _ _ _ (HP _ Hs) E Hb). destruct r; [by apply HQ|done..].
Qed.
Lemma triple_fact {A} (F : Prop) (P : SendState -> Prop) (m : sender A) Q : (forall s, P s -> F) -> (F -> triple P m Q) -> (forall s, (ss_draw s <= ss_draw (m s).1)%nat) -> triple P m Q.
Proof. intros HF H Hm. split; [done|]. intros s s' r Hs. apply (H (HF s Hs)). done. Qed.

(** Operations that make requests without sender keys. *)
Lemma triple_tells {A} (P : SendState -> Prop) (E : send_error -> Prop) (Q : A -> Prop) (m : sender A) : swp tells E Q m -> (forall s s', tells s s' -> P s -> P s') -> (forall s, P s -> full_inv s) ->
  triple P m (fun a s => Q a /\ P s).
Proof.
  intros Hm HP Hf. split.
  - intros s. destruct (Hm s) as [(l & (_ & _ & H & _) & _) _]. done.
  - intros s s' r Hs Em _. destruct (Hm s) as [Ht Hq]. rewrite Em in Ht, Hq. cbn in Ht, Hq. specialize (HP _ _ Ht Hs).
    destruct r; [done|by apply Hf|done].
Qed.
Lemma silent_tells (s s' : SendState) : silent s s' -> tells s s'.
Proof. intros H. exists []. split; [by apply logs_grows, silent_logs|done]. Qed.
Lemma swp_silent {A} (E : send_error -> Prop) (Q : A -> Prop) (m : sender A) : swp silent E Q m -> swp tells E Q m.
Proof. intros H s. destruct (H s). split; [by apply silent_tells|done]. Qed.
Lemma triple_still {A} (P : SendState -> Prop) (m : sender A) : sframe silent (fun _ => True) m -> (forall s s', tells s s' -> P s -> P s') -> (forall s, P s -> full_inv s) ->
  triple P m (fun _ => P).
Proof.
  intros Hm HP Hf. eapply (triple_weaken P); [by intros| |apply (triple_tells P (fun _ => True) (fun _ => True)); [apply swp_silent; by apply swp_frame|done|done]]. by intros a s [_ ?].
Qed.
Lemma triple_try {A} P Q (m : sender A) : triple P m Q -> triple P (try m) (fun x s => match x with inl _ => full_inv s | inr a => Q a s end).
Proof.
  intros [H1 H2]. split; [intros s; specialize (H1 s); unfold try; by destruct (m s) as [s1 []]|].
  intros s s' r Hs. unfold try. destruct (m s) as [s1 x] eqn:E. intros Er Hb.
  assert (Hb1 : (ss_draw s1 <= B)%nat) by (by destruct x; injection Er as -> _).
  specialize (H2 _ _ _ Hs E Hb1). by destruct x; injection Er as -> <-.
Qed.

(** ** The stages of a group send *)

Section Stages.
Context (gid : bytes) (now : Z).

(** An entry was chosen: the stored one, or a new one. *)
Definition chosen (ski : SenderKeyInfo) (s : SendState) : Prop :=
  key_inv s /\ key_inv (with_info gid ski s) /\
  (reliable -> shared_but gid s /\ each_use use_shared (ss_log s) /\ (shared s ski /\ ss_infos s !! gid = Some ski \/ ski_SharedWith ski = ∅)).

(** It is known who needs the key. *)
Definition ready (ski : SenderKeyInfo) (added : list ServiceID) (s : SendState) : Prop :=
  key_inv s /\ key_inv (with_info gid ski s) /\
  (reliable -> shared_but gid s /\ each_use use_shared (ss_log s) /\ (shared s ski /\ ss_infos s !! gid = Some ski \/ ski_SharedWith ski = ∅ /\ added <> [])).

(** The key was distributed. *)
Definition held (ski : SenderKeyInfo) (s : SendState) : Prop :=
  full_inv s /\ key_inv (with_info gid ski s) /\ (reliable -> shared s ski).

Lemma with_info_id i s : ss_infos s !! gid = Some i -> with_info gid i s = s.
Proof. intros H. unfold with_info. rewrite insert_id by done. by destruct s. Qed.

Lemma chosen_fresh s : (ss_draw s < B)%nat -> key_inv s -> (reliable -> shared_but gid s /\ each_use use_shared (ss_log s)) ->
  chosen (mkSenderKeyInfo (uuid_New (ss_draw s)) ∅ now) (set_sdraw (S (ss_draw s)) s).
Proof.
  intros Hb Hk Hs. split_and!.
  - eapply tells_inv; [|exact Hk]. exists []. split; [|done]. split_and!; cbn; [done|done|lia|by rewrite app_nil_r].
  - by eapply fresh_inv.
  - intros Hr. destruct (Hs Hr) as [H1 H2]. split_and!; [|exact H2|by right]. intros g i Hg Hi. destruct (H1 g i Hg Hi) as (k & Hk' & Hu). by exists k.
Qed.

Lemma full_but s : full_inv s -> reliable -> shared_but gid s /\ each_use use_shared (ss_log s).
Proof. intros [_ H] Hr. destruct (H Hr) as [H1 H2]. split; [|done]. intros g i _. apply H1. Qed.

(** Dropping the key of the entry leaves the others. *)
Lemma del_key_but ski s : key_inv (with_info gid ski s) -> shared_but gid s -> shared_but gid (del_key (ski_DistributionID ski) s).
Proof.
  intros Hk Hs g i Hg Hi. apply del_key_shared; [|by apply (Hs g)]. intros E. apply Hg.
  eapply (ki_dists _ Hk g gid i ski); [cbn; by rewrite lookup_insert_ne|cbn; apply lookup_insert_eq|done].
Qed.

(** Only who is recorded changes. *)
Lemma entry_inv i i' s : ski_DistributionID i' = ski_DistributionID i -> recorded s i' -> key_inv (with_info gid i s) -> key_inv (with_info gid i' s).
Proof.
  intros Hd Hr [H1 H2 H3 H4 H5 H6 H7]. cbn in *.
  assert (Hi : forall g j, <[gid:=i']> (ss_infos s) !! g = Some j -> exists j0, <[gid:=i]> (ss_infos s) !! g = Some j0 /\ ski_DistributionID j0 = ski_DistributionID j).
  { intros g j Hj. apply lookup_insert_Some in Hj as [[<- <-]|[? Hj]]; [exists i; by rewrite lookup_insert_eq|]. exists j. by rewrite lookup_insert_ne. }
  split; cbn; [| |  |exact H4| |exact H6|exact H7].
  - intros g j (j0 & Hj & <-)%Hi. by apply (H1 g).
  - exact H2.
  - intros g1 g2 j1 j2 (j3 & Hj3 & <-)%Hi (j4 & Hj4 & <-)%Hi. by apply H3.
  - intros g j Hj. apply lookup_insert_Some in Hj as [[<- <-]|[? Hj]]; [done|]. apply (H5 g). by rewrite lookup_insert_ne.
Qed.

Lemma current_info_ok : triple full_inv (current_info now gid) chosen.
Proof.
  assert (Hf : forall s, full_inv s -> current_info now gid s =
    match ss_infos s !! gid with
    | None => (set_sdraw (S (ss_draw s)) s, Ok (mkSenderKeyInfo (uuid_New (ss_draw s)) ∅ now))
    | Some i => if SenderKeyMaxAge <? now - ski_CreatedAt i
                then (set_sdraw (S (ss_draw s)) (del_key (ski_DistributionID i) s), Ok (mkSenderKeyInfo (uuid_New (ss_draw s)) ∅ now))
                else (s, Ok i)
    end).
  { intros s _. unfold current_info, GetSenderKeyInfo, sbind. cbn. destruct (_ !! _); cbn; [|done]. by destruct (_ <? _). }
  split.
  - intros s. unfold current_info, GetSenderKeyInfo, sbind. cbn. destruct (_ !! _); cbn; [|lia]. destruct (_ <? _); cbn; lia.
  - intros s s' r Hs. rewrite (Hf s Hs). pose proof (full_but s Hs) as Hbut. destruct (ss_infos s !! gid) as [i|] eqn:Ei; [destruct (_ <? _)|].
    + intros [= <- <-] Hb. cbn in Hb. change (ss_draw s) with (ss_draw (del_key (ski_DistributionID i) s)). apply chosen_fresh; [cbn; lia|by apply del_key_inv, Hs|].
      intros Hr. destruct (Hbut Hr) as [H1 H2]. split; [|done]. apply del_key_but; [|done]. rewrite with_info_id by done. apply Hs.
    + intros [= <- <-] _. split_and!; [apply Hs|rewrite with_info_id by done; apply Hs|]. intros Hr. destruct (Hbut Hr). split_and!; [done|done|]. left.
      split; [|done]. by eapply (proj2 Hs Hr).
    + intros [= <- <-] Hb. cbn in Hb. apply chosen_fresh; [lia|apply Hs|done].
Qed.

Lemma reset_removed_ok ski devices xak added removed : diffRecipients (ski_SharedWith ski) devices = (xak, added, removed) ->
  triple (fun s => devices <> ∅ /\ chosen ski s) (reset_removed ski added removed devices) (fun r s => ready r.1 r.2 s).
Proof.
  intros Hd. destruct (diffRecipients_ok _ _ _ _ _ Hd) as (_ & Ha & _).
  assert (Hc : devices <> ∅ -> exists u, u ∈ dom devices) by (intros (u & m & Hm)%map_choose; exists u; by eapply elem_of_dom_2).
  unfold reset_removed. case_bool_decide.
  - apply triple_ret. intros s ([u Hu]%Hc & H1 & H2 & H3). split_and!; [done..|]. intros Hr. destruct (H3 Hr) as (H4 & H5 & [H6|H6]); split_and!; try done; [by left|].
    right. split; [done|]. cbn. intros ->. destruct (Ha u Hu) as [Hin|Hin]; [by rewrite H6, dom_empty in Hin|by apply not_elem_of_nil in Hin].
  - eapply (triple_bind _ (fun _ s => ready (set_SharedWith ∅ ski) (map fst (map_to_list devices)) s)); [|intros _; by apply triple_ret].
    apply triple_modify; [done|]. intros s ([u Hu]%Hc & H1 & H2 & H3). fold (del_key (ski_DistributionID ski) s). split_and!; [by apply del_key_inv| |].
    + apply (entry_inv ski); [done| |by apply (del_key_inv (ski_DistributionID ski)) in H2]. intros k v Hk. cbn in Hk. by rewrite lookup_delete_eq in Hk.
    + intros Hr. destruct (H3 Hr) as (H4 & H5 & _). split_and!; [by apply del_key_but|done|]. right. split; [done|].
      intros E. apply elem_of_keys in Hu. rewrite E in Hu. by apply not_elem_of_nil in Hu.
Qed.

Lemma distribution_message_eq d s : distribution_message d s =
  match ss_senderKeys s !! d with
  | Some k => (s, match skdm_Serialize (sk_chain k) with Some b => Ok (mkSkdm (sk_id k) b) | None => err "serialize skdm" end)
  | None =>
      match new_chain (ss_draw s) with
      | None => (set_sdraw (S (ss_draw s)) s, err "sender key")
      | Some c => (put_key d (mkSenderKey (ss_draw s) c) (set_sdraw (S (ss_draw s)) s),
                   match skdm_Serialize c with Some b => Ok (mkSkdm (ss_draw s) b) | None => err "serialize skdm" end)
      end
  end.
Proof.
  unfold distribution_message, NewSenderKeyDistributionMessage, sbind. cbn. destruct (_ !! d); cbn; [by destruct (skdm_Serialize _)|].
  destruct (new_chain _); cbn; [|done]. by destruct (skdm_Serialize _).
Qed.

(** The entry's key exists afterwards. *)
Lemma distribution_message_ok ski added s s' r : ready ski added s -> distribution_message (ski_DistributionID ski) s = (s', r) ->
  ss_infos s' = ss_infos s /\
  match r with
  | Ok m => full_inv (with_info gid ski s') /\ exists key, ss_senderKeys s' !! ski_DistributionID ski = Some key /\ skdm_key m = sk_id key
  | Err _ => full_inv s'
  | Panic => False
  end.
Proof.
  intros (H1 & H2 & H3). rewrite distribution_message_eq.
  assert (Hd : known s (ski_DistributionID ski)). { apply (ki_infos _ H2 gid). cbn. apply lookup_insert_eq. }
  destruct (ss_senderKeys s !! ski_DistributionID ski) as [k|] eqn:Ek; [|destruct (new_chain (ss_draw s)) as [c|] eqn:Ec].
  - intros [= <- <-]. split; [done|]. destruct (skdm_Serialize _) as [b|] eqn:Eb; cbn.
    + split; [|by exists k]. split; [done|]. intros Hr. destruct (H3 Hr) as (H4 & H5 & H6). split; [|done]. intros g i Hi. cbn in Hi.
      apply lookup_insert_Some in Hi as [[<- <-]|[Hg Hi]]; [|by apply (H4 g)]. destruct H6 as [[H6 _]|[H6 _]]; [done|].
      exists k. split; [done|]. intros u. rewrite H6, dom_empty. set_solver.
    + split; [done|]. intros [_ Hr]. specialize (Hr (sk_chain k)). by rewrite Eb in Hr.
  - intros [= <- <-]. split; [done|]. destruct (skdm_Serialize _) as [b|] eqn:Eb; cbn.
    + split; [|exists (mkSenderKey (ss_draw s) c); by rewrite lookup_insert_eq]. split; [by apply (new_key_inv _ _ (with_info gid ski s))|].
      intros Hr. destruct (H3 Hr) as (H4 & H5 & H6). split; [|done]. intros g i Hi. cbn in Hi.
      apply lookup_insert_Some in Hi as [[<- <-]|[Hg Hi]]; [|by apply (new_key_shared _ _ (with_info gid ski s)), (H4 g)].
      destruct H6 as [[(k & Hk & _) _]|[H6 _]]; [congruence|]. eexists. cbn. rewrite lookup_insert_eq. split; [done|]. intros u. rewrite H6, dom_empty. set_solver.
    + split; [by apply new_key_inv|]. intros [_ Hr]. specialize (Hr c). by rewrite Eb in Hr.
  - intros [= <- <-]. split; [done|]. cbn. split; [|intros [Hr _]; specialize (Hr (ss_draw s)); by rewrite Ec in Hr].
    eapply tells_inv; [|exact H1]. exists []. split; [|done]. split_and!; cbn; [done|done|lia|by rewrite app_nil_r].
Qed.
Lemma distribution_message_draw d (s : SendState) : (ss_draw s <= ss_draw (distribution_message d s).1)%nat.
Proof. rewrite distribution_message_eq. destruct (_ !! d); [done|]. destruct (new_chain _); cbn; lia. Qed.

(** While the key goes out. *)
Definition sending (m : skdm) (g : group_send) (s : SendState) : Prop :=
  full_inv (with_info gid (gs_info g) s) /\ exists key, ss_senderKeys s !! ski_DistributionID (gs_info g) = Some key /\ skdm_key m = sk_id key.

Lemma send_skdm_inv m ts gidb l g s s' r : sending m g s -> send_skdm dev now l m ts gidb g s = (s', r) ->
  ss_draw s' = ss_draw s /\ match r with Ok g' => sending m g' s' | Err _ => False | Panic => True end.
Proof.
  revert g s. induction l as [|u l IH]; intros g s (Hinv & key & Hk & Hm); cbn [send_skdm].
  { intros [= <- <-]. split; [done|]. split; [done|by exists key]. }
  destruct (send_content dev now u ts (mkContent Content_nil (Some m) None) true (Some gidb) None s) as [s1 x] eqn:E. rewrite (sbind_eq _ _ _ _ _ E).
  destruct (after_skdm_inv gid now key m u ts _ g s s1 x Hk Hm E Hinv) as [[Hd Hkeys] Hx]. destruct x as [x|e|]; [|done|intros [= <- <-]; by split].
  intros H. apply IH in H as [Hd' Hr]; [split; [congruence|done]|]. split; [done|]. exists key. by rewrite after_skdm_dist, Hkeys.
Qed.
Lemma send_skdm_draw m ts gidb l g (s : SendState) : (ss_draw s <= ss_draw (send_skdm (W := W) dev now l m ts gidb g s).1)%nat.
Proof.
  revert g s. induction l as [|u l IH]; intros g s; cbn [send_skdm]; [done|].
  destruct (send_content dev now u ts (mkContent Content_nil (Some m) None) true (Some gidb) None s) as [s1 x] eqn:E. rewrite (sbind_eq _ _ _ _ _ E).
  destruct (sendContent_sends dev now 4 _ _ _ _ _ _ _ _ _ E) as (lg & (_ & _ & Hd & _) & _). rewrite <- Hd. destruct x; [apply IH|done..].
Qed.

Lemma distribute_inv ski added l ts gidb : triple (ready ski added) (distribute dev now ski added l gid ts gidb) (fun g => held (gs_info g)).
Proof.
  unfold distribute. destruct added as [|a0 rest] eqn:Ea.
  { apply triple_ret. intros s (H1 & H2 & H3). cbn. split_and!; [split; [done|]|done|]; intros Hr; destruct (H3 Hr) as (H4 & H5 & [[H6 H7]|[_ H6]]); try done.
    split; [|done]. intros g i Hi. destruct (decide (g = gid)) as [->|]; [|by apply (H4 g)]. by simplify_eq. }
  rewrite <- Ea. eapply (triple_bind _ (fun m s => sending m (mkGroupSend ski (pl_devices l) (pl_senderKey l) (pl_fallback l) false) s)); [|intros m].
  { split; [intros s; apply distribution_message_draw|]. intros s s' r Hs E _. apply (distribution_message_ok _ _ _ _ _ Hs) in E as [_ E]. by destruct r. }
  eapply (triple_bind _ (fun g s => sending m g s)); [|intros g].
  { split; [intros s; apply send_skdm_draw|]. intros s s' r Hs E _. apply (send_skdm_inv _ _ _ _ _ _ _ _ Hs) in E as [_ E]. by destruct r. }
  eapply (triple_bind _ (fun _ => held (gs_info g))); [|intros _; by apply triple_ret].
  apply triple_modify; [done|]. intros s (Hinv & _). fold (with_info gid (gs_info g) s). split_and!; [done| |].
  - rewrite with_info_id; [apply Hinv|]. cbn. apply lookup_insert_eq.
  - intros Hr. destruct Hinv as [_ Hinv]. apply (Hinv Hr) with gid. cbn. apply lookup_insert_eq.
Qed.

(** ** Using the key *)

Lemma held_tells ski s s' : tells s s' -> held ski s -> held ski s'.
Proof.
  intros Ht (H1 & H2 & H3). split_and!; [by eapply tells_full| |intros Hr; by eapply tells_shared; [|apply H3]].
  eapply tells_inv; [|exact H2]. by apply tells_with.
Qed.
Lemma held_use ski d k c s : ss_senderKeys s !! d = Some k -> held ski s -> held ski (put_key d (mkSenderKey (sk_id k) c) s).
Proof.
  intros Hk ((H1 & H2) & H3 & H4). split_and!; [split; [by apply use_key_inv|]|by apply (use_key_inv _ _ _ (with_info gid ski s))|]; intros Hr.
  - destruct (H2 Hr) as [H5 H6]. split; [|done]. intros g i Hi. by apply use_key_shared, (H5 g).
  - by apply use_key_shared, H4.
Qed.

(** The key with number [k] is the current one. *)
Definition current (ski : SenderKeyInfo) (k : nat) (s : SendState) : Prop :=
  held ski s /\ exists key, ss_senderKeys s !! ski_DistributionID ski = Some key /\ sk_id key = k.
Lemma current_tells ski k s s' : tells s s' -> current ski k s -> current ski k s'.
Proof. intros Ht [H1 (key & H2 & H3)]. split; [by eapply held_tells|]. exists key. split; [|done]. by destruct Ht as (l & (-> & _) & _). Qed.
Lemma current_full ski k s : current ski k s -> full_inv s.
Proof. by intros [[? _] _]. Qed.

Lemma encrypt_ok ski gidb l c : triple (held ski) (encryptWithSenderKey now gidb (ski_DistributionID ski) l c) (fun p => current ski p.1).
Proof.
  assert (Hl : forall A (o : outcome send_error A), triple (held ski) (slift o) (fun _ => held ski)).
  { intros A o. apply triple_lift. intros s Hs. destruct o; [done|apply Hs|done]. }
  assert (Hl' : forall A k (o : outcome send_error A), triple (current ski k) (slift o) (fun _ => current ski k)).
  { intros A k o. apply triple_lift. intros s Hs. destruct o; [done|by eapply current_full|done]. }
  unfold encryptWithSenderKey. eapply triple_bind; [apply Hl|]. intros p1. eapply triple_bind; [apply Hl|]. intros p2.
  eapply (triple_bind _ (fun o s => held ski s /\ o = ss_senderKeys s !! ski_DistributionID ski)); [by apply triple_gets|]. intros o.
  eapply (triple_bind _ (fun key s => held ski s /\ ss_senderKeys s !! ski_DistributionID ski = Some key)).
  { apply triple_lift. intros s [Hs Ho]. destruct o as [k|]; cbn; [done|apply Hs]. }
  intros key. eapply (triple_bind _ (fun _ s => held ski s /\ ss_senderKeys s !! ski_DistributionID ski = Some key)).
  { apply triple_lift. intros s [Hs Ho]. destruct (GroupEncrypt _ _); [done|apply Hs|done]. }
  intros ct. eapply (triple_bind _ (fun _ => current ski (sk_id key))).
  { apply triple_modify; [done|]. intros s [Hs Ho]. split; [by apply held_use|]. eexists. cbn. by rewrite lookup_insert_eq. }
  intros _. eapply triple_bind; [apply triple_still; [apply still_certificate|apply current_tells|apply current_full]|]. intros cert.
  eapply triple_bind; [apply Hl'|]. intros u. eapply triple_bind; [apply Hl'|]. intros b. by apply triple_ret.
Qed.

Lemma multi_ok members all g k st : triple (fun s => (group_ok members all [] g /\ gs_needsRetry g = false) /\ current (gs_info g) k s)
  (log_event (Ev_Multi k (map fst (gs_senderKey g)) members st)) (fun _ => full_inv).
Proof.
  apply triple_modify; [done|]. intros s [[(Hg1 & Hg2 & Hg3 & _) Hn] [((H1 & H2) & H3 & H4) (key & Hk & <-)]]. split.
  - apply multi_inv; [done|]. intros u Hu. apply Hg3. eapply (ki_recorded _ H3 gid); [cbn; apply lookup_insert_eq|exact Hk|exact Hu].
  - intros Hr. destruct (H2 Hr) as [H5 H6]. split; [intros g' i Hi; by apply multi_shared, (H5 g')|]. cbn. apply each_use_snoc; [done|].
    intros t Ht. destruct (H4 Hr) as (key' & Hk' & Hs). rewrite Hk in Hk'. injection Hk' as <-. apply Hs.
    destruct (Hg2 t.1) as [|[Hin|]]; [|done|by apply not_elem_of_nil in Hin|congruence].
    apply Hg1. unfold users. apply list_elem_of_fmap. apply list_elem_of_fmap in Ht as (x & -> & Hx). by exists x.
Qed.
End Stages.

(** ** Group sends *)

Lemma triple_and {A} (F : A -> Prop) P Q (m : sender A) : triple P m Q -> (forall s s' a, P s -> m s = (s', Ok a) -> F a) -> triple P m (fun a s => F a /\ Q a s).
Proof.
  intros [H1 H2] HF. split; [done|]. intros s s' r Hs E Hb. specialize (H2 _ _ _ Hs E Hb). destruct r; [|done..]. split; [by eapply HF|done].
Qed.
(** The facts a step keeps, next to its own. *)
Lemma triple_keep {A} (F : Prop) P Q (m : sender A) : triple P m Q -> triple (fun s => F /\ P s) m (fun a s => F /\ Q a s).
Proof.
  intros [H1 H2]. split; [done|]. intros s s' r [Hf Hs] E Hb. specialize (H2 _ _ _ Hs E Hb). by destruct r.
Qed.
Lemma triple_full {A} (F : Prop) (m : sender A) : sframe tells (fun _ => True) m -> triple (fun s => F /\ full_inv s) m (fun _ => full_inv).
Proof.
  intros Hm. eapply (triple_weaken full_inv); [by intros s []| |apply (triple_tells _ (fun _ => True) (fun _ => True)); [by apply swp_frame|apply tells_full|done]].
  by intros a s [_ ?].
Qed.
Lemma triple_True {A} P (m : sender A) Q : triple (fun s => True /\ P s) m Q -> triple P m Q.
Proof. intros H. by eapply triple_weaken; [| |exact H]. Qed.

Lemma tells_sendToGroup now l c ts res gid : ct_SKDM c = None -> sframe tells (fun _ => True) (sendToGroup (W := W) dev now l c ts res gid).
Proof.
  intros Hc s. destruct (sendToGroup _ _ _ _ _ _ _ s) as [s' r] eqn:E. destruct (sendToGroup_spec _ _ _ _ _ _ _ _ _ _ Hc E) as (lg & Hg & Hk & _).
  split; [by exists lg|]. by destruct r.
Qed.
Lemma tells_still {A} (m : sender A) : sframe silent (fun _ => True) m -> sframe tells (fun _ => True) m.
Proof. intros H s. destruct (H s). split; [by apply silent_tells|done]. Qed.

Lemma log_wp_Ok {A} (Q : A -> Prop) (m : sender A) s s' a : swp log_grows (fun _ => True) Q m -> m s = (s', Ok a) -> Q a.
Proof. intros H E. destruct (H s) as [_ H2]. by rewrite E in H2. Qed.

Lemma multi_response_ok now again gid all c ts l g status body : ct_SKDM c = None -> triple full_inv again (fun _ => full_inv) ->
  triple full_inv (multi_response dev now again gid all c ts l g status body) (fun _ => full_inv).
Proof.
  intros Hc Hagain. unfold multi_response. destruct (_ =? 200).
  { eapply (triple_bind _ (fun _ => full_inv)); [apply triple_lift; intros s Hs; by destruct (json_multi_200 _)|]. intros uuids.
    eapply (triple_bind _ (fun _ => full_inv)); [|intros res; by apply triple_True, triple_full, tells_sendToGroup].
    apply triple_True, triple_full, tells_still, sure_still. eapply swp_frame, swp_impl; [|apply settle_all_ok]. done. }
  destruct (_ || _); [by apply triple_True, triple_full, tells_sendToGroup|]. destruct (_ || _).
  { eapply (triple_bind _ (fun _ => full_inv)); [|done]. apply triple_True, triple_full, tells_still, still_multi. }
  destruct (_ || _); by apply triple_lift.
Qed.

Lemma group_send_ok now tries gid all sec c ts : ct_SKDM c = None ->
  triple full_inv (sendToGroupWithSenderKey dev now tries gid all sec c ts) (fun _ => full_inv).
Proof.
  intros Hc. induction tries as [|tries IH]; cbn [sendToGroupWithSenderKey]; [by apply triple_True, triple_full, tells_sendToGroup|].
  set (gidS := BytesToGroupIdentifier (Some gid)).
  eapply triple_bind; [apply triple_True, triple_full, tells_still, (sframe_lift silent (fun _ => True)), any_outcome|]. intros ?.
  eapply triple_bind; [apply triple_True, triple_full, tells_still; intros s; split; [cbn; by destruct (_ =? _)%nat|done]|]. intros ?.
  eapply triple_bind; [eapply (triple_tells _ _ (placed_ok dev all)); [eapply swp_silent, (getDevicesIDs_ok dev sec all []), placed_nil|apply tells_full|done]|]. intros l.
  destruct (_ =? 0)%nat eqn:En; [by apply triple_full, tells_sendToGroup|]. apply Nat.eqb_neq in En.
  eapply triple_bind; [apply triple_keep, (current_info_ok gidS)|]. intros ski.
  destruct (diffRecipients _ _) as [[xak added] removed] eqn:Ed.
  eapply (triple_bind _ (fun r s => (placed_ok dev all l /\ shares_ok r.1 r.2 (pl_devices l)) /\ ready gidS r.1 r.2 s)).
  { eapply (triple_weaken (fun s => placed_ok dev all l /\ pl_devices l <> ∅ /\ chosen gidS ski s));
      [|intros r s H; exact H|eapply triple_and; [eapply (triple_weaken (fun s => pl_devices l <> ∅ /\ chosen gidS ski s)); [by intros s []|intros r s H; exact H|by eapply reset_removed_ok]|]].
    - intros s [Hp Hs]. split_and!; [done| |done]. intros Hd. destruct Hp as [_ Hp]. destruct (pl_senderKey l) as [|t r]; [done|].
      destruct (Hp t.1.1) as [Hp' _]. rewrite Hd, dom_empty in Hp'. cbn in Hp'. set_solver.
    - intros s s' r (Hp & _) E. split; [done|]. by apply (log_wp_Ok _ _ _ _ _ (reset_ok _ _ _ _ _ Ed)) in E as [? _]. }
  intros r. eapply (triple_bind _ (fun g s => group_ok all (addressees l) [] g /\ held gidS (gs_info g) s)).
  { eapply triple_and; [eapply triple_weaken; [|intros g s H; exact H|apply (distribute_inv gidS)]; by intros s []|].
    intros s s' g (([Hp1 Hp2] & Hsh) & _) E. assert (Hm : forall u, u ∈ dom (pl_devices l) -> u ∈ all) by (intros u Hu; apply Hp1; by left).
    by destruct (log_wp_Ok _ _ _ _ _ (distribute_ok dev now all _ _ _ gidS ts gid Hm Hp2 Hsh) E). }
  intros g. destruct (gs_needsRetry g) eqn:Er; [by eapply triple_weaken; [|intros x s H; exact H|exact IH]; intros s (_ & [? _])|].
  eapply (triple_bind _ (fun x s => match x with inl _ => full_inv s
            | inr p => (group_ok all (addressees l) [] g /\ gs_needsRetry g = false) /\ current gidS (gs_info g) p.1 s end)).
  { eapply triple_weaken; [|intros x s H; exact H|apply triple_try, triple_keep, encrypt_ok]. by intros s []. }
  intros [e|[k ct]].
  { destruct e; try (by apply triple_lift). eapply (triple_bind _ (fun _ => full_inv)); [|done]. apply triple_modify; [done|]. intros s. apply del_info_full. }
  cbn [fst]. eapply triple_bind; [apply triple_keep|].
  { apply (triple_lift _ (fun _ => current gidS (gs_info g) k)). intros s Hs. destruct (send_token _ _ _); [done|by eapply current_full|done]. }
  intros token. eapply triple_bind; [apply triple_keep, triple_still; [apply sure_still, sure_try, still_request|apply current_tells|apply current_full]|].
  intros resp. cbv zeta. eapply triple_bind; [apply multi_ok|]. intros ?. by apply multi_response_ok.
Qed.

Lemma triple_quiet {A} (m : sender A) : sframe tells (fun _ => True) m -> triple full_inv m (fun _ => full_inv).
Proof. intros H. by apply triple_True, triple_full. Qed.
Lemma triple_bind_lift {A C} P Q (o : outcome send_error A) (k : A -> sender C) : (forall s, P s -> full_inv s) ->
  (forall a, o = Ok a -> triple P (k a) Q) -> triple P (sbind (slift o) k) Q.
Proof.
  intros Hf Hk. destruct o as [a|e|]; [by apply (Hk a)| |]; (split; [done|]); intros s s' r Hs [= <- <-] _; [by apply Hf|done].
Qed.

Lemma SendGroupMessage_ok now gid group e c : ct_SKDM c = None -> triple full_inv (SendGroupMessage dev now gid group e c) (fun _ => full_inv).
Proof.
  intros Hc. unfold SendGroupMessage. apply triple_bind_lift; [done|]. intros a [Ha _]%address_to_group_same.
  apply triple_bind_lift; [done|]. intros b _. apply group_send_ok. congruence.
Qed.

Lemma ResetSenderKey_ok gid : triple full_inv (ResetSenderKey dev gid) (fun _ => full_inv).
Proof.
  split; [intros s|intros s s' r Hs]; unfold ResetSenderKey, GetSenderKeyInfo, DeleteSenderKey, DeleteSenderKeyInfo, sbind; cbn;
    destruct (ss_infos s !! gid) as [i|] eqn:Ei; cbn; try done; try (by intros [= <- <-] _); destruct (own_address dev); cbn; try done; intros [= <- <-] _; try done.
  pose proof (del_info_inv gid _ (del_key_inv (ski_DistributionID i) _ (proj1 Hs))) as Hi. split; [exact Hi|]. intros Hr. destruct (full_but gid s Hs Hr) as [H1 H2].
  split; [|exact H2]. intros g j Hj. cbn in Hj. apply lookup_delete_Some in Hj as [Hg Hj].
  assert (H3 : shared_but gid (del_key (ski_DistributionID i) s)) by (apply del_key_but; [rewrite with_info_id by done; apply Hs|done]).
  destruct (H3 g j) as (k & Hk & Hu); [done|done|]. by exists k.
Qed.

(** ** Retry requests *)

(** The key goes again to somebody who has it. *)
Lemma resend_ok gid now i key m u ts c b o s s' r : ss_infos s !! gid = Some i -> ss_senderKeys s !! ski_DistributionID i = Some key ->
  u ∈ dom (ski_SharedWith i) -> ct_SKDM c = Some m -> skdm_key m = sk_id key ->
  send_content dev now u ts c true b o s = (s', r) -> full_inv s ->
  ss_draw s' = ss_draw s /\ match r with Err _ => False | _ => full_inv s' end.
Proof.
  intros Hi Hk Hu Hc Hm E [H1 H2]. destruct (sendContent_sends dev now 4 _ _ _ _ _ _ _ _ _ E) as (l & Hl & _ & Hf & Hr). rewrite Hc in Hf. cbn in Hf. rewrite Hm in Hf.
  assert (Hs' : full_inv s').
  { rewrite <- (with_info_id gid i s') by (destruct Hl as (_ & -> & _); done). split; [|intros Hrel; specialize (H2 Hrel)].
    - eapply (skdm_inv gid i i); try done. by rewrite with_info_id.
    - eapply (skdm_shared gid i i); try done; [by left|]. by rewrite with_info_id. }
  split; [by destruct Hl as (_ & _ & ? & _)|]. by destruct r as [[? []]| |].
Qed.

(** The key to send again is the current one of a group, and the user has it. *)
Definition resendable (u : ServiceID) (m : skdm) (s : SendState) : Prop :=
  exists gid i key, ss_infos s !! gid = Some i /\ ss_senderKeys s !! ski_DistributionID i = Some key /\ u ∈ dom (ski_SharedWith i) /\ skdm_key m = sk_id key.
Definition may_resend (u : ServiceID) (m : option skdm) (s : SendState) : Prop :=
  full_inv s /\ match m with Some m => resendable u m s | None => True end.

Lemma retry_skdm_ok gid u d : triple full_inv (retry_skdm dev gid u d) (may_resend u).
Proof.
  unfold retry_skdm. destruct (beqb gid []); [by apply triple_ret|].
  eapply (triple_bind _ (fun o s => full_inv s /\ o = ss_infos s !! gid)); [by apply triple_gets|]. intros o.
  eapply (triple_bind _ (fun _ s => full_inv s /\ o = ss_infos s !! gid)).
  { apply triple_lift. intros s [Hs Ho]. by destruct (own_address dev). }
  intros _. destruct o as [i|]; [|apply triple_ret; by intros s []]. case_bool_decide as Hd; [|apply triple_ret; by intros s []].
  eapply (triple_bind _ (fun m => may_resend u (Some m))); [|intros m; by apply triple_ret].
  assert (Hu : u ∈ dom (ski_SharedWith i)). { destruct (ski_SharedWith i !! u) eqn:E; [by eapply elem_of_dom_2|]. by apply not_elem_of_nil in Hd. }
  split; [intros s; apply distribution_message_draw|]. intros s s' r [Hs Hi] E _.
  assert (Hready : ready gid i [] s).
  { split_and!; [apply Hs|rewrite with_info_id by done; apply Hs|]. intros Hr. destruct (full_but gid s Hs Hr). split_and!; [done|done|]. left. split; [|done].
    by eapply (proj2 Hs Hr). }
  destruct (distribution_message_ok gid _ _ _ _ _ Hready E) as [Hi' Hr]. destruct r as [m|e|]; [|done..]. destruct Hr as [Hf (key & Hk & Hm)].
  rewrite with_info_id in Hf by congruence. split; [done|]. exists gid, i, key. rewrite Hi'. done.
Qed.

Lemma retry_send_ok now u ts c b : triple (may_resend u (ct_SKDM c)) (let* r := send_content dev now u ts c true b None in match r.2 with inl e => slift (Err e) | inr _ => sret tt end)
  (fun _ => full_inv).
Proof.
  eapply (triple_bind _ (fun _ => full_inv)); [|intros [c' [e|x]]; by apply triple_lift]. split.
  - intros s. destruct (send_content _ _ _ _ _ _ _ _ s) as [s' r] eqn:E. destruct (sendContent_sends dev now 4 _ _ _ _ _ _ _ _ _ E) as (l & (_ & _ & Hd & _) & _). cbn. lia.
  - intros s s' r [Hs Hm] E _. destruct (ct_SKDM c) as [m|] eqn:Em.
    + destruct Hm as (gid & i & key & Hi & Hk & Hu & Hm). destruct (resend_ok gid now i key m u ts c b None s s' r Hi Hk Hu Em Hm E Hs) as [_ Hr]. by destruct r.
    + destruct (content_keyless dev now _ _ _ _ _ _ _ _ _ Em E) as (l & Hg & Hl & Hr). assert (Ht : tells s s') by (by exists l).
      apply (tells_full _ _ Ht) in Hs. by destruct r.
Qed.

Context (sendCache_Get : list (sendCacheKey * Content) -> sendCacheKey -> option Content).

Lemma still_archive a dem : sframe silent (fun _ => True) (archive_session (W := W) a dem).
Proof. unfold archive_session. send_walk. Qed.

Lemma handleRetryRequest_ok now result dem : triple full_inv (handleRetryRequest dev now sendCache_Get result dem) (fun _ => full_inv).
Proof.
  unfold handleRetryRequest. apply triple_bind_lift; [done|]. intros d _. destruct (negb _); [by apply triple_ret|].
  apply triple_bind_lift; [done|]. intros u _. apply triple_bind_lift; [done|]. intros ts _.
  eapply triple_bind; [apply triple_quiet, tells_still, still_archive|]. intros archived.
  eapply triple_bind; [apply retry_skdm_ok|]. intros m.
  eapply (triple_bind _ (fun _ => may_resend u m)); [by apply triple_gets|]. intros [c|].
  { apply (retry_send_ok _ _ _ (mkContent (ct_Content c) m (ct_PniSignature c))). }
  destruct m as [m|]; [apply (retry_send_ok _ _ _ (mkContent Content_nil (Some m) None))|].
  assert (Hd : forall A (k : nat -> sender A) Q, (forall d, triple (may_resend u None) (k d) Q) -> triple (may_resend u None) (sbind draw_next k) Q).
  { intros A k Q Hk. eapply (triple_bind _ (fun _ => may_resend u None)); [|done]. split; [intros s; cbn; lia|]. intros s s' r [Hs _] [= <- <-] _. split; [|done].
    eapply tells_full; [|exact Hs]. exists []. split; [|done]. split_and!; cbn; [done|done|lia|by rewrite app_nil_r]. }
  destruct archived; [|apply triple_ret; by intros s []]. apply Hd. intros d1. apply Hd. intros d2.
  apply (retry_send_ok _ _ _ (mkContent (Content_NullMessage _) None None)).
Qed.

(** ** Other sends *)

#[local] Abbreviation told := (sframe (E := send_error) (tells (W := W)) (fun _ => True)).
#[local] Abbreviation told_wp := (swp (E := send_error) (tells (W := W)) (fun _ => True)).

Lemma told_weaken {A} E (Q : A -> Prop) (m : sender A) : swp tells E Q m -> told_wp Q m.
Proof. intros H s. destruct (H s) as [H1 H2]. split; [done|]. by destruct (m s).2. Qed.
Lemma told_send now t ts c b g o : ct_SKDM c = None -> told_wp (fun r => ct_SKDM r.1 = None) (send_content (W := W) dev now t ts c b g o).
Proof.
  intros Hc s. destruct (send_content _ _ _ _ _ _ _ _ s) as [s' r] eqn:E. destruct (content_keyless dev now _ _ _ _ _ _ _ _ _ Hc E) as (l & Hg & Hk & Hr).
  split; [by exists l|]. destruct r as [[c' x]| |]; [|done..]. by destruct Hr.
Qed.
Lemma told_bind {A C} (Q : A -> Prop) (m : sender A) (k : A -> sender C) : told_wp Q m -> (forall a, Q a -> told (k a)) -> told (sbind m k).
Proof. intros Hm Hk. apply swp_frame. eapply swp_bind; [apply _|exact Hm|]. intros a Ha. by apply swp_frame, Hk. Qed.
Lemma told_ret {A} (a : A) : told (sret a).
Proof. apply (sframe_ret tells (fun _ => True)). Qed.
Lemma told_lift {A} (o : outcome send_error A) : told (slift o).
Proof. apply (sframe_lift tells (fun _ => True)), any_outcome. Qed.

Lemma wp_read_receipt m sender : told_wp plain (syncMessageFromReadReceiptMessage (W := W) m sender).
Proof.
  assert (Hs : forall x, told_wp plain (let* c := WrapSyncMessage x in sret (Some c))).
  { intros x. eapply told_weaken, wp_some, wp_sync. }
  assert (Hn : told_wp plain (sret None)) by (by apply (swp_ret tells (fun _ => True))).
  unfold syncMessageFromReadReceiptMessage. repeat case_match; done.
Qed.

Lemma told_sync_copy now c ts res : ct_SKDM c = None -> told (sendSyncCopy (W := W) dev now c ts res).
Proof.
  intros Hc. unfold sendSyncCopy. eapply (told_bind plain).
  - destruct (ct_Content c); try by apply (swp_ret tells (fun _ => True)).
    + eapply told_weaken, wp_some, wp_sent.
    + eapply told_weaken, wp_some. unfold syncMessageFromSoloEditMessage. destruct (isSome _); [apply wp_sent|apply wp_panic].
    + apply wp_read_receipt.
  - intros [c'|] Hc'; [|apply told_ret]. eapply told_bind; [by apply told_send|]. intros r _. apply told_ret.
Qed.

Lemma wp_update_recipient t c : ct_SKDM c = None -> told_wp (fun r => ct_SKDM r.2 = None) (update_recipient (W := W) dev t c).
Proof.
  intros Hc s. unfold update_recipient. cbv zeta. destruct (if _ : bool then _ else _) as [aci pni].
  match goal with |- context [match ?x with Some sig => mkContent _ _ _ | None => c end] => set (c' := match x with Some sig => mkContent (ct_Content c) (ct_SKDM c) (Some (fixed_bytes (dev_PNI dev), sig)) | None => c end) end.
  assert (Hc' : ct_SKDM c' = None) by (unfold c'; by case_match). clearbody c'.
  assert (Ht : forall x, tells s (set_recipients x s)) by (intros x; by apply silent_tells).
  destruct (LoadAndUpdateRecipient _ _ _ _) as [st [[r b]| |]]; split; try apply Ht; done.
Qed.

Lemma told_SendMessage now GetIdentityKey t c : ct_SKDM c = None -> told (SendMessage (W := W) dev now GetIdentityKey t c).
Proof.
  intros Hc. unfold SendMessage. eapply told_bind; [apply swp_frame, told_lift|]. intros ts _.
  eapply told_bind; [by apply wp_update_recipient|]. intros [data c1] Hc1. cbn in Hc1. cbv zeta.
  assert (Hcopy : forall res, told_wp (fun _ => True) (sendSyncCopy dev now c1 ts res)) by (intros res; by apply swp_frame, told_sync_copy).
  destruct (_ && _); [destruct (is_receipt_of _ c1); (eapply told_bind; [first [apply Hcopy|apply swp_frame, told_ret]|]); intros ? _; apply told_ret|].
  destruct (_ && _); [apply told_ret|]. destruct (_ && _); [eapply told_bind; [apply Hcopy|]; intros ? _; apply told_ret|].
  destruct (_ && _); [eapply told_bind; [apply Hcopy|]; intros ? _; apply told_ret|].
  eapply told_bind; [apply swp_frame, tells_still; by intros s|]. intros ? _. eapply told_bind; [by apply told_send|].
  intros [c' [e|x]] Hc'; [apply told_ret|]. eapply told_bind; [by apply swp_frame, told_sync_copy|]. intros ? _. apply told_ret.
Qed.

(** *** Retry and sync requests *)

Lemma told_request now t ts c b g o : ct_SKDM c = None -> told (let* r := send_content (W := W) dev now t ts c b g o in match r.2 with inl e => slift (Err e) | inr _ => sret tt end).
Proof. intros Hc. eapply told_bind; [by apply told_send|]. intros [c' [e|x]] _; [apply told_lift|apply told_ret]. Qed.
Lemma told_retry_request now result ts : told (sendRetryRequest (W := W) dev now result ts).
Proof. unfold sendRetryRequest. do 4 (eapply told_bind; [apply swp_frame, told_lift|]; intros ? _). by apply told_request. Qed.
Lemma told_wrapped now x b : told (let* c := WrapSyncMessage x in let* r := send_content (W := W) dev now (ACIServiceID dev) now c b None None in
  match r.2 with inl e => slift (Err e) | inr _ => sret tt end).
Proof. eapply told_bind; [eapply told_weaken, wp_sync|]. intros c Hc. by apply told_request. Qed.
Lemma told_contacts now : told (SendContactSyncRequest (W := W) dev now).
Proof.
  unfold SendContactSyncRequest. eapply told_bind; [apply swp_frame, tells_still, sure_still, sure_gets|]. intros t _. destruct (_ <? _); [apply told_ret|].
  eapply told_bind; [apply swp_frame, tells_still; by intros s|]. intros ? _. apply told_wrapped.
Qed.

(** ** Runs *)

(** What happens to the client: a message is sent to a user or a group,
    whatever the group is by then; a key is reset; a retry request is answered
    or made; other devices are asked; or anything else changes that is not a
    sender key (sessions, contacts, the server).  Calls that panic are left
    out. *)
Inductive send_step : SendState -> SendState -> Prop :=
| step_group now gid group endorsement c s s' r : ct_SKDM c = None ->
    SendGroupMessage dev now gid group endorsement c s = (s', r) -> r <> Panic -> send_step s s'
| step_message now GetIdentityKey recipient c s : ct_SKDM c = None -> send_step s (SendMessage dev now GetIdentityKey recipient c s).1
| step_reset gid s : send_step s (ResetSenderKey dev gid s).1
| step_answer_retry now result dem s s' r : handleRetryRequest dev now sendCache_Get result dem s = (s', r) -> r <> Panic -> send_step s s'
| step_ask_retry now result ts s : send_step s (sendRetryRequest dev now result ts s).1
| step_ask_contacts now s : send_step s (SendContactSyncRequest dev now s).1
| step_ask_key now s : send_step s (SendStorageMasterKeyRequest dev now s).1
| step_other s s' : silent s s' -> send_step s s'.

Lemma step_inv s s' : send_step s s' -> (ss_draw s <= ss_draw s')%nat /\ ((ss_draw s' <= B)%nat -> full_inv s -> full_inv s').
Proof.
  assert (Hq : forall A (m : sender A), told m -> (ss_draw s <= ss_draw (m s).1)%nat /\ ((ss_draw (m s).1 <= B)%nat -> full_inv s -> full_inv (m s).1)).
  { intros A m Hm. destruct (Hm s) as [Ht _]. split; [by destruct Ht as (l & (_ & _ & ? & _) & _)|]. intros _. by apply tells_full. }
  assert (Ht : forall A (m : sender A), triple full_inv m (fun _ => full_inv) -> forall s' r, m s = (s', r) -> r <> Panic ->
            (ss_draw s <= ss_draw s')%nat /\ ((ss_draw s' <= B)%nat -> full_inv s -> full_inv s')).
  { intros A m [Hm1 Hm2] s1 r E Hr. specialize (Hm1 s). rewrite E in Hm1. split; [done|]. intros Hb Hs. specialize (Hm2 _ _ _ Hs E Hb). by destruct r. }
  intros Hst. destruct Hst.
  - eapply Ht; [by apply SendGroupMessage_ok|done|done].
  - by apply Hq, told_SendMessage.
  - eapply (Ht _ _ (ResetSenderKey_ok gid)); [apply surjective_pairing|]. unfold ResetSenderKey, GetSenderKeyInfo, sbind. cbn. destruct (_ !! _); cbn; [|done].
    unfold own_address, Address. by repeat case_match.
  - eapply Ht; [apply handleRetryRequest_ok|done|done].
  - apply Hq, told_retry_request.
  - apply Hq, told_contacts.
  - apply Hq, told_wrapped.
  - split; [by destruct H as (_ & _ & -> & _)|]. intros _. by apply tells_full, silent_tells.
Qed.

(** No sender keys, and nothing was sent. *)
Definition initial (s : SendState) : Prop := ss_senderKeys s = ∅ /\ ss_infos s = ∅ /\ ss_log s = [].

Lemma initial_inv s : initial s -> full_inv s.
Proof.
  intros (E1 & E2 & E3). assert (Hn : forall k u, ~ holder (ss_log s) k u) by (intros k u; unfold holder; rewrite E3, Exists_nil; tauto). split.
  - split; rewrite ?E1, ?E2; try done.
    + intros k u Hh. by destruct (Hn k u).
    + rewrite E3. apply each_use_nil.
  - intros _. split; [by rewrite E2|rewrite E3; apply each_use_nil].
Qed.

Lemma run_inv s0 s : rtc send_step s0 s -> (ss_draw s <= B)%nat -> full_inv s0 -> full_inv s.
Proof.
  assert (Hd : forall s1 s2, rtc send_step s1 s2 -> (ss_draw s1 <= ss_draw s2)%nat).
  { intros s1 s2 Hr. induction Hr as [|s1 s2 s3 Hs _ IH]; [done|]. apply step_inv in Hs as [? _]. lia. }
  intros Hr Hb. induction Hr as [|s1 s2 s3 Hs Hr IH]; [done|]. intros Hi. apply IH; [done|]. apply step_inv in Hs as [_ Hs].
  apply Hs; [|done]. apply Hd in Hr. lia.
Qed.

(** C2: In every run of the client (group messages to whatever the members are
    at the time, messages to users, resets, answers to retry requests, and
    arbitrary changes of sessions, devices, contacts and server answers in
    between), no message to a group is encrypted with a sender key that
    somebody was given who is not among the members the message is for: whoever
    leaves a group cannot read what is sent to it afterwards.  The UUIDs that
    are drawn are assumed to differ. *)
Theorem sender_key_safety s0 s : initial s0 -> rtc send_step s0 s -> (ss_draw s <= B)%nat -> each_use use_safe (ss_log s).
Proof. intros Hi Hr Hb. apply ki_safe. by apply (run_inv s0 s Hr Hb), initial_inv. Qed.

(** C27: In every such run, a message to a group that is encrypted with a
    sender key only goes to users that were sent this very key before, so they
    can read it, as long as libsignal can make and serialize keys. *)
Theorem sender_key_shared s0 s : reliable -> initial s0 -> rtc send_step s0 s -> (ss_draw s <= B)%nat -> each_use use_shared (ss_log s).
Proof. intros Hrel Hi Hr Hb. apply (run_inv s0 s Hr Hb); [by apply initial_inv|done]. Qed.
End Safety.
