(* ===== verification/SendSamples.v ===== *)
(** Concrete instances of the parameters of the sending files, and a run in
    which a member leaves a group between two messages. *)
From S2P Require Import Prelude GoLib ServiceId Crypto Storage ChatSettings RecipientStore StorageSync Groups GroupCache GroupChanges GroupUpdate GroupSamples Sending Requests SenderKeys GroupSend SenderKeySafety.

Module SampleSends.
Import CanonicalUUID SampleGroups.

(** ** Toy parameters *)

#[export] Instance toy_protocol : SignalProtocol := {|
  session_record := unit; HasCurrentState _ := Some true; GetRemoteRegistrationID _ := Some 1; ArchiveCurrentState _ := Some tt;
  identity_key := unit; public_key := unit; CurrentRatchetKeyMatches _ _ := Some true; kyber_key := unit; prekey_bundle := unit;
  DeserializeIdentityKey _ := Some (Some tt); DeserializePublicKey _ := Some tt; DeserializeKyberPublicKey _ := Some tt;
  NewPreKeyBundle _ _ _ _ _ _ _ _ _ _ _ := Some tt; ProcessPreKeyBundle _ _ _ _ := Some tt; newAddress_ok _ _ := true;
  ciphertext := bytes; Encrypt b _ _ _ := Ok (b, tt); MessageType _ := 2; ctm_Serialize b := Some b;
  sender_certificate := unit; cert_GetExpiration _ := Some 100000000; DeserializeSenderCertificate _ := Some tt;
  usmc := bytes; NewUnidentifiedSenderMessageContent b _ _ _ := Some b; SealedSenderEncrypt b _ _ := Some b;
  DeriveAccessKey _ := Some (fixed_zero 16); SignAlternateIdentity := Some [];
  decryption_error := unit; DecryptionErrorMessageForOriginalMessage _ _ _ _ := Some tt; dem_Serialize _ := Some [];
  PlaintextContentFromDecryptionErrorMessage _ := Some []; dem_GetDeviceID _ := Some 2; dem_GetTimestamp _ := Some 0; dem_GetRatchetKey _ := Some None;
  sender_chain := nat; new_chain n := Some n; skdm_Serialize c := Some [z2b (Z.of_nat c)]; GroupEncrypt b c := Ok (b, S c);
  NoSenderKeyState := OtherError (str "no sender key state"); SealedSenderMultiRecipientEncrypt b _ := Ok b
|}.

Definition toy_key (n : nat) : prekeyDetail := mkPrekey (Z.of_nat n) [] [].
Definition numbered_uuid (n : nat) : UUID := default uuid_Nil (to_fixed 16 (z2b (Z.of_nat (S n)) :: repeat x00 15)).
#[export] Instance toy_codec : MessageCodec := {
  marshal_content _ := Some [x01]; json_messages _ := Some [];
  json_prekeys _ := Some (mkPrekeys [] [mkPrekeyDevice 1 7 (toy_key 1) None None]);
  json_certificate _ := Some []; json_409410 _ := Some (mk409 [] [] []); json_multi_409410 _ := Some []; json_multi_200 _ := Some [];
  json_object _ := true; rand_IntN _ _ := 0%nat; uuid_New := numbered_uuid
}.
#[export] Instance toy_server : MessageNetwork nat := { SendRequest _ _ _ _ _ n := (S n, Some (mkWS 200 [] [])) }.

Definition toy_recipient (u : UUID) : Recipient :=
  mkRecipient u uuid_Nil [] [] [] [] (mkProfile [] [] [] [] key_a None) false false None.
Definition toy_dev : SendDevice := mkDevice alice uuid_Nil 2 None.
Definition toy_start : SendState (W := nat) :=
  mkSend (mkStore (map toy_recipient [alice; bob; carol]) ∅) ∅ ∅ (None, None) ∅ ∅ [] 0 0%nat [] 0%nat.

Definition members (l : list UUID) : Group :=
  mkGroup group_key group_id (str "Team") [] (map (fun u => mkMember u 1 key_a 0) l) [] false 7 0 None [] [] [] None.
Definition endorsed : SendEndorsementCache (ZK := toy_zk) :=
  mkEndorsement (ZK := toy_zk) [x01] {[ NewACIServiceID bob := []; NewACIServiceID carol := [] ]} 0 tt.
Definition hello : Content := WrapDataMessage (mkData (Some 5) None None false 0 [] []).

Definition send_hello (l : list UUID) := SendGroupMessage (W := nat) toy_dev 1000 group_id (members l) (Some endorsed) hello.
(** Carol leaves between the messages. *)
Definition after_first := (send_hello [alice; bob; carol] toy_start).1.
Definition after_second := (send_hello [alice; bob] after_first).1.

(** The keys the group messages use, and how many devices they go to. *)
Definition uses (log : list send_event) : list (nat * nat) :=
  omap (fun e => match e with Ev_Multi k targets _ _ => Some (k, length targets) | _ => None end) log.

Lemma numbered_differ i j : (i < 20)%nat -> (j < 20)%nat -> uuid_New i = uuid_New j -> i = j.
Proof.
  intros Hi Hj E. apply (f_equal (fun u => match fixed_bytes u with b :: _ => Z.to_nat (b2z b) | [] => 0%nat end)) in E.
  assert (Hn : forall n, (n < 20)%nat -> match fixed_bytes (uuid_New n) with b :: _ => Z.to_nat (b2z b) | [] => 0%nat end = S n).
  { assert (Hf : Forall (fun n => match fixed_bytes (uuid_New n) with b :: _ => Z.to_nat (b2z b) | [] => 0%nat end = S n) (seq 0 20)).
    { apply (bool_decide_unpack _). vm_compute. exact I. }
    intros n Hn. rewrite Forall_forall in Hf. apply Hf. apply elem_of_seq. lia. }
  rewrite !Hn in E by done. lia.
Qed.

Lemma group_send_accounts_witness : exists res, send_hello [alice; bob] after_first = (after_second, Ok res) /\ sent_to res = [NewACIServiceID bob] /\
  delivers toy_dev true (map UserServiceID (grp_Members (members [alice; bob]))) after_first after_second res.
Proof.
  assert (E : send_hello [alice; bob] after_first = (after_second, (send_hello [alice; bob] after_first).2)) by apply surjective_pairing.
  assert (Hr : (send_hello [alice; bob] after_first).2 = Ok (mkGroupResult [mkSuccess (NewACIServiceID bob) None true None] [])) by (vm_compute; reflexivity).
  rewrite Hr in E. eexists. split; [exact E|]. split; [reflexivity|].
  exact (group_send_accounts toy_dev 1000 group_id (members [alice; bob]) (Some endorsed) hello _ _ _ eq_refl E).
Defined.

(** Carol had the first key; the second message uses another one. *)
Lemma sender_key_safety_witness : uses (ss_log after_second) = [(1%nat, 2%nat); (4%nat, 1%nat)] /\ each_use use_safe (ss_log after_second).
Proof.
  split; [vm_compute; reflexivity|].
  refine (sender_key_safety toy_dev 20 numbered_differ (fun _ _ => None) toy_start after_second _ _ _); [by split_and!| |vm_compute; lia].
  eapply rtc_l; [eapply (step_group toy_dev _ 1000 group_id (members [alice; bob; carol]) (Some endorsed) hello); [reflexivity|apply surjective_pairing|vm_compute; discriminate]|].
  eapply rtc_l; [eapply (step_group toy_dev _ 1000 group_id (members [alice; bob]) (Some endorsed) hello); [reflexivity|apply surjective_pairing|vm_compute; discriminate]|].
  apply rtc_refl.
Defined.

Lemma sender_key_shared_witness : uses (ss_log after_first) = [(1%nat, 2%nat)] /\ each_use use_shared (ss_log after_first).
Proof.
  split; [vm_compute; reflexivity|].
  refine (sender_key_shared toy_dev 20 numbered_differ (fun _ _ => None) toy_start after_first _ _ _ _); [by split|by split_and!| |vm_compute; lia].
  eapply rtc_l; [eapply (step_group toy_dev _ 1000 group_id (members [alice; bob; carol]) (Some endorsed) hello); [reflexivity|apply surjective_pairing|vm_compute; discriminate]|].
  apply rtc_refl.
Defined.
End SampleSends.
