(* ===== verification/WsMessages.v ===== *)
(** The messages and the connection policy of the websocket
    ([signalmeow/web/signalwebsocket.go]) and the HTTP helpers of
    [signalmeow/web/web.go]: requests and responses as frames, the headers of a
    request, when [connectLoop] reconnects and with which delay, the keepalive
    loop, the CDN host of an attachment.  The goroutines of a connection are in
    [WsLoops]. *)
From S2P Require Import Prelude GoLib.
Import Strings Decimal.

(** ** Frames ([signalpb.WebSocketMessage]) *)
Record WebSocketRequestMessage := mkWsRequest {
  rq_Verb : option bytes;
  rq_Path : option bytes;
  rq_Body : option bytes;
  rq_Headers : list bytes;
  rq_Id : option Z
}.

Record WebSocketResponseMessage := mkWsResponse {
  rs_Id : option Z;
  rs_Status : option Z;
  rs_Message : option bytes;
  rs_Headers : list bytes;
  rs_Body : option bytes
}.

(** [WebSocketMessage_UNKNOWN], [_REQUEST], [_RESPONSE]. *)
Definition WebSocketMessage_UNKNOWN : Z := 0.
Definition WebSocketMessage_REQUEST : Z := 1.
Definition WebSocketMessage_RESPONSE : Z := 2.

Record WebSocketMessage := mkWsMessage {
  ms_Type : option Z;
  ms_Request : option WebSocketRequestMessage;
  ms_Response : option WebSocketResponseMessage
}.

(** What a request handler answers; the callback is a name for the function
    that runs after the answer was written. *)
Record SimpleResponse := mkSimple {
  sr_Status : Z;
  sr_WriteCallback : option nat
}.

(** Any other status ends the process ([log.Fatal]). *)
Definition CreateWSResponse (id status : Z) : option WebSocketMessage :=
  if negb (status =? 200) && negb (status =? 400) then None
  else
    let message := if status =? 400 then str "Unknown" else str "OK" in
    Some (mkWsMessage (Some WebSocketMessage_RESPONSE) None
      (Some (mkWsResponse (Some id) (Some (uint32 status)) (Some message) [] None))).

Definition CreateWSRequest (method path : bytes) (body : option bytes) (username password : option bytes)
  : WebSocketRequestMessage :=
  let headers := [str "content-type:application/json; charset=utf-8"] in
  let headers :=
    match username, password with
    | Some u, Some p => headers ++ [str "authorization:Basic " ++ Base64.encode (u ++ str ":" ++ p)]
    | _, _ => headers
    end in
  mkWsRequest (Some method) (Some path) body headers None.

(** ** Requests *)
Definition to_lower_byte (b : byte) : byte :=
  if (65 <=? b2z b) && (b2z b <=? 90) then z2b (b2z b + 32) else b.
Definition to_lower (s : bytes) : bytes := map to_lower_byte s.

(** [headers] of an [http.Header], in the order of the iteration. *)
Definition header_lines (headers : list (bytes * list bytes)) : list bytes :=
  concat (map (fun '(key, values) => map (fun value => to_lower key ++ str ":" ++ value) values) headers).

Definition has_content_type (headers : list (bytes * list bytes)) : bool :=
  existsb (fun '(key, _) => beqb (to_lower key) (str "content-type")) headers.

(** The request that [SendRequest] hands to [sendRequestInternal]: the slice of
    headers is made with [len(headers)] empty strings and then appended to. *)
Definition SendRequest_message (method path : bytes) (body : option bytes) (headers : list (bytes * list bytes))
  : WebSocketRequestMessage :=
  let headerArray := repeat [] (length headers) ++ header_lines headers in
  let headerArray :=
    if negb (has_content_type headers) && bool_decide (body <> None)
    then headerArray ++ [str "content-type:application/json"] else headerArray in
  mkWsRequest (Some method) (Some path) body headerArray None.

(** The first lines of [sendRequestInternal]. *)
Definition add_auth (basicAuth : option bytes) (request : WebSocketRequestMessage) : WebSocketRequestMessage :=
  match basicAuth with
  | Some auth =>
      mkWsRequest (rq_Verb request) (rq_Path request) (rq_Body request)
        (rq_Headers request ++ [str "authorization:Basic " ++ auth]) (rq_Id request)
  | None => request
  end.

Definition isSelfDelete (request : WebSocketRequestMessage) : bool :=
  beqb (default [] (rq_Verb request)) (str "DELETE")
  && has_prefix (str "/v1/devices/") (default [] (rq_Path request)).

(** ** [connectLoop]: when to connect again

    Times are in seconds.  [attempt] is what the world does in one round of the
    loop: the context is cancelled, dialling fails (with the status of the
    response if there is one; 101 or none comes with an error), or a connection
    is made and ends with a cause after some time. *)
Inductive SignalWebsocketConnectionEvent :=
| Connecting | Connected | Disconnected | LoggedOut | ConnError | FatalError | CleanShutdown.

Inductive session_cause := SessionClean | SessionForced | SessionError.

Inductive attempt :=
| Cancelled
| DialFailed (status : option Z)
| Session (cause : session_cause) (seconds : Z).

Definition initialBackoff : Z := 10.
Definition backoffIncrement : Z := 5.
Definition maxBackoff : Z := 60.
Definition maxErrorCount : Z := 500.

Record LoopState := mkLoop {
  lp_backoff : Z;
  lp_retrying : bool;
  lp_errorCount : Z;
  lp_isFirstConnect : bool
}.

Definition loop_start : LoopState := mkLoop initialBackoff false 0 true.

(** The wait at the top of the loop, then [isFirstConnect = false]. *)
Definition before_dial (auth : bool) (s : LoopState) : Z * LoopState :=
  if lp_retrying s then
    let backoff := if maxBackoff <? lp_backoff s then maxBackoff else lp_backoff s in
    (backoff, mkLoop (backoff + backoffIncrement) true (lp_errorCount s) false)
  else if negb (lp_isFirstConnect s) && auth then
    (initialBackoff, mkLoop (lp_backoff s) false (lp_errorCount s) false)
  else (0, mkLoop (lp_backoff s) false (lp_errorCount s) false).

Definition retry (s : LoopState) : LoopState :=
  mkLoop (lp_backoff s) true (lp_errorCount s) (lp_isFirstConnect s).

(** A dial that did not give a connection: the statuses pushed, and the state
    to go on with unless the loop ends. *)
Definition after_failed_dial (s : LoopState) (status : option Z) : list SignalWebsocketConnectionEvent * option LoopState :=
  match status with
  | Some code =>
      if negb (code =? 101) then
        if (500 <=? code) || (code =? 429) then ([Disconnected], Some (retry s))
        else if code =? 403 then ([LoggedOut], None)
        else if (0 <? code) && (code <? 500) then ([FatalError], None)
        else ([ConnError], Some (retry s))
      else ([if lp_backoff s <? maxBackoff then Disconnected else ConnError], Some (retry s))
  | None => ([if lp_backoff s <? maxBackoff then Disconnected else ConnError], Some (retry s))
  end.

(** A connection that was made and ended. *)
Definition after_session (s : LoopState) (cause : session_cause) (seconds : Z)
  : list SignalWebsocketConnectionEvent * option LoopState :=
  let '(event, errorCount, first) :=
    match cause with
    | SessionClean => (CleanShutdown, lp_errorCount s, lp_isFirstConnect s)
    | SessionForced => (Disconnected, (if 60 <? seconds then 0 else lp_errorCount s), true)
    | SessionError => (Disconnected, (if 60 <? seconds then 0 else lp_errorCount s) + 1, lp_isFirstConnect s)
    end in
  if maxErrorCount <? errorCount then ([Connected; event; FatalError], None)
  else ([Connected; event], Some (mkLoop initialBackoff false errorCount first)).

Definition connect_round (auth : bool) (s : LoopState) (a : attempt)
  : Z * list SignalWebsocketConnectionEvent * option LoopState :=
  let '(wait, s) := before_dial auth s in
  match a with
  | Cancelled => (wait, [], None)
  | DialFailed status => (wait, (after_failed_dial s status).1, (after_failed_dial s status).2)
  | Session cause seconds => (wait, (after_session s cause seconds).1, (after_session s cause seconds).2)
  end.

(** The waits and statuses of the rounds, up to the one that ends the loop. *)
Fixpoint connectLoop (auth : bool) (s : LoopState) (world : list attempt) : list (Z * list SignalWebsocketConnectionEvent) :=
  match world with
  | [] => []
  | a :: world' =>
      let '(wait, events, next) := connect_round auth s a in
      (wait, events) :: match next with Some s' => connectLoop auth s' world' | None => [] end
  end.

(** ** The policy, from the history of attempts

    [past] has the latest attempt first. *)
Definition is_failed_dial (a : attempt) : bool := match a with DialFailed _ => true | _ => false end.

Fixpoint failures (past : list attempt) : Z :=
  match past with
  | a :: past' => if is_failed_dial a then 1 + failures past' else 0
  | [] => 0
  end.

(** Connections that ended in an error since the last one that had lasted for
    over a minute. *)
Fixpoint recent_errors (past : list attempt) : Z :=
  match past with
  | [] => 0
  | Session SessionError seconds :: past' => 1 + (if 60 <? seconds then 0 else recent_errors past')
  | Session SessionForced seconds :: past' => if 60 <? seconds then 0 else recent_errors past'
  | _ :: past' => recent_errors past'
  end.

Definition policy_wait (auth : bool) (past : list attempt) : Z :=
  match past with
  | [] => 0
  | DialFailed _ :: _ => Z.min 60 (10 + 5 * (failures past - 1))
  | Session SessionForced _ :: _ => 0
  | _ => if auth then 10 else 0
  end.

(** The server refused the connection for good. *)
Definition refused (code : Z) : bool := negb (code =? 101) && (0 <? code) && (code <? 500) && negb (code =? 429).

Definition dial_event (past : list attempt) (status : option Z) : SignalWebsocketConnectionEvent :=
  match status with
  | Some 403 => LoggedOut
  | Some 101 | None => if failures past <? 10 then Disconnected else ConnError
  | Some code => if refused code then FatalError else if code <=? 0 then ConnError else Disconnected
  end.

Definition policy_events (past : list attempt) (a : attempt) : list SignalWebsocketConnectionEvent :=
  match a with
  | Cancelled => []
  | DialFailed status => [dial_event past status]
  | Session cause _ =>
      Connected :: (if cause is SessionClean then CleanShutdown else Disconnected)
      :: if 500 <? recent_errors (a :: past) then [FatalError] else []
  end.

Definition policy_stop (past : list attempt) (a : attempt) : bool :=
  match a with
  | Cancelled => true
  | DialFailed (Some code) => refused code
  | DialFailed None => false
  | Session _ _ => 500 <? recent_errors (a :: past)
  end.

Fixpoint policy (auth : bool) (past world : list attempt) : list (Z * list SignalWebsocketConnectionEvent) :=
  match world with
  | [] => []
  | a :: world' =>
      (policy_wait auth past, policy_events past a)
      :: (if policy_stop past a then [] else policy auth (a :: past) world')
  end.

(** The state of the loop after a history that did not end it. *)
Definition loop_of (past : list attempt) : LoopState :=
  match past with
  | [] => loop_start
  | DialFailed _ :: _ => mkLoop (if failures past =? 1 then 10 else Z.min 60 (10 + 5 * (failures past - 2)) + 5) true (recent_errors past) false
  | Session SessionForced _ :: _ => mkLoop 10 false (recent_errors past) true
  | _ => mkLoop 10 false (recent_errors past) false
  end.

Lemma failures_nonneg past : 0 <= failures past.
Proof. induction past as [|a past IH]; cbn; [done|]. destruct (is_failed_dial a); lia. Qed.

(** Case analysis on the integer tests of the goal. *)
Ltac test_cases :=
  repeat match goal with
  | |- context [?x =? ?y] => destruct (Z.eqb_spec x y)
  | |- context [?x <? ?y] => destruct (Z.ltb_spec x y)
  | |- context [?x <=? ?y] => destruct (Z.leb_spec x y)
  end; try lia.

Lemma before_dial_of auth past : exists first,
  before_dial auth (loop_of past)
  = (policy_wait auth past,
     mkLoop (if failures past =? 0 then 10 else Z.min 60 (10 + 5 * (failures past - 1)) + 5)
       first (recent_errors past) false).
Proof.
  pose proof (failures_nonneg past).
  destruct past as [|[|status|[] seconds] past]; cbn [loop_of policy_wait]; try (destruct auth; by eexists).
  exists true. unfold before_dial, maxBackoff, backoffIncrement. cbn [lp_retrying lp_backoff lp_errorCount].
  cbn [failures is_failed_dial] in *. pose proof (failures_nonneg past). test_cases; repeat f_equal; lia.
Qed.

Lemma failed_dial_of past first status :
  let s := mkLoop (if failures past =? 0 then 10 else Z.min 60 (10 + 5 * (failures past - 1)) + 5)
             first (recent_errors past) false in
  after_failed_dial s status
  = (policy_events past (DialFailed status),
     if policy_stop past (DialFailed status) then None else Some (loop_of (DialFailed status :: past))).
Proof.
  intros s. pose proof (failures_nonneg past).
  assert (Hb : (lp_backoff s <? maxBackoff) = (failures past <? 10)).
  { subst s. unfold maxBackoff. cbn [lp_backoff]. test_cases; reflexivity. }
  assert (Hr : retry s = loop_of (DialFailed status :: past)).
  { subst s. unfold retry. cbn [loop_of failures is_failed_dial lp_backoff lp_errorCount lp_isFirstConnect recent_errors].
    test_cases; f_equal; lia. }
  unfold after_failed_dial, policy_events, policy_stop. rewrite Hb, Hr. clearbody s.
  destruct status as [code|]; [|done].
  destruct (Z.eqb_spec code 101) as [->|]; [done|]. destruct (Z.eqb_spec code 403) as [->|]; [done|].
  assert (He : dial_event past (Some code) = if refused code then FatalError else if code <=? 0 then ConnError else Disconnected).
  { unfold dial_event. repeat (case_match; try lia; try done). }
  rewrite He. unfold refused. test_cases; done.
Qed.

Lemma session_of past backoff first cause seconds :
  after_session (mkLoop backoff first (recent_errors past) false) cause seconds
  = (policy_events past (Session cause seconds),
     if policy_stop past (Session cause seconds) then None else Some (loop_of (Session cause seconds :: past))).
Proof.
  unfold after_session, policy_events, policy_stop, maxErrorCount. cbn [lp_errorCount lp_isFirstConnect].
  destruct cause; cbn [recent_errors loop_of].
  - by destruct (500 <? recent_errors past).
  - by destruct (500 <? _).
  - rewrite (Z.add_comm _ 1). by destruct (500 <? _).
Qed.

(** C32: the connection loop follows the policy stated on the whole history of
    attempts, with or without authentication and whatever the world does: the
    first attempt is immediate; after the k-th failed dial in a row the loop waits
    min(60, 10 + 5(k-1)) seconds; after a connection that was lost it waits ten
    seconds if authenticated, not at all after a forced reconnect.  A failed dial
    is reported by its cause: without an HTTP refusal as disconnected, and as an
    error from the eleventh failure in a row on; a refusal with 500 or above or
    with 429 always as disconnected, with 403 as logged out, with another positive
    status below 500 as fatal, with any other as an error.  The loop ends exactly
    when the context is cancelled, the server refuses for good (a positive status
    below 500 other than 101 and 429) or more than 500 connections failed without
    one that lasted more than a minute. *)
Theorem connect_loop_policy auth world : connectLoop auth loop_start world = policy auth [] world.
Proof.
  change loop_start with (loop_of []). generalize (@nil attempt) as past.
  induction world as [|a world IH]; intros past; [done|]. cbn [connectLoop policy]. unfold connect_round.
  destruct (before_dial_of auth past) as (first & ->). destruct a as [|status|cause seconds].
  - done.
  - rewrite failed_dial_of. cbn [fst snd]. destruct (policy_stop _ _); [done|]. by rewrite IH.
  - rewrite session_of. cbn [fst snd]. destruct (policy_stop _ _); [done|]. by rewrite IH.
Qed.

(** ** The keepalive loop

    [pings] are the results of the pings, one per tick.  The result says whether
    the loop closed the connection, and how many pings it sent. *)
Definition WebsocketPingTimeoutLimit : nat := 5.

Fixpoint pingLoop (pingTimeoutCount : nat) (pings : list bool) : bool * nat :=
  match pings with
  | [] => (false, O)
  | ok :: pings' =>
      if negb ok then
        if (WebsocketPingTimeoutLimit <=? S pingTimeoutCount)%nat then (true, 1%nat)
        else let '(closed, n) := pingLoop (S pingTimeoutCount) pings' in (closed, S n)
      else if (0 <? pingTimeoutCount)%nat then let '(closed, n) := pingLoop O pings' in (closed, S n)
      else let '(closed, n) := pingLoop pingTimeoutCount pings' in (closed, S n)
  end.

(** Five pings in a row were lost, the last of them number [n]. *)
Definition lost_five (pings : list bool) (n : nat) : Prop :=
  exists before, take n pings = before ++ repeat false WebsocketPingTimeoutLimit /\ (n <= length pings)%nat.

Lemma lost_five_cons ok pings n : lost_five pings n -> lost_five (ok :: pings) (S n).
Proof. intros (before & E & Hn). exists (ok :: before). cbn. rewrite E. split; [done|lia]. Qed.

Lemma pingLoop_ok count pings : pingLoop count (true :: pings) = ((pingLoop O pings).1, S (pingLoop O pings).2).
Proof. cbn. destruct count; cbn; by destruct (pingLoop O pings). Qed.

Lemma pingLoop_closed count pings n : (count < 5)%nat -> pingLoop count pings = (true, n) ->
  lost_five (repeat false count ++ pings) (count + n).
Proof.
  revert count n. induction pings as [|ok pings IH]; intros count n Hc H; [done|]. destruct ok.
  - rewrite pingLoop_ok in H. injection H as H1 <-. destruct (pingLoop O pings) as [c m] eqn:E. cbn in *. subst c.
    apply IH in E; [|lia]. cbn in E. replace (count + S m)%nat with (length (repeat false count ++ [true]) + m)%nat by (rewrite length_app, repeat_length; cbn; lia).
    replace (repeat false count ++ true :: pings) with ((repeat false count ++ [true]) ++ pings) by by rewrite <- app_assoc.
    clear -E. induction (repeat false count ++ [true]) as [|x l IHl]; cbn; [done|]. by apply lost_five_cons.
  - cbn [pingLoop negb] in H. unfold WebsocketPingTimeoutLimit in H. replace (repeat false count ++ false :: pings) with (repeat false (S count) ++ pings); cycle 1.
    { change (false :: pings) with ([false] ++ pings). rewrite app_assoc, <- repeat_cons. done. }
    destruct (Nat.leb_spec 5 (S count)).
    + injection H as <-. replace (count + 1)%nat with 5%nat by lia. replace (S count) with 5%nat by lia.
      exists []. cbn. rewrite take_0. split; [done|]. lia.
    + destruct (pingLoop (S count) pings) as [c m] eqn:E. injection H as -> <-. apply IH in E; [|lia].
      by replace (count + S m)%nat with (S count + m)%nat by lia.
Qed.

Lemma lost_five_split pings n : lost_five pings n ->
  exists before after, pings = before ++ repeat false 5 ++ after.
Proof. intros (before & E & _). exists before, (drop n pings). by rewrite <- (take_drop n pings) at 1; rewrite E, <- app_assoc. Qed.

Lemma pingLoop_closes pings count before after : (count < 5)%nat ->
  pings = before ++ repeat false 5 ++ after -> (pingLoop count pings).1 = true.
Proof.
  revert count before. induction pings as [|ok pings IH]; intros count before Hc E; [by destruct before|].
  destruct before as [|b before].
  - injection E as -> ->. clear -Hc. cbn. do 5 (destruct count as [|count]; [reflexivity|]). lia.
  - injection E as <- E. destruct ok.
    + rewrite pingLoop_ok. cbn. eapply IH; [lia|done].
    + cbn [pingLoop negb]. unfold WebsocketPingTimeoutLimit. destruct (5 <=? S count)%nat eqn:L; [done|]. apply Nat.leb_gt in L.
      specialize (IH (S count) before ltac:(lia) E). by destruct (pingLoop (S count) pings).
Qed.

(** The loop closes the connection if and only if five pings in a row failed. *)
Lemma ping_closes_iff pings : (pingLoop O pings).1 = true <-> exists before after, pings = before ++ repeat false 5 ++ after.
Proof.
  split.
  - destruct (pingLoop O pings) as [c n] eqn:E. cbn. intros ->. apply pingLoop_closed in E; [|lia]. by eapply lost_five_split.
  - intros (before & after & E). eapply pingLoop_closes; [lia|done].
Qed.

(** ** [web.go] *)
Definition CDN1Hostname : bytes := str "cdn.signal.org".
Definition CDN2Hostname : bytes := str "cdn2.signal.org".
Definition CDN3Hostname : bytes := str "cdn3.signal.org".
Definition CDNHosts : list bytes := [CDN1Hostname; CDN1Hostname; CDN2Hostname; CDN3Hostname].

(** Indexing a slice. *)
Definition index_host (i : Z) : outcome unit bytes :=
  match CDNHosts !! Z.to_nat i with Some h => Ok h | None => Panic end.

(** The URL that [GetAttachment] requests, for a [uint32] CDN number. *)
Definition GetAttachment_url (path : bytes) (cdnNumber : Z) : outcome unit bytes :=
  let! _ := (if Z.of_nat (length CDNHosts) <? cdnNumber then Ok CDN1Hostname else index_host cdnNumber) in
  let! host :=
    (if cdnNumber =? 0 then index_host 0
     else if (0 <? cdnNumber) && (cdnNumber <=? Z.of_nat (length CDNHosts)) then index_host cdnNumber
     else index_host 0) in
  Ok (str "https://" ++ host ++ path).

(** An attachment pointer that names CDN 4 crashes the download; every other
    number picks a host. *)
Lemma GetAttachment_panics path cdnNumber : in_width 32 cdnNumber ->
  is_panic (GetAttachment_url path cdnNumber) = true <-> cdnNumber = 4.
Proof.
  intros [H1 H2]. unfold GetAttachment_url. change (Z.of_nat (length CDNHosts)) with 4.
  destruct (Z.ltb_spec 4 cdnNumber) as [H|H].
  - cbn [obind]. test_cases; cbn; (split; [done|lia]).
  - assert (Hc : cdnNumber = 0 \/ cdnNumber = 1 \/ cdnNumber = 2 \/ cdnNumber = 3 \/ cdnNumber = 4) by lia.
    destruct Hc as [->|[->|[->|[->|]]]]; try (split; [done|lia]). subst. done.
Qed.

(** [DecodeWSResponseBody], up to the JSON decoder. *)
Inductive decode_result := NothingToDecode | UnexpectedResponse (status : Z) | DecodeJSON (body : bytes).

Definition DecodeWSResponseBody (resp : option WebSocketResponseMessage) (has_out : bool) : decode_result :=
  match resp with
  | None => NothingToDecode
  | Some resp =>
      let status := default 0 (rs_Status resp) in
      if (status <? 200) || (300 <=? status) then UnexpectedResponse status
      else if negb has_out then NothingToDecode
      else DecodeJSON (default [] (rs_Body resp))
  end.

(** [http.Header]: names compare without regard to case; [Add] appends,
    [Set] replaces. *)
Abbreviation http_header := (list (bytes * bytes)).
Definition same_name (k k' : bytes) : bool := beqb (to_lower k) (to_lower k').
Definition header_add (h : http_header) (k v : bytes) : http_header := h ++ [(k, v)].
Definition header_set (h : http_header) (k v : bytes) : http_header :=
  filter (fun kv => same_name kv.1 k = false) h ++ [(k, v)].
Definition header_values (h : http_header) (k : bytes) : list bytes :=
  (filter (fun kv => same_name kv.1 k = true) h).*2.

Record HTTPReqOpt := mkReqOpt {
  ro_Body : bytes;
  ro_Username : option bytes;
  ro_Password : option bytes;
  ro_ContentType : bytes;
  ro_Headers : list (bytes * bytes);
  ro_OverrideURL : bytes
}.

Record HTTPRequest := mkHTTP {
  http_Method : bytes;
  http_URL : bytes;
  http_Headers : http_header;
  http_Body : bytes;
  http_ContentLength : Z
}.

(** The request that [SendHTTPRequest] makes; [userAgent] depends on the
    versions of the build. *)
Definition SendHTTPRequest_request (userAgent host method path : bytes) (opt : option HTTPReqOpt) : HTTPRequest :=
  let opt := default (mkReqOpt [] None None [] [] []) opt in
  let path := match path with c :: _ => if negb (b2z c =? 47) then str "/" ++ path else path | [] => path end in
  let urlStr := if bool_decide (ro_OverrideURL opt <> []) then ro_OverrideURL opt else str "https://" ++ host ++ path in
  let h := fold_left (fun h '(k, v) => header_add h k v) (ro_Headers opt) [] in
  let h := header_set h (str "Content-Type")
             (if bool_decide (ro_ContentType opt <> []) then ro_ContentType opt else str "application/json") in
  let h := header_set h (str "Content-Length") (itoa (Z.of_nat (length (ro_Body opt)))) in
  let h := header_set h (str "User-Agent") userAgent in
  let h := header_set h (str "X-Signal-Agent") (str "MAU") in
  let h :=
    match ro_Username opt, ro_Password opt with
    | Some u, Some p => header_set h (str "Authorization") (str "Basic " ++ Base64.encode (u ++ str ":" ++ p))
    | _, _ => h
    end in
  mkHTTP method urlStr h (ro_Body opt) (Z.of_nat (length (ro_Body opt))).

Lemma header_values_set h k v : header_values (header_set h k v) k = [v].
Proof.
  unfold header_values, header_set. rewrite filter_app.
  assert (filter (fun kv : bytes * bytes => same_name kv.1 k = true) (filter (fun kv => same_name kv.1 k = false) h) = []) as ->.
  { induction h as [|x h IH]; [done|]. rewrite (filter_cons _ x). case_decide as E; [|done]. rewrite filter_cons, IH. by rewrite decide_False by congruence. }
  cbn. rewrite decide_True; [done|]. cbn. apply beqb_refl.
Qed.

Lemma header_values_set_other h k k' v : same_name k k' = false -> header_values (header_set h k v) k' = header_values h k'.
Proof.
  intros Hk. unfold header_values, header_set. rewrite filter_app. rewrite (filter_cons _ (k, v)), filter_nil.
  rewrite decide_False by (cbn; congruence). rewrite app_nil_r. f_equal.
  induction h as [|x h IH]; [done|]. rewrite !filter_cons. case_decide as E1.
  - rewrite filter_cons. by rewrite IH.
  - rewrite IH. rewrite decide_False; [done|]. intros E2. apply E1. apply not_true_is_false. intros E3.
    apply beqb_eq in E2, E3. unfold same_name in Hk. apply beqb_neq in Hk. congruence.
Qed.

(** Whatever extra headers the caller passes, the request names the content type
    of the body, its length, the agents and the credentials exactly once. *)
Lemma http_request_headers userAgent host method path opt u p : ro_Username opt = Some u -> ro_Password opt = Some p ->
  let req := SendHTTPRequest_request userAgent host method path (Some opt) in
  header_values (http_Headers req) (str "content-type") = [if bool_decide (ro_ContentType opt <> []) then ro_ContentType opt else str "application/json"]
  /\ header_values (http_Headers req) (str "content-length") = [itoa (Z.of_nat (length (ro_Body opt)))]
  /\ header_values (http_Headers req) (str "user-agent") = [userAgent]
  /\ header_values (http_Headers req) (str "authorization") = [str "Basic " ++ Base64.encode (u ++ str ":" ++ p)].
Proof.
  intros Hu Hp. unfold SendHTTPRequest_request. cbn [from_option id http_Headers]. rewrite Hu, Hp.
  assert (Hs : forall h k k' v, same_name k k' = true -> header_values (header_set h k v) k' = [v]).
  { intros h k k' v E. rewrite <- (header_values_set h k v). unfold header_values. f_equal.
    apply list_filter_iff. intros x. apply beqb_eq in E. unfold same_name. by rewrite E. }
  repeat split; repeat (rewrite header_values_set_other by reflexivity); by apply Hs.
Qed.
