(* ===== verification/WsLoops.v ===== *)
(** The goroutines of a websocket ([signalmeow/web/signalwebsocket.go]) as an
    interleaving machine: the callers of [SendRequest], the request handler loop,
    the read and write loops of the current connection and the connection loop.
    [step] performs one atomic action of one goroutine, named by a [label]; the
    channels, the map of pending responses, the request objects and the contexts
    are shared state.  The server, the clock, the network and the scheduler are
    the choice of labels. *)
From S2P Require Import Prelude GoLib WsMessages.
Import Strings.

(** ** State *)

(** A response channel: capacity one. *)
Record Chan := mkChan {
  ch_buf : option WebSocketResponseMessage;
  ch_closed : bool
}.

(** [SignalWebsocketSendMessage]; channels and requests are references. *)
Record SendMessage := mkSend {
  sm_RequestTime : option Z;
  sm_ResponseChannel : option nat;
  sm_ResponseMessage : option SimpleResponse;
  sm_RequestMessage : option nat
}.

Inductive ws_error := ErrContext | ErrNotOpen | ErrClosedBeforeSend | ErrRetried.
Inductive send_result :=
| Sent (response : option WebSocketResponseMessage)
| SendFailed (e : ws_error).

(** A caller in [sendRequestInternal]: at its start, in the [select] of
    [pushOutgoing] (holding the read lock), waiting for the response, or
    returned. *)
Inductive client_pc :=
| CStart
| CSelect (msg : SendMessage)
| CWait (ch : nat)
| CDone (r : send_result).

(** [cl_ctx]: the context is done; [Some true] if its error says that it took
    too long. *)
Record Client := mkClient {
  cl_request : nat;
  cl_retryCount : nat;
  cl_ctx : option bool;
  cl_pc : client_pc
}.

(** The request handler loop: waiting for a request, in the handler, in the
    [select] of [pushOutgoing] with the response. *)
Inductive handler_pc :=
| HSelect
| HHandle (p : nat)
| HPush (msg : SendMessage)
| HExit.

(** [readLoop]: reading, putting a request into the channel, putting a response
    into the channel of its caller, closing that channel. *)
Inductive read_pc :=
| RRead
| RPut (p : nat)
| RDeliver (ch : nat) (r : WebSocketResponseMessage)
| RClose (ch : nat)
| RExit.

(** [writeLoop]: in the [select], with a message, about to write a request or a
    response. *)
Inductive write_pc :=
| WSelect
| WGot (msg : SendMessage)
| WRequest (p : nat)
| WResponse (m : WebSocketMessage) (callback : option nat)
| WExit.

(** A connection: [responseChannels], whether [SwapData] was called on it, the
    cause of [loopCtx] once it is done, the loops, the counter of [writeLoop]
    and the frames written. *)
Record Conn := mkConn {
  k_channels : gmap Z nat;
  k_swapped : bool;
  k_cause : option session_cause;
  k_read : read_pc;
  k_write : write_pc;
  k_i : Z;
  k_since : Z;
  k_out : list WebSocketMessage
}.

(** [connectLoop]: at the top, waiting for [loopCtx], before [SwapData], closing
    channels, in [wg.Wait], in the deferred function, ended. *)
Inductive main_pc :=
| MTop
| MOpen
| MClean (cause : session_cause) (seconds : Z)
| MClosing (cause : session_cause) (seconds : Z) (chs : list nat)
| MWait (cause : session_cause) (seconds : Z)
| MDefer
| MStopped.

Inductive crash := SendOnClosed | CloseOfClosed | NilDereference | NilMapWrite | BadStatus.

(** [w_late] records the channels that were registered after [SwapData]. *)
Record WS := mkWS {
  w_auth : option bytes;
  w_now : Z;
  w_requests : list WebSocketRequestMessage;
  w_chans : list Chan;
  w_clients : list Client;
  w_incoming : list nat;
  w_handler : handler_pc;
  w_conn : Conn;
  w_main : main_pc;
  w_loop : LoopState;
  w_ctx : bool;
  w_closeCalled : bool;
  w_callbacks : list nat;
  w_late : list nat;
  w_crash : option crash
}.

Definition set_requests f s := mkWS (w_auth s) (w_now s) (f (w_requests s)) (w_chans s) (w_clients s) (w_incoming s) (w_handler s) (w_conn s) (w_main s) (w_loop s) (w_ctx s) (w_closeCalled s) (w_callbacks s) (w_late s) (w_crash s).
Definition set_chans f s := mkWS (w_auth s) (w_now s) (w_requests s) (f (w_chans s)) (w_clients s) (w_incoming s) (w_handler s) (w_conn s) (w_main s) (w_loop s) (w_ctx s) (w_closeCalled s) (w_callbacks s) (w_late s) (w_crash s).
Definition set_clients f s := mkWS (w_auth s) (w_now s) (w_requests s) (w_chans s) (f (w_clients s)) (w_incoming s) (w_handler s) (w_conn s) (w_main s) (w_loop s) (w_ctx s) (w_closeCalled s) (w_callbacks s) (w_late s) (w_crash s).
Definition set_incoming v s := mkWS (w_auth s) (w_now s) (w_requests s) (w_chans s) (w_clients s) v (w_handler s) (w_conn s) (w_main s) (w_loop s) (w_ctx s) (w_closeCalled s) (w_callbacks s) (w_late s) (w_crash s).
Definition set_handler v s := mkWS (w_auth s) (w_now s) (w_requests s) (w_chans s) (w_clients s) (w_incoming s) v (w_conn s) (w_main s) (w_loop s) (w_ctx s) (w_closeCalled s) (w_callbacks s) (w_late s) (w_crash s).
Definition set_conn f s := mkWS (w_auth s) (w_now s) (w_requests s) (w_chans s) (w_clients s) (w_incoming s) (w_handler s) (f (w_conn s)) (w_main s) (w_loop s) (w_ctx s) (w_closeCalled s) (w_callbacks s) (w_late s) (w_crash s).
Definition set_main v s := mkWS (w_auth s) (w_now s) (w_requests s) (w_chans s) (w_clients s) (w_incoming s) (w_handler s) (w_conn s) v (w_loop s) (w_ctx s) (w_closeCalled s) (w_callbacks s) (w_late s) (w_crash s).
Definition set_loop v s := mkWS (w_auth s) (w_now s) (w_requests s) (w_chans s) (w_clients s) (w_incoming s) (w_handler s) (w_conn s) (w_main s) v (w_ctx s) (w_closeCalled s) (w_callbacks s) (w_late s) (w_crash s).
Definition set_ctx v s := mkWS (w_auth s) (w_now s) (w_requests s) (w_chans s) (w_clients s) (w_incoming s) (w_handler s) (w_conn s) (w_main s) (w_loop s) v (w_closeCalled s) (w_callbacks s) (w_late s) (w_crash s).
Definition set_closeCalled v s := mkWS (w_auth s) (w_now s) (w_requests s) (w_chans s) (w_clients s) (w_incoming s) (w_handler s) (w_conn s) (w_main s) (w_loop s) (w_ctx s) v (w_callbacks s) (w_late s) (w_crash s).
Definition set_callbacks f s := mkWS (w_auth s) (w_now s) (w_requests s) (w_chans s) (w_clients s) (w_incoming s) (w_handler s) (w_conn s) (w_main s) (w_loop s) (w_ctx s) (w_closeCalled s) (f (w_callbacks s)) (w_late s) (w_crash s).
Definition set_late f s := mkWS (w_auth s) (w_now s) (w_requests s) (w_chans s) (w_clients s) (w_incoming s) (w_handler s) (w_conn s) (w_main s) (w_loop s) (w_ctx s) (w_closeCalled s) (w_callbacks s) (f (w_late s)) (w_crash s).
Definition set_crash v s := mkWS (w_auth s) (w_now s) (w_requests s) (w_chans s) (w_clients s) (w_incoming s) (w_handler s) (w_conn s) (w_main s) (w_loop s) (w_ctx s) (w_closeCalled s) (w_callbacks s) (w_late s) (Some v).
Definition set_now v s := mkWS (w_auth s) v (w_requests s) (w_chans s) (w_clients s) (w_incoming s) (w_handler s) (w_conn s) (w_main s) (w_loop s) (w_ctx s) (w_closeCalled s) (w_callbacks s) (w_late s) (w_crash s).

Definition k_set_channels v k := mkConn v (k_swapped k) (k_cause k) (k_read k) (k_write k) (k_i k) (k_since k) (k_out k).
Definition k_set_swapped k := mkConn ∅ true (k_cause k) (k_read k) (k_write k) (k_i k) (k_since k) (k_out k).
Definition k_set_cause v k := mkConn (k_channels k) (k_swapped k) v (k_read k) (k_write k) (k_i k) (k_since k) (k_out k).
Definition k_set_read v k := mkConn (k_channels k) (k_swapped k) (k_cause k) v (k_write k) (k_i k) (k_since k) (k_out k).
Definition k_set_write v k := mkConn (k_channels k) (k_swapped k) (k_cause k) (k_read k) v (k_i k) (k_since k) (k_out k).
Definition k_sent m k := mkConn (k_channels k) (k_swapped k) (k_cause k) (k_read k) WSelect (uint64 (k_i k + 1)) (k_since k) (k_out k ++ [m]).

Definition set_pc (c : nat) (pc : client_pc) : WS -> WS :=
  set_clients (alter (fun cl => mkClient (cl_request cl) (cl_retryCount cl) (cl_ctx cl) pc) c).
Definition set_read (pc : read_pc) : WS -> WS := set_conn (k_set_read pc).
Definition set_write (pc : write_pc) : WS -> WS := set_conn (k_set_write pc).

(** [NewSignalWebsocket] and the start of [connectLoop]. *)
Definition no_conn : Conn := mkConn ∅ true (Some SessionClean) RExit WExit 1 0 [].
Definition ws_start (auth : option bytes) : WS :=
  mkWS auth 0 [] [] [] [] HSelect no_conn MTop loop_start false false [] [] None.

(** [incomingRequestChan] is buffered. *)
Definition incoming_capacity : nat := 256.
(** Requests that waited for more than a minute are not sent. *)
Definition max_request_age : Z := 60.
Definition max_retries : nat := 3.

(** Cancelling [loopCtx]: the first cause stays. *)
Definition loopCancel (cause : session_cause) : WS -> WS :=
  set_conn (fun k => match k_cause k with None => k_set_cause (Some cause) k | Some _ => k end).
(** Cancelling the context of the loop, and with it [loopCtx]. *)
Definition cancel (s : WS) : WS := loopCancel SessionClean (set_ctx true s).

(** The deferred function of [connectLoop] has set [closeEvt]. *)
Definition closeEvt (s : WS) : bool :=
  match w_main s with MDefer | MStopped => true | _ => false end.
(** [s.sendChannel == nil]. *)
Definition sendChannel_nil (s : WS) : bool :=
  match w_main s with MStopped => true | _ => false end.

Definition close_chan (ch : nat) (s : WS) : WS :=
  match w_chans s !! ch with
  | Some c => if ch_closed c then set_crash CloseOfClosed s
              else set_chans <[ch := mkChan (ch_buf c) true]> s
  | None => set_crash CloseOfClosed s
  end.

(** ** The steps of a caller *)
Inductive client_label :=
| Attempt            (* the lines before the select of pushOutgoing *)
| Push               (* sendChannel <- send *)
| PushContext        (* ctx.Done() *)
| PushClosed         (* closeEvt *)
| Receive.           (* <-responseChannel and what follows *)

(** What [sendRequestInternal] does with a nil response. *)
Definition nil_response (cl : Client) (request : WebSocketRequestMessage) : Client :=
  if isSelfDelete request then mkClient (cl_request cl) (cl_retryCount cl) (cl_ctx cl) (CDone (Sent None))
  else if (max_retries <=? cl_retryCount cl)%nat
  then mkClient (cl_request cl) (cl_retryCount cl) (cl_ctx cl) (CDone (SendFailed ErrRetried))
  else if bool_decide (cl_ctx cl = Some true)
  then mkClient (cl_request cl) (cl_retryCount cl) (cl_ctx cl) (CDone (SendFailed ErrContext))
  else mkClient (cl_request cl) (S (cl_retryCount cl)) (cl_ctx cl) CStart.

Definition client_attempt (c : nat) (cl : Client) (s : WS) : WS :=
  let ch := length (w_chans s) in
  let s := set_requests (alter (add_auth (w_auth s)) (cl_request cl)) s in
  let s := set_chans (fun l => l ++ [mkChan None false]) s in
  let pc :=
    if bool_decide (cl_ctx cl <> None) then CDone (SendFailed ErrContext)
    else if sendChannel_nil s then CDone (SendFailed ErrNotOpen)
    else CSelect (mkSend (Some (w_now s)) (Some ch) None (Some (cl_request cl))) in
  set_pc c pc s.

Definition client_step (c : nat) (l : client_label) (s : WS) : option WS :=
  match w_clients s !! c with
  | None => None
  | Some cl =>
      match cl_pc cl, l with
      | CStart, Attempt => Some (client_attempt c cl s)
      | CSelect msg, Push =>
          match k_write (w_conn s), sm_ResponseChannel msg with
          | WSelect, Some ch => Some (set_write (WGot msg) (set_pc c (CWait ch) s))
          | _, _ => None
          end
      | CSelect msg, PushContext =>
          if bool_decide (cl_ctx cl <> None) then Some (set_pc c (CDone (SendFailed ErrContext)) s) else None
      | CSelect msg, PushClosed =>
          if closeEvt s then Some (set_pc c (CDone (SendFailed ErrClosedBeforeSend)) s) else None
      | CWait ch, Receive =>
          match w_chans s !! ch with
          | Some (mkChan (Some r) closed) =>
              Some (set_pc c (CDone (Sent (Some r))) (set_chans <[ch := mkChan None closed]> s))
          | Some (mkChan None true) =>
              match w_requests s !! cl_request cl with
              | Some request => Some (set_clients <[c := nil_response cl request]> s)
              | None => None
              end
          | _ => None
          end
      | _, _ => None
      end
  end.

(** ** The request handler loop *)
Inductive handler_result := HandlerError | HandlerNothing | HandlerResponse (r : SimpleResponse).
Inductive handler_label :=
| Take
| Handled (r : handler_result)
| HandlerPush
| HandlerContext
| HandlerClosed
| HandlerStop.

Definition handler_step (l : handler_label) (s : WS) : option WS :=
  match w_handler s, l with
  | HSelect, Take =>
      match w_incoming s with
      | p :: rest => Some (set_handler (HHandle p) (set_incoming rest s))
      | [] => None
      end
  | HSelect, HandlerStop => if w_ctx s || sendChannel_nil s then Some (set_handler HExit s) else None
  | HHandle p, Handled (HandlerResponse r) =>
      if w_ctx s || sendChannel_nil s then Some (set_handler HSelect s)
      else Some (set_handler (HPush (mkSend None None (Some r) (Some p))) s)
  | HHandle p, Handled _ => Some (set_handler HSelect s)
  | HPush msg, HandlerPush =>
      match k_write (w_conn s) with
      | WSelect => Some (set_write (WGot msg) (set_handler HSelect s))
      | _ => None
      end
  | HPush msg, HandlerContext => if w_ctx s then Some (set_handler HSelect s) else None
  | HPush msg, HandlerClosed => if closeEvt s then Some (set_handler HSelect s) else None
  | _, _ => None
  end.

(** ** [writeLoop] *)
Inductive write_label :=
| WriteStop        (* ctx.Done() in the select *)
| Register         (* what precedes wspb.Write *)
| Write (ok : bool).

(** The loop returned an error. *)
Definition write_fail (s : WS) : WS := loopCancel SessionError (set_write WExit s).

Section Loops.
(** [SwapData(nil)] of [exsync.Map] is library code: whether [Set] panics
    afterwards (a write to a nil map) is a parameter. *)
Context (nil_set_panics : bool).

Definition set_id (i : Z) (r : WebSocketRequestMessage) : WebSocketRequestMessage :=
  mkWsRequest (rq_Verb r) (rq_Path r) (rq_Body r) (rq_Headers r) (Some i).

(** A request that was taken from the channel: it gets the number of the round,
    its channel is registered, and if it is not too old it is written next. *)
Definition register (msg : SendMessage) (p ch : nat) (s : WS) : WS :=
  let i := k_i (w_conn s) in
  if k_swapped (w_conn s) && nil_set_panics then set_crash NilMapWrite s
  else
    let s := set_late (fun l => if k_swapped (w_conn s) then ch :: l else l) s in
    let s := set_requests (alter (set_id i) p) s in
    let s := set_conn (fun k => k_set_channels (<[i := ch]> (k_channels k)) k) s in
    match sm_RequestTime msg with
    | Some t => if max_request_age <? w_now s - t then write_fail s else set_write (WRequest p) s
    | None => set_write (WRequest p) s
    end.

Definition write_step (l : write_label) (s : WS) : option WS :=
  match k_write (w_conn s), l with
  | WSelect, WriteStop =>
      match k_cause (w_conn s) with Some _ => Some (set_write WExit s) | None => None end
  | WGot msg, Register =>
      Some match sm_RequestMessage msg, sm_ResponseChannel msg, sm_ResponseMessage msg with
           | Some p, Some ch, _ => register msg p ch s
           | Some p, None, Some resp =>
               match w_requests s !! p with
               | Some (mkWsRequest _ _ _ _ (Some id)) =>
                   match CreateWSResponse id (sr_Status resp) with
                   | Some m => set_write (WResponse m (sr_WriteCallback resp)) s
                   | None => set_crash BadStatus s
                   end
               | _ => set_crash NilDereference s
               end
           | _, _, _ => write_fail s
           end
  | WRequest p, Write ok =>
      match w_requests s !! p with
      | Some r =>
          Some (if ok then set_conn (k_sent (mkWsMessage (Some WebSocketMessage_REQUEST) (Some r) None)) s else write_fail s)
      | None => None
      end
  | WResponse m cb, Write ok =>
      Some (if ok then set_callbacks (fun l => l ++ option_list cb) (set_conn (k_sent m) s) else write_fail s)
  | _, _ => None
  end.

(** ** [readLoop] *)
Inductive read_label :=
| Frame (m : WebSocketMessage)
| ReadError (clean : bool)
| ReadStop
| PutRequest
| Deliver
| CloseChannel.

(** The loop returned; during [Close] it also cancels the connection loop. *)
Definition read_exit (err : bool) (s : WS) : WS :=
  let s := set_read RExit s in
  let s := if w_closeCalled s then cancel s else s in
  loopCancel (if err then SessionError else SessionClean) s.

Definition has_field {A} (o : option A) : bool := match o with Some _ => true | None => false end.

Definition read_frame (m : WebSocketMessage) (s : WS) : WS :=
  match ms_Type m with
  | None => read_exit true s
  | Some t =>
      if t =? WebSocketMessage_REQUEST then
        match ms_Request m with
        | None => read_exit true s
        | Some r =>
            if has_field (rq_Id r) && has_field (rq_Verb r) && has_field (rq_Path r)
            then set_read (RPut (length (w_requests s))) (set_requests (fun l => l ++ [r]) s)
            else set_crash NilDereference s
        end
      else if t =? WebSocketMessage_RESPONSE then
        match ms_Response m with
        | None => read_exit true s
        | Some r =>
            match rs_Id r with
            | None => read_exit true s
            | Some id =>
                match k_channels (w_conn s) !! id with
                | None => s
                | Some ch => set_read (RDeliver ch r) (set_conn (fun k => k_set_channels (delete id (k_channels k)) k) s)
                end
            end
        end
      else read_exit true s
  end.

Definition read_step (l : read_label) (s : WS) : option WS :=
  match k_read (w_conn s), l with
  | RRead, Frame m => Some (read_frame m s)
  | RRead, ReadError clean => Some (read_exit (negb clean) s)
  | RRead, ReadStop => match k_cause (w_conn s) with Some _ => Some (read_exit true s) | None => None end
  | RPut p, PutRequest =>
      if (length (w_incoming s) <? incoming_capacity)%nat
      then Some (set_read RRead (set_incoming (w_incoming s ++ [p]) s)) else None
  | RDeliver ch r, Deliver =>
      match w_chans s !! ch with
      | Some (mkChan None false) => Some (set_read (RClose ch) (set_chans <[ch := mkChan (Some r) false]> s))
      | Some (mkChan (Some _) false) => None
      | _ => Some (set_crash SendOnClosed s)
      end
  | RClose ch, CloseChannel => Some (set_read RRead (close_chan ch s))
  | _, _ => None
  end.

(** ** [connectLoop] *)
Inductive main_label :=
| SeeCancelled
| DialFails (status : option Z)
| DialSucceeds
| LoopDone
| Swap
| CloseNext
| CloseFinished
| LoopsFinished
| DeferLocked.

(** [return]: the deferred function sets [closeEvt] and cancels the context. *)
Definition main_return (s : WS) : WS := set_main MDefer (cancel s).

Definition fresh_conn (now : Z) : Conn := mkConn ∅ false None RRead WSelect 1 now [].

Definition dial_loop (s : WS) : LoopState := (before_dial (bool_decide (w_auth s <> None)) (w_loop s)).2.

(** Nobody holds the read lock of [closeLock]. *)
Definition no_pusher (s : WS) : bool :=
  forallb (fun cl => match cl_pc cl with CSelect _ => false | _ => true end) (w_clients s)
  && match w_handler s with HPush _ => false | _ => true end.

Definition main_step (l : main_label) (s : WS) : option WS :=
  match w_main s, l with
  | MTop, SeeCancelled => if w_ctx s then Some (main_return s) else None
  | MTop, DialFails status =>
      if w_ctx s then None
      else Some match (after_failed_dial (dial_loop s) status).2 with
                | Some loop => set_loop loop s
                | None => main_return s
                end
  | MTop, DialSucceeds =>
      if w_ctx s then None
      else Some (set_main MOpen (set_loop (dial_loop s) (set_conn (fun _ => fresh_conn (w_now s)) s)))
  | MOpen, LoopDone =>
      match k_cause (w_conn s) with
      | Some cause => Some (set_main (MClean cause (w_now s - k_since (w_conn s))) s)
      | None => None
      end
  | MClean cause seconds, Swap =>
      Some (set_main (MClosing cause seconds (map_to_list (k_channels (w_conn s))).*2) (set_conn k_set_swapped s))
  | MClosing cause seconds (ch :: chs), CloseNext => Some (set_main (MClosing cause seconds chs) (close_chan ch s))
  | MClosing cause seconds [], CloseFinished => Some (set_main (MWait cause seconds) (loopCancel SessionClean s))
  | MWait cause seconds, LoopsFinished =>
      match k_read (w_conn s), k_write (w_conn s) with
      | RExit, WExit =>
          Some match (after_session (w_loop s) cause seconds).2 with
               | Some loop => set_main MTop (set_loop loop s)
               | None => main_return s
               end
      | _, _ => None
      end
  | MDefer, DeferLocked => if no_pusher s then Some (set_main MStopped s) else None
  | _, _ => None
  end.

(** ** The machine *)
Inductive label :=
| Call (request : WebSocketRequestMessage)   (* SendRequest builds its message *)
| ClientCtx (c : nat) (tookTooLong : bool)
| ByClient (c : nat) (l : client_label)
| ByHandler (l : handler_label)
| ByWriter (l : write_label)
| ByReader (l : read_label)
| ByMain (l : main_label)
| CloseWS                                    (* Close, up to its wait *)
| CancelCtx                                  (* the context given to Connect *)
| ForceReconnect
| Tick (seconds : Z).

Definition client_ctx_done (c : nat) (tookTooLong : bool) : WS -> WS :=
  set_clients (alter (fun cl => mkClient (cl_request cl) (cl_retryCount cl)
    (match cl_ctx cl with None => Some tookTooLong | e => e end) (cl_pc cl)) c).

Definition step (l : label) (s : WS) : option WS :=
  match w_crash s with
  | Some _ => None
  | None =>
      match l with
      | Call request =>
          Some (set_clients (fun l => l ++ [mkClient (length (w_requests s)) O None CStart])
                 (set_requests (fun l => l ++ [request]) s))
      | ClientCtx c tookTooLong => Some (client_ctx_done c tookTooLong s)
      | ByClient c l => client_step c l s
      | ByHandler l => handler_step l s
      | ByWriter l => write_step l s
      | ByReader l => read_step l s
      | ByMain l => main_step l s
      | CloseWS => Some (cancel (set_closeCalled true s))
      | CancelCtx => Some (cancel s)
      | ForceReconnect => Some (loopCancel SessionForced s)
      | Tick seconds => if 0 <? seconds then Some (set_now (w_now s + seconds) s) else None
      end
  end.

Fixpoint run (ls : list label) (s : WS) : option WS :=
  match ls with
  | [] => Some s
  | l :: ls' => match step l s with Some s' => run ls' s' | None => None end
  end.
End Loops.
