(* ===== verification/WsSafety.v ===== *)
(** Invariants of the websocket machine ([WsLoops]): every response channel has
    one owner at a time, so no channel is closed twice or written after it was
    closed; the phases of a connection; the messages under way.  [WsCallers]
    completes the invariant. *)
From S2P Require Import Prelude GoLib WsMessages WsLoops.

(** ** Executions *)

(** What the server and the request handler have to respect for the process
    not to end: request frames have an id, a verb and a path, and a handler
    answers 200 or 400. *)
Definition well_formed (l : label) : Prop :=
  match l with
  | ByReader (Frame (mkWsMessage (Some 1) (Some r) _)) =>
      has_field (rq_Id r) && has_field (rq_Verb r) && has_field (rq_Path r) = true
  | ByHandler (Handled (HandlerResponse r)) => sr_Status r = 200 \/ sr_Status r = 400
  | _ => True
  end.

(** The states after well-formed steps; no connection carries 2^64 messages. *)
Inductive reach (auth : option bytes) : WS -> Prop :=
| reach_start : reach auth (ws_start auth)
| reach_step s l s' : reach auth s -> well_formed l -> k_i (w_conn s) + 1 < 2 ^ 64 -> step false l s = Some s' -> reach auth s'.

Lemma loopCancel_eq c s :
  loopCancel c s = set_conn (fun k => k_set_cause (Some (default c (k_cause k))) k) s.
Proof.
  unfold loopCancel, set_conn. f_equal. destruct (w_conn s) as [? ? [] ? ? ? ? ?]; reflexivity.
Qed.

Lemma cancel_eq s :
  cancel s = set_conn (fun k => k_set_cause (Some (default SessionClean (k_cause k))) k) (set_ctx true s).
Proof. apply loopCancel_eq. Qed.

Lemma read_exit_eq err s : exists cause ctx,
  read_exit err s = set_conn (fun k => k_set_cause cause (k_set_read RExit k)) (set_ctx ctx s).
Proof.
  unfold read_exit. rewrite loopCancel_eq. destruct (w_closeCalled _).
  - rewrite cancel_eq. do 2 eexists. reflexivity.
  - exists (Some (default (if err then SessionError else SessionClean) (k_cause (w_conn s)))), (w_ctx s). reflexivity.
Qed.

Lemma write_fail_eq s : exists cause,
  write_fail s = set_conn (fun k => k_set_cause cause (k_set_write WExit k)) s.
Proof. unfold write_fail. rewrite loopCancel_eq. eexists. reflexivity. Qed.

Lemma main_return_eq s : exists cause,
  main_return s = set_main MDefer (set_conn (fun k => k_set_cause cause k) (set_ctx true s)).
Proof. unfold main_return. rewrite cancel_eq. eexists. reflexivity. Qed.

(** ** Who holds a channel *)
Inductive owner := OSender (c : nat) | OWriter | OMap (i : Z) | OReader | OMain | OClosed.

Definition sending_on (cl : Client) : option nat :=
  match cl_pc cl with CSelect msg => sm_ResponseChannel msg | _ => None end.
Definition writer_chan (pc : write_pc) : option nat :=
  match pc with WGot msg => sm_ResponseChannel msg | _ => None end.
Definition reader_chan (pc : read_pc) : option nat :=
  match pc with RDeliver ch _ => Some ch | RClose ch => Some ch | _ => None end.
Definition main_chans (pc : main_pc) : list nat :=
  match pc with MClosing _ _ chs => chs | _ => [] end.

Definition holds (s : WS) (o : owner) (ch : nat) : Prop :=
  match o with
  | OSender c => w_clients s !! c ≫= sending_on = Some ch
  | OWriter => writer_chan (k_write (w_conn s)) = Some ch
  | OMap i => k_channels (w_conn s) !! i = Some ch
  | OReader => reader_chan (k_read (w_conn s)) = Some ch
  | OMain => ch ∈ main_chans (w_main s)
  | OClosed => ch_closed <$> w_chans s !! ch = Some true
  end.

Record Owned (s : WS) : Prop := mkOwned {
  ow_unique : forall o1 o2 ch, holds s o1 ch -> holds s o2 ch -> o1 = o2;
  ow_range : forall o ch, holds s o ch -> (ch < length (w_chans s))%nat;
  ow_nodup : NoDup (main_chans (w_main s));
  ow_buf : forall ch r, w_chans s !! ch = Some (mkChan (Some r) false) -> k_read (w_conn s) = RClose ch
}.

(** A step that only lets go of channels. *)
Lemma owned_release s s' : Owned s -> (forall o ch, holds s' o ch -> holds s o ch) ->
  (length (w_chans s) <= length (w_chans s'))%nat -> NoDup (main_chans (w_main s')) ->
  (forall ch r, w_chans s' !! ch = Some (mkChan (Some r) false) -> k_read (w_conn s') = RClose ch) -> Owned s'.
Proof.
  intros [U R N B] H Hl Hn Hb. constructor; [by eauto| |done|done].
  intros o ch Ho%H%R. lia.
Qed.

(** A step that hands channel [c0] to the owner [o']. *)
Lemma owned_move s s' c0 o' : Owned s ->
  (forall o ch, holds s' o ch -> (holds s o ch /\ ch <> c0) \/ (o = o' /\ ch = c0)) ->
  (c0 < length (w_chans s'))%nat -> (length (w_chans s) <= length (w_chans s'))%nat -> NoDup (main_chans (w_main s')) ->
  (forall ch r, w_chans s' !! ch = Some (mkChan (Some r) false) -> k_read (w_conn s') = RClose ch) -> Owned s'.
Proof.
  intros [U R N B] H Hc Hl Hn Hb. constructor; [| |done|done].
  - intros o1 o2 ch H1%H H2%H. destruct H1 as [[H1 ?]|[-> ->]], H2 as [[H2 ?]|[-> ?]]; by eauto.
  - intros o ch Ho%H. destruct Ho as [[Ho%R _]|[_ ->]]; lia.
Qed.

(** From a given owner. *)
Lemma owned_transfer s s' c0 o o' : Owned s -> holds s o c0 ->
  (forall o1 ch, holds s' o1 ch -> (holds s o1 ch /\ (o1, ch) <> (o, c0)) \/ (o1 = o' /\ ch = c0)) ->
  (length (w_chans s) <= length (w_chans s'))%nat -> NoDup (main_chans (w_main s')) ->
  (forall ch r, w_chans s' !! ch = Some (mkChan (Some r) false) -> k_read (w_conn s') = RClose ch) -> Owned s'.
Proof.
  intros Hw Ho H Hl Hn Hb. eapply (owned_move s s' c0 o'); [done| |pose proof (ow_range s Hw _ _ Ho); lia|done..].
  intros o1 ch H1. destruct (H o1 ch H1) as [[H2 Hne]|?]; [|by right]. left. split; [done|]. intros ->.
  apply Hne. f_equal. by eapply ow_unique.
Qed.

Lemma reader_chan_open s ch : Owned s -> reader_chan (k_read (w_conn s)) = Some ch ->
  exists b, w_chans s !! ch = Some (mkChan b false).
Proof.
  intros Hw H. pose proof (ow_range s Hw OReader ch H) as Hr. apply lookup_lt_is_Some in Hr as [[b c] E].
  exists b. rewrite E. f_equal. f_equal. apply not_true_is_false. intros ->.
  assert (Hc : holds s OClosed ch) by (cbn; by rewrite E). by pose proof (ow_unique s Hw OReader OClosed ch H Hc).
Qed.

Lemma main_chan_open s ch : Owned s -> ch ∈ main_chans (w_main s) -> exists b, w_chans s !! ch = Some (mkChan b false).
Proof.
  intros Hw H. pose proof (ow_range s Hw OMain ch H) as Hr. apply lookup_lt_is_Some in Hr as [[b c] E].
  exists b. rewrite E. f_equal. f_equal. apply not_true_is_false. intros ->.
  assert (Hc : holds s OClosed ch) by (cbn; by rewrite E). by pose proof (ow_unique s Hw OMain OClosed ch H Hc).
Qed.

Definition pc_chan (pc : client_pc) : option nat :=
  match pc with CSelect msg => sm_ResponseChannel msg | _ => None end.

(** Which client sends on which channel after client [c] moved. *)
Lemma sending_insert (l : list Client) c cl c' ch : <[c := cl]> l !! c' ≫= sending_on = Some ch ->
  (c' = c /\ pc_chan (cl_pc cl) = Some ch) \/ (c' <> c /\ l !! c' ≫= sending_on = Some ch).
Proof.
  destruct (decide (c' = c)) as [->|Hc].
  - destruct (decide (c < length l)%nat).
    + rewrite list_lookup_insert_eq by done. cbn. auto.
    + rewrite list_insert_ge by lia. rewrite lookup_ge_None_2 by lia. done.
  - rewrite list_lookup_insert_ne by done. auto.
Qed.

Lemma set_pc_insert c pc s cl : w_clients s !! c = Some cl ->
  set_pc c pc s = set_clients <[c := mkClient (cl_request cl) (cl_retryCount cl) (cl_ctx cl) pc]> s.
Proof.
  intros H. unfold set_pc, set_clients. f_equal. apply list_eq. intros j. destruct (decide (j = c)) as [->|Hj].
  - rewrite list_lookup_alter_eq, H, list_lookup_insert_eq by (by eapply lookup_lt_Some). done.
  - by rewrite list_lookup_alter_ne, list_lookup_insert_ne by done.
Qed.

(** A channel keeps its closed flag when its buffer changes. *)
Lemma closed_insert (l : list Chan) ch b b' c ch' : l !! ch = Some (mkChan b c) ->
  ch_closed <$> <[ch := mkChan b' c]> l !! ch' = Some true -> ch_closed <$> l !! ch' = Some true.
Proof.
  intros H. destruct (decide (ch' = ch)) as [->|Hne].
  - rewrite H, list_lookup_insert_eq by (by eapply lookup_lt_Some). done.
  - by rewrite list_lookup_insert_ne by done.
Qed.

(** A client that leaves for a state in which it sends nothing. *)
Lemma leave_owned c cl s : Owned s -> pc_chan (cl_pc cl) = None -> Owned (set_clients <[c := cl]> s).
Proof.
  intros Hw Hpc. pose proof Hw as [U R N B]. apply (owned_release s); try done.
  intros o ch Ho. destruct o; try exact Ho. cbn in Ho.
  apply sending_insert in Ho as [[-> Ho]|[? ?]]; [congruence|done].
Qed.

(** Emptying the buffer of a channel. *)
Lemma take_owned ch r c s : Owned s -> w_chans s !! ch = Some (mkChan (Some r) c) ->
  Owned (set_chans <[ch := mkChan None c]> s).
Proof.
  intros Hw Hch. pose proof Hw as [U R N B]. apply (owned_release s); [done| |cbn; by rewrite length_insert|done|].
  - intros o ch' Ho. destruct o; try exact Ho. cbn in Ho |- *. by eapply closed_insert.
  - cbn. intros ch' r' [(-> & [=] & _)|[? ?]]%list_lookup_insert_Some. by eapply B.
Qed.

Lemma attempt_owned c cl s : Owned s -> w_clients s !! c = Some cl -> Owned (client_attempt c cl s).
Proof.
  intros Hw Hc. pose proof Hw as [U R N B].
  unfold client_attempt. set (pc := if bool_decide _ then _ else _). erewrite set_pc_insert by done.
  apply (owned_move s _ (length (w_chans s)) (OSender c)); [done| |cbn; rewrite length_app; cbn; lia|cbn; rewrite length_app; lia|done|].
  - intros o ch Ho. assert (Hd : (holds s o ch) \/ (o = OSender c /\ ch = length (w_chans s))).
    { destruct o; cbn in Ho |- *; auto.
      - apply sending_insert in Ho as [[-> Ho]|[? ?]]; [right|by left]. split; [done|]. subst pc. revert Ho. clear.
        destruct (bool_decide _); [done|]. destruct (sendChannel_nil _); [done|]. cbn. congruence.
      - rewrite lookup_app in Ho. destruct (w_chans s !! ch) eqn:E; [by left|].
        destruct (ch - _)%nat as [|[]]; done. }
    destruct Hd as [Hd|?]; [|by right]. left. split; [done|]. apply R in Hd. lia.
  - cbn. intros ch r. rewrite lookup_app. destruct (w_chans s !! ch) as [x|] eqn:E; [intros [= ->]; by eapply B|].
    by destruct (ch - _)%nat as [|[]].
Qed.

Lemma push_owned c cl msg ch s : Owned s -> w_clients s !! c = Some cl -> cl_pc cl = CSelect msg ->
  k_write (w_conn s) = WSelect -> sm_ResponseChannel msg = Some ch -> Owned (set_write (WGot msg) (set_pc c (CWait ch) s)).
Proof.
  intros Hw Hc Hpc Hk Hm. pose proof Hw as [U R N B]. erewrite set_pc_insert by done.
  assert (Hh : holds s (OSender c) ch) by (cbn; rewrite Hc; cbn; unfold sending_on; by rewrite Hpc).
  apply (owned_transfer s _ ch (OSender c) OWriter); [done|done| |done..].
  intros o ch' Ho. destruct o; cbn in Ho |- *; try (left; split; [done|congruence]).
  - apply sending_insert in Ho as [[-> Ho]|[? ?]]; [done|]. left. split; [done|congruence].
  - right. split; [done|congruence].
Qed.

Lemma client_owned c l s s' : Owned s -> client_step c l s = Some s' -> Owned s'.
Proof.
  intros Hw. unfold client_step. destruct (w_clients s !! c) as [cl|] eqn:Hc; [|done].
  destruct (cl_pc cl) as [|msg|ch|r] eqn:Hpc, l; try done.
  - intros [= <-]. by apply attempt_owned.
  - destruct (k_write (w_conn s)) eqn:Hk; try done. destruct (sm_ResponseChannel msg) as [ch|] eqn:Hm; [|done].
    intros [= <-]. by eapply push_owned.
  - destruct (bool_decide _); [|done]. intros [= <-]. erewrite set_pc_insert by done. by apply leave_owned.
  - destruct (closeEvt s); [|done]. intros [= <-]. erewrite set_pc_insert by done. by apply leave_owned.
  - destruct (w_chans s !! ch) as [[[r|] c']|] eqn:Hch; try done.
    + intros [= <-]. erewrite set_pc_insert by done. apply leave_owned; [|done]. by eapply take_owned.
    + destruct c'; [|done]. destruct (w_requests s !! cl_request cl) as [q|]; [|done]. intros [= <-].
      apply leave_owned; [done|]. unfold nil_response. by repeat case_match.
Qed.

(** The other goroutines. *)
Lemma handler_owned l s s' : Owned s ->
  (forall msg, w_handler s = HPush msg -> sm_ResponseChannel msg = None) -> handler_step l s = Some s' -> Owned s'.
Proof.
  intros Hw Hm. unfold handler_step. intros H. split_matches_in H; injection H as <-;
    (apply (owned_release s); [done| |done|apply Hw|apply Hw]); intros [] ? Ho; try exact Ho.
  cbn in Ho. rewrite Hm in Ho by done. done.
Qed.

(** Cancelling contexts and the like does not concern the channels. *)
Lemma cause_owned s cause : Owned s -> Owned (set_conn (fun k => k_set_cause cause k) s).
Proof. intros Hw. apply (owned_release s); [done|by intros []|done|apply Hw|apply Hw]. Qed.

(** Leaving the state of the write loop, without taking a channel. *)
Lemma write_pc_owned s s' : Owned s -> writer_chan (k_write (w_conn s')) = None ->
  w_chans s' = w_chans s -> w_clients s' = w_clients s -> k_channels (w_conn s') = k_channels (w_conn s) ->
  k_read (w_conn s') = k_read (w_conn s) -> w_main s' = w_main s -> Owned s'.
Proof.
  intros Hw Hk E1 E2 E3 E4 E5. apply (owned_release s); [done| |by rewrite E1|rewrite E5; apply Hw|rewrite E1, E4; apply Hw].
  intros [] ch; cbn; rewrite ?E1, ?E2, ?E3, ?E4, ?E5; auto. congruence.
Qed.

Lemma register_owned msg p ch s : Owned s -> k_write (w_conn s) = WGot msg -> sm_ResponseChannel msg = Some ch ->
  Owned (register false msg p ch s).
Proof.
  intros Hw Hk Hm. unfold register. rewrite andb_false_r. set (s1 := set_conn (fun k => k_set_channels _ k) _).
  assert (Hh : holds s OWriter ch) by (cbn; by rewrite Hk).
  assert (Hgoal : forall s2, (exists cause pc, s2 = set_conn (fun k => k_set_cause cause (k_set_write pc k)) s1 /\ writer_chan pc = None) -> Owned s2).
  { intros s2 (cause & pc & -> & Hpc).
    apply (owned_transfer s _ ch OWriter (OMap (k_i (w_conn s)))); [done|done| |done|apply Hw|apply Hw].
    intros o ch' Ho. destruct o; cbn in Ho |- *; try (left; split; [done|congruence]); [congruence|].
    rewrite lookup_insert in Ho. case_decide as Hi; [right; split; congruence|left; split; [done|congruence]]. }
  assert (Hok : Owned (set_write (WRequest p) s1)) by (apply Hgoal; exists (k_cause (w_conn s)), (WRequest p); by destruct s as [? ? ? ? ? ? ? []]).
  destruct (sm_RequestTime msg); [|exact Hok]. destruct (_ <? _); [|exact Hok].
  destruct (write_fail_eq s1) as [cause ->]. apply Hgoal. by exists cause, WExit.
Qed.

Lemma write_owned l s s' : Owned s -> write_step false l s = Some s' -> Owned s'.
Proof.
  intros Hw. unfold write_step. destruct (k_write (w_conn s)) as [|msg|p|m cb|] eqn:Hk, l as [| |ok]; try done.
  - destruct (k_cause _); [|done]. intros [= <-]. by apply (write_pc_owned s).
  - intros [= <-]. destruct (write_fail_eq s) as [cause Hf].
    assert (Hfo : Owned (write_fail s)) by (rewrite Hf; by apply (write_pc_owned s)).
    destruct (sm_RequestMessage msg) as [p|]; [|exact Hfo].
    destruct (sm_ResponseChannel msg) as [ch|] eqn:Hm; [by apply register_owned|].
    destruct (sm_ResponseMessage msg) as [resp|]; [|exact Hfo].
    assert (Hcr : forall c, Owned (set_crash c s)) by (intros c; apply (owned_release s); [done|by intros []|done|apply Hw|apply Hw]).
    destruct (w_requests s !! p) as [[? ? ? ? [id|]]|]; [|by apply Hcr..].
    destruct (CreateWSResponse id (sr_Status resp)); [|apply Hcr]. by apply (write_pc_owned s).
  - destruct (w_requests s !! p) as [r|]; [|done]. intros [= <-]. destruct ok; [by apply (write_pc_owned s)|].
    destruct (write_fail_eq s) as [cause ->]. by apply (write_pc_owned s).
  - intros [= <-]. destruct ok; [by apply (write_pc_owned s)|].
    destruct (write_fail_eq s) as [cause ->]. by apply (write_pc_owned s).
Qed.

Lemma read_pc_owned s s' : Owned s -> k_read (w_conn s) = RRead \/ (exists p, k_read (w_conn s) = RPut p) ->
  reader_chan (k_read (w_conn s')) = None ->
  w_chans s' = w_chans s -> w_clients s' = w_clients s -> k_channels (w_conn s') = k_channels (w_conn s) ->
  k_write (w_conn s') = k_write (w_conn s) -> w_main s' = w_main s -> Owned s'.
Proof.
  intros Hw Hr Hk E1 E2 E3 E4 E5. apply (owned_release s); [done| |by rewrite E1|rewrite E5; apply Hw|].
  - intros [] ch; cbn; rewrite ?E1, ?E2, ?E3, ?E4, ?E5; auto. congruence.
  - rewrite E1. intros ch r Hc%(ow_buf s Hw). destruct Hr as [Hr|[? Hr]]; congruence.
Qed.

Lemma frame_owned m s : Owned s -> k_read (w_conn s) = RRead -> Owned (read_frame m s).
Proof.
  intros Hw Hr. pose proof Hw as [U R N B].
  assert (Hex : Owned (read_exit true s)).
  { destruct (read_exit_eq true s) as (cause & ctx & ->). apply (read_pc_owned s); auto. }
  unfold read_frame. destruct (ms_Type m) as [t|]; [|done]. destruct (t =? _).
  - destruct (ms_Request m) as [r|]; [|done]. destruct (_ && _ && _); [apply (read_pc_owned s); auto|].
    apply (owned_release s); [done|by intros []|done..].
  - destruct (t =? _); [|done]. destruct (ms_Response m) as [r|]; [|done]. destruct (rs_Id r) as [id|]; [|done].
    destruct (k_channels (w_conn s) !! id) as [ch|] eqn:Hm; [|done].
    apply (owned_transfer s _ ch (OMap id) OReader); [done|done| |done|done|].
    + intros o ch' Ho. destruct o; cbn in Ho |- *; try (left; split; [done|congruence]).
      * rewrite lookup_delete in Ho. case_decide; [done|]. left. split; [done|congruence].
      * right. split; congruence.
    + cbn. intros ch' r' Hc%B. congruence.
Qed.

(** Closing a channel that a goroutine holds. *)
Lemma close_insert (s : WS) ch b : w_chans s !! ch = Some (mkChan b false) ->
  close_chan ch s = set_chans <[ch := mkChan b true]> s.
Proof. intros H. unfold close_chan. rewrite H. reflexivity. Qed.

Lemma closed_closed (l : list Chan) ch b ch' : ch_closed <$> <[ch := mkChan b true]> l !! ch' = Some true ->
  ch' = ch \/ ch_closed <$> l !! ch' = Some true.
Proof.
  destruct (decide (ch' = ch)) as [->|Hne]; [auto|]. rewrite list_lookup_insert_ne by done. auto.
Qed.

Lemma read_owned l s s' : Owned s -> read_step l s = Some s' -> Owned s'.
Proof.
  intros Hw. pose proof Hw as [U R N B]. unfold read_step.
  destruct (k_read (w_conn s)) as [|p|ch r|ch|] eqn:Hr, l as [m|clean| | | |]; try done.
  - intros [= <-]. by apply frame_owned.
  - intros [= <-]. destruct (read_exit_eq (negb clean) s) as (cause & ctx & ->). apply (read_pc_owned s); auto.
  - destruct (k_cause _); [|done]. intros [= <-]. destruct (read_exit_eq true s) as (cause & ctx & ->). apply (read_pc_owned s); auto.
  - destruct (_ <? _)%nat; [|done]. intros [= <-]. apply (read_pc_owned s); eauto.
  - destruct (reader_chan_open s ch Hw) as [b Hb]; [by rewrite Hr|]. rewrite Hb. destruct b as [b|]; [done|]. intros [= <-].
    apply (owned_release s); [done| |cbn; by rewrite length_insert|done|].
    + intros o ch' Ho. destruct o; try exact Ho; cbn in Ho |- *; [by rewrite Hr|]. by eapply closed_insert.
    + cbn. intros ch' r' [(-> & [=] & _)|[? Hc%B]]%list_lookup_insert_Some; [done|congruence].
  - destruct (reader_chan_open s ch Hw) as [b Hb]; [by rewrite Hr|]. rewrite (close_insert s ch b Hb). intros [= <-].
    apply (owned_transfer s _ ch OReader OClosed); [done|cbn; by rewrite Hr| |cbn; by rewrite length_insert|done|].
    + intros o ch' Ho. destruct o; cbn in Ho |- *; try (left; split; [done|congruence]).
      apply closed_closed in Ho as [->|?]; [by right|]. left. split; [done|congruence].
    + cbn. intros ch' r' [(-> & [=] & _)|[? Hc%B]]%list_lookup_insert_Some. congruence.
Qed.

(** What the connection loop does. *)
Lemma main_pc_owned s s' : Owned s -> main_chans (w_main s') = [] -> w_chans s' = w_chans s ->
  w_clients s' = w_clients s -> k_channels (w_conn s') ⊆ k_channels (w_conn s) ->
  k_read (w_conn s') = k_read (w_conn s) -> k_write (w_conn s') = k_write (w_conn s) -> Owned s'.
Proof.
  intros Hw Hm E1 E2 E3 E4 E5. apply (owned_release s); [done| |by rewrite E1|rewrite Hm; constructor|rewrite E1, E4; apply Hw].
  intros [] ch; cbn; rewrite ?E1, ?E2, ?E4, ?E5, ?Hm; auto.
  - intros Hl. by eapply lookup_weaken.
  - intros ?%not_elem_of_nil. done.
Qed.

Lemma swap_owned s cause seconds : Owned s -> main_chans (w_main s) = [] ->
  Owned (set_main (MClosing cause seconds (map_to_list (k_channels (w_conn s))).*2) (set_conn k_set_swapped s)).
Proof.
  intros Hw Hm. pose proof Hw as [U R N B].
  assert (Hin : forall ch, ch ∈ (map_to_list (k_channels (w_conn s))).*2 -> exists i, holds s (OMap i) ch).
  { intros ch ((i & ch') & -> & Hi)%list_elem_of_fmap. apply elem_of_map_to_list in Hi. by exists i. }
  assert (Hh : forall o ch, holds (set_main (MClosing cause seconds (map_to_list (k_channels (w_conn s))).*2) (set_conn k_set_swapped s)) o ch ->
    (o = OMain /\ exists i, holds s (OMap i) ch) \/ (o <> OMain /\ (forall i, o <> OMap i) /\ holds s o ch)).
  { intros [] ch Ho; try (right; done). left. auto. }
  constructor.
  - intros o1 o2 ch [[-> [i Hi]]|(Ho1 & Ho1' & H1)]%Hh [[-> [j Hj]]|(Ho2 & Ho2' & H2)]%Hh; [done| | |by eapply U].
    + by pose proof (U _ _ _ Hi H2) as <-; destruct (Ho2' i).
    + by pose proof (U _ _ _ Hj H1) as <-; destruct (Ho1' j).
  - intros o ch [[-> [i Hi]]|(_ & _ & H1)]%Hh; by eapply R.
  - cbn. apply NoDup_fmap_2_strong; [|apply NoDup_map_to_list].
    intros [i ch] [j ch'] Hi%elem_of_map_to_list Hj%elem_of_map_to_list E. cbn in E. subst ch'.
    by pose proof (U (OMap i) (OMap j) ch Hi Hj) as [= ->].
  - exact B.
Qed.

Lemma close_next_owned s cause seconds ch chs : Owned s -> w_main s = MClosing cause seconds (ch :: chs) ->
  Owned (set_main (MClosing cause seconds chs) (close_chan ch s)).
Proof.
  intros Hw Hm. pose proof Hw as [U R N B]. rewrite Hm in N. cbn in N. apply NoDup_cons in N as [N1 N2].
  assert (Hin : ch ∈ main_chans (w_main s)) by (rewrite Hm; left).
  destruct (main_chan_open s ch Hw Hin) as [b Hb]. rewrite (close_insert s ch b Hb).
  apply (owned_transfer s _ ch OMain OClosed); [done|done| |cbn; by rewrite length_insert|done|].
  - intros o ch' Ho. destruct o; cbn in Ho |- *; try (left; split; [done|congruence]).
    + left. rewrite Hm. split; [by right|]. intros [= ->]. done.
    + apply closed_closed in Ho as [->|?]; [by right|]. left. split; [done|congruence].
  - cbn. intros ch' r' [(-> & [=] & _)|[? Hc%B]]%list_lookup_insert_Some. congruence.
Qed.

Lemma main_owned l s s' : Owned s ->
  (w_main s = MTop -> k_read (w_conn s) = RExit /\ k_write (w_conn s) = WExit) -> main_step l s = Some s' -> Owned s'.
Proof.
  intros Hw Ht. assert (Hret : Owned (main_return s)).
  { destruct (main_return_eq s) as [cause ->]. by apply (main_pc_owned s). }
  unfold main_step. destruct (w_main s) as [| |cause seconds|cause seconds [|ch chs]|cause seconds| |] eqn:Hm, l; try done.
  - destruct (w_ctx s); [|done]. by intros [= <-].
  - destruct (w_ctx s); [done|]. intros [= <-]. destruct (_.2); [|done]. apply (main_pc_owned s); try done. cbn. by rewrite Hm.
  - destruct (w_ctx s); [done|]. intros [= <-]. destruct (Ht eq_refl) as [E1 E2].
    apply (owned_release s); [done| |done|constructor|].
    + intros [] ch; cbn; try done. by intros ?%not_elem_of_nil.
    + cbn. intros ch r Hb%(ow_buf s Hw). congruence.
  - destruct (k_cause _); [|done]. intros [= <-]. by apply (main_pc_owned s).
  - intros [= <-]. apply swap_owned; [done|]. by rewrite Hm.
  - intros [= <-]. rewrite loopCancel_eq. by apply (main_pc_owned s).
  - intros [= <-]. by apply close_next_owned.
  - destruct (k_read _), (k_write _); try done. intros [= <-]. destruct (_.2); [|done]. by apply (main_pc_owned s).
  - destruct (no_pusher s); [|done]. intros [= <-]. by apply (main_pc_owned s).
Qed.

(** ** The phases of a connection *)
Definition idle (pc : main_pc) : bool := match pc with MTop | MDefer | MStopped => true | _ => false end.
Definition cleaning (pc : main_pc) : bool := match pc with MOpen | MClean _ _ => false | _ => true end.

(** Between connections the loops have ended; after [SwapData] the map only has
    late registrations; the keys of the map are below the counter of the write
    loop. *)
Record Phased (s : WS) : Prop := mkPhased {
  ph_idle : idle (w_main s) = true -> k_read (w_conn s) = RExit /\ k_write (w_conn s) = WExit;
  ph_swapped : k_swapped (w_conn s) = cleaning (w_main s);
  ph_late : k_swapped (w_conn s) = true -> forall i ch, k_channels (w_conn s) !! i = Some ch -> ch ∈ w_late s;
  ph_i : 1 <= k_i (w_conn s);
  ph_keys : forall i ch, k_channels (w_conn s) !! i = Some ch -> 1 <= i <= k_i (w_conn s);
  ph_next : match k_write (w_conn s) with
            | WSelect | WGot _ | WResponse _ _ => k_channels (w_conn s) !! k_i (w_conn s) = None
            | _ => True
            end
}.

Lemma phased_frame s s' : Phased s -> w_main s' = w_main s -> w_conn s' = w_conn s -> w_late s' = w_late s -> Phased s'.
Proof. intros [] E1 E2 E3. constructor; rewrite ?E1, ?E2, ?E3; auto. Qed.

Lemma uint64_next i : 1 <= i -> i + 1 < 2 ^ 64 -> uint64 (i + 1) = i + 1.
Proof. intros. apply wrap_small. unfold in_width. lia. Qed.

(** The write loop ends or goes to a state in which it has no counter to keep. *)
Lemma phased_write s s' : Phased s -> idle (w_main s) = false -> w_main s' = w_main s -> w_late s' = w_late s ->
  k_swapped (w_conn s') = k_swapped (w_conn s) -> k_channels (w_conn s') = k_channels (w_conn s) -> k_i (w_conn s') = k_i (w_conn s) ->
  match k_write (w_conn s') with
  | WSelect | WGot _ | WResponse _ _ => k_channels (w_conn s) !! k_i (w_conn s) = None
  | _ => True
  end -> Phased s'.
Proof.
  intros [] Hi E1 E2 E3 E4 E5 Hn. constructor; rewrite ?E1, ?E2, ?E3, ?E4, ?E5; auto. congruence.
Qed.

Lemma phased_read s s' : Phased s -> idle (w_main s) = false -> w_main s' = w_main s -> w_late s' = w_late s ->
  k_swapped (w_conn s') = k_swapped (w_conn s) -> k_channels (w_conn s') ⊆ k_channels (w_conn s) -> k_i (w_conn s') = k_i (w_conn s) ->
  k_write (w_conn s') = k_write (w_conn s) -> Phased s'.
Proof.
  intros [] Hi E1 E2 E3 E4 E5 E6. constructor; rewrite ?E1, ?E2, ?E3, ?E5, ?E6; auto.
  - congruence.
  - intros Hs i ch Hl. eapply ph_late0; [done|]. by eapply lookup_weaken.
  - intros i ch Hl. eapply ph_keys0. by eapply lookup_weaken.
  - revert ph_next0. destruct (k_write _); auto; intros ?; by eapply lookup_weaken_None.
Qed.

(** The write loop is at the start of a round again. *)
Lemma phased_sent s m cbs : Phased s -> k_i (w_conn s) + 1 < 2 ^ 64 -> idle (w_main s) = false ->
  Phased (set_callbacks cbs (set_conn (k_sent m) s)).
Proof.
  intros [] Hn Hi. constructor; cbn; auto.
  - congruence.
  - rewrite uint64_next by lia. lia.
  - intros i ch Hl%ph_keys0. rewrite uint64_next by lia. lia.
  - rewrite uint64_next by lia. apply eq_None_not_Some. intros [ch Hl%ph_keys0]. lia.
Qed.

Lemma phased_register s msg p ch : Phased s -> k_i (w_conn s) + 1 < 2 ^ 64 -> idle (w_main s) = false ->
  k_write (w_conn s) = WGot msg -> Phased (register false msg p ch s).
Proof.
  intros [] Hn Hi Hk. unfold register. rewrite andb_false_r. set (s1 := set_conn (fun k => k_set_channels _ k) _).
  assert (Hgoal : forall s2, (exists cause pc, s2 = set_conn (fun k => k_set_cause cause (k_set_write pc k)) s1
    /\ match pc with WRequest _ | WExit => True | _ => False end) -> Phased s2).
  { intros s2 (cause & pc & -> & Hpc). constructor; cbn.
    - congruence.
    - done.
    - intros Hs i ch'. rewrite Hs, lookup_insert. case_decide; [intros [= ->]; left|]. intros Hl. right. by eapply ph_late0.
    - lia.
    - intros i ch'. rewrite lookup_insert. case_decide; [lia|]. apply ph_keys0.
    - by destruct pc. }
  assert (Hok : Phased (set_write (WRequest p) s1)).
  { apply Hgoal. exists (k_cause (w_conn s)), (WRequest p). by destruct s as [? ? ? ? ? ? ? []]. }
  destruct (sm_RequestTime msg); [|exact Hok]. destruct (_ <? _); [|exact Hok].
  destruct (write_fail_eq s1) as [cause ->]. apply Hgoal. by exists cause, WExit.
Qed.

Lemma busy_write s : Phased s -> k_write (w_conn s) <> WExit -> idle (w_main s) = false.
Proof. intros [] Hk. apply not_true_is_false. intros []%ph_idle0. done. Qed.
Lemma busy_read s : Phased s -> k_read (w_conn s) <> RExit -> idle (w_main s) = false.
Proof. intros [] Hk. apply not_true_is_false. intros []%ph_idle0. done. Qed.

Lemma write_phased l s s' : Phased s -> k_i (w_conn s) + 1 < 2 ^ 64 -> write_step false l s = Some s' -> Phased s'.
Proof.
  intros Hp Hn. pose proof (busy_write s Hp) as Hb. unfold write_step.
  destruct (k_write (w_conn s)) as [|msg|p|m cb|] eqn:Hk, l as [| |ok]; try done; specialize (Hb ltac:(done)).
  all: assert (Hf : Phased (write_fail s)) by (destruct (write_fail_eq s) as [cause ->]; by apply (phased_write s)).
  - destruct (k_cause _); [|done]. intros [= <-]. by apply (phased_write s).
  - intros [= <-]. destruct (sm_RequestMessage msg) as [p|]; [|done].
    destruct (sm_ResponseChannel msg) as [ch|] eqn:Hm; [by apply phased_register|].
    destruct (sm_ResponseMessage msg) as [resp|]; [|done].
    destruct (w_requests s !! p) as [[? ? ? ? [id|]]|]; [|by apply (phased_frame s)..].
    destruct (CreateWSResponse id (sr_Status resp)); [|by apply (phased_frame s)].
    apply (phased_write s); try done. cbn. pose proof (ph_next s Hp) as Hx. by rewrite Hk in Hx.
  - destruct (w_requests s !! p) as [r|]; [|done]. intros [= <-]. destruct ok; [|done].
    change (set_conn ?f s) with (set_callbacks (fun l => l) (set_conn f s)). by apply phased_sent.
  - intros [= <-]. destruct ok; [|done]. by apply phased_sent.
Qed.

Lemma read_phased l s s' : Phased s -> read_step l s = Some s' -> Phased s'.
Proof.
  intros Hp. pose proof (busy_read s Hp) as Hb. unfold read_step.
  destruct (k_read (w_conn s)) as [|p|ch r|ch|] eqn:Hr, l as [m|clean| | | |]; try done; specialize (Hb ltac:(done)).
  all: assert (Hx : forall err, Phased (read_exit err s)) by
    (intros err; destruct (read_exit_eq err s) as (cause & ctx & ->); by apply (phased_read s)).
  - intros [= <-]. unfold read_frame. destruct (ms_Type m) as [t|]; [|done]. destruct (t =? _).
    + destruct (ms_Request m); [|done]. destruct (_ && _ && _); [by apply (phased_read s)|by apply (phased_frame s)].
    + destruct (t =? _); [|done]. destruct (ms_Response m) as [r|]; [|done]. destruct (rs_Id r) as [id|]; [|done].
      destruct (k_channels (w_conn s) !! id) as [ch|]; [|by apply (phased_frame s)].
      apply (phased_read s); try done. cbn. apply delete_subseteq.
  - by intros [= <-].
  - destruct (k_cause _); [|done]. by intros [= <-].
  - destruct (_ <? _)%nat; [|done]. intros [= <-]. by apply (phased_read s).
  - destruct (w_chans s !! ch) as [[[] []]|]; try done; intros [= <-]; first [by apply (phased_frame s)|by apply (phased_read s)].
  - intros [= <-]. unfold close_chan. destruct (w_chans s !! ch) as [[? []]|]; by apply (phased_read s).
Qed.

(** The connection loop moves on within a connection, or the connection is over. *)
Lemma phased_main s s' : Phased s -> idle (w_main s') = true -> k_read (w_conn s) = RExit -> k_write (w_conn s) = WExit ->
  cleaning (w_main s) = true ->
  w_late s' = w_late s -> (exists cause, w_conn s' = k_set_cause cause (w_conn s)) -> Phased s'.
Proof.
  intros [] Hi E1 E2 Hc E3 [cause E4]. constructor; rewrite ?E3, ?E4; cbn; auto.
  rewrite ph_swapped0, Hc. by destruct (w_main s').
Qed.

Lemma phased_move s s' : Phased s -> idle (w_main s') = false -> cleaning (w_main s') = cleaning (w_main s) ->
  w_late s' = w_late s -> (exists cause, w_conn s' = k_set_cause cause (w_conn s)) -> Phased s'.
Proof.
  intros [] Hi Hc E3 [cause E4]. constructor; rewrite ?E3, ?E4, ?Hc; cbn; auto. congruence.
Qed.

Lemma same_cause k : k = k_set_cause (k_cause k) k.
Proof. by destruct k. Qed.

Lemma main_phased l s s' : Phased s -> main_step l s = Some s' -> Phased s'.
Proof.
  intros Hp. pose proof Hp as [I1 I2 I3 I4 I5 I6]. unfold main_step.
  destruct (w_main s) as [| |cause seconds|cause seconds [|ch chs]|cause seconds| |] eqn:Hm, l; try done.
  all: try (destruct (I1 eq_refl) as [J1 J2]).
  - destruct (w_ctx s); [|done]. intros [= <-]. destruct (main_return_eq s) as [cause ->].
    apply (phased_main s); try done; [by rewrite Hm|by exists cause].
  - destruct (w_ctx s); [done|]. intros [= <-]. destruct (_.2); [by apply (phased_frame s)|].
    destruct (main_return_eq s) as [cause ->]. apply (phased_main s); try done; [by rewrite Hm|by exists cause].
  - destruct (w_ctx s); [done|]. intros [= <-]. by constructor.
  - destruct (k_cause _); [|done]. intros [= <-]. apply (phased_move s); try done; [by rewrite Hm|eexists; apply same_cause].
  - intros [= <-]. constructor; cbn; try done. by destruct (k_write _).
  - intros [= <-]. rewrite loopCancel_eq. apply (phased_move s); try done; [by rewrite Hm|by eexists].
  - intros [= <-]. apply (phased_move s); try done; [by rewrite Hm|..];
      unfold close_chan; destruct (w_chans s !! ch) as [[? []]|]; try done; eexists; apply same_cause.
  - destruct (k_read _) eqn:J1, (k_write _) eqn:J2; try done. intros [= <-]. destruct (_.2).
    + apply (phased_main s); try done; [by rewrite Hm|eexists; apply same_cause].
    + destruct (main_return_eq s) as [c ->]. apply (phased_main s); try done; [by rewrite Hm|by exists c].
  - destruct (no_pusher s); [|done]. intros [= <-]. apply (phased_main s); try done; [by rewrite Hm|eexists; apply same_cause].
Qed.

Lemma client_phased c l s s' : Phased s -> client_step c l s = Some s' -> Phased s'.
Proof.
  intros Hp. unfold client_step. intros H. split_matches_in H; injection H as <-; try (by apply (phased_frame s)).
  apply (phased_write s); try done; [eapply busy_write; [done|congruence]|].
  cbn. pose proof (ph_next s Hp) as Hx. by repeat case_match.
Qed.

Lemma handler_phased l s s' : Phased s -> handler_step l s = Some s' -> Phased s'.
Proof.
  intros Hp. unfold handler_step. intros H. split_matches_in H; injection H as <-; try (by apply (phased_frame s)).
  apply (phased_write s); try done; [eapply busy_write; [done|congruence]|].
  cbn. pose proof (ph_next s Hp) as Hx. by repeat case_match.
Qed.

(** ** The messages under way *)
Definition has_id (requests : list WebSocketRequestMessage) (p : nat) : Prop := is_Some (requests !! p ≫= rq_Id).

(** A message of the request handler. *)
Definition server_msg (s : WS) (msg : SendMessage) : Prop :=
  exists r p, msg = mkSend None None (Some r) (Some p) /\ has_id (w_requests s) p /\ (sr_Status r = 200 \/ sr_Status r = 400).
(** A message of a caller. *)
Definition client_msg (cl : Client) (ch : nat) (msg : SendMessage) : Prop :=
  exists t, msg = mkSend (Some t) (Some ch) None (Some (cl_request cl)).

Definition waits (s : WS) (c ch : nat) : Prop := exists cl, w_clients s !! c = Some cl /\ cl_pc cl = CWait ch.

Record Messages (s : WS) : Prop := mkMessages {
  me_client : forall c cl msg, w_clients s !! c = Some cl -> cl_pc cl = CSelect msg -> exists ch, client_msg cl ch msg;
  me_writer : forall msg, k_write (w_conn s) = WGot msg ->
    (exists c cl ch, w_clients s !! c = Some cl /\ cl_pc cl = CWait ch /\ client_msg cl ch msg) \/ server_msg s msg;
  me_handler : forall msg, w_handler s = HPush msg -> server_msg s msg;
  me_incoming : forall p, p ∈ w_incoming s \/ w_handler s = HHandle p \/ k_read (w_conn s) = RPut p -> has_id (w_requests s) p;
  me_requests : forall c cl, w_clients s !! c = Some cl -> (cl_request cl < length (w_requests s))%nat
}.

(** Requests are only added, and an id is never removed. *)
Definition requests_grow (l l' : list WebSocketRequestMessage) : Prop :=
  (length l <= length l')%nat /\ forall p, has_id l p -> has_id l' p.

Lemma requests_grow_refl l : requests_grow l l.
Proof. by split. Qed.
Lemma requests_grow_app l r : requests_grow l (l ++ [r]).
Proof.
  split; [rewrite length_app; lia|]. unfold has_id. intros p Hp. rewrite lookup_app_l; [done|].
  apply not_ge. intros H. rewrite lookup_ge_None_2 in Hp by lia. by destruct Hp.
Qed.
Lemma requests_grow_alter f l p : (forall r, is_Some (rq_Id r) -> is_Some (rq_Id (f r))) -> requests_grow l (alter f p l).
Proof.
  intros Hf. split; [by rewrite length_alter|]. unfold has_id. intros q. rewrite list_lookup_alter. case_decide; [subst q|done].
  destruct (l !! p) as [r|]; cbn; [apply Hf|done].
Qed.
Lemma add_auth_id auth r : rq_Id (add_auth auth r) = rq_Id r.
Proof. by destruct auth. Qed.
#[local] Hint Resolve requests_grow_refl requests_grow_app : core.

Lemma server_msg_grow s s' msg : requests_grow (w_requests s) (w_requests s') -> server_msg s msg -> server_msg s' msg.
Proof. intros [_ H] (r & p & -> & Hp & Hr). exists r, p. auto. Qed.

(** A step that leaves the callers and the write loop alone. *)
Lemma messages_frame s s' : Messages s -> w_clients s' = w_clients s -> requests_grow (w_requests s) (w_requests s') ->
  (k_write (w_conn s') = k_write (w_conn s) \/ (forall msg, k_write (w_conn s') <> WGot msg)) ->
  (forall msg, w_handler s' = HPush msg -> server_msg s' msg) ->
  (forall p, p ∈ w_incoming s' \/ w_handler s' = HHandle p \/ k_read (w_conn s') = RPut p ->
    (p ∈ w_incoming s \/ w_handler s = HHandle p \/ k_read (w_conn s) = RPut p) \/ has_id (w_requests s') p) -> Messages s'.
Proof.
  intros [M1 M2 M3 M4 M5] E1 Hg Hk Hh Hi. constructor; rewrite ?E1; auto.
  - intros msg Hm. destruct Hk as [Hk|Hk]; [|by destruct (Hk msg)]. rewrite Hk in Hm.
    destruct (M2 msg Hm) as [?|?]; [by left|]. right. by eapply server_msg_grow.
  - intros p [Hp%M4|?]%Hi; [|done]. by apply Hg.
  - intros c cl Hc%M5. destruct Hg. lia.
Qed.

Lemma messages_same s s' : Messages s -> w_clients s' = w_clients s -> w_requests s' = w_requests s ->
  w_handler s' = w_handler s -> w_incoming s' = w_incoming s -> 
  (k_write (w_conn s') = k_write (w_conn s) \/ (forall msg, k_write (w_conn s') <> WGot msg)) ->
  (k_read (w_conn s') = k_read (w_conn s) \/ (forall p, k_read (w_conn s') <> RPut p)) -> Messages s'.
Proof.
  intros HM E1 E2 E3 E4 Hk Hr. apply (messages_frame s); [done|done|by rewrite E2|done|..].
  - intros msg. rewrite E3. intros Hm. apply (server_msg_grow s); [by rewrite E2|]. by apply HM.
  - rewrite E3, E4. intros p Hp. left. destruct Hr as [Hr|Hr]; [by rewrite Hr in Hp|].
    destruct Hp as [?|[?|Hp]]; auto. by destruct (Hr p).
Qed.

(** A caller moves; if the write loop has its message it stays in its wait. *)
Lemma messages_client s s' c cl cl' : Messages s -> w_clients s !! c = Some cl -> w_clients s' = <[c := cl']> (w_clients s) ->
  cl_request cl' = cl_request cl -> requests_grow (w_requests s) (w_requests s') ->
  k_write (w_conn s') = k_write (w_conn s) -> k_read (w_conn s') = k_read (w_conn s) ->
  w_handler s' = w_handler s -> w_incoming s' = w_incoming s ->
  (forall msg, cl_pc cl' = CSelect msg -> exists ch, client_msg cl' ch msg) ->
  (forall msg ch, k_write (w_conn s) = WGot msg -> cl_pc cl = CWait ch -> sm_ResponseChannel msg <> Some ch) -> Messages s'.
Proof.
  intros [M1 M2 M3 M4 M5] Hc E1 E2 Hg E3 E4 E5 E6 Hsel Hw. pose proof (lookup_lt_Some _ _ _ Hc) as Hlt. constructor.
  - rewrite E1. intros c0 cl0 msg [(-> & <- & _)|[? ?]]%list_lookup_insert_Some; [auto|by eapply M1].
  - rewrite E3. intros msg Hm. destruct (M2 msg Hm) as [(c0 & cl0 & ch & H1 & H2 & H3)|?]; [|right; by eapply server_msg_grow].
    left. exists c0, cl0, ch. rewrite E1. split; [|done]. rewrite list_lookup_insert_ne; [done|]. intros ->.
    assert (cl0 = cl) as -> by congruence. apply (Hw msg ch Hm H2). by destruct H3 as [t ->].
  - rewrite E5. intros msg Hm. eapply server_msg_grow; [done|]. by apply M3.
  - rewrite E4, E5, E6. intros p Hp%M4. by apply Hg.
  - rewrite E1. intros c0 cl0 [(-> & <- & _)|[_ Hc0]]%list_lookup_insert_Some; destruct Hg as [Hl _].
    + apply M5 in Hc. rewrite E2. lia.
    + apply M5 in Hc0. lia.
Qed.

(** The write loop takes a message. *)
Lemma messages_take s s' msg : Messages s -> w_clients s' = w_clients s -> w_requests s' = w_requests s ->
  (forall m, w_handler s' = HPush m -> w_handler s = HPush m) -> w_incoming s' = w_incoming s -> k_read (w_conn s') = k_read (w_conn s) ->
  (forall p, w_handler s' <> HHandle p) -> k_write (w_conn s') = WGot msg -> server_msg s msg -> Messages s'.
Proof.
  intros HM E1 E2 E3 E4 E5 Hh Hw Hs. pose proof HM as [M1 M2 M3 M4 M5]. constructor; rewrite ?E1, ?E2, ?E4, ?E5; auto.
  - intros m Hm. right. assert (m = msg) as -> by congruence. apply (server_msg_grow s); [by rewrite E2|done].
  - intros m Hm%E3%M3. apply (server_msg_grow s); [by rewrite E2|done].
  - intros p [?|[Hp|?]]; [by auto| |by auto]. by destruct (Hh p).
Qed.

Lemma messages_idle s h : Messages s -> h = HSelect \/ h = HExit -> Messages (set_handler h s).
Proof.
  intros HM Hh. apply (messages_frame s); cbn; auto; [by destruct Hh as [-> | ->]|].
  intros q [?|[Hq|?]]; auto. by destruct Hh; subst.
Qed.

Lemma handler_messages l s s' : Messages s -> well_formed (ByHandler l) -> handler_step l s = Some s' -> Messages s'.
Proof.
  intros HM Hl. pose proof HM as [M1 M2 M3 M4 M5]. unfold handler_step.
  destruct (w_handler s) as [|p|msg|] eqn:Hh, l as [|[| |r]| | | |]; try done.
  - destruct (w_incoming s) as [|p rest] eqn:Hi; [done|]. intros [= <-]. apply (messages_frame s); cbn; auto; [done|].
    intros q [Hq|[[= ->]|Hq]]; left; rewrite ?Hi; [left; by right|left; left|auto].
  - destruct (_ || _); [|done]. intros [= <-]. apply messages_idle; auto.
  - intros [= <-]. apply messages_idle; auto.
  - intros [= <-]. apply messages_idle; auto.
  - destruct (_ || _).
    + intros [= <-]. apply messages_idle; auto.
    + intros [= <-]. apply (messages_frame s); cbn; auto.
      * intros msg [= <-]. exists r, p. split_and!; [done| |exact Hl]. apply M4. auto.
      * intros q [?|[?|?]]; auto; done.
  - destruct (k_write (w_conn s)) eqn:Hk; try done. intros [= <-]. apply (messages_take s _ msg); try done. by apply M3.
  - destruct (w_ctx s); [|done]. intros [= <-]. apply messages_idle; auto.
  - destruct (closeEvt s); [|done]. intros [= <-]. apply messages_idle; auto.
Qed.

(** A channel that is not being delivered to is open and empty. *)
Lemma held_empty s o ch st : Owned s -> holds s o ch -> o <> OClosed -> o <> OReader -> w_chans s !! ch = Some st ->
  st = mkChan None false.
Proof.
  intros Hw Ho H1 H2 E. destruct st as [[r|] []]; try done.
  - destruct H1. eapply ow_unique; [done..|]. cbn. by rewrite E.
  - destruct H2. eapply ow_unique; [done..|]. cbn. by rewrite (ow_buf s Hw ch r E).
  - destruct H1. eapply ow_unique; [done..|]. cbn. by rewrite E.
Qed.

(** A caller that was pushed. *)
Lemma push_messages c cl msg ch s : Messages s -> w_clients s !! c = Some cl -> cl_pc cl = CSelect msg ->
  k_write (w_conn s) = WSelect -> sm_ResponseChannel msg = Some ch -> Messages (set_write (WGot msg) (set_pc c (CWait ch) s)).
Proof.
  intros [M1 M2 M3 M4 M5] Hc Hpc Hk Hm. erewrite set_pc_insert by done. pose proof (lookup_lt_Some _ _ _ Hc) as Hlt.
  destruct (M1 c cl msg Hc Hpc) as (ch' & t & Hmsg). rewrite Hmsg in Hm. injection Hm as ->. constructor; cbn.
  - intros c0 cl0 m [(-> & <- & _)|[? ?]]%list_lookup_insert_Some Hp; [done|by eapply M1].
  - intros m [= <-]. left. eexists c, _, ch. rewrite list_lookup_insert_eq by done. split_and!; [done..|]. by exists t.
  - exact M3.
  - exact M4.
  - intros c0 cl0 [(-> & <- & _)|[? ?]]%list_lookup_insert_Some; [|by eapply M5]. by apply M5 in Hc.
Qed.

Lemma client_messages c l s s' : Owned s -> Messages s -> client_step c l s = Some s' -> Messages s'.
Proof.
  intros Hw HM. unfold client_step. destruct (w_clients s !! c) as [cl|] eqn:Hc; [|done].
  destruct (cl_pc cl) as [|msg|ch|r] eqn:Hpc, l; try done.
  - intros [= <-]. unfold client_attempt. set (pc := if bool_decide _ then _ else _). erewrite set_pc_insert by done.
    eapply (messages_client s _ c cl); [done|done|done|done| |done..| |congruence].
    + cbn. apply requests_grow_alter. intros r. by rewrite add_auth_id.
    + cbn. intros msg. subst pc. destruct (bool_decide _); [done|]. destruct (sendChannel_nil _); [done|]. intros [= <-].
      eexists; eexists. reflexivity.
  - destruct (k_write (w_conn s)) eqn:Hk; try done. destruct (sm_ResponseChannel msg) as [ch|] eqn:Hm; [|done].
    intros [= <-]. by eapply push_messages.
  - destruct (bool_decide _); [|done]. intros [= <-]. erewrite set_pc_insert by done.
    by eapply (messages_client s _ c cl); try done; congruence.
  - destruct (closeEvt s); [|done]. intros [= <-]. erewrite set_pc_insert by done.
    by eapply (messages_client s _ c cl); try done; congruence.
  - destruct (w_chans s !! ch) as [st|] eqn:Hch; [|done]. intros H.
    assert (Hno : forall msg ch', k_write (w_conn s) = WGot msg -> CWait ch = CWait ch' -> sm_ResponseChannel msg <> Some ch').
    { intros msg ch' Hk [= <-] Hm. assert (Ho : holds s OWriter ch) by (cbn; by rewrite Hk).
      rewrite (held_empty s OWriter ch st) in H by done. done. }
    destruct st as [[r|] c'].
    + injection H as <-. erewrite set_pc_insert by done. eapply (messages_client s _ c cl); try done. by rewrite Hpc.
    + destruct c'; [|done]. destruct (w_requests s !! cl_request cl) as [q|]; [|done]. injection H as <-.
      eapply (messages_client s _ c cl); try done; [|unfold nil_response; by repeat case_match|by rewrite Hpc].
      unfold nil_response. by repeat case_match.
Qed.

Lemma write_messages l s s' : Messages s -> write_step false l s = Some s' -> Messages s'.
Proof.
  intros HM. unfold write_step. destruct (k_write (w_conn s)) as [|msg|p|m cb|] eqn:Hk, l as [| |ok]; try done.
  all: assert (Hf : Messages (write_fail s)) by (destruct (write_fail_eq s) as [cause ->]; apply (messages_same s); try done; auto).
  - destruct (k_cause _); [|done]. intros [= <-]. apply (messages_same s); auto.
  - intros [= <-]. destruct (sm_RequestMessage msg) as [p|]; [|done]. destruct (sm_ResponseChannel msg) as [ch|] eqn:Hm.
    + unfold register. rewrite andb_false_r. set (s1 := set_conn (fun k => k_set_channels _ k) _).
      assert (Hgoal : forall s2, (exists cause pc, s2 = set_conn (fun k => k_set_cause cause (k_set_write pc k)) s1
        /\ forall m, pc <> WGot m) -> Messages s2).
      { intros s2 (cause & pc & -> & Hpc). apply (messages_frame s); cbn; auto.
        - by apply requests_grow_alter.
        - intros m Hh%(me_handler s HM). by eapply server_msg_grow; [cbn; by apply requests_grow_alter|]. }
      assert (Hok : Messages (set_write (WRequest p) s1)).
      { apply Hgoal. exists (k_cause (w_conn s)), (WRequest p). by destruct s as [? ? ? ? ? ? ? []]. }
      destruct (sm_RequestTime msg); [|exact Hok]. destruct (_ <? _); [|exact Hok].
      destruct (write_fail_eq s1) as [cause ->]. apply Hgoal. by exists cause, WExit.
    + destruct (sm_ResponseMessage msg) as [resp|]; [|done].
      destruct (w_requests s !! p) as [[? ? ? ? [id|]]|]; [|apply (messages_same s); auto..].
      destruct (CreateWSResponse id (sr_Status resp)); apply (messages_same s); auto.
  - destruct (w_requests s !! p) as [r|]; [|done]. intros [= <-]. destruct ok; [|done]. apply (messages_same s); auto.
  - intros [= <-]. destruct ok; [|done]. apply (messages_same s); auto.
Qed.

Lemma read_messages l s s' : Messages s -> well_formed (ByReader l) -> read_step l s = Some s' -> Messages s'.
Proof.
  intros HM Hl. unfold read_step. destruct (k_read (w_conn s)) as [|p|ch r|ch|] eqn:Hr, l as [m|clean| | | |]; try done.
  all: assert (Hx : forall err, Messages (read_exit err s)) by
    (intros err; destruct (read_exit_eq err s) as (cause & ctx & ->); apply (messages_same s); try done; auto).
  - intros [= <-]. unfold read_frame. destruct (ms_Type m) as [t|]; [|done]. destruct (t =? _).
    + destruct (ms_Request m) as [r|]; [|done].
      destruct (has_field (rq_Id r)) eqn:Hid; cbn [andb]; [|apply (messages_same s); auto].
      destruct (_ && _); [|apply (messages_same s); auto]. apply (messages_frame s); cbn; auto.
      * intros msg Hh%(me_handler s HM). by eapply server_msg_grow; [cbn; apply requests_grow_app|].
      * intros q [?|[?|[= <-]]]; auto. right. unfold has_id. rewrite lookup_app_r, Nat.sub_diag by lia. cbn.
        by destruct (rq_Id r).
    + destruct (t =? _); [|done]. destruct (ms_Response m) as [r|]; [|done]. destruct (rs_Id r) as [id|]; [|done].
      destruct (k_channels (w_conn s) !! id) as [ch|]; [|done]. apply (messages_same s); auto.
  - by intros [= <-].
  - destruct (k_cause _); [|done]. by intros [= <-].
  - destruct (_ <? _)%nat; [|done]. intros [= <-]. apply (messages_frame s); cbn; auto; [apply HM|].
    intros q [[Hq|Hq]%elem_of_app|[?|?]]; auto; [|done]. apply list_elem_of_singleton in Hq as ->. auto.
  - destruct (w_chans s !! ch) as [[[] []]|]; try done; intros [= <-]; apply (messages_same s); auto.
  - intros [= <-]. unfold close_chan. destruct (w_chans s !! ch) as [[? []]|]; apply (messages_same s); auto.
Qed.

Lemma main_messages l s s' : Messages s -> main_step l s = Some s' -> Messages s'.
Proof.
  intros HM. assert (Hret : Messages (main_return s)) by (destruct (main_return_eq s) as [cause ->]; apply (messages_same s); auto).
  unfold main_step. destruct (w_main s) as [| |cause seconds|cause seconds [|ch chs]|cause seconds| |] eqn:Hm, l; try done.
  - destruct (w_ctx s); [|done]. by intros [= <-].
  - destruct (w_ctx s); [done|]. intros [= <-]. destruct (_.2); [|done]. apply (messages_same s); auto.
  - destruct (w_ctx s); [done|]. intros [= <-]. apply (messages_same s); auto; right; by intros ?.
  - destruct (k_cause _); [|done]. intros [= <-]. apply (messages_same s); auto.
  - intros [= <-]. apply (messages_same s); auto.
  - intros [= <-]. rewrite loopCancel_eq. apply (messages_same s); auto.
  - intros [= <-]. unfold close_chan. destruct (w_chans s !! ch) as [[? []]|]; apply (messages_same s); auto.
  - destruct (k_read (w_conn s)), (k_write (w_conn s)); try done. intros [= <-]. destruct (_.2); [|done]. apply (messages_same s); auto.
  - destruct (no_pusher s); [|done]. intros [= <-]. apply (messages_same s); auto.
Qed.
