(* ===== verification/WsCallers.v ===== *)
(** The callers of the websocket machine: whom a response reaches, and that every
    channel a caller waits for is attended to; the invariant of the machine and
    the theorems about every reachable state. *)
From Stdlib Require Import Sorting.Sorted.
From S2P Require Import Prelude GoLib WsMessages WsLoops WsSafety.

#[local] Hint Resolve requests_grow_refl requests_grow_app : core.

(** ** The callers *)

(** The id of the request of caller [c], as the write loop last set it. *)
Definition caller_id (s : WS) (c : nat) : option Z :=
  w_clients s !! c ≫= fun cl => w_requests s !! cl_request cl ≫= rq_Id.

Definition answers (s : WS) (c : nat) (r : WebSocketResponseMessage) : Prop :=
  caller_id s c = rs_Id r /\ is_Some (rs_Id r).

Definition answered (s : WS) (c : nat) (r : WebSocketResponseMessage) : Prop :=
  exists cl, w_clients s !! c = Some cl /\ cl_pc cl = CDone (Sent (Some r)).

(** Somebody will deal with channel [ch], or it was registered too late. *)
Definition attended (s : WS) (ch : nat) : Prop :=
  ch ∈ w_late s \/ exists o, holds s o ch /\ forall c, o <> OSender c.

Definition current (cl : Client) : option nat :=
  match cl_pc cl with CSelect msg => sm_ResponseChannel msg | CWait ch => Some ch | _ => None end.

Record Callers (s : WS) : Prop := mkCallers {
  ca_attended : forall c ch, waits s c ch -> attended s ch;
  ca_range : forall c cl ch, w_clients s !! c = Some cl -> current cl = Some ch -> (ch < length (w_chans s))%nat;
  ca_chan : forall c1 c2 cl1 cl2 ch, w_clients s !! c1 = Some cl1 -> w_clients s !! c2 = Some cl2 ->
    current cl1 = Some ch -> current cl2 = Some ch -> c1 = c2;
  ca_request : forall c1 c2 cl1 cl2, w_clients s !! c1 = Some cl1 -> w_clients s !! c2 = Some cl2 ->
    cl_request cl1 = cl_request cl2 -> c1 = c2;
  ca_map : forall i ch c, k_channels (w_conn s) !! i = Some ch -> waits s c ch -> caller_id s c = Some i;
  ca_read : forall ch r c, k_read (w_conn s) = RDeliver ch r -> waits s c ch -> answers s c r;
  ca_buf : forall ch r b c, w_chans s !! ch = Some (mkChan (Some r) b) -> waits s c ch -> answers s c r;
  ca_done : forall c r, answered s c r -> answers s c r
}.

Lemma waits_current s c ch cl : w_clients s !! c = Some cl -> cl_pc cl = CWait ch -> current cl = Some ch.
Proof. unfold current. by intros _ ->. Qed.

(** A step of the loops: the callers stay, their ids stay, and the channels
    remain attended. *)
Lemma callers_frame s s' : Callers s -> w_clients s' = w_clients s -> (length (w_chans s) <= length (w_chans s'))%nat ->
  (forall c ch, waits s c ch -> attended s ch -> attended s' ch) ->
  (forall c r, answered s c r -> caller_id s' c = caller_id s c) ->
  (forall i ch c, k_channels (w_conn s') !! i = Some ch -> waits s c ch -> caller_id s' c = Some i) ->
  (forall ch r c, k_read (w_conn s') = RDeliver ch r -> waits s c ch -> answers s' c r) ->
  (forall ch r b c, w_chans s' !! ch = Some (mkChan (Some r) b) -> waits s c ch -> answers s' c r) -> Callers s'.
Proof.
  intros [C1 C2 C3 C4 C5 C6 C7 C8] E1 Hl Ha Hid Hm Hr Hb.
  assert (Hw : forall c ch, waits s' c ch -> waits s c ch) by (intros c ch; unfold waits; by rewrite E1).
  constructor; rewrite ?E1; eauto.
  - intros c cl ch H1 H2. pose proof (C2 c cl ch H1 H2). lia.
  - intros c r Ha'. assert (Hc : answered s c r) by (revert Ha'; unfold answered; by rewrite E1).
    destruct (C8 c r Hc) as [H1 H2]. split; [|done]. by rewrite (Hid c r Hc).
Qed.

Lemma answers_ext s s' c r : caller_id s' c = caller_id s c -> answers s c r -> answers s' c r.
Proof. intros E [H1 H2]. split; [by rewrite E|done]. Qed.

Lemma caller_id_ext s s' c : w_clients s' = w_clients s ->
  (forall cl, w_clients s !! c = Some cl -> w_requests s' !! cl_request cl ≫= rq_Id = w_requests s !! cl_request cl ≫= rq_Id) ->
  caller_id s' c = caller_id s c.
Proof. intros E1 E2. unfold caller_id. rewrite E1. destruct (w_clients s !! c) as [cl|] eqn:Hc; [|done]. cbn. by apply E2. Qed.

Lemma waits_is_Some s c ch : waits s c ch -> is_Some (w_clients s !! c).
Proof. intros (cl & -> & _). eauto. Qed.

(** ... and does not touch the ids, the channels or what is being delivered. *)
Lemma callers_same s s' : Callers s -> w_clients s' = w_clients s -> w_chans s' = w_chans s ->
  (forall c ch, waits s c ch -> attended s ch -> attended s' ch) ->
  (forall c, is_Some (w_clients s !! c) -> caller_id s' c = caller_id s c) ->
  k_channels (w_conn s') ⊆ k_channels (w_conn s) ->
  (forall ch r, k_read (w_conn s') = RDeliver ch r -> k_read (w_conn s) = RDeliver ch r) -> Callers s'.
Proof.
  intros HC E1 E2 Ha Hid Hm Hr. apply (callers_frame s); auto; [by rewrite E2|..].
  - intros c r (cl & Hc & _). apply Hid. by exists cl.
  - intros i ch c Hl Hw. rewrite Hid by by eapply waits_is_Some. eapply (ca_map s HC); [by eapply lookup_weaken|done].
  - intros ch r c Hk%Hr Hw. eapply answers_ext; [apply Hid; by eapply waits_is_Some|]. by eapply (ca_read s HC).
  - rewrite E2. intros ch r b c Hl Hw. eapply answers_ext; [apply Hid; by eapply waits_is_Some|]. by eapply (ca_buf s HC).
Qed.

(** A step of caller [c]. *)
Lemma callers_client s s' c cl cl' : Callers s -> w_clients s !! c = Some cl ->
  w_clients s' = <[c := cl']> (w_clients s) -> cl_request cl' = cl_request cl ->
  (forall p, w_requests s' !! p ≫= rq_Id = w_requests s !! p ≫= rq_Id) ->
  k_channels (w_conn s') = k_channels (w_conn s) -> k_read (w_conn s') = k_read (w_conn s) ->
  (length (w_chans s) <= length (w_chans s'))%nat ->
  (forall ch r b, w_chans s' !! ch = Some (mkChan (Some r) b) -> w_chans s !! ch = Some (mkChan (Some r) b)) ->
  (forall ch, attended s ch -> attended s' ch) ->
  (forall ch, current cl' = Some ch -> (ch < length (w_chans s'))%nat /\ (current cl = Some ch \/ (length (w_chans s) <= ch)%nat)) ->
  (forall ch, cl_pc cl' = CWait ch -> attended s' ch /\ (forall i, k_channels (w_conn s) !! i <> Some ch)
    /\ reader_chan (k_read (w_conn s)) <> Some ch /\ forall r b, w_chans s !! ch <> Some (mkChan (Some r) b)) ->
  (forall r, cl_pc cl' = CDone (Sent (Some r)) -> answers s c r) -> Callers s'.
Proof.
  intros HC Hc E1 E2 E3 E4 E5 Hl Hb Ha Hcur Hwt Hd. pose proof HC as [C1 C2 C3 C4 C5 C6 C7 C8].
  pose proof (lookup_lt_Some _ _ _ Hc) as Hlt.
  assert (Hid : forall c0, caller_id s' c0 = caller_id s c0).
  { intros c0. unfold caller_id. rewrite E1. destruct (decide (c0 = c)) as [->|].
    - rewrite list_lookup_insert_eq, Hc by done. cbn. by rewrite E2, E3.
    - rewrite list_lookup_insert_ne by done. destruct (w_clients s !! c0); [|done]. cbn. by rewrite E3. }
  assert (Hlk : forall c0 cl0, w_clients s' !! c0 = Some cl0 -> (c0 = c /\ cl0 = cl') \/ (c0 <> c /\ w_clients s !! c0 = Some cl0)).
  { intros c0 cl0. rewrite E1. intros [(-> & <- & _)|[? ?]]%list_lookup_insert_Some; auto. }
  assert (Hw : forall c0 ch, waits s' c0 ch -> (c0 = c /\ cl_pc cl' = CWait ch) \/ (c0 <> c /\ waits s c0 ch)).
  { intros c0 ch (cl0 & [[-> ->]|[? ?]]%Hlk & ?); [by left|right]. split; [done|by exists cl0]. }
  constructor.
  - intros c0 ch [[-> Hp]|[Hne Hp]]%Hw; [by apply Hwt|]. by eapply Ha, C1.
  - intros c0 cl0 ch [[-> ->]|[? H0]]%Hlk Hcu; [by apply Hcur|]. pose proof (C2 _ _ _ H0 Hcu). lia.
  - intros c1 c2 cl1 cl2 ch [[-> ->]|[? H1]]%Hlk [[-> ->]|[? H2]]%Hlk Hc1 Hc2; [done|..|by eapply C3].
    + destruct (Hcur ch Hc1) as [_ [Ho|Ho]]; [by eapply C3|]. pose proof (C2 _ _ _ H2 Hc2). lia.
    + destruct (Hcur ch Hc2) as [_ [Ho|Ho]]; [by eapply C3|]. pose proof (C2 _ _ _ H1 Hc1). lia.
  - intros c1 c2 cl1 cl2 [[-> ->]|[? H1]]%Hlk [[-> ->]|[? H2]]%Hlk Hrq; [done|..|by eapply C4];
      eapply C4; try done; congruence.
  - rewrite E4. intros i ch c0 Hm [[-> Hp]|[Hne Hp]]%Hw; [|rewrite Hid; by eapply C5]. 
    destruct (Hwt ch Hp) as (_ & Hx & _). by destruct (Hx i).
  - rewrite E5. intros ch r c0 Hm [[-> Hp]|[Hne Hp]]%Hw; [|eapply answers_ext; [apply Hid|by eapply C6]].
    destruct (Hwt ch Hp) as (_ & _ & Hx & _). rewrite Hm in Hx. done.
  - intros ch r b c0 Hm%Hb [[-> Hp]|[Hne Hp]]%Hw; [|eapply answers_ext; [apply Hid|by eapply C7]].
    destruct (Hwt ch Hp) as (_ & _ & _ & Hx). by destruct (Hx r b).
  - intros c0 r (cl0 & [[-> ->]|[Hne H0]]%Hlk & Hp); (eapply answers_ext; [apply Hid|]); [by apply Hd|]. apply C8. by exists cl0.
Qed.

(** Holding is not affected by what callers and channels do otherwise. *)
Lemma attended_ext s s' ch : w_late s' = w_late s -> k_channels (w_conn s') = k_channels (w_conn s) ->
  k_read (w_conn s') = k_read (w_conn s) -> main_chans (w_main s') = main_chans (w_main s) ->
  (writer_chan (k_write (w_conn s)) = Some ch -> writer_chan (k_write (w_conn s')) = Some ch) ->
  (ch_closed <$> w_chans s !! ch = Some true -> ch_closed <$> w_chans s' !! ch = Some true) -> attended s ch -> attended s' ch.
Proof.
  intros E1 E2 E3 E4 E5 E6 [Hl|(o & Ho & Hn)]; [left; by rewrite E1|]. right. exists o. split; [|done].
  destruct o; cbn in *; rewrite ?E2, ?E3, ?E4; auto. by destruct (Hn c).
Qed.

Lemma attempt_callers c cl s : Callers s -> w_clients s !! c = Some cl -> Callers (client_attempt c cl s).
Proof.
  intros HC Hc. unfold client_attempt. set (pc := if bool_decide _ then _ else _). erewrite set_pc_insert by done.
  assert (Hpc : (exists e, pc = CDone (SendFailed e)) \/ exists t, pc = CSelect (mkSend (Some t) (Some (length (w_chans s))) None (Some (cl_request cl)))).
  { subst pc. destruct (bool_decide _); [eauto|]. destruct (sendChannel_nil _); eauto. }
  clearbody pc. eapply (callers_client s _ c cl); try done; cbn.
  - intros p. rewrite list_lookup_alter. case_decide; [subst p|done]. destruct (w_requests s !! _); [|done]. cbn. apply add_auth_id.
  - rewrite length_app. lia.
  - intros ch r b. rewrite lookup_app. destruct (w_chans s !! ch); [done|]. by destruct (ch - _)%nat as [|[]].
  - intros ch. apply attended_ext; try done. cbn. rewrite lookup_app. by destruct (w_chans s !! ch).
  - unfold current. cbn. intros ch. destruct Hpc as [[e ->]|[t ->]]; [done|]. cbn. intros [= <-]. rewrite length_app. cbn. lia.
  - intros ch ->. by destruct Hpc as [[e [=]]|[t [=]]].
  - intros ch ->. by destruct Hpc as [[e [=]]|[t [=]]].
Qed.

Lemma push_callers c cl msg ch s : Owned s -> Callers s -> w_clients s !! c = Some cl -> cl_pc cl = CSelect msg ->
  k_write (w_conn s) = WSelect -> sm_ResponseChannel msg = Some ch -> Callers (set_write (WGot msg) (set_pc c (CWait ch) s)).
Proof.
  intros Hw HC Hc Hpc Hk Hm. erewrite set_pc_insert by done.
  assert (Hh : holds s (OSender c) ch) by (cbn; rewrite Hc; cbn; unfold sending_on; by rewrite Hpc).
  assert (Hcu : current cl = Some ch) by (unfold current; by rewrite Hpc).
  eapply (callers_client s _ c cl); try done; cbn.
  - intros ch'. apply attended_ext; try done. cbn. by rewrite Hk.
  - unfold current at 1. cbn. intros ch' [= <-]. split; [by eapply (ca_range s HC)|by left].
  - intros ch' [= <-]. split_and!.
    + right. exists OWriter. cbn. done.
    + intros i Hi. by pose proof (ow_unique s Hw (OSender c) (OMap i) ch Hh Hi).
    + intros Hr. by pose proof (ow_unique s Hw (OSender c) OReader ch Hh Hr).
    + intros r b Hb. by pose proof (held_empty s (OSender c) ch _ Hw Hh ltac:(done) ltac:(done) Hb).
Qed.

Lemma fail_callers c cl e s : Callers s -> w_clients s !! c = Some cl -> Callers (set_pc c (CDone (SendFailed e)) s).
Proof.
  intros HC Hc. erewrite set_pc_insert by done. eapply (callers_client s _ c cl); try done. intros ch. by apply attended_ext.
Qed.

Lemma client_callers c l s s' : Owned s -> Callers s -> client_step c l s = Some s' -> Callers s'.
Proof.
  intros Hw HC. unfold client_step. destruct (w_clients s !! c) as [cl|] eqn:Hc; [|done].
  destruct (cl_pc cl) as [|msg|ch|r] eqn:Hpc, l; try done.
  - intros [= <-]. by apply attempt_callers.
  - destruct (k_write (w_conn s)) eqn:Hk; try done. destruct (sm_ResponseChannel msg) as [ch|] eqn:Hm; [|done].
    intros [= <-]. by eapply push_callers.
  - destruct (bool_decide _); [|done]. intros [= <-]. by eapply fail_callers.
  - destruct (closeEvt s); [|done]. intros [= <-]. by eapply fail_callers.
  - destruct (w_chans s !! ch) as [[[r|] c']|] eqn:Hch; try done.
    + intros [= <-]. erewrite set_pc_insert by done. eapply (callers_client s _ c cl); try done; cbn.
      * by rewrite length_insert.
      * intros ch' r' b [(-> & [=] & _)|[? ?]]%list_lookup_insert_Some. done.
      * intros ch'. apply attended_ext; try done. cbn. destruct (decide (ch' = ch)) as [->|].
        -- rewrite Hch, list_lookup_insert_eq by (by eapply lookup_lt_Some). done.
        -- by rewrite list_lookup_insert_ne by done.
      * intros r' [= <-]. eapply (ca_buf s HC); [done|]. by exists cl.
    + destruct c'; [|done]. destruct (w_requests s !! cl_request cl) as [q|]; [|done]. intros [= <-].
      assert (Hn : cl_request (nil_response cl q) = cl_request cl /\ current (nil_response cl q) = None
        /\ (forall r, cl_pc (nil_response cl q) <> CDone (Sent (Some r))) /\ forall ch, cl_pc (nil_response cl q) <> CWait ch).
      { unfold nil_response. by repeat case_match. }
      destruct Hn as (H1 & H2 & H3 & H4). eapply (callers_client s _ c cl); try done.
      * intros ch'. by apply attended_ext.
      * congruence.
      * intros ch' Hx. by destruct (H4 ch').
      * intros r Hx. by destruct (H3 r).
Qed.

Lemma handler_callers l s s' : Callers s -> handler_step l s = Some s' -> Callers s'.
Proof.
  intros HC. unfold handler_step. intros H. split_matches_in H; injection H as <-; apply (callers_same s); try done;
    intros c ch _; apply attended_ext; try done.
  by match goal with H : k_write _ = WSelect |- _ => rewrite H end.
Qed.

(** A write loop that lets no message go. *)
Lemma write_pc_callers s s' : Callers s -> writer_chan (k_write (w_conn s)) = None ->
  w_chans s' = w_chans s -> w_clients s' = w_clients s -> w_requests s' = w_requests s -> w_late s' = w_late s ->
  k_channels (w_conn s') = k_channels (w_conn s) -> k_read (w_conn s') = k_read (w_conn s) -> w_main s' = w_main s -> Callers s'.
Proof.
  intros HC Hk E1 E2 E3 E4 E5 E6 E7. apply (callers_same s); try done.
  - intros c ch _. apply attended_ext; rewrite ?E1, ?E7; try done. congruence.
  - intros c _. unfold caller_id. by rewrite E2, E3.
  - by rewrite E5.
  - by rewrite E6.
Qed.

(** The effect of [register] on the shared state. *)
Lemma register_effect msg p ch s : exists cause pc, (pc = WRequest p \/ pc = WExit) /\
  register false msg p ch s =
    set_conn (fun k => k_set_cause cause (k_set_write pc (k_set_channels (<[k_i (w_conn s) := ch]> (k_channels k)) k)))
      (set_requests (alter (set_id (k_i (w_conn s))) p)
        (set_late (fun l => if k_swapped (w_conn s) then ch :: l else l) s)).
Proof.
  unfold register. rewrite andb_false_r. set (s1 := set_conn (fun k => k_set_channels _ k) _).
  assert (Hw : exists cause pc, (pc = WRequest p \/ pc = WExit) /\
    set_write (WRequest p) s1 = set_conn (fun k => k_set_cause cause (k_set_write pc k)) s1).
  { exists (k_cause (w_conn s)), (WRequest p). split; [by left|]. by destruct s as [? ? ? ? ? ? ? []]. }
  destruct (sm_RequestTime msg); [|exact Hw]. destruct (_ <? _); [|exact Hw].
  destruct (write_fail_eq s1) as [cause ->]. exists cause, WExit. auto.
Qed.

Lemma register_callers msg p ch s : Owned s -> Phased s -> Messages s -> Callers s -> k_write (w_conn s) = WGot msg ->
  sm_RequestMessage msg = Some p -> sm_ResponseChannel msg = Some ch -> Callers (register false msg p ch s).
Proof.
  intros Hw Hp HM HC Hk Hmp Hmc. assert (Hh : holds s OWriter ch) by (cbn; by rewrite Hk).
  destruct (me_writer s HM msg Hk) as [(c & cl & ch' & Hc & Hpc & t & Hmsg)|(r & q & Hmsg & _)]; [|by rewrite Hmsg in Hmc].
  rewrite Hmsg in Hmp, Hmc. injection Hmp as <-. injection Hmc as ->.
  destruct (register_effect msg (cl_request cl) ch s) as (cause & pc & Hpc' & ->).
  pose proof (ph_next s Hp) as Hnext. rewrite Hk in Hnext.
  assert (Hne : forall c0 ch0, ch0 <> ch -> waits s c0 ch0 -> c0 <> c) by (intros c0 ch0 Hn (cl0 & H1 & H2) ->; congruence).
  assert (Hid : forall c0, c0 <> c -> caller_id (set_requests (alter (set_id (k_i (w_conn s))) (cl_request cl)) s) c0 = caller_id s c0).
  { intros c0 Hc0. apply caller_id_ext; [done|]. intros cl0 Hcl0. cbn. rewrite list_lookup_alter_ne; [done|].
    intros E. apply Hc0. by eapply (ca_request s HC). }
  apply (callers_frame s); try done.
  - intros c0 ch0 _ [Hl|(o & Ho & Hn)]; [left; cbn; destruct (k_swapped _); [by right|done]|].
    destruct o as [c1| |i| | |].
    + by destruct (Hn c1).
    + right. exists (OMap (k_i (w_conn s))). split; [|done]. cbn in Ho |- *. rewrite lookup_insert_eq. rewrite Hk, Hmsg in Ho. cbn in Ho. congruence.
    + right. exists (OMap i). split; [|done]. cbn in Ho |- *. rewrite lookup_insert_ne; [done|]. congruence.
    + right. by exists OReader.
    + right. by exists OMain.
    + right. by exists OClosed.
  - intros c0 r (cl0 & H1 & H2). apply Hid. intros ->. congruence.
  - cbn. intros i ch0 c0. rewrite lookup_insert. case_decide as Hi.
    + intros [= ->] (cl0 & H1 & H2). subst i. assert (c0 = c) as -> by (by eapply (ca_chan s HC); eauto using waits_current).
      unfold caller_id. cbn. rewrite Hc. cbn. rewrite list_lookup_alter_eq.
      pose proof (me_requests s HM c cl Hc) as Hlt. apply lookup_lt_is_Some in Hlt as [q ->]. done.
    + intros Hl Hwt. assert (Hch : ch0 <> ch) by (intros ->; by pose proof (ow_unique s Hw OWriter (OMap i) ch Hh Hl)).
      etransitivity; [apply Hid; by eapply Hne|]. by eapply (ca_map s HC).
  - cbn. intros ch0 r c0 Hr Hwt. assert (Hch : ch0 <> ch).
    { intros ->. pose proof (ow_unique s Hw OWriter OReader ch Hh) as Hx. cbn in Hx. rewrite Hr in Hx. by specialize (Hx eq_refl). }
    eapply answers_ext; [apply Hid; by eapply Hne|]. by eapply (ca_read s HC).
  - cbn. intros ch0 r b c0 Hb Hwt. assert (Hch : ch0 <> ch).
    { intros ->. by pose proof (held_empty s OWriter ch _ Hw Hh ltac:(done) ltac:(done) Hb). }
    eapply answers_ext; [apply Hid; by eapply Hne|]. by eapply (ca_buf s HC).
Qed.

Lemma write_callers l s s' : Owned s -> Phased s -> Messages s -> Callers s -> write_step false l s = Some s' ->
  w_crash s' = None -> Callers s'.
Proof.
  intros Hw Hp HM HC. unfold write_step. destruct (k_write (w_conn s)) as [|msg|p|m cb|] eqn:Hk, l as [| |ok]; try done.
  - destruct (k_cause _); [|done]. intros [= <-] _. apply (write_pc_callers s); try done. by rewrite Hk.
  - intros [= <-]. destruct (me_writer s HM msg Hk) as [(c & cl & ch & Hc & Hpc & t & Hmsg)|(r & q & Hmsg & _)].
    + rewrite Hmsg. intros _. cbn. eapply register_callers; [done..| | |]; [by rewrite Hk, Hmsg|done..].
    + rewrite Hmsg. cbn. assert (Hn : writer_chan (k_write (w_conn s)) = None) by by rewrite Hk, Hmsg.
      destruct (w_requests s !! q) as [[? ? ? ? [id|]]|]; [|done..]. destruct (CreateWSResponse id (sr_Status r)); [|done].
      intros _. by apply (write_pc_callers s).
  - assert (Hn : writer_chan (k_write (w_conn s)) = None) by by rewrite Hk.
    destruct (w_requests s !! p) as [r|]; [|done]. intros [= <-] _. destruct ok; [by apply (write_pc_callers s)|].
    destruct (write_fail_eq s) as [cause ->]. by apply (write_pc_callers s).
  - assert (Hn : writer_chan (k_write (w_conn s)) = None) by by rewrite Hk.
    intros [= <-] _. destruct ok; [by apply (write_pc_callers s)|].
    destruct (write_fail_eq s) as [cause ->]. by apply (write_pc_callers s).
Qed.

(** The read loop, between frames. *)
Lemma read_pc_callers s s' : Callers s -> reader_chan (k_read (w_conn s)) = None -> reader_chan (k_read (w_conn s')) = None ->
  w_chans s' = w_chans s -> w_clients s' = w_clients s ->
  (forall p, (p < length (w_requests s))%nat -> w_requests s' !! p = w_requests s !! p) ->
  Messages s -> w_late s' = w_late s ->
  k_channels (w_conn s') = k_channels (w_conn s) -> k_write (w_conn s') = k_write (w_conn s) -> w_main s' = w_main s -> Callers s'.
Proof.
  intros HC Hk Hk' E1 E2 E3 HM E4 E5 E6 E7. apply (callers_same s); try done.
  - intros c ch _ [Hl|(o & Ho & Hn)]; [left; by rewrite E4|]. right. exists o. split; [|done].
    destruct o; cbn in Ho |- *; rewrite ?E1, ?E2, ?E5, ?E6, ?E7; try done. congruence.
  - intros c _. apply caller_id_ext; [done|]. intros cl Hc. rewrite E3; [done|]. by eapply me_requests.
  - by rewrite E5.
  - intros ch r Hr. by rewrite Hr in Hk'.
Qed.

Lemma frame_callers m s : Messages s -> Callers s -> k_read (w_conn s) = RRead -> w_crash (read_frame m s) = None ->
  Callers (read_frame m s).
Proof.
  intros HM HC Hr. assert (Hk : reader_chan (k_read (w_conn s)) = None) by by rewrite Hr.
  assert (Hex : Callers (read_exit true s)).
  { destruct (read_exit_eq true s) as (cause & ctx & ->). by apply (read_pc_callers s). }
  unfold read_frame. destruct (ms_Type m) as [t|]; [|done]. destruct (t =? _).
  - destruct (ms_Request m) as [r|]; [|done]. destruct (_ && _ && _); [|done]. intros _. apply (read_pc_callers s); try done.
    cbn. intros p Hp. by rewrite lookup_app_l.
  - destruct (t =? _); [|done]. destruct (ms_Response m) as [r|]; [|done]. destruct (rs_Id r) as [id|] eqn:Hid; [|done].
    destruct (k_channels (w_conn s) !! id) as [ch|] eqn:Hm; [|done]. intros _. apply (callers_frame s); try done.
    + intros c ch' _ [Hl|(o & Ho & Hn)]; [by left|]. destruct o as [c1| |i| | |].
      * by destruct (Hn c1).
      * right. by exists OWriter.
      * cbn in Ho. destruct (decide (i = id)) as [->|Hne]; [right; exists OReader; cbn; split; [congruence|done]|].
        right. exists (OMap i). cbn. by rewrite lookup_delete_ne.
      * cbn in Ho. by rewrite Hr in Ho.
      * right. by exists OMain.
      * right. by exists OClosed.
    + cbn. intros i ch' c. rewrite lookup_delete. case_decide; [done|]. apply (ca_map s HC).
    + cbn. intros ch' r' c [= <- <-] Hw. split; [|by rewrite Hid]. rewrite Hid. by eapply (ca_map s HC).
    + apply (ca_buf s HC).
Qed.

(** A goroutine that holds a channel closes it. *)
Lemma close_callers s s' ch b : Callers s -> w_chans s !! ch = Some (mkChan b false) ->
  w_chans s' = <[ch := mkChan b true]> (w_chans s) -> w_clients s' = w_clients s -> w_requests s' = w_requests s ->
  w_late s' = w_late s -> k_channels (w_conn s') = k_channels (w_conn s) -> k_write (w_conn s') = k_write (w_conn s) ->
  (forall ch', ch' <> ch -> reader_chan (k_read (w_conn s)) = Some ch' -> reader_chan (k_read (w_conn s')) = Some ch') ->
  (forall ch' r, k_read (w_conn s') = RDeliver ch' r -> k_read (w_conn s) = RDeliver ch' r) ->
  (forall ch', ch' <> ch -> ch' ∈ main_chans (w_main s) -> ch' ∈ main_chans (w_main s')) -> Callers s'.
Proof.
  intros HC Hb E1 E2 E3 E4 E5 E6 Hr Hd Hm. pose proof (lookup_lt_Some _ _ _ Hb) as Hlt.
  assert (Hid : forall c, caller_id s' c = caller_id s c) by (intros c; unfold caller_id; by rewrite E2, E3).
  apply (callers_frame s); try done.
  - by rewrite E1, length_insert.
  - intros c ch' _ Ha. destruct (decide (ch' = ch)) as [->|Hne].
    { right. exists OClosed. split; [|done]. cbn. by rewrite E1, list_lookup_insert_eq. }
    destruct Ha as [Hl|(o & Ho & Hn)]; [left; by rewrite E4|]. right. exists o. split; [|done].
    destruct o; cbn in Ho |- *; rewrite ?E2, ?E5, ?E6; auto. by rewrite E1, list_lookup_insert_ne.
  - rewrite E5. intros i ch' c Hl Hw. rewrite Hid. by eapply (ca_map s HC).
  - intros ch' r c Hk%Hd Hw. eapply answers_ext; [apply Hid|]. by eapply (ca_read s HC).
  - rewrite E1. intros ch' r b' c Hl Hw. eapply answers_ext; [apply Hid|].
    apply list_lookup_insert_Some in Hl as [(-> & [= -> <-] & _)|[_ Hl]]; by eapply (ca_buf s HC).
Qed.

Lemma read_callers l s s' : Owned s -> Messages s -> Callers s -> read_step l s = Some s' -> w_crash s' = None -> Callers s'.
Proof.
  intros Hw HM HC. unfold read_step. destruct (k_read (w_conn s)) as [|p|ch r|ch|] eqn:Hr, l as [m|clean| | | |]; try done.
  - intros [= <-]. by apply frame_callers.
  - intros [= <-] _. destruct (read_exit_eq (negb clean) s) as (cause & ctx & ->). apply (read_pc_callers s); try done. by rewrite Hr.
  - destruct (k_cause _); [|done]. intros [= <-] _. destruct (read_exit_eq true s) as (cause & ctx & ->).
    apply (read_pc_callers s); try done. by rewrite Hr.
  - destruct (_ <? _)%nat; [|done]. intros [= <-] _. apply (read_pc_callers s); try done. by rewrite Hr.
  - destruct (reader_chan_open s ch Hw) as [b Hb]; [by rewrite Hr|]. rewrite Hb. destruct b as [b|]; [done|]. intros [= <-] _.
    pose proof (lookup_lt_Some _ _ _ Hb) as Hlt. apply (callers_frame s); try done.
    + cbn. by rewrite length_insert.
    + intros c ch' _ [Hl|(o & Ho & Hn)]; [by left|]. right. exists o. split; [|done].
      destruct o; try exact Ho; cbn in Ho |- *; [by rewrite Hr in Ho|]. destruct (decide (ch' = ch)) as [->|Hne].
      * by rewrite Hb in Ho.
      * by rewrite list_lookup_insert_ne.
    + cbn. apply (ca_map s HC).
    + cbn. intros ch' r' b' c [(-> & [= -> <-] & _)|[_ Hl]]%list_lookup_insert_Some Hwt; [by eapply (ca_read s HC)|by eapply (ca_buf s HC)].
  - destruct (reader_chan_open s ch Hw) as [b Hb]; [by rewrite Hr|]. rewrite (close_insert s ch b Hb). intros [= <-] _.
    apply (close_callers s _ ch b); try done. cbn. rewrite Hr. cbn. congruence.
Qed.

(** The connection loop, where it closes nothing. *)
Lemma main_pc_callers s s' : Callers s -> main_chans (w_main s) = [] ->
  w_chans s' = w_chans s -> w_clients s' = w_clients s -> w_requests s' = w_requests s -> w_late s' = w_late s ->
  k_channels (w_conn s') = k_channels (w_conn s) -> k_read (w_conn s') = k_read (w_conn s) ->
  k_write (w_conn s') = k_write (w_conn s) -> Callers s'.
Proof.
  intros HC Hm E1 E2 E3 E4 E5 E6 E7. apply (callers_same s); try done.
  - intros c ch _ [Hl|(o & Ho & Hn)]; [left; by rewrite E4|]. right. exists o. split; [|done].
    destruct o; cbn in Ho |- *; rewrite ?E1, ?E2, ?E5, ?E6, ?E7; try done. rewrite Hm in Ho. by apply not_elem_of_nil in Ho.
  - intros c _. unfold caller_id. by rewrite E2, E3.
  - by rewrite E5.
  - by rewrite E6.
Qed.

Lemma swap_callers s cause seconds : Callers s -> main_chans (w_main s) = [] ->
  Callers (set_main (MClosing cause seconds (map_to_list (k_channels (w_conn s))).*2) (set_conn k_set_swapped s)).
Proof.
  intros HC Hm. apply (callers_same s); try done; [|apply map_empty_subseteq].
  intros c ch _ [Hl|(o & Ho & Hn)]; [by left|]. right. destruct o as [c1| |i| | |].
  - by destruct (Hn c1).
  - by exists OWriter.
  - exists OMain. split; [|done]. cbn in Ho |- *. apply list_elem_of_fmap. exists (i, ch). split; [done|]. by apply elem_of_map_to_list.
  - by exists OReader.
  - cbn in Ho. rewrite Hm in Ho. by apply not_elem_of_nil in Ho.
  - by exists OClosed.
Qed.

(** A new connection: what was in the map of the old one was registered late. *)
Lemma dial_callers s loop : Phased s -> Callers s -> w_main s = MTop ->
  Callers (set_main MOpen (set_loop loop (set_conn (fun _ => fresh_conn (w_now s)) s))).
Proof.
  intros Hp HC Hm. destruct (ph_idle s Hp) as [E1 E2]; [by rewrite Hm|].
  assert (Hs : k_swapped (w_conn s) = true) by by rewrite (ph_swapped s Hp), Hm.
  apply (callers_same s); try done; [|apply map_empty_subseteq].
  intros c ch _ [Hl|(o & Ho & Hn)]; [by left|]. destruct o as [c1| |i| | |]; cbn in Ho.
  - by destruct (Hn c1).
  - by rewrite E2 in Ho.
  - left. by eapply (ph_late s Hp).
  - by rewrite E1 in Ho.
  - rewrite Hm in Ho. by apply not_elem_of_nil in Ho.
  - right. by exists OClosed.
Qed.

Lemma main_callers l s s' : Owned s -> Phased s -> Callers s -> main_step l s = Some s' -> Callers s'.
Proof.
  intros Hw Hp HC. unfold main_step.
  destruct (w_main s) as [| |cause seconds|cause seconds [|ch chs]|cause seconds| |] eqn:Hm, l; try done.
  all: try (assert (Hmc : main_chans (w_main s) = []) by by rewrite Hm).
  all: try (assert (Hret : Callers (main_return s)) by (destruct (main_return_eq s) as [c ->]; by apply (main_pc_callers s))).
  - destruct (w_ctx s); [|done]. by intros [= <-].
  - destruct (w_ctx s); [done|]. intros [= <-]. destruct (_.2); [|done]. by apply (main_pc_callers s).
  - destruct (w_ctx s); [done|]. intros [= <-]. by eapply dial_callers.
  - destruct (k_cause _); [|done]. intros [= <-]. by apply (main_pc_callers s).
  - intros [= <-]. by apply swap_callers.
  - intros [= <-]. rewrite loopCancel_eq. by apply (main_pc_callers s).
  - intros [= <-]. destruct (main_chan_open s ch Hw) as [b Hb]; [rewrite Hm; left|]. rewrite (close_insert s ch b Hb).
    apply (close_callers s _ ch b); try done. intros ch' Hne. rewrite Hm. cbn. by intros [->|?]%elem_of_cons.
  - destruct (k_read (w_conn s)), (k_write (w_conn s)) eqn:?; try done. intros [= <-]. destruct (_.2); [|done]. by apply (main_pc_callers s).
  - destruct (no_pusher s); [|done]. intros [= <-]. by apply (main_pc_callers s).
Qed.

(** ** The invariant *)
Record Inv (s : WS) : Prop := mkInv {
  in_owned : Owned s;
  in_phased : Phased s;
  in_messages : Messages s;
  in_callers : Callers s;
  in_crash : w_crash s = None
}.

(** Only steps of the loops can crash, and they do not. *)
Lemma write_no_crash l s s' : Messages s -> w_crash s = None -> write_step false l s = Some s' -> w_crash s' = None.
Proof.
  intros HM Hc. unfold write_step. assert (Hf : w_crash (write_fail s) = None) by (by destruct (write_fail_eq s) as [cause ->]).
  destruct (k_write (w_conn s)) as [|msg|p|m cb|] eqn:Hk, l as [| |ok]; try done.
  - destruct (k_cause _); [|done]. by intros [= <-].
  - intros [= <-]. destruct (me_writer s HM msg Hk) as [(c & cl & ch & _ & _ & t & ->)|(r & q & -> & Hid & Hst)]; cbn.
    + destruct (register_effect (mkSend (Some t) (Some ch) None (Some (cl_request cl))) (cl_request cl) ch s) as (cause & pc & _ & ->). done.
    + unfold has_id in Hid. destruct (w_requests s !! q) as [[? ? ? ? [id|]]|]; [|by destruct Hid..].
      unfold CreateWSResponse. by destruct Hst as [-> | ->].
  - destruct (w_requests s !! p); [|done]. intros [= <-]. by destruct ok.
  - intros [= <-]. by destruct ok.
Qed.

Lemma read_no_crash l s s' : Owned s -> well_formed (ByReader l) -> w_crash s = None -> read_step l s = Some s' -> w_crash s' = None.
Proof.
  intros Hw Hl Hc. unfold read_step.
  assert (Hx : forall err, w_crash (read_exit err s) = None) by (intros err; by destruct (read_exit_eq err s) as (? & ? & ->)).
  destruct (k_read (w_conn s)) as [|p|ch r|ch|] eqn:Hr, l as [m|clean| | | |]; try done.
  - intros [= <-]. unfold read_frame. destruct m as [[t|] mr ms]; [|apply Hx]. cbn [ms_Type ms_Request ms_Response].
    destruct (Z.eqb_spec t WebSocketMessage_REQUEST) as [->|].
    + destruct mr as [r|]; [|apply Hx]. cbn in Hl. by rewrite Hl.
    + destruct (t =? _); [|apply Hx]. destruct ms as [r|]; [|apply Hx]. destruct (rs_Id r) as [id|]; [|apply Hx].
      by destruct (k_channels (w_conn s) !! id).
  - intros [= <-]. apply Hx.
  - destruct (k_cause _); [|done]. intros [= <-]. apply Hx.
  - destruct (_ <? _)%nat; [|done]. by intros [= <-].
  - destruct (reader_chan_open s ch Hw) as [b Hb]; [by rewrite Hr|]. rewrite Hb. destruct b; [done|]. by intros [= <-].
  - destruct (reader_chan_open s ch Hw) as [b Hb]; [by rewrite Hr|]. rewrite (close_insert s ch b Hb). by intros [= <-].
Qed.

Lemma main_no_crash l s s' : Owned s -> w_crash s = None -> main_step l s = Some s' -> w_crash s' = None.
Proof.
  intros Hw Hc. unfold main_step. assert (Hret : w_crash (main_return s) = None) by (by destruct (main_return_eq s) as [c ->]).
  destruct (w_main s) as [| |cause seconds|cause seconds [|ch chs]|cause seconds| |] eqn:Hm, l; try done.
  7: { destruct (main_chan_open s ch Hw) as [b Hb]; [rewrite Hm; left|]. rewrite (close_insert s ch b Hb). by intros [= <-]. }
  all: intros H; split_matches_in H; by injection H as <-.
Qed.

Lemma step_no_crash l s s' : Owned s -> Messages s -> well_formed l -> w_crash s = None -> step false l s = Some s' -> w_crash s' = None.
Proof.
  intros Hw HM Hl Hc. unfold step. rewrite Hc. destruct l as [req|c tl|c cl|hl|wl|rl|ml| | | |d].
  - by intros [= <-].
  - by intros [= <-].
  - unfold client_step. intros H. split_matches_in H; by injection H as <-.
  - unfold handler_step. intros H. split_matches_in H; by injection H as <-.
  - by apply write_no_crash.
  - by apply read_no_crash.
  - by apply main_no_crash.
  - intros [= <-]. by rewrite cancel_eq.
  - intros [= <-]. by rewrite cancel_eq.
  - intros [= <-]. by rewrite loopCancel_eq.
  - destruct (0 <? d); [|done]. by intros [= <-].
Qed.

(** *** Callers that arrive, and contexts that end *)
Lemma call_inv s req : Inv s ->
  Inv (set_clients (fun l => l ++ [mkClient (length (w_requests s)) O None CStart]) (set_requests (fun l => l ++ [req]) s)).
Proof.
  intros [Hw Hp HM HC Hc]. set (s' := set_clients _ _).
  assert (Hlk : forall c cl, w_clients s' !! c = Some cl -> w_clients s !! c = Some cl \/
    (c = length (w_clients s) /\ cl = mkClient (length (w_requests s)) O None CStart)).
  { cbn. intros c cl [?|[Hge Hl]]%lookup_app_Some; [by left|]. right. apply list_lookup_singleton_Some in Hl as [Hz <-].
    split; [lia|done]. }
  assert (Hwt : forall c ch, waits s' c ch -> waits s c ch).
  { intros c ch (cl & [Hcl|[-> ->]]%Hlk & Hpc); [by exists cl|done]. }
  assert (Hid : forall c cl, w_clients s !! c = Some cl -> caller_id s' c = caller_id s c).
  { intros c cl Hcl. pose proof (me_requests s HM c cl Hcl) as Hlt. unfold caller_id. cbn.
    rewrite lookup_app_l by (by eapply lookup_lt_Some). rewrite Hcl. cbn. by rewrite lookup_app_l. }
  assert (Hidw : forall c ch, waits s c ch -> caller_id s' c = caller_id s c) by (intros c ch (cl & Hcl & _); by eapply Hid).
  constructor; [| | | |done].
  - apply (owned_release s); [done| |done|apply Hw|apply Hw]. intros [] ch Ho; try exact Ho. cbn in Ho |- *.
    destruct (w_clients s' !! c) as [cl|] eqn:Hcl; cbn in Hcl; rewrite Hcl in Ho; [|done]. by apply Hlk in Hcl as [->|[_ ->]].
  - by apply (phased_frame s).
  - destruct HM as [M1 M2 M3 M4 M5]. constructor.
    + intros c cl msg [Hcl|[-> ->]]%Hlk Hpc; [by eapply M1|done].
    + intros msg [(c & cl & ch & H1 & H2)|Hm]%M2; [left; exists c, cl, ch; split; [|done]; cbn; by apply lookup_app_l_Some|].
      right. eapply server_msg_grow; [apply requests_grow_app|done].
    + intros msg Hm%M3. eapply server_msg_grow; [apply requests_grow_app|done].
    + intros p Hm%M4. by apply (requests_grow_app (w_requests s) req).
    + cbn. intros c cl. rewrite length_app. cbn. intros [Hcl%M5|[-> ->]]%Hlk; [lia|]. cbn. lia.
  - pose proof HC as [C1 C2 C3 C4 C5 C6 C7 C8]. constructor.
    + intros c ch Hx%Hwt%C1. by apply (attended_ext s).
    + intros c cl ch [Hcl|[-> ->]]%Hlk Hcu; [by eapply C2|done].
    + intros c1 c2 cl1 cl2 ch [H1|[-> ->]]%Hlk [H2|[-> ->]]%Hlk; [by eapply C3|done..].
    + intros c1 c2 cl1 cl2 [H1|[-> ->]]%Hlk [H2|[-> ->]]%Hlk; [by eapply C4|..|done]; cbn; intros Hrq.
      * pose proof (me_requests s HM _ _ H1). lia.
      * pose proof (me_requests s HM _ _ H2). lia.
    + intros i ch c Hl Hx%Hwt. rewrite (Hidw c ch Hx). by eapply C5.
    + intros ch r c Hl Hx%Hwt. eapply answers_ext; [by eapply Hidw|]. by eapply C6.
    + intros ch r b c Hl Hx%Hwt. eapply answers_ext; [by eapply Hidw|]. by eapply C7.
    + intros c r (cl & [Hcl|[-> ->]]%Hlk & Hpc); [|done]. eapply answers_ext; [by eapply Hid|]. apply C8. by exists cl.
Qed.

Lemma ctx_inv s c b : Inv s -> Inv (client_ctx_done c b s).
Proof.
  intros [Hw Hp HM HC Hc]. set (s' := client_ctx_done c b s).
  assert (Hlk : forall c0 cl, w_clients s' !! c0 = Some cl -> exists cl0, w_clients s !! c0 = Some cl0
    /\ cl_pc cl0 = cl_pc cl /\ cl_request cl0 = cl_request cl).
  { cbn. intros c0 cl. rewrite list_lookup_alter. case_decide; [subst|eauto]. intros (cl0 & -> & ?)%fmap_Some; subst. eauto. }
  assert (Hlk' : forall c0 cl, w_clients s !! c0 = Some cl -> exists cl0, w_clients s' !! c0 = Some cl0
    /\ cl_pc cl0 = cl_pc cl /\ cl_request cl0 = cl_request cl).
  { cbn. intros c0 cl Hcl. rewrite list_lookup_alter. case_decide; [subst; rewrite Hcl; by eexists|eauto]. }
  assert (Hwt : forall c ch, waits s' c ch -> waits s c ch).
  { intros c0 ch (cl & (cl0 & H1 & H2 & _)%Hlk & Hpc). exists cl0. by rewrite H2. }
  assert (Hid : forall c, caller_id s' c = caller_id s c).
  { intros c0. unfold caller_id. cbn. rewrite list_lookup_alter. case_decide; [subst|done]. by destruct (w_clients s !! c0). }
  assert (Hcur : forall cl cl0, cl_pc cl0 = cl_pc cl -> current cl0 = current cl) by (unfold current; by intros ? ? ->).
  constructor; [| | | |done].
  - apply (owned_release s); [done| |done|apply Hw|apply Hw]. intros [] ch Ho; try exact Ho. cbn in Ho |- *.
    rewrite list_lookup_alter in Ho. case_decide; [subst|done]. by destruct (w_clients s !! _).
  - by apply (phased_frame s).
  - destruct HM as [M1 M2 M3 M4 M5]. constructor; auto.
    + intros c0 cl msg (cl0 & H1 & H2 & H3)%Hlk Hpc. unfold client_msg. rewrite <- H3. eapply M1; [done|congruence].
    + intros msg [(c0 & cl & ch & (cl0 & H0 & E1 & E2)%Hlk' & H2 & H3)|Hm]%M2; [left|by right].
      exists c0, cl0, ch. split_and!; [done|congruence|]. unfold client_msg. by rewrite E2.
    + intros c0 cl (cl0 & H1 & H2 & H3)%Hlk. rewrite <- H3. by eapply M5.
  - pose proof HC as [C1 C2 C3 C4 C5 C6 C7 C8]. constructor.
    + intros c0 ch Hx%Hwt%C1. by apply (attended_ext s).
    + intros c0 cl ch (cl0 & H1 & H2 & H3)%Hlk Hcu. eapply C2; [done|]. by rewrite (Hcur cl cl0).
    + intros c1 c2 cl1 cl2 ch (cl3 & H1 & H2 & _)%Hlk (cl4 & H3 & H4 & _)%Hlk Hc1 Hc2.
      eapply C3; [done..| |]; [by rewrite (Hcur cl1 cl3)|by rewrite (Hcur cl2 cl4)].
    + intros c1 c2 cl1 cl2 (cl3 & H1 & _ & H2)%Hlk (cl4 & H3 & _ & H4)%Hlk Hrq. eapply C4; [done..|congruence].
    + intros i ch c0 Hl Hx%Hwt. rewrite Hid. by eapply C5.
    + intros ch r c0 Hl Hx%Hwt. eapply answers_ext; [apply Hid|]. by eapply C6.
    + intros ch r b0 c0 Hl Hx%Hwt. eapply answers_ext; [apply Hid|]. by eapply C7.
    + intros c0 r (cl & (cl0 & H1 & H2 & _)%Hlk & Hpc). eapply answers_ext; [apply Hid|]. apply C8. exists cl0. by rewrite H2.
Qed.

(** Steps that touch neither callers, channels nor loops. *)
Lemma frame_inv s s' : Inv s -> w_requests s' = w_requests s -> w_chans s' = w_chans s -> w_clients s' = w_clients s ->
  w_incoming s' = w_incoming s -> w_handler s' = w_handler s -> (exists cause, w_conn s' = k_set_cause cause (w_conn s)) ->
  w_main s' = w_main s -> w_late s' = w_late s -> w_crash s' = None -> Inv s'.
Proof.
  intros [Hw Hp HM HC Hc] E1 E2 E3 E4 E5 [cause E6] E7 E8 E9. constructor; [| | | |done].
  - apply (owned_release s); [done| |by rewrite E2|rewrite E7; apply Hw|rewrite E2, E6; apply Hw].
    intros [] ch; cbn; by rewrite ?E2, ?E3, ?E6, ?E7.
  - destruct Hp. constructor; rewrite ?E6, ?E7, ?E8; auto.
  - apply (messages_same s); try done; left; by rewrite E6.
  - apply (callers_same s); try done.
    + intros c ch _. apply attended_ext; rewrite ?E2, ?E6, ?E7; done.
    + intros c _. unfold caller_id. by rewrite E1, E3.
    + by rewrite E6.
    + by rewrite E6.
Qed.

Lemma ws_step_inv l s s' : Inv s -> k_i (w_conn s) + 1 < 2 ^ 64 -> well_formed l -> step false l s = Some s' -> Inv s'.
Proof.
  intros HI Hn Hl H. pose proof HI as [Hw Hp HM HC Hc]. pose proof (step_no_crash l s s' Hw HM Hl Hc H) as Hc'.
  unfold step in H. rewrite Hc in H. destruct l as [req|c tl|c cl|hl|wl|rl|ml| | | |d].
  - injection H as <-. by apply call_inv.
  - injection H as <-. by apply ctx_inv.
  - constructor; [by eapply client_owned|by eapply client_phased|by eapply client_messages|by eapply client_callers|done].
  - constructor; [|by eapply handler_phased|by eapply handler_messages|by eapply handler_callers|done].
    eapply handler_owned; [done| |done]. intros msg Hm. by destruct (me_handler s HM msg Hm) as (r & p & -> & _).
  - constructor; [by eapply write_owned|by eapply write_phased|by eapply write_messages|by eapply write_callers|done].
  - constructor; [by eapply read_owned|by eapply read_phased|by eapply read_messages|by eapply read_callers|done].
  - constructor; [|by eapply main_phased|by eapply main_messages|by eapply main_callers|done].
    eapply main_owned; [done| |done]. intros Hm. apply Hp. by rewrite Hm.
  - injection H as <-. rewrite cancel_eq in *. apply (frame_inv s); try done. by eexists.
  - injection H as <-. rewrite cancel_eq in *. apply (frame_inv s); try done. by eexists.
  - injection H as <-. rewrite loopCancel_eq in *. apply (frame_inv s); try done. by eexists.
  - destruct (0 <? d); [|done]. injection H as <-. apply (frame_inv s); try done. eexists. apply same_cause.
Qed.

Lemma start_inv auth : Inv (ws_start auth).
Proof.
  constructor; [| | | |done].
  - constructor; cbn; try done; [| |constructor].
    + by intros [] o2 ch; cbn; rewrite ?lookup_empty; try done; intros ?%not_elem_of_nil.
    + by intros [] ch; cbn; rewrite ?lookup_empty; try done; intros ?%not_elem_of_nil.
  - by constructor.
  - constructor; cbn; try done. intros p [?%not_elem_of_nil|[?|?]]; done.
  - constructor; cbn; try done; by intros ? ? (? & ? & _).
Qed.

Lemma reach_inv auth s : reach auth s -> Inv s.
Proof. induction 1 as [|s l s' Hr IH Hl Hn Hs]; [apply start_inv|]. by eapply ws_step_inv. Qed.

(** ** The numbers of requests *)
Definition request_ids (out : list WebSocketMessage) : list Z := omap (fun m => ms_Request m ≫= rq_Id) out.

Record Numbered (s : WS) : Prop := mkNumbered {
  nu_sorted : StronglySorted Z.lt (request_ids (k_out (w_conn s)));
  nu_below : Forall (fun i => i < k_i (w_conn s)) (request_ids (k_out (w_conn s)));
  nu_request : forall p, k_write (w_conn s) = WRequest p -> w_requests s !! p ≫= rq_Id = Some (k_i (w_conn s));
  nu_response : forall m cb, k_write (w_conn s) = WResponse m cb -> ms_Request m = None
}.

Lemma numbered_frame s s' : Numbered s -> k_out (w_conn s') = k_out (w_conn s) -> k_i (w_conn s') = k_i (w_conn s) ->
  (k_write (w_conn s') = k_write (w_conn s) \/ (forall p, k_write (w_conn s') <> WRequest p) /\ (forall m cb, k_write (w_conn s') <> WResponse m cb)) ->
  (forall p i, w_requests s !! p ≫= rq_Id = Some i -> w_requests s' !! p ≫= rq_Id = Some i) -> Numbered s'.
Proof.
  intros [N1 N2 N3 N4] E1 E2 Hk Hr. constructor; rewrite ?E1, ?E2; auto.
  - intros p Hp. destruct Hk as [Hk|[Hk _]]; [|by destruct (Hk p)]. apply Hr, N3. congruence.
  - intros m cb Hm. destruct Hk as [Hk|[_ Hk]]; [|by destruct (Hk m cb)]. eapply N4. by rewrite <- Hk.
Qed.

Lemma StronglySorted_snoc (l : list Z) x : StronglySorted Z.lt l -> Forall (fun i => i < x) l -> StronglySorted Z.lt (l ++ [x]).
Proof.
  induction 1 as [|y l Hs IH Hy]; intros Hf; [by repeat constructor|]. inversion Hf; subst. cbn. constructor; [by apply IH|].
  apply Forall_app. split; [done|]. by constructor.
Qed.

Lemma numbered_sent s cbs m : Phased s -> k_i (w_conn s) + 1 < 2 ^ 64 -> Numbered s ->
  (ms_Request m ≫= rq_Id = Some (k_i (w_conn s)) \/ ms_Request m = None) -> Numbered (set_callbacks cbs (set_conn (k_sent m) s)).
Proof.
  intros Hp Hn [N1 N2 N3 N4] Hm. pose proof (ph_i s Hp) as Hi. constructor; cbn; try done; unfold request_ids; rewrite omap_app; cbn.
  - destruct Hm as [-> | ->]; cbn; [by apply StronglySorted_snoc|]. by rewrite app_nil_r.
  - rewrite uint64_next by lia. apply Forall_app. split; [eapply Forall_impl; [exact N2|cbn; lia]|].
    destruct Hm as [-> | ->]; cbn; constructor; [lia|done].
Qed.

Lemma register_numbered msg p ch s : Numbered s -> (p < length (w_requests s))%nat -> Numbered (register false msg p ch s).
Proof.
  intros [N1 N2 N3 N4] Hp. destruct (register_effect msg p ch s) as (cause & pc & Hpc & ->). constructor; cbn; auto.
  - intros q Hq. destruct Hpc as [-> | ->]; [|done]. injection Hq as ->. rewrite list_lookup_alter_eq.
    apply lookup_lt_is_Some in Hp as [r ->]. done.
  - intros m cb Hm. by destruct Hpc; subst.
Qed.

Lemma write_numbered l s s' : Inv s -> k_i (w_conn s) + 1 < 2 ^ 64 -> Numbered s -> write_step false l s = Some s' -> Numbered s'.
Proof.
  intros [_ Hp HM _ _] Hn HN. unfold write_step.
  assert (Hf : Numbered (write_fail s)).
  { destruct (write_fail_eq s) as [cause ->]. apply (numbered_frame s); try done. by right. }
  destruct (k_write (w_conn s)) as [|msg|p|m cb|] eqn:Hk, l as [| |ok]; try done.
  - destruct (k_cause _); [|done]. intros [= <-]. apply (numbered_frame s); try done. by right.
  - intros [= <-]. destruct (me_writer s HM msg Hk) as [(c & cl & ch & Hc & _ & t & ->)|(r & q & -> & Hid & Hst)]; cbn.
    + apply register_numbered; [done|]. by eapply me_requests.
    + assert (Hcr : forall c, Numbered (set_crash c s)) by (intros c; apply (numbered_frame s); auto).
      destruct (w_requests s !! q) as [[? ? ? ? [id|]]|]; [|apply Hcr..].
      destruct (CreateWSResponse id (sr_Status r)) as [m|] eqn:Hm; [|apply Hcr].
      destruct HN as [N1 N2 N3 N4]. constructor; cbn; try done. intros m' cb [= <- _]. revert Hm. unfold CreateWSResponse.
      case_match; [done|]. by intros [= <-].
  - destruct (w_requests s !! p) as [r|] eqn:Hr; [|done]. intros [= <-]. destruct ok; [|done].
    change (set_conn ?f s) with (set_callbacks (fun l => l) (set_conn f s)). apply numbered_sent; try done. left. cbn.
    pose proof (nu_request s HN p Hk) as Hx. by rewrite Hr in Hx.
  - intros [= <-]. destruct ok; [|done]. apply numbered_sent; try done. right. exact (nu_response s HN m cb Hk).
Qed.

Lemma client_numbered c l s s' : Numbered s -> client_step c l s = Some s' -> Numbered s'.
Proof.
  intros HN. unfold client_step. destruct (w_clients s !! c) as [cl|] eqn:Hc; [|done].
  destruct (cl_pc cl) as [|msg|ch|r] eqn:Hpc, l; try done.
  - intros [= <-]. apply (numbered_frame s); try done; [by left|]. cbn. intros p i. rewrite list_lookup_alter.
    case_decide; [subst p|done]. destruct (w_requests s !! _); [|done]. cbn. by rewrite add_auth_id.
  - destruct (k_write (w_conn s)) eqn:Hk, (sm_ResponseChannel msg); try done. intros [= <-]. apply (numbered_frame s); try done. by right.
  - destruct (bool_decide _); [|done]. intros [= <-]. apply (numbered_frame s); auto.
  - destruct (closeEvt s); [|done]. intros [= <-]. apply (numbered_frame s); auto.
  - intros H. split_matches_in H; injection H as <-; apply (numbered_frame s); auto.
Qed.

Lemma handler_numbered l s s' : Numbered s -> handler_step l s = Some s' -> Numbered s'.
Proof.
  intros HN. unfold handler_step. intros H. split_matches_in H; injection H as <-; apply (numbered_frame s); auto.
Qed.

Lemma lookup_app_id (l : list WebSocketRequestMessage) r p i : l !! p ≫= rq_Id = Some i -> (l ++ [r]) !! p ≫= rq_Id = Some i.
Proof. rewrite lookup_app. by destruct (l !! p). Qed.

Lemma read_numbered l s s' : Numbered s -> read_step l s = Some s' -> Numbered s'.
Proof.
  intros HN. unfold read_step.
  assert (Hx : forall err, Numbered (read_exit err s)).
  { intros err. destruct (read_exit_eq err s) as (cause & ctx & ->). apply (numbered_frame s); auto. }
  destruct (k_read (w_conn s)) as [|p|ch r|ch|] eqn:Hr, l as [m|clean| | | |]; try done.
  - intros [= <-]. unfold read_frame. destruct (ms_Type m) as [t|]; [|done]. destruct (t =? _).
    + destruct (ms_Request m); [|done]. destruct (_ && _ && _); apply (numbered_frame s); auto. intros p i. apply lookup_app_id.
    + destruct (t =? _); [|done]. destruct (ms_Response m) as [r|]; [|done]. destruct (rs_Id r) as [id|]; [|done].
      destruct (k_channels (w_conn s) !! id); [|done]. apply (numbered_frame s); auto.
  - by intros [= <-].
  - destruct (k_cause _); [|done]. by intros [= <-].
  - destruct (_ <? _)%nat; [|done]. intros [= <-]. apply (numbered_frame s); auto.
  - destruct (w_chans s !! ch) as [[[] []]|]; try done; intros [= <-]; apply (numbered_frame s); auto.
  - intros [= <-]. unfold close_chan. destruct (w_chans s !! ch) as [[? []]|]; apply (numbered_frame s); auto.
Qed.

Lemma main_numbered l s s' : Numbered s -> main_step l s = Some s' -> Numbered s'.
Proof.
  intros HN. assert (Hret : Numbered (main_return s)).
  { destruct (main_return_eq s) as [cause ->]. apply (numbered_frame s); auto. }
  unfold main_step. destruct (w_main s) as [| |cause seconds|cause seconds [|ch chs]|cause seconds| |] eqn:Hm, l; try done.
  - destruct (w_ctx s); [|done]. by intros [= <-].
  - destruct (w_ctx s); [done|]. intros [= <-]. destruct (_.2); [|done]. apply (numbered_frame s); auto.
  - destruct (w_ctx s); [done|]. intros [= <-]. by repeat constructor.
  - destruct (k_cause _); [|done]. intros [= <-]. apply (numbered_frame s); auto.
  - intros [= <-]. apply (numbered_frame s); auto.
  - intros [= <-]. rewrite loopCancel_eq. apply (numbered_frame s); auto.
  - intros [= <-]. unfold close_chan. destruct (w_chans s !! ch) as [[? []]|]; apply (numbered_frame s); auto.
  - destruct (k_read (w_conn s)), (k_write (w_conn s)) eqn:?; try done. intros [= <-]. destruct (_.2); [|done]. apply (numbered_frame s); auto.
  - destruct (no_pusher s); [|done]. intros [= <-]. apply (numbered_frame s); auto.
Qed.

Lemma step_numbered l s s' : Inv s -> k_i (w_conn s) + 1 < 2 ^ 64 -> Numbered s -> step false l s = Some s' -> Numbered s'.
Proof.
  intros HI Hn HN. unfold step. rewrite (in_crash s HI). destruct l as [req|c tl|c cl|hl|wl|rl|ml| | | |d].
  - intros [= <-]. apply (numbered_frame s); auto. intros p i. apply lookup_app_id.
  - intros [= <-]. apply (numbered_frame s); auto.
  - by apply client_numbered.
  - by apply handler_numbered.
  - by apply write_numbered.
  - by apply read_numbered.
  - by apply main_numbered.
  - intros [= <-]. rewrite cancel_eq. apply (numbered_frame s); auto.
  - intros [= <-]. rewrite cancel_eq. apply (numbered_frame s); auto.
  - intros [= <-]. rewrite loopCancel_eq. apply (numbered_frame s); auto.
  - destruct (0 <? d); [|done]. intros [= <-]. apply (numbered_frame s); auto.
Qed.

Lemma reach_numbered auth s : reach auth s -> Numbered s.
Proof.
  induction 1 as [|s l s' Hr IH Hl Hn Hs]; [by repeat constructor|]. eapply step_numbered; [by eapply reach_inv|done..].
Qed.

(** ** What every reachable state satisfies *)

(** The websocket never crashes the bridge: whatever the interleaving of
    callers, loops, reconnects and shutdown, no response channel is closed twice,
    none is written after it was closed and no pointer that is dereferenced is
    nil, as long as the server sends request frames with their fields and
    handlers answer 200 or 400 (and [Set] on a swapped map does not panic). *)
Theorem ws_no_crash auth s : reach auth s -> w_crash s = None.
Proof. intros H. apply in_crash. by eapply reach_inv. Qed.

(** C31: a response reaches the caller whose request has its id: in every
    reachable state, a caller that returned with a response has the id of that
    response in its request, and on a connection no two requests are written
    under the same id (the ids increase). *)
Theorem ws_response_matched auth s : reach auth s ->
  (forall c r, answered s c r -> exists i, rs_Id r = Some i /\ caller_id s c = Some i)
  /\ StronglySorted Z.lt (request_ids (k_out (w_conn s))).
Proof.
  intros H. split; [|by eapply nu_sorted, reach_numbered]. intros c r Ha.
  destruct (ca_done s (in_callers s (reach_inv auth s H)) c r Ha) as [E [i Hi]]. exists i. by rewrite E.
Qed.

(** When a connection has been cleaned up (and until the next one is open)
    every caller that still waits can go on, because its channel is closed,
    unless the write loop registered its request after the cleanup had begun. *)
Theorem ws_cleanup_wakes auth s c ch : reach auth s -> idle (w_main s) = true -> waits s c ch ->
  ch_closed <$> w_chans s !! ch = Some true \/ ch ∈ w_late s.
Proof.
  intros H Hi Hw. destruct (reach_inv auth s H) as [_ Hp _ HC _]. destruct (ph_idle s Hp Hi) as [E1 E2].
  assert (Hs : k_swapped (w_conn s) = true) by (rewrite (ph_swapped s Hp); by destruct (w_main s)).
  destruct (ca_attended s HC c ch Hw) as [?|(o & Ho & Hn)]; [by right|]. destruct o as [c0| |i| | |]; cbn in Ho.
  - by destruct (Hn c0).
  - by rewrite E2 in Ho.
  - right. by eapply (ph_late s Hp).
  - by rewrite E1 in Ho.
  - destruct (w_main s); try done; by apply not_elem_of_nil in Ho.
  - by left.
Qed.
