(* ===== verification/WsLiveness.v ===== *)
(** Liveness of the websocket machine: executions as infinite sequences of steps,
    weak fairness, and that a caller whose request was registered is not left
    waiting when the connection is lost.  Then the two ways in which the code
    does leave goroutines waiting for ever: a request that is registered after
    the cleanup has begun, and a full queue of incoming requests. *)
From S2P Require Import Prelude GoLib WsMessages WsLoops WsSafety WsCallers.

#[global] Instance ws_request_eq_dec : EqDecision WebSocketRequestMessage.
Proof. solve_decision. Defined.
#[global] Instance ws_response_eq_dec : EqDecision WebSocketResponseMessage.
Proof. solve_decision. Defined.
#[global] Instance ws_message_eq_dec : EqDecision WebSocketMessage.
Proof. solve_decision. Defined.
#[global] Instance simple_response_eq_dec : EqDecision SimpleResponse.
Proof. solve_decision. Defined.
#[global] Instance handler_result_eq_dec : EqDecision handler_result.
Proof. solve_decision. Defined.
#[global] Instance client_label_eq_dec : EqDecision client_label.
Proof. solve_decision. Defined.
#[global] Instance handler_label_eq_dec : EqDecision handler_label.
Proof. solve_decision. Defined.
#[global] Instance write_label_eq_dec : EqDecision write_label.
Proof. solve_decision. Defined.
#[global] Instance read_label_eq_dec : EqDecision read_label.
Proof. solve_decision. Defined.
#[global] Instance main_label_eq_dec : EqDecision main_label.
Proof. solve_decision. Defined.
#[global] Instance label_eq_dec : EqDecision label.
Proof. solve_decision. Defined.

#[global] Instance owner_eq_dec : EqDecision owner.
Proof. solve_decision. Defined.

(** ** What a step leaves alone *)
Section Frames.
Context (s s' : WS) (l : label) (HI : Inv s) (Hs : step false l s = Some s').

Lemma step_main : (forall ml, l <> ByMain ml) -> w_main s' = w_main s.
Proof using HI Hs.
  intros Hl. revert Hs. unfold step. rewrite (in_crash s HI). destruct l as [req|c tl|c cl|hl|wl|rl|ml| | | |d].
  all: try (by intros [= <-]; rewrite ?cancel_eq, ?loopCancel_eq).
  - unfold client_step. intros H. split_matches_in H; by injection H as <-.
  - unfold handler_step. intros H. split_matches_in H; by injection H as <-.
  - unfold write_step. destruct (write_fail_eq s) as [cause Hf]. intros H. split_matches_in H; injection H as <-; rewrite ?Hf; try done.
    match goal with |- context [register _ ?m ?p ?ch s] => destruct (register_effect m p ch s) as (? & ? & _ & ->) end. done.
  - unfold read_step. intros H. split_matches_in H; injection H as <-; try done.
    + unfold read_frame. repeat case_match; try done; by destruct (read_exit_eq true s) as (? & ? & ->).
    + by destruct (read_exit_eq (negb clean) s) as (? & ? & ->).
    + by destruct (read_exit_eq true s) as (? & ? & ->).
    + unfold close_chan. by repeat case_match.
  - by destruct (Hl ml).
  - destruct (0 <? d); [|done]. by intros [= <-].
Qed.

(** The loops do not touch the callers. *)
Definition by_caller (l : label) : bool :=
  match l with Call _ | ClientCtx _ _ | ByClient _ _ => true | _ => false end.

Lemma step_clients : by_caller l = false -> w_clients s' = w_clients s.
Proof using HI Hs.
  intros Hl. revert Hs. unfold step. rewrite (in_crash s HI). destruct l as [req|c tl|c cl|hl|wl|rl|ml| | | |d]; try done.
  all: try (by intros [= <-]; rewrite ?cancel_eq, ?loopCancel_eq).
  - unfold handler_step. intros H. split_matches_in H; by injection H as <-.
  - unfold write_step. destruct (write_fail_eq s) as [cause Hf]. intros H. split_matches_in H; injection H as <-; rewrite ?Hf; try done.
    match goal with |- context [register _ ?m ?p ?h s] => destruct (register_effect m p h s) as (? & ? & _ & ->) end. done.
  - unfold read_step. intros H. split_matches_in H; injection H as <-; try done.
    + unfold read_frame. repeat case_match; try done; by destruct (read_exit_eq true s) as (? & ? & ->).
    + by destruct (read_exit_eq (negb clean) s) as (? & ? & ->).
    + by destruct (read_exit_eq true s) as (? & ? & ->).
    + unfold close_chan. by repeat case_match.
  - unfold main_step. intros H. destruct (main_return_eq s) as [cause Hr].
    split_matches_in H; injection H as <-; rewrite ?Hr, ?loopCancel_eq; try done. unfold close_chan. by repeat case_match.
  - destruct (0 <? d); [|done]. by intros [= <-].
Qed.

(** Only its own receive ends the wait of a caller. *)
Lemma step_waits c ch : waits s c ch -> l <> ByClient c Receive -> waits s' c ch.
Proof using HI Hs.
  intros (cl & Hc & Hpc) Hl. destruct (by_caller l) eqn:Hb; [|exists cl; by rewrite step_clients].
  revert Hs. unfold step. rewrite (in_crash s HI). destruct l as [req|c0 tl|c0 l0| | | | | | | |]; try done.
  - intros [= <-]. exists cl. split; [|done]. cbn. by apply lookup_app_l_Some.
  - intros [= <-]. unfold waits. cbn. rewrite list_lookup_alter. case_decide; [subst; rewrite Hc; by eexists|by exists cl].
  - destruct (decide (c0 = c)) as [->|Hne]; [unfold client_step; rewrite Hc, Hpc; by destruct l0|].
    assert (Hins : forall cl' s2, w_clients s2 = <[c0 := cl']> (w_clients s) -> waits s2 c ch).
    { intros cl' s2 E. exists cl. by rewrite E, list_lookup_insert_ne. }
    unfold client_step. destruct (w_clients s !! c0) as [cl0|] eqn:Hc0; [|done]. unfold client_attempt.
    intros H. split_matches_in H; injection H as <-; try (erewrite set_pc_insert by done; by eapply Hins); by eapply Hins.
Qed.

(** A registered channel stays registered until the read loop takes it, as long
    as the connection loop neither swaps the map nor opens a connection. *)
Lemma step_registered i ch : k_channels (w_conn s) !! i = Some ch -> idle (w_main s) = false -> l <> ByMain Swap ->
  k_channels (w_conn s') !! i = Some ch \/ exists r, k_read (w_conn s') = RDeliver ch r.
Proof using HI Hs.
  intros Hm Hi Hl. revert Hs. unfold step. rewrite (in_crash s HI).
  destruct l as [req|c0 tl|c0 l0|hl|wl|rl|ml| | | |d].
  all: try (intros [= <-]; rewrite ?cancel_eq, ?loopCancel_eq; by left).
  - unfold client_step. intros H. split_matches_in H; injection H as <-; by left.
  - unfold handler_step. intros H. split_matches_in H; injection H as <-; by left.
  - unfold write_step. destruct (write_fail_eq s) as [cause Hf]. intros H. split_matches_in H; injection H as <-; rewrite ?Hf; try by left.
    match goal with |- context [register _ ?m ?p ?h s] => destruct (register_effect m p h s) as (? & ? & _ & ->) end.
    left. cbn. rewrite lookup_insert_ne; [done|]. pose proof (ph_next s (in_phased s HI)) as Hx. repeat case_match; congruence.
  - unfold read_step. intros H. split_matches_in H; injection H as <-; try by left.
    + assert (Hx : k_channels (w_conn (read_exit true s)) !! i = Some ch) by (by destruct (read_exit_eq true s) as (? & ? & ->)).
      unfold read_frame. destruct (ms_Type m) as [t|]; [|by left]. destruct (t =? _).
      * left. destruct (ms_Request m) as [r|]; [|done]. by destruct (_ && _ && _).
      * destruct (t =? _); [|by left]. destruct (ms_Response m) as [r|]; [|by left]. destruct (rs_Id r) as [id|]; [|by left].
        destruct (k_channels (w_conn s) !! id) as [ch0|] eqn:Hid; [|by left]. cbn.
        destruct (decide (id = i)) as [->|]; [right; exists r; congruence|left]. by rewrite lookup_delete_ne.
    + destruct (read_exit_eq (negb clean) s) as (? & ? & ->). by left.
    + destruct (read_exit_eq true s) as (? & ? & ->). by left.
    + left. unfold close_chan. by repeat case_match.
  - unfold main_step. intros H. destruct (main_return_eq s) as [cause Hr].
    split_matches_in H; injection H as <-; rewrite ?Hr, ?loopCancel_eq; try done; try (by left).
    left. unfold close_chan. by repeat case_match.
  - destruct (0 <? d); [|done]. intros [= <-]. by left.
Qed.

(** A channel with a response, or a closed one. *)
Definition ready (w : WS) (ch : nat) : Prop :=
  exists st, w_chans w !! ch = Some st /\ st <> mkChan None false.

Lemma ready_insert ch ch0 st0 (w : WS) : w_chans w = <[ch0 := st0]> (w_chans s) -> ready s ch -> st0 <> mkChan None false \/ ch0 <> ch -> ready w ch.
Proof.
  intros E (st & H1 & H2) Hor. unfold ready. rewrite E. destruct (decide (ch = ch0)) as [->|Hne].
  - exists st0. rewrite list_lookup_insert_eq by (by eapply lookup_lt_Some). destruct Hor; done.
  - exists st. by rewrite list_lookup_insert_ne.
Qed.

Lemma close_ready ch ch0 : ready s ch -> ready (close_chan ch0 s) ch.
Proof.
  intros Hr. unfold close_chan. destruct (w_chans s !! ch0) as [[b []]|]; [exact Hr| |exact Hr].
  eapply ready_insert; [done|done|by left].
Qed.

(** It stays ready until its caller receives. *)
Lemma step_ready c ch : waits s c ch -> ready s ch -> l <> ByClient c Receive -> ready s' ch.
Proof using HI Hs.
  intros Hw Hr Hl. revert Hs. unfold step. rewrite (in_crash s HI).
  assert (Hsame : forall s2, w_chans s2 = w_chans s -> ready s2 ch) by (intros s2 E; unfold ready; by rewrite E).
  destruct l as [req|c0 tl|c0 l0|hl|wl|rl|ml| | | |d].
  all: try (intros [= <-]; rewrite ?cancel_eq, ?loopCancel_eq; by apply Hsame).
  - unfold client_step. destruct (w_clients s !! c0) as [cl0|] eqn:Hc0; [|done].
    destruct (cl_pc cl0) as [|msg|ch0|r] eqn:Hpc, l0; try done; intros H.
    + injection H as <-. destruct Hr as (st & H1 & H2). exists st. split; [|done]. cbn. by apply lookup_app_l_Some.
    + split_matches_in H; injection H as <-. by apply Hsame.
    + split_matches_in H; injection H as <-. by apply Hsame.
    + split_matches_in H; injection H as <-. by apply Hsame.
    + split_matches_in H; injection H as <-; [|by apply Hsame]. eapply ready_insert; [done|done|right]. intros ->.
      apply Hl. f_equal. destruct Hw as (cl & H1 & H2). by eapply (ca_chan s (in_callers s HI)); eauto using waits_current.
  - unfold handler_step. intros H. split_matches_in H; injection H as <-; by apply Hsame.
  - unfold write_step. destruct (write_fail_eq s) as [cause Hf]. intros H. split_matches_in H; injection H as <-; rewrite ?Hf; try by apply Hsame.
    match goal with |- context [register _ ?m ?p ?h s] => destruct (register_effect m p h s) as (? & ? & _ & ->) end. by apply Hsame.
  - unfold read_step. intros H. split_matches_in H; injection H as <-; try by apply Hsame.
    + unfold read_frame. repeat case_match; try (by apply Hsame); destruct (read_exit_eq true s) as (? & ? & ->); by apply Hsame.
    + destruct (read_exit_eq (negb clean) s) as (? & ? & ->). by apply Hsame.
    + destruct (read_exit_eq true s) as (? & ? & ->). by apply Hsame.
    + eapply ready_insert; [done|done|by left].
    + by apply close_ready.
  - unfold main_step. intros H. destruct (main_return_eq s) as [cause Hr'].
    split_matches_in H; injection H as <-; rewrite ?Hr', ?loopCancel_eq; try (by apply Hsame). by apply close_ready.
  - destruct (0 <? d); [|done]. intros [= <-]. by apply Hsame.
Qed.

(** The read loop is the only one to finish a delivery. *)
Lemma step_delivering ch r : k_read (w_conn s) = RDeliver ch r -> l <> ByReader Deliver -> k_read (w_conn s') = RDeliver ch r.
Proof using HI Hs.
  intros Hk Hl. revert Hs. unfold step. rewrite (in_crash s HI).
  destruct l as [req|c0 tl|c0 l0|hl|wl|rl|ml| | | |d].
  all: try (by intros [= <-]; rewrite ?cancel_eq, ?loopCancel_eq).
  - unfold client_step. intros H. split_matches_in H; by injection H as <-.
  - unfold handler_step. intros H. split_matches_in H; by injection H as <-.
  - unfold write_step. destruct (write_fail_eq s) as [cause Hf]. intros H. split_matches_in H; injection H as <-; rewrite ?Hf; try done.
    match goal with |- context [register _ ?m ?p ?h s] => destruct (register_effect m p h s) as (? & ? & _ & ->) end. done.
  - unfold read_step. rewrite Hk. by destruct rl.
  - assert (Hnt : w_main s <> MTop) by (intros E; destruct (ph_idle s (in_phased s HI)) as [E1 _]; [by rewrite E|congruence]).
    unfold main_step. intros H. destruct (main_return_eq s) as [cause Hr].
    split_matches_in H; injection H as <-; rewrite ?Hr, ?loopCancel_eq; try done. unfold close_chan. by repeat case_match.
  - destruct (0 <? d); [|done]. by intros [= <-].
Qed.

(** The end of [loopCtx] is final for a connection. *)
Lemma step_cause : w_main s = MOpen -> is_Some (k_cause (w_conn s)) -> is_Some (k_cause (w_conn s')).
Proof using HI Hs.
  intros Hm [cause Hc]. revert Hs. unfold step. rewrite (in_crash s HI).
  assert (Hlc : forall c k, is_Some (k_cause (k_set_cause (Some c) k))) by (intros; by eexists).
  destruct l as [req|c0 tl|c0 l0|hl|wl|rl|ml| | | |d].
  all: try (intros [= <-]; rewrite ?cancel_eq, ?loopCancel_eq; cbn; by eexists).
  - unfold client_step. intros H. split_matches_in H; injection H as <-; cbn; by eexists.
  - unfold handler_step. intros H. split_matches_in H; injection H as <-; cbn; by eexists.
  - assert (Hwf : forall w, is_Some (k_cause (w_conn (write_fail w)))) by (intros w; unfold write_fail; rewrite loopCancel_eq; apply Hlc).
    unfold write_step. intros H. split_matches_in H; injection H as <-; try apply Hwf; try (cbn; by eexists).
    unfold register. rewrite andb_false_r. case_match; [case_match|]; try apply Hwf; cbn; by eexists.
  - assert (Hre : forall err, is_Some (k_cause (w_conn (read_exit err s)))) by (intros err; unfold read_exit; rewrite loopCancel_eq; apply Hlc).
    unfold read_step. intros H. split_matches_in H; injection H as <-; try apply Hre; try (cbn; by eexists).
    + unfold read_frame. repeat case_match; try apply Hre; cbn; by eexists.
    + unfold close_chan. repeat case_match; cbn; by eexists.
  - unfold main_step. rewrite Hm. destruct ml; try done. rewrite Hc. intros [= <-]. cbn. by eexists.
  - destruct (0 <? d); [|done]. intros [= <-]. cbn. by eexists.
Qed.
End Frames.

(** ** Executions and fairness *)

(** An infinite execution; [None] is a pause.  No connection carries 2^64
    messages. *)
Definition execution (auth : option bytes) (tr : nat -> WS) (lab : nat -> option label) : Prop :=
  tr O = ws_start auth /\ forall n, k_i (w_conn (tr n)) + 1 < 2 ^ 64 /\
    match lab n with
    | Some l => well_formed l /\ step false l (tr n) = Some (tr (S n))
    | None => tr (S n) = tr n
    end.

(** An action that stays possible is taken. *)
Definition weakly_fair (tr : nat -> WS) (lab : nat -> option label) (a : label) : Prop :=
  forall n, exists m, (n <= m)%nat /\ (lab m = Some a \/ step false a (tr m) = None).

Section Execution.
Context (auth : option bytes) (tr : nat -> WS) (lab : nat -> option label) (Hex : execution auth tr lab).

Lemma execution_reach n : reach auth (tr n).
Proof using Hex.
  destruct Hex as [H0 Hn]. induction n as [|n IH]; [rewrite H0; constructor|]. destruct (Hn n) as [Hk Hl].
  destruct (lab n) as [l|]; [destruct Hl; by eapply reach_step|by rewrite Hl].
Qed.

Lemma execution_inv n : Inv (tr n).
Proof using Hex. eapply reach_inv, execution_reach. Qed.

(** The rule of weak fairness: [P] lasts until [Q], and the fair action [a] is
    possible while [P] lasts and leads to [Q]. *)
Lemma leads_to (P Q : WS -> Prop) a n : weakly_fair tr lab a ->
  (forall s, Inv s -> P s -> is_Some (step false a s)) ->
  (forall s s', Inv s -> P s -> step false a s = Some s' -> Q s') ->
  (forall s s' l, Inv s -> P s -> l <> a -> step false l s = Some s' -> P s' \/ Q s') ->
  P (tr n) -> exists m, (n <= m)%nat /\ Q (tr m).
Proof using Hex.
  intros Hf Hen Ha Hst HP. pose proof execution_inv as HI. destruct Hex as [_ Hn]. destruct (Hf n) as (m & Hm & Hor).
  assert (Hd : (exists k, (n <= k)%nat /\ Q (tr k)) \/ P (tr m)).
  { clear Hor. induction Hm as [|m Hm IH]; [by right|]. destruct IH as [?|Hp]; [by left|].
    destruct (Hn m) as [_ Hl]. destruct (lab m) as [l|]; [|rewrite Hl; by right]. destruct Hl as [_ Hl].
    assert (Hcase : P (tr (S m)) \/ Q (tr (S m))).
    { destruct (decide (l = a)) as [->|Hne]; [right; by eapply Ha|by eapply Hst]. }
    destruct Hcase as [?|?]; [by right|left; exists (S m); split; [lia|done]]. }
  destruct Hd as [?|HPm]; [done|]. destruct Hor as [Hl|Hno].
  - destruct (Hn m) as [_ Hstep]. rewrite Hl in Hstep. exists (S m). split; [lia|]. by eapply Ha; [apply HI|done|apply Hstep].
  - destruct (Hen (tr m) (HI m) HPm) as [s1 Hs1]. congruence.
Qed.

(** A caller [c] waits for channel [ch]. *)
Context (c ch : nat).

Definition ready_phase (s : WS) : Prop := waits s c ch /\ ready s ch.
Definition deliver_phase (s : WS) : Prop := waits s c ch /\ exists r, k_read (w_conn s) = RDeliver ch r.
Definition closing_phase (k : nat) (s : WS) : Prop :=
  waits s c ch /\ exists cause seconds l1 l2, w_main s = MClosing cause seconds (l1 ++ ch :: l2) /\ length l1 = k.
Definition clean_phase (s : WS) : Prop :=
  waits s c ch /\ (exists cause seconds, w_main s = MClean cause seconds) /\ exists i, k_channels (w_conn s) !! i = Some ch.
Definition lost_phase (s : WS) : Prop :=
  waits s c ch /\ w_main s = MOpen /\ is_Some (k_cause (w_conn s)) /\ exists i, k_channels (w_conn s) !! i = Some ch.

(** Nothing can be received from an open and empty channel. *)
Lemma no_receive s : w_crash s = None -> waits s c ch -> w_chans s !! ch = Some (mkChan None false) -> step false (ByClient c Receive) s = None.
Proof. intros Hc (cl & H1 & H2) H3. unfold step, client_step. by rewrite Hc, H1, H2, H3. Qed.

Lemma empty_waits s s' l : Inv s -> waits s c ch -> (exists o, holds s o ch /\ o <> OClosed /\ (o = OReader -> exists r, k_read (w_conn s) = RDeliver ch r)) ->
  step false l s = Some s' -> waits s' c ch.
Proof.
  intros HI Hw (o & Ho & Hc & Hr) Hs. destruct (decide (l = ByClient c Receive)) as [->|Hne]; [|by eapply step_waits].
  pose proof (in_owned s HI) as HO. pose proof (ow_range s HO o ch Ho) as Hlt. apply lookup_lt_is_Some in Hlt as [st Hst].
  assert (st = mkChan None false) as ->.
  { destruct (decide (o = OReader)) as [->|Hn]; [|by eapply (held_empty s o ch)]. destruct (Hr eq_refl) as [r Hk].
    destruct (reader_chan_open s ch HO) as [b Hb]; [exact Ho|]. assert (st = mkChan b false) as -> by congruence.
    destruct b as [r'|]; [|done]. pose proof (ow_buf s HO ch r' Hst). congruence. }
  rewrite no_receive in Hs; [done|apply HI|done|done].
Qed.

Lemma ready_leads n : weakly_fair tr lab (ByClient c Receive) -> ready_phase (tr n) -> exists m, (n <= m)%nat /\ ~ waits (tr m) c ch.
Proof using Hex.
  intros Hf. apply (leads_to ready_phase (fun s => ~ waits s c ch) (ByClient c Receive)); [done|..].
  - intros s HI [(cl & H1 & H2) ([b cl0] & H3 & H4)]. unfold step, client_step. rewrite (in_crash s HI), H1, H2, H3.
    pose proof (me_requests s (in_messages s HI) c cl H1) as Hlt. apply lookup_lt_is_Some in Hlt as [q ->].
    destruct b; [by eexists|]. destruct cl0; [by eexists|done].
  - intros s s' HI [(cl & H1 & H2) _] Hs. unfold step, client_step in Hs. rewrite (in_crash s HI), H1, H2 in Hs.
    intros (cl' & H3 & H4). pose proof (lookup_lt_Some _ _ _ H1) as Hlt.
    split_matches_in Hs; injection Hs as <-; cbn in H3.
    + rewrite list_lookup_alter_eq, H1 in H3. injection H3 as <-. done.
    + rewrite list_lookup_insert_eq in H3 by done. injection H3 as <-. revert H4. unfold nil_response. by repeat case_match.
  - intros s s' l HI [Hw Hr] Hl Hs. left. split; [by eapply step_waits|by eapply step_ready].
Qed.

Lemma deliver_leads n : weakly_fair tr lab (ByReader Deliver) -> deliver_phase (tr n) -> exists m, (n <= m)%nat /\ ready_phase (tr m).
Proof using Hex.
  intros Hf. apply (leads_to deliver_phase ready_phase (ByReader Deliver)); [done|..].
  - intros s HI [Hw [r Hk]]. unfold step, read_step. rewrite (in_crash s HI), Hk. pose proof (in_owned s HI) as HO.
    destruct (reader_chan_open s ch HO) as [b Hb]; [by rewrite Hk|]. rewrite Hb. destruct b as [r'|]; [|by eexists].
    pose proof (ow_buf s HO ch r' Hb). congruence.
  - intros s s' HI [Hw [r Hk]] Hs. split; [by eapply step_waits|]. unfold step, read_step in Hs. rewrite (in_crash s HI), Hk in Hs.
    pose proof (in_owned s HI) as HO. destruct (reader_chan_open s ch HO) as [b Hb]; [by rewrite Hk|]. rewrite Hb in Hs.
    destruct b as [r'|]; [done|]. injection Hs as <-. eexists. cbn. rewrite list_lookup_insert_eq by (by eapply lookup_lt_Some). done.
  - intros s s' l HI [Hw [r Hk]] Hl Hs. left. split.
    + eapply empty_waits; [done|done| |done]. exists OReader. cbn. rewrite Hk. split_and!; [done|done|]. by eexists.
    + exists r. by eapply step_delivering.
Qed.

Lemma closing_leads k n : weakly_fair tr lab (ByMain CloseNext) -> closing_phase k (tr n) -> exists m, (n <= m)%nat /\ ready_phase (tr m).
Proof using Hex.
  intros Hf. revert n. induction k as [k IH] using lt_wf_ind. intros n HP.
  assert (Hq : exists m, (n <= m)%nat /\ (ready_phase (tr m) \/ exists k', (k' < k)%nat /\ closing_phase k' (tr m))); cycle 1.
  { destruct Hq as (m & Hm & [?|(k' & Hk' & HP')]); [by exists m|]. destruct (IH k' Hk' m HP') as (m' & ? & ?). exists m'. split; [lia|done]. }
  revert HP. apply (leads_to (closing_phase k) (fun s => ready_phase s \/ exists k', (k' < k)%nat /\ closing_phase k' s) (ByMain CloseNext)); [done|..].
  - intros s HI [Hw (cause & seconds & l1 & l2 & Hm & Hk)]. unfold step, main_step. rewrite (in_crash s HI), Hm. destruct l1; by eexists.
  - intros s s' HI [Hw (cause & seconds & l1 & l2 & Hm & Hk)] Hs. assert (Hw' : waits s' c ch) by (by eapply step_waits).
    unfold step, main_step in Hs. rewrite (in_crash s HI), Hm in Hs. pose proof (in_owned s HI) as HO.
    destruct l1 as [|x l1]; cbn in Hs; injection Hs as <-.
    + left. split; [done|]. destruct (main_chan_open s ch HO) as [b Hb]; [rewrite Hm; left|]. rewrite (close_insert s ch b Hb).
      eexists. cbn. rewrite list_lookup_insert_eq by (by eapply lookup_lt_Some). done.
    + right. exists (length l1). split; [cbn in Hk; lia|]. split; [done|]. by exists cause, seconds, l1, l2.
  - intros s s' l HI [Hw (cause & seconds & l1 & l2 & Hm & Hk)] Hl Hs. left. split.
    + eapply empty_waits; [done|done| |done]. exists OMain. cbn. rewrite Hm. split_and!; [apply elem_of_app; right; left|done|done].
    + exists cause, seconds, l1, l2. split; [|done]. rewrite <- Hm. eapply step_main; [done..|]. intros ml ->.
      unfold step, main_step in Hs. rewrite (in_crash s HI), Hm in Hs. destruct l1, ml; done.
Qed.

Lemma clean_leads n : weakly_fair tr lab (ByMain Swap) -> clean_phase (tr n) ->
  exists m, (n <= m)%nat /\ (deliver_phase (tr m) \/ exists k, closing_phase k (tr m)).
Proof using Hex.
  intros Hf. apply (leads_to clean_phase (fun s => deliver_phase s \/ exists k, closing_phase k s) (ByMain Swap)); [done|..].
  - intros s HI [Hw [(cause & seconds & Hm) _]]. unfold step, main_step. rewrite (in_crash s HI), Hm. by eexists.
  - intros s s' HI [Hw [(cause & seconds & Hm) [i Hi]]] Hs. assert (Hw' : waits s' c ch) by (by eapply step_waits). right.
    unfold step, main_step in Hs. rewrite (in_crash s HI), Hm in Hs. injection Hs as <-.
    assert (Hin : ch ∈ (map_to_list (k_channels (w_conn s))).*2).
    { apply list_elem_of_fmap. exists (i, ch). split; [done|]. by apply elem_of_map_to_list. }
    apply list_elem_of_split in Hin as (l1 & l2 & E). exists (length l1). split; [done|]. exists cause, seconds, l1, l2. cbn. by rewrite E.
  - intros s s' l HI [Hw [(cause & seconds & Hm) [i Hi]]] Hl Hs.
    assert (Hw' : waits s' c ch) by (eapply empty_waits; [done|done|by exists (OMap i)|done]).
    destruct (step_registered s s' l HI Hs i ch Hi) as [Hr|[r Hr]]; [by rewrite Hm|done| |right; left; split; [done|by exists r]].
    left. split; [done|]. split; [|by exists i]. exists cause, seconds. rewrite <- Hm. eapply step_main; [done..|]. intros ml ->.
    unfold step, main_step in Hs. rewrite (in_crash s HI), Hm in Hs. by destruct ml.
Qed.

Lemma lost_leads n : weakly_fair tr lab (ByMain LoopDone) -> lost_phase (tr n) ->
  exists m, (n <= m)%nat /\ (deliver_phase (tr m) \/ clean_phase (tr m)).
Proof using Hex.
  intros Hf. apply (leads_to lost_phase (fun s => deliver_phase s \/ clean_phase s) (ByMain LoopDone)); [done|..].
  - intros s HI [Hw (Hm & [cause Hc] & _)]. unfold step, main_step. rewrite (in_crash s HI), Hm, Hc. by eexists.
  - intros s s' HI [Hw (Hm & [cause Hc] & [i Hi])] Hs. assert (Hw' : waits s' c ch) by (by eapply step_waits). right. split; [done|].
    unfold step, main_step in Hs. rewrite (in_crash s HI), Hm, Hc in Hs. injection Hs as <-. split; [by eexists; eexists|by exists i].
  - intros s s' l HI [Hw (Hm & Hc & [i Hi])] Hl Hs.
    assert (Hw' : waits s' c ch) by (eapply empty_waits; [done|done|by exists (OMap i)|done]).
    destruct (step_registered s s' l HI Hs i ch Hi) as [Hr|[r Hr]]; [by rewrite Hm|congruence || by intros ->; unfold step, main_step in Hs; rewrite (in_crash s HI), Hm in Hs| |right; left; split; [done|by exists r]].
    left. split; [done|]. split_and!; [|by eapply step_cause|by exists i]. rewrite <- Hm. eapply step_main; [done..|]. intros ml ->.
    unfold step, main_step in Hs. rewrite (in_crash s HI), Hm in Hs. by destruct ml.
Qed.
End Execution.

Definition fair (tr : nat -> WS) (lab : nat -> option label) (c : nat) : Prop :=
  weakly_fair tr lab (ByClient c Receive) /\ weakly_fair tr lab (ByReader Deliver)
  /\ weakly_fair tr lab (ByMain LoopDone) /\ weakly_fair tr lab (ByMain Swap) /\ weakly_fair tr lab (ByMain CloseNext).

(** The connection is lost, and the main loop has not yet taken the channels
    that wait on it ([SwapData]). *)
Definition lost_before_swap (s : WS) : Prop :=
  (w_main s = MOpen /\ is_Some (k_cause (w_conn s))) \/ exists cause seconds, w_main s = MClean cause seconds.

(** C30: a caller whose request was registered is not left waiting when its
    connection is lost: in every fair execution, a caller that waits on a channel
    that is registered on the current connection, at a time when the context of
    the connection has ended and the main loop has not yet swapped its channels
    out, stops waiting for that channel: it gets the response that was on its way,
    returns, or starts another attempt.  (A channel that is registered only after
    the swap is outside: nobody closes it, see [late_request_forgotten].) *)
Theorem ws_lost_caller_resumes auth tr lab c ch i n :
  execution auth tr lab -> fair tr lab c -> lost_before_swap (tr n) ->
  k_channels (w_conn (tr n)) !! i = Some ch -> waits (tr n) c ch ->
  exists m, (n <= m)%nat /\ ~ waits (tr m) c ch.
Proof.
  intros Hex (F1 & F2 & F3 & F4 & F5) Hlost Hi Hw.
  assert (Hready : exists m, (n <= m)%nat /\ ready_phase c ch (tr m)); cycle 1.
  { destruct Hready as (m & Hnm & HR). destruct (ready_leads auth tr lab Hex c ch m F1 HR) as (m' & ? & ?). exists m'. split; [lia|done]. }
  assert (Hdel : forall m, (n <= m)%nat -> deliver_phase c ch (tr m) -> exists m', (n <= m')%nat /\ ready_phase c ch (tr m')).
  { intros m Hnm HD. destruct (deliver_leads auth tr lab Hex c ch m F2 HD) as (m' & ? & ?). exists m'. split; [lia|done]. }
  assert (exists m, (n <= m)%nat /\ (deliver_phase c ch (tr m) \/ clean_phase c ch (tr m))) as (m & Hnm & [HD|HC]); [|by eapply Hdel|].
  { destruct Hlost as [[Hm Hc]|Hm]; [apply (lost_leads auth tr lab Hex c ch n F3); split_and!; by eauto|].
    exists n. split; [done|]. right. split; [done|]. split; [done|by exists i]. }
  destruct (clean_leads auth tr lab Hex c ch m F4 HC) as (m1 & Hm1 & [HD|[k HK]]); [eapply Hdel; [|done]; lia|].
  destruct (closing_leads auth tr lab Hex c ch k m1 F5 HK) as (m2 & Hm2 & HR). exists m2. split; [lia|done].
Qed.

(** ** Runs *)
Definition well_formedb (l : label) : bool :=
  match l with
  | ByReader (Frame (mkWsMessage (Some 1) (Some r) _)) => has_field (rq_Id r) && has_field (rq_Verb r) && has_field (rq_Path r)
  | ByHandler (Handled (HandlerResponse r)) => (sr_Status r =? 200) || (sr_Status r =? 400)
  | _ => true
  end.

Lemma well_formedb_true l : well_formedb l = true -> well_formed l.
Proof.
  unfold well_formedb, well_formed. repeat case_match; try done. intros [Hs|Hs]%orb_true_iff; apply Z.eqb_eq in Hs; auto.
Qed.

Fixpoint checked_run (ls : list label) (s : WS) : option WS :=
  match ls with
  | [] => Some s
  | l :: ls' =>
      if well_formedb l && (k_i (w_conn s) + 1 <? 2 ^ 64)
      then match step false l s with Some s' => checked_run ls' s' | None => None end
      else None
  end.

Lemma checked_run_reach auth ls s s' : reach auth s -> checked_run ls s = Some s' -> reach auth s'.
Proof.
  revert s. induction ls as [|l ls IH]; intros s Hr; cbn; [by intros [= <-]|].
  destruct (well_formedb l) eqn:Hl; [|done]. destruct (Z.ltb_spec (k_i (w_conn s) + 1) (2 ^ 64)); [|done]. cbn.
  destruct (step false l s) as [s1|] eqn:Hs; [|done]. apply IH. eapply reach_step; [done|by apply well_formedb_true|done|done].
Qed.

(** The execution of a list of labels, followed by pauses. *)
Definition run_trace (ls : list label) (s : WS) (n : nat) : WS := default s (checked_run (take n ls) s).

Lemma checked_run_app ls1 ls2 s : checked_run (ls1 ++ ls2) s = checked_run ls1 s ≫= checked_run ls2.
Proof.
  revert s. induction ls1 as [|l ls1 IH]; intros s; cbn; [done|]. destruct (_ && _); [|done]. by destruct (step false l s).
Qed.

Lemma run_trace_execution auth ls s' : checked_run ls (ws_start auth) = Some s' -> k_i (w_conn s') + 1 < 2 ^ 64 ->
  execution auth (run_trace ls (ws_start auth)) (fun n => ls !! n).
Proof.
  intros Hr Hk. split; [done|]. intros n. unfold run_trace.
  destruct (ls !! n) as [l|] eqn:Hn.
  - rewrite (take_S_r _ _ _ Hn), checked_run_app. rewrite <- (take_drop_middle _ _ _ Hn), checked_run_app in Hr.
    destruct (checked_run (take n ls) (ws_start auth)) as [s|]; [|done]. cbn in Hr |- *.
    destruct (well_formedb l) eqn:Hl; [|done]. destruct (Z.ltb_spec (k_i (w_conn s) + 1) (2 ^ 64)) as [Hlt|]; [|done]. cbn in Hr |- *.
    destruct (step false l s) as [s1|]; [|done]. split; [done|]. split; [by apply well_formedb_true|done].
  - apply lookup_ge_None in Hn. rewrite !take_ge by lia. rewrite Hr. done.
Qed.

(** An action that is impossible at the end of the list is treated fairly. *)
Lemma run_trace_fair ls s s' a : checked_run ls s = Some s' -> step false a s' = None ->
  weakly_fair (run_trace ls s) (fun n => ls !! n) a.
Proof.
  intros Hr Ha n. exists (n + length ls)%nat. split; [lia|]. right. unfold run_trace. rewrite take_ge by lia. by rewrite Hr.
Qed.

(** ** A run: a request is registered, the connection is lost, the caller tries
    again. *)
Definition sample_request : WebSocketRequestMessage := SendRequest_message (str "GET") (str "/v1/x") None [].

Definition lost_run : list label :=
  [ByMain DialSucceeds; Call sample_request; ByClient 0 Attempt; ByClient 0 Push; ByWriter Register; ByWriter (Write true);
   ByReader (ReadError false); ByMain LoopDone; ByMain Swap; ByMain CloseNext; ByClient 0 Receive].

Lemma ws_lost_caller_resumes_witness : exists m, (7 <= m)%nat /\ ~ waits (run_trace lost_run (ws_start None) m) 0 0.
Proof.
  assert (Hr : exists s', checked_run lost_run (ws_start None) = Some s' /\ k_i (w_conn s') + 1 < 2 ^ 64 /\
    step false (ByClient 0 Receive) s' = None /\ step false (ByReader Deliver) s' = None /\ step false (ByMain LoopDone) s' = None /\
    step false (ByMain Swap) s' = None /\ step false (ByMain CloseNext) s' = None).
  { eexists. split; [vm_compute; reflexivity|]. split; [vm_compute; reflexivity|]. by vm_compute. }
  destruct Hr as (s' & Hr & Hk & H1 & H2 & H3 & H4 & H5).
  apply (ws_lost_caller_resumes None (run_trace lost_run (ws_start None)) (fun n => lost_run !! n) 0 0 1 7).
  - by eapply run_trace_execution.
  - split_and!; by eapply run_trace_fair.
  - left. split; [vm_compute; reflexivity|]. vm_compute. by eexists.
  - vm_compute. reflexivity.
  - eexists. split; [vm_compute; reflexivity|reflexivity].
Defined.

(** A run in which the response of the server arrives. *)
Definition sample_response : WebSocketResponseMessage := mkWsResponse (Some 1) (Some 200) (Some (str "OK")) [] None.
Definition answered_run : list label :=
  [ByMain DialSucceeds; Call sample_request; ByClient 0 Attempt; ByClient 0 Push; ByWriter Register; ByWriter (Write true);
   ByReader (Frame (mkWsMessage (Some WebSocketMessage_RESPONSE) None (Some sample_response)));
   ByReader Deliver; ByReader CloseChannel; ByClient 0 Receive].

Lemma ws_response_matched_witness : exists s, checked_run answered_run (ws_start None) = Some s /\ answered s 0 sample_response
  /\ exists i, rs_Id sample_response = Some i /\ caller_id s 0 = Some i.
Proof.
  assert (Hr : exists s, checked_run answered_run (ws_start None) = Some s /\ answered s 0 sample_response).
  { eexists. split; [vm_compute; reflexivity|]. eexists. split; [vm_compute; reflexivity|reflexivity]. }
  destruct Hr as (s & Hr & Ha). exists s. split; [done|]. split; [done|].
  apply (ws_response_matched None s); [|done]. eapply checked_run_reach; [constructor|done].
Defined.

Lemma ws_no_crash_witness : exists s, checked_run answered_run (ws_start None) = Some s /\ w_crash s = None.
Proof.
  assert (Hr : exists s, checked_run answered_run (ws_start None) = Some s) by (eexists; vm_compute; reflexivity).
  destruct Hr as (s & Hr). exists s. split; [done|]. apply (ws_no_crash None s). eapply checked_run_reach; [constructor|done].
Defined.

(** The connection was lost and cleaned up before the caller looks. *)
Definition cleaned_run : list label := take 10 lost_run ++ [ByMain CloseFinished; ByWriter WriteStop; ByMain LoopsFinished].

Lemma ws_cleanup_wakes_witness : exists s, checked_run cleaned_run (ws_start None) = Some s /\ waits s 0 0 /\ w_late s = []
  /\ ch_closed <$> w_chans s !! 0%nat = Some true.
Proof.
  assert (Hr : exists s, checked_run cleaned_run (ws_start None) = Some s /\ waits s 0 0 /\ w_late s = [] /\ idle (w_main s) = true).
  { eexists. split; [vm_compute; reflexivity|]. split_and!; [eexists; split; [vm_compute; reflexivity|reflexivity]|reflexivity..]. }
  destruct Hr as (s & Hr & Hw & Hl & Hi). exists s. split_and!; [done..|].
  destruct (ws_cleanup_wakes None s 0 0) as [H|H]; [eapply checked_run_reach; [constructor|done]|done|done|done|].
  rewrite Hl in H. by apply not_elem_of_nil in H.
Defined.

(** ** Where goroutines are left waiting *)

(** After [loopCtx] has ended, the [select] of the write loop may still take a
    request.  If it does so after [SwapData], the channel is registered in a map
    that nobody closes: the next connection has its own map, and the caller waits
    for a channel that no goroutine knows. *)
Definition late_run : list label :=
  [ByMain DialSucceeds; Call sample_request; ByClient 0 Attempt; ByReader (ReadError false); ByMain LoopDone; ByMain Swap;
   ByClient 0 Push; ByWriter Register; ByWriter (Write false); ByMain CloseFinished; ByMain LoopsFinished; ByMain DialSucceeds].

Lemma late_request_forgotten : exists s, reach None s /\ w_main s = MOpen /\ waits s 0 0
  /\ w_chans s !! 0%nat = Some (mkChan None false) /\ forall o, ~ holds s o 0.
Proof.
  assert (Hr : exists s, checked_run late_run (ws_start None) = Some s /\ w_main s = MOpen /\ waits s 0 0
    /\ w_chans s = [mkChan None false] /\ k_channels (w_conn s) = ∅ /\ k_write (w_conn s) = WSelect /\ k_read (w_conn s) = RRead
    /\ w_clients s = [mkClient 0 0 None (CWait 0)]).
  { eexists. split; [vm_compute; reflexivity|]. split; [reflexivity|]. split; [eexists; split; [vm_compute; reflexivity|reflexivity]|].
    by vm_compute. }
  destruct Hr as (s & Hr & H1 & H2 & H3 & H4 & H5 & H6 & H7). exists s. split; [eapply checked_run_reach; [constructor|done]|].
  split_and!; [done|done|by rewrite H3|]. intros [c| |i| | |]; cbn; rewrite ?H1, ?H3, ?H4, ?H5, ?H6, ?H7; cbn; try done.
  - by destruct c as [|[]].
  - apply not_elem_of_nil.
Qed.

(** With a full queue of requests, a connection that is lost while the handler
    waits to answer is never cleaned up: the read loop waits for the queue, the
    handler for a write loop, and [wg.Wait] for the read loop. *)
Record wedged (s : WS) : Prop := mkWedged {
  we_main : exists cause seconds, w_main s = MWait cause seconds;
  we_read : exists p, k_read (w_conn s) = RPut p;
  we_full : length (w_incoming s) = incoming_capacity;
  we_handler : exists msg, w_handler s = HPush msg;
  we_write : k_write (w_conn s) = WExit;
  we_ctx : w_ctx s = false
}.

(** Only [Close] or the end of the context gets it out of this state. *)
Lemma wedged_forever s s' l : wedged s -> l <> CloseWS -> l <> CancelCtx -> step false l s = Some s' -> wedged s'.
Proof.
  intros HW H1 H2. pose proof HW as [(cause & seconds & Hm) [p Hr] Hf [msg Hh] Hk Hc]. unfold step. destruct (w_crash s); [done|].
  assert (Hsame : forall s2, w_main s2 = w_main s -> (exists cause, w_conn s2 = k_set_cause cause (w_conn s)) ->
    w_incoming s2 = w_incoming s -> w_handler s2 = w_handler s -> w_ctx s2 = w_ctx s -> wedged s2).
  { intros s2 E1 [cs E2] E3 E4 E5. destruct HW. constructor; by rewrite ?E1, ?E2, ?E3, ?E4, ?E5. }
  assert (Hconn : forall s2, w_main s2 = w_main s -> w_conn s2 = w_conn s -> w_incoming s2 = w_incoming s ->
    w_handler s2 = w_handler s -> w_ctx s2 = w_ctx s -> wedged s2).
  { intros s2 E1 E2. apply Hsame; [done|]. rewrite E2. eexists. apply same_cause. }
  destruct l as [req|c0 tl|c0 l0|hl|wl|rl|ml| | | |d]; try done.
  - intros [= <-]. by apply Hconn.
  - intros [= <-]. by apply Hconn.
  - unfold client_step. rewrite Hk. intros H. split_matches_in H; injection H as <-; by apply Hconn.
  - unfold handler_step, closeEvt. rewrite Hh, Hk, Hc, Hm. by destruct hl.
  - unfold write_step. by rewrite Hk.
  - unfold read_step. rewrite Hr, Hf. by destruct rl.
  - unfold main_step. rewrite Hm, Hr. by destruct ml.
  - intros [= <-]. rewrite loopCancel_eq. apply Hsame; try done. by eexists.
  - destruct (0 <? d); [|done]. intros [= <-]. by apply Hconn.
Qed.

Definition sample_incoming : WebSocketMessage :=
  mkWsMessage (Some WebSocketMessage_REQUEST) (Some (mkWsRequest (Some (str "PUT")) (Some (str "/api/v1/message")) None [] (Some 1))) None.

Definition wedge_run : list label :=
  [ByMain DialSucceeds; ByReader (Frame sample_incoming); ByReader PutRequest; ByHandler Take;
   ByHandler (Handled (HandlerResponse (mkSimple 200 None)))]
  ++ concat (repeat [ByReader (Frame sample_incoming); ByReader PutRequest] 256)
  ++ [ByReader (Frame sample_incoming); ForceReconnect; ByWriter WriteStop; ByMain LoopDone; ByMain Swap; ByMain CloseFinished].

Lemma wedged_reachable : exists s, reach None s /\ wedged s.
Proof.
  assert (Hr : exists s, checked_run wedge_run (ws_start None) = Some s /\ wedged s).
  { eexists. split; [vm_compute; reflexivity|]. constructor; cbn; by repeat eexists. }
  destruct Hr as (s & Hr & HW). exists s. split; [|done]. eapply checked_run_reach; [constructor|done].
Qed.

(** ** A call makes at most four attempts. *)
Lemma attempts_bounded auth s c cl : reach auth s -> w_clients s !! c = Some cl -> (cl_retryCount cl <= max_retries)%nat.
Proof.
  intros Hr. revert c cl. induction Hr as [|s l s' Hr IH Hl Hn Hs]; [done|]. pose proof (reach_inv auth s Hr) as HI.
  destruct (by_caller l) eqn:Hb; [|by rewrite (step_clients s s' l HI Hs Hb)].
  revert Hs. unfold step. rewrite (in_crash s HI). destruct l as [req|c0 tl|c0 l0| | | | | | | |]; try done.
  - intros [= <-] c cl. cbn. intros [?|[_ Hx]]%lookup_app_Some; [by eapply IH|]. apply list_lookup_singleton_Some in Hx as [_ <-]. cbn. lia.
  - intros [= <-] c cl. cbn. rewrite list_lookup_alter. case_decide; [|apply IH]. intros (cl0 & Hc0 & ->)%fmap_Some. cbn. by eapply IH.
  - assert (Hpc : forall s2 pc, w_clients s2 = w_clients s -> forall c cl, w_clients (set_pc c0 pc s2) !! c = Some cl -> (cl_retryCount cl <= max_retries)%nat).
    { intros s2 pc E c cl. cbn. rewrite E, list_lookup_alter. case_decide; [|apply IH]. subst.
      intros (cl0 & Hc0 & ->)%fmap_Some. cbn. by eapply IH. }
    unfold client_step. destruct (w_clients s !! c0) as [cl0|] eqn:Hc0; [|done]. intros H.
    split_matches_in H; injection H as <-; try (by apply Hpc).
    intros c1 cl1. cbn. intros [(-> & <- & _)|[_ Hx]]%list_lookup_insert_Some; [|by eapply IH]. unfold nil_response.
    repeat case_match; cbn; try (by eapply IH). match goal with H : (_ <=? _)%nat = false |- _ => apply Nat.leb_gt in H end. lia.
Qed.
