(* ===== verification/RingRTC.v ===== *)
(** Call signalling ([signalmeow/ringrtc], [signalmeow/calls.go]): the opaque
    payloads of RingRTC as protobuf messages written by hand, the split of a call
    message into events, the acceptance message on the data channel and the SRTP
    keys.  The wire primitives ([protowire]), X25519 and HKDF are libraries. *)
From S2P Require Import Prelude GoLib.

(** ** [protowire]
    [None] is a negative length: a parse error. *)
Class WireLib : Type := {
  AppendTag : bytes -> Z -> Z -> bytes;
  AppendBytes : bytes -> bytes -> bytes;
  AppendVarint : bytes -> Z -> bytes;
  ConsumeTag : bytes -> option (Z * Z * nat);
  ConsumeBytes : bytes -> option (bytes * nat);
  ConsumeVarint : bytes -> option (Z * nat);
  ConsumeFieldValue : Z -> Z -> bytes -> option nat
}.

Definition VarintType : Z := 0.
Definition BytesType : Z := 2.

(** Field numbers that a tag can hold. *)
Definition valid_number (n : Z) : Prop := 1 <= n < 2 ^ 29.

(** The length of a slice is an [int]. *)
Definition small (b : bytes) : Prop := Z.of_nat (length b) < 2 ^ 63.

(** What was appended is consumed, whatever follows; a tag has at least one
    byte; nothing is consumed past the end. *)
Class WireLaws (L : WireLib) : Prop := {
  tag_append dst n t : AppendTag dst n t = dst ++ AppendTag [] n t;
  bytes_append dst b : AppendBytes dst b = dst ++ AppendBytes [] b;
  varint_append dst v : AppendVarint dst v = dst ++ AppendVarint [] v;
  consume_tag n t rest : valid_number n -> t = VarintType \/ t = BytesType ->
    ConsumeTag (AppendTag [] n t ++ rest) = Some (n, t, length (AppendTag [] n t));
  bytes_length b : (length b <= length (AppendBytes [] b))%nat;
  consume_bytes b rest : small b -> ConsumeBytes (AppendBytes [] b ++ rest) = Some (b, length (AppendBytes [] b));
  consume_varint v rest : in_width 64 v -> ConsumeVarint (AppendVarint [] v ++ rest) = Some (v, length (AppendVarint [] v));
  tag_progress data n t k : ConsumeTag data = Some (n, t, k) -> (0 < k <= length data)%nat;
  bytes_bound data b k : ConsumeBytes data = Some (b, k) -> (k <= length data)%nat;
  varint_bound data v k : ConsumeVarint data = Some (v, k) -> (k <= length data)%nat /\ in_width 64 v;
  field_bound n t data k : ConsumeFieldValue n t data = Some k -> (k <= length data)%nat
}.

Section RingRTC.
Context `{L : WireLib}.

(** ** Messages *)
Record ConnectionParametersV4 := mkParams {
  cp_PublicKey : bytes;
  cp_ICEUfrag : bytes;
  cp_ICEPwd : bytes;
  cp_ReceiveVideoCodecs : list Z;
  cp_MaxBitrateBPS : Z;
  cp_EncodeOnlyVideoCodecs : list Z;
  cp_DecodeOnlyVideoCodecs : list Z
}.
Definition empty_params : ConnectionParametersV4 := mkParams [] [] [] [] 0 [] [].

(** [Offer] and [Answer] hold the parameters, or nil. *)
Record Offer := mkOffer { of_V4 : option ConnectionParametersV4 }.
Record Answer := mkAnswer { an_V4 : option ConnectionParametersV4 }.

(** [AddedV3] holds an SDP line. *)
Record SocketAddr := mkSocket { sa_IP : bytes; sa_Port : Z }.
Record IceCandidate := mkIce { ice_AddedV3 : option bytes; ice_Removed : option SocketAddr }.

Inductive wire_error := ParseError | WrongWireType (number got want : Z) | OutOfFuel.

(** ** [consumeMessage]

    The consumer changes the message that is being decoded.  Every round
    consumes a tag, so [length data] rounds are enough. *)
Section Consume.
Context {S : Type} (consume : Z -> Z -> bytes -> Z -> S -> S * option wire_error).

Fixpoint consume_loop (fuel : nat) (data : bytes) (out : S) : S * option wire_error :=
  match data with
  | [] => (out, None)
  | _ :: _ =>
      match fuel with
      | O => (out, Some OutOfFuel)
      | Datatypes.S fuel =>
          match ConsumeTag data with
          | None => (out, Some ParseError)
          | Some (number, typ, n) =>
              let data := drop n data in
              let field :=
                if typ =? BytesType then match ConsumeBytes data with Some (b, k) => Some (b, 0, k) | None => None end
                else if typ =? VarintType then match ConsumeVarint data with Some (v, k) => Some ([], v, k) | None => None end
                else match ConsumeFieldValue number typ data with Some k => Some ([], 0, k) | None => None end in
              match field with
              | None => (out, Some ParseError)
              | Some (bytesValue, varintValue, consumed) =>
                  match consume number typ bytesValue varintValue out with
                  | (out, Some e) => (out, Some e)
                  | (out, None) => consume_loop fuel (drop consumed data) out
                  end
              end
          end
      end
  end.

Definition consumeMessage (data : bytes) (out : S) : S * option wire_error := consume_loop (length data) data out.
End Consume.

Definition wrongWireType {S} (out : S) (number got want : Z) : S * option wire_error := (out, Some (WrongWireType number got want)).

(** ** Decoding *)

(** [VideoCodecType(value)]: an [int32]. *)
Definition decodeVideoCodec (data : bytes) : Z * option wire_error :=
  consumeMessage (fun number typ _ value out =>
    if negb (number =? 1) then (out, None)
    else if negb (typ =? VarintType) then wrongWireType out number typ VarintType
    else (swrap 32 value, None)) data 0.

Definition set_PublicKey v p := mkParams v (cp_ICEUfrag p) (cp_ICEPwd p) (cp_ReceiveVideoCodecs p) (cp_MaxBitrateBPS p) (cp_EncodeOnlyVideoCodecs p) (cp_DecodeOnlyVideoCodecs p).
Definition set_ICEUfrag v p := mkParams (cp_PublicKey p) v (cp_ICEPwd p) (cp_ReceiveVideoCodecs p) (cp_MaxBitrateBPS p) (cp_EncodeOnlyVideoCodecs p) (cp_DecodeOnlyVideoCodecs p).
Definition set_ICEPwd v p := mkParams (cp_PublicKey p) (cp_ICEUfrag p) v (cp_ReceiveVideoCodecs p) (cp_MaxBitrateBPS p) (cp_EncodeOnlyVideoCodecs p) (cp_DecodeOnlyVideoCodecs p).
Definition add_Receive v p := mkParams (cp_PublicKey p) (cp_ICEUfrag p) (cp_ICEPwd p) (cp_ReceiveVideoCodecs p ++ [v]) (cp_MaxBitrateBPS p) (cp_EncodeOnlyVideoCodecs p) (cp_DecodeOnlyVideoCodecs p).
Definition set_MaxBitrate v p := mkParams (cp_PublicKey p) (cp_ICEUfrag p) (cp_ICEPwd p) (cp_ReceiveVideoCodecs p) v (cp_EncodeOnlyVideoCodecs p) (cp_DecodeOnlyVideoCodecs p).
Definition add_EncodeOnly v p := mkParams (cp_PublicKey p) (cp_ICEUfrag p) (cp_ICEPwd p) (cp_ReceiveVideoCodecs p) (cp_MaxBitrateBPS p) (cp_EncodeOnlyVideoCodecs p ++ [v]) (cp_DecodeOnlyVideoCodecs p).
Definition add_DecodeOnly v p := mkParams (cp_PublicKey p) (cp_ICEUfrag p) (cp_ICEPwd p) (cp_ReceiveVideoCodecs p) (cp_MaxBitrateBPS p) (cp_EncodeOnlyVideoCodecs p) (cp_DecodeOnlyVideoCodecs p ++ [v]).

(** A field that must have length-delimited type. *)
Definition bytes_field {S} (number typ : Z) (out : S) (k : S * option wire_error) : S * option wire_error :=
  if negb (typ =? BytesType) then wrongWireType out number typ BytesType else k.

Definition params_field (number typ : Z) (bytesValue : bytes) (varintValue : Z) (out : ConnectionParametersV4)
  : ConnectionParametersV4 * option wire_error :=
  if number =? 1 then bytes_field number typ out (set_PublicKey bytesValue out, None)
  else if number =? 2 then bytes_field number typ out (set_ICEUfrag bytesValue out, None)
  else if number =? 3 then bytes_field number typ out (set_ICEPwd bytesValue out, None)
  else if (number =? 4) || (number =? 6) || (number =? 7) then
    bytes_field number typ out
      match decodeVideoCodec bytesValue with
      | (_, Some e) => (out, Some e)
      | (codec, None) =>
          (if number =? 4 then add_Receive codec out else if number =? 6 then add_EncodeOnly codec out else add_DecodeOnly codec out, None)
      end
  else if number =? 5 then
    if negb (typ =? VarintType) then wrongWireType out number typ VarintType else (set_MaxBitrate varintValue out, None)
  else (out, None).

Definition decodeConnectionParametersV4 (data : bytes) : ConnectionParametersV4 * option wire_error :=
  consumeMessage params_field data empty_params.

Definition decodeVersionedConnectionParameters (data : bytes) : option ConnectionParametersV4 * option wire_error :=
  consumeMessage (fun number typ value _ out =>
    if negb (number =? 4) then (out, None)
    else bytes_field number typ out (Some (decodeConnectionParametersV4 value).1, (decodeConnectionParametersV4 value).2)) data None.

Definition DecodeOffer (data : bytes) : Offer * option wire_error :=
  (mkOffer (decodeVersionedConnectionParameters data).1, (decodeVersionedConnectionParameters data).2).
Definition DecodeAnswer (data : bytes) : Answer * option wire_error :=
  (mkAnswer (decodeVersionedConnectionParameters data).1, (decodeVersionedConnectionParameters data).2).

Definition decodeIceCandidateV3 (data : bytes) : bytes * option wire_error :=
  consumeMessage (fun number typ value _ out =>
    if number =? 1 then bytes_field number typ out (value, None) else (out, None)) data [].

Definition decodeSocketAddr (data : bytes) : SocketAddr * option wire_error :=
  consumeMessage (fun number typ bytesValue varintValue out =>
    if number =? 1 then bytes_field number typ out (mkSocket bytesValue (sa_Port out), None)
    else if number =? 2 then
      if negb (typ =? VarintType) then wrongWireType out number typ VarintType
      else (mkSocket (sa_IP out) (uint32 varintValue), None)
    else (out, None)) data (mkSocket [] 0).

Definition DecodeIceCandidate (data : bytes) : IceCandidate * option wire_error :=
  consumeMessage (fun number typ value _ out =>
    if negb (number =? 2) && negb (number =? 3) then (out, None)
    else bytes_field number typ out
      (if number =? 2 then (mkIce (Some (decodeIceCandidateV3 value).1) (ice_Removed out), (decodeIceCandidateV3 value).2)
       else (mkIce (ice_AddedV3 out) (Some (decodeSocketAddr value).1), (decodeSocketAddr value).2))) data (mkIce None None).

(** ** Encoding *)
Definition appendBytesField (dst : bytes) (number : Z) (value : bytes) : bytes := AppendBytes (AppendTag dst number BytesType) value.
Definition appendVarintField (dst : bytes) (number value : Z) : bytes := AppendVarint (AppendTag dst number VarintType) value.

(** [uint64(codec.Type)] of an [int32] extends the sign. *)
Definition encodeVideoCodec (codec : Z) : bytes := appendVarintField [] 1 (uint64 codec).

Definition encodeConnectionParametersV4 (p : ConnectionParametersV4) : bytes :=
  let out := [] in
  let out := if negb (beqb (cp_PublicKey p) []) then appendBytesField out 1 (cp_PublicKey p) else out in
  let out := if negb (beqb (cp_ICEUfrag p) []) then appendBytesField out 2 (cp_ICEUfrag p) else out in
  let out := if negb (beqb (cp_ICEPwd p) []) then appendBytesField out 3 (cp_ICEPwd p) else out in
  let out := fold_left (fun out codec => appendBytesField out 4 (encodeVideoCodec codec)) (cp_ReceiveVideoCodecs p) out in
  let out := if negb (cp_MaxBitrateBPS p =? 0) then appendVarintField out 5 (cp_MaxBitrateBPS p) else out in
  let out := fold_left (fun out codec => appendBytesField out 6 (encodeVideoCodec codec)) (cp_EncodeOnlyVideoCodecs p) out in
  fold_left (fun out codec => appendBytesField out 7 (encodeVideoCodec codec)) (cp_DecodeOnlyVideoCodecs p) out.

(** A nil offer, or one without parameters, has no bytes. *)
Definition EncodeOffer (offer : option Offer) : bytes :=
  match offer with
  | Some (mkOffer (Some v4)) => appendBytesField [] 4 (encodeConnectionParametersV4 v4)
  | _ => []
  end.
Definition EncodeAnswer (answer : option Answer) : bytes :=
  match answer with
  | Some (mkAnswer (Some v4)) => appendBytesField [] 4 (encodeConnectionParametersV4 v4)
  | _ => []
  end.

Definition EncodeIceCandidate (candidate : option IceCandidate) : bytes :=
  match candidate with
  | None => []
  | Some c =>
      let out := match ice_AddedV3 c with Some sdp => appendBytesField [] 2 (appendBytesField [] 1 sdp) | None => [] end in
      match ice_Removed c with
      | Some r =>
          let removed := if negb (beqb (sa_IP r) []) then appendBytesField [] 1 (sa_IP r) else [] in
          let removed := if negb (sa_Port r =? 0) then appendVarintField removed 2 (sa_Port r) else removed in
          appendBytesField out 3 removed
      | None => out
      end
  end.

(** ** The data channel ([rtp_data.go]) *)
Definition encodeAccepted (callID sequence : Z) : bytes :=
  let accepted := AppendVarint (AppendTag [] 1 VarintType) callID in
  let message := AppendBytes (AppendTag [] 1 BytesType) accepted in
  AppendVarint (AppendTag message 4 VarintType) sequence.

Fixpoint decode_accepted (fuel : nat) (message : bytes) : Z * bool :=
  match message with
  | [] => (0, false)
  | _ :: _ =>
      match fuel with
      | O => (0, false)
      | S fuel =>
          match ConsumeTag message with
          | None => (0, false)
          | Some (num, typ, n) =>
              let message := drop n message in
              if (num =? 1) && (typ =? BytesType) then
                match ConsumeBytes message with
                | None => (0, false)
                | Some (accepted, _) =>
                    match ConsumeTag accepted with
                    | None => (0, false)
                    | Some (field, fieldType, tagSize) =>
                        if negb (field =? 1) || negb (fieldType =? VarintType) then (0, false)
                        else match ConsumeVarint (drop tagSize accepted) with Some (callID, _) => (callID, true) | None => (0, false) end
                    end
                end
              else
                match ConsumeFieldValue num typ message with
                | None => (0, false)
                | Some consumed => decode_accepted fuel (drop consumed message)
                end
          end
      end
  end.
Definition decodeAccepted (message : bytes) : Z * bool := decode_accepted (length message) message.
End RingRTC.

(** ** What is encoded is decoded *)
Section Wire.
Context `{L : WireLib} `{LL : !WireLaws L}.

(** A field as it is written. *)
Inductive wire_field := FBytes (number : Z) (b : bytes) | FVarint (number v : Z).
Definition field_ok (f : wire_field) : Prop :=
  match f with FBytes n b => valid_number n /\ small b | FVarint n v => valid_number n /\ in_width 64 v end.
Definition field_bytes_of (f : wire_field) : bytes :=
  match f with
  | FBytes n b => AppendTag [] n BytesType ++ AppendBytes [] b
  | FVarint n v => AppendTag [] n VarintType ++ AppendVarint [] v
  end.
Definition write_fields (l : list wire_field) : bytes := concat (map field_bytes_of l).

Lemma appendBytesField_eq dst n b : appendBytesField dst n b = dst ++ field_bytes_of (FBytes n b).
Proof using LL. unfold appendBytesField. rewrite bytes_append, tag_append. cbn. by rewrite <- app_assoc. Qed.
Lemma appendVarintField_eq dst n v : appendVarintField dst n v = dst ++ field_bytes_of (FVarint n v).
Proof using LL. unfold appendVarintField. rewrite varint_append, tag_append. cbn. by rewrite <- app_assoc. Qed.

Lemma write_fields_app l1 l2 : write_fields (l1 ++ l2) = write_fields l1 ++ write_fields l2.
Proof. unfold write_fields. by rewrite map_app, concat_app. Qed.

Section Consume.
Context {S : Type} (consume : Z -> Z -> bytes -> Z -> S -> S * option wire_error).

(** The decoded message after a list of fields. *)
Fixpoint read_fields (l : list wire_field) (out : S) : S * option wire_error :=
  match l with
  | [] => (out, None)
  | f :: l' =>
      match (match f with FBytes n b => consume n BytesType b 0 out | FVarint n v => consume n VarintType [] v out end) with
      | (out, Some e) => (out, Some e)
      | (out, None) => read_fields l' out
      end
  end.

(** More fuel than bytes makes no difference. *)
Lemma consume_loop_fuel fuel1 fuel2 data out : (length data <= fuel1)%nat -> (length data <= fuel2)%nat ->
  consume_loop consume fuel1 data out = consume_loop consume fuel2 data out.
Proof using LL.
  revert fuel2 data out. induction fuel1 as [|fuel1 IH]; intros fuel2 data out H1 H2.
  { destruct data; [by destruct fuel2|cbn in H1; lia]. }
  destruct data as [|x data']; [by destruct fuel2|]. destruct fuel2 as [|fuel2]; [cbn in H2; lia|].
  cbn [consume_loop]. destruct (ConsumeTag (x :: data')) as [[[number typ] n]|] eqn:Ht; [|done]. apply tag_progress in Ht.
  assert (Hr : forall k, (length (drop k (drop n (x :: data'))) <= fuel1)%nat /\ (length (drop k (drop n (x :: data'))) <= fuel2)%nat).
  { intros k. rewrite !length_drop. cbn in *. lia. }
  match goal with |- context [match ?f with Some _ => _ | None => _ end] => destruct f as [[[b v] k]|] end; [|done].
  destruct (consume number typ b v out) as [out' [e|]]; [done|]. destruct (Hr k). by apply IH.
Qed.

(** Decoding never gets stuck: every error is one of the data. *)
Lemma consume_loop_total fuel data out : (length data <= fuel)%nat ->
  (forall n t b v o, (consume n t b v o).2 <> Some OutOfFuel) -> (consume_loop consume fuel data out).2 <> Some OutOfFuel.
Proof using LL.
  intros H Hc. revert data out H. induction fuel as [|fuel IH]; intros data out H.
  { destruct data; [done|cbn in H; lia]. }
  destruct data as [|x data']; [done|]. cbn [consume_loop].
  destruct (ConsumeTag (x :: data')) as [[[number typ] n]|] eqn:Ht; [|done]. apply tag_progress in Ht.
  match goal with |- context [match ?f with Some _ => _ | None => _ end] => destruct f as [[[b v] k]|] end; [|done].
  pose proof (Hc number typ b v out) as Hx. destruct (consume number typ b v out) as [out' [e|]]; [done|].
  apply IH. rewrite !length_drop. cbn in *. lia.
Qed.

Lemma consume_field f rest out : field_ok f ->
  consumeMessage consume (field_bytes_of f ++ rest) out
  = match (match f with FBytes n b => consume n BytesType b 0 out | FVarint n v => consume n VarintType [] v out end) with
    | (out, Some e) => (out, Some e)
    | (out, None) => consumeMessage consume rest out
    end.
Proof using LL.
  intros Hf. unfold consumeMessage.
  assert (Hne : exists x l, field_bytes_of f ++ rest = x :: l).
  { destruct f as [n b|n v]; cbn; rewrite <- app_assoc.
    - pose proof (consume_tag n BytesType (AppendBytes [] b ++ rest) (proj1 Hf) ltac:(by right)) as Ht. apply tag_progress in Ht.
      destruct (AppendTag [] n BytesType ++ AppendBytes [] b ++ rest); [cbn in Ht; lia|eauto].
    - pose proof (consume_tag n VarintType (AppendVarint [] v ++ rest) (proj1 Hf) ltac:(by left)) as Ht. apply tag_progress in Ht.
      destruct (AppendTag [] n VarintType ++ AppendVarint [] v ++ rest); [cbn in Ht; lia|eauto]. }
  destruct Hne as (x & l & E). rewrite (consume_loop_fuel _ (Datatypes.S (length (field_bytes_of f ++ rest)))) by lia.
  set (fuel := length (field_bytes_of f ++ rest)). assert (Hl : (length rest <= fuel)%nat) by (unfold fuel; rewrite length_app; lia).
  clearbody fuel. rewrite E. cbn [consume_loop]. rewrite <- E. destruct f as [n b|n v]; cbn [field_bytes_of]; rewrite <- app_assoc.
  - destruct Hf as [Hn Hv]. rewrite consume_tag, drop_app_length by (done || by right). cbn [Z.eqb BytesType VarintType Pos.eqb].
    rewrite consume_bytes by done. destruct (consume n BytesType b 0 out) as [out' [e|]]; [done|]. rewrite drop_app_length. by apply consume_loop_fuel.
  - destruct Hf as [Hn Hv]. rewrite consume_tag, drop_app_length by (done || by left). cbn [Z.eqb BytesType VarintType Pos.eqb].
    rewrite consume_varint by done. destruct (consume n VarintType [] v out) as [out' [e|]]; [done|]. rewrite drop_app_length. by apply consume_loop_fuel.
Qed.

Lemma consume_fields l out : Forall field_ok l -> consumeMessage consume (write_fields l) out = read_fields l out.
Proof using LL.
  intros H. revert out. induction H as [|f l Hf _ IH]; intros out; [done|]. change (write_fields (f :: l)) with (field_bytes_of f ++ write_fields l).
  rewrite consume_field by done. cbn [read_fields]. destruct f; (destruct (consume _ _ _ _ out) as [out' [e|]]; [done|apply IH]).
Qed.

Lemma read_fields_app l1 l2 out o1 : read_fields l1 out = (o1, None) -> read_fields (l1 ++ l2) out = read_fields l2 o1.
Proof.
  revert out. induction l1 as [|f l1 IH]; intros out; cbn [app read_fields]; [by intros [= ->]|].
  destruct (match f with FBytes n b => _ | FVarint n v => _ end) as [out' [e|]]; [done|apply IH].
Qed.
End Consume.

(** *** Codecs and parameters *)
Definition int32_ok (z : Z) : Prop := - 2 ^ 31 <= z < 2 ^ 31.

Lemma video_codec_roundtrip codec : int32_ok codec -> decodeVideoCodec (encodeVideoCodec codec) = (codec, None).
Proof using LL.
  intros H. unfold decodeVideoCodec, encodeVideoCodec. rewrite appendVarintField_eq. cbn [app].
  rewrite <- (app_nil_r (field_bytes_of _)). rewrite consume_field; [|split; [unfold valid_number; lia|by apply wrap_range]].
  cbn. f_equal. unfold int32_ok in H. unfold swrap, wrap. change (2 ^ (32 - 1)) with (2 ^ 31).
  replace (codec mod 2 ^ 64) with (codec + 2 ^ 32 * (2 ^ 32 * (- (codec / 2 ^ 64)))) by (rewrite Z.mod_eq by lia; lia).
  rewrite <- Z.add_assoc, (Z.add_comm (_ * _)), Z.add_assoc, (Z.mul_comm (2 ^ 32)), Z.mod_add by lia. rewrite Z.mod_small; lia.
Qed.

Definition params_fields (p : ConnectionParametersV4) : list wire_field :=
  (if beqb (cp_PublicKey p) [] then [] else [FBytes 1 (cp_PublicKey p)])
  ++ (if beqb (cp_ICEUfrag p) [] then [] else [FBytes 2 (cp_ICEUfrag p)])
  ++ (if beqb (cp_ICEPwd p) [] then [] else [FBytes 3 (cp_ICEPwd p)])
  ++ map (fun codec => FBytes 4 (encodeVideoCodec codec)) (cp_ReceiveVideoCodecs p)
  ++ (if cp_MaxBitrateBPS p =? 0 then [] else [FVarint 5 (cp_MaxBitrateBPS p)])
  ++ map (fun codec => FBytes 6 (encodeVideoCodec codec)) (cp_EncodeOnlyVideoCodecs p)
  ++ map (fun codec => FBytes 7 (encodeVideoCodec codec)) (cp_DecodeOnlyVideoCodecs p).

Record params_ok (p : ConnectionParametersV4) : Prop := mkParamsOk {
  po_bitrate : in_width 64 (cp_MaxBitrateBPS p);
  po_receive : Forall int32_ok (cp_ReceiveVideoCodecs p);
  po_encode : Forall int32_ok (cp_EncodeOnlyVideoCodecs p);
  po_decode : Forall int32_ok (cp_DecodeOnlyVideoCodecs p);
  po_size : small (encodeConnectionParametersV4 p)
}.

(** The fields of something that fits into memory do as well. *)
Definition number_ok (f : wire_field) : Prop :=
  match f with FBytes n _ => valid_number n | FVarint n v => valid_number n /\ in_width 64 v end.

Lemma fields_small l : Forall number_ok l -> small (write_fields l) -> Forall field_ok l.
Proof using LL.
  intros H. induction H as [|f l Hf _ IH]; intros Hs; [constructor|].
  change (write_fields (f :: l)) with (field_bytes_of f ++ write_fields l) in Hs. unfold small in Hs. rewrite length_app in Hs.
  constructor; [|apply IH; unfold small; lia]. destruct f as [n b|n v]; [|exact Hf]. split; [exact Hf|].
  cbn in Hs. rewrite length_app in Hs. pose proof (bytes_length b). unfold small. lia.
Qed.

Lemma write_codecs n codecs dst :
  fold_left (fun out codec => appendBytesField out n (encodeVideoCodec codec)) codecs dst
  = dst ++ write_fields (map (fun codec => FBytes n (encodeVideoCodec codec)) codecs).
Proof using LL.
  revert dst. induction codecs as [|c codecs IH]; intros dst; cbn [fold_left map]; [by rewrite app_nil_r|].
  rewrite IH, appendBytesField_eq, <- app_assoc. done.
Qed.

Lemma write_optional (b : bool) (f : wire_field) dst : (if negb b then dst ++ field_bytes_of f else dst) = dst ++ write_fields (if b then [] else [f]).
Proof. destruct b; cbn; by rewrite ?app_nil_r. Qed.

Lemma encode_params_fields p : encodeConnectionParametersV4 p = write_fields (params_fields p).
Proof using LL.
  unfold encodeConnectionParametersV4, params_fields. rewrite !appendBytesField_eq, !appendVarintField_eq, !write_codecs, !write_optional, !write_fields_app.
  by rewrite <- !app_assoc.
Qed.

Lemma params_fields_ok p : params_ok p -> Forall field_ok (params_fields p).
Proof using LL.
  intros [H1 H2 H3 H4 H5]. apply fields_small; [|by rewrite <- encode_params_fields].
  unfold params_fields. repeat apply Forall_app_2; repeat case_match; try constructor; try done; try (unfold number_ok, valid_number; lia);
    try (apply Forall_map, Forall_forall; intros; unfold number_ok, valid_number; lia).
Qed.

Lemma read_codecs (n : Z) (add : Z -> ConnectionParametersV4 -> ConnectionParametersV4) codecs out : Forall int32_ok codecs ->
  (forall codec o, int32_ok codec -> params_field n BytesType (encodeVideoCodec codec) 0 o = (add codec o, None)) ->
  read_fields params_field (map (fun codec => FBytes n (encodeVideoCodec codec)) codecs) out = (fold_left (fun o c => add c o) codecs out, None).
Proof.
  intros H Ha. revert out. induction H as [|c codecs Hc _ IH]; intros out; [done|]. cbn [map read_fields fold_left]. by rewrite Ha, IH.
Qed.

Lemma fold_receive codecs o : fold_left (fun o c => add_Receive c o) codecs o
  = mkParams (cp_PublicKey o) (cp_ICEUfrag o) (cp_ICEPwd o) (cp_ReceiveVideoCodecs o ++ codecs) (cp_MaxBitrateBPS o) (cp_EncodeOnlyVideoCodecs o) (cp_DecodeOnlyVideoCodecs o).
Proof. revert o. induction codecs as [|c codecs IH]; intros o; cbn; [rewrite app_nil_r; by destruct o|]. rewrite IH. cbn. by rewrite <- app_assoc. Qed.
Lemma fold_encode codecs o : fold_left (fun o c => add_EncodeOnly c o) codecs o
  = mkParams (cp_PublicKey o) (cp_ICEUfrag o) (cp_ICEPwd o) (cp_ReceiveVideoCodecs o) (cp_MaxBitrateBPS o) (cp_EncodeOnlyVideoCodecs o ++ codecs) (cp_DecodeOnlyVideoCodecs o).
Proof. revert o. induction codecs as [|c codecs IH]; intros o; cbn; [rewrite app_nil_r; by destruct o|]. rewrite IH. cbn. by rewrite <- app_assoc. Qed.
Lemma fold_decode codecs o : fold_left (fun o c => add_DecodeOnly c o) codecs o
  = mkParams (cp_PublicKey o) (cp_ICEUfrag o) (cp_ICEPwd o) (cp_ReceiveVideoCodecs o) (cp_MaxBitrateBPS o) (cp_EncodeOnlyVideoCodecs o) (cp_DecodeOnlyVideoCodecs o ++ codecs).
Proof. revert o. induction codecs as [|c codecs IH]; intros o; cbn; [rewrite app_nil_r; by destruct o|]. rewrite IH. cbn. by rewrite <- app_assoc. Qed.

Lemma params_roundtrip p : params_ok p -> decodeConnectionParametersV4 (encodeConnectionParametersV4 p) = (p, None).
Proof using LL.
  intros Hp. rewrite encode_params_fields. unfold decodeConnectionParametersV4. rewrite consume_fields by by apply params_fields_ok.
  pose proof Hp as [H1 H2 H3 H4 _]. unfold params_fields.
  assert (Hcodec : forall n codec o, int32_ok codec -> (n = 4 \/ n = 6 \/ n = 7) -> params_field n BytesType (encodeVideoCodec codec) 0 o
    = ((if n =? 4 then add_Receive codec o else if n =? 6 then add_EncodeOnly codec o else add_DecodeOnly codec o), None)).
  { intros n codec o Hc [-> | [-> | ->]]; unfold params_field; cbn [Z.eqb Pos.eqb orb bytes_field]; unfold bytes_field; cbn [BytesType Z.eqb Pos.eqb negb];
      by rewrite video_codec_roundtrip. }
  assert (Hopt : forall b n v set o, (forall o, params_field n BytesType v 0 o = (set o, None)) ->
    read_fields params_field (if b : bool then [] else [FBytes n v]) o = (if b then o else set o, None)).
  { intros [] n v set o Hs; [done|]. cbn. by rewrite Hs. }
  erewrite read_fields_app by (by apply (Hopt _ 1 _ (set_PublicKey (cp_PublicKey p)))).
  erewrite read_fields_app by (by apply (Hopt _ 2 _ (set_ICEUfrag (cp_ICEUfrag p)))).
  erewrite read_fields_app by (by apply (Hopt _ 3 _ (set_ICEPwd (cp_ICEPwd p)))).
  erewrite read_fields_app by (apply (read_codecs 4 add_Receive); [done|intros; apply Hcodec; auto]). rewrite fold_receive.
  assert (Hbit : forall o, read_fields params_field (if cp_MaxBitrateBPS p =? 0 then [] else [FVarint 5 (cp_MaxBitrateBPS p)]) o
    = (if cp_MaxBitrateBPS p =? 0 then o else set_MaxBitrate (cp_MaxBitrateBPS p) o, None)) by (intros o; by destruct (_ =? 0)).
  erewrite read_fields_app by apply Hbit.
  erewrite read_fields_app by (apply (read_codecs 6 add_EncodeOnly); [done|intros; apply Hcodec; auto]). rewrite fold_encode.
  rewrite (read_codecs 7 add_DecodeOnly) by (try done; intros; apply Hcodec; auto). rewrite fold_decode. f_equal.
  destruct p as [pk uf pw rc mb en de]. cbn [cp_PublicKey cp_ICEUfrag cp_ICEPwd cp_ReceiveVideoCodecs cp_MaxBitrateBPS cp_EncodeOnlyVideoCodecs cp_DecodeOnlyVideoCodecs].
  destruct (beqb pk []) eqn:E1, (beqb uf []) eqn:E2, (beqb pw []) eqn:E3, (Z.eqb_spec mb 0); cbn;
    repeat match goal with H : beqb _ _ = true |- _ => apply beqb_eq in H end; by subst.
Qed.

(** A field with another number is skipped by the decoder of offers. *)
Lemma versioned_roundtrip p : params_ok p ->
  decodeVersionedConnectionParameters (appendBytesField [] 4 (encodeConnectionParametersV4 p)) = (Some p, None).
Proof using LL.
  intros Hp. rewrite appendBytesField_eq. cbn [app]. unfold decodeVersionedConnectionParameters.
  rewrite <- (app_nil_r (field_bytes_of _)), consume_field by (split; [unfold valid_number; lia|apply Hp]).
  cbn. by rewrite params_roundtrip.
Qed.

Lemma versioned_unknown n b data : valid_number n -> small b -> n <> 4 ->
  decodeVersionedConnectionParameters (field_bytes_of (FBytes n b) ++ data) = decodeVersionedConnectionParameters data.
Proof using LL.
  intros Hn Hb H4. unfold decodeVersionedConnectionParameters. rewrite consume_field by (by split).
  cbn. by rewrite (proj2 (Z.eqb_neq n 4) H4).
Qed.

(** *** ICE candidates *)
Definition socket_fields (r : SocketAddr) : list wire_field :=
  (if beqb (sa_IP r) [] then [] else [FBytes 1 (sa_IP r)]) ++ (if sa_Port r =? 0 then [] else [FVarint 2 (sa_Port r)]).

Record ice_ok (c : IceCandidate) : Prop := mkIceOk {
  io_port : match ice_Removed c with Some r => in_width 32 (sa_Port r) | None => True end;
  io_size : small (EncodeIceCandidate (Some c))
}.

Lemma socket_roundtrip r : in_width 32 (sa_Port r) -> small (write_fields (socket_fields r)) ->
  decodeSocketAddr (write_fields (socket_fields r)) = (r, None).
Proof using LL.
  intros Hp Hs. unfold decodeSocketAddr. rewrite consume_fields; cycle 1.
  { apply fields_small; [|done]. unfold socket_fields. repeat case_match; repeat constructor; unfold valid_number, in_width in *; lia. }
  destruct r as [ip port]. cbn [sa_IP sa_Port] in *. unfold socket_fields. cbn [sa_IP sa_Port].
  destruct (beqb ip []) eqn:E1; [apply beqb_eq in E1 as ->|]; destruct (Z.eqb_spec port 0) as [->|]; cbn; try done; by rewrite wrap_small.
Qed.

Lemma sdp_roundtrip sdp : small sdp -> decodeIceCandidateV3 (appendBytesField [] 1 sdp) = (sdp, None).
Proof using LL.
  intros Hs. unfold decodeIceCandidateV3. rewrite appendBytesField_eq. cbn [app].
  rewrite <- (app_nil_r (field_bytes_of _)), consume_field by (split; [unfold valid_number; lia|done]). done.
Qed.

Definition ice_fields (c : IceCandidate) : list wire_field :=
  match ice_AddedV3 c with Some sdp => [FBytes 2 (appendBytesField [] 1 sdp)] | None => [] end
  ++ match ice_Removed c with Some r => [FBytes 3 (write_fields (socket_fields r))] | None => [] end.

Lemma encode_ice_fields c : EncodeIceCandidate (Some c) = write_fields (ice_fields c).
Proof using LL.
  unfold EncodeIceCandidate, ice_fields. destruct c as [added removed]. cbn [ice_AddedV3 ice_Removed]. rewrite write_fields_app.
  assert (Ho : match added with Some sdp => appendBytesField [] 2 (appendBytesField [] 1 sdp) | None => [] end
    = write_fields (match added with Some sdp => [FBytes 2 (appendBytesField [] 1 sdp)] | None => [] end)).
  { destruct added; [|done]. rewrite appendBytesField_eq. cbn. by rewrite app_nil_r. }
  rewrite Ho. destruct removed as [r|]; [|by rewrite app_nil_r]. rewrite appendBytesField_eq. f_equal.
  unfold socket_fields. rewrite write_fields_app, !appendBytesField_eq, appendVarintField_eq, !write_optional. cbn. by rewrite app_nil_r.
Qed.

Lemma ice_roundtrip c : ice_ok c -> DecodeIceCandidate (EncodeIceCandidate (Some c)) = (c, None).
Proof using LL.
  intros [Hp Hs]. rewrite encode_ice_fields in *.
  assert (Hok : Forall field_ok (ice_fields c)).
  { apply fields_small; [|done]. unfold ice_fields. repeat case_match; repeat constructor; unfold valid_number; lia. }
  unfold DecodeIceCandidate. rewrite consume_fields by done. destruct c as [added removed]. unfold ice_fields in *. cbn [ice_AddedV3 ice_Removed] in *.
  apply Forall_app in Hok as [Ha Hr].
  assert (Hadd : forall sdp, added = Some sdp -> decodeIceCandidateV3 (appendBytesField [] 1 sdp) = (sdp, None)).
  { intros sdp ->. apply sdp_roundtrip. rewrite Forall_singleton in Ha. destruct Ha as [_ Hx]. rewrite appendBytesField_eq in Hx. cbn in Hx.
    unfold small in *. rewrite length_app in Hx. pose proof (bytes_length sdp). lia. }
  assert (Hrem : forall r, removed = Some r -> decodeSocketAddr (write_fields (socket_fields r)) = (r, None)).
  { intros r ->. apply socket_roundtrip; [done|]. rewrite Forall_singleton in Hr. by destruct Hr. }
  destruct added as [sdp|], removed as [r|]; cbn; rewrite ?Hadd, ?Hrem by done; cbn; rewrite ?Hrem by done; done.
Qed.

Lemma accepted_roundtrip callID sequence : in_width 64 callID -> small (encodeAccepted callID sequence) ->
  decodeAccepted (encodeAccepted callID sequence) = (callID, true).
Proof using LL.
  intros Hc Hs. set (accepted := AppendTag [] 1 VarintType ++ AppendVarint [] callID).
  set (rest := AppendTag [] 4 VarintType ++ AppendVarint [] sequence).
  assert (E : encodeAccepted callID sequence = AppendTag [] 1 BytesType ++ AppendBytes [] accepted ++ rest).
  { unfold encodeAccepted. rewrite (varint_append (AppendTag [] 1 VarintType)). fold accepted.
    rewrite (varint_append (AppendTag _ 4 _)), (tag_append (AppendBytes _ _)), (bytes_append (AppendTag [] 1 BytesType)).
    unfold rest. by rewrite <- !app_assoc. }
  assert (Ha : small accepted).
  { rewrite E in Hs. unfold small in *. rewrite !length_app in Hs. pose proof (bytes_length accepted). lia. }
  unfold decodeAccepted. rewrite E.
  pose proof (consume_tag 1 BytesType (AppendBytes [] accepted ++ rest) ltac:(unfold valid_number; lia) ltac:(by right)) as Ht.
  pose proof (tag_progress _ _ _ _ Ht) as Hp. destruct (AppendTag [] 1 BytesType ++ AppendBytes [] accepted ++ rest) as [|x l] eqn:El; [cbn in Hp; lia|].
  cbn [length decode_accepted]. rewrite Ht, <- El, drop_app_length. cbn [Z.eqb Pos.eqb BytesType andb]. rewrite consume_bytes by done.
  unfold accepted. rewrite consume_tag by (unfold valid_number; (lia || by left)). cbn [Z.eqb Pos.eqb VarintType negb orb].
  rewrite drop_app_length. rewrite <- (app_nil_r (AppendVarint [] callID)), consume_varint by done. done.
Qed.
End Wire.

(** ** Call messages ([callmessage.go], [calls.go]) *)
Record pb_Offer := mkPbOffer { pbo_Id : Z; pbo_Type : Z; pbo_Opaque : bytes }.
Record pb_Opaque := mkPbOpaque { pbq_Data : bytes; pbq_Urgency : Z }.
Record pb_Hangup := mkPbHangup { pbh_Id : Z; pbh_Type : Z; pbh_DeviceId : Z }.
Record pb_CallMessage := mkPbCall {
  pbc_Offer : option pb_Offer;
  pbc_Answer : option (Z * bytes);
  pbc_IceUpdate : list (Z * bytes);
  pbc_Busy : option Z;
  pbc_Hangup : option pb_Hangup;
  pbc_Opaque : option pb_Opaque;
  pbc_DestinationDeviceId : Z
}.
Definition OFFER_VIDEO_CALL : Z := 1.

Inductive call_message_type := MessageOffer | MessageAnswer | MessageICE | MessageBusy | MessageHangup | MessageOpaque.
(** The zero value of [CallType] is the empty string. *)
Inductive call_type := CallTypeNone | CallTypeAudio | CallTypeVideo.

Record CallMessage := mkCallMessage {
  cm_ID : Z;
  cm_MessageType : call_message_type;
  cm_Type : call_type;
  cm_DestinationDeviceID : Z;
  cm_HangupType : Z;
  cm_HangupDeviceID : Z;
  cm_OpaqueUrgency : Z;
  cm_OpaqueLength : Z;
  cm_Offer : option Offer;
  cm_Answer : option Answer;
  cm_ICECandidate : option IceCandidate;
  cm_ParseError : option wire_error
}.

(** [events.Call]: who called, when, and the parsed message; [Direction] is
    always incoming. *)
Record Call {I : Type} := mkCall { call_Info : I; call_Timestamp : Z; call_IsRinging : bool; call_Message : CallMessage }.
Arguments Call : clear implicits.
Arguments mkCall {I}.

Section Calls.
Context `{L : WireLib}.

Definition DecodeCallMessage (message : pb_CallMessage) : list CallMessage :=
  let dest := pbc_DestinationDeviceId message in
  match pbc_Offer message with
  | Some offer =>
      let typ := if pbo_Type offer =? OFFER_VIDEO_CALL then CallTypeVideo else CallTypeAudio in
      [mkCallMessage (pbo_Id offer) MessageOffer typ dest 0 0 0 0 (Some (DecodeOffer (pbo_Opaque offer)).1) None None
         (DecodeOffer (pbo_Opaque offer)).2]
  | None => []
  end
  ++ match pbc_Answer message with
     | Some (id, opaque) =>
         [mkCallMessage id MessageAnswer CallTypeNone dest 0 0 0 0 None (Some (DecodeAnswer opaque).1) None (DecodeAnswer opaque).2]
     | None => []
     end
  ++ map (fun '(id, opaque) =>
       mkCallMessage id MessageICE CallTypeNone dest 0 0 0 0 None None (Some (DecodeIceCandidate opaque).1) (DecodeIceCandidate opaque).2)
       (pbc_IceUpdate message)
  ++ match pbc_Busy message with
     | Some id => [mkCallMessage id MessageBusy CallTypeNone dest 0 0 0 0 None None None None]
     | None => []
     end
  ++ match pbc_Hangup message with
     | Some h => [mkCallMessage (pbh_Id h) MessageHangup CallTypeNone dest (pbh_Type h) (pbh_DeviceId h) 0 0 None None None None]
     | None => []
     end
  ++ match pbc_Opaque message with
     | Some o => [mkCallMessage 0 MessageOpaque CallTypeNone dest 0 0 (pbq_Urgency o) (Z.of_nat (length (pbq_Data o))) None None None None]
     | None => []
     end.

Definition parseCallMessage {I} (message : pb_CallMessage) (info : I) (timestamp : Z) : list (Call I) :=
  map (fun parsed => mkCall info timestamp (match cm_MessageType parsed with MessageOffer => true | _ => false end) parsed) (DecodeCallMessage message).

(** ** SRTP keys ([srtp.go]) *)
Record SRTPKey := mkSRTPKey { srtp_Key : bytes; srtp_Salt : bytes }.
Definition SRTPKeySize : nat := 32.
Definition SRTPSaltSize : nat := 12.
Definition srtpKDFInfo : bytes := str "Signal_Calling_20200807_SignallingDH_SRTPKey_KDF".

(** [curve25519.X25519] refuses low order points; [hkdf] gives the bytes asked for. *)
Definition NegotiateSRTPKeys (x25519 : bytes -> bytes -> option bytes) (hkdf : bytes -> bytes -> bytes -> nat -> bytes)
  (localSecret remotePublicKey callerIdentityKey calleeIdentityKey : bytes) : option (SRTPKey * SRTPKey) :=
  match x25519 localSecret remotePublicKey with
  | None => None
  | Some sharedSecret =>
      let info := srtpKDFInfo ++ callerIdentityKey ++ calleeIdentityKey in
      let okm := hkdf sharedSecret (repeat x00 32) info (2 * (SRTPKeySize + SRTPSaltSize))%nat in
      Some (mkSRTPKey (take SRTPKeySize okm) (take SRTPSaltSize (drop SRTPKeySize okm)),
            mkSRTPKey (take SRTPKeySize (drop (SRTPKeySize + SRTPSaltSize) okm)) (drop (2 * SRTPKeySize + SRTPSaltSize) okm))
  end.

(** Both ends of a call derive the same keys, of the sizes the cipher needs. *)
Lemma srtp_keys_agree x25519 hkdf (public : bytes -> bytes) a b caller callee :
  (forall a b, x25519 a (public b) = x25519 b (public a)) -> (forall s salt info n, length (hkdf s salt info n) = n) ->
  NegotiateSRTPKeys x25519 hkdf a (public b) caller callee = NegotiateSRTPKeys x25519 hkdf b (public a) caller callee
  /\ forall k1 k2, NegotiateSRTPKeys x25519 hkdf a (public b) caller callee = Some (k1, k2) ->
       length (srtp_Key k1) = 32%nat /\ length (srtp_Salt k1) = 12%nat /\ length (srtp_Key k2) = 32%nat /\ length (srtp_Salt k2) = 12%nat.
Proof.
  intros Hx Hl. split; [unfold NegotiateSRTPKeys; by rewrite Hx|]. intros k1 k2. unfold NegotiateSRTPKeys.
  destruct (x25519 a (public b)) as [sh|]; [|done]. intros [= <- <-]. cbn [srtp_Key srtp_Salt].
  set (okm := hkdf sh _ _ _). assert (Ho : length okm = 88%nat) by apply Hl. clearbody okm.
  rewrite !length_take, !length_drop, Ho. done.
Qed.
End Calls.

Section Claims.
Context `{L : WireLib} `{LL : !WireLaws L}.

(** What the bridge encodes for RingRTC it decodes again without an error:
    offers and answers with any parameters (codecs are 32-bit integers, the
    bitrate a 64-bit one), ICE candidates that are added or removed, and the
    acceptance message with its call ID; fields that the decoder does not know are
    skipped. *)
Theorem ringrtc_roundtrip p c callID sequence n unknown data :
  params_ok p -> ice_ok c -> in_width 64 callID -> small (encodeAccepted callID sequence) ->
  valid_number n -> n <> 4 -> small unknown ->
  DecodeOffer (EncodeOffer (Some (mkOffer (Some p)))) = (mkOffer (Some p), None)
  /\ DecodeAnswer (EncodeAnswer (Some (mkAnswer (Some p)))) = (mkAnswer (Some p), None)
  /\ DecodeIceCandidate (EncodeIceCandidate (Some c)) = (c, None)
  /\ decodeAccepted (encodeAccepted callID sequence) = (callID, true)
  /\ DecodeOffer (appendBytesField [] n unknown ++ data) = DecodeOffer data.
Proof using LL.
  intros Hp Hc Hid Hs Hn H4 Hu. unfold DecodeOffer, DecodeAnswer, EncodeOffer, EncodeAnswer. rewrite !versioned_roundtrip by done.
  split_and!; [done|done|by apply ice_roundtrip|by apply accepted_roundtrip|].
  rewrite appendBytesField_eq. cbn [app]. by rewrite versioned_unknown.
Qed.

(** An offer that reaches the bridge in a call message becomes exactly one
    ringing event with the parameters of the caller, whatever other parts the
    message has; every ICE update becomes an event of its own, in order. *)
Theorem call_message_events {I} (info : I) timestamp id typ p ices answer busy hangup opaque device :
  params_ok p -> Forall (fun ic => ice_ok ic.2) ices ->
  let message := mkPbCall (Some (mkPbOffer id typ (EncodeOffer (Some (mkOffer (Some p)))))) answer
                   (map (fun ic => (ic.1, EncodeIceCandidate (Some ic.2))) ices) busy hangup opaque device in
  let calls := parseCallMessage message info timestamp in
  map call_Message (filter (fun c => call_IsRinging c = true) calls)
    = [mkCallMessage id MessageOffer (if typ =? OFFER_VIDEO_CALL then CallTypeVideo else CallTypeAudio) device 0 0 0 0
         (Some (mkOffer (Some p))) None None None]
  /\ omap (fun c => cm_ICECandidate (call_Message c)) calls = map snd ices
  /\ Forall (fun c => call_Info c = info /\ call_Timestamp c = timestamp) calls.
Proof using LL.
  intros Hp Hices message calls.
  assert (Hice : map (fun '(id, opaque) => mkCallMessage id MessageICE CallTypeNone device 0 0 0 0 None None
      (Some (DecodeIceCandidate opaque).1) (DecodeIceCandidate opaque).2) (map (fun ic => (ic.1, EncodeIceCandidate (Some ic.2))) ices)
    = map (fun ic => mkCallMessage ic.1 MessageICE CallTypeNone device 0 0 0 0 None None (Some ic.2) None) ices).
  { rewrite map_map. apply map_ext_in. intros [i c] Hin%list_elem_of_In. cbn [fst snd].
    rewrite ice_roundtrip; [done|]. by apply (proj1 (Forall_forall _ _) Hices (i, c)). }
  unfold calls, parseCallMessage, DecodeCallMessage, message. cbn [pbc_Offer pbc_Answer pbc_IceUpdate pbc_Busy pbc_Hangup pbc_Opaque pbc_DestinationDeviceId].
  rewrite Hice. clear Hice. unfold DecodeOffer, EncodeOffer. cbn [pbo_Id pbo_Type pbo_Opaque]. rewrite versioned_roundtrip by done.
  rewrite !map_app, !map_map, !filter_app, !omap_app, !map_app. split_and!.
  - assert (Hf : filter (fun c : Call I => call_IsRinging c = true) (map (fun ic => mkCall info timestamp false
      (mkCallMessage ic.1 MessageICE CallTypeNone device 0 0 0 0 None None (Some ic.2) None)) ices) = []).
    { clear. induction ices as [|ic ices IH]; [done|]. exact IH. }
    cbn. rewrite Hf. destruct answer as [[]|], busy, hangup, opaque; reflexivity.
  - cbn. assert (Hm : omap (fun c : Call I => cm_ICECandidate (call_Message c)) (map (fun ic => mkCall info timestamp false
      (mkCallMessage ic.1 MessageICE CallTypeNone device 0 0 0 0 None None (Some ic.2) None)) ices) = map snd ices).
    { clear. induction ices as [|ic ices IH]; [done|]. cbn. by rewrite IH. }
    rewrite Hm. destruct answer as [[]|], busy, hangup, opaque; cbn; by rewrite ?app_nil_r.
  - apply Forall_app_2; [by repeat constructor|]. repeat apply Forall_app_2; try (apply Forall_map, Forall_forall; done).
Qed.
End Claims.

(** ** The protobuf wire format satisfies the laws *)
Module SampleWire.

Definition consumed (data rest : bytes) : nat := (length data - length rest)%nat.

Definition read_varint (data : bytes) : option (Z * nat) :=
  match Uvarint.read_uvarint data with Ok (v, rest) => Some (v, consumed data rest) | _ => None end.

Definition read_tag (data : bytes) : option (Z * Z * nat) :=
  match read_varint data with
  | Some (v, k) => if v / 8 <? 1 then None else Some (v / 8, v mod 8, k)
  | None => None
  end.

Definition read_bytes (data : bytes) : option (bytes * nat) :=
  match read_varint data with
  | Some (n, k) =>
      if n <=? Z.of_nat (length data - k) then Some (take (Z.to_nat n) (drop k data), (k + Z.to_nat n)%nat) else None
  | None => None
  end.

#[export] Instance wire : WireLib := {
  AppendTag dst n t := dst ++ Uvarint.append_uvarint (n * 8 + t);
  AppendBytes dst b := dst ++ Uvarint.append_uvarint (Z.of_nat (length b)) ++ b;
  AppendVarint dst v := dst ++ Uvarint.append_uvarint v;
  ConsumeTag := read_tag;
  ConsumeBytes := read_bytes;
  ConsumeVarint := read_varint;
  ConsumeFieldValue n t data :=
    if t =? 0 then snd <$> read_varint data
    else if t =? 2 then snd <$> read_bytes data
    else if t =? 5 then (if (4 <=? length data)%nat then Some 4%nat else None)
    else if t =? 1 then (if (8 <=? length data)%nat then Some 8%nat else None)
    else None
}.

Lemma read_varint_append v rest : in_width 64 v ->
  read_varint (Uvarint.append_uvarint v ++ rest) = Some (v, length (Uvarint.append_uvarint v)).
Proof. intros H. unfold read_varint, consumed. rewrite Uvarint.read_append by done. rewrite length_app. do 2 f_equal. lia. Qed.

Lemma read_varint_bound data v k : read_varint data = Some (v, k) -> (0 < k <= length data)%nat /\ in_width 64 v.
Proof.
  unfold read_varint, consumed. destruct (Uvarint.read_uvarint data) as [[v' rest]| |] eqn:E; [|done..]. intros [= -> <-].
  split; [|by eapply Uvarint.read_uvarint_range]. apply Uvarint.read_uvarint_suffix in E as (l & -> & Hl). rewrite length_app. lia.
Qed.

Lemma read_bytes_bound data b k : read_bytes data = Some (b, k) -> (k <= length data)%nat.
Proof.
  unfold read_bytes. destruct (read_varint data) as [[n j]|] eqn:E; [|done]. apply read_varint_bound in E as [Hj Hn].
  destruct (Z.leb_spec n (Z.of_nat (length data - j))); [|done]. intros [= _ <-]. unfold in_width in Hn. lia.
Qed.

#[export] Instance wire_laws : WireLaws wire.
Proof.
  constructor; cbn [AppendTag AppendBytes AppendVarint ConsumeTag ConsumeBytes ConsumeVarint ConsumeFieldValue wire app]; intros.
  - done.
  - done.
  - done.
  - unfold read_tag. rewrite read_varint_append by (unfold valid_number, in_width, VarintType, BytesType in *; lia).
    replace ((n * 8 + t) / 8) with n by (unfold VarintType, BytesType in *; lia). replace ((n * 8 + t) mod 8) with t by (unfold VarintType, BytesType in *; lia).
    destruct (Z.ltb_spec n 1); [unfold valid_number in *; lia|done].
  - rewrite length_app. lia.
  - unfold read_bytes. rewrite <- app_assoc, read_varint_append by (unfold small, in_width in *; lia).
    rewrite !length_app, drop_app_length, Nat2Z.id, take_app_length.
    destruct (Z.leb_spec (Z.of_nat (length b)) (Z.of_nat (length (Uvarint.append_uvarint (Z.of_nat (length b))) + (length b + length rest)
      - length (Uvarint.append_uvarint (Z.of_nat (length b)))))); [done|lia].
  - by apply read_varint_append.
  - unfold read_tag in *. destruct (read_varint data) as [[v j]|] eqn:E; [|done]. destruct (v / 8 <? 1); [done|]. simplify_eq. by eapply read_varint_bound.
  - by eapply read_bytes_bound.
  - apply read_varint_bound in H as [[? ?] ?]. done.
  - repeat case_match; simplify_eq; try (by apply Nat.leb_le).
    + destruct (read_varint data) as [[v j]|] eqn:E; [|done]. cbn in H. simplify_eq. apply read_varint_bound in E. lia.
    + destruct (read_bytes data) as [[v j]|] eqn:E; [|done]. cbn in H. simplify_eq. by eapply read_bytes_bound.
Qed.

Definition sample_params : ConnectionParametersV4 := mkParams (repeat x01 32) (str "uf") (str "pw") [8; 40] 30000 [46] [9].
Definition sample_ice : IceCandidate := mkIce (Some (str "candidate")) (Some (mkSocket [x7f; x00; x00; x01] 443)).

Lemma ringrtc_roundtrip_witness :
  DecodeOffer (EncodeOffer (Some (mkOffer (Some sample_params)))) = (mkOffer (Some sample_params), None)
  /\ DecodeIceCandidate (EncodeIceCandidate (Some sample_ice)) = (sample_ice, None).
Proof.
  destruct (ringrtc_roundtrip sample_params sample_ice 77 3 9 (str "new") []) as (H1 & _ & H2 & _).
  - constructor; [by vm_compute|repeat constructor; by vm_compute..|by vm_compute].
  - constructor; by vm_compute.
  - by vm_compute.
  - by vm_compute.
  - by vm_compute.
  - done.
  - by vm_compute.
  - exact (conj H1 H2).
Defined.

Lemma call_message_events_witness :
  omap (fun c => cm_ICECandidate (call_Message c))
    (parseCallMessage (mkPbCall (Some (mkPbOffer 77 1 (EncodeOffer (Some (mkOffer (Some sample_params)))))) None
      [(77, EncodeIceCandidate (Some sample_ice))] None None None 2) tt 1000) = [sample_ice].
Proof.
  apply (call_message_events tt 1000 77 1 sample_params [(77, sample_ice)] None None None None 2).
  - constructor; [by vm_compute|repeat constructor; by vm_compute..|by vm_compute].
  - constructor; [|constructor]. constructor; by vm_compute.
Defined.
End SampleWire.
