(* ===== verification/CallMedia.v ===== *)
(** The Signal side of a call: media legs ([pkg/signalmeow/ringrtc/media.go],
    [rtp_data.go]) and the call messages that set them up
    ([pkg/connector/callbridging.go]).

    The ICE agent and the SRTP sessions are library code: [AgentWorld] says how
    the agent behaves, the sessions are known by the keys they use. *)
From S2P Require Import Prelude GoLib RingRTC.

Definition OpusPayloadType : Z := 102.
Definition VP8PayloadType : Z := 108.
Definition CallerAudioSSRC : Z := 1002.
Definition CallerVideoSSRC : Z := 1003.
Definition CalleeAudioSSRC : Z := 2002.
Definition CalleeVideoSSRC : Z := 2003.
Definition RTPDataPayloadType : Z := 101.
Definition RTPDataSSRC : Z := 13.
Definition VideoCodecVP8 : Z := 8.

(** ** Legs *)

(** What the library does when a leg is made: the private key (or no
    randomness), whether there is an agent, its credentials, and whether it
    takes the handler. *)
Record AgentWorld := mkAgent {
  ag_secret : option bytes;
  ag_new : bool;
  ag_credentials : option (bytes * bytes);
  ag_handler : bool
}.

Inductive media_error :=
| GenerateKey | CreateAgent | AgentCredentials | CandidateHandler | IncompleteRemote | InvalidRemoteKey | CannotAnswer
| NoRemoteParameters | ConnectICE | StartSRTP | PrepareStream | StartSRTCP | NotConnected.

Definition no_key : SRTPKey := mkSRTPKey [] [].

(** The keys of the sessions and the streams they read. *)
Record Session := mkSRTPSession { se_local : SRTPKey; se_remote : SRTPKey; se_streams : list Z }.

Record MediaLeg := mkLeg {
  ml_Parameters : ConnectionParametersV4;
  ml_remote : option ConnectionParametersV4;
  ml_dial : bool;
  ml_localKey : SRTPKey;
  ml_remoteKey : SRTPKey;
  ml_privateSecret : bytes;
  ml_callerIdentityKey : bytes;
  ml_calleeIdentityKey : bytes;
  ml_SRTP : option Session;
  ml_closed : bool
}.

(** How dialling and the SRTP sessions end. *)
Record ConnectWorld := mkConnect { cw_ice : bool; cw_srtp : bool; cw_streams : list Z; cw_srtcp : bool }.

Definition with_codec (videoCodec : Z) (p : ConnectionParametersV4) : ConnectionParametersV4 :=
  if videoCodec =? 0 then p
  else mkParams (cp_PublicKey p) (cp_ICEUfrag p) (cp_ICEPwd p) [videoCodec] (cp_MaxBitrateBPS p) [videoCodec] [videoCodec].

Definition complete_remote (remote : option ConnectionParametersV4) : option ConnectionParametersV4 :=
  match remote with
  | Some p => if (length (cp_PublicKey p) =? 32)%nat && negb (beqb (cp_ICEUfrag p) []) && negb (beqb (cp_ICEPwd p) []) then Some p else None
  | None => None
  end.

Section Media.
Context (public : bytes -> bytes) (x25519 : bytes -> bytes -> option bytes) (hkdf : bytes -> bytes -> bytes -> nat -> bytes).

(** The leg and its secret; an agent of a leg that is not returned is closed
    by then. *)
Definition newMediaLeg (ag : AgentWorld) (videoCodec : Z) : outcome media_error (MediaLeg * bytes) :=
  match ag_secret ag with
  | None => Err GenerateKey
  | Some secret =>
      if negb (ag_new ag) then Err CreateAgent
      else
        match ag_credentials ag with
        | None => Err AgentCredentials
        | Some (ufrag, pwd) =>
            let params := with_codec videoCodec (mkParams (public secret) ufrag pwd [] 2000000 [] []) in
            if negb (ag_handler ag) then Err CandidateHandler
            else Ok (mkLeg params None false no_key no_key [] [] [] None false, secret)
        end
  end.

Definition NewIncomingMediaLeg (ag : AgentWorld) (remote : option ConnectionParametersV4) (caller callee : bytes) (videoCodec : Z)
  : outcome media_error MediaLeg :=
  match complete_remote remote with
  | None => Err IncompleteRemote
  | Some remote =>
      let! (leg, secret) := newMediaLeg ag videoCodec in
      match NegotiateSRTPKeys x25519 hkdf secret (cp_PublicKey remote) caller callee with
      | None => Err InvalidRemoteKey
      | Some (offer, answer) => Ok (mkLeg (ml_Parameters leg) (Some remote) false answer offer [] [] [] None false)
      end
  end.

Definition NewOutgoingMediaLeg (ag : AgentWorld) (caller callee : bytes) (videoCodec : Z) : outcome media_error MediaLeg :=
  let! (leg, secret) := newMediaLeg ag videoCodec in
  Ok (mkLeg (ml_Parameters leg) None true no_key no_key secret caller callee None false).

(** The leg after the call, and the error: the secret is gone even if the keys
    could not be made. *)
Definition SetRemoteAnswer (remote : option ConnectionParametersV4) (l : MediaLeg) : MediaLeg * outcome media_error unit :=
  match complete_remote remote with
  | None => (l, Err IncompleteRemote)
  | Some remote =>
      if negb (ml_dial l) || beqb (ml_privateSecret l) [] || bool_decide (is_Some (ml_remote l)) then (l, Err CannotAnswer)
      else
        let cleared r lk rk := mkLeg (ml_Parameters l) r (ml_dial l) lk rk [] [] [] (ml_SRTP l) (ml_closed l) in
        match NegotiateSRTPKeys x25519 hkdf (ml_privateSecret l) (cp_PublicKey remote) (ml_callerIdentityKey l) (ml_calleeIdentityKey l) with
        | None => (cleared None (ml_localKey l) (ml_remoteKey l), Err InvalidRemoteKey)
        | Some (offer, answer) => (cleared (Some remote) offer answer, Ok tt)
        end
  end.

Definition remote_streams (dial : bool) : list Z :=
  if dial then [RTPDataSSRC; CalleeAudioSSRC; CalleeVideoSSRC] else [RTPDataSSRC; CallerAudioSSRC; CallerVideoSSRC].

Definition set_SRTP (s : option Session) (l : MediaLeg) : MediaLeg :=
  mkLeg (ml_Parameters l) (ml_remote l) (ml_dial l) (ml_localKey l) (ml_remoteKey l) (ml_privateSecret l) (ml_callerIdentityKey l) (ml_calleeIdentityKey l) s
    (ml_closed l).

(** The ICE credentials that are dialled, or with which the dial of the peer is
    accepted: the role of the agent is left to the ICE library. *)
Definition Connect (w : ConnectWorld) (l : MediaLeg) : outcome media_error ((bytes * bytes) * MediaLeg) :=
  match ml_remote l with
  | None => Err NoRemoteParameters
  | Some remote =>
      if beqb (srtp_Key (ml_localKey l)) [] || beqb (srtp_Key (ml_remoteKey l)) [] then Err NoRemoteParameters
      else if negb (cw_ice w) then Err ConnectICE
      else if negb (cw_srtp w) then Err StartSRTP
      else if negb (forallb (fun ssrc => existsb (Z.eqb ssrc) (cw_streams w)) (remote_streams (ml_dial l))) then Err PrepareStream
      else if negb (cw_srtcp w) then Err StartSRTCP
      else Ok ((cp_ICEUfrag remote, cp_ICEPwd remote),
               set_SRTP (Some (mkSRTPSession (ml_localKey l) (ml_remoteKey l) (remote_streams (ml_dial l)))) l)
  end.

Definition leg_Close (l : MediaLeg) : MediaLeg :=
  mkLeg (ml_Parameters l) (ml_remote l) (ml_dial l) (ml_localKey l) (ml_remoteKey l) [] [] [] None true.

(** [RTPReader], [RTPWriter], [WriteRTCP], [HandleRTCP] and [AcceptRTP] need a
    session. *)
Definition leg_session (l : MediaLeg) : outcome media_error Session := of_option NotConnected (ml_SRTP l).

(** *** RTP *)

Record RTPHeader := mkRTP { rtp_PayloadType : Z; rtp_SSRC : Z; rtp_SequenceNumber : Z; rtp_Timestamp : Z; rtp_Marker : bool }.
Record RTPWriter := mkWriter { wr_payloadType : Z; wr_ssrc : Z }.
Definition new_RTPWriter (l : MediaLeg) (payloadType ssrc : Z) : outcome media_error RTPWriter :=
  let! _ := leg_session l in Ok (mkWriter payloadType ssrc).
(** The header of the packet that is written. *)
Definition WriteRTP (w : RTPWriter) (h : RTPHeader) : RTPHeader :=
  mkRTP (wr_payloadType w) (wr_ssrc w) (rtp_SequenceNumber h) (rtp_Timestamp h) (rtp_Marker h).

Definition SendAccepted `{WireLib} (l : MediaLeg) (callID sequence : Z) : outcome media_error (RTPHeader * bytes) :=
  let! w := new_RTPWriter l RTPDataPayloadType RTPDataSSRC in
  Ok (WriteRTP w (mkRTP 0 0 sequence sequence false), encodeAccepted callID sequence).

(** [packets]: what is read until reading fails; [None] when nothing accepts
    the call before. *)
Fixpoint wait_accepted `{WireLib} (callID : Z) (packets : list (RTPHeader * bytes)) : bool :=
  match packets with
  | [] => false
  | (h, payload) :: packets =>
      if negb (rtp_PayloadType h =? RTPDataPayloadType) then wait_accepted callID packets
      else
        let '(acceptedID, ok) := decodeAccepted payload in
        if ok && (acceptedID =? callID) then true else wait_accepted callID packets
  end.
Definition WaitAccepted `{WireLib} (l : MediaLeg) (callID : Z) (packets : list (RTPHeader * bytes)) : outcome media_error bool :=
  let! _ := leg_session l in Ok (wait_accepted callID packets).

End Media.

(** *** [mediaPacketMux]: RTP and RTCP from one connection *)

Definition is_rtcp (packet : bytes) : bool :=
  match packet with _ :: b :: _ => (192 <=? b2z b) && (b2z b <=? 223) | _ => false end.

(** [readLoop]: reading, putting a packet into its channel, ended (and [done]
    closed). *)
Inductive mux_pc := MuxRead | MuxPut (packet : bytes) | MuxDone.
Record Mux := mkMux { mx_pc : mux_pc; mx_rtp : list bytes; mx_rtcp : list bytes; mx_closed : bool }.
Definition mux_start : Mux := mkMux MuxRead [] [] false.
Definition rtp_capacity : nat := 32.
Definition rtcp_capacity : nat := 8.

(** A packet arrives (after [Close] reading fails), the loop puts a packet into
    a channel, a session reads one, or the mux is closed. *)
Inductive mux_label := MuxPacket (packet : bytes) | MuxReadFails | MuxSend | MuxTake (rtcp : bool) | MuxClose.

Definition mux_step (l : mux_label) (m : Mux) : option Mux :=
  match l with
  | MuxPacket packet =>
      if mx_closed m then None
      else match mx_pc m with MuxRead => Some (mkMux (MuxPut packet) (mx_rtp m) (mx_rtcp m) false) | _ => None end
  | MuxReadFails => match mx_pc m with MuxRead => Some (mkMux MuxDone (mx_rtp m) (mx_rtcp m) (mx_closed m)) | _ => None end
  | MuxSend =>
      match mx_pc m with
      | MuxPut packet =>
          if is_rtcp packet then
            if (length (mx_rtcp m) <? rtcp_capacity)%nat then Some (mkMux MuxRead (mx_rtp m) (mx_rtcp m ++ [packet]) (mx_closed m)) else None
          else if (length (mx_rtp m) <? rtp_capacity)%nat then Some (mkMux MuxRead (mx_rtp m ++ [packet]) (mx_rtcp m) (mx_closed m)) else None
      | _ => None
      end
  | MuxTake true => match mx_rtcp m with _ :: l => Some (mkMux (mx_pc m) (mx_rtp m) l (mx_closed m)) | [] => None end
  | MuxTake false => match mx_rtp m with _ :: l => Some (mkMux (mx_pc m) l (mx_rtcp m) (mx_closed m)) | [] => None end
  | MuxClose => Some (mkMux (mx_pc m) (mx_rtp m) (mx_rtcp m) true)
  end.

(** When nobody reads RTCP any more, a loop that waits with an RTCP packet
    never ends: the channel it waits on for the end is closed only by itself. *)
Definition mux_stuck (m : Mux) : Prop :=
  exists packet, mx_pc m = MuxPut packet /\ is_rtcp packet = true /\ length (mx_rtcp m) = rtcp_capacity.
Lemma mux_leaks m l m' : mux_stuck m -> l <> MuxTake true -> mux_step l m = Some m' -> mux_stuck m'.
Proof.
  intros (packet & Hpc & Hr & Hl) Hn H. exists packet. unfold mux_step in H. rewrite Hpc, ?Hr, ?Hl in H.
  destruct l as [p| | |[]|]; cbn in H; repeat case_match; simplify_eq; cbn; done.
Qed.

(** ** Call messages ([callbridging.go]) *)

Section Messages.
Context `{L : WireLib}.

Definition OFFER_AUDIO_CALL : Z := 0.
Definition HANGUP_NORMAL : Z := 0.
Definition HANGUP_ACCEPTED : Z := 1.
Definition HANGUP_DECLINED : Z := 2.
Definition HANGUP_BUSY : Z := 3.

(** Absent fields have their default; no destination device is [0]. *)
Definition no_message : pb_CallMessage := mkPbCall None None [] None None None 0.

Definition signalAnswerMessage (callID destinationDevice : Z) (params : option ConnectionParametersV4) : pb_CallMessage :=
  mkPbCall None (Some (callID, EncodeAnswer (Some (mkAnswer params)))) [] None None None destinationDevice.
Definition signalOfferMessage (callID : Z) (callType : call_type) (params : option ConnectionParametersV4) : pb_CallMessage :=
  let offerType := match callType with CallTypeVideo => OFFER_VIDEO_CALL | _ => OFFER_AUDIO_CALL end in
  mkPbCall (Some (mkPbOffer callID offerType (EncodeOffer (Some (mkOffer params))))) None [] None None None 0.
Definition signalICEMessage (callID : Z) (destinationDevice : option Z) (candidate : bytes) : pb_CallMessage :=
  mkPbCall None None [(callID, EncodeIceCandidate (Some (mkIce (Some candidate) None)))] None None None (default 0 destinationDevice).
Definition signalHangupMessage (callID : Z) : pb_CallMessage := mkPbCall None None [] None (Some (mkPbHangup callID HANGUP_NORMAL 0)) None 0.
Definition signalBusyMessage (callID : Z) : pb_CallMessage := mkPbCall None None [] (Some callID) None None 0.
Definition signalAcceptedMessage (callID winningDevice : Z) : pb_CallMessage :=
  mkPbCall None None [] None (Some (mkPbHangup callID HANGUP_ACCEPTED winningDevice)) None 0.

End Messages.

(** ** Both ends of a call *)

Section Agreement.
Context `{L : WireLib} `{LL : !WireLaws L}.
Context (public : bytes -> bytes) (x25519 : bytes -> bytes -> option bytes) (hkdf : bytes -> bytes -> bytes -> nat -> bytes).
(** Diffie-Hellman, and HKDF gives the length asked for. *)
Context (x25519_comm : forall a b, x25519 a (public b) = x25519 b (public a)).
Context (public_length : forall a, length (public a) = 32%nat).
Context (hkdf_length : forall s salt info n, length (hkdf s salt info n) = n).

Definition good_agent (ag : AgentWorld) (secret ufrag pwd : bytes) : Prop :=
  ag = mkAgent (Some secret) true (Some (ufrag, pwd)) true /\ secret <> [] /\ ufrag <> [] /\ pwd <> [].
Definition good_connect (w : ConnectWorld) : Prop :=
  cw_ice w = true /\ cw_srtp w = true /\ cw_srtcp w = true
  /\ Forall (fun ssrc => ssrc ∈ cw_streams w) [RTPDataSSRC; CallerAudioSSRC; CallerVideoSSRC; CalleeAudioSSRC; CalleeVideoSSRC].

Lemma with_codec_key v p : cp_PublicKey (with_codec v p) = cp_PublicKey p.
Proof. unfold with_codec. by destruct (v =? 0). Qed.
Lemma with_codec_ice v p : cp_ICEUfrag (with_codec v p) = cp_ICEUfrag p /\ cp_ICEPwd (with_codec v p) = cp_ICEPwd p.
Proof. unfold with_codec. by destruct (v =? 0). Qed.

Lemma complete_remote_ok p : length (cp_PublicKey p) = 32%nat -> cp_ICEUfrag p <> [] -> cp_ICEPwd p <> [] -> complete_remote (Some p) = Some p.
Proof.
  intros H1 H2 H3. unfold complete_remote. rewrite H1, (proj2 (beqb_neq _ _) H2), (proj2 (beqb_neq _ _) H3). done.
Qed.

Lemma agent_complete ag secret ufrag pwd v : good_agent ag secret ufrag pwd ->
  complete_remote (Some (with_codec v (mkParams (public secret) ufrag pwd [] 2000000 [] []))) = Some (with_codec v (mkParams (public secret) ufrag pwd [] 2000000 [] [])).
Proof using public_length.
  intros (_ & _ & Hu & Hw). destruct (with_codec_ice v (mkParams (public secret) ufrag pwd [] 2000000 [] [])) as [E1 E2].
  apply complete_remote_ok; rewrite ?with_codec_key, ?E1, ?E2; [apply public_length|done|done].
Qed.

Lemma newMediaLeg_ok ag secret ufrag pwd v : good_agent ag secret ufrag pwd ->
  newMediaLeg public ag v = Ok (mkLeg (with_codec v (mkParams (public secret) ufrag pwd [] 2000000 [] [])) None false no_key no_key [] [] [] None false, secret).
Proof. by intros [-> _]. Qed.

Lemma connect_ok w l remote : good_connect w -> ml_remote l = Some remote -> srtp_Key (ml_localKey l) <> [] -> srtp_Key (ml_remoteKey l) <> [] ->
  Connect w l = Ok ((cp_ICEUfrag remote, cp_ICEPwd remote), set_SRTP (Some (mkSRTPSession (ml_localKey l) (ml_remoteKey l) (remote_streams (ml_dial l)))) l).
Proof.
  intros (H1 & H2 & H3 & H4) Hr Hl Hk. unfold Connect. rewrite Hr, H1, H2, H3, (proj2 (beqb_neq _ _) Hl), (proj2 (beqb_neq _ _) Hk). cbn [orb negb].
  assert (H : forallb (fun ssrc => existsb (Z.eqb ssrc) (cw_streams w)) (remote_streams (ml_dial l)) = true).
  { apply forallb_forall. intros ssrc Hs. apply existsb_exists. exists ssrc. split; [|by apply Z.eqb_refl].
    apply list_elem_of_In. apply list_elem_of_In in Hs. rewrite Forall_forall in H4. apply H4. unfold remote_streams in Hs. destruct (ml_dial l); set_solver. }
  by rewrite H.
Qed.

(** The offer of one bridge and the answer of another, as the events they
    arrive as. *)
Definition offered (callID : Z) (t : call_type) (p : ConnectionParametersV4) : option ConnectionParametersV4 :=
  match DecodeCallMessage (signalOfferMessage callID t (Some p)) with
  | [m] => if bool_decide (cm_ParseError m = None) then cm_Offer m ≫= of_V4 else None
  | _ => None
  end.
Definition answered (callID device : Z) (p : ConnectionParametersV4) : option ConnectionParametersV4 :=
  match DecodeCallMessage (signalAnswerMessage callID device (Some p)) with
  | [m] => if bool_decide (cm_ParseError m = None) then cm_Answer m ≫= an_V4 else None
  | _ => None
  end.

#[local] Instance wire_error_eq_dec : EqDecision wire_error. Proof. solve_decision. Defined.

Lemma offered_ok callID t p : params_ok p -> offered callID t p = Some p.
Proof using LL.
  intros Hp. unfold offered, signalOfferMessage, DecodeCallMessage. cbn [pbc_Offer pbc_Answer pbc_IceUpdate pbc_Busy pbc_Hangup pbc_Opaque pbo_Opaque app map].
  unfold DecodeOffer, EncodeOffer. by rewrite versioned_roundtrip by done.
Qed.
Lemma answered_ok callID device p : params_ok p -> answered callID device p = Some p.
Proof using LL.
  intros Hp. unfold answered, signalAnswerMessage, DecodeCallMessage. cbn [pbc_Offer pbc_Answer pbc_IceUpdate pbc_Busy pbc_Hangup pbc_Opaque app map].
  unfold DecodeAnswer, EncodeAnswer. by rewrite versioned_roundtrip by done.
Qed.

(** What both ends agree on once they are connected. *)
Record legs_match (caller callee : MediaLeg) : Prop := mkMatch {
  lm_sessions : exists s1 s2, ml_SRTP caller = Some s1 /\ ml_SRTP callee = Some s2 /\ se_local s1 = se_remote s2 /\ se_remote s1 = se_local s2
    /\ CallerAudioSSRC ∈ se_streams s2 /\ CallerVideoSSRC ∈ se_streams s2 /\ CalleeAudioSSRC ∈ se_streams s1 /\ CalleeVideoSSRC ∈ se_streams s1
    /\ RTPDataSSRC ∈ se_streams s1
    /\ length (srtp_Key (se_local s1)) = 32%nat /\ length (srtp_Salt (se_local s1)) = 12%nat
    /\ length (srtp_Key (se_remote s1)) = 32%nat /\ length (srtp_Salt (se_remote s1)) = 12%nat;
  lm_secret : ml_privateSecret caller = [] /\ ml_privateSecret callee = []
}.

(** C36: a call that one bridge makes and another answers is set up with the same
    keys: the offer and the answer survive the messages, the key each end
    writes with is the key the other reads with, both of the size of
    AES-256-GCM, each dials the ICE credentials of the other, the streams one
    end writes are streams the other reads, the acceptance that the callee sends
    is recognised, and the secrets are gone. *)
Theorem call_setup_agrees ag1 ag2 s1 s2 u1 u2 w1 w2 k1 k2 idA idB codec t callID device seq :
  good_agent ag1 s1 u1 w1 -> good_agent ag2 s2 u2 w2 -> good_connect k1 -> good_connect k2 -> x25519 s1 (public s2) <> None ->
  params_ok (with_codec codec (mkParams (public s1) u1 w1 [] 2000000 [] [])) -> params_ok (with_codec codec (mkParams (public s2) u2 w2 [] 2000000 [] [])) ->
  in_width 64 callID -> small (encodeAccepted callID seq) ->
  exists out out' inc caller callee,
    NewOutgoingMediaLeg public ag1 idA idB codec = Ok out
    /\ NewIncomingMediaLeg public x25519 hkdf ag2 (offered callID t (ml_Parameters out)) idA idB codec = Ok inc
    /\ SetRemoteAnswer x25519 hkdf (answered callID device (ml_Parameters inc)) out = (out', Ok tt)
    /\ Connect k1 out' = Ok ((u2, w2), caller) /\ Connect k2 inc = Ok ((u1, w1), callee)
    /\ legs_match caller callee
    /\ exists accepted, SendAccepted callee callID seq = Ok accepted /\ WaitAccepted caller callID [accepted] = Ok true.
Proof using LL x25519_comm public_length hkdf_length.
  intros G1 G2 K1 K2 Hx P1 P2 Hid Hs. destruct (srtp_keys_agree x25519 hkdf public s1 s2 idA idB x25519_comm hkdf_length) as [Hk Hlen].
  destruct (NegotiateSRTPKeys x25519 hkdf s1 (public s2) idA idB) as [[ko ka]|] eqn:EN; [|unfold NegotiateSRTPKeys in EN; by destruct (x25519 s1 (public s2))].
  destruct (Hlen _ _ eq_refl) as (L1 & L2 & L3 & L4). clear Hlen.
  set (p1 := with_codec codec (mkParams (public s1) u1 w1 [] 2000000 [] [])) in *. set (p2 := with_codec codec (mkParams (public s2) u2 w2 [] 2000000 [] [])) in *.
  pose proof (agent_complete _ _ _ _ codec G1 : complete_remote (Some p1) = Some p1) as R1.
  pose proof (agent_complete _ _ _ _ codec G2 : complete_remote (Some p2) = Some p2) as R2.
  assert (E1 : cp_PublicKey p1 = public s1) by (unfold p1; by rewrite with_codec_key).
  assert (E2 : cp_PublicKey p2 = public s2) by (unfold p2; by rewrite with_codec_key).
  assert (N1 : srtp_Key ko <> [] /\ srtp_Key ka <> []) by (split; intros E; by rewrite E in *). destruct N1 as [N1 N2].
  unfold NewOutgoingMediaLeg. rewrite (newMediaLeg_ok _ _ _ _ _ G1). eexists _, _, _, _, _. split; [done|]. cbn [ml_Parameters].
  split. { fold p1. unfold NewIncomingMediaLeg. rewrite offered_ok by done. rewrite R1, (newMediaLeg_ok _ _ _ _ _ G2). cbn -[with_codec NegotiateSRTPKeys p1].
    rewrite E1, <- Hk. done. }
  cbn [ml_Parameters]. fold p2. split. { unfold SetRemoteAnswer. rewrite answered_ok by done. rewrite R2. cbn [ml_dial ml_privateSecret ml_remote ml_callerIdentityKey ml_calleeIdentityKey negb orb].
    destruct G1 as (_ & Hn & _). rewrite (proj2 (beqb_neq _ _) Hn). cbn -[with_codec NegotiateSRTPKeys p2]. rewrite E2, EN. done. }
  split. { rewrite (connect_ok _ _ p2) by done. unfold p2. by destruct (with_codec_ice codec (mkParams (public s2) u2 w2 [] 2000000 [] [])) as [-> ->]. }
  split. { rewrite (connect_ok _ _ p1) by done. unfold p1. by destruct (with_codec_ice codec (mkParams (public s1) u1 w1 [] 2000000 [] [])) as [-> ->]. }
  split. { split; [|done]. eexists _, _. split; [done|]. split; [done|]. cbn. split_and!; try done; set_solver. }
  eexists. split; [done|]. cbn. by rewrite accepted_roundtrip, Z.eqb_refl by done.
Qed.
End Agreement.

Module SampleMedia.
Import SampleWire.
Definition byte_xor (a b : byte) : byte := z2b (Z.lxor (b2z a) (b2z b)).
Definition toy_public (a : bytes) : bytes := resize 32 x00 a.
Definition toy_x25519 (a p : bytes) : option bytes := Some (zip_with byte_xor (resize 32 x00 a) p).
Definition toy_hkdf (s salt info : bytes) (n : nat) : bytes := resize n x00 (s ++ info).
Definition toy_agent (secret : bytes) : AgentWorld := mkAgent (Some secret) true (Some (str "uf", str "pw")) true.
Definition toy_connect : ConnectWorld := mkConnect true true [RTPDataSSRC; CallerAudioSSRC; CallerVideoSSRC; CalleeAudioSSRC; CalleeVideoSSRC] true.

Lemma toy_x25519_comm a b : toy_x25519 a (toy_public b) = toy_x25519 b (toy_public a).
Proof.
  unfold toy_x25519, toy_public. f_equal. generalize (resize 32 x00 a) (resize 32 x00 b). intros l. induction l as [|x l IH]; intros [|y k]; try done.
  cbn. f_equal; [|apply IH]. unfold byte_xor. by rewrite Z.lxor_comm.
Qed.

(** Alice calls Bob. *)
Lemma call_setup_agrees_witness :
  exists out out' inc caller callee,
    NewOutgoingMediaLeg toy_public (toy_agent (str "alice")) (str "A") (str "B") VideoCodecVP8 = Ok out
    /\ NewIncomingMediaLeg toy_public toy_x25519 toy_hkdf (toy_agent (str "bob")) (offered 77 CallTypeVideo (ml_Parameters out)) (str "A") (str "B") VideoCodecVP8 = Ok inc
    /\ SetRemoteAnswer toy_x25519 toy_hkdf (answered 77 1 (ml_Parameters inc)) out = (out', Ok tt)
    /\ Connect toy_connect out' = Ok ((str "uf", str "pw"), caller) /\ Connect toy_connect inc = Ok ((str "uf", str "pw"), callee)
    /\ legs_match caller callee
    /\ exists accepted, SendAccepted callee 77 1 = Ok accepted /\ WaitAccepted caller 77 [accepted] = Ok true.
Proof.
  apply (call_setup_agrees toy_public toy_x25519 toy_hkdf toy_x25519_comm (fun a => length_resize a 32 x00) (fun s salt info n => length_resize (s ++ info) n x00)
    (toy_agent (str "alice")) (toy_agent (str "bob")) (str "alice") (str "bob")); try done.
  - split; [done|]. split; [done|]. split; [done|]. rewrite Forall_forall. intros x Hx. exact Hx.
  - split; [done|]. split; [done|]. split; [done|]. rewrite Forall_forall. intros x Hx. exact Hx.
  - constructor; [by vm_compute|repeat constructor; by vm_compute..|by vm_compute].
  - constructor; [by vm_compute|repeat constructor; by vm_compute..|by vm_compute].
Defined.
End SampleMedia.
