(* ===== verification/ReceiveLoops.v ===== *)
(** The loops that [StartReceiveLoops] ([pkg/signalmeow/receiving.go]) starts
    beside the websockets: one forgets handled messages after a while, one
    combines the states of the two websockets into one connection status. *)
From S2P Require Import Prelude GoLib WsMessages.

(** ** Forgetting handled messages

    Times are in nanoseconds.  Writing a response to the server calls
    [writeCallback] with the time before the write; a websocket status other
    than connected resets the count. *)
Record CleanupState := mkCleanup { cl_writeCallbackTimer : Z; cl_callbackCount : Z }.
Inductive cleanup_input := ResetWriteCount | NextTS (now nextTS : Z).

Definition Minute : Z := 60 * 1000000000.

(** The channel holds one time, another one is dropped. *)
Definition writeCallback (ch : option (list Z)) (preWriteTime : Z) : option (list Z) :=
  match ch with
  | Some [] => Some [preWriteTime]
  | _ => ch
  end.

(** The new state, and the time before which handled messages are deleted. *)
Definition cleanup_step (i : cleanup_input) (s : CleanupState) : CleanupState * option Z :=
  match i with
  | ResetWriteCount => (mkCleanup (cl_writeCallbackTimer s) 0, None)
  | NextTS now nextTS =>
      if (4 <=? cl_callbackCount s) && (Minute <? now - cl_writeCallbackTimer s) then
        (mkCleanup nextTS (cl_callbackCount s), Some (cl_writeCallbackTimer s))
      else (mkCleanup (cl_writeCallbackTimer s) (cl_callbackCount s + 1), None)
  end.

Fixpoint cleanup_loop (l : list cleanup_input) (s : CleanupState) : CleanupState * list Z :=
  match l with
  | [] => (s, [])
  | i :: l =>
      let '(s, d) := cleanup_step i s in
      let '(s, ds) := cleanup_loop l s in
      (s, option_list d ++ ds)
  end.

Lemma cleanup_loop_app l1 l2 s :
  cleanup_loop (l1 ++ l2) s = ((cleanup_loop l2 (cleanup_loop l1 s).1).1, (cleanup_loop l1 s).2 ++ (cleanup_loop l2 (cleanup_loop l1 s).1).2).
Proof.
  revert s. induction l1 as [|i l1 IH]; intros s; cbn [cleanup_loop app].
  - cbn [fst snd]. by destruct (cleanup_loop l2 s).
  - destruct (cleanup_step i s) as [s1 d]. rewrite IH. destruct (cleanup_loop l1 s1) as [s2 ds]. cbn [fst snd]. by rewrite app_assoc.
Qed.

(** The writes since the last reset. *)
Definition writes_since (l : list cleanup_input) : Z :=
  foldl (fun n i => match i with ResetWriteCount => 0 | NextTS _ _ => n + 1 end) 0 l.
Definition pre_write_times (l : list cleanup_input) : list Z :=
  omap (fun i => match i with NextTS _ ts => Some ts | ResetWriteCount => None end) l.

(** The count never runs ahead of the writes, and the timer is the start of the
    loop or the time of a write. *)
Lemma cleanup_state l t0 :
  0 <= cl_callbackCount (cleanup_loop l (mkCleanup t0 0)).1 <= writes_since l
  /\ cl_writeCallbackTimer (cleanup_loop l (mkCleanup t0 0)).1 ∈ t0 :: pre_write_times l.
Proof.
  induction l as [|i l [IHc IHt]] using rev_ind; [split; [done|set_solver]|].
  rewrite cleanup_loop_app. unfold writes_since, pre_write_times in *. rewrite foldl_app, omap_app. cbn [foldl fst].
  destruct (cleanup_loop l (mkCleanup t0 0)) as [[t c] ds]. cbn [fst snd cl_callbackCount cl_writeCallbackTimer] in IHc, IHt.
  destruct i as [|now ts]; cbn [cleanup_loop cleanup_step fst snd cl_callbackCount cl_writeCallbackTimer omap list_omap].
  - split; [lia|]. by rewrite app_nil_r.
  - destruct (_ && _); cbn [fst snd cl_callbackCount cl_writeCallbackTimer]; (split; [lia|set_solver]).
Qed.

(** Messages are only forgotten after four responses were written since the last
    reset, and only those that are more than a minute old and older than a write. *)
Theorem cleanup_late l t0 i d :
  (cleanup_step i (cleanup_loop l (mkCleanup t0 0)).1).2 = Some d ->
  4 <= writes_since l /\ d ∈ t0 :: pre_write_times l /\ exists now ts, i = NextTS now ts /\ d + Minute < now.
Proof.
  destruct (cleanup_state l t0) as [Hc Ht]. destruct i as [|now ts]; [done|]. cbn [cleanup_step]. intros H.
  destruct (_ && _) eqn:E; [|done]. apply andb_true_iff in E as [E1 E2]. injection H as <-.
  split_and!; [lia|done|]. exists now, ts. split; [done|lia].
Qed.

(** ** The connection status

    [SignalConnectionStatus] without the error, which only goes into logs and
    messages.  The channels of the websockets are unbuffered; receiving from a
    closed one gives [Connecting], the zero value. *)
Inductive SignalConnectionEvent := EventNone | EventConnected | EventDisconnected | EventLoggedOut | EventError | EventFatalError | EventCleanShutdown.
#[export] Instance SignalConnectionEvent_eq_dec : EqDecision SignalConnectionEvent. Proof. solve_decision. Defined.

Inductive status_input :=
| FromAuth (status : SignalWebsocketConnectionEvent)
| FromUnauth (status : SignalWebsocketConnectionEvent).
Definition received {A} (ch : option A) (zero : A) : A := default zero ch.

Record StatusState := mkStatus {
  sl_lastAuth : SignalWebsocketConnectionEvent;
  sl_lastUnauth : SignalWebsocketConnectionEvent;
  sl_lastConnectionStatus : SignalConnectionEvent;
  (** [initialConnectChan] was closed *)
  sl_initialConnect : bool;
  (** [resetWriteCount] holds a value *)
  sl_reset : bool
}.
Definition status_start (last : SignalConnectionEvent) : StatusState := mkStatus Connecting Connecting last false false.

Definition is_connected (e : SignalWebsocketConnectionEvent) : bool := if e is Connected then true else false.
Definition statusToSend (auth unauth current : SignalWebsocketConnectionEvent) : SignalConnectionEvent :=
  if is_connected auth && is_connected unauth then EventConnected
  else match current with
       | Disconnected => EventDisconnected
       | LoggedOut => EventLoggedOut
       | ConnError => EventError
       | FatalError => EventFatalError
       | CleanShutdown => EventCleanShutdown
       | Connecting | Connected => EventNone
       end.

(** One round of the loop, and the status it puts into the channel. *)
Definition status_step (i : status_input) (s : StatusState) : StatusState * option SignalConnectionEvent :=
  let '(auth, unauth, current, reset) :=
    match i with
    | FromAuth e => (e, sl_lastUnauth s, e, sl_reset s || negb (is_connected e))
    | FromUnauth e => (sl_lastAuth s, e, e, sl_reset s)
    end in
  let status := statusToSend auth unauth current in
  let initial := sl_initialConnect s || is_connected auth && is_connected unauth in
  if bool_decide (status <> EventNone) && bool_decide (status <> sl_lastConnectionStatus s) then
    (mkStatus auth unauth status initial reset, Some status)
  else (mkStatus auth unauth (sl_lastConnectionStatus s) initial reset, None).

Fixpoint status_loop (l : list status_input) (s : StatusState) : StatusState * list SignalConnectionEvent :=
  match l with
  | [] => (s, [])
  | i :: l =>
      let '(s, e) := status_step i s in
      let '(s, es) := status_loop l s in
      (s, option_list e ++ es)
  end.

Lemma status_loop_app l1 l2 s :
  status_loop (l1 ++ l2) s = ((status_loop l2 (status_loop l1 s).1).1, (status_loop l1 s).2 ++ (status_loop l2 (status_loop l1 s).1).2).
Proof.
  revert s. induction l1 as [|i l1 IH]; intros s; cbn [status_loop app].
  - cbn [fst snd]. by destruct (status_loop l2 s).
  - destruct (status_step i s) as [s1 d]. rewrite IH. destruct (status_loop l1 s1) as [s2 ds]. cbn [fst snd]. by rewrite app_assoc.
Qed.

(** *** The reference: the last status of either websocket in the history *)

Definition auth_statuses (l : list status_input) : list SignalWebsocketConnectionEvent :=
  omap (fun i => if i is FromAuth e then Some e else None) l.
Definition unauth_statuses (l : list status_input) : list SignalWebsocketConnectionEvent :=
  omap (fun i => if i is FromUnauth e then Some e else None) l.
Definition input_event (i : status_input) : SignalWebsocketConnectionEvent := match i with FromAuth e | FromUnauth e => e end.
Definition both_connected (l : list status_input) : bool :=
  is_connected (default Connecting (last (auth_statuses l))) && is_connected (default Connecting (last (unauth_statuses l))).

(** What the history says after each of its prefixes. *)
Definition announced (l : list status_input) : SignalConnectionEvent :=
  if both_connected l then EventConnected
  else match input_event <$> last l with
       | Some Disconnected => EventDisconnected
       | Some LoggedOut => EventLoggedOut
       | Some ConnError => EventError
       | Some FatalError => EventFatalError
       | Some CleanShutdown => EventCleanShutdown
       | _ => EventNone
       end.
(** The sequence without [EventNone], and without repetitions of the status
    before. *)
Fixpoint changes (from : SignalConnectionEvent) (l : list SignalConnectionEvent) : list SignalConnectionEvent :=
  match l with
  | [] => []
  | e :: l => if bool_decide (e = EventNone \/ e = from) then changes from l else e :: changes e l
  end.
Fixpoint prefixes {A} (past l : list A) : list (list A) :=
  match l with [] => [] | x :: l => (past ++ [x]) :: prefixes (past ++ [x]) l end.

(** The state after a history. *)
Definition status_ok (past : list status_input) (s : StatusState) : Prop :=
  sl_lastAuth s = default Connecting (last (auth_statuses past)) /\ sl_lastUnauth s = default Connecting (last (unauth_statuses past)).

Lemma status_step_spec past i s :
  status_ok past s ->
  status_ok (past ++ [i]) (status_step i s).1
  /\ (status_step i s).2 = (if bool_decide (announced (past ++ [i]) = EventNone \/ announced (past ++ [i]) = sl_lastConnectionStatus s)
                            then None else Some (announced (past ++ [i])))
  /\ sl_lastConnectionStatus (status_step i s).1 = default (sl_lastConnectionStatus s) (status_step i s).2
  /\ sl_initialConnect (status_step i s).1 = sl_initialConnect s || both_connected (past ++ [i]).
Proof.
  intros [Ha Hu].
  assert (HA : default Connecting (last (auth_statuses (past ++ [i]))) = match i with FromAuth e => e | FromUnauth _ => sl_lastAuth s end).
  { unfold auth_statuses. rewrite omap_app. destruct i; cbn; by rewrite ?last_snoc, ?app_nil_r. }
  assert (HU : default Connecting (last (unauth_statuses (past ++ [i]))) = match i with FromUnauth e => e | FromAuth _ => sl_lastUnauth s end).
  { unfold unauth_statuses. rewrite omap_app. destruct i; cbn; by rewrite ?last_snoc, ?app_nil_r. }
  assert (HN : announced (past ++ [i]) = statusToSend (default Connecting (last (auth_statuses (past ++ [i]))))
                 (default Connecting (last (unauth_statuses (past ++ [i])))) (input_event i)).
  { unfold announced, statusToSend, both_connected. rewrite last_snoc. done. }
  unfold status_ok, both_connected. rewrite HN, HA, HU. clear HN HA HU. unfold status_step.
  destruct i as [e|e]; cbn [input_event]; cbv zeta; destruct (statusToSend _ _ _), (sl_lastConnectionStatus s); cbn; auto.
Qed.

Lemma status_loop_spec l past s :
  status_ok past s ->
  status_ok (past ++ l) (status_loop l s).1
  /\ (status_loop l s).2 = changes (sl_lastConnectionStatus s) (announced <$> prefixes past l)
  /\ sl_initialConnect (status_loop l s).1 = sl_initialConnect s || existsb both_connected (prefixes past l).
Proof.
  revert past s. induction l as [|i l IH]; intros past s Hs; cbn [status_loop prefixes fmap list_fmap changes existsb].
  - by rewrite app_nil_r, orb_false_r.
  - destruct (status_step_spec past i s Hs) as (H1 & H2 & H3 & H4). destruct (status_step i s) as [s1 e]. cbn [fst snd] in H1, H2, H3, H4.
    destruct (IH _ _ H1) as (I1 & I2 & I3). destruct (status_loop l s1) as [s2 es]. cbn [fst snd] in I1, I2, I3 |- *.
    rewrite <- app_assoc in I1. split; [done|]. rewrite I3, H4, orb_assoc. split; [|done]. rewrite I2, H3, H2.
    by case_bool_decide.
Qed.

(** The connection status the bridge is told follows the two websockets:
    the loop sends exactly the changes of the status that the history so far
    implies, which is connected when the last report of each websocket was
    "connected" and otherwise what the latest report says; and the other
    start-up work is triggered when both are connected for the first time. *)
Theorem status_loop_correct l last :
  (status_loop l (status_start last)).2 = changes last (announced <$> prefixes [] l)
  /\ sl_initialConnect (status_loop l (status_start last)).1 = existsb both_connected (prefixes [] l).
Proof. by destruct (status_loop_spec l [] (status_start last)) as (_ & ? & ?). Qed.

(** The channels of the websockets are closed when their connection loop ends.
    The status loop then receives without end, and never sends again. *)
Lemma status_loop_spins n s :
  sl_lastUnauth s = Connected -> (status_loop (replicate n (FromAuth (received None Connecting))) s).2 = [].
Proof.
  revert s. induction n as [|n IH]; intros s Hu; [done|]. cbn [replicate status_loop received default].
  unfold status_step, statusToSend. cbn [is_connected andb negb]. case_bool_decide; [done|]. cbn [andb option_list].
  match goal with |- context [status_loop _ ?s'] => specialize (IH s' Hu); destruct (status_loop _ s') end. done.
Qed.
