(* ===== verification/Contacts.v ===== *)
(** The contact list another device sends ([pkg/signalmeow/contact.go]): a
    stream of length-prefixed contacts, each followed by its avatar, is split
    and stored in the recipient table.  Protobuf decoding is a parameter. *)
From S2P Require Import Prelude GoLib ServiceId Crypto RecipientStore.

Record ContactAvatarDetails := mkAvatar { av_ContentType : option bytes; av_Length : option Z }.
Record ContactDetails := mkContact {
  cd_Aci : option bytes; cd_AciBinary : option bytes; cd_Number : bytes; cd_Name : bytes; cd_Avatar : option ContactAvatarDetails
}.

Inductive contact_error := LengthFailed (e : read_error) | UnmarshalContact | BadUUID (e : id_error) | StoreContact (e : recipient_error).

(** [buf.Next(n)]: what is left if that is less; a negative count panics. *)
Definition buf_Next (n : Z) (b : bytes) : outcome contact_error (bytes * bytes) :=
  if n <? 0 then Panic else Ok (take (Z.to_nat n) b, drop (Z.to_nat n) b).

Definition avatar_length (c : ContactDetails) : Z :=
  match cd_Avatar c with Some a => default 0 (av_Length a) | None => 0 end.

Section Stream.
Context (unmarshal_contact : bytes -> option ContactDetails).

(** [int(msgLen)] of a [uint64] *)
Definition int_of_uint64 (x : Z) : Z := if x <? 2 ^ 63 then x else x - 2 ^ 64.

(** Every round reads at least the byte of a length, so the number of bytes is
    enough fuel. *)
Fixpoint contact_loop (fuel : nat) (buf : bytes) : outcome contact_error (list (ContactDetails * option bytes)) :=
  match fuel, buf with
  | _, [] => Ok []
  | O, _ => Ok []
  | S fuel, _ =>
      let! (msgLen, buf) := wrap_err LengthFailed (Uvarint.read_uvarint buf) in
      match buf with
      | [] => Ok []
      | _ =>
          let! (msgBytes, buf) := buf_Next (int_of_uint64 msgLen) buf in
          let! contactDetails := of_option UnmarshalContact (unmarshal_contact msgBytes) in
          let! (avatar, buf) :=
            if 0 <? avatar_length contactDetails then
              let! (a, buf) := buf_Next (avatar_length contactDetails) buf in Ok (Some a, buf)
            else Ok (None, buf) in
          let! rest := contact_loop fuel buf in
          Ok ((contactDetails, avatar) :: rest)
      end
  end.

(** The contacts and their avatars, which the code returns as two lists of
    the same length. *)
Definition unmarshalContactDetailsMessages (byteStream : bytes) : outcome contact_error (list (ContactDetails * option bytes)) :=
  contact_loop (length byteStream) byteStream.

(** What the sending device writes. *)
Definition contact_stream (l : list (bytes * option bytes)) : bytes :=
  concat (map (fun p => Uvarint.append_uvarint (Z.of_nat (length p.1)) ++ p.1 ++ default [] p.2) l).

(** An entry of the stream and what it stands for. *)
Record stream_entry (p : bytes * option bytes) (c : ContactDetails * option bytes) : Prop := mkStreamEntry {
  se_contact : unmarshal_contact p.1 = Some c.1;
  se_nonempty : p.1 <> [];
  se_small : Z.of_nat (length p.1) < 2 ^ 63;
  se_avatar : p.2 = c.2;
  se_length : avatar_length c.1 = Z.of_nat (length (default [] p.2));
  se_nil : p.2 <> Some []
}.

Lemma buf_Next_app b rest : buf_Next (Z.of_nat (length b)) (b ++ rest) = Ok (b, rest).
Proof. unfold buf_Next. rewrite (proj2 (Z.ltb_ge _ _)) by lia. by rewrite Nat2Z.id, take_app_length, drop_app_length. Qed.

Lemma int_of_uint64_small x : x < 2 ^ 63 -> int_of_uint64 x = x.
Proof. intros H. unfold int_of_uint64. by rewrite (proj2 (Z.ltb_lt _ _)). Qed.

Lemma contact_loop_entry fuel p c rest : stream_entry p c ->
  contact_loop (S fuel) (Uvarint.append_uvarint (Z.of_nat (length p.1)) ++ p.1 ++ default [] p.2 ++ rest) =
  (let! l := contact_loop fuel rest in Ok (c :: l)).
Proof.
  intros [Hc Hn Hs Ha Hl Hnil]. destruct p as [m av], c as [d av']. cbn [fst snd] in *. subst av'.
  cbn [contact_loop]. destruct (Uvarint.append_uvarint (Z.of_nat (length m)) ++ m ++ default [] av ++ rest) as [|b0 s0] eqn:E0.
  { exfalso. apply app_eq_nil in E0 as [_ E0]. apply app_eq_nil in E0 as [E0 _]. done. }
  rewrite <- E0, Uvarint.read_append by (unfold in_width; lia). cbn [wrap_err obind].
  destruct (m ++ default [] av ++ rest) as [|b1 s1] eqn:E1; [by apply app_eq_nil in E1 as [? _]|].
  rewrite <- E1, int_of_uint64_small by done. rewrite buf_Next_app. cbn [obind]. rewrite Hc. cbn [of_option obind].
  rewrite Hl. destruct av as [[|b2 a]|]; cbn [default length id].
  - done.
  - rewrite (proj2 (Z.ltb_lt 0 (Z.of_nat (S (length a))))) by lia. change (S (length a)) with (length (b2 :: a)). by rewrite buf_Next_app.
  - done.
Qed.

(** Every contact comes back with its avatar, and nothing else does: lengths
    and contents cannot be confused.  A message of no bytes is excluded: at the
    end of the stream the code drops it. *)
Theorem contact_stream_roundtrip l cs : Forall2 stream_entry l cs -> unmarshalContactDetailsMessages (contact_stream l) = Ok cs.
Proof.
  intros H. unfold unmarshalContactDetailsMessages. assert (Hf : (length l <= length (contact_stream l))%nat).
  { clear cs H. unfold contact_stream. induction l as [|p l IH]; [done|]. cbn [map concat length]. rewrite !length_app.
    pose proof (Uvarint.put_length_pos Uvarint.MaxVarintLen64 (Z.of_nat (length p.1)) ltac:(done)) as Hp.
    fold (Uvarint.append_uvarint (Z.of_nat (length p.1))) in Hp. lia. }
  revert Hf. generalize (length (contact_stream l)) as fuel. induction H as [|p c l cs He H IH]; intros fuel Hf; [by destruct fuel|].
  destruct fuel as [|fuel]; [cbn in Hf; lia|]. unfold contact_stream. cbn [map concat]. rewrite <- !app_assoc.
  rewrite (contact_loop_entry fuel p c _ He). fold (contact_stream l). cbn in Hf. rewrite IH by lia. done.
Qed.

(** A length of [2^63] or more becomes a negative count. *)
Lemma contact_length_panics n rest : 2 ^ 63 <= n < 2 ^ 64 -> rest <> [] ->
  unmarshalContactDetailsMessages (Uvarint.append_uvarint n ++ rest) = Panic.
Proof.
  intros Hn Hr. unfold unmarshalContactDetailsMessages. destruct (Uvarint.append_uvarint n ++ rest) as [|b s] eqn:E.
  { by apply app_eq_nil in E as [_ ->]. }
  cbn [length contact_loop]. rewrite <- E, Uvarint.read_append by (unfold in_width; lia). cbn [wrap_err obind].
  destruct rest; [done|]. unfold buf_Next, int_of_uint64. rewrite (proj2 (Z.ltb_ge n _)) by lia. by rewrite (proj2 (Z.ltb_lt _ 0)) by lia.
Qed.
End Stream.

Section Store.
Context `{U : UUIDLib} `{C : CryptoLib}.

(** [hex.EncodeToString] *)
Definition hex_string (b : bytes) : bytes := concat (map CanonicalUUID.hex_byte b).

(** The content type of the avatar is read from its details unless it ends in
    [/*]; a missing content type is dereferenced. *)
Definition content_type_panics (contact : ContactDetails) (avatar : option bytes) : bool :=
  negb (beqb (default [] avatar) []) &&
  match cd_Avatar contact with Some a => match av_ContentType a with Some _ => false | None => true end | None => false end.

Definition contact_details_updater (contact : ContactDetails) (avatar : option bytes) : updater_func := fun r =>
  if content_type_panics contact avatar then None
  else
    let e164 := if beqb (cd_Number contact) [] then r_E164 r else cd_Number contact in
    let hash := if beqb (default [] avatar) [] then r_AvatarHash r else hex_string (sha256 (default [] avatar)) in
    Some (set_contact e164 (cd_Name contact) hash r, true).

Definition StoreContactDetailsAsContact (st : RecipientStore) (contact : ContactDetails) (avatar : option bytes)
  : RecipientStore * outcome contact_error Recipient :=
  match ParseStringOrBinaryUUID (default [] (cd_Aci contact)) (cd_AciBinary contact) with
  | Err e => (st, Err (BadUUID e))
  | Panic => (st, Panic)
  | Ok parsedUUID =>
      match LoadAndUpdateRecipient st parsedUUID uuid_Nil (contact_details_updater contact avatar) with
      | (st, Ok (r, _)) => (st, Ok r)
      | (st, Err UpdaterFailed) => (st, Panic)
      | (st, Err e) => (st, Err (StoreContact e))
      | (st, Panic) => (st, Panic)
      end
  end.

(** *** Looking up contacts *)

(** With the profile that [RetrieveProfileByID] returned, if any. *)
Definition profile_updater (profile : option Profile) : updater_func := fun r =>
  match profile with
  | None => Some (r, false)
  | Some p =>
      Some (mkRecipient (r_ACI r) (r_PNI r) (r_E164 r) (r_ContactName r) (r_AvatarHash r) (r_Nickname r) p
              (r_NeedsPNISignature r) (r_Blocked r) (r_Whitelisted r),
            negb (Profile_Equals (r_Profile r) p) || match p_FetchedAt (r_Profile r) with Some _ => false | None => true end)
  end.

Definition fetchContactThenTryAndUpdateWithProfile (st : RecipientStore) (aci : UUID) (profile : option Profile)
  : RecipientStore * outcome recipient_error Recipient :=
  let '(st, res) := LoadAndUpdateRecipient st aci uuid_Nil (profile_updater profile) in (st, outmap fst res).
Definition ContactByACI := fetchContactThenTryAndUpdateWithProfile.
Definition ContactByACIWithRefreshAfter := fetchContactThenTryAndUpdateWithProfile.

Definition LoadRecipientByE164 (st : RecipientStore) (e164 : bytes) : option Recipient :=
  List.find (fun r => beqb (r_E164 r) e164) (rows st).

Definition ContactByE164 (st : RecipientStore) (e164 : bytes) (profile : UUID -> option Profile)
  : RecipientStore * outcome recipient_error (option Recipient) :=
  match LoadRecipientByE164 st e164 with
  | None => (st, Ok None)
  | Some contact =>
      if bool_decide (r_ACI contact = uuid_Nil) then (st, Ok (Some contact))
      else let '(st, res) := fetchContactThenTryAndUpdateWithProfile st (r_ACI contact) (profile (r_ACI contact)) in (st, outmap Some res)
  end.
End Store.
