(* ===== verification/ReceivingDecrypt.v ===== *)
(** Decrypting incoming envelopes ([pkg/signalmeow/receiving_decrypt.go]), the
    buffer of decrypted events ([store/event_buffer.go]) and the identity
    store ([store/identity_store.go]).

    A message is decrypted at most once, because decrypting changes the keys:
    the plaintext is put into a buffer in the same transaction, and comes from
    the buffer when the server delivers the envelope again.  libsignal is a
    parameter; what it does to the sessions, the identities and the other keys
    is up to it. *)
From S2P Require Import Prelude GoLib ServiceId Crypto Storage ChatSettings RecipientStore StorageSync Groups GroupCache GroupChanges GroupUpdate Sending SenderKeys RingRTC Attachments.

(** ** Errors: the sentinel that [errors.Is] finds, and the text *)

Inductive error_kind := Plain | AlreadyProcessed | Canceled.
#[global] Instance error_kind_eq_dec : EqDecision error_kind.
Proof. solve_decision. Defined.
Record recv_error := mkError { e_kind : error_kind; e_text : bytes }.

Definition errorf (text : string) : recv_error := mkError Plain (str text).
(** [fmt.Errorf] with [%w] keeps the sentinel, with [%v] it is lost. *)
Definition wrapf (prefix : string) (e : recv_error) : recv_error := mkError (e_kind e) (str prefix ++ e_text e).
Definition of_sum {A} (r : recv_error + A) : outcome recv_error A := match r with inl e => Err e | inr a => Ok a end.

Definition send_text (e : send_error) : bytes := match e with OtherError what => what | _ => [] end.
Definition sent_error (e : send_error) : recv_error := mkError Plain (send_text e).

(** ** Envelopes and results *)

Definition Envelope_SERVER_DELIVERY_RECEIPT : Z := 5.
Definition CiphertextMessageTypeWhisper : Z := 2.
Definition CiphertextMessageTypePreKey : Z := 3.
Definition CiphertextMessageTypeSenderKey : Z := 7.
Definition CiphertextMessageTypePlaintext : Z := 8.

(** The getters of the protobuf message, apart from the type, which is
    dereferenced. *)
Record Envelope := mkEnvelope {
  env_Type : option Z;
  env_SourceServiceId : bytes;
  env_SourceServiceIdBinary : option bytes;
  env_SourceDeviceId : Z;
  env_DestinationServiceId : bytes;
  env_DestinationServiceIdBinary : option bytes;
  env_ClientTimestamp : Z;
  env_ServerTimestamp : Z;
  env_Content : bytes;
  env_ServerGuid : bytes;
  env_ServerGuidBinary : option bytes;
  env_Urgent : bool;
  env_ReportSpamToken : option bytes
}.

Record DecryptionResult := mkResult {
  res_SenderAddress : option (bytes * Z);
  res_CiphertextHash : option bytes;
  res_Content : option Content;
  res_ContentHint : Z;
  res_Err : option recv_error;
  res_GroupID : option (fixed 32);
  res_Unencrypted : bool;
  res_Retriable : bool;
  res_Ciphertext : bytes;
  res_CiphertextType : Z
}.

Definition empty_result : DecryptionResult := mkResult None None None 0 None None false false [] 0.
Definition error_result (e : recv_error) : DecryptionResult := mkResult None None None 0 (Some e) None false false [] 0.
Definition with_error (e : recv_error) (r : DecryptionResult) : DecryptionResult :=
  mkResult (res_SenderAddress r) (res_CiphertextHash r) (res_Content r) (res_ContentHint r) (Some e) (res_GroupID r) (res_Unencrypted r)
    (res_Retriable r) (res_Ciphertext r) (res_CiphertextType r).
Definition with_group_id (g : option (fixed 32)) (r : DecryptionResult) : DecryptionResult :=
  mkResult (res_SenderAddress r) (res_CiphertextHash r) (res_Content r) (res_ContentHint r) (res_Err r) g (res_Unencrypted r)
    (res_Retriable r) (res_Ciphertext r) (res_CiphertextType r).
Definition decrypted (sender : bytes * Z) (hash : bytes) (content : Content) : DecryptionResult :=
  mkResult (Some sender) (Some hash) (Some content) 0 None None false false [] 0.

(** ** libsignal's part *)

Section Keys.
Context `{SP : SignalProtocol}.

(** What decryption reads and writes: the sessions of the account's ACI, the
    identities of others, and the rest (prekeys, sessions of the PNI, sender
    keys of others). *)
Record Keys {K : Type} := mkKeys {
  k_sessions : gmap (ServiceID * Z) session_record;
  k_identities : gmap ServiceID identity_key;
  k_rest : K
}.
End Keys.
Arguments Keys {SP} K.
Arguments mkKeys {SP K}.

Class IncomingLib `{SP : SignalProtocol} : Type := {
  key_store : Type;
  (** an error, nil or a message *)
  prekey_message : Type;
  DeserializePreKeyMessage : bytes -> recv_error + option prekey_message;
  signal_message : Type;
  DeserializeMessage : bytes -> recv_error + signal_message;
  DecryptPreKey : prekey_message -> bytes * Z -> bytes * Z -> Keys key_store -> Keys key_store * (recv_error + bytes);
  Decrypt : signal_message -> bytes * Z -> bytes * Z -> Keys key_store -> Keys key_store * (recv_error + bytes);
  GroupDecrypt : bytes -> bytes * Z -> Keys key_store -> Keys key_store * (recv_error + bytes);
  (** sealed sender *)
  opened : Type;
  certificate : Type;
  SealedSenderDecryptToUSMC : bytes -> key_store -> recv_error + option opened;
  GetSenderCertificate : opened -> recv_error + certificate;
  Certificate_Validate : certificate -> Z -> recv_error + bool;
  GetMessageType : opened -> recv_error + Z;
  GetContentHint : opened -> recv_error + Z;
  GetGroupID : opened -> recv_error + option (fixed 32);
  GetSenderUUID : certificate -> recv_error + UUID;
  GetDeviceID : certificate -> recv_error + Z;
  GetSenderE164 : certificate -> recv_error + bytes;
  GetContents : opened -> recv_error + bytes;
  (** messages inside the content *)
  DeserializeDecryptionErrorMessage : bytes -> recv_error + decryption_error;
  received_skdm : Type;
  DeserializeSenderKeyDistributionMessage : bytes -> recv_error + received_skdm;
  ProcessSenderKeyDistributionMessage : received_skdm -> bytes * Z -> key_store -> key_store * option recv_error;
  (** identities *)
  IdentityKey_Serialize : identity_key -> option bytes;
  IdentityKey_Equal : identity_key -> identity_key -> option bool;
  VerifyAlternateIdentity : identity_key -> identity_key -> bytes -> recv_error + bool;
  (** archiving the sessions of the PNI with a user, and the identities that
      libsignal saves while it processes the prekeys of a user *)
  archive_pni_sessions : ServiceID -> key_store -> recv_error + key_store;
  prekey_identities : ServiceID -> gmap (ServiceID * Z) session_record -> gmap ServiceID identity_key -> gmap ServiceID identity_key;
  DeriveSVRKey : bytes -> recv_error + bytes
}.

(** A parsed story; the other fields, encoded. *)
Record StoryMessage := mkStory { st_ProfileKey : option bytes; st_Group : option GroupContextV2; st_rest : bytes }.
Record MessageRequestResponse := mkMRR { mrr_ThreadAci : bytes; mrr_ThreadAciBinary : option bytes; mrr_GroupId : option bytes; mrr_Type : Z }.
Record ContactsSync := mkContacts { co_Blob : option AttachmentPointer }.

(** The contents of a sync message that the client does not send itself. *)
Inductive sync_other :=
| In_Keys (accountEntropyPool : bytes)
| In_FetchLatest (type : Z)
| In_Contacts (c : ContactsSync)
| In_CallEvent (raw : bytes)
| In_DeleteForMe (raw : bytes)
| In_MessageRequestResponse (m : MessageRequestResponse)
| In_nothing (read : list (Z * bytes)).

(** Protobuf decoding, and the fields that the model of sending keeps encoded. *)
Class IncomingCodec : Type := {
  unmarshal_envelope : bytes -> option Envelope;
  unmarshal_content : bytes -> option Content;
  group_call_update : DataMessage -> option bytes;
  call_message : bytes -> pb_CallMessage;
  story_message : bytes -> StoryMessage;
  sync_message : bytes -> sync_other;
  (** [time.Time.String] of a Unix time in milliseconds *)
  time_String : Z -> bytes
}.

(** ** Events *)

Record MessageInfo := mkInfo {
  mi_Sender : UUID; mi_ChatID : bytes; mi_SourceDeviceID : Z; mi_GroupRevision : Z; mi_ServerTimestamp : Z;
  mi_ServerGUID : bytes; mi_ReportingToken : option bytes
}.
Inductive chat_content :=
| Chat_DataMessage (m : DataMessage)
| Chat_EditMessage (m : EditMessage)
| Chat_TypingMessage (m : TypingMessage)
| Chat_StoryEvent (story : StoryMessage) (timestamp : Z).

Inductive signal_event :=
| Ev_ChatEvent (info : MessageInfo) (event : chat_content)
| Ev_DecryptionError (sender : UUID) (e : recv_error) (timestamp : Z)
| Ev_Receipt (sender : UUID) (content : ReceiptMessage)
| Ev_ViewOnceOpen (sender : bytes) (timestamp : Z)
| Ev_ReadSelf (timestamp : Z) (messages : list (Z * bytes))
| Ev_Call (call : Call MessageInfo)
| Ev_GroupCall (info : MessageInfo) (timestamp : Z) (isRinging : bool)
| Ev_CallSync (timestamp : Z) (raw : bytes)
| Ev_ContactList (contacts : list Recipient)
| Ev_ACIFound (pni aci : ServiceID)
| Ev_DeleteForMe (timestamp : Z) (raw : bytes)
| Ev_MessageRequestResponse (timestamp : Z) (threadACI : UUID) (groupID : option (fixed 32)) (type : Z)
| Ev_QueueEmpty
| Ev_IdentityChange (id : ServiceID).

(** The bridge's [EventHandler]: its own state and whether it succeeded. *)
Class EventHandler (H : Type) : Type := { handleEvent : signal_event -> H -> H * bool }.

(** ** The client *)

Record BufferedEvent := mkBuffered { be_Plaintext : option bytes; be_ServerTimestamp : Z; be_InsertTimestamp : Z }.

(** Work that is started in the background. *)
Inductive task {E : Type} :=
| Task_sendRetryRequest (result : DecryptionResult) (originalTS : Z)
| Task_handleRetryRequest (result : DecryptionResult) (dem : E)
| Task_StorageSync
| Task_IdentityChange (id : ServiceID).
Arguments task : clear implicits.

Section Decrypt.
Context `{U : UUIDLib} `{C : CryptoLib} `{SP : SignalProtocol} `{MC : MessageCodec} `{R : Random} {W : Type} `{NW : MessageNetwork W}.
Context `{EN : Endorsements} `{IL : !IncomingLib} `{IC : IncomingCodec} {H : Type} `{EH : EventHandler H}.

Record RecvState := mkRecv {
  rv_send : SendState (W := W);
  rv_identities : gmap ServiceID identity_key;
  rv_keys : key_store;
  rv_buffer : gmap bytes BufferedEvent;
  rv_groupKeys : gmap bytes bytes;
  rv_cache : GroupCache;
  (** [Store.MasterKey], in memory and in the database *)
  rv_MasterKey : option bytes * option bytes;
  rv_storageSyncQueued : bool;
  rv_handler : H;
  (** the events given to the handler with its answers, and the tasks *)
  rv_events : list (signal_event * bool);
  rv_tasks : list (task decryption_error)
}.

Definition receiver (A : Type) : Type := stateE RecvState recv_error A.

Definition rset_send x s := mkRecv x (rv_identities s) (rv_keys s) (rv_buffer s) (rv_groupKeys s) (rv_cache s) (rv_MasterKey s) (rv_storageSyncQueued s) (rv_handler s) (rv_events s) (rv_tasks s).
Definition rset_identities x s := mkRecv (rv_send s) x (rv_keys s) (rv_buffer s) (rv_groupKeys s) (rv_cache s) (rv_MasterKey s) (rv_storageSyncQueued s) (rv_handler s) (rv_events s) (rv_tasks s).
Definition rset_keys x s := mkRecv (rv_send s) (rv_identities s) x (rv_buffer s) (rv_groupKeys s) (rv_cache s) (rv_MasterKey s) (rv_storageSyncQueued s) (rv_handler s) (rv_events s) (rv_tasks s).
Definition rset_buffer x s := mkRecv (rv_send s) (rv_identities s) (rv_keys s) x (rv_groupKeys s) (rv_cache s) (rv_MasterKey s) (rv_storageSyncQueued s) (rv_handler s) (rv_events s) (rv_tasks s).
Definition rset_groupKeys x s := mkRecv (rv_send s) (rv_identities s) (rv_keys s) (rv_buffer s) x (rv_cache s) (rv_MasterKey s) (rv_storageSyncQueued s) (rv_handler s) (rv_events s) (rv_tasks s).
Definition rset_cache x s := mkRecv (rv_send s) (rv_identities s) (rv_keys s) (rv_buffer s) (rv_groupKeys s) x (rv_MasterKey s) (rv_storageSyncQueued s) (rv_handler s) (rv_events s) (rv_tasks s).
Definition rset_MasterKey x s := mkRecv (rv_send s) (rv_identities s) (rv_keys s) (rv_buffer s) (rv_groupKeys s) (rv_cache s) x (rv_storageSyncQueued s) (rv_handler s) (rv_events s) (rv_tasks s).
Definition rset_queued x s := mkRecv (rv_send s) (rv_identities s) (rv_keys s) (rv_buffer s) (rv_groupKeys s) (rv_cache s) (rv_MasterKey s) x (rv_handler s) (rv_events s) (rv_tasks s).
Definition rset_handled x e s := mkRecv (rv_send s) (rv_identities s) (rv_keys s) (rv_buffer s) (rv_groupKeys s) (rv_cache s) (rv_MasterKey s) (rv_storageSyncQueued s) x (rv_events s ++ [e]) (rv_tasks s).
Definition radd_task t s := mkRecv (rv_send s) (rv_identities s) (rv_keys s) (rv_buffer s) (rv_groupKeys s) (rv_cache s) (rv_MasterKey s) (rv_storageSyncQueued s) (rv_handler s) (rv_events s) (rv_tasks s ++ [t]).

Definition rgets {A} (f : RecvState -> A) : receiver A := fun s => (s, Ok (f s)).

(** [fmt.Errorf("...: %w", err)] around an operation. *)
Definition swrap {A} (prefix : string) (m : receiver A) : receiver A := fun s => let '(s, r) := m s in (s, wrap_err (wrapf prefix) r).

(** An operation of the sending side or of the recipient table; its error is
    a value. *)
Definition on_send {A} (m : sender (W := W) A) : receiver (send_error + A) := fun s =>
  let '(x, r) := m (rv_send s) in
  (rset_send x s, match r with Ok a => Ok (inr a) | Err e => Ok (inl e) | Panic => Panic end).
Definition on_recipients {A} (f : RecipientStore -> RecipientStore * outcome recipient_error A) : receiver (recipient_error + A) :=  fun s =>
  let '(x, r) := f (ss_recipients (rv_send s)) in
  (rset_send (set_recipients x (rv_send s)) s, match r with Ok a => Ok (inr a) | Err e => Ok (inl e) | Panic => Panic end).

Definition handle_event (e : signal_event) : receiver bool := fun s =>
  let '(h, ok) := handleEvent e (rv_handler s) in (rset_handled h (e, ok) s, Ok ok).

Definition spawn (t : task decryption_error) : receiver unit := smodify (radd_task t).

Context (dev : SendDevice) (now : Z).

Definition own_ACI : ServiceID := NewACIServiceID (dev_ACI dev).
Definition PNIServiceID : ServiceID := if bool_decide (dev_PNI dev = uuid_Nil) then EmptyServiceID else NewPNIServiceID (dev_PNI dev).

(** ** The event buffer *)

Definition GetBufferedEvent (ciphertextHash : bytes) : receiver (option BufferedEvent) := rgets (fun s => rv_buffer s !! ciphertextHash).
(** The primary key of the table. *)
Definition PutBufferedEvent (ciphertextHash plaintext : bytes) (serverTimestamp : Z) : receiver unit := fun s =>
  match rv_buffer s !! ciphertextHash with
  | Some _ => (s, Err (errorf "unique constraint"))
  | None => (rset_buffer (<[ciphertextHash := mkBuffered (Some plaintext) serverTimestamp now]> (rv_buffer s)) s, Ok tt)
  end.
Definition ClearBufferedEventPlaintext (ciphertextHash : bytes) : receiver unit :=
  smodify (fun s => rset_buffer (alter (fun e => mkBuffered None (be_ServerTimestamp e) (be_InsertTimestamp e)) ciphertextHash (rv_buffer s)) s).
Definition old_event (maxTS : Z) (e : BufferedEvent) : bool :=
  (be_InsertTimestamp e <? maxTS) && match be_Plaintext e with None => true | Some _ => false end.
Definition DeleteBufferedEventsOlderThan (maxTS : Z) : receiver unit :=
  smodify (fun s => rset_buffer (filter (fun p : bytes * BufferedEvent => old_event maxTS p.2 = false) (rv_buffer s)) s).

(** A database transaction: nothing is kept when it fails. *)
Definition DoDecryptionTxn {A} (fn : receiver A) : receiver A := fun s =>
  match fn s with
  | (s', Ok a) => (s', Ok a)
  | (_, Err e) => (s, Err e)
  | (s', Panic) => (s', Panic)
  end.

(** libsignal runs on the keys of the client. *)
Definition client_keys (s : RecvState) : Keys key_store := mkKeys (ss_sessions (rv_send s)) (rv_identities s) (rv_keys s).
Definition with_keys (k : Keys key_store) (s : RecvState) : RecvState :=
  rset_keys (k_rest k) (rset_identities (k_identities k) (rset_send (set_sessions (k_sessions k) (rv_send s)) s)).
Definition on_keys {A} (f : Keys key_store -> Keys key_store * (recv_error + A)) : receiver A := fun s =>
  let '(k, r) := f (client_keys s) in (with_keys k s, of_sum r).

(** The plaintext and the hash of the ciphertext. *)
Definition bufferedDecryptTxn (ciphertext : bytes) (serverTimestamp : Z) (decrypt : Keys key_store -> Keys key_store * (recv_error + bytes))
  : receiver (bytes * bytes) :=
  let ciphertextHash := sha256 ciphertext in
  let* buf := GetBufferedEvent ciphertextHash in
  match buf with
  | Some e =>
      match be_Plaintext e with
      | None => slift (Err (mkError AlreadyProcessed (str "event was already processed at " ++ time_String (be_InsertTimestamp e))))
      | Some plaintext => sret (plaintext, ciphertextHash)
      end
  | None =>
      let* plaintext := DoDecryptionTxn (
        let* plaintext := on_keys decrypt in
        let* _ := swrap "failed to save decrypted event to buffer: " (PutBufferedEvent ciphertextHash plaintext serverTimestamp) in
        sret plaintext) in
      sret (plaintext, ciphertextHash)
  end.

(** ** Decryption *)

(** An address as libsignal has it: a name and a device. *)
Definition make_Address (s : ServiceID) (deviceID : Z) : outcome recv_error (bytes * Z) :=
  match Address s deviceID with
  | Ok a => Ok (ServiceID_String a.1, a.2)
  | Err e => Err (sent_error e)
  | Panic => Panic
  end.

(** [PreKeyStore], [SessionStore] and [IdentityStore] exist for the account's
    two IDs. *)
Definition has_store (serviceID : ServiceID) : bool :=
  bool_decide (serviceID = own_ACI) || (negb (bool_decide (dev_PNI dev = uuid_Nil)) && bool_decide (serviceID = PNIServiceID)).

(** The end of the three decryptions. *)
Definition open_plaintext (what : string) (sender : bytes * Z) (plaintext hash : bytes) : outcome recv_error DecryptionResult :=
  let! stripped := wrap_err (fun e => wrapf "failed to strip padding: " (sent_error e)) (stripPadding plaintext) in
  let! content := of_option (errorf what) (unmarshal_content stripped) in
  Ok (decrypted sender hash content).

Definition prekeyDecrypt (destination : ServiceID) (sender : bytes * Z) (encryptedContent : bytes) (serverTimestamp : Z) : receiver DecryptionResult :=
  let* preKeyMessage := slift (wrap_err (wrapf "failed to deserialize prekey message: ") (of_sum (DeserializePreKeyMessage encryptedContent))) in
  match preKeyMessage with
  | None => slift (Err (errorf "deserializing prekey message returned nil"))
  | Some preKeyMessage =>
      if negb (has_store destination) then slift (Err (errorf "no prekey store found"))
      else
        let* destinationAddress := slift (wrap_err (wrapf "failed to get own/destination address: ") (make_Address destination (dev_DeviceID dev))) in
        let* p := swrap "failed to decrypt prekey message: "
                    (bufferedDecryptTxn encryptedContent serverTimestamp (DecryptPreKey preKeyMessage sender destinationAddress)) in
        slift (open_plaintext "failed to unmarshal decrypted prekey message" sender p.1 p.2)
  end.

Definition decryptCiphertextEnvelope (destinationServiceID : ServiceID) (senderAddress : bytes * Z) (ciphertext : bytes) (serverTimestamp : Z)
  : receiver DecryptionResult :=
  let* message := slift (wrap_err (wrapf "failed to deserialize message: ") (of_sum (DeserializeMessage ciphertext))) in
  if negb (has_store destinationServiceID) then slift (Err (errorf "no session store for destination service ID"))
  else
    let* destinationAddress := slift (wrap_err (wrapf "failed to get own address: ") (make_Address destinationServiceID (dev_DeviceID dev))) in
    let* p := swrap "failed to decrypt ciphertext message: "
                (bufferedDecryptTxn ciphertext serverTimestamp (Decrypt message senderAddress destinationAddress)) in
    slift (open_plaintext "failed to unmarshal decrypted message" senderAddress p.1 p.2).

Definition decryptSenderKeyMessage (senderAddress : bytes * Z) (ciphertext : bytes) (serverTimestamp : Z) : receiver DecryptionResult :=
  let* p := swrap "failed to decrypt sender key message: " (bufferedDecryptTxn ciphertext serverTimestamp (GroupDecrypt ciphertext senderAddress)) in
  slift (open_plaintext "failed to unmarshal decrypted sender key message" senderAddress p.1 p.2).

(** A step of [decryptUnidentifiedSenderEnvelope]: on an error the result so
    far is returned with it. *)
Definition step_or {A} (r : DecryptionResult) (prefix : string) (m : recv_error + A) (k : A -> receiver (DecryptionResult * option recv_error))
  : receiver (DecryptionResult * option recv_error) :=
  match m with inl e => sret (r, Some (wrapf prefix e)) | inr a => k a end.

(** The content of an envelope that is not encrypted. *)
Definition unencrypted_content (b : bytes) : Content := mkContent (Content_DecryptionErrorMessage b) None None.

(** The error of an operation as a value. *)
Definition attempt_recv {A} (m : receiver A) : receiver (recv_error + A) := fun s =>
  match m s with (s, Ok a) => (s, Ok (inr a)) | (s, Err e) => (s, Ok (inl e)) | (s, Panic) => (s, Panic) end.

(** After the sender is known: [r] holds the hint, the group and the sender. *)
Definition decrypt_opened (destinationServiceID : ServiceID) (r : DecryptionResult) (senderAddress : bytes * Z) (messageType : Z)
  (contents : bytes) (serverTimestamp : Z) : receiver (DecryptionResult * option recv_error) :=
  let finish m :=
    let* res := attempt_recv m in
    sret (match res with
          | inl e => (mkResult (res_SenderAddress r) None None (res_ContentHint r) None (res_GroupID r) false
                        (res_ContentHint r =? ContentHintResendable) (res_Ciphertext r) (res_CiphertextType r), Some e)
          | inr res => (with_group_id (res_GroupID r) res, None)
          end) in
  if messageType =? CiphertextMessageTypeSenderKey then finish (decryptSenderKeyMessage senderAddress contents serverTimestamp)
  else if messageType =? CiphertextMessageTypePreKey then finish (prekeyDecrypt destinationServiceID senderAddress contents serverTimestamp)
  else if messageType =? CiphertextMessageTypeWhisper then finish (decryptCiphertextEnvelope destinationServiceID senderAddress contents serverTimestamp)
  else if messageType =? CiphertextMessageTypePlaintext then
    let stripped := stripPadding contents in
    let content := match stripped with Ok b => b | _ => [] end in
    sret (mkResult (res_SenderAddress r) None (Some (unencrypted_content content)) (res_ContentHint r) None (res_GroupID r) true false
            (res_Ciphertext r) (res_CiphertextType r),
          match stripped with Err e => Some (wrapf "failed to strip padding: " (sent_error e)) | _ => None end)
  else sret (r, Some (errorf "unsupported sealed sender message type")).

Definition decryptUnidentifiedSenderEnvelope (destinationServiceID : ServiceID) (envelope : Envelope)
  : receiver (DecryptionResult * option recv_error) :=
  let r0 := empty_result in
  if negb (bool_decide (destinationServiceID = own_ACI)) then sret (r0, Some (errorf "received unidentified sender envelope for non-ACI destination"))
  else
    let* keys := rgets rv_keys in
    step_or r0 "failed to decrypt to USMC: " (SealedSenderDecryptToUSMC (env_Content envelope) keys) (fun usmc =>
    match usmc with
    | None => sret (r0, Some (errorf "decrypting to USMC returned nil"))
    | Some usmc =>
    step_or r0 "failed to get sender certificate: " (GetSenderCertificate usmc) (fun senderCertificate =>
    step_or r0 "failed to validate sender certificate: " (Certificate_Validate senderCertificate (env_ServerTimestamp envelope)) (fun valid : bool =>
    if negb valid then sret (r0, Some (errorf "sender certificate is not valid"))
    else
    step_or r0 "failed to get message type: " (GetMessageType usmc) (fun messageType =>
    step_or r0 "failed to get content hint: " (GetContentHint usmc) (fun contentHint =>
    step_or r0 "failed to get group ID: " (GetGroupID usmc) (fun groupID =>
    let r1 := mkResult None None None contentHint None groupID false false [] 0 in
    step_or r1 "failed to get sender UUID: " (GetSenderUUID senderCertificate) (fun senderUUID =>
    step_or r1 "failed to get sender device ID: " (GetDeviceID senderCertificate) (fun senderDeviceID =>
    if bool_decide (senderUUID = dev_ACI dev) && (senderDeviceID =? uint32 (dev_DeviceID dev)) then
      sret (r1, Some (errorf "received unidentified sender envelope from self"))
    else
    match make_Address (NewACIServiceID senderUUID) senderDeviceID with
    | Panic => slift Panic
    | Err e => sret (r1, Some (wrapf "failed to create sender address: " e))
    | Ok senderAddress =>
    let r2 := mkResult (Some senderAddress) None None contentHint None groupID false false [] 0 in
    step_or r2 "failed to get sender E164: " (GetSenderE164 senderCertificate) (fun senderE164 =>
    step_or r2 "failed to get USMC contents: " (GetContents usmc) (fun contents =>
    let r3 := mkResult (Some senderAddress) None None contentHint None groupID false false contents messageType in
    let* _ := if beqb senderE164 [] then sret tt
              else let* _ := on_recipients (fun st => UpdateRecipientE164 st senderUUID uuid_Nil senderE164) in sret tt in
    decrypt_opened destinationServiceID r3 senderAddress messageType contents (env_ServerTimestamp envelope)))
    end))))))) end).

Definition decryptEnvelope (envelope : Envelope) (sourceServiceID destinationServiceID : ServiceID) : receiver DecryptionResult :=
  if IsEmpty destinationServiceID then sret (error_result (errorf "envelope missing destination service ID"))
  else
    match env_Type envelope with
    | None => slift Panic
    | Some type =>
        let address := make_Address sourceServiceID (env_SourceDeviceId envelope) in
        if type =? Envelope_UNIDENTIFIED_SENDER then
          let* res := decryptUnidentifiedSenderEnvelope destinationServiceID envelope in
          sret (match res.2 with
                | Some e => with_error (wrapf "failed to decrypt unidentified sender envelope: " e) res.1
                | None => res.1
                end)
        else if (type =? Envelope_PREKEY_MESSAGE) || (type =? Envelope_DOUBLE_RATCHET) then
          match address with
          | Panic => slift Panic
          | Err e => sret (error_result (mkError Plain (str "failed to wrap address: " ++ e_text e)))
          | Ok sender =>
              let prekey := type =? Envelope_PREKEY_MESSAGE in
              let* res := attempt_recv (if prekey then prekeyDecrypt destinationServiceID sender (env_Content envelope) (env_ServerTimestamp envelope)
                                        else decryptCiphertextEnvelope destinationServiceID sender (env_Content envelope) (env_ServerTimestamp envelope)) in
              sret (match res with
                    | inl e => mkResult (Some sender) None None 0
                                 (Some (wrapf (if prekey then "failed to decrypt prekey bundle envelope: " else "failed to decrypt ciphertext envelope: ") e))
                                 None false true (env_Content envelope) type
                    | inr res => res
                    end)
          end
        else if type =? Envelope_PLAINTEXT_CONTENT then
          match address with
          | Panic => slift Panic
          | Err e => sret (error_result (mkError Plain (str "failed to wrap address: " ++ e_text e)))
          | Ok sender =>
              match stripPadding (env_Content envelope) with
              | Panic => slift Panic
              | Err e => sret (error_result (wrapf "failed to strip padding: " (sent_error e)))
              | Ok content => sret (mkResult (Some sender) None (Some (unencrypted_content content)) 0 None None true false [] 0)
              end
          end
        else if type =? Envelope_SERVER_DELIVERY_RECEIPT then sret (error_result (errorf "server delivery receipt envelopes are not yet supported"))
        else if type =? Envelope_UNKNOWN then sret (error_result (errorf "unknown envelope type"))
        else sret (error_result (errorf "unrecognized envelope type"))
    end.

(** ** Identities *)

Definition GetIdentityKey (s : RecvState) (theirServiceID : ServiceID) : option identity_key := rv_identities s !! theirServiceID.

(** The sessions of the ACI with a user are archived. *)
Definition archive_sessions (theirID : ServiceID) : sender (W := W) unit :=
  let* rows := AllSessionsForServiceID theirID in
  let* _ := sfor (fun row : Z * session_record =>
              let* record := slift (of_option (OtherError (str "failed to archive session record")) (ArchiveCurrentState row.2)) in
              let* _ := StoreSession (theirID, row.1) record in
              sret (Some tt)) rows in
  sret tt.
Definition ArchiveAllSessionsForServiceID (theirID : ServiceID) : receiver unit :=
  let* r := on_send (archive_sessions theirID) in
  slift (match r with inl e => Err (sent_error e) | inr _ => Ok tt end).

(** Whether another key was replaced; the sessions under it are archived and
    the bridge is told. *)
Definition SaveIdentityKey (theirServiceID : ServiceID) (identityKey : identity_key) : receiver bool :=
  let* _ := slift (of_option (errorf "failed to serialize identity key") (IdentityKey_Serialize identityKey)) in
  let* replacing := DoDecryptionTxn (
    let* oldKey := rgets (fun s => GetIdentityKey s theirServiceID) in
    let* replacing := match oldKey with
                      | None => sret false
                      | Some oldKey =>
                          let* equal := slift (of_option (errorf "failed to compare new and old identity keys") (IdentityKey_Equal oldKey identityKey)) in
                          sret (negb equal)
                      end in
    let* _ := smodify (fun s => rset_identities (<[theirServiceID := identityKey]> (rv_identities s)) s) in
    let* _ := if replacing : bool then
                let* _ := swrap "failed to archive sessions for ACI store: " (ArchiveAllSessionsForServiceID theirServiceID) in
                if bool_decide (dev_PNI dev = uuid_Nil) then sret tt
                else
                  let* k := rgets rv_keys in
                  let* k := slift (wrap_err (wrapf "failed to archive sessions for PNI store: ") (of_sum (archive_pni_sessions theirServiceID k))) in
                  smodify (rset_keys k)
              else sret tt in
    sret replacing) in
  let* _ := if replacing : bool then spawn (Task_IdentityChange theirServiceID) else sret tt in
  sret replacing.

(** Rows are only stored with the trust level [TRUSTED_UNVERIFIED], and an
    identity without a row is trusted. *)
Definition IsTrustedIdentity (aciIdentity : identity_key) (pniIdentity : identity_key) (theirServiceID : ServiceID) (identityKey : identity_key)
  : outcome recv_error bool :=
  if bool_decide (theirServiceID = own_ACI) then of_option (errorf "compare identity") (IdentityKey_Equal identityKey aciIdentity)
  else if negb (bool_decide (dev_PNI dev = uuid_Nil)) && bool_decide (theirServiceID = PNIServiceID) then
    of_option (errorf "compare identity") (IdentityKey_Equal identityKey pniIdentity)
  else Ok true.

End Decrypt.
