(* ===== verification/Receiving.v ===== *)
(** Handling incoming messages ([pkg/signalmeow/receiving.go]): from the
    request on the websocket over the decrypted content to the events of the
    bridge, and what is acknowledged to the server. *)
From S2P Require Import Prelude GoLib ServiceId Crypto Attachments Storage ChatSettings RecipientStore StorageSync Groups GroupCache GroupChanges GroupUpdate Sending SenderKeys WsMessages RingRTC Contacts ReceivingDecrypt.

Definition FetchLatest_STORAGE_MANIFEST : Z := 2.
Definition MessageRequestResponse_ACCEPT : Z := 1.
Definition MessageRequestResponse_BLOCK : Z := 3.
Definition MessageRequestResponse_BLOCK_AND_DELETE : Z := 4.
Definition MessageRequestResponse_BLOCK_AND_SPAM : Z := 6.

Definition ErrHandlerFailed : recv_error := errorf "event handler returned non-success status".

(** [strings.Contains] *)
Fixpoint contains (s sub : bytes) : bool :=
  Strings.has_prefix s sub || match s with [] => false | _ :: s => contains s sub end.

(** Updaters of the recipient table. *)
Definition pni_message_updater : updater_func := fun r =>
  let '(whitelisted, changed) := match r_Whitelisted r with None => (Some false, true) | w => (w, false) end in
  Some (set_flags true whitelisted r, changed || negb (r_NeedsPNISignature r)).
Definition accept_updater : updater_func := fun r =>
  Some (set_flags false (Some true) r, negb (default false (r_Whitelisted r)) || r_NeedsPNISignature r).
Definition set_blocked (blocked : bool) (r : Recipient) : Recipient :=
  mkRecipient (r_ACI r) (r_PNI r) (r_E164 r) (r_ContactName r) (r_AvatarHash r) (r_Nickname r) (r_Profile r) (r_NeedsPNISignature r) blocked (r_Whitelisted r).
Definition block_updater (blocked : bool) : updater_func := fun r => Some (set_blocked blocked r, negb (Bool.eqb (r_Blocked r) blocked)).
Definition no_updater : updater_func := fun r => Some (r, false).

Section Receiving.
Context `{U : UUIDLib} `{C : CryptoLib} `{PL : Pkcs7Lib} `{SP : SignalProtocol} `{MC : MessageCodec} `{R : Random} {W : Type} `{NW : MessageNetwork W}.
Context `{G : GroupLib} `{EN : Endorsements} `{WL : WireLib} `{IL : !IncomingLib} `{IC : IncomingCodec} {H : Type} `{EH : EventHandler H}.
(** the attachment server, and the decoding of contacts *)
Context (cdn : bytes -> Z -> option CDNResponse) (unmarshal_contact : bytes -> option ContactDetails).
Context (dev : SendDevice) (now : Z).
#[local] Abbreviation receiver := (receiver (W := W) (H := H)).
#[local] Abbreviation RecvState := (RecvState (W := W) (H := H)).

(** ** Chat messages *)

Definition groupOrUserID (groupID : bytes) (userID : ServiceID) : bytes :=
  if beqb groupID [] then ServiceID_String userID else groupID.

(** The group's master key is stored under its identifier; an error is [None]. *)
Definition store_master_key (masterKey : fixed 32) : receiver (option bytes) := fun s =>
  match groupIdentifierFromMasterKey (masterKeyFromBytes masterKey) with
  | Ok gid => (rset_groupKeys (<[gid := masterKeyFromBytes masterKey]> (rv_groupKeys s)) s, Ok (Some gid))
  | Err _ => (s, Ok None)
  | Panic => (s, Panic)
  end.

(** The group of a message and its revision, or what the handlers return early:
    whether the message counts as handled, and whether a receipt is sent. *)
Definition message_group (groupV2 : option GroupContextV2) (isBlocked : bool) : receiver (bool * bool + bytes * Z) :=
  match groupV2 with
  | Some g =>
      match to_fixed GroupMasterKeyLength (gctx_MasterKey g) with
      | None => sret (inl (true, false))
      | Some masterKey =>
          let* groupID := store_master_key masterKey in
          sret (match groupID with Some gid => inr (gid, gctx_Revision g) | None => inl (false, false) end)
      end
  | None => sret (if isBlocked then inl (true, false) else inr ([], 0))
  end.

Definition edit_group (e : EditMessage) : option GroupContextV2 := match em_DataMessage e with Some m => dm_GroupV2 m | None => None end.

(** Whether the handler succeeded, and whether a delivery receipt is due. *)
Definition incomingEditMessage (editMessage : EditMessage) (messageSenderACI : UUID) (chatRecipient : ServiceID) (serverTimestamp : Z) (isBlocked : bool)
  : receiver (bool * bool) :=
  let* g := message_group (edit_group editMessage) isBlocked in
  match g with
  | inl r => sret r
  | inr (groupID, groupRevision) =>
      let info := mkInfo messageSenderACI (groupOrUserID groupID chatRecipient) 0 groupRevision serverTimestamp [] None in
      let* ok := handle_event (Ev_ChatEvent info (Chat_EditMessage editMessage)) in
      sret (ok, true)
  end.

Definition store_profile_key (aci : UUID) (k : fixed 32) : receiver unit :=
  smodify (fun s => rset_send (set_recipients (StoreProfileKey (ss_recipients (rv_send s)) aci k) (rv_send s)) s).

Definition server_guid (envelope : Envelope) : bytes :=
  match ParseStringOrBinaryUUID (env_ServerGuid envelope) (env_ServerGuidBinary envelope) with
  | Ok guid => if bool_decide (guid = uuid_Nil) then [] else uuid_string guid
  | _ => []
  end.

Definition incomingDataMessage (dataMessage : DataMessage) (messageSenderACI : UUID) (chatRecipient : ServiceID) (serverTimestamp : Z) (isBlocked : bool)
  (envelope : option Envelope) : receiver (bool * bool) :=
  let* _ := match dm_ProfileKey dataMessage ≫= to_fixed 32 with Some k => store_profile_key messageSenderACI k | None => sret tt end in
  let* g := message_group (dm_GroupV2 dataMessage) isBlocked in
  match g with
  | inl r => sret r
  | inr (groupID, groupRevision) =>
      let '(guid, token) := match envelope with Some e => (server_guid e, env_ReportSpamToken e) | None => ([], None) end in
      let info := mkInfo messageSenderACI (groupOrUserID groupID chatRecipient) 0 groupRevision serverTimestamp guid token in
      match group_call_update dataMessage with
      | Some eraID =>
          let* isRinging := (fun s => let '(c, r) := UpdateActiveCall groupID eraID (rv_cache s) in (rset_cache c s, Ok r)) in
          let* ok := handle_event (Ev_GroupCall info (default 0 (dm_Timestamp dataMessage)) isRinging) in
          sret (ok, true)
      | None =>
          let* ok := handle_event (Ev_ChatEvent info (Chat_DataMessage dataMessage)) in
          sret (ok, true)
      end
  end.

(** Keys are converted to arrays without a check of their length. *)
Definition incomingStoryMessage (story : StoryMessage) (authorACI : UUID) (chatRecipient : ServiceID) (timestamp serverTimestamp : Z) (isBlocked : bool)
  : receiver bool :=
  let* _ := match st_ProfileKey story with
            | Some k => let* k := slift (to_array 32 k) in store_profile_key authorACI k
            | None => sret tt
            end in
  let* g := match st_Group story with
            | Some g =>
                let* masterKey := slift (to_array 32 (gctx_MasterKey g)) in
                let* groupID := store_master_key masterKey in
                sret (match groupID with Some gid => inr (gid, gctx_Revision g) | None => inl false end)
            | None => sret (if isBlocked then inl true else inr ([], 0))
            end in
  match g with
  | inl r => sret r
  | inr (groupID, groupRevision) =>
      if timestamp =? 0 then sret true
      else handle_event (Ev_ChatEvent (mkInfo authorACI (groupOrUserID groupID chatRecipient) 0 groupRevision serverTimestamp [] None)
                           (Chat_StoryEvent story timestamp))
  end.

(** ** Sync messages *)

Definition QueueStorageSync : receiver unit := fun s =>
  if rv_storageSyncQueued s then (s, Ok tt) else (radd_task Task_StorageSync (rset_queued true s), Ok tt).

(** [PutDevice] writes the key in memory to the database. *)
Definition save_device : receiver unit := smodify (fun s => rset_MasterKey ((rv_MasterKey s).1, (rv_MasterKey s).1) s).

Definition handle_keys (aep : bytes) : receiver unit :=
  let* _ := if beqb aep [] then sret tt
            else match DeriveSVRKey aep with
                 | inl _ => sret tt
                 | inr k => smodify (fun s => match (rv_MasterKey s).1 with None => rset_MasterKey (Some k, (rv_MasterKey s).2) s | Some _ => s end)
                 end in
  let* _ := save_device in
  QueueStorageSync.

Definition saveSyncPNIIdentityKey (serviceID : ServiceID) (identityKeyBytes : option bytes) : receiver bool :=
  match identityKeyBytes with
  | None => sret false
  | Some b =>
      if negb (is_pni_type serviceID) then sret false
      else
        let* identityKey := slift (of_option (errorf "failed to deserialize PNI identity key") (mjoin (DeserializeIdentityKey b))) in
        swrap "failed to save PNI identity key: " (SaveIdentityKey dev serviceID identityKey)
  end.

Fixpoint save_statuses (l : list UnidentifiedDeliveryStatus) : receiver unit :=
  match l with
  | [] => sret tt
  | unident :: l =>
      let* _ := match ParseStringOrBinaryServiceID (us_DestinationServiceId unident) (us_Destination unident) with
                | Ok serviceID => let* _ := attempt_recv (saveSyncPNIIdentityKey serviceID (us_PniIdentityKey unident)) in sret tt
                | Err _ => sret tt
                | Panic => slift Panic
                end in
      save_statuses l
  end.

(** The value with an error ignored. *)
Definition parsed_or_empty (r : outcome id_error ServiceID) : ServiceID := match r with Ok s => s | _ => EmptyServiceID end.

Definition handle_sent (syncSent : SyncSent) (envelope : Envelope) : receiver bool :=
  match sent_StoryMessage syncSent with
  | Some b =>
      let story := story_message b in
      match st_Group story with
      | Some _ => incomingStoryMessage story (dev_ACI dev) (own_ACI dev) (default 0 (sent_MessageTimestamp syncSent)) (env_ServerTimestamp envelope) false
      | None => sret true
      end
  | None =>
      match sent_Message syncSent, sent_EditMessage syncSent with
      | None, None => sret true
      | message, editMessage =>
          let destination := parsed_or_empty (ParseStringOrBinaryServiceID (sent_DestinationServiceId syncSent) (sent_Destination syncSent)) in
          let e164 := default [] (sent_DestinationE164 syncSent) in
          let* _ := if negb (beqb e164 []) && negb (IsEmpty destination) then
                      let* _ := on_recipients (fun st => UpdateRecipientE164 st (ToACIAndPNI destination).1 (ToACIAndPNI destination).2 e164) in sret tt
                    else sret tt in
          let* _ := save_statuses (sent_UnidentifiedStatus syncSent) in
          let has_group := isSome (message ≫= dm_GroupV2) || isSome (editMessage ≫= edit_group) in
          let* _ :=
            if IsEmpty destination && negb has_group then sret (true, false)
            else match message, editMessage with
                 | Some m, _ => incomingDataMessage m (dev_ACI dev) destination (env_ServerTimestamp envelope) false None
                 | None, Some e => incomingEditMessage e (dev_ACI dev) destination (env_ServerTimestamp envelope) false
                 | None, None => sret (true, false)
                 end in
          sret true
      end
  end.

Definition contact_without_aci (c : ContactDetails) : bool :=
  beqb (default [] (cd_Aci c)) [] && negb (length (default [] (cd_AciBinary c)) =? 16)%nat.

Fixpoint store_contacts (st : RecipientStore) (l : list (ContactDetails * option bytes)) : RecipientStore * outcome contact_error (list Recipient) :=
  match l with
  | [] => (st, Ok [])
  | (c, avatar) :: l =>
      if contact_without_aci c then store_contacts st l
      else
        match StoreContactDetailsAsContact st c avatar with
        | (st, Ok r) => let '(st, rs) := store_contacts st l in (st, outmap (cons r) rs)
        | (st, Err e) => (st, Err e)
        | (st, Panic) => (st, Panic)
        end
  end.

(** Errors of the download and of the stream leave no contacts.  The database
    is rolled back when a contact cannot be stored, the block cache is not. *)
Definition handle_contacts (c : ContactsSync) : receiver bool :=
  match co_Blob c with
  | None => sret true
  | Some blob =>
      let* contactsBytes := slift (match DownloadAttachmentWithPointer cdn blob None false with Ok b => Ok b | Err _ => Ok [] | Panic => Panic end) in
      let* contacts := slift (match unmarshalContactDetailsMessages unmarshal_contact contactsBytes with Ok l => Ok l | Err _ => Ok [] | Panic => Panic end) in
      let* stored := (fun s : RecvState =>
        let old := ss_recipients (rv_send s) in
        match store_contacts old contacts with
        | (st, Ok rs) => (rset_send (set_recipients st (rv_send s)) s, Ok (Some rs))
        | (st, Err _) => (rset_send (set_recipients (mkStore (rows old) (blockCache st)) (rv_send s)) s, Ok None)
        | (st, Panic) => (s, Panic)
        end) in
      match stored with
      | None => sret true
      | Some rs => handle_event (Ev_ContactList rs)
      end
  end.

Definition parsed_uuid (r : outcome id_error UUID) : UUID := match r with Ok u => u | _ => uuid_Nil end.

Definition handle_request_response (m : MessageRequestResponse) (envelope : Envelope) : receiver bool :=
  let aciUUID := parsed_uuid (ParseStringOrBinaryUUID (mrr_ThreadAci m) (mrr_ThreadAciBinary m)) in
  let known := negb (bool_decide (aciUUID = uuid_Nil)) in
  let* _ := if known && (mrr_Type m =? MessageRequestResponse_ACCEPT) then
              let* _ := on_recipients (fun st => LoadAndUpdateRecipient st aciUUID uuid_Nil accept_updater) in sret tt
            else sret tt in
  let blocks := existsb (Z.eqb (mrr_Type m)) [MessageRequestResponse_BLOCK; MessageRequestResponse_BLOCK_AND_SPAM; MessageRequestResponse_BLOCK_AND_DELETE] in
  let* stored :=
    if known && ((mrr_Type m =? MessageRequestResponse_ACCEPT) || blocks) then
      let* r := on_recipients (fun st => LoadAndUpdateRecipient st aciUUID uuid_Nil (block_updater (negb (mrr_Type m =? MessageRequestResponse_ACCEPT)))) in
      sret (match r with inl _ => false | inr _ => true end)
    else sret true in
  if negb stored then sret false
  else handle_event (Ev_MessageRequestResponse (env_ClientTimestamp envelope) aciUUID (mrr_GroupId m ≫= to_fixed 32) (mrr_Type m)).

Definition handle_read (read : list (Z * bytes)) (envelope : Envelope) : receiver bool :=
  match read with [] => sret true | _ => handle_event (Ev_ReadSelf (env_ClientTimestamp envelope) read) end.

Definition handleSyncMessage (msg : SyncMessage) (envelope : Envelope) : receiver bool :=
  match sy_Content msg with
  | Sync_Sent syncSent => handle_sent syncSent envelope
  | Sync_Request _ => sret true
  | Sync_ViewOnceOpen sender timestamp => handle_event (Ev_ViewOnceOpen sender timestamp)
  | Sync_Read read => handle_read read envelope
  | Sync_other b =>
      match sync_message b with
      | In_Keys aep => let* _ := handle_keys aep in sret true
      | In_FetchLatest type => let* _ := if type =? FetchLatest_STORAGE_MANIFEST then QueueStorageSync else sret tt in sret true
      | In_Contacts c => handle_contacts c
      | In_CallEvent raw => handle_event (Ev_CallSync (env_ClientTimestamp envelope) raw)
      | In_DeleteForMe raw => handle_event (Ev_DeleteForMe (env_ClientTimestamp envelope) raw)
      | In_MessageRequestResponse m => handle_request_response m envelope
      | In_nothing read => handle_read read envelope
      end
  end.

(** ** PNI signatures *)

(** Fetching prekeys makes libsignal save the identities in them. *)
Definition fetch_identity (theirServiceID : ServiceID) : receiver (send_error + unit) :=
  let* r := on_send (FetchAndProcessPreKey dev theirServiceID 0) in
  let* _ := smodify (fun s => rset_identities (prekey_identities theirServiceID (ss_sessions (rv_send s)) (rv_identities s)) s) in
  sret r.

Definition pni_identity (pniServiceID : ServiceID) : receiver identity_key :=
  let* known := rgets (fun s => GetIdentityKey s pniServiceID) in
  match known with
  | Some k => sret k
  | None =>
      let* r := fetch_identity pniServiceID in
      match r with
      | inl e => slift (Err (wrapf "failed to fetch prekey for PNI after identity wasn't found in store: " (sent_error e)))
      | inr _ =>
          let* known := rgets (fun s => GetIdentityKey s pniServiceID) in
          slift (of_option (errorf "identity not found for PNI even after fetching") known)
      end
  end.

Definition handlePNISignatureMessage (sender : ServiceID) (pniBytes signature : bytes) : receiver unit :=
  if negb (bool_decide (sid_Type sender = ServiceIDTypeACI)) then slift (Err (errorf "PNI signature message sender is not an ACI"))
  else
    match to_fixed 16 pniBytes with
    | None => slift (Err (errorf "unexpected PNI length"))
    | Some pni =>
        let pniServiceID := NewPNIServiceID pni in
        let* pniIdentity := pni_identity pniServiceID in
        let* aciIdentity := rgets (fun s => GetIdentityKey s sender) in
        let* aciIdentity := slift (of_option (errorf "identity not found for ACI") aciIdentity) in
        let* ok := slift (wrap_err (wrapf "signature validation failed: ") (of_sum (VerifyAlternateIdentity pniIdentity aciIdentity signature))) in
        if negb ok then slift (Err (errorf "signature is invalid"))
        else
          let* _ := on_recipients (fun st => LoadAndUpdateRecipient st (sid_UUID sender) pni no_updater) in
          let* _ := handle_event (Ev_ACIFound pniServiceID sender) in
          sret tt
    end.

(** ** The decrypted content *)

Definition send_message (recipient : ServiceID) (content : Content) : receiver (send_error + SendMessageResult) := fun s =>
  on_send (SendMessage dev now (fun sid => rv_identities s !! sid ≫= IdentityKey_Serialize) recipient content) s.

Definition sendDeliveryReceipts (deliveredTimestamps : list Z) (senderUUID : UUID) : receiver unit :=
  match deliveredTimestamps with
  | [] => sret tt
  | _ => let* _ := send_message (NewACIServiceID senderUUID) (DeliveredReceiptMessageForTimestamps deliveredTimestamps) in sret tt
  end.

Definition retry_result (senderAddress : bytes * Z) (r : DecryptionResult) : SenderKeys.DecryptionResult :=
  mkDecryption senderAddress (res_GroupID r) (res_Ciphertext r) (res_CiphertextType r).

(** A sender key that somebody distributes; an error ends the handling. *)
Definition process_skdm (senderAddress : bytes * Z) (m : option skdm) : receiver unit :=
  match m with
  | None => sret tt
  | Some m =>
      let* parsed := slift (of_sum (DeserializeSenderKeyDistributionMessage (skdm_bytes m))) in
      fun s => let '(k, e) := ProcessSenderKeyDistributionMessage parsed senderAddress (rv_keys s) in
               (rset_keys k s, match e with Some e => Err e | None => Ok tt end)
  end.

(** Handling all call events; the answers of the handler are combined with
    [||], so that the result is [true]. *)
Fixpoint handle_calls (calls : list (Call MessageInfo)) (handlerSuccess : bool) : receiver bool :=
  match calls with
  | [] => sret handlerSuccess
  | c :: calls => let* ok := handle_event (Ev_Call c) in handle_calls calls (ok || handlerSuccess)
  end.

(** What a message leads to, by its kind: whether the handler succeeded, and
    the timestamp of the delivery receipt that is due. *)
Definition handle_message (theirServiceID : ServiceID) (isBlocked : bool) (envelope : Envelope) (content : message) : receiver (bool * option Z) :=
  let sender := sid_UUID theirServiceID in
  let serverTimestamp := env_ServerTimestamp envelope in
  match content with
  | Content_SyncMessage m =>
      if bool_decide (theirServiceID = own_ACI dev) then let* ok := handleSyncMessage m envelope in sret (ok, None) else sret (true, None)
  | Content_DataMessage m =>
      let* r := incomingDataMessage m sender theirServiceID serverTimestamp isBlocked (Some envelope) in
      sret (r.1, if r.2 : bool then Some (default 0 (dm_Timestamp m)) else None)
  | Content_EditMessage m =>
      let* r := incomingEditMessage m sender theirServiceID serverTimestamp isBlocked in
      sret (r.1, if r.2 : bool then Some (default 0 (edit_timestamp m)) else None)
  | Content_ReceiptMessage m =>
      if (rc_Type m =? ReceiptMessage_DELIVERY) && bool_decide (theirServiceID = own_ACI dev) then sret (true, None)
      else let* ok := handle_event (Ev_Receipt sender m) in sret (ok, None)
  | Content_TypingMessage m =>
      let groupID := match ty_GroupId m with Some g => Base64.encode g | None => [] end in
      let* _ := if negb isBlocked || negb (beqb groupID []) then
                  let* _ := handle_event (Ev_ChatEvent (mkInfo sender (groupOrUserID groupID theirServiceID) 0 0 serverTimestamp [] None) (Chat_TypingMessage m)) in sret tt
                else sret tt in
      sret (true, None)
  | Content_CallMessage b =>
      if isBlocked then sret (true, None)
      else
        let info := mkInfo sender (ServiceID_String theirServiceID) (env_SourceDeviceId envelope) 0 serverTimestamp [] None in
        let* ok := handle_calls (parseCallMessage (call_message b) info (env_ClientTimestamp envelope)) true in
        sret (ok, None)
  | Content_StoryMessage b =>
      let* ok := incomingStoryMessage (story_message b) sender theirServiceID (env_ClientTimestamp envelope) serverTimestamp isBlocked in
      sret (ok, None)
  | Content_DecryptionErrorMessage _ | Content_NullMessage _ | Content_nil => sret (true, None)
  end.

(** The result of the body of [handleDecryptedResult]: [handlerSuccess] and
    the error it returns. *)
Definition handle_content (result : DecryptionResult) (envelope : Envelope) (destinationServiceID theirServiceID : ServiceID) (senderAddress : bytes * Z)
  (rawContent : Content) : receiver (bool * option recv_error) :=
  match ct_Content rawContent with
  | Content_DecryptionErrorMessage b =>
      let* _ := match DeserializeDecryptionErrorMessage b with inl _ => sret tt | inr dem => spawn (Task_handleRetryRequest result dem) end in
      sret (true, None)
  | content =>
      if res_Unencrypted result then sret (true, None)
      else
        let* skdm := attempt_recv (process_skdm senderAddress (ct_SKDM rawContent)) in
        match skdm with
        | inl e => sret (true, Some e)
        | inr _ =>
            let* _ := if bool_decide (destinationServiceID = PNIServiceID dev) then
                        let* _ := on_recipients (fun st => LoadAndUpdateRecipient st (sid_UUID theirServiceID) uuid_Nil pni_message_updater) in sret tt
                      else sret tt in
            let* _ := match ct_PniSignature rawContent with
                      | Some (pni, sig) => let* _ := attempt_recv (handlePNISignatureMessage theirServiceID pni sig) in sret tt
                      | None => sret tt
                      end in
            let* blocked := on_recipients (fun st => IsBlocked st (sid_UUID theirServiceID)) in
            let isBlocked := match blocked with inr b => b | inl _ => false end in
            let* r := handle_message theirServiceID isBlocked envelope content in
            let* _ := match r with (true, Some ts) => sendDeliveryReceipts [ts] (sid_UUID theirServiceID) | _ => sret tt end in
            sret (r.1, None)
        end
  end.

Definition notify_error (result : DecryptionResult) (envelope : Envelope) (e : recv_error) : bool :=
  env_Urgent envelope && negb (res_ContentHint result =? ContentHintImplicit) && negb (contains (e_text e) (str "message with old counter")).

Definition handle_failure (result : DecryptionResult) (envelope : Envelope) (theirServiceID : ServiceID) (e : recv_error) : receiver (bool * option recv_error) :=
  if bool_decide (e_kind e = AlreadyProcessed) then sret (true, None)
  else
    let* ok := if notify_error result envelope e then handle_event (Ev_DecryptionError (sid_UUID theirServiceID) e (env_ClientTimestamp envelope)) else sret true in
    let* _ := if res_Retriable result then spawn (Task_sendRetryRequest result (env_ClientTimestamp envelope)) else sret tt in
    sret (ok, if ok then None else Some ErrHandlerFailed).

Definition handle_result (result : DecryptionResult) (envelope : Envelope) (destinationServiceID : ServiceID) : receiver (bool * option recv_error) :=
  match res_SenderAddress result with
  | None => sret (true, None)
  | Some senderAddress =>
      match NameServiceID senderAddress with
      | Panic => slift Panic
      | Err e => sret (true, Some (wrapf "failed to get sender name as service ID: " (sent_error e)))
      | Ok theirServiceID =>
          if negb (bool_decide (sid_Type theirServiceID = ServiceIDTypeACI)) then sret (true, None)
          else
            let* _ := on_send (MarkUnregistered theirServiceID false) in
            match res_Err result, res_Content result with
            | Some e, _ => handle_failure result envelope theirServiceID e
            | None, None => sret (true, None)
            | None, Some rawContent => handle_content result envelope destinationServiceID theirServiceID senderAddress rawContent
            end
      end
  end.

(** The deferred function also runs when the body panics, with
    [handlerSuccess] still [true]. *)
Definition clear_plaintext (result : DecryptionResult) (s : RecvState) : RecvState :=
  match res_CiphertextHash result with Some h => (ClearBufferedEventPlaintext h s).1 | None => s end.

(** [ctxErr]: the context was canceled. *)
Definition handleDecryptedResult (ctxErr : bool) (result : DecryptionResult) (envelope : Envelope) (destinationServiceID : ServiceID) : receiver unit := fun s =>
  match res_Err result ≫= (fun e => if bool_decide (e_kind e = Canceled) then Some e else None) with
  | Some e => (s, Err e)
  | None =>
    if ctxErr then (s, Err (mkError Canceled (str "context canceled")))
    else
    match handle_result result envelope destinationServiceID s with
    | (s, Ok (handlerSuccess, retErr)) =>
        (if handlerSuccess : bool then clear_plaintext result s else s,
         match retErr with
         | Some e => Err e
         | None => if handlerSuccess then Ok tt else Err ErrHandlerFailed
         end)
    | (s, Err e) => (s, Err e)
    | (s, Panic) => (clear_plaintext result s, Panic)
    end
  end.

(** ** Requests of the server *)

Definition incomingAPIMessageHandler (ctxErr : bool) (body : bytes) : receiver SimpleResponse :=
  let* envelope := slift (of_option (errorf "unmarshal error") (unmarshal_envelope body)) in
  let destinationServiceID := parsed_or_empty (ParseStringOrBinaryServiceID (env_DestinationServiceId envelope) (env_DestinationServiceIdBinary envelope)) in
  let sourceServiceID := parsed_or_empty (ParseStringOrBinaryServiceID (env_SourceServiceId envelope) (env_SourceServiceIdBinary envelope)) in
  let* result := decryptEnvelope dev now envelope sourceServiceID destinationServiceID in
  let* _ := handleDecryptedResult ctxErr result envelope destinationServiceID in
  sret (mkSimple 200 (Some 0%nat)).

(** Missing fields are dereferenced. *)
Definition incomingRequestHandler (ctxErr : bool) (req : WebSocketRequestMessage) : receiver SimpleResponse :=
  match rq_Verb req, rq_Path req, rq_Id req with
  | Some verb, Some path, Some _ =>
      if beqb verb (str "PUT") && beqb path (str "/api/v1/message") then incomingAPIMessageHandler ctxErr (default [] (rq_Body req))
      else
        let* _ := if beqb verb (str "PUT") && beqb path (str "/api/v1/queue/empty") then let* _ := handle_event Ev_QueueEmpty in sret tt else sret tt in
        sret (mkSimple 200 None)
  | _, _, _ => slift Panic
  end.

(** ** Background work *)

Context (sendCache_Get : list (sendCacheKey * Content) -> sendCacheKey -> option Content).

(** A task runs on its own; a panic while a retry request is answered is
    caught, and errors are logged.  The storage sync is a component of its
    own ([StorageSync]) and resets the flag when it begins. *)
Definition run_task (t : task decryption_error) : receiver unit :=
  match t with
  | Task_sendRetryRequest result ts =>
      match res_SenderAddress result with
      | Some a => let* _ := on_send (sendRetryRequest dev now (retry_result a result) ts) in sret tt
      | None => slift Panic
      end
  | Task_handleRetryRequest result dem =>
      match res_SenderAddress result with
      | Some a => fun s => match on_send (handleRetryRequest dev now sendCache_Get (retry_result a result) dem) s with
                           | (s, Panic) => (s, Ok tt)
                           | (s, Err e) => (s, Err e)
                           | (s, Ok _) => (s, Ok tt)
                           end
      | None => sret tt
      end
  | Task_StorageSync => smodify (rset_queued false)
  | Task_IdentityChange id => let* _ := handle_event (Ev_IdentityChange id) in sret tt
  end.

End Receiving.
