(* ===== verification/ReceiveSafety.v ===== *)
(** What receiving guarantees: a message is decrypted once and kept until the
    bridge has handled it, redelivered messages are handled at most once, and
    events carry the sender that was authenticated. *)
From S2P Require Import Prelude GoLib ServiceId Crypto Attachments Storage ChatSettings RecipientStore StorageSync Groups GroupCache GroupChanges GroupUpdate Sending SenderKeys WsMessages RingRTC Contacts ReceivingDecrypt Receiving.

Section Safety.
Context `{U : UUIDLib} `{C : CryptoLib} `{PL : Pkcs7Lib} `{SP : SignalProtocol} `{MC : MessageCodec} `{R : Random} {W : Type} `{NW : MessageNetwork W}.
Context `{G : GroupLib} `{EN : Endorsements} `{WL : WireLib} `{IL : !IncomingLib} `{IC : IncomingCodec} {H : Type} `{EH : EventHandler H}.
Context (cdn : bytes -> Z -> option CDNResponse) (unmarshal_contact : bytes -> option ContactDetails).
Context (sendCache_Get : list (sendCacheKey * Content) -> sendCacheKey -> option Content).
#[local] Abbreviation receiver := (receiver (W := W) (H := H)).
#[local] Abbreviation RecvState := (RecvState (W := W) (H := H)).

(** ** What an operation does to the state it is run in *)

Section Rules.
Context (Rel : RecvState -> RecvState -> Prop) `{!PreOrder Rel}.

Definition rwp {A} (m : receiver A) (Q : A -> RecvState -> Prop) (s : RecvState) : Prop :=
  Rel s (m s).1 /\ match (m s).2 with Ok a => Q a (m s).1 | _ => True end.

Lemma rwp_lift {A} (o : outcome recv_error A) (Q : A -> RecvState -> Prop) s : (forall a, o = Ok a -> Q a s) -> rwp (slift o) Q s.
Proof. intros HQ. split; [done|]. cbn. by destruct o; [apply HQ| |]. Qed.
Lemma rwp_ret {A} (a : A) (Q : A -> RecvState -> Prop) s : Q a s -> rwp (sret a) Q s.
Proof. intros HQ. by split. Qed.
Lemma rwp_bind {A B} (m : receiver A) (k : A -> receiver B) Q Q' s :
  rwp m Q s -> (forall a s', Rel s s' -> Q a s' -> rwp (k a) Q' s') -> rwp (sbind m k) Q' s.
Proof.
  unfold rwp, sbind. intros [H1 H2] Hk. destruct (m s) as [s' [a|e|]]; cbn in *; [|by split..].
  destruct (Hk a s' H1 H2) as [H3 H4]. split; [by trans s'|done].
Qed.
Lemma rwp_impl {A} (m : receiver A) (Q Q' : A -> RecvState -> Prop) s : rwp m Q s -> (forall a s', Rel s s' -> Q a s' -> Q' a s') -> rwp m Q' s.
Proof. intros [H1 H2] HQ. split; [done|]. destruct (m s) as [s' [a| |]]; cbn in *; auto. Qed.
Lemma rwp_modify (f : RecvState -> RecvState) s : Rel s (f s) -> rwp (smodify f) (fun _ _ => True) s.
Proof. by split. Qed.
Lemma rwp_gets {A} (f : RecvState -> A) (Q : A -> RecvState -> Prop) s : Q (f s) s -> rwp (rgets f) Q s.
Proof. by split. Qed.
Lemma rwp_wrap {A} prefix (m : receiver A) Q s : rwp m Q s -> rwp (swrap prefix m) Q s.
Proof. unfold rwp, swrap. by destruct (m s) as [s' [a| |]]. Qed.
Lemma rwp_attempt {A} (m : receiver A) (Q : A -> RecvState -> Prop) s : rwp m Q s ->
  rwp (attempt_recv m) (fun r s' => match r with inr a => Q a s' | inl _ => True end) s.
Proof. unfold rwp, attempt_recv. by destruct (m s) as [s' [a|e|]]. Qed.

(** An operation that makes only changes of the kind [Rel]. *)
Definition rframe {A} (m : receiver A) : Prop := forall s, Rel s (m s).1.
Lemma rframe_wp {A} (m : receiver A) s : rframe m -> rwp m (fun _ _ => True) s.
Proof. intros Hm. split; [apply Hm|by destruct (m s).2]. Qed.
Lemma rframe_lift {A} (o : outcome recv_error A) : rframe (slift o).
Proof. by intros s. Qed.
Lemma rframe_ret {A} (a : A) : rframe (sret a).
Proof. by intros s. Qed.
Lemma rframe_bind {A B} (m : receiver A) (k : A -> receiver B) : rframe m -> (forall a, rframe (k a)) -> rframe (sbind m k).
Proof. intros Hm Hk s. unfold sbind. pose proof (Hm s) as H1. destruct (m s) as [s' [a| |]]; cbn in *; [|done..]. trans s'; [done|apply Hk]. Qed.
Lemma rframe_bind_post {A B} (P : A -> Prop) (m : receiver A) (k : A -> receiver B) :
  rframe m -> (forall s s' a, m s = (s', Ok a) -> P a) -> (forall a, P a -> rframe (k a)) -> rframe (sbind m k).
Proof.
  intros Hm HP Hk s. unfold sbind. pose proof (Hm s) as H1. destruct (m s) as [s' [a| |]] eqn:E; cbn in *; [|done..].
  trans s'; [done|apply Hk]. by eapply HP.
Qed.
Lemma rframe_modify f : (forall s, Rel s (f s)) -> rframe (smodify f).
Proof. intros Hf s. apply Hf. Qed.
Lemma rframe_gets {A} (f : RecvState -> A) : rframe (rgets f).
Proof. by intros s. Qed.
Lemma rframe_wrap {A} prefix (m : receiver A) : rframe m -> rframe (swrap prefix m).
Proof. intros Hm s. unfold swrap. pose proof (Hm s). by destruct (m s). Qed.
Lemma rframe_attempt {A} (m : receiver A) : rframe m -> rframe (attempt_recv m).
Proof. intros Hm s. unfold attempt_recv. pose proof (Hm s). by destruct (m s) as [? []]. Qed.
Lemma rframe_txn {A} (m : receiver A) : rframe m -> rframe (DoDecryptionTxn m).
Proof. intros Hm s. unfold DoDecryptionTxn. pose proof (Hm s). by destruct (m s) as [? []]. Qed.
End Rules.

(** ** Changes that handling a message makes *)

(** A retry is sent or answered to a known sender. *)
Definition task_ok (t : task decryption_error) : Prop :=
  match t with Task_sendRetryRequest r _ | Task_handleRetryRequest r _ => res_SenderAddress r <> None | _ => True end.

(** A relation that allows every change of the client but those of the event
    buffer; events must be [allowed]. *)
Record quiet (allowed : signal_event -> Prop) (Rel : RecvState -> RecvState -> Prop) : Prop := mkQuiet {
  q_pre : PreOrder Rel;
  q_send x s : Rel s (rset_send x s);
  q_identities x s : Rel s (rset_identities x s);
  q_keys x s : Rel s (rset_keys x s);
  q_groupKeys k gid s : groupIdentifierFromMasterKey (masterKeyFromBytes k) = Ok gid ->
    Rel s (rset_groupKeys (<[gid := masterKeyFromBytes k]> (rv_groupKeys s)) s);
  q_cache x s : Rel s (rset_cache x s);
  q_MasterKey x s : Rel s (rset_MasterKey x s);
  q_queued x s : Rel s (rset_queued x s);
  q_task x s : task_ok x -> Rel s (radd_task x s);
  q_event e h ok s : allowed e -> Rel s (rset_handled h (e, ok) s)
}.

Section Quiet.
Context (allowed : signal_event -> Prop) (Rel : RecvState -> RecvState -> Prop) (Q : quiet allowed Rel).
#[local] Instance quiet_pre : PreOrder Rel := q_pre _ _ Q.

Lemma q_on_send {A} (m : sender A) : rframe Rel (on_send m).
Proof. intros s. unfold on_send. destruct (m (rv_send s)). apply (q_send _ _ Q). Qed.
Lemma q_on_recipients {A} (f : RecipientStore -> RecipientStore * outcome recipient_error A) : rframe Rel (on_recipients f).
Proof. intros s. unfold on_recipients. destruct (f _). apply (q_send _ _ Q). Qed.
Lemma q_handle_event e : allowed e -> rframe Rel (handle_event e).
Proof. intros He s. unfold handle_event. destruct (handleEvent _ _). by apply (q_event _ _ Q). Qed.
Lemma q_spawn t : task_ok t -> rframe Rel (spawn t).
Proof. intros Ht s. by apply (q_task _ _ Q). Qed.
Lemma q_master_key k : rframe Rel (store_master_key k).
Proof. intros s. unfold store_master_key. destruct (groupIdentifierFromMasterKey _) eqn:E; cbn; [by apply (q_groupKeys _ _ Q)|done..]. Qed.
Lemma q_profile_key aci k : rframe Rel (store_profile_key aci k).
Proof. intros s. apply (q_send _ _ Q). Qed.
Lemma q_active_call gid era : rframe Rel (fun s => let '(c, r) := UpdateActiveCall gid era (rv_cache s) in (rset_cache c s, Ok r)).
Proof. intros s. destruct (UpdateActiveCall _ _ _). apply (q_cache _ _ Q). Qed.
Lemma q_queue : rframe Rel QueueStorageSync.
Proof. intros s. unfold QueueStorageSync. destruct (rv_storageSyncQueued s); [done|]. cbn. etrans; [apply (q_queued _ _ Q)|by apply (q_task _ _ Q)]. Qed.
End Quiet.

Ltac rf :=
  repeat match goal with
  | |- rframe _ (sbind _ _) => apply rframe_bind; [typeclasses eauto| |intros ?]
  | |- rframe _ (sret _) => apply rframe_ret
  | |- rframe _ (slift _) => apply rframe_lift
  | |- rframe _ (rgets _) => apply rframe_gets
  | |- rframe _ (swrap _ _) => apply rframe_wrap
  | |- rframe _ (attempt_recv _) => apply rframe_attempt
  | |- rframe _ (DoDecryptionTxn _) => apply rframe_txn
  | |- rframe _ (spawn _) => eapply q_spawn; [eassumption|try exact I]
  | |- rframe _ (on_send _) => eapply q_on_send; eassumption
  | |- rframe _ (on_recipients _) => eapply q_on_recipients; eassumption
  | |- rframe _ (handle_event _) => eapply q_handle_event; [eassumption|]
  | |- rframe _ (store_master_key _) => eapply q_master_key; eassumption
  | |- rframe _ (Receiving.store_profile_key _ _) => eapply q_profile_key; eassumption
  | |- rframe _ (fun s => let '(c, r) := UpdateActiveCall _ _ (rv_cache s) in _) => eapply q_active_call; eassumption
  | |- rframe _ QueueStorageSync => eapply q_queue; eassumption
  | |- rframe _ (smodify _) => apply rframe_modify; intros ?
  | |- rframe _ (match ?x with _ => _ end) => destruct x eqn:?
  end; try typeclasses eauto.

(** *** Chat messages *)

(** The chat of a message from a blocked user is a group. *)
Definition info_ok (sender : UUID) (isBlocked : bool) (info : MessageInfo) : Prop :=
  mi_Sender info = sender /\ (isBlocked = true -> length (mi_ChatID info) = 44%nat).

Lemma groupID_44 k gid : groupIdentifierFromMasterKey (masterKeyFromBytes k) = Ok gid -> length gid = 44%nat.
Proof.
  unfold groupIdentifierFromMasterKey. rewrite masterKey_roundtrip. cbn [obind]. destruct (derive_group_identifier k); [|done].
  intros [= <-]. apply GroupIdentifier_length.
Qed.
Lemma store_master_key_id k (s s' : RecvState) gid : store_master_key k s = (s', Ok (Some gid)) -> length gid = 44%nat.
Proof. unfold store_master_key. destruct (groupIdentifierFromMasterKey _) eqn:E; intros [= _ ?]; subst. by eapply groupID_44. Qed.

Definition group_result (isBlocked : bool) (r : bool * bool + bytes * Z) : Prop :=
  match r with inr (gid, _) => length gid = 44%nat \/ (gid = [] /\ isBlocked = false) | inl _ => True end.
Lemma message_group_id g isBlocked (s s' : RecvState) r : message_group g isBlocked s = (s', Ok r) -> group_result isBlocked r.
Proof.
  unfold message_group. destruct g as [g|].
  - destruct (to_fixed _ _) as [k|]; [|by intros [= <- <-]]. intros Hb. apply sbind_Ok in Hb as (s1 & [gid|] & H1 & [= <- <-]); cbn; [|done].
    left. by eapply store_master_key_id.
  - intros [= <- <-]. destruct isBlocked; cbn; auto.
Qed.
Lemma group_info sender isBlocked gid rev chat d ts guid token : group_result isBlocked (inr (gid, rev)) ->
  info_ok sender isBlocked (mkInfo sender (groupOrUserID gid chat) d rev ts guid token).
Proof.
  intros [Hl|[-> ->]]; split; cbn; [done| |done|done]. intros _. unfold groupOrUserID. destruct (beqb gid []) eqn:E; [|done].
  apply beqb_eq in E. by subst.
Qed.

Section ChatFrames.
Context (allowed : signal_event -> Prop) (Rel : RecvState -> RecvState -> Prop) (Q : quiet allowed Rel).
#[local] Instance chat_pre : PreOrder Rel := q_pre _ _ Q.

Lemma q_message_group g isBlocked : rframe Rel (message_group g isBlocked).
Proof. unfold message_group. rf. Qed.

Context (sender : UUID) (isBlocked : bool).
Context (Hchat : forall info c, info_ok sender isBlocked info -> allowed (Ev_ChatEvent info c)).
Context (Hcall : forall info ts r, info_ok sender isBlocked info -> allowed (Ev_GroupCall info ts r)).

Lemma q_edit e chat ts : rframe Rel (incomingEditMessage e sender chat ts isBlocked).
Proof.
  unfold incomingEditMessage. apply (rframe_bind_post _ (group_result isBlocked)); [apply q_message_group|intros; by eapply message_group_id|].
  intros [r|[gid rev]] Hg; rf. by apply Hchat, group_info.
Qed.
Lemma q_data m chat ts env : rframe Rel (incomingDataMessage m sender chat ts isBlocked env).
Proof.
  unfold incomingDataMessage. apply rframe_bind; [typeclasses eauto|rf|]. intros _.
  apply (rframe_bind_post _ (group_result isBlocked)); [apply q_message_group|intros; by eapply message_group_id|].
  intros [r|[gid rev]] Hg; [rf|]. destruct (match env with Some _ => _ | None => _ end) as [guid token]. rf.
  - by apply Hcall, group_info.
  - by apply Hchat, group_info.
Qed.
Lemma q_story story chat ts sts : rframe Rel (incomingStoryMessage story sender chat ts sts isBlocked).
Proof.
  unfold incomingStoryMessage. apply rframe_bind; [typeclasses eauto|rf|]. intros _.
  apply (rframe_bind_post _ (fun r => match r with inl _ => True | inr (gid, rev) => group_result isBlocked (inr (gid, rev)) end)).
  - rf.
  - intros s s' a. destruct (st_Group story) as [g|].
    + intros Hb. apply sbind_Ok in Hb as (s1 & k & _ & Hb). apply sbind_Ok in Hb as (s2 & [gid|] & H2 & [= <- <-]); cbn; [|done].
      left. by eapply store_master_key_id.
    + intros [= <- <-]. destruct isBlocked; cbn; auto.
  - intros [r|[gid rev]] Hg; rf. by apply Hchat, group_info.
Qed.
End ChatFrames.

(** *** Who an event is from *)

(** What the sender [theirs] may cause: messages in its own name, and what
    only the account's other devices may report. *)
Definition authentic (dev : SendDevice) (theirs : ServiceID) (e : signal_event) : Prop :=
  match e with
  | Ev_ChatEvent info _ | Ev_GroupCall info _ _ => mi_Sender info = sid_UUID theirs
  | Ev_Call c => mi_Sender (call_Info c) = sid_UUID theirs
  | Ev_DecryptionError sender _ _ | Ev_Receipt sender _ => sender = sid_UUID theirs
  | Ev_ACIFound _ aci => aci = theirs
  | Ev_ViewOnceOpen _ _ | Ev_ReadSelf _ _ | Ev_CallSync _ _ | Ev_ContactList _ | Ev_DeleteForMe _ _ | Ev_MessageRequestResponse _ _ _ _ =>
      theirs = own_ACI dev
  | Ev_QueueEmpty | Ev_IdentityChange _ => False
  end.

(** A direct message or call. *)
Definition direct (theirs : ServiceID) (e : signal_event) : Prop :=
  match e with
  | Ev_ChatEvent _ (Chat_TypingMessage _) => False
  | Ev_ChatEvent info _ | Ev_GroupCall info _ _ => mi_ChatID info = ServiceID_String theirs
  | Ev_Call _ => True
  | _ => False
  end.

Section ContentFrames.
Context `{UL : !UUIDLaws U} (allowed : signal_event -> Prop) (Rel : RecvState -> RecvState -> Prop) (Q : quiet allowed Rel).
#[local] Instance content_pre : PreOrder Rel := q_pre _ _ Q.
Context (dev : SendDevice) (now : Z).

Lemma q_save_identity sid k : rframe Rel (SaveIdentityKey dev sid k).
Proof. unfold SaveIdentityKey, ArchiveAllSessionsForServiceID. rf; first [apply (q_identities _ _ Q)|apply (q_keys _ _ Q)]. Qed.

Lemma q_statuses l : rframe Rel (save_statuses dev l).
Proof.
  induction l as [|u l IH]; cbn [save_statuses]; [rf|]. apply rframe_bind; [typeclasses eauto| |intros _; apply IH].
  unfold saveSyncPNIIdentityKey. rf. apply q_save_identity.
Qed.

Lemma q_contacts c : (forall l, allowed (Ev_ContactList l)) -> rframe Rel (handle_contacts cdn unmarshal_contact c).
Proof.
  intros Ha. unfold handle_contacts. destruct (co_Blob c) as [blob|]; [|rf]. do 2 (apply rframe_bind; [typeclasses eauto|rf|intros ?]).
  apply rframe_bind; [typeclasses eauto| |intros [l|]; rf; apply Ha].
  intros s. destruct (store_contacts _ _) as [st [l|e|]]; cbn; [apply (q_send _ _ Q)..|done].
Qed.

(** Sync messages are the account's own. *)
Lemma q_sync msg env : (forall e, authentic dev (own_ACI dev) e -> allowed e) -> rframe Rel (handleSyncMessage cdn unmarshal_contact dev msg env).
Proof.
  intros Ha. assert (Hi : forall info, info_ok (dev_ACI dev) false info -> mi_Sender info = sid_UUID (own_ACI dev)) by by intros ? [-> _].
  unfold handleSyncMessage. destruct (sy_Content msg) as [sent| | |read|b]; [|rf..].
  - unfold handle_sent. destruct (sent_StoryMessage sent) as [b|].
    { destruct (st_Group _); [|rf]. apply (q_story allowed _ Q); intros; by apply Ha, Hi. }
    destruct (match sent_Message sent with Some _ => true | None => match sent_EditMessage sent with Some _ => true | None => false end end) eqn:E; cycle 1.
    { destruct (sent_Message sent), (sent_EditMessage sent); first [done|rf]. }
    destruct (sent_Message sent) as [m|] eqn:Em, (sent_EditMessage sent) as [e|] eqn:Ee; [..|done].
    all: apply rframe_bind; [typeclasses eauto|rf|intros _]; apply rframe_bind; [typeclasses eauto|apply q_statuses|intros _];
      apply rframe_bind; [typeclasses eauto| |intros _; rf]; destruct (IsEmpty _ && _); [rf|].
    1, 2: apply (q_data allowed _ Q); intros; by apply Ha, Hi.
    apply (q_edit allowed _ Q); intros; by apply Ha, Hi.
  - by apply Ha.
  - unfold handle_read. rf. by apply Ha.
  - unfold handle_keys, save_device. rf; [by destruct (rv_MasterKey _).1; [|apply (q_MasterKey _ _ Q)]|apply (q_MasterKey _ _ Q)].
  - apply q_contacts. intros l. by apply Ha.
  - by apply Ha.
  - by apply Ha.
  - unfold handle_request_response. rf; by apply Ha.
  - unfold handle_read. rf. by apply Ha.
Qed.

Lemma q_pni_signature sender pni sig : (forall p, allowed (Ev_ACIFound p sender)) -> rframe Rel (handlePNISignatureMessage dev sender pni sig).
Proof.
  intros Ha. unfold handlePNISignatureMessage, pni_identity, fetch_identity. rf; first [apply (q_identities _ _ Q)|apply Ha].
Qed.
Lemma q_send_message recipient c : rframe Rel (send_message dev now recipient c).
Proof. intros s. unfold send_message. by apply (q_on_send allowed _ Q). Qed.
Lemma q_receipts ts u : rframe Rel (sendDeliveryReceipts dev now ts u).
Proof. unfold sendDeliveryReceipts. rf. apply q_send_message. Qed.
Lemma q_skdm a m : rframe Rel (process_skdm a m).
Proof.
  unfold process_skdm. rf. intros st. destruct (ProcessSenderKeyDistributionMessage _ _ _). apply (q_keys _ _ Q).
Qed.
Lemma q_calls calls : Forall (fun c => allowed (Ev_Call c)) calls -> forall b, rframe Rel (handle_calls calls b).
Proof. induction 1 as [|c calls Hc Hcs IH]; intros b; cbn [handle_calls]; rf; [done|apply IH]. Qed.

Lemma parse_calls m info ts : Forall (fun c : Call MessageInfo => call_Info c = info) (parseCallMessage m info ts).
Proof. unfold parseCallMessage. by apply Forall_map, Forall_true. Qed.

(** The events of a message, and those of a blocked user. *)
Lemma q_message theirs isBlocked env content :
  (forall e, authentic dev theirs e -> (isBlocked = true -> theirs <> own_ACI dev -> ~ direct theirs e) -> allowed e) ->
  rframe Rel (handle_message cdn unmarshal_contact dev theirs isBlocked env content).
Proof.
  intros Ha. assert (Hi : forall info c, info_ok (sid_UUID theirs) isBlocked info -> allowed (Ev_ChatEvent info c)).
  { intros info c [Hs Hb]. apply Ha; [done|]. intros Hx _ Hd. specialize (Hb Hx). destruct c; cbn in Hd; [..|done|]; rewrite Hd in Hb; by apply String_not_group in Hb. }
  assert (Hg : forall info ts r, info_ok (sid_UUID theirs) isBlocked info -> allowed (Ev_GroupCall info ts r)).
  { intros info ts r [Hs Hb]. apply Ha; [done|]. intros Hx _ Hd. specialize (Hb Hx). cbn in Hd. rewrite Hd in Hb. by apply String_not_group in Hb. }
  unfold handle_message. destruct content as [m|m|m|m|m|b|b|b|b|]; [| | | | |rf| | |rf|rf].
  - apply rframe_bind; [typeclasses eauto| |intros; rf]. by apply (q_data allowed _ Q).
  - apply rframe_bind; [typeclasses eauto| |intros; rf]. by apply (q_edit allowed _ Q).
  - rf. apply Ha; [done|by intros _ _ []].
  - rf. apply Ha; [done|by intros _ _ []].
  - case_bool_decide as E; [|rf]. apply rframe_bind; [typeclasses eauto| |intros; rf]. apply q_sync. intros e He. apply Ha; [by rewrite E|].
    by intros _ [].
  - destruct isBlocked; [rf|]. apply rframe_bind; [typeclasses eauto| |intros; rf]. apply q_calls.
    eapply Forall_impl; [apply parse_calls|]. intros c Hc. apply Ha; [|done]. cbn. by rewrite Hc.
  - apply rframe_bind; [typeclasses eauto| |intros; rf]. by apply (q_story allowed _ Q).
Qed.

(** Everything that is said to the bridge about a decryption result. *)
Lemma q_result result env dest theirs a : res_SenderAddress result = Some a -> NameServiceID a = Ok theirs ->
  (forall e, authentic dev theirs e -> allowed e) -> rframe Rel (handle_result cdn unmarshal_contact dev now result env dest).
Proof.
  intros Ha Hn He. unfold handle_result. rewrite Ha, Hn. destruct (negb _); [rf|]. apply rframe_bind; [typeclasses eauto|rf|intros _].
  destruct (res_Err result) as [e|].
  { unfold handle_failure. rf; [by apply He|]. cbn. congruence. }
  destruct (res_Content result) as [c|]; [|rf]. unfold handle_content.
  assert (Hm : forall content b, rframe Rel (handle_message cdn unmarshal_contact dev theirs b env content)) by (intros; apply q_message; auto).
  destruct (ct_Content c); [..|rf; cbn; congruence|]; destruct (res_Unencrypted result); try rf.
  all: first [apply q_skdm|apply q_pni_signature; intros; by apply He|apply Hm|apply q_receipts].
Qed.
End ContentFrames.

(** *** Decryption *)

Section DecryptFrames.
Context (allowed : signal_event -> Prop) (Rel : RecvState -> RecvState -> Prop) (Q : quiet allowed Rel).
#[local] Instance decrypt_pre : PreOrder Rel := q_pre _ _ Q.
Context (dev : SendDevice) (now : Z).
Context (Hput : forall c p ts s, Rel s (rset_buffer (<[sha256 c := mkBuffered (Some p) ts now]> (rv_buffer s)) s)).

Lemma d_buffered c ts f : rframe Rel (bufferedDecryptTxn now c ts f).
Proof.
  unfold bufferedDecryptTxn, GetBufferedEvent. rf.
  - intros s. unfold on_keys. destruct (f (client_keys s)) as [k r]. cbn [fst]. unfold with_keys.
    trans (rset_send (set_sessions (k_sessions k) (rv_send s)) s); [apply (q_send _ _ Q)|].
    eapply transitivity; [apply (q_identities _ _ Q)|apply (q_keys _ _ Q)].
  - intros s. unfold PutBufferedEvent. destruct (rv_buffer s !! _); cbn; [done|apply Hput].
Qed.
Lemma d_prekey dest sender c ts : rframe Rel (prekeyDecrypt dev now dest sender c ts).
Proof. unfold prekeyDecrypt. rf. apply d_buffered. Qed.
Lemma d_ciphertext dest sender c ts : rframe Rel (decryptCiphertextEnvelope dev now dest sender c ts).
Proof. unfold decryptCiphertextEnvelope. rf. apply d_buffered. Qed.
Lemma d_envelope env src dest : rframe Rel (decryptEnvelope dev now env src dest).
Proof.
  unfold decryptEnvelope, decryptUnidentifiedSenderEnvelope, step_or, decrypt_opened, decryptSenderKeyMessage.
  rf; first [apply d_prekey|apply d_ciphertext|apply d_buffered].
Qed.
End DecryptFrames.

Section Handling.
Context `{UL : !UUIDLaws U} (allowed : signal_event -> Prop) (Rel : RecvState -> RecvState -> Prop) (Q : quiet allowed Rel).
#[local] Instance handling_pre : PreOrder Rel := q_pre _ _ Q.
Context (dev : SendDevice) (now : Z).
Context (Hclear : forall h s, Rel s (ClearBufferedEventPlaintext h s).1).

Lemma q_decrypted ctxErr result env dest theirs a : res_SenderAddress result = Some a -> NameServiceID a = Ok theirs ->
  (forall e, authentic dev theirs e -> allowed e) -> rframe Rel (handleDecryptedResult cdn unmarshal_contact dev now ctxErr result env dest).
Proof.
  intros Ha Hn He s. unfold handleDecryptedResult. destruct (res_Err result ≫= _); [done|]. destruct ctxErr; [done|].
  pose proof (q_result _ _ Q dev now result env dest theirs a Ha Hn He s) as Hr.
  destruct (handle_result _ _ _ _ _ _ _ s) as [s' [[ok retErr]|e|]]; cbn in *; [destruct ok|..]; unfold clear_plaintext; try done.
  all: destruct (res_CiphertextHash result); [trans s'; [done|apply Hclear]|done].
Qed.

(** Without a sender, or from an unknown one, nothing happens. *)
Lemma q_no_sender ctxErr result env dest s : res_SenderAddress result = None \/ (exists a, res_SenderAddress result = Some a /\ is_ok (NameServiceID a) = false) ->
  Rel s (handleDecryptedResult cdn unmarshal_contact dev now ctxErr result env dest s).1.
Proof.
  intros Hs. unfold handleDecryptedResult. destruct (res_Err result ≫= _); [done|]. destruct ctxErr; [done|].
  assert (exists r, handle_result cdn unmarshal_contact dev now result env dest s = (s, r) /\ (forall ok e, r = Ok (ok, e) -> ok = true)) as (r & -> & Hr).
  { unfold handle_result. destruct Hs as [->|(a & -> & Ha)]; [eexists; split; [done|congruence]|].
    destruct (NameServiceID a); [done|eexists; split; [done|congruence]..]. }
  destruct r as [[ok e']|e'|]; cbn; [rewrite (Hr ok e' eq_refl)| |]; unfold clear_plaintext; try done.
  all: destruct (res_CiphertextHash result); [apply Hclear|done].
Qed.
End Handling.

(** A whole delivery, and a task. *)
Section Operations.
Context `{UL : !UUIDLaws U} (Rel : RecvState -> RecvState -> Prop) (Q : quiet (fun _ => True) Rel) (dev : SendDevice) (now : Z).
#[local] Instance operations_pre : PreOrder Rel := q_pre _ _ Q.
Context (Hput : forall c p ts s, Rel s (rset_buffer (<[sha256 c := mkBuffered (Some p) ts now]> (rv_buffer s)) s)).
Context (Hclear : forall h s, Rel s (ClearBufferedEventPlaintext h s).1).

Lemma q_deliver ctxErr body : rframe Rel (incomingAPIMessageHandler cdn unmarshal_contact dev now ctxErr body).
Proof.
  unfold incomingAPIMessageHandler. apply rframe_bind; [typeclasses eauto|rf|intros env].
  apply rframe_bind; [typeclasses eauto|by apply (d_envelope _ _ Q)|intros r]. apply rframe_bind; [typeclasses eauto| |intros _; rf].
  destruct (res_SenderAddress r) as [a|] eqn:Ha; [|intros s; apply (q_no_sender _ _ Q); auto].
  destruct (NameServiceID a) as [theirs|e|] eqn:Hn.
  - by apply (q_decrypted _ _ Q dev now Hclear ctxErr r env _ theirs a).
  - intros s. apply (q_no_sender _ _ Q); [done|]. right. exists a. by rewrite Hn.
  - intros s. apply (q_no_sender _ _ Q); [done|]. right. exists a. by rewrite Hn.
Qed.

Lemma q_run_task t : rframe Rel (run_task dev now sendCache_Get t).
Proof.
  unfold run_task. destruct t as [r ts|r dem| |id].
  - destruct (res_SenderAddress r); rf.
  - destruct (res_SenderAddress r) as [a|]; [|rf]. intros s. pose proof (q_on_send _ _ Q (handleRetryRequest dev now sendCache_Get (retry_result a r) dem) s) as Hb.
    by destruct (on_send _ s) as [s' []].
  - rf. apply (q_queued _ _ Q).
  - rf. done.
Qed.
End Operations.

(** ** The event buffer *)

Definition same_buffer (s s' : RecvState) : Prop := rv_buffer s' = rv_buffer s.
#[global] Instance same_buffer_pre : PreOrder same_buffer.
Proof. split; [by intros s|]. intros s1 s2 s3 H1 H2. unfold same_buffer in *. congruence. Qed.
Lemma same_buffer_quiet : quiet (fun _ => True) same_buffer.
Proof. split; [apply _|done..]. Qed.

Section Buffer.
Context `{UL : !UUIDLaws U} (dev : SendDevice) (now : Z).

Lemma handle_result_buffer result env dest : rframe same_buffer (handle_result cdn unmarshal_contact dev now result env dest).
Proof.
  destruct (res_SenderAddress result) as [a|] eqn:Ha; [|intros s; unfold handle_result; by rewrite Ha].
  destruct (NameServiceID a) as [theirs|e|] eqn:Hn.
  - by apply (q_result _ _ same_buffer_quiet dev now _ _ _ theirs a).
  - intros s. unfold handle_result. by rewrite Ha, Hn.
  - intros s. unfold handle_result. by rewrite Ha, Hn.
Qed.

(** New entries are added, and hold a plaintext. *)
Definition grow (s s' : RecvState) : Prop :=
  forall h, rv_buffer s' !! h = rv_buffer s !! h \/ (rv_buffer s !! h = None /\ exists p ts, rv_buffer s' !! h = Some (mkBuffered (Some p) ts now)).
#[global] Instance grow_pre : PreOrder grow.
Proof.
  split; [by left|]. intros s1 s2 s3 H1 H2 h. destruct (H1 h) as [E1|(E1 & p & ts & E1')], (H2 h) as [E2|(E2 & p' & ts' & E2')].
  - left. congruence.
  - right. split; [congruence|eauto].
  - right. split; [done|]. exists p, ts. congruence.
  - congruence.
Qed.
Lemma same_grow s s' : same_buffer s s' -> grow s s'.
Proof. intros Hs h. left. by rewrite Hs. Qed.

(** The content a plaintext stands for. *)
Definition plaintext_content (p : bytes) : option Content := match stripPadding p with Ok b => unmarshal_content b | _ => None end.

(** The buffer holds the plaintext of the message with hash [h]. *)
Definition pending (s : RecvState) (h p : bytes) : Prop := exists e, rv_buffer s !! h = Some e /\ be_Plaintext e = Some p.
Definition done_ (s : RecvState) (h : bytes) : Prop := exists e, rv_buffer s !! h = Some e /\ be_Plaintext e = None.

Lemma buffered_spec c ts f s : rwp grow (bufferedDecryptTxn now c ts f) (fun r s' => pending s' r.2 r.1 /\ (rv_buffer s !! r.2 = None \/ pending s r.2 r.1)) s.
Proof.
  unfold rwp, bufferedDecryptTxn, sbind, GetBufferedEvent, rgets. destruct (rv_buffer s !! sha256 c) as [e|] eqn:E.
  - destruct (be_Plaintext e) as [p|] eqn:Ep; cbn; [|done]. split; [done|]. split; [|right]; by exists e.
  - unfold DoDecryptionTxn, on_keys. destruct (f (client_keys s)) as [k [e|p]]; cbn [fst snd of_sum]; [done|].
    unfold swrap, PutBufferedEvent. cbn. rewrite E. cbn. split.
    + intros h. cbn. destruct (decide (h = sha256 c)) as [->|Hn]; [right|left; by rewrite lookup_insert_ne by done].
      rewrite lookup_insert_eq. eauto.
    + split; [|by left]. eexists. cbn. by rewrite lookup_insert_eq.
Qed.

(** A result that carries a hash: its content is that of the plaintext in the
    buffer, it has no error, was encrypted, and had not been handled. *)
Definition buffered_result (s : RecvState) (r : DecryptionResult) (s' : RecvState) : Prop :=
  match res_CiphertextHash r with
  | None => True
  | Some h => exists p, pending s' h p /\ (rv_buffer s !! h = None \/ pending s h p) /\ plaintext_content p = res_Content r
                      /\ res_Err r = None /\ res_Unencrypted r = false /\ isSome (res_Content r) = true
  end.

Lemma open_spec what sender p h r : open_plaintext what sender p h = Ok r ->
  exists content, r = decrypted sender h content /\ plaintext_content p = Some content.
Proof.
  unfold open_plaintext, plaintext_content. destruct (stripPadding p) as [b| |]; cbn; [|done..]. destruct (unmarshal_content b); [|done].
  intros [= <-]. eauto.
Qed.

Lemma decrypt_spec what sender c ts f prefix s :
  rwp grow (let* p := swrap prefix (bufferedDecryptTxn now c ts f) in slift (open_plaintext what sender p.1 p.2)) (buffered_result s) s.
Proof.
  eapply (rwp_bind grow); [apply rwp_wrap, buffered_spec|]. intros [p h] s' _ [Hp Hb]. apply (rwp_lift grow).
  intros r (content & -> & Hc)%open_spec. exists p. split_and!; done.
Qed.

Lemma buffered_start s s1 r s' : same_buffer s s1 -> buffered_result s1 r s' -> buffered_result s r s'.
Proof. unfold buffered_result, pending. intros E. by rewrite <- E. Qed.
Lemma rwp_pure {A B} (o : outcome recv_error A) (k : A -> receiver B) Q s : (forall a, o = Ok a -> rwp grow (k a) Q s) -> rwp grow (let* a := slift o in k a) Q s.
Proof.
  intros Hk. eapply (rwp_bind grow); [apply (rwp_lift grow _ (fun a s' => o = Ok a /\ s' = s)); done|]. intros a s' _ [E ->]. by apply Hk.
Qed.

Lemma prekey_spec dest sender c ts s : rwp grow (prekeyDecrypt dev now dest sender c ts) (buffered_result s) s.
Proof.
  unfold prekeyDecrypt. apply rwp_pure. intros [m|] _; [|by apply (rwp_lift grow)].
  destruct (negb _); [by apply (rwp_lift grow)|]. apply rwp_pure. intros a _. apply decrypt_spec.
Qed.
Lemma ciphertext_spec dest sender c ts s : rwp grow (decryptCiphertextEnvelope dev now dest sender c ts) (buffered_result s) s.
Proof.
  unfold decryptCiphertextEnvelope. apply rwp_pure. intros m _.
  destruct (negb _); [by apply (rwp_lift grow)|]. apply rwp_pure. intros a _. apply decrypt_spec.
Qed.

(** With an error there is no hash. *)
Definition partial_result (s : RecvState) (p : DecryptionResult * option recv_error) (s' : RecvState) : Prop :=
  match p.2 with Some _ => res_CiphertextHash p.1 = None | None => buffered_result s p.1 s' end.

Lemma opened_spec dest r sender type contents ts s : res_CiphertextHash r = None ->
  rwp grow (decrypt_opened dev now dest r sender type contents ts) (partial_result s) s.
Proof.
  intros Hr. unfold decrypt_opened.
  assert (Hf : forall m, rwp grow m (buffered_result s) s -> rwp grow (let* res := attempt_recv m in
    sret (match res with
          | inl e => (mkResult (res_SenderAddress r) None None (res_ContentHint r) None (res_GroupID r) false
                        (res_ContentHint r =? ContentHintResendable) (res_Ciphertext r) (res_CiphertextType r), Some e)
          | inr res => (with_group_id (res_GroupID r) res, None)
          end)) (partial_result s) s).
  { intros m Hm. eapply (rwp_bind grow); [by apply rwp_attempt|]. intros [e|res] s' _ Hres; by apply (rwp_ret grow). }
  repeat match goal with |- context [if ?b then _ else _] => destruct b end.
  - apply Hf, decrypt_spec.
  - apply Hf, prekey_spec.
  - apply Hf, ciphertext_spec.
  - apply (rwp_ret grow). unfold partial_result. cbn [fst snd]. by case_match.
  - by apply (rwp_ret grow).
Qed.

Lemma unidentified_spec dest env s : rwp grow (decryptUnidentifiedSenderEnvelope dev now dest env) (partial_result s) s.
Proof.
  unfold decryptUnidentifiedSenderEnvelope. destruct (negb _); [by apply (rwp_ret grow)|].
  eapply (rwp_bind grow); [by apply (rwp_gets grow _ (fun _ s' => s' = s))|]. intros keys s' _ ->.
  unfold step_or. repeat match goal with
  | |- rwp _ (match ?x with inl _ => _ | inr _ => _ end) _ _ => destruct x; [by apply (rwp_ret grow)|]
  | |- rwp _ (match ?x with Some _ => _ | None => _ end) _ _ => destruct x; [|by apply (rwp_ret grow)]
  | |- rwp _ (if ?x then _ else _) _ _ => destruct x; [by apply (rwp_ret grow)|]
  | |- rwp _ (match ?x with Ok _ => _ | _ => _ end) _ _ => destruct x; [|by apply (rwp_ret grow)|by apply (rwp_lift grow)]
  end.
  eapply (rwp_bind grow _ _ (fun _ s' => same_buffer s s')).
  - case_match; [by apply (rwp_ret grow)|]. eapply (rwp_bind grow _ _ (fun _ s' => same_buffer s s')).
    + unfold rwp, on_recipients. destruct (UpdateRecipientE164 _ _ _ _) as [st r]. cbn [fst snd]. split; [by apply same_grow|]. by destruct r.
    + intros x s' _ Hs. by apply (rwp_ret grow).
  - intros [] s' _ Hs. eapply rwp_impl; [by apply opened_spec|]. intros [r e] s2 _. unfold partial_result. cbn [fst snd]. destruct e; [done|]. by apply buffered_start.
Qed.

Lemma envelope_spec env src dest s : rwp grow (decryptEnvelope dev now env src dest) (buffered_result s) s.
Proof.
  unfold decryptEnvelope. destruct (IsEmpty dest); [by apply (rwp_ret grow)|]. destruct (env_Type env) as [type|]; [|by apply (rwp_lift grow)].
  destruct (type =? Envelope_UNIDENTIFIED_SENDER).
  { eapply (rwp_bind grow); [apply unidentified_spec|]. intros [r e] s' _ Hr. apply (rwp_ret grow). cbn [fst snd] in *.
    destruct e; [|done]. unfold partial_result in Hr. cbn [fst snd] in Hr. unfold buffered_result. cbn. by rewrite Hr. }
  destruct (_ || _).
  { destruct (make_Address _ _) as [a|e|]; [|by apply (rwp_ret grow)|by apply (rwp_lift grow)].
    eapply (rwp_bind grow _ _ (fun res s' => match res with inr r => buffered_result s r s' | inl _ => True end)).
    - apply rwp_attempt. destruct (type =? Envelope_PREKEY_MESSAGE); [apply prekey_spec|apply ciphertext_spec].
    - intros [e|r] s' _ Hr; by apply (rwp_ret grow). }
  destruct (type =? Envelope_PLAINTEXT_CONTENT).
  { destruct (make_Address _ _) as [a|e|]; [|by apply (rwp_ret grow)|by apply (rwp_lift grow)].
    destruct (stripPadding _); [by apply (rwp_ret grow)..|by apply (rwp_lift grow)]. }
  destruct (_ =? _); [by apply (rwp_ret grow)|]. destruct (_ =? _); by apply (rwp_ret grow).
Qed.

(** The plaintext is cleared, or the server is not told that the message
    arrived. *)
Lemma handled_effect ctxErr r env dest s s' o : handleDecryptedResult cdn unmarshal_contact dev now ctxErr r env dest s = (s', o) ->
  match res_CiphertextHash r with
  | None => same_buffer s s'
  | Some h => (same_buffer s s' /\ is_ok o = false)
              \/ rv_buffer s' = alter (fun e => mkBuffered None (be_ServerTimestamp e) (be_InsertTimestamp e)) h (rv_buffer s)
  end.
Proof.
  unfold handleDecryptedResult. intros E.
  destruct (res_Err r ≫= _) as [e|]; [injection E as <- <-; case_match; [by left|done]|].
  destruct ctxErr; [injection E as <- <-; case_match; [by left|done]|].
  pose proof (handle_result_buffer r env dest s) as Hb. destruct (handle_result _ _ _ _ _ _ _ s) as [s1 [[ok retErr]|e|]]; cbn in Hb.
  - injection E as <- <-. unfold clear_plaintext. destruct ok.
    + destruct (res_CiphertextHash r) as [h|]; [|done]. right. cbn. by rewrite Hb.
    + destruct (res_CiphertextHash r); [left|done]. split; [done|]. by destruct retErr.
  - injection E as <- <-. case_match; [by left|done].
  - injection E as <- <-. unfold clear_plaintext. destruct (res_CiphertextHash r) as [h|]; [|done]. right. cbn. by rewrite Hb.
Qed.
End Buffer.

(** ** Senders *)

(** What is said to the bridge satisfies [P]. *)
Definition says (P : signal_event -> Prop) (s s' : RecvState) : Prop := exists l, rv_events s' = rv_events s ++ l /\ Forall (fun p => P p.1) l.
#[global] Instance says_pre P : PreOrder (says P).
Proof.
  split; [intros s; exists []; by rewrite app_nil_r|]. intros s1 s2 s3 (l1 & E1 & H1) (l2 & E2 & H2). exists (l1 ++ l2).
  rewrite E2, E1, app_assoc. split; [done|by apply Forall_app].
Qed.
Lemma says_same P s s' : rv_events s' = rv_events s -> says P s s'.
Proof. intros E. exists []. by rewrite app_nil_r. Qed.
Lemma says_quiet P : quiet P (says P).
Proof. split; [apply _|intros; by apply says_same..|]. intros e h ok s He. exists [(e, ok)]. split; [done|]. by apply Forall_singleton. Qed.

Section Senders.
Context `{UL : !UUIDLaws U} (dev : SendDevice) (now : Z).

(** The sender of an envelope: for sealed sender the user that the certificate
    inside names, if it is valid; else the one the server gives. *)
Definition sender_of (env : Envelope) (src : ServiceID) (s : RecvState) (theirs : ServiceID) : Prop :=
  if bool_decide (env_Type env = Some Envelope_UNIDENTIFIED_SENDER) then
    exists usmc cert u, SealedSenderDecryptToUSMC (env_Content env) (rv_keys s) = inr (Some usmc) /\ GetSenderCertificate usmc = inr cert
      /\ Certificate_Validate cert (env_ServerTimestamp env) = inr true /\ GetSenderUUID cert = inr u /\ theirs = NewACIServiceID u
  else ServiceIDFromString (ServiceID_String src) = Ok theirs.

Lemma make_Address_name sid d a : make_Address sid d = Ok a -> a.1 = ServiceID_String sid.
Proof. unfold make_Address, Address. destruct (IsEmpty sid); [done|]. destruct (newAddress_ok _ _); [|done]. by intros [= <-]. Qed.

(** The three decryptions keep the sender they are given. *)
Definition keeps_sender (a : bytes * Z) (m : receiver DecryptionResult) : Prop := forall s s' r, m s = (s', Ok r) -> res_SenderAddress r = Some a.
Lemma keeps_bind {A} a (m : receiver A) k : (forall x, keeps_sender a (k x)) -> keeps_sender a (sbind m k).
Proof. intros Hk s s' r E. apply sbind_Ok in E as (s1 & x & _ & E). by eapply Hk. Qed.
Lemma keeps_open a what p h : keeps_sender a (slift (open_plaintext what a p h)).
Proof. intros s s' r [= _ E]. by apply open_spec in E as (c & -> & _). Qed.
Lemma keeps_err a e : keeps_sender a (slift (Err e)).
Proof. done. Qed.
Lemma keeps_prekey dest a c ts : keeps_sender a (prekeyDecrypt dev now dest a c ts).
Proof.
  unfold prekeyDecrypt. apply keeps_bind. intros [m|]; [|apply keeps_err]. destruct (negb _); [apply keeps_err|].
  do 2 (apply keeps_bind; intros ?). apply keeps_open.
Qed.
Lemma keeps_ciphertext dest a c ts : keeps_sender a (decryptCiphertextEnvelope dev now dest a c ts).
Proof.
  unfold decryptCiphertextEnvelope. apply keeps_bind. intros m. destruct (negb _); [apply keeps_err|]. do 2 (apply keeps_bind; intros ?). apply keeps_open.
Qed.
Lemma keeps_sender_key a c ts : keeps_sender a (decryptSenderKeyMessage now a c ts).
Proof. unfold decryptSenderKeyMessage. apply keeps_bind. intros ?. apply keeps_open. Qed.

Lemma opened_sender dest r a type contents ts (s s' : RecvState) p : res_SenderAddress r = Some a -> decrypt_opened dev now dest r a type contents ts s = (s', Ok p) ->
  res_SenderAddress p.1 = Some a.
Proof.
  intros Hr. unfold decrypt_opened. assert (Hf : forall m, keeps_sender a m -> forall s, (let* res := attempt_recv m in
    sret (match res with
          | inl e => (mkResult (res_SenderAddress r) None None (res_ContentHint r) None (res_GroupID r) false
                        (res_ContentHint r =? ContentHintResendable) (res_Ciphertext r) (res_CiphertextType r), Some e)
          | inr res => (with_group_id (res_GroupID r) res, None)
          end)) s = (s', Ok p) -> res_SenderAddress p.1 = Some a).
  { intros m Hm s0 E. apply sbind_Ok in E as (s1 & [e|res] & E1 & [= <- <-]); [done|]. cbn. unfold attempt_recv in E1.
    destruct (m s0) as [s2 [r2|e2|]] eqn:E2; [|done..]. injection E1 as <- ->. by eapply Hm. }
  repeat match goal with |- context [if ?b then _ else _] => destruct b end.
  - apply Hf, keeps_sender_key.
  - apply Hf, keeps_prekey.
  - apply Hf, keeps_ciphertext.
  - by intros [= <- <-].
  - by intros [= <- <-].
Qed.

Lemma unidentified_sender dest env (s s' : RecvState) p a : decryptUnidentifiedSenderEnvelope dev now dest env s = (s', Ok p) -> res_SenderAddress p.1 = Some a ->
  exists usmc cert u, SealedSenderDecryptToUSMC (env_Content env) (rv_keys s) = inr (Some usmc) /\ GetSenderCertificate usmc = inr cert
    /\ Certificate_Validate cert (env_ServerTimestamp env) = inr true /\ GetSenderUUID cert = inr u /\ a.1 = ServiceID_String (NewACIServiceID u).
Proof.
  unfold decryptUnidentifiedSenderEnvelope. destruct (negb _); [by intros [= <- <-]|]. intros E Ha. apply sbind_Ok in E as (s1 & keys & [= <- <-] & E).
  unfold step_or in E. repeat match type of E with
  | (match ?x with inl _ => _ | inr _ => _ end) _ = _ => destruct x eqn:?; [by injection E as <- <-|]
  | (match ?x with Some _ => _ | None => _ end) _ = _ => destruct x eqn:?; [|by injection E as <- <-]
  | (if ?x then _ else _) _ = _ => destruct x eqn:?; [by injection E as <- <-|]
  | (match ?x with Ok _ => _ | _ => _ end) _ = _ => destruct x eqn:?; [|by injection E as <- <-|done]
  end.
  lazymatch goal with
  | Hv : negb ?b = false, Hm : make_Address (NewACIServiceID ?u) _ = Ok ?a0, Hu : _ = inr ?u |- _ =>
      apply negb_false_iff in Hv; subst b; assert (Hs : res_SenderAddress p.1 = Some a0)
  end.
  { repeat match type of E with (match ?x with inl _ => _ | inr _ => _ end) _ = _ => destruct x; [by injection E as <- <-|] end. apply sbind_Ok in E as (s1 & [] & _ & E). eapply opened_sender; [|exact E]. done. }
  rewrite Hs in Ha. injection Ha as ->. do 3 eexists. split_and!; [done..|by eapply make_Address_name].
Qed.

Lemma name_of a sid : valid_type (sid_Type sid) = true -> a.1 = ServiceID_String sid -> NameServiceID a = Ok sid.
Proof. intros Hv Ha. unfold NameServiceID. by rewrite Ha, FromString_String. Qed.

Lemma envelope_sender env src dest s s' r a theirs : decryptEnvelope dev now env src dest s = (s', Ok r) ->
  res_SenderAddress r = Some a -> NameServiceID a = Ok theirs -> sender_of env src s theirs.
Proof.
  unfold decryptEnvelope, sender_of. destruct (IsEmpty dest); [by intros [= <- <-]|]. destruct (env_Type env) as [ty|]; [|done]. intros E Ha Hn.
  destruct (Z.eqb_spec ty Envelope_UNIDENTIFIED_SENDER) as [Ht|Ht].
  { rewrite bool_decide_true by congruence. apply sbind_Ok in E as (s1 & p & E & [= <- <-]).
    assert (Ha' : res_SenderAddress p.1 = Some a) by (by destruct p.2). destruct (unidentified_sender _ _ _ _ _ _ E Ha') as (usmc & cert & u & H1 & H2 & H3 & H4 & H5).
    exists usmc, cert, u. split_and!; try done. apply (name_of _ (NewACIServiceID u)) in H5; [|done]. congruence. }
  rewrite bool_decide_false by congruence. assert (Hsrc : a.1 = ServiceID_String src -> ServiceIDFromString (ServiceID_String src) = Ok theirs).
  { intros Hs. unfold NameServiceID in Hn. rewrite Hs in Hn. by destruct (ServiceIDFromString _); [injection Hn as ->|..]. }
  destruct (_ || _).
  { destruct (make_Address _ _) as [a0|e|] eqn:Em; [|by injection E as <- <-|done]. apply make_Address_name in Em.
    apply sbind_Ok in E as (s1 & [e|r0] & E & [= <- <-]); [injection Ha as <-; by apply Hsrc|]. unfold attempt_recv in E.
    destruct (ty =? Envelope_PREKEY_MESSAGE).
    - destruct (prekeyDecrypt _ _ _ _ _ _ s) as [s2 [r2|e2|]] eqn:E2; [|done..]. injection E as <- ->. apply keeps_prekey in E2. apply Hsrc. congruence.
    - destruct (decryptCiphertextEnvelope _ _ _ _ _ _ s) as [s2 [r2|e2|]] eqn:E2; [|done..]. injection E as <- ->. apply keeps_ciphertext in E2. apply Hsrc. congruence. }
  destruct (ty =? Envelope_PLAINTEXT_CONTENT).
  { destruct (make_Address _ _) as [a0|e|] eqn:Em; [|by injection E as <- <-|done]. apply make_Address_name in Em.
    destruct (stripPadding _); [|by injection E as <- <-|done]. injection E as <- <-. injection Ha as <-. by apply Hsrc. }
  destruct (_ =? _); [by injection E as <- <-|]. destruct (_ =? _); by injection E as <- <-.
Qed.
End Senders.

(** ** Messages that were not encrypted *)

Section Plaintext.
Context (dev : SendDevice) (now : Z).

(** What was not decrypted is an error, or a request to send again. *)
Definition plain_result (r : DecryptionResult) : Prop :=
  res_CiphertextHash r = None -> res_Err r <> None \/ exists b, res_Content r = Some (unencrypted_content b).

Definition decrypts (m : receiver DecryptionResult) : Prop := forall s s' r, m s = (s', Ok r) -> res_CiphertextHash r <> None.
Lemma decrypts_bind {A} (m : receiver A) k : (forall x, decrypts (k x)) -> decrypts (sbind m k).
Proof. intros Hk s s' r E. apply sbind_Ok in E as (s1 & x & _ & E). by eapply Hk. Qed.
Lemma decrypts_open what a p h : decrypts (slift (open_plaintext what a p h)).
Proof. intros s s' r [= _ E]. by apply open_spec in E as (c & -> & _). Qed.
Lemma decrypts_prekey dest a c ts : decrypts (prekeyDecrypt dev now dest a c ts).
Proof. unfold prekeyDecrypt. apply decrypts_bind. intros [m|]; [|done]. destruct (negb _); [done|]. do 2 (apply decrypts_bind; intros ?). apply decrypts_open. Qed.
Lemma decrypts_ciphertext dest a c ts : decrypts (decryptCiphertextEnvelope dev now dest a c ts).
Proof. unfold decryptCiphertextEnvelope. apply decrypts_bind. intros m. destruct (negb _); [done|]. do 2 (apply decrypts_bind; intros ?). apply decrypts_open. Qed.
Lemma decrypts_sender_key a c ts : decrypts (decryptSenderKeyMessage now a c ts).
Proof. unfold decryptSenderKeyMessage. apply decrypts_bind. intros ?. apply decrypts_open. Qed.

Lemma opened_plain dest r a type contents ts (s s' : RecvState) p : decrypt_opened dev now dest r a type contents ts s = (s', Ok p) ->
  p.2 <> None \/ plain_result p.1.
Proof.
  unfold decrypt_opened. assert (Hf : forall m, decrypts m -> (let* res := attempt_recv m in
    sret (match res with
          | inl e => (mkResult (res_SenderAddress r) None None (res_ContentHint r) None (res_GroupID r) false
                        (res_ContentHint r =? ContentHintResendable) (res_Ciphertext r) (res_CiphertextType r), Some e)
          | inr res => (with_group_id (res_GroupID r) res, None)
          end)) s = (s', Ok p) -> p.2 <> None \/ plain_result p.1).
  { intros m Hm E. apply sbind_Ok in E as (s1 & [e|res] & E1 & [= <- <-]); [by left|right]. unfold attempt_recv in E1.
    destruct (m s) as [s2 [r2|e2|]] eqn:E2; [|done..]. injection E1 as <- ->. intros Hn. by destruct (Hm _ _ _ E2). }
  repeat match goal with |- context [if ?b then _ else _] => destruct b end.
  - apply Hf, decrypts_sender_key.
  - apply Hf, decrypts_prekey.
  - apply Hf, decrypts_ciphertext.
  - intros [= <- <-]. destruct (stripPadding contents); right; intros _; right; eauto.
  - intros [= <- <-]. by left.
Qed.

Lemma unidentified_plain dest env (s s' : RecvState) p : decryptUnidentifiedSenderEnvelope dev now dest env s = (s', Ok p) -> p.2 <> None \/ plain_result p.1.
Proof.
  unfold decryptUnidentifiedSenderEnvelope. destruct (negb _); [intros [= <- <-]; by left|]. intros E. apply sbind_Ok in E as (s1 & keys & [= <- <-] & E).
  unfold step_or in E. repeat match type of E with
  | (match ?x with inl _ => _ | inr _ => _ end) _ = _ => destruct x; [injection E as <- <-; by left|]
  | (match ?x with Some _ => _ | None => _ end) _ = _ => destruct x; [|injection E as <- <-; by left]
  | (if ?x then _ else _) _ = _ => destruct x; [injection E as <- <-; by left|]
  | (match ?x with Ok _ => _ | _ => _ end) _ = _ => destruct x; [|injection E as <- <-; by left|done]
  end.
  apply sbind_Ok in E as (s1 & [] & _ & E). by eapply opened_plain.
Qed.

Lemma envelope_plain env src dest (s s' : RecvState) r : decryptEnvelope dev now env src dest s = (s', Ok r) -> plain_result r.
Proof.
  unfold decryptEnvelope. destruct (IsEmpty dest); [intros [= <- <-] _; by left|]. destruct (env_Type env) as [ty|]; [|done]. intros E.
  destruct (ty =? _).
  { apply sbind_Ok in E as (s1 & p & E & [= <- <-]). destruct (unidentified_plain _ _ _ _ _ E) as [Hp|Hp]; destruct p.2; try done; by left. }
  destruct (_ || _).
  { destruct (make_Address _ _); [|injection E as <- <-; by left|done]. apply sbind_Ok in E as (s1 & [e|r0] & E & [= <- <-]); [by left|]. unfold attempt_recv in E.
    destruct (ty =? _).
    - destruct (prekeyDecrypt _ _ _ _ _ _ s) as [s2 [r2|e2|]] eqn:E2; [|done..]. injection E as <- ->. intros Hn. by destruct (decrypts_prekey _ _ _ _ _ _ _ E2).
    - destruct (decryptCiphertextEnvelope _ _ _ _ _ _ s) as [s2 [r2|e2|]] eqn:E2; [|done..]. injection E as <- ->. intros Hn. by destruct (decrypts_ciphertext _ _ _ _ _ _ _ E2). }
  destruct (ty =? _).
  { destruct (make_Address _ _); [|injection E as <- <-; by left|done]. destruct (stripPadding _); [|injection E as <- <-; by left|done].
    injection E as <- <-. intros _. right. eauto. }
  destruct (_ =? _); [injection E as <- <-; by left|]. destruct (_ =? _); injection E as <- <-; by left.
Qed.

(** Nothing but failures is reported and retries are queued. *)
Record only_retries (s s' : RecvState) : Prop := mkOnlyRetries {
  or_events : says (fun e => match e with Ev_DecryptionError _ _ _ => True | _ => False end) s s';
  or_groups : rv_groupKeys s' = rv_groupKeys s;
  or_cache : rv_cache s' = rv_cache s;
  or_MasterKey : rv_MasterKey s' = rv_MasterKey s;
  or_queued : rv_storageSyncQueued s' = rv_storageSyncQueued s;
  or_recipients : ss_recipients (rv_send s') = ss_recipients (rv_send s)
}.
#[global] Instance only_retries_pre : PreOrder only_retries.
Proof.
  split; [intros s; by split; [reflexivity|..]|]. intros s1 s2 s3 [] []. split; [by trans s2|congruence..].
Qed.

Lemma plain_handled result env dest : plain_result result -> res_CiphertextHash result = None ->
  rframe only_retries (handle_result cdn unmarshal_contact dev now result env dest).
Proof.
  intros Hp Hn. unfold handle_result. destruct (res_SenderAddress result) as [a|]; [|rf]. destruct (NameServiceID a) as [theirs|e|]; [|rf..].
  destruct (negb _); [rf|]. assert (Hspawn : forall t, rframe only_retries (spawn t)) by (intros t s; by split; [apply says_same|..]).
  apply rframe_bind; [typeclasses eauto| |intros _].
  { intros s. unfold on_send, MarkUnregistered, smodify. cbn. case_bool_decide; (split; [by apply says_same|..]); done. }
  destruct (res_Err result) as [e|] eqn:Ee.
  { unfold handle_failure. case_bool_decide; [rf|]. apply rframe_bind; [typeclasses eauto| |intros ok; apply rframe_bind; [typeclasses eauto| |intros _; rf]].
    - destruct (notify_error _ _ _); [|rf]. intros s. unfold handle_event. destruct (handleEvent _ _) as [h ok]. split; [|done..].
      eexists. split; [done|]. by apply Forall_singleton.
    - destruct (res_Retriable result); [apply Hspawn|rf]. }
  destruct (Hp Hn) as [?|[b ->]]; [done|]. unfold handle_content, unencrypted_content. cbn [ct_Content].
  destruct (DeserializeDecryptionErrorMessage b); rf. apply Hspawn.
Qed.
End Plaintext.

(** ** The answers of the bridge *)

(** The answer to a message; that the owner of a phone number is known is only
    announced. *)
Definition is_message (e : signal_event) : bool := match e with Ev_ACIFound _ _ => false | _ => true end.
Definition refused_in (l : list (signal_event * bool)) : bool := existsb (fun p => is_message p.1 && negb p.2) l.

Lemma refused_app l l' : refused_in (l ++ l') = refused_in l || refused_in l'.
Proof. apply existsb_app. Qed.
Lemma refused_none l : Forall (fun p => is_message p.1 = false) l -> refused_in l = false.
Proof. induction 1 as [|p l Hp Hl IH]; [done|]. cbn. by rewrite Hp. Qed.

(** Kinds of messages whose handling answers with what the bridge said.
    Messages that another device of the account sent, calls and typing notices
    are counted as handled whatever the bridge says. *)
Definition checked_sync (m : SyncMessage) : bool := match sy_Content m with Sync_Sent sent => isSome (sent_StoryMessage sent) | _ => true end.
Definition checked (c : message) : bool :=
  match c with
  | Content_DataMessage _ | Content_EditMessage _ | Content_ReceiptMessage _ | Content_StoryMessage _ => true
  | Content_SyncMessage m => checked_sync m
  | _ => false
  end.

Section Answers.
Context `{UL : !UUIDLaws U} (dev : SendDevice) (now : Z).

(** After a refusal the operation returns, and its result [ok] says so. *)
Definition reports {A} (ok : A -> bool) (m : receiver A) : Prop := forall s, exists l, rv_events (m s).1 = rv_events s ++ l /\
  (refused_in l = true -> exists a, (m s).2 = Ok a /\ ok a = false).
#[local] Abbreviation silent := (says (fun e => is_message e = false)).
#[local] Abbreviation silent_quiet := (says_quiet (fun e => is_message e = false)).

Lemma reports_silent {A} ok (m : receiver A) : rframe silent m -> reports ok m.
Proof. intros Hm s. destruct (Hm s) as (l & E & Hl). exists l. split; [done|]. by rewrite refused_none. Qed.
Lemma reports_event e : reports id (handle_event e).
Proof.
  intros s. unfold handle_event. destruct (handleEvent e _) as [h ok]. exists [(e, ok)]. split; [done|]. cbn. rewrite orb_false_r.
  intros [_ ?%negb_true_iff]%andb_true_iff. by exists ok.
Qed.
Lemma reports_after {A B} ok (m : receiver A) (k : A -> receiver B) : rframe silent m -> (forall a, reports ok (k a)) -> reports ok (sbind m k).
Proof.
  intros Hm Hk s. destruct (Hm s) as (l & E & Hl). unfold sbind. destruct (m s) as [s1 [a|e|]]; cbn [fst snd] in *.
  2, 3: exists l; split; [done|]; by rewrite refused_none.
  destruct (Hk a s1) as (l' & E' & Hr). exists (l ++ l'). rewrite E', E, app_assoc. split; [done|]. by rewrite refused_app, refused_none.
Qed.
(** What follows a refusal says nothing more and passes the answer on. *)
Lemma reports_then {A B} ok ok' (m : receiver A) (k : A -> receiver B) : reports ok m -> (forall a, rframe silent (k a)) ->
  (forall a s, ok a = false -> exists b, (k a s).2 = Ok b /\ ok' b = false) -> reports ok' (sbind m k).
Proof.
  intros Hm Hk Hf s. destruct (Hm s) as (l & E & Hr). unfold sbind. destruct (m s) as [s1 [a|e|]]; cbn [fst snd] in *; cycle 1.
  1, 2: exists l; split; [done|]; intros H1; by destruct (Hr H1) as (? & ? & _).
  destruct (Hk a s1) as (l' & E' & Hl'). exists (l ++ l'). rewrite E', E, app_assoc. split; [done|]. rewrite refused_app, (refused_none l' Hl'), orb_false_r.
  intros H1. destruct (Hr H1) as (a' & [= <-] & Ho). by apply Hf.
Qed.
Lemma reports_ret {A B} ok ok' (m : receiver A) (f : A -> B) : reports ok m -> (forall a, ok a = false -> ok' (f a) = false) ->
  reports ok' (let* a := m in sret (f a)).
Proof. intros Hm Hf. eapply reports_then; [done|intros a; apply rframe_ret; apply _|]. intros a s Ho. exists (f a). split; [done|auto]. Qed.

#[local] Ltac silently := apply reports_silent; rf.

Lemma reports_data m sender chat ts isBlocked env : reports fst (incomingDataMessage m sender chat ts isBlocked env).
Proof.
  unfold incomingDataMessage. pose proof silent_quiet as Q. apply reports_after; [rf|intros _].
  apply reports_after; [by eapply q_message_group|]. intros [r|[gid rev]]; [silently|].
  destruct (match env with Some _ => _ | None => _ end) as [guid token]. destruct (group_call_update m) as [era|].
  - apply reports_after; [rf|intros ringing]. by apply (reports_ret id); [apply reports_event|].
  - by apply (reports_ret id); [apply reports_event|].
Qed.
Lemma reports_edit e sender chat ts isBlocked : reports fst (incomingEditMessage e sender chat ts isBlocked).
Proof.
  unfold incomingEditMessage. apply reports_after; [eapply q_message_group, silent_quiet|]. intros [r|[gid rev]]; [silently|].
  by apply (reports_ret id); [apply reports_event|].
Qed.
Lemma reports_story story sender chat ts sts isBlocked : reports id (incomingStoryMessage story sender chat ts sts isBlocked).
Proof.
  unfold incomingStoryMessage. pose proof silent_quiet as Q. do 2 (apply reports_after; [rf|intros ?]).
  repeat case_match; first [apply reports_event|silently].
Qed.

Lemma reports_sync msg env : checked_sync msg = true -> reports id (handleSyncMessage cdn unmarshal_contact dev msg env).
Proof.
  pose proof silent_quiet as Q. unfold checked_sync, handleSyncMessage. destruct (sy_Content msg) as [sent| | |read|b]; intros Hc.
  - unfold handle_sent. destruct (sent_StoryMessage sent); [|done]. case_match; [apply reports_story|silently].
  - silently.
  - apply reports_event.
  - unfold handle_read. case_match; [silently|apply reports_event].
  - destruct (sync_message b) as [aep|ty|c|raw|raw|m|read]; try apply reports_event.
    + silently. unfold handle_keys, save_device. rf; [by destruct (rv_MasterKey _).1; [|apply (q_MasterKey _ _ Q)]|apply (q_MasterKey _ _ Q)].
    + silently.
    + unfold handle_contacts. case_match; [|silently]. do 2 (apply reports_after; [rf|intros ?]). apply reports_after.
      { intros s. destruct (store_contacts _ _) as [st [l|e|]]; cbn; [apply (q_send _ _ Q)..|done]. }
      intros [l|]; [apply reports_event|silently].
    + unfold handle_request_response. do 2 (apply reports_after; [rf|intros ?]). case_match; [silently|apply reports_event].
    + unfold handle_read. case_match; [silently|apply reports_event].
Qed.

Lemma reports_message theirs isBlocked env content : checked content = true ->
  reports fst (handle_message cdn unmarshal_contact dev theirs isBlocked env content).
Proof.
  unfold handle_message. destruct content as [m|m|m|m|m|b|b|b|b|]; intros Hc; try done.
  - apply (reports_ret fst); [apply reports_data|done].
  - apply (reports_ret fst); [apply reports_edit|done].
  - case_match; [silently|]. by apply (reports_ret id); [apply reports_event|].
  - case_bool_decide; [|silently]. by apply (reports_ret id); [apply reports_sync|].
  - by apply (reports_ret id); [apply reports_story|].
Qed.

(** The answer to a message of these kinds decides whether it is handled. *)
Lemma reports_result result env dest c : res_Content result = Some c -> checked (ct_Content c) = true ->
  reports fst (handle_result cdn unmarshal_contact dev now result env dest).
Proof.
  intros Hr Hc. pose proof silent_quiet as Q. unfold handle_result. destruct (res_SenderAddress result) as [a|]; [|silently].
  destruct (NameServiceID a) as [theirs|e|]; [|silently..]. destruct (negb _); [silently|]. apply reports_after; [rf|intros _].
  destruct (res_Err result) as [e|]; rewrite ?Hr.
  { unfold handle_failure. case_bool_decide; [silently|]. destruct (notify_error _ _ _).
    - eapply reports_then; [apply reports_event|intros ok; destruct (res_Retriable result)|].
      + intros s. by apply says_same.
      + rf.
      + intros [] s Hok; [done|]. eexists. split; [by destruct (res_Retriable result)|done].
    - apply reports_after; [rf|intros ok]. destruct (res_Retriable result); apply reports_silent; [intros s; by apply says_same|rf]. }
  unfold handle_content. destruct (ct_Content c) as [m|m|m|m|m|b|b|b|b|] eqn:Ec; try done.
  all: destruct (res_Unencrypted result); [silently|]; apply reports_after; [apply rframe_attempt; by apply (q_skdm _ _ Q)|intros [e|[]]; [silently|]].
  all: apply reports_after; [rf|intros _]; apply reports_after; [rf; by apply (q_pni_signature _ _ Q)|intros _]; apply reports_after; [rf|intros blocked].
  all: eapply reports_then; [by apply reports_message| |].
  all: try (intros [[] [ts|]]; rf; by apply (q_receipts _ _ Q)).
  all: intros [ok ts] s Hok; cbn in Hok; subst ok; by eexists.
Qed.
End Answers.

(** ** Runs of the client *)

Section Runs.
Context `{UL : !UUIDLaws U} (dev : SendDevice).

(** The server delivers the body of a message, a task runs, old events are
    deleted. *)
Inductive recv_op :=
| Op_Deliver (ctxErr : bool) (now : Z) (body : bytes)
| Op_Task (now : Z) (t : task decryption_error)
| Op_Cleanup (maxTS : Z).

Definition exec (o : recv_op) (s : RecvState) : RecvState :=
  match o with
  | Op_Deliver ctxErr now body => (incomingAPIMessageHandler cdn unmarshal_contact dev now ctxErr body s).1
  | Op_Task now t => (run_task dev now sendCache_Get t s).1
  | Op_Cleanup maxTS => (DeleteBufferedEventsOlderThan maxTS s).1
  end.

(** A delivery whose message could be decrypted: the hash of the ciphertext,
    the content, what the bridge was told and answered, whether the message
    counts as handled afterwards (its plaintext is deleted) and whether the
    server is told so. *)
Record delivery := mkDelivery {
  dl_hash : bytes; dl_content : Content; dl_answers : list (signal_event * bool); dl_handled : bool; dl_acked : bool
}.
(** The bridge refused the message. *)
Definition refused (d : delivery) : bool := refused_in (dl_answers d).

Definition handled_in (s : RecvState) (h : bytes) : bool :=
  match rv_buffer s !! h with Some e => match be_Plaintext e with None => true | Some _ => false end | None => false end.

Definition message_result (now : Z) (body : bytes) (s : RecvState) : option DecryptionResult :=
  envelope ← unmarshal_envelope body;
  match decryptEnvelope dev now envelope
          (parsed_or_empty (ParseStringOrBinaryServiceID (env_SourceServiceId envelope) (env_SourceServiceIdBinary envelope)))
          (parsed_or_empty (ParseStringOrBinaryServiceID (env_DestinationServiceId envelope) (env_DestinationServiceIdBinary envelope))) s with
  | (_, Ok r) => Some r
  | _ => None
  end.

Definition delivered (o : recv_op) (s : RecvState) : option delivery :=
  match o with
  | Op_Deliver ctxErr now body =>
      r ← message_result now body s;
      h ← res_CiphertextHash r;
      content ← res_Content r;
      let '(s', res) := incomingAPIMessageHandler cdn unmarshal_contact dev now ctxErr body s in
      Some (mkDelivery h content (drop (length (rv_events s)) (rv_events s')) (handled_in s' h) (is_ok res))
  | _ => None
  end.

Fixpoint deliveries (ops : list recv_op) (s : RecvState) : list delivery :=
  match ops with
  | [] => []
  | o :: ops => match delivered o s with Some d => [d] | None => [] end ++ deliveries ops (exec o s)
  end.

Fixpoint exec_all (ops : list recv_op) (s : RecvState) : RecvState :=
  match ops with [] => s | o :: ops => exec_all ops (exec o s) end.

Lemma run_task_buffer now t : rframe same_buffer (run_task dev now sendCache_Get t).
Proof. apply q_run_task, same_buffer_quiet. Qed.

Definition clear_entry (e : BufferedEvent) : BufferedEvent := mkBuffered None (be_ServerTimestamp e) (be_InsertTimestamp e).

(** A delivery in two steps: decryption, which adds to the buffer, and the
    handling, which clears at most the plaintext of the message. *)
Inductive delivery_effect (now : Z) (s s' : RecvState) (res : outcome recv_error SimpleResponse) (mr : option DecryptionResult) : Prop :=
| no_message s1 : grow now s s1 -> same_buffer s1 s' -> mr ≫= res_CiphertextHash = None -> delivery_effect now s s' res mr
| some_message s1 r h p content : mr = Some r -> res_CiphertextHash r = Some h -> res_Content r = Some content -> plaintext_content p = Some content ->
    grow now s s1 -> pending s1 h p -> (rv_buffer s !! h = None \/ pending s h p) ->
    ((same_buffer s1 s' /\ is_ok res = false) \/ rv_buffer s' = alter clear_entry h (rv_buffer s1)) -> delivery_effect now s s' res mr.

Lemma deliver_inv ctxErr now body s s' res : incomingAPIMessageHandler cdn unmarshal_contact dev now ctxErr body s = (s', res) ->
  delivery_effect now s s' res (message_result now body s).
Proof.
  unfold incomingAPIMessageHandler, message_result. intros E. destruct (unmarshal_envelope body) as [env|]; cbn in E |- *; cycle 1.
  { injection E as <- <-. by apply (no_message _ _ _ _ _ s). }
  set (src := parsed_or_empty (ParseStringOrBinaryServiceID (env_SourceServiceId env) _)) in *.
  set (dst := parsed_or_empty (ParseStringOrBinaryServiceID (env_DestinationServiceId env) _)) in *.
  pose proof (envelope_spec dev now env src dst s) as Hs. unfold rwp in Hs. unfold sbind in E.
  destruct (decryptEnvelope dev now env src dst s) as [s1 [r|e|]]; cbn in Hs; cycle 1.
  1, 2: injection E as <- <-; by apply (no_message _ _ _ _ _ s1); [apply Hs|..].
  destruct Hs as [Hg Hr]. destruct (handleDecryptedResult _ _ _ _ _ _ _ _ s1) as [s2 o] eqn:E2. apply handled_effect in E2.
  assert (s' = s2 /\ is_ok res = is_ok o) as [-> Hok] by (by destruct o; injection E as <- <-).
  unfold buffered_result in Hr. destruct (res_CiphertextHash r) as [h|] eqn:Eh; cycle 1.
  { by apply (no_message _ _ _ _ _ s1). }
  destruct Hr as (p & Hp & Hb & Hc & _ & _ & Hsome). destruct (res_Content r) as [content|] eqn:Ec; [|done].
  eapply (some_message _ _ _ _ _ s1 r h p content); try done. rewrite Hok. exact E2.
Qed.

Lemma grow_Some now s s1 h e : grow now s s1 -> rv_buffer s !! h = Some e -> rv_buffer s1 !! h = Some e.
Proof. intros Hg E. destruct (Hg h) as [->|[? _]]; congruence. Qed.

Lemma alter_entry (s1 s' : RecvState) h h' e : rv_buffer s' = alter clear_entry h (rv_buffer s1) -> rv_buffer s1 !! h' = Some e ->
  rv_buffer s' !! h' = Some (if bool_decide (h = h') then clear_entry e else e).
Proof.
  intros -> E. case_bool_decide as Eh; [subst h'; by rewrite lookup_alter_eq, E|by rewrite lookup_alter_ne by done].
Qed.

Lemma delivered_spec o s d : delivered o s = Some d -> exists p, plaintext_content p = Some (dl_content d)
  /\ (rv_buffer s !! dl_hash d = None \/ pending s (dl_hash d) p)
  /\ (if dl_handled d then done_ (exec o s) (dl_hash d) else pending (exec o s) (dl_hash d) p /\ dl_acked d = false).
Proof.
  destruct o as [ctxErr now body| |]; [|done..]. unfold delivered, exec.
  destruct (incomingAPIMessageHandler _ _ _ _ _ _ s) as [s' res] eqn:E. apply deliver_inv in E as [s1 _ _ Hn|s1 r h p content Hr Hh Hc Hp Hg (e & He & Hep) Hb Hs'].
  { destruct (message_result now body s) as [r|]; [|done]. cbn in Hn |- *. by rewrite Hn. }
  rewrite Hr. cbn. rewrite Hh. cbn. rewrite Hc. cbn. intros [= <-]. cbn. exists p. split; [done|]. split; [done|].
  destruct Hs' as [[Hsame Hno]|Ha]; unfold handled_in.
  - rewrite Hsame, He, Hep, Hno. split; [|done]. exists e. by rewrite Hsame.
  - rewrite (alter_entry _ _ _ h e Ha He). rewrite bool_decide_true by done. cbn. exists (clear_entry e). split; [|done].
    rewrite (alter_entry _ _ _ h e Ha He). by rewrite bool_decide_true.
Qed.

(** A message that the bridge refused is not handled. *)
Lemma decrypt_says_nothing now env src dst (s : RecvState) : rv_events (decryptEnvelope dev now env src dst s).1 = rv_events s.
Proof.
  destruct (d_envelope _ _ (says_quiet (fun _ => False)) dev now ltac:(intros; by apply says_same) env src dst s) as (l & E & Hl).
  destruct l; [by rewrite E, app_nil_r|by apply Forall_cons in Hl as [[] _]].
Qed.

Lemma refused_not_handled o s d : delivered o s = Some d -> checked (ct_Content (dl_content d)) = true -> refused d = true -> dl_handled d = false.
Proof.
  destruct o as [ctxErr now body| |]; [|done..]. unfold delivered, message_result, incomingAPIMessageHandler.
  destruct (unmarshal_envelope body) as [env|]; [cbn [mbind option_bind]|done]. unfold sbind. cbn [of_option slift].
  set (src := parsed_or_empty (ParseStringOrBinaryServiceID (env_SourceServiceId env) _)).
  set (dst := parsed_or_empty (ParseStringOrBinaryServiceID (env_DestinationServiceId env) _)).
  pose proof (envelope_spec dev now env src dst s) as Hs. pose proof (decrypt_says_nothing now env src dst s) as Hev.
  unfold rwp in Hs. destruct (decryptEnvelope dev now env src dst s) as [s1 [r|e|]]; [|done..]. destruct Hs as [_ Hs]. cbn [fst snd] in Hs, Hev.
  unfold buffered_result in Hs. destruct (res_CiphertextHash r) as [h|] eqn:Eh; [|by cbn; rewrite Eh]. destruct Hs as (p & (e & He & Hp) & _).
  destruct (res_Content r) as [content|] eqn:Ec; [|by cbn; rewrite Eh, Ec]. cbn. rewrite Eh. cbn. rewrite Ec. cbn.
  unfold handleDecryptedResult. assert (Hpend : forall s' : RecvState, rv_buffer s' = rv_buffer s1 -> handled_in s' h = false) by (intros s' Hs'; unfold handled_in; by rewrite Hs', He, Hp).
  destruct (res_Err r ≫= _); [intros [= <-] _ _; by apply Hpend|]. destruct ctxErr; [intros [= <-] _ _; by apply Hpend|].
  pose proof (handle_result_buffer dev now r env dst s1) as Hb. intros Hd Hc Hr.
  assert (Hk : checked (ct_Content content) = true) by (destruct (handle_result _ _ _ _ _ _ _ s1) as [s2 [[[] []]| |]]; by injection Hd as <-).
  destruct (reports_result dev now r env dst content Ec Hk s1) as (l & El & Hl).
  destruct (handle_result _ _ _ _ _ _ _ s1) as [s2 res]; cbn [fst snd] in *.
  assert (Hl' : refused_in l = true).
  { assert (Hev2 : forall s3 : RecvState, rv_events s3 = rv_events s2 -> drop (length (rv_events s)) (rv_events s3) = l) by (intros s3 ->; rewrite El, Hev; by rewrite drop_app_length).
    destruct res as [[[] []]| |]; injection Hd as <-; unfold refused in Hr; cbn in Hr; rewrite Hev2 in Hr; try done; unfold clear_plaintext; by destruct (res_CiphertextHash r). }
  destruct (Hl Hl') as ([ok e'] & -> & Hok). cbn in Hok. subst ok. by destruct e'; injection Hd as <-; apply Hpend.
Qed.

(** Plaintexts stay until their message is handled, and handled messages are
    remembered until a cleanup. *)
Definition is_cleanup (o : recv_op) : bool := match o with Op_Cleanup _ => true | _ => false end.

Lemma exec_done o s h : is_cleanup o = false -> done_ s h -> done_ (exec o s) h.
Proof.
  intros Hc (e & He & Hp). destruct o as [ctxErr now body|now t|ts]; [| |done]; unfold exec.
  - destruct (incomingAPIMessageHandler _ _ _ _ _ _ s) as [s' res] eqn:E. cbn [fst].
    apply deliver_inv in E as [s1 Hg Hs _|s1 r h' p content _ _ _ _ Hg _ _ [[Hs _]|Ha]].
    1, 2: exists e; split; [|done]; rewrite Hs; by apply (grow_Some _ _ _ _ _ Hg).
    pose proof (grow_Some _ _ _ _ _ Hg He) as He1. eexists. split; [by apply (alter_entry _ _ _ h e Ha)|]. by case_bool_decide.
  - exists e. by rewrite (run_task_buffer now t s).
Qed.

Lemma exec_pending o s h p : pending s h p -> pending (exec o s) h p \/ (exists d, delivered o s = Some d /\ dl_hash d = h /\ dl_handled d = true).
Proof.
  intros (e & He & Hp). destruct o as [ctxErr now body|now t|ts].
  - unfold exec, delivered. destruct (incomingAPIMessageHandler _ _ _ _ _ _ s) as [s' res] eqn:E. cbn [fst].
    apply deliver_inv in E as [s1 Hg Hs _|s1 r h' p' content Hr Hh Hco _ Hg _ _ [[Hs _]|Ha]].
    1, 2: left; exists e; split; [|done]; rewrite Hs; by apply (grow_Some _ _ _ _ _ Hg).
    pose proof (alter_entry _ _ _ h e Ha (grow_Some _ _ _ _ _ Hg He)) as He1. case_bool_decide as Eh; [right|left; by exists e]. subst h'.
    rewrite Hr. cbn. rewrite Hh. cbn. rewrite Hco. cbn. eexists. split; [done|]. cbn. split; [done|]. unfold handled_in. by rewrite He1.
  - left. exists e. unfold exec. by rewrite (run_task_buffer now t s).
  - left. exists e. split; [|done]. apply map_lookup_filter_Some. split; [done|]. cbn. unfold old_event. rewrite Hp. by destruct (_ <? _).
Qed.

(** *** Consequences for runs *)

Lemma deliveries_done ops : forall s h, Forall (fun o => is_cleanup o = false) ops -> done_ s h -> Forall (fun d => dl_hash d <> h) (deliveries ops s).
Proof.
  induction ops as [|o ops IH]; intros s h Hc Hd; cbn [deliveries]; [done|]. apply Forall_cons in Hc as [Ho Hc].
  apply Forall_app. split; [|by apply IH; [|apply exec_done]]. destruct (delivered o s) as [d|] eqn:E; [|done].
  apply Forall_singleton. intros <-. apply delivered_spec in E as (p & _ & Hb & _). destruct Hd as (e & He & Hn). destruct Hb as [Hb|(e' & He' & Hp)]; congruence.
Qed.

Lemma deliveries_pending ops : forall s h p, Forall (fun o => is_cleanup o = false) ops -> pending s h p ->
  Forall (fun d => dl_hash d = h -> plaintext_content p = Some (dl_content d)) (deliveries ops s).
Proof.
  induction ops as [|o ops IH]; intros s h p Hc Hp; cbn [deliveries]; [done|]. apply Forall_cons in Hc as [Ho Hc]. apply Forall_app. split.
  - destruct (delivered o s) as [d|] eqn:E; [|done]. apply Forall_singleton. intros <-. apply delivered_spec in E as (p' & Hc' & Hb & _).
    destruct Hp as (e & He & Hp). destruct Hb as [Hb|(e' & He' & Hp')]; congruence.
  - destruct (exec_pending o s h p Hp) as [Hp'|(d & Hd & Hh & Hdone)]; [by apply IH|].
    apply delivered_spec in Hd as (p' & _ & _ & Hd). rewrite Hdone, Hh in Hd. eapply Forall_impl; [by apply (deliveries_done ops _ h)|]. by intros d' Hn Hh'.
Qed.

(** A message that is not handled stays, or a later delivery with the same
    content is handled. *)
Definition same_message (d d' : delivery) : Prop := dl_hash d' = dl_hash d /\ dl_content d' = dl_content d.

Lemma pending_end ops : forall s h p content, pending s h p -> plaintext_content p = Some content ->
  pending (exec_all ops s) h p \/ Exists (fun d => dl_hash d = h /\ dl_content d = content /\ dl_handled d = true) (deliveries ops s).
Proof.
  induction ops as [|o ops IH]; intros s h p content Hp Hc; cbn [deliveries exec_all]; [by left|].
  destruct (exec_pending o s h p Hp) as [Hp'|(d & Hd & Hh & Hdone)].
  - destruct (IH _ _ _ _ Hp' Hc) as [?|?]; [by left|right]. apply Exists_app. by right.
  - right. rewrite Hd. left. split_and!; [done| |done]. apply delivered_spec in Hd as (p' & Hc' & Hb & _). rewrite Hh in Hb.
    destruct Hp as (e & He & Hp), Hb as [Hb|(e' & He' & Hp')]; congruence.
Qed.

Lemma deliveries_inv ops : forall s l1 d l2, deliveries ops s = l1 ++ d :: l2 ->
  exists o s1 ops', delivered o s1 = Some d /\ l2 = deliveries ops' (exec o s1) /\ exec_all ops s = exec_all ops' (exec o s1).
Proof.
  induction ops as [|o ops IH]; intros s l1 d l2 E; cbn [deliveries exec_all] in *; [by destruct l1|].
  destruct (delivered o s) as [d'|] eqn:Ed; [|by eapply IH]. destruct l1 as [|d'' l1]; injection E as -> E; [|by eapply IH]. by exists o, s, ops.
Qed.

Lemma deliveries_In ops s d : d ∈ deliveries ops s -> exists o s1, delivered o s1 = Some d.
Proof. intros (l1 & l2 & E)%list_elem_of_split. destruct (deliveries_inv _ _ _ _ _ E) as (o & s1 & _ & Hd & _). eauto. Qed.

(** C9: a message that the server delivers again is handled at most once, and
    every time with the same content: in any run of deliveries and background
    tasks, when two deliveries have the same ciphertext (hash) the earlier one
    was not handled by the bridge, was not acknowledged to the server, and had
    the content of the later one, whatever libsignal and the bridge do. *)
Theorem message_handled_once ops s l1 d1 l2 d2 l3 : Forall (fun o => is_cleanup o = false) ops ->
  deliveries ops s = l1 ++ d1 :: l2 ++ d2 :: l3 -> dl_hash d1 = dl_hash d2 ->
  dl_handled d1 = false /\ dl_acked d1 = false /\ dl_content d1 = dl_content d2.
Proof.
  revert s l1. induction ops as [|o ops IH]; intros s l1 Hc E Hh; cbn [deliveries] in E; [by destruct l1|].
  apply Forall_cons in Hc as [Ho Hc]. destruct (delivered o s) as [d|] eqn:Ed; [|by eapply IH].
  destruct l1 as [|d' l1]; injection E as -> E; [|by eapply IH]. apply delivered_spec in Ed as (p & Hp & _ & Hd).
  assert (Hin : d2 ∈ deliveries ops (exec o s)) by (rewrite E; set_solver).
  destruct (dl_handled d1).
  - pose proof (deliveries_done ops _ _ Hc Hd) as Hn. rewrite Forall_forall in Hn. by destruct (Hn d2 Hin).
  - destruct Hd as [Hd Hack]. pose proof (deliveries_pending ops _ _ _ Hc Hd) as Hn. rewrite Forall_forall in Hn. specialize (Hn d2 Hin (eq_sym Hh)).
    split_and!; [done|done|congruence].
Qed.

(** C8: a message that the bridge refuses is not lost.  When a message, an edit,
    a receipt, a story or a sync message (other than one about a message that
    another device sent) is decrypted and delivered, and the bridge answers to
    an event of it that it could not handle it, then the delivery is not
    acknowledged to the server and the plaintext is not deleted; whatever
    happens after that (other messages, tasks, deletion of old events), either
    the plaintext is still in the buffer at the end, from which the next
    delivery takes it, or a later delivery of the same ciphertext gave the
    bridge the same content, was not refused, and only then was it deleted.
    Typing notices, calls and messages sent from another device are outside:
    their answers are ignored.  A message of which the bridge is told nothing
    (of a blocked sender, or with an unreadable sender key) is outside too. *)
Theorem message_never_lost ops s l1 d l2 : deliveries ops s = l1 ++ d :: l2 -> checked (ct_Content (dl_content d)) = true -> refused d = true ->
  dl_acked d = false /\ dl_handled d = false /\
  ((exists p, pending (exec_all ops s) (dl_hash d) p /\ plaintext_content p = Some (dl_content d))
   \/ Exists (fun d' => same_message d d' /\ refused d' = false /\ dl_handled d' = true) l2).
Proof.
  intros E Hc Hr. destruct (deliveries_inv _ _ _ _ _ E) as (o & s1 & ops' & Hd & -> & ->).
  pose proof (refused_not_handled _ _ _ Hd Hc Hr) as Hh. apply delivered_spec in Hd as (p & Hp & _ & Hd). rewrite Hh in Hd.
  destruct Hd as [Hd Hack]. split; [done|]. split; [done|]. destruct (pending_end ops' _ _ _ _ Hd Hp) as [He|He]; [left; by exists p|right].
  apply Exists_exists in He as (d' & Hin & Hh' & Hc' & Hdone). apply Exists_exists. exists d'. split; [done|]. split; [done|]. split; [|done].
  destruct (refused d') eqn:Hr'; [|done]. apply deliveries_In in Hin as (o' & s2 & Hd'). rewrite <- Hc' in Hc.
  by rewrite (refused_not_handled _ _ _ Hd' Hc Hr') in Hdone.
Qed.

Lemma sbind_ret_state {A B} (m : receiver A) (b : B) s : (sbind m (fun _ => sret b) s).1 = (m s).1.
Proof. unfold sbind. by destruct (m s) as [s' []]. Qed.

Definition source_of (env : Envelope) : ServiceID :=
  parsed_or_empty (ParseStringOrBinaryServiceID (env_SourceServiceId env) (env_SourceServiceIdBinary env)).

(** C10: the bridge is only told what the sender of the envelope may say: for a
    sealed message the user named in a sender certificate that validates
    against the trust root at the server's time, for others the user the
    server names.  Every event of a delivery is in the name of that user;
    contact lists, read marks and the other sync events come only from the
    account itself. *)
Theorem events_authentic ctxErr now body env s : unmarshal_envelope body = Some env ->
  exists l, rv_events (incomingAPIMessageHandler cdn unmarshal_contact dev now ctxErr body s).1 = rv_events s ++ l /\
    (l = [] \/ exists theirs, sender_of env (source_of env) s theirs /\ Forall (fun p => authentic dev theirs p.1) l).
Proof.
  intros Hu. unfold incomingAPIMessageHandler. rewrite Hu. cbn [of_option]. unfold sbind at 1. cbn [slift]. fold (source_of env).
  set (dst := parsed_or_empty (ParseStringOrBinaryServiceID (env_DestinationServiceId env) _)). unfold sbind at 1.
  destruct (d_envelope _ _ (says_quiet (fun _ => False)) dev now ltac:(intros; by apply says_same) env (source_of env) dst s) as (l0 & E0 & H0).
  assert (l0 = []) as -> by (destruct l0; [done|by apply Forall_cons in H0 as [[] _]]). rewrite app_nil_r in E0.
  destruct (decryptEnvelope dev now env (source_of env) dst s) as [s1 [r|e|]] eqn:E; cbn [fst snd] in *.
  2, 3: exists []; rewrite app_nil_r; auto.
  rewrite sbind_ret_state, <- E0.
  destruct (res_SenderAddress r) as [a|] eqn:Ha; [destruct (NameServiceID a) as [theirs|e|] eqn:Hn|]; cycle 1.
  1, 2, 3: destruct (q_no_sender _ _ (says_quiet (fun _ => False)) dev now ltac:(intros; by apply says_same) ctxErr r env dst s1) as (l & El & Hl);
    [rewrite Ha; first [by left|right; exists a; by rewrite Hn]|]; exists l; split; [done|]; left; destruct l; [done|by apply Forall_cons in Hl as [[] _]].
  destruct (q_decrypted _ _ (says_quiet (authentic dev theirs)) dev now ltac:(intros; by apply says_same) ctxErr r env dst theirs a Ha Hn ltac:(done) s1) as (l & El & Hl).
  exists l. split; [done|]. right. exists theirs. split; [|done]. by eapply envelope_sender.
Qed.

(** A blocked user reaches nobody directly: while a message of a blocked
    user is handled, the bridge gets no direct message and no call of theirs,
    only messages in groups, receipts and typing notices. *)
Theorem blocked_not_bridged theirs env content (s : RecvState) : theirs <> own_ACI dev ->
  exists l, rv_events (handle_message cdn unmarshal_contact dev theirs true env content s).1 = rv_events s ++ l /\
    Forall (fun p => authentic dev theirs p.1 /\ ~ direct theirs p.1) l.
Proof.
  intros Hn. apply (q_message _ _ (says_quiet (fun e => authentic dev theirs e /\ ~ direct theirs e)) dev).
  intros e Ha Hd. split; [done|]. by apply Hd.
Qed.

(** *** Well-formed states *)

(** Buffered events are named by hashes, a group's master key is stored under
    the identifier that belongs to it, and every retry that waits has a sender. *)
Record recv_wf (s : RecvState) : Prop := mkRecvWf {
  wf_buffer : map_Forall (fun h _ => length h = 32%nat) (rv_buffer s);
  wf_groups : map_Forall (fun gid k => groupIdentifierFromMasterKey k = Ok gid) (rv_groupKeys s);
  wf_tasks : Forall task_ok (rv_tasks s)
}.
Definition keeps_wf (s s' : RecvState) : Prop := recv_wf s -> recv_wf s'.
Lemma keeps_wf_quiet : quiet (fun _ => True) keeps_wf.
Proof.
  split; [split; [intros s; unfold keeps_wf; auto|intros s1 s2 s3; unfold keeps_wf; auto]|try (intros x s [H1 H2 H3]; by split)..|].
  - intros k gid s Hk [H1 H2 H3]. split; [done| |done]. by apply map_Forall_insert_2.
  - intros x s Hx [H1 H2 H3]. split; [done..|]. apply Forall_app. split; [done|by apply Forall_singleton].
  - intros e h ok s _ [H1 H2 H3]. by split.
Qed.

(** C11: the state of the receiving side stays well-formed in every run of
    deliveries, tasks and cleanups: the buffer is keyed by 32-byte hashes,
    [StoreMasterKey] files every group key under the identifier derived from
    it, whatever messages claim, and no retry is queued without a sender. *)
Theorem receive_well_formed `{CL : !CryptoLaws C} ops s : recv_wf s -> recv_wf (exec_all ops s).
Proof.
  revert s. induction ops as [|o ops IH]; intros s Hs; [done|]. cbn [exec_all]. apply IH. revert Hs. destruct o as [ctxErr now body|now t|ts]; cbn [exec].
  - apply (q_deliver keeps_wf keeps_wf_quiet dev now); [|].
    + intros c p' ts st [H1 H2 H3]. split; [|done..]. apply map_Forall_insert_2; [apply sha256_length|done].
    + intros h st [H1 H2 H3]. split; [|done..]. intros h' e He. cbn in He. apply lookup_alter_Some in He as [(<- & e0 & He & _)|[_ He]]; by apply H1 in He.
  - apply (q_run_task keeps_wf keeps_wf_quiet).
  - intros [H1 H2 H3]. split; [|done..]. intros h e He. apply map_lookup_filter_Some in He as [He _]. by apply H1 in He.
Qed.

(** What was not encrypted can only ask for messages to be sent again: a
    delivery of which nothing was decrypted (no ciphertext hash) tells the
    bridge of no message, at most that decryption failed; the groups, the
    group cache, the master key and the recipients stay as they were after
    decryption, and what is queued are retries. *)
Theorem plaintext_only_retries ctxErr now body env s s1 r : unmarshal_envelope body = Some env ->
  decryptEnvelope dev now env (source_of env)
    (parsed_or_empty (ParseStringOrBinaryServiceID (env_DestinationServiceId env) (env_DestinationServiceIdBinary env))) s = (s1, Ok r) ->
  res_CiphertextHash r = None -> only_retries s1 (incomingAPIMessageHandler cdn unmarshal_contact dev now ctxErr body s).1.
Proof.
  intros Hu E Hn. unfold incomingAPIMessageHandler. rewrite Hu. cbn [of_option]. unfold sbind at 1. cbn [slift]. fold (source_of env). unfold sbind at 1.
  rewrite E. rewrite sbind_ret_state. apply envelope_plain in E.
  unfold handleDecryptedResult. destruct (res_Err r ≫= _); [by apply (PreOrder_Reflexive (R := only_retries))|].
  destruct ctxErr; [by apply (PreOrder_Reflexive (R := only_retries))|].
  pose proof (plain_handled dev now r env (parsed_or_empty (ParseStringOrBinaryServiceID (env_DestinationServiceId env) (env_DestinationServiceIdBinary env))) E Hn s1) as Hh.
  destruct (handle_result _ _ _ _ _ _ _ s1) as [s2 [[ok e]|e|]]; cbn in *; unfold clear_plaintext; rewrite ?Hn; by destruct ok || done.
Qed.
End Runs.

End Safety.
