(* ===== verification/ReceiveSamples.v ===== *)
(** Concrete parameters of the receiving side, and runs in which the bridge
    fails to handle a message the first time. *)
From S2P Require Import Prelude GoLib ServiceId Crypto Attachments Storage ChatSettings RecipientStore StorageSync Groups GroupCache GroupChanges GroupUpdate GroupSamples Sending SenderKeys SendSamples WsMessages RingRTC Contacts ReceivingDecrypt Receiving ReceiveSafety.

Module SampleReceiving.
Import CanonicalUUID SampleCrypto SampleGroups SampleSends SampleWire SamplePkcs7.

(** ** Toy parameters *)

Definition bob_id : ServiceID := NewACIServiceID bob.
Definition alice_id : ServiceID := NewACIServiceID alice.

(** The first byte of an envelope is its type, the rest its content; it is
    from Bob to Alice. *)
Definition toy_envelope (b : bytes) : option Envelope :=
  match b with
  | t :: content => Some (mkEnvelope (Some (b2z t)) [] (Some (ServiceID_Bytes bob_id)) 1 [] (Some (ServiceID_Bytes alice_id)) 7 8 content [] None true None)
  | [] => None
  end.
Definition data_message (b : bytes) : DataMessage := mkData (Some 5) None None false 0 [] b.
(** A content that starts with [S] distributes a sender key, one with [T] is a
    story with a short profile key. *)
Definition toy_content (b : bytes) : option Content :=
  match b with
  | [] => None
  | x53 :: b => Some (mkContent (Content_DataMessage (data_message b)) (Some (mkSkdm 0 b)) None)
  | x54 :: b => Some (mkContent (Content_StoryMessage b) None None)
  | _ => Some (mkContent (Content_DataMessage (data_message b)) None None)
  end.

#[export] Instance toy_incoming : IncomingLib := {|
  key_store := unit; prekey_message := bytes; DeserializePreKeyMessage b := inr (Some b); signal_message := bytes; DeserializeMessage b := inr b;
  DecryptPreKey m _ _ k := (k, inr m); Decrypt m _ _ k := (k, inr m); GroupDecrypt m _ k := (k, inr m);
  opened := bytes; certificate := unit; SealedSenderDecryptToUSMC b _ := inr (Some b); GetSenderCertificate _ := inr tt;
  Certificate_Validate _ _ := inr true; GetMessageType _ := inr CiphertextMessageTypeWhisper; GetContentHint _ := inr 1; GetGroupID _ := inr None;
  GetSenderUUID _ := inr bob; GetDeviceID _ := inr 1; GetSenderE164 _ := inr []; GetContents b := inr b;
  DeserializeDecryptionErrorMessage _ := inr tt; received_skdm := unit; DeserializeSenderKeyDistributionMessage _ := inl (errorf "invalid");
  ProcessSenderKeyDistributionMessage _ _ k := (k, None); IdentityKey_Serialize _ := Some []; IdentityKey_Equal _ _ := Some true;
  VerifyAlternateIdentity _ _ _ := inr true; archive_pni_sessions _ k := inr k; prekey_identities _ _ m := m; DeriveSVRKey _ := inr []
|}.
#[export] Instance toy_incoming_codec : IncomingCodec := {|
  unmarshal_envelope := toy_envelope; unmarshal_content := toy_content; group_call_update _ := None;
  call_message _ := mkPbCall None None [] None None None 0; story_message b := mkStory (Some b) None [];
  sync_message _ := In_nothing []; time_String _ := []
|}.
(** The bridge fails to handle the first event. *)
#[export] Instance toy_handler : EventHandler nat := {| handleEvent _ n := (S n, negb (n =? 0)%nat) |}.

Definition toy_recv : RecvState (W := nat) (H := nat) :=
  mkRecv toy_start ∅ tt ∅ ∅ (NewGroupCache alice_id) (None, None) false 0%nat [] [].

Definition no_cdn : bytes -> Z -> option CDNResponse := fun _ _ => None.
Definition no_contact : bytes -> option ContactDetails := fun _ => None.
Definition no_sent : list (sendCacheKey * Content) -> sendCacheKey -> option Content := fun _ _ => None.

(** "hi", padded, in an unsealed and in a sealed envelope. *)
Definition hi : bytes := str "hi" ++ [x80].
Definition body_of (type : byte) (b : bytes) : bytes := type :: b ++ [x80; x00].
Definition deliver (b : bytes) : recv_op := Op_Deliver false 1000 b.
Definition twice : list recv_op := [deliver (body_of x01 (str "hi")); deliver (body_of x06 (str "hi"))].
Definition toy_deliveries := deliveries no_cdn no_contact no_sent toy_dev.
Definition toy_exec := exec_all no_cdn no_contact no_sent toy_dev.

Definition hi_content : Content := mkContent (Content_DataMessage (data_message (str "hi"))) None None.
Definition hi_event : signal_event :=
  Ev_ChatEvent (mkInfo bob (ServiceID_String bob_id) 0 0 8 [] None) (Chat_DataMessage (data_message (str "hi"))).
(** The bridge is told of the message and answers. *)
Definition hi_delivery (answer : bool) : delivery :=
  mkDelivery (sha256 (str "hi" ++ [x80; x00])) hi_content [(hi_event, answer)] answer answer.

(** The bridge fails, the server delivers again (here: sealed, with the same
    ciphertext), the bridge succeeds. *)
Lemma message_handled_once_witness : toy_deliveries twice toy_recv = [hi_delivery false; hi_delivery true] /\
  (dl_handled (hi_delivery false) = false /\ dl_acked (hi_delivery false) = false /\ dl_content (hi_delivery false) = dl_content (hi_delivery true)).
Proof.
  assert (E : toy_deliveries twice toy_recv = [hi_delivery false; hi_delivery true]) by (vm_compute; reflexivity).
  split; [exact E|]. refine (message_handled_once no_cdn no_contact no_sent toy_dev twice toy_recv [] _ [] (hi_delivery true) [] _ E eq_refl).
  repeat constructor.
Defined.

(** The bridge refuses the message; old events are deleted; the message is
    delivered again and accepted. *)
Definition refused_first : list recv_op := [deliver (body_of x01 (str "hi")); Op_Cleanup 5000; deliver (body_of x01 (str "hi"))].
Lemma message_never_lost_witness : dl_acked (hi_delivery false) = false /\ dl_handled (hi_delivery false) = false /\
  ((exists p, pending (toy_exec refused_first toy_recv) (dl_hash (hi_delivery false)) p /\ plaintext_content p = Some (dl_content (hi_delivery false)))
   \/ Exists (fun d' => same_message (hi_delivery false) d' /\ refused d' = false /\ dl_handled d' = true) [hi_delivery true]).
Proof.
  refine (message_never_lost no_cdn no_contact no_sent toy_dev refused_first toy_recv [] (hi_delivery false) [hi_delivery true] _ eq_refl eq_refl).
  vm_compute. reflexivity.
Defined.

Definition hi_sealed : Envelope := default (mkEnvelope None [] None 0 [] None 0 0 [] [] None false None) (toy_envelope (body_of x06 (str "hi"))).
Definition hi_plain : Envelope := default (mkEnvelope None [] None 0 [] None 0 0 [] [] None false None) (toy_envelope (body_of x08 (str "hi"))).

(** A sealed message is announced in the name of the certificate's user. *)
Lemma events_authentic_witness :
  length (rv_events (incomingAPIMessageHandler no_cdn no_contact toy_dev 1000 false (body_of x06 (str "hi")) toy_recv).1) = 1%nat /\
  exists l, rv_events (incomingAPIMessageHandler no_cdn no_contact toy_dev 1000 false (body_of x06 (str "hi")) toy_recv).1 = rv_events toy_recv ++ l /\
    (l = [] \/ exists theirs, sender_of hi_sealed (source_of hi_sealed) toy_recv theirs /\ Forall (fun p => authentic toy_dev theirs p.1) l).
Proof.
  split; [vm_compute; reflexivity|]. exact (events_authentic no_cdn no_contact toy_dev false 1000 (body_of x06 (str "hi")) hi_sealed toy_recv eq_refl).
Defined.

Lemma blocked_not_bridged_witness :
  exists l, rv_events (handle_message no_cdn no_contact toy_dev bob_id true hi_sealed (Content_DataMessage (data_message (str "hi"))) toy_recv).1 = rv_events toy_recv ++ l /\
    Forall (fun p => authentic toy_dev bob_id p.1 /\ ~ direct bob_id p.1) l.
Proof. apply (blocked_not_bridged no_cdn no_contact toy_dev bob_id hi_sealed). vm_compute. discriminate. Defined.

(** An unencrypted message only queues a retry. *)
Lemma plaintext_only_retries_witness :
  length (rv_tasks (incomingAPIMessageHandler no_cdn no_contact toy_dev 1000 false (body_of x08 (str "hi")) toy_recv).1) = 1%nat /\
  exists s1, only_retries s1 (incomingAPIMessageHandler no_cdn no_contact toy_dev 1000 false (body_of x08 (str "hi")) toy_recv).1.
Proof.
  split; [vm_compute; reflexivity|].
  set (m := decryptEnvelope toy_dev 1000 hi_plain (source_of hi_plain)
    (parsed_or_empty (ParseStringOrBinaryServiceID (env_DestinationServiceId hi_plain) (env_DestinationServiceIdBinary hi_plain))) toy_recv).
  assert (E : m = (toy_recv, Ok (mkResult (Some (ServiceID_String bob_id, 1)) None (Some (unencrypted_content (str "hi"))) 0 None None true false [] 0)))
    by (vm_compute; reflexivity).
  exists toy_recv. exact (plaintext_only_retries no_cdn no_contact toy_dev false 1000 (body_of x08 (str "hi")) hi_plain toy_recv toy_recv _ eq_refl E eq_refl).
Defined.

Lemma toy_recv_wf : recv_wf toy_recv.
Proof. split; [apply map_Forall_empty|apply map_Forall_empty|constructor]. Qed.
Lemma receive_well_formed_witness : recv_wf toy_recv /\ recv_wf (toy_exec twice toy_recv).
Proof. split; [exact toy_recv_wf|]. exact (receive_well_formed no_cdn no_contact no_sent toy_dev twice toy_recv toy_recv_wf). Defined.

(** ** Messages that are lost *)

(** A sender key that cannot be read ends the handling with an error, but the
    message counts as handled: the server, which was not told, delivers it
    again, and it is ignored then.  The bridge never sees it. *)
Lemma bad_sender_key_loses :
  toy_deliveries [deliver (body_of x01 (str "Shi")); deliver (body_of x01 (str "Shi"))] toy_recv =
    [mkDelivery (sha256 (str "Shi" ++ [x80; x00])) (mkContent (Content_DataMessage (data_message (str "hi"))) (Some (mkSkdm 0 (str "hi"))) None) [] true false] /\
  rv_events (toy_exec [deliver (body_of x01 (str "Shi")); deliver (body_of x01 (str "Shi"))] toy_recv) = [].
Proof. split; vm_compute; reflexivity. Qed.

(** A story with a profile key of the wrong length crashes the client. *)
Lemma short_story_key_panics :
  (incomingAPIMessageHandler no_cdn no_contact toy_dev 1000 false (body_of x06 (str "Tkey")) toy_recv).2 = Panic.
Proof. vm_compute. reflexivity. Qed.

(** The ciphertext type of a failed unsealed message is the type of the
    envelope, which libsignal does not know. *)
Lemma retry_type_wrong `{U : UUIDLib} `{C : CryptoLib} `{IC : IncomingCodec} env src dest (s s' : RecvState (W := nat) (H := nat)) r :
  env_Type env = Some Envelope_DOUBLE_RATCHET -> decryptEnvelope toy_dev 1000 env src dest s = (s', Ok r) -> res_Retriable r = true ->
  res_CiphertextType r = 1 /\ res_CiphertextType r <> CiphertextMessageTypeWhisper.
Proof.
  intros Ht. unfold decryptEnvelope. destruct (IsEmpty dest); [by intros [= <- <-]|]. rewrite Ht.
  change (Envelope_DOUBLE_RATCHET =? Envelope_UNIDENTIFIED_SENDER) with false. change (Envelope_DOUBLE_RATCHET =? Envelope_PREKEY_MESSAGE) with false.
  change (Envelope_DOUBLE_RATCHET =? Envelope_DOUBLE_RATCHET) with true. cbn [orb]. destruct (make_Address _ _) as [a|e|]; [|by intros [= <- <-]|done].
  intros E Hr. apply sbind_Ok in E as (s1 & [e|r0] & E & [= <- <-]); [done|]. unfold attempt_recv in E.
  destruct (decryptCiphertextEnvelope _ _ _ _ _ _ s) as [s2 [r2|e2|]] eqn:E2; [|done..]. injection E as <- ->.
  unfold decryptCiphertextEnvelope in E2. apply sbind_Ok in E2 as (s3 & m & _ & E2). destruct (negb _); [done|].
  apply sbind_Ok in E2 as (s4 & d & _ & E2). apply sbind_Ok in E2 as (s5 & p & _ & [= _ E2]). by apply open_spec in E2 as (c & -> & _).
Qed.
End SampleReceiving.
