(* ===== verification/CallBridge.v ===== *)
(** Bridging calls ([pkg/connector/callbridging.go]) as an interleaving machine.

    Every goroutine is a stack of frames; [frame_step] runs the frame on top up
    to the next point where another goroutine can interfere (a lock, a call of
    the network or of the media libraries).  The first goroutine is the one that
    receives Signal messages: it handles one event after the other, and some
    handlers run in it.  [choice] is what the libraries, the servers and the
    database answer; the scheduler is the sequence of labels.

    The media legs are references: of a Matrix leg the model keeps whether it is
    closed and what it was told, of a Signal leg the remote candidates it got
    ([CallMedia] has the keys). *)
From S2P Require Import Prelude GoLib ServiceId SignalId RingRTC CallMedia ReceivingDecrypt.

(** ** Data *)

(** Nanoseconds, as [time.Duration]. *)
Definition Millisecond : Z := 1000000.
Definition signalCallInviteLifetime : Z := 60 * 1000 * Millisecond.
Definition MimeTypeVP8 : bytes := str "video/VP8".

Inductive signalCallEnd := RemoteHangup | RemoteBusy | AnsweredElsewhere | LocalDecline | EndTimeout | EndFailed | BridgeShutdown.
#[export] Instance signalCallEnd_eq_dec : EqDecision signalCallEnd. Proof. solve_decision. Defined.

(** [endOnce], with the arguments of the call that runs. *)
Inductive once := NotEnded | Ending (reason : signalCallEnd) (notifySignal : bool) | Ended (reason : signalCallEnd) (notifySignal : bool).

Record signalCallSession := mkSession {
  cs_portal : bytes;
  cs_peer : ServiceID;
  cs_signalID : Z;
  cs_sourceDevice : Z;
  cs_incoming : bool;
  cs_callType : call_type;
  cs_videoCodec : bytes;
  cs_videoCodecID : Z;
  cs_offer : option Offer;
  cs_mxCallID : bytes;
  cs_mxParty : bytes;
  cs_mxLocalSDP : bytes;
  cs_mxLeg : option nat;
  cs_signalLeg : option nat;
  cs_matrixVideoSSRC : Z;
  cs_pendingKeyframe : bool;
  cs_pendingICE : list (Z * bytes);
  cs_answering : bool;
  cs_canceled : bool;
  cs_endOnce : once
}.

Definition set_mxLocalSDP v s := mkSession (cs_portal s) (cs_peer s) (cs_signalID s) (cs_sourceDevice s) (cs_incoming s) (cs_callType s) (cs_videoCodec s) (cs_videoCodecID s) (cs_offer s) (cs_mxCallID s) (cs_mxParty s) v (cs_mxLeg s) (cs_signalLeg s) (cs_matrixVideoSSRC s) (cs_pendingKeyframe s) (cs_pendingICE s) (cs_answering s) (cs_canceled s) (cs_endOnce s).
Definition set_mxLeg v s := mkSession (cs_portal s) (cs_peer s) (cs_signalID s) (cs_sourceDevice s) (cs_incoming s) (cs_callType s) (cs_videoCodec s) (cs_videoCodecID s) (cs_offer s) (cs_mxCallID s) (cs_mxParty s) (cs_mxLocalSDP s) (Some v) (cs_signalLeg s) (cs_matrixVideoSSRC s) (cs_pendingKeyframe s) (cs_pendingICE s) (cs_answering s) (cs_canceled s) (cs_endOnce s).
Definition set_signalLeg v pending s := mkSession (cs_portal s) (cs_peer s) (cs_signalID s) (cs_sourceDevice s) (cs_incoming s) (cs_callType s) (cs_videoCodec s) (cs_videoCodecID s) (cs_offer s) (cs_mxCallID s) (cs_mxParty s) (cs_mxLocalSDP s) (cs_mxLeg s) (Some v) (cs_matrixVideoSSRC s) (cs_pendingKeyframe s) pending (cs_answering s) (cs_canceled s) (cs_endOnce s).
Definition set_keyframe ssrc pending s := mkSession (cs_portal s) (cs_peer s) (cs_signalID s) (cs_sourceDevice s) (cs_incoming s) (cs_callType s) (cs_videoCodec s) (cs_videoCodecID s) (cs_offer s) (cs_mxCallID s) (cs_mxParty s) (cs_mxLocalSDP s) (cs_mxLeg s) (cs_signalLeg s) ssrc pending (cs_pendingICE s) (cs_answering s) (cs_canceled s) (cs_endOnce s).
Definition set_pendingICE v s := mkSession (cs_portal s) (cs_peer s) (cs_signalID s) (cs_sourceDevice s) (cs_incoming s) (cs_callType s) (cs_videoCodec s) (cs_videoCodecID s) (cs_offer s) (cs_mxCallID s) (cs_mxParty s) (cs_mxLocalSDP s) (cs_mxLeg s) (cs_signalLeg s) (cs_matrixVideoSSRC s) (cs_pendingKeyframe s) v (cs_answering s) (cs_canceled s) (cs_endOnce s).
Definition set_answering device pending s := mkSession (cs_portal s) (cs_peer s) (cs_signalID s) device (cs_incoming s) (cs_callType s) (cs_videoCodec s) (cs_videoCodecID s) (cs_offer s) (cs_mxCallID s) (cs_mxParty s) (cs_mxLocalSDP s) (cs_mxLeg s) (cs_signalLeg s) (cs_matrixVideoSSRC s) (cs_pendingKeyframe s) pending true (cs_canceled s) (cs_endOnce s).
Definition set_canceled s := mkSession (cs_portal s) (cs_peer s) (cs_signalID s) (cs_sourceDevice s) (cs_incoming s) (cs_callType s) (cs_videoCodec s) (cs_videoCodecID s) (cs_offer s) (cs_mxCallID s) (cs_mxParty s) (cs_mxLocalSDP s) (cs_mxLeg s) (cs_signalLeg s) (cs_matrixVideoSSRC s) (cs_pendingKeyframe s) (cs_pendingICE s) (cs_answering s) true (cs_endOnce s).
Definition set_endOnce v s := mkSession (cs_portal s) (cs_peer s) (cs_signalID s) (cs_sourceDevice s) (cs_incoming s) (cs_callType s) (cs_videoCodec s) (cs_videoCodecID s) (cs_offer s) (cs_mxCallID s) (cs_mxParty s) (cs_mxLocalSDP s) (cs_mxLeg s) (cs_signalLeg s) (cs_matrixVideoSSRC s) (cs_pendingKeyframe s) (cs_pendingICE s) (cs_answering s) (cs_canceled s) v.

(** [callbridge.Leg] and [ringrtc.MediaLeg]. *)
Record MatrixLeg := mkMatrixLeg { mxl_closed : bool; mxl_candidates : list bytes; mxl_keyframes : list Z }.
Record SignalLeg := mkSignalLeg { sgl_closed : bool; sgl_candidates : list bytes }.

(** Events in a room, and everything that is sent; the session it is sent for,
    and whether sending succeeded. *)
Inductive matrix_call_event := MxInvite (lifetime : Z) (sdp : bytes) | MxSelectAnswer (party : bytes) | MxAnswer (sdp : bytes) | MxHangup (reason : bytes).
Inductive sent :=
| ToSignal (session : option nat) (peer : ServiceID) (message : pb_CallMessage) (ok : bool)
| ToMatrix (session : option nat) (room callID party : bytes) (event : matrix_call_event) (ok : bool).

Abbreviation call_event := (Call MessageInfo).

(** [event.CallInviteEventContent]: call ID, SDP and lifetime in milliseconds. *)
Record Invite := mkInvite { inv_CallID : bytes; inv_SDP : bytes; inv_Lifetime : Z }.

(** *** Goroutines *)
Inductive frame :=
(* startIncoming *)
| In_start (evt : call_event)
| In_lookup (evt : call_event)
| In_claim (evt : call_event) (room mxCallID mxParty : bytes)
| In_busy (peer : ServiceID) (callID : Z)
(* ringMatrix *)
| Ring_leg (i : nat)
| Ring_store (i leg : nat)
| Ring_offer (i leg : nat)
| Ring_gather (i leg : nat)
| Ring_send (i : nat) (offer : bytes)
| Timer (i : nat) (lifetime : Z)
(* startOutgoing *)
| Out_start (room otherUserID : bytes) (inv : Invite)
| Out_claim (room : bytes) (peer : ServiceID) (inv : Invite)
| Out_reject (room : bytes) (inv : Invite)
| Out_leg (i : nat) (inv : Invite)
| Out_store (i leg : nat) (inv : Invite)
| Out_answer (i leg : nat) (inv : Invite)
| Out_gather (i : nat) (inv : Invite)
| Out_relays (i : nat) (inv : Invite)
| Out_keys (i : nat) (inv : Invite)
| Out_signal (i : nat) (inv : Invite)
| Out_signal_store (i leg : nat) (params : ConnectionParametersV4) (inv : Invite)
| Out_offer (i leg : nat) (params : ConnectionParametersV4) (inv : Invite)
| Out_signal_gather (i leg : nat) (inv : Invite)
(* answerIncoming *)
| Ans_lock (i : nat) (sdp party : bytes)
| Ans_set (i : nat) (leg : option nat) (sdp party : bytes)
| Ans_select (i : nat) (party : bytes)
| Ans_relays (i : nat)
| Ans_keys (i : nat)
| Ans_leg (i : nat)
| Ans_store (i leg : nat) (params : ConnectionParametersV4)
| Ans_pending (i leg : nat) (pending : list (Z * bytes)) (params : ConnectionParametersV4)
| Ans_send (i leg : nat) (params : ConnectionParametersV4)
| Ans_gather (i leg : nat)
| Ans_connect (i leg : nat)
| Ans_accept (i leg : nat)
(* handleRemoteICE *)
| Ice_check (evt : call_event)
| Ice_lock (i : nat) (device : Z) (sdp : bytes)
| Ice_add (i leg : nat) (sdp : bytes)
(* handleRemoteAnswer *)
| RA_check (evt : call_event)
| RA_lock (i : nat) (evt : call_event)
| RA_set (i : nat) (leg : option nat) (pending : list (Z * bytes)) (answer : option ConnectionParametersV4)
| RA_pending (i leg : nat) (pending : list (Z * bytes))
| RA_connect (i leg : nat)
| RA_wait (i leg : nat)
| RA_accepted (i : nat)
| RA_matrix (i : nat)
(* the relays *)
| Relay_audio (i : nat)
| Relay_video (i : nat)
| Relay_rtcp (i : nat)
| Relay (i : nat)
| Video_track (i : nat)
| Request_keyframe (i : nat) (ssrc : Z)
| Rtcp (i : nat)
| Keyframe (i : nat)
| Heartbeat (i : nat) (sequence : Z)
(* handleRemoteEnd *)
| RE_check (evt : call_event)
(* end *)
| End (i : nat) (reason : signalCallEnd) (notifySignal : bool)
| End_signal (i : nat) (reason : signalCallEnd)
| End_matrix (i : nat) (reason : signalCallEnd)
| End_cancel (i : nat)
| End_legs (i : nat)
| End_close (i : nat) (mxLeg signalLeg : option nat)
| End_clear (i : nat).

(** Success or failure of a call, a call that gives an SDP, connection
    parameters, a room with fresh identifiers, fresh identifiers for an outgoing
    call, or a video track. *)
Inductive choice :=
| Succeeds
| Fails
| GivesSDP (sdp : bytes)
| GivesLeg (params : ConnectionParametersV4)
| GivesRoom (room mxCallID mxParty : bytes)
| GivesIDs (callUUID : UUID) (mxParty : bytes)
| GivesTrack (ssrc : Z)
| GivesPLI.

(** The shared state, and with the goroutines. *)
Record Calls := mkCalls {
  cb_active : option nat;
  cb_sessions : list signalCallSession;
  cb_matrixLegs : list MatrixLeg;
  cb_signalLegs : list SignalLeg;
  cb_sent : list sent;
  (** for the theorems: the candidates that arrived for each session *)
  cb_log : list (nat * (Z * bytes))
}.
Record World := mkWorld { w_calls : Calls; w_threads : list (list frame) }.

Definition calls_start : Calls := mkCalls None [] [] [] [] [].
Definition world_start : World := mkWorld calls_start [[]].

Definition set_active v c := mkCalls v (cb_sessions c) (cb_matrixLegs c) (cb_signalLegs c) (cb_sent c) (cb_log c).
Definition set_sessions v c := mkCalls (cb_active c) v (cb_matrixLegs c) (cb_signalLegs c) (cb_sent c) (cb_log c).
Definition set_matrixLegs v c := mkCalls (cb_active c) (cb_sessions c) v (cb_signalLegs c) (cb_sent c) (cb_log c).
Definition set_signalLegs v c := mkCalls (cb_active c) (cb_sessions c) (cb_matrixLegs c) v (cb_sent c) (cb_log c).
Definition add_sent x c := mkCalls (cb_active c) (cb_sessions c) (cb_matrixLegs c) (cb_signalLegs c) (cb_sent c ++ [x]) (cb_log c).
Definition add_log x c := mkCalls (cb_active c) (cb_sessions c) (cb_matrixLegs c) (cb_signalLegs c) (cb_sent c) (cb_log c ++ [x]).

Definition update_session (i : nat) (f : signalCallSession -> signalCallSession) (c : Calls) : Calls := set_sessions (alter f i (cb_sessions c)) c.
Definition new_session (s : signalCallSession) (c : Calls) : Calls := set_active (Some (length (cb_sessions c))) (set_sessions (cb_sessions c ++ [s]) c).
Definition new_matrix_leg (c : Calls) : Calls := set_matrixLegs (cb_matrixLegs c ++ [mkMatrixLeg false [] []]) c.
Definition new_signal_leg (c : Calls) : Calls := set_signalLegs (cb_signalLegs c ++ [mkSignalLeg false []]) c.
Definition close_matrix_leg (leg : nat) (c : Calls) : Calls :=
  set_matrixLegs (alter (fun l => mkMatrixLeg true (mxl_candidates l) (mxl_keyframes l)) leg (cb_matrixLegs c)) c.
Definition close_signal_leg (leg : nat) (c : Calls) : Calls :=
  set_signalLegs (alter (fun l => mkSignalLeg true (sgl_candidates l)) leg (cb_signalLegs c)) c.
Definition AddRemoteCandidate (leg : nat) (sdp : bytes) (c : Calls) : Calls :=
  set_signalLegs (alter (fun l => mkSignalLeg (sgl_closed l) (sgl_candidates l ++ [sdp])) leg (cb_signalLegs c)) c.
Definition RequestKeyframe (leg : nat) (ssrc : Z) (c : Calls) : Calls :=
  set_matrixLegs (alter (fun l => mkMatrixLeg (mxl_closed l) (mxl_candidates l) (mxl_keyframes l ++ [ssrc])) leg (cb_matrixLegs c)) c.

(** ** Offers *)

Definition hasSignalVideoCodec (codecs : list Z) (typ : Z) : bool := existsb (fun codec => codec =? typ) codecs.

Definition signalVideoSelection (evt : CallMessage) : bytes * Z :=
  match cm_Type evt, cm_Offer evt with
  | CallTypeVideo, Some (mkOffer (Some params)) =>
      let encode := match cp_EncodeOnlyVideoCodecs params with [] => cp_ReceiveVideoCodecs params | l => l end in
      let decode := match cp_DecodeOnlyVideoCodecs params with [] => cp_ReceiveVideoCodecs params | l => l end in
      if hasSignalVideoCodec encode VideoCodecVP8 && hasSignalVideoCodec decode VideoCodecVP8 then (MimeTypeVP8, VideoCodecVP8) else ([], 0)
  | _, _ => ([], 0)
  end.

Definition isBridgeableOffer (evt : CallMessage) : bool :=
  match cm_MessageType evt, cm_Type evt, cm_Offer evt, cm_ParseError evt with
  | MessageOffer, (CallTypeAudio | CallTypeVideo), Some (mkOffer (Some _)), None => true
  | _, _, _, _ => false
  end.

(** [binary.BigEndian.Uint64] of the first half of a UUID; zero is not used. *)
Definition callID_of (u : UUID) : Z :=
  let id := foldl (fun z b => z * 256 + b2z b) 0 (take 8 (fixed_bytes u)) in
  if id =? 0 then 1 else id.

(** How long an outgoing call rings; the product is a 64-bit integer. *)
Definition outgoing_lifetime (inv : Invite) : Z :=
  if 0 <? inv_Lifetime inv then Z.min (Prelude.swrap 64 (inv_Lifetime inv * Millisecond)) (2 * signalCallInviteLifetime) else signalCallInviteLifetime.

Definition matrix_reason (reason : signalCallEnd) : bytes :=
  match reason with
  | RemoteBusy => str "user_busy"
  | AnsweredElsewhere => str "answered_elsewhere"
  | EndTimeout => str "invite_timeout"
  | EndFailed | BridgeShutdown => str "unknown_error"
  | RemoteHangup | LocalDecline => str "user_hangup"
  end.

(** Why a session ends when the peer says so; [None] when it goes on. *)
Definition remote_end (s : signalCallSession) (evt : CallMessage) : option signalCallEnd :=
  if (match cm_MessageType evt with MessageBusy => true | _ => false end)
     || (cm_HangupType evt =? HANGUP_BUSY) || (cm_HangupType evt =? HANGUP_DECLINED) then Some RemoteBusy
  else if cm_HangupType evt =? HANGUP_ACCEPTED then if cs_incoming s then Some AnsweredElsewhere else None
  else Some RemoteHangup.

(** ** Steps *)

Section Steps.
Context `{U : UUIDLib} `{L : WireLib} (SendsVideo : bytes -> bool).

Definition incoming_session (evt : call_event) (room mxCallID mxParty : bytes) : signalCallSession :=
  let m := call_Message evt in
  mkSession room (NewACIServiceID (mi_Sender (call_Info evt))) (cm_ID m) (mi_SourceDeviceID (call_Info evt)) true (cm_Type m)
    (signalVideoSelection m).1 (signalVideoSelection m).2 (cm_Offer m) mxCallID mxParty [] None None 0 false [] false false NotEnded.

Definition outgoing_session (room : bytes) (peer : ServiceID) (inv : Invite) (callUUID : UUID) (mxParty : bytes) : signalCallSession :=
  let video := SendsVideo (inv_SDP inv) in
  mkSession room peer (callID_of callUUID) 0 false (if video then CallTypeVideo else CallTypeAudio)
    (if video then MimeTypeVP8 else []) (if video then VideoCodecVP8 else 0) None (inv_CallID inv) mxParty [] None None 0 false [] false false NotEnded.

(** The event concerns the session: same call, same peer. *)
Definition concerns (s : signalCallSession) (evt : call_event) : bool :=
  (cs_signalID s =? cm_ID (call_Message evt)) && bool_decide (sid_UUID (cs_peer s) = mi_Sender (call_Info evt)).

Definition active_session (c : Calls) : option (nat * signalCallSession) :=
  match cb_active c with
  | Some i => match cb_sessions c !! i with Some s => Some (i, s) | None => None end
  | None => None
  end.

Definition to_signal (i : nat) (s : signalCallSession) (m : pb_CallMessage) (ok : bool) (c : Calls) : Calls := add_sent (ToSignal (Some i) (cs_peer s) m ok) c.
Definition to_matrix (i : nat) (s : signalCallSession) (e : matrix_call_event) (ok : bool) (c : Calls) : Calls :=
  add_sent (ToMatrix (Some i) (cs_portal s) (cs_mxCallID s) (cs_mxParty s) e ok) c.

(** Whether a call succeeded, when the choice says so. *)
Definition result_of (ch : choice) : option bool := match ch with Succeeds => Some true | Fails => Some false | _ => None end.

(** The new state, the frames that replace this one, and new goroutines. *)
Definition outcome_of : Type := Calls * list frame * list (list frame).
Definition goto (c : Calls) (fs : list frame) : option outcome_of := Some (c, fs, []).
(** The frames after a call that can fail. *)
Definition either (c : Calls) (ch : choice) (good bad : list frame) : option outcome_of :=
  match result_of ch with Some ok => goto c (if ok then good else bad) | None => None end.

Definition video_call (s : signalCallSession) : bool := match cs_callType s with CallTypeVideo => true | _ => false end.
Definition relays (i : nat) (s : signalCallSession) : list frame :=
  Relay_audio i :: (if video_call s then [Relay_video i] else []) ++ [Relay_rtcp i].

(** [startIncoming] and [ringMatrix] *)
Definition incoming_step (f : frame) (ch : choice) (c : Calls) : option outcome_of :=
  match f with
  | In_start evt =>
      let peer := NewACIServiceID (mi_Sender (call_Info evt)) in
      match active_session c with
      | Some (_, s) =>
          if (cs_signalID s =? cm_ID (call_Message evt)) && bool_decide (cs_peer s = peer) then goto c []
          else goto c [In_busy peer (cm_ID (call_Message evt))]
      | None => goto c [In_lookup evt]
      end
  | In_lookup evt =>
      match ch with
      | GivesRoom room mxCallID mxParty =>
          if match cm_Type (call_Message evt) with CallTypeVideo => beqb (signalVideoSelection (call_Message evt)).1 [] | _ => false end then goto c []
          else goto c [In_claim evt room mxCallID mxParty]
      | Fails => goto c []
      | _ => None
      end
  | In_claim evt room mxCallID mxParty =>
      match cb_active c with
      | Some _ => goto c [In_busy (NewACIServiceID (mi_Sender (call_Info evt))) (cm_ID (call_Message evt))]
      | None => goto (new_session (incoming_session evt room mxCallID mxParty) c) [Ring_leg (length (cb_sessions c))]
      end
  | In_busy peer callID =>
      match result_of ch with Some ok => goto (add_sent (ToSignal None peer (signalBusyMessage callID) ok) c) [] | None => None end
  | Ring_leg i =>
      match ch with
      | Fails => goto c [End i EndFailed true]
      | Succeeds => goto (new_matrix_leg c) [Ring_store i (length (cb_matrixLegs c))]
      | _ => None
      end
  | Ring_store i leg =>
      match cb_sessions c !! i with
      | Some s => if cs_canceled s then goto (close_matrix_leg leg c) [End i EndFailed true] else goto (update_session i (set_mxLeg leg) c) [Ring_offer i leg]
      | None => None
      end
  | Ring_offer i leg =>
      match ch with
      | Fails => goto (close_matrix_leg leg c) [End i EndFailed true]
      | Succeeds => goto c [Ring_gather i leg]
      | _ => None
      end
  | Ring_gather i leg =>
      match cb_sessions c !! i, ch with
      | Some s, GivesSDP offer => if cs_canceled s then goto c [End i EndFailed true] else goto c [Ring_send i offer]
      | _, _ => None
      end
  | Ring_send i offer =>
      match cb_sessions c !! i, result_of ch with
      | Some s, Some ok => goto (to_matrix i s (MxInvite (signalCallInviteLifetime / Millisecond) offer) ok c)
                             (if ok then [Timer i signalCallInviteLifetime] else [End i EndFailed true])
      | _, _ => None
      end
  | Timer i lifetime =>
      match cb_sessions c !! i with
      | Some s => goto c (if cs_canceled s then [] else [End i EndTimeout true])
      | None => None
      end
  | _ => None
  end.

(** [startOutgoing] *)
Definition outgoing_step (f : frame) (ch : choice) (c : Calls) : option outcome_of :=
  match f with
  | Out_start room otherUserID inv =>
      if beqb otherUserID [] || beqb (inv_SDP inv) [] then goto c []
      else
        match ParseUserIDAsServiceID otherUserID with
        | Ok peer => if bool_decide (sid_Type peer = ServiceIDTypeACI) then either c ch [Out_claim room peer inv] [] else goto c []
        | _ => goto c []
        end
  | Out_claim room peer inv =>
      match cb_active c, ch with
      | Some _, _ => goto c [Out_reject room inv]
      | None, GivesIDs callUUID mxParty => goto (new_session (outgoing_session room peer inv callUUID mxParty) c) [Out_leg (length (cb_sessions c)) inv]
      | None, _ => None
      end
  | Out_reject room inv =>
      match result_of ch with
      | Some ok => goto (add_sent (ToMatrix None room (inv_CallID inv) (str "bridge-busy") (MxHangup (str "user_busy")) ok) c) []
      | None => None
      end
  | Out_leg i inv =>
      match ch with
      | Fails => goto c [End i EndFailed false]
      | Succeeds => goto (new_matrix_leg c) [Out_store i (length (cb_matrixLegs c)) inv]
      | _ => None
      end
  | Out_store i leg inv => goto (update_session i (set_mxLeg leg) c) [Out_answer i leg inv]
  | Out_answer i leg inv => either c ch [Out_gather i inv] [End i EndFailed false]
  | Out_gather i inv =>
      match cb_sessions c !! i, ch with
      | Some s, GivesSDP sdp => goto (update_session i (set_mxLocalSDP sdp) c) (if cs_canceled s then [] else [Out_relays i inv])
      | _, _ => None
      end
  | Out_relays i inv => either c ch [Out_keys i inv] [End i EndFailed false]
  | Out_keys i inv => either c ch [Out_signal i inv] [End i EndFailed false]
  | Out_signal i inv =>
      match ch with
      | Fails => goto c [End i EndFailed false]
      | GivesLeg params => goto (new_signal_leg c) [Out_signal_store i (length (cb_signalLegs c)) params inv]
      | _ => None
      end
  | Out_signal_store i leg params inv => goto (update_session i (fun s => set_signalLeg leg (cs_pendingICE s) s) c) [Out_offer i leg params inv]
  | Out_offer i leg params inv =>
      match cb_sessions c !! i, result_of ch with
      | Some s, Some ok => goto (to_signal i s (signalOfferMessage (cs_signalID s) (cs_callType s) (Some params)) ok c)
                             (if ok then [Out_signal_gather i leg inv] else [End i EndFailed false])
      | _, _ => None
      end
  | Out_signal_gather i leg inv => either c ch [Timer i (outgoing_lifetime inv)] [End i EndFailed true]
  | _ => None
  end.

(** Adding the candidates that were queued, except those of other devices. *)
Definition add_pending (leg : nat) (p : Z * bytes) (s : signalCallSession) (c : Calls) : Calls :=
  if p.1 =? cs_sourceDevice s then AddRemoteCandidate leg p.2 c else c.

(** [answerIncoming] *)
Definition answer_step (f : frame) (ch : choice) (c : Calls) : option outcome_of :=
  match f with
  | Ans_lock i sdp party =>
      match cb_sessions c !! i with
      | Some s =>
          if cs_answering s || cs_canceled s then goto c []
          else goto (update_session i (set_answering (cs_sourceDevice s) (cs_pendingICE s)) c) [Ans_set i (cs_mxLeg s) sdp party]
      | None => None
      end
  | Ans_set i leg sdp party =>
      match cb_sessions c !! i with
      | Some s =>
          match leg, cs_offer s ≫= of_V4 with
          | Some _, Some _ => either c ch [Ans_select i party] [End i EndFailed true]
          | _, _ => goto c [End i EndFailed true]
          end
      | None => None
      end
  | Ans_select i party =>
      match cb_sessions c !! i, result_of ch with
      | Some s, Some ok => goto (to_matrix i s (MxSelectAnswer party) ok c) [Ans_relays i]
      | _, _ => None
      end
  | Ans_relays i => either c ch [Ans_keys i] [End i EndFailed true]
  | Ans_keys i => either c ch [Ans_leg i] [End i EndFailed true]
  | Ans_leg i =>
      match ch with
      | Fails => goto c [End i EndFailed true]
      | GivesLeg params => goto (new_signal_leg c) [Ans_store i (length (cb_signalLegs c)) params]
      | _ => None
      end
  | Ans_store i leg params =>
      match cb_sessions c !! i with
      | Some s => goto (update_session i (set_signalLeg leg []) c) [Ans_pending i leg (cs_pendingICE s) params]
      | None => None
      end
  | Ans_pending i leg [] params => goto c [Ans_send i leg params]
  | Ans_pending i leg (p :: l) params =>
      match cb_sessions c !! i with
      | Some s => goto (add_pending leg p s c) [Ans_pending i leg l params]
      | None => None
      end
  | Ans_send i leg params =>
      match cb_sessions c !! i, result_of ch with
      | Some s, Some ok => goto (to_signal i s (signalAnswerMessage (cs_signalID s) (cs_sourceDevice s) (Some params)) ok c)
                             (if ok then [Ans_gather i leg] else [End i EndFailed true])
      | _, _ => None
      end
  | Ans_gather i leg => either c ch [Ans_connect i leg] [End i EndFailed true]
  | Ans_connect i leg => either c ch [Ans_accept i leg] [End i EndFailed true]
  | Ans_accept i leg =>
      match cb_sessions c !! i, result_of ch with
      | Some s, Some true => Some (c, relays i s, [[Heartbeat i 2]])
      | Some s, Some false => goto c [End i EndFailed true]
      | _, _ => None
      end
  | _ => None
  end.

(** [handleRemoteICE]; a candidate has arrived when it is for the active call and
    from its peer. *)
Definition ice_step (f : frame) (ch : choice) (c : Calls) : option outcome_of :=
  match f with
  | Ice_check evt =>
      match active_session c, cm_ICECandidate (call_Message evt) ≫= ice_AddedV3 with
      | Some (i, s), Some sdp => goto c (if concerns s evt then [Ice_lock i (mi_SourceDeviceID (call_Info evt)) sdp] else [])
      | _, _ => goto c []
      end
  | Ice_lock i device sdp =>
      match cb_sessions c !! i with
      | Some s =>
          let c := add_log (i, (device, sdp)) c in
          if negb (cs_sourceDevice s =? 0) && negb (cs_sourceDevice s =? device) then goto c []
          else
            match cs_signalLeg s with
            | Some leg =>
                if negb (cs_incoming s) && (cs_sourceDevice s =? 0)
                then goto (update_session i (set_pendingICE (cs_pendingICE s ++ [(device, sdp)])) c) []
                else goto c [Ice_add i leg sdp]
            | None => goto (update_session i (set_pendingICE (cs_pendingICE s ++ [(device, sdp)])) c) []
            end
      | None => None
      end
  | Ice_add i leg sdp => goto (AddRemoteCandidate leg sdp c) []
  | _ => None
  end.

(** [handleRemoteAnswer] *)
Definition remote_answer_step (f : frame) (ch : choice) (c : Calls) : option outcome_of :=
  match f with
  | RA_check evt =>
      match active_session c with
      | Some (i, s) =>
          if negb (cs_incoming s) && concerns s evt && negb (mi_SourceDeviceID (call_Info evt) =? 0) then goto c [RA_lock i evt] else goto c []
      | None => goto c []
      end
  | RA_lock i evt =>
      match cb_sessions c !! i with
      | Some s =>
          if cs_answering s || cs_canceled s then goto c []
          else goto (update_session i (set_answering (mi_SourceDeviceID (call_Info evt)) []) c)
                 [RA_set i (cs_signalLeg s) (cs_pendingICE s) (cm_Answer (call_Message evt) ≫= an_V4)]
      | None => None
      end
  | RA_set i (Some leg) pending (Some answer) => either c ch [RA_pending i leg pending] [End i EndFailed true]
  | RA_set i _ _ _ => goto c [End i EndFailed true]
  | RA_pending i leg [] => goto c [RA_connect i leg]
  | RA_pending i leg (p :: l) =>
      match cb_sessions c !! i with
      | Some s => goto (add_pending leg p s c) [RA_pending i leg l]
      | None => None
      end
  | RA_connect i leg => either c ch [RA_wait i leg] [End i EndFailed true]
  | RA_wait i leg => either c ch [RA_accepted i] [End i EndFailed true]
  | RA_accepted i =>
      match cb_sessions c !! i, result_of ch with
      | Some s, Some ok => goto (to_signal i s (signalAcceptedMessage (cs_signalID s) (cs_sourceDevice s)) ok c) [RA_matrix i]
      | _, _ => None
      end
  | RA_matrix i =>
      match cb_sessions c !! i, result_of ch with
      | Some s, Some ok => goto (to_matrix i s (MxAnswer (cs_mxLocalSDP s)) ok c) (if ok then relays i s else [End i EndFailed true])
      | _, _ => None
      end
  | _ => None
  end.

(** A relay that stopped. *)
Definition relay_stopped (i : nat) (ch : choice) (c : Calls) : option outcome_of :=
  match cb_sessions c !! i, result_of ch with
  | Some s, Some ok => goto c (if ok || cs_canceled s then [] else [End i EndFailed true])
  | _, _ => None
  end.

(** The relays and the repeated acceptance, up to what they write: the choice of
    SSRC and payload type is left out. *)
Definition media_step (f : frame) (ch : choice) (c : Calls) : option outcome_of :=
  match f with
  | Relay_audio i =>
      match result_of ch with
      | Some true => Some (c, [], [[Relay i]; [Relay i]])
      | Some false => goto c [End i EndFailed true]
      | None => None
      end
  | Relay_video i =>
      match result_of ch with
      | Some true => Some (c, [], [[Video_track i]; [Relay i]])
      | Some false => goto c [End i EndFailed true]
      | None => None
      end
  | Relay_rtcp i => Some (c, [], [[Rtcp i]])
  | Relay i => relay_stopped i ch c
  | Video_track i =>
      match cb_sessions c !! i, ch with
      | Some s, GivesTrack ssrc =>
          goto (update_session i (set_keyframe ssrc false) c) ((if cs_pendingKeyframe s then [Request_keyframe i ssrc] else []) ++ [Relay i])
      | Some s, _ => relay_stopped i ch c
      | None, _ => None
      end
  | Request_keyframe i ssrc =>
      match cb_sessions c !! i with
      | Some s => goto (match cs_mxLeg s with Some leg => RequestKeyframe leg ssrc c | None => c end) []
      | None => None
      end
  | Rtcp i =>
      match cb_sessions c !! i, ch with
      | Some s, GivesPLI => if video_call s then Some (c, [Rtcp i], [[Keyframe i]]) else goto c [Rtcp i]
      | _, Fails => goto c []
      | _, _ => None
      end
  | Keyframe i =>
      match cb_sessions c !! i with
      | Some s =>
          if cs_matrixVideoSSRC s =? 0 then goto (update_session i (set_keyframe 0 true) c) []
          else goto c [Request_keyframe i (cs_matrixVideoSSRC s)]
      | None => None
      end
  | Heartbeat i sequence =>
      match cb_sessions c !! i, result_of ch with
      | Some s, Some ok => goto c (if ok || cs_canceled s then [Heartbeat i ((sequence + 1) mod 65536)] else [])
      | Some s, None => if cs_canceled s then goto c [] else None
      | None, _ => None
      end
  | _ => None
  end.

(** [end]: what follows once the Signal side was told. *)
Definition after_signal (i : nat) (reason : signalCallEnd) : list frame :=
  if bool_decide (reason = LocalDecline) then [End_cancel i] else [End_matrix i reason].
Definition close_option (close : nat -> Calls -> Calls) (leg : option nat) (c : Calls) : Calls := match leg with Some l => close l c | None => c end.

Definition end_step (f : frame) (ch : choice) (c : Calls) : option outcome_of :=
  match f with
  | RE_check evt =>
      match active_session c with
      | Some (i, s) =>
          if concerns s evt then
            match remote_end s (call_Message evt) with
            | Some reason => Some (c, [], [[End i reason false]])
            | None => goto c []
            end
          else goto c []
      | None => goto c []
      end
  | End i reason notifySignal =>
      match cb_sessions c !! i with
      | Some s =>
          match cs_endOnce s with
          | NotEnded => goto (update_session i (set_endOnce (Ending reason notifySignal)) c) (if notifySignal then [End_signal i reason] else after_signal i reason)
          | Ending _ _ => None
          | Ended _ _ => goto c []
          end
      | None => None
      end
  | End_signal i reason =>
      match cb_sessions c !! i, result_of ch with
      | Some s, Some ok => goto (to_signal i s (signalHangupMessage (cs_signalID s)) ok c) (after_signal i reason)
      | _, _ => None
      end
  | End_matrix i reason =>
      match cb_sessions c !! i, result_of ch with
      | Some s, Some ok => goto (to_matrix i s (MxHangup (matrix_reason reason)) ok c) [End_cancel i]
      | _, _ => None
      end
  | End_cancel i => goto (update_session i set_canceled c) [End_legs i]
  | End_legs i =>
      match cb_sessions c !! i with
      | Some s => goto c [End_close i (cs_mxLeg s) (cs_signalLeg s)]
      | None => None
      end
  | End_close i mxLeg signalLeg => goto (close_option close_signal_leg signalLeg (close_option close_matrix_leg mxLeg c)) [End_clear i]
  | End_clear i =>
      match cb_sessions c !! i with
      | Some s =>
          let c := update_session i (set_endOnce (match cs_endOnce s with Ending r n => Ended r n | o => o end)) c in
          goto (if bool_decide (cb_active c = Some i) then set_active None c else c) []
      | None => None
      end
  | _ => None
  end.

Definition frame_step (f : frame) (ch : choice) (c : Calls) : option outcome_of :=
  match f with
  | In_start _ | In_lookup _ | In_claim _ _ _ _ | In_busy _ _ | Ring_leg _ | Ring_store _ _ | Ring_offer _ _ | Ring_gather _ _ | Ring_send _ _ | Timer _ _ => incoming_step f ch c
  | Out_start _ _ _ | Out_claim _ _ _ | Out_reject _ _ | Out_leg _ _ | Out_store _ _ _ | Out_answer _ _ _ | Out_gather _ _ | Out_relays _ _ | Out_keys _ _
  | Out_signal _ _ | Out_signal_store _ _ _ _ | Out_offer _ _ _ _ | Out_signal_gather _ _ _ => outgoing_step f ch c
  | Ans_lock _ _ _ | Ans_set _ _ _ _ | Ans_select _ _ | Ans_relays _ | Ans_keys _ | Ans_leg _ | Ans_store _ _ _ | Ans_pending _ _ _ _ | Ans_send _ _ _
  | Ans_gather _ _ | Ans_connect _ _ | Ans_accept _ _ => answer_step f ch c
  | Ice_check _ | Ice_lock _ _ _ | Ice_add _ _ _ => ice_step f ch c
  | RA_check _ | RA_lock _ _ | RA_set _ _ _ _ | RA_pending _ _ _ | RA_connect _ _ | RA_wait _ _ | RA_accepted _ | RA_matrix _ => remote_answer_step f ch c
  | Relay_audio _ | Relay_video _ | Relay_rtcp _ | Relay _ | Video_track _ | Request_keyframe _ _ | Rtcp _ | Keyframe _ | Heartbeat _ _ => media_step f ch c
  | RE_check _ | End _ _ _ | End_signal _ _ | End_matrix _ _ | End_cancel _ | End_legs _ | End_close _ _ _ | End_clear _ => end_step f ch c
  end.

(** *** Events *)

(** [handleSignalCall]: the frame that runs in the receiving goroutine, and a
    new goroutine. *)
Definition handleSignalCall (evt : call_event) : list frame * list (list frame) :=
  let m := call_Message evt in
  match cm_MessageType m with
  | MessageOffer => ([], if isBridgeableOffer m then [[In_start evt]] else [])
  | MessageICE => (match cm_ICECandidate m, cm_ParseError m with Some _, None => [Ice_check evt] | _, _ => [] end, [])
  | MessageAnswer => (match cm_Answer m ≫= an_V4, cm_ParseError m with Some _, None => [RA_check evt] | _, _ => [] end, [])
  | MessageHangup | MessageBusy => ([RE_check evt], [])
  | MessageOpaque => ([], [])
  end.

(** [m.call.*] events; [Call_Other] also stands for answers and hangups that
    cannot be parsed. *)
Inductive matrix_event :=
| Call_Invite (inv : option Invite)
| Call_Answer (callID party sdp : bytes)
| Call_Hangup (callID party : bytes)
| Call_Candidates (callID party : bytes) (candidates : option (list (Z * bytes)))
| Call_Other.

(** The session an event of the room is for; its own events are not. *)
Definition matrix_session (c : Calls) (room callID party : bytes) : option (nat * signalCallSession) :=
  match active_session c with
  | Some (i, s) => if beqb (cs_mxCallID s) callID && beqb (cs_portal s) room && negb (beqb party (cs_mxParty s)) then Some (i, s) else None
  | None => None
  end.

Definition addMatrixCandidates (s : signalCallSession) (candidates : list (Z * bytes)) (c : Calls) : Calls :=
  match cs_mxLeg s with
  | Some leg =>
      let good := map snd (filter (fun p : Z * bytes => 0 <= p.1 <= 65535) candidates) in
      set_matrixLegs (alter (fun l => mkMatrixLeg (mxl_closed l) (mxl_candidates l ++ good) (mxl_keyframes l)) leg (cb_matrixLegs c)) c
  | None => c
  end.

(** The new state, and the goroutines that are started. *)
Definition handleMatrixEvent (room otherUserID : bytes) (evt : matrix_event) (c : Calls) : Calls * list (list frame) :=
  match evt with
  | Call_Invite (Some inv) => (c, [[Out_start room otherUserID inv]])
  | Call_Invite None | Call_Other => (c, [])
  | Call_Hangup callID party =>
      (c, match matrix_session c room callID party with Some (i, _) => [[End i LocalDecline true]] | None => [] end)
  | Call_Answer callID party sdp =>
      (c, match matrix_session c room callID party with
          | Some (i, s) =>
              if cs_incoming s then if beqb sdp [] then [[End i EndFailed true]] else [[Ans_lock i sdp party]]
              else []
          | None => []
          end)
  | Call_Candidates callID party candidates =>
      match matrix_session c room callID party, candidates with
      | Some (i, s), Some l => (addMatrixCandidates s l c, [])
      | _, _ => (c, [])
      end
  end.

(** Who may use the bridge: not ghosts and the bot, and the user must own the
    login of the portal (or have one at all). *)
Record MatrixGate := mkGate { mg_CallBridging : bool; mg_isGhost : bool; mg_isBot : bool; mg_portal : bool; mg_portalLogin : option bytes; mg_defaultLogin : option bytes; mg_sender : bytes; mg_client : bool }.
Definition handleMatrixCallEvent (g : MatrixGate) : bool :=
  mg_CallBridging g && negb (mg_isGhost g) && negb (mg_isBot g) && mg_portal g
  && match match mg_portalLogin g with Some l => Some l | None => mg_defaultLogin g end with
     | Some user => beqb user (mg_sender g) && mg_client g
     | None => false
     end.

(** [stop] *)
Definition stop (c : Calls) : list (list frame) := match cb_active c with Some i => [[End i BridgeShutdown false]] | None => [] end.

(** A local candidate is sent, to the device of the caller or to all devices. *)
Definition onLocalSignalCandidate (i : nat) (candidate : bytes) (ok : bool) (c : Calls) : option Calls :=
  match cb_sessions c !! i with
  | Some s =>
      match cs_signalLeg s with
      | Some _ => Some (to_signal i s (signalICEMessage (cs_signalID s) (if cs_incoming s then Some (cs_sourceDevice s) else None) candidate) ok c)
      | None => None
      end
  | None => None
  end.

Inductive label :=
| L_signal (evt : call_event)
| L_matrix (gate : MatrixGate) (room otherUserID : bytes) (evt : matrix_event)
| L_candidate (i : nat) (candidate : bytes) (ok : bool)
| L_stop
| L_run (t : nat) (ch : choice).

Definition step (l : label) (w : World) : option World :=
  match l with
  | L_signal evt =>
      match w_threads w !! 0%nat with
      | Some [] => let '(fs, new) := handleSignalCall evt in Some (mkWorld (w_calls w) (<[0%nat := fs]> (w_threads w) ++ new))
      | _ => None
      end
  | L_matrix gate room otherUserID evt =>
      if handleMatrixCallEvent gate then
        let '(c, new) := handleMatrixEvent room otherUserID evt (w_calls w) in Some (mkWorld c (w_threads w ++ new))
      else Some w
  | L_candidate i candidate ok => match onLocalSignalCandidate i candidate ok (w_calls w) with Some c => Some (mkWorld c (w_threads w)) | None => None end
  | L_stop => Some (mkWorld (w_calls w) (w_threads w ++ stop (w_calls w)))
  | L_run t ch =>
      match w_threads w !! t with
      | Some (f :: fs) =>
          match frame_step f ch (w_calls w) with
          | Some (c, fs', new) => Some (mkWorld c (<[t := fs' ++ fs]> (w_threads w) ++ new))
          | None => None
          end
      | _ => None
      end
  end.

Fixpoint steps (ls : list label) (w : World) : option World :=
  match ls with [] => Some w | l :: ls => match step l w with Some w => steps ls w | None => None end end.

Inductive reach : World -> Prop :=
| reach_start : reach world_start
| reach_step l w w' : reach w -> step l w = Some w' -> reach w'.

End Steps.

(** The ways a frame can run. *)
Ltac step_cases H :=
  cbn [CallBridge.frame_step incoming_step outgoing_step answer_step ice_step remote_answer_step media_step end_step] in H;
  unfold either, relay_stopped, result_of, to_matrix, to_signal in H; unfold goto in H; repeat case_match; simplify_eq.
