(* ===== verification/CallSafety.v ===== *)
(** What call bridging guarantees in every interleaving of its goroutines:
    one call at a time, each call ended exactly once and told to both sides,
    and no candidate of the other side lost or used twice once the call rings. *)
From S2P Require Import Prelude GoLib ServiceId SignalId RingRTC CallMedia ReceivingDecrypt CallBridge.

(** ** Goroutines as a multiset of frames *)

Definition frames (w : World) : list frame := concat (w_threads w).

Lemma frames_insert (ts : list (list frame)) t fs fs' : ts !! t = Some fs -> exists rest, concat ts ≡ₚ fs ++ rest /\ concat (<[t := fs']> ts) ≡ₚ fs' ++ rest.
Proof.
  intros H. exists (concat (take t ts ++ drop (S t) ts)). rewrite insert_take_drop by (by apply lookup_lt_Some in H).
  rewrite <- (take_drop_middle ts t fs H) at 1. rewrite !concat_app. cbn [concat].
  split; rewrite !app_assoc; by rewrite (Permutation_app_comm (concat (take t ts)) _).
Qed.

Lemma alter_lookup_inv {A} (f : A -> A) i (l : list A) j x : alter f i l !! j = Some x -> (i = j /\ exists y, l !! j = Some y /\ x = f y) \/ (i <> j /\ l !! j = Some x).
Proof.
  destruct (decide (i = j)) as [->|Hn]; [|rewrite list_lookup_alter_ne by done; auto].
  rewrite list_lookup_alter_eq. destruct (l !! j) as [y|]; [|done]. intros [= <-]. left. eauto.
Qed.

Section Safety.
Context `{U : UUIDLib} `{L : WireLib} (SendsVideo : bytes -> bool).
#[local] Abbreviation frame_step := (frame_step SendsVideo).
#[local] Abbreviation step := (step SendsVideo).
#[local] Abbreviation reach := (reach SendsVideo).

(** Frames that events start: at the beginning of a handler. *)
Definition entry (c : Calls) (f : frame) : Prop :=
  match f with
  | In_start _ | Ice_check _ | RA_check _ | RE_check _ | Out_start _ _ _ => True
  | End i _ _ => cb_active c = Some i
  | Ans_lock i _ _ => cb_active c = Some i /\ exists s, cb_sessions c !! i = Some s /\ cs_incoming s = true
  | _ => False
  end.

(** An invariant of the shared state and the frames. *)
Record inductive (I : Calls -> list frame -> Prop) : Prop := mkInductive {
  id_proper c F F' : F ≡ₚ F' -> I c F -> I c F';
  id_start : I calls_start [];
  id_entry c F f : I c F -> entry c f -> I c (f :: F);
  id_candidates c F s l : I c F -> I (addMatrixCandidates s l c) F;
  id_local c c' F i cand ok : I c F -> onLocalSignalCandidate i cand ok c = Some c' -> I c' F;
  id_run c F f ch c' fs new : I c (f :: F) -> frame_step f ch c = Some (c', fs, new) -> I c' ((fs ++ concat new) ++ F)
}.

Lemma active_session_active c i s : active_session c = Some (i, s) -> cb_active c = Some i /\ cb_sessions c !! i = Some s.
Proof. unfold active_session. destruct (cb_active c) as [j|]; [|done]. destruct (cb_sessions c !! j) as [s'|] eqn:E; [|done]. by intros [= -> ->]. Qed.

Lemma entries c F new : (forall f, f ∈ new -> entry c f) -> forall I, inductive I -> I c F -> I c (new ++ F).
Proof. intros H I HI Hc. induction new as [|f new IH]; [done|]. cbn. apply (id_entry I HI); [|apply H; set_solver]. apply IH. set_solver. Qed.

Theorem inductive_reach I : inductive I -> forall w, reach w -> I (w_calls w) (frames w).
Proof.
  intros HI w Hr. induction Hr as [|l w w' Hr IH Hs]; [exact (id_start I HI)|].
  destruct l as [evt|gate room other evt|i cand ok| |t ch]; cbn [CallBridge.step] in Hs.
  - destruct (w_threads w !! 0%nat) as [[|]|] eqn:E; [|done..]. destruct (handleSignalCall evt) as [fs new] eqn:Eh. injection Hs as <-.
    cbn [w_calls]. unfold frames. cbn [w_threads]. rewrite concat_app.
    destruct (frames_insert _ _ _ fs E) as (rest & H1 & H2).
    apply (id_proper I HI) with ((fs ++ concat new) ++ frames w).
    { unfold frames. rewrite H1, H2. cbn. rewrite <- !app_assoc. f_equiv. apply Permutation_app_comm. }
    apply entries; [|done|done]. intros f Hf. unfold handleSignalCall in Eh.
    destruct (cm_MessageType _); repeat case_match; simplify_eq; cbn in Hf; set_solver.
  - destruct (handleMatrixCallEvent gate); [|by injection Hs as <-]. destruct (handleMatrixEvent room other evt (w_calls w)) as [c new] eqn:Eh. injection Hs as <-.
    cbn [w_calls]. unfold frames. cbn [w_threads]. rewrite concat_app.
    apply (id_proper I HI) with (concat new ++ frames w); [apply Permutation_app_comm|].
    unfold handleMatrixEvent, matrix_session in Eh.
    destruct (active_session (w_calls w)) as [[i s]|] eqn:Ea; [apply active_session_active in Ea as [Ha Hs']|];
      destruct evt; repeat case_match; simplify_eq; cbn [concat app];
      first [done | apply (id_candidates I HI); done | apply (id_entry I HI); [done|cbn; eauto]].
  - destruct (onLocalSignalCandidate i cand ok (w_calls w)) as [c|] eqn:E; [|done]. injection Hs as <-. cbn [w_calls]. by eapply (id_local I HI).
  - injection Hs as <-. cbn [w_calls]. unfold frames. cbn [w_threads]. rewrite concat_app. unfold stop.
    apply (id_proper I HI) with (concat (match cb_active (w_calls w) with Some i => [[End i BridgeShutdown false]] | None => [] end) ++ frames w); [apply Permutation_app_comm|].
    destruct (cb_active (w_calls w)) as [i|] eqn:E; cbn; [|done]. apply (id_entry I HI); [done|exact E].
  - destruct (w_threads w !! t) as [[|f fs]|] eqn:E; [done| |done]. destruct (frame_step f ch (w_calls w)) as [[[c fs'] new]|] eqn:Ef; [|done]. injection Hs as <-.
    cbn [w_calls]. unfold frames. cbn [w_threads]. rewrite concat_app. destruct (frames_insert _ _ _ (fs' ++ fs) E) as (rest & H1 & H2).
    apply (id_proper I HI) with ((fs' ++ concat new) ++ (fs ++ rest)).
    { rewrite H2, <- !app_assoc. f_equiv. rewrite Permutation_app_comm, <- !app_assoc. done. }
    eapply (id_run I HI); [|exact Ef]. apply (id_proper I HI) with (frames w); [|done]. unfold frames. by rewrite H1.
Qed.

(** ** Calls end once *)

(** The hangups that were sent for a session. *)
Definition hangups (i : nat) (l : list sent) : list bytes :=
  omap (fun x => match x with ToMatrix (Some j) _ _ _ (MxHangup reason) _ => if (j =? i)%nat then Some reason else None | _ => None end) l.
Definition is_hangup (m : pb_CallMessage) : bool := match pbc_Hangup m with Some h => pbh_Type h =? HANGUP_NORMAL | None => false end.
Definition signal_hangups (i : nat) (l : list sent) : list pb_CallMessage :=
  omap (fun x => match x with ToSignal (Some j) _ m _ => if (j =? i)%nat && is_hangup m then Some m else None | _ => None end) l.

Definition matrix_told (reason : signalCallEnd) : list bytes := if bool_decide (reason = LocalDecline) then [] else [matrix_reason reason].
Definition signal_told (callID : Z) (notify : bool) : list pb_CallMessage := if notify then [signalHangupMessage callID] else [].

(** The frames of a running [end]. *)
Definition end_frame (i : nat) (f : frame) : bool :=
  match f with End_signal j _ | End_matrix j _ | End_cancel j | End_legs j | End_close j _ _ | End_clear j => (j =? i)%nat | _ => false end.
Definition quiet_frame (f : frame) : Prop := forall i, end_frame i f = false.
Definition ending (i : nat) (F : list frame) : nat := length (filter (fun f => end_frame i f = true) F).

Lemma ending_app i F1 F2 : ending i (F1 ++ F2) = (ending i F1 + ending i F2)%nat.
Proof. unfold ending. by rewrite filter_app, length_app. Qed.
Lemma ending_cons i f F : ending i (f :: F) = ((if end_frame i f then 1 else 0) + ending i F)%nat.
Proof. unfold ending. rewrite filter_cons. destruct (end_frame i f); case_decide; done. Qed.
Lemma ending_quiet i F : Forall quiet_frame F -> ending i F = 0%nat.
Proof. induction 1 as [|f F Hf _ IH]; [done|]. by rewrite ending_cons, Hf, IH. Qed.

(** What the two sides were told before a frame runs. *)
Definition told (c : Calls) (i : nat) (m : list bytes) (sg : list pb_CallMessage) : Prop := hangups i (cb_sent c) = m /\ signal_hangups i (cb_sent c) = sg.
Definition end_ok (c : Calls) (f : frame) : Prop :=
  match f with
  | End_signal i r => exists s, cb_sessions c !! i = Some s /\ cs_endOnce s = Ending r true /\ told c i [] []
  | End_matrix i r => exists s n, cb_sessions c !! i = Some s /\ cs_endOnce s = Ending r n /\ r <> LocalDecline /\ told c i [] (signal_told (cs_signalID s) n)
  | End_cancel i => exists s r n, cb_sessions c !! i = Some s /\ cs_endOnce s = Ending r n /\ told c i (matrix_told r) (signal_told (cs_signalID s) n)
  | End_legs i | End_close i _ _ | End_clear i =>
      exists s r n, cb_sessions c !! i = Some s /\ cs_endOnce s = Ending r n /\ told c i (matrix_told r) (signal_told (cs_signalID s) n) /\ cs_canceled s = true
  | _ => True
  end.
Definition session_ok (c : Calls) (F : list frame) (i : nat) (s : signalCallSession) : Prop :=
  match cs_endOnce s with
  | NotEnded => cb_active c = Some i /\ ending i F = 0%nat /\ told c i [] []
  | Ending _ _ => cb_active c = Some i /\ ending i F = 1%nat
  | Ended r n => cb_active c <> Some i /\ ending i F = 0%nat /\ told c i (matrix_told r) (signal_told (cs_signalID s) n) /\ cs_canceled s = true
  end.
Record ends_inv (c : Calls) (F : list frame) : Prop := mkEnds {
  ei_active i : cb_active c = Some i -> (i < length (cb_sessions c))%nat;
  ei_sessions i s : cb_sessions c !! i = Some s -> session_ok c F i s;
  ei_new i : (length (cb_sessions c) <= i)%nat -> ending i F = 0%nat /\ told c i [] [];
  ei_frames : Forall (end_ok c) F
}.

(** Steps that do not concern the end of a call. *)
Record same_ends (c c' : Calls) : Prop := mkSameEnds {
  sm_active : cb_active c' = cb_active c;
  sm_length : length (cb_sessions c') = length (cb_sessions c);
  sm_session i s' : cb_sessions c' !! i = Some s' ->
    exists s, cb_sessions c !! i = Some s /\ cs_endOnce s = cs_endOnce s' /\ cs_canceled s = cs_canceled s' /\ cs_signalID s = cs_signalID s';
  sm_told i m sg : told c i m sg -> told c' i m sg
}.
#[local] Instance same_ends_preorder : PreOrder same_ends.
Proof.
  split; [intros c; split; eauto|]. intros c1 c2 c3 [A1 A2 A3 A4] [B1 B2 B3 B4]. split; [congruence..| |auto].
  intros i s3 H3. destruct (B3 _ _ H3) as (s2 & H2 & E1 & E2 & E3). destruct (A3 _ _ H2) as (s1 & H1 & E4 & E5 & E6). exists s1. split_and!; congruence.
Qed.

Lemma same_lookup c c' i s : same_ends c c' -> cb_sessions c !! i = Some s ->
  exists s', cb_sessions c' !! i = Some s' /\ cs_endOnce s' = cs_endOnce s /\ cs_canceled s' = cs_canceled s /\ cs_signalID s' = cs_signalID s.
Proof.
  intros [_ Hl Hs _] H. destruct (lookup_lt_is_Some_2 (cb_sessions c') i) as [s' H']; [rewrite Hl; by eapply lookup_lt_Some|].
  destruct (Hs _ _ H') as (s0 & H0 & E1 & E2 & E3). exists s'. rewrite H in H0. injection H0 as <-. done.
Qed.

Lemma same_end_ok c c' f : same_ends c c' -> end_ok c f -> end_ok c' f.
Proof.
  intros Hs. destruct f; cbn; try done.
  - intros (s & H1 & H2 & H3). destruct (same_lookup _ _ _ _ Hs H1) as (s' & H1' & E1 & E2 & E3). exists s'. split_and!; [done|congruence|by apply (sm_told _ _ Hs)].
  - intros (s & n & H1 & H2 & H3 & H4). destruct (same_lookup _ _ _ _ Hs H1) as (s' & H1' & E1 & E2 & E3). exists s', n. rewrite E3.
    split_and!; [done|congruence|done|by apply (sm_told _ _ Hs)].
  - intros (s & r & n & H1 & H2 & H3). destruct (same_lookup _ _ _ _ Hs H1) as (s' & H1' & E1 & E2 & E3). exists s', r, n. rewrite E3.
    split_and!; [done|congruence|by apply (sm_told _ _ Hs)].
  - intros (s & r & n & H1 & H2 & H3 & H4). destruct (same_lookup _ _ _ _ Hs H1) as (s' & H1' & E1 & E2 & E3). exists s', r, n. rewrite E3.
    split_and!; [done|congruence|by apply (sm_told _ _ Hs)|congruence].
  - intros (s & r & n & H1 & H2 & H3 & H4). destruct (same_lookup _ _ _ _ Hs H1) as (s' & H1' & E1 & E2 & E3). exists s', r, n. rewrite E3.
    split_and!; [done|congruence|by apply (sm_told _ _ Hs)|congruence].
  - intros (s & r & n & H1 & H2 & H3 & H4). destruct (same_lookup _ _ _ _ Hs H1) as (s' & H1' & E1 & E2 & E3). exists s', r, n. rewrite E3.
    split_and!; [done|congruence|by apply (sm_told _ _ Hs)|congruence].
Qed.

Lemma quiet_ok c f : quiet_frame f -> end_ok c f.
Proof. intros H. destruct f as []; cbn; try done; match goal with |- context [cb_sessions c !! ?i] => specialize (H i); cbn in H; by rewrite Nat.eqb_refl in H end. Qed.

(** A step of a frame that is not part of an [end]. *)
Lemma ends_quiet c c' f fs F : ends_inv c (f :: F) -> same_ends c c' -> quiet_frame f -> Forall quiet_frame fs -> ends_inv c' (fs ++ F).
Proof.
  intros [H1 H2 H3 H4] Hs Hf Hfs.
  assert (E : forall i, ending i (fs ++ F) = ending i (f :: F)) by (intros i; rewrite ending_app, ending_cons, Hf, ending_quiet; done).
  split.
  - intros i. rewrite (sm_active _ _ Hs), (sm_length _ _ Hs). apply H1.
  - intros i s' Hi. destruct (sm_session _ _ Hs _ _ Hi) as (s & Hi' & E1 & E2 & E3). specialize (H2 _ _ Hi'). unfold session_ok in *.
    rewrite <- E1, (sm_active _ _ Hs), E, <- E3. destruct (cs_endOnce s); [destruct H2 as (? & ? & ?)|done|destruct H2 as (? & ? & ? & ?)];
      split_and!; try done; try congruence; by apply (sm_told _ _ Hs).
  - intros i Hi. rewrite (sm_length _ _ Hs) in Hi. destruct (H3 i Hi) as [? ?]. rewrite E. split; [done|by apply (sm_told _ _ Hs)].
  - apply Forall_app. split; [by eapply Forall_impl; [|apply quiet_ok]|]. apply Forall_cons in H4 as [_ H4]. eapply Forall_impl; [exact H4|]. intros g Hg. by eapply same_end_ok.
Qed.

(** *** Which steps these are *)

Definition keeps_end (f : signalCallSession -> signalCallSession) : Prop :=
  forall s, cs_endOnce (f s) = cs_endOnce s /\ cs_canceled (f s) = cs_canceled s /\ cs_signalID (f s) = cs_signalID s.
Lemma same_update c i f : keeps_end f -> same_ends c (update_session i f c).
Proof.
  intros Hf. split; [done|apply length_alter| |done]. intros j s' H. cbn in H. apply alter_lookup_inv in H as [(-> & s & H & ->)|[_ H]].
  - exists s. destruct (Hf s) as (-> & -> & ->). done.
  - by exists s'.
Qed.
Lemma same_legs c c' : cb_active c' = cb_active c -> cb_sessions c' = cb_sessions c -> cb_sent c' = cb_sent c -> same_ends c c'.
Proof. intros H1 H2 H3. split; [done|by rewrite H2|rewrite H2; eauto|]. unfold told. by rewrite H3. Qed.
(** What is sent and is not a hangup. *)
Definition plain_sent (x : sent) : bool :=
  match x with
  | ToMatrix (Some _) _ _ _ (MxHangup _) _ => false
  | ToSignal (Some _) _ m _ => negb (is_hangup m)
  | _ => true
  end.
Lemma same_sent c x : plain_sent x = true -> same_ends c (add_sent x c).
Proof.
  intros Hx. split; [done..|eauto|]. intros i m sg [H1 H2]. unfold told, hangups, signal_hangups in *. cbn. rewrite !omap_app, H1, H2.
  destruct x as [[j|] ? ? ?|[j|] ? ? ? [] ?]; cbn in *; rewrite ?app_nil_r; try done.
  destruct (is_hangup message); [done|]. rewrite andb_false_r. cbn. by rewrite app_nil_r.
Qed.

Lemma same_add_pending leg p s c : same_ends c (add_pending leg p s c).
Proof. unfold add_pending. destruct (_ =? _); by apply same_legs. Qed.

Ltac keeps_end := intros ?; done.
Ltac same :=
  first [ (etransitivity; [|apply same_update; keeps_end]; by apply same_legs) | reflexivity | apply same_add_pending | by apply same_legs
        | (apply same_update; keeps_end) | (apply same_sent; done) ].
Ltac quiet := repeat constructor; intros ?; reflexivity.

(** Frames that start or run an [end], or make a session. *)
Definition special (c : Calls) (f : frame) : bool :=
  match f with
  | In_claim _ _ _ _ | Out_claim _ _ _ => match cb_active c with None => true | Some _ => false end
  | End _ _ _ => true
  | f => match f with End_signal _ _ | End_matrix _ _ | End_cancel _ | End_legs _ | End_close _ _ _ | End_clear _ => true | _ => false end
  end.

Lemma quiet_relays i s : Forall quiet_frame (relays i s).
Proof. unfold relays. destruct (video_call s); quiet. Qed.

Lemma step_quiet f ch c c' fs new : frame_step f ch c = Some (c', fs, new) -> special c f = false ->
  same_ends c c' /\ quiet_frame f /\ Forall quiet_frame (fs ++ concat new).
Proof.
  intros H Hs. split_and!.
  - destruct f; try done;
      cbn [special] in Hs; step_cases H; same.
  - by destruct f; intros ?; try done.
  - destruct f; try done;
      cbn [special] in Hs; step_cases H;
      first [ quiet | cbn [concat app]; rewrite ?app_nil_r; apply Forall_app; split; [apply quiet_relays|quiet] | cbn [concat]; rewrite app_nil_r; apply quiet_relays ].
Qed.

(** *** Steps that concern one session *)
Record same_others (i : nat) (c c' : Calls) : Prop := mkSameOthers {
  so_length : length (cb_sessions c') = length (cb_sessions c);
  so_session j : j <> i -> cb_sessions c' !! j = cb_sessions c !! j;
  so_active j : cb_active c' = Some j -> cb_active c = Some j;
  so_active' j : j <> i -> cb_active c = Some j -> cb_active c' = Some j;
  so_told j m sg : j <> i -> told c j m sg -> told c' j m sg
}.

Lemma other_end_ok i c c' f : same_others i c c' -> end_frame i f = false -> end_ok c f -> end_ok c' f.
Proof.
  intros Hs Hf. destruct f; cbn in *; try done; apply Nat.eqb_neq in Hf; rewrite (so_session _ _ _ Hs) by done;
    intros H; destruct_and?; repeat match goal with H : exists _, _ |- _ => destruct H as [? H] end; destruct_and?; repeat eexists;
    try done; match goal with H : told c _ _ _ |- _ => by destruct (so_told _ _ _ Hs _ _ _ Hf H) end.
Qed.

Lemma ending_zero i F : ending i F = 0%nat -> Forall (fun f => end_frame i f = false) F.
Proof.
  induction F as [|f F IH]; [constructor|]. rewrite ending_cons. intros H. constructor; [by destruct (end_frame i f)|]. apply IH. lia.
Qed.

Lemma ends_one i c c' f fs F s' :
  ends_inv c (f :: F) -> same_others i c c' -> ending i F = 0%nat -> cb_sessions c' !! i = Some s' ->
  (forall j, j <> i -> end_frame j f = false) -> (forall j, j <> i -> ending j fs = 0%nat) ->
  session_ok c' (fs ++ F) i s' -> Forall (end_ok c') fs -> ends_inv c' (fs ++ F).
Proof.
  intros [H1 H2 H3 H4] Hs Hi Hs' Hf Hfs Hok Hoks.
  assert (E : forall j, j <> i -> ending j (fs ++ F) = ending j (f :: F)) by (intros j Hj; rewrite ending_app, ending_cons, Hf, Hfs; done).
  split.
  - intros j Hj. rewrite (so_length _ _ _ Hs). apply H1. by apply (so_active _ _ _ Hs).
  - intros j s Hj. destruct (decide (j = i)) as [->|Hn]; [by simplify_eq|]. rewrite (so_session _ _ _ Hs) in Hj by done. specialize (H2 _ _ Hj).
    unfold session_ok in *. rewrite E by done. destruct (cs_endOnce s); [destruct H2 as (? & ? & ?)|destruct H2 as (? & ?)|destruct H2 as (? & ? & ? & ?)]; split_and!; try done;
      try (by apply (so_active' _ _ _ Hs)); try (by apply (so_told _ _ _ Hs)). intros Ha. by apply (so_active _ _ _ Hs) in Ha.
  - intros j Hj. rewrite (so_length _ _ _ Hs) in Hj. assert (Hn : j <> i) by (intros ->; apply lookup_lt_Some in Hs'; rewrite (so_length _ _ _ Hs) in Hs'; lia).
    rewrite E by done. destruct (H3 j Hj). split; [done|by apply (so_told _ _ _ Hs)].
  - apply Forall_app. split; [done|]. apply Forall_cons in H4 as [_ H4]. apply Forall_forall. intros g Hg.
    eapply (other_end_ok i); [done| |by apply (proj1 (Forall_forall _ _) H4)]. by apply (proj1 (Forall_forall _ _) (ending_zero _ _ Hi)).
Qed.

Lemma others_update i f c : same_others i c (update_session i f c).
Proof. split; try done; [apply length_alter|]. intros j Hj. by apply list_lookup_alter_ne. Qed.
Definition sent_for (x : sent) : option nat := match x with ToSignal o _ _ _ => o | ToMatrix o _ _ _ _ _ => o end.
Lemma others_sent i x c : sent_for x = Some i -> same_others i c (add_sent x c).
Proof.
  intros Hx. split; try done. intros j m sg Hj [H1 H2]. unfold told, hangups, signal_hangups in *. cbn. rewrite !omap_app, H1, H2.
  destruct x as [o ? ? ?|o ? ? ? e ?]; cbn in Hx; subst o; cbn; rewrite ?(proj2 (Nat.eqb_neq i j)) by done; cbn; rewrite ?app_nil_r; try done.
  by destruct e; rewrite ?app_nil_r.
Qed.
Lemma others_legs i c c' : cb_active c' = cb_active c -> cb_sessions c' = cb_sessions c -> cb_sent c' = cb_sent c -> same_others i c c'.
Proof. intros H1 H2 H3. split; rewrite ?H1, ?H2; try done. unfold told. by rewrite H3. Qed.

Lemma told_sent c i m sg x : told c i m sg -> told (add_sent x c) i (m ++ hangups i [x]) (sg ++ signal_hangups i [x]).
Proof. intros [H1 H2]. unfold told, hangups, signal_hangups in *. cbn [add_sent cb_sent]. by rewrite !omap_app, H1, H2. Qed.

(** The frame at the top is the only one of a running [end]. *)
Lemma running c f F i s r n : ends_inv c (f :: F) -> cb_sessions c !! i = Some s -> cs_endOnce s = Ending r n -> end_frame i f = true ->
  cb_active c = Some i /\ ending i F = 0%nat.
Proof.
  intros H Hs Ho Hf. pose proof (ei_sessions _ _ H _ _ Hs) as Hk. unfold session_ok in Hk. rewrite Ho, ending_cons, Hf in Hk. destruct Hk. split; [done|lia].
Qed.

Lemma ending_one i j g : (forall k, end_frame k g = (i =? k)%nat) -> ending j [g] = if (i =? j)%nat then 1%nat else 0%nat.
Proof. intros H. rewrite ending_cons, H. cbn. by destruct (i =? j)%nat. Qed.

Lemma session_running c i F g s r n : cs_endOnce s = Ending r n -> cb_active c = Some i -> ending i F = 0%nat -> (forall k, end_frame k g = (i =? k)%nat) ->
  session_ok c ([g] ++ F) i s.
Proof. intros Ho Ha HF Hg. unfold session_ok. rewrite Ho, ending_app, (ending_one i), Nat.eqb_refl, HF by done. done. Qed.

(** From one frame of a running [end] to the next. *)
Lemma ends_next i c c' f g F s s' r n :
  ends_inv c (f :: F) -> cb_sessions c !! i = Some s -> cs_endOnce s = Ending r n -> (forall k, end_frame k f = (i =? k)%nat) ->
  same_others i c c' -> cb_active c' = cb_active c -> cb_sessions c' !! i = Some s' -> cs_endOnce s' = Ending r n -> (forall k, end_frame k g = (i =? k)%nat) -> end_ok c' g ->
  ends_inv c' ([g] ++ F).
Proof.
  intros H Hs Ho Hf Hso Ha' Hs' Ho' Hg Hok. destruct (running _ _ _ _ _ _ _ H Hs Ho) as [Ha HF]; [by rewrite Hf, Nat.eqb_refl|].
  eapply (ends_one i); [exact H|exact Hso|exact HF|exact Hs'|..].
  - intros j Hj. rewrite Hf. by apply Nat.eqb_neq.
  - intros j Hj. rewrite (ending_one i) by done. by rewrite (proj2 (Nat.eqb_neq i j)).
  - eapply session_running; [done|by rewrite Ha'|done|done].
  - by constructor.
Qed.

Lemma ends_new c f F fs s : ends_inv c (f :: F) -> quiet_frame f -> Forall quiet_frame fs -> cb_active c = None -> cs_endOnce s = NotEnded ->
  ends_inv (new_session s c) (fs ++ F).
Proof.
  intros [H1 H2 H3 H4] Hf Hfs Ha Hs.
  assert (E : forall i, ending i (fs ++ F) = ending i (f :: F)) by (intros i; rewrite ending_app, ending_cons, Hf, ending_quiet; done).
  unfold new_session, set_active, set_sessions. split; cbn [cb_active cb_sessions].
  - intros i [= <-]. rewrite length_app. cbn. lia.
  - intros i s' Hi. unfold session_ok. cbn [cb_active]. rewrite E. apply lookup_app_Some in Hi as [Hi|[Hl Hi]].
    + pose proof (H2 _ _ Hi) as Hk. pose proof (lookup_lt_Some _ _ _ Hi). unfold session_ok in Hk. rewrite Ha in Hk. destruct (cs_endOnce s'); [by destruct Hk|by destruct Hk|].
      destruct Hk as (_ & ? & ? & ?). split_and!; try done. intros [= Hx]. lia.
    + apply list_lookup_singleton_Some in Hi as [Hi <-]. rewrite Hs. destruct (H3 i) as [? ?]; [lia|]. split_and!; [f_equal; lia|done|done].
  - intros i. rewrite length_app. cbn. intros Hi. rewrite E. apply H3. lia.
  - apply Forall_app. split; [by eapply Forall_impl; [|apply quiet_ok]|]. apply Forall_cons in H4 as [_ H4]. eapply Forall_impl; [exact H4|]. intros g Hg.
    destruct g; cbn in *; try done; repeat match goal with H : exists _, _ |- _ => destruct H as [? H] end; destruct_and?; repeat eexists; try done;
      try (by apply lookup_app_l_Some); by match goal with H : told _ _ _ _ |- _ => destruct H end.
Qed.

Lemma ends_started c F i s r n : ends_inv c (End i r n :: F) -> cb_sessions c !! i = Some s -> cs_endOnce s = NotEnded ->
  ends_inv (update_session i (set_endOnce (Ending r n)) c) ((if n then [End_signal i r] else after_signal i r) ++ F).
Proof.
  intros H Hs Ho. pose proof (ei_sessions _ _ H _ _ Hs) as Hk. unfold session_ok in Hk. rewrite Ho, ending_cons in Hk. destruct Hk as (Ha & HF & Ht).
  assert (Hn : cb_sessions (update_session i (set_endOnce (Ending r n)) c) !! i = Some (set_endOnce (Ending r n) s)) by (cbn; by rewrite list_lookup_alter_eq, Hs).
  assert (Hg : exists g, (if n then [End_signal i r] else after_signal i r) = [g] /\ (forall k, end_frame k g = (i =? k)%nat)
             /\ end_ok (update_session i (set_endOnce (Ending r n)) c) g).
  { destruct n; [|unfold after_signal; case_bool_decide]; (eexists; split_and!; [done|done|]).
    - exists (set_endOnce (Ending r true) s). done.
    - exists (set_endOnce (Ending r false) s), r, false. split_and!; [done|done|]. unfold matrix_told. by rewrite bool_decide_eq_true_2 by done.
    - exists (set_endOnce (Ending r false) s), false. done. }
  destruct Hg as (g & -> & Hg & Hok). eapply (ends_one i); [exact H|apply others_update|exact HF|exact Hn|done| |by eapply session_running|by constructor].
  intros j Hj. rewrite (ending_one i) by done. by rewrite (proj2 (Nat.eqb_neq i j)).
Qed.

Lemma after_signal_one i r : exists g, after_signal i r = [g] /\ forall k, end_frame k g = (i =? k)%nat.
Proof. unfold after_signal. case_bool_decide; eexists; split; done. Qed.

Lemma ends_cleared c F i : ends_inv c (End_clear i :: F) -> forall s, cb_sessions c !! i = Some s ->
  let c' := update_session i (set_endOnce (match cs_endOnce s with Ending r n => Ended r n | o => o end)) c in
  ends_inv (if bool_decide (cb_active c' = Some i) then set_active None c' else c') F.
Proof.
  intros H s Hs c'. pose proof (ei_frames _ _ H) as [Hf _]%Forall_cons. destruct Hf as (s0 & r & n & Hs0 & Ho & Ht & Hc). simplify_eq.
  destruct (running _ _ _ _ _ _ _ H Hs Ho) as [Ha HF]; [by apply Nat.eqb_refl|].
  unfold c'. rewrite Ho. rewrite bool_decide_eq_true_2 by done.
  change F with ([] ++ F). eapply (ends_one i) with (s' := set_endOnce (Ended r n) s); [exact H| |exact HF| | | | |].
  - split; cbn; try done; [apply length_alter|intros j Hj; by apply list_lookup_alter_ne|intros j Hj Hx; congruence].
  - cbn. by rewrite list_lookup_alter_eq, Hs.
  - intros j Hj. cbn. by apply Nat.eqb_neq.
  - done.
  - unfold session_ok. cbn. split_and!; [done|done|exact Ht|exact Hc].
  - constructor.
Qed.

Lemma ends_signal c F i r s ok : ends_inv c (End_signal i r :: F) -> cb_sessions c !! i = Some s ->
  ends_inv (to_signal i s (signalHangupMessage (cs_signalID s)) ok c) (after_signal i r ++ F).
Proof.
  intros H Hs. pose proof (ei_frames _ _ H) as [Hf _]%Forall_cons. destruct Hf as (s0 & Hs0 & Ho & Ht). simplify_eq.
  destruct (after_signal_one i r) as (g & E & Hg). rewrite E.
  assert (Ht' : told (to_signal i s (signalHangupMessage (cs_signalID s)) ok c) i [] (signal_told (cs_signalID s) true)).
  { pose proof (told_sent _ _ _ _ (ToSignal (Some i) (cs_peer s) (signalHangupMessage (cs_signalID s)) ok) Ht) as Hx. unfold hangups, signal_hangups in Hx. cbn in Hx.
    rewrite Nat.eqb_refl in Hx. exact Hx. }
  eapply (ends_next i) with (s := s) (s' := s); [exact H|exact Hs|exact Ho|done|by apply others_sent|done|exact Hs|exact Ho|exact Hg|].
  unfold after_signal in E. case_bool_decide; injection E as <-; cbn.
  - exists s, r, true. split_and!; [done|done|]. unfold matrix_told. by rewrite bool_decide_eq_true_2.
  - exists s, true. done.
Qed.

Lemma ends_matrix c F i r s ok : ends_inv c (End_matrix i r :: F) -> cb_sessions c !! i = Some s ->
  ends_inv (to_matrix i s (MxHangup (matrix_reason r)) ok c) ([End_cancel i] ++ F).
Proof.
  intros H Hs. pose proof (ei_frames _ _ H) as [Hf _]%Forall_cons. destruct Hf as (s0 & n & Hs0 & Ho & Hr & Ht). simplify_eq.
  assert (Ht' : told (to_matrix i s (MxHangup (matrix_reason r)) ok c) i (matrix_told r) (signal_told (cs_signalID s) n)).
  { pose proof (told_sent _ _ _ _ (ToMatrix (Some i) (cs_portal s) (cs_mxCallID s) (cs_mxParty s) (MxHangup (matrix_reason r)) ok) Ht) as Hx.
    unfold hangups, signal_hangups in Hx. cbn in Hx. rewrite Nat.eqb_refl, app_nil_r in Hx. unfold matrix_told. by rewrite bool_decide_eq_false_2. }
  eapply (ends_next i) with (s := s) (s' := s); [exact H|exact Hs|exact Ho|done|by apply others_sent|done|exact Hs|exact Ho|done|].
  cbn. by exists s, r, n.
Qed.

Lemma ends_cancel c F i : ends_inv c (End_cancel i :: F) -> ends_inv (update_session i set_canceled c) ([End_legs i] ++ F).
Proof.
  intros H. pose proof (ei_frames _ _ H) as [Hf _]%Forall_cons. destruct Hf as (s & r & n & Hs & Ho & Ht).
  eapply (ends_next i) with (s := s) (s' := set_canceled s); [exact H|exact Hs|exact Ho|done|apply others_update|done|cbn; by rewrite list_lookup_alter_eq, Hs|exact Ho|done|].
  cbn. exists (set_canceled s), r, n. split_and!; [by rewrite list_lookup_alter_eq, Hs|done|exact Ht|done].
Qed.

Lemma ends_legs c c' F f g i : ends_inv c (f :: F) -> (forall k, end_frame k f = (i =? k)%nat) -> (forall k, end_frame k g = (i =? k)%nat) ->
  cb_active c' = cb_active c -> cb_sessions c' = cb_sessions c -> cb_sent c' = cb_sent c ->
  (end_ok c f -> exists s r n, cb_sessions c !! i = Some s /\ cs_endOnce s = Ending r n) -> (end_ok c f -> end_ok c' g) -> ends_inv c' ([g] ++ F).
Proof.
  intros H Hf Hg H1 H2 H3 Hx Hok. pose proof (ei_frames _ _ H) as [He _]%Forall_cons. destruct (Hx He) as (s & r & n & Hs & Ho).
  eapply (ends_next i) with (s := s) (s' := s); [exact H|exact Hs|exact Ho|exact Hf|by apply others_legs|done|by rewrite H2|exact Ho|exact Hg|by apply Hok].
Qed.

Lemma close_same leg1 leg2 c : let c' := close_option close_signal_leg leg1 (close_option close_matrix_leg leg2 c) in
  cb_active c' = cb_active c /\ cb_sessions c' = cb_sessions c /\ cb_sent c' = cb_sent c.
Proof. by destruct leg1, leg2. Qed.

Lemma ends_special c F f ch c' fs new : ends_inv c (f :: F) -> frame_step f ch c = Some (c', fs, new) -> special c f = true -> ends_inv c' ((fs ++ concat new) ++ F).
Proof.
  intros H Hr Es. destruct f; try done; cbn [special] in Es; cbn [CallBridge.frame_step incoming_step outgoing_step end_step] in Hr; unfold goto in Hr.
  - destruct (cb_active c) eqn:Ha; [done|]. injection Hr as <- <- <-. by eapply ends_new; [exact H|done|quiet|..].
  - destruct (cb_active c) eqn:Ha; [done|]. destruct ch; try done. injection Hr as <- <- <-. by eapply ends_new; [exact H|done|quiet|..].
  - destruct (cb_sessions c !! i) as [s|] eqn:Hs; [|done]. destruct (cs_endOnce s) eqn:Ho; [|done|]; injection Hr as <- <- <-; cbn [concat]; rewrite app_nil_r.
    + by eapply ends_started.
    + eapply (ends_quiet _ _ _ []); [exact H|reflexivity|done|constructor].
  - destruct (cb_sessions c !! i) as [s|] eqn:Hs; [|done]. destruct (result_of ch) as [ok|]; [|done]. injection Hr as <- <- <-. cbn [concat]. rewrite app_nil_r. by apply ends_signal.
  - destruct (cb_sessions c !! i) as [s|] eqn:Hs; [|done]. destruct (result_of ch) as [ok|]; [|done]. injection Hr as <- <- <-. by apply ends_matrix.
  - injection Hr as <- <- <-. by apply ends_cancel.
  - destruct (cb_sessions c !! i) as [s|] eqn:Hs; [|done]. injection Hr as <- <- <-.
    eapply (ends_legs _ _ _ _ _ i); [exact H|done..| |]; [intros (s0 & r & n & ? & ? & _); eauto|done].
  - injection Hr as <- <- <-. destruct (close_same signalLeg mxLeg c) as (E1 & E2 & E3).
    eapply (ends_legs _ _ _ _ _ i); [exact H|done..| |]; [intros (s0 & r & n & ? & ? & _); eauto|].
    cbn [end_ok]. unfold told. by rewrite E2, E3.
  - destruct (cb_sessions c !! i) as [s|] eqn:Hs; [|done]. injection Hr as <- <- <-. by apply (ends_cleared _ _ _ H s Hs).
Qed.

Lemma ends_inductive : inductive ends_inv.
Proof.
  split.
  - intros c F F' HF [H1 H2 H3 H4]. assert (E : forall i, ending i F = ending i F') by (intros i; unfold ending; by rewrite HF).
    split; [done| |intros i Hi; rewrite <- E; by apply H3|by rewrite <- HF]. intros i s Hs. specialize (H2 _ _ Hs). unfold session_ok in *. by rewrite <- E.
  - split; try done; constructor.
  - intros c F f [H1 H2 H3 H4] He. assert (Hq : quiet_frame f) by (by destruct f).
    assert (E : forall i, ending i (f :: F) = ending i F) by (intros i; by rewrite ending_cons, Hq).
    split; [done| |intros i Hi; rewrite E; by apply H3|constructor; [by apply quiet_ok|done]]. intros i s Hs. specialize (H2 _ _ Hs). unfold session_ok in *. by rewrite E.
  - intros c F s l [H1 H2 H3 H4]. unfold addMatrixCandidates. destruct (cs_mxLeg s); by split.
  - intros c c' F i cand ok H Hl. unfold onLocalSignalCandidate, to_signal in Hl.
    destruct (cb_sessions c !! i) as [s|]; [|done]. destruct (cs_signalLeg s); [|done]. injection Hl as <-.
    assert (Hs : same_ends c (add_sent (ToSignal (Some i) (cs_peer s) (signalICEMessage (cs_signalID s) (if cs_incoming s then Some (cs_sourceDevice s) else None) cand) ok) c))
      by (by apply same_sent).
    destruct H as [H1 H2 H3 H4]. split; [done| |intros j Hj; destruct (H3 j Hj); split; [done|by apply (sm_told _ _ Hs)]|].
    + intros j s' Hj. specialize (H2 _ _ Hj). unfold session_ok in *. destruct (cs_endOnce s'); [destruct H2 as (? & ? & ?)|done|destruct H2 as (? & ? & ? & ?)]; split_and!; try done; by apply (sm_told _ _ Hs).
    + eapply Forall_impl; [exact H4|]. intros g Hg. by eapply same_end_ok.
  - intros c F f ch c' fs new H Hr. destruct (special c f) eqn:Es; [|destruct (step_quiet _ _ _ _ _ _ Hr Es) as (Hs & Hf & Hfs); by eapply ends_quiet].
    by eapply ends_special.
Qed.

Lemma reach_ends w : reach w -> ends_inv (w_calls w) (frames w).
Proof. apply (inductive_reach _ ends_inductive). Qed.

Definition ended (s : signalCallSession) : bool := match cs_endOnce s with Ended _ _ => true | _ => false end.

(** C33: there is one call at a time: in every interleaving the bridge's current
    call is a session that has not ended, and every other session has.  So a
    call can only begin when the last one is over, and none is left behind
    when the bridge forgets it. *)
Theorem one_call_at_a_time w : reach w ->
  (forall i, cb_active (w_calls w) = Some i -> exists s, cb_sessions (w_calls w) !! i = Some s /\ ended s = false)
  /\ (forall i s, cb_sessions (w_calls w) !! i = Some s -> ended s = false -> cb_active (w_calls w) = Some i).
Proof.
  intros Hr%reach_ends. split.
  - intros i Ha. destruct (lookup_lt_is_Some_2 (cb_sessions (w_calls w)) i) as [s Hs]; [by apply (ei_active _ _ Hr)|]. exists s. split; [done|].
    pose proof (ei_sessions _ _ Hr _ _ Hs) as Hk. unfold session_ok in Hk. unfold ended. destruct (cs_endOnce s); [done|done|]. by destruct Hk.
  - intros i s Hs He. pose proof (ei_sessions _ _ Hr _ _ Hs) as Hk. unfold session_ok in Hk. unfold ended in He. destruct (cs_endOnce s); [by destruct Hk|by destruct Hk|done].
Qed.

(** A call ends exactly once, however many goroutines want to end it (the
    user, the other side, the timer, failing relays, the shutdown): Matrix gets
    one hangup with the reason of the one that came first, or none if the user
    hung up there; Signal gets one hangup if that one asked for it; nothing is
    sent before; and the goroutines of the call are told to stop. *)
Theorem call_ended_once w i s : reach w -> cb_sessions (w_calls w) !! i = Some s ->
  match cs_endOnce s with
  | NotEnded => told (w_calls w) i [] []
  | Ending _ _ => True
  | Ended reason notify =>
      told (w_calls w) i (if bool_decide (reason = LocalDecline) then [] else [matrix_reason reason]) (if notify then [signalHangupMessage (cs_signalID s)] else [])
      /\ cs_canceled s = true
  end.
Proof.
  intros Hr%reach_ends Hs. pose proof (ei_sessions _ _ Hr _ _ Hs) as Hk. unfold session_ok in Hk. destruct (cs_endOnce s); [by destruct Hk as (_ & _ & ?)|done|].
  by destruct Hk as (_ & _ & ? & ?).
Qed.

(** *** An [end] that began comes to its end *)

(** Running one goroutine with the given answers of the servers. *)
Definition run_thread (t : nat) (answers : list bool) (w : World) : option World :=
  steps SendsVideo (map (fun ok => L_run t (if ok : bool then Succeeds else Fails)) answers) w.

Definition freed (i : nat) (w : World) : Prop := cb_active (w_calls w) <> Some i /\ exists s, cb_sessions (w_calls w) !! i = Some s /\ ended s = true.

Lemma result_ok ok : result_of (if ok : bool then Succeeds else Fails) = Some ok.
Proof. by destruct ok. Qed.

(** A property that holds after one more step. *)
Lemma run_step t k w (P : World -> Prop) f fs :
  w_threads w !! t = Some (f :: fs) ->
  (forall ok, exists c fs' new, frame_step f (if ok : bool then Succeeds else Fails) (w_calls w) = Some (c, fs', new) /\
     forall answers, length answers = k -> exists w', run_thread t answers (mkWorld c (<[t := fs' ++ fs]> (w_threads w) ++ new)) = Some w' /\ P w') ->
  forall answers, length answers = S k -> exists w', run_thread t answers w = Some w' /\ P w'.
Proof.
  intros Ht H [|ok answers] Hl; [done|]. destruct (H ok) as (c & fs' & new & E & Hn). destruct (Hn answers) as (w' & E' & Hp); [by injection Hl|].
  exists w'. split; [|done]. unfold run_thread in *. cbn [map steps CallBridge.step]. by rewrite Ht, E.
Qed.

Lemma thread_after (ts : list (list frame)) t fs fs' new : ts !! t = Some fs -> (<[t := fs']> ts ++ new) !! t = Some fs'.
Proof. intros H. pose proof (lookup_lt_Some _ _ _ H) as Hl. rewrite lookup_app_l by (by rewrite length_insert). by rewrite list_lookup_insert_eq. Qed.

(** The rest of an [end], frame by frame. *)
Lemma clear_frees w t i fs s r n : w_threads w !! t = Some (End_clear i :: fs) -> cb_sessions (w_calls w) !! i = Some s -> cs_endOnce s = Ending r n ->
  forall answers, length answers = 1%nat -> exists w', run_thread t answers w = Some w' /\ freed i w'.
Proof.
  intros Ht Hs Ho. apply (run_step _ _ _ _ _ _ Ht). intros ok. cbn [CallBridge.frame_step end_step]. rewrite Hs, Ho. unfold goto. eexists _, _, _. split; [done|].
  intros answers Hl. apply length_zero_iff_nil in Hl as ->. eexists. split; [done|]. unfold freed. cbn [w_calls].
  case_bool_decide; cbn; (split; [done|]); exists (set_endOnce (Ended r n) s); by rewrite list_lookup_alter_eq, Hs.
Qed.

Lemma legs_free w t i fs s r n : w_threads w !! t = Some (End_legs i :: fs) -> cb_sessions (w_calls w) !! i = Some s -> cs_endOnce s = Ending r n ->
  forall answers, length answers = 3%nat -> exists w', run_thread t answers w = Some w' /\ freed i w'.
Proof.
  intros Ht Hs Ho. apply (run_step _ _ _ _ _ _ Ht). intros ok. cbn [CallBridge.frame_step end_step]. rewrite Hs. eexists _, _, _. split; [done|].
  eapply run_step; [by eapply thread_after|]. intros ok'. cbn [CallBridge.frame_step end_step w_calls]. eexists _, _, _. split; [done|].
  eapply clear_frees; [by eapply thread_after, thread_after| |exact Ho]. cbn [w_calls]. by destruct (close_same (cs_signalLeg s) (cs_mxLeg s) (w_calls w)) as (_ & -> & _).
Qed.

Lemma cancel_frees w t i fs s r n : w_threads w !! t = Some (End_cancel i :: fs) -> cb_sessions (w_calls w) !! i = Some s -> cs_endOnce s = Ending r n ->
  forall answers, length answers = 4%nat -> exists w', run_thread t answers w = Some w' /\ freed i w'.
Proof.
  intros Ht Hs Ho. apply (run_step _ _ _ _ _ _ Ht). intros ok. eexists _, _, _. split; [done|].
  eapply legs_free with (s := set_canceled s); [by eapply thread_after| |exact Ho]. cbn. by rewrite list_lookup_alter_eq, Hs.
Qed.

(** The frames of a running [end] are on top of their goroutine. *)
Definition heads (ts : list (list frame)) : Prop := Forall (fun fs => Forall quiet_frame (tail fs)) ts.

Lemma quiet_tail fs : Forall quiet_frame fs -> Forall quiet_frame (tail fs).
Proof. intros [|f fs' _ H]; [constructor|done]. Qed.

Lemma step_heads f ch c c' fs new : frame_step f ch c = Some (c', fs, new) -> Forall quiet_frame (tail fs) /\ heads new.
Proof.
  intros H. destruct (special c f) eqn:Es.
  - destruct f; try done; cbn [special] in Es; cbn [CallBridge.frame_step incoming_step outgoing_step end_step] in H; unfold goto, after_signal in H;
      repeat case_match; simplify_eq; repeat constructor.
  - destruct (step_quiet _ _ _ _ _ _ H Es) as (_ & _ & [H1 H2]%Forall_app). split; [by apply quiet_tail|].
    apply Forall_concat in H2. eapply Forall_impl; [exact H2|]. intros fs' Hf. by apply quiet_tail.
Qed.

Lemma handler_heads evt : heads [(handleSignalCall evt).1] /\ heads (handleSignalCall evt).2.
Proof. unfold handleSignalCall. repeat case_match; split; repeat constructor. Qed.
Lemma matrix_heads room other evt c : heads (handleMatrixEvent room other evt c).2.
Proof. unfold handleMatrixEvent. repeat case_match; repeat constructor. Qed.

Lemma reach_heads w : reach w -> heads (w_threads w).
Proof.
  induction 1 as [|l w w' Hr IH Hs]; [by repeat constructor|]. unfold heads in *. destruct l as [evt|gate room other evt|i cand ok| |t ch]; cbn [CallBridge.step] in Hs.
  - destruct (w_threads w !! 0%nat) as [[|]|] eqn:E; [|done..]. destruct (handler_heads evt) as [H1 H2]. destruct (handleSignalCall evt) as [fs new]. injection Hs as <-. cbn.
    apply Forall_app. split; [|exact H2]. apply Forall_insert; [done|]. by inversion_clear H1.
  - destruct (handleMatrixCallEvent gate); [|by injection Hs as <-]. pose proof (matrix_heads room other evt (w_calls w)) as Hm.
    destruct (handleMatrixEvent room other evt (w_calls w)) as [c new]. injection Hs as <-. by apply Forall_app.
  - by destruct (onLocalSignalCandidate i cand ok (w_calls w)); simplify_eq.
  - injection Hs as <-. cbn. apply Forall_app. split; [done|]. unfold stop. case_match; repeat constructor.
  - destruct (w_threads w !! t) as [[|f fs]|] eqn:E; [done| |done]. destruct (frame_step f ch (w_calls w)) as [[[c fs'] new]|] eqn:Ef; [|done]. injection Hs as <-. cbn.
    destruct (step_heads _ _ _ _ _ _ Ef) as [H1 H2]. pose proof (Forall_lookup_1 _ _ _ _ IH E) as Ht. cbn in Ht.
    apply Forall_app. split; [|exact H2]. apply Forall_insert; [done|]. destruct fs' as [|g fs']; cbn in *; [by apply quiet_tail|by apply Forall_app].
Qed.

Lemma ending_head w i : reach w -> ending i (frames w) = 1%nat -> exists t f fs, w_threads w !! t = Some (f :: fs) /\ end_frame i f = true /\ f ∈ frames w.
Proof.
  intros Hr He. assert (Hx : exists f, f ∈ frames w /\ end_frame i f = true).
  { unfold ending in He. destruct (filter _ (frames w)) as [|f l] eqn:E; [done|]. exists f. assert (Hf : f ∈ filter (fun f => end_frame i f = true) (frames w)) by (rewrite E; set_solver).
    apply list_elem_of_filter in Hf as [? ?]. done. }
  destruct Hx as (f & Hf & Hi). pose proof Hf as Hin. unfold frames in Hin. apply list_elem_of_In, in_concat in Hin as (fs & Hfs & Hin).
  apply list_elem_of_In, list_elem_of_lookup in Hfs as [t Ht]. pose proof (Forall_lookup_1 _ _ _ _ (reach_heads _ Hr) Ht) as Hq. destruct fs as [|g fs]; [done|].
  exists t, f, fs. destruct Hin as [->|Hin]; [done|]. cbn in Hq. apply list_elem_of_In in Hin. rewrite Forall_forall in Hq. by rewrite (Hq _ Hin) in Hi.
Qed.

(** C34: a call that is being ended always ends: in every reachable state in
    which some goroutine began to end a call, that goroutine finishes within six
    steps of its own, whatever the two servers answer and whatever the others
    have done, and the bridge can take the next call. *)
Theorem call_end_completes w i s r n : reach w -> cb_sessions (w_calls w) !! i = Some s -> cs_endOnce s = Ending r n ->
  exists t k, (k <= 6)%nat /\ forall answers, length answers = k -> exists w', run_thread t answers w = Some w' /\ freed i w'.
Proof.
  intros Hr Hs Ho. pose proof (reach_ends _ Hr) as Hi. pose proof (ei_sessions _ _ Hi _ _ Hs) as Hk. unfold session_ok in Hk. rewrite Ho in Hk. destruct Hk as [_ Hk].
  destruct (ending_head _ _ Hr Hk) as (t & f & fs & Ht & Hf & _). exists t.
  destruct f; try done; apply Nat.eqb_eq in Hf as ->.
  - assert (Hx : exists k, (k <= 5)%nat /\ forall ok answers, length answers = k -> exists w', run_thread t answers
      (mkWorld (to_signal i s (signalHangupMessage (cs_signalID s)) ok (w_calls w)) (<[t := after_signal i reason ++ fs]> (w_threads w) ++ [])) = Some w' /\ freed i w').
    { unfold after_signal. case_bool_decide; [exists 4%nat|exists 5%nat]; (split; [lia|]); intros ok.
      - eapply cancel_frees; [by eapply thread_after|exact Hs|exact Ho].
      - eapply run_step; [by eapply thread_after|]. intros ok'. cbn [CallBridge.frame_step end_step w_calls]. unfold to_signal at 1. cbn [add_sent cb_sessions]. rewrite Hs, result_ok.
        eexists _, _, _. split; [done|]. eapply cancel_frees; [eapply thread_after, thread_after; exact Ht|exact Hs|exact Ho]. }
    destruct Hx as (k & Hk5 & Hx). exists (S k). split; [lia|]. eapply run_step; [exact Ht|]. intros ok. cbn [CallBridge.frame_step end_step]. rewrite Hs, result_ok.
    eexists _, _, _. split; [done|]. apply Hx.
  - exists 5%nat. split; [lia|]. eapply run_step; [exact Ht|]. intros ok. cbn [CallBridge.frame_step end_step]. rewrite Hs, result_ok. eexists _, _, _. split; [done|].
    eapply cancel_frees; [by eapply thread_after|exact Hs|exact Ho].
  - exists 4%nat. split; [lia|]. by eapply cancel_frees.
  - exists 3%nat. split; [lia|]. by eapply legs_free.
  - exists 2%nat. split; [lia|]. eapply run_step; [exact Ht|]. intros ok. eexists _, _, _. split; [done|].
    eapply clear_frees; [by eapply thread_after| |exact Ho]. cbn [w_calls]. by destruct (close_same signalLeg mxLeg (w_calls w)) as (_ & -> & _).
  - exists 1%nat. split; [lia|]. by eapply clear_frees.
Qed.
End Safety.
