(* ===== verification/CallCandidates.v ===== *)
(** The candidates of the other side, in every interleaving: while a call
    lives, each one that arrived from the device the call is with is at its leg,
    on the way there or in the queue, exactly once. *)
From S2P Require Import Prelude GoLib ServiceId SignalId RingRTC CallMedia ReceivingDecrypt CallBridge CallSafety.

(** ** Where candidates are *)

Definition log_of (i : nat) (c : Calls) : list (Z * bytes) := map snd (filter (fun p : nat * (Z * bytes) => p.1 = i) (cb_log c)).
(** The candidates of one device. *)
Definition mine (device : Z) (l : list (Z * bytes)) : list bytes := map snd (filter (fun p : Z * bytes => p.1 = device) l).
(** What the leg of a session got. *)
Definition given (c : Calls) (s : signalCallSession) : list bytes :=
  match cs_signalLeg s with Some g => match cb_signalLegs c !! g with Some l => sgl_candidates l | None => [] end | None => [] end.
(** On the way. *)
Definition in_flight (device : Z) (i : nat) (f : frame) : list bytes :=
  match f with
  | Ice_add j _ sdp => if (j =? i)%nat then [sdp] else []
  | Ans_pending j _ l _ | RA_set j _ l _ | RA_pending j _ l => if (j =? i)%nat then mine device l else []
  | _ => []
  end.
Definition flight (device : Z) (i : nat) (F : list frame) : list bytes := concat (map (in_flight device i) F).

Lemma flight_app d i F1 F2 : flight d i (F1 ++ F2) = flight d i F1 ++ flight d i F2.
Proof. unfold flight. by rewrite map_app, concat_app. Qed.
Lemma flight_cons d i f F : flight d i (f :: F) = in_flight d i f ++ flight d i F.
Proof. done. Qed.
Lemma mine_app d l1 l2 : mine d (l1 ++ l2) = mine d l1 ++ mine d l2.
Proof. unfold mine. by rewrite filter_app, map_app. Qed.
Lemma mine_cons d p l : mine d (p :: l) = (if p.1 =? d then [p.2] else []) ++ mine d l.
Proof. unfold mine. rewrite filter_cons. destruct (Z.eqb_spec p.1 d); case_decide; done. Qed.

(** ** Who may give a session its leg *)

Definition pre_leg (i : nat) (f : frame) : bool :=
  match f with
  | Ans_set j _ _ _ | Ans_select j _ | Ans_relays j | Ans_keys j | Ans_leg j | Ans_store j _ _
  | Out_leg j _ | Out_store j _ _ | Out_answer j _ _ | Out_gather j _ | Out_relays j _ | Out_keys j _ | Out_signal j _ | Out_signal_store j _ _ _ => (j =? i)%nat
  | _ => false
  end.
Definition pre_legs (i : nat) (F : list frame) : nat := length (filter (fun f => pre_leg i f = true) F).
Lemma pre_legs_app i F1 F2 : pre_legs i (F1 ++ F2) = (pre_legs i F1 + pre_legs i F2)%nat.
Proof. unfold pre_legs. by rewrite filter_app, length_app. Qed.
Lemma pre_legs_cons i f F : pre_legs i (f :: F) = ((if pre_leg i f then 1 else 0) + pre_legs i F)%nat.
Proof. unfold pre_legs. rewrite filter_cons. destruct (pre_leg i f); case_decide; done. Qed.

(** A leg that was made and not yet stored. *)
Definition store_leg (f : frame) : option nat := match f with Ans_store _ g _ | Out_signal_store _ g _ _ => Some g | _ => None end.
Definition end_call (i : nat) (f : frame) : bool := match f with End j _ _ => (j =? i)%nat | _ => false end.
Definition alive (i : nat) (s : signalCallSession) (F : list frame) : Prop := cs_endOnce s = NotEnded /\ Forall (fun f => end_call i f = false) F.

(** ** The invariant *)

Definition has (c : Calls) (i : nat) (P : signalCallSession -> Prop) : Prop := exists s, cb_sessions c !! i = Some s /\ P s.
Definition incoming_call (s : signalCallSession) : Prop := cs_incoming s = true.
Definition outgoing_call (s : signalCallSession) : Prop := cs_incoming s = false.
(** Candidates can go to the leg. *)
Definition open (s : signalCallSession) : Prop := cs_incoming s = true \/ cs_sourceDevice s <> 0.

Definition cand_ok (c : Calls) (f : frame) : Prop :=
  match f with
  | Ans_lock i _ _ | Ans_set i _ _ _ | Ans_select i _ | Ans_relays i | Ans_keys i | Ans_leg i | Ans_store i _ _ => has c i incoming_call
  | Ans_pending i g _ _ => has c i (fun s => cs_signalLeg s = Some g /\ open s)
  | Out_leg i _ | Out_store i _ _ | Out_answer i _ _ | Out_gather i _ | Out_relays i _ | Out_keys i _ | Out_signal i _ | Out_signal_store i _ _ _ => has c i outgoing_call
  | Ice_lock i _ _ => has c i (fun _ => True)
  | Ice_add i g _ => has c i (fun s => cs_signalLeg s = Some g /\ open s)
  | RA_lock i evt => has c i outgoing_call /\ mi_SourceDeviceID (call_Info evt) <> 0
  | RA_set i (Some g) _ _ | RA_pending i g _ => has c i (fun s => cs_signalLeg s = Some g /\ open s)
  | RA_set i None _ _ => has c i open
  | _ => True
  end.

Definition leg_count (s : signalCallSession) : nat := match cs_signalLeg s with Some _ => 1 | None => 0 end.

Record session_cand (c : Calls) (F : list frame) (i : nat) (s : signalCallSession) : Prop := mkSessionCand {
  sc_once : (pre_legs i F + leg_count s <= if cs_incoming s then (if cs_answering s then 1 else 0) else 1)%nat;
  sc_device : cs_incoming s = false -> cs_answering s = false -> cs_sourceDevice s = 0;
  sc_answered : cs_incoming s = false -> cs_answering s = true -> cs_sourceDevice s <> 0;
  sc_leg g : cs_signalLeg s = Some g -> (g < length (cb_signalLegs c))%nat;
  sc_waiting : alive i s F -> cs_incoming s = false -> cs_sourceDevice s = 0 -> cs_pendingICE s = log_of i c /\ given c s = [] /\ forall d, flight d i F = [];
  sc_open : alive i s F -> cs_sourceDevice s <> 0 ->
    mine (cs_sourceDevice s) (log_of i c) ≡ₚ given c s ++ flight (cs_sourceDevice s) i F ++ mine (cs_sourceDevice s) (cs_pendingICE s)
}.

Record cand_inv (c : Calls) (F : list frame) : Prop := mkCand {
  ca_frames : Forall (cand_ok c) F;
  ca_sessions i s : cb_sessions c !! i = Some s -> session_cand c F i s;
  ca_new i : (length (cb_sessions c) <= i)%nat -> log_of i c = [];
  ca_legs i j s s' g : cb_sessions c !! i = Some s -> cb_sessions c !! j = Some s' -> cs_signalLeg s = Some g -> cs_signalLeg s' = Some g -> i = j;
  ca_store f g : f ∈ F -> store_leg f = Some g ->
    (exists l, cb_signalLegs c !! g = Some l /\ sgl_candidates l = []) /\ forall i s, cb_sessions c !! i = Some s -> cs_signalLeg s <> Some g;
  ca_nodup : NoDup (omap store_leg F)
}.

(** ** Steps that leave candidates alone *)

Definition same_cand (s s' : signalCallSession) : Prop :=
  cs_incoming s' = cs_incoming s /\ cs_sourceDevice s' = cs_sourceDevice s /\ cs_signalLeg s' = cs_signalLeg s /\ cs_pendingICE s' = cs_pendingICE s
  /\ cs_answering s' = cs_answering s /\ (cs_endOnce s' = NotEnded -> cs_endOnce s = NotEnded).
Record same_cands (c c' : Calls) : Prop := mkSameCands {
  sd_length : length (cb_sessions c') = length (cb_sessions c);
  sd_session i s' : cb_sessions c' !! i = Some s' -> exists s, cb_sessions c !! i = Some s /\ same_cand s s';
  sd_log : cb_log c' = cb_log c;
  sd_legs : sgl_candidates <$> cb_signalLegs c' = sgl_candidates <$> cb_signalLegs c
}.

Lemma same_cand_refl s : same_cand s s.
Proof. by repeat split. Qed.

#[local] Instance same_cands_preorder : PreOrder same_cands.
Proof.
  split; [intros c; split; try done; eauto using same_cand_refl|]. intros c1 c2 c3 [A1 A2 A3 A4] [B1 B2 B3 B4]. split; try congruence.
  intros i s3 H3. destruct (B2 _ _ H3) as (s2 & H2 & E2). destruct (A2 _ _ H2) as (s1 & H1 & E1). exists s1. split; [done|].
  unfold same_cand in *. destruct_and!. split_and!; try congruence. auto.
Qed.

Lemma sd_lookup c c' i s : same_cands c c' -> cb_sessions c !! i = Some s -> exists s', cb_sessions c' !! i = Some s' /\ same_cand s s'.
Proof.
  intros Hs H. destruct (lookup_lt_is_Some_2 (cb_sessions c') i) as [s' H']; [rewrite (sd_length _ _ Hs); by eapply lookup_lt_Some|].
  destruct (sd_session _ _ Hs _ _ H') as (s0 & H0 & E). exists s'. rewrite H in H0. by injection H0 as <-.
Qed.
Lemma sd_candidates c c' g : same_cands c c' -> sgl_candidates <$> cb_signalLegs c' !! g = sgl_candidates <$> cb_signalLegs c !! g.
Proof. intros Hs. by rewrite <- !list_lookup_fmap, (sd_legs _ _ Hs). Qed.
Lemma sd_legs_length c c' : same_cands c c' -> length (cb_signalLegs c') = length (cb_signalLegs c).
Proof. intros Hs. pose proof (f_equal length (sd_legs _ _ Hs)) as H. by rewrite !length_fmap in H. Qed.
Lemma sd_given c c' s s' : same_cands c c' -> same_cand s s' -> given c' s' = given c s.
Proof.
  intros Hs (_ & _ & E & _). unfold given. rewrite E. destruct (cs_signalLeg s) as [g|]; [|done]. pose proof (sd_candidates c c' g Hs) as H.
  destruct (cb_signalLegs c' !! g), (cb_signalLegs c !! g); cbn in H; congruence.
Qed.

(** Frames only need their session to be of the right kind, with its leg. *)
Definition keeps_kind (c c' : Calls) : Prop := forall i s, cb_sessions c !! i = Some s -> exists s', cb_sessions c' !! i = Some s'
  /\ cs_incoming s' = cs_incoming s /\ (forall g, cs_signalLeg s = Some g -> cs_signalLeg s' = Some g) /\ (open s -> open s').
Lemma keeps_cand_ok c c' f : keeps_kind c c' -> cand_ok c f -> cand_ok c' f.
Proof.
  intros Hk. assert (Hin : forall i P, (forall s s', cs_incoming s' = cs_incoming s -> (forall g, cs_signalLeg s = Some g -> cs_signalLeg s' = Some g) -> (open s -> open s') -> P s -> P s') -> has c i P -> has c' i P).
  { intros i P HP (s & Hs & Hp). destruct (Hk _ _ Hs) as (s' & Hs' & E1 & E2 & E3). exists s'. split; [done|]. by eapply HP. }
  destruct f; cbn; try done; try (apply Hin; unfold incoming_call, outgoing_call; intros; destruct_and?; split_and?; by auto || congruence);
    try (intros [Hx Hy]; split; [|done]; revert Hx; apply Hin; unfold outgoing_call; congruence).
  destruct leg; apply Hin; intros; destruct_and?; split_and?; auto.
Qed.
Lemma same_keeps c c' : same_cands c c' -> keeps_kind c c'.
Proof.
  intros Hs i s H. destruct (sd_lookup _ _ _ _ Hs H) as (s' & H' & E). exists s'. unfold same_cand, open in *. destruct_and!. split_and!; congruence.
Qed.

Definition no_cands (F : list frame) : Prop := forall d i, flight d i F = [].
Record neutral (f : frame) (fs : list frame) : Prop := mkNeutral {
  ne_frame : no_cands [f];
  ne_frames : no_cands fs;
  ne_pre i : (pre_legs i fs <= pre_legs i [f])%nat;
  ne_store : omap store_leg fs = []
}.

Lemma store_leg_none fs : omap store_leg fs = [] -> forall f g, f ∈ fs -> store_leg f <> Some g.
Proof. intros H f g Hf Hg. assert (Hx : g ∈ omap store_leg fs) by (apply list_elem_of_omap; eauto). rewrite H in Hx. set_solver. Qed.

(** A session is alive before a step if it is afterwards. *)
Definition dies (c' : Calls) (f : frame) : Prop := forall i s', end_call i f = true -> cb_sessions c' !! i = Some s' -> cs_endOnce s' <> NotEnded.
Lemma alive_before c' f fs F i s s' : dies c' f -> cb_sessions c' !! i = Some s' -> (cs_endOnce s' = NotEnded -> cs_endOnce s = NotEnded) -> alive i s' (fs ++ F) -> alive i s (f :: F).
Proof.
  intros Hd Hs' He [H1 [_ H2]%Forall_app]. split; [auto|]. constructor; [|done]. destruct (end_call i f) eqn:E; [|done]. by destruct (Hd _ _ E Hs').
Qed.

Lemma cands_neutral c c' f fs F : cand_inv c (f :: F) -> same_cands c c' -> neutral f fs -> dies c' f -> Forall (cand_ok c') fs -> cand_inv c' (fs ++ F).
Proof.
  intros [H1 H2 H3 H4 H5 H6] Hs [N1 N2 N3 N4] Hd Hok.
  assert (EF : forall d i, flight d i (fs ++ F) = flight d i (f :: F)).
  { intros d i. rewrite flight_app, N2. change (f :: F) with ([f] ++ F). by rewrite flight_app, N1. }
  split.
  - apply Forall_app. split; [done|]. apply Forall_cons in H1 as [_ H1]. eapply Forall_impl; [exact H1|]. intros g. by apply keeps_cand_ok, same_keeps.
  - intros i s' Hs'. destruct (sd_session _ _ Hs _ _ Hs') as (s & Hi & E). destruct (H2 _ _ Hi) as [K1 K2 K3 K4 K5 K6]. pose proof (sd_given _ _ _ _ Hs E) as Eg.
    assert (Ha : alive i s' (fs ++ F) -> alive i s (f :: F)) by (apply (alive_before c'); [done|done|by destruct E as (_ & _ & _ & _ & _ & ?)]).
    assert (El : log_of i c' = log_of i c) by (unfold log_of; by rewrite (sd_log _ _ Hs)).
    destruct E as (E1 & E2 & E3 & E4 & E5 & _). split; rewrite ?E1, ?E2, ?E3, ?E4, ?E5, ?El, ?Eg; [|done|done| | |].
    + unfold leg_count. rewrite E3. specialize (N3 i). change (f :: F) with ([f] ++ F) in K1. rewrite pre_legs_app in *. unfold leg_count in K1. lia.
    + intros g. rewrite (sd_legs_length _ _ Hs). apply K4.
    + intros Hal Hin Hsrc. destruct (K5 (Ha Hal) Hin Hsrc) as (? & ? & Hf). split_and!; [done..|]. intros d. by rewrite EF.
    + intros Hal Hsrc. rewrite EF. by apply K6; [apply Ha|].
  - intros i. rewrite (sd_length _ _ Hs). intros Hi. unfold log_of. rewrite (sd_log _ _ Hs). by apply H3.
  - intros i j s1 s2 g Hi Hj. destruct (sd_session _ _ Hs _ _ Hi) as (t1 & Hi' & E1). destruct (sd_session _ _ Hs _ _ Hj) as (t2 & Hj' & E2).
    destruct E1 as (_ & _ & -> & _). destruct E2 as (_ & _ & -> & _). by eapply H4.
  - intros h g Hh Hg. apply elem_of_app in Hh as [Hh|Hh]; [by destruct (store_leg_none _ N4 _ _ Hh Hg)|]. destruct (H5 h g) as [(l & Hl & Hl') Hn]; [set_solver|done|]. split.
    + pose proof (sd_candidates c c' g Hs) as Hc. rewrite Hl in Hc. destruct (cb_signalLegs c' !! g) as [l'|]; [|done]. exists l'. cbn in Hc. split; [done|congruence].
    + intros i s' Hi. destruct (sd_session _ _ Hs _ _ Hi) as (t1 & Hi' & E1). destruct E1 as (_ & _ & -> & _). by eapply Hn.
  - rewrite omap_app, N4. cbn. cbn in H6. destruct (store_leg f); [by apply NoDup_cons in H6 as [_ H6]|done].
Qed.

Section Candidates.
Context `{U : UUIDLib} `{L : WireLib} (SendsVideo : bytes -> bool).
#[local] Abbreviation frame_step := (frame_step SendsVideo).
#[local] Abbreviation reach := (reach SendsVideo).

Definition keeps_cand (f : signalCallSession -> signalCallSession) : Prop := forall s, same_cand s (f s).
Lemma cands_update c i f : keeps_cand f -> same_cands c (update_session i f c).
Proof.
  intros Hf. split; [apply length_alter| |done|done]. intros j s' H. cbn in H. apply alter_lookup_inv in H as [(-> & s & H & ->)|[_ H]]; eauto using same_cand_refl.
Qed.
Lemma cands_same c c' : cb_sessions c' = cb_sessions c -> cb_log c' = cb_log c -> cb_signalLegs c' = cb_signalLegs c -> same_cands c c'.
Proof. intros H1 H2 H3. split; rewrite ?H1, ?H2, ?H3; eauto using same_cand_refl. Qed.
Lemma cands_close g c : same_cands c (close_signal_leg g c).
Proof.
  split; try done; [eauto using same_cand_refl|]. cbn. apply list_eq. intros j. rewrite !list_lookup_fmap. destruct (decide (g = j)) as [->|Hn].
  - rewrite list_lookup_alter_eq. by destruct (cb_signalLegs c !! j).
  - by rewrite list_lookup_alter_ne.
Qed.
(** [End] and [End_clear] on a session. *)
Lemma cands_end c i s o : cb_sessions c !! i = Some s -> (o = NotEnded -> cs_endOnce s = NotEnded) -> same_cands c (update_session i (set_endOnce o) c).
Proof.
  intros Hs Ho. split; [apply length_alter| |done|done]. intros j s' H. cbn in H. apply alter_lookup_inv in H as [(-> & s0 & H & ->)|[_ H]]; [|eauto using same_cand_refl].
  rewrite Hs in H. injection H as <-. exists s. split; [done|]. by repeat split.
Qed.
Lemma cands_cleared c i s o a : cb_sessions c !! i = Some s -> (o = NotEnded -> cs_endOnce s = NotEnded) -> same_cands c (set_active a (update_session i (set_endOnce o) c)).
Proof. intros Hs Ho. by destruct (cands_end _ _ _ _ Hs Ho). Qed.

(** The frames whose steps move candidates, legs or sessions. *)
Definition moving (c : Calls) (f : frame) : bool :=
  match f with
  | In_claim _ _ _ _ | Out_claim _ _ _ => match cb_active c with None => true | Some _ => false end
  | Out_signal _ _ | Out_signal_store _ _ _ _ | Ans_lock _ _ _ | Ans_leg _ | Ans_store _ _ _ | Ans_pending _ _ (_ :: _) _
  | Ice_lock _ _ _ | Ice_add _ _ _ | RA_lock _ _ | RA_set _ _ _ _ | RA_pending _ _ (_ :: _) => true
  | _ => false
  end.

Ltac cands :=
  first [ reflexivity | by apply cands_same | (apply cands_update; intros ?; by repeat split) | (eapply cands_end; [eassumption|congruence]) ].
Ltac neut := split; [intros ? ?; reflexivity|intros ? ?; reflexivity|intros ?; cbn [app concat]; rewrite ?pre_legs_cons; cbn [pre_leg]; lia|reflexivity].

Lemma step_same f ch c c' fs new : frame_step f ch c = Some (c', fs, new) -> moving c f = false -> same_cands c c'.
Proof.
  intros H Hm. destruct f; try done; cbn [moving] in Hm; try (destruct pending; [|done]); step_cases H; try cands.
  - destruct signalLeg as [g|], mxLeg as [g'|]; cbn; try reflexivity; [etransitivity; [|apply cands_close]|apply cands_close|]; by apply cands_same.
  - by eapply cands_cleared.
  - by eapply cands_cleared.
  - by eapply cands_cleared.
Qed.

Lemma step_dies f ch c c' fs new : frame_step f ch c = Some (c', fs, new) -> dies c' f.
Proof.
  intros H i s' Hf Hs'. destruct f; try done. apply Nat.eqb_eq in Hf as ->. cbn in H. unfold goto in H.
  destruct (cb_sessions c !! i) as [s|] eqn:E; [|done]. destruct (cs_endOnce s) eqn:Eo; [|done|].
  - injection H as <- _ _. cbn in Hs'. rewrite list_lookup_alter_eq, E in Hs'. by injection Hs' as <-.
  - injection H as <- _ _. congruence.
Qed.

Definition plain (fs : list frame) : Prop := no_cands fs /\ (forall i, pre_legs i fs = 0%nat) /\ omap store_leg fs = [].
Lemma plain_app fs1 fs2 : plain fs1 -> plain fs2 -> plain (fs1 ++ fs2).
Proof.
  intros (A1 & A2 & A3) (B1 & B2 & B3). split_and!; [intros d i; by rewrite flight_app, A1, B1|intros i; by rewrite pre_legs_app, A2, B2|by rewrite omap_app, A3, B3].
Qed.
Lemma plain_neutral f fs : no_cands [f] -> plain fs -> neutral f fs.
Proof. intros Hf (H1 & H2 & H3). split; [done|done|intros i; rewrite H2; lia|done]. Qed.
Ltac plain := split_and!; [intros ? ?; reflexivity|intros ?; cbn [app concat]; rewrite ?pre_legs_cons; reflexivity|reflexivity].
Lemma relays_plain i s : plain (relays i s).
Proof. unfold relays. destruct (video_call s); plain. Qed.
Lemma after_plain i r : plain (after_signal i r).
Proof. unfold after_signal. case_bool_decide; plain. Qed.
Lemma no_pending i (f : frame) : (forall d j, in_flight d j f = if (i =? j)%nat then mine d [] else []) -> no_cands [f].
Proof. intros H d j. unfold flight. cbn. rewrite H. by destruct (i =? j)%nat. Qed.

Lemma step_neutral f ch c c' fs new : frame_step f ch c = Some (c', fs, new) -> moving c f = false -> neutral f (fs ++ concat new).
Proof.
  intros H Hm. destruct f; try done; cbn [moving] in Hm; try (destruct pending; [|done]); step_cases H; try neut; apply plain_neutral;
    try (intros ? ?; reflexivity); try (by apply (no_pending i)); try (apply plain_app; [apply relays_plain || apply after_plain|plain]); plain.
Qed.

Lemma same_has c c' i P : same_cands c c' -> (forall s s', same_cand s s' -> P s -> P s') -> has c i P -> has c' i P.
Proof. intros Hs HP (s & H & Hp). destruct (sd_lookup _ _ _ _ Hs H) as (s' & H' & E). exists s'. eauto. Qed.
Lemma has_incoming c c' i : same_cands c c' -> has c i incoming_call -> has c' i incoming_call.
Proof. intros Hs. apply (same_has _ _ _ _ Hs). unfold same_cand, incoming_call. intros ? ? (? & _). congruence. Qed.
Lemma has_outgoing c c' i : same_cands c c' -> has c i outgoing_call -> has c' i outgoing_call.
Proof. intros Hs. apply (same_has _ _ _ _ Hs). unfold same_cand, outgoing_call. intros ? ? (? & _). congruence. Qed.

Lemma relays_ok c i s : Forall (cand_ok c) (relays i s).
Proof. unfold relays. destruct (video_call s); by repeat constructor. Qed.
Lemma after_ok c i r : Forall (cand_ok c) (after_signal i r).
Proof. unfold after_signal. case_bool_decide; by repeat constructor. Qed.

Lemma step_cand_ok f ch c c' fs new : frame_step f ch c = Some (c', fs, new) -> moving c f = false -> cand_ok c f -> Forall (cand_ok c') (fs ++ concat new).
Proof.
  intros H Hm Hok. pose proof (step_same _ _ _ _ _ _ H Hm) as Hs.
  destruct f; try done; cbn [moving cand_ok] in Hm, Hok; try (destruct pending; [|done]); step_cases H; cbn [concat app];
    try (by repeat constructor); try (constructor; [|constructor]; cbn; first [by eapply has_incoming | by eapply has_outgoing]).
  - apply Forall_app. split; [apply relays_ok|by repeat constructor].
  - apply active_session_active in H0 as [_ H0]. constructor; [|constructor]. cbn. unfold has. eauto.
  - apply active_session_active in H0 as [_ H0].
    match goal with E : _ && _ && _ = true |- _ => apply andb_true_iff in E as [[E1 _]%andb_true_iff E2] end.
    constructor; [|constructor]. cbn. split; [eexists; split; [done|by apply negb_true_iff in E1]|by apply negb_true_iff, Z.eqb_neq in E2].
  - rewrite app_nil_r. apply relays_ok.
  - rewrite app_nil_r. apply after_ok.
  - rewrite app_nil_r. apply after_ok.
  - rewrite app_nil_r. apply after_ok.
Qed.

(** ** Steps that concern the candidates of one session *)

(** A frame that belongs to session [i]. *)
Definition only (i : nat) (fs : list frame) : Prop := forall j, j <> i -> (forall d, flight d j fs = []) /\ pre_legs j fs = 0%nat.

Lemma cands_one i c c' f fs F s s' :
  cand_inv c (f :: F) -> dies c' f ->
  cb_sessions c !! i = Some s -> cb_sessions c' = <[i := s']> (cb_sessions c) ->
  cs_incoming s' = cs_incoming s -> (open s -> open s') ->
  (forall j, j <> i -> log_of j c' = log_of j c) ->
  (forall g, cs_signalLeg s = Some g -> cs_signalLeg s' = Some g) -> (forall g, cs_signalLeg s' = Some g -> cs_signalLeg s = Some g \/ store_leg f = Some g) ->
  (length (cb_signalLegs c) <= length (cb_signalLegs c'))%nat ->
  (forall g, (g < length (cb_signalLegs c))%nat -> cs_signalLeg s' <> Some g -> cb_signalLegs c' !! g = cb_signalLegs c !! g) ->
  only i [f] -> only i fs ->
  (forall h g, h ∈ fs -> store_leg h = Some g -> g = length (cb_signalLegs c) /\ exists l, cb_signalLegs c' !! g = Some l /\ sgl_candidates l = []) ->
  NoDup (omap store_leg fs) ->
  session_cand c' (fs ++ F) i s' -> Forall (cand_ok c') fs -> cand_inv c' (fs ++ F).
Proof.
  intros [H1 H2 H3 H4 H5 H6] Hd Hs Hss Hin Hop Hlog Hleg Hleg' Hlen Hlegs Of Ofs Hst Hnd Hi Hok.
  assert (Hlk : forall j, j <> i -> cb_sessions c' !! j = cb_sessions c !! j) by (intros j Hj; rewrite Hss; by apply list_lookup_insert_ne).
  assert (Hii : cb_sessions c' !! i = Some s') by (rewrite Hss; apply list_lookup_insert_eq; by eapply lookup_lt_Some).
  assert (Hk : keeps_kind c c').
  { intros j t Hj. destruct (decide (j = i)) as [->|Hn]; [|rewrite Hlk by done; exists t; by eauto]. rewrite Hs in Hj. injection Hj as <-. exists s'. auto. }
  assert (Hfree : forall j t g, j <> i -> cb_sessions c !! j = Some t -> cs_signalLeg t = Some g -> cs_signalLeg s' <> Some g).
  { intros j t g Hn Hj Hg Hx. destruct (Hleg' _ Hx) as [Hy|Hy]; [by destruct Hn; eapply H4|]. destruct (H5 f g) as [_ Hz]; [set_solver|done|]. by destruct (Hz _ _ Hj). }
  split.
  - apply Forall_app. split; [done|]. apply Forall_cons in H1 as [_ H1]. eapply Forall_impl; [exact H1|]. intros h. by apply keeps_cand_ok.
  - intros j t Hj. destruct (decide (j = i)) as [->|Hn]; [by simplify_eq|]. pose proof Hj as Hj'. rewrite Hlk in Hj' by done. destruct (H2 _ _ Hj') as [K1 K2 K3 K4 K5 K6].
    destruct (Of j Hn) as [Of1 Of2], (Ofs j Hn) as [Of3 Of4].
    assert (EF : forall d, flight d j (fs ++ F) = flight d j (f :: F)) by (intros d; change (f :: F) with ([f] ++ F); by rewrite !flight_app, Of1, Of3).
    assert (Eg : given c' t = given c t).
    { unfold given. destruct (cs_signalLeg t) as [g|] eqn:Eg; [|done]. rewrite Hlegs; [done|by eauto|by eapply Hfree]. }
    assert (Ha : alive j t (fs ++ F) -> alive j t (f :: F)) by (by apply (alive_before c')).
    split; rewrite ?Hlog, ?Eg by done; [|done|done|intros g Hg; specialize (K4 g Hg); lia| |].
    + change (f :: F) with ([f] ++ F) in K1. rewrite pre_legs_app in *. lia.
    + intros Hal Hx Hy. destruct (K5 (Ha Hal) Hx Hy) as (? & ? & Hf). split_and!; [done..|]. intros d. by rewrite EF.
    + intros Hal Hx. rewrite EF. by apply K6; [apply Ha|].
  - intros j Hj. rewrite Hss, length_insert in Hj. rewrite Hlog; [by apply H3|]. intros ->. apply lookup_lt_Some in Hs. lia.
  - intros j k t1 t2 g Hj Hk' Hg1 Hg2. destruct (decide (j = i)) as [->|Hn], (decide (k = i)) as [->|Hn']; [done|..].
    + rewrite Hii in Hj. injection Hj as <-. rewrite Hlk in Hk' by done. by destruct (Hfree _ _ _ Hn' Hk' Hg2).
    + rewrite Hii in Hk'. injection Hk' as <-. rewrite Hlk in Hj by done. by destruct (Hfree _ _ _ Hn Hj Hg1).
    + rewrite Hlk in Hj, Hk' by done. by eapply H4.
  - intros h g Hh Hg. apply elem_of_app in Hh as [Hh|Hh].
    + destruct (Hst h g Hh Hg) as [-> Hl]. split; [done|]. intros j t Hj Hx. destruct (decide (j = i)) as [->|Hn].
      * rewrite Hii in Hj. injection Hj as <-. destruct (Hleg' _ Hx) as [Hy|Hy]; [destruct (H2 _ _ Hs) as [_ _ _ K4 _ _]; specialize (K4 _ Hy); lia|].
        destruct (H5 f (length (cb_signalLegs c))) as [(l & Hl' & _) _]; [set_solver|done|]. apply lookup_lt_Some in Hl'. lia.
      * rewrite Hlk in Hj by done. destruct (H2 _ _ Hj) as [_ _ _ K4 _ _]. specialize (K4 _ Hx). lia.
    + destruct (H5 h g) as [(l & Hl & Hl') Hn]; [set_solver|done|].
      assert (Hng : cs_signalLeg s' <> Some g).
      { intros Hx. destruct (Hleg' _ Hx) as [Hy|Hy]; [by destruct (Hn _ _ Hs)|]. cbn in H6. rewrite Hy in H6. apply NoDup_cons in H6 as [H6 _]. apply H6.
        apply list_elem_of_omap. eauto. }
      split; [exists l; rewrite Hlegs; [done|by eapply lookup_lt_Some|done]|]. intros j t Hj. destruct (decide (j = i)) as [->|Hnj]; [rewrite Hii in Hj; by injection Hj as <-|].
      rewrite Hlk in Hj by done. by eapply Hn.
  - rewrite omap_app. apply NoDup_app. split_and!; [done| |].
    + intros g Hg Hg'. apply list_elem_of_omap in Hg as (h & Hh & Hg). destruct (Hst _ _ Hh Hg) as [-> _]. apply list_elem_of_omap in Hg' as (h' & Hh' & Hg').
      destruct (H5 h' (length (cb_signalLegs c))) as [(l & Hl' & _) _]; [set_solver|done|]. apply lookup_lt_Some in Hl'. lia.
    + cbn in H6. destruct (store_leg f); [by apply NoDup_cons in H6 as [_ H6]|done].
Qed.

Ltac only_i i := let j := fresh "j" in let Hj := fresh "Hj" in intros j Hj; split; [intros ?; unfold flight; cbn [map concat in_flight app]; rewrite ?(proj2 (Nat.eqb_neq i j)) by done; done
  |rewrite ?pre_legs_cons; cbn [pre_leg]; rewrite ?(proj2 (Nat.eqb_neq i j)) by done; done].

Lemma alter_insert {A} (f : A -> A) i (l : list A) x : l !! i = Some x -> alter f i l = <[i := f x]> l.
Proof.
  intros H. apply list_eq. intros j. destruct (decide (i = j)) as [->|Hn].
  - rewrite list_lookup_alter_eq, list_lookup_insert_eq by (by eapply lookup_lt_Some). by rewrite H.
  - by rewrite list_lookup_alter_ne, list_lookup_insert_ne.
Qed.
Lemma insert_self {A} i (l : list A) x : l !! i = Some x -> l = <[i := x]> l.
Proof. intros H. by rewrite list_insert_id. Qed.

Lemma log_add i j p c : log_of j (add_log (i, p) c) = if (i =? j)%nat then log_of j c ++ [p] else log_of j c.
Proof.
  unfold log_of. cbn. rewrite filter_app, map_app, filter_cons. cbn. destruct (Nat.eqb_spec i j); case_decide; try done. by rewrite app_nil_r.
Qed.

(** Nothing is on the way for a session that does not exist. *)
Lemma no_session c F i : Forall (cand_ok c) F -> cb_sessions c !! i = None -> (forall d, flight d i F = []) /\ pre_legs i F = 0%nat.
Proof.
  intros H Hn. induction H as [|f F Hf HF [IH1 IH2]]; [done|].
  assert (Hx : forall P, ~ has c i P) by (intros P (s & Hs & _); congruence).
  assert (Hb : (forall d, in_flight d i f = []) /\ pre_leg i f = false).
  { destruct f; cbn in Hf |- *; try done; try destruct leg; try (destruct (Nat.eqb_spec i0 i) as [->|]; [exfalso; first [exact (Hx _ Hf) | exact (Hx _ (proj1 Hf))]|done]). }
  destruct Hb as [Hb1 Hb2]. split; [intros d; by rewrite flight_cons, Hb1, IH1|by rewrite pre_legs_cons, Hb2, IH2].
Qed.

(** [AddRemoteCandidate] on the leg of a session. *)
Lemma given_add c s g sdp : cs_signalLeg s = Some g -> (g < length (cb_signalLegs c))%nat -> given (AddRemoteCandidate g sdp c) s = given c s ++ [sdp].
Proof.
  intros Hg Hl. unfold given. rewrite Hg. cbn. rewrite list_lookup_alter_eq. destruct (lookup_lt_is_Some_2 _ _ Hl) as [l ->]. done.
Qed.
Lemma add_other c g g' sdp : g <> g' -> cb_signalLegs (AddRemoteCandidate g sdp c) !! g' = cb_signalLegs c !! g'.
Proof. intros H. cbn. by rewrite list_lookup_alter_ne. Qed.

(** The frame at the top hands candidates to the leg. *)
Lemma cands_add i c f F s g sdp : cand_inv c (f :: F) -> cb_sessions c !! i = Some s -> cs_signalLeg s = Some g -> open s ->
  only i [f] -> dies c f -> store_leg f = None -> pre_leg i f = false -> forall fs, only i fs -> pre_legs i fs = 0%nat -> omap store_leg fs = [] -> Forall (cand_ok c) fs ->
  (cs_sourceDevice s <> 0 -> in_flight (cs_sourceDevice s) i f ≡ₚ sdp :: flight (cs_sourceDevice s) i fs) ->
  cand_inv (AddRemoteCandidate g sdp c) (fs ++ F).
Proof.
  intros H Hs Hg Hop Of Hd Hst Hpre fs Ofs Hpf Hstf Hok Hfl. pose proof (ca_sessions _ _ H _ _ Hs) as [K1 K2 K3 K4 K5 K6].
  eapply (cands_one i) with (s := s) (s' := s); [exact H|done|exact Hs|by apply insert_self|done|done|done|done|auto| | |exact Of|exact Ofs| | | |].
  - cbn. by rewrite length_alter.
  - intros g' Hl Hn. apply add_other. congruence.
  - intros h g' Hh Hx. by destruct (store_leg_none _ Hstf _ _ Hh Hx).
  - rewrite Hstf. constructor.
  - assert (Ha : alive i s (fs ++ F) -> alive i s (f :: F)) by (by apply (alive_before c)).
    split; [|done|done| | |].
    + rewrite pre_legs_cons, Hpre in K1. rewrite pre_legs_app, Hpf. lia.
    + intros g' Hx. cbn. rewrite length_alter. auto.
    + intros _ Hin Hsrc. unfold open in Hop. destruct Hop; congruence.
    + intros Hal Hsrc. change (log_of i (AddRemoteCandidate g sdp c)) with (log_of i c). rewrite (K6 (Ha Hal) Hsrc), flight_cons, (Hfl Hsrc), flight_app, (given_add _ _ g) by auto.
      solve_Permutation.
  - eapply Forall_impl; [exact Hok|]. intros h. apply keeps_cand_ok. intros j t Hj. exists t. auto.
Qed.

(** Only the frame changes: what it had on the way it keeps, or the call ends. *)
Lemma cands_frame i c f F fs s : cand_inv c (f :: F) -> cb_sessions c !! i = Some s -> only i [f] -> only i fs -> dies c f ->
  (pre_legs i fs <= pre_legs i [f])%nat -> omap store_leg fs = [] -> Forall (cand_ok c) fs ->
  (forall d, in_flight d i f = [] -> flight d i fs = []) -> (cs_sourceDevice s <> 0 -> alive i s (fs ++ F) -> flight (cs_sourceDevice s) i fs ≡ₚ in_flight (cs_sourceDevice s) i f) ->
  cand_inv c (fs ++ F).
Proof.
  intros H Hs Of Ofs Hd Hpre Hst Hok Hfl0 Hfl. pose proof (ca_sessions _ _ H _ _ Hs) as [K1 K2 K3 K4 K5 K6].
  eapply (cands_one i) with (s := s) (s' := s); [exact H|done|exact Hs|by apply insert_self|done..|auto|done|done|exact Of|exact Ofs| | | |exact Hok].
  - intros h g Hh Hx. by destruct (store_leg_none _ Hst _ _ Hh Hx).
  - rewrite Hst. constructor.
  - assert (Ha : alive i s (fs ++ F) -> alive i s (f :: F)) by (by apply (alive_before c)).
    split; [|done..| |].
    + change (f :: F) with ([f] ++ F) in K1. rewrite pre_legs_app in *. lia.
    + intros Hal Hin Hsrc. destruct (K5 (Ha Hal) Hin Hsrc) as (? & ? & Hx). split_and!; [done..|]. intros d. specialize (Hx d). rewrite flight_cons in Hx.
      apply app_eq_nil in Hx as [Hx1 Hx2]. by rewrite flight_app, Hx2, Hfl0.
    + intros Hal Hsrc. rewrite (K6 (Ha Hal) Hsrc), flight_cons, flight_app. by rewrite (Hfl Hsrc Hal).
Qed.

Lemma cands_pending i c f F s g p l fs : cand_inv c (f :: F) -> cb_sessions c !! i = Some s -> cs_signalLeg s = Some g -> open s ->
  only i [f] -> dies c f -> store_leg f = None -> pre_leg i f = false -> only i fs -> pre_legs i fs = 0%nat -> omap store_leg fs = [] -> Forall (cand_ok c) fs ->
  (forall d, in_flight d i f = mine d (p :: l)) -> (forall d, flight d i fs = mine d l) -> cand_inv (add_pending g p s c) (fs ++ F).
Proof.
  intros H Hs Hg Hop Of Hd Hst Hpre Ofs Hpf Hstf Hok E1 E2. unfold add_pending. destruct (p.1 =? cs_sourceDevice s) eqn:E.
  - eapply (cands_add i); try done. intros _. by rewrite E1, E2, mine_cons, E.
  - eapply (cands_frame i); try done.
    + rewrite Hpf. lia.
    + intros d. rewrite E1, E2, mine_cons. by intros [_ ?]%app_eq_nil.
    + intros _ _. by rewrite E1, E2, mine_cons, E.
Qed.

Lemma cands_new c f F fs s : cand_inv c (f :: F) -> plain [f] -> dies (new_session s c) f -> cs_signalLeg s = None -> cs_pendingICE s = [] -> cs_answering s = false ->
  (cs_incoming s = false -> cs_sourceDevice s = 0) -> no_cands fs -> omap store_leg fs = [] ->
  (forall i, (pre_legs i fs <= if (i =? length (cb_sessions c))%nat && negb (cs_incoming s) then 1 else 0)%nat) -> Forall (cand_ok (new_session s c)) fs ->
  cand_inv (new_session s c) (fs ++ F).
Proof.
  intros [H1 H2 H3 H4 H5 H6] (P1 & P2 & P3) Hd Hsl Hp Han Hsrc Hnc Hst Hpre Hok. set (n := length (cb_sessions c)) in *.
  assert (Hnew : cb_sessions (new_session s c) !! n = Some s) by (cbn; by rewrite lookup_app_r, Nat.sub_diag).
  assert (Hlk : forall j t, cb_sessions (new_session s c) !! j = Some t -> (cb_sessions c !! j = Some t /\ j <> n) \/ (j = n /\ t = s)).
  { intros j t. cbn. intros [Hj|[Hl Hj]]%lookup_app_Some; [left; split; [done|apply lookup_lt_Some in Hj; unfold n; lia]|].
    apply list_lookup_singleton_Some in Hj as [Hj <-]. right. split; [unfold n; lia|done]. }
  assert (EF : forall d j, flight d j (fs ++ F) = flight d j (f :: F)) by (intros d j; change (f :: F) with ([f] ++ F); by rewrite !flight_app, P1, Hnc).
  apply Forall_cons in H1 as [_ H1]. split.
  - apply Forall_app. split; [done|]. eapply Forall_impl; [exact H1|]. intros h. apply keeps_cand_ok. intros j t Hj. exists t. split; [by apply lookup_app_l_Some|auto].
  - intros j t Hj. destruct (Hlk _ _ Hj) as [[Hj' Hn]|[-> ->]].
    + destruct (H2 _ _ Hj') as [K1 K2 K3 K4 K5 K6]. assert (Ha : alive j t (fs ++ F) -> alive j t (f :: F)) by (by apply (alive_before (new_session s c))).
      split; [|done|done|done| |].
      * specialize (Hpre j). rewrite (proj2 (Nat.eqb_neq j n)) in Hpre by done. change (f :: F) with ([f] ++ F) in K1. rewrite pre_legs_app in *. cbn in Hpre. lia.
      * intros Hal Hx Hy. destruct (K5 (Ha Hal) Hx Hy) as (? & ? & Hf). split_and!; [done..|]. intros d. by rewrite EF.
      * intros Hal Hx. rewrite EF. by apply K6; [apply Ha|].
    + destruct (no_session c F n H1) as [F1 F2]; [by apply lookup_ge_None_2|]. assert (El : log_of n c = []) by (by apply H3).
      specialize (Hpre n). rewrite Nat.eqb_refl in Hpre. split; [|by auto|by rewrite Han| | |].
      * rewrite pre_legs_app, F2. unfold leg_count. rewrite Hsl, Han. destruct (cs_incoming s); cbn in Hpre; lia.
      * intros g. by rewrite Hsl.
      * intros _ _ _. rewrite Hp. unfold given. rewrite Hsl. split_and!; [by symmetry|done|]. intros d. by rewrite flight_app, Hnc, F1.
      * intros _ _. change (log_of n (new_session s c)) with (log_of n c). rewrite El, Hp. unfold given. rewrite Hsl. by rewrite flight_app, Hnc, F1.
  - intros j. cbn. rewrite length_app. cbn. intros Hj. apply H3. lia.
  - intros j k t1 t2 g Hj Hk Hg1 Hg2. destruct (Hlk _ _ Hj) as [[Hj' Hn]|[-> ->]], (Hlk _ _ Hk) as [[Hk' Hn']|[-> ->]]; [by eapply H4|congruence..].
  - intros h g Hh Hg. apply elem_of_app in Hh as [Hh|Hh]; [by destruct (store_leg_none _ Hst _ _ Hh Hg)|]. destruct (H5 h g) as [Hl Hn]; [set_solver|done|]. split; [done|].
    intros j t Hj. destruct (Hlk _ _ Hj) as [[Hj' _]|[-> ->]]; [by eapply Hn|congruence].
  - rewrite omap_app, Hst. cbn. cbn in H6. destruct (store_leg f); [by apply NoDup_cons in H6 as [_ H6]|done].
Qed.

(** *** The moving steps *)

Lemma move_lock c F i sdp party s : cand_inv c (Ans_lock i sdp party :: F) -> cb_sessions c !! i = Some s -> cs_answering s = false ->
  cand_inv (update_session i (set_answering (cs_sourceDevice s) (cs_pendingICE s)) c) ([Ans_set i (cs_mxLeg s) sdp party] ++ F).
Proof.
  intros H Hs Han. pose proof (ca_frames _ _ H) as [Hf _]%Forall_cons. destruct Hf as (s0 & Hs0 & Hin). rewrite Hs in Hs0. injection Hs0 as <-. unfold incoming_call in Hin.
  pose proof (ca_sessions _ _ H _ _ Hs) as [K1 K2 K3 K4 K5 K6]. rewrite Hin, Han, pre_legs_cons in K1. cbn [pre_leg] in K1.
  assert (Hss : cb_sessions (update_session i (set_answering (cs_sourceDevice s) (cs_pendingICE s)) c)
             = <[i := set_answering (cs_sourceDevice s) (cs_pendingICE s) s]> (cb_sessions c)) by (by apply alter_insert).
  eapply (cands_one i) with (s := s); [exact H|done|exact Hs|exact Hss|done|done|done|done|by auto|done|done|only_i i|only_i i|by intros h g ->%list_elem_of_singleton|constructor| |].
  - split; cbn [cs_incoming cs_answering cs_sourceDevice cs_signalLeg cs_pendingICE set_answering].
    + rewrite Hin, pre_legs_app, pre_legs_cons. cbn [pre_leg]. rewrite Nat.eqb_refl. unfold leg_count in *. cbn. cbn in K1. lia.
    + done.
    + congruence.
    + exact K4.
    + congruence.
    + intros [Hal1 Hal2] Hsrc. apply Forall_app in Hal2 as [_ Hal2]. apply K6; [|done]. split; [exact Hal1|by constructor].
  - constructor; [|constructor]. eexists. split; [cbn; by rewrite list_lookup_alter_eq, Hs|done].
Qed.

Lemma move_new_leg c F i f h s : cand_inv c (f :: F) -> cb_sessions c !! i = Some s -> only i [f] -> only i [h] -> end_call i f = false -> (forall j, end_call j f = false) ->
  no_cands [f] -> no_cands [h] -> pre_leg i f = pre_leg i h -> store_leg h = Some (length (cb_signalLegs c)) -> cand_ok c h -> store_leg f = None -> cand_inv (new_signal_leg c) ([h] ++ F).
Proof.
  intros H Hs Of Oh _ He Nf Nh Hpre Hst Hok Hsf. pose proof (ca_sessions _ _ H _ _ Hs) as [K1 K2 K3 K4 K5 K6].
  assert (Eg : given (new_signal_leg c) s = given c s).
  { unfold given. destruct (cs_signalLeg s) as [g|] eqn:Eg; [|done]. cbn. by rewrite lookup_app_l by eauto. }
  assert (EF : forall d, flight d i ([h] ++ F) = flight d i (f :: F)) by (intros d; change (f :: F) with ([f] ++ F); by rewrite !flight_app, Nf, Nh).
  eapply (cands_one i) with (s := s) (s' := s); [exact H|intros j t Hj; by rewrite He in Hj|exact Hs|by apply insert_self|done|done|done|done|auto| | |exact Of|exact Oh| | | |].
  - cbn. rewrite length_app. lia.
  - intros g Hg _. cbn. by rewrite lookup_app_l.
  - intros h' g ->%list_elem_of_singleton Hg. rewrite Hst in Hg. injection Hg as <-. split; [done|]. eexists. cbn. rewrite lookup_app_r, Nat.sub_diag by done. done.
  - cbn. rewrite Hst. apply NoDup_singleton.
  - assert (Ha : alive i s ([h] ++ F) -> alive i s (f :: F)) by (intros [A1 [_ A2]%Forall_app]; split; [done|by constructor]).
    split; [|done|done| | |].
    + rewrite pre_legs_app, pre_legs_cons, <- Hpre. rewrite pre_legs_cons in K1. cbn. lia.
    + intros g Hg. cbn. rewrite length_app. specialize (K4 g Hg). lia.
    + intros Hal Hx Hy. destruct (K5 (Ha Hal) Hx Hy) as (? & ? & Hf). rewrite Eg. split_and!; [done..|]. intros d. by rewrite EF.
    + intros Hal Hx. rewrite EF, Eg. by apply K6; [apply Ha|].
  - constructor; [|constructor]. eapply keeps_cand_ok; [|exact Hok]. intros j t Hj. exists t. auto.
Qed.

(** A leg is stored; the queue goes to the goroutine that stores it, or stays. *)
Lemma move_store c F i f h g pend s : cand_inv c (f :: F) -> cb_sessions c !! i = Some s -> store_leg f = Some g -> pre_leg i f = true -> only i [f] -> only i [h] ->
  (forall j, end_call j f = false) -> no_cands [f] -> pre_leg i h = false -> store_leg h = None ->
  (forall d, in_flight d i h ++ mine d pend ≡ₚ mine d (cs_pendingICE s)) ->
  (cs_incoming s = false -> cs_sourceDevice s = 0 -> pend = cs_pendingICE s /\ forall d, in_flight d i h = []) ->
  cand_ok (update_session i (set_signalLeg g pend) c) h -> cand_inv (update_session i (set_signalLeg g pend) c) ([h] ++ F).
Proof.
  intros H Hs Hst Hpre Of Oh He Nf Hph Hsh Hq Hw Hok. pose proof (ca_sessions _ _ H _ _ Hs) as [K1 K2 K3 K4 K5 K6].
  destruct (ca_store _ _ H f g) as [(l & Hl & Hl') Hfresh]; [set_solver|done|].
  rewrite pre_legs_cons, Hpre in K1.
  assert (Hnone : cs_signalLeg s = None) by (unfold leg_count in K1; destruct (cs_signalLeg s); [|done]; destruct (cs_incoming s), (cs_answering s); lia).
  assert (Hss : cb_sessions (update_session i (set_signalLeg g pend) c) = <[i := set_signalLeg g pend s]> (cb_sessions c)) by (by apply alter_insert).
  assert (Eg : given (update_session i (set_signalLeg g pend) c) (set_signalLeg g pend s) = []) by (unfold given; cbn; by rewrite Hl).
  assert (Eg' : given c s = []) by (unfold given; by rewrite Hnone).
  eapply (cands_one i) with (s := s); [exact H|intros j t Hj; by rewrite He in Hj|exact Hs|exact Hss|done|done|done|by rewrite Hnone|cbn; intros ? [= <-]; auto|done|done|exact Of|exact Oh| | | |by constructor].
  - intros h' g' ->%list_elem_of_singleton. by rewrite Hsh.
  - cbn. rewrite Hsh. constructor.
  - assert (Ha : alive i (set_signalLeg g pend s) ([h] ++ F) -> alive i s (f :: F)) by (intros [A1 [_ A2]%Forall_app]; split; [done|by constructor]).
    split; rewrite ?Eg; cbn [cs_incoming cs_answering cs_sourceDevice cs_signalLeg cs_pendingICE set_signalLeg]; [|done|done| | |].
    + rewrite pre_legs_app, pre_legs_cons, Hph. unfold leg_count in *. rewrite Hnone in K1. cbn. cbn in K1. lia.
    + intros g' [= <-]. cbn. by eapply lookup_lt_Some.
    + intros Hal Hx Hy. destruct (K5 (Ha Hal) Hx Hy) as (E1 & _ & Hf). destruct (Hw Hx Hy) as [-> Hh]. split_and!; [done..|]. intros d. specialize (Hf d).
      rewrite flight_cons in Hf. apply app_eq_nil in Hf as [_ Hf]. by rewrite flight_app, Hf, flight_cons, Hh.
    + intros Hal Hx. change (log_of i (update_session i (set_signalLeg g pend) c)) with (log_of i c). rewrite (K6 (Ha Hal) Hx), Eg', <- Hq. cbn [app].
      change (f :: F) with ([f] ++ F). rewrite flight_app, Nf, flight_cons. solve_Permutation.
Qed.

(** A candidate arrives: it is dropped because it is from another device, goes
    to the leg, or is queued. *)
Lemma move_candidate c F i device sdp s s' fs : cand_inv c (Ice_lock i device sdp :: F) -> cb_sessions c !! i = Some s ->
  cs_incoming s' = cs_incoming s -> cs_sourceDevice s' = cs_sourceDevice s -> cs_signalLeg s' = cs_signalLeg s -> cs_answering s' = cs_answering s -> cs_endOnce s' = cs_endOnce s ->
  only i fs -> pre_legs i fs = 0%nat -> omap store_leg fs = [] ->
  (cs_incoming s = false -> cs_sourceDevice s = 0 -> cs_pendingICE s' = cs_pendingICE s ++ [(device, sdp)] /\ forall d, flight d i fs = []) ->
  (cs_sourceDevice s <> 0 -> flight (cs_sourceDevice s) i fs ++ mine (cs_sourceDevice s) (cs_pendingICE s')
     ≡ₚ mine (cs_sourceDevice s) (cs_pendingICE s) ++ mine (cs_sourceDevice s) [(device, sdp)]) ->
  Forall (cand_ok (set_sessions (<[i := s']> (cb_sessions c)) (add_log (i, (device, sdp)) c))) fs ->
  cand_inv (set_sessions (<[i := s']> (cb_sessions c)) (add_log (i, (device, sdp)) c)) (fs ++ F).
Proof.
  intros H Hs E1 E2 E3 E4 E5 Ofs Hpf Hst Hw Ho Hok. pose proof (ca_sessions _ _ H _ _ Hs) as [K1 K2 K3 K4 K5 K6].
  set (c' := set_sessions _ _) in *.
  assert (El : forall j, log_of j c' = if (i =? j)%nat then log_of j c ++ [(device, sdp)] else log_of j c) by (intros j; apply log_add).
  assert (Eg : given c' s' = given c s) by (unfold given; by rewrite E3).
  eapply (cands_one i) with (s := s) (s' := s'); [exact H|done|exact Hs|done|done|unfold open; by rewrite E1, E2| |by rewrite E3|rewrite E3; auto|done|done|only_i i|exact Ofs| | | |exact Hok].
  - intros j Hj. rewrite El. by rewrite (proj2 (Nat.eqb_neq i j)).
  - intros h g Hh Hx. by destruct (store_leg_none _ Hst _ _ Hh Hx).
  - rewrite Hst. constructor.
  - assert (Ha : alive i s' (fs ++ F) -> alive i s (Ice_lock i device sdp :: F)) by (intros [A1 [_ A2]%Forall_app]; split; [congruence|by constructor]).
    rewrite pre_legs_cons in K1. cbn [pre_leg] in K1.
    split; rewrite ?E1, ?E2, ?E3, ?E4, ?Eg, ?El, ?Nat.eqb_refl; [|done|done|exact K4| |].
    + rewrite pre_legs_app, Hpf. unfold leg_count in *. rewrite E3. lia.
    + intros Hal Hx Hy. destruct (K5 (Ha Hal) Hx Hy) as (P1 & P2 & P3). destruct (Hw Hx Hy) as [-> Hf]. rewrite P1. split_and!; [done..|]. intros d. by rewrite flight_app, Hf, (P3 d : flight d i F = []).
    + intros Hal Hy. rewrite mine_app, (K6 (Ha Hal) Hy), flight_app. change (flight (cs_sourceDevice s) i (Ice_lock i device sdp :: F)) with (flight (cs_sourceDevice s) i F).
      rewrite <- !app_assoc, <- (Ho Hy). solve_Permutation.
Qed.

Lemma move_answered c F i evt s : cand_inv c (RA_lock i evt :: F) -> cb_sessions c !! i = Some s -> cs_answering s = false ->
  cand_inv (update_session i (set_answering (mi_SourceDeviceID (call_Info evt)) []) c)
    ([RA_set i (cs_signalLeg s) (cs_pendingICE s) (cm_Answer (call_Message evt) ≫= an_V4)] ++ F).
Proof.
  intros H Hs Han. pose proof (ca_frames _ _ H) as [Hf _]%Forall_cons. destruct Hf as [(s0 & Hs0 & Hout) Hd]. rewrite Hs in Hs0. injection Hs0 as <-. unfold outgoing_call in Hout.
  pose proof (ca_sessions _ _ H _ _ Hs) as [K1 K2 K3 K4 K5 K6]. set (d := mi_SourceDeviceID (call_Info evt)) in *. pose proof (K2 Hout Han) as Hz.
  assert (Hss : cb_sessions (update_session i (set_answering d []) c) = <[i := set_answering d [] s]> (cb_sessions c)) by (by apply alter_insert).
  assert (Hop : open (set_answering d [] s)) by (by right).
  eapply (cands_one i) with (s := s); [exact H|done|exact Hs|exact Hss|done|done|done|done|by auto|done|done|only_i i|only_i i|by intros h g ->%list_elem_of_singleton|constructor| |].
  - split; cbn [cs_incoming cs_answering cs_sourceDevice cs_signalLeg cs_pendingICE set_answering]; [by rewrite Hout in K1 |- *|congruence|done|exact K4|by intros _ _|].
    intros [Hal1 Hal2] _. apply Forall_app in Hal2 as [_ Hal2]. destruct K5 as (P1 & P2 & P3); [split; [exact Hal1|by constructor]|done|done|].
    change (log_of i (update_session i (set_answering d []) c)) with (log_of i c). change (given (update_session i (set_answering d []) c) (set_answering d [] s)) with (given c s).
    rewrite P2, <- P1, flight_app, (P3 d : flight d i F = []), flight_cons. cbn [in_flight]. rewrite Nat.eqb_refl. cbn. by rewrite !app_nil_r.
  - constructor; [|constructor]. cbn [cand_ok]. assert (Hi : cb_sessions (update_session i (set_answering d []) c) !! i = Some (set_answering d [] s)) by (cbn; by rewrite list_lookup_alter_eq, Hs).
    destruct (cs_signalLeg s) eqn:Eg; eexists; split_and!; done.
Qed.

(** A new handler starts, or something else than candidates changes. *)
Lemma cands_entry c F f : cand_inv c F -> plain [f] -> cand_ok c f -> cand_inv c (f :: F).
Proof.
  intros [H1 H2 H3 H4 H5 H6] (P1 & P2 & P3) Hok. assert (EF : forall d i, flight d i (f :: F) = flight d i F) by (intros d i; change (f :: F) with ([f] ++ F); by rewrite flight_app, P1).
  assert (Hsl : store_leg f = None) by (cbn in P3; by destruct (store_leg f)).
  split; [by constructor| |done|done| |].
  - intros i s Hs. destruct (H2 _ _ Hs) as [K1 K2 K3 K4 K5 K6]. assert (Ha : alive i s (f :: F) -> alive i s F) by (intros [A1 [_ A2]%Forall_cons]; done).
    split; [|done|done|done| |].
    + change (f :: F) with ([f] ++ F). by rewrite pre_legs_app, P2.
    + intros Hal Hx Hy. destruct (K5 (Ha Hal) Hx Hy) as (? & ? & Hf). split_and!; [done..|]. intros d. by rewrite EF.
    + intros Hal Hx. rewrite EF. by apply K6; [apply Ha|].
  - intros h g Hh Hg. apply elem_of_cons in Hh as [->|Hh]; [congruence|by apply (H5 h)].
  - cbn. by rewrite Hsl.
Qed.
Lemma cands_calls c c' F : cand_inv c F -> same_cands c c' -> cand_inv c' F.
Proof.
  intros H Hs. change F with ([] ++ F). eapply (cands_neutral c c' (In_busy EmptyServiceID 0)); [apply cands_entry; [done|plain|done]|done|neut|done|constructor].
Qed.

Lemma move_ice c F i device sdp ch c' fs new : cand_inv c (Ice_lock i device sdp :: F) -> frame_step (Ice_lock i device sdp) ch c = Some (c', fs, new) -> cand_inv c' ((fs ++ concat new) ++ F).
Proof.
  intros H Hr. cbn [CallBridge.frame_step ice_step] in Hr. destruct (cb_sessions c !! i) as [s|] eqn:Hs; [|done]. unfold goto in Hr.
  assert (Hq : forall t, cb_sessions (add_log (i, (device, sdp)) c) = cb_sessions c -> t = update_session i (set_pendingICE (cs_pendingICE s ++ [(device, sdp)])) (add_log (i, (device, sdp)) c) ->
    (cs_sourceDevice s = 0 \/ cs_sourceDevice s = device) -> cand_inv t ([] ++ F)).
  { intros t _ -> Hd. unfold update_session. cbn [add_log cb_sessions]. rewrite (alter_insert _ _ _ _ Hs).
    apply (move_candidate _ _ _ _ _ s); try done. intros Hz. cbn [cs_pendingICE set_pendingICE]. by rewrite mine_app. }
  assert (Hk : forall fs', only i fs' -> pre_legs i fs' = 0%nat -> omap store_leg fs' = [] -> (cs_incoming s = false -> cs_sourceDevice s <> 0) ->
    (cs_sourceDevice s <> 0 -> flight (cs_sourceDevice s) i fs' = mine (cs_sourceDevice s) [(device, sdp)]) -> Forall (cand_ok (add_log (i, (device, sdp)) c)) fs' ->
    cand_inv (add_log (i, (device, sdp)) c) (fs' ++ F)).
  { intros fs' O1 O2 O3 O4 O5 O6. pose proof (move_candidate c F i device sdp s s fs' H Hs eq_refl eq_refl eq_refl eq_refl eq_refl O1 O2 O3) as Hm.
    rewrite <- (insert_self _ _ _ Hs) in Hm. apply Hm; [intros Hi Hz; by destruct (O4 Hi)| |done]. intros Hz. rewrite O5 by done. apply Permutation_app_comm. }
  destruct (negb (cs_sourceDevice s =? 0) && negb (cs_sourceDevice s =? device)) eqn:E1.
  - injection Hr as <- <- <-. apply andb_true_iff in E1 as [E1%negb_true_iff%Z.eqb_neq E2%negb_true_iff%Z.eqb_neq].
    apply Hk; [by intros j Hj|done|done|done| |constructor]. intros _. rewrite mine_cons. cbn [fst snd]. by destruct (Z.eqb_spec device (cs_sourceDevice s)); [congruence|].
  - apply andb_false_iff in E1. assert (Hd : cs_sourceDevice s = 0 \/ cs_sourceDevice s = device) by (destruct E1 as [E|E]; apply negb_false_iff, Z.eqb_eq in E; auto).
    destruct (cs_signalLeg s) as [g|] eqn:Eg; [|injection Hr as <- <- <-; by eapply Hq].
    destruct (negb (cs_incoming s) && (cs_sourceDevice s =? 0)) eqn:E2; [injection Hr as <- <- <-; by eapply Hq|]. injection Hr as <- <- <-.
    assert (Hop : cs_incoming s = false -> cs_sourceDevice s <> 0) by (intros Hi; rewrite Hi in E2; by apply Z.eqb_neq in E2).
    change ([Ice_add i g sdp] ++ concat []) with [Ice_add i g sdp]. apply Hk; [only_i i|done|done|done| |].
    + intros Hz. destruct Hd as [|Hd]; [done|]. rewrite flight_cons, mine_cons. cbn [in_flight fst snd]. by rewrite Nat.eqb_refl, Hd, Z.eqb_refl.
    + constructor; [|constructor]. exists s. split_and!; [done|done|]. unfold open. destruct (cs_incoming s); auto.
Qed.

Ltac pre := cbn [app concat]; rewrite ?pre_legs_cons; cbn; lia.
Lemma candidates_moving c F f ch c' fs new : cand_inv c (f :: F) -> frame_step f ch c = Some (c', fs, new) -> moving c f = true -> cand_inv c' ((fs ++ concat new) ++ F).
Proof.
  intros H Hr Hm. pose proof (step_dies _ _ _ _ _ _ Hr) as Hd. pose proof (ca_frames _ _ H) as [Hok _]%Forall_cons.
  assert (He : forall j, end_call j f = false) by (by destruct f).
  destruct f; try done; cbn [moving] in Hm; try (by eapply move_ice);
    cbn [CallBridge.frame_step incoming_step outgoing_step answer_step ice_step remote_answer_step] in Hr; unfold goto in Hr.
  - destruct (cb_active c) eqn:Ha; [done|]. injection Hr as <- <- <-. apply (cands_new _ _ _ _ _ H); try done; [|by repeat constructor].
    intros i. cbn [app concat]. rewrite pre_legs_cons. cbn. lia.
  - destruct (cb_active c) eqn:Ha; [done|]. destruct ch; try done. injection Hr as <- <- <-. apply (cands_new _ _ _ _ _ H); try done.
    + intros i. cbn [app concat]. rewrite pre_legs_cons. cbn. rewrite Nat.eqb_sym. destruct (i =? _)%nat; cbn; lia.
    + constructor; [|constructor]. eexists. split; [cbn; by rewrite lookup_app_r, Nat.sub_diag|done].
  - destruct Hok as (s & Hs & Ho). destruct ch; try done; injection Hr as <- <- <-.
    + eapply (cands_frame i); [exact H|exact Hs|only_i i|cbn [app concat]; only_i i|done|pre|done|by repeat constructor|done|done].
    + eapply (move_new_leg _ _ i); [exact H|exact Hs|only_i i|only_i i|done|exact He|done|done|done|done|by exists s|done].
  - destruct Hok as (s & Hs & Ho). injection Hr as <- <- <-.
    assert (Eu : update_session i (fun s => set_signalLeg leg (cs_pendingICE s) s) c = update_session i (set_signalLeg leg (cs_pendingICE s)) c)
      by (unfold update_session; by rewrite !(alter_insert _ _ _ _ Hs)). rewrite Eu.
    eapply (move_store _ _ i) with (pend := cs_pendingICE s) (s := s); [exact H|exact Hs|done|by apply Nat.eqb_refl|only_i i|only_i i|exact He|done|done|done|done|done|done].
  - destruct (cb_sessions c !! i) as [s|] eqn:Hs; [|done]. destruct (cs_answering s) eqn:Ean; cbn [orb] in Hr.
    + injection Hr as <- <- <-. eapply (cands_frame i); [exact H|exact Hs|only_i i|cbn [app concat]; only_i i|done|pre|done|constructor|done|done].
    + destruct (cs_canceled s); injection Hr as <- <- <-; [|by eapply move_lock].
      eapply (cands_frame i); [exact H|exact Hs|only_i i|cbn [app concat]; only_i i|done|pre|done|constructor|done|done].
  - destruct Hok as (s & Hs & Ho). destruct ch; try done; injection Hr as <- <- <-.
    + eapply (cands_frame i); [exact H|exact Hs|only_i i|cbn [app concat]; only_i i|done|pre|done|by repeat constructor|done|done].
    + eapply (move_new_leg _ _ i); [exact H|exact Hs|only_i i|only_i i|done|exact He|done|done|done|done|by exists s|done].
  - destruct Hok as (s & Hs & Ho). rewrite Hs in Hr. injection Hr as <- <- <-.
    eapply (move_store _ _ i) with (pend := []) (s := s);
      [exact H|exact Hs|done|by apply Nat.eqb_refl|only_i i|only_i i|exact He|done|done|done| | |].
    + intros d. cbn [in_flight]. by rewrite Nat.eqb_refl, app_nil_r.
    + unfold incoming_call in Ho. congruence.
    + eexists. cbn. rewrite list_lookup_alter_eq, Hs. split_and!; [done|done|]. by left.
  - destruct pending as [|p l]; [done|]. destruct Hok as (s & Hs & Hg & Ho). rewrite Hs in Hr. injection Hr as <- <- <-.
    eapply (cands_pending i) with (p := p) (l := l); [exact H|exact Hs|exact Hg|exact Ho|only_i i|done|done|done|cbn [app concat]; only_i i|done|done| | |].
    + constructor; [|constructor]. by exists s.
    + intros d. cbn [in_flight]. by rewrite Nat.eqb_refl.
    + intros d. cbn [app concat]. rewrite flight_cons. cbn [in_flight]. by rewrite Nat.eqb_refl, app_nil_r.
  - destruct Hok as (s & Hs & Hg & Ho). injection Hr as <- <- <-.
    eapply (cands_add i) with (fs := [] ++ concat []); [exact H|exact Hs|exact Hg|exact Ho|only_i i|done|done|done|cbn [app concat]; only_i i|done|done|constructor|].
    intros _. cbn [in_flight]. by rewrite Nat.eqb_refl.
  - destruct (cb_sessions c !! i) as [s|] eqn:Hs; [|done]. destruct (cs_answering s) eqn:Ean; cbn [orb] in Hr.
    + injection Hr as <- <- <-. eapply (cands_frame i); [exact H|exact Hs|only_i i|cbn [app concat]; only_i i|done|pre|done|constructor|done|done].
    + destruct (cs_canceled s); injection Hr as <- <- <-; [|by eapply move_answered].
      eapply (cands_frame i); [exact H|exact Hs|only_i i|cbn [app concat]; only_i i|done|pre|done|constructor|done|done].
  - assert (Hhas : has c i open) by (destruct leg; [destruct Hok as (s & Hs & _ & Ho); by exists s|exact Hok]). destruct Hhas as (s & Hs & Ho).
    assert (Hfail : cand_inv c ([End i EndFailed true] ++ F)).
    { eapply (cands_frame i); [exact H|exact Hs|only_i i|only_i i|done|pre|done|by repeat constructor|done|].
      intros _ [_ [Hx _]%Forall_cons]. cbn in Hx. by rewrite Nat.eqb_refl in Hx. }
    destruct leg as [g|]; [|by injection Hr as <- <- <-]. destruct answer as [a|]; [|by injection Hr as <- <- <-]. unfold either, goto in Hr.
    destruct (result_of ch) as [[]|]; [| |done]; injection Hr as <- <- <-; [|done].
    eapply (cands_frame i); [exact H|exact Hs|only_i i|cbn [app concat]; only_i i|done|pre|done| | |].
    + constructor; [exact Hok|constructor].
    + intros d. cbn [app concat in_flight]. rewrite flight_cons. cbn [in_flight]. destruct (i =? i)%nat; [|done]. by intros ->.
    + intros _ _. cbn [app concat]. rewrite flight_cons. cbn [in_flight]. by rewrite app_nil_r.
  - destruct pending as [|p l]; [done|]. destruct Hok as (s & Hs & Hg & Ho). rewrite Hs in Hr. injection Hr as <- <- <-.
    eapply (cands_pending i) with (p := p) (l := l); [exact H|exact Hs|exact Hg|exact Ho|only_i i|done|done|done|cbn [app concat]; only_i i|done|done| | |].
    + constructor; [|constructor]. by exists s.
    + intros d. cbn [in_flight]. by rewrite Nat.eqb_refl.
    + intros d. cbn [app concat]. rewrite flight_cons. cbn [in_flight]. by rewrite Nat.eqb_refl, app_nil_r.
Qed.

Lemma candidates_inductive : inductive SendsVideo cand_inv.
Proof.
  split.
  - intros c F F' HF [H1 H2 H3 H4 H5 H6].
    assert (EF : forall d i, flight d i F ≡ₚ flight d i F') by (intros d i; unfold flight; by rewrite HF).
    assert (EP : forall i, pre_legs i F = pre_legs i F') by (intros i; unfold pre_legs; by rewrite HF).
    split; [by rewrite <- HF| |done|done| |by rewrite <- HF].
    + intros i s Hs. destruct (H2 _ _ Hs) as [K1 K2 K3 K4 K5 K6]. assert (Ha : alive i s F' -> alive i s F) by (unfold alive; by rewrite HF).
      split; [by rewrite <- EP|done|done|done| |].
      * intros Hal Hx Hy. destruct (K5 (Ha Hal) Hx Hy) as (P1 & P2 & P3). split_and!; [done..|]. intros d. apply Permutation_nil. by rewrite <- (P3 d), EF.
      * intros Hal Hx. by rewrite <- EF; apply K6; [apply Ha|].
    + intros f g Hf. rewrite <- HF in Hf. by apply H5.
  - split; [constructor|done|done|done|by intros f g ?%not_elem_of_nil|constructor].
  - intros c F f H He. apply cands_entry; [done|destruct f; try done; plain|]. destruct f; try done. destruct He as [_ (s & Hs & Hi)]. by exists s.
  - intros c F s l H. eapply cands_calls; [exact H|]. unfold addMatrixCandidates. destruct (cs_mxLeg s); [by apply cands_same|reflexivity].
  - intros c c' F i cand ok H Hl. eapply cands_calls; [exact H|]. unfold onLocalSignalCandidate, to_signal in Hl.
    destruct (cb_sessions c !! i) as [s|]; [|done]. destruct (cs_signalLeg s); [|done]. injection Hl as <-. by apply cands_same.
  - intros c F f ch c' fs new H Hr. pose proof (ca_frames _ _ H) as [Hok _]%Forall_cons. destruct (moving c f) eqn:Em.
    + by eapply candidates_moving.
    + eapply cands_neutral; [exact H|by eapply step_same|by eapply step_neutral|by eapply step_dies|by eapply step_cand_ok].
Qed.

(** C35: no ICE candidate of the other side is lost or used twice while a call
    lives (nobody has begun or decided to end it), in any interleaving of the
    goroutines: before an outgoing call is answered all that arrived wait in the
    queue, in order; afterwards, and for incoming calls, those from the device
    the call is with are at the media leg, on the way there or in the queue, each
    exactly as often as it arrived. *)
Theorem candidates_complete w i s : reach w -> cb_sessions (w_calls w) !! i = Some s -> alive i s (frames w) ->
  (cs_sourceDevice s <> 0 ->
     mine (cs_sourceDevice s) (log_of i (w_calls w))
       ≡ₚ given (w_calls w) s ++ flight (cs_sourceDevice s) i (frames w) ++ mine (cs_sourceDevice s) (cs_pendingICE s))
  /\ (cs_incoming s = false -> cs_answering s = false -> cs_pendingICE s = log_of i (w_calls w) /\ given (w_calls w) s = []).
Proof.
  intros Hr Hs Ha. pose proof (inductive_reach _ _ candidates_inductive _ Hr) as H. destruct (ca_sessions _ _ H _ _ Hs) as [_ K2 _ _ K5 K6].
  split; [by apply K6|]. intros Hin Han. destruct (K5 Ha Hin (K2 Hin Han)) as (? & ? & _). done.
Qed.
End Candidates.
