(* ===== verification/CallSamples.v ===== *)
(** Runs of call bridging: the theorems at work, and what goes wrong. *)
From S2P Require Import Prelude GoLib ServiceId SignalId RingRTC CallMedia ReceivingDecrypt CallBridge CallSafety CallCandidates.

Module SampleCallBridge.
Import CanonicalUUID SampleWire.

Definition video_sdp : bytes -> bool := fun _ => false.
Definition caller : UUID := mk_fixed (n := 16) (repeat x0b 16) eq_refl.
Definition call_id : UUID := mk_fixed (n := 16) (repeat x07 16) eq_refl.
Definition message (t : call_message_type) (typ : call_type) (offer : option Offer) (answer : option Answer) (ice : option IceCandidate) : CallMessage :=
  mkCallMessage 77 t typ 0 0 0 0 0 offer answer ice None.
Definition event_from (device : Z) (m : CallMessage) : call_event := mkCall (mkInfo caller [] device 0 0 [] None) 1000 true m.
Definition offer_event : call_event := event_from 2 (message MessageOffer CallTypeAudio (Some (mkOffer (Some sample_params))) None None).
Definition ice_event (device : Z) (candidate : bytes) : call_event := event_from device (message MessageICE CallTypeNone None None (Some (mkIce (Some candidate) None))).
Definition room : bytes := str "!room".
Definition gate : MatrixGate := mkGate true false false true (Some (str "@user")) None (str "@user") true.
Definition matrix (e : matrix_event) : label := L_matrix gate room (uuid_string caller) e.

Definition run (ls : list label) : option World := steps video_sdp ls world_start.
Lemma run_reach ls w w' : steps video_sdp ls w = Some w' -> reach video_sdp w -> reach video_sdp w'.
Proof.
  revert w. induction ls as [|l ls IH]; intros w H Hr; [by injection H as <-|]. cbn in H. destruct (step video_sdp l w) as [w1|] eqn:E; [|done].
  eapply IH; [exact H|]. by eapply reach_step.
Qed.
Definition get (o : option World) : World := default world_start o.
Lemma get_reach ls : match run ls with Some _ => true | None => false end = true -> reach video_sdp (get (run ls)).
Proof. unfold run, get. destruct (steps video_sdp ls world_start) as [w|] eqn:E; [|done]. intros _. eapply run_reach; [exact E|constructor]. Qed.

(** A call rings in Matrix (goroutine 1 is then the timer). *)
Definition ring : list label :=
  [L_signal offer_event; L_run 1 Succeeds; L_run 1 (GivesRoom room (str "call") (str "bridge")); L_run 1 Succeeds; L_run 1 Succeeds; L_run 1 Succeeds; L_run 1 Succeeds;
   L_run 1 (GivesSDP (str "sdp")); L_run 1 Succeeds].
(** Candidates of two devices arrive. *)
Definition arrive (device : Z) (candidate : bytes) : list label := [L_signal (ice_event device candidate); L_run 0 Succeeds; L_run 0 Succeeds].
Definition two_candidates : list label := arrive 2 (str "a") ++ [L_signal (ice_event 5 (str "b")); L_run 0 Succeeds; L_run 0 Succeeds].
(** The user answers (goroutine 2). *)
Definition answer : list label :=
  [matrix (Call_Answer (str "call") (str "phone") (str "sdp")); L_run 2 Succeeds; L_run 2 Succeeds; L_run 2 Succeeds; L_run 2 Succeeds; L_run 2 Succeeds;
   L_run 2 (GivesLeg sample_params); L_run 2 Succeeds; L_run 2 Succeeds; L_run 2 Succeeds].
Definition connect : list label := [L_run 2 Succeeds; L_run 2 Succeeds; L_run 2 Succeeds].

Definition the_session (w : World) : option signalCallSession := cb_sessions (w_calls w) !! 0%nat.

Lemma one_call_at_a_time_witness :
  cb_active (w_calls (get (run ring))) = Some 0%nat /\ exists s, the_session (get (run ring)) = Some s /\ ended s = false.
Proof.
  split; [vm_compute; reflexivity|].
  destruct (one_call_at_a_time video_sdp (get (run ring))) as [H _]; [apply get_reach; vm_compute; reflexivity|]. apply H. vm_compute. reflexivity.
Defined.

(** The candidates are at the leg once the call is answered: the one of the
    caller's device. *)
Definition answered_world : World := get (run (ring ++ two_candidates ++ answer)).
Definition session_of (w : World) : signalCallSession := default (incoming_session offer_event [] [] []) (the_session w).
Lemma candidates_complete_witness :
  given (w_calls answered_world) (session_of answered_world) = [str "a"] /\
  mine 2 (log_of 0 (w_calls answered_world)) ≡ₚ given (w_calls answered_world) (session_of answered_world) ++ flight 2 0 (frames answered_world)
    ++ mine 2 (cs_pendingICE (session_of answered_world)).
Proof.
  split; [vm_compute; reflexivity|].
  destruct (candidates_complete video_sdp answered_world 0 (session_of answered_world)) as [H _].
  - apply get_reach. vm_compute. reflexivity.
  - vm_compute. reflexivity.
  - split; [vm_compute; reflexivity|]. vm_compute. repeat constructor.
  - assert (E : cs_sourceDevice (session_of answered_world) = 2) by (vm_compute; reflexivity). rewrite E in H. by apply H.
Defined.

(** ** Calls are cut off

    The timer that ends a call that nobody answers does not look whether it
    was answered: a minute after it rang, a call that is going on is ended with
    "invite_timeout". *)
Definition cut : list label := ring ++ answer ++ connect ++ L_run 1 Succeeds :: L_run 1 Succeeds :: map (L_run 1) [Succeeds; Succeeds; Succeeds; Succeeds; Succeeds; Succeeds].
Definition cut_world : World := get (run cut).
Lemma answered_call_cut :
  (* the relays are about to run *)
  w_threads (get (run (ring ++ answer ++ connect))) !! 2%nat = Some [Relay_audio 0; Relay_rtcp 0]
  (* the timer is still there, and ends the call *)
  /\ w_threads (get (run (ring ++ answer ++ connect))) !! 1%nat = Some [Timer 0 signalCallInviteLifetime]
  /\ cs_endOnce (session_of cut_world) = Ended EndTimeout true /\ hangups 0 (cb_sent (w_calls cut_world)) = [str "invite_timeout"].
Proof. split_and!; vm_compute; reflexivity. Qed.

Lemma call_ended_once_witness : cs_endOnce (session_of cut_world) = Ended EndTimeout true /\
  (told (w_calls cut_world) 0 [str "invite_timeout"] [signalHangupMessage 77] /\ cs_canceled (session_of cut_world) = true).
Proof.
  split; [vm_compute; reflexivity|].
  pose proof (call_ended_once video_sdp cut_world 0 (session_of cut_world)) as H.
  assert (E : cs_endOnce (session_of cut_world) = Ended EndTimeout true) by (vm_compute; reflexivity). rewrite E in H.
  assert (Ei : cs_signalID (session_of cut_world) = 77) by (vm_compute; reflexivity). rewrite Ei in H. apply H.
  - apply get_reach. vm_compute. reflexivity.
  - vm_compute. reflexivity.
Defined.

(** The caller hangs up while it rings. *)
Definition hangup_event : call_event := event_from 2 (message MessageHangup CallTypeNone None None None).
Definition ending_world : World := get (run (ring ++ [L_signal hangup_event; L_run 0 Succeeds; L_run 2 Succeeds])).
Lemma call_end_completes_witness : cs_endOnce (session_of ending_world) = Ending RemoteHangup false /\
  exists t k, (k <= 6)%nat /\ forall answers, length answers = k -> exists w', run_thread video_sdp t answers ending_world = Some w' /\ freed 0 w'.
Proof.
  split; [vm_compute; reflexivity|]. apply (call_end_completes video_sdp ending_world 0 (session_of ending_world) RemoteHangup false).
  - apply get_reach. vm_compute. reflexivity.
  - vm_compute. reflexivity.
  - vm_compute. reflexivity.
Defined.

(** ** Races *)

(** The offer arrives twice while the portal is looked up: the second copy is
    answered with "busy" for the call that rings. *)
Definition twice : list label :=
  [L_signal offer_event; L_signal offer_event; L_run 1 Succeeds; L_run 2 Succeeds; L_run 1 (GivesRoom room (str "call") (str "bridge")); L_run 1 Succeeds;
   L_run 2 (GivesRoom room (str "call") (str "bridge")); L_run 2 Succeeds; L_run 2 Succeeds].
Lemma duplicate_offer_busy :
  cb_sent (w_calls (get (run twice))) = [ToSignal None (NewACIServiceID caller) (signalBusyMessage 77) true]
  /\ cs_signalID (session_of (get (run twice))) = 77 /\ cb_active (w_calls (get (run twice))) = Some 0%nat.
Proof. split_and!; vm_compute; reflexivity. Qed.

(** A candidate that arrives while the portal is looked up is dropped. *)
Lemma early_candidate_dropped :
  steps video_sdp [L_signal offer_event; L_signal (ice_event 2 (str "a")); L_run 0 Succeeds] world_start = steps video_sdp [L_signal offer_event] world_start
  /\ cs_pendingICE (session_of (get (run (L_signal offer_event :: [L_signal (ice_event 2 (str "a")); L_run 0 Succeeds] ++ tail ring)))) = [].
Proof. split; vm_compute; reflexivity. Qed.

(** The user hangs up right after calling: the Matrix leg that is made then is
    never closed. *)
Definition invite : Invite := mkInvite (str "call") (str "sdp") 60000.
Definition leak : list label :=
  [matrix (Call_Invite (Some invite)); L_run 1 Succeeds; L_run 1 (GivesIDs call_id (str "bridge")); matrix (Call_Hangup (str "call") (str "phone"))]
  ++ map (L_run 2) [Succeeds; Succeeds; Succeeds; Succeeds; Succeeds; Succeeds] ++ map (L_run 1) [Succeeds; Succeeds; Succeeds; GivesSDP (str "sdp")].
Lemma outgoing_leg_leaks :
  w_threads (get (run leak)) = [[]; []; []] /\ ended (session_of (get (run leak))) = true /\ mxl_closed <$> cb_matrixLegs (w_calls (get (run leak))) = [false].
Proof. split_and!; vm_compute; reflexivity. Qed.

(** An invite with an enormous lifetime: the product overflows, and the call
    times out at once. *)
Lemma lifetime_overflows : outgoing_lifetime (mkInvite (str "call") (str "sdp") 9223372036855) < 0.
Proof. vm_compute. reflexivity. Qed.

(** The answer to an outgoing call is handled by the goroutine that receives
    messages: until the call is connected no candidate is received. *)
Definition out : list label :=
  [matrix (Call_Invite (Some invite)); L_run 1 Succeeds; L_run 1 (GivesIDs call_id (str "bridge")); L_run 1 Succeeds; L_run 1 Succeeds; L_run 1 Succeeds;
   L_run 1 (GivesSDP (str "sdp")); L_run 1 Succeeds; L_run 1 Succeeds; L_run 1 (GivesLeg sample_params); L_run 1 Succeeds; L_run 1 Succeeds; L_run 1 Succeeds].
Definition remote_answer : call_event :=
  mkCall (mkInfo caller [] 3 0 0 [] None) 1000 false
    (mkCallMessage (callID_of call_id) MessageAnswer CallTypeNone 0 0 0 0 0 None (Some (mkAnswer (Some sample_params))) None None).
Lemma answer_blocks_receiving :
  let w := get (run (out ++ [L_signal remote_answer; L_run 0 Succeeds; L_run 0 Succeeds; L_run 0 Succeeds; L_run 0 Succeeds])) in
  w_threads w !! 0%nat = Some [RA_connect 0 0] /\ forall evt, step video_sdp (L_signal evt) w = None.
Proof. split; [vm_compute; reflexivity|]. intros evt. vm_compute. reflexivity. Qed.
End SampleCallBridge.
