(* ===== verification/PreKeys.v ===== *)
(** The own prekeys: generating, storing, uploading and checking them
    ([pkg/signalmeow/keys.go], [pkg/signalmeow/store/prekey_store.go]).

    The two tables of the database are finite maps with their primary keys: an
    INSERT of a key that is there fails.  Records are kept as they are, without
    the round trip through their serialisation.  [net] answers a request
    knowing all requests so far; keys and signatures come from libsignal. *)
From S2P Require Import Prelude GoLib Crypto Provisioning WsMessages.

Class PreKeyLib `{K : CurveLib} : Type := {
  Sign : PrivateKey -> bytes -> option bytes;
  KyberKeyPair : Type;
  (** the [i]-th pair generated in the run *)
  KyberKeyPairGenerate : nat -> option KyberKeyPair;
  Kyber_GetPublicKey : KyberKeyPair -> bytes
}.

Section PreKeys.
Context `{K : CurveLib} `{L : !PreKeyLib}.

Definition PREKEY_BATCH_SIZE : Z := 100.

(** ** Data *)
Record IdentityKeyPair := mkPair { ik_Public : PublicKey; ik_Private : PrivateKey }.
Record PreKeyRecord := mkPreKeyRecord { pkr_ID : Z; pkr_Private : PrivateKey }.
Record SignedPreKeyRecord := mkSignedPreKey { spk_ID : Z; spk_Private : PrivateKey; spk_Signature : bytes }.
Record KyberPreKeyRecord := mkKyberPreKey { kpk_ID : Z; kpk_Pair : KyberKeyPair; kpk_Signature : bytes }.

(** The rows of one account and one of its service IDs. *)
Record PreKeyTable := mkTable {
  pt_keys : gmap Z PreKeyRecord;
  pt_signed : gmap Z SignedPreKeyRecord;
  pt_kyber : gmap Z (KyberPreKeyRecord * bool)
}.

Record JSONKey := mkJSONKey { jk_keyId : Z; jk_publicKey : bytes; jk_signature : option bytes }.
Record RegisterJSON := mkRegister { rj_preKeys : list JSONKey; rj_pqPreKeys : list JSONKey; rj_identityKey : bytes }.
Inductive key_request := GetCounts (pni : bool) | PutKeys (pni : bool) (keys : RegisterJSON).

Inductive prekey_error :=
| IDMismatch (expected got : Z)
| UniqueViolation (id : Z)
| NoRows
| NoPrekeysToUpload
| RequestFailed
| PrekeyUpload422
| UnexpectedStatus (status : Z)
| InvalidJSON.

(** The device: its identities (a phone-number-less account has no PNI) and
    its tables; the keys drawn so far and the requests made so far. *)
Record KeyDevice := mkKeyDevice {
  kd_ACI : IdentityKeyPair;
  kd_PNI : option IdentityKeyPair;
  kd_hasPNI : bool;
  kd_aciTable : PreKeyTable;
  kd_pniTable : PreKeyTable;
  kd_draws : nat;
  kd_requests : list key_request
}.

Definition keys_m (A : Type) : Type := stateE KeyDevice prekey_error A.

(** [cli.Store.ACIPreKeyStore] or [PNIPreKeyStore]. *)
Definition table_of (pni : bool) (s : KeyDevice) : PreKeyTable := if pni then kd_pniTable s else kd_aciTable s.
Definition set_table (pni : bool) (t : PreKeyTable) (s : KeyDevice) : KeyDevice :=
  if pni then mkKeyDevice (kd_ACI s) (kd_PNI s) (kd_hasPNI s) (kd_aciTable s) t (kd_draws s) (kd_requests s)
  else mkKeyDevice (kd_ACI s) (kd_PNI s) (kd_hasPNI s) t (kd_pniTable s) (kd_draws s) (kd_requests s).
Definition add_draw (s : KeyDevice) : KeyDevice :=
  mkKeyDevice (kd_ACI s) (kd_PNI s) (kd_hasPNI s) (kd_aciTable s) (kd_pniTable s) (S (kd_draws s)) (kd_requests s).
Definition add_request (r : key_request) (s : KeyDevice) : KeyDevice :=
  mkKeyDevice (kd_ACI s) (kd_PNI s) (kd_hasPNI s) (kd_aciTable s) (kd_pniTable s) (kd_draws s) (kd_requests s ++ [r]).

(** A nil key pair panics when it is used. *)
Definition identity_of (pni : bool) : keys_m IdentityKeyPair := fun s =>
  (s, if pni then match kd_PNI s with Some p => Ok p | None => Panic end else Ok (kd_ACI s)).
Definition draw : keys_m nat := fun s => (add_draw s, Ok (kd_draws s)).

(** ** The store *)
Definition LoadPreKey (pni : bool) (id : Z) (s : KeyDevice) : option PreKeyRecord := pt_keys (table_of pni s) !! id.
Definition LoadSignedPreKey (pni : bool) (id : Z) (s : KeyDevice) : option SignedPreKeyRecord := pt_signed (table_of pni s) !! id.
Definition LoadKyberPreKey (pni : bool) (id : Z) (s : KeyDevice) : option KyberPreKeyRecord := fst <$> pt_kyber (table_of pni s) !! id.

(** The check of the ID that all Store functions have. *)
Definition check_id (expected id : Z) : outcome prekey_error unit :=
  if (0 <? expected) && negb (id =? expected) then Err (IDMismatch expected id) else Ok tt.
Definition insert_row {A : Type} (id : Z) (a : A) (m : gmap Z A) : outcome prekey_error (gmap Z A) :=
  match m !! id with Some _ => Err (UniqueViolation id) | None => Ok (<[id := a]> m) end.

Definition StorePreKey (pni : bool) (preKeyID : Z) (r : PreKeyRecord) : keys_m unit := fun s =>
  let t := table_of pni s in
  match let! _ := check_id preKeyID (pkr_ID r) in insert_row (pkr_ID r) r (pt_keys t) with
  | Ok m => (set_table pni (mkTable m (pt_signed t) (pt_kyber t)) s, Ok tt)
  | Err e => (s, Err e)
  | Panic => (s, Panic)
  end.
Definition StoreSignedPreKey (pni : bool) (preKeyID : Z) (r : SignedPreKeyRecord) : keys_m unit := fun s =>
  let t := table_of pni s in
  match let! _ := check_id preKeyID (spk_ID r) in insert_row (spk_ID r) r (pt_signed t) with
  | Ok m => (set_table pni (mkTable (pt_keys t) m (pt_kyber t)) s, Ok tt)
  | Err e => (s, Err e)
  | Panic => (s, Panic)
  end.
Definition storeKyberPreKey (pni : bool) (preKeyID : Z) (r : KyberPreKeyRecord) (lastResort : bool) : keys_m unit := fun s =>
  let t := table_of pni s in
  match let! _ := check_id preKeyID (kpk_ID r) in insert_row (kpk_ID r) (r, lastResort) (pt_kyber t) with
  | Ok m => (set_table pni (mkTable (pt_keys t) (pt_signed t) m) s, Ok tt)
  | Err e => (s, Err e)
  | Panic => (s, Panic)
  end.
Definition StoreKyberPreKey (pni : bool) (preKeyID : Z) (r : KyberPreKeyRecord) : keys_m unit := storeKyberPreKey pni preKeyID r false.
Definition StoreLastResortKyberPreKey (pni : bool) (preKeyID : Z) (r : KyberPreKeyRecord) : keys_m unit := storeKyberPreKey pni preKeyID r true.

Definition RemovePreKey (pni : bool) (id : Z) (s : KeyDevice) : KeyDevice :=
  let t := table_of pni s in set_table pni (mkTable (delete id (pt_keys t)) (pt_signed t) (pt_kyber t)) s.
Definition RemoveSignedPreKey (pni : bool) (id : Z) (s : KeyDevice) : KeyDevice :=
  let t := table_of pni s in set_table pni (mkTable (pt_keys t) (delete id (pt_signed t)) (pt_kyber t)) s.
Definition RemoveKyberPreKey (pni : bool) (id : Z) (s : KeyDevice) : KeyDevice :=
  let t := table_of pni s in set_table pni (mkTable (pt_keys t) (pt_signed t) (delete id (pt_kyber t))) s.
Definition IsKyberPreKeyLastResort (pni : bool) (id : Z) (s : KeyDevice) : outcome prekey_error bool :=
  of_option NoRows (snd <$> pt_kyber (table_of pni s) !! id).
Definition MarkKyberPreKeyUsed (pni : bool) (id : Z) : keys_m unit := fun s =>
  match IsKyberPreKeyLastResort pni id s with
  | Ok isLastResort => (if isLastResort then s else RemoveKyberPreKey pni id s, Ok tt)
  | Err e => (s, Err e)
  | Panic => (s, Panic)
  end.

(** [COUNT( * )] and [COALESCE(MAX(key_id), 0)], then [next++]. *)
Definition max_id {A : Type} (m : gmap Z A) : Z := map_fold (fun id _ z => Z.max id z) 0 m.
Definition count_and_next {A : Type} (m : gmap Z A) : Z * Z := (Z.of_nat (size m), uint32 (max_id m + 1)).
Definition GetNextPreKeyID (pni : bool) (s : KeyDevice) : Z * Z := count_and_next (pt_keys (table_of pni s)).
(** Last resort keys count as well. *)
Definition GetNextKyberPreKeyID (pni : bool) (s : KeyDevice) : Z * Z := count_and_next (pt_kyber (table_of pni s)).

Definition empty_table : PreKeyTable := mkTable ∅ ∅ ∅.
(** The keys of both service IDs of the account. *)
Definition DeleteAllPreKeys (s : KeyDevice) : KeyDevice := set_table true empty_table (set_table false empty_table s).
Definition AllPreKeys (pni : bool) (s : KeyDevice) : list PreKeyRecord := (map_to_list (pt_keys (table_of pni s))).*2.
Definition AllNormalKyberPreKeys (pni : bool) (s : KeyDevice) : list KyberPreKeyRecord :=
  (filter (fun r => r.2 = false) (map_to_list (pt_kyber (table_of pni s))).*2).*1.

(** ** Generating keys *)

(** The counter is a [uint32], as is the bound it is compared with. *)
Fixpoint generate_loop {A : Type} (one : Z -> keys_m A) (fuel : nat) (keyID last : Z) : keys_m (list A) :=
  match fuel with
  | O => sret []
  | S fuel =>
      if keyID <? last then let* r := one keyID in let* rs := generate_loop one fuel (uint32 (keyID + 1)) last in sret (r :: rs)
      else sret []
  end.
(** The loop runs at most [count] times. *)
Definition generate_keys {A : Type} (one : Z -> keys_m A) (startKeyID count : Z) : keys_m (list A) :=
  if PREKEY_BATCH_SIZE <? count then slift Panic
  else generate_loop one (Z.to_nat count) startKeyID (uint32 (startKeyID + count)).

Definition new_prekey (keyID : Z) : keys_m PreKeyRecord :=
  let* i := draw in sret (mkPreKeyRecord keyID (GeneratePrivateKey i)).
Definition or_panic {A : Type} (o : option A) : keys_m A := slift (match o with Some a => Ok a | None => Panic end).
Definition new_kyber (identity : IdentityKeyPair) (keyID : Z) : keys_m KyberPreKeyRecord :=
  let* i := draw in
  let* kyber := or_panic (KyberKeyPairGenerate i) in
  let* signature := or_panic (Sign (ik_Private identity) (Kyber_GetPublicKey kyber)) in
  sret (mkKyberPreKey keyID kyber signature).

Definition GeneratePreKeys (startKeyID count : Z) : keys_m (list PreKeyRecord) := generate_keys new_prekey startKeyID count.
Definition GenerateKyberPreKeys (startKeyID count : Z) (identity : IdentityKeyPair) : keys_m (list KyberPreKeyRecord) :=
  generate_keys (new_kyber identity) startKeyID count.
Definition GenerateSignedPreKey (startSignedKeyId : Z) (identity : IdentityKeyPair) : keys_m SignedPreKeyRecord :=
  let* i := draw in
  let* signature := or_panic (Sign (ik_Private identity) (Serialize (GetPublicKey (GeneratePrivateKey i)))) in
  sret (mkSignedPreKey startSignedKeyId (GeneratePrivateKey i) signature).

Fixpoint store_all {A : Type} (store : A -> keys_m unit) (l : list A) : keys_m unit :=
  match l with [] => sret tt | r :: l => let* _ := store r in store_all store l end.

(** Whether the keys have to be uploaded: too few on the server, or more than
    there are private keys for. *)
Definition needs_upload (serverCount storeCount : Z) : bool :=
  (serverCount <? PREKEY_BATCH_SIZE / 2) || (storeCount <? uint32 serverCount).

Definition GenerateAndSaveNextPreKeyBatch (pni : bool) (serverCount : Z) : keys_m bool := fun s =>
  let '(storeCount, nextPreKeyID) := GetNextPreKeyID pni s in
  if negb (needs_upload serverCount storeCount) then (s, Ok false)
  else
    (let* _ := if storeCount <? PREKEY_BATCH_SIZE
               then let* preKeys := GeneratePreKeys nextPreKeyID (PREKEY_BATCH_SIZE - storeCount) in store_all (StorePreKey pni 0) preKeys
               else sret tt in
     sret true) s.

Definition GenerateAndSaveNextKyberPreKeyBatch (pni : bool) (serverCount : Z) : keys_m bool := fun s =>
  let '(storeCount, nextKyberPreKeyID) := GetNextKyberPreKeyID pni s in
  if negb (needs_upload serverCount storeCount) then (s, Ok false)
  else
    (let* _ := if storeCount <? PREKEY_BATCH_SIZE
               then let* identity := identity_of pni in
                    let* kyberPreKeys := GenerateKyberPreKeys nextKyberPreKeyID (PREKEY_BATCH_SIZE - storeCount) identity in
                    store_all (StoreKyberPreKey pni 0) kyberPreKeys
               else sret tt in
     sret true) s.

(** ** Uploading *)
Definition PreKeyToJSON (r : PreKeyRecord) : JSONKey :=
  mkJSONKey (pkr_ID r) (Base64.encode (Serialize (GetPublicKey (pkr_Private r)))) None.
Definition SignedPreKeyToJSON (r : SignedPreKeyRecord) : JSONKey :=
  mkJSONKey (spk_ID r) (Base64.encode (Serialize (GetPublicKey (spk_Private r)))) (Some (Base64.encode (spk_Signature r))).
Definition KyberPreKeyToJSON (r : KyberPreKeyRecord) : JSONKey :=
  mkJSONKey (kpk_ID r) (Base64.encode (Kyber_GetPublicKey (kpk_Pair r))) (Some (Base64.encode (kpk_Signature r))).

Context (net : list key_request -> option WebSocketResponseMessage) (parse_counts : bytes -> option (Z * Z)).

Definition send_request (r : key_request) : keys_m WebSocketResponseMessage := fun s =>
  let s := add_request r s in (s, of_option RequestFailed (net (kd_requests s))).

Definition RegisterPreKeys (preKeys : list PreKeyRecord) (kyberPreKeys : list KyberPreKeyRecord) (identityKey : bytes) (pni : bool) : keys_m unit :=
  let* resp := send_request (PutKeys pni (mkRegister (map PreKeyToJSON preKeys) (map KyberPreKeyToJSON kyberPreKeys) (Base64.encode identityKey))) in
  if default 0 (rs_Status resp) =? 422 then slift (Err PrekeyUpload422)
  else match DecodeWSResponseBody (Some resp) false with
       | UnexpectedResponse status => slift (Err (UnexpectedStatus status))
       | _ => sret tt
       end.

Definition RegisterAllPreKeys (pni : bool) : keys_m unit := fun s =>
  let preKeys := AllPreKeys pni s in
  let kyberPreKeys := AllNormalKyberPreKeys pni s in
  if (length preKeys =? 0)%nat && (length kyberPreKeys =? 0)%nat then (s, Err NoPrekeysToUpload)
  else (let* identity := identity_of pni in RegisterPreKeys preKeys kyberPreKeys (Serialize (ik_Public identity)) pni) s.

Definition GetMyKeyCounts (pni : bool) : keys_m (Z * Z) :=
  let* resp := send_request (GetCounts pni) in
  match DecodeWSResponseBody (Some resp) true with
  | UnexpectedResponse status => slift (Err (UnexpectedStatus status))
  | DecodeJSON body => slift (of_option InvalidJSON (parse_counts body))
  | NothingToDecode => sret (0, 0)
  end.

Definition CheckAndUploadNewPreKeys (pni : bool) : keys_m unit :=
  let* (preKeyCount, kyberPreKeyCount) := GetMyKeyCounts pni in
  let* doECUpload := GenerateAndSaveNextPreKeyBatch pni preKeyCount in
  let* doKyberUpload := GenerateAndSaveNextKyberPreKeyBatch pni kyberPreKeyCount in
  if negb doECUpload && negb doKyberUpload then sret tt else RegisterAllPreKeys pni.

(** ** The loop *)

(** Minutes until the next check; [Stop]: the keys were deleted and the bridge
    was told that it is logged out. *)
Inductive next_check := Wait (windowStart windowSize : Z) | Stop (e : prekey_error).
Definition retry_window : next_check := Wait 5 25.
Definition success_window : next_check := Wait (36 * 60) (24 * 60).

(** One round of [keyCheckLoop] after its wait. *)
Definition key_check_round (s : KeyDevice) : KeyDevice * outcome prekey_error next_check :=
  match CheckAndUploadNewPreKeys false s with
  | (s, Panic) => (s, Panic)
  | (s, Err _) => (s, Ok retry_window)
  | (s, Ok _) =>
      if kd_hasPNI s then
        match CheckAndUploadNewPreKeys true s with
        | (s, Panic) => (s, Panic)
        | (s, Err PrekeyUpload422) => (DeleteAllPreKeys s, Ok (Stop PrekeyUpload422))
        | (s, Err _) => (s, Ok retry_window)
        | (s, Ok _) => (s, Ok success_window)
        end
      else (s, Ok success_window)
  end.

(** The waits before each round, with what [rand.IntN] draws, and whether the
    loop has ended by itself. *)
Fixpoint keyCheckLoop (draws : list Z) (firstRun : bool) (windowStart windowSize : Z) (s : KeyDevice) : KeyDevice * list Z * bool :=
  match draws with
  | [] => (s, [], false)
  | r :: draws =>
      let checkTime := if firstRun then 0 else r mod windowSize + windowStart in
      match key_check_round s with
      | (s, Ok (Wait start size)) => let '(s, waits, stopped) := keyCheckLoop draws false start size s in (s, checkTime :: waits, stopped)
      | (s, _) => (s, [checkTime], true)
      end
  end.

End PreKeys.

(** ** Properties *)
Section Proofs.
Context `{K : CurveLib} `{L : !PreKeyLib}.

(** *** Identifiers *)
Lemma max_id_bound {A : Type} (m : gmap Z A) id : is_Some (m !! id) -> id <= max_id m.
Proof.
  intros [a Ha]. revert id a Ha.
  apply (map_fold_weak_ind (fun z m => forall id (a : A), m !! id = Some a -> id <= z)); [done|].
  intros i x m' z Hi IH id a. rewrite lookup_insert_Some. intros [[<- _]|[_ H]]; [lia|]. specialize (IH _ _ H). lia.
Qed.
Lemma max_id_nonneg {A : Type} (m : gmap Z A) : 0 <= max_id m.
Proof. apply (map_fold_weak_ind (fun z (m : gmap Z A) => 0 <= z)); lia. Qed.

(** What the store relies on: rows are filed under the ID of their record. *)
Record table_ok (t : PreKeyTable) : Prop := mkTableOk {
  ok_keys id r : pt_keys t !! id = Some r -> pkr_ID r = id;
  ok_kyber id r b : pt_kyber t !! id = Some (r, b) -> kpk_ID r = id
}.
(** A batch can be numbered. *)
Definition room {A : Type} (m : gmap Z A) : Prop := max_id m + PREKEY_BATCH_SIZE + 1 < 2 ^ 32.

(** [m'] has the rows of [m], and others with larger IDs. *)
Definition grown {A : Type} (m m' : gmap Z A) : Prop :=
  m ⊆ m' /\ forall id, is_Some (m' !! id) -> m !! id = None -> max_id m < id.
Lemma grown_refl {A : Type} (m : gmap Z A) : grown m m.
Proof. split; [done|]. intros id [a Ha]. by rewrite Ha. Qed.

(** *** Generating keys *)

(** Only the draws differ. *)
Definition same_data (s s' : KeyDevice) : Prop :=
  kd_ACI s' = kd_ACI s /\ kd_PNI s' = kd_PNI s /\ kd_hasPNI s' = kd_hasPNI s /\ kd_aciTable s' = kd_aciTable s
  /\ kd_pniTable s' = kd_pniTable s /\ kd_requests s' = kd_requests s.
Lemma same_refl s : same_data s s. Proof. done. Qed.
Lemma same_trans s1 s2 s3 : same_data s1 s2 -> same_data s2 s3 -> same_data s1 s3.
Proof. unfold same_data. intros (->&->&->&->&->&->) (->&->&->&->&->&->). done. Qed.
Lemma same_table s s' pni : same_data s s' -> table_of pni s' = table_of pni s.
Proof. intros (_&_&_&H1&H2&_). unfold table_of. by rewrite H1, H2. Qed.

(** The generator numbers its record and succeeds. *)
Definition numbers {A : Type} (id : A -> Z) (one : Z -> keys_m A) : Prop :=
  forall k s, exists r s', one k s = (s', Ok r) /\ id r = k /\ same_data s s'.

Lemma generate_loop_ids {A : Type} (id : A -> Z) (one : Z -> keys_m A) n : numbers id one -> forall start s,
  0 <= start -> start + Z.of_nat n < 2 ^ 32 ->
  exists rs s', generate_loop one n start (start + Z.of_nat n) s = (s', Ok rs) /\ map id rs = seqZ start (Z.of_nat n) /\ same_data s s'.
Proof.
  intros Hone. induction n as [|n IH]; intros start s H0 Hn; cbn [generate_loop].
  - exists [], s. rewrite seqZ_nil by lia. done.
  - destruct (Z.ltb_spec start (start + Z.of_nat (S n))) as [_|]; [|lia].
    destruct (Hone start s) as (r & s1 & E & Hr & Hs1). rewrite (sbind_eq _ _ _ _ _ E).
    rewrite wrap_small by (unfold in_width; lia). replace (start + Z.of_nat (S n)) with (start + 1 + Z.of_nat n) by lia.
    destruct (IH (start + 1) s1) as (rs & s2 & E2 & Hrs & Hs2); [lia..|]. rewrite (sbind_eq _ _ _ _ _ E2).
    exists (r :: rs), s2. split; [done|]. split; [|by eapply same_trans].
    rewrite (seqZ_cons start) by lia. cbn. rewrite Hr, Hrs. f_equal. f_equal; lia.
Qed.

Lemma generate_keys_ids {A : Type} (id : A -> Z) (one : Z -> keys_m A) start count s : numbers id one ->
  0 <= start -> 0 <= count <= PREKEY_BATCH_SIZE -> start + count < 2 ^ 32 ->
  exists rs s', generate_keys one start count s = (s', Ok rs) /\ map id rs = seqZ start count /\ same_data s s'.
Proof.
  intros Hone H0 Hc Hn. unfold generate_keys. destruct (Z.ltb_spec PREKEY_BATCH_SIZE count); [lia|].
  rewrite (wrap_small 32) by (unfold in_width; lia).
  pose proof (generate_loop_ids id one (Z.to_nat count) Hone start s H0) as Hl. rewrite Z2Nat.id in Hl by lia. by apply Hl.
Qed.

(** *** Storing keys *)
Section Store.
Context {A B : Type} (get : KeyDevice -> gmap Z B) (put : gmap Z B -> KeyDevice -> KeyDevice) (id : A -> Z) (row : A -> B) (store : A -> keys_m unit).
Context (get_put : forall m s, get (put m s) = m) (put_put : forall m m' s, put m (put m' s) = put m s) (put_get : forall s, put (get s) s = s).
Context (stores : forall r s, get s !! id r = None -> store r s = (put (<[id r := row r]> (get s)) s, Ok tt)).

(** Records with fresh, different IDs are all stored. *)
Lemma store_all_ok rs : forall s, NoDup (map id rs) -> (forall r, r ∈ rs -> get s !! id r = None) ->
  exists m, store_all store rs s = (put m s, Ok tt) /\ get s ⊆ m
    /\ (forall i b, m !! i = Some b <-> get s !! i = Some b \/ exists r, r ∈ rs /\ i = id r /\ b = row r) /\ size m = (size (get s) + length rs)%nat.
Proof.
  induction rs as [|r rs IH]; intros s Hd Hf; cbn [store_all].
  - exists (get s). rewrite put_get. split; [done|]. split; [done|]. split; [|cbn; lia]. intros i b. split; [auto|].
    intros [?|(r & Hr & _)]; [done|]. by apply not_elem_of_nil in Hr.
  - cbn [map] in Hd. apply NoDup_cons in Hd as [Hr Hd]. assert (Hn : get s !! id r = None) by (apply Hf; left).
    rewrite (sbind_eq _ _ _ _ _ (stores r s Hn)).
    assert (Hf' : forall q, q ∈ rs -> get (put (<[id r:=row r]> (get s)) s) !! id q = None).
    { intros q Hq. rewrite get_put, lookup_insert_ne; [apply Hf; by right|]. intros E. apply Hr. rewrite E. by apply list_elem_of_fmap_2. }
    destruct (IH (put (<[id r := row r]> (get s)) s) Hd Hf') as (m & E & Hsub & Hm & Hsz). rewrite get_put in Hm, Hsub, Hsz.
    exists m. rewrite E, put_put. split; [done|]. split; [etrans; [by apply insert_subseteq|done]|]. split.
    + intros i b. rewrite Hm, lookup_insert_Some. split.
      * intros [[[<- <-]|[_ H]]|(q & Hq & -> & ->)]; [right; exists r; set_solver|by left|right; exists q; set_solver].
      * intros [Hi|(q & Hq & -> & ->)].
        -- left. right. split; [congruence|done].
        -- apply elem_of_cons in Hq as [->|Hq]; [by left; left|right; by exists q].
    + rewrite Hsz, map_size_insert_None by done. cbn. lia.
Qed.

(** A generated batch fills the table up to [PREKEY_BATCH_SIZE] rows. *)
Lemma batch_stored (one : Z -> keys_m A) s :
  numbers id one -> (forall s s', same_data s s' -> get s' = get s) -> room (get s) -> Z.of_nat (size (get s)) < PREKEY_BATCH_SIZE ->
  exists s1 m', (let* rs := generate_keys one (count_and_next (get s)).2 (PREKEY_BATCH_SIZE - (count_and_next (get s)).1) in store_all store rs) s
      = (put m' s1, Ok tt) /\ same_data s s1 /\ grown (get s) m' /\ Z.of_nat (size m') = PREKEY_BATCH_SIZE
      /\ (forall i b, m' !! i = Some b -> get s !! i = Some b \/ exists r, i = id r /\ b = row r).
Proof.
  intros Hone Hget Hroom Hsz. unfold room in Hroom. pose proof (max_id_nonneg (get s)) as H0. cbn [count_and_next fst snd].
  rewrite (wrap_small 32) by (unfold in_width, PREKEY_BATCH_SIZE in *; lia).
  destruct (generate_keys_ids id one (max_id (get s) + 1) (PREKEY_BATCH_SIZE - Z.of_nat (size (get s))) s Hone) as (rs & s1 & E & Hrs & Hs1);
    [unfold PREKEY_BATCH_SIZE in *; lia..|].
  assert (Hlen : length rs = Z.to_nat (PREKEY_BATCH_SIZE - Z.of_nat (size (get s)))) by (by rewrite <- length_seqZ with (m := max_id (get s) + 1), <- Hrs, length_map).
  assert (Hbig : forall r, r ∈ rs -> max_id (get s) < id r).
  { intros r Hr. apply (list_elem_of_fmap_2 id) in Hr. change (id <$> rs) with (map id rs) in Hr. rewrite Hrs, elem_of_seqZ in Hr. lia. }
  rewrite (sbind_eq _ _ _ _ _ E). destruct (store_all_ok rs s1) as (m' & E' & Hsub & Hm & Hsz').
  - rewrite Hrs. apply NoDup_seqZ.
  - intros r Hr. rewrite (Hget _ _ Hs1). apply eq_None_not_Some. intros Hx%max_id_bound. specialize (Hbig r Hr). lia.
  - rewrite (Hget _ _ Hs1) in Hsub, Hm, Hsz'. exists s1, m'. split; [done|]. split; [done|]. split; [split; [done|]|split].
    + intros i [b Hb] Hnone. apply Hm in Hb as [Hb|(r & Hr & -> & _)]; [congruence|by apply Hbig].
    + rewrite Hsz', Hlen. unfold PREKEY_BATCH_SIZE in *. lia.
    + intros i b Hb. apply Hm in Hb as [Hb|(r & _ & -> & ->)]; [by left|right; by exists r].
Qed.
End Store.

(** *** The two tables *)
Definition put_keys (pni : bool) (m : gmap Z PreKeyRecord) (s : KeyDevice) : KeyDevice :=
  set_table pni (mkTable m (pt_signed (table_of pni s)) (pt_kyber (table_of pni s))) s.
Definition put_kyber (pni : bool) (m : gmap Z (KyberPreKeyRecord * bool)) (s : KeyDevice) : KeyDevice :=
  set_table pni (mkTable (pt_keys (table_of pni s)) (pt_signed (table_of pni s)) m) s.

Lemma table_set pni t s : table_of pni (set_table pni t s) = t. Proof. by destruct pni, s. Qed.
Lemma set_set pni t t' s : set_table pni t (set_table pni t' s) = set_table pni t s. Proof. by destruct pni, s. Qed.
Lemma set_same pni s : set_table pni (table_of pni s) s = s. Proof. by destruct pni, s. Qed.
Lemma requests_set pni t s : kd_requests (set_table pni t s) = kd_requests s. Proof. by destruct pni. Qed.
Lemma identity_set pni t s : (identity_of pni (set_table pni t s)).2 = (identity_of pni s).2. Proof. by destruct pni, s. Qed.

Lemma put_keys_same pni s : put_keys pni (pt_keys (table_of pni s)) s = s.
Proof. destruct pni, s as [? ? ? [] [] ? ?]; done. Qed.
Lemma put_kyber_same pni s : put_kyber pni (pt_kyber (table_of pni s)) s = s.
Proof. destruct pni, s as [? ? ? [] [] ? ?]; done. Qed.

(** The library does not fail, and the keys of the identity are there. *)
Definition working (pni : bool) (s : KeyDevice) : Prop :=
  (forall i, is_Some (KyberKeyPairGenerate i)) /\ (forall k m, is_Some (Sign k m)) /\ (pni = true -> is_Some (kd_PNI s)).
Lemma working_identity pni s : working pni s -> exists p, forall s', same_data s s' -> identity_of pni s' = (s', Ok p).
Proof.
  intros (_ & _ & Hp). destruct pni; [destruct (Hp eq_refl) as [p E]; exists p|exists (kd_ACI s)]; intros s' (E1 & E2 & _); unfold identity_of.
  - by rewrite E2, E.
  - by rewrite E1.
Qed.
Lemma new_prekey_numbers : numbers pkr_ID new_prekey.
Proof. intros k s. eexists _, _. done. Qed.
Lemma new_kyber_numbers pni s p : working pni s -> numbers kpk_ID (new_kyber p).
Proof.
  intros (Hg & Hs & _) k s0. destruct (Hg (kd_draws s0)) as [q Hq]. destruct (Hs (ik_Private p) (Kyber_GetPublicKey q)) as [sg Hsg].
  eexists (mkKyberPreKey k q sg), _. unfold new_kyber, sbind, draw, or_panic, slift, sret. rewrite Hq, Hsg. done.
Qed.

Lemma store_prekey_ok pni r s : pt_keys (table_of pni s) !! pkr_ID r = None ->
  StorePreKey pni 0 r s = (put_keys pni (<[pkr_ID r := r]> (pt_keys (table_of pni s))) s, Ok tt).
Proof. intros Hn. unfold StorePreKey, insert_row. cbn [check_id Z.ltb Z.compare andb obind]. by rewrite Hn. Qed.
Lemma store_kyber_ok pni r s : pt_kyber (table_of pni s) !! kpk_ID r = None ->
  StoreKyberPreKey pni 0 r s = (put_kyber pni (<[kpk_ID r := (r, false)]> (pt_kyber (table_of pni s))) s, Ok tt).
Proof. intros Hn. unfold StoreKyberPreKey, storeKyberPreKey, insert_row. cbn [check_id Z.ltb Z.compare andb obind]. by rewrite Hn. Qed.

(** What a batch does to the other table, to the requests and identities. *)
Lemma same_put_keys pni m s s1 : same_data s s1 -> pt_kyber (table_of pni (put_keys pni m s1)) = pt_kyber (table_of pni s)
  /\ pt_keys (table_of pni (put_keys pni m s1)) = m /\ kd_requests (put_keys pni m s1) = kd_requests s
  /\ kd_ACI (put_keys pni m s1) = kd_ACI s /\ kd_PNI (put_keys pni m s1) = kd_PNI s.
Proof.
  intros Hs. unfold put_keys. rewrite table_set, requests_set, (same_table _ _ pni Hs). destruct Hs as (? & ? & ? & ? & ? & ?). by destruct pni.
Qed.
Lemma same_put_kyber pni m s s1 : same_data s s1 -> pt_keys (table_of pni (put_kyber pni m s1)) = pt_keys (table_of pni s)
  /\ pt_kyber (table_of pni (put_kyber pni m s1)) = m /\ kd_requests (put_kyber pni m s1) = kd_requests s
  /\ kd_ACI (put_kyber pni m s1) = kd_ACI s /\ kd_PNI (put_kyber pni m s1) = kd_PNI s.
Proof.
  intros Hs. unfold put_kyber. rewrite table_set, requests_set, (same_table _ _ pni Hs). destruct Hs as (? & ? & ? & ? & ? & ?). by destruct pni.
Qed.

(** The devices agree on everything but the tables. *)
Definition same_owner (s s' : KeyDevice) : Prop := kd_requests s' = kd_requests s /\ kd_ACI s' = kd_ACI s /\ kd_PNI s' = kd_PNI s.
(** A table that is full enough for the upload that is due. *)
Definition filled {A : Type} (serverCount : Z) (m m' : gmap Z A) : Prop :=
  grown m m' /\ if needs_upload serverCount (Z.of_nat (size m)) then PREKEY_BATCH_SIZE <= Z.of_nat (size m') else m' = m.

Lemma prekey_batch pni n s : table_ok (table_of pni s) -> room (pt_keys (table_of pni s)) ->
  exists s', GenerateAndSaveNextPreKeyBatch pni n s = (s', Ok (needs_upload n (Z.of_nat (size (pt_keys (table_of pni s))))))
    /\ same_owner s s' /\ pt_kyber (table_of pni s') = pt_kyber (table_of pni s) /\ table_ok (table_of pni s')
    /\ filled n (pt_keys (table_of pni s)) (pt_keys (table_of pni s')).
Proof.
  intros Hok Hroom. unfold GenerateAndSaveNextPreKeyBatch, filled. cbn [GetNextPreKeyID count_and_next].
  destruct (needs_upload _ _) eqn:Hn; cbn [negb]; [|by exists s; split_and!; [..|apply grown_refl|]].
  destruct (Z.ltb_spec (Z.of_nat (size (pt_keys (table_of pni s)))) PREKEY_BATCH_SIZE) as [Hlt|Hge]; cycle 1.
  { exists s. split_and!; try done; first [apply grown_refl|lia]. }
  destruct (batch_stored (fun s => pt_keys (table_of pni s)) (put_keys pni) pkr_ID (fun r => r) (StorePreKey pni 0)) with (one := new_prekey) (s := s)
    as (s1 & m' & E & Hs1 & Hg & Hsz & Hm); try done.
  - intros m s0. unfold put_keys. by rewrite table_set.
  - intros m m' s0. unfold put_keys. by rewrite !table_set, set_set.
  - apply put_keys_same.
  - intros r s0. apply store_prekey_ok.
  - apply new_prekey_numbers.
  - intros s0 s0' Hs. by rewrite (same_table _ _ pni Hs).
  - destruct (same_put_keys pni m' s s1 Hs1) as (H1 & H2 & H3 & H4 & H5). exists (put_keys pni m' s1).
    cbn [fst snd count_and_next] in E. unfold GeneratePreKeys. rewrite (sbind_eq _ _ _ _ _ E). cbn. split_and!; try done.
    + split; [|rewrite H1; apply Hok]. intros i r. rewrite H2. intros [Hr|(r' & -> & ->)]%Hm; [by eapply ok_keys|done].
    + rewrite H2. done.
    + rewrite H2. lia.
Qed.

Lemma kyber_batch pni n s : working pni s -> table_ok (table_of pni s) -> room (pt_kyber (table_of pni s)) ->
  exists s', GenerateAndSaveNextKyberPreKeyBatch pni n s = (s', Ok (needs_upload n (Z.of_nat (size (pt_kyber (table_of pni s))))))
    /\ same_owner s s' /\ pt_keys (table_of pni s') = pt_keys (table_of pni s) /\ table_ok (table_of pni s')
    /\ filled n (pt_kyber (table_of pni s)) (pt_kyber (table_of pni s')).
Proof.
  intros Hw Hok Hroom. unfold GenerateAndSaveNextKyberPreKeyBatch, filled. cbn [GetNextKyberPreKeyID count_and_next].
  destruct (needs_upload _ _) eqn:Hn; cbn [negb]; [|by exists s; split_and!; [..|apply grown_refl|]].
  destruct (Z.ltb_spec (Z.of_nat (size (pt_kyber (table_of pni s)))) PREKEY_BATCH_SIZE) as [Hlt|Hge]; cycle 1.
  { exists s. split_and!; try done; first [apply grown_refl|lia]. }
  destruct (working_identity pni s Hw) as [p Hp].
  destruct (batch_stored (fun s => pt_kyber (table_of pni s)) (put_kyber pni) kpk_ID (fun r => (r, false)) (StoreKyberPreKey pni 0)) with (one := new_kyber p) (s := s)
    as (s1 & m' & E & Hs1 & Hg & Hsz & Hm); try done.
  - intros m s0. unfold put_kyber. by rewrite table_set.
  - intros m m' s0. unfold put_kyber. by rewrite !table_set, set_set.
  - apply put_kyber_same.
  - intros r s0. apply store_kyber_ok.
  - by eapply new_kyber_numbers.
  - intros s0 s0' Hs. by rewrite (same_table _ _ pni Hs).
  - destruct (same_put_kyber pni m' s s1 Hs1) as (H1 & H2 & H3 & H4 & H5). exists (put_kyber pni m' s1).
    cbn [fst snd count_and_next] in E. unfold GenerateKyberPreKeys. unfold sbind at 1 2. rewrite (Hp s (same_refl s)).
    setoid_rewrite E. cbn. split_and!; try done.
    + split; [rewrite H1; apply Hok|]. intros i r b. rewrite H2. intros [Hr|(r' & -> & [= -> ->])]%Hm; [by eapply ok_kyber|done].
    + rewrite H2. done.
    + rewrite H2. lia.
Qed.

(** *** The check *)
Context (net : list key_request -> option WebSocketResponseMessage) (parse_counts : bytes -> option (Z * Z)).

Definition network_error (e : prekey_error) : Prop :=
  match e with RequestFailed | PrekeyUpload422 | UnexpectedStatus _ | InvalidJSON => True | _ => False end.

(** The upload lists the public halves of the table, each once; last resort
    keys are not in it. *)
Definition lists_table (reg : RegisterJSON) (t : PreKeyTable) : Prop :=
  (forall j, j ∈ rj_preKeys reg <-> exists r, pt_keys t !! jk_keyId j = Some r /\ j = PreKeyToJSON r)
  /\ (forall j, j ∈ rj_pqPreKeys reg <-> exists r, pt_kyber t !! jk_keyId j = Some (r, false) /\ j = KyberPreKeyToJSON r)
  /\ length (rj_preKeys reg) = size (pt_keys t).

Lemma all_prekeys_spec pni s r : table_ok (table_of pni s) -> r ∈ AllPreKeys pni s <-> pt_keys (table_of pni s) !! pkr_ID r = Some r.
Proof.
  intros Hok. unfold AllPreKeys. rewrite list_elem_of_fmap. split.
  - intros ([i r'] & -> & Hi%elem_of_map_to_list). cbn. by rewrite (ok_keys _ Hok _ _ Hi).
  - intros Hr. exists (pkr_ID r, r). split; [done|by apply elem_of_map_to_list].
Qed.
Lemma all_kyber_spec pni s r : table_ok (table_of pni s) -> r ∈ AllNormalKyberPreKeys pni s <-> pt_kyber (table_of pni s) !! kpk_ID r = Some (r, false).
Proof.
  intros Hok. unfold AllNormalKyberPreKeys. rewrite list_elem_of_fmap. split.
  - intros ([r' b] & -> & [Hb Hr]%list_elem_of_filter). cbn in Hb |- *. subst b. apply list_elem_of_fmap in Hr as ([i q] & Hq & Hi%elem_of_map_to_list).
    cbn in Hq. subst q. by rewrite (ok_kyber _ Hok _ _ _ Hi).
  - intros Hr. exists (r, false). split; [done|]. apply list_elem_of_filter. split; [done|]. apply list_elem_of_fmap.
    exists (kpk_ID r, (r, false)). split; [done|by apply elem_of_map_to_list].
Qed.

Lemma registered_lists pni s identityKey : table_ok (table_of pni s) ->
  lists_table (mkRegister (map PreKeyToJSON (AllPreKeys pni s)) (map KyberPreKeyToJSON (AllNormalKyberPreKeys pni s)) identityKey) (table_of pni s).
Proof.
  intros Hok. split_and!; cbn.
  - intros j. change (map PreKeyToJSON) with (fmap (M := list) PreKeyToJSON). rewrite list_elem_of_fmap. setoid_rewrite all_prekeys_spec; [|done]. split.
    + intros (r & -> & Hr). by exists r.
    + intros (r & Hr & ->). exists r. by rewrite <- (ok_keys _ Hok _ _ Hr) in Hr at 1.
  - intros j. change (map KyberPreKeyToJSON) with (fmap (M := list) KyberPreKeyToJSON). rewrite list_elem_of_fmap. setoid_rewrite all_kyber_spec; [|done]. split.
    + intros (r & -> & Hr). by exists r.
    + intros (r & Hr & ->). by exists r.
  - unfold AllPreKeys. by rewrite length_map, length_fmap, length_map_to_list.
Qed.

(** Registering uploads the tables; it only fails in the network. *)
Lemma register_all_ok pni s : working pni s -> table_ok (table_of pni s) -> (0 < size (pt_keys (table_of pni s)))%nat ->
  exists s' o reg, RegisterAllPreKeys net pni s = (s', o) /\ table_of pni s' = table_of pni s
    /\ kd_requests s' = kd_requests s ++ [PutKeys pni reg] /\ lists_table reg (table_of pni s)
    /\ match o with Ok _ => True | Err e => network_error e | Panic => False end.
Proof.
  intros Hw Hok Hne. destruct (working_identity pni s Hw) as [p Hp].
  pose proof (registered_lists pni s (Base64.encode (Serialize (ik_Public p))) Hok) as Hreg.
  unfold RegisterAllPreKeys. destruct (_ && _) eqn:E.
  { apply andb_true_iff in E as [E%Nat.eqb_eq _]. destruct Hreg as (_ & _ & Hl). cbn in Hl. rewrite length_map in Hl. lia. }
  rewrite (sbind_eq _ _ _ _ _ (Hp s (same_refl s))). unfold RegisterPreKeys, send_request, sbind. cbn zeta.
  destruct (net _) as [resp|] eqn:En; cbn [of_option].
  - unfold slift, sret, slift. repeat case_match; eexists _, _, _; split_and!; try done.
  - eexists _, _, _. split_and!; try done.
Qed.

Lemma counts_ok pni s : exists o, GetMyKeyCounts net parse_counts pni s = (add_request (GetCounts pni) s, o)
  /\ match o with Ok c => net (kd_requests s ++ [GetCounts pni]) ≫= (fun r => parse_counts (default [] (rs_Body r))) = Some c | Err e => network_error e | Panic => False end.
Proof.
  unfold GetMyKeyCounts, send_request, sbind. cbn zeta. cbn [add_request kd_requests].
  destruct (net _) as [resp|] eqn:En; cbn [of_option]; [|unfold slift; by eexists].
  unfold DecodeWSResponseBody, slift. cbn [negb]. cbn zeta. destruct (_ || _); [by eexists|]. eexists. split; [done|]. cbn. by destruct (parse_counts _).
Qed.

Lemma needs_upload_false n m : needs_upload n m = false -> PREKEY_BATCH_SIZE / 2 <= n /\ uint32 n <= m.
Proof. intros [H1%Z.ltb_ge H2%Z.ltb_ge]%orb_false_iff. done. Qed.

(** A check that ended: the tables only grew; it failed in the network, or the
    counts [ec] and [pq] were reported, low tables were filled, and the tables
    were uploaded when one was low. *)
Definition check_outcome (pni : bool) (s s' : KeyDevice) (o : outcome prekey_error unit) : Prop :=
  let t := table_of pni s in
  table_ok (table_of pni s') /\ grown (pt_keys t) (pt_keys (table_of pni s')) /\ grown (pt_kyber t) (pt_kyber (table_of pni s'))
  /\ match o with
     | Ok _ => exists ec pq, net (kd_requests s ++ [GetCounts pni]) ≫= (fun r => parse_counts (default [] (rs_Body r))) = Some (ec, pq)
         /\ filled ec (pt_keys t) (pt_keys (table_of pni s')) /\ filled pq (pt_kyber t) (pt_kyber (table_of pni s'))
         /\ if needs_upload ec (Z.of_nat (size (pt_keys t))) || needs_upload pq (Z.of_nat (size (pt_kyber t)))
            then exists reg, kd_requests s' = kd_requests s ++ [GetCounts pni; PutKeys pni reg] /\ lists_table reg (table_of pni s')
            else kd_requests s' = kd_requests s ++ [GetCounts pni]
     | Err e => network_error e
     | Panic => False
     end.

Lemma check_ends pni s :
  (forall b c, parse_counts b = Some c -> c.1 < 2 ^ 32) ->
  working pni s -> table_ok (table_of pni s) -> room (pt_keys (table_of pni s)) -> room (pt_kyber (table_of pni s)) ->
  exists s' o, CheckAndUploadNewPreKeys net parse_counts pni s = (s', o) /\ check_outcome pni s s' o.
Proof.
  intros Hc Hw Hok Hr1 Hr2. unfold check_outcome. set (t := table_of pni s). cbn zeta. unfold CheckAndUploadNewPreKeys. destruct (counts_ok pni s) as (o & E & Ho). rewrite (sbind_eq _ _ _ _ _ E).
  assert (Et : table_of pni (add_request (GetCounts pni) s) = t) by by destruct pni.
  destruct o as [[ec pq]|e|]; [|by eexists _, _; split_and!; [done|rewrite Et; auto using grown_refl..|]|done].
  destruct (prekey_batch pni ec (add_request (GetCounts pni) s)) as (s1 & E1 & (Hq1 & Ha1 & Hp1) & Hky1 & Hok1 & Hf1); [by rewrite Et..|].
  rewrite (sbind_eq _ _ _ _ _ E1). rewrite Et in Hky1, Hf1 |- *.
  assert (Hw1 : working pni s1) by (destruct Hw as (? & ? & ?); split_and!; try done; by rewrite Hp1).
  destruct (kyber_batch pni pq s1) as (s2 & E2 & (Hq2 & Ha2 & Hp2) & Hk2 & Hok2 & Hf2); [done..|by rewrite Hky1|].
  rewrite (sbind_eq _ _ _ _ _ E2). rewrite Hky1 in Hf2 |- *. rewrite <- Hk2 in Hf1.
  assert (Hreq : kd_requests s2 = kd_requests s ++ [GetCounts pni]) by by rewrite Hq2, Hq1.
  rewrite <- negb_orb. destruct (needs_upload ec _ || needs_upload pq _) eqn:En; cbn [negb]; cycle 1.
  { exists s2, (Ok tt). split_and!; try done; [apply Hf1|apply Hf2|]. exists ec, pq. by rewrite Hreq, En. }
  assert (Hpos : (0 < size (pt_keys (table_of pni s2)))%nat).
  { destruct Hf1 as [_ Hf1]. destruct (needs_upload ec _) eqn:Eu; [unfold PREKEY_BATCH_SIZE in Hf1; lia|]. rewrite Hf1.
    apply needs_upload_false in Eu as [Eu1 Eu2]. assert (Hec : ec < 2 ^ 32) by (destruct (net _); [by apply Hc in Ho|done]).
    rewrite Et in Eu2. rewrite wrap_small in Eu2; unfold in_width, PREKEY_BATCH_SIZE in *; lia. }
  destruct (register_all_ok pni s2) as (s3 & o & reg & E3 & Ht3 & Hq3 & Hl & Ho3); [|done..|].
  { destruct Hw1 as (? & ? & ?). split_and!; try done. by rewrite Hp2. }
  exists s3, o. rewrite E3, Ht3. split_and!; try done; [apply Hf1|apply Hf2|]. destruct o as [[]|e|]; [|done..].
  exists ec, pq. rewrite En. split_and!; try done; try apply Hf1; try apply Hf2. exists reg. rewrite Hq3, Hreq, <- app_assoc. done.
Qed.

(** C20: the check of the prekeys keeps the server supplied with keys that can be
    decrypted with.  Whatever the server answers, no stored key is lost or
    replaced, new keys get larger IDs than all old ones, and the check only
    fails because of the network.  When it succeeds every table that was low
    has been filled up to [PREKEY_BATCH_SIZE] keys, and when something was low
    exactly the stored keys (and no last resort keys) were uploaded; otherwise
    nothing was changed or sent.  The counts of the server are assumed to fit
    32 bits, and the IDs to leave room for a batch. *)
Theorem prekey_check_correct pni s :
  (forall b c, parse_counts b = Some c -> c.1 < 2 ^ 32) ->
  working pni s -> table_ok (table_of pni s) -> room (pt_keys (table_of pni s)) -> room (pt_kyber (table_of pni s)) ->
  let t := table_of pni s in
  exists s' o, CheckAndUploadNewPreKeys net parse_counts pni s = (s', o) /\ table_ok (table_of pni s')
    /\ grown (pt_keys t) (pt_keys (table_of pni s')) /\ grown (pt_kyber t) (pt_kyber (table_of pni s'))
    /\ match o with
       | Ok _ => exists ec pq, net (kd_requests s ++ [GetCounts pni]) ≫= (fun r => parse_counts (default [] (rs_Body r))) = Some (ec, pq)
           /\ filled ec (pt_keys t) (pt_keys (table_of pni s')) /\ filled pq (pt_kyber t) (pt_kyber (table_of pni s'))
           /\ if needs_upload ec (Z.of_nat (size (pt_keys t))) || needs_upload pq (Z.of_nat (size (pt_kyber t)))
              then exists reg, kd_requests s' = kd_requests s ++ [GetCounts pni; PutKeys pni reg] /\ lists_table reg (table_of pni s')
              else kd_requests s' = kd_requests s ++ [GetCounts pni]
       | Err e => network_error e
       | Panic => False
       end.
Proof. apply check_ends. Qed.
End Proofs.

(** ** Sample runs *)
Module SamplePreKeys.
Import SampleCurve.
#[local] Instance toy_lib : PreKeyLib := {
  Sign k m := Some (k ++ m);
  KyberKeyPair := bytes;
  KyberKeyPairGenerate i := Some (repeat (z2b (Z.of_nat i)) 32);
  Kyber_GetPublicKey k := k
}.
Definition identity : IdentityKeyPair := mkPair (str "public") (str "private").
Definition fresh_device : KeyDevice := mkKeyDevice identity None false empty_table empty_table 0 [].

(** A server that reports 40 keys of each kind and accepts everything. *)
Definition counts (b : bytes) : option (Z * Z) := if beqb b (str "40") then Some (40, 40) else None.
Definition server (rs : list key_request) : option WebSocketResponseMessage :=
  match last rs with
  | Some (GetCounts _) => Some (mkWsResponse None (Some 200) None [] (Some (str "40")))
  | Some (PutKeys _ _) => Some (mkWsResponse None (Some 200) None [] None)
  | None => None
  end.

Lemma prekey_check_correct_witness :
  exists s' o, CheckAndUploadNewPreKeys server counts false fresh_device = (s', o) /\ grown ∅ (pt_keys (kd_aciTable s')).
Proof.
  destruct (prekey_check_correct server counts false fresh_device) as (s' & o & E & _ & Hg & _).
  - intros b c. unfold counts. destruct (beqb _ _); [|discriminate]. intros [= <-]. vm_compute. reflexivity.
  - split; [|split].
    + intros i. by eexists.
    + intros k m. by eexists.
    + discriminate.
  - split; cbn; intros *; by rewrite lookup_empty.
  - vm_compute. reflexivity.
  - vm_compute. reflexivity.
  - exists s', o. split; [exact E|exact Hg].
Defined.

(** The check runs again when 60 keys were handed out, but none of the messages
    made with them has arrived: the same keys are uploaded again.  When the
    first message arrives its key is deleted, and the server can hand out a
    key that cannot be used to decrypt. *)
Definition first_check : KeyDevice := (CheckAndUploadNewPreKeys server counts false fresh_device).1.
Definition second_check : KeyDevice := (CheckAndUploadNewPreKeys server counts false first_check).1.
Lemma handed_out_key_uploaded :
  match last (kd_requests second_check) with Some (PutKeys _ reg) => bool_decide (1 ∈ map jk_keyId (rj_preKeys reg)) | _ => false end = true
  /\ forallb (fun id => bool_decide ((pkr_Private <$> LoadPreKey false id second_check) = (pkr_Private <$> LoadPreKey false id first_check))) (seqZ 1 100) = true
  /\ bool_decide (is_Some (LoadPreKey false 1 second_check)) = true /\ bool_decide (is_Some (LoadPreKey false 1 (RemovePreKey false 1 second_check))) = false.
Proof. split_and!; vm_compute; reflexivity. Qed.
End SamplePreKeys.
