(* ===== verification/Linking.v ===== *)
(** Linking the bridge as a device of an account
    ([pkg/signalmeow/provisioning.go], the device table of
    [pkg/signalmeow/store/container.go], clearing keys in [store/device.go]).

    The primary device hands over the keys of the account through the
    provisioning websocket; the bridge makes its own prekeys, confirms the
    device on a second websocket, and stores what it got.  The database is a
    record of finite maps keyed by account.  [PreKeys] has the stores of the
    keys and goes on where this file ends. *)
From S2P Require Import Prelude GoLib ServiceId Crypto Provisioning WsMessages RecipientStore PreKeys.

(** [url.QueryEscape] *)
Definition hex_digit (z : Z) : byte := nth (Z.to_nat z) (str "0123456789ABCDEF") x00.
Definition escape_byte (b : byte) : bytes :=
  let z := b2z b in
  if (65 <=? z) && (z <=? 90) || (97 <=? z) && (z <=? 122) || (48 <=? z) && (z <=? 57)
     || (z =? 45) || (z =? 46) || (z =? 95) || (z =? 126) then [b]
  else if z =? 32 then str "+"
  else [x25; hex_digit (z / 16); hex_digit (z mod 16)].
Definition QueryEscape (s : bytes) : bytes := concat (map escape_byte s).

Class LinkLib `{C : CryptoLib} `{K : CurveLib} : Type := {
  DeserializePrivateKey : bytes -> option PrivateKey;
  DeriveSVRKey : bytes -> option bytes;
  RandomString : nat -> nat -> bytes;
  RandomInt : nat -> Z;
  (** protobuf: a provisioning address, an envelope *)
  unmarshal_address : bytes -> option bytes;
  unmarshal_envelope : bytes -> option ProvisionEnvelope;
  marshal_device_name : DeviceName -> option bytes
}.

(** [signalpb.ProvisionMessage] *)
Record ProvisionMessage := mkProvision {
  pm_AciIdentityKeyPublic : bytes;
  pm_AciIdentityKeyPrivate : bytes;
  pm_PniIdentityKeyPublic : bytes;
  pm_PniIdentityKeyPrivate : bytes;
  pm_Aci : bytes;
  pm_AciBinary : option bytes;
  pm_Pni : bytes;
  pm_PniBinary : option bytes;
  pm_Number : bytes;
  pm_ProvisioningCode : option bytes;
  pm_ProfileKey : bytes;
  pm_AccountEntropyPool : bytes;
  pm_EphemeralBackupKey : bytes;
  pm_MediaRootBackupKey : bytes;
  pm_AuthCredentialSalt : bytes
}.

Inductive ProvisioningState := StateProvisioningError | StateProvisioningURLReceived | StateProvisioningDataReceived.

Inductive link_error :=
| OpenWebsocket
| ReadWebsocket
| WriteWebsocket
| UnexpectedMessage
| UnmarshalFailed
| DecryptFailed (e : provisioning_error)
| KeyFailed
| ACIFailed
| NameFailed
| DeviceLinkError (statusCode : Z)
| ResponseJSON
| DeviceIDMustBeSet
| ScanDevice
| SaveKeys (e : prekey_error)
| SaveProfileKey.

(** What one websocket does: whether it opens, the messages that are read and
    whether the writes succeed. *)
Record Socket := mkSocket { so_open : bool; so_reads : list WebSocketMessage; so_writes : list bool }.

Section Linking.
Context `{U : UUIDLib} `{C : CryptoLib} `{K : CurveLib} `{LL : !LinkLib} `{L : !PreKeyLib}.
Context (unmarshal_message : bytes -> option ProvisionMessage).

(** ** The provisioning websocket *)

(** [startProvisioning]: the URL for the QR code and the response. *)
Definition provisioning_URL (address pubKey : bytes) (allowBackup : bool) : bytes :=
  str "sgnl://linkdevice?capabilities=" ++ QueryEscape (if allowBackup then str "backup5,nopni2" else str "nopni2")
  ++ str "&pub_key=" ++ QueryEscape (Base64.encode pubKey) ++ str "&uuid=" ++ QueryEscape address.

Definition is_request (msg : WebSocketMessage) (path : bytes) : bool :=
  (default 0 (ms_Type msg) =? WebSocketMessage_REQUEST)
  && beqb (default [] (ms_Request msg ≫= rq_Verb)) (str "PUT") && beqb (default [] (ms_Request msg ≫= rq_Path)) path.

Definition startProvisioning (msg : option WebSocketMessage) (write_ok : bool) (keyPair : PrivateKey) (allowBackup : bool)
  : outcome link_error (bytes * option WebSocketMessage) :=
  let! msg := of_option ReadWebsocket msg in
  if negb (is_request msg (str "/v1/address")) then Err UnexpectedMessage
  else
    let! address := of_option UnmarshalFailed (unmarshal_address (default [] (ms_Request msg ≫= rq_Body))) in
    let url := provisioning_URL address (Serialize (GetPublicKey keyPair)) allowBackup in
    if write_ok then Ok (url, CreateWSResponse (default 0 (ms_Request msg ≫= rq_Id)) 200) else Err WriteWebsocket.

(** A missing field panics: the code dereferences type, verb, path and ID.  The
    conditions are checked from left to right. *)
Definition continueProvisioning (msg : option WebSocketMessage) (write_ok : bool) (keyPair : PrivateKey)
  : outcome link_error ProvisionMessage :=
  let! msg := of_option ReadWebsocket msg in
  let deref {A} (o : option A) : outcome link_error A := match o with Some a => Ok a | None => Panic end in
  let! type := deref (ms_Type msg) in
  let! good := if type =? WebSocketMessage_REQUEST then
                 let! verb := deref (ms_Request msg ≫= rq_Verb) in
                 if beqb verb (str "PUT") then let! path := deref (ms_Request msg ≫= rq_Path) in Ok (beqb path (str "/v1/message")) else Ok false
               else Ok false in
  if (good : bool) then
    let! envelope := of_option UnmarshalFailed (unmarshal_envelope (default [] (ms_Request msg ≫= rq_Body))) in
    let! _ := deref (ms_Request msg ≫= rq_Id) in
    if write_ok then wrap_err DecryptFailed (ProvisioningCipher_Decrypt unmarshal_message (Some keyPair) envelope) else Err WriteWebsocket
  else
    (* the message of the error dereferences verb and path *)
    let! _ := deref (ms_Request msg ≫= rq_Verb) in let! _ := deref (ms_Request msg ≫= rq_Path) in Err UnexpectedMessage.

(** ** The device *)
Record DeviceData := mkDeviceData {
  dd_ACIIdentityKeyPair : IdentityKeyPair;
  dd_PNIIdentityKeyPair : option IdentityKeyPair;
  dd_ACIRegistrationID : Z;
  dd_PNIRegistrationID : Z;
  dd_ACI : UUID;
  dd_PNI : UUID;
  dd_DeviceID : Z;
  dd_Number : bytes;
  dd_Password : bytes;
  dd_MasterKey : option bytes;
  dd_AccountEntropyPool : bytes;
  dd_EphemeralBackupKey : option (fixed 32);
  dd_MediaRootBackupKey : option (fixed 32);
  dd_AuthCredentialSalt : bytes
}.
Definition ACIServiceID (d : DeviceData) : ServiceID := NewACIServiceID (dd_ACI d).
Definition PNIServiceID (d : DeviceData) : ServiceID := if bool_decide (dd_PNI d = uuid_Nil) then EmptyServiceID else NewPNIServiceID (dd_PNI d).

(** The database, and the keys drawn so far.  Sessions are kept as the
    addresses they exist for. *)
Record LinkState := mkLinkState {
  ls_devices : gmap UUID DeviceData;
  ls_tables : gmap (UUID * ServiceID) PreKeyTable;
  ls_identities : gmap (UUID * ServiceID) PublicKey;
  ls_sessions : gmap UUID (list (ServiceID * Z));
  ls_recipients : gmap UUID (list Recipient);
  ls_draws : nat
}.
Definition link_m (A : Type) : Type := stateE LinkState link_error A.
Definition lset_devices x s := mkLinkState x (ls_tables s) (ls_identities s) (ls_sessions s) (ls_recipients s) (ls_draws s).
Definition lset_tables x s := mkLinkState (ls_devices s) x (ls_identities s) (ls_sessions s) (ls_recipients s) (ls_draws s).
Definition lset_identities x s := mkLinkState (ls_devices s) (ls_tables s) x (ls_sessions s) (ls_recipients s) (ls_draws s).
Definition lset_sessions x s := mkLinkState (ls_devices s) (ls_tables s) (ls_identities s) x (ls_recipients s) (ls_draws s).
Definition lset_recipients x s := mkLinkState (ls_devices s) (ls_tables s) (ls_identities s) (ls_sessions s) x (ls_draws s).
Definition lset_draws x s := mkLinkState (ls_devices s) (ls_tables s) (ls_identities s) (ls_sessions s) (ls_recipients s) x.

Definition PutDevice (d : DeviceData) : link_m unit := fun s =>
  if bool_decide (dd_ACI d = uuid_Nil) then (s, Err DeviceIDMustBeSet) else (lset_devices (<[dd_ACI d := d]> (ls_devices s)) s, Ok tt).
(** Loading a device deserialises the PNI key pair when there is a PNI; a
    missing pair was stored as no bytes, which is not a key pair.  Without a
    PNI the pair is not loaded. *)
Definition DeviceByACI (aci : UUID) : link_m (option DeviceData) := fun s =>
  (s, match ls_devices s !! aci with
      | None => Ok None
      | Some d =>
          if bool_decide (dd_PNI d = uuid_Nil)
          then Ok (Some (mkDeviceData (dd_ACIIdentityKeyPair d) None (dd_ACIRegistrationID d) (dd_PNIRegistrationID d) (dd_ACI d) (dd_PNI d) (dd_DeviceID d) (dd_Number d)
                           (dd_Password d) (dd_MasterKey d) (dd_AccountEntropyPool d) (dd_EphemeralBackupKey d) (dd_MediaRootBackupKey d) (dd_AuthCredentialSalt d)))
          else match dd_PNIIdentityKeyPair d with Some _ => Ok (Some d) | None => Err ScanDevice end
      end).
(** The prekeys of the account, then its sessions. *)
Definition ClearDeviceKeys (aci : UUID) (s : LinkState) : LinkState :=
  lset_sessions (delete aci (ls_sessions s)) (lset_tables (filter (fun '((a, _), _) => a <> aci) (ls_tables s)) s).
(** The sessions with the own service IDs were removed before, so that the
    archiving of [SaveIdentityKey] finds none. *)
Definition save_own_identity (aci : UUID) (sid : ServiceID) (k : PublicKey) : link_m unit :=
  smodify (fun s => lset_identities (<[(aci, sid) := k]> (ls_identities s)) s).

(** The keys of one service ID as [PreKeys] sees them. *)
Definition table_at (aci : UUID) (sid : ServiceID) (s : LinkState) : PreKeyTable := default empty_table (ls_tables s !! (aci, sid)).
Definition as_keys (p : IdentityKeyPair) (t : PreKeyTable) (draws : nat) : KeyDevice := mkKeyDevice p None false t empty_table draws [].
(** Running an operation of [PreKeys] on a table. *)
Definition on_table {A : Type} (d : DeviceData) (sid : ServiceID) (m : keys_m A) : link_m A := fun s =>
  let '(k, o) := m (as_keys (dd_ACIIdentityKeyPair d) (table_at (dd_ACI d) sid s) (ls_draws s)) in
  (lset_draws (kd_draws k) (lset_tables (<[(dd_ACI d, sid) := kd_aciTable k]> (ls_tables s)) s), wrap_err SaveKeys o).
(** Generating keys needs no table. *)
Definition generating {A : Type} (p : IdentityKeyPair) (m : keys_m A) : link_m A := fun s =>
  let '(k, o) := m (as_keys p empty_table (ls_draws s)) in (lset_draws (kd_draws k) s, wrap_err SaveKeys o).
Definition link_draw : link_m nat := fun s => (lset_draws (S (ls_draws s)) s, Ok (ls_draws s)).

(** ** Confirming the device *)
Definition getSignalCapabilities (phonenumberless : bool) : list (bytes * bool) :=
  [(str "attachmentBackfill", true); (str "spqr", true); (str "usernameChangeSyncMessage", true); (str "optionalPhoneNumber", phonenumberless)].

Record LinkJSON := mkLinkJSON {
  lj_verificationCode : bytes;
  lj_name : bytes;
  lj_registrationId : Z;
  lj_pniRegistrationId : option Z;
  lj_capabilities : list (bytes * bool);
  lj_aciSignedPreKey : JSONKey;
  lj_aciPqLastResortPreKey : JSONKey;
  lj_pniSignedPreKey : option JSONKey;
  lj_pniPqLastResortPreKey : option JSONKey
}.
Record ConfirmDeviceResponse := mkConfirm { cd_ACI : UUID; cd_PNI : UUID; cd_DeviceID : Z }.

(** The second websocket: the answer to the request, unless opening, writing or
    reading fails. *)
Context (json_link : LinkJSON -> bytes) (json_confirm : bytes -> option ConfirmDeviceResponse).
Context (link_socket : WebSocketMessage -> outcome link_error WebSocketMessage).

Definition link_request (username password : bytes) (data : LinkJSON) : WebSocketMessage :=
  let r := CreateWSRequest (str "PUT") (str "/v1/devices/link") (Some (json_link data)) (Some username) (Some password) in
  mkWsMessage (Some WebSocketMessage_REQUEST) (Some (mkWsRequest (rq_Verb r) (rq_Path r) (rq_Body r) (rq_Headers r) (Some 1))) None.

Record own_keys := mkOwnKeys { ow_pair : IdentityKeyPair; ow_registrationID : Z; ow_signed : SignedPreKeyRecord; ow_lastResort : KyberPreKeyRecord }.

Definition confirmDevice (username password code : bytes) (aci : own_keys) (pni : option own_keys) (deviceName : bytes) : link_m ConfirmDeviceResponse :=
  let* i := link_draw in
  let* encryptedDeviceName := slift (wrap_err (fun _ => NameFailed) (EncryptDeviceName marshal_device_name i deviceName (ik_Public (ow_pair aci)))) in
  let hasE164 := match pni with Some _ => true | None => false end in
  let data := mkLinkJSON code (Base64.encode encryptedDeviceName) (ow_registrationID aci) (ow_registrationID <$> pni) (getSignalCapabilities (negb hasE164))
                (SignedPreKeyToJSON (ow_signed aci)) (KyberPreKeyToJSON (ow_lastResort aci))
                (SignedPreKeyToJSON ∘ ow_signed <$> pni) (KyberPreKeyToJSON ∘ ow_lastResort <$> pni) in
  let* receivedMsg := slift (link_socket (link_request username password data)) in
  let status := default 0 (ms_Response receivedMsg ≫= rs_Status) in
  if (status <? 200) || (300 <=? status) then slift (Err (DeviceLinkError status))
  else slift (of_option ResponseJSON (json_confirm (default [] (ms_Response receivedMsg ≫= rs_Body)))).

(** ** Finishing *)
Definition identity_pair (public private : bytes) : outcome link_error IdentityKeyPair :=
  let! pub := of_option KeyFailed (DeserializePublicKey public) in
  let! priv := of_option KeyFailed (DeserializePrivateKey private) in
  Ok (mkPair pub priv).

(** Registration ID, signed prekey and last resort prekey of an identity. *)
Definition make_own_keys (p : IdentityKeyPair) : link_m own_keys :=
  let* i := link_draw in
  let* signed := generating p (GenerateSignedPreKey 1 p) in
  let* kyber := generating p (GenerateKyberPreKeys 1 1 p) in
  match kyber with
  | lastResort :: _ => sret (mkOwnKeys p (RandomInt i mod 16383 + 1) signed lastResort)
  | [] => slift Panic
  end.

Definition BytesToBackupKey (b : bytes) : option (fixed 32) := to_fixed 32 b.

Definition new_device (msg : ProvisionMessage) (password : bytes) (aci : own_keys) (pni : option own_keys) (r : ConfirmDeviceResponse) : DeviceData :=
  mkDeviceData (ow_pair aci) (ow_pair <$> pni) (ow_registrationID aci) (default 0 (ow_registrationID <$> pni)) (cd_ACI r) (cd_PNI r)
    (if cd_DeviceID r =? 0 then 1 else cd_DeviceID r) (pm_Number msg) password
    (if beqb (pm_AccountEntropyPool msg) [] then None else DeriveSVRKey (pm_AccountEntropyPool msg)) (pm_AccountEntropyPool msg)
    (BytesToBackupKey (pm_EphemeralBackupKey msg)) (BytesToBackupKey (pm_MediaRootBackupKey msg)) (pm_AuthCredentialSalt msg).

(** The identity key, the signed prekey and the last resort prekey of one
    service ID. *)
Definition store_own_keys (device : DeviceData) (sid : ServiceID) (k : own_keys) (identity : PublicKey) : link_m unit :=
  let* _ := save_own_identity (dd_ACI device) sid identity in
  let* _ := on_table device sid (StoreSignedPreKey false 1 (ow_signed k)) in
  on_table device sid (StoreLastResortKyberPreKey false 1 (ow_lastResort k)).

Definition update_own_recipient (data : DeviceData) (profileKey : fixed 32) : link_m unit := fun s =>
  let updater (r : Recipient) :=
    let p := r_Profile r in
    Some (mkRecipient (r_ACI r) (r_PNI r) (dd_Number data) (r_ContactName r) (r_AvatarHash r) (r_Nickname r)
            (mkProfile (p_Name p) (p_About p) (p_AboutEmoji p) (p_AvatarPath p) profileKey (p_FetchedAt p)) (r_NeedsPNISignature r) (r_Blocked r) (r_Whitelisted r), true) in
  let '(st, o) := LoadAndUpdateRecipient (mkStore (default [] (ls_recipients s !! dd_ACI data)) ∅) (dd_ACI data) (dd_PNI data) updater in
  (lset_recipients (<[dd_ACI data := rows st]> (ls_recipients s)) s, match o with Ok _ => Ok tt | Err _ => Err SaveProfileKey | Panic => Panic end).

(** Storing what was negotiated.  The row of the device is there even when a
    later step fails. *)
Definition store_link (data : DeviceData) (aci : own_keys) (pni : option own_keys) (profileKey : fixed 32) : link_m unit :=
  let* _ := PutDevice data in
  let* loaded := DeviceByACI (dd_ACI data) in
  match loaded with
  | None => slift Panic
  | Some device =>
      let* _ := smodify (ClearDeviceKeys (dd_ACI device)) in
      let* _ := store_own_keys device (ACIServiceID device) aci (ik_Public (dd_ACIIdentityKeyPair device)) in
      let* _ := match pni with
                | None => sret tt
                | Some keys =>
                    match dd_PNIIdentityKeyPair device with
                    | Some p => store_own_keys device (PNIServiceID device) keys (ik_Public p)
                    | None => slift Panic
                    end
                end in
      update_own_recipient data profileKey
  end.

Definition finishProvisioning (msg : ProvisionMessage) (deviceName : bytes) : link_m DeviceData :=
  let* aciPair := slift (identity_pair (pm_AciIdentityKeyPublic msg) (pm_AciIdentityKeyPrivate msg)) in
  let* profileKey := slift (match to_fixed 32 (take 32 (pm_ProfileKey msg)) with Some k => Ok k | None => Panic end) in
  let* i := link_draw in
  let password := RandomString i 22 in
  let* aciKeys := make_own_keys aciPair in
  let* aci := slift (wrap_err (fun _ => ACIFailed) (ParseStringOrBinaryServiceID (pm_Aci msg) (pm_AciBinary msg))) in
  let pniUUID := match ParseStringOrBinaryUUID (pm_Pni msg) (pm_PniBinary msg) with Ok u => u | _ => uuid_Nil end in
  let* pniKeys := if bool_decide (pniUUID = uuid_Nil) then sret None
                  else let* p := slift (identity_pair (pm_PniIdentityKeyPublic msg) (pm_PniIdentityKeyPrivate msg)) in
                       let* k := make_own_keys p in sret (Some k) in
  let* code := slift (match pm_ProvisioningCode msg with Some c => Ok c | None => Panic end) in
  let* r := confirmDevice (ServiceID_String aci) password code aciKeys pniKeys deviceName in
  let data := new_device msg password aciKeys pniKeys r in
  let* _ := store_link data aciKeys pniKeys profileKey in
  sret data.

(** ** The whole flow *)
Record ProvisioningResponse := mkProvResponse { pr_State : ProvisioningState; pr_URL : bytes; pr_Data : option DeviceData; pr_Err : option link_error }.
Definition provisioning_error_response (e : link_error) : ProvisioningResponse := mkProvResponse StateProvisioningError [] None (Some e).

(** What is put on the channel before it is closed; [None]: the goroutine
    panics. *)
Definition PerformProvisioning (ws : Socket) (keyPair : PrivateKey) (deviceName : bytes) (allowBackup : bool) (s : LinkState)
  : LinkState * list ProvisioningResponse * bool :=
  let fail sent e := (s, sent ++ [provisioning_error_response e], false) in
  if negb (so_open ws) then fail [] OpenWebsocket
  else
    match startProvisioning (so_reads ws !! 0%nat) (default false (so_writes ws !! 0%nat)) keyPair allowBackup with
    | Panic => (s, [], true)
    | Err e => fail [] e
    | Ok (url, _) =>
        let sent := [mkProvResponse StateProvisioningURLReceived url None None] in
        match continueProvisioning (so_reads ws !! 1%nat) (default false (so_writes ws !! 1%nat)) keyPair with
        | Panic => (s, sent, true)
        | Err e => fail sent e
        | Ok msg =>
            match finishProvisioning msg deviceName s with
            | (s, Ok data) => (s, sent ++ [mkProvResponse StateProvisioningDataReceived [] (Some data) None], false)
            | (s, Err e) => (s, sent ++ [provisioning_error_response e], false)
            | (s, Panic) => (s, sent, true)
            end
        end
    end.

End Linking.

(** ** Properties *)
Section Proofs.
Context `{U : UUIDLib} `{C : CryptoLib} `{K : CurveLib} `{LL : !LinkLib} `{L : !PreKeyLib}.
Context (json_link : LinkJSON -> bytes) (json_confirm : bytes -> option ConfirmDeviceResponse).
Context (link_socket : WebSocketMessage -> outcome link_error WebSocketMessage).

(** Only the draws differ. *)
Definition same_db (s s' : LinkState) : Prop := s' = lset_draws (ls_draws s') s.
Lemma same_db_refl s : same_db s s. Proof. by destruct s. Qed.
Lemma same_db_draws s n : same_db s (lset_draws n s). Proof. by destruct s. Qed.
Lemma same_db_trans s1 s2 s3 : same_db s1 s2 -> same_db s2 s3 -> same_db s1 s3.
Proof. unfold same_db. intros E1 E2. rewrite E2, E1. done. Qed.

Lemma link_draw_Ok s s' i : link_draw s = (s', Ok i) -> same_db s s'.
Proof. intros [= <- _]. apply same_db_draws. Qed.
Lemma generating_Ok {A : Type} p (m : keys_m A) s s' a : generating p m s = (s', Ok a) ->
  same_db s s' /\ (m (as_keys p empty_table (ls_draws s))).2 = Ok a.
Proof.
  unfold generating. destruct (m _) as [k o]. intros [= <- E]. split; [apply same_db_draws|]. by destruct o; simplify_eq/=.
Qed.

(** The keys of an identity: numbered 1, a registration ID in its range. *)
Record fresh_keys (p : IdentityKeyPair) (k : own_keys) : Prop := mkFresh {
  fresh_pair : ow_pair k = p;
  fresh_registration : 1 <= ow_registrationID k <= 16383;
  fresh_signed : spk_ID (ow_signed k) = 1;
  fresh_lastResort : kpk_ID (ow_lastResort k) = 1
}.

Lemma signed_numbered p s s' r : GenerateSignedPreKey 1 p s = (s', Ok r) -> spk_ID r = 1.
Proof. unfold GenerateSignedPreKey, or_panic. intros (? & ? & _ & (? & ? & _ & [= _ <-])%sbind_Ok)%sbind_Ok. done. Qed.
Lemma kyber_numbered p s s' r l : GenerateKyberPreKeys 1 1 p s = (s', Ok (r :: l)) -> kpk_ID r = 1.
Proof.
  unfold GenerateKyberPreKeys, generate_keys. cbn [Z.ltb Z.compare PREKEY_BATCH_SIZE Pos.compare Pos.compare_cont].
  change (Z.to_nat 1) with 1%nat. change (uint32 (1 + 1)) with 2. cbn [generate_loop]. change (1 <? 2) with true. cbn iota.
  intros (s1 & r1 & E & (? & ? & [= _ <-] & [= _ <- <-])%sbind_Ok)%sbind_Ok. revert E. unfold new_kyber, or_panic.
  by intros (? & ? & _ & (? & ? & _ & (? & ? & _ & [= _ <-])%sbind_Ok)%sbind_Ok)%sbind_Ok.
Qed.

Lemma make_own_keys_Ok p s s' k : make_own_keys p s = (s', Ok k) -> same_db s s' /\ fresh_keys p k.
Proof.
  unfold make_own_keys. intros (s1 & i & E1%link_draw_Ok & (s2 & signed & [E2 H2]%generating_Ok & (s3 & kyber & [E3 H3]%generating_Ok & E)%sbind_Ok)%sbind_Ok)%sbind_Ok.
  destruct kyber as [|last kyber]; [done|]. revert E. intros [= <- <-]. split; [eauto using same_db_trans|]. split; cbn.
  - done.
  - pose proof (Z.mod_pos_bound (RandomInt i) 16383). lia.
  - destruct (GenerateSignedPreKey _ _ _) as [q o] eqn:E. cbn in H2. subst o. by eapply signed_numbered.
  - destruct (GenerateKyberPreKeys _ _ _ _) as [q o] eqn:E. cbn in H3. subst o. by eapply kyber_numbered.
Qed.

(** What the server is told about the keys of an account. *)
Definition tells (aci : own_keys) (pni : option own_keys) (j : LinkJSON) : Prop :=
  lj_registrationId j = ow_registrationID aci /\ lj_pniRegistrationId j = ow_registrationID <$> pni
  /\ lj_aciSignedPreKey j = SignedPreKeyToJSON (ow_signed aci) /\ lj_aciPqLastResortPreKey j = KyberPreKeyToJSON (ow_lastResort aci)
  /\ lj_pniSignedPreKey j = SignedPreKeyToJSON ∘ ow_signed <$> pni /\ lj_pniPqLastResortPreKey j = KyberPreKeyToJSON ∘ ow_lastResort <$> pni.

Lemma confirm_Ok username password code aci pni name s s' r :
  confirmDevice json_link json_confirm link_socket username password code aci pni name s = (s', Ok r) ->
  same_db s s' /\ exists j reply, tells aci pni j /\ lj_verificationCode j = code /\ link_socket (link_request json_link username password j) = Ok reply
    /\ 200 <= default 0 (ms_Response reply ≫= rs_Status) < 300 /\ json_confirm (default [] (ms_Response reply ≫= rs_Body)) = Some r.
Proof.
  unfold confirmDevice. intros (s1 & i & E1%link_draw_Ok & (s2 & nm & [-> _]%slift_Ok & (s3 & reply & [-> Hr]%slift_Ok & E)%sbind_Ok)%sbind_Ok)%sbind_Ok.
  destruct (_ || _) eqn:Hst; [by apply slift_Ok in E as [_ ?]|]. apply slift_Ok in E as [-> E]. apply orb_false_iff in Hst as [H1%Z.ltb_ge H2%Z.leb_gt].
  split; [done|]. eexists _, reply. split; [|split; [|split; [exact Hr|]]]; [done..|]. split; [lia|]. by destruct (json_confirm _); simplify_eq/=.
Qed.

(** The only prekeys of a service ID that was just linked. *)
Definition own_table (k : own_keys) : PreKeyTable := mkTable ∅ {[1 := ow_signed k]} {[1 := (ow_lastResort k, true)]}.

Lemma store_own_keys_eq d sid p k identity s : fresh_keys p k -> ls_tables s !! (dd_ACI d, sid) = None ->
  store_own_keys d sid k identity s
  = (lset_tables (<[(dd_ACI d, sid) := own_table k]> (ls_tables s)) (lset_identities (<[(dd_ACI d, sid) := identity]> (ls_identities s)) s), Ok tt).
Proof.
  intros [_ _ Hs Hk] Hn. unfold store_own_keys. unfold sbind at 1. cbn [save_own_identity smodify].
  unfold sbind, on_table, table_at. cbn [ls_tables lset_identities ls_draws]. rewrite Hn. cbn [default from_option].
  unfold StoreSignedPreKey, insert_row. rewrite Hs. cbn. rewrite lookup_empty. cbn. rewrite lookup_insert_eq. cbn [default from_option].
  unfold StoreLastResortKyberPreKey, storeKyberPreKey, insert_row. rewrite Hk. cbn. rewrite lookup_empty. cbn. rewrite insert_insert_eq. done.
Qed.

(** What the tables hold afterwards. *)
Definition linked_tables (d : DeviceData) (aci : own_keys) (pni : option own_keys) (before after : gmap (UUID * ServiceID) PreKeyTable) : Prop :=
  (forall account sid, account <> dd_ACI d -> after !! (account, sid) = before !! (account, sid))
  /\ after !! (dd_ACI d, ACIServiceID d) = Some (own_table aci)
  /\ (forall k, pni = Some k -> after !! (dd_ACI d, PNIServiceID d) = Some (own_table k))
  /\ (forall sid t, after !! (dd_ACI d, sid) = Some t -> sid = ACIServiceID d \/ pni <> None /\ sid = PNIServiceID d).

Lemma cleared_tables (aci : UUID) (m : gmap (UUID * ServiceID) PreKeyTable) a sid :
  filter (fun '((a, _), _) => a <> aci) m !! (a, sid) = if decide (a = aci) then None else m !! (a, sid).
Proof.
  destruct (decide (a = aci)) as [->|Hne].
  - apply map_lookup_filter_None. right. intros t _ Ht. done.
  - destruct (m !! (a, sid)) as [t|] eqn:E; [by apply map_lookup_filter_Some|apply map_lookup_filter_None; by left].
Qed.

Lemma own_recipient_Ok data key s s' : update_own_recipient data key s = (s', Ok tt) -> ls_tables s' = ls_tables s /\ ls_devices s' = ls_devices s.
Proof. unfold update_own_recipient. destruct (LoadAndUpdateRecipient _ _ _ _) as [st o]. by intros [= <- _]. Qed.

Lemma service_ids_differ d : ACIServiceID d <> PNIServiceID d \/ dd_PNI d = uuid_Nil.
Proof. unfold ACIServiceID, PNIServiceID. case_bool_decide; [by right|left; done]. Qed.

(** Loading the device that was just stored. *)
Lemma device_loaded data (s s' : LinkState) o : DeviceByACI (dd_ACI data) (lset_devices (<[dd_ACI data := data]> (ls_devices s)) s) = (s', Ok o) ->
  s' = lset_devices (<[dd_ACI data := data]> (ls_devices s)) s /\ exists d, o = Some d /\ dd_ACI d = dd_ACI data /\ dd_PNI d = dd_PNI data
    /\ dd_ACIIdentityKeyPair d = dd_ACIIdentityKeyPair data
    /\ (dd_PNI data = uuid_Nil /\ dd_PNIIdentityKeyPair d = None \/ dd_PNI data <> uuid_Nil /\ dd_PNIIdentityKeyPair d = dd_PNIIdentityKeyPair data /\ is_Some (dd_PNIIdentityKeyPair data)).
Proof.
  unfold DeviceByACI. cbn [ls_devices lset_devices]. rewrite lookup_insert_eq. intros [= <- E]. split; [done|].
  case_bool_decide as Hn; [injection E as <-; eexists; split_and!; [done..|by left]|].
  destruct (dd_PNIIdentityKeyPair data) eqn:Ep; [|done]. injection E as <-. exists data. rewrite Ep. split_and!; [done..|right; eauto].
Qed.

Lemma store_link_Ok data aci pni key s s' p q : fresh_keys p aci -> (forall k, pni = Some k -> fresh_keys q k) ->
  dd_PNIIdentityKeyPair data = ow_pair <$> pni ->
  store_link data aci pni key s = (s', Ok tt) ->
  ls_devices s' = <[dd_ACI data := data]> (ls_devices s) /\ dd_ACI data <> uuid_Nil /\ (pni = None <-> dd_PNI data = uuid_Nil)
  /\ linked_tables data aci pni (ls_tables s) (ls_tables s').
Proof.
  intros Ha Hp Hpair. unfold store_link, PutDevice. intros (s1 & [] & E1 & (s2 & loaded & E2 & E)%sbind_Ok)%sbind_Ok.
  case_bool_decide as Hnil; [done|]. injection E1 as <-. apply device_loaded in E2 as (-> & d & -> & Hd1 & Hd2 & Hd3 & Hd4).
  assert (Hsid : ACIServiceID d = ACIServiceID data /\ PNIServiceID d = PNIServiceID data) by (unfold ACIServiceID, PNIServiceID; by rewrite Hd1, Hd2).
  destruct Hsid as [Hsa Hsp]. apply sbind_Ok in E as (s3 & [] & [= <-] & (s4 & [] & E4 & (s5 & [] & E5 & E6)%sbind_Ok)%sbind_Ok).
  rewrite (store_own_keys_eq _ _ p) in E4; [|done|cbn; rewrite cleared_tables; by destruct (decide _)]. injection E4 as <-.
  apply own_recipient_Ok in E6 as [-> ->]. rewrite Hd1, Hsa in *.
  destruct pni as [k|]; cycle 1.
  - injection E5 as <-. cbn. destruct Hd4 as [[Hn _]|(Hn & _ & Hs)]; cycle 1.
    { rewrite Hpair in Hs. by destruct Hs. }
    split_and!; try done. split; [|split; [|split]].
    + intros account sid Hne. rewrite lookup_insert_ne by congruence. rewrite cleared_tables. by destruct (decide _).
    + by rewrite lookup_insert_eq.
    + done.
    + intros sid t. rewrite lookup_insert_Some. intros [[[= <-] _]|[_ H]]; [by left|]. rewrite cleared_tables in H. by destruct (decide _).
  - destruct Hd4 as [[Hn Hx]|(Hn & Hx & Hs)]; [by rewrite Hx in E5|]. rewrite Hx, Hpair in E5. cbn [fmap option_fmap option_map] in E5.
    destruct (service_ids_differ data) as [Hdiff|]; [|done]. specialize (Hp _ eq_refl).
    rewrite (store_own_keys_eq _ _ q) in E5; [|done|]; cycle 1.
    { rewrite Hd1, Hsp. cbn. rewrite lookup_insert_ne by congruence. rewrite cleared_tables. by destruct (decide _). }
    injection E5 as <-. cbn. rewrite Hd1, Hsp. split_and!; try done. split; [|split; [|split]].
    + intros account sid Hne. rewrite !lookup_insert_ne by congruence. rewrite cleared_tables. by destruct (decide _).
    + rewrite lookup_insert_ne by congruence. by rewrite lookup_insert_eq.
    + intros k' [= <-]. by rewrite lookup_insert_eq.
    + intros sid t. rewrite !lookup_insert_Some. intros [[[= <-] _]|[_ [[[= <-] _]|[_ H]]]]; [right; done|by left|].
      rewrite cleared_tables in H. by destruct (decide _).
Qed.

(** The server's answer says that the device was linked, as [r]. *)
Definition accepted (reply : WebSocketMessage) (r : ConfirmDeviceResponse) : Prop :=
  200 <= default 0 (ms_Response reply ≫= rs_Status) < 300 /\ json_confirm (default [] (ms_Response reply ≫= rs_Body)) = Some r.

Lemma finish_Ok msg name s s' data :
  finishProvisioning json_link json_confirm link_socket msg name s = (s', Ok data) ->
  exists aci pni,
    (exists p, identity_pair (pm_AciIdentityKeyPublic msg) (pm_AciIdentityKeyPrivate msg) = Ok p /\ fresh_keys p aci)
    /\ (forall k, pni = Some k -> exists p, identity_pair (pm_PniIdentityKeyPublic msg) (pm_PniIdentityKeyPrivate msg) = Ok p /\ fresh_keys p k)
    /\ (exists account code j reply r, tells aci pni j /\ pm_ProvisioningCode msg = Some code /\ lj_verificationCode j = code
          /\ ParseStringOrBinaryServiceID (pm_Aci msg) (pm_AciBinary msg) = Ok account
          /\ link_socket (link_request json_link (ServiceID_String account) (dd_Password data) j) = Ok reply /\ accepted reply r
          /\ data = new_device msg (dd_Password data) aci pni r)
    /\ ls_devices s' = <[dd_ACI data := data]> (ls_devices s) /\ dd_ACI data <> uuid_Nil /\ (pni = None <-> dd_PNI data = uuid_Nil)
    /\ linked_tables data aci pni (ls_tables s) (ls_tables s').
Proof.
  unfold finishProvisioning.
  intros (s1 & p & [-> Hp]%slift_Ok & (s2 & pk & [-> _]%slift_Ok & (s3 & i & D1%link_draw_Ok & (s4 & aci & [D2 Ha]%make_own_keys_Ok
    & (s5 & a & [-> Haci]%slift_Ok & (s6 & pni & E6 & (s7 & code & [-> Hc]%slift_Ok & (s8 & r & (D3 & j & reply & Ht & Hj & Hl & Hr)%confirm_Ok
    & (s9 & [] & E9 & [= <- <-])%sbind_Ok)%sbind_Ok)%sbind_Ok)%sbind_Ok)%sbind_Ok)%sbind_Ok)%sbind_Ok)%sbind_Ok)%sbind_Ok.
  assert (Hk : same_db s4 s6 /\ forall k, pni = Some k -> exists q, identity_pair (pm_PniIdentityKeyPublic msg) (pm_PniIdentityKeyPrivate msg) = Ok q /\ fresh_keys q k).
  { case_bool_decide as Hn; [injection E6 as <- <-; split; [apply same_db_refl|done]|].
    apply sbind_Ok in E6 as (s0 & q & [-> Hq]%slift_Ok & (s0' & k & [D4 Hk]%make_own_keys_Ok & [= <- <-])%sbind_Ok). split; [done|]. intros ? [= <-]. eauto. }
  destruct Hk as [D4 Hk]. assert (D : same_db s s8) by eauto using same_db_trans.
  destruct (pm_ProvisioningCode msg) as [code'|] eqn:Ec; [|done]. injection Hc as <-.
  assert (Hq : exists q, forall k, pni = Some k -> fresh_keys q k).
  { destruct pni as [k|]; [destruct (Hk k eq_refl) as (q & _ & Hf); exists q; by intros ? [= <-]|by exists p]. }
  destruct Hq as [q Hq]. destruct (store_link_Ok (new_device msg (RandomString i 22) aci pni r) _ _ _ _ _ _ _ Ha Hq eq_refl E9) as (H1 & H2 & H3 & H4).
  exists aci, pni. rewrite D in H1, H4. split_and!; eauto 10.
  exists a, code', j, reply, r. split_and!; try done. by destruct (ParseStringOrBinaryServiceID _ _); simplify_eq/=.
Qed.

(** C19: a device that was linked is consistent with what its server knows.  When
    linking succeeds, the request to link went to the server in the name of the
    account that the primary device named, with its code and with exactly the
    signed prekey, the last resort prekey and the registration ID (between 1 and
    16383) that are stored for each service ID; the server answered it with a
    status from 200 to 299 and a response that could be read.  The stored device
    has the account, the phone number identity and the device ID of that
    response (device ID 1 in place of 0), and the identity keys of the primary
    device; it has keys for a phone number identity exactly when the response
    has one.  Nothing is left of the prekeys the account had before, and other
    accounts are untouched. *)
Theorem linking_correct msg name s s' data :
  finishProvisioning json_link json_confirm link_socket msg name s = (s', Ok data) ->
  exists aci pni account j reply r,
    ParseStringOrBinaryServiceID (pm_Aci msg) (pm_AciBinary msg) = Ok account
    /\ tells aci pni j /\ Some (lj_verificationCode j) = pm_ProvisioningCode msg
    /\ link_socket (link_request json_link (ServiceID_String account) (dd_Password data) j) = Ok reply
    /\ 200 <= default 0 (ms_Response reply ≫= rs_Status) < 300 /\ json_confirm (default [] (ms_Response reply ≫= rs_Body)) = Some r
    /\ dd_ACI data = cd_ACI r /\ dd_PNI data = cd_PNI r /\ dd_DeviceID data = (if cd_DeviceID r =? 0 then 1 else cd_DeviceID r)
    /\ identity_pair (pm_AciIdentityKeyPublic msg) (pm_AciIdentityKeyPrivate msg) = Ok (dd_ACIIdentityKeyPair data)
    /\ (forall p, dd_PNIIdentityKeyPair data = Some p -> identity_pair (pm_PniIdentityKeyPublic msg) (pm_PniIdentityKeyPrivate msg) = Ok p)
    /\ (dd_PNIIdentityKeyPair data = None <-> cd_PNI r = uuid_Nil) /\ (pni = None <-> cd_PNI r = uuid_Nil)
    /\ dd_ACIRegistrationID data = ow_registrationID aci /\ 1 <= dd_ACIRegistrationID data <= 16383
    /\ (forall k, pni = Some k -> dd_PNIRegistrationID data = ow_registrationID k /\ 1 <= dd_PNIRegistrationID data <= 16383)
    /\ ls_devices s' = <[dd_ACI data := data]> (ls_devices s) /\ dd_ACI data <> uuid_Nil
    /\ linked_tables data aci pni (ls_tables s) (ls_tables s').
Proof.
  intros (aci & pni & (p & Hp & Ha) & Hk & (account & code & j & reply & r & Ht & Hc & Hj & Hacc & Hl & [Hst Hr] & Hd) & H1 & H2 & H3 & H4)%finish_Ok.
  assert (Hpair : dd_ACIIdentityKeyPair data = ow_pair aci /\ dd_PNIIdentityKeyPair data = ow_pair <$> pni /\ dd_ACIRegistrationID data = ow_registrationID aci
    /\ dd_PNIRegistrationID data = default 0 (ow_registrationID <$> pni) /\ dd_PNI data = cd_PNI r /\ dd_ACI data = cd_ACI r
    /\ dd_DeviceID data = (if cd_DeviceID r =? 0 then 1 else cd_DeviceID r)) by (rewrite Hd; done).
  destruct Hpair as (E1 & E2 & E3 & E4 & E5 & E6 & E7). pose proof (fresh_registration _ _ Ha) as Hreg. exists aci, pni, account, j, reply, r.
  rewrite E1, E2, E3, E4, <- E5. split_and!; try done; try lia.
  - by rewrite Hc, Hj.
  - by rewrite (fresh_pair _ _ Ha).
  - destruct pni as [k|]; [|done]. intros q [= <-]. destruct (Hk k eq_refl) as (q & Hq & Hf). by rewrite (fresh_pair _ _ Hf).
  - rewrite <- H3. by destruct pni.
  - intros k ->. destruct (Hk k eq_refl) as (q & _ & Hf). split; [done|apply (fresh_registration _ _ Hf)].
Qed.

(** *** The first check of the prekeys *)

(** The linked device as the key check sees it. *)
Definition device_keys (d : DeviceData) (s : LinkState) : KeyDevice :=
  mkKeyDevice (dd_ACIIdentityKeyPair d) (dd_PNIIdentityKeyPair d) (negb (bool_decide (dd_PNI d = uuid_Nil)))
    (table_at (dd_ACI d) (ACIServiceID d) s) (table_at (dd_ACI d) (PNIServiceID d) s) (ls_draws s) [].

Lemma own_table_ok k p : fresh_keys p k -> table_ok (own_table k) /\ room (pt_keys (own_table k)) /\ room (pt_kyber (own_table k)) /\ size (pt_kyber (own_table k)) = 1%nat.
Proof.
  intros [_ _ _ Hk]. split; [|split; [|split]]; [split; cbn|..].
  - intros id r. by rewrite lookup_empty.
  - intros id r b. rewrite lookup_singleton_Some. intros [<- [= <- _]]. done.
  - done.
  - unfold room, max_id. cbn. by rewrite map_fold_singleton.
  - cbn. apply map_size_singleton.
Qed.

(** Linking leaves the device ready for its first key check.  On a device
    that was just linked, for each identity it has, when the server reports
    fewer than 50 keys and the check succeeds, at least 100 one-time and 100
    post-quantum keys are stored (the last resort key among them, under the ID
    and with the key that the server was told while linking), and exactly the
    stored one-time keys, without the last resort key, were uploaded. *)
Theorem linked_device_supplied net parse_counts msg name s s' data pni k :
  finishProvisioning json_link json_confirm link_socket msg name s = (s', Ok data) ->
  (forall i, is_Some (KyberKeyPairGenerate i)) -> (forall key m, is_Some (Sign key m)) ->
  (pni = true -> dd_PNI data <> uuid_Nil) -> (forall b c, parse_counts b = Some c -> c.1 < 50 /\ c.2 < 50) ->
  CheckAndUploadNewPreKeys net parse_counts pni (device_keys data s') = (k, Ok tt) ->
  exists aci opni own reg,
    linked_tables data aci opni (ls_tables s) (ls_tables s') /\ (if pni then opni = Some own else aci = own)
    /\ pt_kyber (table_of pni k) !! 1 = Some (ow_lastResort own, true)
    /\ PREKEY_BATCH_SIZE <= Z.of_nat (size (pt_keys (table_of pni k))) /\ PREKEY_BATCH_SIZE <= Z.of_nat (size (pt_kyber (table_of pni k)))
    /\ kd_requests k = [GetCounts pni; PutKeys pni reg] /\ lists_table reg (table_of pni k).
Proof.
  intros (aci & opni & (p & _ & Ha) & Hk & (u & code & j & reply & r & _ & _ & _ & _ & _ & _ & Hd) & _ & _ & H3 & H4)%finish_Ok Hg Hs Hpni Hc E.
  assert (Hown : exists own q, (if pni then opni = Some own else aci = own) /\ fresh_keys q own /\ table_of pni (device_keys data s') = own_table own).
  { destruct H4 as (_ & T1 & T2 & _). unfold device_keys, table_of, table_at. cbn. destruct pni.
    - destruct opni as [own|]; [|exfalso; by apply Hpni, H3]. destruct (Hk own eq_refl) as (q & _ & Hq). exists own, q. by rewrite (T2 own eq_refl).
    - exists aci, p. by rewrite T1. }
  destruct Hown as (own & q & Hown & Hq & Ht). destruct (own_table_ok own q Hq) as (O1 & O2 & O3 & O4).
  assert (Hw : working pni (device_keys data s')).
  { split_and!; try done. intros ->. cbn. rewrite Hd. cbn. rewrite Hown. by eexists. }
  destruct (check_ends net parse_counts pni (device_keys data s')) as (k' & o & E' & _ & _ & Hgrow & Ho); try (rewrite Ht; done); [|done|].
  { intros b c Hb. apply Hc in Hb. lia. }
  rewrite E in E'. injection E' as <- <-. destruct Ho as (ec & pq & Hcounts & [_ F1] & [_ F2] & Hup).
  assert (Hlow : ec < 50 /\ pq < 50) by (destruct (net _); [by apply Hc in Hcounts|done]). destruct Hlow as [L1 L2].
  assert (Hn : forall n m, n < 50 -> needs_upload n m = true).
  { intros n m Hn. unfold needs_upload. by rewrite (proj2 (Z.ltb_lt n (PREKEY_BATCH_SIZE / 2))) by (unfold PREKEY_BATCH_SIZE; lia). }
  rewrite Hn in F1 by done. rewrite Hn in F2 by done. rewrite Hn in Hup by done. destruct Hup as (reg & Hreq & Hlist).
  exists aci, opni, own, reg. split_and!; try done. destruct Hgrow as [Hsub _]. rewrite Ht in Hsub. eapply lookup_weaken; [|exact Hsub]. cbn. by rewrite lookup_singleton_eq.
Qed.
End Proofs.

(** ** Sample runs *)
Module SampleLinking.
Import CanonicalUUID SampleCrypto SampleCurve SamplePreKeys.
#[local] Existing Instance toy_lib.
#[local] Instance toy_link : LinkLib := {
  DeserializePrivateKey := Some;
  DeriveSVRKey p := Some p;
  RandomString i n := repeat x61 n;
  RandomInt i := 70000 + Z.of_nat i;
  unmarshal_address := Some;
  unmarshal_envelope b := Some (mkEnvelope b (Some b));
  marshal_device_name n := Some (Ciphertext n)
}.
Definition account : UUID := mk_fixed (n := 16) (repeat x01 16) eq_refl.
Definition phone : UUID := mk_fixed (n := 16) (repeat x02 16) eq_refl.
Definition message (pni : option bytes) (profileKey : bytes) : ProvisionMessage :=
  mkProvision (str "public") (str "private") (str "pni-public") (str "pni-private") [] (Some (fixed_bytes account)) [] pni (str "+1234") (Some (str "code"))
    profileKey (str "pool") [] [] [].
Definition key : bytes := repeat x07 32.
(** The server gives the device the number 3, and the account a PNI or none. *)
Definition confirm (pni : UUID) (b : bytes) : option ConfirmDeviceResponse := Some (mkConfirm account pni 3).
Definition accept (m : WebSocketMessage) : outcome link_error WebSocketMessage :=
  Ok (mkWsMessage (Some 2) None (Some (mkWsResponse (Some 1) (Some 200) None [] (Some [])))).
Definition empty_db : LinkState := mkLinkState ∅ ∅ ∅ ∅ ∅ 0.
Definition link (pni : option bytes) (profileKey : bytes) (answer : UUID) : LinkState * outcome link_error DeviceData :=
  finishProvisioning (fun _ => []) (confirm answer) accept (message pni profileKey) (str "bridge") empty_db.
Definition linked : LinkState := (link (Some (fixed_bytes phone)) key phone).1.
Definition linked_data : DeviceData :=
  match link (Some (fixed_bytes phone)) key phone with
  | (_, Ok d) => d
  | _ => mkDeviceData identity None 0 0 uuid_Nil uuid_Nil 0 [] [] None [] None None []
  end.
Lemma link_runs : link (Some (fixed_bytes phone)) key phone = (linked, Ok linked_data).
Proof.
  unfold linked, linked_data. destruct (link (Some (fixed_bytes phone)) key phone) as [s o] eqn:E.
  assert (Ho : is_ok o = true) by (rewrite <- (f_equal snd E : _ = o); vm_compute; reflexivity). by destruct o.
Qed.

Lemma linking_correct_witness : exists aci pni r, linked_tables linked_data aci pni ∅ (ls_tables linked) /\ confirm phone [] = Some r
  /\ dd_DeviceID linked_data = cd_DeviceID r /\ cd_DeviceID r = 3 /\ (pni = None <-> phone = uuid_Nil).
Proof.
  destruct (linking_correct (fun _ => []) (confirm phone) accept (message (Some (fixed_bytes phone)) key) (str "bridge") empty_db linked linked_data link_runs)
    as (aci & pni & account & j & reply & r & _ & _ & _ & _ & _ & Hr & _ & _ & Hid & _ & _ & _ & Hp & _ & _ & _ & _ & _ & Ht).
  injection Hr as <-. exists aci, pni, (mkConfirm SampleLinking.account phone 3). split; [exact Ht|]. split; [reflexivity|]. split; [exact Hid|].
  split; [reflexivity|exact Hp].
Defined.

Definition few (b : bytes) : option (Z * Z) := if beqb b (str "40") then Some (40, 40) else None.
Definition supplied : KeyDevice := (CheckAndUploadNewPreKeys server few true (device_keys linked_data linked)).1.
Lemma linked_device_supplied_witness : exists own reg,
  pt_kyber (kd_pniTable supplied) !! 1 = Some (ow_lastResort own, true) /\ kd_requests supplied = [GetCounts true; PutKeys true reg].
Proof.
  destruct (linked_device_supplied (fun _ => []) (confirm phone) accept server few (message (Some (fixed_bytes phone)) key) (str "bridge") empty_db linked linked_data true supplied)
    as (aci & opni & own & reg & _ & _ & Hk & _ & _ & Hr & _).
  - exact link_runs.
  - intros i. by eexists.
  - intros k m. by eexists.
  - intros _. intros H. apply (f_equal fixed_bytes) in H. vm_compute in H. discriminate H.
  - intros b c. unfold few. destruct (beqb _ _); [|discriminate]. intros [= <-]. split; reflexivity.
  - unfold supplied. destruct (CheckAndUploadNewPreKeys server few true (device_keys linked_data linked)) as [k o] eqn:E.
    assert (Ho : o = Ok tt) by (rewrite <- (f_equal snd E : _ = o); vm_compute; reflexivity). by rewrite Ho.
  - exists own, reg. split; [exact Hk|exact Hr].
Defined.

(** The primary device sent no PNI, but the server knows one: the device is
    stored and linked, but cannot be loaded. *)
Lemma unexpected_pni_unusable :
  (link None key phone).2 = Err ScanDevice /\ bool_decide (is_Some (ls_devices (link None key phone).1 !! account)) = true
  /\ (DeviceByACI account (link None key phone).1).2 = Err ScanDevice.
Proof. split_and!; vm_compute; reflexivity. Qed.
(** The primary device sent a PNI, but the server has none. *)
Lemma missing_pni_panics : (link (Some (fixed_bytes phone)) key uuid_Nil).2 = Panic.
Proof. vm_compute. reflexivity. Qed.
(** A short profile key ends the process. *)
Lemma short_profile_key_panics : (link None (str "short") uuid_Nil).2 = Panic.
Proof. vm_compute. reflexivity. Qed.
(** The link that is shown as a QR code. *)
Example provisioning_URL_sample :
  provisioning_URL (str "a b") (str "key?") true = str "sgnl://linkdevice?capabilities=backup5%2Cnopni2&pub_key=a2V5Pw%3D%3D&uuid=a+b".
Proof. vm_compute. reflexivity. Qed.
End SampleLinking.
