(* ===== verification/ConvertSignal.v ===== *)
(** From Signal messages to Matrix events ([pkg/msgconv/from-signal.go],
    [story.go], [msgconv.go], [pkg/album/album.go]).

    What the converter reads of a message is the record [DataMessage]; protobuf
    getters give zero values for missing fields, and repeated fields are nil
    when they are empty.  Uploads, downloads, MIME types and vCards are the
    class [MediaWorld]; [MergeCaption] belongs to the bridge framework.  The
    state is what conversion changes: the disappearing timer of the portal and
    the metadata of polls. *)
From S2P Require Import Prelude GoLib ServiceId SignalId MediaId RangeTree SignalFmt.

(** ** Messages *)
Definition EXPIRATION_TIMER_UPDATE : Z := 2.
Definition CURRENT : Z := 8.
Definition VOICE_MESSAGE : Z := 1.
Definition GIF : Z := 8.

Record AttachmentPointer := mkAttachment {
  at_hasIdentifier : bool;
  at_ClientUuid : bytes;
  at_ContentType : bytes;
  at_FileName : bytes;
  at_Size : Z;
  at_Width : Z;
  at_Height : Z;
  at_Flags : Z;
  at_Caption : bytes;
  at_BlurHash : bytes;
  at_CdnId : Z;
  at_CdnKey : bytes;
  at_CdnNumber : Z;
  at_Key : bytes;
  at_Digest : option bytes
}.
Record Sticker := mkSticker { st_PackId : bytes; st_PackKey : bytes; st_StickerId : Z; st_Emoji : bytes; st_Data : option AttachmentPointer }.
Inductive Payment := PaymentActivation (type : Z) | PaymentNotification (note : bytes).
Record PollCreate := mkPollCreate { pc_Question : bytes; pc_AllowMultiple : bool; pc_Options : list bytes }.
Record PollVote := mkPollVote { pv_TargetAuthorAciBinary : bytes; pv_TargetSentTimestamp : Z; pv_OptionIndexes : list Z; pv_VoteCount : Z }.
Record Quote := mkQuote { qu_AuthorAci : bytes; qu_AuthorAciBinary : option bytes; qu_Id : Z }.
Record StoryContext := mkStoryContext { sx_AuthorAci : bytes; sx_AuthorAciBinary : option bytes; sx_SentTimestamp : Z }.
Record Reaction := mkReaction { rx_Emoji : bytes; rx_Remove : bool; rx_TargetAuthorAci : bytes; rx_TargetAuthorAciBinary : option bytes; rx_TargetSentTimestamp : Z }.
Record ContactName := mkContactName { cn_Nickname : bytes; cn_GivenName : bytes; cn_FamilyName : bytes; cn_MiddleName : bytes; cn_Prefix : bytes; cn_Suffix : bytes }.
(** An email address or phone number; the type is the name of its enum value. *)
Record ContactValue := mkContactValue { cx_Value : bytes; cx_Type : bytes; cx_Label : bytes }.
Record ContactAddress := mkContactAddress { ca_Pobox : bytes; ca_Street : bytes; ca_City : bytes; ca_Region : bytes; ca_Postcode : bytes; ca_Country : bytes; ca_Type : bytes; ca_Label : bytes }.
Record Contact := mkContact {
  co_Name : ContactName;
  co_Organization : bytes;
  co_Address : list ContactAddress;
  co_Email : list ContactValue;
  co_Number : list ContactValue;
  co_Avatar : option AttachmentPointer
}.
(** The target of a pin, an unpin or a deletion by an admin. *)
Record Target := mkTarget { tg_AuthorAciBinary : bytes; tg_SentTimestamp : Z }.

Record DataMessage := mkDataMessage {
  dm_Body : option bytes;
  dm_BodyRanges : list ProtoRange;
  dm_Attachments : list AttachmentPointer;
  dm_Contact : list Contact;
  dm_Sticker : option Sticker;
  dm_Payment : option Payment;
  dm_GiftBadge : bool;
  dm_PollCreate : option PollCreate;
  dm_PollVote : option PollVote;
  dm_PollTerminate : option Z;
  dm_Quote : option Quote;
  dm_Previews : nat;
  dm_Flags : Z;
  dm_ExpireTimer : Z;
  dm_ExpireTimerVersion : option Z;
  dm_IsViewOnce : bool;
  dm_RequiredProtocolVersion : Z;
  dm_Timestamp : Z;
  dm_Reaction : option Reaction;
  dm_StoryContext : option StoryContext;
  dm_Delete : option Z;
  dm_AdminDelete : option Target;
  dm_PinMessage : option Target;
  dm_UnpinMessage : option Target;
  (** the revision and the group change of [GroupV2] *)
  dm_GroupV2 : option (Z * option bytes)
}.

Definition isSome {A : Type} (o : option A) : bool := match o with Some _ => true | None => false end.
Definition isExpirationUpdate (dm : DataMessage) : bool := negb (Z.land (dm_Flags dm) EXPIRATION_TIMER_UPDATE =? 0).
Definition is_poll (dm : DataMessage) : bool := isSome (dm_PollVote dm) || isSome (dm_PollCreate dm) || isSome (dm_PollTerminate dm).

Definition calculateLength (dm : DataMessage) : Z :=
  if dm_IsViewOnce dm || isExpirationUpdate dm then 1
  else if isSome (dm_Sticker dm) || is_poll dm then 1
  else
    let n := Z.of_nat (length (dm_Attachments dm)) + Z.of_nat (length (dm_Contact dm)) + Z.b2z (isSome (dm_Body dm))
             + Z.b2z (isSome (dm_Payment dm)) + Z.b2z (dm_GiftBadge dm) in
    if (n =? 0) && (CURRENT <? dm_RequiredProtocolVersion dm) then 1 else n.
Definition CanConvertSignal (dm : DataMessage) : bool := 0 <? calculateLength dm.

(** ** Events *)
Inductive event_type := EventMessage | EventSticker | EventUnstablePollStart | EventUnstablePollResponse | EventUnstablePollEnd.
Inductive msg_type := MsgText | MsgNotice | MsgEmote | MsgImage | MsgVideo | MsgFile | MsgAudio | MsgNone.
#[export] Instance msg_type_eq_dec : EqDecision msg_type. Proof. solve_decision. Defined.
#[export] Instance event_type_eq_dec : EqDecision event_type. Proof. solve_decision. Defined.

Record BridgedSticker := mkBridgedSticker { bs_Network : bytes; bs_ID : bytes; bs_Emoji : bytes; bs_PackURL : bytes }.
Record FileInfo := mkFileInfo { fi_MimeType : bytes; fi_Width : Z; fi_Height : Z; fi_Size : Z; fi_Blurhash : bytes; fi_BridgedSticker : option BridgedSticker; fi_MauGIF : bool }.
Record EventContent := mkEventContent {
  ec_MsgType : msg_type;
  ec_Body : bytes;
  ec_FormattedBody : bytes;
  ec_Info : option FileInfo;
  ec_ViewLimited : bool;
  ec_RelatesTo : option bytes;
  ec_Previews : nat;
  ec_URL : bytes;
  ec_Voice : bool
}.
Definition plain (t : msg_type) (body html : bytes) : EventContent := mkEventContent t body html None false None 0 [] false.
Definition notice (body : bytes) : EventContent := plain MsgNotice body [].
Definition empty_content : EventContent := plain MsgNone [] [].
Definition relates_to (mxid : bytes) : EventContent := mkEventContent MsgNone [] [] None false (Some mxid) 0 [] false.

(** The look of a text story. *)
Inductive story_style :=
| TextStyleName (name : bytes)
| TextColor (argb : bytes)
| TextBackgroundColor (argb : bytes)
| BackgroundColor (argb : bytes)
| BackgroundGradient (colors : list bytes) (positions : list Z) (angle : Z).

(** [album.Info] and the other extra fields. *)
Record AlbumInfo := mkAlbum { al_ID : bytes; al_Index : Z; al_Count : Z }.
Inductive extra :=
| ExPayment (p : Payment)
| ExGiftBadge
| ExContact (c : Contact)
| ExTimer (timer : Z) (afterRead backfill : bool)
| ExPoll (question : bytes) (allowMultiple : bool) (maxSelections : Z) (answers : list (bytes * bytes))
| ExPollResponse (answers : list bytes)
| ExPollEnd
| ExStory (allowsReplies : bool) (expiresAt : Z) (style : list story_style)
| ExGif.

Record MessageMetadata := mkMetadata {
  md_ServerGUID : bytes;
  md_ReportingToken : bytes;
  md_ViewOnce : bool;
  md_ContainsAttachments : bool;
  md_MatrixPollOptionIDs : list bytes;
  md_VoteCount : gmap bytes Z;
  md_IsStory : bool
}.
Definition empty_metadata : MessageMetadata := mkMetadata [] [] false false [] ∅ false.

Record Part := mkPart {
  pp_ID : bytes;
  pp_Type : event_type;
  pp_Content : EventContent;
  pp_Extra : list extra;
  pp_Album : option AlbumInfo;
  pp_Metadata : option MessageMetadata;
  pp_DontBridge : bool
}.
Definition new_part (t : event_type) (c : EventContent) (e : list extra) : Part := mkPart [] t c e None None false.

Inductive disappear_type := DisappearNone | AfterRead | AfterSend.
#[export] Instance disappear_type_eq_dec : EqDecision disappear_type. Proof. solve_decision. Defined.
(** The timer in nanoseconds, and a time in milliseconds. *)
Record Disappear := mkDisappear { di_Type : disappear_type; di_Timer : Z; di_DisappearAt : option Z }.
Definition no_disappear : Disappear := mkDisappear DisappearNone 0 None.
#[export] Instance disappear_eq_dec : EqDecision Disappear. Proof. solve_decision. Defined.

Record ConvertedMessage := mkConverted { cm_ReplyTo : option bytes; cm_Parts : list Part; cm_Disappear : Disappear }.

(** *** Albums *)
Definition IsMediaPart (p : Part) : bool :=
  bool_decide (pp_Type p = EventMessage)
  && match ec_MsgType (pp_Content p) with MsgImage | MsgVideo | MsgFile | MsgAudio => true | _ => false end.
Definition album_Set (info : AlbumInfo) (p : Part) : Part :=
  mkPart (pp_ID p) (pp_Type p) (pp_Content p) (pp_Extra p) (Some info) (pp_Metadata p) (pp_DontBridge p).
Definition Tag (items : list Part) (id : bytes) : list Part :=
  if (length items <? 2)%nat then items
  else imap (fun i p => if IsMediaPart p then album_Set (mkAlbum id (Z.of_nat i) (Z.of_nat (length items))) p else p) items.
Definition album_SetID (id : bytes) (p : Part) : Part :=
  match pp_Album p with Some info => album_Set (mkAlbum id (al_Index info) (al_Count info)) p | None => p end.

(** *** The world *)
Inductive conv_error := NoIdentifier | NotInMap | AttachmentNotInBackup | BackupNotSupported | AttachmentNotFound | ReadHeader | ConvertAudio | OtherFailure.

(** The fields of a vCard; the library writes them out. *)
Inductive vcard_field :=
| VVersion
| VName (family given additional prefix suffix : bytes)
| VNickname (v : bytes)
| VOrganization (v : bytes)
| VAddress (v : list bytes) (type : bytes) (label : option bytes)
| VEmail (v : bytes) (type : bytes) (label : option bytes)
| VTelephone (v : bytes) (type : bytes) (label : option bytes)
| VPhoto (mime : bytes) (data : bytes).

(** [DownloadAttachmentWithPointer] with the expected hash; uploads, which give
    a content URI; whether an upload that does not need a file is streamed to
    one; and libraries. *)
Class MediaWorld : Type := {
  DownloadAttachmentWithPointer : AttachmentPointer -> bytes -> conv_error + bytes;
  UploadMedia : bytes -> bytes -> bytes -> conv_error + bytes;
  GenerateContentURI : bytes -> conv_error + bytes;
  streams_to_file : bool;
  ffmpeg_Supported : bool;
  ffmpeg_ConvertPath : bytes -> option bytes;
  DetectContentType : bytes -> bytes;
  ParseMediaType : bytes -> bytes;
  ExtensionFromMimetype : bytes -> bytes;
  vcard_encode : list vcard_field -> option bytes;
  error_text : conv_error -> bytes;
  DisappearingMessageNotice : Z -> bytes
}.

Definition result {A : Type} (r : conv_error + A) : outcome conv_error A := match r with inl e => Err e | inr a => Ok a end.

(** What a backup says about an attachment. *)
Record LocatorInfo := mkLocator { lo_MediaTierCdnNumber : option Z; lo_PlaintextHash : bytes }.
Definition AttachmentMap : Type := option (gmap UUID (option LocatorInfo)).
Definition attMap_get (attMap : AttachmentMap) (u : UUID) : option (option LocatorInfo) := attMap ≫= (fun m => m !! u).

Record ConvState := mkConv {
  cv_Disappear : Disappear;
  cv_ExpirationTimerVersion : Z;
  (** first parts of the bridged messages: event ID and metadata *)
  cv_messages : gmap bytes (bytes * MessageMetadata)
}.

Section Convert.
Context `{W : MediaWorld} `{E : FmtEnv} `{U : UUIDLib}.
Context (GetUserInfo : UUID -> UserInfo) (MergeCaption : list Part -> list Part).
(** The own account, the configuration, the time in milliseconds, and which
    queries and updates of the message table fail. *)
Context (ownACI : UUID) (ViewLimitedMedia ExtEvPolls DirectMedia : bool) (now : Z) (read_fails update_fails : bytes -> bool).

Definition conv_m (A : Type) : Type := stateE ConvState Empty_set A.
Definition LongTextContentType : bytes := str "text/x-signal-plain".
Definition matrixTextMaxLength : Z := 30000.
Definition Second : Z := 1000000000.
Definition Minute_ns : Z := 60 * Second.
Definition Days45_ms : Z := 45 * 24 * 3600 * 1000.
Definition int64 (z : Z) : Z := Prelude.swrap 64 z.

(** *** Attachments *)
Definition checkIfAttachmentExists (att : AttachmentPointer) (attMap : AttachmentMap) : outcome conv_error unit :=
  if at_hasIdentifier att then Ok tt
  else
    match to_fixed 16 (at_ClientUuid att) with
    | None => Err NoIdentifier
    | Some u =>
        match attMap_get attMap u with
        | None => Err NotInMap
        | Some (Some (mkLocator (Some _) _)) => Err BackupNotSupported
        | Some _ => Err AttachmentNotInBackup
        end
    end.
Definition plaintext_hash (att : AttachmentPointer) (attMap : AttachmentMap) : option bytes :=
  match to_fixed 16 (at_ClientUuid att) with
  | Some u => match attMap_get attMap u with Some o => Some (match o with Some l => lo_PlaintextHash l | None => [] end) | None => None end
  | None => None
  end.
Definition downloadAttachment (att : AttachmentPointer) (attMap : AttachmentMap) : outcome conv_error bytes :=
  let! _ := checkIfAttachmentExists att attMap in result (DownloadAttachmentWithPointer att (default [] (plaintext_hash att attMap))).
Definition downloadSignalLongText (att : AttachmentPointer) (attMap : AttachmentMap) : outcome conv_error bytes := downloadAttachment att attMap.

Definition image_types : list bytes :=
  [str "image/avif"; str "image/bmp"; str "image/gif"; str "image/jpeg"; str "image/webp"; str "image/x-xbitmap";
   str "image/vnd.microsoft.icon"; str "image/ico"; str "image/icon"; str "image/x-icon"; str "image/png"; str "image/apng"].
Definition video_types : list bytes := [str "video/mp4"; str "video/ogg"; str "video/webm"].
Definition has_prefix (p s : bytes) : bool := beqb (take (length p) s) p.
Definition has_suffix (p s : bytes) : bool := (length p <=? length s)%nat && beqb (drop (length s - length p) s) p.
Definition msg_type_of (plainMime : bytes) : msg_type :=
  if existsb (beqb plainMime) image_types then MsgImage
  else if existsb (beqb plainMime) video_types then MsgVideo
  else if has_prefix (str "audio/") plainMime && negb (has_suffix (str "aiff") plainMime) then MsgAudio
  else MsgFile.
(** [strings.TrimPrefix(string(content.MsgType), "m.")] *)
Definition msg_type_name (t : msg_type) : bytes :=
  match t with
  | MsgText => str "text" | MsgNotice => str "notice" | MsgEmote => str "emote" | MsgImage => str "image"
  | MsgVideo => str "video" | MsgFile => str "file" | MsgAudio => str "audio" | MsgNone => []
  end.

(** The content URI, the name, the MIME type and whether it is a voice message.
    A voice message needs a file; [ReadAt] fails when the file is shorter than
    the 512 bytes it is asked for. *)
Definition actuallyReuploadAttachment (att : AttachmentPointer) (attMap : AttachmentMap) : outcome conv_error (bytes * bytes * bytes * bool) :=
  let convertVoice := negb (Z.land (at_Flags att) VOICE_MESSAGE =? 0) && ffmpeg_Supported in
  let name := at_FileName att in
  let! data := downloadAttachment att attMap in
  if negb (convertVoice || streams_to_file) then
    let mime := if beqb (at_ContentType att) [] then DetectContentType data else at_ContentType att in
    let! uri := result (UploadMedia name mime data) in Ok (uri, name, mime, false)
  else
    let! mime := if negb (beqb (at_ContentType att) []) then Ok (at_ContentType att)
                 else if (length data <? 512)%nat then Err ReadHeader else Ok (DetectContentType (take 512 data)) in
    if convertVoice then
      match ffmpeg_ConvertPath data with
      | None => Err ConvertAudio
      | Some ogg =>
          let name := if beqb name [] then str "Voice message.ogg" else name ++ str ".ogg" in
          let! uri := result (UploadMedia name (str "audio/ogg") ogg) in Ok (uri, name, str "audio/ogg", true)
      end
    else let! uri := result (UploadMedia name mime data) in Ok (uri, name, mime, false).

(** The media ID of an attachment; its own digest has priority over the hash of the backup. *)
Definition direct_media (att : AttachmentPointer) (attMap : AttachmentMap) : DirectMediaAttachment :=
  let '(digest, plaintext) := match at_Digest att with
                              | Some d => (d, false)
                              | None => match plaintext_hash att attMap with Some h => (h, true) | None => ([], false) end
                              end in
  MediaId.mkAttachment (at_CdnId att) (at_CdnKey att) (at_CdnNumber att) (at_Key att) plaintext digest (at_Size att).

(** A failure to make the content URI is not looked at. *)
Definition reuploadAttachment (att : AttachmentPointer) (attMap : AttachmentMap) : outcome conv_error Part :=
  let! _ := checkIfAttachmentExists att attMap in
  let! (uri, name, mime, voice) :=
    if DirectMedia then Ok (match GenerateContentURI (Attachment_AsMediaID (direct_media att attMap)) with inr u => u | inl _ => [] end, at_FileName att, at_ContentType att, false)
    else actuallyReuploadAttachment att attMap in
  let t := msg_type_of (ParseMediaType mime) in
  let gif := negb (Z.land (at_Flags att) GIF =? 0) in
  let body := if beqb name [] then msg_type_name t ++ ExtensionFromMimetype mime else name in
  let info := mkFileInfo mime (at_Width att) (at_Height att) (at_Size att) (at_BlurHash att) None gif in
  Ok (new_part EventMessage (mkEventContent t body [] (Some info) false None 0 uri voice) (if gif then [ExGif] else [])).

(** Nothing here panics. *)
Definition convertAttachmentToMatrix (att : AttachmentPointer) (attMap : AttachmentMap) : Part :=
  let failed body := new_part EventMessage (notice body) [] in
  match reuploadAttachment att attMap with
  | Ok p => p
  | Err e =>
      if match e with AttachmentNotFound | AttachmentNotInBackup => isSome attMap | _ => false end
      then failed (str "Attachment no longer available " ++ at_FileName att)
      else if match e with BackupNotSupported => true | _ => false end then failed (str "Downloading attachments from backup is not yet supported")
      else failed (str "Failed to handle attachment " ++ at_FileName att ++ str ": " ++ error_text e)
  | Panic => failed []
  end.

Definition StickerSourceID : bytes := str "signal".
Definition PackIDLength : nat := 16.
Definition PackKeyLength : nat := 32.
Definition zeroPackID : bytes := repeat x00 PackIDLength.
Definition PackURLFormat (id key : bytes) : bytes :=
  str "https://signal.art/addstickers/#pack_id=" ++ concat (map CanonicalUUID.hex_byte id) ++ str "&pack_key=" ++ concat (map CanonicalUUID.hex_byte key).
Definition bridged_sticker (s : Sticker) : BridgedSticker :=
  mkBridgedSticker StickerSourceID (Decimal.itoa (st_StickerId s)) (st_Emoji s) (PackURLFormat (st_PackId s) (st_PackKey s)).
Definition sticker_info (s : Sticker) (i : FileInfo) : FileInfo :=
  let small := (fi_Width i =? 512) && (fi_Height i =? 512) in
  mkFileInfo (fi_MimeType i) (if small then 200 else fi_Width i) (if small then 200 else fi_Height i) (fi_Size i) (fi_Blurhash i)
    (if (length (st_PackId s) =? PackIDLength)%nat && (length (st_PackKey s) =? PackKeyLength)%nat && negb (beqb (st_PackId s) zeroPackID)
     then Some (bridged_sticker s) else None) (fi_MauGIF i).
(** A sticker without data is a nil pointer. *)
Definition convertStickerToMatrix (s : Sticker) (attMap : AttachmentMap) : outcome Empty_set Part :=
  match (match st_Data s with Some att => reuploadAttachment att attMap | None => Panic end) with
  | Ok p => let c := pp_Content p in
            Ok (mkPart (pp_ID p) EventSticker
              (mkEventContent MsgNone (st_Emoji s) (ec_FormattedBody c) (sticker_info s <$> ec_Info c) (ec_ViewLimited c) (ec_RelatesTo c) (ec_Previews c) (ec_URL c) (ec_Voice c))
              (pp_Extra p) (pp_Album p) (pp_Metadata p) (pp_DontBridge p))
  | Err e => Ok (new_part EventMessage (notice (str "Failed to handle sticker: " ++ error_text e)) [])
  | Panic => Panic
  end.

(** *** Other parts *)
Definition convertTextToMatrix (body : bytes) (dm : DataMessage) : conv_m Part :=
  let* c := slift (Parse GetUserInfo body (dm_BodyRanges dm)) in
  sret (new_part EventMessage (mkEventContent MsgText (mc_Body c) (mc_FormattedBody c) None false None (dm_Previews dm) [] false) []).

Definition paymentText (p : Payment) : bytes :=
  match p with
  | PaymentActivation type => if type =? 1 then str "Activated payments" else str "Asked to activate payments"
  | PaymentNotification note => str "Sent a payment" ++ (if beqb note [] then [] else str ": " ++ note)
  end.
Definition giftBadgeText (fromMe : bool) : bytes := if fromMe then str "Sent a gift badge" else str "Sent you a gift badge".
Definition convertPaymentToMatrix (p : Payment) : Part := new_part EventMessage (notice (paymentText p)) [ExPayment p].
Definition convertGiftBadgeToMatrix (fromMe : bool) : Part := new_part EventMessage (notice (giftBadgeText fromMe)) [ExGiftBadge].

Definition to_lower (b : byte) : byte := if (65 <=? b2z b) && (b2z b <=? 90) then z2b (b2z b + 32) else b.
Definition opt_value (v : bytes) : option bytes := if beqb v [] then None else Some v.
Definition opt_field (v : bytes) (f : bytes -> vcard_field) : list vcard_field := if beqb v [] then [] else [f v].
(** A photo that cannot be downloaded is left out. *)
Definition convertContactToVCard (c : Contact) (attMap : AttachmentMap) : list vcard_field :=
  let n := co_Name c in
  [VVersion]
  ++ (if negb (beqb (cn_FamilyName n) []) || negb (beqb (cn_GivenName n) [])
      then [VName (cn_FamilyName n) (cn_GivenName n) (cn_MiddleName n) (cn_Prefix n) (cn_Suffix n)] else [])
  ++ opt_field (cn_Nickname n) VNickname ++ opt_field (co_Organization c) VOrganization
  ++ map (fun a => VAddress [ca_Pobox a; []; ca_Street a; ca_City a; ca_Region a; ca_Postcode a; ca_Country a]
                     (map to_lower (ca_Type a)) (opt_value (ca_Label a))) (co_Address c)
  ++ map (fun v => VEmail (cx_Value v) (map to_lower (cx_Type v)) (opt_value (cx_Label v))) (co_Email c)
  ++ map (fun v => VTelephone (cx_Value v) (map to_lower (cx_Type v)) (opt_value (cx_Label v))) (co_Number c)
  ++ match co_Avatar c with
     | Some att => match downloadAttachment att attMap with
                   | Ok data => [VPhoto (if beqb (at_ContentType att) [] then DetectContentType data else at_ContentType att) data]
                   | _ => []
                   end
     | None => []
     end.
Definition contactDisplayName (n : ContactName) : bytes :=
  let name := if beqb (cn_Nickname n) []
              then cn_GivenName n ++ (if beqb (cn_FamilyName n) [] then [] else (if beqb (cn_GivenName n) [] then [] else str " ") ++ cn_FamilyName n)
              else cn_Nickname n in
  if beqb name [] then str "contact" else name.
Definition convertContactToMatrix (attMap : AttachmentMap) (c : Contact) : Part :=
  let card := convertContactToVCard c attMap in
  let extra := [ExContact (mkContact (co_Name c) (co_Organization c) (co_Address c) (co_Email c) (co_Number c) None)] in
  match vcard_encode card with
  | None => new_part EventMessage (notice (str "Failed to encode vCard")) extra
  | Some data =>
      let name := contactDisplayName (co_Name c) ++ str ".vcf" in
      match UploadMedia name (str "text/vcf") data with
      | inl _ => new_part EventMessage (notice (str "Failed to upload vCard")) extra
      | inr uri => new_part EventMessage (mkEventContent MsgFile name [] (Some (mkFileInfo (str "text/vcf") 0 0 (Z.of_nat (length data)) [] None false)) false None 0 uri false) extra
      end
  end.

Definition timer_setting (timer : Z) : Disappear := mkDisappear (if timer =? 0 then DisappearNone else AfterRead) (timer * Second) None.
(** The portal's timer is changed unless the change is outdated or a backfill. *)
Definition ConvertDisappearingTimerChangeToMatrix (timer : Z) (timerVersion : option Z) (isBackfill : bool) : conv_m Part := fun s =>
  let setting := timer_setting timer in
  let part suffix := mkPart [] EventMessage (notice (DisappearingMessageNotice (timer * Second) ++ suffix))
                       [ExTimer (timer * 1000) (negb (timer =? 0)) isBackfill] None None (bool_decide (setting = cv_Disappear s)) in
  if isBackfill then (s, Ok (part []))
  else if match timerVersion with Some v => v <? cv_ExpirationTimerVersion s | None => false end then (s, Ok (part (str " (change ignored)")))
  else (mkConv setting (default 1 timerVersion) (cv_messages s), Ok (part [])).

(** *** Polls *)
Definition convertPollCreateToMatrix (c : PollCreate) : Part :=
  let indexed := imap (fun i o => (Decimal.itoa (Z.of_nat i), o)) (pc_Options c) in
  let body := pc_Question c ++ [x0a; x0a]
              ++ concat (imap (fun i o => (if (i =? 0)%nat then [] else [x0a]) ++ Decimal.itoa (Z.of_nat i + 1) ++ str ". " ++ o ++ [x0a]) (pc_Options c))
              ++ [x0a; x0a] ++ str "(This message is a poll. Please open Signal to vote.)" in
  let html := str "<p>" ++ event_TextToHTML (pc_Question c) ++ str "</p><ol>"
              ++ concat (map (fun o => str "<li>" ++ event_TextToHTML o ++ str "</li>") (pc_Options c))
              ++ str "</ol><p>(This message is a poll. Please open Signal to vote.)</p>" in
  new_part (if ExtEvPolls then EventUnstablePollStart else EventMessage) (plain MsgText body html)
    [ExPoll (pc_Question c) (pc_AllowMultiple c) (if pc_AllowMultiple c then Z.of_nat (length (pc_Options c)) else 1) indexed].

(** A poll that is not in the database is a nil pointer. *)
Definition convertPollTerminateToMatrix (sender : UUID) (target : Z) : conv_m Part := fun s =>
  let id := MakeMessageID sender target in
  (s, if read_fails id then Ok (mkPart [] EventUnstablePollEnd empty_content [] None None true)
      else match cv_messages s !! id with
           | Some (mxid, _) => Ok (new_part EventUnstablePollEnd (relates_to mxid) [ExPollEnd])
           | None => Panic
           end).

Definition invalidPollVote : Part := mkPart [] EventUnstablePollResponse empty_content [] None None true.
Definition set_votes (votes : gmap bytes Z) (m : MessageMetadata) : MessageMetadata :=
  mkMetadata (md_ServerGUID m) (md_ReportingToken m) (md_ViewOnce m) (md_ContainsAttachments m) (md_MatrixPollOptionIDs m) votes (md_IsStory m).
Definition option_id (ids : list bytes) (index : Z) : bytes := default (Decimal.itoa index) (ids !! Z.to_nat index).

Definition poll_response (mxid : bytes) (ids : list bytes) (v : PollVote) : Part :=
  new_part EventUnstablePollResponse (relates_to mxid) [ExPollResponse (map (option_id ids) (pv_OptionIndexes v))].
Definition convertPollVoteToMatrix (sender : UUID) (v : PollVote) : conv_m Part := fun s =>
  match to_fixed 16 (pv_TargetAuthorAciBinary v) with
  | None => (s, Ok invalidPollVote)
  | Some author =>
      let id := MakeMessageID author (pv_TargetSentTimestamp v) in
      match (if read_fails id then None else cv_messages s !! id) with
      | None => (s, Ok invalidPollVote)
      | Some (mxid, meta) =>
          if match md_VoteCount meta !! uuid_string sender with Some prev => pv_VoteCount v <=? prev | None => false end then (s, Ok invalidPollVote)
          else
            (if update_fails id then s
             else mkConv (cv_Disappear s) (cv_ExpirationTimerVersion s)
                    (<[id := (mxid, set_votes (<[uuid_string sender := pv_VoteCount v]> (md_VoteCount meta)) meta)]> (cv_messages s)),
             Ok (poll_response mxid (md_MatrixPollOptionIDs meta) v))
      end
  end.

(** *** Stories *)
Definition story_author (sx : StoryContext) : outcome id_error UUID := ParseStringOrBinaryUUID (sx_AuthorAci sx) (sx_AuthorAciBinary sx).
Definition storyDescription (author : UUID) : bytes :=
  if negb (bool_decide (author = uuid_Nil)) && bool_decide (author = ownACI) then str "your story"
  else if negb (bool_decide (author = uuid_Nil)) && negb (beqb (ui_Name (GetUserInfo author)) []) then str "a story by " ++ ui_Name (GetUserInfo author)
  else str "a story".
Definition IsStoryReaction (dm : DataMessage) : bool := isSome (dm_Reaction dm) && isSome (dm_StoryContext dm).
Definition StoryMessageID (dm : DataMessage) : bytes :=
  match dm_StoryContext dm with
  | Some sx => match story_author sx with Ok author => MakeMessageID author (sx_SentTimestamp sx) | _ => [] end
  | None => []
  end.
Definition storyBridged (id : bytes) (s : ConvState) : bool := negb (read_fails id) && isSome (cv_messages s !! id).
Definition StoryBridged (dm : DataMessage) (s : ConvState) : bool :=
  let id := StoryMessageID dm in if beqb id [] then false else storyBridged id s.
Definition storyReactionNotice (dm : DataMessage) : Part :=
  let author := match dm_StoryContext dm with Some sx => match story_author sx with Ok u => u | _ => uuid_Nil end | None => uuid_Nil end in
  let emoji := match dm_Reaction dm with Some r => rx_Emoji r | None => [] end in
  new_part EventMessage (notice (str "Reacted " ++ emoji ++ str " to " ++ storyDescription author)) [].

Definition prefixContent (prefix : bytes) (c : EventContent) : EventContent :=
  mkEventContent (ec_MsgType c) (prefix ++ ec_Body c) (if beqb (ec_FormattedBody c) [] then [] else EscapeString prefix ++ ec_FormattedBody c)
    (ec_Info c) (ec_ViewLimited c) (ec_RelatesTo c) (ec_Previews c) (ec_URL c) (ec_Voice c).
Definition is_textual (p : Part) : bool := match ec_MsgType (pp_Content p) with MsgText | MsgNotice | MsgEmote => true | _ => false end.
Definition set_content (c : EventContent) (p : Part) : Part := mkPart (pp_ID p) (pp_Type p) c (pp_Extra p) (pp_Album p) (pp_Metadata p) (pp_DontBridge p).
(** The first textual part gets the prefix; without one a notice is added. *)
Fixpoint prefix_first (prefix : bytes) (parts : list Part) : list Part :=
  match parts with
  | [] => [new_part EventMessage (notice prefix) []]
  | p :: parts => if is_textual p then set_content (prefixContent (prefix ++ str ": ") (pp_Content p)) p :: parts else p :: prefix_first prefix parts
  end.
Definition applyStoryContext (sx : StoryContext) (s : ConvState) (cm : ConvertedMessage) : ConvertedMessage :=
  match story_author sx with
  | Ok author =>
      let id := MakeMessageID author (sx_SentTimestamp sx) in
      if storyBridged id s then mkConverted (Some id) (cm_Parts cm) (cm_Disappear cm)
      else mkConverted (cm_ReplyTo cm) (prefix_first (str "Replied to " ++ storyDescription author) (cm_Parts cm)) (cm_Disappear cm)
  | _ => cm
  end.

(** *** The whole message *)

(** Why a view-once message is not shown; [None] when it can be. *)
Definition view_once_unavailable (sender : UUID) (dm : DataMessage) : option bytes :=
  let attachments := dm_Attachments dm in
  if (length attachments =? 0)%nat || bool_decide (sender = ownACI) || negb (now <? int64 (dm_Timestamp dm) + Days45_ms)
  then Some (str "View-once media is no longer available.")
  else if negb (length attachments =? 1)%nat || isSome (dm_Sticker dm) || is_poll dm || negb (length (dm_Contact dm) =? 0)%nat || isSome (dm_Payment dm)
          || dm_GiftBadge dm || negb (beqb (default [] (dm_Body dm)) []) || negb (dm_Previews dm =? 0)%nat || isSome (dm_Quote dm) || negb (dm_Flags dm =? 0)
  then Some (str "Invalid view-once media message.")
  else
    let mime := ParseMediaType (match attachments with a :: _ => at_ContentType a | [] => [] end) in
    if negb (beqb mime []) && negb (has_prefix (str "image/") mime) && negb (has_prefix (str "video/") mime)
    then Some (str "Invalid view-once media message.") else None.

Definition base_disappear (dm : DataMessage) : Disappear :=
  if 0 <? dm_ExpireTimer dm then mkDisappear AfterRead (dm_ExpireTimer dm * Second) None else no_disappear.
(** The timer of a view-once message, and the text part that announces it. *)
Definition view_once_disappear (dm : DataMessage) (d : Disappear) : Disappear * list Part :=
  if negb (dm_IsViewOnce dm) then (d, [])
  else if negb ViewLimitedMedia && ((di_Timer d =? 0) || (5 * Minute_ns <? di_Timer d))
  then (mkDisappear AfterRead (5 * Minute_ns) None,
        [new_part EventMessage (plain MsgText (str "This is a view-once message. It will disappear in 5 minutes.") []) []])
  else
    let at_ := Some (int64 (dm_Timestamp dm) + Days45_ms) in
    (if di_Timer d =? 0 then mkDisappear AfterSend (45 * 24 * 3600 * Second) at_ else mkDisappear (di_Type d) (di_Timer d) at_, []).

(** A view-once attachment is marked, or replaced when it is not media. *)
Definition limit_views (p : Part) : Part :=
  let c := pp_Content p in
  match ec_MsgType c with
  | MsgImage | MsgVideo => set_content (mkEventContent (ec_MsgType c) (ec_Body c) (ec_FormattedBody c) (ec_Info c) true (ec_RelatesTo c) (ec_Previews c) (ec_URL c) (ec_Voice c)) p
  | MsgNotice => p
  | _ => set_content (notice (str "Invalid view-once media message.")) p
  end.

(** The attachments as parts; the last long text replaces the body. *)
Fixpoint convert_attachments (viewOnce : bool) (attMap : AttachmentMap) (atts : list AttachmentPointer) (body : option bytes) : list Part * option bytes :=
  match atts with
  | [] => ([], body)
  | att :: atts =>
      if negb (beqb (at_ContentType att) LongTextContentType) || (matrixTextMaxLength <? at_Size att) then
        let p := convertAttachmentToMatrix att attMap in
        let '(parts, body) := convert_attachments viewOnce attMap atts body in ((if viewOnce then limit_views p else p) :: parts, body)
      else
        convert_attachments viewOnce attMap atts (match downloadSignalLongText att attMap with Ok text => Some text | _ => body end)
  end.

Definition AlbumID (sender : UUID) (timestamp : Z) : bytes := str "signal:" ++ MakeMessageID sender timestamp.
Definition ContainsAttachments (dm : DataMessage) : bool := existsb (fun a => negb (beqb (at_ContentType a) LongTextContentType)) (dm_Attachments dm).

Definition number_part (dm : DataMessage) (i : nat) (p : Part) : Part :=
  mkPart (MakeMessagePartID (Z.of_nat i)) (pp_Type p) (pp_Content p) (pp_Extra p) (pp_Album p)
    (Some (mkMetadata [] [] (dm_IsViewOnce dm) (if dm_IsViewOnce dm then ec_ViewLimited (pp_Content p) else ContainsAttachments dm) [] ∅ false)) (pp_DontBridge p).

Definition quote_target (dm : DataMessage) : option bytes :=
  match dm_Quote dm with
  | Some q => match ParseStringOrBinaryUUID (qu_AuthorAci q) (qu_AuthorAciBinary q) with Ok author => Some (MakeMessageID author (qu_Id q)) | _ => None end
  | None => None
  end.

(** The parts of an ordinary message. *)
Definition convert_parts (sender : UUID) (dm : DataMessage) (attMap : AttachmentMap) : conv_m ConvertedMessage :=
  let '(disappear, announced) := view_once_disappear dm (base_disappear dm) in
  let '(atts, body) := convert_attachments (dm_IsViewOnce dm) attMap (dm_Attachments dm) (dm_Body dm) in
  let* text := match body with Some b => let* p := convertTextToMatrix b dm in sret [p] | None => sret [] end in
  let parts := announced ++ Tag atts (AlbumID sender (dm_Timestamp dm)) ++ map (convertContactToMatrix attMap) (dm_Contact dm)
               ++ match dm_Payment dm with Some p => [convertPaymentToMatrix p] | None => [] end
               ++ (if dm_GiftBadge dm then [convertGiftBadgeToMatrix (bool_decide (sender = ownACI))] else [])
               ++ text in
  let parts := match parts with
               | [] => if CURRENT <? dm_RequiredProtocolVersion dm
                       then [new_part EventMessage (notice (str "The bridge does not support this message type yet.")) []] else []
               | _ => parts
               end in
  fun s =>
    let cm := mkConverted None parts disappear in
    let cm := match dm_StoryContext dm with Some sx => applyStoryContext sx s cm | None => cm end in
    (s, Ok (mkConverted (match quote_target dm with Some id => Some id | None => cm_ReplyTo cm end)
              (imap (number_part dm) (MergeCaption (cm_Parts cm))) (cm_Disappear cm))).

Definition ToMatrix (sender : UUID) (dm : DataMessage) (attMap : AttachmentMap) : conv_m ConvertedMessage :=
  let disappear := base_disappear dm in
  let single (p : Part) (d : Disappear) : conv_m ConvertedMessage := sret (mkConverted None [p] d) in
  match (if dm_IsViewOnce dm then view_once_unavailable sender dm else None) with
  | Some reason => single (mkPart [] EventMessage (notice reason) [] None (Some (mkMetadata [] [] true false [] ∅ false)) false) no_disappear
  | None =>
      if isExpirationUpdate dm then
        let* p := ConvertDisappearingTimerChangeToMatrix (dm_ExpireTimer dm) (dm_ExpireTimerVersion dm) (isSome attMap) in single p no_disappear
      else if IsStoryReaction dm then
        let p := storyReactionNotice dm in
        single (mkPart (MakeMessagePartID 0) (pp_Type p) (pp_Content p) (pp_Extra p) (pp_Album p) (Some empty_metadata) (pp_DontBridge p)) disappear
      else
        match dm_Sticker dm, dm_PollVote dm, dm_PollCreate dm, dm_PollTerminate dm with
        | Some st, _, _, _ => let* p := slift (convertStickerToMatrix st attMap) in single p disappear
        | None, Some v, _, _ => let* p := convertPollVoteToMatrix sender v in single p disappear
        | None, None, Some c, _ => single (convertPollCreateToMatrix c) disappear
        | None, None, None, Some target => let* p := convertPollTerminateToMatrix sender target in single p disappear
        | None, None, None, None => convert_parts sender dm attMap
        end
  end.

(** A story: a text with its preview and look, or a file with its caption. *)
Inductive story_background := BgNone | BgColor (c : Z) | BgGradient (startColor : option Z) (endColor : Z) (colors positions : list Z) (angle : Z).
Record TextAttachment := mkTextAttachment {
  ta_Text : bytes;
  ta_PreviewUrl : bytes;
  ta_TextStyle : bytes;
  ta_TextForegroundColor : option Z;
  ta_TextBackgroundColor : option Z;
  ta_Background : story_background
}.
Inductive story_attachment := StoryText (ta : TextAttachment) | StoryFile (att : AttachmentPointer) | StoryNoAttachment.
Record StoryMessage := mkStory { sm_AllowsReplies : bool; sm_BodyRanges : list ProtoRange; sm_attachment : story_attachment }.

Definition StoryPrefix : bytes := str "Story (expires on Signal after 24 hours)".
Definition storyLifetime_ms : Z := 24 * 3600 * 1000.
Definition argbColor (c : Z) : bytes := str "#" ++ concat (map CanonicalUUID.hex_byte (BigEndian.put_uint32 c)).
Definition text_style (ta : TextAttachment) : list story_style :=
  [TextStyleName (ta_TextStyle ta)]
  ++ match ta_TextForegroundColor ta with Some c => [TextColor (argbColor c)] | None => [] end
  ++ match ta_TextBackgroundColor ta with Some c => [TextBackgroundColor (argbColor c)] | None => [] end
  ++ match ta_Background ta with
     | BgNone => []
     | BgColor c => [BackgroundColor (argbColor c)]
     | BgGradient start end_ colors positions angle =>
         [BackgroundGradient (match colors, start with [], Some s => [argbColor s; argbColor end_] | _, _ => map argbColor colors end) positions angle]
     end.
Definition storyExtra (story : StoryMessage) (ts : Z) : list extra :=
  [ExStory (sm_AllowsReplies story) (int64 ts + storyLifetime_ms) (match sm_attachment story with StoryText ta => text_style ta | _ => [] end)].

(** [strings.Contains] *)
Fixpoint contains (sub s : bytes) : bool := has_prefix sub s || match s with [] => false | _ :: s => contains sub s end.

Definition story_part (hasMedia : bool) (i : nat) (p : Part) : Part :=
  mkPart (MakeMessagePartID (Z.of_nat i)) (pp_Type p) (pp_Content p) (pp_Extra p) (pp_Album p) (Some (mkMetadata [] [] false hasMedia [] ∅ true)) (pp_DontBridge p).
Definition StoryToMatrix (story : StoryMessage) (ts : Z) : conv_m ConvertedMessage :=
  let finish (hasMedia : bool) (parts : list Part) : conv_m ConvertedMessage :=
    sret (mkConverted None (imap (story_part hasMedia) (MergeCaption parts)) no_disappear) in
  match sm_attachment story with
  | StoryText ta =>
      let url := ta_PreviewUrl ta in
      let text := if negb (beqb url []) && negb (contains url (ta_Text ta)) then ta_Text ta ++ (if beqb (ta_Text ta) [] then [] else [x0a]) ++ url else ta_Text ta in
      let* c := slift (Parse GetUserInfo text (sm_BodyRanges story)) in
      finish false [new_part EventMessage (prefixContent (StoryPrefix ++ str ": ") (plain MsgText (mc_Body c) (mc_FormattedBody c))) (storyExtra story ts)]
  | StoryFile att =>
      let media := convertAttachmentToMatrix att None in
      let media := mkPart (pp_ID media) (pp_Type media) (pp_Content media) (storyExtra story ts) (pp_Album media) (pp_Metadata media) (pp_DontBridge media) in
      let* c := slift (Parse GetUserInfo (at_Caption att) (sm_BodyRanges story)) in
      let caption := if beqb (at_Caption att) [] then plain MsgText StoryPrefix (mc_FormattedBody c)
                     else prefixContent (StoryPrefix ++ str ": ") (plain MsgText (mc_Body c) (mc_FormattedBody c)) in
      finish true [media; new_part EventMessage caption []]
  | StoryNoAttachment =>
      finish false [new_part EventMessage (notice (StoryPrefix ++ str ": the bridge does not support this kind of story yet.")) (storyExtra story ts)]
  end.

(** ** What the framework's [MergeCaption] keeps
    It may put a text part into a media part; it drops no media and adds none. *)
Definition same_kind (p q : Part) : Prop :=
  pp_Type p = pp_Type q /\ ec_MsgType (pp_Content p) = ec_MsgType (pp_Content q) /\ ec_ViewLimited (pp_Content p) = ec_ViewLimited (pp_Content q).
Context (merge_nonempty : forall parts, parts <> [] -> MergeCaption parts <> [])
        (merge_from : forall parts p, p ∈ MergeCaption parts -> exists q, q ∈ parts /\ same_kind p q).

(** ** Lemmas *)
Lemma numbered_id dm parts i p : imap (number_part dm) parts !! i = Some p -> pp_ID p = MakeMessagePartID (Z.of_nat i).
Proof. rewrite list_lookup_imap. destruct (parts !! i); [|done]. intros [= <-]. done. Qed.

Lemma numbered_from dm parts p : p ∈ imap (number_part dm) (MergeCaption parts) ->
  exists q, q ∈ parts /\ same_kind p q /\
    pp_Metadata p = Some (mkMetadata [] [] (dm_IsViewOnce dm) (if dm_IsViewOnce dm then ec_ViewLimited (pp_Content p) else ContainsAttachments dm) [] ∅ false).
Proof.
  intros (i & Hi)%list_elem_of_lookup_1. rewrite list_lookup_imap in Hi.
  destruct (MergeCaption parts !! i) as [q0|] eqn:E0; [|done]. injection Hi as <-.
  destruct (merge_from parts q0) as (q & Hq & Hk); [by eapply list_elem_of_lookup_2|].
  exists q. split_and!; [done|exact Hk|done].
Qed.

(** A part that shows media. *)
Definition shows_media (p : Part) : Prop := IsMediaPart p = true \/ pp_Type p = EventSticker.
Lemma shows_media_kind p q : same_kind p q -> shows_media p -> shows_media q.
Proof. intros (Ht & Hm & _). unfold shows_media, IsMediaPart. rewrite Ht, Hm. done. Qed.

Lemma reuploaded_message att attMap p : reuploadAttachment att attMap = Ok p -> pp_Type p = EventMessage /\ pp_ID p = [].
Proof.
  unfold reuploadAttachment. intros H. inv_ok. destruct a0 as [[[u n] m] v]. by injection H as <-.
Qed.
Lemma attachment_message att attMap : let p := convertAttachmentToMatrix att attMap in pp_Type p = EventMessage /\ pp_ID p = [].
Proof.
  unfold convertAttachmentToMatrix. destruct (reuploadAttachment att attMap) as [p|e|] eqn:Er.
  - by apply reuploaded_message in Er.
  - by repeat case_match.
  - done.
Qed.

Definition limited (p : Part) : Prop := shows_media p -> ec_ViewLimited (pp_Content p) = true.
Lemma limit_views_limited att attMap : limited (limit_views (convertAttachmentToMatrix att attMap)).
Proof.
  destruct (attachment_message att attMap) as [Ht _]. set (p := convertAttachmentToMatrix att attMap) in *.
  unfold limited, shows_media, limit_views, IsMediaPart.
  destruct (ec_MsgType (pp_Content p)) eqn:Em; cbn; rewrite ?Em, ?Ht; cbn; intros [H|H]; done.
Qed.

Lemma convert_attachments_limited attMap atts : forall body parts body',
  convert_attachments true attMap atts body = (parts, body') -> Forall limited parts.
Proof.
  induction atts as [|att atts IH]; intros body parts body'; cbn [convert_attachments].
  { by intros [= <- _]. }
  destruct (_ || _); [|apply IH]. destruct (convert_attachments true attMap atts body) as [ps b] eqn:E'.
  intros [= <- _]. constructor; [apply limit_views_limited|by eapply IH].
Qed.

Lemma Tag_limited items id : Forall limited items -> Forall limited (Tag items id).
Proof.
  unfold Tag. destruct (_ <? 2)%nat; [done|]. rewrite !Forall_lookup. intros H i p. rewrite list_lookup_imap.
  destruct (items !! i) as [q|] eqn:Eq; [|done]. specialize (H i q Eq). cbn. intros [= <-]. by destruct (IsMediaPart q).
Qed.

Lemma prefix_first_limited prefix parts : Forall limited parts -> Forall limited (prefix_first prefix parts).
Proof.
  induction 1 as [|p parts Hp Hps IH]; cbn [prefix_first].
  { constructor; [|done]. by intros [H|H]. }
  destruct (is_textual p); constructor; done.
Qed.
Lemma story_limited sx s cm : Forall limited (cm_Parts cm) -> Forall limited (cm_Parts (applyStoryContext sx s cm)).
Proof. unfold applyStoryContext. intros H. repeat case_match; try done. by apply prefix_first_limited. Qed.
Lemma story_disappear sx s cm : cm_Disappear (applyStoryContext sx s cm) = cm_Disappear cm.
Proof. unfold applyStoryContext. by repeat case_match. Qed.

(** The parts before the story context is added. *)
Definition own_parts (sender : UUID) (dm : DataMessage) (attMap : AttachmentMap) (text : list Part) : list Part :=
  let '(_, announced) := view_once_disappear dm (base_disappear dm) in
  let '(atts, _) := convert_attachments (dm_IsViewOnce dm) attMap (dm_Attachments dm) (dm_Body dm) in
  let parts := announced ++ Tag atts (AlbumID sender (dm_Timestamp dm)) ++ map (convertContactToMatrix attMap) (dm_Contact dm)
               ++ match dm_Payment dm with Some p => [convertPaymentToMatrix p] | None => [] end
               ++ (if dm_GiftBadge dm then [convertGiftBadgeToMatrix (bool_decide (sender = ownACI))] else []) ++ text in
  match parts with
  | [] => if CURRENT <? dm_RequiredProtocolVersion dm
          then [new_part EventMessage (notice (str "The bridge does not support this message type yet.")) []] else []
  | _ => parts
  end.
Definition long_body (dm : DataMessage) (attMap : AttachmentMap) : option bytes :=
  snd (convert_attachments (dm_IsViewOnce dm) attMap (dm_Attachments dm) (dm_Body dm)).

Lemma convert_parts_inv sender dm attMap s s' cm : convert_parts sender dm attMap s = (s', Ok cm) ->
  s' = s /\ cm_Disappear cm = fst (view_once_disappear dm (base_disappear dm)) /\
  exists text cm0, Forall (fun p => pp_Type p = EventMessage /\ ec_MsgType (pp_Content p) = MsgText) text /\
    (isSome (long_body dm attMap) = true -> text <> []) /\
    cm_Parts cm0 = own_parts sender dm attMap text /\
    cm_Parts cm = imap (number_part dm) (MergeCaption (cm_Parts (match dm_StoryContext dm with Some sx => applyStoryContext sx s cm0 | None => cm0 end))).
Proof.
  unfold convert_parts, own_parts, long_body.
  destruct (view_once_disappear dm (base_disappear dm)) as [d announced].
  destruct (convert_attachments _ _ _ _) as [atts body]. cbn [snd fst].
  intros (s1 & text & Ht & H)%sbind_Ok.
  assert (s1 = s /\ Forall (fun p => pp_Type p = EventMessage /\ ec_MsgType (pp_Content p) = MsgText) text /\ (isSome body = true -> text <> []))
    as (-> & Htext & Hne).
  { destruct body as [b|].
    - unfold convertTextToMatrix in Ht. unfold sbind, slift, sret in Ht. destruct (Parse _ _ _); try done.
      injection Ht as <- <-. split_and!; [done|by repeat constructor|done].
    - injection Ht as <- <-. by split_and!. }
  cbv zeta in H. injection H as <- <-. split_and!; [done| |].
  - cbn. destruct (dm_StoryContext dm); [|done]. by rewrite story_disappear.
  - exists text. eexists (mkConverted None _ d). split_and!; [done|done|cbn; reflexivity|]. done.
Qed.

Lemma Parse_total `{L : !FmtLaws E} ranges rs text : wire_ranges ranges rs -> Forall (fun r => ~ nil_mention r) rs ->
  exists c, Parse GetUserInfo text ranges = Ok c.
Proof.
  intros Hw Hn. destruct (decide (ranges = [])) as [->|Hne]; [by eexists|].
  destruct (Parse_spec GetUserInfo text ranges rs Hw Hne Hn) as (c & _ & Hc & _). by exists c.
Qed.

Lemma convert_parts_total `{L : !FmtLaws E} sender dm attMap rs s : wire_ranges (dm_BodyRanges dm) rs -> Forall (fun r => ~ nil_mention r) rs ->
  exists cm, convert_parts sender dm attMap s = (s, Ok cm).
Proof.
  intros Hw Hn. unfold convert_parts. destruct (view_once_disappear _ _) as [d announced], (convert_attachments _ _ _ _) as [atts [b|]].
  - destruct (Parse_total _ _ b Hw Hn) as [c Hc]. unfold sbind, convertTextToMatrix, sbind, slift. rewrite Hc. cbn. by eexists.
  - cbn. by eexists.
Qed.

Definition lost_text (attMap : AttachmentMap) (att : AttachmentPointer) : Prop :=
  at_ContentType att = LongTextContentType /\ forall text, downloadSignalLongText att attMap <> Ok text.

Lemma body_kept viewOnce attMap atts : forall body parts body', isSome body = true ->
  convert_attachments viewOnce attMap atts body = (parts, body') -> isSome body' = true.
Proof.
  induction atts as [|att atts IH]; intros body parts body' Hb; cbn [convert_attachments].
  { by intros [= _ <-]. }
  destruct (_ || _).
  - destruct (convert_attachments _ _ atts body) as [ps b] eqn:E'. intros [= _ <-]. by eapply IH.
  - apply IH. by destruct (downloadSignalLongText att attMap).
Qed.

Lemma attachments_lost viewOnce attMap atts : forall body body',
  convert_attachments viewOnce attMap atts body = ([], body') -> isSome body' = false -> body = None /\ Forall (lost_text attMap) atts.
Proof.
  induction atts as [|att atts IH]; intros body body'; cbn [convert_attachments].
  { intros [= ->]. by destruct body'. }
  destruct (_ || _) eqn:Ec; [by destruct (convert_attachments _ _ _ _)|].
  apply orb_false_iff in Ec as [Ec _]. apply negb_false_iff, bool_decide_eq_true in Ec.
  intros H Hb. pose proof H as H'. apply IH in H as [Hbody Hlost]; [|done].
  destruct (downloadSignalLongText att attMap) as [t|e|] eqn:Ed; [done|..].
  all: split; [done|constructor; [|done]]; split; [done|]; intros t'; rewrite Ed; done.
Qed.

Lemma Tag_nil items id : Tag items id = [] -> items = [].
Proof. destruct items as [|p [|q items]]; done. Qed.

(** Nothing to show: every part of the message is missing or lost. *)
Definition nothing_left (dm : DataMessage) (attMap : AttachmentMap) : Prop :=
  dm_Body dm = None /\ dm_Contact dm = [] /\ dm_Payment dm = None /\ dm_GiftBadge dm = false /\ dm_RequiredProtocolVersion dm <= CURRENT /\ Forall (lost_text attMap) (dm_Attachments dm).

Lemma own_parts_nil sender dm attMap text : (isSome (long_body dm attMap) = true -> text <> []) ->
  own_parts sender dm attMap text = [] -> nothing_left dm attMap.
Proof.
  unfold own_parts, long_body. destruct (view_once_disappear _ _) as [d announced].
  destruct (convert_attachments _ _ _ _) as [atts body] eqn:Ea. cbn [snd]. intros Ht H.
  destruct (announced ++ _) as [|p l] eqn:El; [|done].
  destruct (Z.ltb_spec CURRENT (dm_RequiredProtocolVersion dm)); [done|]. clear H.
  apply app_eq_nil in El as [_ El]. apply app_eq_nil in El as [Etag El]. apply app_eq_nil in El as [Ec El].
  apply app_eq_nil in El as [Ep El]. apply app_eq_nil in El as [Eg Et].
  apply Tag_nil in Etag as ->. apply attachments_lost in Ea as [Hb Hl]; [|by destruct body; [destruct (Ht eq_refl)|]].
  unfold nothing_left. split_and!; [done|by destruct (dm_Contact dm)|by destruct (dm_Payment dm)|by destruct (dm_GiftBadge dm)|done|done].
Qed.

Lemma accepted_attachment sender dm attMap : CanConvertSignal dm = true ->
  (if dm_IsViewOnce dm then view_once_unavailable sender dm else None) = None -> isExpirationUpdate dm = false ->
  dm_Sticker dm = None -> is_poll dm = false -> nothing_left dm attMap -> dm_Attachments dm <> [].
Proof.
  intros Hcan Hv He Hs Hp (Hb & Hc & Hpay & Hg & Hr & _) Ha.
  unfold CanConvertSignal, calculateLength in Hcan. rewrite He, Hs, Hp, Ha, Hc, Hb, Hpay, Hg in Hcan.
  unfold view_once_unavailable in Hv. rewrite Ha in Hv. destruct (dm_IsViewOnce dm); [done|]. cbn in Hcan.
  by destruct (Z.ltb_spec CURRENT (dm_RequiredProtocolVersion dm)); [lia|].
Qed.

Lemma story_parts_nil sx s cm : cm_Parts (applyStoryContext sx s cm) = [] -> cm_Parts cm = [].
Proof. unfold applyStoryContext. repeat case_match; try done. cbn. by destruct (cm_Parts cm) as [|p l]; cbn; [|destruct (is_textual p)]. Qed.

Lemma convert_parts_ok sender dm attMap s s' cm : convert_parts sender dm attMap s = (s', Ok cm) ->
  (forall i p, cm_Parts cm !! i = Some p -> pp_ID p = MakeMessagePartID (Z.of_nat i)) /\ (cm_Parts cm = [] -> nothing_left dm attMap).
Proof.
  intros (-> & _ & text & cm0 & _ & Hne & H0 & ->)%convert_parts_inv. split; [intros i p; apply numbered_id|].
  intros H. destruct (MergeCaption _) as [|p l] eqn:Em; [|done].
  set (parts := cm_Parts _) in Em. assert (Hnil : parts = []).
  { destruct (decide (parts = [])) as [|Hp]; [done|]. by apply merge_nonempty in Hp. }
  apply (own_parts_nil sender _ _ text Hne). rewrite <- H0. unfold parts in Hnil.
  destruct (dm_StoryContext dm); [by apply story_parts_nil in Hnil|done].
Qed.

Lemma poll_vote_ok sender v s : exists s' p, convertPollVoteToMatrix sender v s = (s', Ok p) /\ pp_ID p = [].
Proof. unfold convertPollVoteToMatrix. repeat case_match; do 2 eexists; (split; [reflexivity|done]). Qed.
Lemma timer_change_ok timer version backfill s : exists s' p,
  ConvertDisappearingTimerChangeToMatrix timer version backfill s = (s', Ok p) /\ pp_ID p = [].
Proof. unfold ConvertDisappearingTimerChangeToMatrix. repeat case_match; do 2 eexists; (split; [reflexivity|done]). Qed.
Lemma sticker_ok st attMap : is_Some (st_Data st) -> exists p, convertStickerToMatrix st attMap = Ok p /\ pp_ID p = [].
Proof.
  intros [att Ha]. unfold convertStickerToMatrix. rewrite Ha. destruct (reuploadAttachment att attMap) as [p|e|] eqn:Er.
  - apply reuploaded_message in Er as [_ Hid]. eexists. split; [done|exact Hid].
  - by eexists.
  - exfalso. revert Er. unfold reuploadAttachment, actuallyReuploadAttachment, downloadAttachment, checkIfAttachmentExists, result, obind.
    by repeat case_match.
Qed.
Lemma single_ok (P : Prop) (p : Part) d : pp_ID p = [] ->
  let cm := mkConverted None [p] d in
  (forall i q, cm_Parts cm !! i = Some q -> pp_ID q = MakeMessagePartID (Z.of_nat i)) /\ (cm_Parts cm = [] -> P).
Proof. intros H. split; [|done]. intros [|i] q; cbn; [|done]. by intros [= <-]. Qed.

(** A message converts without a panic, unless it is a sticker without data or
    ends a poll that is not in the database; its parts carry the IDs of their
    positions, and there are none only when the whole content was a long text
    that could not be downloaded. *)
Lemma ToMatrix_total `{L : !FmtLaws E} sender dm rs attMap s (Hcan : IsStoryReaction dm = false -> CanConvertSignal dm = true)
  (Hw : wire_ranges (dm_BodyRanges dm) rs) (Hn : Forall (fun r => ~ nil_mention r) rs)
  (Hst : forall st, dm_Sticker dm = Some st -> is_Some (st_Data st))
  (Hpt : forall t, dm_PollTerminate dm = Some t -> read_fails (MakeMessageID sender t) = true \/ is_Some (cv_messages s !! MakeMessageID sender t)) :
  exists s' cm, ToMatrix sender dm attMap s = (s', Ok cm) /\
    (forall i p, cm_Parts cm !! i = Some p -> pp_ID p = MakeMessagePartID (Z.of_nat i)) /\
    (cm_Parts cm = [] -> nothing_left dm attMap /\ dm_Attachments dm <> []).
Proof.
  unfold ToMatrix. destruct (if dm_IsViewOnce dm then _ else _) eqn:Ev; [do 2 eexists; split; [done|by apply single_ok]|].
  destruct (isExpirationUpdate dm) eqn:Eexp.
  { destruct (timer_change_ok (dm_ExpireTimer dm) (dm_ExpireTimerVersion dm) (isSome attMap) s) as (s' & p & Ep & Hid).
    unfold sbind. rewrite Ep. do 2 eexists. split; [done|by apply single_ok]. }
  destruct (IsStoryReaction dm) eqn:Esr; [do 2 eexists; split; [done|by apply single_ok]|].
  destruct (dm_Sticker dm) as [st|] eqn:Est.
  { destruct (sticker_ok st attMap) as (p & Ep & Hid); [by apply Hst|]. unfold sbind, slift. rewrite Ep.
    do 2 eexists. split; [done|by apply single_ok]. }
  destruct (dm_PollVote dm) as [v|] eqn:Epv.
  { destruct (poll_vote_ok sender v s) as (s' & p & Ep & Hid). unfold sbind. rewrite Ep. do 2 eexists. split; [done|by apply single_ok]. }
  destruct (dm_PollCreate dm) as [c|] eqn:Epc; [do 2 eexists; split; [done|by apply single_ok]|].
  destruct (dm_PollTerminate dm) as [t|] eqn:Ept.
  { unfold sbind, convertPollTerminateToMatrix. destruct (Hpt t eq_refl) as [->|[[mxid meta] Hm]].
    - do 2 eexists. split; [done|by apply single_ok].
    - rewrite Hm. destruct (read_fails _); do 2 eexists; (split; [done|by apply single_ok]). }
  destruct (convert_parts_total sender dm attMap rs s Hw Hn) as [cm Hcm].
  exists s, cm. destruct (convert_parts_ok _ _ _ _ _ _ Hcm) as [Hids Hnil]. split_and!; [done|done|].
  intros Hp. split; [by apply Hnil|]. apply (accepted_attachment sender dm attMap); try done; [by apply Hcan| |by apply Hnil].
  unfold is_poll. by rewrite Epv, Epc, Ept.
Qed.

(** Every story converts, to parts that are marked as a story's. *)
Lemma StoryToMatrix_total `{L : !FmtLaws E} story ts rs s (Hw : wire_ranges (sm_BodyRanges story) rs) (Hn : Forall (fun r => ~ nil_mention r) rs) :
  exists cm, StoryToMatrix story ts s = (s, Ok cm) /\ cm_Parts cm <> [] /\
    (forall i p, cm_Parts cm !! i = Some p -> pp_ID p = MakeMessagePartID (Z.of_nat i) /\ exists m, pp_Metadata p = Some m /\ md_IsStory m = true).
Proof.
  assert (Hf : forall media parts, parts <> [] -> imap (story_part media) (MergeCaption parts) <> [] /\ forall i p, imap (story_part media) (MergeCaption parts) !! i = Some p ->
    pp_ID p = MakeMessagePartID (Z.of_nat i) /\ exists m, pp_Metadata p = Some m /\ md_IsStory m = true).
  { intros media parts Hp. apply merge_nonempty in Hp. split; [by destruct (MergeCaption parts)|].
    intros i p. rewrite list_lookup_imap. destruct (MergeCaption parts !! i); [|done]. intros [= <-]. split; [done|by eexists]. }
  unfold StoryToMatrix. destruct (sm_attachment story) as [ta|att|]; [| |eexists; split; [done|by apply Hf]].
  all: match goal with |- context [Parse GetUserInfo ?t] => destruct (Parse_total _ _ t Hw Hn) as [c Hc] end.
  all: unfold sbind, slift; rewrite Hc; eexists; split; [done|by apply Hf].
Qed.

Lemma view_once_available sender dm : view_once_unavailable sender dm = None ->
  sender <> ownACI /\ now < int64 (dm_Timestamp dm) + Days45_ms /\ dm_Sticker dm = None /\ is_poll dm = false /\ dm_Contact dm = [] /\
  dm_Payment dm = None /\ dm_GiftBadge dm = false /\ dm_Flags dm = 0.
Proof.
  unfold view_once_unavailable. destruct (_ || _ || _) eqn:E1; [done|].
  apply orb_false_iff in E1 as [[_ E1]%orb_false_iff E2]. apply bool_decide_eq_false in E1.
  destruct (_ || _ || _) eqn:E3; [done|]. intros _. rewrite !orb_false_iff in E3.
  destruct E3 as [[[[[[[[[_ Hs] Hp] Hc] Hpay] Hg] _] _] _] Hf].
  split_and!; [done|lia|by destruct (dm_Sticker dm)|done| |by destruct (dm_Payment dm)|done|lia].
  by destruct (dm_Contact dm).
Qed.

Lemma view_once_timer dm : dm_IsViewOnce dm = true ->
  let d := fst (view_once_disappear dm (base_disappear dm)) in
  di_Type d <> DisappearNone /\ 0 < di_Timer d /\
  (d = mkDisappear AfterRead (5 * Minute_ns) None \/ di_DisappearAt d = Some (int64 (dm_Timestamp dm) + Days45_ms)) /\
  (ViewLimitedMedia = false -> di_Type d = AfterRead /\ di_Timer d <= 5 * Minute_ns).
Proof.
  intros Hv. unfold view_once_disappear. rewrite Hv. cbn [negb].
  destruct (negb ViewLimitedMedia && _) eqn:E1; cbn [fst].
  { cbn. split_and!; [done|done|by left|done]. }
  unfold base_disappear in *. destruct (Z.ltb_spec 0 (dm_ExpireTimer dm)); cbn in *.
  - assert (Hz : (dm_ExpireTimer dm * Second =? 0) = false) by (unfold Second; lia). rewrite Hz in *. cbn in *.
    split_and!; [done|unfold Second; lia|by right|]. intros HV. rewrite HV in E1. cbn in E1. split; [done|].
    by destruct (Z.ltb_spec (5 * Minute_ns) (dm_ExpireTimer dm * Second)).
  - split_and!; [done|done|by right|]. intros HV. by rewrite HV in E1.
Qed.

Lemma text_limited text : Forall (fun p => pp_Type p = EventMessage /\ ec_MsgType (pp_Content p) = MsgText) text -> Forall limited text.
Proof.
  intros Hall. eapply Forall_impl; [exact Hall|]. intros p [Ht Hm] [H|H]; [|congruence]. unfold IsMediaPart in H. rewrite Hm in H. by rewrite andb_false_r in H. Qed.

Lemma own_parts_limited sender dm attMap text : dm_IsViewOnce dm = true -> view_once_unavailable sender dm = None ->
  Forall limited text -> Forall limited (own_parts sender dm attMap text).
Proof.
  intros Hv (_ & _ & _ & _ & Hc & Hp & Hg & _)%view_once_available Ht. unfold own_parts. rewrite Hc, Hp, Hg, Hv.
  unfold view_once_disappear. rewrite Hv. cbn [negb].
  destruct (convert_attachments true attMap _ _) as [atts body] eqn:Ea. apply convert_attachments_limited in Ea.
  assert (Hall : forall announced, Forall limited announced ->
    Forall limited (announced ++ Tag atts (AlbumID sender (dm_Timestamp dm)) ++ map (convertContactToMatrix attMap) [] ++ [] ++ [] ++ text)).
  { intros an Han. apply Forall_app_2; [done|]. apply Forall_app_2; [by apply Tag_limited|done]. }
  assert (Hlast : forall parts, Forall limited parts -> Forall limited
    (match parts with [] => if CURRENT <? dm_RequiredProtocolVersion dm
       then [new_part EventMessage (notice (str "The bridge does not support this message type yet.")) []] else [] | _ => parts end)).
  { intros [|p ps] Hps; [|done]. destruct (_ <? _); [|done]. constructor; [|done]. by intros [H|H]. }
  destruct (_ && _); apply Hlast, Hall; [constructor; [by intros [H|H]|done]|done].
Qed.

Lemma notice_no_media i t e a m d : t <> EventSticker -> ~ shows_media (mkPart i t (notice e) [] a m d).
Proof. intros Ht [H|H]; [|done]. unfold IsMediaPart in H. cbn in H. by rewrite andb_false_r in H. Qed.

(** Every part of a view-once message that shows media is marked to be viewed
    once; it comes from someone else, at most 45 days after it was sent; and
    it disappears. *)
Lemma view_once_media sender dm attMap s s' cm p (Hv : dm_IsViewOnce dm = true)
  (Hc : ToMatrix sender dm attMap s = (s', Ok cm)) (Hp : p ∈ cm_Parts cm) (Hm : shows_media p) :
  ec_ViewLimited (pp_Content p) = true /\ sender <> ownACI /\ now < int64 (dm_Timestamp dm) + Days45_ms /\
  pp_Metadata p = Some (mkMetadata [] [] true true [] ∅ false) /\
  let d := cm_Disappear cm in
  di_Type d <> DisappearNone /\ 0 < di_Timer d /\
  (d = mkDisappear AfterRead (5 * Minute_ns) None \/ di_DisappearAt d = Some (int64 (dm_Timestamp dm) + Days45_ms)) /\
  (ViewLimitedMedia = false -> di_Type d = AfterRead /\ di_Timer d <= 5 * Minute_ns).
Proof.
  unfold ToMatrix in Hc. rewrite Hv in Hc. destruct (view_once_unavailable sender dm) as [reason|] eqn:Ev.
  { injection Hc as <- <-. cbn in Hp. apply list_elem_of_singleton in Hp as ->. by apply notice_no_media in Hm. }
  destruct (view_once_available _ _ Ev) as (Hsend & Hnow & Hst & Hpoll & _ & _ & _ & Hf).
  assert (isExpirationUpdate dm = false) as He by (unfold isExpirationUpdate; by rewrite Hf). rewrite He in Hc.
  destruct (IsStoryReaction dm).
  { injection Hc as <- <-. cbn in Hp. apply list_elem_of_singleton in Hp as ->. by apply notice_no_media in Hm. }
  unfold is_poll in Hpoll. rewrite Hst in Hc. destruct (dm_PollVote dm), (dm_PollCreate dm), (dm_PollTerminate dm); try done.
  apply convert_parts_inv in Hc as (_ & Hd & text & cm0 & Htext & _ & H0 & Hparts). rewrite Hd, Hparts in *.
  apply numbered_from in Hp as (q & Hq & Hk & Hmeta).
  assert (Hlim : ec_ViewLimited (pp_Content p) = true).
  { pose proof Hk as (_ & _ & ->). apply (shows_media_kind _ q Hk) in Hm.
    assert (Forall limited (cm_Parts cm0)) by (rewrite H0; apply own_parts_limited; [done|done|by apply text_limited]).
    refine (proj1 (Forall_forall limited _) _ q Hq Hm). destruct (dm_StoryContext dm); [by apply story_limited|done]. }
  split_and!; [done|done|done|by rewrite Hmeta, Hv, Hlim|]. by apply view_once_timer.
Qed.

End Convert.

(** ** Sequences of votes and of timer changes *)
Section Votes.
Context `{U : UUIDLib} (read_fails update_fails : bytes -> bool).

Definition receive_vote (st : ConvState * list (UUID * Part)) (vote : UUID * PollVote) : ConvState * list (UUID * Part) :=
  match convertPollVoteToMatrix read_fails update_fails vote.1 vote.2 st.1 with
  | (s, Ok p) => (s, if pp_DontBridge p then st.2 else st.2 ++ [(vote.1, p)])
  | (s, _) => (s, st.2)
  end.
(** The votes in the order they arrive: the state and the answers shown on Matrix. *)
Definition receive_votes (votes : list (UUID * PollVote)) (s : ConvState) : ConvState * list (UUID * Part) := fold_left receive_vote votes (s, []).
Definition votes_on (id : bytes) (v : PollVote) : Prop :=
  exists author, to_fixed 16 (pv_TargetAuthorAciBinary v) = Some author /\ MakeMessageID author (pv_TargetSentTimestamp v) = id.
Definition shown_by (u : UUID) (shown : list (UUID * Part)) : list Part := (filter (fun x => x.1 = u) shown).*2.

Context `{UL : !UUIDLaws U} (id mxid : bytes) (meta : MessageMetadata) (Hr : read_fails id = false) (Hu : update_fails id = false).
Let poll_state (s : ConvState) (V : gmap bytes Z) : Prop := cv_messages s !! id = Some (mxid, set_votes V meta).

Lemma uuid_string_inj u w : uuid_string u = uuid_string w -> u = w.
Proof. intros H. apply (f_equal uuid_parse) in H. rewrite !uuid_parse_string in H. by injection H. Qed.

Lemma vote_step s V u v : poll_state s V -> votes_on id v ->
  convertPollVoteToMatrix read_fails update_fails u v s =
  if match V !! uuid_string u with Some prev => pv_VoteCount v <=? prev | None => false end then (s, Ok invalidPollVote)
  else (mkConv (cv_Disappear s) (cv_ExpirationTimerVersion s) (<[id := (mxid, set_votes (<[uuid_string u := pv_VoteCount v]> V) meta)]> (cv_messages s)),
        Ok (poll_response mxid (md_MatrixPollOptionIDs meta) v)).
Proof.
  intros Hs (author & Ha & Hid). unfold convertPollVoteToMatrix. rewrite Ha, Hid, Hr, Hs. cbn. rewrite Hu. done.
Qed.

(** What holds for each voter after some votes. *)
Definition voter_ok (V0 V : gmap bytes Z) (votes : list (UUID * PollVote)) (shown : list (UUID * Part)) (u : UUID) : Prop :=
  (forall v, (u, v) ∈ votes -> exists n, V !! uuid_string u = Some n /\ pv_VoteCount v <= n) /\
  match last (shown_by u shown) with
  | Some p => exists v, (u, v) ∈ votes /\ V !! uuid_string u = Some (pv_VoteCount v) /\ p = poll_response mxid (md_MatrixPollOptionIDs meta) v
  | None => V !! uuid_string u = V0 !! uuid_string u
  end.

Lemma voter_old V0 V votes shown u x V' : voter_ok V0 V votes shown u -> V' !! uuid_string u = V !! uuid_string u ->
  (forall v, x = (u, v) -> exists n, V !! uuid_string u = Some n /\ pv_VoteCount v <= n) -> voter_ok V0 V' (votes ++ [x]) shown u.
Proof.
  intros [H1 H2] HV Hx. split.
  - intros v [Hv|Hv%list_elem_of_singleton]%elem_of_app; rewrite HV; [by apply H1|by apply Hx].
  - destruct (last _); rewrite HV; [|done]. destruct H2 as (v & Hv & Hn & Hp). exists v. split_and!; [|done|done]. apply elem_of_app. by left.
Qed.

Lemma shown_by_snoc u shown w p : shown_by u (shown ++ [(w, p)]) = shown_by u shown ++ (if decide (w = u) then [p] else []).
Proof.
  unfold shown_by. rewrite filter_app, fmap_app. f_equal. destruct (decide (w = u)) as [->|Hne].
  - by rewrite filter_cons_True.
  - by rewrite filter_cons_False.
Qed.

Lemma votes_invariant s V0 votes : poll_state s V0 -> Forall (fun x => votes_on id x.2) votes ->
  let '(s', shown) := receive_votes votes s in exists V, poll_state s' V /\ forall u, voter_ok V0 V votes shown u.
Proof.
  intros Hs. induction votes as [|[w v] votes IH] using rev_ind; intros Hall.
  { exists V0. split; [done|]. intros u. split; [set_solver|done]. }
  apply Forall_app in Hall as [Hall Hv]. apply Forall_inv in Hv. cbn in Hv. specialize (IH Hall).
  unfold receive_votes in *. rewrite fold_left_app. cbn [fold_left].
  destruct (fold_left receive_vote votes (s, [])) as [s1 shown]. destruct IH as (V & HV & Hvoters).
  unfold receive_vote. cbn [fst snd]. rewrite (vote_step s1 V w v HV Hv).
  destruct (match V !! uuid_string w with Some prev => _ | None => false end) eqn:Est.
  - exists V. split; [done|]. intros u. apply (voter_old V0 V); [done|done|]. intros v' [= -> <-].
    destruct (V !! uuid_string u) as [n|]; [|done]. exists n. split; [done|]. lia.
  - exists (<[uuid_string w := pv_VoteCount v]> V). split; [apply lookup_insert_eq|].
    cbn [poll_response new_part pp_DontBridge]. intros u. destruct (decide (w = u)) as [->|Hne].
    + split; [|rewrite shown_by_snoc, decide_True, last_snoc by done; exists v; rewrite lookup_insert_eq; split_and!; [set_solver|done|done]].
      intros v' Hv'. exists (pv_VoteCount v). rewrite lookup_insert_eq. split; [done|].
      apply elem_of_app in Hv' as [Hv'|[= ->]%list_elem_of_singleton]; [|done].
      destruct (Hvoters u) as [H1 _]. destruct (H1 v' Hv') as (n & Hn & Hle). rewrite Hn in Est. lia.
    + assert (Hstr : uuid_string w <> uuid_string u) by (intros Hwu; by apply uuid_string_inj in Hwu).
      pose proof (voter_old V0 V votes shown u (w, v) (<[uuid_string w := pv_VoteCount v]> V) (Hvoters u)) as Hold.
      rewrite lookup_insert_ne in Hold by done. destruct (Hold eq_refl) as [H1 H2]; [by intros ? [= ->]|]. split; [done|].
      by rewrite shown_by_snoc, decide_False, app_nil_r by done.
Qed.

(** C21: votes converge.  Whatever the order and repetition in which the votes
    on a poll arrive, the count stored for a voter is at least that of each of
    their votes, and the answer last shown on Matrix is that of a vote with
    the stored count, so an old vote never replaces a newer one; a voter
    with no answer shown keeps the count that was stored before. *)
Theorem poll_votes_converge s V0 votes u (Hs : cv_messages s !! id = Some (mxid, set_votes V0 meta))
  (Hall : Forall (fun x => votes_on id x.2) votes) :
  let '(s', shown) := receive_votes votes s in
  exists V, cv_messages s' !! id = Some (mxid, set_votes V meta) /\
    (forall v, (u, v) ∈ votes -> exists n, V !! uuid_string u = Some n /\ pv_VoteCount v <= n) /\
    match last (shown_by u shown) with
    | Some p => exists v, (u, v) ∈ votes /\ V !! uuid_string u = Some (pv_VoteCount v) /\ p = poll_response mxid (md_MatrixPollOptionIDs meta) v
    | None => V !! uuid_string u = V0 !! uuid_string u
    end.
Proof.
  pose proof (votes_invariant s V0 votes Hs Hall) as Hi. destruct (receive_votes votes s) as [s' shown].
  destruct Hi as (V & HV & Hvoters). exists V. split; [done|]. apply Hvoters.
Qed.
End Votes.

Section Timers.
Context `{W : MediaWorld}.
Definition receive_timer (s : ConvState) (change : Z * Z) : ConvState :=
  (ConvertDisappearingTimerChangeToMatrix change.1 (Some change.2) false s).1.
(** Changes of the timer with their versions, in the order they arrive. *)
Definition receive_timers (changes : list (Z * Z)) (s : ConvState) : ConvState := fold_left receive_timer changes s.

(** The disappearing timer converges.  After timer changes with versions,
    in any order, the portal has the highest version seen and the timer of the
    last change with that version; when all changes are older than what the
    portal knew, nothing changes. *)
Theorem timer_changes_converge s changes :
  let s' := receive_timers changes s in
  Forall (fun c => c.2 <= cv_ExpirationTimerVersion s') changes /\ cv_ExpirationTimerVersion s <= cv_ExpirationTimerVersion s' /\
  ((s' = s /\ Forall (fun c => c.2 < cv_ExpirationTimerVersion s) changes) \/
   exists before timer after, changes = before ++ (timer, cv_ExpirationTimerVersion s') :: after /\ cv_Disappear s' = timer_setting timer /\
     Forall (fun c => c.2 < cv_ExpirationTimerVersion s') after).
Proof.
  cbv zeta. induction changes as [|[t v] changes (Hall & Hle & Hend)] using rev_ind.
  { split_and!; [done|done|]. left. by split. }
  unfold receive_timers in *. rewrite fold_left_app. cbn [fold_left]. set (s1 := fold_left receive_timer changes s) in *.
  unfold receive_timer, ConvertDisappearingTimerChangeToMatrix. cbn [fst snd].
  destruct (Z.ltb_spec v (cv_ExpirationTimerVersion s1)) as [Hlt|Hge]; cbn [fst].
  - split_and!; [apply Forall_app; split; [done|constructor; [cbn; lia|done]]|done|].
    destruct Hend as [[-> Hold]|(before & timer & after & Heq & Hset & Hafter)].
    + left. split; [done|]. apply Forall_app. by split; [|constructor].
    + right. exists before, timer, (after ++ [(t, v)]). split_and!; [by rewrite Heq, <- app_assoc|done|].
      apply Forall_app. by split; [|constructor].
  - cbn. split_and!; [|lia|].
    + apply Forall_app. split; [|by constructor]. eapply Forall_impl; [exact Hall|]. cbn. lia.
    + right. exists changes, t, []. by split_and!.
Qed.

End Timers.

(** ** A concrete environment and witnesses *)
Module SampleConvert.
Import CanonicalUUID.

#[export] Instance sample_media : MediaWorld := {
  DownloadAttachmentWithPointer att _ := if beqb (at_CdnKey att) [] then inl AttachmentNotFound else inr (at_CdnKey att);
  UploadMedia _ _ data := inr (str "mxc://example.com/" ++ data);
  GenerateContentURI id := if beqb id [] then inl OtherFailure else inr (str "mxc://direct/" ++ id);
  streams_to_file := true;
  ffmpeg_Supported := false;
  ffmpeg_ConvertPath _ := None;
  DetectContentType _ := str "application/octet-stream";
  ParseMediaType m := m;
  ExtensionFromMimetype _ := str ".bin";
  vcard_encode _ := Some (str "BEGIN:VCARD");
  error_text _ := str "failed";
  DisappearingMessageNotice _ := str "Set the disappearing message timer"
}.

(** A text becomes the caption of a single media part. *)
Definition merge_caption (parts : list Part) : list Part :=
  match parts with
  | [a; b] =>
      let into (media text : Part) := set_content (mkEventContent (ec_MsgType (pp_Content media)) (ec_Body (pp_Content text)) (ec_FormattedBody (pp_Content text))
        (ec_Info (pp_Content media)) (ec_ViewLimited (pp_Content media)) (ec_RelatesTo (pp_Content media)) (ec_Previews (pp_Content media)) (ec_URL (pp_Content media)) (ec_Voice (pp_Content media))) media in
      if IsMediaPart a && is_textual b then [into a b] else if IsMediaPart b && is_textual a then [into b a] else parts
  | _ => parts
  end.
Lemma merge_caption_nonempty parts : parts <> [] -> merge_caption parts <> [].
Proof. destruct parts as [|a [|b [|c l]]]; try done. intros _. cbn. by repeat case_match. Qed.
Lemma merge_caption_from parts p : p ∈ merge_caption parts -> exists q, q ∈ parts /\ same_kind p q.
Proof.
  intros Hp. destruct parts as [|a [|b [|c l]]]; try (exists p; by repeat split).
  cbn in Hp. destruct (_ && _); [apply list_elem_of_singleton in Hp as ->; exists a; split; [left|by repeat split]|].
  destruct (_ && _); [apply list_elem_of_singleton in Hp as ->; exists b; split; [right; left|by repeat split]|].
  exists p. by repeat split.
Qed.

Definition me : UUID := mk_fixed (n := 16) (repeat x01 16) eq_refl.
Definition them : UUID := mk_fixed (n := 16) (repeat x02 16) eq_refl.
Definition day : Z := 24 * 3600 * 1000.
Definition no_failures (id : bytes) : bool := false.
Definition photo : AttachmentPointer := mkAttachment true [] (str "image/jpeg") (str "photo.jpg") 1000 640 480 0 [] [] 7 (str "abc") 2 (str "key") (Some (str "digest")).
Definition long_text : AttachmentPointer := mkAttachment true [] LongTextContentType [] 1000 0 0 0 [] [] 7 [] 2 [] None.
Definition message (body : option bytes) (atts : list AttachmentPointer) (viewOnce : bool) : DataMessage :=
  mkDataMessage body [] atts [] None None false None None None None 0 0 0 None viewOnce 0 (100 * day) None None None None None None None.
Definition start : ConvState := mkConv no_disappear 0 ∅.
Definition convert (viewLimited : bool) (sender : UUID) (dm : DataMessage) (s : ConvState) :=
  ToMatrix sample_user merge_caption me viewLimited true false (101 * day) no_failures no_failures sender dm None s.

(** A photo with a caption is one event; two photos are an album. *)
Example caption_merged :
  match convert true them (message (Some (str "Hi")) [photo] false) start with
  | (_, Ok cm) => map (fun p => (pp_ID p, ec_MsgType (pp_Content p), ec_Body (pp_Content p))) (cm_Parts cm) = [([], MsgImage, str "Hi")]
  | _ => False
  end.
Proof. vm_compute. reflexivity. Qed.
Example album_tagged :
  match convert true them (message None [photo; long_text; photo] false) start with
  | (_, Ok cm) => map (fun p => (pp_ID p, al_Index <$> pp_Album p, al_Count <$> pp_Album p)) (cm_Parts cm) = [([], Some 0, Some 2); (str "1", Some 1, Some 2)]
  | _ => False
  end.
Proof. vm_compute. reflexivity. Qed.

Definition poll_id : bytes := MakeMessageID them 5.
Definition with_poll : ConvState := mkConv no_disappear 0 {[ poll_id := (str "$poll", empty_metadata) ]}.
Definition vote (n : Z) (options : list Z) : PollVote := mkPollVote (repeat x02 16) 5 options n.
(** The second vote arrives last; the first one is repeated. *)
Definition some_votes : list (UUID * PollVote) := [(me, vote 1 [0]); (me, vote 3 [2]); (me, vote 2 [1]); (me, vote 1 [0])].
Lemma poll_votes_converge_witness :
  exists p, last (shown_by me (receive_votes no_failures no_failures some_votes with_poll).2) = Some p /\
    p = poll_response (str "$poll") [] (vote 3 [2]) /\
    exists s' shown V, receive_votes no_failures no_failures some_votes with_poll = (s', shown) /\
      cv_messages s' !! poll_id = Some (str "$poll", set_votes V empty_metadata).
Proof.
  eexists. split; [vm_compute; reflexivity|]. split; [vm_compute; reflexivity|].
  assert (Hall : Forall (fun x => votes_on poll_id x.2) some_votes).
  { repeat (apply Forall_cons_2; [exists them; split; vm_compute; reflexivity|]). apply Forall_nil_2. }
  pose proof (poll_votes_converge no_failures no_failures poll_id (str "$poll") empty_metadata eq_refl eq_refl with_poll ∅ some_votes me eq_refl Hall) as H.
  destruct (receive_votes no_failures no_failures some_votes with_poll) as [s' shown]. destruct H as (V & HV & _). exists s', shown, V. by split.
Defined.

(** *** Behaviour worth knowing *)

(** A sticker without data, and the end of an unknown poll, panic. *)
Definition set_sticker (st : Sticker) (dm : DataMessage) : DataMessage :=
  mkDataMessage (dm_Body dm) (dm_BodyRanges dm) (dm_Attachments dm) (dm_Contact dm) (Some st) (dm_Payment dm) (dm_GiftBadge dm) (dm_PollCreate dm) (dm_PollVote dm)
    (dm_PollTerminate dm) (dm_Quote dm) (dm_Previews dm) (dm_Flags dm) (dm_ExpireTimer dm) (dm_ExpireTimerVersion dm) (dm_IsViewOnce dm) (dm_RequiredProtocolVersion dm)
    (dm_Timestamp dm) (dm_Reaction dm) (dm_StoryContext dm) (dm_Delete dm) (dm_AdminDelete dm) (dm_PinMessage dm) (dm_UnpinMessage dm) (dm_GroupV2 dm).
Lemma sticker_without_data_panics :
  (convert true them (set_sticker (mkSticker [] [] 0 [] None) (message None [] false)) start).2 = Panic.
Proof. vm_compute. reflexivity. Qed.
Definition end_poll (target : Z) : DataMessage :=
  mkDataMessage None [] [] [] None None false None None (Some target) None 0 0 0 None false 0 (100 * day) None None None None None None None.
Lemma unknown_poll_end_panics : (convert true them (end_poll 5) start).2 = Panic /\ CanConvertSignal (end_poll 5) = true.
Proof. vm_compute. by split. Qed.

(** A long text that cannot be downloaded leaves no parts. *)
Lemma lost_text_has_no_parts : CanConvertSignal (message None [long_text] false) = true /\
  match convert true them (message None [long_text] false) start with (_, Ok cm) => cm_Parts cm = [] | _ => False end.
Proof. vm_compute. by split. Qed.

(** An attachment under 512 bytes without a content type is refused when it is streamed to a file. *)
Definition untyped : AttachmentPointer := mkAttachment true [] [] (str "photo.jpg") 3 640 480 0 [] [] 7 (str "abc") 2 [] None.
Lemma small_untyped_refused : reuploadAttachment false untyped None = Err ReadHeader.
Proof. vm_compute. reflexivity. Qed.

(** A change of the timer without version makes older versions acceptable again. *)
Lemma unversioned_change_resets :
  let s := mkConv (timer_setting 3600) 8 ∅ in
  let s1 := (ConvertDisappearingTimerChangeToMatrix 60 None false s).1 in
  cv_ExpirationTimerVersion s1 = 1 /\ cv_Disappear (receive_timer s1 (3600, 2)) = timer_setting 3600 /\ receive_timer s (60, 2) = s.
Proof. vm_compute. by split_and!. Qed.

End SampleConvert.
