(* ===== verification/GroupView.v ===== *)
(** Groups as Matrix rooms ([pkg/connector/groupinfo.go]).

    A room shows a group in two ways: as a whole ([wrapGroupInfo]) and change
    by change ([groupChangeToChatInfoChange]).  The theorem relates the second
    to the first through what a change does to the cached group. *)
From S2P Require Import Prelude GoLib ServiceId SignalId MediaId Crypto Storage ChatSettings RecipientStore StorageSync Groups GroupCache.

(** ** What a room shows *)
Inductive membership := MembershipJoin | MembershipInvite | MembershipKnock | MembershipBan | MembershipLeave.
#[export] Instance membership_eq_dec : EqDecision membership. Proof. solve_decision. Defined.
Inductive join_rule := JoinRuleInvite | JoinRuleKnock | JoinRulePublic.
Inductive state_event := StateRoomName | StateRoomAvatar | StateTopic | StateBeeperDisappearingTimer | StatePowerLevels.

(** [bridgev2.ChatMember]; missing fields leave a value alone. *)
Record ChatMember := mkChatMember {
  cmb_EventSender : EventSender;
  cmb_PowerLevel : option Z;
  cmb_Membership : membership;
  cmb_PrevMembership : option membership;
  cmb_MemberSender : option EventSender;
  cmb_ExcludeFromTimeline : bool
}.
(** [bridgev2.ChatMemberMap]: [Set] replaces, [Add] keeps a member that is there. *)
Abbreviation MemberMap := (gmap bytes ChatMember).
Definition mc_Set (m : ChatMember) (mc : MemberMap) : MemberMap := <[es_Sender (cmb_EventSender m) := m]> mc.
Definition mc_Add (m : ChatMember) (mc : MemberMap) : MemberMap :=
  match mc !! es_Sender (cmb_EventSender m) with Some _ => mc | None => mc_Set m mc end.

Record PowerLevelOverrides := mkPowerLevels { pl_EventsDefault : option Z; pl_Invite : option Z; pl_Events : list (state_event * Z) }.
(** An avatar is a content URI, or a path and key to download it with. *)
Inductive avatar_source := AvatarMXC (uri : bytes) (media : bytes) | AvatarDownload (path key : bytes).
Record Avatar := mkAvatar { av_ID : bytes; av_Remove : bool; av_source : avatar_source }.
Record ChatInfo := mkChatInfo {
  ch_Name : option bytes;
  ch_Topic : option bytes;
  ch_Avatar : option Avatar;
  (** in seconds *)
  ch_Disappear : option Z;
  ch_JoinRule : option join_rule;
  ch_MemberMap : MemberMap;
  ch_IsFull : bool;
  ch_PowerLevels : option PowerLevelOverrides;
  (** the argument of [makeRevisionUpdater] *)
  ch_Revision : Z;
  ch_CanBackfill : option bool
}.
Inductive view_error := BadLogin (e : id_error) | BadGroupID (e : id_error) | ContentURIFailed.

Definition defaultPL : Z := 0.
Definition moderatorPL : Z := 50.
Definition roleToPL (role : Z) : Z := if role =? GroupMember_ADMINISTRATOR then moderatorPL else defaultPL.
Definition applyAnnouncementsOnly (announcementsOnly : bool) (plc : PowerLevelOverrides) : PowerLevelOverrides :=
  mkPowerLevels (Some (if announcementsOnly then moderatorPL else defaultPL)) (pl_Invite plc) (pl_Events plc).
Definition applyAttributesAccess (attributeAccess : Z) (plc : PowerLevelOverrides) : PowerLevelOverrides :=
  let attributePL := if attributeAccess =? AccessControl_ADMINISTRATOR then moderatorPL else defaultPL in
  mkPowerLevels (pl_EventsDefault plc) (pl_Invite plc)
    (pl_Events plc ++ [(StateRoomName, attributePL); (StateRoomAvatar, attributePL); (StateTopic, attributePL); (StateBeeperDisappearingTimer, attributePL)]).
Definition applyMembersAccess (memberAccess : Z) (plc : PowerLevelOverrides) : PowerLevelOverrides :=
  mkPowerLevels (pl_EventsDefault plc) (Some (if memberAccess =? AccessControl_ADMINISTRATOR then moderatorPL else defaultPL)) (pl_Events plc).
Definition inviteLinkToJoinRule (inviteLinkAccess : Z) : join_rule :=
  if inviteLinkAccess =? AccessControl_UNSATISFIABLE then JoinRuleInvite
  else if (inviteLinkAccess =? AccessControl_ADMINISTRATOR) || (inviteLinkAccess =? AccessControl_ANY) then JoinRuleKnock
  else JoinRuleInvite.
Definition makeAvatarPathID (avatarPath : bytes) : bytes := if beqb avatarPath [] then [] else str "path:" ++ avatarPath.
(** The revision after an update with [makeRevisionUpdater], and whether it changed. *)
Definition makeRevisionUpdater (rev : Z) (current : Z) : Z * bool := if current <? rev then (rev, true) else (current, false).

Section View.
Context `{U : UUIDLib}.
(** The login, its PNI, the other logins by PNI, and the media proxy. *)
Context (s : ClientIDs) (ownPNI : UUID) (DeviceByPNI : UUID -> option UUID) (DirectMedia : bool) (GenerateContentURI : bytes -> option bytes).

Definition tryResolvePNItoLoggedInACI (serviceID : ServiceID) : option UUID :=
  if negb (bool_decide (sid_Type serviceID = ServiceIDTypePNI)) then None
  else if bool_decide (sid_UUID serviceID = ownPNI) then Some (ci_ACI s)
  else if ci_SplitPortals s then None
  else DeviceByPNI (sid_UUID serviceID).

Definition set_sender (es : EventSender) (m : ChatMember) : ChatMember :=
  mkChatMember es (cmb_PowerLevel m) (cmb_Membership m) (cmb_PrevMembership m) (cmb_MemberSender m) (cmb_ExcludeFromTimeline m).
Definition no_sender : EventSender := {| es_IsFromMe := false; es_SenderLogin := []; es_Sender := [] |}.
Definition member (pl : option Z) (m : membership) (prev : option membership) : ChatMember := mkChatMember no_sender pl m prev None false.
Definition invited (pm : PendingMember) (prev : option membership) : ChatMember :=
  mkChatMember no_sender (Some (roleToPL (pm_Role pm))) MembershipInvite prev (Some (makeEventSender s (pm_AddedByUserID pm))) false.

Definition set_member (aci : UUID) (m : ChatMember) (mc : MemberMap) : MemberMap := mc_Set (set_sender (makeEventSender s aci) m) mc.
Definition addChatMemberWithACIQuery (serviceID : ServiceID) (m : ChatMember) (mc : MemberMap) : outcome Empty_set MemberMap :=
  let! es := makeEventSenderFromServiceID s serviceID in
  let mc := mc_Set (set_sender es m) mc in
  Ok (match tryResolvePNItoLoggedInACI serviceID with Some aci => mc_Add (set_sender (makeEventSender s aci) m) mc | None => mc end).

(** The loops over lists of members. *)
Definition set_all {A : Type} (aci : A -> UUID) (m : A -> ChatMember) (l : list A) (mc : MemberMap) : MemberMap :=
  fold_left (fun mc x => set_member (aci x) (m x) mc) l mc.
Fixpoint add_all {A : Type} (id : A -> ServiceID) (m : A -> ChatMember) (l : list A) (mc : MemberMap) : outcome Empty_set MemberMap :=
  match l with
  | [] => Ok mc
  | x :: l => let! mc := addChatMemberWithACIQuery (id x) (m x) mc in add_all id m l mc
  end.

Definition makeGroupAvatar (groupID : bytes) (path : option bytes) (groupMasterKey : bytes) : outcome view_error (option Avatar) :=
  match path with
  | None => Ok None
  | Some path =>
      let! source :=
        if DirectMedia then
          let! userID := wrap_err BadLogin (ParseUserLoginID (ci_UserLoginID s)) in
          let! groupIDBytes := wrap_err BadGroupID (GroupIdentifier_Bytes groupID) in
          let mediaID := GroupAvatar_AsMediaID (mkGroupAvatar userID groupIDBytes path) in
          match GenerateContentURI mediaID with Some uri => Ok (AvatarMXC uri mediaID) | None => Err ContentURIFailed end
        else Ok (AvatarDownload path groupMasterKey) in
      Ok (Some (mkAvatar (makeAvatarPathID path) (beqb path []) source))
  end.

(** *** The whole group *)
Definition group_member_map (g : Group) : outcome Empty_set MemberMap :=
  let mc := set_all rm_ACI (fun _ => member None MembershipKnock None) (grp_RequestingMembers g) ∅ in
  let! mc := add_all pm_ServiceID (fun pm => invited pm None) (grp_PendingMembers g) mc in
  let mc := set_all gm_ACI (fun m => member (Some (roleToPL (gm_Role m))) MembershipJoin None) (grp_Members g) mc in
  add_all bm_ServiceID (fun _ => member None MembershipBan None) (grp_BannedMembers g) mc.

Definition no_panic {E A : Type} (m : outcome Empty_set A) : outcome E A := match m with Ok a => Ok a | Err e => match e with end | Panic => Panic end.
Definition wrapGroupInfo (g : Group) (hasBackup : bool) : outcome view_error ChatInfo :=
  let pls := applyAnnouncementsOnly (grp_AnnouncementsOnly g) (mkPowerLevels None None [(StatePowerLevels, moderatorPL)]) in
  let '(pls, rule) := match grp_AccessControl g with
                      | Some ac => (applyMembersAccess (ac_Members ac) (applyAttributesAccess (ac_Attributes ac) pls), inviteLinkToJoinRule (ac_AddFromInviteLink ac))
                      | None => (pls, JoinRuleInvite)
                      end in
  let! mc := no_panic (group_member_map g) in
  let! avatar := makeGroupAvatar (grp_Identifier g) (Some (grp_AvatarPath g)) (grp_MasterKey g) in
  Ok (mkChatInfo (Some (grp_Title g)) (Some (grp_Description g)) avatar (Some (grp_DisappearingMessagesDuration g)) (Some rule) mc true (Some pls)
        (grp_Revision g) (Some hasBackup)).

(** *** One change *)
Definition promote_pni (p : PromotePendingPniAciMember) (mc : MemberMap) : outcome Empty_set MemberMap :=
  let mc := set_member (pp_ACI p) (member None MembershipJoin None) mc in
  let! es := makePNIEventSender (pp_PNI p) in
  Ok (mc_Set (mkChatMember es None MembershipLeave (Some MembershipInvite) None true) mc).
Fixpoint promote_pnis (l : list PromotePendingPniAciMember) (mc : MemberMap) : outcome Empty_set MemberMap :=
  match l with [] => Ok mc | p :: l => let! mc := promote_pni p mc in promote_pnis l mc end.

Definition change_member_map (c : GroupChange) : outcome Empty_set MemberMap :=
  let left_ prev := member None MembershipLeave (Some prev) in
  let! mc := add_all pm_ServiceID (fun pm => invited pm (Some MembershipLeave)) (gch_AddPendingMembers c) ∅ in
  let mc := set_all rm_ACI (fun _ => member None MembershipKnock None) (gch_AddRequestingMembers c) mc in
  let! mc := add_all id (fun _ => left_ MembershipInvite) (gch_DeletePendingMembers c) mc in
  let mc := set_all id (fun _ => left_ MembershipKnock) (gch_DeleteRequestingMembers c) mc in
  let mc := set_all id (fun _ => left_ MembershipJoin) (gch_DeleteMembers c) mc in
  let! mc := add_all id (fun _ => left_ MembershipBan) (gch_DeleteBannedMembers c) mc in
  let! mc := add_all bm_ServiceID (fun _ => member None MembershipBan None) (gch_AddBannedMembers c) mc in
  let mc := set_all km_ACI (fun _ => member None MembershipJoin (Some MembershipInvite)) (gch_PromotePendingMembers c) mc in
  let! mc := promote_pnis (gch_PromotePendingPniAciMembers c) mc in
  let mc := set_all ro_ACI (fun _ => member None MembershipJoin (Some MembershipKnock)) (gch_PromoteRequestingMembers c) mc in
  let mc := set_all (fun a => gm_ACI (am_Member a)) (fun a => member (Some (roleToPL (gm_Role (am_Member a)))) MembershipJoin None) (gch_AddMembers c) mc in
  Ok (set_all ro_ACI (fun r => member (Some (roleToPL (ro_Role r))) MembershipJoin None) (gch_ModifyMemberRoles c) mc).

Definition change_power_levels (c : GroupChange) : option PowerLevelOverrides :=
  let step {A : Type} (f : A -> PowerLevelOverrides -> PowerLevelOverrides) (o : option A) (pls : PowerLevelOverrides) := match o with Some a => f a pls | None => pls end in
  match gch_ModifyAnnouncementsOnly c, gch_ModifyAttributesAccess c, gch_ModifyMemberAccess c with
  | None, None, None => None
  | announcements, attributes, members =>
      Some (step applyMembersAccess members (step applyAttributesAccess attributes (step applyAnnouncementsOnly announcements (mkPowerLevels None None []))))
  end.
Definition groupChangeToChatInfoChange (groupID : bytes) (rev : Z) (c : GroupChange) : outcome view_error ChatInfo :=
  let! avatar := makeGroupAvatar groupID (gch_ModifyAvatar c) (gch_MasterKey c) in
  let! mc := no_panic (change_member_map c) in
  Ok (mkChatInfo (gch_ModifyTitle c) (gch_ModifyDescription c) avatar (gch_ModifyDisappearingMessagesDuration c)
        (inviteLinkToJoinRule <$> gch_ModifyAddFromInviteLinkAccess c) mc false (change_power_levels c) rev None).

End View.

(** ** The memberships a map shows *)
Abbreviation shows := (gmap bytes membership).
Definition shown (mc : MemberMap) : shows := cmb_Membership <$> mc.

Section ViewProofs.
Context `{U : UUIDLib} `{UL : !UUIDLaws U}.
Context (me : ClientIDs) (ownPNI : UUID) (DeviceByPNI : UUID -> option UUID).

Definition valid (i : ServiceID) : Prop := valid_type (sid_Type i) = true.
Definition user_of (i : ServiceID) : bytes := match MakeUserIDFromServiceID i with Ok u => u | _ => [] end.
Lemma valid_aci u : valid (NewACIServiceID u). Proof. done. Qed.
Lemma valid_pni u : valid (NewPNIServiceID u). Proof. done. Qed.
#[local] Hint Resolve valid_aci valid_pni : core.

Lemma user_of_Ok i : valid i -> MakeUserIDFromServiceID i = Ok (user_of i).
Proof.
  unfold valid, valid_type, user_of, MakeUserIDFromServiceID. destruct (bool_decide (sid_Type i = ServiceIDTypeACI)) eqn:E1; [done|].
  by destruct (bool_decide (sid_Type i = ServiceIDTypePNI)).
Qed.
Lemma user_of_inj i j : valid i -> valid j -> user_of i = user_of j -> i = j.
Proof.
  intros Hi Hj H. pose proof (user_id_roundtrip i _ (user_of_Ok i Hi)) as Ri. pose proof (user_id_roundtrip j _ (user_of_Ok j Hj)) as Rj.
  rewrite H in Ri. congruence.
Qed.

(** A sequence of memberships that are set one after the other. *)
Definition set_ops (ops : list (ServiceID * membership)) (M : shows) : shows := fold_left (fun M o => <[user_of o.1 := o.2]> M) ops M.
Definition last_for (i : ServiceID) (ops : list (ServiceID * membership)) : option membership :=
  fold_left (fun acc o => if decide (o.1 = i) then Some o.2 else acc) ops None.

Lemma set_ops_app a b M : set_ops (a ++ b) M = set_ops b (set_ops a M).
Proof. apply fold_left_app. Qed.
Lemma last_for_snoc i ops o : last_for i (ops ++ [o]) = if decide (o.1 = i) then Some o.2 else last_for i ops.
Proof. unfold last_for. by rewrite fold_left_app. Qed.
Lemma last_for_app i a b : last_for i (a ++ b) = match last_for i b with Some m => Some m | None => last_for i a end.
Proof.
  induction b as [|o b IH] using rev_ind; [by rewrite app_nil_r|]. rewrite app_assoc, !last_for_snoc. by destruct (decide _).
Qed.
Lemma last_for_const {A : Type} i (key : A -> ServiceID) m l :
  last_for i (map (fun x => (key x, m)) l) = if decide (i ∈ map key l) then Some m else None.
Proof.
  induction l as [|x l IH] using rev_ind; [by rewrite decide_False by set_solver|].
  rewrite !map_app. cbn [map]. rewrite last_for_snoc, IH. cbn [fst snd].
  destruct (decide (key x = i)) as [->|Hne]; [by rewrite decide_True by set_solver|].
  apply decide_ext. set_solver.
Qed.

Lemma set_ops_lookup i ops : valid i -> Forall (fun o => valid o.1) ops -> forall M,
  set_ops ops M !! user_of i = match last_for i ops with Some m => Some m | None => M !! user_of i end.
Proof.
  intros Hi. induction ops as [|[j m] ops IH] using rev_ind; intros Hall M; [done|].
  apply Forall_app in Hall as [Hall Hj]. apply Forall_inv in Hj. rewrite set_ops_app, last_for_snoc.
  change (set_ops [(j, m)] (set_ops ops M)) with (<[user_of j := m]> (set_ops ops M)). cbn [fst snd] in *.
  destruct (decide (j = i)) as [->|Hne]; [apply lookup_insert_eq|]. rewrite lookup_insert_ne; [by apply IH|].
  intros Heq. by apply user_of_inj in Heq.
Qed.

(** *** The loops as sequences *)
Lemma shown_set m mc : shown (mc_Set m mc) = <[es_Sender (cmb_EventSender m) := cmb_Membership m]> (shown mc).
Proof. unfold shown, mc_Set. by rewrite fmap_insert. Qed.

Lemma set_all_shown {A : Type} (aci : A -> UUID) (m : A -> ChatMember) k l : (forall x, cmb_Membership (m x) = k) -> forall mc,
  shown (set_all me aci m l mc) = set_ops (map (fun x => (NewACIServiceID (aci x), k)) l) (shown mc).
Proof.
  intros Hk. induction l as [|x l IH]; intros mc; [done|]. unfold set_all in *. cbn [fold_left map]. rewrite IH.
  unfold set_ops. cbn [fold_left fst snd]. f_equal. unfold set_member. rewrite shown_set. cbn. by rewrite Hk.
Qed.

Lemma sender_of i : valid i -> exists es, makeEventSenderFromServiceID me i = Ok es /\ es_Sender es = user_of i.
Proof.
  intros Hi. pose proof (user_of_Ok i Hi) as Hu. unfold makeEventSenderFromServiceID, makePNIEventSender.
  unfold MakeUserIDFromServiceID in Hu. destruct (bool_decide (sid_Type i = ServiceIDTypeACI)) eqn:E1.
  - eexists. split; [done|]. cbn. apply Ok_inj in Hu. done.
  - unfold valid, valid_type in Hi. rewrite E1 in Hi. cbn in Hi. rewrite Hi in *. cbn. eexists. split; [done|]. cbn. by apply Ok_inj in Hu.
Qed.

(** No PNI of the list belongs to a login of the bridge. *)
Definition unresolved (l : list ServiceID) : Prop := Forall (fun i => valid i /\ tryResolvePNItoLoggedInACI me ownPNI DeviceByPNI i = None) l.
Lemma add_all_shown {A : Type} (id : A -> ServiceID) (m : A -> ChatMember) k l : (forall x, cmb_Membership (m x) = k) -> unresolved (map id l) -> forall mc,
  exists mc', add_all me ownPNI DeviceByPNI id m l mc = Ok mc' /\ shown mc' = set_ops (map (fun x => (id x, k)) l) (shown mc).
Proof.
  intros Hk Hl. unfold unresolved in Hl. induction l as [|x l IH]; intros mc; [by eexists|].
  apply Forall_cons in Hl as [[Hv Hr] Hl]. cbn [add_all map]. unfold addChatMemberWithACIQuery.
  destruct (sender_of (id x) Hv) as (es & -> & Hes). cbn [obind]. rewrite Hr.
  destruct (IH Hl (mc_Set (set_sender es (m x)) mc)) as (mc' & E' & S'). exists mc'. split; [done|].
  rewrite S', shown_set. unfold set_ops. cbn. by rewrite Hk, Hes.
Qed.

Lemma promote_pnis_shown l : forall mc, exists mc', promote_pnis me l mc = Ok mc' /\
  shown mc' = set_ops (concat (map (fun p => [(NewACIServiceID (pp_ACI p), MembershipJoin); (NewPNIServiceID (pp_PNI p), MembershipLeave)]) l)) (shown mc).
Proof.
  induction l as [|p l IH]; intros mc; [by eexists|]. cbn [promote_pnis map concat]. unfold promote_pni, makePNIEventSender.
  rewrite (user_of_Ok (NewPNIServiceID (pp_PNI p))) by done. cbn [outmap obind].
  destruct (IH (mc_Set (mkChatMember {| es_IsFromMe := false; es_SenderLogin := []; es_Sender := user_of (NewPNIServiceID (pp_PNI p)) |} None MembershipLeave
    (Some MembershipInvite) None true) (set_member me (pp_ACI p) (member None MembershipJoin None) mc))) as (mc' & E' & S').
  exists mc'. split; [done|]. rewrite S', set_ops_app, shown_set. unfold set_member. rewrite shown_set. done.
Qed.

(** *** The states of a user in a group *)
Definition acis (us : list UUID) : list ServiceID := map NewACIServiceID us.
Definition in_banned (g : Group) (i : ServiceID) : Prop := i ∈ banned_ids g.
Definition in_members (g : Group) (i : ServiceID) : Prop := exists u, i = NewACIServiceID u /\ is_Some (roster (grp_Members g) !! u).
Definition in_pending (g : Group) (i : ServiceID) : Prop := i ∈ pending_ids g.
Definition in_requesting (g : Group) (i : ServiceID) : Prop := exists u, i = NewACIServiceID u /\ u ∈ requesting_ids g.

Lemma elem_of_acis i us : i ∈ acis us <-> exists u, i = NewACIServiceID u /\ u ∈ us.
Proof. unfold acis. by rewrite list_elem_of_fmap. Qed.
Lemma aci_inj u v : NewACIServiceID u = NewACIServiceID v -> u = v.
Proof. unfold NewACIServiceID. congruence. Qed.
Lemma roster_dom l u : is_Some (roster l !! u) <-> u ∈ map gm_ACI l.
Proof.
  unfold roster. rewrite <- elem_of_dom, dom_list_to_map_L, elem_of_list_to_set. 
  by rewrite map_map.
Qed.

Lemma members_dom g i : in_members g i <-> i ∈ acis (map gm_ACI (grp_Members g)).
Proof. unfold in_members. rewrite elem_of_acis. by setoid_rewrite roster_dom. Qed.
Lemma requesting_dom g i : in_requesting g i <-> i ∈ acis (map rm_ACI (grp_RequestingMembers g)).
Proof. unfold in_requesting, requesting_ids. rewrite elem_of_acis. by setoid_rewrite elem_of_list_to_set. Qed.

Definition group_ops (g : Group) : list (ServiceID * membership) :=
  map (fun x => (NewACIServiceID (rm_ACI x), MembershipKnock)) (grp_RequestingMembers g) ++
  map (fun x => (pm_ServiceID x, MembershipInvite)) (grp_PendingMembers g) ++
  map (fun x => (NewACIServiceID (gm_ACI x), MembershipJoin)) (grp_Members g) ++
  map (fun x => (bm_ServiceID x, MembershipBan)) (grp_BannedMembers g).

Lemma group_shown g : unresolved (map pm_ServiceID (grp_PendingMembers g)) -> unresolved (map bm_ServiceID (grp_BannedMembers g)) ->
  exists mc, group_member_map me ownPNI DeviceByPNI g = Ok mc /\ shown mc = set_ops (group_ops g) ∅.
Proof.
  intros Hp Hb. unfold group_member_map.
  edestruct (add_all_shown pm_ServiceID (fun pm => invited me pm None) MembershipInvite (grp_PendingMembers g)) as (m1 & -> & S1); [done|done|].
  cbn [obind].
  edestruct (add_all_shown bm_ServiceID (fun _ => member None MembershipBan None) MembershipBan (grp_BannedMembers g)) as (m2 & -> & S2); [done|done|].
  exists m2. split; [done|]. rewrite S2. rewrite (set_all_shown gm_ACI _ MembershipJoin) by done. rewrite S1.
  rewrite (set_all_shown rm_ACI _ MembershipKnock) by done. unfold group_ops. rewrite !set_ops_app. unfold shown. by rewrite fmap_empty.
Qed.

Lemma group_ops_valid g : unresolved (map pm_ServiceID (grp_PendingMembers g)) -> unresolved (map bm_ServiceID (grp_BannedMembers g)) ->
  Forall (fun o => valid o.1) (group_ops g).
Proof.
  unfold unresolved, group_ops. rewrite !Forall_app, !Forall_map. intros Hp Hb.
  split_and!; try (by apply Forall_true); (eapply Forall_impl; [eassumption|]); by intros ? [].
Qed.

(** The last of several blocks of users that contains a user. *)
Fixpoint last_block (i : ServiceID) (blocks : list (list ServiceID * membership)) : option membership :=
  match blocks with
  | [] => None
  | (ids, m) :: blocks => match last_block i blocks with Some m' => Some m' | None => if decide (i ∈ ids) then Some m else None end
  end.
Lemma last_for_block {A : Type} i (key : A -> ServiceID) m l ops blocks : last_for i ops = last_block i blocks ->
  last_for i (map (fun x => (key x, m)) l ++ ops) = last_block i ((map key l, m) :: blocks).
Proof. intros H. rewrite last_for_app, last_for_const, H. done. Qed.

Definition pni_ops (l : list PromotePendingPniAciMember) : list (ServiceID * membership) :=
  concat (map (fun p => [(NewACIServiceID (pp_ACI p), MembershipJoin); (NewPNIServiceID (pp_PNI p), MembershipLeave)]) l).
Lemma last_for_pnis i l : last_for i (pni_ops l) =
  if decide (i ∈ map (fun p => NewACIServiceID (pp_ACI p)) l) then Some MembershipJoin
  else if decide (i ∈ map (fun p => NewPNIServiceID (pp_PNI p)) l) then Some MembershipLeave else None.
Proof.
  unfold pni_ops. induction l as [|p l IH] using rev_ind; [by rewrite !decide_False by set_solver|].
  rewrite !map_app, concat_app. cbn [map concat app].
  change [(NewACIServiceID (pp_ACI p), MembershipJoin); (NewPNIServiceID (pp_PNI p), MembershipLeave)]
    with ([(NewACIServiceID (pp_ACI p), MembershipJoin)] ++ [(NewPNIServiceID (pp_PNI p), MembershipLeave)]).
  rewrite app_assoc, !last_for_snoc, IH. cbn [fst snd].
  assert (Hd : forall u v, NewACIServiceID u <> NewPNIServiceID v) by done.
  destruct (decide (NewPNIServiceID (pp_PNI p) = i)) as [<-|H1].
  - rewrite decide_False, decide_True; [done|set_solver|]. intros [(q & E & _)%list_elem_of_fmap|E%list_elem_of_singleton]%elem_of_app; by apply eq_sym, Hd in E.
  - destruct (decide (NewACIServiceID (pp_ACI p) = i)) as [<-|H2]; [by rewrite decide_True by set_solver|].
    rewrite (decide_ext (i ∈ map (fun p => NewACIServiceID (pp_ACI p)) l ++ _) (i ∈ map (fun p => NewACIServiceID (pp_ACI p)) l)) by set_solver.
    by rewrite (decide_ext (i ∈ map (fun p => NewPNIServiceID (pp_PNI p)) l ++ _) (i ∈ map (fun p => NewPNIServiceID (pp_PNI p)) l)) by set_solver.
Qed.

Definition group_blocks (g : Group) : list (list ServiceID * membership) :=
  [(map (fun x => NewACIServiceID (rm_ACI x)) (grp_RequestingMembers g), MembershipKnock); (map pm_ServiceID (grp_PendingMembers g), MembershipInvite);
   (map (fun x => NewACIServiceID (gm_ACI x)) (grp_Members g), MembershipJoin); (map bm_ServiceID (grp_BannedMembers g), MembershipBan)].
Lemma group_last g i : last_for i (group_ops g) = last_block i (group_blocks g).
Proof. unfold group_ops, group_blocks. do 3 apply last_for_block. rewrite <- (app_nil_r (map _ (grp_BannedMembers g))). by apply last_for_block. Qed.

Definition early_ops (c : GroupChange) : list (ServiceID * membership) :=
  map (fun x => (pm_ServiceID x, MembershipInvite)) (gch_AddPendingMembers c) ++
  map (fun x => (NewACIServiceID (rm_ACI x), MembershipKnock)) (gch_AddRequestingMembers c) ++
  map (fun x => (x, MembershipLeave)) (gch_DeletePendingMembers c) ++
  map (fun x => (NewACIServiceID x, MembershipLeave)) (gch_DeleteRequestingMembers c) ++
  map (fun x => (NewACIServiceID x, MembershipLeave)) (gch_DeleteMembers c) ++
  map (fun x => (x, MembershipLeave)) (gch_DeleteBannedMembers c) ++
  map (fun x => (bm_ServiceID x, MembershipBan)) (gch_AddBannedMembers c) ++
  map (fun x => (NewACIServiceID (km_ACI x), MembershipJoin)) (gch_PromotePendingMembers c).
Definition late_ops (c : GroupChange) : list (ServiceID * membership) :=
  map (fun x => (NewACIServiceID (ro_ACI x), MembershipJoin)) (gch_PromoteRequestingMembers c) ++
  map (fun x => (NewACIServiceID (gm_ACI (am_Member x)), MembershipJoin)) (gch_AddMembers c) ++
  map (fun x => (NewACIServiceID (ro_ACI x), MembershipJoin)) (gch_ModifyMemberRoles c).
Definition change_ops (c : GroupChange) : list (ServiceID * membership) := early_ops c ++ pni_ops (gch_PromotePendingPniAciMembers c) ++ late_ops c.

Definition change_ids (c : GroupChange) : list ServiceID :=
  map pm_ServiceID (gch_AddPendingMembers c) ++ gch_DeletePendingMembers c ++ gch_DeleteBannedMembers c ++ map bm_ServiceID (gch_AddBannedMembers c).

Lemma change_shown c : unresolved (change_ids c) ->
  exists mc, change_member_map me ownPNI DeviceByPNI c = Ok mc /\ shown mc = set_ops (change_ops c) ∅.
Proof.
  unfold unresolved, change_ids. rewrite !Forall_app. intros (H1 & H2 & H3 & H4). unfold change_member_map.
  edestruct (add_all_shown pm_ServiceID (fun pm => invited me pm (Some MembershipLeave)) MembershipInvite (gch_AddPendingMembers c)) as (m1 & -> & S1); [done|done|].
  cbn [obind].
  edestruct (add_all_shown id (fun _ => member None MembershipLeave (Some MembershipInvite)) MembershipLeave (gch_DeletePendingMembers c)) as (m2 & -> & S2);
    [done|by rewrite map_id|]. cbn [obind].
  edestruct (add_all_shown id (fun _ => member None MembershipLeave (Some MembershipBan)) MembershipLeave (gch_DeleteBannedMembers c)) as (m3 & -> & S3);
    [done|by rewrite map_id|]. cbn [obind].
  edestruct (add_all_shown bm_ServiceID (fun _ => member None MembershipBan None) MembershipBan (gch_AddBannedMembers c)) as (m4 & -> & S4); [done|done|].
  cbn [obind]. edestruct (promote_pnis_shown (gch_PromotePendingPniAciMembers c)) as (m5 & -> & S5). cbn [obind].
  eexists. split; [done|]. unfold change_ops, early_ops, late_ops. rewrite !set_ops_app.
  rewrite !(set_all_shown _ _ MembershipJoin) by done. rewrite S5, (set_all_shown _ _ MembershipJoin), S4, S3 by done.
  rewrite !(set_all_shown _ _ MembershipLeave), S2 by done. rewrite (set_all_shown _ _ MembershipKnock), S1 by done.
  unfold shown. by rewrite fmap_empty.
Qed.

Definition change_blocks (c : GroupChange) : list (list ServiceID * membership) :=
  [(map pm_ServiceID (gch_AddPendingMembers c), MembershipInvite); (map (fun x => NewACIServiceID (rm_ACI x)) (gch_AddRequestingMembers c), MembershipKnock);
   (map id (gch_DeletePendingMembers c), MembershipLeave); (acis (gch_DeleteRequestingMembers c), MembershipLeave);
   (acis (gch_DeleteMembers c), MembershipLeave); (map id (gch_DeleteBannedMembers c), MembershipLeave);
   (map bm_ServiceID (gch_AddBannedMembers c), MembershipBan); (map (fun x => NewACIServiceID (km_ACI x)) (gch_PromotePendingMembers c), MembershipJoin);
   (map (fun p => NewPNIServiceID (pp_PNI p)) (gch_PromotePendingPniAciMembers c), MembershipLeave);
   (map (fun p => NewACIServiceID (pp_ACI p)) (gch_PromotePendingPniAciMembers c), MembershipJoin);
   (map (fun x => NewACIServiceID (ro_ACI x)) (gch_PromoteRequestingMembers c), MembershipJoin);
   (map (fun x => NewACIServiceID (gm_ACI (am_Member x))) (gch_AddMembers c), MembershipJoin);
   (map (fun x => NewACIServiceID (ro_ACI x)) (gch_ModifyMemberRoles c), MembershipJoin)].
Lemma change_last c i : last_for i (change_ops c) = last_block i (change_blocks c).
Proof.
  unfold change_ops, early_ops, change_blocks, acis. rewrite <- !app_assoc. do 8 apply last_for_block.
  rewrite last_for_app. cbn [last_block]. rewrite last_for_pnis. unfold late_ops.
  rewrite (last_for_block i _ _ _ _ [(map (fun x => NewACIServiceID (gm_ACI (am_Member x))) (gch_AddMembers c), MembershipJoin);
    (map (fun x => NewACIServiceID (ro_ACI x)) (gch_ModifyMemberRoles c), MembershipJoin)]).
  - cbn [last_block]. by repeat case_match.
  - apply last_for_block. rewrite <- (app_nil_r (map _ (gch_ModifyMemberRoles c))). by apply last_for_block.
Qed.
Lemma change_ops_valid c : unresolved (change_ids c) -> Forall (fun o => valid o.1) (change_ops c).
Proof.
  unfold unresolved, change_ids, change_ops, early_ops, late_ops, pni_ops. rewrite !Forall_app, Forall_concat, !Forall_map.
  intros (H1 & H2 & H3 & H4). split_and!; try (by apply Forall_true); try (by eapply Forall_impl; [eassumption|]; intros ? []).
  apply Forall_true. intros p. by repeat constructor.
Qed.

(** The same, looking from the end. *)
Fixpoint first_block (i : ServiceID) (blocks : list (list ServiceID * membership)) : option membership :=
  match blocks with [] => None | (ids, m) :: blocks => if decide (i ∈ ids) then Some m else first_block i blocks end.
Lemma first_block_app i a b : first_block i (a ++ b) = match first_block i a with Some m => Some m | None => first_block i b end.
Proof. induction a as [|[ids m] a IH]; [done|]. cbn [app first_block]. by destruct (decide _). Qed.
Lemma last_block_rev i blocks : last_block i blocks = first_block i (rev blocks).
Proof. induction blocks as [|[ids m] blocks IH]; [done|]. cbn [last_block rev]. rewrite first_block_app, IH. done. Qed.

(** *** Changes of a group as a user sees them *)
Definition joins (c : GroupChange) : list ServiceID :=
  map (fun x => NewACIServiceID (km_ACI x)) (gch_PromotePendingMembers c) ++ map (fun p => NewACIServiceID (pp_ACI p)) (gch_PromotePendingPniAciMembers c) ++
  map (fun x => NewACIServiceID (ro_ACI x)) (gch_PromoteRequestingMembers c) ++ map (fun x => NewACIServiceID (gm_ACI (am_Member x))) (gch_AddMembers c).

Lemma alter_fold_dom {A V : Type} (key : A -> UUID) (f : A -> V -> V) l (u : UUID) : forall R : gmap UUID V,
  is_Some (fold_left (fun R x => alter (f x) (key x) R) l R !! u) <-> is_Some (R !! u).
Proof. induction l as [|x l IH]; intros R; [done|]. cbn [fold_left]. by rewrite IH, lookup_alter_is_Some. Qed.

Lemma changed_roster_dom c reqs R u : is_Some (changed_roster c reqs R !! u) <->
  (is_Some (R !! u) \/ u ∈ map gm_ACI (joined c reqs)) /\ u ∉ gch_DeleteMembers c.
Proof.
  unfold changed_roster.
  set (R1 := fold_left _ (gch_ModifyMemberProfileKeys c) _).
  assert (Hd : is_Some (R1 !! u) <-> is_Some (R !! u) \/ u ∈ map gm_ACI (joined c reqs)).
  { unfold R1. rewrite (alter_fold_dom km_ACI (fun pk v => (v.1, km_ProfileKey pk))), (alter_fold_dom ro_ACI (fun rm v => (ro_Role rm, v.2))).
    by rewrite lookup_union_is_Some, roster_dom. }
  rewrite <- Hd. split.
  - intros [v (Hv & Hn)%map_lookup_filter_Some]. split; [by exists v|done].
  - intros [[v Hv] Hn]. exists v. by apply map_lookup_filter_Some.
Qed.
Lemma joins_dom c reqs i : (exists u, i = NewACIServiceID u /\ u ∈ map gm_ACI (joined c reqs)) <-> i ∈ joins c.
Proof.
  rewrite <- elem_of_acis. unfold joined, joins, acis. rewrite !map_app, !map_map. done.
Qed.

(** What the change does to the state of one user. *)
Lemma change_states c g g' i : apply_change (E := group_error) c g = Ok g' -> NoDup (map ro_ACI (gch_PromoteRequestingMembers c)) ->
  (in_banned g' i <-> (in_banned g i \/ i ∈ map bm_ServiceID (gch_AddBannedMembers c)) /\ i ∉ gch_DeleteBannedMembers c) /\
  (in_members g' i <-> (in_members g i \/ i ∈ joins c) /\ i ∉ acis (gch_DeleteMembers c)) /\
  (in_pending g' i <-> (in_pending g i \/ i ∈ map pm_ServiceID (gch_AddPendingMembers c)) /\ i ∉ promoted_ids c /\ i ∉ gch_DeletePendingMembers c) /\
  (in_requesting g' i <-> (in_requesting g i \/ i ∈ acis (map rm_ACI (gch_AddRequestingMembers c))) /\
     i ∉ acis (map ro_ACI (gch_PromoteRequestingMembers c)) /\ i ∉ acis (gch_DeleteRequestingMembers c)).
Proof.
  intros Ha Hreq. destruct (apply_change_lists c g g' Ha Hreq) as (Lm & Lp & Lr & Lb).
  unfold in_banned, in_members, in_pending, in_requesting. rewrite Lm, Lp, Lr, Lb.
  split_and!; [set_solver| |set_solver|].
  - setoid_rewrite changed_roster_dom. rewrite <- (joins_dom c (grp_RequestingMembers g ++ gch_AddRequestingMembers c)), elem_of_acis.
    split.
    + intros (u & -> & [H|H] & Hn); (split; [by eauto|]); intros (v & <-%aci_inj & Hv); done.
    + intros [[(u & -> & H)|(u & -> & H)] Hn]; exists u; (split_and!; [done|by eauto|]); intros Hv; apply Hn; by exists u.
  - rewrite !elem_of_acis. split.
    + intros (u & -> & Hu). split_and!; [|intros (v & <-%aci_inj & Hv); set_solver..].
      rewrite !elem_of_difference, elem_of_union, !elem_of_list_to_set in Hu. destruct Hu as [[[Hu|Hu] _] _]; [left|right]; by exists u.
    + intros [[(u & -> & H)|(u & -> & H)] [H1 H2]]; exists u; (split; [done|]); rewrite !elem_of_difference, elem_of_union, !elem_of_list_to_set.
      all: split_and!; [by eauto|intros Hv; apply H1; by exists u|intros Hv; apply H2; by exists u].
Qed.

(** Each user is in one list of the group. *)
Definition single (g : Group) : Prop := forall i,
  (in_banned g i -> ~ in_members g i /\ ~ in_pending g i /\ ~ in_requesting g i) /\
  (in_members g i -> ~ in_pending g i /\ ~ in_requesting g i) /\ (in_pending g i -> ~ in_requesting g i).
(** A change as the server makes it: it removes users from lists they are in,
    does not add and remove in the same list, gives roles to members, and does
    not lift a ban or remove a user together with inviting them. *)
Record sensible (c : GroupChange) (g g' : Group) : Prop := mkSensible {
  sn_before : single g;
  sn_after : single g';
  sn_requests : NoDup (map ro_ACI (gch_PromoteRequestingMembers c));
  sn_deleted i : (i ∈ acis (gch_DeleteMembers c) -> in_members g i) /\ (i ∈ gch_DeletePendingMembers c -> in_pending g i) /\
    (i ∈ acis (gch_DeleteRequestingMembers c) -> in_requesting g i) /\ (i ∈ gch_DeleteBannedMembers c -> in_banned g i);
  sn_disjoint i : (i ∈ joins c -> i ∉ acis (gch_DeleteMembers c)) /\ (i ∈ map bm_ServiceID (gch_AddBannedMembers c) -> i ∉ gch_DeleteBannedMembers c);
  sn_invited i : i ∈ map pm_ServiceID (gch_AddPendingMembers c) \/ i ∈ acis (map rm_ACI (gch_AddRequestingMembers c)) ->
    i ∉ acis (gch_DeleteMembers c) /\ i ∉ gch_DeletePendingMembers c /\ i ∉ acis (gch_DeleteRequestingMembers c) /\ i ∉ gch_DeleteBannedMembers c;
  sn_roles i : i ∈ map (fun x => NewACIServiceID (ro_ACI x)) (gch_ModifyMemberRoles c) -> in_members g' i;
  sn_pnis i : i ∈ map (fun p => NewPNIServiceID (pp_PNI p)) (gch_PromotePendingPniAciMembers c) -> ~ in_banned g' i
}.

Lemma group_status g i : single g ->
  (in_banned g i -> last_block i (group_blocks g) = Some MembershipBan) /\ (in_members g i -> last_block i (group_blocks g) = Some MembershipJoin) /\
  (in_pending g i -> last_block i (group_blocks g) = Some MembershipInvite) /\ (in_requesting g i -> last_block i (group_blocks g) = Some MembershipKnock) /\
  (~ in_banned g i -> ~ in_members g i -> ~ in_pending g i -> ~ in_requesting g i -> last_block i (group_blocks g) = None).
Proof.
  intros Hs. destruct (Hs i) as (H1 & H2 & H3). unfold group_blocks. cbn [last_block].
  assert (EB : i ∈ map bm_ServiceID (grp_BannedMembers g) <-> in_banned g i) by (unfold in_banned, banned_ids; by rewrite elem_of_list_to_set).
  assert (EM : i ∈ map (fun x => NewACIServiceID (gm_ACI x)) (grp_Members g) <-> in_members g i) by (rewrite members_dom; unfold acis; by rewrite map_map).
  assert (EP : i ∈ map pm_ServiceID (grp_PendingMembers g) <-> in_pending g i) by (unfold in_pending, pending_ids; by rewrite elem_of_list_to_set).
  assert (EQ : i ∈ map (fun x => NewACIServiceID (rm_ACI x)) (grp_RequestingMembers g) <-> in_requesting g i) by (rewrite requesting_dom; unfold acis; by rewrite map_map).
  repeat case_decide; split_and!; first [done|tauto|intros; exfalso; tauto].
Qed.

Lemma unresolved_subset (l l' : list ServiceID) : (forall i, i ∈ l -> i ∈ l') -> unresolved l' -> unresolved l.
Proof. unfold unresolved. rewrite !Forall_forall. eauto. Qed.

Lemma in_pending_list g i : i ∈ map pm_ServiceID (grp_PendingMembers g) <-> in_pending g i.
Proof. unfold in_pending, pending_ids. by rewrite elem_of_list_to_set. Qed.
Lemma in_banned_list g i : i ∈ map bm_ServiceID (grp_BannedMembers g) <-> in_banned g i.
Proof. unfold in_banned, banned_ids. by rewrite elem_of_list_to_set. Qed.
Lemma Forall_app_3 {A : Type} (P : A -> Prop) (a b c : list A) : Forall P (a ++ b ++ c) <-> Forall P a /\ Forall P b /\ Forall P c.
Proof. by rewrite !Forall_app. Qed.
Lemma state_dec g i : (in_banned g i \/ ~ in_banned g i) /\ (in_members g i \/ ~ in_members g i) /\
  (in_pending g i \/ ~ in_pending g i) /\ (in_requesting g i \/ ~ in_requesting g i).
Proof.
  rewrite members_dom, requesting_dom. unfold in_banned, in_pending.
  split_and!; match goal with |- ?P \/ _ => destruct (decide P); tauto end.
Qed.

(** The room after the patch. *)
Lemma patch_correct c g g' i : apply_change (E := group_error) c g = Ok g' -> sensible c g g' ->
  match last_block i (change_blocks c) with
  | Some MembershipLeave => last_block i (group_blocks g') = None
  | Some m => last_block i (group_blocks g') = Some m
  | None => last_block i (group_blocks g') = last_block i (group_blocks g)
  end.
Proof.
  intros Ha [Hb Haf Hreq Hdel Hdis Hinv Hrole Hpni].
  destruct (change_states c g g' i Ha Hreq) as (SB & SM & SP & SQ). destruct (Hdel i) as (D1 & D2 & D3 & D4). destruct (Hdis i) as [J1 J2].
  specialize (Hinv i). specialize (Hrole i). specialize (Hpni i).
  destruct (group_status g i Hb) as (GB & GM & GP & GQ & GN). destruct (group_status g' i Haf) as (GB' & GM' & GP' & GQ' & GN').
  destruct (Hb i) as (B1 & B2 & B3). destruct (Haf i) as (B1' & B2' & B3').
  assert (HJ : i ∈ joins c <-> i ∈ map (fun x => NewACIServiceID (km_ACI x)) (gch_PromotePendingMembers c) \/
    i ∈ map (fun p => NewACIServiceID (pp_ACI p)) (gch_PromotePendingPniAciMembers c) \/ i ∈ map (fun x => NewACIServiceID (ro_ACI x)) (gch_PromoteRequestingMembers c) \/
    i ∈ map (fun x => NewACIServiceID (gm_ACI (am_Member x))) (gch_AddMembers c)) by (unfold joins; set_solver).
  assert (HP : i ∈ promoted_ids c <-> i ∈ map (fun x => NewACIServiceID (km_ACI x)) (gch_PromotePendingMembers c) \/
    i ∈ map (fun p => NewACIServiceID (pp_ACI p)) (gch_PromotePendingPniAciMembers c) \/
    i ∈ map (fun p => NewPNIServiceID (pp_PNI p)) (gch_PromotePendingPniAciMembers c)) by (unfold promoted_ids; set_solver).
  assert (HN : i ∈ map (fun p => NewPNIServiceID (pp_PNI p)) (gch_PromotePendingPniAciMembers c) -> ~ in_members g' i /\ ~ in_requesting g' i).
  { intros (p & -> & _)%list_elem_of_fmap. by split; intros (u & E & _). }
  destruct (state_dec g i) as (EB & EM & EP & EQ).
  rewrite (last_block_rev i (change_blocks c)). unfold change_blocks. cbn [rev app first_block]. unfold acis in *. rewrite !map_map, !map_id in *.
  rewrite HJ in J1. rewrite HJ in SM. rewrite HP in SP. clear HJ HP B1' B2' B3'.
  case_decide as R1; [by apply GM', Hrole|]. clear Hrole.
  case_decide as R2; [apply GM', SM; clear - J1 R2; tauto|]. case_decide as R3; [apply GM', SM; clear - J1 R3; tauto|].
  case_decide as R4; [apply GM', SM; clear - J1 R4; tauto|].
  case_decide as R5; [destruct (HN R5); apply GN'; [by apply Hpni|done|rewrite SP; clear - R5; tauto|done]|]. clear Hpni HN R1.
  case_decide as R6; [apply GM', SM; clear - J1 R6; tauto|].
  case_decide as R7; [apply GB', SB; clear - J2 R7; tauto|]. clear J1 J2.
  do 4 (case_decide; [apply GN'; rewrite ?SB, ?SM, ?SP, ?SQ; clear GB GM GP GQ GN GB' GM' GP' GQ' GN' SB SM SP SQ EB EM EP EQ; tauto|]). clear D1 D2 D3 D4.
  case_decide as R8; [apply GQ', SQ; clear - Hinv R3 R2 R4 R6 R8; tauto|].
  case_decide as R9; [apply GP', SP; clear - Hinv R2 R3 R4 R5 R6 R9; tauto|]. clear Hinv B1 B2 B3.
  destruct EB as [EB|EB]; [rewrite GB, GB' by tauto; done|]. destruct EM as [EM|EM]; [rewrite GM, GM' by tauto; done|].
  destruct EP as [EP|EP]; [rewrite GP, GP' by tauto; done|]. destruct EQ as [EQ|EQ]; [rewrite GQ, GQ' by tauto; done|].
  rewrite GN, GN' by tauto. done.
Qed.

(** C17: a room follows its group.  For a sensible change, in which no
    invited or banned PNI belongs to a login of the bridge, the members shown
    for the new group are those shown for the old group with the patch made
    from the change applied: users the patch lets leave are gone, the others
    it mentions have the membership it gives, and everyone else is as before.
    None of the conversions panics. *)
Theorem room_follows_group c g g' (Ha : apply_change (E := group_error) c g = Ok g') (Hs : sensible c g g')
  (Hu : unresolved (map pm_ServiceID (grp_PendingMembers g) ++ map bm_ServiceID (grp_BannedMembers g) ++ change_ids c)) :
  exists old new patch,
    group_member_map me ownPNI DeviceByPNI g = Ok old /\ group_member_map me ownPNI DeviceByPNI g' = Ok new /\
    change_member_map me ownPNI DeviceByPNI c = Ok patch /\
    forall i, valid i ->
      match shown patch !! user_of i with
      | Some MembershipLeave => shown new !! user_of i = None
      | Some m => shown new !! user_of i = Some m
      | None => shown new !! user_of i = shown old !! user_of i
      end.
Proof.
  pose proof Hu as (Hp & Hb & Hc)%(proj1 (Forall_app_3 _ _ _ _)).
  assert (Hp' : unresolved (map pm_ServiceID (grp_PendingMembers g'))).
  { eapply unresolved_subset; [|exact Hu]. intros i Hi. apply in_pending_list in Hi.
    apply (change_states c g g' i Ha (sn_requests _ _ _ Hs)) in Hi as [[Hi|Hi] _]; [apply in_pending_list in Hi|]; unfold change_ids; set_solver. }
  assert (Hb' : unresolved (map bm_ServiceID (grp_BannedMembers g'))).
  { eapply unresolved_subset; [|exact Hu]. intros i Hi. apply in_banned_list in Hi.
    apply (change_states c g g' i Ha (sn_requests _ _ _ Hs)) in Hi as [[Hi|Hi] _]; [apply in_banned_list in Hi|]; unfold change_ids; set_solver. }
  destruct (group_shown g Hp Hb) as (old & Eo & So). destruct (group_shown g' Hp' Hb') as (new & En & Sn).
  destruct (change_shown c Hc) as (patch & Ep & Sp). exists old, new, patch. split_and!; [done..|]. intros i Hi.
  rewrite So, Sn, Sp. rewrite !set_ops_lookup by (done || by apply group_ops_valid || by apply change_ops_valid).
  rewrite !group_last, change_last, !lookup_empty. pose proof (patch_correct c g g' i Ha Hs) as H.
  destruct (last_block i (change_blocks c)) as [m|]; [by destruct m; rewrite H|by rewrite H].
Qed.
End ViewProofs.

(** ** Catching up with missed changes *)
Inductive room_update := FullInfo (info : ChatInfo) | InfoChange (sender : EventSender) (info : ChatInfo) (ts : Z).
(** The revision of the portal and the updates it was given. *)
Record PortalView := mkPortalView { pv_Revision : Z; pv_updates : list room_update }.
Definition update_portal (u : room_update) (info : ChatInfo) (p : PortalView) : PortalView :=
  mkPortalView (makeRevisionUpdater (ch_Revision info) (pv_Revision p)).1 (pv_updates p ++ [u]).

Section CatchUp.
Context `{U : UUIDLib}.
Context (s : ClientIDs) (ownPNI : UUID) (DeviceByPNI : UUID -> option UUID) (DirectMedia : bool) (GenerateContentURI : bytes -> option bytes).
(** The group with at least a revision, the changes after a revision, and whether a backup has the chat. *)
Context (groupID : bytes) (RetrieveGroupByID : Z -> option Group) (GetGroupHistoryPage : Z -> option (list GroupChange)) (hasBackup : bool).

Definition getGroupInfo (minRevision : Z) : outcome view_error (option ChatInfo) :=
  match RetrieveGroupByID minRevision with
  | Some g => let! info := wrapGroupInfo s ownPNI DeviceByPNI DirectMedia GenerateContentURI g hasBackup in Ok (Some info)
  | None => Ok None
  end.
Definition sync_full (toRevision : Z) (p : PortalView) : outcome Empty_set PortalView :=
  match getGroupInfo toRevision with
  | Ok (Some info) => Ok (update_portal (FullInfo info) info p)
  | Ok None | Err _ => Ok p
  | Panic => Panic
  end.
(** The changes up to the wanted revision; those that cannot be converted are skipped. *)
Fixpoint process_changes (toRevision ts : Z) (changes : list GroupChange) (p : PortalView) : outcome Empty_set PortalView :=
  match changes with
  | [] => Ok p
  | c :: changes =>
      let! p := match groupChangeToChatInfoChange s ownPNI DeviceByPNI DirectMedia GenerateContentURI groupID (gch_Revision c) c with
                | Ok info => let! es := makeEventSenderFromServiceID s (gch_SourceServiceID c) in Ok (update_portal (InfoChange es info ts) info p)
                | Err _ => Ok p
                | Panic => Panic
                end in
      if gch_Revision c =? toRevision then Ok p else process_changes toRevision ts changes p
  end.
Definition catchUpGroup (fromRevision toRevision ts : Z) (p : PortalView) : outcome Empty_set PortalView :=
  if toRevision <=? fromRevision then Ok p
  else if fromRevision =? 0 then sync_full toRevision p
  else
    match GetGroupHistoryPage fromRevision with
    | Some changes => process_changes toRevision ts changes p
    | None => if toRevision <=? 0 then Ok p else sync_full toRevision p
    end.

(** *** Revisions *)
Lemma updater_max rev cur : (makeRevisionUpdater rev cur).1 = Z.max cur rev.
Proof. unfold makeRevisionUpdater. destruct (Z.ltb_spec cur rev); cbn; lia. Qed.

Lemma process_changes_grow to ts changes : forall p p', process_changes to ts changes p = Ok p' ->
  pv_Revision p <= pv_Revision p' /\ exists us, pv_updates p' = pv_updates p ++ us.
Proof.
  induction changes as [|c changes IH]; intros p p'; cbn [process_changes].
  { intros [= <-]. split; [done|]. exists []. by rewrite app_nil_r. }
  intros (p1 & H1 & H)%obind_Ok_inv.
  assert (pv_Revision p <= pv_Revision p1 /\ exists us, pv_updates p1 = pv_updates p ++ us) as (Hle & us & Hus).
  { destruct (groupChangeToChatInfoChange _ _ _ _ _ _ _ _) as [info|e|]; [|injection H1 as <-|done].
    - apply obind_Ok_inv in H1 as (es & _ & H1). apply Ok_inj in H1 as <-. cbn. rewrite updater_max. split; [lia|by eexists].
    - split; [done|]. exists []. by rewrite app_nil_r. }
  destruct (_ =? _); [apply Ok_inj in H as <-; eauto|]. destruct (IH _ _ H) as (Hle' & us' & Hus'). split; [lia|].
  exists (us ++ us'). by rewrite Hus', Hus, app_assoc.
Qed.

Lemma sync_full_grow to p p' : sync_full to p = Ok p' -> pv_Revision p <= pv_Revision p' /\ exists us, pv_updates p' = pv_updates p ++ us.
Proof.
  unfold sync_full. destruct (getGroupInfo to) as [[info|]|e|]; intros [= <-]; cbn; rewrite ?updater_max; (split; [lia|]); eauto.
  all: exists []; by rewrite app_nil_r.
Qed.
Lemma catch_up_grow from to ts p p' : catchUpGroup from to ts p = Ok p' ->
  pv_Revision p <= pv_Revision p' /\ exists us, pv_updates p' = pv_updates p ++ us.
Proof.
  unfold catchUpGroup. assert (Hid : pv_Revision p <= pv_Revision p /\ exists us, pv_updates p = pv_updates p ++ us).
  { split; [done|]. exists []. by rewrite app_nil_r. }
  destruct (_ <=? _); [by intros [= <-]|]. destruct (_ =? _); [apply sync_full_grow|].
  destruct (GetGroupHistoryPage from); [apply process_changes_grow|]. destruct (_ <=? _); [by intros [= <-]|apply sync_full_grow].
Qed.

(** The update a change leads to, for changes that convert. *)
Definition converts (ts : Z) (c : GroupChange) (u : room_update) : Prop :=
  exists info es, groupChangeToChatInfoChange s ownPNI DeviceByPNI DirectMedia GenerateContentURI groupID (gch_Revision c) c = Ok info /\
    makeEventSenderFromServiceID s (gch_SourceServiceID c) = Ok es /\ u = InfoChange es info ts.
Lemma converted_revision c info : groupChangeToChatInfoChange s ownPNI DeviceByPNI DirectMedia GenerateContentURI groupID (gch_Revision c) c = Ok info ->
  ch_Revision info = gch_Revision c.
Proof. unfold groupChangeToChatInfoChange. intros H. inv_ok. done. Qed.

(** Consecutive changes are applied one by one up to the wanted revision. *)
Lemma process_consecutive to ts rest : forall changes us p,
  Forall2 (converts ts) changes us -> map gch_Revision changes = seqZ (pv_Revision p + 1) (to - pv_Revision p) -> pv_Revision p < to ->
  process_changes to ts (changes ++ rest) p = Ok (mkPortalView to (pv_updates p ++ us)).
Proof.
  induction changes as [|c changes IH]; intros us p Hu Hrev Hlt.
  { exfalso. apply (f_equal length) in Hrev. rewrite length_seqZ in Hrev. cbn in Hrev. lia. }
  apply Forall2_cons_inv_l in Hu as (u & us' & Hc & Hu & ->). destruct Hc as (info & es & Hi & He & ->).
  rewrite seqZ_cons in Hrev by lia. cbn [map] in Hrev. injection Hrev as Hr Hrev.
  cbn [app process_changes]. rewrite Hi, He. cbn [obind].
  set (p1 := update_portal (InfoChange es info ts) info p).
  assert (Hp1 : pv_Revision p1 = pv_Revision p + 1) by (unfold p1; cbn; rewrite updater_max, (converted_revision c info Hi); lia).
  destruct (Z.eqb_spec (gch_Revision c) to) as [Heq|Hne].
  - assert (changes = []) as ->.
    { destruct changes; [done|]. apply (f_equal length) in Hrev. rewrite length_seqZ in Hrev. cbn in Hrev. lia. }
    apply Forall2_nil_inv_l in Hu as ->. f_equal. destruct p1 as [r ups] eqn:E1. cbn in Hp1. f_equal; [lia|]. unfold p1, update_portal in E1. congruence.
  - rewrite (IH us' p1); [|done| |lia].
    + f_equal. f_equal. unfold p1, update_portal. cbn. by rewrite <- app_assoc.
    + rewrite Hp1, Hrev. f_equal; lia.
Qed.
End CatchUp.

(** ** A concrete group and witnesses *)
Module SampleView.
Import CanonicalUUID.

Lemma disjoint_check (l1 l2 : list ServiceID) : forallb (fun j => negb (bool_decide (j ∈ l2))) l1 = true -> forall i, i ∈ l1 -> i ∉ l2.
Proof. intros H i Hi. rewrite forallb_forall in H. apply list_elem_of_In, H, negb_true_iff, bool_decide_eq_false in Hi. done. Qed.
Lemma subset_check (l1 l2 : list ServiceID) : forallb (fun j => bool_decide (j ∈ l2)) l1 = true -> forall i, i ∈ l1 -> i ∈ l2.
Proof. intros H i Hi. rewrite forallb_forall in H. apply list_elem_of_In, H, bool_decide_eq_true in Hi. done. Qed.
Ltac by_lists :=
  rewrite ?members_dom, ?requesting_dom, <- ?in_pending_list, <- ?in_banned_list;
  match goal with |- ?i ∈ _ -> _ => revert i end;
  first [apply disjoint_check; vm_compute; reflexivity | apply subset_check; vm_compute; reflexivity].

Definition alice : UUID := mk_fixed (n := 16) (repeat x0a 16) eq_refl.
Definition bob : UUID := mk_fixed (n := 16) (repeat x0b 16) eq_refl.
Definition carol : UUID := mk_fixed (n := 16) (repeat x0c 16) eq_refl.
Definition dave : UUID := mk_fixed (n := 16) (repeat x0d 16) eq_refl.
Definition key : fixed 32 := mk_fixed (n := 32) (repeat x41 32) eq_refl.
Definition login : ClientIDs := {| ci_SplitPortals := false; ci_UserLoginID := uuid_string alice; ci_ACI := alice |}.
Definition no_devices (u : UUID) : option UUID := None.

Definition group_of (revision : Z) (members : list GroupMember) (pending : list PendingMember) (banned : list BannedMember) : Group :=
  mkGroup (str "master key") (str "group") (str "Team") [] members [] false revision 0 None pending [] banned None.
Definition no_change : GroupChange :=
  mkGroupChange (str "master key") (NewACIServiceID alice) 2 [] [] [] [] [] [] [] None None None None None None [] [] [] None None [] [] [] None.
(** Bob is banned, Carol accepts her invitation. *)
Definition before : Group := group_of 1 [mkMember alice 2 key 0; mkMember bob 1 key 0] [mkPending (NewACIServiceID carol) 1 alice 0] [].
Definition ban_bob : GroupChange :=
  mkGroupChange (str "master key") (NewACIServiceID alice) 2 [] [bob] [] [] [] [] [mkKeyMember carol key] None None None None None None [] [] [] None None
    [mkBanned (NewACIServiceID bob) 0] [] [] None.
Definition after : Group :=
  group_of 2 [mkMember alice 2 key 0; mkMember carol 1 key 2] [] [mkBanned (NewACIServiceID bob) 0].

Lemma before_single : single before.
Proof. intros i. split_and!; try (intros Hi; split_and!; revert Hi; by_lists); by_lists. Qed.
Lemma after_single : single after.
Proof. intros i. split_and!; try (intros Hi; split_and!; revert Hi; by_lists); by_lists. Qed.
Lemma ban_bob_sensible : sensible ban_bob before after.
Proof.
  split; [apply before_single|apply after_single|apply NoDup_nil_2|intros i; split_and!; by_lists|intros i; split_and!; by_lists|..].
  - intros i [Hi|Hi]; by apply not_elem_of_nil in Hi.
  - intros i Hi. by apply not_elem_of_nil in Hi.
  - intros i Hi. by apply not_elem_of_nil in Hi.
Qed.
Lemma room_follows_group_witness : exists old new patch,
  group_member_map login bob no_devices before = Ok old /\ group_member_map login bob no_devices after = Ok new /\
  change_member_map login bob no_devices ban_bob = Ok patch /\
  shown patch !! user_of (NewACIServiceID bob) = Some MembershipBan /\ shown new !! user_of (NewACIServiceID bob) = Some MembershipBan.
Proof.
  destruct (room_follows_group login bob no_devices ban_bob before after eq_refl ban_bob_sensible) as (old & new & patch & E1 & E2 & E3 & H).
  { repeat (apply Forall_cons_2; [split; reflexivity|]). apply Forall_nil_2. }
  exists old, new, patch. specialize (H (NewACIServiceID bob) eq_refl).
  assert (Hp : shown patch !! user_of (NewACIServiceID bob) = Some MembershipBan).
  { assert (Hc : match change_member_map login bob no_devices ban_bob with
                 | Ok p => bool_decide (shown p !! user_of (NewACIServiceID bob) = Some MembershipBan) | _ => false end = true) by (vm_compute; reflexivity).
    rewrite E3 in Hc. by apply bool_decide_eq_true in Hc. }
  rewrite Hp in H. split_and!; [exact E1|exact E2|exact E3|exact Hp|exact H].
Defined.

(** Lifting a ban together with an invitation: the invited user is shown as gone. *)
Definition invite_banned : GroupChange :=
  mkGroupChange (str "master key") (NewACIServiceID alice) 2 [] [] [] [] [mkPending (NewACIServiceID dave) 1 alice 0] [] [] None None None None None None [] [] [] None None
    [] [NewACIServiceID dave] [] None.
Lemma unbanned_invite_lost :
  let g := group_of 1 [mkMember alice 2 key 0] [] [mkBanned (NewACIServiceID dave) 0] in
  match apply_change (E := group_error) invite_banned g, change_member_map login bob no_devices invite_banned with
  | Ok g', Ok patch =>
      match group_member_map login bob no_devices g' with Ok new => shown new !! user_of (NewACIServiceID dave) = Some MembershipInvite | _ => False end /\
      shown patch !! user_of (NewACIServiceID dave) = Some MembershipLeave
  | _, _ => False
  end.
Proof. vm_compute. split; reflexivity. Qed.

End SampleView.
