(* ===== verification/ChatEvents.v ===== *)
(** Signal events on their way into rooms ([pkg/connector/handlesignal.go],
    [pins.go]).

    The bridge framework is given remote events, which it may refuse; a
    handler's result says whether the Signal message may be acknowledged.
    Chat events are asked for their type, target and content when the
    framework handles them. *)
From S2P Require Import Prelude GoLib ServiceId SignalId MediaId Crypto Storage ChatSettings RecipientStore StorageSync Groups GroupCache RangeTree SignalFmt GroupView ConvertSignal.

Record MessageInfo := mkInfo { in_Sender : UUID; in_ChatID : bytes; in_GroupRevision : Z; in_ServerTimestamp : Z; in_ServerGUID : bytes; in_ReportingToken : bytes }.
Inductive chat_payload :=
| PlData (dm : DataMessage)
| PlEdit (targetSentTimestamp : Z) (dm : option DataMessage)
| PlTyping (started : bool)
| PlStory (story : StoryMessage) (group : option (Z * option bytes)) (timestamp : Z).
Record ChatEvent := mkChatEvent { ce_Info : MessageInfo; ce_Event : chat_payload }.

Inductive remote_event_type :=
| RemoteEventUnknown | RemoteEventMessage | RemoteEventEdit | RemoteEventReaction | RemoteEventReactionRemove | RemoteEventMessageRemove | RemoteEventTyping
| RemoteEventChatInfoChange | RemoteEventReadReceipt | RemoteEventDeliveryReceipt.
#[export] Instance remote_event_type_eq_dec : EqDecision remote_event_type. Proof. solve_decision. Defined.

(** ** Questions about a chat event *)
Section Events.
Context `{U : UUIDLib}.

Definition isPinChange (dm : DataMessage) : bool := isSome (dm_PinMessage dm) || isSome (dm_UnpinMessage dm).
(** A pin wins over an unpin; a target without an author is the sender's own message. *)
Definition pinChange (dm : DataMessage) (sender : UUID) : bytes * bool :=
  let pinned := isSome (dm_PinMessage dm) in
  let '(author, ts) := match dm_PinMessage dm, dm_UnpinMessage dm with
                       | Some t, _ | None, Some t => (tg_AuthorAciBinary t, tg_SentTimestamp t)
                       | None, None => ([], 0)
                       end in
  (MakeMessageID (default sender (to_fixed 16 author)) ts, pinned).

Definition removes (dm : DataMessage) : bool := match dm_Reaction dm with Some r => rx_Remove r | None => false end.
Definition has_group_change (dm : DataMessage) : bool := match dm_GroupV2 dm with Some (_, Some _) => true | _ => false end.
Definition has_message (dm : DataMessage) : bool :=
  dm_IsViewOnce dm || isSome (dm_Body dm) || negb (length (dm_Attachments dm) =? 0)%nat || negb (length (dm_Contact dm) =? 0)%nat || isSome (dm_Sticker dm)
  || isSome (dm_Payment dm) || dm_GiftBadge dm || isSome (dm_PollCreate dm) || isSome (dm_PollVote dm) || isSome (dm_PollTerminate dm)
  || (CURRENT <? dm_RequiredProtocolVersion dm) || isExpirationUpdate dm.
Definition GetType (storyReactionUnbridged : bool) (p : chat_payload) : remote_event_type :=
  match p with
  | PlData dm =>
      if isPinChange dm then RemoteEventChatInfoChange
      else if IsStoryReaction dm && negb (removes dm) then (if storyReactionUnbridged then RemoteEventMessage else RemoteEventReaction)
      else if has_message dm
      then RemoteEventMessage
      else if isSome (dm_Reaction dm) then (if removes dm then RemoteEventReactionRemove else RemoteEventReaction)
      else if isSome (dm_Delete dm) || isSome (dm_AdminDelete dm) then RemoteEventMessageRemove
      else if has_group_change dm then RemoteEventChatInfoChange
      else RemoteEventUnknown
  | PlEdit _ _ => RemoteEventEdit
  | PlTyping _ => RemoteEventTyping
  | PlStory _ _ _ => RemoteEventMessage
  end.
Definition ShouldCreatePortal (unbridged : bool) (p : chat_payload) : bool :=
  match GetType unbridged p with RemoteEventMessage | RemoteEventChatInfoChange => true | _ => false end.
(** Fifteen seconds in nanoseconds; asking another event panics. *)
Definition GetTimeout (p : chat_payload) : outcome Empty_set Z := match p with PlTyping started => Ok (if started then 15 * Second else 0) | _ => Panic end.

Definition getDataMsgTimestamp (p : chat_payload) : Z :=
  match p with
  | PlData dm => dm_Timestamp dm
  | PlEdit _ dm => match dm with Some dm => dm_Timestamp dm | None => 0 end
  | PlStory _ _ ts => ts
  | PlTyping _ => 0
  end.
Definition GetID (evt : ChatEvent) : bytes :=
  let ts := getDataMsgTimestamp (ce_Event evt) in if ts =? 0 then [] else MakeMessageID (in_Sender (ce_Info evt)) ts.
Definition GetTimestamp (now : Z) (p : chat_payload) : Z := let ts := getDataMsgTimestamp p in if ts =? 0 then now else int64 ts.
Definition GetStreamOrder (evt : ChatEvent) : Z := int64 (in_ServerTimestamp (ce_Info evt)).

Definition reaction_author (r : Reaction) : UUID :=
  match ParseStringOrBinaryUUID (rx_TargetAuthorAci r) (rx_TargetAuthorAciBinary r) with Ok u => u | _ => uuid_Nil end.
(** The author and timestamp a message names as its target. *)
Definition named_target (p : chat_payload) : option (UUID * Z) :=
  match p with
  | PlData dm =>
      match dm_Reaction dm, dm_Delete dm, dm_AdminDelete dm with
      | Some r, _, _ => Some (reaction_author r, rx_TargetSentTimestamp r)
      | None, Some ts, _ => Some (uuid_Nil, ts)
      | None, None, Some t => Some (default uuid_Nil (to_fixed 16 (tg_AuthorAciBinary t)), tg_SentTimestamp t)
      | None, None, None => None
      end
  | PlEdit ts _ => Some (uuid_Nil, ts)
  | PlTyping _ | PlStory _ _ _ => None
  end.
Definition GetTargetMessage (evt : ChatEvent) : bytes :=
  match named_target (ce_Event evt) with
  | Some (author, ts) => MakeMessageID (if bool_decide (author = uuid_Nil) then in_Sender (ce_Info evt) else author) ts
  | None => []
  end.
Definition GetReactionEmoji (p : chat_payload) : outcome Empty_set bytes :=
  match p with PlData dm => match dm_Reaction dm with Some r => Ok (rx_Emoji r) | None => Panic end | _ => Panic end.

End Events.

(** ** Group changes of chat events *)
Inductive chat_change := PinChanged (id : bytes) (pinned : bool) | GroupChanged (info : ChatInfo).
Inductive chat_error := NotGroupChange | NotDataMessage | NotEditMessage | IgnoringRemoteEvent | ViewFailed (e : view_error).

Section GroupEvents.
Context `{U : UUIDLib}.
Context (s : ClientIDs) (ownPNI : UUID) (DeviceByPNI : UUID -> option UUID) (DirectMedia : bool) (GenerateContentURI : bytes -> option bytes).
Context (RetrieveGroupByID : Z -> option Group) (GetGroupHistoryPage : Z -> option (list GroupChange)) (hasBackup : bool).
(** [DecryptGroupChange] of the client. *)
Context (DecryptGroupChange : bytes -> option GroupChange).

Definition group_context (p : chat_payload) : option (Z * option bytes) * Z :=
  match p with
  | PlData dm => (dm_GroupV2 dm, dm_Timestamp dm)
  | PlStory _ group ts => (group, ts)
  | _ => (None, 0)
  end.
(** The story check reads the message table: [bridged]. *)
Definition story_unbridged (bridged : DataMessage -> bool) (p : chat_payload) : bool :=
  match p with PlData dm => IsStoryReaction dm && negb (removes dm) && negb (bridged dm) | _ => false end.
(** A change in the message itself is left for [GetChatInfoChange]. *)
Definition PreHandle (evt : ChatEvent) (p : PortalView) : outcome Empty_set PortalView :=
  match group_context (ce_Event evt) with
  | (None, _) => Ok p
  | (Some (_, change), msgTS) =>
      let rev := in_GroupRevision (ce_Info evt) in
      if pv_Revision p <? rev then
        catchUpGroup s ownPNI DeviceByPNI DirectMedia GenerateContentURI (in_ChatID (ce_Info evt)) RetrieveGroupByID GetGroupHistoryPage hasBackup
          (pv_Revision p) (if isSome change then rev - 1 else rev) (int64 msgTS) p
      else Ok p
  end.

(** [None] ignores the event. *)
Definition GetChatInfoChange (evt : ChatEvent) (portalRevision : Z) : outcome chat_error (option chat_change) :=
  match ce_Event evt with
  | PlData dm =>
      if isPinChange dm then let '(id, pinned) := pinChange dm (in_Sender (ce_Info evt)) in Ok (Some (PinChanged id pinned))
      else
        match dm_GroupV2 dm with
        | Some (rev, Some change) =>
            match DecryptGroupChange change with
            | None => Ok None
            | Some c =>
                if negb (gch_Revision c =? rev) || negb (gch_Revision c =? uint32 (portalRevision + 1)) then Ok None
                else let! info := wrap_err ViewFailed (groupChangeToChatInfoChange s ownPNI DeviceByPNI DirectMedia GenerateContentURI (in_ChatID (ce_Info evt)) rev c) in
                     Ok (Some (GroupChanged info))
            end
        | _ => Err NotGroupChange
        end
  | _ => Err NotGroupChange
  end.

(** A message that carries a change of its group. *)
Definition carries (evt : ChatEvent) (dm : DataMessage) (c : GroupChange) (blob : bytes) : Prop :=
  ce_Event evt = PlData dm /\ isPinChange dm = false /\ dm_GroupV2 dm = Some (in_GroupRevision (ce_Info evt), Some blob) /\
  DecryptGroupChange blob = Some c /\ gch_Revision c = in_GroupRevision (ce_Info evt).

End GroupEvents.

Lemma has_message_length dm : has_message dm = CanConvertSignal dm.
Proof.
  unfold has_message, CanConvertSignal, calculateLength, is_poll.
  destruct (dm_IsViewOnce dm), (isExpirationUpdate dm); cbn [orb]; rewrite ?orb_true_r; try done.
  destruct (isSome (dm_Sticker dm)), (isSome (dm_PollVote dm)), (isSome (dm_PollCreate dm)), (isSome (dm_PollTerminate dm)); cbn [orb]; rewrite ?orb_true_r; try done.
  generalize (length (dm_Attachments dm)) as n, (length (dm_Contact dm)) as m. intros n m.
  destruct (CURRENT <? dm_RequiredProtocolVersion dm), (isSome (dm_Body dm)), (isSome (dm_Payment dm)), (dm_GiftBadge dm), n, m; cbn [Nat.eqb negb orb Z.b2z andb]; try done.
  all: rewrite ?orb_true_r; symmetry; match goal with |- context [?a =? 0] => replace (a =? 0) with false by lia end; cbn [andb]; lia.
Qed.
(** A data message is handled as a message exactly when it can be converted. *)
Lemma message_type_convertible dm unbridged : isPinChange dm = false -> IsStoryReaction dm = false ->
  GetType unbridged (PlData dm) = RemoteEventMessage <-> CanConvertSignal dm = true.
Proof.
  intros Hpin Hst. cbn [GetType]. rewrite Hpin, Hst, <- has_message_length. cbn [andb]. destruct (has_message dm); [done|]. by repeat case_match.
Qed.

(** ** Converting chat events *)
#[export] Instance portal_key_eq_dec : EqDecision PortalKey. Proof. solve_decision. Defined.
#[export] Instance portal_key_countable : Countable PortalKey.
Proof.
  refine (inj_countable' (fun k => (pk_ID k, pk_Receiver k)) (fun p => {| pk_ID := p.1; pk_Receiver := p.2 |}) _). by intros [].
Defined.

(** A row of the message table: one part of a bridged message. *)
Record MsgRow := mkRow {
  mr_Room : PortalKey;
  mr_ID : bytes;
  mr_PartID : bytes;
  mr_MXID : bytes;
  mr_Timestamp : Z;
  mr_EditCount : Z;
  mr_Metadata : MessageMetadata
}.
Definition editStubPartID : bytes := str "editstub".
Definition isEditStub (msg : MsgRow) : bool := beqb (mr_PartID msg) editStubPartID.
(** The changed row and its new content; a stub may stay behind under the old ID. *)
Record ConvertedEdit := mkEdit { ed_Row : MsgRow; ed_Content : Part; ed_AddedStub : bool }.

Section Convert.
Context `{W : MediaWorld} `{E : FmtEnv} `{U : UUIDLib}.
Context (GetUserInfo : UUID -> UserInfo) (MergeCaption : list Part -> list Part) (s : ClientIDs).
Context (ViewLimitedMedia ExtEvPolls DirectMedia : bool) (now : Z) (read_fails update_fails : bytes -> bool).
Let to_matrix (sender : UUID) (dm : DataMessage) : conv_m ConvertedMessage :=
  ToMatrix GetUserInfo MergeCaption (ci_ACI s) ViewLimitedMedia ExtEvPolls DirectMedia now read_fails update_fails sender dm None.

Definition chat_m (A : Type) : Type := stateE ConvState chat_error A.
Definition converting {A : Type} (m : conv_m A) : chat_m A := fun st =>
  match m st with (st', Ok a) => (st', Ok a) | (_, Err e) => match e with end | (st', Panic) => (st', Panic) end.

Definition add_report (info : MessageInfo) (p : Part) : Part :=
  let m := default empty_metadata (pp_Metadata p) in
  mkPart (pp_ID p) (pp_Type p) (pp_Content p) (pp_Extra p) (pp_Album p)
    (Some (mkMetadata (in_ServerGUID info) (in_ReportingToken info) (md_ViewOnce m) (md_ContainsAttachments m) (md_MatrixPollOptionIDs m) (md_VoteCount m) (md_IsStory m)))
    (pp_DontBridge p).
Definition set_timer (d : Disappear) (st : ConvState) : ConvState := mkConv d (cv_ExpirationTimerVersion st) (cv_messages st).
(** The portal's timer follows that of an ordinary message; an own message disappears counted from when it was sent. *)
Definition ConvertMessage (evt : ChatEvent) : chat_m ConvertedMessage :=
  match ce_Event evt with
  | PlStory story _ ts => converting (StoryToMatrix GetUserInfo MergeCaption DirectMedia story ts)
  | PlData dm =>
      let* cm := converting (to_matrix (in_Sender (ce_Info evt)) dm) in
      let parts := map (add_report (ce_Info evt)) (cm_Parts cm) in
      let d := cm_Disappear cm in
      if bool_decide (di_Type d = DisappearNone) then sret (mkConverted (cm_ReplyTo cm) parts d)
      else
        let* _ := if dm_IsViewOnce dm then sret tt else smodify (set_timer d) in
        let d' := if bool_decide (in_Sender (ce_Info evt) = ci_ACI s)
                  then mkDisappear (di_Type d) (di_Timer d) (Some (GetTimestamp now (ce_Event evt) + di_Timer d / 1000000)) else d in
        sret (mkConverted (cm_ReplyTo cm) parts d')
  | _ => slift (Err NotDataMessage)
  end.

(** Only the last part of a message is edited, with the last part of the new content. *)
Definition ConvertEdit (evt : ChatEvent) (existing : list MsgRow) : chat_m ConvertedEdit :=
  match ce_Event evt with
  | PlEdit target dm =>
      if match dm with Some dm => dm_IsViewOnce dm | None => false end then slift (Err IgnoringRemoteEvent)
      else if existsb (fun r => md_ViewOnce (mr_Metadata r)) existing then slift (Err IgnoringRemoteEvent)
      else
        let existing := List.filter (fun r => negb (isEditStub r)) existing in
        match last existing, dm with
        | None, _ => slift (Err IgnoringRemoteEvent)
        | Some row, None => slift Panic
        | Some row, Some dm =>
            let sender := in_Sender (ce_Info evt) in
            let* cm := converting (to_matrix sender dm) in
            match last (cm_Parts cm) with
            | None => slift Panic
            | Some p =>
                let newID := MakeMessageID sender (dm_Timestamp dm) in
                sret (mkEdit (mkRow (mr_Room row) newID (mr_PartID row) (mr_MXID row) (mr_Timestamp row) (mr_EditCount row + 1) (mr_Metadata row))
                        (album_SetID (AlbumID sender target) p) (negb (beqb (mr_ID row) newID)))
            end
        end
  | _ => slift (Err NotEditMessage)
  end.

(** Rows that are expired when the user opens a view-once message elsewhere: the
    loop of [handleSignalViewOnceOpen]. *)
Definition expires_on_open (m : MessageMetadata) : bool := md_ViewOnce m && md_ContainsAttachments m.

Lemma ConvertMessage_Ok evt dm st st1 cm : ce_Event evt = PlData dm -> to_matrix (in_Sender (ce_Info evt)) dm st = (st1, Ok cm) ->
  exists st' d, ConvertMessage evt st = (st', Ok (mkConverted (cm_ReplyTo cm) (map (add_report (ce_Info evt)) (cm_Parts cm)) d)) /\
    di_Type d = di_Type (cm_Disappear cm) /\ di_Timer d = di_Timer (cm_Disappear cm) /\ (in_Sender (ce_Info evt) <> ci_ACI s -> d = cm_Disappear cm).
Proof.
  intros He Hm. unfold ConvertMessage. rewrite He. unfold sbind, converting. rewrite Hm. destruct (bool_decide (di_Type _ = _)) eqn:Ed.
  { do 2 eexists. split_and!; done. }
  destruct (dm_IsViewOnce dm); cbn; do 2 eexists; (split; [reflexivity|]).
  all: clear Ed; case_bool_decide; (split_and!; [done|done|]); by intros Hne.
Qed.

(** The body ranges of a message. *)
Definition ranges_of (p : chat_payload) : list ProtoRange :=
  match p with PlData dm => dm_BodyRanges dm | PlStory story _ _ => sm_BodyRanges story | _ => [] end.
(** A sticker has data, and a poll that is ended is in the database (or reading
    it fails). *)
Definition complete (sender : UUID) (st : ConvState) (dm : DataMessage) : Prop :=
  (forall sticker, dm_Sticker dm = Some sticker -> is_Some (st_Data sticker)) /\
  (forall t, dm_PollTerminate dm = Some t -> read_fails (MakeMessageID sender t) = true \/ is_Some (cv_messages st !! MakeMessageID sender t)).
(** The metadata of the parts: what is needed to report a message, or the mark
    of a story. *)
Definition bridged_metadata (evt : ChatEvent) (m : MessageMetadata) : Prop :=
  match ce_Event evt with
  | PlData _ => md_ServerGUID m = in_ServerGUID (ce_Info evt) /\ md_ReportingToken m = in_ReportingToken (ce_Info evt)
  | _ => md_IsStory m = true
  end.


(** C13: view-once media stays protected.  Every part of a view-once message
    that shows media is marked to be viewed once; it comes from someone else,
    at most 45 days after it was sent; it disappears at the end of the 45 days
    at the latest or five minutes after it was read, the latter always when
    the server does not enforce view limits; and it expires when the message
    is opened on another device. *)
Theorem view_once_protected (merge_from : forall parts p, p ∈ MergeCaption parts -> exists q, q ∈ parts /\ same_kind p q)
  evt dm st st' cm p (He : ce_Event evt = PlData dm) (Hv : dm_IsViewOnce dm = true)
  (Hc : ConvertMessage evt st = (st', Ok cm)) (Hp : p ∈ cm_Parts cm) (Hm : shows_media p) :
  ec_ViewLimited (pp_Content p) = true /\ in_Sender (ce_Info evt) <> ci_ACI s /\ now < int64 (dm_Timestamp dm) + Days45_ms /\
  (exists m, pp_Metadata p = Some m /\ expires_on_open m = true) /\
  let d := cm_Disappear cm in
  di_Type d <> DisappearNone /\ 0 < di_Timer d /\
  (d = mkDisappear AfterRead (5 * Minute_ns) None \/ di_DisappearAt d = Some (int64 (dm_Timestamp dm) + Days45_ms)) /\
  (ViewLimitedMedia = false -> di_Type d = AfterRead /\ di_Timer d <= 5 * Minute_ns).
Proof.
  assert (exists st1 cm1, to_matrix (in_Sender (ce_Info evt)) dm st = (st1, Ok cm1)) as (st1 & cm1 & Hto).
  { unfold ConvertMessage in Hc. rewrite He in Hc. apply sbind_Ok in Hc as (st1 & cm1 & Hto & _). exists st1, cm1.
    unfold converting in Hto. destruct (to_matrix _ _ _) as [st2 [cm2|[]|]]; congruence. }
  destruct (ConvertMessage_Ok evt dm st st1 cm1 He Hto) as (st2 & d & Hc2 & _ & _ & Hd). rewrite Hc2 in Hc. injection Hc as _ <-.
  cbn [cm_Parts cm_Disappear] in *. apply list_elem_of_fmap in Hp as (q & -> & Hq).
  destruct (view_once_media GetUserInfo MergeCaption (ci_ACI s) ViewLimitedMedia ExtEvPolls DirectMedia now read_fails update_fails merge_from
    (in_Sender (ce_Info evt)) dm None st st1 cm1 q Hv Hto Hq Hm) as (H1 & H2 & H3 & H4 & H5).
  refine (conj H1 (conj H2 (conj H3 (conj _ _)))). { eexists. split; [reflexivity|]. by rewrite H4. }
  rewrite (Hd H2). exact H5.
Qed.

(** *** Edits and the message table
    The framework gives [ConvertEdit] the rows with the target's ID; it saves
    the changed row and, for the stub, a row under the old ID. *)
Definition rows_with (id : bytes) (rows : list MsgRow) : list MsgRow := List.filter (fun r => beqb (mr_ID r) id) rows.
#[local] Instance metadata_eq_dec : EqDecision MessageMetadata. Proof. solve_decision. Defined.
#[local] Instance row_eq_dec : EqDecision MsgRow. Proof. solve_decision. Defined.
Definition stub_row (old : MsgRow) : MsgRow := mkRow (mr_Room old) (mr_ID old) editStubPartID [] (mr_Timestamp old) 0 empty_metadata.
Definition save_edit (old : MsgRow) (ed : ConvertedEdit) (rows : list MsgRow) : list MsgRow :=
  map (fun r => if decide (r = old) then ed_Row ed else r) rows ++ (if ed_AddedStub ed then [stub_row old] else []).

Lemma ConvertEdit_inv evt existing st st' ed : ConvertEdit evt existing st = (st', Ok ed) ->
  exists target dm row p, ce_Event evt = PlEdit target (Some dm) /\ dm_IsViewOnce dm = false /\
    Forall (fun r => md_ViewOnce (mr_Metadata r) = false) existing /\ last (List.filter (fun r => negb (isEditStub r)) existing) = Some row /\
    ed = mkEdit (mkRow (mr_Room row) (MakeMessageID (in_Sender (ce_Info evt)) (dm_Timestamp dm)) (mr_PartID row) (mr_MXID row) (mr_Timestamp row) (mr_EditCount row + 1) (mr_Metadata row))
           p (negb (beqb (mr_ID row) (MakeMessageID (in_Sender (ce_Info evt)) (dm_Timestamp dm)))).
Proof.
  unfold ConvertEdit. destruct (ce_Event evt) as [|target dm| |] eqn:Ee; try done.
  destruct (match dm with Some dm => _ | None => _ end) eqn:Ev; [done|]. destruct (existsb _ existing) eqn:Ex; [done|].
  destruct (last _) as [row|] eqn:El; [|done]. destruct dm as [dm|]; [|done].
  intros (st1 & cm & _ & H)%sbind_Ok. destruct (last (cm_Parts cm)) as [p|]; [|done]. injection H as _ <-.
  exists target, dm, row. eexists. split_and!; try done. apply Forall_forall. intros r Hr. apply not_true_iff_false. intros Hv.
  apply (Bool.diff_true_false). rewrite <- Ex. symmetry. apply existsb_exists. exists r. split; [by apply list_elem_of_In|done].
Qed.

Lemma rows_with_app id a b : rows_with id (a ++ b) = rows_with id a ++ rows_with id b.
Proof. apply List.filter_app. Qed.
Lemma rows_with_none id rows : (forall r, r ∈ rows -> mr_ID r <> id) -> rows_with id rows = [].
Proof.
  induction rows as [|r rows IH]; intros H; [done|]. cbn. assert (beqb (mr_ID r) id = false) as ->.
  { apply bool_decide_eq_false. apply H. left. }
  apply IH. intros r' Hr'. apply H. by right.
Qed.

Definition edit_id (evt : ChatEvent) : bytes := MakeMessageID (in_Sender (ce_Info evt)) (getDataMsgTimestamp (ce_Event evt)).
Lemma saved_once id row ed rows : rows_with id rows = [row] -> mr_ID (ed_Row ed) <> id -> ed_AddedStub ed = true ->
  rows_with id (save_edit row ed rows) = [stub_row row].
Proof.
  intros Hone Hid Hstub. assert (Hrow : row ∈ rows_with id rows) by (rewrite Hone; left).
  apply list_elem_of_In, filter_In in Hrow as [_ Hrow]. apply bool_decide_eq_true in Hrow.
  unfold save_edit. rewrite Hstub, rows_with_app, rows_with_none; cbn.
  - assert (beqb (mr_ID row) id = true) as -> by (by apply bool_decide_eq_true). done.
  - intros r (r0 & -> & Hr0)%list_elem_of_fmap. destruct (decide (r0 = row)) as [->|Hne]; [done|]. intros Heq. apply Hne.
    assert (r0 ∈ rows_with id rows) as Hin; [|rewrite Hone in Hin; by apply list_elem_of_singleton in Hin].
    apply list_elem_of_In, filter_In. split; [by apply list_elem_of_In|by apply bool_decide_eq_true].
Qed.

(** C14: edits change only the sender's own messages, and once.  The target of
    an edit is a message of its sender; when it converts, the last part of
    the target that is not a stub keeps its room, event and position and
    gets the ID of the edit, and no part is view-once media.  When the
    target has one part and the edit another timestamp, the edit is ignored
    if it comes again after it was saved. *)
Theorem edits_own_once `{UL : !UUIDLaws U} evt target dm rows st st' ed (He : ce_Event evt = PlEdit target dm) (Ht : in_width 64 target)
  (Hc : ConvertEdit evt (rows_with (GetTargetMessage evt) rows) st = (st', Ok ed)) :
  ParseMessageID (GetTargetMessage evt) = Ok (in_Sender (ce_Info evt), target) /\
  mr_ID (ed_Row ed) = edit_id evt /\
  exists row, row ∈ rows /\ mr_ID row = GetTargetMessage evt /\ isEditStub row = false /\
    mr_Room (ed_Row ed) = mr_Room row /\ mr_MXID (ed_Row ed) = mr_MXID row /\ mr_PartID (ed_Row ed) = mr_PartID row /\ mr_EditCount (ed_Row ed) = mr_EditCount row + 1 /\
    Forall (fun r => md_ViewOnce (mr_Metadata r) = false) (rows_with (GetTargetMessage evt) rows) /\
    (rows_with (GetTargetMessage evt) rows = [row] -> GetTargetMessage evt <> edit_id evt ->
     forall st2, ConvertEdit evt (rows_with (GetTargetMessage evt) (save_edit row ed rows)) st2 = (st2, Err IgnoringRemoteEvent)).
Proof.
  destruct (ConvertEdit_inv _ _ _ _ _ Hc) as (target' & dm' & row & p & He' & Hv & Hall & Hlast & ->). rewrite He in He'. injection He' as <- ->.
  assert (Htgt : GetTargetMessage evt = MakeMessageID (in_Sender (ce_Info evt)) target) by (unfold GetTargetMessage; by rewrite He).
  assert (Hid : edit_id evt = MakeMessageID (in_Sender (ce_Info evt)) (dm_Timestamp dm')) by (unfold edit_id; by rewrite He).
  assert (Hrow : row ∈ rows /\ mr_ID row = GetTargetMessage evt /\ isEditStub row = false).
  { assert (Hin : row ∈ List.filter (fun r => negb (isEditStub r)) (rows_with (GetTargetMessage evt) rows)) by (by apply last_Some_elem_of in Hlast).
    apply list_elem_of_In, filter_In in Hin as [Hin Hs]. apply filter_In in Hin as [Hin Hi]. apply bool_decide_eq_true in Hi.
    split_and!; [by apply list_elem_of_In|done|by apply negb_true_iff]. }
  split; [rewrite Htgt; by apply message_id_roundtrip|]. split; [by rewrite Hid|]. destruct Hrow as (Hr1 & Hr2 & Hr3).
  exists row. split_and!; [done|done|done|done|done|done|done|done|]. intros Hone Hne st2.
  rewrite (saved_once _ row) by (done || (cbn; rewrite <- Hid; congruence) || (cbn; rewrite <- Hid, Hr2; by apply negb_true_iff, bool_decide_eq_false)).
  unfold ConvertEdit. rewrite He, Hv. done.
Qed.

End Convert.

(** ** Handlers *)
Inductive receipt_type := ReceiptDELIVERY | ReceiptREAD | ReceiptVIEWED | ReceiptOther.
Record Bv2Receipt := mkReceipt {
  rc_Type : receipt_type;
  rc_Chat : PortalKey;
  rc_Sender : EventSender;
  (** [None] is the zero time *)
  rc_LastTS : option Z;
  rc_LastID : bytes;
  rc_IDs : list bytes
}.
Definition Bv2Receipt_GetType (b : Bv2Receipt) : remote_event_type :=
  match rc_Type b with
  | ReceiptREAD | ReceiptVIEWED => RemoteEventReadReceipt
  | ReceiptDELIVERY => RemoteEventDeliveryReceipt
  | ReceiptOther => RemoteEventUnknown
  end.

Inductive remote_event :=
| RChat (evt : ChatEvent)
| RDecryptionError (portal : PortalKey) (sender : EventSender) (ts : Z) (id : bytes)
| RGroupCall (portal : PortalKey) (sender : EventSender) (ts : Z) (id : bytes) (text : bytes)
| RReceipt (r : Bv2Receipt)
| RViewOnceOpened (portal : PortalKey) (id : bytes)
| RChatDelete (portal : PortalKey) (ts : Z)
| RMessageRemove (portal : PortalKey) (ts : Z) (target : bytes)
| RRequestChange (portal : PortalKey) (ts : Z) (messageRequest userBlocked : option bool).

Record DecryptionError := mkDecryptionError { de_Sender : UUID; de_Timestamp : Z }.
Record GroupCall := mkGroupCall { gca_Info : MessageInfo; gca_Timestamp : Z; gca_IsRinging : bool }.
Record Receipt := mkReceiptEvent { re_Sender : UUID; re_Type : receipt_type; re_Timestamp : list Z }.
Record ViewOnceOpen := mkOpen { vo_SenderAci : bytes; vo_SenderAciBinary : option bytes; vo_Timestamp : Z }.
Record ReadMessage := mkRead { rd_SenderAci : bytes; rd_SenderAciBinary : option bytes; rd_Timestamp : Z }.
Inductive ConversationIdentifier := ThreadServiceId (id : bytes) | ThreadServiceIdBinary (id : bytes) | ThreadGroupId (id : bytes) | ThreadE164 (e164 : bytes) | NoThread.
Inductive message_author := AuthorServiceId (id : bytes) | AuthorServiceIdBinary (id : bytes) | AuthorE164 (e164 : bytes) | NoAuthor.
Record AddressableMessage := mkAddressable { am_Author : message_author; am_SentTimestamp : Z }.
Record DeleteForMe := mkDeleteForMe {
  df_Timestamp : Z;
  (** conversations and whether it is a full delete *)
  df_ConversationDeletes : list (ConversationIdentifier * bool);
  df_LocalOnlyConversationDeletes : list ConversationIdentifier;
  df_MessageDeletes : list (ConversationIdentifier * list AddressableMessage)
}.
Inductive request_response := ResponseACCEPT | ResponseBLOCK | ResponseBLOCK_AND_SPAM | ResponseBLOCK_AND_DELETE | ResponseOther.
Record MessageRequestResponse := mkResponse { rq_Timestamp : Z; rq_Type : request_response; rq_GroupID : option (fixed 32); rq_ThreadACI : UUID }.
Inductive signal_evt :=
| EvChat (evt : ChatEvent)
| EvDecryptionError (evt : DecryptionError)
| EvGroupCall (evt : GroupCall)
| EvReceipt (evt : Receipt)
| EvViewOnceOpen (evt : ViewOnceOpen)
| EvReadSelf (msgs : list ReadMessage)
| EvDeleteForMe (evt : DeleteForMe)
| EvMessageRequestResponse (evt : MessageRequestResponse).

(** What was queued, and the rooms of recent view-once messages. *)
Record BridgeState := mkBridge { br_queued : list remote_event; br_recentMessageRooms : list (bytes * PortalKey) }.

Section Handlers.
Context `{U : UUIDLib} (s : ClientIDs).
(** The framework accepts an event or not; the message table ([None] is an
    error); the lookup in the ring of recent rooms; the order in which Go
    ranges over a map; and whether the context is still alive. *)
Context (accepts : remote_event -> bool) (GetFirstPartByID : bytes -> option (option MsgRow)).
Context (ring_get : list (bytes * PortalKey) -> bytes -> option PortalKey) (range_receipts : gmap PortalKey Bv2Receipt -> list (PortalKey * Bv2Receipt)).
Context (ctx_alive : bool).

Definition QueueRemoteEvent (e : remote_event) (b : BridgeState) : BridgeState * bool :=
  (if accepts e then mkBridge (br_queued b ++ [e]) (br_recentMessageRooms b) else b, accepts e).
(** Queue until one is refused. *)
Fixpoint queue_all (es : list remote_event) (b : BridgeState) : BridgeState * bool :=
  match es with
  | [] => (b, true)
  | e :: es => let '(b, ok) := QueueRemoteEvent e b in if ok then queue_all es b else (b, false)
  end.

Definition wrapGroupCallEvent (evt : GroupCall) : remote_event :=
  let info := gca_Info evt in
  RGroupCall (makePortalKey s (in_ChatID info)) (makeEventSender s (in_Sender info)) (int64 (gca_Timestamp evt)) (MakeMessageID (in_Sender info) (gca_Timestamp evt))
    (if gca_IsRinging evt then str "Started a group call" else str "Group call ended").
Definition wrapDecryptionError (evt : DecryptionError) : remote_event :=
  RDecryptionError (makePortalKey s (uuid_string (de_Sender evt))) (makeEventSender s (de_Sender evt)) (int64 (de_Timestamp evt))
    (str "decrypterr|" ++ MakeMessageID (de_Sender evt) (de_Timestamp evt)).

(** *** Receipts *)
Definition no_event_sender : EventSender := {| es_IsFromMe := false; es_SenderLogin := []; es_Sender := [] |}.
Definition before (a : option Z) (b : Z) : bool := match a with Some a => a <? b | None => true end.
Definition add_receipt (receipts : gmap PortalKey Bv2Receipt) (msg : MsgRow) : gmap PortalKey Bv2Receipt :=
  let r := default (mkReceipt ReceiptDELIVERY (mr_Room msg) no_event_sender None [] []) (receipts !! mr_Room msg) in
  let later := before (rc_LastTS r) (mr_Timestamp msg) in
  <[mr_Room msg := mkReceipt (rc_Type r) (rc_Chat r) (rc_Sender r) (if later then Some (mr_Timestamp msg) else rc_LastTS r)
                     (if later then mr_ID msg else rc_LastID r) (rc_IDs r ++ [mr_ID msg])]> receipts.
Definition convertReceipts {T : Type} (input : list T) (getMessage : T -> option (option MsgRow)) : gmap PortalKey Bv2Receipt :=
  fold_left (fun receipts x => match getMessage x with Some (Some msg) => add_receipt receipts msg | _ => receipts end) input ∅.
Definition dispatchReceipts (sender : UUID) (type : receipt_type) (receipts : gmap PortalKey Bv2Receipt) (b : BridgeState) : BridgeState * bool :=
  queue_all (map (fun '(chat, r) => RReceipt (mkReceipt type chat (makeEventSender s sender) (rc_LastTS r) (rc_LastID r) (rc_IDs r))) (range_receipts receipts)) b.

Definition own_message (ts : Z) : option (option MsgRow) := GetFirstPartByID (MakeMessageID (ci_ACI s) ts).
Definition handleSignalReceipt (evt : Receipt) : BridgeState -> BridgeState * bool :=
  dispatchReceipts (re_Sender evt) (re_Type evt) (convertReceipts (re_Timestamp evt) own_message).
Definition read_message (m : ReadMessage) : option (option MsgRow) :=
  match ParseStringOrBinaryUUID (rd_SenderAci m) (rd_SenderAciBinary m) with Ok u => GetFirstPartByID (MakeMessageID u (rd_Timestamp m)) | _ => None end.
Definition handleSignalReadSelf (msgs : list ReadMessage) : BridgeState -> BridgeState * bool :=
  dispatchReceipts (ci_ACI s) ReceiptREAD (convertReceipts msgs read_message).

(** *** View-once messages opened elsewhere *)
Definition handleSignalViewOnceOpen (evt : ViewOnceOpen) (b : BridgeState) : BridgeState * bool :=
  match ParseStringOrBinaryUUID (vo_SenderAci evt) (vo_SenderAciBinary evt) with
  | Ok sender =>
      let messageID := MakeMessageID sender (vo_Timestamp evt) in
      match ring_get (br_recentMessageRooms b) messageID with
      | Some portal => QueueRemoteEvent (RViewOnceOpened portal messageID) b
      | None =>
          match GetFirstPartByID messageID with
          | None => (b, ctx_alive)
          | Some None => (b, true)
          | Some (Some msg) => QueueRemoteEvent (RViewOnceOpened (mr_Room msg) messageID) b
          end
      end
  | _ => (b, true)
  end.
(** The [PreHandleFunc] of the queued event: the rows that expire. *)
Definition opened_rows (rows : list MsgRow) : list MsgRow := List.filter (fun r => expires_on_open (mr_Metadata r)) rows.

(** *** Deletions and message requests *)
Definition conversationIDToPortalKey (cid : ConversationIdentifier) : option PortalKey :=
  match cid with
  | ThreadServiceId id => match ServiceIDFromString id with Ok i => Some (makeDMPortalKey s i) | _ => None end
  | ThreadServiceIdBinary id => match ServiceIDFromBytes id with Ok i => Some (makeDMPortalKey s i) | _ => None end
  | ThreadGroupId id => match to_fixed 32 id with Some g => Some (makePortalKey s (BytesToGroupIdentifier (Some g))) | None => None end
  | ThreadE164 _ | NoThread => None
  end.
Definition aci_message (i : ServiceID) (ts : Z) : bytes := if bool_decide (sid_Type i = ServiceIDTypeACI) then MakeMessageID (sid_UUID i) ts else [].
Definition addressableMessageToID (am : AddressableMessage) : bytes :=
  match am_Author am with
  | AuthorServiceId id => match ServiceIDFromString id with Ok i => aci_message i (am_SentTimestamp am) | _ => [] end
  | AuthorServiceIdBinary id => match ServiceIDFromBytes id with Ok i => aci_message i (am_SentTimestamp am) | _ => [] end
  | AuthorE164 _ | NoAuthor => []
  end.
(** The three loops: whole chats, chats known only locally, single messages. *)
Definition chat_delete (ts : Z) (cid : ConversationIdentifier) : list remote_event :=
  match conversationIDToPortalKey cid with Some portal => [RChatDelete portal ts] | None => [] end.
Definition message_deletes (ts : Z) (conv : ConversationIdentifier * list AddressableMessage) : list remote_event :=
  match conversationIDToPortalKey conv.1 with
  | Some portal => concat (map (fun am => let id := addressableMessageToID am in if beqb id [] then [] else [RMessageRemove portal ts id]) conv.2)
  | None => []
  end.
Definition delete_events (evt : DeleteForMe) : list remote_event :=
  let ts := int64 (df_Timestamp evt) in
  concat (map (fun c : ConversationIdentifier * bool => if c.2 then chat_delete ts c.1 else []) (df_ConversationDeletes evt)) ++
  concat (map (chat_delete ts) (df_LocalOnlyConversationDeletes evt)) ++ concat (map (message_deletes ts) (df_MessageDeletes evt)).
Definition handleSignalDeleteForMe (evt : DeleteForMe) : BridgeState -> BridgeState * bool := queue_all (delete_events evt).

Definition handleSignalMessageRequestResponse (evt : MessageRequestResponse) (b : BridgeState) : BridgeState * bool :=
  let change : option (option bool * option bool) :=
              match rq_Type evt with
                | ResponseACCEPT => Some (Some false, Some false)
                | ResponseBLOCK | ResponseBLOCK_AND_SPAM | ResponseBLOCK_AND_DELETE => Some (None, Some true)
                | ResponseOther => None
                end in
  let portal := match rq_GroupID evt with
                | Some g => Some (makePortalKey s (BytesToGroupIdentifier (Some g)))
                | None => if bool_decide (rq_ThreadACI evt = uuid_Nil) then None else Some (makeDMPortalKey s (NewACIServiceID (rq_ThreadACI evt)))
                end in
  match change, portal with
  | Some (request, blocked), Some portal => QueueRemoteEvent (RRequestChange portal (int64 (rq_Timestamp evt)) request blocked) b
  | _, _ => (b, true)
  end.

Definition remember_view_once (evt : ChatEvent) (b : BridgeState) : BridgeState :=
  match ce_Event evt with
  | PlData dm => if dm_IsViewOnce dm then mkBridge (br_queued b) (br_recentMessageRooms b ++ [(GetID evt, makePortalKey s (in_ChatID (ce_Info evt)))]) else b
  | _ => b
  end.
(** The events of this file; the result lets the Signal message be acknowledged. *)
Definition handleSignalEvent (evt : signal_evt) (b : BridgeState) : BridgeState * bool :=
  match evt with
  | EvChat evt => QueueRemoteEvent (RChat evt) (remember_view_once evt b)
  | EvDecryptionError evt => QueueRemoteEvent (wrapDecryptionError evt) b
  | EvGroupCall evt => QueueRemoteEvent (wrapGroupCallEvent evt) b
  | EvReceipt evt => handleSignalReceipt evt b
  | EvViewOnceOpen evt => handleSignalViewOnceOpen evt b
  | EvReadSelf msgs => handleSignalReadSelf msgs b
  | EvDeleteForMe evt => handleSignalDeleteForMe evt b
  | EvMessageRequestResponse evt => handleSignalMessageRequestResponse evt b
  end.
(** *** What is queued *)
Lemma queue_all_spec es : forall b, let '(b', ok) := queue_all es b in
  br_recentMessageRooms b' = br_recentMessageRooms b /\
  if ok then br_queued b' = br_queued b ++ es
  else exists sent e rest, es = sent ++ e :: rest /\ accepts e = false /\ br_queued b' = br_queued b ++ sent.
Proof.
  induction es as [|e es IH]; intros b; cbn [queue_all]; [by rewrite app_nil_r|].
  unfold QueueRemoteEvent. destruct (accepts e) eqn:Ea.
  - specialize (IH (mkBridge (br_queued b ++ [e]) (br_recentMessageRooms b))). cbn in IH. destruct (queue_all es _) as [b' [|]].
    + destruct IH as [-> ->]. by rewrite <- app_assoc.
    + destruct IH as (-> & sent & e' & rest & -> & He & ->). split; [done|]. exists (e :: sent), e', rest. by rewrite <- app_assoc.
  - split; [done|]. exists [], e, es. by rewrite app_nil_r.
Qed.

(** The messages of a room among those looked up. *)
Definition known {T : Type} (getMessage : T -> option (option MsgRow)) (input : list T) : list MsgRow := omap (fun x => getMessage x ≫= id) input.
Definition in_room (room : PortalKey) (rows : list MsgRow) : list MsgRow := filter (fun m => mr_Room m = room) rows.
(** A receipt lists the messages of a room, and the latest of them is last. *)
Definition covers (room : PortalKey) (rows : list MsgRow) (r : Bv2Receipt) : Prop :=
  rc_Chat r = room /\ rc_IDs r = map mr_ID rows /\
  exists m, m ∈ rows /\ rc_LastID r = mr_ID m /\ rc_LastTS r = Some (mr_Timestamp m) /\ forall m', m' ∈ rows -> mr_Timestamp m' <= mr_Timestamp m.
Definition collects (room : PortalKey) (rows : list MsgRow) (o : option Bv2Receipt) : Prop :=
  match o with Some r => covers room rows r | None => rows = [] end.

Lemma add_receipt_covers receipts msg room rows : collects room rows (receipts !! room) ->
  collects room (rows ++ in_room room [msg]) (add_receipt receipts msg !! room).
Proof.
  intros H. unfold add_receipt, in_room. destruct (decide (mr_Room msg = room)) as [Hr|Hne].
  2:{ rewrite lookup_insert_ne by done. rewrite filter_cons_False by done. rewrite filter_nil. by rewrite app_nil_r. }
  rewrite Hr, lookup_insert_eq, filter_cons_True, filter_nil by done.
  destruct (receipts !! room) as [r|]; cbn in *.
  - destruct H as (Hc & Hi & m & Hm & Hlast & Hts & Hmax). rewrite Hts. cbn [before]. unfold covers. cbn. split; [done|]. split; [by rewrite Hi, map_app|].
    destruct (Z.ltb_spec (mr_Timestamp m) (mr_Timestamp msg)).
    + exists msg. split_and!; [set_solver|done|done|]. intros m' [Hm'|Hm'%list_elem_of_singleton]%elem_of_app; [specialize (Hmax m' Hm'); lia|by subst].
    + exists m. split_and!; [set_solver|done|done|]. intros m' [Hm'|Hm'%list_elem_of_singleton]%elem_of_app; [by apply Hmax|by subst].
  - subst rows. unfold covers. cbn. split_and!; [done|done|]. exists msg. split_and!; [set_solver|done|done|]. intros m' Hm'%list_elem_of_singleton. by subst.
Qed.

Lemma convertReceipts_spec {T : Type} (getMessage : T -> option (option MsgRow)) (input : list T) room :
  collects room (in_room room (known getMessage input)) (convertReceipts input getMessage !! room).
Proof.
  unfold convertReceipts, known. induction input as [|x input IH] using rev_ind; [done|].
  rewrite fold_left_app, omap_app. unfold in_room in *. rewrite filter_app. cbn [fold_left].
  destruct (getMessage x) as [[msg|]|] eqn:Ex; cbn; rewrite Ex; cbn; rewrite ?filter_nil, ?app_nil_r; [|done|done].
  by apply add_receipt_covers.
Qed.

(** C22: receipts reach their rooms.  When the handler of a receipt reports
    success, it has queued one event per room that holds a message of ours
    named by the receipt, of the sender and type of the receipt; the event
    names exactly the messages of that room, in order, and its last target is
    the latest of them.  Otherwise an event was refused, and those before it
    are queued. *)
Theorem receipts_delivered (range_perm : forall m, range_receipts m ≡ₚ map_to_list m) evt b :
  let rows := known own_message (re_Timestamp evt) in
  exists receipts, NoDup (map rc_Chat receipts) /\
    (forall room, room ∈ map rc_Chat receipts <-> exists m, m ∈ rows /\ mr_Room m = room) /\
    Forall (fun r => covers (rc_Chat r) (in_room (rc_Chat r) rows) r /\ rc_Sender r = makeEventSender s (re_Sender evt) /\ rc_Type r = re_Type evt) receipts /\
    let '(b', ok) := handleSignalReceipt evt b in
    if ok then br_queued b' = br_queued b ++ map RReceipt receipts
    else exists sent e rest, map RReceipt receipts = sent ++ e :: rest /\ accepts e = false /\ br_queued b' = br_queued b ++ sent.
Proof.
  intros rows. set (M := convertReceipts (re_Timestamp evt) own_message).
  set (fill := fun '(chat, r) => mkReceipt (re_Type evt) chat (makeEventSender s (re_Sender evt)) (rc_LastTS r) (rc_LastID r) (rc_IDs r)).
  exists (map fill (range_receipts M)).
  assert (Hfst : map rc_Chat (map fill (range_receipts M)) = (range_receipts M).*1) by (rewrite map_map; apply map_ext; by intros [chat r]).
  assert (Hin : forall chat r, (chat, r) ∈ range_receipts M <-> M !! chat = Some r) by (intros chat r; by rewrite range_perm, elem_of_map_to_list).
  split_and!.
  - rewrite Hfst, range_perm. apply NoDup_fst_map_to_list.
  - intros room. rewrite Hfst, list_elem_of_fmap. pose proof (convertReceipts_spec own_message (re_Timestamp evt) room) as Hs. fold M rows in Hs. split.
    + intros ([chat r] & -> & Hr%Hin). cbn in *. rewrite Hr in Hs. destruct Hs as (_ & _ & m & Hm & _). unfold in_room in Hm.
      apply list_elem_of_filter in Hm as [Hroom Hm]. by exists m.
    + intros (m & Hm & Hroom). assert (Hm' : m ∈ in_room room rows) by (by apply list_elem_of_filter).
      destruct (M !! room) as [r|] eqn:Er; [by exists (room, r); rewrite Hin|]. cbn in Hs. rewrite Hs in Hm'. by apply not_elem_of_nil in Hm'.
  - apply Forall_forall. intros r' ([chat r] & -> & Hr%Hin)%list_elem_of_fmap. split_and!; [|done|done].
    pose proof (convertReceipts_spec own_message (re_Timestamp evt) chat) as Hs. fold M rows in Hs. rewrite Hr in Hs. destruct Hs as (_ & Hi & Hm). by split_and!.
  - unfold handleSignalReceipt, dispatchReceipts. fold M.
    assert (map RReceipt (map fill (range_receipts M)) = map (fun '(chat, r) => RReceipt (mkReceipt (re_Type evt) chat (makeEventSender s (re_Sender evt)) (rc_LastTS r) (rc_LastID r) (rc_IDs r)))
      (range_receipts M)) as -> by (rewrite map_map; apply map_ext; by intros [chat r]).
    pose proof (queue_all_spec (map (fun '(chat, r) => RReceipt (mkReceipt (re_Type evt) chat (makeEventSender s (re_Sender evt)) (rc_LastTS r) (rc_LastID r) (rc_IDs r)))
      (range_receipts M)) b) as Hq. destruct (queue_all _ b) as [b' ok]. by destruct Hq.
Qed.

(** Deletions stay with the user: only chats and messages that the sync
    message names, and only for the own account. *)
Lemma deletes_named evt e : e ∈ delete_events evt ->
  match e with
  | RChatDelete portal ts => ts = int64 (df_Timestamp evt) /\ exists cid, conversationIDToPortalKey cid = Some portal /\
      ((cid, true) ∈ df_ConversationDeletes evt \/ cid ∈ df_LocalOnlyConversationDeletes evt)
  | RMessageRemove portal ts id => ts = int64 (df_Timestamp evt) /\ exists cid ams am, conversationIDToPortalKey cid = Some portal /\
      (cid, ams) ∈ df_MessageDeletes evt /\ am ∈ ams /\ addressableMessageToID am = id /\ id <> []
  | _ => False
  end.
Proof.
  assert (Hcd : forall ts cid x, x ∈ chat_delete ts cid -> exists portal, conversationIDToPortalKey cid = Some portal /\ x = RChatDelete portal ts).
  { intros ts cid x. unfold chat_delete. destruct (conversationIDToPortalKey cid) as [portal|]; intros Hx; [|by apply not_elem_of_nil in Hx].
    exists portal. split; [done|by apply list_elem_of_singleton in Hx]. }
  unfold delete_events. rewrite !elem_of_app, !list_elem_of_In, !in_concat.
  intros [(l & Hl & He)|[(l & Hl & He)|(l & Hl & He)]]; apply in_map_iff in Hl as (x & <- & Hx); apply list_elem_of_In in Hx.
  - destruct x as [cid [|]]; [|done]. apply list_elem_of_In, Hcd in He as (portal & Hp & ->). split; [done|]. exists cid. split; [done|by left].
  - apply list_elem_of_In, Hcd in He as (portal & Hp & ->). split; [done|]. exists x. split; [done|by right].
  - destruct x as [cid ams]. unfold message_deletes in He. cbn in He. destruct (conversationIDToPortalKey cid) as [portal|] eqn:Ep; [|done].
    apply in_concat in He as (l' & Hl' & He). apply in_map_iff in Hl' as (am & <- & Ham). apply list_elem_of_In in Ham.
    destruct (beqb (addressableMessageToID am) []) eqn:Eid; [done|]. apply bool_decide_eq_false in Eid. destruct He as [<-|[]].
    split; [done|]. exists cid, ams, am. by split_and!.
Qed.
End Handlers.

(** ** Concrete events and witnesses *)
Module SampleEvents.
Import CanonicalUUID SampleConvert.

Definition login : ClientIDs := {| ci_SplitPortals := false; ci_UserLoginID := uuid_string me; ci_ACI := me |}.
Definition info (sender : UUID) (rev : Z) : MessageInfo := mkInfo sender (uuid_string sender) rev 7 (str "guid") (str "token").
Definition event (sender : UUID) (dm : DataMessage) : ChatEvent := mkChatEvent (info sender 0) (PlData dm).
Definition convert_event (evt : ChatEvent) (st : ConvState) :=
  ConvertMessage sample_user merge_caption login false true false (101 * day) no_failures no_failures evt st.
Definition edit_event (evt : ChatEvent) (rows : list MsgRow) (st : ConvState) :=
  ConvertEdit sample_user merge_caption login false true false (101 * day) no_failures no_failures evt rows st.


Definition secret : ChatEvent := event them (message None [photo] true).
Definition secret_parts : list Part := match convert_event secret start with (_, Ok cm) => cm_Parts cm | _ => [] end.
Lemma view_once_protected_witness : Forall (fun p => ec_ViewLimited (pp_Content p) = true) secret_parts /\ length secret_parts = 1%nat.
Proof.
  split; [|vm_compute; reflexivity]. apply Forall_forall. intros p Hp.
  assert (Hm : shows_media p).
  { left. vm_compute in Hp. apply list_elem_of_singleton in Hp as ->. reflexivity. }
  eapply (view_once_protected sample_user merge_caption login false true false (101 * day) no_failures no_failures merge_caption_from secret (message None [photo] true) start);
    [reflexivity|reflexivity|vm_compute; reflexivity| |exact Hm]. exact Hp.
Defined.

(** *** Edits *)
Definition chat : PortalKey := makePortalKey login (uuid_string them).
Definition row (part mxid : bytes) : MsgRow := mkRow chat (MakeMessageID them 5) part mxid 5 0 empty_metadata.
Definition at_time (ts : Z) (body : bytes) : DataMessage :=
  mkDataMessage (Some body) [] [] [] None None false None None None None 0 0 0 None false 0 ts None None None None None None None.
Definition an_edit : ChatEvent := mkChatEvent (info them 0) (PlEdit 5 (Some (at_time 9 (str "fixed")))).
Lemma edits_own_once_witness : exists ed st', edit_event an_edit [row [] (str "$a")] start = (st', Ok ed) /\ mr_MXID (ed_Row ed) = str "$a" /\
  forall st2, edit_event an_edit (rows_with (GetTargetMessage an_edit) (save_edit (row [] (str "$a")) ed [row [] (str "$a")])) st2 = (st2, Err IgnoringRemoteEvent).
Proof.
  destruct (edit_event an_edit [row [] (str "$a")] start) as [st' r] eqn:Ee. destruct r as [ed| |]; [|discriminate Ee..].
  exists ed, st'. split; [reflexivity|].
  destruct (edits_own_once sample_user merge_caption login false true false (101 * day) no_failures no_failures an_edit 5 (Some (at_time 9 (str "fixed")))
    [row [] (str "$a")] start st' ed eq_refl ltac:(done) Ee) as (_ & _ & r & Hr & _ & _ & _ & Hm & _ & _ & _ & Honce).
  apply list_elem_of_singleton in Hr as ->. split; [exact Hm|]. apply Honce; [reflexivity|]. vm_compute. discriminate.
Defined.

(** When the target had several parts, the same edit changes another part the second time. *)
Definition two_parts : list MsgRow := [row [] (str "$photo"); row (str "1") (str "$text")].
Lemma repeated_edit_hits_other_part :
  match edit_event an_edit (rows_with (GetTargetMessage an_edit) two_parts) start with
  | (_, Ok ed) => mr_MXID (ed_Row ed) = str "$text" /\
      match edit_event an_edit (rows_with (GetTargetMessage an_edit) (save_edit (row (str "1") (str "$text")) ed two_parts)) start with
      | (_, Ok ed2) => mr_MXID (ed_Row ed2) = str "$photo"
      | _ => False
      end
  | _ => False
  end.
Proof. vm_compute. split; reflexivity. Qed.

(** An edit whose content converts to nothing panics. *)
Definition no_content : DataMessage :=
  mkDataMessage None [] [] [] None None false None None None None 0 0 0 None false 0 9 None None None None None None None.
Lemma empty_edit_panics : (edit_event (mkChatEvent (info them 0) (PlEdit 5 (Some no_content))) [row [] (str "$a")] start).2 = Panic.
Proof. vm_compute. reflexivity. Qed.

(** A deletion by an admin names any author, and nothing is asked about the sender. *)
Definition admin_delete : DataMessage :=
  mkDataMessage None [] [] [] None None false None None None None 0 0 0 None false 0 9 None None None (Some (mkTarget (repeat x01 16) 5)) None None None.
Lemma admin_delete_of_others :
  GetType false (PlData admin_delete) = RemoteEventMessageRemove /\ GetTargetMessage (event them admin_delete) = MakeMessageID me 5.
Proof. split; vm_compute; reflexivity. Qed.

(** *** Receipts *)
Definition my_row (ts : Z) (room : bytes) : MsgRow := mkRow (makePortalKey login room) (MakeMessageID me ts) [] (str "$m") ts 0 empty_metadata.
Definition table (id : bytes) : option (option MsgRow) :=
  if beqb id (MakeMessageID me 1) then Some (Some (my_row 1 (str "a"))) else if beqb id (MakeMessageID me 3) then Some (Some (my_row 3 (str "a")))
  else if beqb id (MakeMessageID me 2) then Some (Some (my_row 2 (str "b"))) else Some None.
Definition a_receipt : Receipt := mkReceiptEvent them ReceiptREAD [3; 2; 8; 1].
Lemma receipts_delivered_witness : exists receipts, NoDup (map rc_Chat receipts) /\ length receipts = 2%nat /\
  br_queued (handleSignalReceipt login (fun _ => true) table (fun m => map_to_list m) a_receipt (mkBridge [] [])).1 = map RReceipt receipts.
Proof.
  destruct (receipts_delivered login (fun _ => true) table (fun m => map_to_list m) (fun m => reflexivity (map_to_list m)) a_receipt (mkBridge [] []))
    as (receipts & Hnd & _ & _ & H).
  exists receipts. split; [exact Hnd|].
  assert (Hq : length (br_queued (handleSignalReceipt login (fun _ => true) table (fun m => map_to_list m) a_receipt (mkBridge [] [])).1) = 2%nat) by (vm_compute; reflexivity).
  assert (Hok : (handleSignalReceipt login (fun _ => true) table (fun m => map_to_list m) a_receipt (mkBridge [] [])).2 = true) by (vm_compute; reflexivity).
  destruct (handleSignalReceipt _ _ _ _ _ _) as [b' ok]. cbn in Hok, Hq. subst ok. cbn in H. split; [|exact H]. rewrite H, length_map in Hq. exact Hq.
Defined.

(** *** Group changes *)
Import SampleView.
Definition members_at (rev : Z) : GroupChange :=
  mkGroupChange (str "master key") (NewACIServiceID alice) rev [] [] [] [] [] [] [] (Some (str "Team")) None None None None None [] [] [] None None [] [] [] None.
Definition group_message (rev : Z) : DataMessage :=
  mkDataMessage None [] [] [] None None false None None None None 0 0 0 None false 0 9 None None None None None None (Some (rev, Some (str "change"))).
Definition group_event (rev : Z) : ChatEvent := mkChatEvent (info them rev) (PlData (group_message rev)).
Definition history (from : Z) : option (list GroupChange) := Some [members_at (from + 1); members_at (from + 2)].

End SampleEvents.
