(* ===== verification/ConvertMatrix.v ===== *)
(** From Matrix messages to Signal messages ([pkg/msgconv/from-matrix.go],
    [urlpreview.go], [imagepack.go]).

    What [ToSignal] makes is what the converter of the other direction reads:
    the main theorem sends a text through both.  Downloads, uploads, ffmpeg and
    [url.Parse] are the class [SendWorld]; durations are whole milliseconds and
    not negative, so that their seconds are exact.  What the theorem needs of
    uploads and downloads is the class [Transfer], which [attachments_transfer]
    proves of the code in [Attachments]. *)
From S2P Require Import Prelude GoLib Crypto Attachments ServiceId SignalId MediaId RangeTree SignalFmt MatrixFmt ConvertSignal.

Definition VIEW_ONCE_VIDEO : Z := 3.
Definition BORDERLESS : Z := 2.
Definition maxInlineBodySize : nat := 2 * 1024.

Inductive matrix_msg_type := MxText | MxNotice | MxEmote | MxImage | MxVideo | MxAudio | MxFile | MxSticker | MxLocation | MxOther.
Record MatrixInfo := mkMatrixInfo {
  mi_MimeType : bytes;
  mi_Width : Z;
  mi_Height : Z;
  mi_Blurhash : bytes;
  mi_AnoaBlurhash : bytes;
  mi_MauGIF : bool;
  mi_BridgedSticker : option BridgedSticker
}.
Definition empty_info : MatrixInfo := mkMatrixInfo [] 0 0 [] [] false None.
Record LinkPreview := mkLinkPreview {
  lp_MatchedURL : bytes;
  lp_Title : bytes;
  lp_Description : bytes;
  lp_ImageURL : bytes;
  lp_ImageEncryption : option bytes;
  lp_ImageType : bytes;
  lp_ImageWidth : Z;
  lp_ImageHeight : Z
}.
Record MessageEventContent := mkMessageContent {
  mt_MsgType : matrix_msg_type;
  mt_Body : bytes;
  mt_FormattedBody : bytes;
  mt_IsHTML : bool;
  mt_Mentions : option (list bytes);
  mt_FileName : bytes;
  mt_Info : option MatrixInfo;
  mt_URL : bytes;
  mt_File : option bytes;
  mt_Voice : bool;
  mt_ViewLimited : bool;
  mt_GeoURI : bytes;
  mt_Previews : list LinkPreview;
  (** nanoseconds *)
  mt_DisappearingTimer : option Z
}.
(** The preview of a link as Signal has it. *)
Record Preview := mkPreview { pw_Url : bytes; pw_Title : bytes; pw_Description : bytes; pw_Date : Z; pw_Image : option AttachmentPointer }.
(** A message to send; its previews and the attachments of its quote are only counted by the receiver. *)
Record SignalMessage := mkSignal { sg_DM : DataMessage; sg_Previews : list Preview; sg_QuoteAttachments : nat }.

Inductive to_signal_error :=
| ErrUnsupportedViewLimitedType | ErrCaptionsNotAllowed | ErrMediaDownloadFailed | ErrMediaConvertFailed | ErrUnsupportedMediaType | ErrMediaReuploadFailed
| ErrUnsupportedMessageType | NoGeoPrefix | NotTwoNumbers.

Class SendWorld : Type := {
  DownloadMedia : bytes -> option bytes -> option bytes;
  UploadAttachment : bytes -> option AttachmentPointer;
  ffmpeg_ConvertBytes : bytes -> bytes -> bytes -> option bytes;
  variationselector_Remove : bytes -> bytes;
  (** [fmt.Sprintf] with the configured [LocationFormat] *)
  format_location : bytes -> bytes -> bytes;
  (** host, path and fragment *)
  url_Parse : bytes -> option (bytes * bytes * bytes)
}.

(** ** Sticker packs *)

(** [strings.Cut] at one byte. *)
Fixpoint cut_at (sep : byte) (s : bytes) : bytes * bytes :=
  match s with
  | [] => ([], [])
  | b :: s' => if bool_decide (b = sep) then ([], s') else let '(before, after) := cut_at sep s' in (b :: before, after)
  end.
(** [url.QueryUnescape] *)
Fixpoint QueryUnescape (s : bytes) : option bytes :=
  match s with
  | [] => Some []
  | b :: s' =>
      if bool_decide (b = x25) then
        match s' with
        | h :: l :: s'' => match CanonicalUUID.hexval h, CanonicalUUID.hexval l with
                           | Some h, Some l => cons (z2b (16 * h + l)) <$> QueryUnescape s''
                           | _, _ => None
                           end
        | _ => None
        end
      else cons (if bool_decide (b = x2b) then x20 else b) <$> QueryUnescape s'
  end.
(** [url.ParseQuery], which goes on after an error but reports it. *)
Definition parse_pair (p : bytes) : option (list (bytes * bytes)) :=
  if Strings.contains_byte x3b p then None
  else if beqb p [] then Some []
  else let '(k, v) := cut_at x3d p in
       match QueryUnescape k, QueryUnescape v with Some k, Some v => Some [(k, v)] | _, _ => None end.
Definition ParseQuery (query : bytes) : option (list (bytes * bytes)) := (fun l => concat l) <$> mapM parse_pair (Strings.split x26 query).
Definition query_Get (key : bytes) (q : list (bytes * bytes)) : bytes := default [] (snd <$> find (fun kv => beqb kv.1 key) q).
(** [hex.DecodeString] *)
Fixpoint hex_decode (s : bytes) : option bytes :=
  match s with
  | [] => Some []
  | h :: l :: s' => match CanonicalUUID.hexval h, CanonicalUUID.hexval l with
                    | Some h, Some l => cons (z2b (16 * h + l)) <$> hex_decode s'
                    | _, _ => None
                    end
  | _ => None
  end.

Definition PackURLLength : nat := length (PackURLFormat (repeat x00 PackIDLength) (repeat x00 PackKeyLength)).

Section ToSignal.
Context `{S : SendWorld} `{W : MediaWorld} `{H : HTMLEnv} `{U : UUIDLib}.
(** The own account, and the time in milliseconds. *)
Context (ownACI : UUID) (now : Z).

Definition parsePackURL (rawURL : bytes) : option (bytes * bytes) :=
  match url_Parse rawURL with
  | Some (host, path, fragment) =>
      if negb (beqb host (str "signal.art")) || negb (Strings.has_prefix (str "/addstickers") path) then None
      else
        match ParseQuery fragment with
        | Some q => match hex_decode (query_Get (str "pack_id") q), hex_decode (query_Get (str "pack_key") q) with
                    | Some packID, Some packKey => Some (packID, packKey)
                    | _, _ => None
                    end
        | None => None
        end
  | None => None
  end.
Definition ParseStickerMeta (info : option BridgedSticker) : option Sticker :=
  match info with
  | Some info =>
      if negb (beqb (bs_Network info) StickerSourceID) || negb (length (bs_PackURL info) =? PackURLLength)%nat then None
      else
        match Decimal.parse_uint (bs_ID info) with
        | Ok stickerID =>
            if 2 ^ 32 <=? stickerID then None
            else
              match parsePackURL (bs_PackURL info) with
              | Some (packID, packKey) =>
                  if negb (length packID =? PackIDLength)%nat || negb (length packKey =? PackKeyLength)%nat || beqb packID zeroPackID then None
                  else Some (mkSticker packID packKey stickerID (bs_Emoji info) None)
              | None => None
              end
        | _ => None
        end
  | None => None
  end.

(** ** Parts of a message *)
Definition set_file (flags : Z) (mime name : bytes) (width height : Z) (blurHash : bytes) (a : AttachmentPointer) : AttachmentPointer :=
  mkAttachment (at_hasIdentifier a) (at_ClientUuid a) mime name (at_Size a) width height flags (at_Caption a) blurHash (at_CdnId a) (at_CdnKey a) (at_CdnNumber a)
    (at_Key a) (at_Digest a).
(** An image that cannot be fetched or sent is left out of its preview. *)
Definition convertURLPreview (p : LinkPreview) : Preview :=
  let image :=
    if negb (beqb (lp_ImageURL p) []) || isSome (lp_ImageEncryption p) then
      match DownloadMedia (lp_ImageURL p) (lp_ImageEncryption p) ≫= UploadAttachment with
      | Some a => Some (set_file (at_Flags a) (lp_ImageType p) (at_FileName a) (uint32 (lp_ImageWidth p)) (uint32 (lp_ImageHeight p)) (at_BlurHash a) a)
      | None => None
      end
    else None in
  mkPreview (lp_MatchedURL p) (lp_Title p) (lp_Description p) (uint64 now) image.
Definition convertURLPreviewToSignal (content : MessageEventContent) : list Preview := map convertURLPreview (mt_Previews content).

(** The data to upload, its MIME type and its name. *)
Definition convert_media (isSticker : bool) (content : MessageEventContent) (data mime name : bytes) : outcome to_signal_error (bytes * bytes * bytes) :=
  if mt_Voice content && negb (beqb mime (str "audio/aac")) && ffmpeg_Supported then
    match ffmpeg_ConvertBytes data (str ".aac") mime with
    | Some data => Ok (data, str "audio/aac", name ++ str ".aac")
    | None => Err ErrMediaConvertFailed
    end
  else if isSticker then
    if existsb (beqb mime) [str "image/webp"; str "image/png"; str "image/apng"] then Ok (data, mime, name)
    else if beqb mime (str "image/gif") then
      if negb ffmpeg_Supported then Err ErrUnsupportedMediaType
      else match ffmpeg_ConvertBytes data (str ".apng") mime with
           | Some data => Ok (data, str "image/apng", name ++ str ".apng")
           | None => Err ErrMediaConvertFailed
           end
    else Err ErrUnsupportedMediaType
  else Ok (data, mime, name).
Definition convertFileToSignal (isSticker : bool) (content : MessageEventContent) : outcome to_signal_error AttachmentPointer :=
  let info := default empty_info (mt_Info content) in
  match DownloadMedia (mt_URL content) (mt_File content) with
  | None => Err ErrMediaDownloadFailed
  | Some data =>
      let fileName := if beqb (mt_FileName content) [] then mt_Body content else mt_FileName content in
      let mime := if beqb (mi_MimeType info) [] then DetectContentType data else mi_MimeType info in
      let! (data, mime, fileName) := convert_media isSticker content data mime fileName in
      match UploadAttachment data with
      | None => Err ErrMediaReuploadFailed
      | Some att =>
          let flags := if mt_Voice content && beqb mime (str "audio/aac") then VOICE_MESSAGE else at_Flags att in
          let flags := if mi_MauGIF info then GIF else flags in
          let blurHash := if negb (beqb (mi_Blurhash info) []) then mi_Blurhash info
                          else if negb (beqb (mi_AnoaBlurhash info) []) then mi_AnoaBlurhash info else at_BlurHash att in
          Ok (set_file flags mime fileName (uint32 (mi_Width info)) (uint32 (mi_Height info)) blurHash att)
      end
  end.

Definition parseGeoURI (uri : bytes) : outcome to_signal_error (bytes * bytes) :=
  if negb (Strings.has_prefix (str "geo:") uri) then Err NoGeoPrefix
  else
    let coordinates := default [] (head (Strings.split x3b (Strings.trim_prefix (str "geo:") uri))) in
    match Strings.split x2c coordinates with
    | [lat; long] => Ok (lat, long)
    | _ => Err NotTwoNumbers
    end.

Definition StoryContextFor (id : bytes) (meta : MessageMetadata) : option StoryContext :=
  if negb (md_IsStory meta) then None
  else match ParseMessageID id with
       | Ok (author, ts) => if bool_decide (author = ownACI) then None else Some (mkStoryContext [] (Some (fixed_bytes author)) ts)
       | _ => None
       end.

(** [utf8.RuneStart] *)
Definition RuneStart (b : byte) : bool := negb (Z.land (b2z b) 192 =? 128).
(** The loop that moves the cut back to the start of a rune; [None] is an index below zero. *)
Fixpoint rune_cut (body : bytes) (cut : nat) : option nat :=
  match body !! cut with
  | Some b => if RuneStart b then Some cut else match cut with O => None | Datatypes.S cut => rune_cut body cut end
  | None => None
  end.
Definition set_ContentType (mime : bytes) (a : AttachmentPointer) : AttachmentPointer :=
  set_file (at_Flags a) mime (at_FileName a) (at_Width a) (at_Height a) (at_BlurHash a) a.
(** The body to send and the attachments with the long text in front. *)
Definition uploadLongText (body : option bytes) (atts : list AttachmentPointer) : outcome to_signal_error (option bytes * list AttachmentPointer) :=
  match body with
  | None => Ok (body, atts)
  | Some text =>
      if (length text <=? maxInlineBodySize)%nat then Ok (body, atts)
      else
        match UploadAttachment text with
        | None => Err ErrMediaReuploadFailed
        | Some att =>
            match rune_cut text maxInlineBodySize with
            | Some cut => Ok (Some (take cut text), set_ContentType LongTextContentType att :: atts)
            | None => Panic
            end
        end
  end.

(** ** The whole message *)
Definition no_error {E A : Type} (m : outcome Empty_set A) : outcome E A := match m with Ok a => Ok a | Err e => match e with end | Panic => Panic end.
Definition me_prefix (relaybotFormatted : bool) (content : MessageEventContent) (text : bytes) : bytes :=
  match mt_MsgType content with MxEmote => if relaybotFormatted then text else str "/me " ++ text | _ => text end.
Definition formatted_text (relaybotFormatted : bool) (content : MessageEventContent) : outcome Empty_set (bytes * list ProtoRange) :=
  matrixfmt_Parse (mkMC (mt_IsHTML content) (me_prefix relaybotFormatted content (mt_Body content))
    (if beqb (mt_FormattedBody content) [] then [] else me_prefix relaybotFormatted content (mt_FormattedBody content)) (mt_Mentions content)).
Definition has_caption (content : MessageEventContent) : bool :=
  negb (beqb (mt_FileName content) []) && (negb (beqb (mt_FileName content) (mt_Body content)) || mt_IsHTML content).
Definition set_at_flags (flags : Z) (a : AttachmentPointer) : AttachmentPointer :=
  set_file flags (at_ContentType a) (at_FileName a) (at_Width a) (at_Height a) (at_BlurHash a) a.
(** A sticker that is not from Signal. *)
Definition own_sticker (content : MessageEventContent) : Sticker :=
  mkSticker (repeat x00 PackIDLength) (repeat x00 PackKeyLength) 0
    (if (length (Unicode.runes (mt_Body content)) =? 1)%nat then variationselector_Remove (mt_Body content) else []) None.
Definition with_name (name : bytes) (c : MessageEventContent) : MessageEventContent :=
  mkMessageContent (mt_MsgType c) (mt_Body c) (mt_FormattedBody c) (mt_IsHTML c) (mt_Mentions c) name (mt_Info c) (mt_URL c) (mt_File c) (mt_Voice c) (mt_ViewLimited c)
    (mt_GeoURI c) (mt_Previews c) (mt_DisappearingTimer c).

Definition as_sticker (c : MessageEventContent) : MessageEventContent :=
  mkMessageContent MxSticker (mt_Body c) (mt_FormattedBody c) (mt_IsHTML c) (mt_Mentions c) (mt_FileName c) (mt_Info c) (mt_URL c) (mt_File c) (mt_Voice c) (mt_ViewLimited c)
    (mt_GeoURI c) (mt_Previews c) (mt_DisappearingTimer c).

(** Body, ranges, attachments and sticker.  The info of a sticker without a file
    name is read without a check. *)
Definition convert_content (isSticker : bool) (content : MessageEventContent) (body : bytes) (bodyRanges : list ProtoRange) :
  outcome to_signal_error (option bytes * list ProtoRange * list AttachmentPointer * option Sticker) :=
  match mt_MsgType content with
  | MxText | MxNotice | MxEmote => Ok (Some body, bodyRanges, [], None)
  | MxImage | MxVideo | MxAudio | MxFile =>
      let! att := convertFileToSignal isSticker content in
      Ok (if has_caption content then (Some body, bodyRanges, [att], None) else (None, [], [att], None))
  | MxSticker =>
      let! content :=
        if beqb (mt_FileName content) [] then
          match mt_Info content with Some info => Ok (with_name (str "sticker" ++ ExtensionFromMimetype (mi_MimeType info)) content) | None => Panic end
        else Ok content in
      let! att := convertFileToSignal isSticker content in
      let st := default (own_sticker content) (ParseStickerMeta (mt_Info content ≫= mi_BridgedSticker)) in
      Ok (None, [], [], Some (mkSticker (st_PackId st) (st_PackKey st) (st_StickerId st) (st_Emoji st) (Some (set_at_flags BORDERLESS att))))
  | MxLocation => let! (lat, lon) := parseGeoURI (mt_GeoURI content) in Ok (Some (format_location lat lon), [], [], None)
  | MxOther => Err ErrUnsupportedMessageType
  end.

(** The message that is answered: as a story or with a quote. *)
Definition reply_fields (replyTo : option (bytes * MessageMetadata)) : option StoryContext * option Quote * nat :=
  match replyTo with
  | None => (None, None, O)
  | Some (id, meta) =>
      match StoryContextFor id meta, ParseMessageID id with
      | Some sx, _ => (Some sx, None, O)
      | None, Ok (author, ts) => (None, Some (mkQuote [] (Some (fixed_bytes author)) ts), if md_ContainsAttachments meta then 1%nat else O)
      | None, _ => (None, None, O)
      end
  end.
Definition expire_timer (timer : option Z) (portalTimer : Z) : Z :=
  match timer with Some t => uint32 (t / Second) | None => if 0 <? portalTimer then uint32 (portalTimer / Second) else 0 end.

(** The timer of the portal is in nanoseconds. *)
Definition ToSignal (isSticker : bool) (content : MessageEventContent) (relaybotFormatted : bool) (replyTo : option (bytes * MessageMetadata))
  (portalTimer portalTimerVersion : Z) : outcome to_signal_error SignalMessage :=
  if mt_ViewLimited content && isSome replyTo then Err ErrUnsupportedViewLimitedType
  else if mt_ViewLimited content && has_caption content then Err ErrCaptionsNotAllowed
  else
    let content := if isSticker then as_sticker content else content in
    let previews := convertURLPreviewToSignal content in
    let '(story, quote, quoted) := reply_fields replyTo in
    let timer := expire_timer (mt_DisappearingTimer content) portalTimer in
    let version := if negb (timer =? 0) && (0 <? portalTimerVersion) then Some portalTimerVersion else None in
    let! (body, bodyRanges) := no_error (formatted_text relaybotFormatted content) in
    let! (body, bodyRanges, atts, sticker) := convert_content isSticker content body bodyRanges in
    let viewOnce := mt_ViewLimited content in
    let '(body, bodyRanges, previews) := if viewOnce then (None, [], []) else (body, bodyRanges, previews) in
    let! (body, atts) := uploadLongText body atts in
    Ok (mkSignal
      (mkDataMessage body bodyRanges atts [] sticker None false None None None quote (length previews) 0 timer version viewOnce
         (if viewOnce then VIEW_ONCE_VIDEO else 0) 0 None story None None None None None) previews quoted).
End ToSignal.

(** ** Cutting long texts *)
Lemma RuneStart_range b : RuneStart b = negb ((128 <=? b2z b) && (b2z b <? 192)).
Proof. by destruct b; vm_compute. Qed.

Lemma encode_rune_shape r : Unicode.is_scalar r = true ->
  exists b cs, Unicode.encode_rune r = b :: cs /\ RuneStart b = true /\ Forall (fun c => RuneStart c = false) cs /\ (length cs <= 3)%nat.
Proof.
  intros Hs. assert (Hr : 0 <= r < 1114112) by (unfold Unicode.is_scalar in Hs; lia).
  assert (Hc : forall z, RuneStart (z2b (128 + z mod 64)) = false) by (intros z; rewrite RuneStart_range, b2z_z2b by lia; lia).
  unfold Unicode.encode_rune. rewrite Hs. cbn [negb].
  destruct (Z.ltb_spec r 128); [|destruct (Z.ltb_spec r 2048); [|destruct (Z.ltb_spec r 65536)]].
  all: do 2 eexists; split; [reflexivity|]; split; [rewrite RuneStart_range, b2z_z2b by lia; lia|]; split; [repeat constructor; apply Hc|cbn; lia].
Qed.

(** The rune that holds a position. *)
Lemma rune_at rs : Forall (fun r => Unicode.is_scalar r = true) rs -> forall n, (n < length (Unicode.string_of_runes rs))%nat ->
  exists rs1 r rs2, rs = rs1 ++ r :: rs2 /\ (length (Unicode.string_of_runes rs1) <= n < length (Unicode.string_of_runes rs1) + length (Unicode.encode_rune r))%nat.
Proof.
  unfold Unicode.string_of_runes. induction 1 as [|r rs Hr Hrs IH]; intros n; cbn [map concat]; [cbn; lia|]. rewrite length_app. intros Hn.
  destruct (decide (n < length (Unicode.encode_rune r))%nat) as [Hlt|Hge].
  - exists [], r, rs. split; [done|]. cbn. lia.
  - destruct (IH (n - length (Unicode.encode_rune r))%nat) as (rs1 & r' & rs2 & -> & Hb); [lia|].
    exists (r :: rs1), r', rs2. split; [done|]. cbn [map concat]. rewrite length_app. lia.
Qed.

Lemma string_of_runes_app rs1 rs2 : Unicode.string_of_runes (rs1 ++ rs2) = Unicode.string_of_runes rs1 ++ Unicode.string_of_runes rs2.
Proof. unfold Unicode.string_of_runes. by rewrite map_app, concat_app. Qed.

Lemma rune_cut_start body cut b : body !! cut = Some b -> RuneStart b = true -> rune_cut body cut = Some cut.
Proof. intros Hb Hs. destruct cut; cbn [rune_cut]; by rewrite Hb, Hs. Qed.
Lemma rune_cut_step body cut c : body !! Datatypes.S cut = Some c -> RuneStart c = false -> rune_cut body (Datatypes.S cut) = rune_cut body cut.
Proof. intros Hb Hs. cbn [rune_cut]. by rewrite Hb, Hs. Qed.
Lemma rune_cut_back pre b cs post : RuneStart b = true -> Forall (fun c => RuneStart c = false) cs ->
  forall k, (k <= length cs)%nat -> rune_cut (pre ++ b :: cs ++ post) (length pre + k) = Some (length pre).
Proof.
  intros Hb Hcs. induction k as [|k IH]; intros Hk.
  - rewrite Nat.add_0_r. apply (rune_cut_start _ _ b); [|done]. by rewrite lookup_app_r, Nat.sub_diag by lia.
  - rewrite Nat.add_succ_r. destruct (cs !! k) as [c|] eqn:Ek; [|apply lookup_ge_None in Ek; lia]. rewrite (rune_cut_step _ _ c); [apply IH; lia| |].
    + rewrite lookup_app_r by lia. replace (Datatypes.S (length pre + k) - length pre)%nat with (Datatypes.S k) by lia.
      change ((cs ++ post) !! k = Some c). rewrite lookup_app_l by lia. done.
    + exact (proj1 (Forall_lookup _ _) Hcs k c Ek).
Qed.

(** A valid text is cut after a whole rune, at most three bytes before the limit. *)
Lemma rune_cut_valid text n : Unicode.valid_utf8 text -> (n < length text)%nat ->
  exists cut, rune_cut text n = Some cut /\ (cut <= n <= cut + 3)%nat /\ Unicode.valid_utf8 (take cut text).
Proof.
  intros (rs & Hrs & ->) Hn. destruct (rune_at rs Hrs n Hn) as (rs1 & r & rs2 & -> & Hb).
  apply Forall_app in Hrs as [Hrs1 Hr]. apply Forall_cons in Hr as [Hr _].
  destruct (encode_rune_shape r Hr) as (b & cs & E & Hst & Hcs & Hlen). rewrite E in Hb. cbn [length] in Hb.
  assert (Hs : Unicode.string_of_runes (rs1 ++ r :: rs2) = Unicode.string_of_runes rs1 ++ b :: cs ++ Unicode.string_of_runes rs2).
  { rewrite string_of_runes_app. unfold Unicode.string_of_runes at 2. cbn [map concat]. by rewrite E. }
  exists (length (Unicode.string_of_runes rs1)). rewrite Hs. split_and!; [|lia|lia|].
  - replace n with (length (Unicode.string_of_runes rs1) + (n - length (Unicode.string_of_runes rs1)))%nat by lia. apply rune_cut_back; [done..|lia].
  - rewrite take_app_length. by exists rs1.
Qed.

(** ** Sticker packs survive the way through Matrix *)
Definition hex (l : bytes) : bytes := concat (map CanonicalUUID.hex_byte l).
(** Lower case hexadecimal digits. *)
Definition hex_char (b : byte) : bool := let z := b2z b in (48 <=? z) && (z <=? 57) || (97 <=? z) && (z <=? 102).

Lemma hex_decode_hex l : hex_decode (hex l) = Some l.
Proof.
  unfold hex. induction l as [|b l IH]; [done|]. cbn [map concat CanonicalUUID.hex_byte app hex_decode]. pose proof (b2z_range b).
  rewrite !CanonicalUUID.hexval_hexdigit by lia. rewrite IH. cbn. do 2 f_equal.
  replace (16 * (b2z b / 16) + b2z b mod 16) with (b2z b) by lia. apply z2b_b2z.
Qed.
Lemma hex_length l : length (hex l) = (2 * length l)%nat.
Proof. unfold hex. induction l as [|b l IH]; [done|]. cbn [map concat]. rewrite length_app, IH. cbn. lia. Qed.
Lemma hex_chars l : Forall (fun b => hex_char b = true) (hex l).
Proof.
  assert (Hd : forall d, 0 <= d < 16 -> hex_char (CanonicalUUID.hexdigit d) = true).
  { intros d Hd. unfold CanonicalUUID.hexdigit. destruct (Z.ltb_spec d 10); unfold hex_char; rewrite b2z_z2b by lia; lia. }
  unfold hex. induction l as [|b l IH]; [constructor|]. cbn [map concat]. pose proof (b2z_range b).
  apply Forall_app. split; [|done]. repeat constructor; apply Hd; lia.
Qed.
Lemma hex_no_byte c l : hex_char c = false -> c ∉ hex l.
Proof. intros Hc Hin. pose proof (proj1 (Forall_forall _ _) (hex_chars l) c Hin). cbn in *. congruence. Qed.

Lemma unescape_plain l : x25 ∉ l -> x2b ∉ l -> QueryUnescape l = Some l.
Proof.
  induction l as [|b l IH]; [done|]. rewrite !not_elem_of_cons. intros [H1 H2] [H3 H4]. cbn [QueryUnescape].
  rewrite !bool_decide_eq_false_2 by congruence. by rewrite IH.
Qed.
Lemma cut_at_app sep a b : sep ∉ a -> cut_at sep (a ++ sep :: b) = (a, b).
Proof.
  induction a as [|x a IH]; cbn [cut_at app]; [by rewrite bool_decide_eq_true_2|]. rewrite not_elem_of_cons. intros [H1 H2].
  rewrite bool_decide_eq_false_2 by congruence. by rewrite IH.
Qed.
Lemma parse_hex_pair key l : forallb (fun c => negb (existsb (Byte.eqb c) [x25; x2b; x3b; x3d])) key = true -> parse_pair (key ++ x3d :: hex l) = Some [(key, hex l)].
Proof.
  intros Hk. assert (Hkey : forall c, existsb (Byte.eqb c) [x25; x2b; x3b; x3d] = true -> c ∉ key).
  { intros c Hc Hin%list_elem_of_In. rewrite forallb_forall in Hk. specialize (Hk c Hin). cbn beta in Hk. by rewrite Hc in Hk. }
  unfold parse_pair, Strings.contains_byte. rewrite bool_decide_eq_false_2.
  2:{ rewrite elem_of_app, elem_of_cons. intros [H|[H|H]]; [by apply Hkey in H|done|by apply hex_no_byte in H]. }
  assert (beqb (key ++ x3d :: hex l) [] = false) as -> by (apply beqb_neq; by destruct key). rewrite cut_at_app by by apply Hkey.
  by rewrite !unescape_plain by first [by apply Hkey|by apply hex_no_byte].
Qed.

(** What [url.Parse] does to the links that are made for packs. *)
Class PackURLs (S : SendWorld) : Prop :=
  url_Parse_pack : forall id key, url_Parse (PackURLFormat id key) =
    Some (str "signal.art", str "/addstickers/", str "pack_id=" ++ hex id ++ str "&pack_key=" ++ hex key).

Section Packs.
Context `{SW : SendWorld} `{L : !PackURLs SW}.

Lemma pack_url_roundtrip id key : parsePackURL (PackURLFormat id key) = Some (id, key).
Proof.
  unfold parsePackURL. rewrite url_Parse_pack. change (negb (beqb (str "signal.art") (str "signal.art")) || negb (Strings.has_prefix (str "/addstickers") (str "/addstickers/"))) with false.
  cbn iota. assert (ParseQuery (str "pack_id=" ++ hex id ++ str "&pack_key=" ++ hex key) = Some [(str "pack_id", hex id); (str "pack_key", hex key)]) as ->.
  { unfold ParseQuery. replace (str "pack_id=" ++ hex id ++ str "&pack_key=" ++ hex key) with ((str "pack_id" ++ x3d :: hex id) ++ x26 :: (str "pack_key" ++ x3d :: hex key)) by (by rewrite <- app_assoc).
    rewrite Strings.split_app, Strings.split_no_sep; [cbn [mapM]; by rewrite !parse_hex_pair by reflexivity|..].
    all: rewrite elem_of_app, elem_of_cons; intros [H|[H|H]]; [apply (bool_decide_eq_true_2 _) in H; vm_compute in H; discriminate|done|by apply hex_no_byte in H]. }
  change (query_Get (str "pack_id") [(str "pack_id", hex id); (str "pack_key", hex key)]) with (hex id).
  change (query_Get (str "pack_key") [(str "pack_id", hex id); (str "pack_key", hex key)]) with (hex key). by rewrite !hex_decode_hex.
Qed.

(** What a sticker of Signal looks like on Matrix is enough to send it again. *)
Lemma sticker_meta_roundtrip st : length (st_PackId st) = PackIDLength -> length (st_PackKey st) = PackKeyLength -> st_PackId st <> zeroPackID -> in_width 32 (st_StickerId st) ->
  ParseStickerMeta (Some (bridged_sticker st)) = Some (mkSticker (st_PackId st) (st_PackKey st) (st_StickerId st) (st_Emoji st) None).
Proof.
  intros Hid Hkey Hne Hw. unfold in_width in Hw. cbn [ParseStickerMeta bridged_sticker bs_Network bs_PackURL bs_ID bs_Emoji]. rewrite beqb_refl.
  assert (length (PackURLFormat (st_PackId st) (st_PackKey st)) = PackURLLength) as Hl.
  { unfold PackURLLength, PackURLFormat. rewrite !length_app. fold (hex (st_PackId st)) (hex (st_PackKey st)). rewrite !hex_length, Hid, Hkey. reflexivity. }
  rewrite Hl, Nat.eqb_refl. cbn [negb orb]. unfold Decimal.itoa. replace (st_StickerId st <? 0) with false by lia.
  rewrite Decimal.parse_format_uint by (unfold in_width; lia). replace (2 ^ 32 <=? st_StickerId st) with false by lia.
  rewrite pack_url_roundtrip, Hid, Hkey, !Nat.eqb_refl. cbn [negb orb]. by rewrite (proj2 (beqb_neq _ _)).
Qed.
End Packs.

(** ** A text arrives as it was written *)
Definition set_Timestamp (ts : Z) (dm : DataMessage) : DataMessage :=
  mkDataMessage (dm_Body dm) (dm_BodyRanges dm) (dm_Attachments dm) (dm_Contact dm) (dm_Sticker dm) (dm_Payment dm) (dm_GiftBadge dm) (dm_PollCreate dm) (dm_PollVote dm)
    (dm_PollTerminate dm) (dm_Quote dm) (dm_Previews dm) (dm_Flags dm) (dm_ExpireTimer dm) (dm_ExpireTimerVersion dm) (dm_IsViewOnce dm) (dm_RequiredProtocolVersion dm) ts
    (dm_Reaction dm) (dm_StoryContext dm) (dm_Delete dm) (dm_AdminDelete dm) (dm_PinMessage dm) (dm_UnpinMessage dm) (dm_GroupV2 dm).

(** Whoever knows where an uploaded attachment is, how long it is and its keys can download it. *)
Definition same_file (a b : AttachmentPointer) : Prop :=
  at_hasIdentifier a = at_hasIdentifier b /\ at_CdnId a = at_CdnId b /\ at_CdnKey a = at_CdnKey b /\ at_CdnNumber a = at_CdnNumber b /\ at_Key a = at_Key b /\
  at_Digest a = at_Digest b /\ at_Size a = at_Size b.
Class Transfer (SW : SendWorld) (W : MediaWorld) : Prop := {
  upload_known : forall data att, in_width 32 (Z.of_nat (length data)) -> UploadAttachment data = Some att -> at_hasIdentifier att = true /\ at_Size att = Z.of_nat (length data);
  upload_downloads : forall data att att', in_width 32 (Z.of_nat (length data)) -> UploadAttachment data = Some att -> same_file att' att ->
    DownloadAttachmentWithPointer att' [] = inr data
}.

(** [attachments.go] keeps this promise, with a server that gives back what was
    uploaded last for a pointer. *)
Section Transfers.
Context `{C : CryptoLib} `{CL : !CryptoLaws C} `{R : Random} `{RL : !RandomLaws R} `{P : Pkcs7Lib} `{PL : !Pkcs7Laws P}.
Context (respond : list HTTPReq -> HTTPReq -> option HTTPResp) (upload_form : list HTTPReq -> option attachmentV4UploadAttributes) (padded_length : nat -> nat).
Context (get : bytes -> Z -> option CDNResponse) (into_file : bool).

Definition pointer_of (a : AttachmentPointer) : Attachments.AttachmentPointer := mkPointer (at_CdnId a) (at_CdnKey a) (at_Key a) (at_Digest a) (at_Size a) (at_CdnNumber a).
Definition attachment_of (p : Attachments.AttachmentPointer) : AttachmentPointer :=
  mkAttachment true [] [] [] (ap_Size p) 0 0 0 [] [] (ap_CdnId p) (ap_CdnKey p) (ap_CdnNumber p) (ap_Key p) (ap_Digest p).
Definition serves (hist : list HTTPReq) (p : Attachments.AttachmentPointer) : Prop :=
  forall req sent, last hist = Some req -> rq_Body req = Some sent ->
    get (getAttachmentPath 0 (ap_CdnKey p)) (ap_CdnNumber p) = Some (mkCDN 200 (Z.of_nat (length sent)) sent).

(** Uploads and downloads are those of [Attachments]. *)
Class Attached (SW : SendWorld) (W : MediaWorld) : Prop := {
  attached_upload : forall data att, UploadAttachment data = Some att -> exists hist draw cap hist' ptr draw',
    Attachments.UploadAttachment respond upload_form padded_length hist draw data cap = (hist', Ok (ptr, draw')) /\ att = attachment_of ptr /\ serves hist' ptr;
  attached_download : forall att data, Attachments.DownloadAttachmentWithPointer get (pointer_of att) None into_file = Ok data ->
    DownloadAttachmentWithPointer att [] = inr data
}.

Lemma upload_size hist draw data cap hist' ptr draw' :
  Attachments.UploadAttachment respond upload_form padded_length hist draw data cap = (hist', Ok (ptr, draw')) -> ap_Size ptr = uint32 (Z.of_nat (length data)) /\ ap_CdnId ptr = 0.
Proof.
  unfold Attachments.UploadAttachment. destruct (_ <? _)%nat; [done|]. destruct (macAndAESEncrypt _ _ _) as [[enc d]|e|]; [|done..].
  destruct (upload_form hist) as [attrs|]; [|done]. destruct (if ua_Cdn attrs =? 3 then _ else _) as [h []]; [|done]. by intros [= _ <- _].
Qed.

Lemma attachments_transfer `{A : !Attached SW W} : Transfer SW W.
Proof.
  split; intros data att.
  - intros Hw Hu. destruct (attached_upload data att Hu) as (hist & draw & cap & hist' & ptr & draw' & Hup & -> & _).
    apply upload_size in Hup as [Hsize _]. cbn. rewrite Hsize. by rewrite wrap_small by done.
  - intros att' Hw Hu Hs. destruct (attached_upload data att Hu) as (hist & draw & cap & hist' & ptr & draw' & Hup & -> & Hserve).
    destruct Hs as (_ & H1 & H2 & H3 & H4 & H5 & H6). cbn in H1, H2, H3, H4, H5, H6.
    destruct (upload_download _ _ _ _ _ _ _ _ _ _ Hw Hup) as (req & sent & Hl & Hb & Hd).
    apply attached_download. unfold pointer_of. rewrite H1, H2, H3, H4, H5, H6. destruct ptr. apply Hd. by eapply Hserve.
Qed.
End Transfers.

Section Received.
Context `{SW : SendWorld} `{W : MediaWorld} `{T : !Transfer SW W} `{H : HTMLEnv} `{E : FmtEnv} `{U : UUIDLib}.

Lemma uploaded_downloaded data att attr : in_width 32 (Z.of_nat (length data)) -> UploadAttachment data = Some att -> same_file attr att -> downloadAttachment attr None = Ok data.
Proof.
  intros Hw Hu Hs. destruct (upload_known data att Hw Hu) as [Hi _]. unfold downloadAttachment, checkIfAttachmentExists. destruct Hs as [Hs1 Hs2]. rewrite Hs1, Hi. cbn [obind].
  assert (plaintext_hash attr None = None) as -> by (unfold plaintext_hash; by destruct (to_fixed _ _)). cbn [default]. by rewrite (upload_downloads data att attr).
Qed.

(** The text that is sent inline: all of it, or a valid beginning of a long text. *)
Definition inline_of (text inline : bytes) : Prop :=
  if (length text <=? maxInlineBodySize)%nat then inline = text
  else (exists rest, text = inline ++ rest) /\ (maxInlineBodySize - 3 <= length inline <= maxInlineBodySize)%nat /\ Unicode.valid_utf8 inline.

(** A long text is sent as an attachment after a beginning of it, and the
    receiver puts it together again. *)
Lemma long_text_received DirectMedia text body atts : Unicode.valid_utf8 text -> Z.of_nat (length text) <= matrixTextMaxLength ->
  uploadLongText (Some text) [] = Ok (body, atts) ->
  convert_attachments DirectMedia false None atts body = ([], Some text) /\ exists inline, body = Some inline /\ inline_of text inline.
Proof.
  intros Hu Hl. assert (Hw : in_width 32 (Z.of_nat (length text))) by (unfold in_width, matrixTextMaxLength in *; lia). unfold uploadLongText, inline_of. destruct (Nat.leb_spec (length text) maxInlineBodySize) as [Hs|Hs].
  { intros [= <- <-]. split; [done|]. by exists text. }
  destruct (UploadAttachment text) as [att|] eqn:Ea; [|done].
  destruct (rune_cut_valid text maxInlineBodySize Hu Hs) as (cut & Hcut & Hb & Hv). rewrite Hcut. intros [= <- <-]. split.
  - cbn [convert_attachments set_ContentType set_file at_ContentType at_Size]. rewrite beqb_refl. cbn [negb orb].
    destruct (upload_known text att Hw Ea) as [_ Hz]. rewrite Hz. replace (matrixTextMaxLength <? Z.of_nat (length text)) with false by lia.
    unfold downloadSignalLongText. by rewrite (uploaded_downloaded text att).
  - exists (take cut text). split_and!; [done|exists (drop cut text); by rewrite take_drop|..|done]; rewrite length_take; lia.
Qed.

(** What the answered message is for the receiver. *)
Lemma reply_received `{UL : !UUIDLaws U} me id meta story quote n : reply_fields me (Some (id, meta)) = (story, quote, n) ->
  (exists author ts, id = MakeMessageID author ts /\ in_width 64 ts) ->
  match story with
  | Some sx => quote = None /\ exists author, story_author sx = Ok author /\ MakeMessageID author (sx_SentTimestamp sx) = id /\ author <> me
  | None => exists q author, quote = Some q /\ ParseStringOrBinaryUUID (qu_AuthorAci q) (qu_AuthorAciBinary q) = Ok author /\ MakeMessageID author (qu_Id q) = id
  end.
Proof.
  intros Hr (author & ts & -> & Hw). unfold reply_fields, StoryContextFor in Hr. rewrite message_id_roundtrip in Hr by done.
  assert (Hp : ParseStringOrBinaryUUID [] (Some (fixed_bytes author)) = Ok author) by (unfold ParseStringOrBinaryUUID; change (negb (beqb [] [])) with false; cbn iota; by rewrite fixed_length, to_fixed_bytes).
  destruct (md_IsStory meta); cbn [negb] in Hr; [|injection Hr as <- <- _; by exists (mkQuote [] (Some (fixed_bytes author)) ts), author].
  case_bool_decide; injection Hr as <- <- _; [by exists (mkQuote [] (Some (fixed_bytes author)) ts), author|].
  split; [done|]. exists author. by split_and!.
Qed.

(** The receiver: its names, its account and its configuration. *)
Context (GetUserInfo : UUID -> UserInfo) (MergeCaption : list Part -> list Part) (other : UUID) (ViewLimitedMedia ExtEvPolls DirectMedia : bool).
Context (now now' : Z) (read_fails update_fails : bytes -> bool).
Abbreviation received := (ToMatrix GetUserInfo MergeCaption other ViewLimitedMedia ExtEvPolls DirectMedia now' read_fails update_fails).

Definition is_text (content : MessageEventContent) : Prop := match mt_MsgType content with MxText | MxNotice | MxEmote => True | _ => False end.
Lemma ToSignal_text me content relay replyTo timer version sg body ranges : ToSignal me now false content relay replyTo timer version = Ok sg ->
  is_text content -> mt_ViewLimited content = false -> formatted_text relay content = Ok (body, ranges) ->
  exists inline atts story quote n, uploadLongText (Some body) [] = Ok (inline, atts) /\ reply_fields me replyTo = (story, quote, n) /\
    sg_DM sg = mkDataMessage inline ranges atts [] None None false None None None quote (length (mt_Previews content)) 0
      (expire_timer (mt_DisappearingTimer content) timer) (dm_ExpireTimerVersion (sg_DM sg)) false 0 0 None story None None None None None.
Proof.
  intros Hc Ht Hv Hf. unfold ToSignal in Hc. rewrite Hv, Hf in Hc. cbn [andb no_error obind] in Hc. destruct (reply_fields me replyTo) as [[story quote] n].
  assert (Hm : convert_content false content body ranges = Ok (Some body, ranges, [], None)) by (unfold is_text, convert_content in *; by destruct (mt_MsgType content)).
  rewrite Hm in Hc. cbn [obind] in Hc. destruct (uploadLongText (Some body) []) as [[inline atts]|e|]; [|done..]. cbn [obind] in Hc. injection Hc as <-.
  exists inline, atts, story, quote, n. split_and!; [done|done|]. cbn. unfold convertURLPreviewToSignal. by rewrite length_map.
Qed.

(** What is converted arrives as it was converted. *)
Lemma converted_received `{UL : !UUIDLaws U} (merge_one : forall p, MergeCaption [p] = [p]) me content relay replyTo timer version sg body ranges c ts s
  (Hc : ToSignal me now false content relay replyTo timer version = Ok sg) (Ht : is_text content) (Hv : mt_ViewLimited content = false)
  (Hf : formatted_text relay content = Ok (body, ranges)) (Hu : Unicode.valid_utf8 body) (Hl : Z.of_nat (length body) <= matrixTextMaxLength)
  (Hp : Parse GetUserInfo body ranges = Ok c)
  (Hid : forall id meta, replyTo = Some (id, meta) -> exists author t, id = MakeMessageID author t /\ in_width 64 t)
  (Hst : forall id meta, replyTo = Some (id, meta) -> md_IsStory meta = true -> storyBridged read_fails id s = true) :
  (exists inline, dm_Body (sg_DM sg) = Some inline /\ inline_of body inline) /\ dm_BodyRanges (sg_DM sg) = ranges /\
  exists p, received me (set_Timestamp ts (sg_DM sg)) None s =
      (s, Ok (mkConverted (fst <$> replyTo) [p] (base_disappear (sg_DM sg)))) /\
    dm_ExpireTimer (sg_DM sg) = expire_timer (mt_DisappearingTimer content) timer /\ pp_ID p = MakeMessagePartID 0 /\
    pp_Content p = mkEventContent MsgText (mc_Body c) (mc_FormattedBody c) None false None (length (mt_Previews content)) [] false.
Proof.
  destruct (ToSignal_text me content relay replyTo timer version sg body ranges Hc Ht Hv Hf) as (inline & atts & story & quote & n & Hup & Hr & Hdm).
  destruct (long_text_received DirectMedia body inline atts Hu Hl Hup) as [Hlong Hinline]. rewrite Hdm. split; [exact Hinline|]. split; [done|].
  set (v := dm_ExpireTimerVersion (sg_DM sg)). clearbody v.
  unfold ToMatrix, isExpirationUpdate, IsStoryReaction, convert_parts, view_once_disappear, quote_target, set_Timestamp.
  cbn [dm_Flags dm_Reaction]. rewrite Z.land_0_l. cbn. rewrite Hlong.
  unfold sbind, convertTextToMatrix, sbind, slift. cbn. rewrite Hp. cbn.
  destruct replyTo as [[id meta]|]; [|injection Hr as <- <- <-; cbn; rewrite merge_one; by eexists].
  pose proof (reply_received me id meta story quote n Hr (Hid id meta eq_refl)) as Hrep. destruct story as [sx|].
  - destruct Hrep as (-> & author & Ha & Hm & Hne). unfold applyStoryContext. rewrite Ha. cbn zeta. rewrite Hm.
    assert (Hstory : md_IsStory meta = true) by (unfold reply_fields, StoryContextFor in Hr; destruct (md_IsStory meta); [done|by repeat case_match]).
    rewrite (Hst id meta eq_refl Hstory). cbn. rewrite merge_one. by eexists.
  - destruct Hrep as (q & author & -> & Ha & Hm). rewrite Ha, Hm. cbn. rewrite merge_one. by eexists.
Qed.

(** What a user wrote: an emote is marked, unless the relay did so already. *)
Definition as_written (relay : bool) (content : MessageEventContent) : bytes :=
  match mt_MsgType content with MxEmote => if relay then mt_Body content else str "/me " ++ mt_Body content | _ => mt_Body content end.
(** The seconds of the message's own timer, or of the room's. *)
Definition timer_seconds (content : MessageEventContent) (timer : Z) : Z := uint32 (default (Z.max 0 timer) (mt_DisappearingTimer content) / Second).

Lemma valid_written relay content : Unicode.valid_utf8 (mt_Body content) -> Unicode.valid_utf8 (as_written relay content).
Proof.
  intros Hu. unfold as_written. destruct (mt_MsgType content); try done. destruct relay; [done|]. destruct Hu as (rs & Hrs & ->).
  exists (map b2z (str "/me ") ++ rs). split; [by apply Forall_app; split; [repeat constructor|]|]. by rewrite string_of_runes_app.
Qed.
Lemma plain_text relay content : mt_IsHTML content = false -> formatted_text relay content = Ok (as_written relay content, []).
Proof. intros Hh. unfold formatted_text, matrixfmt_Parse, me_prefix, as_written. cbn. rewrite Hh. by destruct (mt_MsgType content), relay. Qed.
Lemma expire_timer_seconds content timer : expire_timer (mt_DisappearingTimer content) timer = timer_seconds content timer.
Proof.
  unfold expire_timer, timer_seconds. destruct (mt_DisappearingTimer content); [done|]. cbn. destruct (Z.ltb_spec 0 timer).
  - by rewrite Z.max_r by lia.
  - by rewrite Z.max_l by lia.
Qed.


(** View-once photos and videos are sent alone, so that the receiver shows them. *)
Lemma sent_view_once_shown me content relay replyTo timer version sg ts : ToSignal me now false content relay replyTo timer version = Ok sg ->
  mt_ViewLimited content = true -> match mt_MsgType content with MxImage | MxVideo => True | _ => False end -> other <> me ->
  (forall a, a ∈ dm_Attachments (sg_DM sg) -> has_prefix (str "image/") (ParseMediaType (at_ContentType a)) || has_prefix (str "video/") (ParseMediaType (at_ContentType a)) = true) ->
  now' < int64 ts + Days45_ms ->
  dm_IsViewOnce (sg_DM sg) = true /\ view_once_unavailable other now' me (set_Timestamp ts (sg_DM sg)) = None.
Proof.
  intros Hc Hv Hm Hne Hmime Hnow. unfold ToSignal in Hc. rewrite Hv in Hc. destruct replyTo; [done|]. cbn [andb isSome] in Hc.
  destruct (has_caption content) eqn:Hcap; [done|]. cbn [reply_fields] in Hc. destruct (formatted_text relay content) as [[body ranges]|e|]; [|done..]. cbn [no_error obind] in Hc.
  unfold convert_content in Hc. assert (exists att, convertFileToSignal false content = Ok att /\ dm_Attachments (sg_DM sg) = [att] /\
    sg_DM sg = mkDataMessage None [] [att] [] None None false None None None None 0 0 (expire_timer (mt_DisappearingTimer content) timer) (dm_ExpireTimerVersion (sg_DM sg)) true VIEW_ONCE_VIDEO 0
      None None None None None None None) as (att & _ & Hatts & ->).
  { rewrite Hcap in Hc. destruct (mt_MsgType content); try done; (destruct (convertFileToSignal false content) as [att|e|]; [|done..]); cbn [obind uploadLongText] in Hc; injection Hc as <-; by exists att. }
  split; [done|]. unfold view_once_unavailable. cbn -[has_prefix str beqb]. rewrite bool_decide_eq_false_2 by congruence.
  replace (now' <? int64 ts + Days45_ms) with true by lia. cbn -[has_prefix str beqb]. rewrite beqb_refl. cbn -[has_prefix str beqb].
  specialize (Hmime att). rewrite Hatts in Hmime. specialize (Hmime (list_elem_of_here _ _)).
  destruct (beqb (ParseMediaType _) []); [done|]. by destruct (has_prefix (str "image/") _), (has_prefix (str "video/") _).
Qed.
End Received.

(** ** A concrete environment and witnesses *)
Module SampleMatrix.
Import CanonicalUUID SampleConvert.

#[export] Instance sample_send : SendWorld := {
  DownloadMedia url _ := if beqb url [] then None else Some url;
  UploadAttachment data := if beqb data [] then None
    else Some (mkAttachment true [] [] [] (Z.of_nat (length data)) 0 0 0 [] [] 7 data 2 (str "key") (Some (str "digest")));
  ffmpeg_ConvertBytes data _ _ := Some data;
  variationselector_Remove e := e;
  format_location lat lon := lat ++ str "," ++ lon;
  url_Parse url := let '(address, fragment) := cut_at x23 url in
    if Strings.has_prefix (str "https://signal.art/") address then Some (str "signal.art", drop 18 address, fragment) else None
}.
#[export] Instance sample_transfer : Transfer sample_send sample_media.
Proof.
  split; intros data att; cbn; destruct (beqb data []) eqn:Ed; try done.
  - by intros _ [= <-].
  - intros att' _ [= <-] (_ & _ & Hk & _). cbn in *. by rewrite Hk, Ed.
Qed.
#[export] Instance sample_packs : PackURLs sample_send.
Proof. intros id key. cbn. reflexivity. Qed.
#[export] Instance plain_html : HTMLEnv := {
  html_Parse s := DocumentNode [ElementNode (str "p") [] [TextNode s]];
  ParseMatrixUser _ := None;
  GetUUIDFromMXID _ := uuid_Nil;
  log10_digits num := Z.log2 num / 4 + 1
}.

Definition text (t : matrix_msg_type) (body : bytes) : MessageEventContent := mkMessageContent t body [] false None [] None [] None false false [] [] None.
Definition answered : bytes := MakeMessageID them 1700000000000.
Definition hour : Z := 3600 * Second.
Definition send (content : MessageEventContent) (replyTo : option (bytes * MessageMetadata)) : outcome to_signal_error SignalMessage :=
  ToSignal me 0 false content false replyTo hour 3.


(** A text of 3000 bytes that is cut inside a rune of two bytes. *)
Example long_text_sample :
  match send (text MxText (concat (repeat (str "ab") 1023) ++ str "c" ++ concat (repeat [xc3; xa4] 476))) None with
  | Ok sg => match dm_Body (sg_DM sg) with Some b => last b = Some x63 /\ length b = 2047%nat | None => False end /\ length (dm_Attachments (sg_DM sg)) = 1%nat
  | _ => False
  end.
Proof. vm_compute. auto. Qed.

(** A sticker of Signal is sent with its pack again. *)
Example sticker_sample :
  ParseStickerMeta (Some (bridged_sticker (mkSticker (repeat x01 16) (repeat xfe 32) 7 (str "x") None))) = Some (mkSticker (repeat x01 16) (repeat xfe 32) 7 (str "x") None).
Proof. vm_compute. reflexivity. Qed.

(** *** Behaviour worth knowing *)

(** The info of a sticker without a file name is not checked. *)
Lemma sticker_without_info_panics :
  ToSignal me 0 true (text MxText (str "sticker")) false None 0 0 = Panic.
Proof. vm_compute. reflexivity. Qed.
End SampleMatrix.
