(* ===== verification/MatrixEvents.v ===== *)
(** Matrix events on their way to Signal ([pkg/connector/handlematrix.go]).

    The handlers call the client, which is modelled elsewhere ([Sending],
    [SenderKeys], [GroupUpdate]); here its calls are recorded in order and the
    environment answers each of them, knowing the calls so far.  What the
    handlers send is what the handlers of the other direction ([ChatEvents],
    [ConvertSignal], [GroupView]) read: the theorems put both together. *)
From S2P Require Import Prelude GoLib ServiceId SignalId MediaId Crypto Storage ChatSettings RecipientStore StorageSync Groups GroupCache RangeTree SignalFmt MatrixFmt GroupView ConvertSignal ChatEvents ConvertMatrix.

Definition REACTIONS : Z := 4.
Definition POLLS : Z := 8.

(** ** What is sent *)
Inductive response_type := MrACCEPT | MrDELETE | MrBLOCK | MrBLOCK_AND_SPAM | MrSPAM.
Inductive content :=
| CData (msg : SignalMessage)
| CEdit (targetSentTimestamp : Z) (msg : SignalMessage)
| CReceipt (type : receipt_type) (timestamps : list Z)
| CTyping (started : bool)
| CProfileKeyUpdate (profileKey : bytes) (timestamp : Z) (pniSignature : option (UUID * bytes))
| CDeleteForMe (conversation : ConversationIdentifier) (mostRecentMessages : list AddressableMessage)
| CMessageRequestResponse (type : response_type) (groupID : option (fixed 32)) (threadAci : option UUID).
Definition only (dm : DataMessage) : SignalMessage := mkSignal dm [] 0.

(** Calls of the client and of the Matrix side. *)
Inductive client_call :=
| SendMessage (recipient : ServiceID) (c : content)
| SendGroupMessage (groupID : bytes) (c : content)
| UpdateGroup (change : GroupChange) (groupID : bytes)
| UploadGroupAvatar (data : bytes) (groupID : bytes)
| ReportSpam (aci : UUID) (serverGUID reportingToken : bytes)
| EnsureJoined (user : bytes).
(** A send that was not successful may have an error. *)
Inductive sent_result := Sent | NotSent (hasError : bool).
Inductive group_result := GroupFailed | GroupSent (successful failed : nat).

(** A row of the message table with its sender and what it answers. *)
Record DbMessage := mkDb { db_Row : MsgRow; db_SenderID : bytes; db_ReplyTo : option bytes }.
#[local] Instance metadata_dec : EqDecision MessageMetadata. Proof. solve_decision. Defined.
#[local] Instance msg_row_dec : EqDecision MsgRow. Proof. solve_decision. Defined.
#[local] Instance db_message_dec : EqDecision DbMessage. Proof. solve_decision. Defined.

Record Portal := mkPortal {
  po_Key : PortalKey;
  po_IsDM : bool;
  po_Revision : Z;
  po_Name : bytes;
  po_Topic : bytes;
  po_AvatarID : bytes;
  po_AvatarMXC : bytes;
  po_AvatarHash : bytes;
  (** the three [Set] flags *)
  po_NameSet : bool;
  po_TopicSet : bool;
  po_AvatarSet : bool;
  po_Disappear : Disappear;
  po_ExpirationTimerVersion : Z
}.
Definition set_meta (f : Z * bytes * bool * bytes * bool * bytes * bool -> Z * bytes * bool * bytes * bool * bytes * bool) (p : Portal) : Portal :=
  let '(rev, name, nameSet, topic, topicSet, avatar, avatarSet) := f (po_Revision p, po_Name p, po_NameSet p, po_Topic p, po_TopicSet p, po_AvatarID p, po_AvatarSet p) in
  mkPortal (po_Key p) (po_IsDM p) rev name topic avatar (po_AvatarMXC p) (po_AvatarHash p) nameSet topicSet avatarSet (po_Disappear p) (po_ExpirationTimerVersion p).
Definition set_revision (rev : Z) (p : Portal) : Portal := set_meta (fun '(_, n, ns, t, ts, a, as_) => (rev, n, ns, t, ts, a, as_)) p.
Definition set_disappear (d : Disappear) (p : Portal) : Portal :=
  mkPortal (po_Key p) (po_IsDM p) (po_Revision p) (po_Name p) (po_Topic p) (po_AvatarID p) (po_AvatarMXC p) (po_AvatarHash p) (po_NameSet p) (po_TopicSet p) (po_AvatarSet p) d
    (po_ExpirationTimerVersion p).
Definition set_avatar_file (mxc hash : bytes) (p : Portal) : Portal :=
  mkPortal (po_Key p) (po_IsDM p) (po_Revision p) (po_Name p) (po_Topic p) (po_AvatarID p) mxc hash (po_NameSet p) (po_TopicSet p) (po_AvatarSet p) (po_Disappear p)
    (po_ExpirationTimerVersion p).

(** The portal of the event, the message table, the recipients, messages whose
    echo is ignored, and the calls so far. *)
Record MxState := mkMx { mx_portal : Portal; mx_table : list DbMessage; mx_recipients : RecipientStore; mx_pending : list bytes; mx_calls : list client_call }.
Definition mx_set_portal (p : Portal) (s : MxState) : MxState := mkMx p (mx_table s) (mx_recipients s) (mx_pending s) (mx_calls s).
Definition mx_set_table (t : list DbMessage) (s : MxState) : MxState := mkMx (mx_portal s) t (mx_recipients s) (mx_pending s) (mx_calls s).
Definition mx_set_recipients (r : RecipientStore) (s : MxState) : MxState := mkMx (mx_portal s) (mx_table s) r (mx_pending s) (mx_calls s).
Definition mx_add_pending (id : bytes) (s : MxState) : MxState := mkMx (mx_portal s) (mx_table s) (mx_recipients s) (mx_pending s ++ [id]) (mx_calls s).
Definition mx_call (c : client_call) (s : MxState) : MxState := mkMx (mx_portal s) (mx_table s) (mx_recipients s) (mx_pending s) (mx_calls s ++ [c]).

Inductive mx_error :=
| BadID (e : id_error) | ConversionFailed (e : to_signal_error) | SendFailed | ErrEditsNotSupported | EditOthersMessage | DeleteOthersMessage | ErrViewLimitedType
| ReplyLookupFailed | MessagesLookupFailed | InviteToDM | NeedsACI | UnsupportedMembership | GhostLookupFailed | JoinFailed | UnsupportedDisappearingType
| MemberInfoFailed | UnknownPollAnswer | InvalidPortalID | ProfileKeyFailed | SignatureFailed | NonDMBlockUser | NothingToReport | AvatarDownloadFailed
| RecipientFailed (e : recipient_error).
Definition mx_m (A : Type) : Type := stateE MxState mx_error A.
Definition modify (f : MxState -> MxState) : mx_m unit := fun s => (f s, Ok tt).
Definition ids {A : Type} (m : outcome id_error A) : mx_m A := slift (wrap_err BadID m).

(** What the environment answers. *)
Class MxWorld : Type := {
  answer_send : list client_call -> sent_result;
  answer_group : list client_call -> group_result;
  answer_update : list client_call -> option Z;
  (** the path of the uploaded avatar *)
  answer_upload : list client_call -> option bytes;
  (** whether a call that only returns an error succeeded *)
  answer_plain : list client_call -> bool;
  (** queries of the message table; [None] is an error *)
  GetMessagesBetweenTimeQuery : PortalKey -> Z -> Z -> option (list DbMessage);
  GetLastNInPortal : PortalKey -> nat -> option (list DbMessage);
  GetFirstOrSpecificPartByID : bytes -> option (option (bytes * MessageMetadata));
  (** whether saving an edit or a vote works *)
  db_saves : bool;
  FullyQualify : bytes -> bytes;
  DownloadAvatar : bytes -> option bytes;
  (** a map in the order Go ranges over it *)
  range_targets : gmap UUID (list Z) -> list (UUID * list Z)
}.

(** ** Handlers *)

(** What the events have in common: [InputTransactionID], the timestamp and whether a relay sent it. *)
Record MatrixEvent := mkEvent { ev_TransactionID : bytes; ev_Timestamp : Z; ev_Relayed : bool }.

Section Handlers.
Context `{MW : MxWorld} `{SW : SendWorld} `{W : MediaWorld} `{H : HTMLEnv} `{U : UUIDLib} `{C : CryptoLib}.
(** The login and the time in milliseconds. *)
Context (s : ClientIDs) (now : Z).

Definition ask {A : Type} (c : client_call) (answer : list client_call -> A) : mx_m A := fun st => let st := mx_call c st in (st, Ok (answer (mx_calls st))).
Definition must {A : Type} (e : mx_error) (o : option A) : mx_m A := slift (match o with Some a => Ok a | None => Err e end).
Definition portal : mx_m Portal := fun st => (st, Ok (mx_portal st)).
Definition change_portal (f : Portal -> Portal) : mx_m unit := modify (fun st => mx_set_portal (f (mx_portal st)) st).

Definition sendMessage (portalID : bytes) (c : content) : mx_m unit :=
  let* parsed := ids (ParsePortalID portalID) in
  let '(userID, groupID) := parsed in
  if negb (beqb groupID []) then
    let* r := ask (SendGroupMessage groupID c) answer_group in
    match r with
    | GroupFailed => slift (Err SendFailed)
    | GroupSent O (Datatypes.S _) => slift (Err SendFailed)
    | GroupSent _ _ => sret tt
    end
  else
    let* r := ask (SendMessage userID c) answer_send in
    match r with Sent => sret tt | NotSent _ => slift (Err SendFailed) end.

Definition getTimestampForEvent (e : MatrixEvent) : Z :=
  if ev_Relayed e then uint64 now
  else match ev_TransactionID e with
       | [] => uint64 (ev_Timestamp e)
       | txn => match Decimal.parse_uint txn with Ok ts => ts | _ => uint64 (ev_Timestamp e) end
       end.

(** *** Messages *)
Definition stamped (ts : Z) (m : SignalMessage) : SignalMessage := mkSignal (set_Timestamp ts (sg_DM m)) (sg_Previews m) (sg_QuoteAttachments m).
Definition doSendMessage (e : MatrixEvent) (converted : SignalMessage) (meta : MessageMetadata) : mx_m (DbMessage * bytes) :=
  let ts := getTimestampForEvent e in
  let msgID := MakeMessageID (ci_ACI s) ts in
  let* _ := modify (mx_add_pending msgID) in
  let* p := portal in
  let* _ := sendMessage (pk_ID (po_Key p)) (CData (stamped ts converted)) in
  sret (mkDb (mkRow (po_Key p) msgID [] [] (int64 ts) 0 meta) (MakeUserID (ci_ACI s)) None, msgID).

Definition convert_to_signal (e : MatrixEvent) (isSticker : bool) (c : MessageEventContent) (replyTo : option (bytes * MessageMetadata)) : mx_m SignalMessage :=
  let* p := portal in
  slift (wrap_err ConversionFailed (ToSignal (ci_ACI s) now isSticker c (ev_Relayed e) replyTo (di_Timer (po_Disappear p)) (po_ExpirationTimerVersion p))).
Definition HandleMatrixMessage (e : MatrixEvent) (isSticker : bool) (c : MessageEventContent) (replyTo : option (bytes * MessageMetadata)) : mx_m (DbMessage * bytes) :=
  let* converted := convert_to_signal e isSticker c replyTo in
  doSendMessage e converted (mkMetadata [] [] (dm_IsViewOnce (sg_DM converted)) (ContainsAttachments (sg_DM converted)) [] ∅ false).

(** The content of the event is the limit it asks for: a count of one, or [None]. *)
Definition HandleMatrixViewLimitedMedia (message : DbMessage) (viewOnce : bool) : mx_m unit :=
  let meta := mr_Metadata (db_Row message) in
  if negb (md_ViewOnce meta) || negb (md_ContainsAttachments meta) || negb viewOnce then slift (Err ErrViewLimitedType)
  else
    let* parsed := ids (ParseMessageID (mr_ID (db_Row message))) in
    let '(sender, timestamp) := parsed in
    sendMessage (MakeDMPortalID (NewACIServiceID sender)) (CReceipt ReceiptVIEWED [timestamp]).

(** *** Edits *)
Definition saveEditStub (prevID : bytes) (target : DbMessage) : DbMessage :=
  mkDb (mkRow (mr_Room (db_Row target)) prevID editStubPartID [] (mr_Timestamp (db_Row target)) 0 empty_metadata) (db_SenderID target) None.
Definition edited (target : DbMessage) (newID : bytes) (converted : SignalMessage) : DbMessage :=
  let row := db_Row target in
  mkDb (mkRow (mr_Room row) newID (mr_PartID row) (mr_MXID row) (mr_Timestamp row) (mr_EditCount row + 1)
          (mkMetadata [] [] false (ContainsAttachments (sg_DM converted)) [] ∅ false)) (db_SenderID target) (db_ReplyTo target).
(** The changed row and the stub are saved together. *)
Definition save_edited (old new : DbMessage) (table : list DbMessage) : list DbMessage :=
  if negb (beqb (mr_ID (db_Row old)) (mr_ID (db_Row new))) && db_saves
  then map (fun r => if decide (r = old) then new else r) table ++ [saveEditStub (mr_ID (db_Row old)) new] else table.
Definition HandleMatrixEdit (e : MatrixEvent) (isSticker : bool) (c : MessageEventContent) (target : DbMessage) : mx_m DbMessage :=
  if mt_ViewLimited c || md_ViewOnce (mr_Metadata (db_Row target)) then slift (Err ErrEditsNotSupported)
  else
    let* parsed := ids (ParseMessageID (mr_ID (db_Row target))) in
    if negb (beqb (db_SenderID target) (MakeUserID (ci_ACI s))) then slift (Err EditOthersMessage)
    else
      let* replyTo := match db_ReplyTo target with
                      | None | Some [] => sret None
                      | Some id => must ReplyLookupFailed (GetFirstOrSpecificPartByID id)
                      end in
      let* converted := convert_to_signal e isSticker c replyTo in
      let ts := getTimestampForEvent e in
      let* p := portal in
      let* _ := sendMessage (pk_ID (po_Key p)) (CEdit parsed.2 (stamped ts converted)) in
      let new := edited target (MakeMessageID (ci_ACI s) ts) converted in
      let* _ := modify (fun st => mx_set_table (save_edited target new (mx_table st)) st) in
      sret new.

(** *** Reactions and deletions *)
Definition reaction_message (ts : Z) (story : option StoryContext) (r : Reaction) : SignalMessage :=
  only (mkDataMessage None [] [] [] None None false None None None None 0 0 0 None false REACTIONS ts (Some r) story None None None None None).
Definition PreHandleMatrixReaction (key : bytes) : bytes * bytes := (MakeUserID (ci_ACI s), FullyQualify key).
Definition HandleMatrixReaction (e : MatrixEvent) (target : DbMessage) (emoji : bytes) : mx_m unit :=
  let row := db_Row target in
  let* parsed := ids (ParseMessageID (mr_ID row)) in
  let '(author, sent) := parsed in
  let* p := portal in
  sendMessage (pk_ID (po_Key p)) (CData (reaction_message (getTimestampForEvent e) (StoryContextFor (ci_ACI s) (mr_ID row) (mr_Metadata row))
    (mkReaction emoji false [] (Some (fixed_bytes author)) sent))).
Definition HandleMatrixReactionRemove (e : MatrixEvent) (messageID emoji : bytes) : mx_m unit :=
  let* parsed := ids (ParseMessageID messageID) in
  let '(author, sent) := parsed in
  let* p := portal in
  sendMessage (pk_ID (po_Key p)) (CData (reaction_message (getTimestampForEvent e) None (mkReaction emoji true [] (Some (fixed_bytes author)) sent))).
Definition delete_message (ts target : Z) : SignalMessage :=
  only (mkDataMessage None [] [] [] None None false None None None None 0 0 0 None false 0 ts None None (Some target) None None None None).
Definition HandleMatrixMessageRemove (e : MatrixEvent) (target : DbMessage) : mx_m unit :=
  let* parsed := ids (ParseMessageID (mr_ID (db_Row target))) in
  if negb (beqb (db_SenderID target) (MakeUserID (ci_ACI s))) then slift (Err DeleteOthersMessage)
  else let* p := portal in sendMessage (pk_ID (po_Key p)) (CData (delete_message (getTimestampForEvent e) parsed.2)).

(** *** Read receipts and typing *)
Definition add_target (targets : gmap UUID (list Z)) (m : DbMessage) : gmap UUID (list Z) :=
  match ParseMessageID (mr_ID (db_Row m)) with Ok (author, ts) => <[author := default [] (targets !! author) ++ [ts]]> targets | _ => targets end.
(** One receipt per author; failures are only logged. *)
Fixpoint send_receipts (targets : list (UUID * list Z)) : mx_m unit :=
  match targets with
  | [] => sret tt
  | (destination, messages) :: targets =>
      if bool_decide (destination = ci_ACI s) then send_receipts targets
      else let* _ := ask (SendMessage (NewACIServiceID destination) (CReceipt ReceiptREAD messages)) answer_send in send_receipts targets
  end.
(** Milliseconds; [None] is the zero time. *)
Definition HandleMatrixReadReceipt (readUpTo : Z) (lastRead : option Z) : mx_m unit :=
  if match lastRead with Some l => readUpTo <=? l | None => false end then sret tt
  else
    let* p := portal in
    let* messages := must MessagesLookupFailed (GetMessagesBetweenTimeQuery (po_Key p) (default (readUpTo - 5000) lastRead) readUpTo) in
    send_receipts (range_targets (fold_left add_target messages ∅)).

(** A failure without an error is no error. *)
Definition HandleMatrixTyping (isTyping : bool) : mx_m unit :=
  let* p := portal in
  let* parsed := ids (ParsePortalID (pk_ID (po_Key p))) in
  let '(userID, groupID) := parsed in
  if negb (IsEmpty userID) && bool_decide (sid_Type userID = ServiceIDTypeACI) then
    let* r := ask (SendMessage userID (CTyping isTyping)) answer_send in match r with NotSent true => slift (Err SendFailed) | _ => sret tt end
  else if negb (beqb groupID []) then
    let* r := ask (SendGroupMessage groupID (CTyping isTyping)) answer_group in match r with GroupFailed => slift (Err SendFailed) | _ => sret tt end
  else sret tt.

(** *** Group settings *)
Definition empty_change : GroupChange := mkGroupChange [] EmptyServiceID 0 [] [] [] [] [] [] [] None None None None None None [] [] [] None None [] [] [] None.
Definition with_settings (title avatar description : option bytes) (timer : option Z) (rev : Z) : GroupChange :=
  mkGroupChange [] EmptyServiceID rev [] [] [] [] [] [] [] title avatar timer None None None [] [] [] description None [] [] [] None.
Definition with_revision (rev : Z) (c : GroupChange) : GroupChange :=
  mkGroupChange (gch_MasterKey c) (gch_SourceServiceID c) rev (gch_AddMembers c) (gch_DeleteMembers c) (gch_ModifyMemberRoles c) (gch_ModifyMemberProfileKeys c)
    (gch_AddPendingMembers c) (gch_DeletePendingMembers c) (gch_PromotePendingMembers c) (gch_ModifyTitle c) (gch_ModifyAvatar c) (gch_ModifyDisappearingMessagesDuration c)
    (gch_ModifyAttributesAccess c) (gch_ModifyMemberAccess c) (gch_ModifyAddFromInviteLinkAccess c) (gch_AddRequestingMembers c) (gch_DeleteRequestingMembers c)
    (gch_PromoteRequestingMembers c) (gch_ModifyDescription c) (gch_ModifyAnnouncementsOnly c) (gch_AddBannedMembers c) (gch_DeleteBannedMembers c)
    (gch_PromotePendingPniAciMembers c) (gch_ModifyInviteLinkPassword c).
Definition update_group (gc : GroupChange) (groupID : bytes) : mx_m Z :=
  let* r := ask (UpdateGroup gc groupID) answer_update in must SendFailed r.
Definition room_settings (gc : GroupChange) (p : Portal) : Portal :=
  set_meta (fun '(rev, name, nameSet, topic, topicSet, avatar, avatarSet) =>
    (rev, default name (gch_ModifyTitle gc), nameSet || isSome (gch_ModifyTitle gc), default topic (gch_ModifyDescription gc), topicSet || isSome (gch_ModifyDescription gc),
     match gch_ModifyAvatar gc with Some a => makeAvatarPathID a | None => avatar end, avatarSet || isSome (gch_ModifyAvatar gc))) p.
Definition handleMatrixRoomMeta (gc : GroupChange) (postUpdatePortal : Portal -> Portal) : mx_m bool :=
  let* p := portal in
  let* parsed := ids (ParsePortalID (pk_ID (po_Key p))) in
  if beqb parsed.2 [] then sret false
  else
    let* revision := update_group (with_revision (uint32 (po_Revision p + 1)) gc) parsed.2 in
    let* _ := change_portal (fun p => set_revision revision (postUpdatePortal (room_settings gc p))) in
    sret true.
Definition HandleMatrixRoomName (name : bytes) : mx_m bool := handleMatrixRoomMeta (with_settings (Some name) None None None 0) (fun p => p).
Definition HandleMatrixRoomTopic (topic : bytes) : mx_m bool := handleMatrixRoomMeta (with_settings None None (Some topic) None 0) (fun p => p).
(** The hash of no avatar is an array of zeroes. *)
Definition HandleMatrixRoomAvatar (url : bytes) : mx_m bool :=
  let* p := portal in
  let* parsed := ids (ParsePortalID (pk_ID (po_Key p))) in
  if beqb parsed.2 [] then sret false
  else
    let* uploaded :=
      if beqb url [] then sret ([], repeat x00 32)
      else
        let* data := must AvatarDownloadFailed (DownloadAvatar url) in
        let* path := ask (UploadGroupAvatar data parsed.2) answer_upload in
        let* path := must SendFailed path in sret (path, sha256 data) in
    handleMatrixRoomMeta (with_settings None (Some uploaded.1) None None 0) (set_avatar_file url uploaded.2).

(** *** Members *)
Inductive membership_change :=
| AcceptInvite | RevokeInvite | RejectInvite | Leave | Kick | Invite | AcceptKnock | RetractKnock | RejectKnock
| BanKnocked | BanInvited | BanJoined | BanLeft | Unban | Join | Knock | ProfileChange.
Definition is_self (t : membership_change) : bool :=
  match t with AcceptInvite | RejectInvite | Leave | RetractKnock | Join | Knock | ProfileChange => true | _ => false end.
Definition is_aci (i : ServiceID) : bool := bool_decide (sid_Type i = ServiceIDTypeACI).
(** The lists of a change that name members. *)
Definition with_members (add : list AddMember) (delete : list UUID) (addPending : list PendingMember) (deletePending : list ServiceID) (promotePending : list ProfileKeyMember)
  (deleteRequesting : list UUID) (promoteRequesting : list RoleMember) (addBanned : list BannedMember) (deleteBanned : list ServiceID) : GroupChange :=
  mkGroupChange [] EmptyServiceID 0 add delete [] [] addPending deletePending promotePending None None None None None None [] deleteRequesting promoteRequesting None None
    addBanned deleteBanned [] None.
Definition aci_only {A : Type} (i : ServiceID) (a : A) : outcome mx_error A := if is_aci i then Ok a else Err NeedsACI.
Definition membership_group_change (t : membership_change) (i : ServiceID) (role : Z) (timestamp : Z) : outcome mx_error GroupChange :=
  let u := sid_UUID i in
  let banned := [mkBanned i (uint64 now)] in
  match t with
  | AcceptInvite => aci_only i (with_members [] [] [] [] [mkKeyMember u (fixed_zero 32)] [] [] [] [])
  | RevokeInvite | RejectInvite => Ok (with_members [] [] [] [i] [] [] [] [] [])
  | Leave | Kick => aci_only i (with_members [] [u] [] [] [] [] [] [] [])
  | Invite => Ok (if is_aci i then with_members [mkAddMember (mkMember u role (fixed_zero 32) 0) false] [] [] [] [] [] [] [] []
                  else with_members [] [] [mkPending i role (ci_ACI s) (uint64 timestamp)] [] [] [] [] [] [])
  | AcceptKnock => aci_only i (with_members [] [] [] [] [] [] [mkRoleMember u role] [] [])
  | RetractKnock | RejectKnock => aci_only i (with_members [] [] [] [] [] [u] [] [] [])
  | BanJoined => aci_only i (with_members [] [u] [] [] [] [] [] banned [])
  | BanInvited => Ok (with_members [] [] [] [i] [] [] [] banned [])
  | BanKnocked => aci_only i (with_members [] [] [] [] [] [u] [] banned [])
  | BanLeft => Ok (with_members [] [] [] [] [] [] [] banned [])
  | Unban => Ok (with_members [] [] [] [] [] [] [] [] [i])
  | Join | Knock | ProfileChange => Err UnsupportedMembership
  end.
(** The ghost of the target, or the double puppet of a login, with its Matrix ID;
    the power levels that were read, or what came with the error: looking a
    level up in a nil pointer panics. *)
Record MembershipEvent := mkMembership {
  mb_Type : membership_change;
  mb_Target : GhostOrUserLogin;
  mb_TargetMXID : option bytes;
  mb_levelsFailed : bool;
  mb_levelOnError : outcome Empty_set Z
}.
Definition plToRole (pl : Z) : Z := if moderatorPL <=? pl then GroupMember_ADMINISTRATOR else GroupMember_DEFAULT.
(** The levels are only looked at when they could not be read. *)
Definition new_role (m : MembershipEvent) : outcome mx_error Z :=
  match mb_Type m with
  | Invite | AcceptKnock => if mb_levelsFailed m then let! pl := no_error (mb_levelOnError m) in Ok (plToRole pl) else Ok GroupMember_DEFAULT
  | _ => Ok GroupMember_DEFAULT
  end.
Definition HandleMatrixMembership (e : MatrixEvent) (m : MembershipEvent) : mx_m unit :=
  if is_self (mb_Type m) && ev_Relayed e then sret tt
  else
    let* p := portal in
    if po_IsDM p then match mb_Type m with Invite => slift (Err InviteToDM) | _ => sret tt end
    else
      let* target := ids (ParseGhostOrUserLoginID (mb_Target m)) in
      let* mxid := must GhostLookupFailed (mb_TargetMXID m) in
      let* role := slift (new_role m) in
      let* gc := slift (membership_group_change (mb_Type m) target role (ev_Timestamp e)) in
      let* parsed := ids (ParsePortalID (pk_ID (po_Key p))) in
      if beqb parsed.2 [] then sret tt
      else
        let* revision := update_group (with_revision (uint32 (po_Revision p + 1)) gc) parsed.2 in
        let* _ := match mb_Type m with
                  | Invite | AcceptKnock =>
                      if negb (bool_decide (sid_Type target = ServiceIDTypePNI))
                      then let* ok := ask (EnsureJoined mxid) answer_plain in if ok : bool then sret tt else slift (Err JoinFailed)
                      else sret tt
                  | _ => sret tt
                  end in
        change_portal (set_revision revision).

(** *** Power levels *)
Record PowerLevelChange := mkPL { plc_OrigLevel : Z; plc_NewLevel : Z }.
Definition plToAccessControl (pl : Z) : Z := if moderatorPL <=? pl then AccessControl_ADMINISTRATOR else AccessControl_MEMBER.
Definition hasAdminChanged (plc : option PowerLevelChange) : bool :=
  match plc with Some c => negb (Bool.eqb (plc_NewLevel c <? moderatorPL) (plc_OrigLevel c <? moderatorPL)) | None => false end.
Definition changed_level {A : Type} (plc : option PowerLevelChange) (f : Z -> A) : option A :=
  match plc with Some c => if hasAdminChanged plc then Some (f (plc_NewLevel c)) else None | None => None end.
Definition changed_role (u : GhostOrUserLogin * PowerLevelChange) : list RoleMember :=
  if negb (hasAdminChanged (Some u.2)) then []
  else match ParseGhostOrUserLoginID u.1 with Ok i => if is_aci i then [mkRoleMember (sid_UUID i) (plToRole (plc_NewLevel u.2))] else [] | _ => [] end.
Record PowerLevelEvent := mkPLEvent {
  pe_Users : list (GhostOrUserLogin * PowerLevelChange);
  pe_EventsDefault : option PowerLevelChange;
  pe_StateDefault : option PowerLevelChange;
  pe_Invite : option PowerLevelChange
}.
Definition power_level_change (m : PowerLevelEvent) : GroupChange :=
  mkGroupChange [] EmptyServiceID 0 [] [] (concat (map changed_role (pe_Users m))) [] [] [] [] None None None (changed_level (pe_StateDefault m) plToAccessControl)
    (changed_level (pe_Invite m) plToAccessControl) None [] [] [] None (changed_level (pe_EventsDefault m) (fun pl => moderatorPL <=? pl)) [] [] [] None.
Definition HandleMatrixPowerLevels (m : PowerLevelEvent) : mx_m bool :=
  let* p := portal in
  if po_IsDM p then sret false
  else
    let* parsed := ids (ParsePortalID (pk_ID (po_Key p))) in
    if beqb parsed.2 [] then sret false
    else
      let* revision := update_group (power_level_change m) parsed.2 in
      let* _ := change_portal (set_revision revision) in sret true.

(** *** Disappearing messages *)
(** The timer is in nanoseconds. *)
Definition timer_message (ts seconds : Z) : SignalMessage :=
  only (mkDataMessage None [] [] [] None None false None None None None 0 EXPIRATION_TIMER_UPDATE seconds None false 0 ts None None None None None None None).
Definition HandleMatrixDisappearingTimer (e : MatrixEvent) (type : disappear_type) (timer : Z) : mx_m bool :=
  if negb (bool_decide (type = AfterRead)) && negb (timer =? 0) then slift (Err UnsupportedDisappearingType)
  else
    let* p := portal in
    let* parsed := ids (ParsePortalID (pk_ID (po_Key p))) in
    let setting := mkDisappear (if timer =? 0 then DisappearNone else AfterRead) timer None in
    if negb (beqb parsed.2 []) then handleMatrixRoomMeta (with_settings None None None (Some (uint32 (timer / Second))) 0) (set_disappear setting)
    else
      let* r := ask (SendMessage parsed.1 (CData (timer_message (getTimestampForEvent e) (uint32 (timer / Second))))) answer_send in
      match r with
      | NotSent true => slift (Err SendFailed)
      | NotSent false => sret false
      | Sent => let* _ := change_portal (set_disappear setting) in sret true
      end.

(** *** Message requests *)
Definition syncMessageRequestResponse (type : response_type) : mx_m unit :=
  let* p := portal in
  let* parsed := ids (ParsePortalID (pk_ID (po_Key p))) in
  let '(userID, groupID) := parsed in
  let* accept :=
    if negb (beqb groupID []) then let* gid := ids (GroupIdentifier_Bytes groupID) in sret (CMessageRequestResponse type (Some gid) None)
    else if is_aci userID then sret (CMessageRequestResponse type None (Some (sid_UUID userID)))
    else slift (Err InvalidPortalID) in
  let* r := ask (SendMessage (NewACIServiceID (ci_ACI s)) accept) answer_send in
  match r with NotSent true => slift (Err SendFailed) | _ => sret tt end.
(** The own profile key, and the signature of the PNI, which is only made when
    the number is shared with everybody; [None] is an error. *)
Definition HandleMatrixAcceptMessageRequest (e : MatrixEvent) (ownProfileKey : option bytes) (pniSignature : option (option (UUID * bytes))) : mx_m unit :=
  let* p := portal in
  let* parsed := ids (ParsePortalID (pk_ID (po_Key p))) in
  let* _ := syncMessageRequestResponse MrACCEPT in
  if is_aci parsed.1 then
    let* profileKey := must ProfileKeyFailed ownProfileKey in
    let* sig := must SignatureFailed pniSignature in
    let* r := ask (SendMessage parsed.1 (CProfileKeyUpdate profileKey (getTimestampForEvent e) sig)) answer_send in
    match r with Sent => sret tt | NotSent _ => slift (Err SendFailed) end
  else sret tt.

(** At most three different messages of the user are reported. *)
Fixpoint report_loop (aci : UUID) (messages : list DbMessage) (seen : list bytes) : mx_m (list bytes) :=
  match messages with
  | [] => sret seen
  | m :: messages =>
      let meta := mr_Metadata (db_Row m) in
      if negb (beqb (db_SenderID m) (MakeUserID aci)) || beqb (md_ServerGUID meta) [] || existsb (beqb (md_ServerGUID meta)) seen then report_loop aci messages seen
      else
        let* ok := ask (ReportSpam aci (md_ServerGUID meta) (md_ReportingToken meta)) answer_plain in
        if negb ok then slift (Err SendFailed)
        else
          let seen := seen ++ [md_ServerGUID meta] in
          if (length seen =? 3)%nat then sret seen else report_loop aci messages seen
  end.
Definition reportSpam (aci : UUID) : mx_m unit :=
  let* p := portal in
  let* messages := must MessagesLookupFailed (GetLastNInPortal (po_Key p) 100) in
  let* seen := report_loop aci messages [] in
  match seen with [] => slift (Err NothingToReport) | _ => sret tt end.

Definition set_blocked (block : bool) (r : Recipient) : Recipient :=
  mkRecipient (r_ACI r) (r_PNI r) (r_E164 r) (r_ContactName r) (r_AvatarHash r) (r_Nickname r) (r_Profile r) (r_NeedsPNISignature r) block (r_Whitelisted r).
Definition block_response (block spam : bool) : response_type :=
  if spam then (if block then MrBLOCK_AND_SPAM else MrSPAM) else if block then MrBLOCK else MrACCEPT.
Definition HandleMatrixBlockUser (block spam : bool) : mx_m unit :=
  let* p := portal in
  let* parsed := ids (ParsePortalID (pk_ID (po_Key p))) in
  if negb (beqb parsed.2 []) then slift (Err NonDMBlockUser)
  else
    let '(aci, pni) := ToACIAndPNI parsed.1 in
    if bool_decide (aci = uuid_Nil) then slift (Err NeedsACI)
    else
      let* _ := if spam then reportSpam aci else sret tt in
      let* _ := syncMessageRequestResponse (block_response block spam) in
      fun st =>
        let '(store, r) := LoadAndUpdateRecipient (mx_recipients st) aci pni (fun r => Some (set_blocked block r, negb (Bool.eqb (r_Blocked r) block))) in
        (mx_set_recipients store st, match r with Ok _ => Ok tt | Err err => Err (RecipientFailed err) | Panic => Panic end).

(** *** Deleting a chat *)
Definition recent_message (m : DbMessage) : list AddressableMessage :=
  match ParseMessageID (mr_ID (db_Row m)) with Ok (sender, ts) => [mkAddressable (AuthorServiceIdBinary (fixed_bytes sender)) ts] | _ => [] end.
(** The last five; a failed query is only logged. *)
Definition most_recent (messages : option (list DbMessage)) : list AddressableMessage :=
  match messages with Some l => concat (map recent_message (drop (length l - 5) l)) | None => [] end.
Definition month_ms : Z := 30 * 24 * 3600 * 1000.
(** The own membership: [None] when it cannot be read. *)
Definition HandleMatrixDeleteChat (joined : option bool) (fromMessageRequest : bool) : mx_m unit :=
  let* p := portal in
  let* parsed := ids (ParsePortalID (pk_ID (po_Key p))) in
  let '(userID, groupID) := parsed in
  let* _ :=
    if beqb groupID [] then sret tt
    else
      let* joined := must MemberInfoFailed joined in
      if joined : bool then
        let* revision := update_group (with_revision (uint32 (po_Revision p + 1)) (with_members [] [ci_ACI s] [] [] [] [] [] [] [])) groupID in
        change_portal (set_revision revision)
      else sret tt in
  let* _ := if fromMessageRequest then syncMessageRequestResponse MrDELETE else sret tt in
  let* conversation := if beqb groupID [] then sret (ThreadServiceIdBinary (ServiceID_Bytes userID))
                       else let* gid := ids (GroupIdentifier_Bytes groupID) in sret (ThreadGroupId (fixed_bytes gid)) in
  let recent := most_recent (GetMessagesBetweenTimeQuery (po_Key p) (now - month_ms) now) in
  let* r := ask (SendMessage (NewACIServiceID (ci_ACI s)) (CDeleteForMe conversation recent)) answer_send in
  match r with Sent => sret tt | NotSent _ => slift (Err SendFailed) end.

(** *** Polls *)
Definition poll_message (c : PollCreate) : SignalMessage :=
  only (mkDataMessage None [] [] [] None None false (Some c) None None None 0 0 0 None false POLLS 0 None None None None None None None).
(** The answers with their IDs. *)
Definition HandleMatrixPollStart (e : MatrixEvent) (question : bytes) (maxSelections : Z) (answers : list (bytes * bytes)) : mx_m (DbMessage * bytes) :=
  doSendMessage e (poll_message (mkPollCreate question (negb (maxSelections =? 1)) answers.*2)) (mkMetadata [] [] false false answers.*1 ∅ false).

Fixpoint index_of (x : bytes) (l : list bytes) : option nat :=
  match l with [] => None | y :: l => if beqb y x then Some O else Datatypes.S <$> index_of x l end.
(** [strconv.Atoi] *)
Definition atoi (a : bytes) : option Z :=
  let '(neg, digits) := match a with b :: a' => if bool_decide (b = x2d) then (true, a') else if bool_decide (b = x2b) then (false, a') else (false, a) | [] => (false, a) end in
  match Decimal.parse_uint digits with
  | Ok n => if neg then (if n <=? 2 ^ 63 then Some (- n) else None) else if n <? 2 ^ 63 then Some n else None
  | _ => None
  end.
(** The index of an answer; other answers are refused. *)
Definition answer_index (options : list bytes) (answer : bytes) : option Z :=
  match index_of answer options with
  | Some i => Some (uint32 (Z.of_nat i))
  | None => match atoi answer with Some i => if 0 <=? i then Some (uint32 i) else None | None => None end
  end.
Definition vote_message (v : PollVote) : SignalMessage :=
  only (mkDataMessage None [] [] [] None None false None (Some v) None None 0 0 0 None false 0 0 None None None None None None None).
Definition counted (target : DbMessage) : DbMessage :=
  let row := db_Row target in
  let meta := mr_Metadata row in
  let me := uuid_string (ci_ACI s) in
  mkDb (mkRow (mr_Room row) (mr_ID row) (mr_PartID row) (mr_MXID row) (mr_Timestamp row) (mr_EditCount row)
          (set_votes (<[me := uint32 (default 0 (md_VoteCount meta !! me) + 1)]> (md_VoteCount meta)) meta)) (db_SenderID target) (db_ReplyTo target).
Definition HandleMatrixPollVote (e : MatrixEvent) (target : DbMessage) (answers : list bytes) : mx_m (DbMessage * bytes) :=
  let* parsed := ids (ParseMessageID (mr_ID (db_Row target))) in
  let '(sender, msgTS) := parsed in
  let* indexes := must UnknownPollAnswer (mapM (answer_index (md_MatrixPollOptionIDs (mr_Metadata (db_Row target)))) answers) in
  let* _ := modify (fun st => mx_set_table (if db_saves then map (fun r => if decide (r = target) then counted target else r) (mx_table st) else mx_table st) st) in
  let count := default 0 (md_VoteCount (mr_Metadata (db_Row (counted target))) !! uuid_string (ci_ACI s)) in
  doSendMessage e (vote_message (mkPollVote (fixed_bytes sender) msgTS indexes count)) empty_metadata.
End Handlers.

(** ** Runs of handlers *)
Lemma ids_Ok {A : Type} (m : outcome id_error A) st st' a : ids m st = (st', Ok a) -> st' = st /\ m = Ok a.
Proof. unfold ids, slift. destruct m; cbn; intros [= <- ?]; by subst. Qed.
Lemma must_Ok {A : Type} e (o : option A) st st' a : must e o st = (st', Ok a) -> st' = st /\ o = Some a.
Proof. unfold must, slift. destruct o; intros [= <- ?]; by subst. Qed.
Lemma ask_Ok {A : Type} c (f : list client_call -> A) st st' a : ask c f st = (st', Ok a) -> st' = mx_call c st /\ a = f (mx_calls st ++ [c]).
Proof. by intros [= <- <-]. Qed.
Lemma portal_Ok st st' p : portal st = (st', Ok p) -> st' = st /\ p = mx_portal st.
Proof. by intros [= <- <-]. Qed.
Lemma update_group_Ok `{MW : MxWorld} gc gid st st' rev : update_group gc gid st = (st', Ok rev) ->
  st' = mx_call (UpdateGroup gc gid) st /\ answer_update (mx_calls st ++ [UpdateGroup gc gid]) = Some rev.
Proof. intros (st1 & r & [-> ->]%ask_Ok & [-> Hr]%must_Ok)%sbind_Ok. done. Qed.

(** A call that sends a content to the user or group of a portal. *)
Definition sends_to `{U : UUIDLib} (portalID : bytes) (c : content) (call : client_call) : Prop :=
  exists u gid, ParsePortalID portalID = Ok (u, gid) /\ call = if beqb gid [] then SendMessage u c else SendGroupMessage gid c.
Lemma sendMessage_Ok `{MW : MxWorld} `{U : UUIDLib} portalID c st st' : sendMessage portalID c st = (st', Ok tt) ->
  exists call, sends_to portalID c call /\ st' = mx_call call st.
Proof.
  unfold sendMessage. intros (st1 & [u gid] & [-> Hp]%ids_Ok & H)%sbind_Ok. destruct (beqb gid []) eqn:Eg; cbn [negb] in H;
    apply sbind_Ok in H as (st1 & a & [-> ->]%ask_Ok & H); eexists; (split; [exists u, gid; split; [exact Hp|by rewrite Eg]|]).
  - by destruct (answer_send _); [injection H as <-|].
  - destruct (answer_group _) as [|[] []]; try done; by injection H as <-.
Qed.
Lemma doSendMessage_Ok `{MW : MxWorld} `{U : UUIDLib} s now e msg meta st st' r : doSendMessage s now e msg meta st = (st', Ok r) ->
  let ts := getTimestampForEvent now e in
  exists call, sends_to (pk_ID (po_Key (mx_portal st))) (CData (stamped ts msg)) call /\
    st' = mkMx (mx_portal st) (mx_table st) (mx_recipients st) (mx_pending st ++ [MakeMessageID (ci_ACI s) ts]) (mx_calls st ++ [call]) /\
    mr_ID (db_Row r.1) = MakeMessageID (ci_ACI s) ts.
Proof.
  unfold doSendMessage. intros H. apply sbind_Ok in H as (st1 & u & H1 & H). injection H1 as <- <-. apply sbind_Ok in H as (st1 & p & [-> ->]%portal_Ok & H).
  apply sbind_Ok in H as (st1 & [] & (call & Hc & ->)%sendMessage_Ok & H). injection H as <- <-. by exists call.
Qed.

(** ** Changes of the members come back as they were made *)
Lemma parsed_target_valid `{U : UUIDLib} g i : ParseGhostOrUserLoginID g = Ok i -> valid i.
Proof.
  assert (Hs : forall v j, ServiceIDFromString v = Ok j -> valid j).
  { intros v j. unfold ServiceIDFromString. destruct (_ <? 36)%nat; [done|]. destruct (beqb _ _); destruct (uuid_parse _); try done; by intros [= <-]. }
  destruct g as [l|u]; cbn [ParseGhostOrUserLoginID].
  - destruct (ParseUserLoginID l); try done. by intros [= <-].
  - unfold ParseUserIDAsServiceID. apply Hs.
Qed.

Section Members.
Context `{MW : MxWorld} `{SW : SendWorld} `{W : MediaWorld} `{H : HTMLEnv} `{U : UUIDLib} `{C : CryptoLib} `{UL : !UUIDLaws U}.
Context (s : ClientIDs) (ownPNI : UUID) (DeviceByPNI : UUID -> option UUID) (now : Z).

(** The membership a change leads to: a user with an ACI is added at once, and
    so is one who asked to join. *)
Definition result_of (t : membership_change) (i : ServiceID) : membership :=
  match t with
  | AcceptInvite | AcceptKnock => MembershipJoin
  | Invite => if is_aci i then MembershipJoin else MembershipInvite
  | BanKnocked | BanInvited | BanJoined | BanLeft => MembershipBan
  | _ => MembershipLeave
  end.
(** Where the target of a change stands in the group before and after it. *)
Inductive place := Outside | Joined | Invited | Knocking | Banned.
#[global] Instance place_eq_dec : EqDecision place.
Proof. solve_decision. Defined.
Definition place_before (t : membership_change) : place :=
  match t with
  | Leave | Kick | BanJoined | ProfileChange => Joined
  | AcceptInvite | RevokeInvite | RejectInvite | BanInvited => Invited
  | AcceptKnock | RetractKnock | RejectKnock | BanKnocked => Knocking
  | Unban => Banned
  | Invite | BanLeft | Join | Knock => Outside
  end.
Definition place_after (t : membership_change) (i : ServiceID) : place :=
  match result_of t i with MembershipJoin => Joined | MembershipInvite => Invited | MembershipBan => Banned | _ => Outside end.
(** The change of a group that moves a user from one place to another: out of
    the list the user is in, by the removal or the promotion of that list, and
    into the other. *)
Definition moved (a b : place) (i : ServiceID) (role timestamp : Z) : GroupChange :=
  let u := sid_UUID i in
  let when {A : Type} (c : bool) (x : A) := if c then [x] else [] in
  let from_to x y := bool_decide (a = x) && bool_decide (b = y) in
  let out_of x := bool_decide (a = x) && negb (bool_decide (b = Joined)) in
  with_members
    (when (from_to Outside Joined) (mkAddMember (mkMember u role (fixed_zero 32) 0) false)) (when (out_of Joined) u)
    (when (from_to Outside Invited) (mkPending i role (ci_ACI s) (uint64 timestamp))) (when (out_of Invited) i)
    (when (from_to Invited Joined) (mkKeyMember u (fixed_zero 32))) (when (out_of Knocking) u) (when (from_to Knocking Joined) (mkRoleMember u role))
    (when (bool_decide (b = Banned)) (mkBanned i (uint64 now))) (when (out_of Banned) i).
Lemma membership_moves t i role ts gc : membership_group_change s now t i role ts = Ok gc -> gc = moved (place_before t) (place_after t i) i role ts.
Proof.
  unfold membership_group_change, place_after, result_of, aci_only. intros Hgc. destruct t; try done; destruct (is_aci i); try done; by injection Hgc as <-.
Qed.
Lemma aci_only_Ok {A : Type} i (a b : A) : aci_only i a = Ok b -> b = a /\ i = NewACIServiceID (sid_UUID i).
Proof. unfold aci_only, is_aci. case_bool_decide as Hi; [|done]. intros [= ->]. split; [done|]. destruct i. cbn in *. by subst. Qed.

(** The sequence of memberships in the change, all of them of the target. *)
Lemma membership_change_ops t i role ts rev gc : membership_group_change s now t i role ts = Ok gc ->
  change_ids (with_revision rev gc) ⊆ [i] /\ exists ms, change_ops (with_revision rev gc) = map (fun m => (i, m)) (ms ++ [result_of t i]).
Proof.
  unfold membership_group_change, result_of. intros Hgc. destruct t; try done.
  all: try (apply aci_only_Ok in Hgc as [-> Hi]; split; [cbn; set_solver|]; rewrite Hi;
    first [exists []; reflexivity|exists [MembershipLeave]; reflexivity]).
  all: try (injection Hgc as <-; split; [cbn; set_solver|]; first [exists []; reflexivity|exists [MembershipLeave]; reflexivity]).
  injection Hgc as <-. unfold is_aci. case_bool_decide as Hi.
  - assert (i = NewACIServiceID (sid_UUID i)) as Hn by (destruct i; cbn in *; by subst). split; [cbn; set_solver|]. exists []. cbn. by rewrite <- Hn.
  - split; [cbn; set_solver|]. by exists [].
Qed.
Lemma set_ops_one i ms m : forall M, set_ops (map (fun m => (i, m)) (ms ++ [m])) M = <[user_of i := m]> M.
Proof.
  unfold set_ops. induction ms as [|m' ms IH]; intros M; [done|]. cbn [app map fold_left fst snd]. rewrite IH. apply insert_insert_eq.
Qed.

(** C16: what a user does to the members of a group room on Matrix is done to the
    group, and is what the bridge shows when the change comes back.  When a
    membership change is handled without an error, and it is neither a change of
    a relayed user's own membership (for which nothing is done) nor in a direct
    chat, exactly one update of the group was made, for the revision after the
    portal's: it takes the target out of the list of the group they were in
    (members, invited, asking to join or banned) and puts them into the one that
    was asked for, and changes nothing else.  The portal gets the revision the
    server answers.  The patch that the bridge makes of the update gives the
    target, and nobody else, the membership that was asked for (a user with an
    ACI who is invited, and one who asked to join, are members at once, and their
    ghost joins the room), unless the target is the phone number identity of a
    login of this bridge, which the patch also shows under its account. *)
Theorem membership_roundtrip e m st st' i u gid (Hrun : HandleMatrixMembership s now e m st = (st', Ok tt))
  (Hself : is_self (mb_Type m) && ev_Relayed e = false) (Hdm : po_IsDM (mx_portal st) = false)
  (Hi : ParseGhostOrUserLoginID (mb_Target m) = Ok i)
  (Hg : ParsePortalID (pk_ID (po_Key (mx_portal st))) = Ok (u, gid)) (Hgid : gid <> []) :
  exists gc role rev, let joins := match mb_Type m with Invite | AcceptKnock => negb (bool_decide (sid_Type i = ServiceIDTypePNI)) | _ => false end in
    mx_calls st' = mx_calls st ++ UpdateGroup gc gid :: (if joins then [EnsureJoined (default [] (mb_TargetMXID m))] else []) /\
    new_role m = Ok role /\
    gc = with_revision (uint32 (po_Revision (mx_portal st) + 1)) (moved (place_before (mb_Type m)) (place_after (mb_Type m) i) i role (ev_Timestamp e)) /\
    answer_update (mx_calls st ++ [UpdateGroup gc gid]) = Some rev /\ mx_portal st' = set_revision rev (mx_portal st) /\
    (tryResolvePNItoLoggedInACI s ownPNI DeviceByPNI i = None ->
     exists patch, change_member_map s ownPNI DeviceByPNI gc = Ok patch /\ shown patch = {[ user_of i := result_of (mb_Type m) i ]}).
Proof.
  unfold HandleMatrixMembership in Hrun. rewrite Hself in Hrun. apply sbind_Ok in Hrun as (st0 & p & [-> ->]%portal_Ok & Hrun). rewrite Hdm in Hrun.
  apply sbind_Ok in Hrun as (st0 & j & [-> Hj]%ids_Ok & Hrun). rewrite Hi in Hj. injection Hj as <-.
  apply sbind_Ok in Hrun as (st0 & mxid & [-> Hmx]%must_Ok & Hrun). apply sbind_Ok in Hrun as (st0 & role & [-> Hrole]%slift_Ok & Hrun).
  apply sbind_Ok in Hrun as (st0 & gc & [-> Hgc]%slift_Ok & Hrun). apply sbind_Ok in Hrun as (st0 & parsed & [-> Hparsed]%ids_Ok & Hrun).
  rewrite Hg in Hparsed. injection Hparsed as <-. cbn [snd] in Hrun. rewrite (proj2 (beqb_neq gid [])) in Hrun by done.
  apply sbind_Ok in Hrun as (st0 & rev & [-> Hrev]%update_group_Ok & Hrun). apply sbind_Ok in Hrun as (st0 & [] & Hjoin & Hrun). injection Hrun as <-. rewrite Hmx. cbn [default].
  set (gc' := with_revision (uint32 (po_Revision (mx_portal st) + 1)) gc) in *. exists gc', role, rev. cbn zeta.
  assert (Hst : mx_portal st0 = mx_portal st /\ mx_calls st0 = mx_calls st ++ UpdateGroup gc' gid ::
    (if match mb_Type m with Invite | AcceptKnock => negb (bool_decide (sid_Type i = ServiceIDTypePNI)) | _ => false end then [EnsureJoined mxid] else [])).
  { destruct (mb_Type m); try (injection Hjoin as <-; done).
    all: destruct (negb _); [|injection Hjoin as <-; done]; apply sbind_Ok in Hjoin as (st1 & ok & [-> _]%ask_Ok & Hjoin); destruct ok; [|done]; injection Hjoin as <-; cbn; by rewrite <- app_assoc. }
  destruct Hst as [Hp0 Hc0]. unfold mx_set_portal. cbn [mx_portal mx_calls]. rewrite Hp0, Hc0. split_and!; [done|done|by subst gc'; f_equal; apply membership_moves|done|done|intros Hr].
  destruct (membership_change_ops _ i _ _ (uint32 (po_Revision (mx_portal st) + 1)) _ Hgc) as (Hids & ms & Hops).
  destruct (change_shown s ownPNI DeviceByPNI gc') as (patch & Hp & Hs).
  { apply Forall_forall. intros j Hj. apply Hids, list_elem_of_singleton in Hj as ->. split; [by eapply parsed_target_valid|done]. }
  subst gc'. rewrite Hops, set_ops_one in Hs. by exists patch.
Qed.
End Members.

(** ** Read receipts *)
Section ReadReceipts.
Context `{MW : MxWorld} `{U : UUIDLib} (s : ClientIDs).
Context (range_perm : forall m, range_targets m ≡ₚ map_to_list m).

Definition parsed_id (m : DbMessage) : option (UUID * Z) := match ParseMessageID (mr_ID (db_Row m)) with Ok p => Some p | _ => None end.
(** The timestamps of the messages of an author. *)
Definition written_by (u : UUID) (messages : list DbMessage) : list Z := (filter (fun p => p.1 = u) (omap parsed_id messages)).*2.
Definition read_receipt (r : UUID * list Z) : client_call := SendMessage (NewACIServiceID r.1) (CReceipt ReceiptREAD r.2).

Lemma written_by_app u l1 l2 : written_by u (l1 ++ l2) = written_by u l1 ++ written_by u l2.
Proof. unfold written_by. by rewrite omap_app, filter_app, fmap_app. Qed.
Lemma targets_written messages u : fold_left add_target messages ∅ !! u = match written_by u messages with [] => None | l => Some l end.
Proof.
  induction messages as [|m messages IH] using rev_ind; [done|]. rewrite fold_left_app, written_by_app. cbn [fold_left]. set (M := fold_left add_target messages ∅) in *.
  unfold add_target. assert (Hone : written_by u [m] = match parsed_id m with Some p => if decide (p.1 = u) then [p.2] else [] | None => [] end).
  { unfold written_by. change (omap parsed_id [m]) with (match parsed_id m with Some p => [p] | None => [] end).
    destruct (parsed_id m) as [[a ts]|]; [|done]. rewrite filter_cons. by destruct (decide _). }
  rewrite Hone. unfold parsed_id. destruct (ParseMessageID _) as [[a ts]|e|]; cbn; try by rewrite app_nil_r.
  destruct (decide (a = u)) as [->|Hne]; [|by rewrite lookup_insert_ne, app_nil_r].
  rewrite lookup_insert_eq, IH. destruct (written_by u messages); [done|]. by destruct (_ ++ _) eqn:E.
Qed.

Lemma send_receipts_calls targets : forall st,
  send_receipts s targets st = (mkMx (mx_portal st) (mx_table st) (mx_recipients st) (mx_pending st) (mx_calls st ++ map read_receipt (filter (fun r => r.1 <> ci_ACI s) targets)), Ok tt).
Proof.
  induction targets as [|[u ts] targets IH]; intros st; cbn [send_receipts].
  { cbn. rewrite app_nil_r. by destruct st. }
  rewrite filter_cons. cbn [fst]. case_bool_decide as Hu.
  - rewrite decide_False by tauto. apply IH.
  - rewrite decide_True by done. unfold sbind, ask. rewrite IH. cbn. by rewrite <- app_assoc.
Qed.

(** C23: everyone is told what was read, and nobody else.  When the user reads up
    to a later point, the messages in between are looked up, and each author
    among them, except the user, is sent one receipt with the timestamps of
    exactly their messages, in order; nothing else is sent or changed, also when
    a send fails. *)
Theorem read_receipts_sent readUpTo lastRead st messages (Hnew : forall l, lastRead = Some l -> l < readUpTo)
  (Hq : GetMessagesBetweenTimeQuery (po_Key (mx_portal st)) (default (readUpTo - 5000) lastRead) readUpTo = Some messages) :
  exists st' receipts, HandleMatrixReadReceipt s readUpTo lastRead st = (st', Ok tt) /\
    st' = mkMx (mx_portal st) (mx_table st) (mx_recipients st) (mx_pending st) (mx_calls st ++ map read_receipt receipts) /\ NoDup receipts.*1 /\
    (forall u, u ∈ receipts.*1 <-> u <> ci_ACI s /\ exists m ts, m ∈ messages /\ ParseMessageID (mr_ID (db_Row m)) = Ok (u, ts)) /\
    Forall (fun r => r.2 = written_by r.1 messages) receipts.
Proof.
  set (targets := fold_left add_target messages ∅). exists (mkMx (mx_portal st) (mx_table st) (mx_recipients st) (mx_pending st)
    (mx_calls st ++ map read_receipt (filter (fun r => r.1 <> ci_ACI s) (range_targets targets)))), (filter (fun r => r.1 <> ci_ACI s) (range_targets targets)).
  assert (Hin : forall r, r ∈ range_targets targets <-> targets !! r.1 = Some r.2) by (intros [u l]; by rewrite range_perm, elem_of_map_to_list).
  split_and!; [|done|..].
  - unfold HandleMatrixReadReceipt. assert (match lastRead with Some l => readUpTo <=? l | None => false end = false) as ->.
    { destruct lastRead as [l|]; [|done]. specialize (Hnew l eq_refl). lia. }
    unfold sbind, portal, must, slift. rewrite Hq. apply send_receipts_calls.
  - assert (Hnd : NoDup (range_targets targets).*1) by (rewrite range_perm; apply NoDup_fst_map_to_list).
    exact (sublist_NoDup _ _ Hnd (fmap_sublist _ _ _ (sublist_filter _ _))).
  - intros u. rewrite list_elem_of_fmap. split.
    + intros ([u' l] & -> & [Hne Hl%Hin]%list_elem_of_filter). cbn in *. split; [done|]. unfold targets in Hl. rewrite targets_written in Hl.
      destruct (written_by u' messages) as [|ts l'] eqn:Ew; [done|]. assert (ts ∈ written_by u' messages) as Hts by (rewrite Ew; left).
      unfold written_by in Hts. apply list_elem_of_fmap in Hts as ([a t] & -> & [Ha Hp]%list_elem_of_filter). cbn in Ha. subst a.
      apply list_elem_of_omap in Hp as (m & Hm & Hp). unfold parsed_id in Hp. exists m, t. split; [done|]. destruct (ParseMessageID _); congruence.
    + intros (Hne & m & ts & Hm & Hp). assert (Hw : ts ∈ written_by u messages).
      { unfold written_by. apply list_elem_of_fmap. exists (u, ts). split; [done|]. apply list_elem_of_filter. split; [done|].
        apply list_elem_of_omap. exists m. split; [done|]. unfold parsed_id. by rewrite Hp. }
      exists (u, written_by u messages). split; [done|]. apply list_elem_of_filter. split; [done|]. apply Hin. cbn. unfold targets. rewrite targets_written.
      destruct (written_by u messages); [by apply not_elem_of_nil in Hw|done].
  - apply Forall_forall. intros [u l] [_ Hl%Hin]%list_elem_of_filter. cbn in *. unfold targets in Hl. rewrite targets_written in Hl. by destruct (written_by u messages); [|injection Hl as <-].
Qed.
End ReadReceipts.

(** ** Votes *)
Section PollVotes.
Context `{MW : MxWorld} `{U : UUIDLib} `{UL : !UUIDLaws U} (s : ClientIDs) (now : Z).

Lemma index_of_lookup x l i : index_of x l = Some i -> l !! i = Some x.
Proof.
  revert i. induction l as [|y l IH]; intros i; [done|]. cbn [index_of]. destruct (beqb y x) eqn:E.
  - intros [= <-]. apply beqb_eq in E. by subst.
  - destruct (index_of x l) as [j|]; [|done]. intros [= <-]. cbn. by apply IH.
Qed.
Lemma index_of_Some x l : x ∈ l -> is_Some (index_of x l).
Proof.
  induction l as [|y l IH]; [by intros ?%not_elem_of_nil|]. cbn [index_of]. destruct (beqb y x) eqn:E; [by eexists|]. apply beqb_neq in E.
  intros [->|Hx]%elem_of_cons; [done|]. destruct (IH Hx) as [i ->]. by eexists.
Qed.

(** Known answers are sent as their positions. *)
Lemma known_indexes options answers indexes : Z.of_nat (length options) <= 2 ^ 32 -> Forall (fun a => a ∈ options) answers ->
  mapM (answer_index options) answers = Some indexes -> Forall2 (fun a i => 0 <= i /\ options !! Z.to_nat i = Some a) answers indexes.
Proof.
  intros Hlen Hall Hm. apply mapM_Some_1 in Hm. revert Hall. induction Hm as [|a i answers indexes Ha Hm IH]; intros Hall; [constructor|].
  apply Forall_cons in Hall as [Hin Hall]. constructor; [|by apply IH]. unfold answer_index in Ha. destruct (index_of_Some a options Hin) as [k Hk]. rewrite Hk in Ha. injection Ha as <-.
  apply index_of_lookup in Hk. pose proof (lookup_lt_Some _ _ _ Hk). unfold wrap. rewrite Z.mod_small by lia. split; [lia|]. by rewrite Nat2Z.id.
Qed.
Lemma option_ids options answers indexes : Forall2 (fun a i => 0 <= i /\ options !! Z.to_nat i = Some a) answers indexes -> map (option_id options) indexes = answers.
Proof. induction 1 as [|a i answers indexes [_ Hi] _ IH]; [done|]. cbn [map]. rewrite IH. unfold option_id. by rewrite Hi. Qed.

(** Votes given on Matrix are shown by everyone who gets them.  When a vote
    with answers of the poll is handled without an error, one message is sent,
    whose count is one more than that of the user's votes before, and the table
    has the new count; a bridge that knows the poll and no newer vote of the
    user shows the answers at the same positions, and with the same option IDs
    the same answers. *)
Theorem vote_shown e target answers st st' r author ts (Hrun : HandleMatrixPollVote s now e target answers st = (st', Ok r))
  (Hid : mr_ID (db_Row target) = MakeMessageID author ts) (Hts : in_width 64 ts) :
  let meta := mr_Metadata (db_Row target) in
  let count := default 0 (md_VoteCount meta !! uuid_string (ci_ACI s)) in
  let options := md_MatrixPollOptionIDs meta in
  0 <= count < 2 ^ 32 - 1 -> Z.of_nat (length options) <= 2 ^ 32 -> Forall (fun a => a ∈ options) answers ->
  exists v call, mx_calls st' = mx_calls st ++ [call] /\ sends_to (pk_ID (po_Key (mx_portal st))) (CData (stamped (getTimestampForEvent now e) (vote_message v))) call /\
    pv_VoteCount v = count + 1 /\ md_VoteCount (mr_Metadata (db_Row (counted s target))) !! uuid_string (ci_ACI s) = Some (count + 1) /\
    Forall2 (fun a i => 0 <= i /\ options !! Z.to_nat i = Some a) answers (pv_OptionIndexes v) /\
    forall read_fails update_fails cv mxid meta', read_fails (mr_ID (db_Row target)) = false -> cv_messages cv !! mr_ID (db_Row target) = Some (mxid, meta') ->
      default 0 (md_VoteCount meta' !! uuid_string (ci_ACI s)) <= count ->
      (convertPollVoteToMatrix read_fails update_fails (ci_ACI s) v cv).2 = Ok (poll_response mxid (md_MatrixPollOptionIDs meta') v) /\
      (md_MatrixPollOptionIDs meta' = options -> poll_response mxid (md_MatrixPollOptionIDs meta') v = new_part EventUnstablePollResponse (relates_to mxid) [ExPollResponse answers]).
Proof.
  intros meta count options Hcount Hlen Hall. unfold HandleMatrixPollVote in Hrun.
  apply sbind_Ok in Hrun as (st0 & parsed & [-> Hp]%ids_Ok & Hrun). rewrite Hid, message_id_roundtrip in Hp by done. injection Hp as <-.
  apply sbind_Ok in Hrun as (st0 & indexes & [-> Hix]%must_Ok & Hrun). apply sbind_Ok in Hrun as (st1 & [] & H1 & Hrun). injection H1 as <-.
  assert (Hnew : md_VoteCount (mr_Metadata (db_Row (counted s target))) !! uuid_string (ci_ACI s) = Some (count + 1)).
  { cbn. rewrite lookup_insert_eq. unfold wrap. rewrite Z.mod_small by (fold meta count; lia). done. }
  rewrite Hnew in Hrun. cbn [default] in Hrun. pose proof (known_indexes options answers indexes Hlen Hall Hix) as Hpos.
  apply doSendMessage_Ok in Hrun as (call & Hcall & -> & _). exists (mkPollVote (fixed_bytes author) ts indexes (count + 1)), call.
  split_and!; [done|exact Hcall|done|exact Hnew|exact Hpos|].
  - intros read_fails update_fails cv mxid meta' Hread Hcv Hold. unfold convertPollVoteToMatrix. cbn. rewrite to_fixed_bytes. rewrite <- Hid, Hread, Hcv.
    split; [|intros ->; unfold poll_response; cbn; by rewrite (option_ids options answers)].
    destruct (md_VoteCount meta' !! uuid_string (ci_ACI s)) as [n|]; [|done]. cbn in Hold. by replace (count + 1 <=? n) with false by lia.
Qed.
End PollVotes.

(** ** What other devices are told *)
Section Synced.
Context `{MW : MxWorld} `{U : UUIDLib} `{UL : !UUIDLaws U} (s : ClientIDs) (now : Z).
Abbreviation self := (NewACIServiceID (ci_ACI s)).

(** Portals of direct chats and groups. *)
Inductive portal_of : bytes -> ServiceID -> option (fixed 32) -> Prop :=
| DirectChat i : valid i -> portal_of (MakeDMPortalID i) i None
| GroupChat g : portal_of (MakeGroupPortalID (BytesToGroupIdentifier (Some g))) EmptyServiceID (Some g).
Lemma portal_of_parsed id i g : portal_of id i g -> ParsePortalID id = Ok (i, match g with Some g => BytesToGroupIdentifier (Some g) | None => [] end).
Proof. intros [j Hj|g']; [by destruct (portal_id_correct s j (fixed_zero 32) Hj)|by destruct (portal_id_correct s EmptyServiceID g' eq_refl) as (_ & Hg & _)]. Qed.
Lemma group_id_nonempty g : beqb (BytesToGroupIdentifier (Some g)) [] = false.
Proof. apply beqb_neq. intros Hg. pose proof (GroupIdentifier_length g) as Hl. by rewrite Hg in Hl. Qed.

(** The response as it arrives at another device. *)
Definition arrived_response (ts : Z) (type : response_type) (groupID : option (fixed 32)) (threadAci : option UUID) : MessageRequestResponse :=
  mkResponse ts (match type with MrACCEPT => ResponseACCEPT | MrBLOCK => ResponseBLOCK | MrBLOCK_AND_SPAM => ResponseBLOCK_AND_SPAM | MrDELETE | MrSPAM => ResponseOther end)
    groupID (default uuid_Nil threadAci).
Lemma sync_Ok type st st' id i g : syncMessageRequestResponse s type st = (st', Ok tt) -> id = pk_ID (po_Key (mx_portal st)) -> portal_of id i g ->
  exists thread, st' = mx_call (SendMessage self (CMessageRequestResponse type g thread)) st /\ (g = None -> thread = Some (sid_UUID i) /\ i = NewACIServiceID (sid_UUID i)).
Proof.
  intros (st1 & p & [-> ->]%portal_Ok & H)%sbind_Ok Hid Hp. apply sbind_Ok in H as (st1 & parsed & [-> Hpar]%ids_Ok & H).
  rewrite <- Hid, (portal_of_parsed id i g Hp) in Hpar. injection Hpar as <-. apply sbind_Ok in H as (st1 & c & Hc & H).
  assert (exists thread, st1 = st /\ c = CMessageRequestResponse type g thread /\ (g = None -> thread = Some (sid_UUID i) /\ i = NewACIServiceID (sid_UUID i))) as (thread & -> & -> & Ht).
  { destruct g as [g|].
    - change (Base64.encode (fixed_bytes g)) with (BytesToGroupIdentifier (Some g)) in Hc. rewrite group_id_nonempty in Hc. cbn [negb] in Hc. apply sbind_Ok in Hc as (st2 & gid & [-> Hg]%ids_Ok & Hc). rewrite GroupIdentifier_roundtrip in Hg.
      injection Hg as <-. injection Hc as <- <-. by exists None.
    - rewrite beqb_refl in Hc. cbn [negb] in Hc. unfold is_aci in Hc. case_bool_decide as Ha; [|done]. injection Hc as <- <-. eexists. split_and!; [done..|].
      intros _. split; [done|]. destruct i. cbn in *. by subst. }
  apply sbind_Ok in H as (st1 & a & [-> ->]%ask_Ok & H). exists thread. split; [|done]. by destruct (answer_send _) as [|[]]; [injection H as <-| |injection H as <-].
Qed.

(** The deletion as it arrives at another device; the bridge only sends deletions
    of whole chats ([IsFullDelete] is always set). *)
Definition arrived_delete (ts : Z) (conversation : ConversationIdentifier) : DeleteForMe := mkDeleteForMe ts [(conversation, true)] [] [].
Definition conversation_of (i : ServiceID) (g : option (fixed 32)) : ConversationIdentifier :=
  match g with Some g => ThreadGroupId (fixed_bytes g) | None => ThreadServiceIdBinary (ServiceID_Bytes i) end.
Lemma conversation_understood s2 id i g : portal_of id i g -> conversationIDToPortalKey s2 (conversation_of i g) = Some (makePortalKey s2 id).
Proof.
  intros [j Hj|g']; cbn.
  - destruct (service_id_roundtrip j Hj) as [_ ->]. by destruct (portal_id_correct s2 j (fixed_zero 32) Hj) as (_ & _ & _ & -> & _).
  - by rewrite to_fixed_bytes.
Qed.

(** The group is left when the user is in it. *)
Definition leaves (st : MxState) (joined : option bool) (g : option (fixed 32)) : list client_call :=
  match g, joined with
  | Some g, Some true => [UpdateGroup (with_revision (uint32 (po_Revision (mx_portal st) + 1)) (with_members [] [ci_ACI s] [] [] [] [] [] [] [])) (BytesToGroupIdentifier (Some g))]
  | _, _ => []
  end.
Lemma recent_ids messages : Forall (fun m => exists author ts, mr_ID (db_Row m) = MakeMessageID author ts /\ in_width 64 ts) messages ->
  map addressableMessageToID (concat (map recent_message messages)) = map (fun m => mr_ID (db_Row m)) messages.
Proof.
  induction 1 as [|m messages (author & ts & Hid & Hw) _ IH]; [done|]. cbn [map concat]. rewrite map_app, IH. unfold recent_message. rewrite Hid, message_id_roundtrip by done.
  cbn [map app]. f_equal. unfold addressableMessageToID. cbn [am_Author]. destruct (service_id_roundtrip (NewACIServiceID author) eq_refl) as [_ Hb].
  change (ServiceID_Bytes (NewACIServiceID author)) with (fixed_bytes author) in Hb. by rewrite Hb.
Qed.

(** C24: a chat that is deleted on Matrix is deleted everywhere.  When the
    deletion of a portal is handled without an error, the user leaves a group
    they are in, and the own devices are told; another bridge of the account
    takes the message for the deletion of the same chat and of nothing else.
    The messages that are named are the last five of the last month. *)
Theorem chat_deletion_synced joined fromMessageRequest st st' id i g (Hrun : HandleMatrixDeleteChat s now joined fromMessageRequest st = (st', Ok tt))
  (Hid : id = pk_ID (po_Key (mx_portal st))) (Hp : portal_of id i g) :
  exists requests recent, mx_calls st' = mx_calls st ++ leaves st joined g ++ requests ++ [SendMessage self (CDeleteForMe (conversation_of i g) recent)] /\
    (forall s2 ts, delete_events s2 (arrived_delete ts (conversation_of i g)) = [RChatDelete (makePortalKey s2 id) (int64 ts)]) /\
    (requests = [] \/ exists thread, requests = [SendMessage self (CMessageRequestResponse MrDELETE g thread)]) /\
    (forall messages, GetMessagesBetweenTimeQuery (po_Key (mx_portal st)) (now - month_ms) now = Some messages ->
       Forall (fun m => exists author ts, mr_ID (db_Row m) = MakeMessageID author ts /\ in_width 64 ts) messages ->
       map addressableMessageToID recent = map (fun m => mr_ID (db_Row m)) (drop (length messages - 5) messages)).
Proof.
  apply sbind_Ok in Hrun as (st1 & p & [-> ->]%portal_Ok & H). apply sbind_Ok in H as (st1 & parsed & [-> Hpar]%ids_Ok & H).
  rewrite <- Hid, (portal_of_parsed id i g Hp) in Hpar. apply Ok_inj in Hpar. subst parsed. cbn beta iota in H. set (gid := match g with Some g => _ | None => _ end) in H.
  apply sbind_Ok in H as (st1 & [] & H1 & H). apply sbind_Ok in H as (st2 & [] & H2 & H). apply sbind_Ok in H as (st3 & c & H3 & H).
  assert (Hst1 : mx_calls st1 = mx_calls st ++ leaves st joined g /\ po_Key (mx_portal st1) = po_Key (mx_portal st)).
  { destruct g as [g|]; subst gid; cbn iota in H1; [|rewrite beqb_refl in H1; injection H1 as <-; by rewrite app_nil_r]. rewrite group_id_nonempty in H1.
    apply sbind_Ok in H1 as (st4 & j & [-> ->]%must_Ok & H1). destruct j; [|injection H1 as <-; by rewrite app_nil_r].
    apply sbind_Ok in H1 as (st4 & rev & [-> _]%update_group_Ok & H1). by injection H1 as <-. }
  destruct Hst1 as [Hc1 Hk1]. assert (exists requests, mx_calls st2 = mx_calls st1 ++ requests /\
    (requests = [] \/ exists thread, requests = [SendMessage self (CMessageRequestResponse MrDELETE g thread)])) as (requests & Hc2 & Hreq).
  { destruct fromMessageRequest; [|injection H2 as <-; exists []; rewrite app_nil_r; by split; [|left]].
    destruct (sync_Ok MrDELETE st1 st2 id i g H2) as (thread & -> & _); [by rewrite Hk1|done|]. eexists. split; [done|]. right. by exists thread. }
  assert (st3 = st2 /\ c = conversation_of i g) as [-> ->].
  { destruct g as [g|]; subst gid; cbn iota in H3; [rewrite group_id_nonempty in H3|rewrite beqb_refl in H3; by injection H3 as <- <-].
    apply sbind_Ok in H3 as (st4 & raw & [-> Hraw]%ids_Ok & H3). rewrite GroupIdentifier_roundtrip in Hraw. injection Hraw as <-. by injection H3 as <- <-. }
  apply sbind_Ok in H as (st4 & r & [-> ->]%ask_Ok & H). destruct (answer_send _); [|done]. injection H as <-.
  exists requests, (most_recent (GetMessagesBetweenTimeQuery (po_Key (mx_portal st)) (now - month_ms) now)). split_and!; [|..|done|].
  - cbn. by rewrite Hc2, Hc1, <- !app_assoc.
  - intros s2 ts. unfold delete_events. cbn. unfold chat_delete. by rewrite (conversation_understood s2 id i g Hp).
  - intros messages Hq Hall. rewrite Hq. cbn [most_recent]. apply recent_ids. by apply Forall_drop.
Qed.

(** *** Blocking *)
Definition report (u : UUID) (m : DbMessage) : client_call := ReportSpam u (md_ServerGUID (mr_Metadata (db_Row m))) (md_ReportingToken (mr_Metadata (db_Row m))).
Definition guid (m : DbMessage) : bytes := md_ServerGUID (mr_Metadata (db_Row m)).
(** Reports of different messages of a user. *)
Lemma report_loop_Ok u messages : forall seen st st' seen', report_loop u messages seen st = (st', Ok seen') -> NoDup seen -> (length seen <= 2)%nat ->
  exists reports, mx_calls st' = mx_calls st ++ map (report u) reports /\ mx_portal st' = mx_portal st /\ mx_recipients st' = mx_recipients st /\
    seen' = seen ++ map guid reports /\ NoDup seen' /\ (length seen' <= 3)%nat /\ Forall (fun m => m ∈ messages /\ db_SenderID m = MakeUserID u /\ guid m <> []) reports.
Proof.
  induction messages as [|m messages IH]; intros seen st st' seen' H Hnd Hlen; cbn [report_loop] in H.
  { injection H as <- <-. exists []. cbn. rewrite !app_nil_r. split_and!; try done. lia. }
  destruct (_ || _) eqn:Eskip.
  { destruct (IH seen st st' seen' H Hnd Hlen) as (reports & H1 & H2 & H3 & H4 & H5 & H6 & H7). exists reports. split_and!; try done.
    eapply Forall_impl; [exact H7|]. intros m' (Hm & ?). split; [by right|done]. }
  apply orb_false_elim in Eskip as [[Es Eg]%orb_false_elim Ex]. apply negb_false_iff, beqb_eq in Es. apply beqb_neq in Eg.
  assert (Hnew : guid m ∉ seen).
  { intros Hin%list_elem_of_In. assert (existsb (beqb (guid m)) seen = true) as Ht by (apply existsb_exists; exists (guid m); split; [done|apply beqb_refl]). unfold guid in Ht. congruence. }
  apply sbind_Ok in H as (st1 & ok & [-> _]%ask_Ok & H). destruct ok; [|done]. cbn [negb] in H. fold (guid m) in H.
  assert (Hnd' : NoDup (seen ++ [guid m])) by (apply NoDup_app; split_and!; [done|intros x Hx ->%list_elem_of_singleton; done|apply NoDup_singleton]).
  rewrite length_app in H. cbn [length] in H. destruct (Nat.eqb_spec (length seen + 1) 3).
  - injection H as <- <-. exists [m]. split_and!; try done; [rewrite length_app; cbn; lia|]. constructor; [|done]. by split; [left|].
  - destruct (IH _ _ _ _ H Hnd') as (reports & H1 & H2 & H3 & H4 & H5 & H6 & H7); [rewrite length_app; cbn; lia|]. exists (m :: reports). cbn in H1.
    rewrite <- app_assoc in H1, H4. split_and!; try done. constructor; [by split; [left|]|]. eapply Forall_impl; [exact H7|]. intros m' (Hm & ?). split; [by right|done].
Qed.

Lemma update_blocked store u block store' r : u <> uuid_Nil ->
  LoadAndUpdateRecipient store u uuid_Nil (fun r => Some (set_blocked block r, negb (Bool.eqb (r_Blocked r) block))) = (store', Ok r) -> blockCache store' !! u = Some block.
Proof.
  intros Hu. unfold LoadAndUpdateRecipient. rewrite (bool_decide_eq_false_2 _ Hu), (bool_decide_eq_true_2 (uuid_Nil = uuid_Nil)) by done. cbn [negb andb].
  assert (Hsingle : forall entry res cache, (forall e, entry = Some e -> r_ACI e = u) ->
    update_single store u uuid_Nil entry (fun r => Some (set_blocked block r, negb (Bool.eqb (r_Blocked r) block))) = (res, cache) ->
    match res with Ok (_, (r, _)) => r_ACI r = u /\ r_Blocked r = block | _ => True end).
  { intros entry res cache He. unfold update_single. set (r0 := default _ entry). assert (Hr0 : r_ACI (set_blocked block r0) = u) by (subst r0; destruct entry as [e|]; [exact (He e eq_refl)|done]).
    rewrite !Hr0. rewrite (bool_decide_eq_false_2 _ Hu), (bool_decide_eq_true_2 (uuid_Nil = uuid_Nil)) by done. cbn [negb andb]. rewrite !andb_false_r. rewrite Hr0, (bool_decide_eq_false_2 _ Hu). cbn [andb].
    destruct (_ || _); [|by intros [= <- _]]. destruct (StoreRecipient _ _ _) as [[l|e|] c]; by intros [= <- _]. }
  assert (Hload : forall e, LoadRecipientByACI store u = Some e -> r_ACI e = u).
  { intros e He. unfold LoadRecipientByACI in He. assert (e ∈ filter (has_ACI u) (rows store)) as [[Ha _] _]%list_elem_of_filter; [|done]. destruct (filter _ _); [done|]. injection He as ->. left. }
  destruct (LoadRecipientByACI store u) as [e|] eqn:El; unfold option_list; cbn [from_option option_rect].
  all: destruct (update_single _ _ _ _ _) as [[[l [r' changed]]|e'|] cache] eqn:Eu; [|intros Hx; discriminate Hx..]; apply Hsingle in Eu as [Ha Hb]; try (intros ? [= <-]; by apply Hload); try (intros ? Hx; discriminate Hx).
  all: rewrite Ha, (bool_decide_eq_false_2 _ Hu); cbn [negb]; intros [= <- _]; cbn; by rewrite lookup_insert_eq, Hb.
Qed.

(** C25: blocking a user is carried out here and told to the other devices.
    When blocking or unblocking is handled without an error, the portal is a
    direct chat with an ACI, the user counts as blocked as was asked, and
    the own devices are told; another bridge of the account shows the same
    chat as blocked, or as accepted and not blocked when the block was lifted,
    and does nothing when spam was only reported.  At most three different
    messages of the user were reported, and one at least when that was asked. *)
Theorem block_synced block spam st st' id i g (Hrun : HandleMatrixBlockUser s block spam st = (st', Ok tt)) (Hid : id = pk_ID (po_Key (mx_portal st))) (Hp : portal_of id i g) :
  exists u reports, i = NewACIServiceID u /\ g = None /\ blockCache (mx_recipients st') !! u = Some block /\
    mx_calls st' = mx_calls st ++ map (report u) reports ++ [SendMessage self (CMessageRequestResponse (block_response block spam) None (Some u))] /\
    Forall (fun m => db_SenderID m = MakeUserID u) reports /\ NoDup (map guid reports) /\ (length reports <= 3)%nat /\ (reports <> [] <-> spam = true) /\
    forall s2 accepts ts b, handleSignalMessageRequestResponse s2 accepts (arrived_response ts (block_response block spam) None (Some u)) b =
      if spam && negb block then (b, true)
      else QueueRemoteEvent accepts (RRequestChange (makePortalKey s2 id) (int64 ts) (if block then None else Some false) (Some block)) b.
Proof.
  apply sbind_Ok in Hrun as (st1 & p & [-> ->]%portal_Ok & H). apply sbind_Ok in H as (st1 & parsed & [-> Hpar]%ids_Ok & H).
  rewrite <- Hid, (portal_of_parsed id i g Hp) in Hpar. apply Ok_inj in Hpar. subst parsed. cbn [fst snd] in H. destruct g as [g|]; [by rewrite group_id_nonempty in H|].
  rewrite beqb_refl in H. cbn [negb] in H. destruct (ToACIAndPNI i) as [u pni] eqn:Eu. case_bool_decide as Hu; [done|].
  assert (i = NewACIServiceID u /\ pni = uuid_Nil) as [Hi ->].
  { unfold ToACIAndPNI in Eu. destruct i as [ty v]. cbn in Eu. repeat case_bool_decide; injection Eu as <- <-; cbn in *; by subst. }
  apply sbind_Ok in H as (st1 & [] & Hsp & H). apply sbind_Ok in H as (st2 & [] & Hsync & H).
  assert (exists reports, mx_calls st1 = mx_calls st ++ map (report u) reports /\ mx_portal st1 = mx_portal st /\ Forall (fun m => db_SenderID m = MakeUserID u) reports /\
    NoDup (map guid reports) /\ (length reports <= 3)%nat /\ (reports <> [] <-> spam = true)) as (reports & R1 & R2 & R3 & R4 & R5 & R6).
  { destruct spam; [|injection Hsp as <-; exists []; rewrite app_nil_r; split_and!; try done; [constructor|cbn; lia]].
    unfold reportSpam in Hsp. apply sbind_Ok in Hsp as (st4 & p & [-> ->]%portal_Ok & Hsp). apply sbind_Ok in Hsp as (st4 & messages & [-> _]%must_Ok & Hsp).
    apply sbind_Ok in Hsp as (st4 & seen & Hl & Hsp). destruct (report_loop_Ok u messages [] st st4 seen Hl) as (reports & Q1 & Q2 & _ & Q4 & Q5 & Q6 & Q7); [constructor|cbn; lia|].
    cbn in Q4. subst seen. destruct reports as [|m reports]; [done|]. injection Hsp as <-. exists (m :: reports). rewrite length_map in Q6. split_and!; try done.
    eapply Forall_impl; [exact Q7|]. by intros m' (_ & ? & _). }
  destruct (sync_Ok _ st1 st2 id i None Hsync) as (thread & -> & Hth); [by rewrite R2|done|]. destruct (Hth eq_refl) as [-> _].
  destruct (LoadAndUpdateRecipient _ u uuid_Nil _) as [store [r|e|]] eqn:El; try done. injection H as <-. exists u, reports. subst i. cbn [sid_UUID NewACIServiceID] in *.
  split_and!; try done; [by eapply update_blocked|cbn; by rewrite R1, <- app_assoc|..]; try apply R6.
  intros s2 accepts ts b. assert (Hkey : makeDMPortalKey s2 (NewACIServiceID u) = makePortalKey s2 id).
  { inversion Hp as [j Hj|]; subst. by destruct (portal_id_correct s2 _ (fixed_zero 32) Hj) as (_ & _ & _ & <- & _). }
  unfold handleSignalMessageRequestResponse. cbn -[makeDMPortalKey makePortalKey]. rewrite (bool_decide_eq_false_2 _ Hu), Hkey. by destruct spam, block.
Qed.
End Synced.

(** ** Edits and deletions are of the own messages *)
Section Edits.
Context `{MW : MxWorld} `{SW : SendWorld} `{W : MediaWorld} `{H : HTMLEnv} `{E : FmtEnv} `{U : UUIDLib} `{UL : !UUIDLaws U} (s : ClientIDs) (now : Z).

Lemma timestamp_width e : in_width 64 (getTimestampForEvent now e).
Proof.
  unfold getTimestampForEvent. assert (Hw : forall z, in_width 64 (uint64 z)) by (intros z; apply wrap_range; lia).
  destruct (ev_Relayed e); [apply Hw|]. destruct (ev_TransactionID e) as [|b txn]; [apply Hw|].
  destruct (Decimal.parse_uint (b :: txn)) eqn:Ep; [by eapply Decimal.parse_uint_range|apply Hw..].
Qed.

(** An edit goes to the chat of the portal and names the timestamp of the own
    message it changes.  The row gets the ID of the edit, so that the next edit
    names this one. *)
Lemma matrix_edit_own e isSticker c target st st' new : HandleMatrixEdit s now e isSticker c target st = (st', Ok new) ->
  db_SenderID target = MakeUserID (ci_ACI s) /\ md_ViewOnce (mr_Metadata (db_Row target)) = false /\
  exists author sent converted call, ParseMessageID (mr_ID (db_Row target)) = Ok (author, sent) /\ mx_calls st' = mx_calls st ++ [call] /\
    sends_to (pk_ID (po_Key (mx_portal st))) (CEdit sent (stamped (getTimestampForEvent now e) converted)) call /\
    new = edited target (MakeMessageID (ci_ACI s) (getTimestampForEvent now e)) converted /\ mx_table st' = save_edited target new (mx_table st) /\
    ParseMessageID (mr_ID (db_Row new)) = Ok (ci_ACI s, getTimestampForEvent now e).
Proof.
  unfold HandleMatrixEdit. destruct (_ || _) eqn:Ev; [done|]. apply orb_false_elim in Ev as [_ Ev]. intros Hrun.
  apply sbind_Ok in Hrun as (st0 & [author sent] & [-> Hp]%ids_Ok & Hrun). destruct (beqb (db_SenderID target) _) eqn:Es; [|done]. apply beqb_eq in Es. cbn [negb] in Hrun.
  apply sbind_Ok in Hrun as (st0 & replyTo & Hr & Hrun). assert (st0 = st) as -> by (destruct (db_ReplyTo target) as [[|]|]; [by injection Hr as <-|by apply must_Ok in Hr as [-> _]|by injection Hr as <-]).
  apply sbind_Ok in Hrun as (st0 & converted & Hc & Hrun). apply sbind_Ok in Hc as (st1 & p & [-> ->]%portal_Ok & [-> _]%slift_Ok).
  apply sbind_Ok in Hrun as (st1 & p & [-> ->]%portal_Ok & Hrun). apply sbind_Ok in Hrun as (st1 & [] & (call & Hcall & ->)%sendMessage_Ok & Hrun).
  apply sbind_Ok in Hrun as (st1 & u & H1 & Hrun). injection H1 as <- <-. injection Hrun as <- <-.
  split_and!; [done|done|]. exists author, sent, converted, call. split_and!; try done. cbn. apply message_id_roundtrip, timestamp_width.
Qed.
Lemma matrix_delete_own e target st st' : HandleMatrixMessageRemove s now e target st = (st', Ok tt) ->
  db_SenderID target = MakeUserID (ci_ACI s) /\ exists author sent call, ParseMessageID (mr_ID (db_Row target)) = Ok (author, sent) /\ mx_calls st' = mx_calls st ++ [call] /\
    sends_to (pk_ID (po_Key (mx_portal st))) (CData (delete_message (getTimestampForEvent now e) sent)) call.
Proof.
  unfold HandleMatrixMessageRemove. intros Hrun. apply sbind_Ok in Hrun as (st0 & [author sent] & [-> Hp]%ids_Ok & Hrun).
  destruct (beqb (db_SenderID target) _) eqn:Es; [|done]. apply beqb_eq in Es. cbn [negb] in Hrun.
  apply sbind_Ok in Hrun as (st1 & p & [-> ->]%portal_Ok & (call & Hcall & ->)%sendMessage_Ok). split; [done|]. by exists author, sent, call.
Qed.

(** A duplicate of the edit finds the stub and is ignored. *)
Lemma edited_row_ignored target newID converted table (Hsaves : db_saves = true) : mr_ID (db_Row target) <> newID ->
  rows_with (mr_ID (db_Row target)) (map db_Row table) = [db_Row target] -> (forall r, r ∈ table -> db_Row r = db_Row target -> r = target) ->
  forall GetUserInfo MergeCaption a b c now' read_fails update_fails evt dm sent st, ce_Event evt = PlEdit sent dm -> 
  ConvertEdit GetUserInfo MergeCaption s a b c now' read_fails update_fails evt
    (rows_with (mr_ID (db_Row target)) (map db_Row (save_edited target (edited target newID converted) table))) st = (st, Err IgnoringRemoteEvent).
Proof.
  intros Hne Hone Huniq GetUserInfo MergeCaption a b c now' read_fails update_fails evt dm sent st He.
  assert (Hrows : rows_with (mr_ID (db_Row target)) (map db_Row (save_edited target (edited target newID converted) table)) = [db_Row (saveEditStub (mr_ID (db_Row target)) (edited target newID converted))]).
  { unfold save_edited. cbn [edited db_Row mr_ID]. rewrite (proj2 (beqb_neq _ _) Hne), Hsaves. cbn [negb andb]. unfold rows_with. rewrite map_app, List.filter_app. cbn [map List.filter saveEditStub db_Row mr_ID].
    rewrite beqb_refl. replace (List.filter _ (map db_Row (map _ table))) with (@nil MsgRow); [done|]. symmetry. apply rows_with_none.
    intros r (r1 & -> & (r0 & -> & Hr0)%list_elem_of_fmap)%list_elem_of_fmap. destruct (decide (r0 = target)) as [->|Hn]; [by apply not_eq_sym|]. intros Hid. apply Hn, Huniq; [done|].
    assert (db_Row r0 ∈ rows_with (mr_ID (db_Row target)) (map db_Row table)) as Hin; [|rewrite Hone in Hin; by apply list_elem_of_singleton in Hin].
    apply list_elem_of_In, filter_In. split; [by apply list_elem_of_In, list_elem_of_fmap_2|]. rewrite Hid. apply beqb_refl. }
  rewrite Hrows. unfold ConvertEdit. rewrite He. cbn. destruct (match dm with Some dm => _ | None => _ end); done.
Qed.
End Edits.

(** ** Power levels come back on the same side of the moderators *)
Definition same_side (plc : option PowerLevelChange) (shown : option Z) : Prop :=
  match shown with
  | Some l => exists c, plc = Some c /\ hasAdminChanged plc = true /\ (l <? moderatorPL) = (plc_NewLevel c <? moderatorPL)
  | None => hasAdminChanged plc = false
  end.
Lemma changed_side {A : Type} plc (f : Z -> A) (g : A -> Z) : (forall l, (g (f l) <? moderatorPL) = (l <? moderatorPL)) -> same_side plc (g <$> changed_level plc f).
Proof.
  intros Hfg. unfold changed_level. destruct plc as [c|]; [|done]. destruct (hasAdminChanged (Some c)) eqn:Ec; cbn; [|done]. exists c. by split_and!.
Qed.
Lemma power_levels_back `{U : UUIDLib} m :
  let pls := default (mkPowerLevels None None []) (change_power_levels (power_level_change m)) in
  same_side (pe_EventsDefault m) (pl_EventsDefault pls) /\ same_side (pe_Invite m) (pl_Invite pls) /\
  forall event l, (event, l) ∈ pl_Events pls -> same_side (pe_StateDefault m) (Some l).
Proof.
  intros pls.
  pose proof (changed_side (pe_EventsDefault m) (fun pl => moderatorPL <=? pl) (fun b : bool => if b then moderatorPL else defaultPL)) as H1.
  pose proof (changed_side (pe_StateDefault m) plToAccessControl (fun a => if a =? AccessControl_ADMINISTRATOR then moderatorPL else defaultPL)) as H2.
  pose proof (changed_side (pe_Invite m) plToAccessControl (fun a => if a =? AccessControl_ADMINISTRATOR then moderatorPL else defaultPL)) as H3.
  assert (Hac : forall l, ((if plToAccessControl l =? AccessControl_ADMINISTRATOR then moderatorPL else defaultPL) <? moderatorPL) = (l <? moderatorPL)).
  { intros l. unfold plToAccessControl. destruct (Z.leb_spec moderatorPL l); cbn; unfold moderatorPL in *; lia. }
  specialize (H2 Hac). specialize (H3 Hac).
  assert (H1' : same_side (pe_EventsDefault m) ((fun b : bool => if b then moderatorPL else defaultPL) <$> changed_level (pe_EventsDefault m) (fun pl => moderatorPL <=? pl))).
  { apply H1. intros l. destruct (Z.leb_spec moderatorPL l); unfold moderatorPL, defaultPL in *; lia. }
  subst pls. unfold change_power_levels. cbn [power_level_change gch_ModifyAnnouncementsOnly gch_ModifyAttributesAccess gch_ModifyMemberAccess].
  destruct (changed_level (pe_EventsDefault m) _), (changed_level (pe_StateDefault m) _), (changed_level (pe_Invite m) _); cbn in *; (split; [done|split; [done|]]).
  all: intros event l Hl; rewrite ?elem_of_cons, ?elem_of_nil in Hl; naive_solver.
Qed.

(** ** A concrete environment and witnesses *)
Module SampleHandlers.
Import CanonicalUUID SampleConvert SampleMatrix.

Definition login : ClientIDs := {| ci_SplitPortals := false; ci_UserLoginID := uuid_string me; ci_ACI := me |}.
Definition key : fixed 32 := mk_fixed (n := 32) (repeat x41 32) eq_refl.
Definition group_chat : bytes := MakeGroupPortalID (BytesToGroupIdentifier (Some key)).
Definition direct_chat : bytes := MakeDMPortalID (NewACIServiceID them).
Definition room (id : bytes) : PortalKey := {| pk_ID := id; pk_Receiver := [] |}.
Definition written (author : UUID) (ts : Z) (meta : MessageMetadata) : DbMessage :=
  mkDb (mkRow (room direct_chat) (MakeMessageID author ts) [] (str "$event") ts 0 meta) (MakeUserID author) None.
Definition spam_meta (g : bytes) : MessageMetadata := mkMetadata g (str "token") false false [] ∅ false.
Definition history : list DbMessage := [written them 1001 (spam_meta (str "a")); written me 1002 empty_metadata; written them 1003 (spam_meta (str "b"))].
#[export] Instance sample_world : MxWorld := {
  answer_send _ := Sent;
  answer_group _ := GroupSent 1 0;
  answer_update calls := Some (Z.of_nat (length calls) + 7);
  answer_upload _ := Some (str "path");
  answer_plain _ := true;
  GetMessagesBetweenTimeQuery _ _ _ := Some history;
  GetLastNInPortal _ _ := Some history;
  GetFirstOrSpecificPartByID _ := Some None;
  db_saves := true;
  FullyQualify e := e;
  DownloadAvatar url := Some url;
  range_targets := map_to_list
}.
Definition at_portal (id : bytes) (isDM : bool) (table : list DbMessage) : MxState :=
  mkMx (mkPortal (room id) isDM 7 [] [] [] [] [] false false false no_disappear 0) table (mkStore [] ∅) [] [].
Definition event : MatrixEvent := mkEvent [] 1700000000000 false.
Definition membership_of (t : membership_change) (levelsFailed : bool) : MembershipEvent :=
  mkMembership t (AGhost (MakeUserID them)) (Some (str "@them:example.com")) levelsFailed (Ok 100).
Definition no_devices (u : UUID) : option UUID := None.

Lemma membership_roundtrip_witness :
  exists st' gc patch, HandleMatrixMembership login 5 event (membership_of BanJoined false) (at_portal group_chat false []) = (st', Ok tt) /\
    mx_calls st' = [UpdateGroup gc group_chat] /\
    gc = with_revision 8 (with_members [] [them] [] [] [] [] [] [mkBanned (NewACIServiceID them) 5] []) /\
    change_member_map login uuid_Nil no_devices gc = Ok patch /\ shown patch = {[ MakeUserID them := MembershipBan ]}.
Proof.
  assert (exists st', HandleMatrixMembership login 5 event (membership_of BanJoined false) (at_portal group_chat false []) = (st', Ok tt)) as [st' Hrun] by (eexists; vm_compute; reflexivity).
  assert (Hi : ParseGhostOrUserLoginID (AGhost (MakeUserID them)) = Ok (NewACIServiceID them)) by (vm_compute; reflexivity).
  assert (Hg : ParsePortalID group_chat = Ok (EmptyServiceID, group_chat)) by (vm_compute; reflexivity).
  destruct (membership_roundtrip login uuid_Nil no_devices 5 event (membership_of BanJoined false) (at_portal group_chat false []) st' (NewACIServiceID them) EmptyServiceID group_chat
    Hrun eq_refl eq_refl Hi Hg ltac:(vm_compute; discriminate)) as (gc & role & rev & H1 & _ & H2 & _ & _ & H5).
  destruct (H5 eq_refl) as (patch & H6 & H7).
  exists st', gc, patch. split; [exact Hrun|]. split; [exact H1|]. split; [rewrite H2; reflexivity|]. split; [exact H6|exact H7].
Defined.

Lemma read_receipts_sent_witness :
  exists st' receipts, HandleMatrixReadReceipt login 2000 None (at_portal direct_chat true []) = (st', Ok tt) /\ mx_calls st' = map read_receipt receipts /\
    (forall u, u ∈ receipts.*1 -> u <> me) /\ Forall (fun r => r.2 = written_by r.1 history) receipts /\ written_by them history = [1001; 1003].
Proof.
  assert (Hperm : forall m, range_targets m ≡ₚ map_to_list m) by (intros m; apply Permutation_refl).
  destruct (read_receipts_sent login Hperm 2000 None (at_portal direct_chat true []) history) as (st' & receipts & H1 & -> & _ & H3 & H4);
    [intros l [=]|reflexivity|].
  eexists _, receipts. split; [exact H1|]. split; [reflexivity|]. split; [|split; [exact H4|vm_compute; reflexivity]]. intros u Hu. by apply H3.
Defined.

Definition poll_meta : MessageMetadata := mkMetadata [] [] false false [str "yes"; str "no"] (<[uuid_string me := 2]> ∅) false.
Definition poll : DbMessage := written them 1001 poll_meta.
Definition poll_known : ConvState := mkConv no_disappear 0 (<[MakeMessageID them 1001 := (str "$poll", poll_meta)]> ∅).
Lemma vote_shown_witness :
  exists st' r v, HandleMatrixPollVote login 5 event poll [str "no"] (at_portal direct_chat true [poll]) = (st', Ok r) /\ pv_VoteCount v = 3 /\
    (convertPollVoteToMatrix no_failures no_failures me v poll_known).2 = Ok (new_part EventUnstablePollResponse (relates_to (str "$poll")) [ExPollResponse [str "no"]]).
Proof.
  assert (exists st' r, HandleMatrixPollVote login 5 event poll [str "no"] (at_portal direct_chat true [poll]) = (st', Ok r)) as (st' & r & Hrun) by (do 2 eexists; vm_compute; reflexivity).
  assert (Hc : default 0 (md_VoteCount (mr_Metadata (db_Row poll)) !! uuid_string (ci_ACI login)) = 2) by (vm_compute; reflexivity).
  destruct (vote_shown login 5 event poll [str "no"] (at_portal direct_chat true [poll]) st' r them 1001 Hrun eq_refl ltac:(unfold in_width; lia) ltac:(rewrite Hc; lia)
    ltac:(vm_compute; discriminate) ltac:(constructor; [by right; left|constructor])) as (v & call & _ & _ & Hv & _ & _ & Hall).
  rewrite Hc in Hv, Hall. exists st', r, v. split; [exact Hrun|]. split; [exact Hv|].
  destruct (Hall no_failures no_failures poll_known (str "$poll") (mr_Metadata (db_Row poll)) eq_refl ltac:(vm_compute; reflexivity) ltac:(rewrite Hc; lia)) as [Hshown Hsame].
  rewrite Hsame in Hshown by reflexivity. exact Hshown.
Defined.

Lemma chat_deletion_synced_witness :
  exists st' recent, HandleMatrixDeleteChat login 5 (Some true) true (at_portal group_chat false []) = (st', Ok tt) /\
    last (mx_calls st') = Some (SendMessage (NewACIServiceID me) (CDeleteForMe (ThreadGroupId (fixed_bytes key)) recent)) /\
    map addressableMessageToID recent = [MakeMessageID them 1001; MakeMessageID me 1002; MakeMessageID them 1003] /\
    delete_events login (arrived_delete 9 (ThreadGroupId (fixed_bytes key))) = [RChatDelete (room group_chat) 9].
Proof.
  assert (exists st', HandleMatrixDeleteChat login 5 (Some true) true (at_portal group_chat false []) = (st', Ok tt)) as [st' Hrun] by (eexists; vm_compute; reflexivity).
  destruct (chat_deletion_synced login 5 (Some true) true (at_portal group_chat false []) st' group_chat EmptyServiceID (Some key) Hrun eq_refl (GroupChat key))
    as (requests & recent & H1 & H2 & _ & H4).
  exists st', recent. split; [exact Hrun|]. split; [rewrite H1, !app_assoc, last_snoc; reflexivity|]. split; [|exact (H2 login 9)].
  refine (H4 history eq_refl _). unfold history. repeat (constructor; [first [exists them, 1001; by split|exists me, 1002; by split|exists them, 1003; by split]|]). constructor.
Defined.

Lemma block_synced_witness :
  exists st' reports, HandleMatrixBlockUser login true true (at_portal direct_chat true []) = (st', Ok tt) /\ blockCache (mx_recipients st') !! them = Some true /\
    mx_calls st' = map (report them) reports ++ [SendMessage (NewACIServiceID me) (CMessageRequestResponse MrBLOCK_AND_SPAM None (Some them))] /\ reports <> [].
Proof.
  assert (exists st', HandleMatrixBlockUser login true true (at_portal direct_chat true []) = (st', Ok tt)) as [st' Hrun] by (eexists; vm_compute; reflexivity).
  destruct (block_synced login true true (at_portal direct_chat true []) st' direct_chat (NewACIServiceID them) None Hrun eq_refl (DirectChat (NewACIServiceID them) eq_refl))
    as (u & reports & [= <-] & _ & H1 & H2 & _ & _ & _ & H3 & _).
  exists st', reports. split; [exact Hrun|]. split; [exact H1|]. split; [exact H2|]. by apply H3.
Defined.

(** *** Behaviour worth knowing *)

(** An administrator of the room who is invited becomes a normal member. *)
Lemma invited_admin_is_member : new_role (membership_of Invite false) = Ok GroupMember_DEFAULT /\ new_role (membership_of Invite true) = Ok GroupMember_ADMINISTRATOR.
Proof. by split. Qed.
(** Power levels that do not concern Signal still update the group. *)
Lemma unchanged_levels_sent :
  mx_calls (HandleMatrixPowerLevels (mkPLEvent [] (Some (mkPL 0 10)) None None) (at_portal group_chat false [])).1 = [UpdateGroup empty_change group_chat].
Proof. vm_compute. reflexivity. Qed.
End SampleHandlers.
